(* ===== verification/_CoqProject ===== *)
-Q . S2P
Metal.v
Prelude.v
Ring.v
CoopState.v
CoopRun.v
CoopRefs.v
CoopMutex.v
CoopInv.v
CoopStep.v
CoopSpec.v
CoopFair.v
CoopApi.v
CoopRace.v
Dt.v
Memmap.v
MemmapSort.v
MemmapSpec.v
WgCrypto.v
WgAead.v
WgBlake.v
WgX25519.v
Curve25519.v
Wg.v
Udp.v
Dns.v
DnsSpec.v
Tftp.v
TftpSpec.v
Dhcp.v
DhcpSpec.v
DhcpLan.v
Dstate.v
DstateSpec.v
DstateNet.v
Process.v
ProcessSpec.v
ProcessTable.v
Http.v
HttpSpec.v
HttpFetch.v
Fwd.v
FwdSpec.v
FwdLife.v
Pci.v
PciSpec.v
Vblk.v
VblkSpec.v
VblkDisk.v
BlkTable.v
Services.v
MeshDb.v
MeshNet.v
Fat.v
FatSafe.v
FatChain.v
FatTree.v
BlkFat.v
Fs.v
FsSpec.v
Edit.v
EditSafe.v
EditText.v
EditDoc.v
EditSpec.v
Build.v
BuildSafe.v
BuildParse.v
Ip.v
IpWire.v
IpLink.v
IpTcp.v
IpInput.v
IpRoutes.v
IpLoop.v
IpNet.v
TcpSeg.v
TcpInv.v
TcpStep.v
TcpCalls.v
TcpNet.v
