(* ===== verification/Metal.v ===== *)
(** * Verification of the metal runtime

    [pymergetic.metal] is a small operating runtime in C, built from cards: a
    card is a directory under src/src/pymergetic/metal/ with one exported face
    and private state.  This library models cards whose logic is their own and
    proves what makes them correct.  A file name below such as
    "coop/__impl__.c" is relative to src/src/pymergetic/metal/.

    ** How the parts interact

    The coop card runs coroutines: a ready ring of words, reference-counted
    tasks, timers, one async mutex.  The process card gives pids and memory
    budgets to coop's tasks.  The fw.memmap card turns the firmware's
    memory map into the arena and into nodes of the dt card's device table.
    The net.ip card is the IPv4 stack: its clock, task queue and task posts are
    coop's, its NICs are drivers; the datagram services net.dns, net.tftp and
    net.dhcp are clients of its sockets, net.dhcp configures its interfaces and
    routes and the resolver of net.dns, net.http speaks over its streams as a
    task of coop, net.wg attaches to it as one more NIC, and net.fwd joins its
    listeners to sockets of the host.  The dstate card holds a replica of a key-value state that peers keep
    in step.
    The fs card keeps files in the arena and reads the FAT volumes of the block
    devices: its sectors come through the table of disks of drivers.blk from a driver,
    and the virtio driver, found by a search over the PCI bus, shares memory with the
    device.  The services card is the seat's register of what it serves;
    net.neighbors keeps it in step with the catalogue of the other seats over a
    message bus.  The build card reads the manifests of the units it compiles, also
    into the arena, and puts the units in the order of their dependencies.
    The edit card changes C sources by the spans of what they define, and writes
    them back to the fs card's files.

    ** Reading C

    [Prelude]: unsigned integers are [Z] with the wrap written out ([u8] ...
    [u64]); a buffer is a [list Z] and an access outside it is [None]; C
    strings are the bytes before the NUL.  [Store]: components that keep a heap
    of objects are computations that end in [Done], in [Fault] (an object that
    is not allocated, or an access outside a buffer) or in [NoFuel]; [wp] is
    total correctness for them.  A card's globals are one record; a function of
    the card is a definition of the same name.  Code the cards only call is a
    parameter, its documented behaviour a class of laws, and every such class
    has a concrete instance that the witnesses run.

    ** Components

    A name in brackets is a file and its Module; a few Modules share the file of
    what they build on: [Store] and [Decimal] are in Prelude.v, [CoopTimers] in
    CoopStep.v, [ServicesSpec] in Services.v, [FatDisk] in Fat.v, [FatNames] in
    FatChain.v, [IpHost] in Ip.v, [HttpReply] in Http.v, [BuildGraph] in Build.v,
    [BlkSpec] in BlkTable.v.

    coop (coop/__impl__.c).  [Ring]: [inbox_map], [ring_push], [ring_claim],
    [ring_release]; the ring refines a FIFO queue.  [CoopState]: the state,
    tasks, references, the async mutex, reclamation.  [CoopRun]: timers,
    coroutine creation, await, yield, sleep, [step_task], [drain_one] and the
    run loops.  [CoopRefs], [CoopMutex], [CoopInv], [CoopStep], [CoopTimers]:
    the invariant (references held by the ring, the timers, the FIFO and the C
    stack are exactly those the tasks count) and that operations keep it.
    [CoopSpec]: the properties of single operations.  [CoopApi]: any calls in
    any order.  [CoopFair]: nothing but a turn takes from the ready ring.
    [CoopRace]: the reference word under interleaved atomic instructions of
    several runners.

    Numbers in text: [Decimal], for net.http, net.neighbors and services.

    process (process/__impl__.c).  [Process]: pids over coop's tasks and the
    memory budgets.  [ProcessSpec]: the invariant (which block and sub-arena is
    whose, which task has which pid) and each call against it.  [ProcessTable]:
    calls in any order against a map from pids to budgets, and the end.

    dt (dt/__impl__.c).  [Dt]: the table, its invariant, add, unbind, find.

    fw.memmap (fw/memmap/__impl__.c).  [Memmap]: walking, picking, feeding,
    spare pools.  [MemmapSort]: the in-place sort and merge against lists of
    ranges.  [MemmapSpec]: the properties.

    net.wg (net/wg/).  [WgCrypto], [WgAead]: ChaCha20, Poly1305, the AEAD.
    [WgBlake]: BLAKE2s, HMAC, HKDF.  [WgX25519]: the Montgomery ladder.  [Wg]:
    the handshake and the sealed link.

    net.ip (net/ip/).  [Ip]: the state of __priv__.h and __impl__.c and the
    classes [Host] (what the stack asks for), [HostLaws], [Wire] and [WireLaws]
    (the frames handed to the NICs); [IpHost] is a concrete host.  [IpWire],
    [IpLink], [IpTcp], [IpInput]: __wire__.c, __link__.c, __tcp__.c and
    __impl__.c, function by function.  [IpRoutes]: the route table.  [IpLoop]:
    loopback, run.  [IpNet], [TcpSeg], [TcpInv], [TcpStep], [TcpCalls]: what
    the stack puts on the wire, segments as bytes, the invariant of a host with
    an established connection, and every operation against it.  [TcpNet]: two
    hosts and a network.

    net.dns, net.tftp, net.dhcp.  [Udp]: the socket interface the services use,
    with a small implementation.  [Dns], [Tftp], [Dhcp]: the cards.  [DnsSpec],
    [TftpSpec], [DhcpSpec]: the properties; [DhcpSpec] also has the client
    without its buffers, which the C-like one equals.  [DhcpLan]: the DHCP
    exchange on a segment with a server.

    net.http (net/http/__impl__.c).  [Http]: the coroutine of a request over the
    class [HttpOps] of what it calls.  [HttpReply]: what the bytes of a stream
    say as a reply.  [HttpSpec]: a scripted peer and the request against it, step
    by step.  [HttpFetch]: whole requests, servers' replies, URIs.

    net.fwd (net/fwd/__impl__.c).  [Fwd]: the pump thread's rounds and the card
    around it, over the class [FwdOps] of host, guest, thread and arena.
    [FwdSpec]: an oracle that answers and a log of what it was asked; what each
    step of a round keeps.  [FwdLife]: a mirror from listen to stop.

    net.dstate (net/dstate/__impl__.c).  [Dstate]: the replica.  [DstateSpec]:
    each call against a last-writer-wins map.  [DstateNet]: sequences of calls,
    clusters of replicas, merge handlers, and what happens beyond the bounds.

    bus.pci, bus.virtio (bus/pci/__impl__.c, bus/virtio/__impl__.c).  [Pci]: the
    configuration space in its three builds, the walk, the assignment of BARs and
    the searches.  [PciSpec]: what the searches find on a bus of given contents.

    drivers.blk, drivers.blk.virtio (drivers/blk/__impl__.c,
    drivers/blk/virtio/__impl__.c).  [Vblk]: the driver, over memory that it
    shares with the device byte by byte.  [VblkSpec]: what virtio asks of a device
    ([DiskLaws]), and the driver with such a device against an abstract disk.
    [VblkDisk]: a device that keeps to it, and what happens with one that is slow.
    [BlkTable]: the table of disks; [BlkSpec]: it is a finite map.  [BlkFat]: the
    fs card's sector reads through table, driver and device.

    services, net.neighbors (services/__impl__.c, net/neighbors/).
    [Services]: the register, the rows as text, the lines that cross the wire.
    [ServicesSpec]: the lines read back, and each call.  [MeshDb]: a database of
    peers and rows, and each call against it.  [MeshNet]: calls in any order, and
    one seat that hears another.

    fs (fs/__fat__.c, fs/__impl__.c).  [Fat]: sectors, chains, names, the
    directory walk and the import, over the classes [Blk] (a device's sectors)
    and [Arena].  [FatDisk]: a small concrete volume.  [FatSafe]: an import of
    any disk.  [FatChain], [FatNames], [FatTree]: what a cluster chain, a name
    field and a directory hold, as relations on the disk, and that the import
    and the reads agree with them.  [Fs]: the arena files and the card's
    start; [FsSpec]: they refine a finite map.

    edit (edit/__impl__.c).  [Edit]: the scans, the parser, the splices and the
    gates.  [EditSafe]: sources of any content.  [EditText]: the scans on text of
    known shape.  [EditDoc]: documents as lists of items, and that the parser
    finds them.  [EditSpec]: edits of items, and the write-back over [FsSpec].

    build (build/__impl__.c, lines 751-1150).  [Build]: the lexer and parser of
    the unit manifests and the dependency order.  [BuildSafe]: the parser on
    bytes of any content; [BuildParse]: the grammar of manifests and what they
    say; [BuildGraph]: orders and when there is one.

    ** What the theorems show

    Memory safety and reference counting: [CoopRace.reclaim_race_safe] (no use
    after free and no double free in any interleaving), [CoopApi.calls_type_sound]
    (no sequence of calls breaks the invariant or faults),
    [CoopSpec.drain_one_safe], [ProcessTable.deinit_gives_back] (budgets go back
    once, and what is left), and the counterexamples [bare_push_use_after_free],
    [double_park_makes_a_cycle], [IpLoop.loopback_retransmit_use_after_free],
    [ProcessTable.quit_after_retire].

    Refinement: the ring is a queue ([Ring.ring_push_enqueues],
    [ring_claim_dequeues]); the mutex FIFO is a list
    ([CoopSpec.mutex_release_hands_over]); the route table is a
    finite map ([IpRoutes.rt_table_refines_map]) searched by longest prefix
    ([IpRoutes.rt_match_longest]); the pids are a finite map
    ([ProcessTable.process_refines]); the files are a finite map ([FsSpec.fs_refines_map]);
    an import lists a volume's tree and reads its chains
    ([FatTree.import_serves_tree]); [WgX25519.x25519_scalar_mult], [WgBlake.blake2s_blocks]
    and [WgAead.poly1305_mac_polynomial] equate the optimised routines with
    their references; [TftpSpec.tftp_transfer] is the end-to-end contract of two
    communicating machines.

    Down to the medium: [VblkDisk.vblk_is_a_disk] (any device that keeps to the
    specification of virtio is, with the driver, an abstract disk),
    [BlkSpec.blk_table_refines_map] (handles), [BlkFat.fat_reads_virtio] (what the
    theorems about volumes assume of the block layer is what table, driver and
    device do); [late_completion_answers_the_next] is what a slow device does to
    the driver.  [PciSpec.virtio_blk_found]: the search for the n-th disk.

    Services: [MeshNet.registry_refines_db] (the two arrays are a database of
    peers and of rows), [mesh_catalogue] (what one seat publishes another knows),
    [own_services_stay] (no bytes off the air overrun the arrays or take away what
    the seat itself registered).

    Progress: [CoopFair.ready_task_gets_its_turn] (no task starves in the ready
    ring), [DhcpLan.dora_completes] (the client gets the lease a server grants).

    Protocol traces: [DhcpSpec.lease_follows_dora] (a lease is the end of one
    complete DISCOVER, OFFER, REQUEST, ACK exchange of our own).

    Replication: [DstateNet.dstate_converges] (replicas that have seen the same
    writes answer alike, whatever the order), [dstate_refines_lww] (a replica is
    a map), [merge_never_settles] (with merge handlers they never come to rest).

    Streams: [TcpNet.tcp_in_order]: whatever the network loses, repeats and
    reorders, a reader gets a prefix of what was written and the end of the
    stream only after all of it, and no operation of either host faults.

    Over a stream: [HttpFetch.fetch_any_stream] (a request and its reply do not
    depend on how the network cuts them), [probe_fails_on_length] (and HEAD does
    not work).

    Between two stacks: [FwdLife.mirror_lossless] (downloads are passed on
    whole, however slow the host reads), [mirror_life] (a mirror gives back all
    it takes); [upload_tail_lost] is what goes wrong in the other direction.

    Wire formats: [IpWire.l4_stamp_verifies], [l4_corruption_detected],
    [DnsSpec.dns_answers_own_query], [Wg.wg_tx_poll_delivers],
    [WgAead.aead_round_trip], [aead_decrypt_authentic],
    [DhcpSpec.options_read_back].

    Totality on hostile input: [DnsSpec.dns_lookup_total],
    [FatSafe.import_total], [BuildSafe.unit_parse_total] and the loops with a measure in [MemmapSpec].

    Manifests: [BuildParse.unit_parse_grammar] (what a manifest says is what the
    unit holds), [BuildGraph.graph_resolve_topological] (an order is found
    exactly when there is one, also when names are missing or repeated).

    Sources: [EditSpec.edits_refine_document] (the editor edits a document: one
    body or value, every other byte stays, and the result parses as the edited
    document), [EditSafe.edit_any_source] (also on bytes that are no source),
    [EditSpec.write_back_gated] (no write without note and compilation, and what a
    refusal can cost).

    Bounds and uninitialised memory: [DhcpSpec.dhcp_up_in_bounds] (nothing the
    stack held reaches the wire or the result).

    Memory maps: [feed_efi_covers].

    ** Bounds and fuel

    A recursion that is not structural takes fuel, and a theorem that it
    returns says how much is enough: the ring's scans one lap of its slots;
    [CoopRun.step_loop] and [drain_one] the measure of the step contract;
    [check_loop] one more than the slot table's length; [ip_input] the nesting
    of loopback deliveries, which is 1 for a packet from a wire
    ([TcpCalls.rx_from_wp]) and below 20 in the runs of [IpLoop]; [fold_loop] 3
    (a 32-bit sum is folded after two rounds); [mask_bits] 32; [walk_dir] one
    level per byte a path has left of its 256; the parser's loops one round per
    byte of the text and one more; [resolve_loop] one pass per unit.  The
    option scans take one round per byte and one more, the waits of the
    datagram clients the spins of the code; a request takes one turn for each
    wait of its peer ([HttpFetch.enough]); a mirror's accept loop takes one
    more than the clients that wait, its flush the bytes held, and its rounds
    are as many as the flag that stops it allows.  The virtio driver looks
    [FW_BLK_SPINS] times, ten million as in the code; its walk over the
    capabilities and its wait for a reset have no bound in the code and take fuel,
    for which [VblkDisk] shows a device that uses up any amount.  The rows of the
    register and of the neighbors are scanned once per row.  Each scan of the
    editor takes a round for every byte that is left and one more.  The theorems about TCP assume that a connection carries fewer bytes than its sequence
    space holds, which the application side of [TcpNet.allowed] states.

    ** Not modelled

    The spinlocks: a card's exported calls take its lock around bodies that are
    modelled as atomic, and coop is modelled per core except in [CoopRace].
    The other drivers, the console, display and input cards: device registers and
    pixels, whose behaviour is the hardware's.  jit, the rest of build (compiling,
    linking, its records and its actor), inspect, workspace and ai: compilers,
    hosts and services around an interpreter that is not in this repository.
    net.tls and net.ssh: their cryptography is mbedtls, outside the repository.
    net.zenoh and the cards over its sessions (rpc, swarm, cloud, workspace): the
    behaviour of a session is zenoh-pico's.  src/externals: vendored. *)
