(* ===== verification/Prelude.v ===== *)
(** * Prelude: machine words, checked buffers, C strings and shared automation

    Every component file requires this one.  It fixes how the development
    reads C: unsigned integers are [Z] with an explicit wrap ([u8] ... [u64]),
    buffers are [list Z] of bytes, and an access outside a buffer is [None]
    (undefined behaviour in C, never a default value). *)
From Stdlib Require Export ZArith Lia.
From stdpp Require Export prelude gmap.

Declare Scope metal_scope.
Delimit Scope metal_scope with metal.
Open Scope Z_scope.

(** ** Machine words *)

Definition u8 (x : Z) : Z := x mod 256.
Definition u16 (x : Z) : Z := x mod 65536.
Definition u32 (x : Z) : Z := x mod 4294967296.
Definition u64 (x : Z) : Z := x mod 18446744073709551616.

Abbreviation U32_MAX := 4294967295.
Abbreviation U64_MAX := 18446744073709551615.

(** A C comparison or boolean stored in an integer. *)
Definition b2z (b : bool) : Z := if b then 1 else 0.

#[global] Arguments u8 : simpl never.
#[global] Arguments u16 : simpl never.
#[global] Arguments u32 : simpl never.
#[global] Arguments u64 : simpl never.
#[global] Arguments Z.land : simpl never.
#[global] Arguments Z.lor : simpl never.
#[global] Arguments Z.lxor : simpl never.
#[global] Arguments Z.shiftl : simpl never.
#[global] Arguments Z.shiftr : simpl never.
#[global] Arguments Z.modulo : simpl never.
#[global] Arguments Z.div : simpl never.
#[global] Arguments Z.pow : simpl never.
#[global] Arguments Z.to_nat : simpl never.

Create HintDb metal discriminated.

Lemma u8_range x : 0 <= u8 x < 256.
Proof. apply Z.mod_pos_bound. lia. Qed.
Lemma u16_range x : 0 <= u16 x < 65536.
Proof. apply Z.mod_pos_bound. lia. Qed.
Lemma u32_range x : 0 <= u32 x < 4294967296.
Proof. apply Z.mod_pos_bound. lia. Qed.
Lemma u64_range x : 0 <= u64 x < 18446744073709551616.
Proof. apply Z.mod_pos_bound. lia. Qed.
#[export] Hint Resolve u8_range u16_range u32_range u64_range : metal.

Lemma u8_small x : 0 <= x < 256 -> u8 x = x.
Proof. apply Z.mod_small. Qed.
Lemma u16_small x : 0 <= x < 65536 -> u16 x = x.
Proof. apply Z.mod_small. Qed.
Lemma u32_small x : 0 <= x < 4294967296 -> u32 x = x.
Proof. apply Z.mod_small. Qed.
Lemma u64_small x : 0 <= x < 18446744073709551616 -> u64 x = x.
Proof. apply Z.mod_small. Qed.

(** [words] expands the wraps, [mlia] is [lia] with division and modulo. *)
Ltac words := unfold u8, u16, u32, u64 in *.
Ltac mlia := Z.div_mod_to_equations; lia.
Ltac ulia := words; mlia.

(** Masks, shifts and their arithmetic reading. *)
Lemma land_ones_mod x k : 0 <= k -> Z.land x (2 ^ k - 1) = x mod 2 ^ k.
Proof. intros Hk. rewrite <- Z.land_ones by lia. by rewrite Z.ones_equiv, Z.sub_1_r. Qed.

Lemma lor_disjoint_add x y k :
  0 <= k -> 0 <= x < 2 ^ k -> Z.lor x (Z.shiftl y k) = x + y * 2 ^ k.
Proof.
  intros Hk Hx. rewrite Z.shiftl_mul_pow2 by lia.
  rewrite <- Z.lxor_lor; [symmetry; apply Z.add_nocarry_lxor|].
  all: apply Z.bits_inj_iff'; intros i Hi; rewrite Z.land_spec, Z.bits_0.
  all: destruct (decide (i < k)).
  all: try (rewrite Z.mul_pow2_bits_low by lia; by rewrite andb_false_r).
  all: rewrite <- (Z.mod_small x (2 ^ k)) by lia; rewrite Z.mod_pow2_bits_high by lia; done.
Qed.

(** Four bytes, most significant first, read back as a word. *)
Lemma lor_word a b k : 0 <= k -> 0 <= b < 2 ^ k -> Z.lor (Z.shiftl a k) b = a * 2 ^ k + b.
Proof. intros. rewrite Z.lor_comm, lor_disjoint_add by lia. lia. Qed.

Lemma be32_read v : 0 <= v < 4294967296 ->
  Z.lor (Z.lor (Z.lor (Z.shiftl (u8 (Z.shiftr v 24)) 24) (Z.shiftl (u8 (Z.shiftr v 16)) 16)) (Z.shiftl (u8 (Z.shiftr v 8)) 8)) (u8 v) = v.
Proof.
  intros Hv. rewrite !Z.shiftr_div_pow2 by lia.
  pose proof (u8_range (v / 2 ^ 24)). pose proof (u8_range (v / 2 ^ 16)). pose proof (u8_range (v / 2 ^ 8)). pose proof (u8_range v).
  set (a := u8 (v / 2 ^ 24)) in *. set (b := u8 (v / 2 ^ 16)) in *. set (c := u8 (v / 2 ^ 8)) in *. set (d := u8 v) in *.
  rewrite (lor_word a _ 24); [|lia|rewrite Z.shiftl_mul_pow2 by lia; change (2 ^ 24) with 16777216; change (2 ^ 16) with 65536; lia].
  replace (a * 2 ^ 24 + Z.shiftl b 16) with (Z.shiftl (a * 256 + b) 16) by (rewrite !Z.shiftl_mul_pow2 by lia; change (2 ^ 24) with 16777216; change (2 ^ 16) with 65536; lia).
  rewrite (lor_word (a * 256 + b) _ 16); [|lia|rewrite Z.shiftl_mul_pow2 by lia; change (2 ^ 8) with 256; change (2 ^ 16) with 65536; lia].
  replace ((a * 256 + b) * 2 ^ 16 + Z.shiftl c 8) with (Z.shiftl ((a * 256 + b) * 256 + c) 8) by (rewrite !Z.shiftl_mul_pow2 by lia; change (2 ^ 8) with 256; change (2 ^ 16) with 65536; lia).
  rewrite (lor_word _ d 8); [|lia|change (2 ^ 8) with 256; lia]. change (2 ^ 8) with 256.
  unfold a, b, c, d. change (2 ^ 24) with 16777216. change (2 ^ 16) with 65536. change (2 ^ 8) with 256. ulia.
Qed.

(** ** Checked buffers *)

(** [rd b i]: the byte (or word) at index [i]; [None] outside the buffer. *)
Definition rd {A} (b : list A) (i : Z) : option A :=
  if i <? 0 then None else b !! Z.to_nat i.

Definition wr {A} (b : list A) (i : Z) (v : A) : option (list A) :=
  if (0 <=? i) && (i <? Z.of_nat (length b)) then Some (<[Z.to_nat i := v]> b) else None.

Abbreviation zlen l := (Z.of_nat (length l)).

(** [memcpy] out of a buffer: [n] elements from [off]; [None] past the end. *)
Definition slice {A} (b : list A) (off n : Z) : option (list A) :=
  if (0 <=? off) && (0 <=? n) && (off + n <=? zlen b)
  then Some (take (Z.to_nat n) (drop (Z.to_nat off) b)) else None.

(** [memcpy] into a buffer at [off]. *)
Definition blit {A} (b : list A) (off : Z) (src : list A) : option (list A) :=
  if (0 <=? off) && (off + zlen src <=? zlen b)
  then Some (take (Z.to_nat off) b ++ src ++ drop (Z.to_nat off + length src) b) else None.

Lemma rd_Some {A} (b : list A) i v : rd b i = Some v -> 0 <= i < zlen b.
Proof.
  unfold rd. case_match eqn:E; [done|]. intros H%lookup_lt_Some.
  apply Z.ltb_ge in E. lia.
Qed.

Lemma slice_all {A} (b : list A) : slice b 0 (zlen b) = Some b.
Proof. unfold slice. rewrite !(proj2 (Z.leb_le _ _)) by lia. cbn [andb]. by rewrite Nat2Z.id, drop_0, firstn_all. Qed.

Lemma rd_is_Some {A} (b : list A) i : 0 <= i < zlen b -> is_Some (rd b i).
Proof.
  intros H. unfold rd. destruct (Z.ltb_spec i 0); [lia|].
  apply lookup_lt_is_Some. lia.
Qed.

Lemma rd_app_l {A} (b c : list A) i : i < zlen b -> rd (b ++ c) i = rd b i.
Proof. intros H. unfold rd. case_match; [done|]. apply Z.ltb_ge in H0. apply lookup_app_l. lia. Qed.

Lemma rd_app_r {A} (b c : list A) i : zlen b <= i -> rd (b ++ c) i = rd c (i - zlen b).
Proof.
  intros H. unfold rd. rewrite !(proj2 (Z.ltb_ge _ _)) by lia.
  rewrite lookup_app_r by lia. f_equal. lia.
Qed.

Lemma wr_is_Some {A} (b : list A) i v : 0 <= i < zlen b -> wr b i v = Some (<[Z.to_nat i := v]> b).
Proof. intros H. unfold wr. rewrite (proj2 (Z.leb_le _ _)), (proj2 (Z.ltb_lt _ _)) by lia. done. Qed.

Lemma slice_length {A} (b s : list A) off n : slice b off n = Some s -> zlen s = n.
Proof.
  unfold slice. intros H. case_match eqn:E; simplify_eq.
  apply andb_true_iff in E as [[E1 E2]%andb_true_iff E3]. rewrite length_take, length_drop. lia.
Qed.

Lemma slice_is_Some {A} (b : list A) off n :
  0 <= off -> 0 <= n -> off + n <= zlen b ->
  slice b off n = Some (take (Z.to_nat n) (drop (Z.to_nat off) b)).
Proof. intros. unfold slice. rewrite !(proj2 (Z.leb_le _ _)) by lia. done. Qed.

Lemma blit_length {A} (b s c : list A) off : blit b off s = Some c -> zlen c = zlen b.
Proof.
  unfold blit. intros H. case_match eqn:E; simplify_eq.
  apply andb_true_iff in E as [E1 E2]. rewrite !length_app, length_take, length_drop. lia.
Qed.

Lemma blit_is_Some {A} (b s : list A) off :
  0 <= off -> off + zlen s <= zlen b ->
  blit b off s = Some (take (Z.to_nat off) b ++ s ++ drop (Z.to_nat off + length s) b).
Proof. intros. unfold blit. rewrite !(proj2 (Z.leb_le _ _)) by lia. done. Qed.

(** Reading and writing the middle of a buffer. *)
Lemma slice_mid {A} (a s c : list A) n : zlen s = n -> slice (a ++ s ++ c) (zlen a) n = Some s.
Proof.
  intros <-. rewrite slice_is_Some; [|lia|lia|rewrite !length_app; lia].
  rewrite !Nat2Z.id, drop_app_length, take_app_length. done.
Qed.

Lemma blit_mid {A} (a s s' c : list A) : length s = length s' -> blit (a ++ s ++ c) (zlen a) s' = Some (a ++ s' ++ c).
Proof.
  intros E. rewrite blit_is_Some; [|lia|rewrite !length_app; lia].
  rewrite Nat2Z.id, take_app_length, <- E, <- length_app, (assoc_L (++) a s c), drop_app_length. done.
Qed.

Lemma rd_mid {A} (a s c : list A) i : 0 <= i < zlen s -> rd (a ++ s ++ c) (zlen a + i) = rd s i.
Proof.
  intros Hi. rewrite rd_app_r by lia. replace (zlen a + i - zlen a) with i by lia. apply rd_app_l. lia.
Qed.

Lemma wr_blit (b : list Z) i v : wr b i v = blit b i [v].
Proof.
  unfold wr, blit. simpl length. destruct (Z.leb_spec 0 i); simpl; [|done].
  change (Z.of_nat 1) with 1. destruct (Z.ltb_spec i (zlen b)), (Z.leb_spec (i + 1) (zlen b)); try lia; [|done].
  f_equal. rewrite insert_take_drop by lia. simpl. do 3 f_equal. lia.
Qed.

Lemma wr_mid (a pre c : list Z) x v i :
  i = zlen a + zlen pre -> wr (a ++ pre ++ x :: c) i v = Some (a ++ pre ++ v :: c).
Proof.
  intros ->. rewrite wr_blit, !(assoc_L (++) a pre). replace (zlen a + zlen pre) with (zlen (a ++ pre)) by (rewrite length_app; lia).
  by apply (blit_mid _ [x] [v]).
Qed.

Lemma split_at {A} (b : list A) p : 0 <= p <= zlen b -> exists a c, b = a ++ c /\ zlen a = p.
Proof. exists (take (Z.to_nat p) b), (drop (Z.to_nat p) b). split; [by rewrite take_drop|rewrite length_take; lia]. Qed.

Lemma blit_blit {A} (b s t : list A) p : 0 <= p -> p + zlen s + zlen t <= zlen b ->
  (b' ← blit b p s; blit b' (p + zlen s) t) = blit b p (s ++ t).
Proof.
  intros Hp Hl. destruct (split_at b p) as (a & c & -> & <-); [lia|]. rewrite length_app in Hl.
  destruct (split_at c (zlen s)) as (x & c' & -> & Hx); [lia|]. rewrite length_app in Hl.
  destruct (split_at c' (zlen t)) as (y & z & -> & Hy); [lia|].
  rewrite blit_mid by lia. simpl. rewrite (assoc_L (++) a s).
  replace (zlen a + zlen s) with (zlen (a ++ s)) by (rewrite length_app; lia).
  rewrite blit_mid by lia. rewrite (assoc_L (++) x y z), blit_mid by (rewrite !length_app; lia).
  by rewrite <- !(assoc_L (++)).
Qed.

Lemma some_bind {A B} (a : A) (f : A -> option B) : (Some a ≫= f) = f a.
Proof. done. Qed.

(** ** The first [n] elements of a buffer as a queue *)

Lemma queue_shift {A} (b : list A) n k : 0 <= k <= n -> n <= zlen b ->
  exists b', (rest ← slice b k (n - k); blit b 0 rest) = Some b' /\ length b' = length b /\
    take (Z.to_nat (n - k)) b' = drop (Z.to_nat k) (take (Z.to_nat n) b).
Proof.
  intros Hk Hn. rewrite slice_is_Some, some_bind by lia. set (r := take _ (drop _ b)).
  assert (Lr : zlen r = n - k) by (unfold r; rewrite length_take, length_drop; lia).
  assert (Hb : 0 + zlen r <= zlen b) by lia. pose proof (blit_is_Some b r 0 ltac:(lia) Hb) as E. eexists. split; [exact E|].
  split; [apply blit_length in E; lia|]. change (take (Z.to_nat 0) b) with (@nil A). rewrite app_nil_l, take_app_length' by lia. unfold r. rewrite skipn_firstn_comm. f_equal. lia.
Qed.

Lemma queue_append {A} (b d : list A) n : 0 <= n -> n + zlen d <= zlen b ->
  exists b', blit b n d = Some b' /\ length b' = length b /\ take (Z.to_nat (n + zlen d)) b' = take (Z.to_nat n) b ++ d.
Proof.
  intros Hn Hd. pose proof (blit_is_Some b d n Hn Hd) as E. eexists. split; [exact E|].
  split; [apply blit_length in E; lia|]. rewrite (assoc_L (++)), take_app_length'; [done|]. rewrite length_app, length_take. lia.
Qed.

(** ** Bytes *)

Definition is_byte (x : Z) : Prop := 0 <= x < 256.
#[export] Instance is_byte_dec x : Decision (is_byte x).
Proof. unfold is_byte. apply _. Defined.

Abbreviation bytes_ok := (Forall is_byte).

Lemma rd_byte b i v : bytes_ok b -> rd b i = Some v -> 0 <= v < 256.
Proof.
  intros Hb H. unfold rd in H. case_match; [done|].
  by eapply Forall_lookup_1 in H; [|done].
Qed.

Lemma u8_is_byte x : is_byte (u8 x).
Proof. apply u8_range. Qed.
#[export] Hint Resolve u8_is_byte : metal.

(** ** C strings: a NUL-terminated run inside a buffer *)

(** [cstr b]: the bytes before the first NUL of [b] ([b] itself when none). *)
Fixpoint cstr (b : list Z) : list Z :=
  match b with
  | [] => []
  | c :: t => if c =? 0 then [] else c :: cstr t
  end.

Definition no_nul (s : list Z) : Prop := Forall (fun c => c <> 0) s.

Lemma cstr_no_nul b : no_nul (cstr b).
Proof. induction b as [|c t IH]; simpl; [constructor|]. destruct (Z.eqb_spec c 0); constructor; auto. Qed.

Lemma cstr_nul s rest : no_nul s -> cstr (s ++ 0 :: rest) = s.
Proof. induction 1 as [|c t Hc Ht IH]; simpl; [done|]. rewrite (proj2 (Z.eqb_neq _ _)) by done. by f_equal. Qed.

Lemma cstr_id s : no_nul s -> cstr s = s.
Proof. induction 1 as [|c t Hc _ IH]; cbn [cstr]; [done|]. rewrite (proj2 (Z.eqb_neq _ _)) by done. by rewrite IH. Qed.

(** ** Automation *)

(** Turn boolean tests into propositions wherever they stand. *)
Ltac breflect :=
  repeat match goal with
  | H : (_ <? _) = true |- _ => apply Z.ltb_lt in H
  | H : (_ <? _) = false |- _ => apply Z.ltb_ge in H
  | H : (_ <=? _) = true |- _ => apply Z.leb_le in H
  | H : (_ <=? _) = false |- _ => apply Z.leb_gt in H
  | H : (_ =? _) = true |- _ => apply Z.eqb_eq in H
  | H : (_ =? _) = false |- _ => apply Z.eqb_neq in H
  | H : (_ && _)%bool = true |- _ => apply andb_true_iff in H as [? ?]
  | H : (_ && _)%bool = false |- _ => apply andb_false_iff in H
  | H : (_ || _)%bool = true |- _ => apply orb_true_iff in H
  | H : (_ || _)%bool = false |- _ => apply orb_false_iff in H as [? ?]
  | H : negb _ = true |- _ => apply negb_true_iff in H
  | H : negb _ = false |- _ => apply negb_false_iff in H
  end.

(** Split every [if] on a comparison in the goal, leaving propositions. *)
Ltac zcase :=
  repeat match goal with
  | |- context [?a <? ?b] => destruct (Z.ltb_spec a b); try lia; simpl
  | |- context [?a <=? ?b] => destruct (Z.leb_spec a b); try lia; simpl
  | |- context [?a =? ?b] => destruct (Z.eqb_spec a b); try lia; simpl
  end.

(** [lia] after computing the lengths of appended and consed lists. *)
Ltac llia := repeat (rewrite ?length_app in *; cbn [length app] in *); lia.

(** One step of a bind in the option monad, in a hypothesis. *)
Ltac obind H x Hx :=
  apply bind_Some in H as (x & Hx & H).

(** Loops: iterate [f] at most [n] times, stopping on [inr]. *)
Fixpoint iter_fuel {S R} (n : nat) (f : S -> S + R) (s : S) : option R :=
  match n with
  | O => None
  | S n' => match f s with inl s' => iter_fuel n' f s' | inr r => Some r end
  end.

(** * Decimal numbers in text

    What the C library prints for [%u] and what its scanners make of digits. *)

Module Decimal.

Definition is_space (c : Z) : bool := (c =? 32) || ((9 <=? c) && (c <=? 13)).
Definition is_digit (c : Z) : bool := (48 <=? c) && (c <=? 57).
Fixpoint skip_space (s : list Z) : list Z :=
  match s with c :: t => if is_space c then skip_space t else s | [] => [] end.
Fixpoint digits (acc : Z) (s : list Z) : Z :=
  match s with c :: t => if is_digit c then digits (acc * 10 + (c - 48)) t else acc | [] => acc end.

(** [%u] *)
Fixpoint dec (fuel : nat) (n : Z) : list Z :=
  match fuel with O => [] | S k => (if n <? 10 then [] else dec k (n / 10)) ++ [48 + n mod 10] end.

Lemma digits_app acc s r : Forall (fun c => is_digit c = true) s -> (match r with c :: _ => is_digit c = false | [] => True end) -> digits acc (s ++ r) = digits acc s.
Proof.
  revert acc. induction s as [|c s IH]; intros acc Hs Hr; cbn.
  - destruct r as [|c r]; cbn; [done|by rewrite Hr].
  - apply Forall_cons in Hs as [-> Hs]. by apply IH.
Qed.

Lemma digits_snoc acc s c : Forall (fun c => is_digit c = true) s -> is_digit c = true -> digits acc (s ++ [c]) = digits acc s * 10 + (c - 48).
Proof. revert acc. induction s as [|d s IH]; intros acc Hs Hc; cbn; [by rewrite Hc|]. apply Forall_cons in Hs as [-> Hs]. by apply IH. Qed.

Lemma dec_digits k n : 0 <= n -> Forall (fun c => is_digit c = true) (dec k n).
Proof.
  revert n. induction k as [|k IH]; intros n Hn; cbn [dec]; [done|]. apply Forall_app. split; [destruct (n <? 10); [done|apply IH; by apply Z.div_pos]|].
  constructor; [|done]. pose proof (Z.mod_pos_bound n 10 ltac:(lia)) as Hm. unfold is_digit. rewrite !(proj2 (Z.leb_le _ _)) by lia. done.
Qed.

Lemma dec_value k n : 0 <= n < 10 ^ Z.of_nat k -> digits 0 (dec k n) = n.
Proof.
  revert n. induction k as [|k IH]; intros n Hn; cbn [dec]; [change (10 ^ Z.of_nat 0) with 1 in Hn; cbn; lia|]. pose proof (Z.mod_pos_bound n 10 ltac:(lia)) as Hm. assert (Hd : is_digit (48 + n mod 10) = true) by (unfold is_digit; rewrite !(proj2 (Z.leb_le _ _)) by lia; done).
  rewrite digits_snoc; [|destruct (n <? 10); [done|apply dec_digits, Z.div_pos; lia]|done]. destruct (Z.ltb_spec n 10) as [Hl|Hl].
  - cbn. rewrite Z.mod_small by lia. lia.
  - rewrite IH; [pose proof (Z.div_mod n 10 ltac:(lia)); lia|]. rewrite Nat2Z.inj_succ, Z.pow_succ_r in Hn by lia. split; [apply Z.div_pos; lia|]. apply Z.div_lt_upper_bound; lia.
Qed.

Lemma dec_first k n : 0 <= n -> k <> O -> exists c r, dec k n = c :: r /\ is_digit c = true.
Proof.
  intros Hn Hk. pose proof (dec_digits k n Hn) as Hd. destruct (dec k n) as [|c r] eqn:E; [destruct k; [done|cbn in E; by apply app_eq_nil in E as [_ ?]]|].
  exists c, r. split; [done|]. by apply Forall_cons in Hd as [? _].
Qed.
End Decimal.

(** * Store: the monad of the components that keep a heap

    A computation over a state ends with a result ([Done]), touches memory
    that is not allocated ([Fault]), or runs out of the fuel its loops were
    given ([NoFuel]). *)

Module Store.

Inductive outcome (S A : Type) := Done (a : A) (s : S) | Fault | NoFuel.
Arguments Done {S A} a s.
Arguments Fault {S A}.
Arguments NoFuel {S A}.

Definition M (S A : Type) := S -> outcome S A.
Definition ret {S A} (a : A) : M S A := fun s => Done a s.
Definition bind {S A B} (m : M S A) (k : A -> M S B) : M S B := fun s =>
  match m s with Done a s' => k a s' | Fault => Fault | NoFuel => NoFuel end.
Definition fault {S A} : M S A := fun _ => Fault.
Definition nofuel {S A} : M S A := fun _ => NoFuel.
Definition gets {S A} (f : S -> A) : M S A := fun s => Done (f s) s.
Definition modify {S} (f : S -> S) : M S unit := fun s => Done tt (f s).

(** A checked buffer access: outside the buffer is a fault. *)
Definition chk {S A} (o : option A) : M S A := match o with Some a => ret a | None => fault end.

Notation "x <- m ;; k" := (bind m (fun x => k))
  (at level 100, m at next level, right associativity) : metal_scope.
Notation "m ;; k" := (bind m (fun _ => k))
  (at level 100, right associativity) : metal_scope.

(** ** Total correctness

    [wp m Q s]: from [s] the computation ends, without a fault and within its
    fuel, in a result and a state that [Q] accepts. *)
Definition wp {S A} (m : M S A) (Q : A -> S -> Prop) (s : S) : Prop :=
  match m s with Done a s' => Q a s' | Fault | NoFuel => False end.

Section wp.
Context {S : Type}.
Implicit Types (s : S).

Lemma wp_ret {A} (a : A) (Q : A -> S -> Prop) s : Q a s -> wp (ret a) Q s.
Proof. done. Qed.
Lemma wp_gets {A} (f : S -> A) (Q : A -> S -> Prop) s : Q (f s) s -> wp (gets f) Q s.
Proof. done. Qed.
Lemma wp_modify (f : S -> S) (Q : unit -> S -> Prop) s : Q tt (f s) -> wp (modify f) Q s.
Proof. done. Qed.
Lemma wp_chk {A} (o : option A) a (Q : A -> S -> Prop) s : o = Some a -> Q a s -> wp (chk o) Q s.
Proof. by intros ->. Qed.

Lemma wp_bind {A B} (m : M S A) (k : A -> M S B) (Q : B -> S -> Prop) s :
  wp m (fun a s' => wp (k a) Q s') s -> wp (bind m k) Q s.
Proof. unfold wp, bind. by destruct (m s). Qed.

Lemma wp_mono {A} (m : M S A) (P Q : A -> S -> Prop) s :
  wp m P s -> (forall a s', P a s' -> Q a s') -> wp m Q s.
Proof. unfold wp. destruct (m s); naive_solver. Qed.

Lemma wp_conj {A} (m : M S A) (P Q : A -> S -> Prop) s : wp m P s -> wp m Q s -> wp m (fun a s' => P a s' /\ Q a s') s.
Proof. unfold wp. by destruct (m s). Qed.

(** Only what the computation does from this state matters. *)
Lemma wp_eq {A} (m m' : M S A) (Q : A -> S -> Prop) s : m s = m' s -> wp m' Q s -> wp m Q s.
Proof. unfold wp. by intros ->. Qed.

Lemma wp_done {A} (m : M S A) (Q : A -> S -> Prop) s a s' : m s = Done a s' -> wp m Q s -> Q a s'.
Proof. unfold wp. by intros ->. Qed.

Lemma wp_run {A} (m : M S A) (Q : A -> S -> Prop) s : wp m Q s -> exists a s', m s = Done a s' /\ Q a s'.
Proof. unfold wp. destruct (m s); naive_solver. Qed.

(** A loop over a list of indices keeps an invariant. *)
Lemma wp_foldr {A} (f : A -> M S unit) (I : S -> Prop) l s :
  I s -> (forall x s', x ∈ l -> I s' -> wp (f x) (fun _ => I) s') ->
  wp (foldr (fun x k => bind (f x) (fun _ => k)) (ret tt) l) (fun _ => I) s.
Proof.
  revert s. induction l as [|x l IH]; intros s Hs Hf; cbn [foldr]; [done|].
  apply wp_bind. eapply wp_mono; [apply Hf; [apply elem_of_cons; by left|done]|]. intros ? s1 Hs1. apply IH; [done|].
  intros y s2 Hy. apply Hf, elem_of_cons. by right.
Qed.
End wp.

(** One step of symbolic execution. *)
Ltac wstep :=
  lazymatch goal with
  | |- wp (bind _ _) _ _ => apply wp_bind
  | |- wp (ret _) _ _ => apply wp_ret; cbv beta
  | |- wp (gets _) _ _ => apply wp_gets
  | |- wp (modify _) _ _ => apply wp_modify
  | |- wp (let x := _ in _) _ _ => cbv zeta
  | |- wp (if ?b then _ else _) _ _ => destruct b eqn:?
  end.

(** ** The arena

    pymergetic/util/mem, a submodule: it hands out a block of bytes or NULL. *)

Class Arena (A : Type) := { mem_alloc : Z -> A -> A * option (list Z) }.

Class ArenaLaws (A : Type) `{!Arena A} : Prop := {
  alloc_size n a a' b : 0 <= n -> mem_alloc n a = (a', Some b) -> zlen b = n;
}.

(** It does not run out. *)
Class ArenaAmple (A : Type) `{!Arena A} : Prop := { ample n (a : A) : is_Some (mem_alloc n a).2 }.

(** One that always has room, for the examples. *)
Definition zero_arena : Arena unit := {| mem_alloc n a := (a, Some (repeat 0 (Z.to_nat n))) |}.

Lemma zero_arena_laws : ArenaLaws (Arena0 := zero_arena) unit.
Proof. constructor. simpl. intros n a a' b Hn [= _ <-]. rewrite repeat_length. lia. Qed.

Lemma zero_arena_ample : ArenaAmple (Arena0 := zero_arena) unit.
Proof. constructor. by eexists. Qed.

Lemma bind_done {S A B} (m : M S A) (k : A -> M S B) s a s' : m s = Done a s' -> bind m k s = k a s'.
Proof. unfold bind. by intros ->. Qed.
End Store.
