(* ===== verification/Ring.v ===== *)
(** * The ready ring of [pymergetic.metal.coop]

    Models [inbox_map], [ring_pack] and its projections, [ring_push],
    [ring_claim] and [ring_release] of src/.../metal/coop/__impl__.c.  A slot
    is one 64-bit word: a two bit state, a fourteen bit kind and a 48 bit
    payload.  The file ends with the refinement of the ring to a FIFO queue. *)
From S2P Require Import Prelude.

Module Ring.

Definition ST_EMPTY := 0.
Definition ST_READY := 1.
Definition ST_CLAIMED := 2.
Definition KIND_TASK := 1.
Definition KIND_STOP := 3.
Definition PAY_MASK := 281474976710655.
Definition RING_WANT := 1048576.
Definition RING_MIN := 256.

(** ** Slot words *)

Definition ring_pack (st kind pay : Z) : Z :=
  Z.lor (Z.lor (u64 (Z.shiftl st 62)) (u64 (Z.shiftl kind 48))) (Z.land pay PAY_MASK).
Definition ring_st (w : Z) : Z := Z.shiftr w 62.
Definition ring_kind (w : Z) : Z := Z.land (Z.shiftr w 48) 16383.
Definition ring_pay (w : Z) : Z := Z.land w PAY_MASK.
Definition ptr_pay (p : Z) : Z := Z.land (u64 p) PAY_MASK.

(** ** The ring *)

Record inbox := Inbox {
  rn : Z; rmask : Z; rhead : Z; rtail : Z; rcount : Z; rslot : list Z }.

Definition inbox_bytes (n : Z) : Z := 24 + n * 8.

Definition inbox_new (n : Z) : inbox :=
  {| rn := n; rmask := u32 (n - 1); rhead := 0; rtail := 0; rcount := 0;
     rslot := replicate (Z.to_nat n) 0 |}.

(** [inbox_map]: halve the slot count until the arena has room for it. *)
Fixpoint inbox_map_loop (fuel : nat) (fits : Z -> bool) (n : Z) : option inbox :=
  match fuel with
  | O => None
  | S f =>
      if RING_MIN <=? n then
        if fits (inbox_bytes n) then Some (inbox_new n)
        else inbox_map_loop f fits (Z.shiftr n 1)
      else None
  end.
Definition inbox_map (fits : Z -> bool) : option inbox := inbox_map_loop 32 fits RING_WANT.

(** The slot at a masked index; the allocation covers every masked index. *)
Definition slot_at (r : inbox) (idx : Z) : Z := rslot r !!! Z.to_nat idx.

Definition push_slot (r : inbox) (idx neu : Z) : inbox :=
  {| rn := rn r; rmask := rmask r; rhead := rhead r;
     rtail := Z.land (u32 (idx + 1)) (rmask r); rcount := u32 (rcount r + 1);
     rslot := <[Z.to_nat idx := neu]> (rslot r) |}.

(** The hunt of one attempt: first empty slot among [hunt] from [start]. *)
Fixpoint push_scan (hunt : nat) (r : inbox) (start i neu : Z) : option inbox :=
  match hunt with
  | O => None
  | S h =>
      let idx := Z.land (u32 (start + i)) (rmask r) in
      if slot_at r idx =? 0 then Some (push_slot r idx neu)
      else push_scan h r start (i + 1) neu
  end.

Definition push_hunt (r : inbox) : Z :=
  let hunt := u32 (rn r - rcount r) in
  let hunt := if rn r <? hunt then rn r else hunt in
  let hunt := u32 (hunt + 16) in
  if rn r <? hunt then rn r else hunt.

Fixpoint push_attempts (k : nat) (r : inbox) (neu : Z) : Z * inbox :=
  match k with
  | O => (-1, r)
  | S k' =>
      match push_scan (Z.to_nat (push_hunt r)) r (rtail r) 0 neu with
      | Some r' => (0, r')
      | None => if rn r <=? rcount r then (-1, r) else push_attempts k' r neu
      end
  end.

(** [ring_push]: with no other core interleaving, the four attempts see the
    same snapshot. *)
Definition ring_push (r : inbox) (kind payload : Z) : Z * inbox :=
  push_attempts 4 r (ring_pack ST_READY kind (ptr_pay payload)).

Definition claim_slot (r : inbox) (idx claimed : Z) : inbox :=
  {| rn := rn r; rmask := rmask r; rhead := Z.land (u32 (idx + 1)) (rmask r);
     rtail := rtail r; rcount := rcount r;
     rslot := <[Z.to_nat idx := claimed]> (rslot r) |}.

Fixpoint claim_scan (n : nat) (r : inbox) (start i : Z) : option (Z * Z * inbox) :=
  match n with
  | O => None
  | S n' =>
      let idx := Z.land (u32 (start + i)) (rmask r) in
      let word := slot_at r idx in
      if negb (ring_st word =? ST_READY) then claim_scan n' r start (i + 1)
      else if ring_kind word =? KIND_STOP then claim_scan n' r start (i + 1)
      else
        let claimed := ring_pack ST_CLAIMED (ring_kind word) (ring_pay word) in
        Some (claimed, idx, claim_slot r idx claimed)
  end.

(** [ring_claim]: [None] is the -1 return. *)
Definition ring_claim (r : inbox) : option (Z * Z * inbox) :=
  if rcount r =? 0 then None
  else claim_scan (Z.to_nat (rn r)) r (rhead r) 0.

Definition ring_release (r : inbox) (idx : Z) : inbox :=
  if rn r <=? idx then r
  else {| rn := rn r; rmask := rmask r; rhead := rhead r; rtail := rtail r;
          rcount := u32 (rcount r - 1); rslot := <[Z.to_nat idx := 0]> (rslot r) |}.

#[global] Arguments ring_pack : simpl never.
#[global] Arguments ring_st : simpl never.
#[global] Arguments ring_kind : simpl never.
#[global] Arguments ring_pay : simpl never.

(** ** Slot words round trip *)

Definition is_pay (p : Z) : Prop := 0 <= p < 281474976710656.
Definition is_kind (k : Z) : Prop := 0 <= k < 16384.

Lemma ring_pack_sum st kind pay :
  0 <= st < 4 -> is_kind kind -> is_pay pay ->
  ring_pack st kind pay = pay + kind * 2 ^ 48 + st * 2 ^ 62.
Proof.
  unfold is_kind, is_pay. intros Hst Hk Hp. unfold ring_pack, PAY_MASK.
  change 281474976710655 with (2 ^ 48 - 1). rewrite land_ones_mod by lia.
  rewrite Z.mod_small by lia.
  rewrite !u64_small by (rewrite Z.shiftl_mul_pow2; lia).
  rewrite Z.lor_comm, (Z.lor_comm (Z.shiftl st 62)), Z.lor_assoc.
  rewrite (lor_disjoint_add pay) by lia. rewrite lor_disjoint_add by lia. lia.
Qed.

Lemma ring_pack_fields st kind pay :
  0 <= st < 4 -> is_kind kind -> is_pay pay ->
  ring_st (ring_pack st kind pay) = st /\
  ring_kind (ring_pack st kind pay) = kind /\
  ring_pay (ring_pack st kind pay) = pay.
Proof.
  intros Hst Hk Hp. rewrite ring_pack_sum by done. unfold is_kind, is_pay in *.
  unfold ring_st, ring_kind, ring_pay, PAY_MASK.
  change 281474976710655 with (2 ^ 48 - 1). change 16383 with (2 ^ 14 - 1).
  rewrite !land_ones_mod, !Z.shiftr_div_pow2 by lia.
  change (2 ^ 48) with 281474976710656. change (2 ^ 62) with 4611686018427387904.
  change (2 ^ 14) with 16384. repeat split; mlia.
Qed.

Lemma ring_pack_nonzero st kind pay :
  0 < st < 4 -> is_kind kind -> is_pay pay -> ring_pack st kind pay <> 0.
Proof. intros. rewrite ring_pack_sum by (done || lia). unfold is_kind, is_pay in *. lia. Qed.

Lemma ptr_pay_id p : is_pay p -> ptr_pay p = p.
Proof.
  unfold is_pay. intros. unfold ptr_pay, PAY_MASK. rewrite u64_small by lia.
  change 281474976710655 with (2 ^ 48 - 1). rewrite land_ones_mod by lia. apply Z.mod_small. lia.
Qed.

Lemma is_kind_task : is_kind KIND_TASK.
Proof. unfold is_kind, KIND_TASK. lia. Qed.
#[export] Hint Resolve is_kind_task : metal.
(** ** Geometry: a power-of-two table whose mask turns any index into a slot *)

Record geom (r : inbox) : Prop := {
  g_pow : exists k, 0 <= k <= 20 /\ rn r = 2 ^ k;
  g_mask : rmask r = rn r - 1;
  g_len : zlen (rslot r) = rn r;
  g_head : 0 <= rhead r < rn r;
  g_tail : 0 <= rtail r < rn r;
  g_count : 0 <= rcount r <= rn r }.

Lemma pow_small k : 0 <= k <= 20 -> 1 <= 2 ^ k <= 1048576.
Proof.
  intros Hk. split; [apply (Z.pow_le_mono_r 2 0 k); lia|].
  change 1048576 with (2 ^ 20). apply Z.pow_le_mono_r; lia.
Qed.

Lemma geom_n r : geom r -> 1 <= rn r <= 1048576.
Proof. intros [(k & Hk & ->) _ _ _ _ _]. by apply pow_small. Qed.

Lemma mask_mod r x : geom r -> Z.land (u32 x) (rmask r) = x mod rn r.
Proof.
  intros G. pose proof (geom_n r G). destruct G as [(k & Hk & Hn) Hm _ _ _ _].
  rewrite Hm, Hn, land_ones_mod by lia. unfold u32. change 4294967296 with (2 ^ 32).
  replace (2 ^ 32) with (2 ^ k * 2 ^ (32 - k)) by (rewrite <- Z.pow_add_r by lia; f_equal; lia).
  rewrite Z.rem_mul_r by (apply Z.pow_nonzero || apply Z.pow_pos_nonneg; lia).
  rewrite Z.mul_comm, Z.mod_add by (apply Z.pow_nonzero; lia). apply Z.mod_mod.
  apply Z.pow_nonzero; lia.
Qed.

Lemma mask_range r x : geom r -> 0 <= x mod rn r < rn r.
Proof. intros G. pose proof (geom_n r G). apply Z.mod_pos_bound. lia. Qed.

Lemma slot_at_insert r idx v j (s := rslot r) :
  0 <= idx < zlen s -> 0 <= j ->
  <[Z.to_nat idx := v]> s !!! Z.to_nat j = if decide (j = idx) then v else s !!! Z.to_nat j.
Proof.
  intros Hi Hj. case_decide as Hd; subst.
  - apply list_lookup_total_insert_eq. lia.
  - apply list_lookup_total_insert_ne. lia.
Qed.

(** The slot [k] places after the head. *)
Definition nth_slot (r : inbox) (k : Z) : Z := slot_at r ((rhead r + k) mod rn r).

Lemma nth_slot_inj r i j :
  geom r -> 0 <= i < rn r -> 0 <= j < rn r ->
  (rhead r + i) mod rn r = (rhead r + j) mod rn r -> i = j.
Proof.
  intros G Hi Hj E. pose proof (geom_n r G).
  pose proof (Z.div_mod (rhead r + i) (rn r) ltac:(lia)).
  pose proof (Z.div_mod (rhead r + j) (rn r) ltac:(lia)). rewrite E in *.
  assert (rn r * ((rhead r + i) / rn r - (rhead r + j) / rn r) = i - j) by lia.
  assert ((rhead r + i) / rn r - (rhead r + j) / rn r = 0) by nia. lia.
Qed.

(** ** The abstract queue *)

(** [repr r q]: the ring holds exactly the payloads [q], oldest first, in the
    contiguous run of READY slots that starts at the head. *)
Record repr (r : inbox) (q : list Z) : Prop := {
  q_geom : geom r;
  q_pays : Forall is_pay q;
  q_fit : zlen q <= rn r;
  q_count : rcount r = zlen q;
  q_tail : rtail r = (rhead r + zlen q) mod rn r;
  q_full : forall (i : nat) p, q !! i = Some p ->
             nth_slot r (Z.of_nat i) = ring_pack ST_READY KIND_TASK p;
  q_free : forall k, zlen q <= k < rn r -> nth_slot r k = 0 }.

Lemma push_scan_full r start i neu :
  geom r -> (forall k, 0 <= k < rn r -> slot_at r k <> 0) ->
  forall h, push_scan h r start i neu = None.
Proof.
  intros G Hf h. revert i. induction h as [|h IH]; intros i; simpl; [done|].
  rewrite mask_mod by done. rewrite (proj2 (Z.eqb_neq _ _)); [done|].
  apply Hf. by apply mask_range.
Qed.

Lemma full_slots r q :
  repr r q -> zlen q = rn r -> forall k, 0 <= k < rn r -> slot_at r k <> 0.
Proof.
  intros R Hl k Hk. pose proof (q_geom _ _ R) as G. pose proof (geom_n r G).
  pose (i := (k - rhead r) mod rn r).
  assert (Hi : 0 <= i < rn r) by (apply Z.mod_pos_bound; lia).
  destruct (lookup_lt_is_Some_2 q (Z.to_nat i) ltac:(lia)) as [p Hp].
  pose proof (q_full _ _ R _ _ Hp) as E. unfold nth_slot in E. rewrite Z2Nat.id in E by lia.
  unfold i in E. rewrite Zplus_mod_idemp_r in E.
  replace (rhead r + (k - rhead r)) with k in E by lia. rewrite Z.mod_small in E by lia.
  rewrite E. apply ring_pack_nonzero; [unfold ST_READY; lia|eauto with metal|].
  apply (Forall_lookup_1 _ _ _ _ (q_pays _ _ R) Hp).
Qed.

Lemma push_hunt_pos r : geom r -> 0 < push_hunt r.
Proof.
  intros G. pose proof (geom_n r G). pose proof (g_count _ G). unfold push_hunt.
  rewrite (u32_small (rn r - rcount r)) by lia.
  zcase. rewrite u32_small by lia. lia.
Qed.

(** Enqueue at the tail when the first hunted slot is free. *)
Lemma push_at_tail r q p :
  repr r q -> zlen q < rn r -> is_pay p ->
  repr (push_slot r (rtail r) (ring_pack ST_READY KIND_TASK p)) (q ++ [p]).
Proof.
  intros R Hl Hp. pose proof (q_geom _ _ R) as G. pose proof (geom_n r G).
  set (r' := push_slot _ _ _).
  assert (Hns : forall k, 0 <= k < rn r -> nth_slot r' k =
      if decide (k = zlen q) then ring_pack ST_READY KIND_TASK p else nth_slot r k).
  { intros k Hk. unfold nth_slot, slot_at, r'; simpl.
    rewrite slot_at_insert; [|rewrite (g_len _ G); apply G|apply Z.mod_pos_bound; lia].
    rewrite (q_tail _ _ R). destruct (decide (k = zlen q)) as [->|Hne].
    - by rewrite decide_True.
    - rewrite decide_False; [done|]. intros E. apply Hne. apply (nth_slot_inj r); done || lia. }
  constructor.
  - constructor; simpl; try apply G.
    + by rewrite length_insert, (g_len _ G).
    + rewrite mask_mod by done. by apply mask_range.
    + rewrite (q_count _ _ R), u32_small; lia.
  - apply Forall_app_2; [apply R|by constructor].
  - simpl. rewrite length_app; simpl. lia.
  - simpl. rewrite (q_count _ _ R), length_app, u32_small; simpl; lia.
  - simpl. rewrite mask_mod, (q_tail _ _ R), length_app by done. simpl.
    rewrite Zplus_mod_idemp_l. f_equal. lia.
  - intros i v Hi. pose proof (lookup_lt_Some _ _ _ Hi) as Hlt. rewrite length_app in Hlt; simpl in Hlt.
    rewrite Hns by lia. apply lookup_snoc_Some in Hi as [[Hi1 Hi2]|[-> ->]].
    + rewrite decide_False by lia. by apply R.
    + by rewrite decide_True.
  - intros k Hk. rewrite length_app in Hk; simpl in Hk. rewrite Hns by lia.
    rewrite decide_False by lia. apply R. lia.
Qed.

Lemma push_refines r q p :
  repr r q -> is_pay p ->
  (zlen q < rn r -> exists r', ring_push r KIND_TASK p = (0, r') /\ rn r' = rn r /\ repr r' (q ++ [p])) /\
  (zlen q = rn r -> ring_push r KIND_TASK p = (-1, r)).
Proof.
  intros R Hp.
  pose proof (q_geom _ _ R) as G. pose proof (geom_n r G). pose proof (push_hunt_pos r G) as Hh.
  unfold ring_push. rewrite ptr_pay_id by done. split; intros Hl; simpl.
  - exists (push_slot r (rtail r) (ring_pack ST_READY KIND_TASK p)).
    destruct (Z.to_nat (push_hunt r)) as [|h] eqn:E; [lia|]. simpl.
    rewrite mask_mod by done. rewrite Z.add_0_r, Z.mod_small by apply G.
    assert (Hz : slot_at r (rtail r) = 0).
    { rewrite (q_tail _ _ R). apply (q_free _ _ R (zlen q)). lia. }
    rewrite Hz. split; [done|]. split; [done|]. by apply push_at_tail.
  - rewrite push_scan_full by (eauto using full_slots).
    rewrite (q_count _ _ R), (proj2 (Z.leb_le _ _)) by lia. done.
Qed.

(** C8: refinement of [ring_push]: it appends to the queue exactly while the
    ring has a free slot, and refuses without any change once it is full. *)
Theorem ring_push_enqueues (r : inbox) (q : list Z) (p : Z)
    (R : repr r q) (Hp : is_pay p) :
  (zlen q < rn r ->
     exists r', ring_push r KIND_TASK p = (0, r') /\ rn r' = rn r /\ repr r' (q ++ [p])) /\
  (zlen q = rn r -> ring_push r KIND_TASK p = (-1, r)).
Proof. by apply push_refines. Qed.

Lemma head_slot r p q :
  repr r (p :: q) -> slot_at r (rhead r) = ring_pack ST_READY KIND_TASK p /\ is_pay p.
Proof.
  intros R. pose proof (q_geom _ _ R) as G. split.
  - pose proof (q_full _ _ R 0%nat p eq_refl) as E. unfold nth_slot in E. rewrite Z.add_0_r in E.
    by rewrite Z.mod_small in E by apply G.
  - apply (Forall_lookup_1 _ _ 0%nat _ (q_pays _ _ R) eq_refl).
Qed.

Definition pop_ring (r : inbox) : inbox :=
  ring_release (claim_slot r (rhead r)
    (ring_pack ST_CLAIMED KIND_TASK (ring_pay (slot_at r (rhead r))))) (rhead r).

Lemma pop_rn r : rn (pop_ring r) = rn r.
Proof. unfold pop_ring, ring_release. by destruct (rn _ <=? _). Qed.

Lemma pop_repr r p q : repr r (p :: q) -> repr (pop_ring r) q.
Proof.
  intros R. pose proof (q_geom _ _ R) as G. pose proof (geom_n r G).
  pose proof (g_head _ G) as Hh. pose proof (q_count _ _ R) as Hc. pose proof (q_fit _ _ R) as Hf.
  simpl length in *. unfold pop_ring, ring_release. simpl rn.
  rewrite (proj2 (Z.leb_gt _ _)) by lia. simpl. rewrite list_insert_insert_eq.
  set (r' := Inbox _ _ _ _ _ _).
  assert (Hns : forall k, 0 <= k < rn r -> nth_slot r' k =
      if decide (k = rn r - 1) then 0 else nth_slot r (k + 1)).
  { intros k Hk. unfold nth_slot, slot_at, r'; simpl. rewrite mask_mod, Zplus_mod_idemp_l by done.
    rewrite slot_at_insert; [|rewrite (g_len _ G); lia|apply Z.mod_pos_bound; lia].
    replace (rhead r + 1 + k) with (rhead r + (k + 1)) by lia. destruct (decide (k = rn r - 1)) as [->|Hne].
    - rewrite decide_True; [done|]. replace (rhead r + (rn r - 1 + 1)) with (rhead r + 1 * rn r) by lia.
      rewrite Z.mod_add by lia. by apply Z.mod_small.
    - rewrite decide_False; [done|]. intros E. rewrite <- (Z.mod_small (rhead r) (rn r)) in E at 2 by lia.
      rewrite <- (Z.add_0_r (rhead r)) in E at 2. apply nth_slot_inj in E; done || lia. }
  constructor.
  - constructor; simpl; try apply G.
    + by rewrite length_insert, (g_len _ G).
    + rewrite mask_mod by done. by apply mask_range.
    + rewrite u32_small by lia. lia.
  - pose proof (q_pays _ _ R) as Hp. by inversion Hp.
  - simpl. lia.
  - simpl. rewrite u32_small by lia. lia.
  - simpl. rewrite mask_mod, (q_tail _ _ R), Zplus_mod_idemp_l by done. simpl length. f_equal. lia.
  - intros i v Hi. pose proof (lookup_lt_Some _ _ _ Hi). rewrite Hns, decide_False by lia.
    replace (Z.of_nat i + 1) with (Z.of_nat (S i)) by lia. by apply (q_full _ _ R (S i)).
  - intros k Hk. simpl in Hk. rewrite Hns by lia. case_decide; [done|]. apply R. simpl length. lia.
Qed.

Lemma claim_head r p q :
  repr r (p :: q) ->
  ring_claim r = Some (ring_pack ST_CLAIMED KIND_TASK p, rhead r,
    claim_slot r (rhead r) (ring_pack ST_CLAIMED KIND_TASK p)) /\
  ring_release (claim_slot r (rhead r) (ring_pack ST_CLAIMED KIND_TASK p)) (rhead r) = pop_ring r.
Proof.
  intros R. pose proof (q_geom _ _ R) as G. pose proof (geom_n r G).
  destruct (head_slot _ _ _ R) as [Hs Hp].
  destruct (ring_pack_fields ST_READY KIND_TASK p) as (E1 & E2 & E3); [done|eauto with metal|done|].
  unfold ring_claim, pop_ring. rewrite Hs, E3, (q_count _ _ R). simpl length.
  rewrite (proj2 (Z.eqb_neq _ _)) by lia.
  destruct (Z.to_nat (rn r)) as [|n] eqn:En; [lia|]. cbn [claim_scan].
  rewrite mask_mod by done. rewrite Z.add_0_r, Z.mod_small by apply G. rewrite Hs, E1, E2, E3. done.
Qed.

(** A ring represents one queue only. *)
Lemma repr_fun r q q' : repr r q -> repr r q' -> q = q'.
Proof.
  intros Hq Hq'. pose proof (q_count _ _ Hq). pose proof (q_count _ _ Hq'). apply list_eq_same_length with (length q); [lia|lia|].
  intros i x y _ Hx Hy. pose proof (q_full _ _ Hq _ _ Hx) as E. rewrite (q_full _ _ Hq' _ _ Hy) in E.
  pose proof (q_pays _ _ Hq) as F. pose proof (q_pays _ _ Hq') as F'. rewrite Forall_lookup in F, F'.
  destruct (ring_pack_fields ST_READY KIND_TASK x) as (_ & _ & E1); [by unfold ST_READY; lia|eauto with metal|eauto|].
  destruct (ring_pack_fields ST_READY KIND_TASK y) as (_ & _ & E2); [by unfold ST_READY; lia|eauto with metal|eauto|].
  congruence.
Qed.

Lemma claim_empty r : repr r [] -> ring_claim r = None.
Proof. intros R. unfold ring_claim. by rewrite (q_count _ _ R). Qed.

(** C9: refinement of [ring_claim] followed by [ring_release]: the oldest
    payload leaves the queue, the word handed out carries it, and an empty
    queue is the only reason for the -1 return. *)
Theorem ring_claim_dequeues (r : inbox) (q : list Z) (R : repr r q) :
  match q with
  | [] => ring_claim r = None
  | p :: q' =>
      exists word idx r1, ring_claim r = Some (word, idx, r1) /\
        ring_st word = ST_CLAIMED /\ ring_kind word = KIND_TASK /\ ring_pay word = p /\
        rn (ring_release r1 idx) = rn r /\ repr (ring_release r1 idx) q'
  end.
Proof.
  destruct q as [|p q']; [by apply claim_empty|].
  destruct (claim_head _ _ _ R) as [E1 E2]. destruct (head_slot _ _ _ R) as [_ Hp].
  do 3 eexists. split; [exact E1|]. rewrite E2.
  destruct (ring_pack_fields ST_CLAIMED KIND_TASK p) as (F1 & F2 & F3);
    [by unfold ST_CLAIMED; lia|eauto with metal|exact Hp|].
  split; [exact F1|]. split; [exact F2|]. split; [exact F3|].
  split; [apply pop_rn|by eapply pop_repr].
Qed.

(** ** No lost wake-up: the claim scan covers the whole table *)

Definition claimable (w : Z) : Prop := ring_st w = ST_READY /\ ring_kind w <> KIND_STOP.
Definition occupied (r : inbox) : list Z := filter (fun w => w <> 0) (rslot r).

Lemma claim_scan_spec r start n i :
  geom r ->
  match claim_scan n r start i with
  | None => forall k, i <= k < i + Z.of_nat n -> ~ claimable (slot_at r ((start + k) mod rn r))
  | Some (w, idx, r') => 0 <= idx < rn r /\ claimable (slot_at r idx) /\
      w = ring_pack ST_CLAIMED (ring_kind (slot_at r idx)) (ring_pay (slot_at r idx)) /\
      r' = claim_slot r idx w
  end.
Proof.
  intros G. pose proof (geom_n r G). revert i. induction n as [|n IH]; intros i; cbn [claim_scan]; [lia|].
  rewrite mask_mod by done. set (w := slot_at r ((start + i) mod rn r)).
  assert (Hskip : ~ claimable w ->
    match claim_scan n r start (i + 1) with
    | None => forall k, i <= k < i + Z.of_nat (S n) -> ~ claimable (slot_at r ((start + k) mod rn r))
    | Some (w, idx, r') => 0 <= idx < rn r /\ claimable (slot_at r idx) /\
        w = ring_pack ST_CLAIMED (ring_kind (slot_at r idx)) (ring_pay (slot_at r idx)) /\
        r' = claim_slot r idx w
    end).
  { intros Hn. specialize (IH (i + 1)). case_match; [done|]. intros k Hk.
    destruct (decide (k = i)) as [->|]; [done|]. apply IH. lia. }
  destruct (Z.eqb_spec (ring_st w) ST_READY) as [Hs|Hs]; cbn [negb];
    [|apply Hskip; intros [? _]; contradiction].
  destruct (Z.eqb_spec (ring_kind w) KIND_STOP) as [Hk|Hk]; [apply Hskip; intros [_ ?]; contradiction|].
  split; [by apply mask_range|]. done.
Qed.

(** Whatever holes claims and racing pushes left in the table (the count
    only being the number of occupied slots), [ring_claim] fails exactly when
    no slot holds a READY task: no queued wake-up is out of reach of the scan. *)
Theorem ring_claim_complete (r : inbox)
    (G : geom r) (Hc : rcount r = zlen (occupied r)) :
  ring_claim r = None <-> forall k, 0 <= k < rn r -> ~ claimable (slot_at r k).
Proof.
  pose proof (geom_n r G) as Hn. unfold ring_claim.
  pose proof (claim_scan_spec r (rhead r) (Z.to_nat (rn r)) 0 G) as S. rewrite Z2Nat.id in S by lia.
  destruct (Z.eqb_spec (rcount r) 0) as [H0|H0].
  - split; [|done]. intros _ k Hk [Hst _].
    assert (Ho : occupied r = []) by (apply length_zero_iff_nil; lia).
    destruct (lookup_lt_is_Some_2 (rslot r) (Z.to_nat k)) as [w Hw].
    { pose proof (g_len _ G). lia. }
    unfold slot_at in Hst. rewrite (list_lookup_total_correct _ _ _ Hw) in Hst.
    assert (Hin : w ∈ occupied r).
    { apply list_elem_of_filter. split; [intros ->; done|by eapply list_elem_of_lookup_2]. }
    rewrite Ho in Hin. by apply not_elem_of_nil in Hin.
  - destruct (claim_scan _ _ _ _) as [[[w idx] r']|].
    + split; [done|]. intros Hno. destruct S as (Hi & Hcl & _). by destruct (Hno idx Hi).
    + split; [|done]. intros _ k Hk. pose (j := (k - rhead r) mod rn r).
      assert (Hj : 0 <= j < rn r) by (apply Z.mod_pos_bound; lia).
      specialize (S j ltac:(lia)). unfold j in S. rewrite Zplus_mod_idemp_r in S.
      replace (rhead r + (k - rhead r)) with k in S by lia. by rewrite Z.mod_small in S.
Qed.

(** ** Sizing the table *)

Lemma inbox_new_repr k : 0 <= k <= 20 -> repr (inbox_new (2 ^ k)) [].
Proof.
  intros Hk. pose proof (pow_small k Hk) as Hp.
  assert (G : geom (inbox_new (2 ^ k))).
  { constructor; simpl; try lia.
    - by exists k.
    - by rewrite u32_small by lia.
    - rewrite length_replicate. lia. }
  constructor; simpl; try done; try lia.
  intros i Hi. unfold nth_slot, slot_at; simpl. apply lookup_total_replicate_2.
  pose proof (Z.mod_pos_bound (0 + i) (2 ^ k) ltac:(lia)). lia.
Qed.

Lemma inbox_map_loop_spec fits (f : nat) k :
  0 <= k <= 20 -> (Z.to_nat (k - 6) <= f)%nat -> (0 < f)%nat ->
  match inbox_map_loop f fits (2 ^ k) with
  | Some r => exists j, 8 <= j <= k /\ r = inbox_new (2 ^ j) /\ fits (inbox_bytes (2 ^ j)) = true /\
      forall i, j < i <= k -> fits (inbox_bytes (2 ^ i)) = false
  | None => forall i, 8 <= i <= k -> fits (inbox_bytes (2 ^ i)) = false
  end.
Proof.
  revert k. induction f as [|f IH]; intros k Hk Hf Hf0; [lia|]. cbn [inbox_map_loop].
  unfold RING_MIN. change 256 with (2 ^ 8). destruct (Z.leb_spec (2 ^ 8) (2 ^ k)) as [Hle|Hlt].
  2: { apply Z.pow_lt_mono_r_iff in Hlt; [|lia..]. intros i Hi. lia. }
  apply Z.pow_le_mono_r_iff in Hle; [|lia..].
  destruct (fits (inbox_bytes (2 ^ k))) eqn:E.
  - exists k. repeat split; try done; try lia.
  - assert (Hs : Z.shiftr (2 ^ k) 1 = 2 ^ (k - 1)).
    { rewrite Z.shiftr_div_pow2, <- Z.pow_sub_r by lia. done. }
    rewrite Hs. specialize (IH (k - 1) ltac:(lia) ltac:(lia) ltac:(lia)). case_match.
    + destruct IH as (j & Hj & -> & Hfit & Hno). exists j. repeat split; try done; try lia.
      intros i Hi. destruct (decide (i = k)) as [->|]; [done|]. apply Hno. lia.
    + intros i Hi. destruct (decide (i = k)) as [->|]; [done|]. apply IH. lia.
Qed.

(** [inbox_map] settles on the largest power-of-two table, between 256
    and 2^20 slots, that the arena can hold, and gives up only when even the
    smallest does not fit; the table it returns is an empty queue. *)
Lemma inbox_map_largest (fits : Z -> bool) :
  match inbox_map fits with
  | Some r => repr r [] /\ exists k, 8 <= k <= 20 /\ rn r = 2 ^ k /\
      fits (inbox_bytes (rn r)) = true /\
      forall j, k < j <= 20 -> fits (inbox_bytes (2 ^ j)) = false
  | None => forall k, 8 <= k <= 20 -> fits (inbox_bytes (2 ^ k)) = false
  end.
Proof.
  pose proof (inbox_map_loop_spec fits 32 20 ltac:(lia) ltac:(lia) ltac:(lia)) as H.
  unfold inbox_map, RING_WANT. change 1048576 with (2 ^ 20). case_match; [|done].
  destruct H as (j & Hj & -> & Hfit & Hno). split; [apply inbox_new_repr; lia|]. by exists j.
Qed.

(** ** Witnesses *)

Definition demo_ring : inbox := inbox_new 256.

Lemma demo_ring_repr : repr demo_ring [].
Proof. apply (inbox_new_repr 8). lia. Qed.

Lemma ring_push_enqueues_witness :
  exists r', ring_push demo_ring KIND_TASK 4096 = (0, r') /\ rn r' = 256 /\ repr r' [4096].
Proof.
  refine (proj1 (ring_push_enqueues demo_ring [] 4096 demo_ring_repr _) _).
  - unfold is_pay. lia.
  - simpl. lia.
Defined.

(** The ring with two payloads pushed. *)
Definition two_ring : inbox := (ring_push (ring_push demo_ring KIND_TASK 4096).2 KIND_TASK 8192).2.
Lemma two_ring_repr : repr two_ring [4096; 8192].
Proof.
  destruct (proj1 (push_refines demo_ring [] 4096 demo_ring_repr ltac:(unfold is_pay; lia))) as (r1 & E1 & _ & R1); [vm_compute; reflexivity|].
  destruct (proj1 (push_refines r1 [4096] 8192 R1 ltac:(unfold is_pay; lia))) as (r2 & E2 & _ & R2); [replace r1 with (ring_push demo_ring KIND_TASK 4096).2 by (by rewrite E1); vm_compute; reflexivity|].
  unfold two_ring. rewrite E1. cbn [snd]. rewrite E2. exact R2.
Qed.

(** The oldest is taken and its slot released: the other one is left. *)
Lemma ring_claim_dequeues_witness :
  exists word idx r1, ring_claim two_ring = Some (word, idx, r1) /\
    ring_st word = ST_CLAIMED /\ ring_kind word = KIND_TASK /\ ring_pay word = 4096 /\
    rn (ring_release r1 idx) = rn two_ring /\ repr (ring_release r1 idx) [8192].
Proof. exact (ring_claim_dequeues two_ring [4096; 8192] two_ring_repr). Defined.

Lemma demo_ring_count : rcount demo_ring = zlen (occupied demo_ring).
Proof. vm_compute. reflexivity. Qed.

Lemma ring_claim_complete_witness :
  ring_claim demo_ring = None <-> forall k, 0 <= k < 256 -> ~ claimable (slot_at demo_ring k).
Proof. exact (ring_claim_complete demo_ring (q_geom _ _ demo_ring_repr) demo_ring_count). Defined.
End Ring.
