(* ===== verification/CoopState.v ===== *)
(** * The coop card: data, store and the task operations

    State and operations of src/.../metal/coop/__impl__.c as one core sees
    them.  Tasks and coroutines live in a store keyed by address (0 is NULL);
    touching an address that is not allocated, or freeing it again, is the
    outcome [Fault].  The raw spinlocks are not modelled: one core never
    contends with itself.  Code the card only calls is a parameter: the arena
    allocator, the monotonic clock, the ip pump and the step functions that
    coroutines carry. *)
From S2P Require Import Prelude Ring.

Module Coop.
Import Ring.

Inductive status := PENDING | WAITING | DONE | CANCELLED | ERROR.
#[export] Instance status_eq_dec : EqDecision status.
Proof. solve_decision. Defined.

(** [pm_metal_coop_coro]: [c_step] is the step function's address. *)
Record coro := Coro {
  c_step : Z; c_awaiting : Z; c_waiter : Z; c_task : Z;
  c_status : status; c_vm_only : bool; c_auto_free : bool }.

Record task := Task {
  t_root : Z; t_on_c_stack : bool; t_running : bool; t_pid : Z;
  t_mutex_next : Z; t_ring_refs : Z; t_dead : bool }.

Record timer := Timer { tm_deadline : Z; tm_task : Z }.

Record mutex := Mutex { m_owner : Z; m_head : Z; m_tail : Z }.

(** The card's statics, with this core's [s_current], [s_worker] and
    [s_vm_capable] slots; [s_ticks] counts the clock reads made so far. *)
Record world := World {
  s_inbox : option inbox; s_tasks : gmap Z task; s_coros : gmap Z coro;
  s_timers : list timer; s_vm_mutex : mutex; s_vm_lock_ready : bool;
  s_ready : bool; s_ncpu : Z; s_run : bool; s_busy : Z; s_current : Z;
  s_worker : bool; s_vm_capable : bool; s_ticks : nat }.

Definition set_inbox v w := World v (s_tasks w) (s_coros w) (s_timers w) (s_vm_mutex w) (s_vm_lock_ready w) (s_ready w) (s_ncpu w) (s_run w) (s_busy w) (s_current w) (s_worker w) (s_vm_capable w) (s_ticks w).
Definition set_tasks v w := World (s_inbox w) v (s_coros w) (s_timers w) (s_vm_mutex w) (s_vm_lock_ready w) (s_ready w) (s_ncpu w) (s_run w) (s_busy w) (s_current w) (s_worker w) (s_vm_capable w) (s_ticks w).
Definition set_coros v w := World (s_inbox w) (s_tasks w) v (s_timers w) (s_vm_mutex w) (s_vm_lock_ready w) (s_ready w) (s_ncpu w) (s_run w) (s_busy w) (s_current w) (s_worker w) (s_vm_capable w) (s_ticks w).
Definition set_timers v w := World (s_inbox w) (s_tasks w) (s_coros w) v (s_vm_mutex w) (s_vm_lock_ready w) (s_ready w) (s_ncpu w) (s_run w) (s_busy w) (s_current w) (s_worker w) (s_vm_capable w) (s_ticks w).
Definition set_vm v w := World (s_inbox w) (s_tasks w) (s_coros w) (s_timers w) v (s_vm_lock_ready w) (s_ready w) (s_ncpu w) (s_run w) (s_busy w) (s_current w) (s_worker w) (s_vm_capable w) (s_ticks w).
Definition set_busy v w := World (s_inbox w) (s_tasks w) (s_coros w) (s_timers w) (s_vm_mutex w) (s_vm_lock_ready w) (s_ready w) (s_ncpu w) (s_run w) v (s_current w) (s_worker w) (s_vm_capable w) (s_ticks w).
Definition set_current v w := World (s_inbox w) (s_tasks w) (s_coros w) (s_timers w) (s_vm_mutex w) (s_vm_lock_ready w) (s_ready w) (s_ncpu w) (s_run w) (s_busy w) v (s_worker w) (s_vm_capable w) (s_ticks w).
Definition set_ticks v w := World (s_inbox w) (s_tasks w) (s_coros w) (s_timers w) (s_vm_mutex w) (s_vm_lock_ready w) (s_ready w) (s_ncpu w) (s_run w) (s_busy w) (s_current w) (s_worker w) (s_vm_capable w) v.

Definition set_c_status v c := Coro (c_step c) (c_awaiting c) (c_waiter c) (c_task c) v (c_vm_only c) (c_auto_free c).
Definition set_c_awaiting v c := Coro (c_step c) v (c_waiter c) (c_task c) (c_status c) (c_vm_only c) (c_auto_free c).
Definition set_c_waiter v c := Coro (c_step c) (c_awaiting c) v (c_task c) (c_status c) (c_vm_only c) (c_auto_free c).
Definition set_c_task v c := Coro (c_step c) (c_awaiting c) (c_waiter c) v (c_status c) (c_vm_only c) (c_auto_free c).
Definition set_c_vm_only v c := Coro (c_step c) (c_awaiting c) (c_waiter c) (c_task c) (c_status c) v (c_auto_free c).
Definition set_c_auto_free v c := Coro (c_step c) (c_awaiting c) (c_waiter c) (c_task c) (c_status c) (c_vm_only c) v.

Definition set_t_root v t := Task v (t_on_c_stack t) (t_running t) (t_pid t) (t_mutex_next t) (t_ring_refs t) (t_dead t).
Definition set_t_on_c_stack v t := Task (t_root t) v (t_running t) (t_pid t) (t_mutex_next t) (t_ring_refs t) (t_dead t).
Definition set_t_running v t := Task (t_root t) (t_on_c_stack t) v (t_pid t) (t_mutex_next t) (t_ring_refs t) (t_dead t).
Definition set_t_mutex_next v t := Task (t_root t) (t_on_c_stack t) (t_running t) (t_pid t) v (t_ring_refs t) (t_dead t).
Definition set_t_ring_refs v t := Task (t_root t) (t_on_c_stack t) (t_running t) (t_pid t) (t_mutex_next t) v (t_dead t).
Definition set_t_dead v t := Task (t_root t) (t_on_c_stack t) (t_running t) (t_pid t) (t_mutex_next t) (t_ring_refs t) v.

(** ** Store monad: a result, a memory fault, or a fuel that ran out *)

Inductive outcome (A : Type) := Done (a : A) (w : world) | Fault | NoFuel.
Arguments Done {A} a w.
Arguments Fault {A}.
Arguments NoFuel {A}.

Definition M (A : Type) := world -> outcome A.
Definition ret {A} (a : A) : M A := fun w => Done a w.
Definition bind {A B} (m : M A) (k : A -> M B) : M B := fun w =>
  match m w with Done a w' => k a w' | Fault => Fault | NoFuel => NoFuel end.
Definition fault {A} : M A := fun _ => Fault.
Definition nofuel {A} : M A := fun _ => NoFuel.
Definition gets {A} (f : world -> A) : M A := fun w => Done (f w) w.
Definition modify (f : world -> world) : M unit := fun w => Done tt (f w).

Notation "x <- m ;; k" := (bind m (fun x => k))
  (at level 100, m at next level, right associativity) : metal_scope.
Notation "m ;; k" := (bind m (fun _ => k))
  (at level 100, right associativity) : metal_scope.
Local Open Scope metal_scope.

Definition get_task (t : Z) : M task := fun w =>
  match s_tasks w !! t with Some k => Done k w | None => Fault end.
Definition put_task (t : Z) (k : task) : M unit := modify (fun w => set_tasks (<[t := k]> (s_tasks w)) w).
Definition upd_task (t : Z) (f : task -> task) : M unit := k <- get_task t ;; put_task t (f k).
Definition get_coro (c : Z) : M coro := fun w =>
  match s_coros w !! c with Some k => Done k w | None => Fault end.
Definition put_coro (c : Z) (k : coro) : M unit := modify (fun w => set_coros (<[c := k]> (s_coros w)) w).
Definition upd_coro (c : Z) (f : coro -> coro) : M unit := k <- get_coro c ;; put_coro c (f k).

(** [pm_util_mem_free] of a task or frame block; a block that is not
    allocated is the allocator's "block already marked as free" abort. *)
Definition free_task (t : Z) : M unit := fun w =>
  match s_tasks w !! t with Some _ => Done tt (set_tasks (delete t (s_tasks w)) w) | None => Fault end.
Definition free_coro (c : Z) : M unit := fun w =>
  match s_coros w !! c with Some _ => Done tt (set_coros (delete c (s_coros w)) w) | None => Fault end.

(** ** Ready ring over the store *)

Definition ring_push_w (kind payload : Z) : M Z := fun w =>
  match s_inbox w with
  | None => Done (-1) w
  | Some r => let '(rc, r') := ring_push r kind payload in Done rc (set_inbox (Some r') w)
  end.

Definition ring_claim_w : M (option (Z * Z)) := fun w =>
  match s_inbox w with
  | None => Done None w
  | Some r => match ring_claim r with
              | None => Done None w
              | Some (word, idx, r') => Done (Some (word, idx)) (set_inbox (Some r') w)
              end
  end.

Definition ring_release_w (idx : Z) : M unit := fun w =>
  match s_inbox w with
  | None => Done tt w
  | Some r => Done tt (set_inbox (Some (ring_release r idx)) w)
  end.

(** ** Task identity and reclamation *)

Fixpoint task_of_loop (fuel : nat) (c : Z) : M Z :=
  match fuel with
  | O => nofuel
  | S f => if c =? 0 then ret 0 else
           k <- get_coro c ;;
           if negb (c_task k =? 0) then ret (c_task k) else task_of_loop f (c_waiter k)
  end.
(** The waiter chain is no longer than the number of coroutines. *)
Definition task_of (c : Z) : M Z := fun w => task_of_loop (S (S (size (s_coros w)))) c w.

Definition is_terminal (s : status) : bool :=
  match s with DONE | CANCELLED | ERROR => true | _ => false end.

Definition task_is_terminal (t : Z) : M bool :=
  if t =? 0 then ret true else
  k <- get_task t ;;
  if t_root k =? 0 then ret true else
  c <- get_coro (t_root k) ;; ret (is_terminal (c_status c)).

Definition TASK_DEAD_BIT := 2147483648.
Definition TASK_REF_MASK := 2147483647.

Definition task_free (t : Z) : M unit :=
  k <- get_task t ;;
  frame <- (if t_root k =? 0 then ret 0 else
            c <- get_coro (t_root k) ;; ret (if c_auto_free c then t_root k else 0)) ;;
  free_task t ;;
  if frame =? 0 then ret tt else free_coro frame.

Definition task_unref (t : Z) : M unit :=
  if t =? 0 then ret tt else
  k <- get_task t ;;
  let was := t_ring_refs k in
  put_task t (set_t_ring_refs (u32 (was - 1)) k) ;;
  if negb (Z.land was TASK_REF_MASK =? 1) || (Z.land was TASK_DEAD_BIT =? 0)
  then ret tt else task_free t.

(** The shared prologue of [hold_task_ref] and [push_task_ref]: refuse on
    dead, count the ref, and unwind when the dead bit came up meanwhile. *)
Definition hold_task_ref (t : Z) : M Z :=
  if t =? 0 then ret (-1) else
  k <- get_task t ;;
  if t_dead k then ret (-1) else
  put_task t (set_t_ring_refs (u32 (t_ring_refs k + 1)) k) ;;
  k <- get_task t ;;
  if t_dead k then task_unref t ;; ret (-1) else ret 0.

Definition push_task_ref (t : Z) : M Z :=
  if t =? 0 then ret (-1) else
  k <- get_task t ;;
  if t_dead k then ret (-1) else
  put_task t (set_t_ring_refs (u32 (t_ring_refs k + 1)) k) ;;
  k <- get_task t ;;
  if t_dead k then task_unref t ;; ret (-1) else
  rc <- ring_push_w KIND_TASK t ;;
  if negb (rc =? 0) then task_unref t ;; ret (-1) else ret 0.

Definition task_mark_dead (t : Z) : M unit :=
  if t =? 0 then ret tt else
  upd_task t (set_t_dead true) ;;
  k <- get_task t ;;
  let prev := t_ring_refs k in
  put_task t (set_t_ring_refs (Z.lor prev TASK_DEAD_BIT) k) ;;
  if (Z.land prev TASK_REF_MASK =? 0) && (Z.land prev TASK_DEAD_BIT =? 0)
  then task_free t else ret tt.

Definition pm_metal_coop_task_reclaim (t : Z) : M Z :=
  if t =? 0 then ret (-1) else
  term <- task_is_terminal t ;;
  if negb term then ret (-1) else task_mark_dead t ;; ret 0.

Definition pm_metal_coop_task_detach (t : Z) : M Z :=
  if t =? 0 then ret (-1) else
  term <- task_is_terminal t ;;
  if negb term then ret (-1) else
  upd_task t (set_t_root 0) ;; task_mark_dead t ;; ret 0.

Definition pm_metal_coop_task_retire (t : Z) : M Z :=
  if t =? 0 then ret (-1) else
  cur <- gets s_current ;;
  k <- get_task t ;;
  if negb (t =? cur) && t_running k then ret (-1) else
  upd_task t (set_t_root 0) ;; task_mark_dead t ;; ret 0.

Definition pm_metal_coop_coro_set_vm_only (c : Z) : M unit :=
  if c =? 0 then ret tt else upd_coro c (set_c_vm_only true).
Definition pm_metal_coop_coro_set_auto_free (c : Z) : M unit :=
  if c =? 0 then ret tt else upd_coro c (set_c_auto_free true).

(** ** The async mutex: intrusive FIFO through [mutex_next] *)

Definition pm_metal_coop_mutex_init (m : mutex) : mutex := Mutex 0 0 0.

(** Walk the FIFO for [t], returning the predecessor and whether it was met. *)
Fixpoint fifo_find (fuel : nat) (prev cur t : Z) : M (Z * Z) :=
  match fuel with
  | O => nofuel
  | S f => if (cur =? 0) || (cur =? t) then ret (prev, cur) else
           k <- get_task cur ;; fifo_find f cur (t_mutex_next k) t
  end.

(** Append [t] to the FIFO tail. *)
Definition fifo_append (m : mutex) (t : Z) : M mutex :=
  upd_task t (set_t_mutex_next 0) ;;
  if negb (m_tail m =? 0) then
    upd_task (m_tail m) (set_t_mutex_next t) ;; ret (Mutex (m_owner m) (m_head m) t)
  else ret (Mutex (m_owner m) t t).

Definition fifo_unlink (m : mutex) (t : Z) : M (mutex * bool) := fun w =>
  (pc <- fifo_find (S (S (size (s_tasks w)))) 0 (m_head m) t ;;
   let '(prev, cur) := pc in
   if cur =? t then
     k <- get_task t ;;
     head <- (if negb (prev =? 0)
              then upd_task prev (set_t_mutex_next (t_mutex_next k)) ;; ret (m_head m)
              else ret (t_mutex_next k)) ;;
     ret (Mutex (m_owner m) head (if m_tail m =? t then prev else m_tail m), true)
   else ret (m, false)) w.

Definition pm_metal_coop_mutex_try_acquire (m : mutex) (self : Z) : M (status * mutex) :=
  if self =? 0 then ret (ERROR, m) else
  t <- task_of self ;;
  if t =? 0 then ret (ERROR, m) else
  if m_owner m =? t then ret (PENDING, m) else
  if m_owner m =? 0 then ret (PENDING, Mutex t (m_head m) (m_tail m)) else
  held <- hold_task_ref t ;;
  if negb (held =? 0) then ret (ERROR, m) else
  m <- fifo_append m t ;;
  if m_owner m =? 0 then
    r <- fifo_unlink (Mutex t (m_head m) (m_tail m)) t ;;
    let '(m, was_queued) := r in
    upd_task t (set_t_mutex_next 0) ;;
    (if was_queued : bool then task_unref t else ret tt) ;; ret (PENDING, m)
  else ret (WAITING, m).

Definition pm_metal_coop_mutex_release (m : mutex) : M mutex :=
  let wake := m_head m in
  m <- (if negb (wake =? 0) then
          k <- get_task wake ;;
          let head := t_mutex_next k in
          put_task wake (set_t_mutex_next 0 k) ;;
          ret (Mutex (m_owner m) head (if head =? 0 then 0 else m_tail m))
        else ret m) ;;
  let m := Mutex wake (m_head m) (m_tail m) in
  (if negb (wake =? 0) then push_task_ref wake ;; task_unref wake else ret tt) ;;
  ret m.
End Coop.
