(* ===== verification/CoopRun.v ===== *)
(** * The coop card: timers, the step function and the run loops

    The rest of src/.../metal/coop/__impl__.c: the sorted timer list, coroutine
    creation, await/yield/sleep, [step_task], [drain_one] and the loops that
    drive them.  Loops without a static bound take fuel. *)
From S2P Require Import Prelude Ring CoopState.

Module CoopRun.
Import Ring Coop.
Local Open Scope metal_scope.

Section WithHost.
(** [mem_alloc w n]: the arena's answer to a request of [n] bytes (0 is NULL).
    [clk k]: the [k]-th reading of the monotonic clock, in microseconds.
    [ip_pump]: the (weak) network pump.  [run_step f c]: the effect of calling
    the step function at address [f] on the coroutine at [c]. *)
Variable mem_alloc : world -> Z -> Z.
Variable clk : nat -> Z.
Variable ip_pump : M unit.
Variable run_step : Z -> Z -> M status.

Definition CORO_BYTES := 48.
Definition TASK_BYTES := 40.
Definition TIMER_BYTES := 24.
Definition STALL_US := 1000000.

Definition mem_alloc_w (n : Z) : M Z := gets (fun w => mem_alloc w n).

Definition mono_us : M Z := fun w => Done (u64 (clk (s_ticks w))) (set_ticks (S (s_ticks w)) w).

(** ** Timers *)

Fixpoint timer_ins (tm : timer) (l : list timer) : list timer :=
  match l with
  | [] => [tm]
  | h :: t => if tm_deadline h <=? tm_deadline tm then h :: timer_ins tm t else tm :: h :: t
  end.
Definition timer_insert (tm : timer) : M unit := modify (fun w => set_timers (timer_ins tm (s_timers w)) w).

Fixpoint fire_timers_loop (fuel : nat) (now : Z) : M unit :=
  match fuel with
  | O => nofuel
  | S f => tms <- gets s_timers ;;
      match tms with
      | [] => ret tt
      | tm :: rest =>
          if tm_deadline tm <=? now then
            modify (set_timers rest) ;;
            push_task_ref (tm_task tm) ;;
            task_unref (tm_task tm) ;;
            now <- mono_us ;; fire_timers_loop f now
          else ret tt
      end
  end.
Definition fire_timers : M unit := fun w =>
  (now <- mono_us ;; fire_timers_loop (S (length (s_timers w))) now) w.

Definition next_timer_deadline : M Z := gets (fun w =>
  match s_timers w with [] => U64_MAX | tm :: _ => tm_deadline tm end).

(** ** Coroutine and task creation, await, park and sleep *)

Definition pm_metal_coop_coro_create (step frame_bytes : Z) : M Z :=
  ready <- gets s_ready ;;
  if negb ready || (step =? 0) || (frame_bytes <? CORO_BYTES) then ret 0 else
  c <- mem_alloc_w frame_bytes ;;
  if c =? 0 then ret 0 else
  put_coro c (Coro step 0 0 0 PENDING false false) ;; ret c.

Definition pm_metal_coop_create_task (c : Z) : M Z :=
  ready <- gets s_ready ;;
  if negb ready || (c =? 0) then ret 0 else
  t <- mem_alloc_w TASK_BYTES ;;
  if t =? 0 then ret 0 else
  put_task t (Task c false false 0 0 0 false) ;;
  upd_coro c (set_c_task t) ;;
  rc <- push_task_ref t ;;
  if negb (rc =? 0) then upd_coro c (set_c_task 0) ;; free_task t ;; ret 0
  else ret t.

Definition pm_metal_coop_await (self child : Z) : M status :=
  if (self =? 0) || (child =? 0) then ret ERROR else
  ks <- get_coro self ;;
  if negb (c_awaiting ks =? 0) && negb (c_awaiting ks =? child) then ret ERROR else
  kc <- get_coro child ;;
  if bool_decide (c_status kc = DONE) then upd_coro self (set_c_awaiting 0) ;; ret DONE else
  upd_coro self (set_c_awaiting child) ;;
  upd_coro child (set_c_waiter self) ;;
  kc <- get_coro child ;;
  (if c_task kc =? 0 then t <- task_of self ;; upd_coro child (set_c_task t) else ret tt) ;;
  upd_coro self (set_c_status WAITING) ;; ret WAITING.

Definition pm_metal_coop_yield_park (self : Z) : M status :=
  t <- task_of self ;;
  if t =? 0 then ret ERROR else
  upd_coro self (set_c_status WAITING) ;;
  rc <- push_task_ref t ;;
  if negb (rc =? 0) then ret ERROR else ret WAITING.

Definition pm_metal_coop_sleep_us (self us : Z) : M status :=
  t <- task_of self ;;
  ready <- gets s_ready ;;
  if (t =? 0) || negb ready then ret ERROR else
  tm <- mem_alloc_w TIMER_BYTES ;;
  if tm =? 0 then ret ERROR else
  now <- mono_us ;;
  upd_task t (fun k => set_t_ring_refs (u32 (t_ring_refs k + 1)) k) ;;
  timer_insert (Timer (u64 (now + us)) t) ;;
  upd_coro self (set_c_status WAITING) ;; ret WAITING.

Definition pm_metal_coop_post_task (t : Z) : M Z :=
  ready <- gets s_ready ;;
  if negb ready || (t =? 0) then ret (-1) else push_task_ref t.

Definition pm_metal_coop_current_task : M Z := gets s_current.
Definition pm_metal_coop_process_id : M Z :=
  t <- pm_metal_coop_current_task ;;
  if t =? 0 then ret 0 else k <- get_task t ;; ret (t_pid k).

(** ** Stepping a task *)

(** Follow [awaiting] down to the leaf; no longer than the store. *)
Fixpoint leaf_loop (fuel : nat) (c : Z) : M Z :=
  match fuel with
  | O => nofuel
  | S f => k <- get_coro c ;;
           if negb (c_awaiting k =? 0) then leaf_loop f (c_awaiting k) else ret c
  end.
Definition leaf_of (c : Z) : M Z := fun w => leaf_loop (S (size (s_coros w))) c w.

Definition drop_running (t : Z) : M unit :=
  modify (set_current 0) ;;
  upd_task t (set_t_running false) ;;
  modify (fun w => set_busy (u32 (s_busy w - 1)) w).

(** The vm_only gate: [Some true] hold the interpreter, [Some false] not
    needed, [None] the task was handed back (parked or re-pushed). *)
Definition vm_gate (t leaf : Z) (k : coro) : M (option bool) :=
  if negb (c_vm_only k) then ret (Some false) else
  lock_ready <- gets s_vm_lock_ready ;;
  worker <- gets s_worker ;;
  capable <- gets s_vm_capable ;;
  if negb lock_ready then
    if worker : bool then drop_running t ;; push_task_ref t ;; ret None else ret (Some true)
  else if worker && negb capable then drop_running t ;; push_task_ref t ;; ret None
  else
    m <- gets s_vm_mutex ;;
    r <- pm_metal_coop_mutex_try_acquire m leaf ;;
    let '(mst, m) := r in
    modify (set_vm m) ;;
    if bool_decide (mst = WAITING) then drop_running t ;; ret None else ret (Some true).

Definition vm_release (vm_held : bool) : M unit :=
  lock_ready <- gets s_vm_lock_ready ;;
  if vm_held && lock_ready then
    m <- gets s_vm_mutex ;; m <- pm_metal_coop_mutex_release m ;; modify (set_vm m)
  else ret tt.

(** The [for (;;)] of [step_task]: [true] when it breaks to the epilogue,
    [false] when the task was handed back from inside. *)
Fixpoint step_loop (fuel : nat) (t : Z) : M bool :=
  match fuel with
  | O => nofuel
  | S f =>
      k <- get_task t ;;
      leaf <- leaf_of (t_root k) ;;
      c <- get_coro leaf ;;
      if c_step c =? 0 then upd_coro leaf (set_c_status ERROR) ;; ret true else
      gate <- vm_gate t leaf c ;;
      match gate with
      | None => ret false
      | Some vm_held =>
          st <- run_step (c_step c) leaf ;;
          vm_release vm_held ;;
          upd_coro leaf (set_c_status st) ;;
          c <- get_coro leaf ;;
          if bool_decide (st = WAITING) then
            if negb (c_awaiting c =? 0) then step_loop f t else ret true
          else if bool_decide (st = DONE) && negb (c_waiter c =? 0) then
            upd_coro (c_waiter c) (set_c_awaiting 0) ;; step_loop f t
          else ret true
      end
  end.

(** After the loop: the step that produced a terminal state retires an
    [auto_free] task. *)
Definition step_epilogue (t : Z) : M unit :=
  drop_running t ;;
  term <- task_is_terminal t ;;
  k <- get_task t ;;
  if term && negb (t_root k =? 0) then
    c <- get_coro (t_root k) ;;
    if c_auto_free c then task_mark_dead t else ret tt
  else ret tt.

Definition step_task (fuel : nat) (t : Z) : M unit :=
  if t =? 0 then ret tt else
  k <- get_task t ;;
  if (t_root k =? 0) || t_on_c_stack k then ret tt else
  c <- get_coro (t_root k) ;;
  if is_terminal (c_status c) then ret tt else
  if t_running k then push_task_ref t ;; ret tt else
  put_task t (set_t_running true k) ;;
  modify (fun w => set_busy (u32 (s_busy w + 1)) w) ;;
  modify (set_current t) ;;
  finished <- step_loop fuel t ;;
  if finished : bool then step_epilogue t else ret tt.

(** ** Draining the ring *)

Definition drain_one (fuel : nat) : M Z :=
  claim <- ring_claim_w ;;
  match claim with
  | None => ret (-1)
  | Some (word, idx) =>
      if ring_kind word =? KIND_STOP then ring_release_w idx ;; ret 0 else
      let t := ring_pay word in
      ring_release_w idx ;;
      cur <- gets s_current ;;
      if t =? cur then
        rc <- push_task_ref t ;;
        (if rc =? 0 then task_unref t else ret tt) ;; ret 0
      else step_task fuel t ;; task_unref t ;; ret 0
  end.

Definition pm_metal_coop_yield (fuel : nat) : M Z :=
  ready <- gets s_ready ;;
  if negb ready then ret 0 else
  ip_pump ;; fire_timers ;;
  (fix go (n : nat) : M Z :=
     match n with O => ret 0 | S n' => drain_one fuel ;; ip_pump ;; go n' end) 8%nat.

Fixpoint poll_loop (fuel : nat) : M unit :=
  match fuel with
  | O => nofuel
  | S f =>
      claim <- ring_claim_w ;;
      match claim with
      | None => ret tt
      | Some (word, idx) =>
          if ring_kind word =? KIND_STOP then ring_release_w idx ;; poll_loop f else
          let t := ring_pay word in
          ring_release_w idx ;;
          step_task f t ;; task_unref t ;; ip_pump ;; fire_timers ;; poll_loop f
      end
  end.
Definition pm_metal_coop_poll (fuel : nat) : M unit :=
  ready <- gets s_ready ;;
  if negb ready then ret tt else ip_pump ;; fire_timers ;; poll_loop fuel.

(** [run_until]: [stall_until] and the loop around it.  The idle naps change
    no state; the clock readings that follow them are [clk]'s. *)
Fixpoint run_until_loop (fuel : nat) (owner waiter stall_until : Z) : M Z :=
  match fuel with
  | O => nofuel
  | S f =>
      c <- get_coro waiter ;;
      if is_terminal (c_status c) then
        ret (if bool_decide (c_status c = DONE) then 0 else -1) else
      ip_pump ;; fire_timers ;;
      claim <- ring_claim_w ;;
      match claim with
      | Some (word, idx) =>
          if ring_kind word =? KIND_STOP then ring_release_w idx ;; run_until_loop f owner waiter stall_until else
          let t := ring_pay word in
          ring_release_w idx ;;
          now <- mono_us ;;
          let stall := u64 (now + STALL_US) in
          (if t =? owner then ret tt else step_task f t) ;;
          task_unref t ;; run_until_loop f owner waiter stall
      | None =>
          next <- next_timer_deadline ;;
          if next =? U64_MAX then
            busy <- gets s_busy ;;
            if negb (busy =? 0) then
              now <- mono_us ;; run_until_loop f owner waiter (u64 (now + STALL_US))
            else
              now <- mono_us ;;
              if stall_until <=? now then ret (-1)
              else run_until_loop f owner waiter stall_until
          else
            _ <- mono_us ;;
            now <- mono_us ;; run_until_loop f owner waiter (u64 (now + STALL_US))
      end
  end.

Definition pm_metal_coop_run_until (fuel : nat) (waiter : Z) : M Z :=
  ready <- gets s_ready ;;
  if negb ready || (waiter =? 0) then ret (-1) else
  owner <- gets s_current ;;
  (if owner =? 0 then ret tt else upd_task owner (set_t_on_c_stack true)) ;;
  now <- mono_us ;;
  rc <- run_until_loop fuel owner waiter (u64 (now + STALL_US)) ;;
  (if owner =? 0 then ret tt else upd_task owner (set_t_on_c_stack false)) ;;
  ret rc.

Definition pm_metal_coop_run (fuel : nat) (t : Z) : M Z :=
  if t =? 0 then ret (-1) else
  k <- get_task t ;;
  if t_root k =? 0 then ret (-1) else pm_metal_coop_run_until fuel (t_root k).

(** One pass of [runner_entry]'s loop: the backoff rung it leaves behind and
    the nap it takes. *)
Definition runner_pass (fuel : nat) (backoff : Z) : M (Z * Z) :=
  ip_pump ;; fire_timers ;;
  claimed <- drain_one fuel ;;
  if claimed =? 0 then ret (0, 0) else
  let nap := u64 (Z.shiftl 200 backoff) in
  let backoff := if backoff <? 6 then backoff + 1 else backoff in
  next <- next_timer_deadline ;;
  if next =? U64_MAX then ret (backoff, nap) else
  now <- mono_us ;;
  let span := if now <? next then u64 (next - now) else 0 in
  ret (backoff, if span <? nap then span else nap).
End WithHost.
End CoopRun.
