(* ===== verification/CoopRefs.v ===== *)
(** * Reference accounting of the coop card

    The ready ring, the timer list, the mutex FIFO and the C stack of a runner
    each hold references to tasks.  [refs_ok T R] says that the multiset [R] of
    those references is what the tasks' [ring_refs] words count; from it
    follow the safety results: a block is freed exactly once, by the drop that
    empties a dead task, and nothing that holds a reference ever dangles. *)
From S2P Require Import Prelude Ring CoopState.

Module CoopRefs.
Import Ring Coop.
Local Open Scope metal_scope.

(** ** Multisets of references *)

Definition occ (t : Z) (R : list Z) : Z := Z.of_nat (count_occ Z.eq_dec R t).

Lemma occ_cons t x R : occ t (x :: R) = occ t R + b2z (bool_decide (x = t)).
Proof. unfold occ. simpl. destruct (Z.eq_dec x t); case_bool_decide; simpl; lia || done. Qed.
Lemma occ_app t R S : occ t (R ++ S) = occ t R + occ t S.
Proof. unfold occ. rewrite count_occ_app. lia. Qed.
Lemma occ_nonneg t R : 0 <= occ t R.
Proof. unfold occ. lia. Qed.
Lemma occ_bound t R : occ t R <= zlen R.
Proof. unfold occ. pose proof (count_occ_bound Z.eq_dec t R). lia. Qed.
Lemma occ_pos t R : t ∈ R <-> 0 < occ t R.
Proof. unfold occ. rewrite list_elem_of_In, (count_occ_In Z.eq_dec). lia. Qed.
#[export] Hint Resolve occ_nonneg : metal.

#[export] Instance occ_Permutation t : Proper ((≡ₚ) ==> eq) (occ t).
Proof. intros R S E. unfold occ. f_equal. by apply Permutation_count_occ. Qed.

Record refs_ok (T : gmap Z task) (R : list Z) : Prop := {
  rf_addr : forall t k, T !! t = Some k -> is_pay t /\ t <> 0;
  rf_word : forall t k, T !! t = Some k ->
    t_ring_refs k = occ t R + b2z (t_dead k) * TASK_DEAD_BIT;
  rf_dead : forall t k, T !! t = Some k -> t_dead k = true -> 0 < occ t R;
  rf_live : forall t, t ∈ R -> is_Some (T !! t);
  rf_size : zlen R < TASK_DEAD_BIT }.

#[export] Instance refs_ok_Permutation T : Proper ((≡ₚ) ==> iff) (refs_ok T).
Proof.
  assert (forall R S, R ≡ₚ S -> refs_ok T R -> refs_ok T S) as Himp.
  { intros R S E [H1 H2 H3 H4 H5]. constructor; try done.
    - intros. rewrite <- E. by apply H2.
    - intros. rewrite <- E. by eapply H3.
    - intros t Ht. apply H4. by rewrite E.
    - by rewrite <- E. }
  intros R S E. split; apply Himp; [done|by symmetry].
Qed.

(** The root frames of distinct tasks are distinct and allocated. *)
Definition roots_ok (T : gmap Z task) (C : gmap Z coro) : Prop :=
  forall t k, T !! t = Some k -> t_root k <> 0 ->
    is_Some (C !! t_root k) /\
    forall t' k', T !! t' = Some k' -> t_root k' = t_root k -> t' = t.

(** ** The reference word *)

Lemma word_mask n d : 0 <= n < TASK_DEAD_BIT ->
  Z.land (n + b2z d * TASK_DEAD_BIT) TASK_REF_MASK = n.
Proof.
  unfold TASK_DEAD_BIT, TASK_REF_MASK. intros Hn. change 2147483647 with (2 ^ 31 - 1).
  rewrite land_ones_mod by lia. change (2 ^ 31) with 2147483648. destruct d; simpl; mlia.
Qed.

Lemma word_dead n d : 0 <= n < TASK_DEAD_BIT ->
  Z.land (n + b2z d * TASK_DEAD_BIT) TASK_DEAD_BIT = b2z d * TASK_DEAD_BIT.
Proof.
  unfold TASK_DEAD_BIT. intros Hn. change 2147483648 with (Z.shiftl 1 31).
  assert (Hz : Z.land n (Z.shiftl 1 31) = 0).
  { apply Z.bits_inj_iff'. intros i Hi. rewrite Z.land_spec, Z.shiftl_1_l, Z.pow2_bits_eqb, Z.bits_0 by lia.
    destruct (Z.eqb_spec 31 i) as [<-|]; [|by rewrite andb_false_r].
    rewrite <- (Z.mod_small n (2 ^ 31)), Z.mod_pow2_bits_high by lia. done. }
  destruct d; simpl b2z; rewrite ?Z.mul_0_l, ?Z.mul_1_l, ?Z.add_0_r; [|done].
  rewrite <- (Z.mul_1_l (Z.shiftl 1 31)) at 1. change (1 * Z.shiftl 1 31) with (1 * 2 ^ 31).
  rewrite <- (lor_disjoint_add n 1 31), Z.land_lor_distr_l, Hz by lia. done.
Qed.

Lemma word_lor n d : 0 <= n < TASK_DEAD_BIT ->
  Z.lor (n + b2z d * TASK_DEAD_BIT) TASK_DEAD_BIT = n + TASK_DEAD_BIT.
Proof.
  intros Hn. pose proof (Z.add_lor_land (n + b2z d * TASK_DEAD_BIT) TASK_DEAD_BIT) as E.
  rewrite word_dead in E by done. destruct d; simpl b2z in *; lia.
Qed.

Lemma ref_word T R t k :
  refs_ok T R -> T !! t = Some k ->
  Z.land (t_ring_refs k) TASK_REF_MASK = occ t R /\
  Z.land (t_ring_refs k) TASK_DEAD_BIT = b2z (t_dead k) * TASK_DEAD_BIT /\
  0 <= occ t R < TASK_DEAD_BIT.
Proof.
  intros HR Hk. pose proof (occ_bound t R). pose proof (occ_nonneg t R). pose proof (rf_size _ _ HR).
  rewrite (rf_word _ _ HR _ _ Hk), word_mask, word_dead by lia. lia.
Qed.

(** Rewriting one task without touching its reference word or dead flag. *)
Lemma refs_ok_upd T R t k k' :
  refs_ok T R -> T !! t = Some k -> t_ring_refs k' = t_ring_refs k -> t_dead k' = t_dead k ->
  refs_ok (<[t := k']> T) R.
Proof.
  intros [H1 H2 H3 H4 H5] Hk Hr Hd. constructor; try done.
  - intros s j. rewrite lookup_insert. case_decide; intros; simplify_eq; eauto.
  - intros s j. rewrite lookup_insert. case_decide; intros; simplify_eq; eauto. rewrite Hr, Hd. eauto.
  - intros s j. rewrite lookup_insert. case_decide; intros; simplify_eq; eauto; rewrite Hd in *; eauto.
  - intros s Hs. rewrite lookup_insert. case_decide; eauto.
Qed.

(** Taking a reference. *)
Lemma refs_ok_take T R t k :
  refs_ok T R -> T !! t = Some k -> zlen R + 1 < TASK_DEAD_BIT ->
  refs_ok (<[t := set_t_ring_refs (u32 (t_ring_refs k + 1)) k]> T) (t :: R).
Proof.
  intros HR Hk Hs. pose proof HR as [H1 H2 H3 H4 H5]. constructor.
  - intros s j. rewrite lookup_insert. case_decide; intros; simplify_eq; eauto.
  - intros s j. rewrite lookup_insert, occ_cons. case_decide as Hd; intros; simplify_eq; simpl.
    + rewrite bool_decide_eq_true_2, (H2 _ _ Hk) by done. simpl.
      pose proof (occ_bound s R). pose proof (occ_nonneg s R). unfold TASK_DEAD_BIT in *.
      rewrite u32_small; destruct (t_dead k); simpl; lia.
    + rewrite bool_decide_eq_false_2 by done. simpl. rewrite Z.add_0_r. eauto.
  - intros s j. rewrite lookup_insert, occ_cons. pose proof (occ_nonneg s R).
    case_decide as Hd; intros; simplify_eq; simpl.
    + rewrite bool_decide_eq_true_2 by done. simpl. lia.
    + rewrite bool_decide_eq_false_2 by done. simpl. rewrite Z.add_0_r. eauto.
  - intros s Hin. rewrite lookup_insert. case_decide; [eauto|]. apply H4.
    apply elem_of_cons in Hin as [->|]; done.
  - simpl. lia.
Qed.

(** Dropping a reference that is not the last one of a dead task. *)
Lemma refs_ok_drop T R t k :
  refs_ok T (t :: R) -> T !! t = Some k -> (t_dead k = true -> 0 < occ t R) ->
  refs_ok (<[t := set_t_ring_refs (u32 (t_ring_refs k - 1)) k]> T) R.
Proof.
  intros HR Hk Hl. pose proof HR as [H1 H2 H3 H4 H5]. constructor.
  - intros s j. rewrite lookup_insert. case_decide; intros; simplify_eq; eauto.
  - intros s j. rewrite lookup_insert. case_decide as Hd; intros Hs; simplify_eq; simpl.
    + rewrite (H2 _ _ Hk), occ_cons, bool_decide_eq_true_2 by done. simpl.
      pose proof (occ_bound s R). pose proof (occ_nonneg s R). simpl length in H5. unfold TASK_DEAD_BIT in *.
      rewrite u32_small; destruct (t_dead k); simpl; lia.
    + rewrite (H2 _ _ Hs), occ_cons, bool_decide_eq_false_2 by done. simpl. lia.
  - intros s j. rewrite lookup_insert. case_decide as Hd; intros Hs; simplify_eq; simpl; [done|].
    intros Hdead. pose proof (H3 _ _ Hs Hdead) as Hp. rewrite occ_cons, bool_decide_eq_false_2 in Hp by done.
    simpl in Hp. lia.
  - intros s Hin. rewrite lookup_insert. case_decide; [eauto|]. apply H4. by right.
  - simpl in H5. lia.
Qed.

(** Freeing the block with the last reference of a dead task. *)
Lemma refs_ok_free T R t :
  refs_ok T (t :: R) -> occ t R = 0 -> refs_ok (delete t T) R.
Proof.
  intros [H1 H2 H3 H4 H5] H0. constructor.
  - intros s j Hs%lookup_delete_Some. destruct Hs. eauto.
  - intros s j [Hne Hs]%lookup_delete_Some. rewrite (H2 _ _ Hs), occ_cons, bool_decide_eq_false_2 by done.
    simpl. lia.
  - intros s j [Hne Hs]%lookup_delete_Some Hd. pose proof (H3 _ _ Hs Hd) as Hp.
    rewrite occ_cons, bool_decide_eq_false_2 in Hp by done. simpl in Hp. lia.
  - intros s Hin. rewrite lookup_delete_ne; [apply H4; by right|].
    intros <-. apply occ_pos in Hin. lia.
  - simpl in H5. lia.
Qed.

Lemma roots_ok_upd T C t k k' :
  roots_ok T C -> T !! t = Some k -> t_root k' = t_root k \/ t_root k' = 0 ->
  roots_ok (<[t := k']> T) C.
Proof.
  intros H Hk Hr s j. rewrite lookup_insert. case_decide as Hd; intros Hs Hn; simplify_eq.
  - destruct Hr as [Hr|Hr]; [|done]. rewrite Hr in *. destruct (H _ _ Hk Hn) as [Hc Hu]. split; [done|].
    intros s' j'. rewrite lookup_insert. case_decide; intros; simplify_eq; eauto.
  - destruct (H _ _ Hs Hn) as [Hc Hu]. split; [done|].
    intros s' j'. rewrite lookup_insert. case_decide as Hd'; intros Hs' He; simplify_eq; eauto.
    destruct Hr as [Hr|Hr]; [rewrite Hr in He; eauto|lia].
Qed.

Lemma roots_ok_free T C t k (b : bool) :
  roots_ok T C -> T !! t = Some k ->
  roots_ok (delete t T) (if b && negb (t_root k =? 0) then delete (t_root k) C else C).
Proof.
  intros H Hk s j [Hne Hs]%lookup_delete_Some Hn. destruct (H _ _ Hs Hn) as [Hc Hu]. split.
  - case_match; [|done]. rewrite lookup_delete_ne; [done|]. intros E. apply Hne. eauto.
  - intros s' j' [_ Hs']%lookup_delete_Some. eauto.
Qed.

(** ** The reference operations on a world *)

Definition take_world (w : world) (t : Z) (k : task) : world :=
  set_tasks (<[t := set_t_ring_refs (u32 (t_ring_refs k + 1)) k]> (s_tasks w)) w.

Definition auto_frame (w : world) (k : task) : bool :=
  match s_coros w !! t_root k with Some c => c_auto_free c | None => false end.

Definition free_world (w : world) (t : Z) (k : task) : world :=
  set_coros (if auto_frame w k && negb (t_root k =? 0) then delete (t_root k) (s_coros w) else s_coros w)
    (set_tasks (delete t (s_tasks w)) w).

Definition last_ref (k : task) : bool :=
  (Z.land (t_ring_refs k) TASK_REF_MASK =? 1) && negb (Z.land (t_ring_refs k) TASK_DEAD_BIT =? 0).

Definition drop_world (w : world) (t : Z) (k : task) : world :=
  if last_ref k then free_world w t k
  else set_tasks (<[t := set_t_ring_refs (u32 (t_ring_refs k - 1)) k]> (s_tasks w)) w.

Definition kill_word (k : task) : task := set_t_ring_refs (Z.lor (t_ring_refs k) TASK_DEAD_BIT) (set_t_dead true k).

Definition kill_world (w : world) (t : Z) (k : task) : world :=
  if (Z.land (t_ring_refs k) TASK_REF_MASK =? 0) && (Z.land (t_ring_refs k) TASK_DEAD_BIT =? 0)
  then free_world w t k else set_tasks (<[t := kill_word k]> (s_tasks w)) w.

(** Every field but the two stores is framed by the reference operations. *)
Record framed (w w' : world) : Prop := {
  fr_inbox : s_inbox w' = s_inbox w; fr_timers : s_timers w' = s_timers w;
  fr_vm : s_vm_mutex w' = s_vm_mutex w; fr_lock : s_vm_lock_ready w' = s_vm_lock_ready w;
  fr_ready : s_ready w' = s_ready w; fr_ncpu : s_ncpu w' = s_ncpu w; fr_run : s_run w' = s_run w;
  fr_busy : s_busy w' = s_busy w; fr_current : s_current w' = s_current w;
  fr_worker : s_worker w' = s_worker w; fr_capable : s_vm_capable w' = s_vm_capable w;
  fr_ticks : s_ticks w' = s_ticks w }.

Lemma framed_refl w : framed w w.
Proof. by constructor. Qed.
Lemma framed_trans w1 w2 w3 : framed w1 w2 -> framed w2 w3 -> framed w1 w3.
Proof. intros [] []. constructor; congruence. Qed.
Lemma framed_take w t k : framed w (take_world w t k).
Proof. by constructor. Qed.
Lemma framed_free w t k : framed w (free_world w t k).
Proof. by constructor. Qed.
Lemma framed_drop w t k : framed w (drop_world w t k).
Proof. unfold drop_world. case_match; [apply framed_free|by constructor]. Qed.
Lemma framed_kill w t k : framed w (kill_world w t k).
Proof. unfold kill_world. case_match; [apply framed_free|by constructor]. Qed.
#[export] Hint Resolve framed_refl framed_take framed_free framed_drop framed_kill : metal.

(** The two stores together. *)
Definition store_ok (w : world) (R : list Z) : Prop :=
  refs_ok (s_tasks w) R /\ roots_ok (s_tasks w) (s_coros w).

#[export] Instance store_ok_Permutation w : Proper ((≡ₚ) ==> iff) (store_ok w).
Proof. intros R S E. unfold store_ok. by rewrite E. Qed.

Lemma task_free_done w t k :
  s_tasks w !! t = Some k -> roots_ok (s_tasks w) (s_coros w) ->
  task_free t w = Done tt (free_world w t k).
Proof.
  intros Hk Hr. unfold task_free, free_world, auto_frame, bind, get_task, ret, free_task.
  rewrite Hk. destruct (Z.eqb_spec (t_root k) 0) as [E|E].
  - rewrite Hk, andb_false_r. simpl. by destruct w.
  - destruct (Hr _ _ Hk E) as [[c Hc] _]. unfold get_coro. rewrite Hc, Hk, andb_true_r.
    destruct (c_auto_free c); simpl.
    + rewrite (proj2 (Z.eqb_neq _ _)) by done. unfold free_coro. simpl. by rewrite Hc.
    + by destruct w.
Qed.

(** The free that follows a rewrite of the task's own words. *)
Lemma free_world_upd w t k k' :
  t_root k' = t_root k -> free_world (set_tasks (<[t := k']> (s_tasks w)) w) t k' = free_world w t k.
Proof. intros E. unfold free_world, auto_frame. simpl. by rewrite E, delete_insert_eq. Qed.

Lemma last_ref_iff T R t k :
  refs_ok T (t :: R) -> T !! t = Some k -> last_ref k = true <-> t_dead k = true /\ occ t R = 0.
Proof.
  intros HR Hk. destruct (ref_word _ _ _ _ HR Hk) as (E1 & E2 & E3). unfold last_ref.
  rewrite E1, E2, occ_cons, bool_decide_eq_true_2 in * by done. unfold TASK_DEAD_BIT.
  pose proof (occ_nonneg t R). destruct (t_dead k); simpl; split; intros; breflect; zcase; try lia.
  all: intuition (lia || done).
Qed.

Lemma free_store_ok w R t k :
  store_ok w (t :: R) -> s_tasks w !! t = Some k -> occ t R = 0 -> store_ok (free_world w t k) R.
Proof.
  intros [HR Hr] Hk H0. split; simpl; [by apply refs_ok_free|]. by apply roots_ok_free.
Qed.

Lemma unref_done w R t :
  store_ok w (t :: R) ->
  exists k, s_tasks w !! t = Some k /\ task_unref t w = Done tt (drop_world w t k) /\
    store_ok (drop_world w t k) R /\
    (last_ref k = true <-> t_dead k = true /\ occ t R = 0).
Proof.
  intros [HR Hr]. destruct (rf_live _ _ HR t) as [k Hk]; [by left|]. exists k.
  destruct (rf_addr _ _ HR _ _ Hk) as [_ H0]. pose proof (last_ref_iff _ _ _ _ HR Hk) as Hl.
  assert (Hr' : roots_ok (<[t := set_t_ring_refs (u32 (t_ring_refs k - 1)) k]> (s_tasks w)) (s_coros w)).
  { apply (roots_ok_upd _ _ _ k); eauto. }
  set (k1 := set_t_ring_refs (u32 (t_ring_refs k - 1)) k) in *.
  set (w1 := set_tasks (<[t := k1]> (s_tasks w)) w).
  assert (E : task_unref t w = if last_ref k then task_free t w1 else Done tt w1).
  { unfold task_unref, bind, get_task. rewrite (proj2 (Z.eqb_neq _ _)), Hk by done.
    unfold last_ref. simpl. fold k1 w1. by destruct (_ =? 1), (_ =? 0). }
  assert (Ef : task_free t w1 = Done tt (free_world w t k)).
  { rewrite <- (free_world_upd w t k k1) by done. apply task_free_done; [|done]. apply lookup_insert_eq. }
  split; [done|]. rewrite E, Ef. unfold drop_world. fold k1 w1.
  destruct (last_ref k) eqn:El; (split; [done|]; split; [|done]).
  - apply free_store_ok; [by split|done|]. by apply Hl.
  - split; [|done]. apply refs_ok_drop; [done..|]. intros Hd. pose proof (occ_nonneg t R).
    destruct (decide (occ t R = 0)) as [Hz|]; [|lia]. destruct Hl as [_ Hl].
    by specialize (Hl (conj Hd Hz)).
Qed.

Lemma take_store_ok w R t k :
  store_ok w R -> s_tasks w !! t = Some k -> zlen R + 1 < TASK_DEAD_BIT ->
  store_ok (take_world w t k) (t :: R).
Proof. intros [HR Hr] Hk Hs. split; simpl; [by apply refs_ok_take|]. by eapply roots_ok_upd; eauto. Qed.

(** [hold_task_ref] succeeds exactly on a live task. *)
Lemma hold_done w R t k :
  store_ok w R -> s_tasks w !! t = Some k -> zlen R + 1 < TASK_DEAD_BIT ->
  hold_task_ref t w = if t_dead k then Done (-1) w else Done 0 (take_world w t k).
Proof.
  intros [HR Hr] Hk Hs. destruct (rf_addr _ _ HR _ _ Hk) as [_ H0].
  unfold hold_task_ref, bind, get_task. rewrite (proj2 (Z.eqb_neq _ _)), Hk by done.
  destruct (t_dead k) eqn:Ed; [done|]. simpl. rewrite lookup_insert_eq. simpl. by rewrite Ed.
Qed.

(** Dropping what was just taken restores the world. *)
Lemma take_drop w R t k :
  store_ok w R -> s_tasks w !! t = Some k -> t_dead k = false -> zlen R + 1 < TASK_DEAD_BIT ->
  task_unref t (take_world w t k) = Done tt w.
Proof.
  intros HS Hk Hd Hs. pose proof (take_store_ok _ _ _ _ HS Hk Hs) as HS1.
  destruct (unref_done _ _ _ HS1) as (k1 & Hk1 & -> & _ & Hl). f_equal.
  simpl in Hk1. rewrite lookup_insert_eq in Hk1. simplify_eq. unfold drop_world. simpl in Hl |- *.
  destruct (last_ref _); [destruct Hl as [Hl _]; destruct (Hl eq_refl); congruence|].
  rewrite insert_insert_eq. destruct HS as [HR _]. pose proof (rf_word _ _ HR _ _ Hk) as Hw.
  pose proof (occ_bound t R). pose proof (occ_nonneg t R). unfold TASK_DEAD_BIT in *.
  rewrite Hd in Hw. simpl in Hw. rewrite (u32_small (t_ring_refs k + 1)) by lia.
  rewrite u32_small by lia. replace (t_ring_refs k + 1 - 1) with (t_ring_refs k) by lia.
  destruct k; simpl. unfold set_t_ring_refs; simpl. rewrite insert_id by done. by destruct w.
Qed.

(** ** The ring holds references: [push_task_ref] in full *)

Definition enqueued (w : world) (t : Z) (k : task) (r : inbox) : world :=
  set_inbox (Some r) (take_world w t k).

Lemma push_unfold w t k :
  s_tasks w !! t = Some k -> t <> 0 -> t_dead k = false ->
  push_task_ref t w =
    (rc <- ring_push_w KIND_TASK t ;; if negb (rc =? 0) then task_unref t ;; ret (-1) else ret 0)
      (take_world w t k).
Proof.
  intros Hk H0 Hd. unfold push_task_ref. unfold bind at 1. unfold get_task at 1.
  rewrite (proj2 (Z.eqb_neq _ _)), Hk by done. rewrite Hd. unfold bind at 1, put_task, modify.
  unfold bind at 1. unfold get_task at 1. simpl. rewrite lookup_insert_eq. simpl. by rewrite Hd.
Qed.

Lemma push_dead w t k :
  s_tasks w !! t = Some k -> t_dead k = true -> push_task_ref t w = Done (-1) w.
Proof.
  intros Hk Hd. unfold push_task_ref, bind, get_task. destruct (t =? 0); [done|]. by rewrite Hk, Hd.
Qed.

Lemma push_done w R t k r q :
  store_ok w R -> s_tasks w !! t = Some k -> zlen R + 1 < TASK_DEAD_BIT ->
  s_inbox w = Some r -> repr r q -> t_dead k = false ->
  (zlen q = rn r -> push_task_ref t w = Done (-1) w) /\
  (zlen q < rn r ->
     exists r', push_task_ref t w = Done 0 (enqueued w t k r') /\ repr r' (q ++ [t]) /\ rn r' = rn r /\
       store_ok (enqueued w t k r') (t :: R)).
Proof.
  intros HS Hk Hs Hr Hq Hd. pose proof HS as [HR _]. destruct (rf_addr _ _ HR _ _ Hk) as [Hp H0].
  pose proof (push_refines r q t Hq Hp) as [Hpush Hfull].
  rewrite (push_unfold w t k) by done. unfold bind at 1 3. unfold ring_push_w. simpl s_inbox. rewrite Hr.
  split; intros Hl.
  - rewrite (Hfull Hl). simpl.
    replace (set_inbox (Some r) (take_world w t k)) with (take_world w t k)
      by (destruct w; simpl in *; by rewrite Hr).
    unfold bind. by rewrite (take_drop w R).
  - destruct (Hpush Hl) as (r' & -> & Hn & Hq'). exists r'. simpl. split; [done|]. split; [done|].
    split; [done|]. by apply (take_store_ok w R t k).
Qed.

(** ** Marking dead *)

Lemma refs_ok_kill T R t k :
  refs_ok T R -> T !! t = Some k -> 0 < occ t R -> refs_ok (<[t := kill_word k]> T) R.
Proof.
  intros HR Hk Hp. pose proof HR as [H1 H2 H3 H4 H5]. constructor; try done.
  - intros s j. rewrite lookup_insert. case_decide; intros; simplify_eq; eauto.
  - intros s j. rewrite lookup_insert. case_decide; intros; simplify_eq; eauto. simpl.
    rewrite (H2 _ _ Hk). pose proof (occ_bound s R). rewrite word_lor by lia. lia.
  - intros s j. rewrite lookup_insert. case_decide; intros; simplify_eq; eauto.
  - intros s Hs. rewrite lookup_insert. case_decide; eauto.
Qed.

Lemma refs_ok_remove T R t : refs_ok T R -> occ t R = 0 -> refs_ok (delete t T) R.
Proof.
  intros [H1 H2 H3 H4 H5] H0. constructor; try done.
  - intros s j [_ Hs]%lookup_delete_Some. eauto.
  - intros s j [_ Hs]%lookup_delete_Some. eauto.
  - intros s j [_ Hs]%lookup_delete_Some. eauto.
  - intros s Hin. rewrite lookup_delete_ne; [by apply H4|]. intros <-. apply occ_pos in Hin. lia.
Qed.

Lemma mark_dead_done w R t k :
  store_ok w R -> s_tasks w !! t = Some k ->
  task_mark_dead t w = Done tt (kill_world w t k) /\ store_ok (kill_world w t k) R /\
  (s_tasks (kill_world w t k) !! t = None <-> occ t R = 0).
Proof.
  intros [HR Hr] Hk. destruct (rf_addr _ _ HR _ _ Hk) as [_ H0].
  destruct (ref_word _ _ _ _ HR Hk) as (E1 & E2 & E3).
  set (w1 := set_tasks (<[t := kill_word k]> (s_tasks w)) w).
  assert (Hr1 : roots_ok (s_tasks w1) (s_coros w1)) by (apply (roots_ok_upd _ _ _ k); eauto).
  assert (E : task_mark_dead t w =
    if (occ t R =? 0) && (b2z (t_dead k) * TASK_DEAD_BIT =? 0) then task_free t w1 else Done tt w1).
  { unfold task_mark_dead, upd_task, bind, get_task, put_task, modify.
    rewrite (proj2 (Z.eqb_neq _ _)), Hk by done. simpl. rewrite lookup_insert_eq. simpl.
    rewrite E1, E2. unfold w1. rewrite insert_insert_eq. by destruct (_ && _). }
  assert (Ef : task_free t w1 = Done tt (free_world w t k)).
  { rewrite <- (free_world_upd w t k (kill_word k)) by done. apply task_free_done; [|done]. apply lookup_insert_eq. }
  rewrite E, Ef. unfold kill_world. rewrite E1, E2. fold w1.
  destruct (Z.eqb_spec (occ t R) 0) as [Hz|Hz]; simpl.
  - destruct (t_dead k) eqn:Ed; [pose proof (rf_dead _ _ HR _ _ Hk Ed); lia|]. simpl. split; [done|]. split.
    + split; simpl; [by apply refs_ok_remove|by apply roots_ok_free].
    + split; [done|]. intros _. apply lookup_delete_eq.
  - split; [done|]. split; [|simpl; rewrite lookup_insert_eq; split; [done|lia]].
    split; [|done]. apply refs_ok_kill; [done..|]. lia.
Qed.
End CoopRefs.
