(* ===== verification/CoopMutex.v ===== *)
(** * The async mutex of the coop card

    [pm_metal_coop_mutex_try_acquire] and [_release] against their contract:
    the intrusive [mutex_next] chain is a FIFO queue of parked tasks, release
    hands the mutex to the oldest of them, and the queue's own references keep
    every parked task allocated. *)
From S2P Require Import Prelude Ring CoopState CoopRefs.

Module CoopMutex.
Import Ring Coop CoopRefs.
Local Open Scope metal_scope.

(** ** The intrusive queue *)

Fixpoint chain (T : gmap Z task) (p : Z) (l : list Z) : Prop :=
  match l with
  | [] => p = 0
  | x :: l' => p = x /\ x <> 0 /\ exists k, T !! x = Some k /\ chain T (t_mutex_next k) l'
  end.

Definition tail_of (l : list Z) : Z := List.last l 0.

Record fifo_ok (T : gmap Z task) (m : mutex) (l : list Z) : Prop := {
  ff_chain : chain T (m_head m) l;
  ff_tail : m_tail m = tail_of l;
  ff_nodup : NoDup l }.

(** The chain reads only the links of its members. *)
Lemma chain_same T T' p l :
  (forall x, x ∈ l -> t_mutex_next <$> T' !! x = t_mutex_next <$> T !! x) ->
  chain T p l -> chain T' p l.
Proof.
  revert p. induction l as [|x l IH]; simpl; [done|]. intros p He (-> & H0 & k & Hk & Hc).
  split; [done|]. split; [done|]. pose proof (He x ltac:(left)) as E. rewrite Hk in E. simpl in E.
  destruct (T' !! x) as [k'|] eqn:Hk'; [|done]. simpl in E. exists k'. split; [done|].
  injection E as E. rewrite E. apply IH; [|done]. intros y Hy. apply He. by right.
Qed.

Lemma fifo_same T T' m l :
  (forall x, x ∈ l -> t_mutex_next <$> T' !! x = t_mutex_next <$> T !! x) ->
  fifo_ok T m l -> fifo_ok T' m l.
Proof. intros H [H1 H2 H3]. constructor; [|done..]. by eapply chain_same. Qed.

(** Reference operations keep every link that a reference still protects. *)
Lemma links_take w t k x :
  s_tasks w !! t = Some k -> t_mutex_next <$> s_tasks (take_world w t k) !! x = t_mutex_next <$> s_tasks w !! x.
Proof. intros Hk. simpl. rewrite lookup_insert. case_decide; subst; [|done]. by rewrite Hk. Qed.

Lemma links_drop w R t k x :
  store_ok w (t :: R) -> s_tasks w !! t = Some k -> x ∈ R ->
  t_mutex_next <$> s_tasks (drop_world w t k) !! x = t_mutex_next <$> s_tasks w !! x.
Proof.
  intros [HR Hr] Hk Hx. unfold drop_world. pose proof (last_ref_iff _ _ _ _ HR Hk) as Hl. case_match; simpl.
  - rewrite lookup_delete_ne; [done|]. intros <-. apply occ_pos in Hx. destruct Hl as [Hl _].
    destruct (Hl eq_refl). lia.
  - rewrite lookup_insert. case_decide; subst; [|done]. by rewrite Hk.
Qed.

Lemma links_kill w R t k x :
  store_ok w R -> s_tasks w !! t = Some k -> x ∈ R ->
  t_mutex_next <$> s_tasks (kill_world w t k) !! x = t_mutex_next <$> s_tasks w !! x.
Proof.
  intros [HR Hr] Hk Hx. destruct (ref_word _ _ _ _ HR Hk) as (E1 & E2 & E3).
  unfold kill_world. rewrite E1. case_match eqn:Hc; simpl.
  - rewrite lookup_delete_ne; [done|]. intros <-. apply occ_pos in Hx. breflect. lia.
  - rewrite lookup_insert. case_decide; subst; [|done]. by rewrite Hk.
Qed.

(** ** Appending to the queue *)

Definition linked (T : gmap Z task) (x v : Z) : gmap Z task := alter (set_t_mutex_next v) x T.

Lemma linked_lookup T x v y :
  linked T x v !! y = if decide (x = y) then set_t_mutex_next v <$> T !! y else T !! y.
Proof. unfold linked. rewrite lookup_alter. case_decide; subst; done. Qed.

Lemma linked_insert T x v k : T !! x = Some k -> linked T x v = <[x := set_t_mutex_next v k]> T.
Proof. intros Hk. unfold linked. by rewrite (alter_alt_Some _ _ _ _ Hk). Qed.

Lemma linked_store w R x v : store_ok w R -> store_ok (set_tasks (linked (s_tasks w) x v) w) R.
Proof.
  intros [HR Hr]. unfold store_ok. simpl. destruct (s_tasks w !! x) as [k|] eqn:Hk.
  - rewrite (linked_insert _ _ _ _ Hk). split; [by eapply refs_ok_upd|]. eapply roots_ok_upd; eauto.
  - unfold linked. by rewrite alter_alt, Hk.
Qed.

Lemma upd_link w x v k :
  s_tasks w !! x = Some k ->
  upd_task x (set_t_mutex_next v) w = Done tt (set_tasks (linked (s_tasks w) x v) w).
Proof.
  intros Hk. unfold upd_task, bind, get_task, put_task, modify. rewrite Hk.
  by rewrite (linked_insert _ _ _ _ Hk).
Qed.

Lemma chain_last T p l x :
  chain T p (l ++ [x]) -> exists k, T !! x = Some k /\ t_mutex_next k = 0.
Proof.
  revert p. induction l as [|y l IH]; simpl; intros p (-> & H0 & k & Hk & Hc); eauto.
Qed.

Lemma chain_mem T p l x : chain T p l -> x ∈ l -> x <> 0 /\ is_Some (T !! x).
Proof.
  revert p. induction l as [|y l IH]; intros p Hc Hx; [by apply not_elem_of_nil in Hx|].
  destruct Hc as (-> & H0 & k & Hk & Hc). apply elem_of_cons in Hx as [->|Hx]; eauto.
Qed.

Lemma chain_fun T p l l' : chain T p l -> chain T p l' -> l = l'.
Proof.
  revert p l'. induction l as [|x l IH]; intros p [|y l']; simpl; try done.
  - by intros -> (<- & ? & _).
  - by intros (-> & ? & _) ->.
  - intros (-> & _ & k & Hk & Hc) (<- & _ & k' & Hk' & Hc'). f_equal. assert (k' = k) as -> by congruence. eauto.
Qed.

Lemma chain_head T p l : chain T p l -> (p = 0 <-> l = []).
Proof. destruct l; simpl; [naive_solver|]. intros (-> & ? & _). naive_solver. Qed.

(** Linking a fresh last element at the end of the chain. *)
Lemma chain_snoc T p l x kx t :
  chain T p (l ++ [x]) -> NoDup (l ++ [x]) -> t ∉ l ++ [x] ->
  T !! t = Some kx -> t_mutex_next kx = 0 -> t <> 0 ->
  chain (linked T x t) p (l ++ [x; t]).
Proof.
  intros Hc Hnd Ht Hk H0 Hne. revert p Hc. induction l as [|y l IH]; simpl; intros p (-> & Hy & k & Hky & Hc).
  - split; [done|]. split; [done|]. exists (set_t_mutex_next t k). rewrite linked_lookup, decide_True, Hky by done.
    split; [done|]. split; [done|]. split; [done|]. exists kx. rewrite linked_lookup, decide_False; [done|].
    intros ->. apply Ht. by left.
  - simpl in Hnd. apply NoDup_cons in Hnd as [Hny Hnd]. split; [done|]. split; [done|]. exists k.
    rewrite linked_lookup, decide_False, Hky.
    + split; [done|]. apply IH; [done|set_solver|done].
    + intros ->. set_solver.
Qed.

Lemma tail_of_snoc l x : tail_of (l ++ [x]) = x.
Proof. unfold tail_of. by rewrite List.last_last. Qed.

(** A task keeps everything but its links and reference word. *)
Definition core (k : task) : task := set_t_mutex_next 0 (set_t_ring_refs 0 k).
Definition same_cores (w w' : world) : Prop := forall x, core <$> s_tasks w' !! x = core <$> s_tasks w !! x.

Lemma same_cores_trans w1 w2 w3 : same_cores w1 w2 -> same_cores w2 w3 -> same_cores w1 w3.
Proof. intros H1 H2 x. by rewrite H2. Qed.
Lemma same_cores_link w x v : same_cores w (set_tasks (linked (s_tasks w) x v) w).
Proof. intros y. simpl. rewrite linked_lookup. case_decide; [|done]. by destruct (s_tasks w !! y). Qed.
Lemma same_cores_take w t k : s_tasks w !! t = Some k -> same_cores w (take_world w t k).
Proof. intros Hk x. simpl. rewrite lookup_insert. case_decide; subst; [|done]. by rewrite Hk. Qed.
Lemma same_cores_drop w t k : s_tasks w !! t = Some k -> last_ref k = false -> same_cores w (drop_world w t k).
Proof.
  intros Hk Hl x. unfold drop_world. rewrite Hl. simpl. rewrite lookup_insert.
  case_decide; subst; [|done]. by rewrite Hk.
Qed.

(** [fifo_append] puts a task that is not already parked at the tail. *)
Lemma fifo_append_done w R m l t k :
  store_ok w R -> fifo_ok (s_tasks w) m l -> s_tasks w !! t = Some k -> t <> 0 -> t ∉ l ->
  exists w' m', fifo_append m t w = Done m' w' /\ framed w w' /\ s_coros w' = s_coros w /\
    store_ok w' R /\ m_owner m' = m_owner m /\ fifo_ok (s_tasks w') m' (l ++ [t]) /\
    (forall x, core <$> s_tasks w' !! x = core <$> s_tasks w !! x).
Proof.
  intros HS HF Hk H0 Hnot. set (w1 := set_tasks (linked (s_tasks w) t 0) w).
  assert (HS1 : store_ok w1 R) by (by apply linked_store).
  assert (Hk1 : s_tasks w1 !! t = Some (set_t_mutex_next 0 k)).
  { simpl. by rewrite linked_lookup, decide_True, Hk. }
  assert (HF1 : fifo_ok (s_tasks w1) m l).
  { eapply fifo_same; [|done]. intros x Hx. simpl. rewrite linked_lookup, decide_False; [done|].
    intros ->. done. }
  assert (Hdl : forall T x v y, core <$> linked T x v !! y = core <$> T !! y).
  { intros T x v y. rewrite linked_lookup. case_decide; [|done]. by destruct (T !! y). }
  unfold fifo_append. unfold bind at 1. rewrite (upd_link _ _ _ _ Hk). fold w1.
  destruct HF1 as [Hc Ht Hnd]. destruct (Z.eqb_spec (m_tail m) 0) as [E|E]; simpl.
  - destruct l as [|y l _] using rev_ind; [|exfalso].
    + exists w1, (Mutex (m_owner m) t t). split; [done|]. split; [by constructor|]. split; [done|].
      split; [done|]. split; [done|]. split; [|apply Hdl].
      constructor; simpl; [|done|apply NoDup_singleton].
      split; [done|]. split; [done|]. by exists (set_t_mutex_next 0 k).
    + rewrite tail_of_snoc in Ht. rewrite Ht in E. subst y.
      destruct (chain_mem _ _ _ 0 Hc) as [? _]; [set_solver|done].
  - destruct l as [|y l _] using rev_ind; [by rewrite Ht in E|]. rewrite tail_of_snoc in Ht.
    rewrite Ht. destruct (chain_last _ _ _ _ Hc) as (ky & Hky & Hny).
    set (w2 := set_tasks (linked (s_tasks w1) y t) w1).
    exists w2, (Mutex (m_owner m) (m_head m) t). unfold bind at 1. rewrite (upd_link _ _ _ _ Hky).
    fold w2. split; [done|]. split; [by constructor|]. split; [done|]. split; [by apply linked_store|].
    split; [done|]. split; [|intros x; simpl; by rewrite !Hdl].
    constructor; simpl.
    + rewrite <- app_assoc. simpl. eapply chain_snoc; eauto.
    + by rewrite tail_of_snoc.
    + apply NoDup_app. split; [done|]. split; [set_solver|apply NoDup_singleton].
Qed.

(** Unlinking the head. *)
Lemma chain_tail T x l k :
  chain T x (x :: l) -> T !! x = Some k -> NoDup (x :: l) -> chain (linked T x 0) (t_mutex_next k) l.
Proof.
  intros (_ & Hx & k' & Hk' & Hc) Hk Hnd. simplify_eq. apply NoDup_cons in Hnd as [Hn _].
  eapply chain_same; [|done]. intros y Hy. rewrite linked_lookup, decide_False; [done|]. by intros ->.
Qed.

Lemma tail_of_cons x y l : tail_of (x :: y :: l) = tail_of (y :: l).
Proof. done. Qed.

(** ** The operations against the queue *)

(** Parking: a contended acquire by a live task that is not parked yet. *)
Lemma acquire_parks w R m l self t k :
  store_ok w R -> fifo_ok (s_tasks w) m l -> zlen R + 1 < TASK_DEAD_BIT ->
  self <> 0 -> task_of self w = Done t w -> s_tasks w !! t = Some k -> t_dead k = false ->
  m_owner m <> t -> m_owner m <> 0 -> t ∉ l ->
  exists w' m', pm_metal_coop_mutex_try_acquire m self w = Done (WAITING, m') w' /\ framed w w' /\
    s_coros w' = s_coros w /\ store_ok w' (t :: R) /\ m_owner m' = m_owner m /\
    fifo_ok (s_tasks w') m' (l ++ [t]) /\ same_cores w w'.
Proof.
  intros HS HF Hs Hself Ht Hk Hd Ho1 Ho0 Hnot. destruct (rf_addr _ _ (proj1 HS) _ _ Hk) as [_ H0].
  pose proof (take_store_ok _ _ _ _ HS Hk Hs) as HS1. set (w1 := take_world w t k) in *.
  assert (HF1 : fifo_ok (s_tasks w1) m l) by (eapply fifo_same; [|done]; intros; by apply links_take).
  destruct (fifo_append_done w1 _ m l t _ HS1 HF1 (lookup_insert_eq _ _ _) H0 Hnot)
    as (w' & m' & E & Hfr & Hc & HS' & Ho & HF' & Hsc).
  exists w', m'. unfold pm_metal_coop_mutex_try_acquire.
  rewrite (proj2 (Z.eqb_neq self 0)) by done. unfold bind at 1. rewrite Ht.
  rewrite !(proj2 (Z.eqb_neq _ _)) by done. unfold bind at 1.
  rewrite (hold_done _ _ _ _ HS Hk Hs), Hd. fold w1. simpl. unfold bind at 1. rewrite E.
  rewrite Ho, (proj2 (Z.eqb_neq _ _)) by done. split; [done|].
  split; [by eapply framed_trans; [apply framed_take|]|].
  do 4 (split; [done|]). eapply same_cores_trans; [by apply same_cores_take|done].
Qed.

(** Release with nobody parked clears the owner. *)
Lemma release_empty w m :
  fifo_ok (s_tasks w) m [] -> pm_metal_coop_mutex_release m w = Done (Mutex 0 0 0) w.
Proof.
  intros [Hc Ht _]. simpl in Hc, Ht. unfold pm_metal_coop_mutex_release. rewrite Hc. unfold bind. simpl.
  unfold ret. by rewrite Hc, Ht.
Qed.

(** Release with a queue: the head leaves it and becomes the owner.  Its queue
    reference is traded for a ring reference when the ring has room, and is
    just dropped when it has none. *)
Lemma release_queue w R m t l r q k :
  store_ok w (t :: R) -> (forall x, x ∈ l -> x ∈ R) -> fifo_ok (s_tasks w) m (t :: l) ->
  zlen R + 2 < TASK_DEAD_BIT -> s_inbox w = Some r -> repr r q ->
  s_tasks w !! t = Some k -> t_dead k = false ->
  exists w' m' r' q', pm_metal_coop_mutex_release m w = Done m' w' /\ m_owner m' = t /\
    s_inbox w' = Some r' /\ repr r' q' /\ framed (set_inbox (Some r') w) w' /\
    s_coros w' = s_coros w /\ same_cores w w' /\ fifo_ok (s_tasks w') m' l /\
    (zlen q < rn r -> q' = q ++ [t] /\ store_ok w' (t :: R)) /\
    (zlen q = rn r -> q' = q /\ store_ok w' R).
Proof.
  intros HS Hl HF Hs Hr Hq Hk Hd. destruct (rf_addr _ _ (proj1 HS) _ _ Hk) as [_ H0].
  set (w1 := set_tasks (linked (s_tasks w) t 0) w).
  assert (HS1 : store_ok w1 (t :: R)) by (by apply linked_store).
  set (k1 := set_t_mutex_next 0 k).
  assert (Hk1 : s_tasks w1 !! t = Some k1) by (simpl; by rewrite linked_lookup, decide_True, Hk).
  destruct HF as [Hc Ht Hnd]. pose proof Hc as (Hhd & _ & _). rewrite Hhd in Hc.
  set (m1 := Mutex t (t_mutex_next k) (if t_mutex_next k =? 0 then 0 else m_tail m)).
  assert (HF1 : fifo_ok (s_tasks w1) m1 l).
  { constructor; simpl; [by eapply chain_tail| |by eapply NoDup_cons_1_2].
    pose proof Hc as (_ & _ & k' & Hk' & Hc'). assert (k' = k) as -> by congruence.
    pose proof (chain_head _ _ _ Hc') as Hh. destruct (Z.eqb_spec (t_mutex_next k) 0) as [E|E].
    - destruct Hh as [Hh _]. by rewrite (Hh E).
    - destruct l; [destruct Hh as [_ Hh]; by rewrite Hh in E|]. by rewrite Ht, tail_of_cons. }
  assert (E : pm_metal_coop_mutex_release m w =
    match push_task_ref t w1 with
    | Done _ w2 => match task_unref t w2 with Done _ w3 => Done m1 w3 | Fault => Fault | NoFuel => NoFuel end
    | Fault => Fault | NoFuel => NoFuel end).
  { unfold pm_metal_coop_mutex_release. rewrite Hhd, (proj2 (Z.eqb_neq t 0)) by done. simpl negb. cbv iota.
    unfold bind at 1. unfold bind at 1. unfold get_task at 1. rewrite Hk. unfold bind at 1, put_task, modify at 1.
    unfold ret at 1. rewrite <- (linked_insert _ _ _ _ Hk). fold w1. unfold bind at 1. unfold bind at 1.
    destruct (push_task_ref t w1) as [? w2| |]; [|done..]. by destruct (task_unref t w2). }
  destruct (push_done w1 (t :: R) t k1 r q HS1 Hk1 ltac:(simpl length; lia) Hr Hq Hd) as [Hf Hp].
  pose proof (q_fit _ _ Hq) as Hfit. destruct (decide (zlen q = rn r)) as [Hfull|Hroom].
  - rewrite (Hf Hfull) in E. destruct (unref_done w1 R t HS1) as (k2 & Hk2 & Eu & HS3 & Hlast).
    rewrite Eu in E. assert (k2 = k1) as -> by congruence.
    assert (Hnl : last_ref k1 = false).
    { destruct (last_ref k1) eqn:El; [|done]. destruct Hlast as [Hlast _]. destruct (Hlast eq_refl).
      simpl in *. congruence. }
    exists (drop_world w1 t k1), m1, r, q. split; [done|]. split; [done|].
    split; [by rewrite (fr_inbox _ _ (framed_drop w1 t k1))|]. split; [done|].
    split; [eapply framed_trans; [|apply framed_drop]; by constructor|].
    split; [unfold drop_world; by rewrite Hnl|].
    split; [by eapply same_cores_trans; [apply same_cores_link|by apply same_cores_drop]|].
    split; [|by split; [lia|]].
    eapply fifo_same; [|exact HF1]. intros x Hx. apply (links_drop w1 R t k1 x HS1 Hk1). eauto.
  - destruct (Hp ltac:(lia)) as (r' & Ep & Hq' & Hn & HS2). set (w2 := enqueued w1 t k1 r') in *.
    destruct (unref_done w2 (t :: R) t HS2) as (k2 & Hk2 & Eu & HS3 & Hlast). rewrite Ep, Eu in E.
    assert (Hnl : last_ref k2 = false).
    { destruct (last_ref k2) eqn:El; [|done]. destruct Hlast as [Hlast _]. destruct (Hlast eq_refl) as [_ Hz].
      rewrite occ_cons, bool_decide_eq_true_2 in Hz by done. pose proof (occ_nonneg t R). simpl in Hz. lia. }
    exists (drop_world w2 t k2), m1, r', (q ++ [t]). split; [done|]. split; [done|].
    split; [by rewrite (fr_inbox _ _ (framed_drop w2 t k2))|]. split; [done|].
    split; [eapply framed_trans; [|apply framed_drop]; by constructor|].
    split; [unfold drop_world; by rewrite Hnl|].
    split; [eapply same_cores_trans; [apply same_cores_link|];
            eapply same_cores_trans; [by apply (same_cores_take w1 t k1)|by apply (same_cores_drop w2)]|].
    split; [|by split; [|lia]].
    eapply fifo_same; [|exact HF1]. intros x Hx. rewrite (links_drop w2 (t :: R) t k2 x HS2 Hk2) by (right; eauto).
    by apply (links_take w1 t k1).
Qed.
End CoopMutex.
