(* ===== verification/CoopInv.v ===== *)
(** * The coop card's invariant and the operations that keep it

    [inv b w H]: the ready ring is a queue, the VM mutex's FIFO is a list, and
    the references held by the ring, the armed timers, the FIFO and the C
    stack ([H]) are exactly what the tasks count; [b] bounds the references
    outside the ring. *)
From S2P Require Import Prelude Ring CoopState CoopRun CoopRefs CoopMutex.

Module CoopInv.
Import Ring Coop CoopRun CoopRefs CoopMutex.
Local Open Scope metal_scope.

Definition BIG := 1073741824.

Definition timer_refs (w : world) : list Z := tm_task <$> s_timers w.

Record inv_at (b : Z) (w : world) (H : list Z) (r : inbox) (q l : list Z) : Prop := {
  iv_ring : s_inbox w = Some r;
  iv_queue : repr r q;
  iv_fifo : fifo_ok (s_tasks w) (s_vm_mutex w) l;
  iv_store : store_ok w (q ++ timer_refs w ++ l ++ H);
  iv_parked : forall x k, x ∈ l -> s_tasks w !! x = Some k -> t_dead k = false;
  iv_bound : zlen (timer_refs w) + zlen l + zlen H < b;
  iv_big : b <= BIG }.

Definition inv (b : Z) (w : world) (H : list Z) : Prop := exists r q l, inv_at b w H r q l.

(** The tasks parked on the VM mutex. *)
Definition parked (w : world) (t : Z) : Prop := exists l, fifo_ok (s_tasks w) (s_vm_mutex w) l /\ t ∈ l.

Lemma inv_weaken b b' w H : inv b w H -> b <= b' <= BIG -> inv b' w H.
Proof. intros (r & q & l & []) Hb. exists r, q, l. constructor; try done; lia. Qed.

Lemma inv_room b w H r q l :
  inv_at b w H r q l -> zlen (q ++ timer_refs w ++ l ++ H) + 2 < TASK_DEAD_BIT.
Proof.
  intros [Hr Hq _ _ _ Hb Hbig]. pose proof (q_fit _ _ Hq). pose proof (geom_n _ (q_geom _ _ Hq)).
  rewrite !length_app. unfold BIG, TASK_DEAD_BIT in *. lia.
Qed.

Lemma refs_front (q tm l H : list Z) t : q ++ tm ++ l ++ t :: H ≡ₚ t :: q ++ tm ++ l ++ H.
Proof. rewrite !(assoc_L (++)). symmetry. apply Permutation_middle. Qed.

(** A held reference keeps its task allocated. *)
Lemma inv_held b w t H : inv b w (t :: H) -> exists k, s_tasks w !! t = Some k.
Proof.
  intros (r & q & l & [_ _ _ [HR _] _ _ _]). destruct (rf_live _ _ HR t) as [k Hk]; [set_solver|]. by exists k.
Qed.

(** [same_links]: nothing but reference words, dead flags and roots changed. *)
Lemma fifo_keep w w' l :
  s_vm_mutex w' = s_vm_mutex w ->
  (forall x, x ∈ l -> t_mutex_next <$> s_tasks w' !! x = t_mutex_next <$> s_tasks w !! x) ->
  fifo_ok (s_tasks w) (s_vm_mutex w) l -> fifo_ok (s_tasks w') (s_vm_mutex w') l.
Proof. intros -> Hl HF. by eapply fifo_same. Qed.

Lemma drop_lookup w t k x kx :
  s_tasks w !! t = Some k -> s_tasks (drop_world w t k) !! x = Some kx ->
  exists k0, s_tasks w !! x = Some k0 /\ t_dead k0 = t_dead kx.
Proof.
  intros Hk. unfold drop_world. case_match; simpl.
  - intros [_ ?]%lookup_delete_Some. eauto.
  - rewrite lookup_insert. case_decide; intros; simplify_eq; eauto.
Qed.

(** Dropping a held reference. *)
Lemma inv_unref b w t H :
  inv b w (t :: H) ->
  exists k, s_tasks w !! t = Some k /\ task_unref t w = Done tt (drop_world w t k) /\
    inv b (drop_world w t k) H /\
    (s_tasks (drop_world w t k) !! t = None <->
       t_dead k = true /\ Z.land (t_ring_refs k) TASK_REF_MASK = 1).
Proof.
  intros (r & q & l & [Hr Hq HF HS Hpk Hb Hbig]).
  assert (HS' : store_ok w (t :: q ++ timer_refs w ++ l ++ H)).
  { by rewrite <- refs_front. }
  destruct (unref_done _ _ _ HS') as (k & Hk & E & HS1 & Hl). exists k.
  split; [done|]. split; [done|]. pose proof (framed_drop w t k) as Hf. split.
  - exists r, q, l. constructor.
    + by rewrite (fr_inbox _ _ Hf).
    + done.
    + apply (fifo_keep w); [apply Hf| |done]. intros x Hx. eapply links_drop; [done..|]. set_solver.
    + unfold timer_refs in *. by rewrite (fr_timers _ _ Hf).
    + intros x kx Hx Hkx. destruct (drop_lookup _ _ _ _ _ Hk Hkx) as (k0 & Hk0 & <-). eauto.
    + unfold timer_refs in *. rewrite (fr_timers _ _ Hf). simpl length in Hb. lia.
    + done.
  - destruct (ref_word _ _ _ _ (proj1 HS') Hk) as (E1 & _ & _). rewrite E1, occ_cons, bool_decide_eq_true_2 by done.
    unfold drop_world. destruct (last_ref k) eqn:El; simpl.
    + rewrite lookup_delete_eq. split; [|done]. intros _. destruct Hl as [Hl _]. destruct (Hl eq_refl). split; [done|]. simpl. lia.
    + rewrite lookup_insert_eq. split; [done|]. intros [Hd Ho]. destruct Hl as [_ Hl].
      assert (false = true); [|done]. apply Hl. split; [done|]. simpl in Ho. lia.
Qed.

(** [push_task_ref] of an allocated task: on success exactly one entry is
    appended to the queue; a refusal (dead task, full ring) changes nothing. *)
Lemma inv_push b w H r q l t k :
  inv_at b w H r q l -> s_tasks w !! t = Some k ->
  (t_dead k = true \/ zlen q = rn r -> push_task_ref t w = Done (-1) w) /\
  (t_dead k = false -> zlen q < rn r ->
     exists r', push_task_ref t w = Done 0 (enqueued w t k r') /\ rn r' = rn r /\
       inv_at b (enqueued w t k r') H r' (q ++ [t]) l).
Proof.
  intros Hi Hk. pose proof (inv_room _ _ _ _ _ _ Hi) as Hs. destruct Hi as [Hr Hq HF HS Hpk Hb Hbig].
  split.
  - destruct (t_dead k) eqn:Hd; [intros _; by eapply push_dead|]. intros [|Hl]; [done|].
    by eapply (push_done w _ t k r q); eauto; lia.
  - intros Hd Hl. destruct (push_done w _ t k r q HS Hk ltac:(lia) Hr Hq Hd) as [_ Hp].
    destruct (Hp Hl) as (r' & E & Hq' & Hn & HS'). exists r'. split; [done|]. split; [done|]. constructor; try done.
    + apply (fifo_keep w); [done| |exact HF]. intros x Hx. by apply links_take.
    + unfold timer_refs in *; simpl. rewrite <- app_assoc. simpl.
      by rewrite <- (Permutation_middle q _ t).
    + intros x kx Hx. simpl. rewrite lookup_insert. case_decide; [|by apply Hpk].
      intros; simplify_eq. done.
Qed.

(** Only the tasks' reference words differ after a push. *)
Definition same_shape (w w' : world) : Prop :=
  s_coros w' = s_coros w /\ s_current w' = s_current w /\ s_vm_mutex w' = s_vm_mutex w /\
  s_timers w' = s_timers w /\ s_vm_lock_ready w' = s_vm_lock_ready w /\ s_ticks w' = s_ticks w /\
  forall x, (fun k => set_t_ring_refs 0 k) <$> s_tasks w' !! x = (fun k => set_t_ring_refs 0 k) <$> s_tasks w !! x.

Lemma same_shape_enqueued w t k r : s_tasks w !! t = Some k -> same_shape w (enqueued w t k r).
Proof.
  intros Hk. repeat split. intros x. simpl. rewrite lookup_insert. case_decide; subst; [|done]. by rewrite Hk.
Qed.

Lemma inv_push_any b w H t k :
  inv b w H -> s_tasks w !! t = Some k ->
  exists rc w', push_task_ref t w = Done rc w' /\ inv b w' H /\ same_shape w w'.
Proof.
  intros (r & q & l & Hi) Hk. destruct (inv_push _ _ _ _ _ _ _ _ Hi Hk) as [Hno Hyes].
  pose proof (q_fit _ _ (iv_queue _ _ _ _ _ _ Hi)).
  destruct (decide (zlen q = rn r)) as [Hf|Hf].
  { exists (-1), w. split; [by apply Hno; right|]. split; [by exists r, q, l|]. by repeat split. }
  destruct (t_dead k) eqn:Hd.
  { exists (-1), w. split; [by apply Hno; left|]. split; [by exists r, q, l|]. by repeat split. }
  destruct (Hyes eq_refl ltac:(lia)) as (r' & E & _ & Hi'). exists 0, (enqueued w t k r').
  split; [done|]. split; [by exists r', (q ++ [t]), l|]. by apply same_shape_enqueued.
Qed.

(** Marking dead, with or without clearing the root first. *)
Lemma inv_mark_dead b w H t k :
  inv b w H -> ~ parked w t -> s_tasks w !! t = Some k ->
  task_mark_dead t w = Done tt (kill_world w t k) /\ inv b (kill_world w t k) H /\
  (s_tasks (kill_world w t k) !! t = None <-> Z.land (t_ring_refs k) TASK_REF_MASK = 0).
Proof.
  intros (r & q & l & [Hr Hq HF HS Hpk Hb Hbig]) Hnp Hk.
  destruct (mark_dead_done _ _ _ _ HS Hk) as (E & HS' & Hfree). pose proof (framed_kill w t k) as Hf.
  split; [done|]. split.
  - exists r, q, l. constructor; try done.
    + by rewrite (fr_inbox _ _ Hf).
    + apply (fifo_keep w); [apply Hf| |done]. intros x Hx. eapply links_kill; [done..|]. set_solver.
    + unfold timer_refs in *. by rewrite (fr_timers _ _ Hf).
    + intros x kx Hx Hkx. destruct (decide (x = t)) as [->|Hne]; [by destruct Hnp; exists l|].
      apply (Hpk x); [done|]. unfold kill_world in Hkx. case_match; simpl in Hkx.
      * by apply lookup_delete_Some in Hkx as [_ ?].
      * by rewrite lookup_insert_ne in Hkx.
    + unfold timer_refs in *. by rewrite (fr_timers _ _ Hf).
  - destruct (ref_word _ _ _ _ (proj1 HS) Hk) as (E1 & _ & _). by rewrite E1.
Qed.

Lemma inv_upd_task b w H t k k' :
  inv b w H -> s_tasks w !! t = Some k ->
  t_ring_refs k' = t_ring_refs k -> t_dead k' = t_dead k -> t_mutex_next k' = t_mutex_next k ->
  t_root k' = t_root k \/ t_root k' = 0 ->
  inv b (set_tasks (<[t := k']> (s_tasks w)) w) H.
Proof.
  intros (r & q & l & [Hr Hq HF [HR Hro] Hpk Hb Hbig]) Hk E1 E2 E3 E4. exists r, q, l. constructor; try done.
  - apply (fifo_keep w); [done| |done]. intros x Hx. simpl. rewrite lookup_insert.
    case_decide; subst; [|done]. by rewrite Hk; simpl; rewrite E3.
  - split; simpl; [by eapply refs_ok_upd|]. by eapply roots_ok_upd.
  - intros x kx Hx. simpl. rewrite lookup_insert. case_decide; intros; simplify_eq; eauto; rewrite E2; eauto.
Qed.

(** Rewriting coroutines keeps the invariant while no frame disappears. *)
Lemma inv_coros b w H C :
  inv b w H -> (forall c, is_Some (s_coros w !! c) -> is_Some (C !! c)) -> inv b (set_coros C w) H.
Proof.
  intros (r & q & l & [Hr Hq HF [HR Hro] Hpk Hb Hbig]) HC. exists r, q, l. constructor; try done.
  split; simpl; [done|]. intros t k Hk Hn. destruct (Hro _ _ Hk Hn). split; [by apply HC|done].
Qed.

(** Fields the invariant does not read. *)
Lemma inv_busy b w H v : inv b w H -> inv b (set_busy v w) H.
Proof. intros (r & q & l & []). exists r, q, l. by constructor. Qed.
Lemma inv_current b w H v : inv b w H -> inv b (set_current v w) H.
Proof. intros (r & q & l & []). exists r, q, l. by constructor. Qed.
Lemma inv_ticks b w H v : inv b w H -> inv b (set_ticks v w) H.
Proof. intros (r & q & l & []). exists r, q, l. by constructor. Qed.
#[export] Hint Resolve inv_busy inv_current inv_ticks : metal.

(** ** Claiming from the ring moves one reference onto the C stack *)

Definition claimed_world (w : world) (r : inbox) : world := set_inbox (Some (pop_ring r)) w.

Lemma claim_done b w H r q l :
  inv_at b w H r q l ->
  match q with
  | [] => ring_claim_w w = Done None w
  | t :: q' => exists w1 word idx, ring_claim_w w = Done (Some (word, idx)) w1 /\
      ring_kind word = KIND_TASK /\ ring_pay word = t /\
      ring_release_w idx w1 = Done tt (claimed_world w r) /\
      (b + 1 <= BIG -> inv_at (b + 1) (claimed_world w r) (t :: H) (pop_ring r) q' l)
  end.
Proof.
  intros [Hr Hq HF HS Hpk Hb Hbig]. unfold ring_claim_w. rewrite Hr. destruct q as [|t q'].
  { by rewrite (claim_empty _ Hq). }
  destruct (claim_head _ _ _ Hq) as [E1 E2]. destruct (head_slot _ _ _ Hq) as [_ Hp]. rewrite E1.
  destruct (ring_pack_fields ST_CLAIMED KIND_TASK t) as (_ & F2 & F3);
    [by unfold ST_CLAIMED; lia|eauto with metal|exact Hp|].
  do 3 eexists. split; [done|]. split; [exact F2|]. split; [exact F3|]. split.
  - unfold ring_release_w. simpl. by rewrite E2.
  - intros Hb1. constructor; try done.
    + by eapply pop_repr.
    + unfold timer_refs; simpl. by rewrite refs_front.
    + unfold timer_refs in *; simpl in *. lia.
Qed.
End CoopInv.
