(* ===== verification/CoopStep.v ===== *)
(** * Stepping keeps the invariant

    [step_task] and [drain_one] against a contract for the step functions that
    coroutines carry: whatever they do through the card's API, the runner
    neither faults nor loses a reference, and a measure bounds its loop. *)
From Stdlib Require Import Sorted.
From S2P Require Import Prelude Ring CoopState CoopRun CoopRefs CoopMutex CoopInv.

Module CoopStep.
Import Ring Coop CoopRun CoopRefs CoopMutex CoopInv.
Local Open Scope metal_scope.

(** ** The mutex operations at invariant level *)

Definition steady (w w' : world) : Prop :=
  s_coros w' = s_coros w /\ s_current w' = s_current w /\ s_timers w' = s_timers w /\
  s_vm_lock_ready w' = s_vm_lock_ready w /\ s_worker w' = s_worker w /\
  s_vm_capable w' = s_vm_capable w /\ same_cores w w'.

Lemma steady_refl w : steady w w.
Proof. by repeat split. Qed.
Lemma steady_trans w1 w2 w3 : steady w1 w2 -> steady w2 w3 -> steady w1 w3.
Proof.
  intros (?&?&?&?&?&?&?) (?&?&?&?&?&?&?). repeat (split; [congruence|]).
  by eapply same_cores_trans.
Qed.
Lemma steady_framed w v w' : framed (set_inbox v w) w' -> s_coros w' = s_coros w -> same_cores w w' -> steady w w'.
Proof. intros [] ? ?. by repeat (split; [done|]). Qed.

(** Put the updated mutex back in its static. *)
Lemma inv_release b w H :
  inv b w H ->
  exists m' w', pm_metal_coop_mutex_release (s_vm_mutex w) w = Done m' w' /\
    inv b (set_vm m' w') H /\ steady w w' /\ m_owner m' = m_head (s_vm_mutex w) /\
    (forall x, parked (set_vm m' w') x -> parked w x).
Proof.
  intros (r & q & l & Hi). pose proof (inv_room _ _ _ _ _ _ Hi) as Hs.
  pose proof Hi as [Hr Hq HF HS Hpk Hb Hbig]. destruct l as [|t l].
  - exists (Mutex 0 0 0), w. split; [by apply release_empty|]. split; [|split; [apply steady_refl|]].
    + exists r, q, []. constructor; try done. constructor; [done..|constructor].
    + destruct HF as [Hc _ _]. simpl in Hc. split; [done|]. intros x (l' & HF' & Hx).
      pose proof (chain_head _ _ _ (ff_chain _ _ _ HF')) as [Hh _]. rewrite (Hh eq_refl) in Hx.
      by apply not_elem_of_nil in Hx.
  - pose proof (ff_chain _ _ _ HF) as (Hhd & _ & k & Hk & _).
    pose proof (Hpk t k ltac:(left) Hk) as Hd.
    set (R := q ++ timer_refs w ++ l ++ H).
    assert (HS' : store_ok w (t :: R)).
    { unfold R. rewrite <- refs_front. eapply store_ok_Permutation; [|exact HS]. simpl.
      by rewrite (Permutation_middle l H t). }
    destruct (release_queue w R _ t l r q k HS' ltac:(set_solver) HF) as
      (w' & m' & r' & q' & E & Ho & Hr' & Hq' & Hf & Hc & Hsc & HF' & Hroom & Hfull); try done.
    { unfold R. rewrite !length_app in *. simpl length in Hs. lia. }
    exists m', w'. split; [done|]. split; [|split; [by eapply steady_framed|split; [by rewrite Hhd|]]].
    2: { intros x (l' & HF2 & Hx). simpl in HF2.
         rewrite (chain_fun _ _ _ _ (ff_chain _ _ _ HF2) (ff_chain _ _ _ HF')) in Hx.
         exists (t :: l). split; [done|]. by right. }
    assert (Htm : timer_refs w' = timer_refs w) by (unfold timer_refs; by rewrite (fr_timers _ _ Hf)).
    exists r', q', l. constructor; simpl; try done.
    + unfold timer_refs at 1. simpl. fold (timer_refs w'). rewrite Htm.
      pose proof (q_fit _ _ Hq). destruct (decide (zlen q = rn r)) as [Hl|Hl].
      * by destruct (Hfull Hl) as [-> HS1].
      * destruct (Hroom ltac:(lia)) as [-> HS1]. rewrite <- app_assoc. simpl.
        by rewrite <- (Permutation_middle q _ t).
    + intros x kx Hx Hkx. specialize (Hsc x). rewrite Hkx in Hsc.
      destruct (s_tasks w !! x) as [k0|] eqn:Hk0; [|done]. injection Hsc as _ _ _ _ Hdd.
      rewrite Hdd. apply (Hpk x); [by right|done].
    + unfold timer_refs at 1. simpl. fold (timer_refs w'). rewrite Htm. simpl in Hb. lia.
Qed.

(** Acquiring the VM mutex for a task that is not parked on it. *)
Lemma inv_acquire b w H self t k :
  inv b w H -> b + 1 <= BIG -> self <> 0 -> task_of self w = Done t w -> s_tasks w !! t = Some k ->
  t_dead k = false -> ~ parked w t ->
  exists st m' w', pm_metal_coop_mutex_try_acquire (s_vm_mutex w) self w = Done (st, m') w' /\
    steady w w' /\
    (st = PENDING /\ w' = w /\ m_owner m' = t /\ inv b (set_vm m' w) H /\
       (forall x, parked (set_vm m' w) x -> parked w x) \/
     st = WAITING /\ m_owner m' = m_owner (s_vm_mutex w) /\ inv (b + 1) (set_vm m' w') H /\
       parked (set_vm m' w') t).
Proof.
  intros Hi Hb1 Hself Ht Hk Hd Hnp. pose proof Hi as Hi'. destruct Hi as (r & q & l & Hi). pose proof (inv_room _ _ _ _ _ _ Hi) as Hs.
  destruct Hi as [Hr Hq HF HS Hpk Hb Hbig].
  destruct (rf_addr _ _ (proj1 HS) _ _ Hk) as [_ H0]. set (m := s_vm_mutex w) in *.
  destruct (decide (m_owner m = t)) as [Ho|Ho]; [|destruct (decide (m_owner m = 0)) as [Hz|Hz]].
  - exists PENDING, m, w. unfold pm_metal_coop_mutex_try_acquire.
    rewrite (proj2 (Z.eqb_neq self 0)) by done. unfold bind at 1. rewrite Ht.
    rewrite (proj2 (Z.eqb_neq t 0)), (proj2 (Z.eqb_eq _ _) Ho) by done. split; [done|].
    split; [apply steady_refl|]. left. do 3 (split; [done|]). unfold m.
    replace (set_vm (s_vm_mutex w) w) with w by (by destruct w). done.
  - exists PENDING, (Mutex t (m_head m) (m_tail m)), w. unfold pm_metal_coop_mutex_try_acquire.
    rewrite (proj2 (Z.eqb_neq self 0)) by done. unfold bind at 1. rewrite Ht.
    rewrite (proj2 (Z.eqb_neq t 0)), (proj2 (Z.eqb_neq _ _) Ho), (proj2 (Z.eqb_eq _ _) Hz) by done.
    split; [done|]. split; [apply steady_refl|]. left. do 3 (split; [done|]). split.
    + exists r, q, l. constructor; simpl; try done. by destruct HF.
    + intros x (l' & [] & Hx). exists l'. by split.
  - assert (Hnot : t ∉ l) by (intros Hin; apply Hnp; by exists l).
    destruct (acquire_parks w _ m l self t k HS HF ltac:(lia) Hself Ht Hk Hd Ho Hz Hnot)
      as (w' & m' & E & Hf & Hc & HS' & Ho' & HF' & Hsc).
    exists WAITING, m', w'. split; [done|].
    assert (Hst : steady w w') by (destruct Hf; by repeat (split; [done|])).
    split; [done|]. right. split; [done|]. split; [done|]. split; [|exists (l ++ [t]); split; [done|set_solver]].
    assert (Htm : timer_refs w' = timer_refs w) by (unfold timer_refs; by rewrite (fr_timers _ _ Hf)).
    exists r, q, (l ++ [t]). constructor; simpl; try done.
    + by rewrite (fr_inbox _ _ Hf).
    + unfold timer_refs at 1. simpl. fold (timer_refs w'). rewrite Htm.
      eapply store_ok_Permutation; [|exact HS']. rewrite <- app_assoc. simpl. by rewrite refs_front.
    + intros x kx Hx Hkx. specialize (Hsc x). rewrite Hkx in Hsc.
      destruct (s_tasks w !! x) as [k0|] eqn:Hk0; [|done]. injection Hsc as _ _ _ _ Hdd.
      rewrite Hdd. apply elem_of_app in Hx as [Hx|Hx%list_elem_of_singleton]; [by apply (Hpk x)|]. congruence.
    + unfold timer_refs at 1. simpl. fold (timer_refs w'). rewrite Htm, length_app. simpl. lia.
Qed.

(** ** Reading the await chain *)

Lemma leaf_loop_ext n c w w' l :
  s_coros w' = s_coros w -> leaf_loop n c w = Done l w -> leaf_loop n c w' = Done l w'.
Proof.
  intros HC. revert c. induction n as [|n IH]; intros c; simpl; [done|].
  unfold bind, get_coro. rewrite HC. destruct (s_coros w !! c) as [k|]; [|done].
  case_match; [apply IH|]. unfold ret. congruence.
Qed.

Lemma leaf_of_ext c w w' l : s_coros w' = s_coros w -> leaf_of c w = Done l w -> leaf_of c w' = Done l w'.
Proof. unfold leaf_of. intros HC. rewrite HC. by apply leaf_loop_ext. Qed.

Lemma task_of_loop_ext n c w w' t :
  s_coros w' = s_coros w -> task_of_loop n c w = Done t w -> task_of_loop n c w' = Done t w'.
Proof.
  intros HC. revert c. induction n as [|n IH]; intros c; simpl; [done|]. case_match.
  { unfold ret. congruence. }
  unfold bind, get_coro. rewrite HC. destruct (s_coros w !! c) as [k|]; [|done].
  case_match; [|apply IH]. unfold ret. congruence.
Qed.

Lemma task_of_ext c w w' t : s_coros w' = s_coros w -> task_of c w = Done t w -> task_of c w' = Done t w'.
Proof. unfold task_of. intros HC. rewrite HC. by apply task_of_loop_ext. Qed.

(** A live task whose await chain ends in an allocated coroutine of its own. *)
Definition ready_at (w : world) (t leaf : Z) : Prop :=
  exists k c, s_tasks w !! t = Some k /\ t_root k <> 0 /\ t_dead k = false /\ leaf <> 0 /\
    leaf_of (t_root k) w = Done leaf w /\ s_coros w !! leaf = Some c /\ task_of leaf w = Done t w.
Definition ready (w : world) (t : Z) : Prop := exists leaf, ready_at w t leaf.

Lemma ready_at_steady w w' t leaf : steady w w' -> ready_at w t leaf -> ready_at w' t leaf.
Proof.
  intros (HC & _ & _ & _ & _ & _ & Hs) (k & c & Hk & Hr & Hd & H0 & Hl & Hc & Ht). specialize (Hs t). rewrite Hk in Hs.
  destruct (s_tasks w' !! t) as [k'|] eqn:Hk'; [|done]. injection Hs as Er _ _ _ Ed.
  exists k', c. rewrite Er, Ed, HC. repeat (split; [done|]). split; [by eapply leaf_of_ext|].
  split; [done|by eapply task_of_ext].
Qed.

(** ** Leaving the C stack *)

Lemma inv_drop_running b w H t k :
  inv b w H -> s_tasks w !! t = Some k ->
  exists w', drop_running t w = Done tt w' /\ inv b w' H /\ s_coros w' = s_coros w /\
    s_tasks w' = <[t := set_t_running false k]> (s_tasks w) /\ s_vm_mutex w' = s_vm_mutex w.
Proof.
  intros Hi Hk. exists (set_busy (u32 (s_busy w - 1))
    (set_tasks (<[t := set_t_running false k]> (s_tasks w)) (set_current 0 w))).
  split.
  { unfold drop_running, upd_task, put_task, get_task, modify, bind. simpl. by rewrite Hk. }
  split; [|done]. apply inv_busy. apply (inv_upd_task _ (set_current 0 w) _ _ k); auto with metal.
Qed.

Lemma drop_then_push b w H t k :
  inv b w H -> s_tasks w !! t = Some k ->
  exists w', (drop_running t ;; push_task_ref t ;; ret (@None bool)) w = Done None w' /\ inv b w' H.
Proof.
  intros Hi Hk. destruct (inv_drop_running _ _ _ _ _ Hi Hk) as (w1 & E1 & Hi1 & _ & ET & _).
  destruct (inv_push_any _ _ _ t (set_t_running false k) Hi1) as (rc & w2 & E2 & Hi2 & _).
  { by rewrite ET, lookup_insert_eq. }
  exists w2. unfold bind. by rewrite E1, E2.
Qed.

(** The gate of a [vm_only] leaf: hold the interpreter (or not need it), or
    hand the task back. *)
Lemma gate_done w H t leaf c :
  inv (BIG - 1) w (t :: H) -> ready_at w t leaf -> ~ parked w t -> s_coros w !! leaf = Some c ->
  exists g w', vm_gate t leaf c w = Done g w' /\
    match g with
    | None => inv BIG w' (t :: H)
    | Some held => inv (BIG - 1) w' (t :: H) /\ steady w w' /\ ~ parked w' t /\
        (c_vm_only c = true -> s_vm_lock_ready w = true -> held = true /\ m_owner (s_vm_mutex w') = t)
    end.
Proof.
  intros Hi Hr Hnp Hc. pose proof Hr as (k & c' & Hk & _ & Hd & H0 & _ & _ & Ht).
  destruct (drop_then_push _ _ _ _ _ Hi Hk) as (wp & Ep & Hip).
  pose proof (inv_weaken _ BIG _ _ Hip ltac:(lia)) as Hip'. unfold vm_gate.
  destruct (c_vm_only c) eqn:Ev; cbn [negb].
  2: { exists (Some false), w. split; [done|]. split; [done|]. split; [apply steady_refl|]. done. }
  unfold bind at 1, gets at 1. unfold bind at 1, gets at 1. unfold bind at 1, gets at 1.
  destruct (s_vm_lock_ready w) eqn:El; cbn [negb].
  2: { destruct (s_worker w); [by exists None, wp|]. exists (Some true), w. split; [done|].
       split; [done|]. split; [apply steady_refl|]. done. }
  destruct (s_worker w && negb (s_vm_capable w)); [by exists None, wp|].
  unfold bind at 1, gets at 1. unfold bind at 1.
  destruct (inv_acquire _ _ _ leaf t k Hi ltac:(lia) H0 Ht Hk Hd Hnp)
    as (st & m' & w1 & E & Hst & [(-> & -> & Ho & Hi1 & Hp)|(-> & _ & Hi1 & Hp)]); rewrite E.
  - exists (Some true), (set_vm m' w). split; [done|]. split; [done|]. split; [by repeat split|].
    split; [by intros ?%Hp|]. done.
  - cbn [bind modify]. rewrite bool_decide_eq_true_2 by done.
    assert (Hst2 : steady w (set_vm m' w1)) by (destruct Hst as (?&?&?&?&?&?&?); by repeat split).
    destruct (ready_at_steady _ _ _ _ Hst2 Hr) as (k1 & _ & Hk1 & _).
    destruct (inv_drop_running _ _ _ _ _ Hi1 Hk1) as (w2 & E2 & Hi2 & _).
    exists None, w2. unfold modify, bind. rewrite E2. split; [done|]. replace BIG with (BIG - 1 + 1) by lia. done.
Qed.

Lemma vm_release_done b w H held :
  inv b w H -> exists w', vm_release held w = Done tt w' /\ inv b w' H /\ steady w w' /\
    (forall x, parked w' x -> parked w x) /\ (held = true -> s_vm_lock_ready w = true -> m_owner (s_vm_mutex w') = m_head (s_vm_mutex w)).
Proof.
  intros Hi. unfold vm_release. unfold bind at 1, gets at 1. destruct (held && s_vm_lock_ready w) eqn:E.
  - destruct (inv_release _ _ _ Hi) as (m' & w' & Er & Hi' & Hst & Ho & Hp). exists (set_vm m' w').
    unfold bind, gets. rewrite Er. split; [done|]. split; [done|]. split; [|done].
    destruct Hst as (?&?&?&?&?&?&?). by repeat split.
  - exists w. split; [done|]. split; [done|]. split; [apply steady_refl|]. split; [done|].
    intros -> E2. by rewrite E2 in E.
Qed.

(** Writing one coroutine. *)
Lemma inv_upd_coro b w H c k f :
  inv b w H -> s_coros w !! c = Some k ->
  upd_coro c f w = Done tt (set_coros (<[c := f k]> (s_coros w)) w) /\
  inv b (set_coros (<[c := f k]> (s_coros w)) w) H.
Proof.
  intros Hi Hk. split; [unfold upd_coro, bind, get_coro; by rewrite Hk|]. apply inv_coros; [done|].
  intros x. rewrite lookup_insert. case_decide; [done|]. done.
Qed.
(** ** The contract of a step function

    Called for the task [t] that the runner is stepping, with [leaf] the end
    of its await chain, it returns a status, leaves every reference accounted
    for (fewer than [BIG - 1] of them outside the ring), does not park [t] on
    the VM mutex or free the frame it ran on, and when the loop goes on
    ([WAITING] on a child, or [DONE] with a waiter) the task is still live
    with a shorter await chain to run, by the measure [mu]. *)
Section Contract.
Variable run_step : Z -> Z -> M status.
Variable mu : world -> Z -> nat.

(** What the loop writes to the store after the step returned [st]. *)
Definition settled (leaf : Z) (st : status) (w : world) : world :=
  match s_coros w !! leaf with
  | None => w
  | Some c =>
      let C := <[leaf := set_c_status st c]> (s_coros w) in
      if bool_decide (st = DONE) && negb (c_waiter c =? 0)
      then set_coros (match C !! c_waiter c with
                      | Some kw => <[c_waiter c := set_c_awaiting 0 kw]> C | None => C end) w
      else set_coros C w
  end.

Definition goes_on (st : status) (c : coro) : bool :=
  (bool_decide (st = WAITING) && negb (c_awaiting c =? 0)) ||
  (bool_decide (st = DONE) && negb (c_waiter c =? 0)).

Record step_contract : Prop := {
  sc_steps : forall w H t leaf c,
    inv (BIG - 1) w (t :: H) -> ready_at w t leaf -> ~ parked w t -> s_coros w !! leaf = Some c ->
    exists st w' c', run_step (c_step c) leaf w = Done st w' /\ inv (BIG - 1) w' (t :: H) /\
      ~ parked w' t /\ s_coros w' !! leaf = Some c' /\
      (goes_on st c' = true ->
         (st = DONE -> is_Some (s_coros w' !! c_waiter c')) /\
         forall w2, steady (settled leaf st w') w2 -> ready w2 t /\ (mu w2 t < mu w t)%nat);
  sc_mu : forall w w' t, steady w w' -> mu w' t = mu w t }.

Hypothesis Hstep : step_contract.

Abbreviation step_loop := (CoopRun.step_loop run_step).

Lemma settle_done b w H leaf c st :
  inv b w H -> s_coros w !! leaf = Some c ->
  (goes_on st c = true -> st = DONE -> is_Some (s_coros w !! c_waiter c)) ->
  inv b (settled leaf st w) H /\ s_vm_mutex (settled leaf st w) = s_vm_mutex w /\
  s_tasks (settled leaf st w) = s_tasks w /\
  forall f t,
  (upd_coro leaf (set_c_status st) ;;
   c <- get_coro leaf ;;
   if bool_decide (st = WAITING) then if negb (c_awaiting c =? 0) then step_loop f t else ret true
   else if bool_decide (st = DONE) && negb (c_waiter c =? 0) then
     upd_coro (c_waiter c) (set_c_awaiting 0) ;; step_loop f t
   else ret true) w =
  (if goes_on st c then step_loop f t else ret true) (settled leaf st w).
Proof.
  intros Hi Hc Hw. destruct (inv_upd_coro _ _ _ _ _ (set_c_status st) Hi Hc) as [E Hi1].
  set (w1 := set_coros (<[leaf := set_c_status st c]> (s_coros w)) w) in *.
  assert (Hc1 : s_coros w1 !! leaf = Some (set_c_status st c)) by apply lookup_insert_eq.
  unfold settled, goes_on in *. rewrite Hc. unfold bind at 1. setoid_rewrite E.
  unfold bind at 1, get_coro at 1. setoid_rewrite Hc1. cbn [c_waiter c_awaiting set_c_status].
  destruct (decide (st = WAITING)) as [->|Hnw].
  { rewrite (bool_decide_eq_true_2 (WAITING = WAITING)), (bool_decide_eq_false_2 (WAITING = DONE)) by done.
    cbn [andb orb]. rewrite orb_false_r. by repeat split. }
  rewrite (bool_decide_eq_false_2 (st = WAITING)) in * by done. cbn [andb orb] in *.
  destruct (bool_decide (st = DONE) && negb (c_waiter c =? 0)) eqn:Eg; [|by repeat split].
  apply andb_prop in Eg as [Ed%bool_decide_eq_true Ewz]. destruct (Hw eq_refl Ed) as [k0 Hk0].
  assert (exists kw, s_coros w1 !! c_waiter c = Some kw) as [kw Hkw].
  { simpl. rewrite lookup_insert. case_decide; eauto. }
  change (<[leaf := set_c_status st c]> (s_coros w) !! c_waiter c) with (s_coros w1 !! c_waiter c). rewrite Hkw.
  destruct (inv_upd_coro _ _ _ _ _ (set_c_awaiting 0) Hi1 Hkw) as [E2 Hi2].
  split; [exact Hi2|]. split; [done|]. split; [done|]. intros f t. unfold bind at 1. by rewrite E2.
Qed.

Lemma parked_same w w' x : s_vm_mutex w' = s_vm_mutex w -> s_tasks w' = s_tasks w -> parked w' x -> parked w x.
Proof. unfold parked. by intros -> ->. Qed.

Lemma steady_sym w w' : steady w w' -> steady w' w.
Proof. intros (?&?&?&?&?&?&Hs). do 6 (split; [done|]). intros x. by rewrite Hs. Qed.

(** Releasing the interpreter commutes with the writes of the loop. *)
Lemma settled_steady leaf st w w' : steady w w' -> steady (settled leaf st w) (settled leaf st w').
Proof.
  intros (HC&?&?&?&?&?&?). unfold settled. rewrite HC.
  destruct (s_coros w !! leaf); [|by repeat split]. case_match; by repeat split.
Qed.

Lemma upd_coro_done c f k w :
  s_coros w !! c = Some k -> upd_coro c f w = Done tt (set_coros (<[c := f k]> (s_coros w)) w).
Proof. intros Hk. unfold upd_coro, bind, get_coro. by rewrite Hk. Qed.

(** The loop of [step_task] ends, with the task either handed back or left to
    the epilogue. *)
Lemma step_loop_done n w H t :
  inv (BIG - 1) w (t :: H) -> ready w t -> ~ parked w t -> (mu w t < n)%nat ->
  exists b w', step_loop n t w = Done b w' /\
    (if b : bool then inv (BIG - 1) w' (t :: H) /\ ~ parked w' t else inv BIG w' (t :: H)).
Proof.
  revert w. induction n as [|n IH]; intros w Hi [leaf Hr] Hnp Hmu; [lia|].
  pose proof Hr as (k & c & Hk & Hroot & Hd & H0 & Hl & Hc & Ht).
  cbn [CoopRun.step_loop]. unfold bind at 1, get_task at 1. rewrite Hk. unfold bind at 1. rewrite Hl.
  unfold bind at 1, get_coro at 1. rewrite Hc. destruct (Z.eqb_spec (c_step c) 0) as [Es|Es].
  { destruct (inv_upd_coro _ _ _ _ _ (set_c_status ERROR) Hi Hc) as [E Hi1].
    exists true. eexists. unfold bind. rewrite E. split; [done|]. by split. }
  destruct (gate_done _ _ _ _ _ Hi Hr Hnp Hc) as (g & w1 & Eg & Hg). unfold bind at 1. rewrite Eg.
  destruct g as [held|]; [|by exists false, w1].
  destruct Hg as (Hi1 & Hst1 & Hnp1 & _). pose proof (ready_at_steady _ _ _ _ Hst1 Hr) as Hr1.
  assert (Hc1 : s_coros w1 !! leaf = Some c) by (destruct Hst1 as (-> & _); done).
  destruct (sc_steps Hstep _ _ _ _ _ Hi1 Hr1 Hnp1 Hc1) as (st & w2 & c2 & E2 & Hi2 & Hnp2 & Hc2 & Hgo).
  unfold bind at 1. rewrite E2.
  destruct (vm_release_done _ _ _ held Hi2) as (w3 & E3 & Hi3 & Hst3 & Hp3 & _).
  unfold bind at 1. rewrite E3.
  assert (Hc3 : s_coros w3 !! leaf = Some c2) by (destruct Hst3 as (-> & _); done).
  destruct (settle_done _ _ _ leaf c2 st Hi3 Hc3) as (Hi4 & Hm4 & Ht4 & E4).
  { intros Hg Hdone. destruct Hst3 as (-> & _). by apply Hgo. }
  rewrite E4. assert (Hnp4 : ~ parked (settled leaf st w3) t).
  { intros Hp. by apply Hnp2, Hp3, (parked_same _ _ _ Hm4 Ht4). }
  destruct (goes_on st c2) eqn:Egg; [|by exists true, (settled leaf st w3)].
  destruct (Hgo eq_refl) as [_ Hgo2]. destruct (Hgo2 (settled leaf st w3)) as [Hr4 Hmu4].
  { by apply settled_steady. }
  rewrite (sc_mu Hstep w w1) in Hmu4 by done. by apply IH; [..|lia].
Qed.

(** A claimed task either is inert ([step_task] returns at once or re-queues
    it) or is ready to step and not parked. *)
Definition step_pre (w : world) (t : Z) : Prop :=
  forall k c, s_tasks w !! t = Some k -> t_root k <> 0 -> t_on_c_stack k = false ->
    s_coros w !! t_root k = Some c -> is_terminal (c_status c) = false -> t_running k = false ->
    ready w t /\ ~ parked w t.

(** Taking the C stack. *)
Definition entered (w : world) (t : Z) (k : task) : world :=
  set_current t (set_busy (u32 (s_busy w + 1)) (set_tasks (<[t := set_t_running true k]> (s_tasks w)) w)).

Lemma entered_ok b w H t k :
  inv b w H -> s_tasks w !! t = Some k -> ready w t -> ~ parked w t ->
  inv b (entered w t k) H /\ ready (entered w t k) t /\ ~ parked (entered w t k) t.
Proof.
  intros Hi Hk [leaf (k0 & c & Hk0 & Hr & Hd & H0 & Hl & Hc & Ht)] Hnp. assert (k0 = k) as -> by congruence. split; [|split].
  - apply inv_current, inv_busy. by apply (inv_upd_task _ w _ _ k); auto.
  - exists leaf, (set_t_running true k), c. unfold entered; simpl. rewrite lookup_insert_eq.
    do 4 (split; [done|]). split; [by apply (leaf_of_ext _ w)|]. split; [done|by apply (task_of_ext _ w)].
  - intros (l & HF & Hx). apply Hnp. exists l. split; [|done]. eapply (fifo_keep (entered w t k)); [done| |exact HF].
    intros x _. unfold entered; simpl. rewrite lookup_insert. case_decide; subst; [|done]. by rewrite Hk.
Qed.

Lemma step_epilogue_done w H t :
  inv (BIG - 1) w (t :: H) -> ~ parked w t ->
  exists w', step_epilogue t w = Done tt w' /\ inv BIG w' (t :: H).
Proof.
  intros Hi Hnp. destruct (inv_held _ _ _ _ Hi) as [k Hk].
  destruct (inv_drop_running _ _ _ _ _ Hi Hk) as (w1 & E1 & Hi1 & HC1 & HT1 & Hm1).
  pose proof (inv_weaken _ BIG _ _ Hi1 ltac:(unfold BIG; lia)) as Hi1'.
  assert (Hk1 : s_tasks w1 !! t = Some (set_t_running false k)) by (by rewrite HT1, lookup_insert_eq).
  assert (Hnp1 : ~ parked w1 t).
  { intros (l & HF & Hx). apply Hnp. exists l. split; [|done]. rewrite Hm1 in HF.
    eapply fifo_same; [|exact HF]. intros x _. rewrite HT1, lookup_insert. case_decide; subst; [|done]. by rewrite Hk. }
  assert (Ht0 : t <> 0) by (destruct Hi1 as (?&?&?&[]); by eapply (rf_addr _ _ (proj1 iv_store0))).
  unfold step_epilogue. unfold bind at 1. rewrite E1. unfold bind at 1, task_is_terminal.
  rewrite (proj2 (Z.eqb_neq t 0)) by done. unfold bind at 1, get_task at 1. rewrite Hk1. cbn [t_root set_t_running].
  destruct (Z.eqb_spec (t_root k) 0) as [Er|Er].
  - exists w1. unfold ret, bind, get_task. rewrite Hk1. cbn [t_root set_t_running]. rewrite Er. by split.
  - assert (exists c, s_coros w1 !! t_root k = Some c) as [c Hc].
    { destruct Hi1 as (?&?&?&[? ? ? [_ Hro] _ _ _]). by destruct (Hro _ _ Hk1 Er) as [[c Hc] _]; exists c. }
    unfold bind at 1, get_coro at 1. rewrite Hc. unfold ret at 1. unfold bind at 1, get_task at 1. rewrite Hk1.
    cbn [t_root set_t_running]. rewrite (proj2 (Z.eqb_neq _ _) Er). cbn [negb].
    destruct (is_terminal (c_status c)); cbn [andb]; [|by exists w1].
    unfold bind, get_coro. rewrite Hc. destruct (c_auto_free c); [|by exists w1].
    destruct (inv_mark_dead _ _ _ _ _ Hi1' Hnp1 Hk1) as (E & Hi2 & _). by eexists.
Qed.

Lemma step_task_done n w H t :
  inv (BIG - 1) w (t :: H) -> step_pre w t ->
  (forall k, mu (entered w t k) t < n)%nat ->
  exists w', step_task run_step n t w = Done tt w' /\ inv BIG w' (t :: H).
Proof.
  intros Hi Hpre Hmu. pose proof (inv_weaken _ BIG _ _ Hi ltac:(unfold BIG; lia)) as Hi'.
  destruct (inv_held _ _ _ _ Hi) as [k Hk]. unfold step_task.
  destruct (Z.eqb_spec t 0) as [E0|E0]; [by exists w|]. unfold bind at 1, get_task at 1. rewrite Hk.
  destruct (Z.eqb_spec (t_root k) 0) as [Er|Er]; [by exists w|].
  destruct (t_on_c_stack k) eqn:Es; [by exists w|]. cbn [orb].
  assert (exists c, s_coros w !! t_root k = Some c) as [c Hc].
  { destruct Hi as (?&?&?&[? ? ? [_ Hro] _ _ _]). by destruct (Hro _ _ Hk Er) as [[c Hc] _]; exists c. }
  unfold bind at 1, get_coro at 1. rewrite Hc. destruct (is_terminal (c_status c)) eqn:Et; [by exists w|].
  destruct (t_running k) eqn:Erun.
  { destruct (inv_push_any _ _ _ _ _ Hi' Hk) as (rc & w' & E & Hi2 & _). exists w'. unfold bind. by rewrite E. }
  destruct (Hpre _ _ Hk Er Es Hc Et Erun) as [Hr Hnp].
  destruct (entered_ok _ _ _ _ _ Hi Hk Hr Hnp) as (Hi1 & Hr1 & Hnp1).
  destruct (step_loop_done n _ _ _ Hi1 Hr1 Hnp1 (Hmu k)) as (b & w2 & E & Hb).
  unfold put_task, modify. unfold bind at 1. unfold bind at 1. unfold bind at 1.
  change (set_current t _) with (entered w t k). unfold bind. rewrite E. destruct b; [|by exists w2].
  destruct Hb as [Hb1 Hb2]. by apply step_epilogue_done.
Qed.

(** One claim from the ring, stepped to the end. *)
Lemma drain_one_done n w H r q l :
  inv_at (BIG - 2) w H r q l ->
  (forall t, head q = Some t ->
     if t =? s_current w then exists k, s_tasks w !! t = Some k /\ t_dead k = false
     else step_pre (claimed_world w r) t /\ forall k, (mu (entered (claimed_world w r) t k) t < n)%nat) ->
  exists rc w', drain_one run_step n w = Done rc w' /\ inv BIG w' H /\
    rc = (if decide (q = []) then -1 else 0).
Proof.
  intros Hi Hpre. pose proof (claim_done _ _ _ _ _ _ Hi) as Hcl. unfold drain_one. unfold bind at 1.
  destruct q as [|t q].
  { rewrite Hcl. exists (-1), w. split; [done|]. split; [|by rewrite decide_True].
    apply (inv_weaken (BIG - 2)); [by exists r, [], l|unfold BIG; lia]. }
  destruct Hcl as (w1 & word & idx & E1 & Ek & Ep & Er & Hi1). rewrite E1. rewrite Ek.
  change (KIND_TASK =? KIND_STOP) with false. cbv iota. unfold bind at 1. rewrite Er. unfold bind at 1, gets at 1.
  rewrite Ep. change (s_current (claimed_world w r)) with (s_current w).
  specialize (Hi1 ltac:(unfold BIG; lia)). replace (BIG - 2 + 1) with (BIG - 1) in Hi1 by lia.
  assert (Hinv : inv (BIG - 1) (claimed_world w r) (t :: H)) by (by exists (pop_ring r), q, l).
  specialize (Hpre t eq_refl). exists 0. destruct (Z.eqb_spec t (s_current w)) as [Ec|Ec].
  - destruct Hpre as (k & Hk & Hd). destruct (inv_push _ _ _ _ _ _ _ _ Hi1 Hk) as [_ Hyes].
    destruct Hi as [_ Hq _ _ _ _ _]. pose proof (q_fit _ _ Hq) as Hfit. simpl in Hfit.
    destruct (Hyes Hd) as (r' & E & _ & Hi2); [rewrite pop_rn; lia|]. unfold bind at 1. unfold bind at 1.
    rewrite E. change (0 =? 0) with true. cbv iota.
    destruct (inv_unref (BIG - 1) (enqueued (claimed_world w r) t k r') t H) as (k2 & _ & E2 & Hi3 & _).
    { by exists r', (q ++ [t]), l. }
    rewrite E2. eexists. split; [done|]. split; [|by rewrite decide_False].
    by apply (inv_weaken (BIG - 1)); [|unfold BIG; lia].
  - destruct Hpre as [Hpre Hmu]. destruct (step_task_done n _ _ _ Hinv Hpre Hmu) as (w2 & E2 & Hi2).
    unfold bind at 1. rewrite E2. destruct (inv_unref _ _ _ _ Hi2) as (k2 & _ & E3 & Hi3 & _).
    unfold bind. rewrite E3. eexists. split; [done|]. split; [done|by rewrite decide_False].
Qed.
End Contract.
End CoopStep.

(** * Timers of the coop card

    The timer list of [s_timers] stays sorted by deadline with equal deadlines
    in arrival order, and [fire_timers] pops exactly its expired prefix,
    trading each timer's reference for a ring entry. *)

Module CoopTimers.
Import Ring Coop CoopRun CoopRefs CoopMutex CoopInv.
Local Open Scope metal_scope.

Definition timers_sorted (l : list timer) : Prop := Sorted (fun a b => tm_deadline a <= tm_deadline b) l.

(** Insertion splits the list at the first later deadline. *)
Lemma timer_ins_split tm l :
  exists pre post, l = pre ++ post /\ timer_ins tm l = pre ++ tm :: post /\
    Forall (fun x => tm_deadline x <= tm_deadline tm) pre /\
    (forall x, head post = Some x -> tm_deadline tm < tm_deadline x).
Proof.
  induction l as [|h l (pre & post & -> & E & Hpre & Hpost)]; simpl.
  { exists [], []. by repeat split. }
  destruct (Z.leb_spec (tm_deadline h) (tm_deadline tm)) as [H|H].
  - exists (h :: pre), post. rewrite E. split; [done|]. split; [done|]. split; [by constructor|done].
  - exists [], (h :: pre ++ post). do 2 (split; [done|]). split; [constructor|]. by intros x [= <-].
Qed.

Lemma timer_ins_sorted tm l : timers_sorted l -> timers_sorted (timer_ins tm l).
Proof.
  unfold timers_sorted. induction 1 as [|h l Hs IH Hh]; simpl; [by repeat constructor|].
  destruct (Z.leb_spec (tm_deadline h) (tm_deadline tm)).
  - constructor; [done|]. destruct l as [|h2 l]; simpl; [by constructor|]. inversion Hh.
    case_match; by constructor.
  - constructor; [by constructor|]. constructor. lia.
Qed.

Section Clock.
Variable clk : nat -> Z.

Lemma timer_front (q l H : list Z) t tms : q ++ (t :: tms) ++ l ++ H ≡ₚ q ++ tms ++ l ++ t :: H.
Proof.
  rewrite <- (Permutation_middle l H t), <- (Permutation_middle tms (l ++ H) t). simpl. reflexivity.
Qed.

(** Popping the head timer moves its reference to the C stack. *)
Lemma inv_pop_timer b w H tm rest :
  inv b w H -> s_timers w = tm :: rest -> inv b (set_timers rest w) (tm_task tm :: H).
Proof.
  intros (r & q & l & [Hr Hq HF HS Hpk Hb Hbig]) E. exists r, q, l. constructor; try done.
  - unfold timer_refs in *; simpl. rewrite E in HS. simpl in HS. eapply store_ok_Permutation; [|exact HS].
    by rewrite <- (timer_front q l H (tm_task tm)).
  - unfold timer_refs in *; simpl. rewrite E in Hb. simpl in Hb. rewrite length_fmap in *. lia.
Qed.

(** One timer fired: its reference becomes a ring entry, or is dropped when
    the task is dead or the ring is full. *)
Lemma fire_one b w H tm rest :
  inv b w H -> s_timers w = tm :: rest ->
  exists rc w1 w2, push_task_ref (tm_task tm) (set_timers rest w) = Done rc w1 /\
    task_unref (tm_task tm) w1 = Done tt w2 /\ inv b w2 H /\ s_timers w2 = rest /\
    s_ticks w2 = s_ticks w.
Proof.
  intros Hi E. pose proof (inv_pop_timer _ _ _ _ _ Hi E) as Hi1. destruct (inv_held _ _ _ _ Hi1) as [k Hk].
  destruct (inv_push_any _ _ _ _ _ Hi1 Hk) as (rc & w1 & E1 & Hi2 & Hsh).
  destruct (inv_unref _ _ _ _ Hi2) as (k2 & _ & E2 & Hi3 & _). exists rc, w1, (drop_world w1 (tm_task tm) k2).
  split; [done|]. split; [done|]. split; [done|]. destruct Hsh as (_ & _ & _ & Htm & _ & Htk & _).
  rewrite (fr_timers _ _ (framed_drop _ _ _)). split; [by rewrite Htm|].
  unfold drop_world. case_match; simpl; done.
Qed.
Abbreviation fire_timers_loop := (CoopRun.fire_timers_loop clk).

(** The expiry test of each timer uses a fresh reading of the clock, so the
    fired timers are the longest prefix of the list whose [i]-th deadline has
    passed at the [i]-th reading after [now]. *)
Fixpoint due (now : Z) (tick : nat) (l : list timer) : nat :=
  match l with
  | [] => O
  | tm :: rest => if tm_deadline tm <=? now then S (due (u64 (clk tick)) (S tick) rest) else O
  end.

Lemma fire_loop_done b n now w H :
  inv b w H -> (length (s_timers w) < n)%nat ->
  exists w', fire_timers_loop n now w = Done tt w' /\ inv b w' H /\
    s_timers w' = drop (due now (s_ticks w) (s_timers w)) (s_timers w) /\
    s_ticks w' = (s_ticks w + due now (s_ticks w) (s_timers w))%nat.
Proof.
  revert now w. induction n as [|n IH]; intros now w Hi Hn; [lia|]. simpl.
  unfold bind at 1, gets at 1. destruct (s_timers w) as [|tm rest] eqn:E; simpl.
  { exists w. rewrite E. split; [done|]. split; [done|]. split; [done|lia]. }
  destruct (tm_deadline tm <=? now) eqn:Ed.
  2: { exists w. rewrite E. split; [done|]. split; [done|]. split; [done|lia]. }
  destruct (fire_one _ _ _ _ _ Hi E) as (rc & w1 & w2 & E1 & E2 & Hi2 & Ht2 & Hk2).
  unfold bind at 1, modify at 1. unfold bind at 1. rewrite E1. unfold bind at 1. rewrite E2.
  unfold bind at 1, mono_us at 1. rewrite Hk2.
  destruct (IH (u64 (clk (s_ticks w))) (set_ticks (S (s_ticks w)) w2)) as (w3 & E3 & Hi3 & Ht3 & Hk3).
  { by apply inv_ticks. } { simpl. rewrite Ht2. simpl in Hn. lia. }
  exists w3. split; [done|]. split; [done|]. simpl in Ht3, Hk3. rewrite Ht2 in *. split; [done|lia].
Qed.
End Clock.
End CoopTimers.
