(* ===== verification/CoopSpec.v ===== *)
(** * What the coop card promises

    The properties of the task, mutex, timer and run-loop operations, stated
    over the invariant of [CoopInv], with a small concrete store on which each
    of them is exercised. *)
From Stdlib Require Import Sorted.
From S2P Require Import Prelude Ring CoopState CoopRun CoopRefs CoopMutex CoopInv CoopStep.

Module CoopSpec.
Import Ring Coop CoopRun CoopRefs CoopMutex CoopInv CoopStep CoopTimers.
Local Open Scope metal_scope.

(** ** A concrete store: one task at 4096 whose root coroutine is at 8192 *)

Definition demo_world (k : task) (st : status) (tms : list timer) (vm : mutex) : world :=
  World (Some demo_ring) {[4096 := k]} {[8192 := Coro 100 0 0 4096 st false false]}
    tms vm true true 1 true 0 0 false true 0.

Lemma demo_inv k st tms vm l H :
  t_root k = 8192 -> t_ring_refs k = zlen (timer_refs (demo_world k st tms vm) ++ l ++ H) + b2z (t_dead k) * TASK_DEAD_BIT ->
  Forall (fun x => x = 4096) (timer_refs (demo_world k st tms vm) ++ l ++ H) ->
  (t_dead k = true -> l = [] /\ timer_refs (demo_world k st tms vm) ++ l ++ H <> []) ->
  fifo_ok {[4096 := k]} vm l -> zlen tms + zlen l + zlen H < 100 ->
  forall b, 100 <= b <= BIG -> inv_at b (demo_world k st tms vm) H demo_ring [] l.
Proof.
  intros Hroot Href Hall Hdead HF Hlen b Hb. set (R := timer_refs (demo_world k st tms vm) ++ l ++ H) in *.
  assert (HlR : zlen R < 100).
  { unfold R, timer_refs. rewrite !length_app, length_fmap. simpl. lia. }
  assert (Hocc : occ 4096 R = zlen R).
  { clear -Hall. induction Hall as [|x R -> _ IH]; [done|]. rewrite occ_cons, bool_decide_eq_true_2, IH by done. simpl. lia. }
  constructor; try done; [exact demo_ring_repr| | |unfold timer_refs; rewrite length_fmap; simpl; lia|lia].
  - simpl app. fold R. split; [constructor|]; simpl.
    + intros t j [<- <-]%lookup_singleton_Some. split; [unfold is_pay; lia|lia].
    + intros t j [<- <-]%lookup_singleton_Some. by rewrite Hocc.
    + intros t j [<- <-]%lookup_singleton_Some Hd. destruct (Hdead Hd) as [_ HR]. rewrite Hocc.
      destruct R; [done|simpl; lia].
    + intros t Ht. rewrite Forall_forall in Hall. rewrite (Hall _ Ht), lookup_singleton_eq. done.
    + unfold TASK_DEAD_BIT. lia.
    + intros t j [<- <-]%lookup_singleton_Some Hn. simpl. rewrite Hroot, lookup_singleton_eq. split; [done|].
      by intros t' k' [<- _]%lookup_singleton_Some _.
  - intros x kx Hx Hkx. cbn [s_tasks demo_world] in Hkx. apply lookup_singleton_Some in Hkx as [<- <-]. destruct (t_dead k); [|done].
    destruct (Hdead eq_refl) as [-> _]. by apply not_elem_of_nil in Hx.
Qed.

Definition live_task (refs : Z) : task := Task 8192 false false 0 0 refs false.
Definition dead_task (refs : Z) : task := Task 8192 false false 0 0 (refs + TASK_DEAD_BIT) true.
Definition free_mutex : mutex := Mutex 0 0 0.

Lemma fifo_nil T o : fifo_ok T (Mutex o 0 0) [].
Proof. constructor; [done|done|constructor]. Qed.

Lemma demo_live st o : forall b, 100 <= b <= BIG ->
  inv_at b (demo_world (live_task 1) st [] (Mutex o 0 0)) [4096] demo_ring [] [].
Proof. apply demo_inv; [done|done|by repeat constructor|done|apply fifo_nil|simpl; lia]. Qed.

Lemma demo_dead st o : forall b, 100 <= b <= BIG ->
  inv_at b (demo_world (dead_task 1) st [] (Mutex o 0 0)) [4096] demo_ring [] [].
Proof. apply demo_inv; [done|done|by repeat constructor|done|apply fifo_nil|simpl; lia]. Qed.

Lemma demo_not_parked k st tms o x : ~ parked (demo_world k st tms (Mutex o 0 0)) x.
Proof.
  intros (l & HF & Hx). pose proof (chain_head _ _ _ (ff_chain _ _ _ HF)) as [Hh _].
  rewrite (Hh eq_refl) in Hx. by apply not_elem_of_nil in Hx.
Qed.

Ltac demo_range := split; [done|unfold BIG; lia].

(** ** References *)

(** Dropping a reference the C stack holds never faults; the task block is
    freed by exactly the drop that empties a dead task, and every other
    reference stays accounted for. *)
Theorem task_unref_frees_last (b : Z) (w : world) (t : Z) (H : list Z) (Hi : inv b w (t :: H)) :
  exists k w', s_tasks w !! t = Some k /\ task_unref t w = Done tt w' /\ inv b w' H /\
    (s_tasks w' !! t = None <-> t_dead k = true /\ Z.land (t_ring_refs k) TASK_REF_MASK = 1).
Proof. destruct (inv_unref _ _ _ _ Hi) as (k & Hk & E & Hi' & Hf). by exists k, (drop_world w t k). Qed.

Lemma task_unref_frees_last_witness :
  exists k w', s_tasks (demo_world (dead_task 1) DONE [] free_mutex) !! 4096 = Some k /\
    task_unref 4096 (demo_world (dead_task 1) DONE [] free_mutex) = Done tt w' /\ inv 100 w' [] /\
    (s_tasks w' !! 4096 = None <-> t_dead k = true /\ Z.land (t_ring_refs k) TASK_REF_MASK = 1).
Proof.
  apply (task_unref_frees_last 100). exists demo_ring, [], []. apply demo_dead. demo_range.
Defined.

(** [push_task_ref] appends exactly one entry for a live task to the FIFO
    of the ready ring and counts one more reference; a dead task or a full
    ring is refused and the world is left as it was. *)
Theorem push_task_ref_queues (b : Z) (w : world) (H : list Z) (r : inbox) (q l : list Z) (t : Z) (k : task)
    (Hi : inv_at b w H r q l) (Hk : s_tasks w !! t = Some k) :
  if t_dead k || (zlen q =? rn r) then push_task_ref t w = Done (-1) w
  else exists r' w', push_task_ref t w = Done 0 w' /\ inv_at b w' H r' (q ++ [t]) l /\
         s_tasks w' = <[t := set_t_ring_refs (u32 (t_ring_refs k + 1)) k]> (s_tasks w).
Proof.
  destruct (inv_push _ _ _ _ _ _ _ _ Hi Hk) as [Hno Hyes]. destruct (t_dead k) eqn:Hd; [by apply Hno; left|].
  destruct (Z.eqb_spec (zlen q) (rn r)) as [Hf|Hf]; [by apply Hno; right|].
  pose proof (q_fit _ _ (iv_queue _ _ _ _ _ _ Hi)). destruct (Hyes eq_refl ltac:(lia)) as (r' & E & _ & Hi').
  by exists r', (enqueued w t k r').
Qed.

Lemma push_task_ref_queues_witness :
  exists r' w', push_task_ref 4096 (demo_world (live_task 1) PENDING [] free_mutex) = Done 0 w' /\
    inv_at 100 w' [4096] r' [4096] [] /\ s_tasks w' = <[4096 := live_task 2]> {[4096 := live_task 1]}.
Proof.
  apply (push_task_ref_queues 100 (demo_world (live_task 1) PENDING [] free_mutex) [4096] demo_ring [] [] 4096
    (live_task 1)); [apply demo_live; demo_range|reflexivity].
Defined.

(** [task_reclaim] and [task_retire] refuse without any change (a task
    that is not terminal, a task that runs elsewhere), and otherwise mark a
    task that is not parked dead, freeing the block at once exactly when
    nothing holds a reference. *)
Theorem reclaim_retire_spec (b : Z) (w : world) (H : list Z) (t : Z) (k : task)
    (Hi : inv b w H) (Hk : s_tasks w !! t = Some k) (Hnp : ~ parked w t) :
  (forall term, task_is_terminal t w = Done term w ->
     if term then exists w', pm_metal_coop_task_reclaim t w = Done 0 w' /\ inv b w' H /\
       (s_tasks w' !! t = None <-> Z.land (t_ring_refs k) TASK_REF_MASK = 0)
     else pm_metal_coop_task_reclaim t w = Done (-1) w) /\
  (if negb (t =? s_current w) && t_running k then pm_metal_coop_task_retire t w = Done (-1) w
   else exists w', pm_metal_coop_task_retire t w = Done 0 w' /\ inv b w' H /\ s_coros w' = s_coros w /\
     (s_tasks w' !! t = None <-> Z.land (t_ring_refs k) TASK_REF_MASK = 0)).
Proof.
  assert (H0 : t <> 0).
  { destruct Hi as (? & ? & ? & [_ _ _ [HR _] _ _ _]). by eapply (rf_addr _ _ HR). } split.
  - intros term Et. unfold pm_metal_coop_task_reclaim. rewrite (proj2 (Z.eqb_neq t 0)) by done.
    destruct term; unfold bind at 1; rewrite Et; [|done].
    destruct (inv_mark_dead _ _ _ _ _ Hi Hnp Hk) as (E & Hi' & Hf). exists (kill_world w t k).
    unfold bind. simpl. by rewrite E.
  - unfold pm_metal_coop_task_retire. rewrite (proj2 (Z.eqb_neq t 0)) by done.
    destruct (negb (t =? s_current w) && t_running k) eqn:Eg;
      unfold bind at 1, gets at 1; unfold bind at 1, get_task at 1; rewrite Hk, Eg; [done|].
    set (w1 := set_tasks (<[t := set_t_root 0 k]> (s_tasks w)) w).
    assert (Hi1 : inv b w1 H) by (apply (inv_upd_task _ w _ _ k); auto).
    assert (Hnp1 : ~ parked w1 t).
    { intros (l & HF & Hx). apply Hnp. exists l. split; [|done]. eapply (fifo_keep w1); [done| |exact HF].
      intros x _. simpl. rewrite lookup_insert. case_decide; subst; [|done]. by rewrite Hk. }
    destruct (inv_mark_dead _ _ _ t (set_t_root 0 k) Hi1 Hnp1 ltac:(apply lookup_insert_eq)) as (E & Hi' & Hf).
    exists (kill_world w1 t (set_t_root 0 k)). unfold bind at 1; unfold upd_task, bind at 1, get_task at 1; rewrite Hk.
    change (put_task t (set_t_root 0 k) w) with (Done tt w1). cbv iota beta. unfold bind. rewrite E.
    split; [done|]. split; [done|]. split; [|exact Hf].
    unfold kill_world, free_world, auto_frame. cbn [t_root set_t_root]. rewrite Z.eqb_refl, andb_false_r. case_match; done.
Qed.

Lemma reclaim_retire_spec_witness :
  exists w', pm_metal_coop_task_retire 4096 (demo_world (live_task 1) PENDING [] free_mutex) = Done 0 w' /\
    inv 100 w' [4096] /\ s_coros w' = {[8192 := Coro 100 0 0 4096 PENDING false false]} /\
    (s_tasks w' !! 4096 = None <-> Z.land 1 TASK_REF_MASK = 0).
Proof.
  refine (proj2 (reclaim_retire_spec 100 (demo_world (live_task 1) PENDING [] free_mutex) [4096] 4096 (live_task 1)
    _ eq_refl _)); [exists demo_ring, [], []; apply demo_live; demo_range|apply demo_not_parked].
Defined.

(** ** The async mutex *)

(** [mutex_try_acquire] on every branch: the owner re-enters, a free mutex
    is taken, a dead task is refused unchanged, and a contended acquire by a
    task that is not queued parks it at the tail of the FIFO with one more
    reference held. *)
Theorem mutex_acquire_fifo (w : world) (R : list Z) (m : mutex) (l : list Z) (self t : Z) (k : task)
    (HS : store_ok w R) (HF : fifo_ok (s_tasks w) m l) (Hroom : zlen R + 1 < TASK_DEAD_BIT)
    (Hself : self <> 0) (Ht : task_of self w = Done t w) (Hk : s_tasks w !! t = Some k) (Hnew : t ∉ l) :
  exists st m' w', pm_metal_coop_mutex_try_acquire m self w = Done (st, m') w' /\
    if m_owner m =? t then st = PENDING /\ m' = m /\ w' = w
    else if m_owner m =? 0 then st = PENDING /\ m' = Mutex t (m_head m) (m_tail m) /\ w' = w
    else if t_dead k then st = ERROR /\ m' = m /\ w' = w
    else st = WAITING /\ m_owner m' = m_owner m /\ fifo_ok (s_tasks w') m' (l ++ [t]) /\
         store_ok w' (t :: R) /\ s_coros w' = s_coros w.
Proof.
  destruct (rf_addr _ _ (proj1 HS) _ _ Hk) as [_ H0].
  destruct (Z.eqb_spec (m_owner m) t) as [E1|E1]; [|destruct (Z.eqb_spec (m_owner m) 0) as [E2|E2]; [|destruct (t_dead k) eqn:Hd]].
  1-3: do 3 eexists; unfold pm_metal_coop_mutex_try_acquire; rewrite (proj2 (Z.eqb_neq self 0)) by done;
    unfold bind at 1; rewrite Ht, (proj2 (Z.eqb_neq t 0)) by done.
  - rewrite (proj2 (Z.eqb_eq _ _) E1). by repeat split.
  - rewrite (proj2 (Z.eqb_neq _ _) E1), (proj2 (Z.eqb_eq _ _) E2). by repeat split.
  - rewrite (proj2 (Z.eqb_neq _ _) E1), (proj2 (Z.eqb_neq _ _) E2). unfold bind at 1.
    rewrite (hold_done _ _ _ _ HS Hk Hroom), Hd. by repeat split.
  - destruct (acquire_parks w R m l self t k HS HF Hroom Hself Ht Hk Hd E1 E2 Hnew) as (w' & m' & E & _ & Hc & HS' & Ho & HF' & _).
    by exists WAITING, m', w'.
Qed.

(** C10: [mutex_release] frees a mutex nobody waits for, and otherwise makes the
    oldest parked task the owner and unlinks it.  That task is re-queued on
    the ready ring when the ring has room; when the ring is full the hand-off
    happens all the same but the task is left on no queue. *)
Theorem mutex_release_hands_over (w : world) (R : list Z) (m : mutex) (l : list Z) (r : inbox) (q : list Z)
    (HS : store_ok w (l ++ R)) (HF : fifo_ok (s_tasks w) m l) (Hroom : zlen (l ++ R) + 2 < TASK_DEAD_BIT)
    (Hr : s_inbox w = Some r) (Hq : repr r q)
    (Hlive : forall x k, x ∈ l -> s_tasks w !! x = Some k -> t_dead k = false) :
  exists m' w' r' q', pm_metal_coop_mutex_release m w = Done m' w' /\ s_inbox w' = Some r' /\ repr r' q' /\
    fifo_ok (s_tasks w') m' (tail l) /\
    match l with
    | [] => m' = Mutex 0 0 0 /\ w' = w /\ q' = q
    | t :: l' => m_owner m' = t /\
        if zlen q <? rn r then q' = q ++ [t] /\ store_ok w' (t :: l' ++ R)
        else q' = q /\ store_ok w' (l' ++ R)
    end.
Proof.
  destruct l as [|t l].
  - exists (Mutex 0 0 0), w, r, q. split; [by apply release_empty|]. do 2 (split; [done|]).
    split; [|done]. apply fifo_nil.
  - pose proof (ff_chain _ _ _ HF) as (_ & _ & k & Hk & _). pose proof (Hlive t k ltac:(left) Hk) as Hd.
    simpl in HS, Hroom.
    destruct (release_queue w (l ++ R) m t l r q k HS ltac:(set_solver) HF ltac:(lia) Hr Hq Hk Hd)
      as (w' & m' & r' & q' & E & Ho & Hr' & Hq' & _ & _ & _ & HF' & Hy & Hn).
    exists m', w', r', q'. do 4 (split; [done|]). split; [done|].
    destruct (Z.ltb_spec (zlen q) (rn r)); [by apply Hy|]. apply Hn. pose proof (q_fit _ _ Hq). lia.
Qed.

Lemma demo_fifo o : fifo_ok {[4096 := live_task 1]} (Mutex o 4096 4096) [4096].
Proof.
  constructor; [|done|apply NoDup_singleton]. split; [done|]. split; [done|]. exists (live_task 1).
  split; [apply lookup_singleton_eq|done].
Qed.

Lemma demo_waiting o : forall b, 100 <= b <= BIG ->
  inv_at b (demo_world (live_task 1) PENDING [] (Mutex o 4096 4096)) [] demo_ring [] [4096].
Proof. apply demo_inv; [done|done|by repeat constructor|done|apply demo_fifo|simpl; lia]. Qed.

Lemma mutex_acquire_fifo_witness :
  exists st m' w', pm_metal_coop_mutex_try_acquire (Mutex 77 0 0) 8192 (demo_world (live_task 1) PENDING [] free_mutex) = Done (st, m') w' /\
    st = WAITING /\ m_owner m' = 77 /\ fifo_ok (s_tasks w') m' [4096] /\ store_ok w' [4096; 4096] /\
    s_coros w' = {[8192 := Coro 100 0 0 4096 PENDING false false]}.
Proof.
  refine (mutex_acquire_fifo (demo_world (live_task 1) PENDING [] free_mutex) [4096] (Mutex 77 0 0) [] 8192 4096 (live_task 1)
    _ _ _ _ _ eq_refl _).
  - apply (iv_store _ _ _ _ _ _ (demo_live PENDING 0 100 ltac:(demo_range))).
  - apply fifo_nil.
  - vm_compute. reflexivity.
  - discriminate.
  - vm_compute. reflexivity.
  - apply not_elem_of_nil.
Defined.

Lemma mutex_release_hands_over_witness :
  exists m' w' r' q', pm_metal_coop_mutex_release (Mutex 77 4096 4096) (demo_world (live_task 1) PENDING [] (Mutex 77 4096 4096)) = Done m' w' /\
    s_inbox w' = Some r' /\ repr r' q' /\ fifo_ok (s_tasks w') m' [] /\ m_owner m' = 4096 /\ q' = [4096] /\ store_ok w' [4096].
Proof.
  refine (mutex_release_hands_over (demo_world (live_task 1) PENDING [] (Mutex 77 4096 4096)) [] (Mutex 77 4096 4096)
    [4096] demo_ring [] _ (demo_fifo 77) _ eq_refl demo_ring_repr _).
  - apply (iv_store _ _ _ _ _ _ (demo_waiting 77 100 ltac:(demo_range))).
  - vm_compute. reflexivity.
  - intros x k Hx. apply (iv_parked _ _ _ _ _ _ (demo_waiting 77 100 ltac:(demo_range)) x k Hx).
Defined.

(** A task that is already parked and tries again (it was woken by
    something else than the release) is linked behind itself: the FIFO
    becomes a cycle that a later walk never leaves, whatever its fuel. *)
Theorem double_park_makes_a_cycle :
  exists m' w',
    pm_metal_coop_mutex_try_acquire (Mutex 77 4096 4096) 8192
      (demo_world (live_task 1) PENDING [] (Mutex 77 4096 4096)) = Done (WAITING, m') w' /\
    m_head m' = 4096 /\ t_mutex_next <$> s_tasks w' !! 4096 = Some 4096 /\
    forall n prev, fifo_find n prev (m_head m') 1 w' = NoFuel.
Proof.
  eexists _, _. split; [vm_compute; reflexivity|]. split; [reflexivity|]. split; [vm_compute; reflexivity|].
  cbn [m_head]. induction n as [|n IH]; intros prev; [reflexivity|]. simpl. exact (IH 4096).
Qed.

(** ** Timers *)

(** [sleep_us] from a task that the C stack holds arms one timer, after
    every timer with the same or an earlier deadline and before the later
    ones, takes a reference for it, and leaves the coroutine WAITING. *)
Theorem sleep_us_arms (mem_alloc : world -> Z -> Z) (clk : nat -> Z) (b : Z) (w : world) (H : list Z)
    (self t us : Z) (c : coro)
    (Hi : inv b w (t :: H)) (Hb : b + 1 <= BIG) (Hs : timers_sorted (s_timers w))
    (Hready : s_ready w = true) (Halloc : mem_alloc w TIMER_BYTES <> 0)
    (Ht : task_of self w = Done t w) (Hc : s_coros w !! self = Some c) :
  exists w' pre post, pm_metal_coop_sleep_us mem_alloc clk self us w = Done WAITING w' /\
    inv (b + 1) w' (t :: H) /\ s_timers w = pre ++ post /\
    s_timers w' = pre ++ Timer (u64 (u64 (clk (s_ticks w)) + us)) t :: post /\
    timers_sorted (s_timers w') /\
    (forall x, x ∈ pre -> tm_deadline x <= u64 (u64 (clk (s_ticks w)) + us)) /\
    (forall x, head post = Some x -> u64 (u64 (clk (s_ticks w)) + us) < tm_deadline x) /\
    c_status <$> s_coros w' !! self = Some WAITING.
Proof.
  destruct (inv_held _ _ _ _ Hi) as [k Hk]. destruct Hi as (r & q & l & Hi).
  pose proof (inv_room _ _ _ _ _ _ Hi) as Hroom. destruct Hi as [Hr Hq HF HS Hpk Hbd Hbig].
  destruct (rf_addr _ _ (proj1 HS) _ _ Hk) as [_ H0].
  set (tm := Timer (u64 (u64 (clk (s_ticks w)) + us)) t).
  destruct (timer_ins_split tm (s_timers w)) as (pre & post & E1 & E2 & Hpre & Hpost).
  set (w1 := set_timers (timer_ins tm (s_timers w)) (take_world (set_ticks (S (s_ticks w)) w) t k)).
  set (w' := set_coros (<[self := set_c_status WAITING c]> (s_coros w)) w1).
  exists w', pre, post. split; [|split; [|split; [done|]]].
  - unfold pm_metal_coop_sleep_us. unfold bind at 1. rewrite Ht. unfold bind at 1, gets at 1.
    rewrite Hready, (proj2 (Z.eqb_neq t 0)) by done. cbn [negb orb]. unfold bind at 1, mem_alloc_w at 1, gets at 1.
    rewrite (proj2 (Z.eqb_neq _ 0)) by done. unfold bind at 1, mono_us at 1.
    unfold upd_task. unfold bind at 1. unfold bind at 1. unfold get_task at 1. cbn [s_tasks set_ticks]. rewrite Hk.
    unfold put_task, modify at 1. unfold bind at 1, timer_insert, modify at 1.
    change (set_timers _ (set_tasks _ _)) with w1. unfold upd_coro, bind, get_coro.
    change (s_coros w1) with (s_coros w). by rewrite Hc.
  - assert (Hi2 : inv_at (b + 1) w1 (t :: H) r q l).
    { constructor; try done.
      - eapply (fifo_keep w); [done| |exact HF]. intros x _. simpl. rewrite lookup_insert.
        case_decide; subst; [|done]. by rewrite Hk.
      - eapply store_ok_Permutation; [|apply (take_store_ok w _ t k HS Hk); lia].
        unfold timer_refs, w1. cbn [s_timers set_timers]. rewrite E2, E1, !fmap_app, fmap_cons.
        rewrite <- (Permutation_middle (tm_task <$> pre)). simpl. by rewrite <- (Permutation_middle q).
      - intros x kx Hx. simpl. rewrite lookup_insert. case_decide; intros; simplify_eq; eauto.
        cbn [t_dead set_t_ring_refs]. exact (Hpk x k Hx Hk).
      - unfold timer_refs, w1 in *. simpl. rewrite E2. rewrite E1 in Hbd.
        rewrite !length_fmap, !length_app in *. simpl length in *. lia. }
    apply (inv_coros _ w1); [by exists r, q, l|]. intros x. rewrite lookup_insert. case_decide; done.
  - split; [exact E2|]. split; [by apply timer_ins_sorted|]. split.
    + by apply Forall_forall.
    + split; [done|]. simpl. by rewrite lookup_insert_eq.
Qed.

Lemma sleep_us_arms_witness :
  exists w' pre post, pm_metal_coop_sleep_us (fun _ _ => 5000) (fun _ => 70) 8192 30 (demo_world (live_task 1) PENDING [] free_mutex) = Done WAITING w' /\
    inv 101 w' [4096] /\ [] = pre ++ post /\
    s_timers w' = pre ++ Timer (u64 (u64 70 + 30)) 4096 :: post /\ timers_sorted (s_timers w') /\
    (forall x, x ∈ pre -> tm_deadline x <= u64 (u64 70 + 30)) /\
    (forall x, head post = Some x -> u64 (u64 70 + 30) < tm_deadline x) /\
    c_status <$> s_coros w' !! 8192 = Some WAITING.
Proof.
  refine (sleep_us_arms (fun _ _ => 5000) (fun _ => 70) 100 (demo_world (live_task 1) PENDING [] free_mutex) []
    8192 4096 30 (Coro 100 0 0 4096 PENDING false false) _ _ _ eq_refl _ _ _).
  - exists demo_ring, [], []. apply demo_live. demo_range.
  - discriminate.
  - constructor.
  - discriminate.
  - vm_compute. reflexivity.
  - vm_compute. reflexivity.
Defined.

(** [fire_timers] returns (the list bounds its loop), pops exactly the
    timers that are due at the clock readings it takes, keeps the others in
    order, and loses no reference on the way to the ring. *)
Theorem fire_timers_due (clk : nat -> Z) (b : Z) (w : world) (H : list Z) (Hi : inv b w H) :
  let n := due clk (u64 (clk (s_ticks w))) (S (s_ticks w)) (s_timers w) in
  exists w', fire_timers clk w = Done tt w' /\ inv b w' H /\ s_timers w' = drop n (s_timers w) /\
    s_ticks w' = S (s_ticks w + n).
Proof.
  intros n. unfold fire_timers. unfold bind at 1, mono_us at 1.
  destruct (fire_loop_done clk b (S (length (s_timers w))) (u64 (clk (s_ticks w))) (set_ticks (S (s_ticks w)) w) H)
    as (w' & E & Hi' & Ht & Hk); [by apply inv_ticks|simpl; lia|].
  exists w'. split; [done|]. split; [done|]. split; [done|]. rewrite Hk. simpl. done.
Qed.

Lemma demo_timer : forall b, 100 <= b <= BIG ->
  inv_at b (demo_world (live_task 1) PENDING [Timer 60 4096] free_mutex) [] demo_ring [] [].
Proof. apply demo_inv; [done|done|by repeat constructor|done|apply fifo_nil|simpl; lia]. Qed.

Lemma fire_timers_due_witness :
  exists w', fire_timers (fun _ => 70) (demo_world (live_task 1) PENDING [Timer 60 4096] free_mutex) = Done tt w' /\
    inv 100 w' [] /\ s_timers w' = [] /\ s_ticks w' = 2%nat.
Proof.
  refine (fire_timers_due (fun _ => 70) 100 (demo_world (live_task 1) PENDING [Timer 60 4096] free_mutex) [] _).
  exists demo_ring, [], []. apply demo_timer. demo_range.
Defined.

(** ** Creating and stepping tasks *)

(** A fresh address gets a task with no references. *)
Lemma inv_new_task b w H t c k0 :
  inv b w H -> s_tasks w !! t = None -> is_pay t -> t <> 0 -> s_coros w !! c = Some k0 ->
  (forall s j, s_tasks w !! s = Some j -> t_root j <> c) ->
  inv b (set_tasks (<[t := Task c false false 0 0 0 false]> (s_tasks w)) w) H.
Proof.
  intros (r & q & l & [Hr Hq HF [HR Hro] Hpk Hb Hbig]) Hn Hp H0 Hc Hfr. exists r, q, l.
  assert (Hnl : t ∉ l). { intros Hx. destruct (rf_live _ _ HR t) as [? ?]; [set_solver|congruence]. }
  assert (Hocc : occ t (q ++ timer_refs w ++ l ++ H) = 0).
  { pose proof (occ_nonneg t (q ++ timer_refs w ++ l ++ H)). destruct (decide (t ∈ q ++ timer_refs w ++ l ++ H)) as [Hx|Hx].
    - destruct (rf_live _ _ HR t Hx); congruence.
    - rewrite occ_pos in Hx. lia. }
  constructor; try done.
  - apply (fifo_keep w); [done| |done]. intros x Hx. simpl. rewrite lookup_insert_ne; [done|]. by intros ->.
  - split; simpl.
    + destruct HR as [H1 H2 H3 H4 H5]. constructor; try done.
      * intros s j. rewrite lookup_insert. case_decide; intros; simplify_eq; eauto.
      * intros s j. rewrite lookup_insert. case_decide; intros; simplify_eq; simpl; eauto. unfold timer_refs in *; simpl. rewrite Hocc. done.
      * intros s j. rewrite lookup_insert. case_decide; intros; simplify_eq; eauto.
      * intros s Hs. rewrite lookup_insert. case_decide; eauto.
    + intros s j. rewrite lookup_insert. case_decide; intros Hj Hne; simplify_eq; simpl in *.
      * split; [by exists k0|]. intros s' j'. rewrite lookup_insert. case_decide; intros Hj' E; [done|].
        by destruct (Hfr _ _ Hj').
      * destruct (Hro _ _ Hj Hne) as [? Hu]. split; [done|]. intros s' j'. rewrite lookup_insert.
        case_decide; intros Hj' E; simplify_eq; [|eauto]. simpl in E. by destruct (Hfr _ _ Hj).
  - intros x kx Hx. simpl. rewrite lookup_insert_ne; [by apply Hpk|]. by intros ->.
Qed.

(** [create_task] of a coroutine no task owns yet: with room in the ring
    the new task is appended to the ready queue holding one reference and the
    coroutine points back at it; with a full ring the block is released and
    the world is the old one, but for the coroutine's task being cleared. *)
Theorem create_task_queues (mem_alloc : world -> Z -> Z) (b : Z) (w : world) (H : list Z)
    (r : inbox) (q l : list Z) (c t : Z) (kc : coro)
    (Hi : inv_at b w H r q l) (Hready : s_ready w = true) (H0 : c <> 0) (Hc : s_coros w !! c = Some kc)
    (Hown : forall s j, s_tasks w !! s = Some j -> t_root j <> c)
    (Halloc : mem_alloc w TASK_BYTES = t) (Ht0 : t <> 0) (Hpay : is_pay t) (Hfresh : s_tasks w !! t = None) :
  exists rc w', pm_metal_coop_create_task mem_alloc c w = Done rc w' /\ inv b w' H /\
    if zlen q <? rn r then
      rc = t /\ s_tasks w' = <[t := Task c false false 0 0 1 false]> (s_tasks w) /\
      s_coros w' = <[c := set_c_task t kc]> (s_coros w) /\
      exists r', s_inbox w' = Some r' /\ repr r' (q ++ [t])
    else rc = 0 /\ s_tasks w' = s_tasks w /\ s_coros w' = <[c := set_c_task 0 kc]> (s_coros w) /\ s_inbox w' = s_inbox w.
Proof.
  pose proof (iv_queue _ _ _ _ _ _ Hi) as Hq. pose proof (q_fit _ _ Hq) as Hfit.
  assert (Hw : inv b w H) by (by exists r, q, l).
  pose proof (inv_new_task _ _ _ _ _ _ Hw Hfresh Hpay Ht0 Hc Hown) as Hi1.
  set (k1 := Task c false false 0 0 0 false) in *. set (w1 := set_tasks (<[t := k1]> (s_tasks w)) w) in *.
  set (w2 := set_coros (<[c := set_c_task t kc]> (s_coros w)) w1).
  assert (Hi2 : inv b w2 H).
  { apply (inv_coros _ w1); [done|]. intros x. rewrite lookup_insert. case_decide; done. }
  assert (Hi2' : exists l2, inv_at b w2 H r q l2).
  { destruct Hi2 as (r2 & q2 & l2 & Hi2). pose proof (iv_ring _ _ _ _ _ _ Hi2) as Hr2.
    pose proof (iv_ring _ _ _ _ _ _ Hi) as Hr. change (s_inbox w2) with (s_inbox w) in Hr2.
    assert (r2 = r) as -> by congruence. exists l2.
    by rewrite <- (repr_fun r q q2 Hq (iv_queue _ _ _ _ _ _ Hi2)) in Hi2. }
  destruct Hi2' as [l2 Hi2']. assert (Hk2 : s_tasks w2 !! t = Some k1) by apply lookup_insert_eq.
  destruct (inv_push _ _ _ _ _ _ _ _ Hi2' Hk2) as [Hno Hyes].
  assert (E : pm_metal_coop_create_task mem_alloc c w =
    (rc <- push_task_ref t ;; if negb (rc =? 0) then upd_coro c (set_c_task 0) ;; free_task t ;; ret 0 else ret t) w2).
  { unfold pm_metal_coop_create_task. unfold bind at 1, gets at 1. rewrite Hready, (proj2 (Z.eqb_neq c 0)) by done.
    cbn [negb orb]. unfold bind at 1, mem_alloc_w, gets at 1. rewrite Halloc, (proj2 (Z.eqb_neq t 0)) by done.
    unfold bind at 1, put_task, modify at 1. unfold bind at 1, upd_coro, bind at 1, get_coro at 1.
    change (s_coros (set_tasks _ w)) with (s_coros w). by rewrite Hc. }
  rewrite E. destruct (Z.ltb_spec (zlen q) (rn r)) as [Hl|Hl].
  - destruct (Hyes eq_refl Hl) as (r' & Ep & _ & Hi3). exists t, (enqueued w2 t k1 r'). unfold bind. rewrite Ep.
    split; [done|]. split; [by exists r', (q ++ [t]), l2|]. split; [done|]. split; [|split; [done|]].
    + simpl. rewrite insert_insert_eq. done.
    + exists r'. split; [done|]. apply (iv_queue _ _ _ _ _ _ Hi3).
  - assert (Hcw : s_coros w2 !! c = Some (set_c_task t kc)) by apply lookup_insert_eq.
    exists 0, (set_coros (<[c := set_c_task 0 kc]> (s_coros w)) w). unfold bind at 1. rewrite Hno by (right; lia).
    cbn [negb Z.eqb]. unfold bind at 1, upd_coro, bind at 1, get_coro at 1. rewrite Hcw.
    unfold put_coro, modify, bind, free_task. cbn [s_tasks set_coros w2 set_tasks w1 s_coros].
    rewrite lookup_insert_eq, insert_insert_eq, delete_insert_id by done. split; [by destruct w|]. split; [|done].
    apply inv_coros; [done|]. intros x. rewrite lookup_insert. case_decide; done.
Qed.

Definition fresh_world : world :=
  World (Some demo_ring) ∅ {[8192 := Coro 100 0 0 0 PENDING false false]} [] free_mutex true true 1 true 0 0 false true 0.

Lemma fresh_inv : inv_at 100 fresh_world [] demo_ring [] [].
Proof.
  constructor; try done; [exact demo_ring_repr|apply fifo_nil|].
  split; [constructor|]; simpl; try (intros ? ? E; by rewrite lookup_empty in E).
  - intros t Ht. by apply not_elem_of_nil in Ht.
  - unfold TASK_DEAD_BIT. lia.
Qed.

Lemma create_task_queues_witness :
  exists rc w', pm_metal_coop_create_task (fun _ _ => 4096) 8192 fresh_world = Done rc w' /\ inv 100 w' [] /\
    rc = 4096 /\ s_tasks w' = <[4096 := live_task 1]> ∅ /\
    s_coros w' = <[8192 := Coro 100 0 0 4096 PENDING false false]> (s_coros fresh_world) /\
    exists r', s_inbox w' = Some r' /\ repr r' [4096].
Proof.
  refine (create_task_queues (fun _ _ => 4096) 100 fresh_world [] demo_ring [] [] 8192 4096
    (Coro 100 0 0 0 PENDING false false) fresh_inv eq_refl _ eq_refl _ eq_refl _ _ eq_refl).
  - discriminate.
  - intros s j E. cbn [s_tasks fresh_world] in E. rewrite lookup_empty in E. discriminate.
  - discriminate.
  - unfold is_pay. lia.
Defined.

(** C3: the runner takes one entry of the ready ring to its end.  Whatever
    the coroutine's step function does within its contract, [drain_one]
    returns for any fuel above the task's measure, without a fault, with every
    reference accounted for; it answers -1 exactly on an empty ring. *)
Theorem drain_one_safe (run_step : Z -> Z -> M status) (mu : world -> Z -> nat) (Hstep : step_contract run_step mu)
    (n : nat) (w : world) (H : list Z) (r : inbox) (q l : list Z) (Hi : inv_at (BIG - 2) w H r q l)
    (Hhead : forall t, head q = Some t ->
       if t =? s_current w then exists k, s_tasks w !! t = Some k /\ t_dead k = false
       else step_pre (claimed_world w r) t /\ forall k, (mu (entered (claimed_world w r) t k) t < n)%nat) :
  exists rc w', drain_one run_step n w = Done rc w' /\ inv BIG w' H /\ rc = (if decide (q = []) then -1 else 0).
Proof. by eapply drain_one_done. Qed.

(** A step function that yields forever meets the contract. *)
Definition yield_step (_ c : Z) : M status := pm_metal_coop_yield_park c.

Lemma leaf_awaits_none n c w leaf k :
  leaf_loop n c w = Done leaf w -> s_coros w !! leaf = Some k -> c_awaiting k = 0.
Proof.
  revert c. induction n as [|n IH]; intros c; simpl; [done|]. unfold bind, get_coro.
  destruct (s_coros w !! c) as [j|] eqn:Hj; [|done]. destruct (Z.eqb_spec (c_awaiting j) 0); simpl; [|apply IH].
  unfold ret. intros [= <-] Hk. congruence.
Qed.

Lemma yield_contract : step_contract yield_step (fun _ _ => 0%nat).
Proof.
  constructor; [|done]. intros w H t leaf c Hi (k & c0 & Hk & Hroot & Hd & H0 & Hl & Hc0 & Ht) Hnp Hc.
  destruct (inv_upd_coro _ _ _ _ _ (set_c_status WAITING) Hi Hc) as [E Hi1].
  set (w1 := set_coros (<[leaf := set_c_status WAITING c]> (s_coros w)) w) in *.
  destruct (inv_push_any _ _ _ t k Hi1 Hk) as (rc & w2 & E2 & Hi2 & Hsh).
  assert (Hc2 : s_coros w2 !! leaf = Some (set_c_status WAITING c)).
  { destruct Hsh as (-> & _). apply lookup_insert_eq. }
  assert (Ht0 : t <> 0) by (destruct Hi as (?&?&?&[]); by eapply (rf_addr _ _ (proj1 iv_store0))).
  exists (if negb (rc =? 0) then ERROR else WAITING), w2, (set_c_status WAITING c). split; [|split; [done|split; [|split; [done|]]]].
  - unfold yield_step, pm_metal_coop_yield_park. unfold bind at 1. rewrite Ht, (proj2 (Z.eqb_neq t 0)) by done.
    unfold bind at 1. rewrite E. unfold bind. rewrite E2. by destruct (negb (rc =? 0)).
  - intros (l & HF & Hx). apply Hnp. exists l. split; [|done]. destruct Hsh as (_ & _ & Hm & _ & _ & _ & Hs).
    rewrite Hm in HF. eapply fifo_same; [|exact HF]. intros x _. specialize (Hs x). cbn [w1 s_tasks set_coros] in Hs.
    destruct (s_tasks w2 !! x), (s_tasks w !! x); try done. injection Hs as _ _ _ _ E5 _. simpl. by rewrite E5.
  - unfold goes_on. cbn [c_awaiting c_waiter set_c_status].
    rewrite (leaf_awaits_none _ _ _ _ _ Hl Hc). destruct (negb (rc =? 0)); done.
Qed.

Definition queued_world : world := set_inbox (Some (snd (ring_push demo_ring KIND_TASK 4096))) (demo_world (live_task 1) PENDING [] free_mutex).

Lemma queued_inv : inv_at (BIG - 2) queued_world [] (snd (ring_push demo_ring KIND_TASK 4096)) [4096] [].
Proof.
  destruct (push_refines demo_ring [] 4096 demo_ring_repr) as [Hp _]; [unfold is_pay; lia|].
  destruct Hp as (r' & E & _ & Hq); [vm_compute; reflexivity|]. unfold queued_world. rewrite E. cbn [snd].
  pose proof (demo_live PENDING 0 100 ltac:(demo_range)) as [_ _ HF HS _ _ _].
  constructor; try done. intros x k Hx. by apply not_elem_of_nil in Hx.
Qed.

Lemma drain_one_safe_witness :
  exists rc w', drain_one yield_step 1 queued_world = Done rc w' /\ inv BIG w' [] /\ rc = 0.
Proof.
  refine (drain_one_safe yield_step (fun _ _ => 0%nat) yield_contract 1 queued_world [] _ [4096] [] queued_inv _).
  intros t E. injection E as <-. split; [|intros k; apply Nat.lt_0_1]. intros k c Hk _ _ _ _ _. split.
  - exists 8192, (live_task 1), (Coro 100 0 0 4096 PENDING false false).
    repeat split; try discriminate; vm_compute; reflexivity.
  - apply demo_not_parked.
Defined.
End CoopSpec.
