(* ===== verification/CoopFair.v ===== *)
(** * The order of turns

    The operations a coroutine's step can reach only append to the ready ring
    ([pushes]), so the tasks already queued keep their places: a task at place
    [k] is handed out after [k] turns of [drain_one], whatever the coroutines
    do meanwhile. *)
From S2P Require Import Prelude Ring CoopState CoopRun CoopRefs CoopMutex CoopInv CoopStep CoopSpec.

Module CoopFair.
Import Ring Coop CoopRun CoopRefs CoopMutex CoopInv CoopStep CoopSpec.
Local Open Scope metal_scope.

(** The ready ring of [w] holds the tasks [q], oldest first. *)
Definition queued (w : world) (q : list Z) : Prop := exists r, s_inbox w = Some r /\ repr r q.

(** [m] takes nothing from the ring. *)
Definition pushes {A} (m : M A) : Prop :=
  forall w a w' q, m w = Done a w' -> queued w q -> exists new, queued w' (q ++ new).

Lemma queued_same w w' q : s_inbox w' = s_inbox w -> queued w q -> queued w' q.
Proof. unfold queued. by intros ->. Qed.

(** ** The combinators *)

Lemma pushes_keep {A} (m : M A) : (forall w a w', m w = Done a w' -> s_inbox w' = s_inbox w) -> pushes m.
Proof. intros H w a w' q E Hq. exists []. rewrite app_nil_r. eapply queued_same; [by eapply H|done]. Qed.

Lemma pushes_ret {A} (a : A) : pushes (ret a).
Proof. apply pushes_keep. by intros w ? ? [= _ <-]. Qed.
Lemma pushes_gets {A} (f : world -> A) : pushes (gets f).
Proof. apply pushes_keep. by intros w ? ? [= _ <-]. Qed.
Lemma pushes_modify f : (forall w, s_inbox (f w) = s_inbox w) -> pushes (modify f).
Proof. intros H. apply pushes_keep. intros w ? ? [= _ <-]. apply H. Qed.
Lemma pushes_nofuel {A} : pushes (@nofuel A).
Proof. by intros w a w' q E. Qed.
Lemma pushes_bind {A B} (m : M A) (k : A -> M B) : pushes m -> (forall a, pushes (k a)) -> pushes (bind m k).
Proof.
  intros Hm Hk w b w' q E Hq. unfold bind in E. destruct (m w) as [a w1| |] eqn:E1; try done.
  destruct (Hm _ _ _ _ E1 Hq) as [n1 H1]. destruct (Hk _ _ _ _ _ E H1) as [n2 H2]. exists (n1 ++ n2). by rewrite (assoc_L (++)).
Qed.
(** A computation whose fuel or result is read off the state first. *)
Lemma pushes_at {A} (m : world -> M A) : (forall v, pushes (m v)) -> pushes (fun w => m w w).
Proof. intros H w a w' q E. by apply (H w w a w' q). Qed.

Create HintDb pushes.
#[export] Hint Resolve pushes_ret pushes_gets pushes_nofuel : pushes.

Ltac pushes_step :=
  match goal with
  | |- pushes (bind _ _) => apply pushes_bind; [|intros ?]
  | |- pushes (if ?b then _ else _) => destruct b
  | |- pushes (match ?x with _ => _ end) => destruct x
  | |- pushes (let '_ := _ in _) => cbv zeta
  | |- pushes (modify _) => apply pushes_modify; intros ?; reflexivity
  | _ => solve [auto with pushes]
  end.
Ltac pushes := repeat pushes_step.

(** ** The card's operations *)

Lemma pushes_get_task t : pushes (get_task t).
Proof. apply pushes_keep. intros w a w'. unfold get_task. destruct (_ !! _); [|done]. by intros [= _ <-]. Qed.
Lemma pushes_get_coro c : pushes (get_coro c).
Proof. apply pushes_keep. intros w a w'. unfold get_coro. destruct (_ !! _); [|done]. by intros [= _ <-]. Qed.
Lemma pushes_free_task t : pushes (free_task t).
Proof. apply pushes_keep. intros w a w'. unfold free_task. destruct (_ !! _); [|done]. by intros [= _ <-]. Qed.
Lemma pushes_free_coro c : pushes (free_coro c).
Proof. apply pushes_keep. intros w a w'. unfold free_coro. destruct (_ !! _); [|done]. by intros [= _ <-]. Qed.
Lemma pushes_put_task t k : pushes (put_task t k).
Proof. unfold put_task. pushes. Qed.
Lemma pushes_put_coro c k : pushes (put_coro c k).
Proof. unfold put_coro. pushes. Qed.
#[export] Hint Resolve pushes_get_task pushes_get_coro pushes_free_task pushes_free_coro pushes_put_task pushes_put_coro : pushes.
Lemma pushes_upd_task t f : pushes (upd_task t f).
Proof. unfold upd_task. pushes. Qed.
Lemma pushes_upd_coro c f : pushes (upd_coro c f).
Proof. unfold upd_coro. pushes. Qed.
#[export] Hint Resolve pushes_upd_task pushes_upd_coro : pushes.

Lemma ptr_pay_idem p : ptr_pay (ptr_pay p) = ptr_pay p /\ is_pay (ptr_pay p).
Proof.
  assert (H : is_pay (ptr_pay p)); [|split; [by apply ptr_pay_id|done]]. unfold is_pay, ptr_pay, PAY_MASK.
  change 281474976710655 with (2 ^ 48 - 1). rewrite land_ones_mod by lia. change 281474976710656 with (2 ^ 48). apply Z.mod_pos_bound. lia.
Qed.

(** Whatever the pointer, a push appends its payload or, on a full ring,
    nothing. *)
Lemma pushes_ring t : pushes (ring_push_w KIND_TASK t).
Proof.
  intros w a w' q E (r & Hr & Hq). unfold ring_push_w in E. rewrite Hr in E.
  destruct (ptr_pay_idem t) as [Hi Hp]. replace (ring_push r KIND_TASK t) with (ring_push r KIND_TASK (ptr_pay t)) in E by (unfold ring_push; by rewrite Hi).
  destruct (push_refines r q _ Hq Hp) as [Hyes Hno]. pose proof (q_fit _ _ Hq). destruct (decide (zlen q = rn r)) as [Hf|Hf].
  - rewrite Hno in E by done. injection E as _ <-. exists [], r. by rewrite app_nil_r.
  - destruct Hyes as (r' & E' & _ & Hq'); [lia|]. rewrite E' in E. injection E as _ <-. exists [ptr_pay t], r'. done.
Qed.
#[export] Hint Resolve pushes_ring : pushes.

Lemma pushes_task_of_loop n c : pushes (task_of_loop n c).
Proof. revert c. induction n as [|n IH]; intros c; cbn [task_of_loop]; pushes. Qed.
Lemma pushes_task_of c : pushes (task_of c).
Proof. unfold task_of. apply (pushes_at (fun v => task_of_loop (S (S (size (s_coros v)))) c)). intros v. apply pushes_task_of_loop. Qed.
Lemma pushes_leaf_loop n c : pushes (leaf_loop n c).
Proof. revert c. induction n as [|n IH]; intros c; cbn [leaf_loop]; pushes. Qed.
Lemma pushes_leaf_of c : pushes (leaf_of c).
Proof. unfold leaf_of. apply (pushes_at (fun v => leaf_loop (S (size (s_coros v))) c)). intros v. apply pushes_leaf_loop. Qed.
Lemma pushes_terminal t : pushes (task_is_terminal t).
Proof. unfold task_is_terminal. pushes. Qed.
Lemma pushes_task_free t : pushes (task_free t).
Proof. unfold task_free. pushes. Qed.
#[export] Hint Resolve pushes_task_of pushes_leaf_of pushes_terminal pushes_task_free : pushes.
Lemma pushes_unref t : pushes (task_unref t).
Proof. unfold task_unref. pushes. Qed.
#[export] Hint Resolve pushes_unref : pushes.
Lemma pushes_push_ref t : pushes (push_task_ref t).
Proof. unfold push_task_ref. pushes. Qed.
Lemma pushes_hold_ref t : pushes (hold_task_ref t).
Proof. unfold hold_task_ref. pushes. Qed.
Lemma pushes_mark_dead t : pushes (task_mark_dead t).
Proof. unfold task_mark_dead. pushes. Qed.
#[export] Hint Resolve pushes_push_ref pushes_hold_ref pushes_mark_dead : pushes.

Lemma pushes_fifo_find n prev cur t : pushes (fifo_find n prev cur t).
Proof. revert prev cur. induction n as [|n IH]; intros prev cur; cbn [fifo_find]; pushes. Qed.
#[export] Hint Resolve pushes_fifo_find : pushes.
Lemma pushes_fifo_append m t : pushes (fifo_append m t).
Proof. unfold fifo_append. pushes. Qed.
Lemma pushes_fifo_unlink m t : pushes (fifo_unlink m t).
Proof. unfold fifo_unlink. apply (pushes_at (fun v => _)). intros v. pushes. Qed.
#[export] Hint Resolve pushes_fifo_append pushes_fifo_unlink : pushes.
Lemma pushes_acquire m c : pushes (pm_metal_coop_mutex_try_acquire m c).
Proof. unfold pm_metal_coop_mutex_try_acquire. pushes. Qed.
Lemma pushes_release m : pushes (pm_metal_coop_mutex_release m).
Proof. unfold pm_metal_coop_mutex_release. pushes. Qed.
#[export] Hint Resolve pushes_acquire pushes_release : pushes.

(** What the steps call. *)
Lemma pushes_await a b : pushes (pm_metal_coop_await a b).
Proof. unfold pm_metal_coop_await. pushes. Qed.
Lemma pushes_yield_park c : pushes (pm_metal_coop_yield_park c).
Proof. unfold pm_metal_coop_yield_park. pushes. Qed.
Lemma pushes_post_task t : pushes (pm_metal_coop_post_task t).
Proof. unfold pm_metal_coop_post_task. pushes. Qed.
Lemma pushes_reclaim t : pushes (pm_metal_coop_task_reclaim t).
Proof. unfold pm_metal_coop_task_reclaim. pushes. Qed.
Lemma pushes_detach t : pushes (pm_metal_coop_task_detach t).
Proof. unfold pm_metal_coop_task_detach. pushes. Qed.
Lemma pushes_retire t : pushes (pm_metal_coop_task_retire t).
Proof. unfold pm_metal_coop_task_retire. pushes. Qed.
Lemma pushes_mono_us clk : pushes (mono_us clk).
Proof. apply pushes_keep. intros w ? ? [= _ <-]. done. Qed.
#[export] Hint Resolve pushes_await pushes_yield_park pushes_post_task pushes_reclaim pushes_detach pushes_retire pushes_mono_us : pushes.
Lemma pushes_coro_create mem_alloc step n : pushes (pm_metal_coop_coro_create mem_alloc step n).
Proof. unfold pm_metal_coop_coro_create, mem_alloc_w. pushes. Qed.
Lemma pushes_create_task mem_alloc c : pushes (pm_metal_coop_create_task mem_alloc c).
Proof. unfold pm_metal_coop_create_task, mem_alloc_w. pushes. Qed.
Lemma pushes_sleep mem_alloc clk c us : pushes (pm_metal_coop_sleep_us mem_alloc clk c us).
Proof. unfold pm_metal_coop_sleep_us, mem_alloc_w, timer_insert. pushes. Qed.
Lemma pushes_fire_loop clk n now : pushes (fire_timers_loop clk n now).
Proof. revert now. induction n as [|n IH]; intros now; cbn [fire_timers_loop]; pushes. Qed.
Lemma pushes_fire clk : pushes (fire_timers clk).
Proof. unfold fire_timers. apply (pushes_at (fun v => now <- mono_us clk ;; fire_timers_loop clk (S (length (s_timers v))) now)). intros v. apply pushes_bind; [auto with pushes|]. intros. apply pushes_fire_loop. Qed.
#[export] Hint Resolve pushes_coro_create pushes_create_task pushes_sleep pushes_fire : pushes.

(** ** The runner *)

Section runner.
Context (run_step : Z -> Z -> M status) (Hpush : forall f c, pushes (run_step f c)).

Lemma pushes_drop_running t : pushes (drop_running t).
Proof. unfold drop_running. pushes. Qed.
#[local] Hint Resolve pushes_drop_running Hpush : pushes.
Lemma pushes_gate t leaf k : pushes (vm_gate t leaf k).
Proof. unfold vm_gate. pushes. Qed.
Lemma pushes_vm_release b : pushes (vm_release b).
Proof. unfold vm_release. pushes. Qed.
#[local] Hint Resolve pushes_gate pushes_vm_release : pushes.
Lemma pushes_step_loop n t : pushes (step_loop run_step n t).
Proof. induction n as [|n IH]; cbn [step_loop]; pushes. Qed.
#[local] Hint Resolve pushes_step_loop : pushes.
Lemma pushes_step_task n t : pushes (step_task run_step n t).
Proof. unfold step_task, step_epilogue. pushes. Qed.
#[local] Hint Resolve pushes_step_task : pushes.

(** A turn takes the head and nothing else. *)
Lemma drain_takes_head n w rc w' t q : drain_one run_step n w = Done rc w' -> queued w (t :: q) -> exists new, queued w' (q ++ new).
Proof.
  intros E (r & Hr & Hq). unfold drain_one, ring_claim_w in E. unfold bind at 1 in E. rewrite Hr in E.
  destruct (claim_head _ _ _ Hq) as [E1 E2]. rewrite E1 in E. destruct (head_slot _ _ _ Hq) as [_ Hp].
  destruct (ring_pack_fields ST_CLAIMED KIND_TASK t) as (_ & F2 & F3); [by unfold ST_CLAIMED; lia|auto with metal|exact Hp|].
  rewrite F2 in E. change (KIND_TASK =? KIND_STOP) with false in E. cbv iota zeta in E. unfold bind at 1, ring_release_w at 1 in E. cbn [s_inbox set_inbox] in E.
  rewrite E2 in E. match type of E with ?m ?v = _ => assert (P : pushes m) by pushes; refine (P v _ _ q E _) end. exists (pop_ring r). split; [done|by eapply pop_repr].
Qed.

(** ** Turns *)

Fixpoint drains (n k : nat) : M unit :=
  match k with O => ret tt | S k' => drain_one run_step n ;; drains n k' end.

Lemma drains_last n k w w1 : drains n k w = Done tt w1 -> forall rc w2, drain_one run_step n w1 = Done rc w2 -> drains n (S k) w = Done tt w2.
Proof.
  revert w. induction k as [|k IH]; intros w E rc w2 E2; cbn [drains] in *.
  - injection E as <-. unfold bind. by rewrite E2.
  - unfold bind at 1 in E. unfold bind at 1. destruct (drain_one run_step n w) as [rc0 w0| |]; [|done|done]. exact (IH _ E _ _ E2).
Qed.

Context (mu : world -> Z -> nat) (Hstep : step_contract run_step mu).

(** The head of the ring, if any, can be served with fuel [n]. *)
Definition serviceable (n : nat) (w : world) : Prop :=
  exists H r q l, inv_at (BIG - 2) w H r q l /\
    forall t, head q = Some t ->
      if t =? s_current w then exists k, s_tasks w !! t = Some k /\ t_dead k = false
      else step_pre (claimed_world w r) t /\ forall k, (mu (entered (claimed_world w r) t k) t < n)%nat.

(** C6: no task starves in the ready ring.  Whatever the coroutines do in
    their turns (within their contract, and without running a loop of the
    runner themselves), a task at place [k] is still queued, in front of
    everything queued since, after each of the first [k] turns of
    [drain_one], and the next claim hands out that task. *)
Theorem ready_task_gets_its_turn (n k : nat) (w : world) (q : list Z) (t : Z)
    (Hq : queued w q) (Ht : q !! k = Some t)
    (Hs : forall j w', (j < k)%nat -> drains n j w = Done tt w' -> serviceable n w') :
  (forall j, (j <= k)%nat -> exists w' new, drains n j w = Done tt w' /\ queued w' (drop j q ++ new)) /\
  exists w' word idx w'', drains n k w = Done tt w' /\ ring_claim_w w' = Done (Some (word, idx)) w'' /\ ring_pay word = t.
Proof.
  assert (Hall : forall j, (j <= k)%nat -> exists w' new, drains n j w = Done tt w' /\ queued w' (drop j q ++ new)).
  { induction j as [|j IH]; intros Hj; [exists w, []; by rewrite app_nil_r|]. destruct IH as (w1 & new & E & H1); [lia|].
    destruct (Hs j w1 ltac:(lia) E) as (H & r & q1 & l & Hi & Hhead). destruct (drain_one_done run_step mu Hstep n w1 H r q1 l Hi Hhead) as (rc & w2 & E2 & _ & _).
    destruct (lookup_lt_is_Some_2 q j) as [x Hx]; [apply lookup_lt_Some in Ht; lia|]. rewrite (drop_S q x j Hx) in H1.
    destruct (drain_takes_head n w1 rc w2 x (drop (S j) q ++ new) E2 H1) as [new2 H2]. exists w2, (new ++ new2). split; [by eapply drains_last|]. by rewrite (assoc_L (++)). }
  split; [exact Hall|]. destruct (Hall k (le_n k)) as (w' & new & E & r & Hr & Hrq). rewrite (drop_S q t k Ht) in Hrq.
  destruct (claim_head _ _ _ Hrq) as [E1 _]. destruct (head_slot _ _ _ Hrq) as [_ Hp].
  destruct (ring_pack_fields ST_CLAIMED KIND_TASK t) as (_ & _ & F3); [by unfold ST_CLAIMED; lia|auto with metal|exact Hp|].
  do 4 eexists. split; [exact E|]. unfold ring_claim_w. rewrite Hr, E1. split; [reflexivity|exact F3].
Qed.
End runner.

(** ** Two tasks that yield *)

Lemma yield_pushes f c : pushes (yield_step f c).
Proof. apply pushes_yield_park. Qed.

Definition pair_ring : inbox := snd (ring_push (snd (ring_push demo_ring KIND_TASK 4096)) KIND_TASK 5120).
Definition pair_task (root : Z) : task := Task root false false 0 0 1 false.
Definition pair_coro (t : Z) : coro := Coro 100 0 0 t PENDING false false.
Definition pair_world : world :=
  World (Some pair_ring) {[4096 := pair_task 8192; 5120 := pair_task 9216]} {[8192 := pair_coro 4096; 9216 := pair_coro 5120]}
    [] free_mutex true true 1 true 0 0 false true 0.

Lemma pair_repr : repr pair_ring [4096; 5120].
Proof.
  destruct (push_refines demo_ring [] 4096 demo_ring_repr) as [H1 _]; [unfold is_pay; lia|]. destruct H1 as (r1 & E1 & _ & Hq1); [vm_compute; reflexivity|].
  destruct (push_refines r1 [4096] 5120 Hq1) as [H2 _]; [unfold is_pay; lia|]. destruct H2 as (r2 & E2 & _ & Hq2).
  { injection E1 as E1. rewrite <- E1. vm_compute. reflexivity. }
  unfold pair_ring. rewrite E1. cbn [snd]. by rewrite E2.
Qed.

Lemma pair_cases t k : s_tasks pair_world !! t = Some k -> (t = 4096 /\ k = pair_task 8192) \/ (t = 5120 /\ k = pair_task 9216).
Proof. cbn [s_tasks pair_world]. rewrite lookup_insert_Some, lookup_singleton_Some. naive_solver. Qed.

Lemma pair_inv : inv_at (BIG - 2) pair_world [] pair_ring [4096; 5120] [].
Proof.
  constructor; try done; [exact pair_repr|apply fifo_nil| |by intros x k Hx%not_elem_of_nil].
  split; [constructor|].
  - intros t k [[-> ->]|[-> ->]]%pair_cases; unfold is_pay; lia.
  - by intros t k [[-> ->]|[-> ->]]%pair_cases.
  - by intros t k [[-> ->]|[-> ->]]%pair_cases.
  - intros t Ht. cbn in Ht. set_unfold in Ht. by destruct Ht as [->|[->|[]]].
  - unfold TASK_DEAD_BIT. cbn. lia.
  - intros t k [[-> ->]|[-> ->]]%pair_cases _; (split; [done|]); by intros t' k' [[-> ->]|[-> ->]]%pair_cases.
Qed.

Lemma pair_serviceable : serviceable (fun _ _ => 0%nat) 1 pair_world.
Proof.
  exists [], pair_ring, [4096; 5120], []. split; [exact pair_inv|]. intros t E. injection E as <-. split; [|intros; lia].
  intros k c Hk _ _ _ _ _. split; [|intros (l & HF & Hx); pose proof (chain_head _ _ _ (ff_chain _ _ _ HF)) as [Hh _]; rewrite (Hh eq_refl) in Hx; by apply not_elem_of_nil in Hx].
  exists 8192, (pair_task 8192), (pair_coro 4096). repeat split; try discriminate; vm_compute; reflexivity.
Qed.

Lemma ready_task_gets_its_turn_witness :
  exists w' word idx w'', drains yield_step 1 1 pair_world = Done tt w' /\ ring_claim_w w' = Done (Some (word, idx)) w'' /\ ring_pay word = 5120.
Proof.
  refine (proj2 (ready_task_gets_its_turn yield_step yield_pushes (fun _ _ => 0%nat) yield_contract 1 1 pair_world [4096; 5120] 5120 _ eq_refl _)).
  - exists pair_ring. split; [reflexivity|exact pair_repr].
  - intros j w' Hj E. destruct j as [|j]; [injection E as <-; exact pair_serviceable|]. lia.
Defined.
End CoopFair.
