(* ===== verification/CoopApi.v ===== *)
(** * The card's calls, in any order

    The calls a program makes between turns, with what the caller owes for
    each ([may]), as a transition system: every state reached keeps the
    invariant of [CoopInv], and no call that is made as it may be faults. *)
From S2P Require Import Prelude Ring CoopState CoopRun CoopRefs CoopMutex CoopInv CoopStep CoopSpec.

Module CoopApi.
Import Ring Coop CoopRun CoopRefs CoopMutex CoopInv CoopStep CoopTimers CoopSpec.
Local Open Scope metal_scope.

Inductive call :=
| CoroCreate (step frame_bytes : Z)
| SetVmOnly (c : Z)
| SetAutoFree (c : Z)
| CreateTask (c : Z)
| PostTask (t : Z)
| Reclaim (t : Z)
| Detach (t : Z)
| Retire (t : Z)
| FireTimers
| DrainOne (fuel : nat).

Section calls.
Variable mem_alloc : world -> Z -> Z.
Variable clk : nat -> Z.
Variable run_step : Z -> Z -> M status.
Variable mu : world -> Z -> nat.

Definition none (m : M unit) : M Z := m ;; ret 0.

Definition invoke (x : call) : M Z :=
  match x with
  | CoroCreate step n => pm_metal_coop_coro_create mem_alloc step n
  | SetVmOnly c => none (pm_metal_coop_coro_set_vm_only c)
  | SetAutoFree c => none (pm_metal_coop_coro_set_auto_free c)
  | CreateTask c => pm_metal_coop_create_task mem_alloc c
  | PostTask t => pm_metal_coop_post_task t
  | Reclaim t => pm_metal_coop_task_reclaim t
  | Detach t => pm_metal_coop_task_detach t
  | Retire t => pm_metal_coop_task_retire t
  | FireTimers => none (fire_timers clk)
  | DrainOne n => drain_one run_step n
  end.

(** A pointer argument is NULL or names an allocated block; a coroutine gets
    one task; a task is not given up while it waits for the interpreter; the
    head of the ring can run when a turn begins. *)
Definition task_arg (w : world) (t : Z) : Prop := t = 0 \/ is_Some (s_tasks w !! t).
Definition coro_arg (w : world) (c : Z) : Prop := c = 0 \/ is_Some (s_coros w !! c).
Definition may (x : call) (w : world) : Prop :=
  match x with
  | CoroCreate _ _ | FireTimers => True
  | SetVmOnly c | SetAutoFree c => coro_arg w c
  | CreateTask c => coro_arg w c /\ forall s j, s_tasks w !! s = Some j -> t_root j <> c
  | PostTask t => task_arg w t
  | Reclaim t | Detach t | Retire t => task_arg w t /\ ~ parked w t
  | DrainOne n => exists r q l, inv_at (BIG - 2) w [] r q l /\
      forall t, head q = Some t ->
        if t =? s_current w then exists k, s_tasks w !! t = Some k /\ t_dead k = false
        else step_pre (claimed_world w r) t /\ forall k, (mu (entered (claimed_world w r) t k) t < n)%nat
  end.

Inductive reachable (w0 : world) : world -> Prop :=
| reach_start : reachable w0 w0
| reach_call w x v w' : reachable w0 w -> may x w -> invoke x w = Done v w' -> reachable w0 w'.

(** ** One call *)

Hypothesis Hfresh : forall w n, mem_alloc w n <> 0 ->
  is_pay (mem_alloc w n) /\ s_tasks w !! mem_alloc w n = None /\ s_coros w !! mem_alloc w n = None.
Hypothesis Hstep : step_contract run_step mu.

Definition sound (m : M Z) (w : world) : Prop := exists v w', m w = Done v w' /\ inv BIG w' [].

Lemma sound_ret v w : inv BIG w [] -> sound (ret v) w.
Proof. intros H. by exists v, w. Qed.

Lemma sound_upd_coro w c f : inv BIG w [] -> coro_arg w c -> sound (none (if c =? 0 then ret tt else upd_coro c f)) w.
Proof.
  intros Hi Hc. unfold none. destruct (Z.eqb_spec c 0) as [->|H0]; [by exists 0, w|]. destruct Hc as [?|[k Hk]]; [done|].
  destruct (inv_upd_coro _ _ _ _ _ f Hi Hk) as [E Hi']. unfold sound, bind. rewrite E. by do 2 eexists.
Qed.

Lemma sound_push w t : inv BIG w [] -> task_arg w t -> sound (push_task_ref t) w.
Proof.
  intros Hi [->|[k Hk]]; [by apply sound_ret|]. destruct (inv_push_any _ _ _ _ _ Hi Hk) as (rc & w' & E & Hi' & _). by exists rc, w'.
Qed.

Lemma terminal_done w t : inv BIG w [] -> task_arg w t -> exists b, task_is_terminal t w = Done b w.
Proof.
  intros (r & q & l & Hi) Ht. unfold task_is_terminal. destruct (Z.eqb_spec t 0) as [->|H0]; [by eexists|]. destruct Ht as [?|[k Hk]]; [done|].
  unfold bind at 1, get_task. rewrite Hk. destruct (Z.eqb_spec (t_root k) 0) as [Er|Er]; [by eexists|].
  destruct (proj2 (iv_store _ _ _ _ _ _ Hi) _ _ Hk Er) as [[c Hc] _]. unfold bind, get_coro. rewrite Hc. by eexists.
Qed.

Lemma sound_mark w t : inv BIG w [] -> task_arg w t -> t <> 0 -> ~ parked w t -> sound (task_mark_dead t ;; ret 0) w.
Proof.
  intros Hi [?|[k Hk]] H0 Hnp; [done|]. destruct (inv_mark_dead _ _ _ _ _ Hi Hnp Hk) as (E & Hi' & _). unfold sound, bind. rewrite E. by do 2 eexists.
Qed.

Lemma sound_clear w t : inv BIG w [] -> task_arg w t -> t <> 0 -> ~ parked w t -> sound (upd_task t (set_t_root 0) ;; task_mark_dead t ;; ret 0) w.
Proof.
  intros Hi [?|[k Hk]] H0 Hnp; [done|]. set (w1 := set_tasks (<[t := set_t_root 0 k]> (s_tasks w)) w).
  assert (E : upd_task t (set_t_root 0) w = Done tt w1) by (unfold upd_task, bind, get_task; by rewrite Hk).
  unfold sound. unfold bind at 1. rewrite E. apply sound_mark; [by apply (inv_upd_task _ w _ _ k); auto|right; apply lookup_insert_is_Some; by left|done|].
  intros (l & HF & Hx). apply Hnp. exists l. split; [|done]. eapply (fifo_keep w1); [done| |exact HF].
  intros x _. simpl. rewrite lookup_insert. case_decide; subst; [|done]. by rewrite Hk.
Qed.

Lemma sound_coro_create w step n : inv BIG w [] -> sound (pm_metal_coop_coro_create mem_alloc step n) w.
Proof.
  intros Hi. unfold pm_metal_coop_coro_create. unfold sound. unfold bind at 1, gets at 1. destruct (_ || _); [by apply sound_ret|].
  unfold bind at 1, mem_alloc_w, gets at 1. destruct (Z.eqb_spec (mem_alloc w n) 0) as [E0|E0]; [by apply sound_ret|].
  unfold bind, put_coro, modify. do 2 eexists. split; [done|]. apply inv_coros; [done|]. intros x Hx. apply lookup_insert_is_Some'. by right.
Qed.

Lemma sound_create w c : inv BIG w [] -> may (CreateTask c) w -> sound (pm_metal_coop_create_task mem_alloc c) w.
Proof.
  intros Hi [Hc Hown]. destruct (s_ready w) eqn:Er.
  2: { unfold sound, pm_metal_coop_create_task, bind at 1, gets at 1. rewrite Er. by apply sound_ret. }
  destruct (decide (c = 0)) as [->|H0].
  { unfold sound, pm_metal_coop_create_task, bind at 1, gets at 1. rewrite Er. by apply sound_ret. }
  destruct Hc as [?|[kc Hc]]; [done|]. destruct (decide (mem_alloc w TASK_BYTES = 0)) as [Ea|Ea].
  { unfold sound, pm_metal_coop_create_task, bind at 1, gets at 1. rewrite Er, (proj2 (Z.eqb_neq c 0)) by done. cbn [negb orb].
    unfold bind at 1, mem_alloc_w, gets at 1. rewrite Ea. by apply sound_ret. }
  destruct (Hfresh w TASK_BYTES Ea) as (Hp & Hn & _). destruct Hi as (r & q & l & Hi).
  destruct (create_task_queues mem_alloc BIG w [] r q l c _ kc Hi Er H0 Hc Hown eq_refl Ea Hp Hn) as (v & w' & E & Hi' & _). by exists v, w'.
Qed.

Lemma call_sound x w : inv BIG w [] -> may x w -> sound (invoke x) w.
Proof.
  intros Hi Hm. destruct x; cbn [may invoke] in *.
  - by apply sound_coro_create.
  - by apply sound_upd_coro.
  - by apply sound_upd_coro.
  - by apply sound_create.
  - unfold pm_metal_coop_post_task, sound, bind at 1, gets at 1. destruct (_ || _); [by apply sound_ret|by apply sound_push].
  - destruct Hm as [Ht Hnp]. unfold pm_metal_coop_task_reclaim. destruct (Z.eqb_spec t 0); [by apply sound_ret|].
    destruct (terminal_done w t Hi Ht) as [b E]. unfold sound, bind at 1. rewrite E. destruct b; [by apply sound_mark|by apply sound_ret].
  - destruct Hm as [Ht Hnp]. unfold pm_metal_coop_task_detach. destruct (Z.eqb_spec t 0); [by apply sound_ret|].
    destruct (terminal_done w t Hi Ht) as [b E]. unfold sound, bind at 1. rewrite E. destruct b; [by apply sound_clear|by apply sound_ret].
  - destruct Hm as [Ht Hnp]. unfold pm_metal_coop_task_retire. destruct (Z.eqb_spec t 0); [by apply sound_ret|].
    pose proof Ht as [?|[k Hk]]; [done|]. unfold sound, bind at 1, gets at 1. unfold bind at 1, get_task at 1. rewrite Hk.
    destruct (_ && _); [by apply sound_ret|by apply sound_clear].
  - unfold fire_timers, none, sound, bind at 1, mono_us at 1. 
    destruct (fire_loop_done clk BIG (S (length (s_timers w))) (u64 (clk (s_ticks w))) (set_ticks (S (s_ticks w)) w) []) as (w' & E & Hi' & _); [by apply inv_ticks|simpl; lia|].
    unfold bind. rewrite E. by do 2 eexists.
  - destruct Hm as (r & q & l & Hi' & Hh). destruct (drain_one_done run_step mu Hstep fuel w [] r q l Hi' Hh) as (rc & w' & E & Hi2 & _). by exists rc, w'.
Qed.

(** C5: the card is type-sound.  From a state that keeps the invariant, after
    any calls in any order the invariant holds still (every queue entry, timer
    and FIFO link names an allocated task that counts it), and whatever call
    comes next as it may be made runs to its end without a fault. *)
Theorem calls_type_sound (w0 w : world) (H0 : inv BIG w0 []) (Hr : reachable w0 w) :
  inv BIG w [] /\ forall x, may x w -> exists v w', invoke x w = Done v w' /\ inv BIG w' [].
Proof.
  assert (Hi : inv BIG w []).
  { induction Hr as [|w x v w' _ IH Hm E]; [done|]. destruct (call_sound x w IH Hm) as (v2 & w2 & E2 & Hi). congruence. }
  split; [done|]. intros x Hm. by apply call_sound.
Qed.
End calls.

(** ** A task created, then posted again *)

Definition one_block (w : world) (_ : Z) : Z :=
  if bool_decide (s_tasks w !! 4096 = None /\ s_coros w !! 4096 = None) then 4096 else 0.

Lemma one_block_fresh w n : one_block w n <> 0 ->
  is_pay (one_block w n) /\ s_tasks w !! one_block w n = None /\ s_coros w !! one_block w n = None.
Proof. unfold one_block. case_bool_decide as Hb; [|done]. destruct Hb. intros _. split; [unfold is_pay; lia|done]. Qed.

Definition created_world : world :=
  match pm_metal_coop_create_task one_block 8192 fresh_world with Done _ w => w | _ => fresh_world end.

Lemma calls_type_sound_witness :
  inv BIG created_world [] /\
  exists v w', pm_metal_coop_post_task 4096 created_world = Done v w' /\ inv BIG w' [].
Proof.
  destruct (calls_type_sound one_block (fun _ => 0) yield_step (fun _ _ => 0%nat) one_block_fresh yield_contract fresh_world created_world) as [Hi Hx].
  - apply (inv_weaken 100); [exists demo_ring, [], []; exact fresh_inv|unfold BIG; lia].
  - eapply (reach_call _ _ _ _ _ fresh_world (CreateTask 8192)); [apply reach_start| |vm_compute; reflexivity].
    split; [right; vm_compute; by eexists|]. intros s j Hj. cbn [s_tasks fresh_world] in Hj. by rewrite lookup_empty in Hj.
  - split; [exact Hi|]. apply (Hx (PostTask 4096)). right. vm_compute. by eexists.
Defined.
End CoopApi.
