(* ===== verification/CoopRace.v ===== *)
(** * Reclaiming a task while several runners touch it

    The reference word of a task is changed by single atomic instructions of
    [push_task_ref], [task_unref] and [task_mark_dead] (coop/__impl__.c).  Here
    each instruction is one step of its thread and the threads interleave
    freely.  The block's life is the count of times it was freed; an access
    after the first free is [Fault]. *)
From S2P Require Import Prelude Ring CoopState CoopRefs.

Module CoopRace.
Import Coop CoopRefs.

(** One task block and the ready ring's entries for it. *)
Record shared := Shared { g_word : Z; g_dead : bool; g_ring : Z; g_freed : Z }.

(** Where a thread stands.  [bare] marks a push by a thread that holds no
    reference of its own. *)
Inductive pc :=
  | Hold
  | Push_load (bare : bool) | Push_add (bare : bool) | Push_recheck (bare : bool)
  | Push_ring (bare : bool) | Push_unref (bare : bool)
  | Unref_sub | Free_it
  | Mark_flag | Mark_or
  | Gone.

Inductive result := Ran (p : pc) (g : shared) | Disabled | Fault.

Definition after_push (bare : bool) : pc := if bare then Gone else Hold.

(** Instructions that read or write the block. *)
Definition touch (g : shared) (r : result) : result := if g_freed g =? 0 then r else Fault.

(** The decrement of [task_unref] and its test on the old word. *)
Definition unref_step (g : shared) (next : pc) : result :=
  let was := g_word g in
  let g' := Shared (u32 (was - 1)) (g_dead g) (g_ring g) (g_freed g) in
  touch g (if negb (Z.land was TASK_REF_MASK =? 1) || (Z.land was TASK_DEAD_BIT =? 0)
           then Ran next g' else Ran Free_it g').

(** One instruction of the thread at [p]; [c] resolves its choices: what a
    holder does next, and whether [ring_push] finds a slot. *)
Definition exec (c : bool) (p : pc) (g : shared) : result :=
  match p with
  | Hold => Ran (if c then Push_load false else Unref_sub) g
  | Push_load b => touch g (Ran (if g_dead g then after_push b else Push_add b) g)
  | Push_add b => touch g (Ran (Push_recheck b) (Shared (u32 (g_word g + 1)) (g_dead g) (g_ring g) (g_freed g)))
  | Push_recheck b => touch g (Ran (if g_dead g then Push_unref b else Push_ring b) g)
  | Push_ring b => if c && (g_ring g <? Ring.RING_WANT) then Ran (after_push b) (Shared (g_word g) (g_dead g) (g_ring g + 1) (g_freed g))
                   else Ran (Push_unref b) g
  | Push_unref b => unref_step g (after_push b)
  | Unref_sub => unref_step g Gone
  | Free_it => touch g (Ran Gone (Shared (g_word g) (g_dead g) (g_ring g) (g_freed g + 1)))
  | Mark_flag => touch g (Ran Mark_or (Shared (g_word g) true (g_ring g) (g_freed g)))
  | Mark_or =>
      let prev := g_word g in
      let g' := Shared (Z.lor prev TASK_DEAD_BIT) (g_dead g) (g_ring g) (g_freed g) in
      touch g (if (Z.land prev TASK_REF_MASK =? 0) && (Z.land prev TASK_DEAD_BIT =? 0)
               then Ran Free_it g' else Ran Gone g')
  | Gone => (* an idle runner may claim a ring entry, and its reference *)
      if 0 <? g_ring g then Ran Hold (Shared (g_word g) (g_dead g) (g_ring g - 1) (g_freed g)) else Disabled
  end.

Definition conf := (shared * list pc)%type.

(** One step of one thread; [None] is the use after free. *)
Inductive step : conf -> option conf -> Prop :=
  | step_ran g l i c p p' g' : l !! i = Some p -> exec c p g = Ran p' g' -> step (g, l) (Some (g', <[i := p']> l))
  | step_fault g l i c p : l !! i = Some p -> exec c p g = Fault -> step (g, l) None.

Inductive steps : conf -> option conf -> Prop :=
  | steps_refl x : steps x (Some x)
  | steps_more x y z : steps x (Some y) -> step y z -> steps x z.

(** Run a schedule. *)
Fixpoint run_sched (s : list (nat * bool)) (g : shared) (l : list pc) : option (shared * list pc) :=
  match s with
  | [] => Some (g, l)
  | (i, c) :: s' => match l !! i with
                    | Some p => match exec c p g with Ran p' g' => run_sched s' g' (<[i := p']> l) | _ => None end
                    | None => None
                    end
  end.

(** ** Sums over the threads *)

Definition total (f : pc -> Z) (l : list pc) : Z := foldr (fun p a => f p + a) 0 l.

Lemma total_insert f l i p p' : l !! i = Some p -> total f (<[i := p']> l) = total f l - f p + f p'.
Proof. revert i. induction l as [|q l IH]; intros [|i]; simpl; try done; [by intros [= ->]; lia|]. intros Hi. rewrite (IH _ Hi). lia. Qed.

Lemma total_bounds f l i p : (forall q, 0 <= f q) -> l !! i = Some p -> f p <= total f l.
Proof.
  intros Hf. assert (Hn : forall l, 0 <= total f l) by (induction l0; simpl; [lia|pose proof (Hf a); lia]).
  revert i. induction l as [|q l IH]; intros [|i]; simpl; try done; [intros [= ->]; pose proof (Hn l); lia|].
  intros Hi. pose proof (IH _ Hi). pose proof (Hf q). lia.
Qed.

(** References a thread owns, pending frees, pending marks, bare pushes. *)
Definition held (p : pc) : Z :=
  match p with
  | Hold | Unref_sub => 1
  | Push_load b | Push_add b => if b then 0 else 1
  | Push_recheck b | Push_ring b | Push_unref b => if b then 1 else 2
  | _ => 0
  end.
Definition freeing (p : pc) : Z := match p with Free_it => 1 | _ => 0 end.
Definition marking (p : pc) : Z := match p with Mark_flag | Mark_or => 1 | _ => 0 end.
Definition is_bare (p : pc) : bool :=
  match p with Push_load b | Push_add b | Push_recheck b | Push_ring b | Push_unref b => b | _ => false end.

Definition refs (x : conf) : Z := total held x.2 + g_ring x.1.
Definition unmarked (x : conf) : bool := bool_decide (total marking x.2 = 0).

Record race_inv (x : conf) : Prop := {
  ri_word : g_word x.1 = refs x + b2z (unmarked x) * TASK_DEAD_BIT;
  ri_ring : 0 <= g_ring x.1 <= Ring.RING_WANT;
  ri_mark : 0 <= total marking x.2 <= 1;
  ri_size : zlen x.2 < 268435456;
  ri_free : g_freed x.1 + total freeing x.2 = b2z (bool_decide (refs x = 0) && unmarked x);
  ri_freed : 0 <= g_freed x.1;
  ri_bare : Forall (fun p => is_bare p = false) x.2 }.

Lemma held_bound p : 0 <= held p <= 2.
Proof. destruct p as [|[]|[]|[]|[]|[]| | | | |]; simpl; lia. Qed.
Lemma total_nonneg f l : (forall q, 0 <= f q) -> 0 <= total f l.
Proof. intros Hf. induction l as [|q l IH]; simpl; [lia|]. pose proof (Hf q). lia. Qed.
Lemma total_held_bound l : total held l <= 2 * zlen l.
Proof. induction l as [|q l IH]; simpl length; simpl total; [lia|]. pose proof (held_bound q). lia. Qed.
Lemma freeing_nonneg q : 0 <= freeing q.
Proof. destruct q; simpl; lia. Qed.
Lemma marking_nonneg q : 0 <= marking q.
Proof. destruct q; simpl; lia. Qed.
Lemma held_nonneg q : 0 <= held q.
Proof. apply held_bound. Qed.

(** What one thread knows of the whole pool. *)
Lemma race_view g l i p :
  race_inv (g, l) -> l !! i = Some p ->
  held p <= total held l /\ freeing p <= total freeing l /\ marking p <= total marking l <= 1 /\
  0 <= refs (g, l) < TASK_DEAD_BIT - 2 /\
  Z.land (g_word g) TASK_REF_MASK = refs (g, l) /\
  Z.land (g_word g) TASK_DEAD_BIT = b2z (unmarked (g, l)) * TASK_DEAD_BIT /\
  (g_freed g <> 0 -> g_freed g = 1 /\ refs (g, l) = 0 /\ total marking l = 0 /\ total freeing l = 0).
Proof.
  intros [Hw Hr Hm Hs Hf Hfd _] Hi. simpl in *.
  pose proof (total_bounds held l i p held_nonneg Hi). pose proof (total_bounds freeing l i p freeing_nonneg Hi).
  pose proof (total_bounds marking l i p marking_nonneg Hi). pose proof (total_held_bound l).
  pose proof (total_nonneg held l held_nonneg). pose proof (total_nonneg freeing l freeing_nonneg).
  assert (Hb : 0 <= refs (g, l) < TASK_DEAD_BIT - 2) by (unfold refs, Ring.RING_WANT, TASK_DEAD_BIT in *; simpl; lia).
  rewrite Hw, word_mask, word_dead by lia. do 3 (split; [lia|]). do 3 (split; [done|]). intros Hne.
  unfold unmarked in *. simpl in *. do 2 case_bool_decide; simpl in *; lia.
Qed.

(** Updating the pool and the block keeps the invariant when the sums agree. *)
Lemma race_move g g' l i p p' :
  race_inv (g, l) -> l !! i = Some p -> is_bare p' = false ->
  let n := refs (g, l) + (held p' - held p) + (g_ring g' - g_ring g) in
  let m := total marking l - marking p + marking p' in
  g_word g' = n + b2z (bool_decide (m = 0)) * TASK_DEAD_BIT ->
  0 <= g_ring g' <= Ring.RING_WANT -> 0 <= m <= 1 -> 0 <= g_freed g' ->
  g_freed g' + total freeing l - freeing p + freeing p' = b2z (bool_decide (n = 0) && bool_decide (m = 0)) ->
  race_inv (g', <[i := p']> l).
Proof.
  intros [Hw Hr Hm Hs Hf Hfd Hb] Hi Hp n m Hw' Hr' Hm' Hfd' Hf'.
  assert (En : refs (g', <[i := p']> l) = n).
  { unfold refs; simpl. rewrite (total_insert _ _ _ _ _ Hi). unfold n, refs. simpl. lia. }
  assert (Em : total marking (<[i := p']> l) = m) by (by rewrite (total_insert _ _ _ _ _ Hi)).
  constructor; unfold unmarked; rewrite ?En; simpl; rewrite ?Em; try done.
  - by rewrite length_insert.
  - rewrite (total_insert _ _ _ _ _ Hi). lia.
  - by apply Forall_insert.
Qed.

Lemma dead_bit_test d : (b2z d * TASK_DEAD_BIT =? 0) = negb d.
Proof. by destruct d. Qed.

(** [task_unref] by a thread that owns a reference. *)
Lemma race_unref g l i p next :
  race_inv (g, l) -> l !! i = Some p -> 1 <= held p -> held next = held p - 1 ->
  freeing p = 0 -> marking p = 0 -> freeing next = 0 -> marking next = 0 -> is_bare next = false ->
  (held next = 0 \/ 2 <= held p) ->
  exists p' g', unref_step g next = Ran p' g' /\ race_inv (g', <[i := p']> l).
Proof.
  intros Hri Hi Hh Hn Hfp Hmp Hfn Hmn Hbn Hcase. pose proof (race_view _ _ _ _ Hri Hi) as (V1 & V2 & V3 & V4 & V5 & V6 & V7).
  pose proof (ri_ring _ Hri). pose proof (ri_free _ Hri) as Hfree. pose proof (ri_word _ Hri) as Hw. simpl in *.
  assert (Hpos : held p <= refs (g, l)) by (unfold refs; simpl; lia).
  assert (Hfr : g_freed g = 0) by (destruct (decide (g_freed g = 0)); [done|]; lia).
  assert (Hword : u32 (g_word g - 1) = refs (g, l) - 1 + b2z (unmarked (g, l)) * TASK_DEAD_BIT).
  { rewrite Hw. unfold TASK_DEAD_BIT in *. rewrite u32_small; destruct (unmarked (g, l)); simpl; lia. }
  unfold unref_step, touch. rewrite Hfr, Z.eqb_refl, V5, V6, dead_bit_test.
  rewrite (bool_decide_eq_false_2 (refs (g, l) = 0)) in Hfree by lia. simpl in Hfree.
  unfold unmarked in *. simpl in *. pose proof (ri_mark _ Hri) as Hmk. simpl in Hmk.
  destruct (Z.eqb_spec (refs (g, l)) 1) as [E1|E1]; destruct (bool_decide_reflect (total marking l = 0)) as [Em|Em];
    cbn [negb orb]; do 2 eexists; (split; [reflexivity|]).
  all: apply (race_move g _ _ _ p); auto; simpl; rewrite ?Hmp, ?Hmn, ?Hfp, ?Hfn, ?Hword, ?Hn, ?Z.sub_0_r, ?Z.add_0_r; try lia.
  all: try (unfold refs in *; simpl in *; lia).
  all: repeat case_bool_decide; simpl; try lia.
Qed.

(** One instruction of one thread never faults and keeps the invariant. *)
Lemma race_step c g l i p :
  race_inv (g, l) -> l !! i = Some p ->
  exec c p g = Disabled \/ exists p' g', exec c p g = Ran p' g' /\ race_inv (g', <[i := p']> l).
Proof.
  intros Hri Hi. pose proof (race_view _ _ _ _ Hri Hi) as (V1 & V2 & V3 & V4 & V5 & V6 & V7).
  pose proof (ri_ring _ Hri) as Hr. pose proof (ri_free _ Hri) as Hfree. pose proof (ri_word _ Hri) as Hw.
  pose proof (ri_bare _ Hri) as Hb. rewrite Forall_lookup in Hb. specialize (Hb _ _ Hi). pose proof (ri_mark _ Hri) as Hmk.
  pose proof (total_nonneg held l held_nonneg) as Hth. unfold unmarked in *. simpl in *.
  assert (Hfr : (1 <= held p \/ 1 <= marking p \/ 1 <= freeing p) -> g_freed g = 0).
  { intros Hc. destruct (decide (g_freed g = 0)) as [|Hne]; [done|]. destruct (V7 Hne) as (_ & ? & ? & ?).
    unfold refs in *; simpl in *. lia. }
  assert (Hbusy : 1 <= held p -> 0 < refs (g, l)) by (unfold refs; simpl; lia).
  assert (Hword : u32 (g_word g + 1) = refs (g, l) + 1 + b2z (bool_decide (total marking l = 0)) * TASK_DEAD_BIT).
  { rewrite Hw. unfold TASK_DEAD_BIT in *. rewrite u32_small; case_bool_decide; simpl; lia. }
  assert (Hstay : 1 <= held p -> total freeing l = 0 /\ bool_decide (refs (g, l) = 0) = false).
  { intros Hh. specialize (Hbusy Hh). rewrite bool_decide_eq_false_2 in Hfree |- * by lia. split; [|done].
    rewrite Hfr in Hfree by lia. simpl in Hfree. lia. }
  destruct p as [|b|b|b|b|b| | | | |]; try (simpl in Hb; subst b); simpl in *.
  all: try (right; eapply (race_unref g l i _ _ Hri Hi); simpl; (lia || done)).
  all: try (destruct Hstay as [Hs1 Hs2]; [lia|]).
  all: unfold touch; rewrite ?Hfr by lia; rewrite ?Z.eqb_refl.
  - right. do 2 eexists. split; [done|]. eapply race_move; try done; destruct c; simpl; rewrite ?Z.sub_diag, ?Z.sub_0_r, ?Z.add_0_r; try lia.
  - right. destruct (g_dead g); do 2 eexists; (split; [done|]); eapply race_move; try done; simpl; rewrite ?Z.sub_diag, ?Z.sub_0_r, ?Z.add_0_r; try lia.
  - right. do 2 eexists. split; [done|]. eapply race_move; try done; simpl; rewrite ?Z.sub_diag, ?Z.sub_0_r, ?Z.add_0_r, ?Hfr by lia; try lia.
    specialize (Hbusy ltac:(lia)). rewrite bool_decide_eq_false_2 by lia. simpl. lia.
  - right. destruct (g_dead g); do 2 eexists; (split; [done|]); eapply race_move; try done; simpl; rewrite ?Z.sub_diag, ?Z.sub_0_r, ?Z.add_0_r; try lia.
  - right. destruct (c && _) eqn:Ec; do 2 eexists; (split; [done|]); eapply race_move; try done; simpl; rewrite ?Z.sub_diag, ?Z.sub_0_r, ?Z.add_0_r, ?Hfr by lia; try lia.
    all: specialize (Hbusy ltac:(lia)); rewrite ?bool_decide_eq_false_2 by lia; simpl; breflect; lia.
  - right. do 2 eexists. split; [done|]. eapply race_move; try done; simpl; rewrite ?Z.sub_diag, ?Z.sub_0_r, ?Z.add_0_r; try lia.
  - right. do 2 eexists. split; [done|]. eapply race_move; try done; simpl; rewrite ?Z.sub_diag, ?Z.sub_0_r, ?Z.add_0_r; try lia.
    all: replace (total marking l - 1 + 1) with (total marking l) by lia; rewrite ?Hfr in * by lia; lia.
  - right. assert (Em : total marking l = 1) by lia. rewrite V5, V6, dead_bit_test, Em. cbn [bool_decide].
    rewrite Em in Hw, Hfree. rewrite (bool_decide_eq_false_2 (1 = 0)), andb_false_r in * by done. cbn [negb].
    rewrite andb_true_r. pose proof (word_lor (refs (g, l)) false ltac:(lia)) as El. simpl in El, Hw, Hfree.
    rewrite Z.add_0_r in El, Hw. rewrite Hw.
    destruct (Z.eqb_spec (refs (g, l)) 0) as [Ez|Ez]; do 2 eexists; (split; [done|]); eapply race_move; try done; simpl;
      rewrite ?Z.sub_diag, ?Z.sub_0_r, ?Z.add_0_r, ?Em, ?Hfr by lia; try lia.
    all: rewrite ?El, (bool_decide_eq_true_2 (1 - 1 = 0)), ?andb_true_r by lia; simpl b2z; try lia.
    all: rewrite Hfr in Hfree by lia; case_bool_decide; simpl; lia.
  - destruct (Z.ltb_spec 0 (g_ring g)); [|by left]. right. do 2 eexists. split; [done|].
    eapply race_move; try done; simpl; rewrite ?Z.sub_diag, ?Z.sub_0_r, ?Z.add_0_r; try lia.
    all: replace (refs (g, l) + 1 + (g_ring g - 1 - g_ring g)) with (refs (g, l)) by lia; lia.
Qed.

Lemma race_steps x y : steps x y -> race_inv x -> exists y', y = Some y' /\ race_inv y'.
Proof.
  intros Hst Hri. induction Hst as [x|x y z Hs IH Hz]; [by exists x|].
  destruct (IH Hri) as (y' & [= <-] & Hy). inversion Hz as [g l i c p p' g' Hi He|g l i c p Hi He]; subst;
    destruct (race_step c g l i p Hy Hi) as [Hd|(p2 & g2 & He2 & Hinv)]; simplify_eq; try congruence.
  exists (g', <[i := p']> l). split; [done|]. by rewrite He in He2; simplify_eq.
Qed.

(** ** The claims *)

(** [n] runners hold a reference each, one thread marks the task dead, and
    [k] runners are idle. *)
Definition start (n k : nat) : conf :=
  (Shared (Z.of_nat n) false 0 0, Mark_flag :: repeat Hold n ++ repeat Gone k).

Lemma total_repeat f p n l : total f (repeat p n ++ l) = Z.of_nat n * f p + total f l.
Proof. induction n as [|n IH]; [simpl; lia|]. simpl repeat. rewrite <- app_comm_cons. simpl total. rewrite IH. lia. Qed.

Lemma start_inv n k : Z.of_nat n + Z.of_nat k < 200000000 -> race_inv (start n k).
Proof.
  intros Hn. assert (Ek : forall f, f Gone = 0 -> total f (repeat Gone k) = 0).
  { intros f Hf. rewrite <- (app_nil_r (repeat Gone k)), total_repeat, Hf. simpl. lia. }
  constructor; unfold unmarked, refs, start; simpl; rewrite ?total_repeat, ?Ek by done; simpl;
    rewrite ?Z.mul_0_r, ?Z.mul_1_r, ?Z.add_0_r; try done; try lia.
  - rewrite length_app, !repeat_length. lia.
  - by rewrite (bool_decide_eq_false_2 (1 = 0)), andb_false_r.
  - constructor; [done|]. apply Forall_app. split; apply Forall_forall; intros p Hp%list_elem_of_In%repeat_spec; by subst.
Qed.

(** C2: whatever the interleaving of pushes, claims, drops and the mark, as
    long as every pusher holds a reference no thread touches the freed block,
    it is freed at most once, and once no thread and no ring entry holds a
    reference and the mark is done it has been freed, exactly once. *)
Theorem reclaim_race_safe (n k : nat) (y : option conf) (Hn : Z.of_nat n + Z.of_nat k < 200000000)
    (Hst : steps (start n k) y) :
  exists g l, y = Some (g, l) /\ g_freed g <= 1 /\
    (total held l + g_ring g = 0 -> total marking l = 0 -> total freeing l = 0 -> g_freed g = 1) /\
    (g_freed g = 1 -> forall p, p ∈ l -> held p = 0).
Proof.
  destruct (race_steps _ _ Hst (start_inv n k Hn)) as ([g l] & -> & Hri). exists g, l. split; [done|].
  pose proof (ri_free _ Hri) as Hf. pose proof (total_nonneg freeing l freeing_nonneg). unfold unmarked, refs in Hf. simpl in Hf.
  pose proof (ri_ring _ Hri) as Hr. simpl in Hr. pose proof (total_nonneg held l held_nonneg).
  split; [repeat case_bool_decide; simpl in *; lia|]. split.
  - intros E1 E2 E3. rewrite !bool_decide_eq_true_2 in Hf by done. simpl in Hf. lia.
  - intros E p (i & Hi)%list_elem_of_lookup. pose proof (total_bounds held l i p held_nonneg Hi). pose proof (held_nonneg p).
    repeat case_bool_decide; simpl in *; lia.
Qed.

Lemma sched_steps s g l x : run_sched s g l = Some x -> steps (g, l) (Some x).
Proof.
  assert (Happ : forall a b z, steps a (Some b) -> steps b z -> steps a z).
  { intros a b z Ha Hb. induction Hb as [|? ? ? ? IH ?]; [done|]. econstructor; [by apply IH|done]. }
  revert g l. induction s as [|[i c] s IH]; intros g l; simpl; [intros [= <-]; constructor|].
  destruct (l !! i) as [p|] eqn:Hi; [|done]. destruct (exec c p g) as [p' g'| |] eqn:He; [|done..].
  intros Hx%IH. eapply Happ; [|done]. econstructor; [constructor|]. by econstructor.
Qed.

(** A holder pushes its task, the task is marked dead, and the drops of the
    ring entry and of the holder race to the end. *)
Definition demo_sched : list (nat * bool) :=
  [(1, true); (1, true); (1, true); (1, true); (0, true); (1, true); (0, true); (2, true); (2, false); (2, true); (1, false); (1, true); (1, true)]%nat.

Lemma reclaim_race_safe_witness :
  exists g l, Some (Shared 2147483648 true 0 1, [Gone; Gone; Gone]) = Some (g, l) /\ g_freed g <= 1 /\
    (total held l + g_ring g = 0 -> total marking l = 0 -> total freeing l = 0 -> g_freed g = 1) /\
    (g_freed g = 1 -> forall p, p ∈ l -> held p = 0).
Proof.
  refine (reclaim_race_safe 1 1 (Some (Shared 2147483648 true 0 1, [Gone; Gone; Gone])) _ _).
  - vm_compute. reflexivity.
  - apply (sched_steps demo_sched). vm_compute. reflexivity.
Defined.

(** The recheck after the increment does not close the race for a pusher
    that holds no reference: between its load of [dead] and its increment the
    mark can free the block, and the increment then lands in freed memory. *)
Theorem bare_push_use_after_free :
  exists g l, steps (Shared 0 false 0 0, [Mark_flag; Push_load true]) (Some (g, l)) /\
    g_freed g = 1 /\ step (g, l) None.
Proof.
  exists (Shared 2147483648 true 0 1), [Gone; Push_add true]. split; [|split; [done|]].
  - apply (sched_steps [(1, true); (0, true); (0, true); (0, true)]%nat). vm_compute. reflexivity.
  - by apply (step_fault _ _ 1 true (Push_add true)).
Qed.
End CoopRace.
