(* ===== verification/Dt.v ===== *)
(** * The dt card: the live device inventory

    src/.../metal/dt/__impl__.c: a table of 128 nodes and a counter per class.
    A compat name is a C string: the bytes before its NUL. *)
From S2P Require Import Prelude.

Module Dt.

Definition DT_MAX := 128%nat.
Definition DT_COMPAT := 32%nat.

Record node := Node {
  n_used : bool; n_class : Z; n_bus : Z; n_loc : list Z; n_unit : Z; n_compat : list Z }.
Definition zero_node : node := Node false 0 0 [0; 0; 0; 0] 0 (repeat 0 DT_COMPAT).

Record dt := DtSt { s_arena : bool; s_node : list node; s_class_n : list Z }.

Definition loc_eq (a b : list Z) : bool := bool_decide (a = b).

(** [strncmp(a, b, n) == 0] on NUL-terminated bytes. *)
Fixpoint strncmp_eq (n : nat) (a b : list Z) : bool :=
  match n with
  | O => true
  | S n' => let ca := default 0 (head a) in let cb := default 0 (head b) in
            if negb (ca =? cb) then false else if ca =? 0 then true else strncmp_eq n' (tail a) (tail b)
  end.

Definition pm_metal_dt_init (arena : bool) (d : dt) : Z * dt :=
  if negb arena then (-1, d) else (0, DtSt true (repeat zero_node DT_MAX) (repeat 0 16)).
Definition pm_metal_dt_deinit (d : dt) : dt := DtSt false (repeat zero_node DT_MAX) (repeat 0 16).

(** Index of the first node a test accepts: the [for] loops over [s_node]. *)
Fixpoint first_node (f : node -> bool) (l : list node) (i : Z) : option Z :=
  match l with [] => None | x :: t => if f x then Some i else first_node f t (i + 1) end.

(** The [while] loop that copies at most 31 bytes into a zeroed field. *)
Fixpoint copy_compat (room : nat) (s : list Z) : list Z :=
  match room with
  | O => []
  | S O => [0]
  | S r => match s with [] => repeat 0 (S r) | c :: t => c :: copy_compat r t end
  end.

Definition same_node (class : Z) (compat : list Z) (bus : Z) (loc : list Z) (x : node) : bool :=
  n_used x && (n_class x =? class) && (n_bus x =? bus) && loc_eq (n_loc x) loc
  && strncmp_eq DT_COMPAT (n_compat x) compat.

Definition class_count (d : dt) (c : Z) : Z := s_class_n d !!! Z.to_nat c.
Definition set_class_count (c v : Z) (l : list Z) : list Z := <[Z.to_nat c := v]> l.

Definition pm_metal_dt_add (d : dt) (class : Z) (compat : list Z) (bus : Z) (loc : list Z) : Z * dt :=
  if negb (s_arena d) || (class <=? 0) || (16 <=? class) || (default 0 (head compat) =? 0) then (-1, d) else
  match first_node (same_node class compat bus loc) (s_node d) 0 with
  | Some i => (i, d)
  | None =>
      match first_node (fun x => negb (n_used x)) (s_node d) 0 with
      | None => (-1, d)
      | Some i =>
          (i, DtSt (s_arena d)
                (<[Z.to_nat i := Node true class bus loc (class_count d class) (copy_compat DT_COMPAT compat)]> (s_node d))
                (set_class_count class (u32 (class_count d class + 1)) (s_class_n d)))
      end
  end.

(** [s_node[id]] when [id] is in range and used. *)
Definition node_of (d : dt) (id : Z) : option node :=
  if (id <? 0) || (Z.of_nat DT_MAX <=? id) then None else
  match s_node d !! Z.to_nat id with Some x => if n_used x then Some x else None | None => None end.

Definition pm_metal_dt_unbind (d : dt) (id : Z) : Z * dt :=
  match node_of d id with
  | None => (-1, d)
  | Some x =>
      let n := class_count d (n_class x) in
      (0, DtSt (s_arena d) (<[Z.to_nat id := zero_node]> (s_node d))
            (if negb (n =? 0) then set_class_count (n_class x) (n - 1) (s_class_n d) else s_class_n d))
  end.

Definition pm_metal_dt_count (d : dt) : Z := zlen (filter (fun x => n_used x = true) (s_node d)).

Definition pm_metal_dt_count_class (d : dt) (c : Z) : Z :=
  if (c <=? 0) || (16 <=? c) then -1 else class_count d c.

Fixpoint by_class_loop (class index : Z) (l : list node) (i seen : Z) : Z :=
  match l with
  | [] => -1
  | x :: t => if negb (n_used x) || negb (n_class x =? class) then by_class_loop class index t (i + 1) seen
              else if seen =? index then i else by_class_loop class index t (i + 1) (seen + 1)
  end.
Definition pm_metal_dt_by_class (d : dt) (class index : Z) : Z :=
  if (class <=? 0) || (index <? 0) then -1 else by_class_loop class index (s_node d) 0 0.

Definition pm_metal_dt_class (d : dt) (id : Z) : Z := match node_of d id with Some x => n_class x | None => -1 end.
Definition pm_metal_dt_compat (d : dt) (id : Z) : option (list Z) := n_compat <$> node_of d id.
Definition pm_metal_dt_unit (d : dt) (id : Z) : Z := match node_of d id with Some x => n_unit x | None => -1 end.
Definition pm_metal_dt_bus (d : dt) (id : Z) : Z := match node_of d id with Some x => n_bus x | None => -1 end.
Definition pm_metal_dt_loc (d : dt) (id idx : Z) : option Z :=
  x ← node_of d id; if 3 <? idx then None else n_loc x !! Z.to_nat idx.

(** ** The invariant: the counters count *)

Definition of_class (c : Z) (x : node) : bool := n_used x && (n_class x =? c).
Definition count_of (c : Z) (l : list node) : Z := foldr (fun x a => b2z (of_class c x) + a) 0 l.

Record dt_ok (d : dt) : Prop := {
  dk_len : length (s_node d) = DT_MAX;
  dk_counts : length (s_class_n d) = 16%nat;
  dk_class : forall i x, s_node d !! i = Some x -> n_used x = true -> 0 < n_class x < 16;
  dk_count : forall c, 0 < c < 16 -> class_count d c = count_of c (s_node d) }.

Lemma count_insert c l i x y :
  l !! i = Some x -> count_of c (<[i := y]> l) = count_of c l - b2z (of_class c x) + b2z (of_class c y).
Proof. revert i. induction l as [|z l IH]; intros [|i]; simpl; try done; [by intros [= ->]; lia|]. intros Hi. rewrite (IH _ Hi). lia. Qed.

Lemma count_bounds c l : 0 <= count_of c l <= zlen l.
Proof. induction l as [|x l IH]; simpl; [lia|]. destruct (of_class c x); simpl; lia. Qed.

Lemma count_pos c l i x : l !! i = Some x -> of_class c x = true -> 0 < count_of c l.
Proof.
  revert i. induction l as [|z l IH]; intros [|i]; simpl; try done.
  - intros [= ->] ->. pose proof (count_bounds c l). simpl. lia.
  - intros Hi Ho. specialize (IH _ Hi Ho). destruct (of_class c z); simpl; lia.
Qed.

Lemma first_node_spec f l i j :
  first_node f l i = Some j ->
  i <= j < i + zlen l /\ exists x, l !! Z.to_nat (j - i) = Some x /\ f x = true /\
    forall k y, (k < Z.to_nat (j - i))%nat -> l !! k = Some y -> f y = false.
Proof.
  revert i. induction l as [|x l IH]; intros i; simpl; [done|]. destruct (f x) eqn:E.
  - intros [= <-]. rewrite Z.sub_diag. split; [lia|]. exists x. split; [done|]. split; [done|]. intros k y Hk. lia.
  - intros Hj. destruct (IH _ Hj) as (Hr & y & Hy & Hf & Hb). split; [lia|]. exists y.
    replace (Z.to_nat (j - i)) with (S (Z.to_nat (j - (i + 1)))) by lia. split; [done|]. split; [done|].
    intros [|k] z Hk; simpl; [by intros [= <-]|]. intros Hz. apply (Hb k); [lia|done].
Qed.

Lemma first_node_none f l i : first_node f l i = None <-> forall x, x ∈ l -> f x = false.
Proof.
  revert i. induction l as [|x l IH]; intros i; simpl; [split; [intros _ x Hx; by apply not_elem_of_nil in Hx|done]|].
  destruct (f x) eqn:E.
  - split; [done|]. intros H. rewrite H in E; [done|left].
  - rewrite IH. split; [intros H y [->|Hy]%elem_of_cons; auto|]. intros H y Hy. apply H. by right.
Qed.

Lemma class_count_set c c' v l :
  length l = 16%nat -> 0 < c < 16 -> 0 < c' < 16 ->
  set_class_count c v l !!! Z.to_nat c' = if decide (c = c') then v else l !!! Z.to_nat c'.
Proof.
  intros Hl Hc Hc'. unfold set_class_count. case_decide; subst.
  - apply list_lookup_total_insert_eq. lia.
  - apply list_lookup_total_insert_ne. lia.
Qed.

(** ** Strings *)

Lemma copy_compat_length r s : length (copy_compat r s) = r.
Proof.
  revert s. induction r as [|[|r] IH]; intros s; [done..|]. simpl. destruct s; simpl; [by rewrite repeat_length|].
  f_equal. apply (IH s).
Qed.

Lemma copy_compat_short r s : (length s < r)%nat -> copy_compat r s = s ++ repeat 0 (r - length s).
Proof.
  revert s. induction r as [|[|r] IH]; intros s Hs; [lia|by destruct s; [|simpl in *; lia]|].
  destruct s as [|c s]; [done|]. simpl in *. f_equal. rewrite (IH s) by lia. done.
Qed.

Lemma strncmp_eq_short n s z t : no_nul s -> no_nul t -> (length s < n)%nat ->
  strncmp_eq n (s ++ repeat 0 (S z)) t = bool_decide (s = t).
Proof.
  revert n t. induction s as [|c s IH]; intros n t Hs Ht Hn; (destruct n as [|n]; [simpl in Hn; lia|]); simpl.
  - destruct t as [|d t]; [done|]. inversion Ht; subst. simpl. by destruct d.
  - inversion Hs; subst. destruct t as [|d t]; simpl.
    + rewrite (proj2 (Z.eqb_neq c 0)) by done. done.
    + inversion Ht; subst. destruct (Z.eqb_spec c d) as [->|Hcd]; simpl.
      * rewrite (proj2 (Z.eqb_neq d 0)) by done. rewrite IH by (done || simpl in Hn; lia).
        apply bool_decide_ext. split; congruence.
      * rewrite bool_decide_eq_false_2; [done|congruence].
Qed.

Lemma copy_compat_app r s :
  (0 < r)%nat -> no_nul s -> exists s' z, copy_compat r s = s' ++ repeat 0 (S z) /\ s' = take (r - 1) s.
Proof.
  revert s. induction r as [|r IH]; intros s Hr Hs; [lia|]. destruct r as [|r]; [by exists [], 0%nat|].
  destruct s as [|c s]; [by exists [], (S r)|]. inversion Hs; subst.
  destruct (IH s ltac:(lia)) as (s' & z & E & ->); [done|]. exists (c :: take r s), z. split; [|done].
  change (copy_compat (S (S r)) (c :: s)) with (c :: copy_compat (S r) s). rewrite E. simpl. by rewrite Nat.sub_0_r.
Qed.

#[global] Arguments strncmp_eq : simpl never.
#[global] Arguments copy_compat : simpl never.

(** Every used node stores a NUL-padded name and four location words. *)
Definition node_ok (x : node) : Prop :=
  n_used x = true -> 0 < n_class x < 16 /\
  exists s z, n_compat x = s ++ repeat 0 (S z) /\ no_nul s /\ (length s < DT_COMPAT)%nat.

Definition dt_inv (d : dt) : Prop := dt_ok d /\ Forall node_ok (s_node d).

Definition key (x : node) : Z * list Z * Z * list Z := (n_class x, cstr (n_compat x), n_bus x, n_loc x).

Lemma same_node_key class compat bus loc x :
  node_ok x -> no_nul compat ->
  same_node class compat bus loc x = n_used x && bool_decide (key x = (class, compat, bus, loc)).
Proof.
  intros Hx Hc. unfold same_node. destruct (n_used x) eqn:Hu; simpl; [|done].
  destruct (Hx Hu) as (_ & s & z & E & Hs & Hl). unfold key. rewrite E.
  assert (cstr (s ++ repeat 0 (S z)) = s) as -> by by apply cstr_nul.
  rewrite strncmp_eq_short by done. unfold loc_eq.
  destruct (Z.eqb_spec (n_class x) class), (Z.eqb_spec (n_bus x) bus); simpl;
    repeat case_bool_decide; simpl; try done; congruence.
Qed.

Lemma zero_node_ok : node_ok zero_node.
Proof. done. Qed.

Lemma node_ok_new class bus loc u s : 0 < class < 16 -> no_nul s -> node_ok (Node true class bus loc u (copy_compat DT_COMPAT s)).
Proof.
  intros Hc Hs _. split; [done|]. destruct (copy_compat_app DT_COMPAT s ltac:(unfold DT_COMPAT; lia) Hs) as (s' & z & E & ->).
  exists (take (DT_COMPAT - 1) s), z. split; [done|]. split; [by apply Forall_take|]. rewrite length_take. unfold DT_COMPAT. lia.
Qed.

(** The slot and counter updates that [add] and [unbind] share. *)
Lemma dt_inv_replace d i x y C :
  dt_inv d -> s_node d !! i = Some x -> node_ok y -> length C = 16%nat ->
  (forall c, 0 < c < 16 -> C !!! Z.to_nat c = class_count d c - b2z (of_class c x) + b2z (of_class c y)) ->
  dt_inv (DtSt (s_arena d) (<[i := y]> (s_node d)) C).
Proof.
  intros [[H1 H2 H3 H4] Hn] Hi Hy HC Hcnt. split; [constructor|]; simpl.
  - by rewrite length_insert.
  - done.
  - intros j z. rewrite list_lookup_insert_Some. intros [(_ & <- & _)|[_ Hz]] Hu; [by destruct (Hy Hu)|eauto].
  - intros c Hc. unfold class_count. simpl. rewrite (count_insert _ _ _ x) by done. rewrite <- H4 by done. by apply Hcnt.
  - by apply Forall_insert.
Qed.

Lemma free_unused d i x : first_node (fun x => negb (n_used x)) (s_node d) 0 = Some i ->
  s_node d !! Z.to_nat i = Some x -> n_used x = false.
Proof.
  intros Hf Hi. destruct (first_node_spec _ _ _ _ Hf) as (_ & y & Hy & Hu & _). rewrite Z.sub_0_r in Hy.
  simplify_eq. by apply negb_true_iff in Hu.
Qed.

Lemma dt_count_small d c : dt_ok d -> 0 < c < 16 -> 0 <= class_count d c <= 128.
Proof. intros [H1 _ _ H4] Hc. rewrite H4 by done. pose proof (count_bounds c (s_node d)). rewrite H1 in *. unfold DT_MAX in *. lia. Qed.

Lemma add_fresh d class compat bus loc i :
  dt_inv d -> s_arena d = true -> 0 < class < 16 -> no_nul compat -> compat <> [] ->
  (forall x, x ∈ s_node d -> n_used x = true -> key x <> (class, compat, bus, loc)) ->
  first_node (fun x => negb (n_used x)) (s_node d) 0 = Some i ->
  exists d', pm_metal_dt_add d class compat bus loc = (i, d') /\ dt_inv d' /\ 0 <= i < 128 /\
    d' = DtSt true (<[Z.to_nat i := Node true class bus loc (class_count d class) (copy_compat DT_COMPAT compat)]> (s_node d))
           (set_class_count class (class_count d class + 1) (s_class_n d)).
Proof.
  intros [Hd Hn] Ha Hc Hs Hne Hnew Hf. unfold pm_metal_dt_add. rewrite Ha.
  rewrite (proj2 (Z.leb_gt _ _)), (proj2 (Z.leb_gt _ _)) by lia.
  assert (default 0 (head compat) =? 0 = false) as ->.
  { destruct compat; [done|]. inversion Hs; subst. by apply Z.eqb_neq. } simpl.
  assert (first_node (same_node class compat bus loc) (s_node d) 0 = None) as ->.
  { apply first_node_none. intros x Hx. rewrite Forall_forall in Hn. rewrite same_node_key by auto.
    destruct (n_used x) eqn:Hu; [|done]. simpl. apply bool_decide_eq_false_2. auto. }
  rewrite Hf. eexists. split; [done|].
  pose proof (dt_count_small d class Hd Hc) as Hsm. rewrite u32_small by lia.
  destruct (first_node_spec _ _ _ _ Hf) as (Hr & x & Hx & Hu & _). rewrite Z.sub_0_r in Hx. rewrite (dk_len _ Hd) in Hr.
  split; [|split; [unfold DT_MAX in *; lia|done]].
  rewrite <- Ha at 1. eapply dt_inv_replace; [by split|exact Hx|by apply node_ok_new| |].
  - unfold set_class_count. by rewrite length_insert, (dk_counts _ Hd).
  - intros c Hc'. apply negb_true_iff in Hu. rewrite class_count_set; [|apply Hd|lia..]. unfold of_class. rewrite Hu. simpl.
    case_decide; subst; [rewrite Z.eqb_refl; simpl; lia|]. rewrite (proj2 (Z.eqb_neq _ _)) by done. simpl. unfold class_count. lia.
Qed.

(** ** The claims *)

(** [dt_add] on every branch.  A node with the same key is found again
    and nothing changes; otherwise the first free slot is filled with the
    given fields and the class counter grows by one; a full table is refused
    unchanged.  The table's invariant (the counters count the used nodes of
    their class) survives. *)
Theorem dt_add_spec (d : dt) (class bus : Z) (compat loc : list Z)
    (Hd : dt_inv d) (Ha : s_arena d = true) (Hc : 0 < class < 16) (Hs : no_nul compat) (Hne : compat <> []) :
  let same x := n_used x = true /\ key x = (class, compat, bus, loc) in
  let '(id, d') := pm_metal_dt_add d class compat bus loc in
  dt_inv d' /\
  ((exists x, 0 <= id /\ s_node d !! Z.to_nat id = Some x /\ same x /\ d' = d) \/
   ((forall x, x ∈ s_node d -> ~ same x) /\
    ((0 <= id < 128 /\ n_used <$> s_node d !! Z.to_nat id = Some false /\
      s_node d' = <[Z.to_nat id := Node true class bus loc (class_count d class) (copy_compat DT_COMPAT compat)]> (s_node d) /\
      pm_metal_dt_count_class d' class = pm_metal_dt_count_class d class + 1) \/
     (id = -1 /\ d' = d /\ forall x, x ∈ s_node d -> n_used x = true)))).
Proof.
  intros same. destruct (first_node (same_node class compat bus loc) (s_node d) 0) as [i|] eqn:E1.
  - pose proof (first_node_spec _ _ _ _ E1) as (Hr & x & Hx & Hsame & _). rewrite Z.sub_0_r in Hx.
    assert (Eadd : pm_metal_dt_add d class compat bus loc = (i, d)).
    { unfold pm_metal_dt_add. rewrite Ha, E1, (proj2 (Z.leb_gt _ _)), (proj2 (Z.leb_gt _ _)) by lia.
      destruct compat as [|c t]; [done|]. inversion Hs; subst. simpl. by rewrite (proj2 (Z.eqb_neq _ _)). }
    rewrite Eadd. split; [done|]. left. exists x. split; [lia|]. split; [done|]. split; [|done].
    destruct Hd as [_ Hn]. rewrite Forall_lookup in Hn. rewrite same_node_key in Hsame by eauto.
    apply andb_true_iff in Hsame as [? Hk%bool_decide_eq_true]. done.
  - assert (Hnew : forall x, x ∈ s_node d -> ~ same x).
    { intros x Hx [Hu Hk]. pose proof (proj1 (first_node_none _ _ _) E1 x Hx) as Hf. destruct Hd as [_ Hn].
      rewrite Forall_forall in Hn. rewrite same_node_key, Hu, bool_decide_eq_true_2 in Hf by auto. done. }
    destruct (first_node (fun x => negb (n_used x)) (s_node d) 0) as [i|] eqn:E2.
    + destruct (add_fresh d class compat bus loc i) as (d' & -> & Hd' & Hi & ->); try done.
      { intros x Hx Hu Hk. by apply (Hnew x Hx). }
      split; [done|]. right. split; [done|]. left. split; [done|].
      destruct (first_node_spec _ _ _ _ E2) as (_ & x & Hx & _). rewrite Z.sub_0_r in Hx.
      rewrite Hx. simpl. split; [by rewrite (free_unused d i x)|]. split; [done|].
      unfold pm_metal_dt_count_class. rewrite (proj2 (Z.leb_gt class 0)), (proj2 (Z.leb_gt 16 class)) by lia. simpl.
      unfold class_count at 1. simpl. rewrite class_count_set; [by rewrite decide_True|apply Hd|done..].
    + assert (Eadd : pm_metal_dt_add d class compat bus loc = (-1, d)).
      { unfold pm_metal_dt_add. rewrite Ha, E1, E2, (proj2 (Z.leb_gt _ _)), (proj2 (Z.leb_gt _ _)) by lia.
        by destruct (_ || _). }
      rewrite Eadd. split; [done|]. right. split; [done|]. right. do 2 (split; [done|]). intros x Hx.
      pose proof (proj1 (first_node_none _ _ _) E2 x Hx) as Hf. by apply negb_false_iff in Hf.
Qed.

(** A name of 32 bytes or more is stored truncated but compared whole, so
    adding it again is not recognised: the second add takes another slot. *)
Lemma dt_add_long_name_duplicates (d : dt) (class bus : Z) (compat loc : list Z)
    (Hd : dt_inv d) (Ha : s_arena d = true) (Hc : 0 < class < 16) (Hs : no_nul compat)
    (Hlong : (DT_COMPAT <= length compat)%nat) :
  let '(i, d1) := pm_metal_dt_add d class compat bus loc in
  0 <= i -> n_used <$> s_node d !! Z.to_nat i = Some false /\ fst (pm_metal_dt_add d1 class compat bus loc) <> i.
Proof.
  assert (Hne : compat <> []) by (intros ->; simpl in Hlong; unfold DT_COMPAT in Hlong; lia).
  assert (Hno : forall d', dt_inv d' -> first_node (same_node class compat bus loc) (s_node d') 0 = None).
  { intros d' [_ Hn]. apply first_node_none. intros x Hx. rewrite Forall_forall in Hn. specialize (Hn x Hx).
    rewrite same_node_key by done. destruct (n_used x) eqn:Hu; [|done]. apply bool_decide_eq_false_2. unfold key.
    destruct (Hn Hu) as (_ & s & z & E & Hs' & Hl). rewrite E. intros [= _ Hk _ _].
    assert (cstr (s ++ repeat 0 (S z)) = s) as Hcs by by apply cstr_nul. simpl in Hcs. rewrite Hcs in Hk. subst. lia. }
  assert (Hadd : forall d', dt_inv d' -> s_arena d' = true -> forall j d2, pm_metal_dt_add d' class compat bus loc = (j, d2) ->
    0 <= j -> first_node (fun x => negb (n_used x)) (s_node d') 0 = Some j).
  { intros d' Hd' Ha' j d2. unfold pm_metal_dt_add. rewrite Hno by done. destruct (_ || _); [intros [= <- <-]; lia|].
    case_match; intros [= <- <-]; [done|lia]. }
  destruct (pm_metal_dt_add d class compat bus loc) as [i d1] eqn:E. intros Hi.
  pose proof (Hadd d Hd Ha _ _ E Hi) as Hf. destruct (first_node_spec _ _ _ _ Hf) as (_ & x & Hx & _). rewrite Z.sub_0_r in Hx.
  split; [rewrite Hx; simpl; by rewrite (free_unused d i x)|].
  destruct (add_fresh d class compat bus loc i) as (d1' & E' & Hd1 & Hr & ->); try done.
  { intros y Hy Hu Hk. pose proof (proj1 (first_node_none _ _ _) (Hno d Hd) y Hy) as Hk'. destruct Hd as [_ Hn].
    rewrite Forall_forall in Hn. rewrite same_node_key, Hu, bool_decide_eq_true_2 in Hk' by auto. done. }
  rewrite E in E'. injection E' as ->. intros Hij.
  pose proof (Hadd _ Hd1 eq_refl _ _ (surjective_pairing _)) as Hf2. rewrite Hij in Hf2. specialize (Hf2 Hi).
  by pose proof (free_unused (DtSt _ _ _) i _ Hf2 (list_lookup_insert_eq _ _ _ (lookup_lt_Some _ _ _ Hx))).
Qed.

(** [dt_unbind] frees a used slot and counts its class down, keeping the
    invariant, and refuses any other id unchanged. *)
Theorem dt_unbind_spec (d : dt) (id : Z) (Hd : dt_inv d) :
  let '(rc, d') := pm_metal_dt_unbind d id in
  dt_inv d' /\ node_of d' id = None /\
  match node_of d id with
  | None => rc = -1 /\ d' = d
  | Some x => rc = 0 /\ s_node d' = <[Z.to_nat id := zero_node]> (s_node d) /\
              pm_metal_dt_count_class d' (n_class x) = pm_metal_dt_count_class d (n_class x) - 1
  end.
Proof.
  unfold pm_metal_dt_unbind. destruct (node_of d id) as [x|] eqn:Ex; [|by split; [|split]].
  unfold node_of in Ex. destruct (_ || _) eqn:Eb; [done|]. breflect.
  destruct (s_node d !! Z.to_nat id) as [y|] eqn:Hy; [|done]. destruct (n_used y) eqn:Hu; simplify_eq.
  destruct Hd as [Hd Hn]. pose proof (dk_class _ Hd _ _ Hy Hu) as Hcl.
  pose proof (count_pos (n_class x) _ _ _ Hy ltac:(unfold of_class; by rewrite Hu, Z.eqb_refl)) as Hpos.
  rewrite <- (dk_count _ Hd) in Hpos by done. rewrite (proj2 (Z.eqb_neq _ 0)) by lia. simpl. split; [|split].
  - eapply dt_inv_replace; [by split|exact Hy|done| |].
    + unfold set_class_count. by rewrite length_insert, (dk_counts _ Hd).
    + intros c Hc. rewrite class_count_set; [|apply Hd|lia..]. unfold of_class at 1 2. rewrite Hu. simpl.
      case_decide; subst; [rewrite Z.eqb_refl; simpl; lia|]. rewrite (proj2 (Z.eqb_neq _ _)) by done. simpl. unfold class_count. lia.
  - unfold node_of. simpl. destruct (_ || _); [done|]. rewrite list_lookup_insert_eq; [done|]. by eapply lookup_lt_Some.
  - split; [done|]. split; [done|]. unfold pm_metal_dt_count_class.
    rewrite (proj2 (Z.leb_gt _ 0)), (proj2 (Z.leb_gt 16 _)) by lia. simpl. unfold class_count at 1. simpl.
    rewrite class_count_set; [by rewrite decide_True|apply Hd|done..].
Qed.

(** Unit numbers are the class counter at the time of the add, so after
    an unbind two live nodes of one class can carry the same unit. *)
Lemma dt_units_collide :
  let d0 := snd (pm_metal_dt_init true (DtSt false [] [])) in
  let '(a, d1) := pm_metal_dt_add d0 1 [101] 0 [1; 0; 0; 0] in
  let '(b, d2) := pm_metal_dt_add d1 1 [101] 0 [2; 0; 0; 0] in
  let '(_, d3) := pm_metal_dt_unbind d2 a in
  let '(c, d4) := pm_metal_dt_add d3 1 [101] 0 [3; 0; 0; 0] in
  b <> c /\ pm_metal_dt_class d4 b = 1 /\ pm_metal_dt_class d4 c = 1 /\ pm_metal_dt_unit d4 b = pm_metal_dt_unit d4 c.
Proof. vm_compute. repeat split; discriminate. Qed.

(** ** Witnesses *)

Definition empty_dt : dt := DtSt true (repeat zero_node DT_MAX) (repeat 0 16).

Lemma count_zero c n : count_of c (repeat zero_node n) = 0.
Proof. induction n as [|n IH]; [done|]. simpl. lia. Qed.

Lemma empty_inv : dt_inv empty_dt.
Proof.
  split; [constructor|]; unfold empty_dt; cbn [s_node s_class_n s_arena].
  - apply repeat_length.
  - done.
  - intros i x Hx%list_elem_of_lookup_2%list_elem_of_In%repeat_spec. by subst.
  - intros c Hc. rewrite count_zero. unfold class_count; simpl. apply (lookup_total_replicate_2 16 (0:Z)). lia.
  - apply Forall_forall. intros x Hx%list_elem_of_In%repeat_spec. by subst.
Qed.

Definition long_name : list Z := repeat 97 40.
Lemma long_name_ok : no_nul long_name.
Proof. apply Forall_forall. intros x Hx%list_elem_of_In%repeat_spec. subst. lia. Qed.

Lemma dt_add_spec_witness :
  dt_inv (snd (pm_metal_dt_add empty_dt 4 [109] 0 [0; 0; 0; 0])) /\
  fst (pm_metal_dt_add empty_dt 4 [109] 0 [0; 0; 0; 0]) = 0.
Proof.
  split; [|vm_compute; reflexivity].
  refine (proj1 (dt_add_spec empty_dt 4 0 [109] [0; 0; 0; 0] empty_inv eq_refl _ _ _)); [lia| |discriminate].
  constructor; [lia|constructor].
Defined.

Lemma dt_unbind_spec_witness : dt_inv (snd (pm_metal_dt_unbind empty_dt 5)) /\ pm_metal_dt_unbind empty_dt 5 = (-1, empty_dt).
Proof. split; [exact (proj1 (dt_unbind_spec empty_dt 5 empty_inv))|vm_compute; reflexivity]. Defined.

Lemma dt_add_long_name_duplicates_witness :
  n_used <$> s_node empty_dt !! 0%nat = Some false /\
  fst (pm_metal_dt_add (snd (pm_metal_dt_add empty_dt 4 long_name 0 [0; 0; 0; 0])) 4 long_name 0 [0; 0; 0; 0]) <> 0.
Proof.
  refine (dt_add_long_name_duplicates empty_dt 4 0 long_name [0; 0; 0; 0] empty_inv eq_refl _ long_name_ok _ _); [lia| |].
  - apply Nat.leb_le. vm_compute. reflexivity.
  - vm_compute. discriminate.
Defined.
End Dt.
