(* ===== verification/Memmap.v ===== *)
(** * The fw.memmap card: firmware memory maps

    src/.../metal/fw/memmap/__impl__.c.  A map is a byte buffer of 24-byte
    records (size, base, length, type, little endian); every access is checked
    against its buffer, so a definition that returns [Some] never read or wrote
    outside it.  The records feed the device table ([Dt]) and the choice of an
    arena; [pm_util_mem_arena_add_pool] is the arena's, and the calls to it are
    the list that [pm_metal_fw_memmap_add_spare] returns. *)
From S2P Require Import Prelude Dt.

Module Memmap.
Import Dt.

Definition BLOB_MAX := 4096.
Definition EFI_CONVENTIONAL_MEMORY := 7.
Definition MB_MAGIC := 732803074. (* 0x2BADB002 *)

(** ** Little-endian words *)

Definition mmap_u32 (b : list Z) (p : Z) : option Z :=
  b0 ← rd b p; b1 ← rd b (p + 1); b2 ← rd b (p + 2); b3 ← rd b (p + 3);
  Some (Z.lor (Z.lor (Z.lor b0 (Z.shiftl b1 8)) (Z.shiftl b2 16)) (Z.shiftl b3 24)).
Definition mmap_u64 (b : list Z) (p : Z) : option Z :=
  lo ← mmap_u32 b p; hi ← mmap_u32 b (p + 4); Some (Z.lor lo (Z.shiftl hi 32)).

Definition put_u32 (b : list Z) (p v : Z) : option (list Z) :=
  b ← wr b p (u8 v); b ← wr b (p + 1) (u8 (Z.shiftr v 8));
  b ← wr b (p + 2) (u8 (Z.shiftr v 16)); wr b (p + 3) (u8 (Z.shiftr v 24)).
Definition put_u64 (b : list Z) (p v : Z) : option (list Z) :=
  b ← put_u32 b p (u32 v); put_u32 b (p + 4) (u32 (Z.shiftr v 32)).

(** ** State *)

(** [info]: the multiboot words at [s_mb_info]. *)
Record memmap := Mm {
  s_arena : bool; s_mb_magic : Z; s_mb_info : option (list Z);
  s_blob : list Z; s_blob_len : Z; s_kind : Z }.

Definition pm_metal_fw_memmap_init (arena : bool) (m : memmap) : Z * memmap :=
  if negb arena then (-1, m)
  else (0, Mm true (s_mb_magic m) (s_mb_info m) (s_blob m) (s_blob_len m) (s_kind m)).
Definition pm_metal_fw_memmap_deinit (m : memmap) : memmap := Mm false 0 None (s_blob m) 0 0.

Definition CLASS_MEM := 4.
Definition BUS_PLATFORM := 0.
Definition memory_name : list Z := [109; 101; 109; 111; 114; 121].

Definition pm_metal_fw_memmap_add (arena : bool) (d : dt) (base_lo base_hi len_lo len_hi : Z) : Z * dt :=
  if negb arena || ((len_lo =? 0) && (len_hi =? 0)) then (-1, d)
  else pm_metal_dt_add d CLASS_MEM memory_name BUS_PLATFORM [base_lo; base_hi; len_lo; len_hi].
Definition pm_metal_fw_memmap_count (d : dt) : Z := pm_metal_dt_count_class d CLASS_MEM.

(** ** Walking a map *)

(** One record: its five words, as [load_mmap], [pick] and [add_spare] read it. *)
Record ent := Ent { e_sz : Z; e_type : Z; e_base : Z; e_len : Z }.

Definition read_ent (b : list Z) (p : Z) : option ent :=
  sz ← mmap_u32 b p; ty ← mmap_u32 b (p + 20); base ← mmap_u64 b (p + 4); len ← mmap_u64 b (p + 12);
  Some (Ent sz ty base len).

(** The records the shared [while (p + 24 <= end)] loop visits. *)
Fixpoint map_walk (fuel : nat) (b : list Z) (p bytes : Z) : option (list ent) :=
  match fuel with
  | O => None
  | S f =>
      if p + 24 <=? bytes then
        e ← read_ent b p;
        let step := u32 (e_sz e + 4) in
        if step <? 24 then Some [e] else es ← map_walk f b (p + step) bytes; Some (e :: es)
      else Some []
  end.
Definition map_ents (b : list Z) (bytes : Z) : option (list ent) := map_walk (S (Z.to_nat bytes)) b 0 bytes.

Definition usable (e : ent) : bool := (e_type e =? 1) && negb (e_len e =? 0).

Fixpoint load_ents (arena : bool) (d : dt) (n : Z) (es : list ent) : option Z * dt :=
  match es with
  | [] => (Some n, d)
  | e :: es' =>
      if usable e then
        let '(rc, d') := pm_metal_fw_memmap_add arena d (u32 (e_base e)) (Z.shiftr (e_base e) 32) (u32 (e_len e)) (Z.shiftr (e_len e) 32) in
        if rc <? 0 then (None, d') else load_ents arena d' (n + 1) es'
      else load_ents arena d n es'
  end.

Definition pm_metal_fw_memmap_load_mmap (arena : bool) (d : dt) (mmap : option (list Z)) (bytes : Z) : option (Z * dt) :=
  match mmap with
  | None => Some (-1, d)
  | Some b => if negb arena || (bytes <? 24) then Some (-1, d) else
      es ← map_ents b bytes;
      match load_ents arena d 0 es with
      | (None, d') => Some (-1, d')
      | (Some n, d') => Some (if 0 <? n then 0 else -1, d')
      end
  end.

(** ** EFI maps *)

Definition rec_copy (b : list Z) (dst src : Z) : option (list Z) := r ← slice b src 24; blit b dst r.

(** The inner [while] of the insertion sort. *)
Fixpoint sort_shift (fuel : nat) (b : list Z) (j key : Z) : option (list Z * Z) :=
  match fuel with
  | O => None
  | S f => if 24 <=? j then
             prev ← mmap_u64 b (j - 24 + 4);
             if key <? prev then b' ← rec_copy b j (j - 24); sort_shift f b' (j - 24) key else Some (b, j)
           else Some (b, j)
  end.

Fixpoint sort_loop (fuel : nat) (b : list Z) (i n : Z) : option (list Z) :=
  match fuel with
  | O => None
  | S f => if i <? n then
             tmp ← slice b i 24; key ← mmap_u64 tmp 4;
             '(b', j) ← sort_shift (S (Z.to_nat i)) b i key;
             b'' ← blit b' j tmp; sort_loop f b'' (i + 24) n
           else Some b
  end.

Fixpoint merge_loop (fuel : nat) (b tmp : list Z) (i w n : Z) : option (list Z * list Z * Z) :=
  match fuel with
  | O => None
  | S f => if i <? n then
             a0 ← mmap_u64 tmp 4; al ← mmap_u64 tmp 12;
             b0 ← mmap_u64 b (i + 4); bl ← mmap_u64 b (i + 12);
             let a1 := u64 (a0 + al) in let b1 := u64 (b0 + bl) in
             if b0 <=? a1 then
               if a1 <? b1 then tmp' ← put_u64 tmp 12 (u64 (b1 - a0)); merge_loop f b tmp' (i + 24) w n
               else merge_loop f b tmp (i + 24) w n
             else b' ← blit b w tmp; tmp' ← slice b' i 24; merge_loop f b' tmp' (i + 24) (w + 24) n
           else Some (b, tmp, w)
  end.

Definition blob_sort_merge (b : list Z) (n : Z) : option (list Z * Z) :=
  if n <? 48 then Some (b, n) else
  b ← sort_loop (S (Z.to_nat n)) b 24 n;
  tmp ← slice b 0 24;
  '(b, tmp, w) ← merge_loop (S (Z.to_nat n)) b tmp 24 0 n;
  b ← blit b w tmp; Some (b, w + 24).

(** The conversion loop of [feed_efi]: pointer [p], blob and [n]. *)
Fixpoint efi_loop (fuel : nat) (map : list Z) (desc_size bytes p : Z) (blob : list Z) (n : Z) : option (list Z * Z) :=
  match fuel with
  | O => None
  | S f =>
      if (p + desc_size <=? bytes) && (n + 24 <=? BLOB_MAX) then
        type ← mmap_u32 map p; phys ← mmap_u64 map (p + 8); pages ← mmap_u64 map (p + 24);
        let len := u64 (Z.shiftl pages 12) in
        if (type =? EFI_CONVENTIONAL_MEMORY) && (32 * 1024 <=? len) then
          blob ← put_u32 blob n 20; blob ← put_u64 blob (n + 4) phys;
          blob ← put_u64 blob (n + 12) len; blob ← put_u32 blob (n + 20) 1;
          efi_loop f map desc_size bytes (p + desc_size) blob (n + 24)
        else efi_loop f map desc_size bytes (p + desc_size) blob n
      else Some (blob, n)
  end.

Definition pm_metal_fw_memmap_feed_efi (m : memmap) (map : option (list Z)) (desc_size bytes : Z) : option (Z * memmap) :=
  match map with
  | None => Some (-1, m)
  | Some b => if (desc_size <? 32) || (bytes <? desc_size) then Some (-1, m) else
      '(blob, n) ← efi_loop (S (Z.to_nat bytes)) b desc_size bytes 0 (s_blob m) 0;
      if n <? 24 then Some (-1, Mm (s_arena m) (s_mb_magic m) (s_mb_info m) blob (s_blob_len m) (s_kind m)) else
      '(blob, n) ← blob_sort_merge blob n;
      Some (0, Mm (s_arena m) 0 None blob n 2)
  end.

Definition pm_metal_fw_memmap_load_efi (m : memmap) (d : dt) (map : option (list Z)) (desc_size bytes : Z) : option (Z * memmap * dt) :=
  '(rc, m) ← pm_metal_fw_memmap_feed_efi m map desc_size bytes;
  if negb (rc =? 0) then Some (-1, m, d) else
  '(rc, d) ← pm_metal_fw_memmap_load_mmap (s_arena m) d (Some (s_blob m)) (s_blob_len m); Some (rc, m, d).

Definition pm_metal_fw_memmap_feed (m : memmap) (magic : Z) (info : option (list Z)) : Z * memmap :=
  (0, Mm (s_arena m) magic info (s_blob m) 0 1).

Definition pm_metal_fw_memmap_feed_mmap (m : memmap) (mmap : option (list Z)) (bytes : Z) : option (Z * memmap) :=
  match mmap with
  | None => Some (-1, m)
  | Some src => if (bytes <? 24) || (BLOB_MAX <? bytes) then Some (-1, m) else
      s ← slice src 0 bytes; blob ← blit (s_blob m) 0 s;
      Some (0, Mm (s_arena m) 0 None blob bytes 2)
  end.

(** ** Choosing the arena *)

Definition align_up_u64 (x a : Z) : Z := Z.land (u64 (x + (a - 1))) (u64 (Z.lnot (a - 1))).

Definition consider (r0 r1 : Z) (best : Z * Z) : Z * Z :=
  if r1 <=? r0 then best else
  let a := align_up_u64 r0 4096 in
  if r1 <=? a then best else
  let n := r1 - a in
  if n <? 32 * 1024 then best else
  if snd best <? n then (a, n) else best.

Definition pick_ent (lo hi : Z) (best : Z * Z) (e : ent) : Z * Z :=
  let base := e_base e in let r1 := u64 (e_base e + e_len e) in
  if usable e then
    if (hi <=? lo) || (r1 <=? lo) || (hi <=? base) then consider base r1 best
    else
      let best := consider base (if lo <? r1 then lo else r1) best in
      consider (if base <? hi then hi else base) r1 best
  else best.

Section WithPhys.
(** [mem_at a]: the bytes that lie at physical address [a]. *)
Variable mem_at : Z -> list Z.

Definition fed_mmap (m : memmap) : option (option (list Z * Z)) :=
  if s_kind m =? 2 then Some (Some (s_blob m, s_blob_len m)) else
  if s_kind m =? 1 then
    match s_mb_info m with
    | Some w => if negb (s_mb_magic m =? MB_MAGIC) then Some None else
        w0 ← rd w 0;
        if Z.land w0 (Z.shiftl 1 6) =? 0 then Some None else
        w11 ← rd w 11; w12 ← rd w 12; Some (Some (mem_at w12, w11))
    | None => Some None
    end
  else Some None.

Definition pm_metal_fw_memmap_load_mb (arena : bool) (d : dt) (magic : Z) (info : option (list Z)) : option (Z * dt) :=
  match info with
  | None => Some (-1, d)
  | Some w => if negb (magic =? MB_MAGIC) then Some (-1, d) else
      w0 ← rd w 0;
      if Z.land w0 (Z.shiftl 1 6) =? 0 then Some (-1, d) else
      w11 ← rd w 11; w12 ← rd w 12; pm_metal_fw_memmap_load_mmap arena d (Some (mem_at w12)) w11
  end.

(** [(rc, base, len)]. *)
Definition pm_metal_fw_memmap_pick (m : memmap) (avoid_lo avoid_hi want : Z) : option (option (Z * Z)) :=
  fed ← fed_mmap m;
  match fed with
  | None => Some None
  | Some (b, bytes) =>
      if bytes <? 24 then Some None else
      let avoid_hi := if avoid_hi <? avoid_lo then avoid_lo else avoid_hi in
      es ← map_ents b bytes;
      let '(best_base, best_src) := foldl (pick_ent avoid_lo avoid_hi) (0, 0) es in
      if best_src =? 0 then Some None else
      Some (Some (best_base, if negb (want =? 0) && (want <? best_src) then want else best_src))
  end.

(** ** Spare pools *)

Definition SPARE_MIN := 256 * 1024.
Definition SPARE_FLOOR := 16 * 1024 * 1024.

(** The pool handed to the arena, if any.  [ptr_max] and [size_max] are
    [(uintptr_t)-1] and [(size_t)-1]. *)
Variables ptr_max size_max : Z.
Definition spare_take (r0 r1 : Z) : list (Z * Z) :=
  if r1 <=? r0 then [] else
  let r0 := align_up_u64 r0 4096 in
  let r0 := if r0 <? SPARE_FLOOR then SPARE_FLOOR else r0 in
  if r1 <=? r0 then [] else
  let n := r1 - r0 in
  if n <? SPARE_MIN then [] else
  if (ptr_max <? r0) || (size_max <? n) then [] else [(r0, n)].

Fixpoint spare_apply (r0 r1 : Z) (cuts : list (Z * Z)) : list (Z * Z) :=
  if r1 <=? r0 then [] else
  match cuts with
  | [] => spare_take r0 r1
  | (clo, chi) :: cuts' =>
      if (chi <=? clo) || (r1 <=? clo) || (chi <=? r0) then spare_apply r0 r1 cuts'
      else spare_apply r0 (if clo <? r1 then clo else r1) cuts' ++ spare_apply (if r0 <? chi then chi else r0) r1 cuts'
  end.

(** [sp]: the stack pointer. *)
Definition stack_cut (sp : Z) : Z * Z :=
  if sp =? 0 then (0, 0)
  else (if 1048576 <? sp then sp - 1048576 else 0, u64 (sp + 65536)).

Definition spare_punch (sp r0 r1 used_lo used_hi : Z) : list (Z * Z) :=
  spare_apply r0 r1 [(used_lo, used_hi); stack_cut sp].

Definition spare_ent (sp lo hi used_lo used_hi : Z) (e : ent) : list (Z * Z) :=
  let base := e_base e in let r1 := u64 (e_base e + e_len e) in
  if usable e then
    if (hi <=? lo) || (r1 <=? lo) || (hi <=? base) then spare_punch sp base r1 used_lo used_hi
    else spare_punch sp base (if lo <? r1 then lo else r1) used_lo used_hi
      ++ spare_punch sp (if base <? hi then hi else base) r1 used_lo used_hi
  else [].

Definition pm_metal_fw_memmap_add_spare (m : memmap) (arena : bool) (sp avoid_lo avoid_hi used_lo used_hi : Z) : option (Z * list (Z * Z)) :=
  if negb arena then Some (-1, []) else
  fed ← fed_mmap m;
  match fed with
  | None => Some (0, [])
  | Some (b, bytes) =>
      if bytes <? 24 then Some (0, []) else
      let avoid_hi := if avoid_hi <? avoid_lo then avoid_lo else avoid_hi in
      let used_hi := if used_hi <? used_lo then used_lo else used_hi in
      es ← map_ents b bytes;
      Some (0, es ≫= spare_ent sp avoid_lo avoid_hi used_lo used_hi)
  end.

Definition pm_metal_fw_memmap_probe (m : memmap) (d : dt) : option (Z * dt) :=
  if negb (s_arena m) then Some (-1, d) else
  if s_kind m =? 0 then Some (0, d) else
  '(rc, d) ← (if s_kind m =? 1 then pm_metal_fw_memmap_load_mb (s_arena m) d (s_mb_magic m) (s_mb_info m)
              else pm_metal_fw_memmap_load_mmap (s_arena m) d (Some (s_blob m)) (s_blob_len m));
  if negb (rc =? 0) then Some (-1, d) else
  Some (if 0 <? pm_metal_fw_memmap_count d then 0 else -1, d).
End WithPhys.
End Memmap.
