(* ===== verification/MemmapSort.v ===== *)
(** * Sorting and merging a memory map

    [blob_sort_merge] works in place on bytes.  Here it is related to a list of
    records: insertion sort by base, then one merging pass; the result is
    sorted, its ranges are apart, and it covers the same addresses. *)
From Stdlib Require Import Sorted.
From S2P Require Import Prelude Memmap.

Module MemmapSort.
Import Memmap.

(** ** Little-endian bytes *)

Fixpoint le (n : nat) (v : Z) : list Z :=
  match n with O => [] | S n' => u8 v :: le n' (Z.shiftr v 8) end.

Lemma le_length n v : length (le n v) = n.
Proof. revert v. induction n; simpl; auto. Qed.
Lemma le_bytes n v : bytes_ok (le n v).
Proof. revert v. induction n; simpl; intros; constructor; auto with metal. Qed.

Lemma four {A} (s : list A) : zlen s = 4 -> exists x y z t, s = [x; y; z; t].
Proof. intros H. destruct s as [|x [|y [|z [|t [|]]]]]; simpl in H; try lia. by exists x, y, z, t. Qed.

Lemma put_u32_blit b p v : 0 <= p -> p + 4 <= zlen b -> put_u32 b p v = blit b p (le 4 v).
Proof.
  intros Hp Hl. destruct (split_at b p) as (a & c & -> & <-); [lia|]. rewrite length_app in Hl.
  destruct (split_at c 4) as (s & c' & -> & Hs); [lia|]. destruct (four s Hs) as (x & y & z & t & ->).
  rewrite blit_mid by done. unfold put_u32. simpl app.
  assert (E : forall pre w u d i, i = zlen a + zlen pre -> wr (a ++ pre ++ w :: d) i u = Some (a ++ pre ++ u :: d))
    by (intros; by apply wr_mid).
  pose proof (E [] x (u8 v) (y :: z :: t :: c') (zlen a) ltac:(simpl; lia)) as E0. simpl in E0. rewrite E0. simpl.
  pose proof (E [u8 v] y (u8 (Z.shiftr v 8)) (z :: t :: c') (zlen a + 1) ltac:(simpl; lia)) as E1. simpl in E1. rewrite E1. simpl.
  pose proof (E [u8 v; u8 (Z.shiftr v 8)] z (u8 (Z.shiftr v 16)) (t :: c') (zlen a + 2) ltac:(simpl; lia)) as E2.
  simpl in E2. rewrite E2. simpl.
  pose proof (E [u8 v; u8 (Z.shiftr v 8); u8 (Z.shiftr v 16)] t (u8 (Z.shiftr v 24)) c' (zlen a + 3) ltac:(simpl; lia)) as E3.
  simpl in E3. rewrite E3.
  by rewrite !Z.shiftr_shiftr by lia.
Qed.

Lemma le_u32 v : le 4 (u32 v) = le 4 v.
Proof.
  assert (H : forall k, 0 <= k <= 24 -> u8 (Z.shiftr (u32 v) k) = u8 (Z.shiftr v k)).
  { intros k Hk. unfold u8, u32. change 256 with (2 ^ 8). change 4294967296 with (2 ^ 32).
    rewrite <- !Z.land_ones by lia. apply Z.bits_inj_iff'. intros i Hi.
    rewrite !Z.land_spec, !Z.shiftr_spec, Z.land_spec, !Z.testbit_ones_nonneg by lia.
    destruct (Z.ltb_spec i 8); [|by rewrite !andb_false_r]. by rewrite (proj2 (Z.ltb_lt (i + k) 32)), !andb_true_r by lia. }
  simpl. rewrite !Z.shiftr_shiftr by lia. simpl. pose proof (H 0 ltac:(lia)) as H0. rewrite !Z.shiftr_0_r in H0.
  by rewrite H0, !H by lia.
Qed.

Lemma le_8_split v : le 8 v = le 4 v ++ le 4 (Z.shiftr v 32).
Proof.
  change (le 8 v) with (le 4 v ++ le 4 (Z.shiftr (Z.shiftr (Z.shiftr (Z.shiftr v 8) 8) 8) 8)).
  by rewrite (Z.shiftr_shiftr v 8 8), (Z.shiftr_shiftr v (8 + 8) 8), (Z.shiftr_shiftr v (8 + 8 + 8) 8) by lia.
Qed.

Lemma put_u64_blit b p v : 0 <= p -> p + 8 <= zlen b -> put_u64 b p v = blit b p (le 8 v).
Proof.
  intros Hp Hl. unfold put_u64. rewrite put_u32_blit by lia. rewrite le_u32.
  rewrite le_8_split, <- blit_blit by (rewrite ?le_length; lia). rewrite !le_length.
  destruct (blit b p (le 4 v)) as [b'|] eqn:E; [|done]. simpl. apply blit_length in E.
  rewrite put_u32_blit by lia. by rewrite le_u32.
Qed.

(** The value of four bytes. *)
Lemma lor_shift8 x y k n : 0 <= k -> 0 <= n -> 0 <= x < 2 ^ k -> 0 <= y < 2 ^ n ->
  Z.lor x (Z.shiftl y k) = x + y * 2 ^ k /\ 0 <= Z.lor x (Z.shiftl y k) < 2 ^ (k + n).
Proof. intros Hk Hn Hx Hy. rewrite lor_disjoint_add, Z.pow_add_r by lia. split; [done|]. nia. Qed.

Definition num4 (x y z t : Z) : Z := x + y * 256 + z * 65536 + t * 16777216.

Lemma mmap_u32_val x y z t s :
  bytes_ok [x; y; z; t] -> mmap_u32 (x :: y :: z :: t :: s) 0 = Some (num4 x y z t) /\ 0 <= num4 x y z t < 4294967296.
Proof.
  intros Hb. unfold is_byte in Hb. rewrite !Forall_cons in Hb. destruct Hb as (Hx & Hy & Hz & Ht & _).
  assert (E1 : Z.lor x (Z.shiftl y 8) = x + y * 256) by (by rewrite lor_disjoint_add by lia).
  assert (E2 : Z.lor (x + y * 256) (Z.shiftl z 16) = x + y * 256 + z * 65536) by (rewrite lor_disjoint_add by lia; done).
  assert (E3 : Z.lor (x + y * 256 + z * 65536) (Z.shiftl t 24) = num4 x y z t) by (rewrite lor_disjoint_add by lia; done).
  unfold mmap_u32, rd. simpl. rewrite E1, E2, E3. split; [done|]. unfold num4. lia.
Qed.

Lemma le_4_num v : 0 <= v < 4294967296 ->
  num4 (u8 v) (u8 (Z.shiftr v 8)) (u8 (Z.shiftr v 16)) (u8 (Z.shiftr v 24)) = v.
Proof.
  intros Hv. unfold num4, u8. rewrite !Z.shiftr_div_pow2 by lia.
  change (2 ^ 8) with 256. change (2 ^ 16) with 65536. change (2 ^ 24) with 16777216. mlia.
Qed.

Lemma mmap_u32_mid a s c o : 0 <= o -> o + 4 <= zlen s -> mmap_u32 (a ++ s ++ c) (zlen a + o) = mmap_u32 s o.
Proof.
  intros H0 Hl. unfold mmap_u32. rewrite <- !Z.add_assoc, !rd_mid by lia. done.
Qed.
Lemma mmap_u64_mid a s c o : 0 <= o -> o + 8 <= zlen s -> mmap_u64 (a ++ s ++ c) (zlen a + o) = mmap_u64 s o.
Proof. intros H0 Hl. unfold mmap_u64. rewrite <- Z.add_assoc, !mmap_u32_mid by lia. done. Qed.

Lemma mmap_u32_some b p : bytes_ok b -> 0 <= p -> p + 4 <= zlen b -> exists v, mmap_u32 b p = Some v /\ 0 <= v < 4294967296.
Proof.
  intros Hb Hp Hl. destruct (split_at b p) as (a & c & -> & <-); [lia|]. rewrite length_app in Hl.
  destruct (split_at c 4) as (s & c' & -> & Hs); [lia|]. destruct (four s Hs) as (x & y & z & t & ->).
  apply Forall_app in Hb as [_ [Hb _]%Forall_app]. exists (num4 x y z t). rewrite <- (Z.add_0_r (zlen a)).
  rewrite mmap_u32_mid by (simpl; lia). by apply mmap_u32_val.
Qed.

Lemma mmap_u64_some b p : bytes_ok b -> 0 <= p -> p + 8 <= zlen b ->
  exists v, mmap_u64 b p = Some v /\ 0 <= v < 18446744073709551616.
Proof.
  intros Hb Hp Hl. destruct (mmap_u32_some b p) as (lo & E1 & Hlo); [done|lia..|].
  destruct (mmap_u32_some b (p + 4)) as (hi & E2 & Hhi); [done|lia..|]. unfold mmap_u64. rewrite E1, E2. simpl.
  exists (Z.lor lo (Z.shiftl hi 32)). split; [done|]. rewrite lor_disjoint_add by lia. change (2 ^ 32) with 4294967296. lia.
Qed.

Lemma mmap_u32_le v s : 0 <= v < 4294967296 -> mmap_u32 (le 4 v ++ s) 0 = Some v.
Proof.
  intros Hv. cbn [le app]. rewrite !Z.shiftr_shiftr by lia. change (8 + 8) with 16; change (16 + 8) with 24.
  destruct (mmap_u32_val (u8 v) (u8 (Z.shiftr v 8)) (u8 (Z.shiftr v 16)) (u8 (Z.shiftr v 24)) s) as [E _].
  - repeat constructor; apply u8_range.
  - rewrite E. f_equal. by apply le_4_num.
Qed.

Lemma mmap_u64_le a v s : 0 <= v < 18446744073709551616 -> mmap_u64 (a ++ le 8 v ++ s) (zlen a) = Some v.
Proof.
  intros Hv. rewrite <- (Z.add_0_r (zlen a)), mmap_u64_mid by (rewrite ?le_length; lia).
  unfold mmap_u64. rewrite le_8_split, <- (le_u32 v). set (hi := Z.shiftr v 32).
  assert (Hhi : 0 <= hi < 4294967296).
  { unfold hi. rewrite Z.shiftr_div_pow2 by lia. change (2 ^ 32) with 4294967296. mlia. }
  pose proof (mmap_u32_mid (le 4 (u32 v)) (le 4 hi) [] 0 ltac:(lia) ltac:(simpl; lia)) as E.
  rewrite app_nil_r in E. change (zlen (le 4 (u32 v)) + 0) with 4 in E. change (0 + 4) with 4.
  rewrite E, mmap_u32_le by apply u32_range. rewrite <- (app_nil_r (le 4 hi)), mmap_u32_le by done.
  change (Some (Z.lor (u32 v) (Z.shiftl hi 32)) = Some v). f_equal.
  rewrite lor_disjoint_add by (try apply u32_range; lia). unfold hi, u32. rewrite Z.shiftr_div_pow2 by lia.
  change (2 ^ 32) with 4294967296. mlia.
Qed.

(** ** Records *)

Definition is_rec (r : list Z) : Prop := length r = 24%nat /\ bytes_ok r.
Definition rbase (r : list Z) : Z := default 0 (mmap_u64 r 4).
Definition rlen (r : list Z) : Z := default 0 (mmap_u64 r 12).
Definition rend (r : list Z) : Z := rbase r + rlen r.

Lemma rbase_read r : is_rec r -> mmap_u64 r 4 = Some (rbase r) /\ 0 <= rbase r < 18446744073709551616.
Proof. intros [Hl Hb]. destruct (mmap_u64_some r 4) as (v & E & Hv); [done|lia|rewrite Hl; lia|]. unfold rbase. by rewrite E. Qed.
Lemma rlen_read r : is_rec r -> mmap_u64 r 12 = Some (rlen r) /\ 0 <= rlen r < 18446744073709551616.
Proof. intros [Hl Hb]. destruct (mmap_u64_some r 12) as (v & E & Hv); [done|lia|rewrite Hl; lia|]. unfold rlen. by rewrite E. Qed.

(** Writing a record's length word. *)
Lemma put_len r v : is_rec r -> 0 <= v < 18446744073709551616 ->
  exists r', put_u64 r 12 v = Some r' /\ is_rec r' /\ rbase r' = rbase r /\ rlen r' = v.
Proof.
  intros [Hl Hb] Hv. rewrite put_u64_blit by (rewrite ?Hl; lia).
  destruct (split_at r 12) as (a & c & -> & Ha); [lia|]. rewrite length_app in Hl.
  destruct (split_at c 8) as (s & c' & -> & Hs); [lia|]. rewrite <- Ha. rewrite blit_mid by (rewrite le_length; lia).
  eexists. split; [done|]. apply Forall_app in Hb as [Hb1 [_ Hb2]%Forall_app]. split; [split|split].
  - rewrite !length_app in *. rewrite le_length. lia.
  - apply Forall_app. split; [done|]. apply Forall_app. split; [apply le_bytes|done].
  - unfold rbase. pose proof (mmap_u64_mid [] a (s ++ c') 4 ltac:(lia) ltac:(lia)) as E1. 
    pose proof (mmap_u64_mid [] a (le 8 v ++ c') 4 ltac:(lia) ltac:(lia)) as E2. change (zlen [] + 4) with 4 in E1, E2. cbn [app] in E1, E2. by rewrite E1, E2.
  - unfold rlen. rewrite <- Ha, mmap_u64_le by done. done.
Qed.

(** A blob of records followed by other bytes. *)
Abbreviation blob R rest := (concat R ++ rest).

Lemma concat_length R : Forall is_rec R -> zlen (concat R) = 24 * zlen R.
Proof. induction 1 as [|r R [Hr _] _ IH]; simpl; [done|]. rewrite length_app, Hr. lia. Qed.

Lemma blob_mid (A : list (list Z)) r C rest : blob (A ++ r :: C) rest = concat A ++ r ++ blob C rest.
Proof. rewrite concat_app. simpl. by rewrite <- !(assoc_L (++)). Qed.

Section Mid.
Context (A C : list (list Z)) (r : list Z) (rest : list Z) (HA : Forall is_rec A) (Hr : is_rec r).

Lemma rec_slice : slice (blob (A ++ r :: C) rest) (24 * zlen A) 24 = Some r.
Proof. rewrite blob_mid, <- concat_length by done. apply slice_mid. destruct Hr as [-> _]. done. Qed.
Lemma rec_blit r' : is_rec r' -> blit (blob (A ++ r :: C) rest) (24 * zlen A) r' = Some (blob (A ++ r' :: C) rest).
Proof. intros [Hr' _]. rewrite !blob_mid, <- concat_length by done. apply blit_mid. destruct Hr as [-> _]. done. Qed.
Lemma rec_base : mmap_u64 (blob (A ++ r :: C) rest) (24 * zlen A + 4) = Some (rbase r).
Proof. rewrite blob_mid, <- concat_length by done. rewrite mmap_u64_mid; [by apply rbase_read|lia|destruct Hr as [-> _]; lia]. Qed.
Lemma rec_len : mmap_u64 (blob (A ++ r :: C) rest) (24 * zlen A + 12) = Some (rlen r).
Proof. rewrite blob_mid, <- concat_length by done. rewrite mmap_u64_mid; [by apply rlen_read|lia|destruct Hr as [-> _]; lia]. Qed.
End Mid.

(** ** Insertion sort *)

Definition by_base (r s : list Z) : Prop := rbase r <= rbase s.

Lemma sort_shift_spec pre h post rest key n :
  Forall is_rec pre -> is_rec h -> (length pre < n)%nat ->
  exists pre1 moved h', pre = pre1 ++ moved /\ is_rec h' /\
    sort_shift n (blob (pre ++ h :: post) rest) (24 * zlen pre) key =
      Some (blob (pre1 ++ h' :: moved ++ post) rest, 24 * zlen pre1) /\
    Forall (fun r => key < rbase r) moved /\ (forall r, List.last pre1 h = r -> pre1 <> [] -> rbase r <= key).
Proof.
  revert h post n. induction pre as [|y pre IH] using rev_ind; intros h post n Hpre Hh Hn.
  - exists [], [], h. split; [done|]. split; [done|]. split; [|done]. destruct n as [|n]; [simpl in Hn; lia|]. reflexivity.
  - destruct n as [|n]; [lia|]. rewrite length_app in Hn. simpl in Hn.
    apply Forall_app in Hpre as [Hpre Hy]. rewrite Forall_singleton in Hy. rewrite <- app_assoc. simpl app.
    replace (24 * zlen (pre ++ [y])) with (24 * zlen pre + 24) by llia.
    assert (Hstep : sort_shift (S n) (blob (pre ++ y :: h :: post) rest) (24 * zlen pre + 24) key =
      if key <? rbase y then sort_shift n (blob (pre ++ y :: y :: post) rest) (24 * zlen pre) key
      else Some (blob (pre ++ y :: h :: post) rest, 24 * zlen pre + 24)).
    { cbn [sort_shift]. destruct (Z.leb_spec 24 (24 * zlen pre + 24)); [|lia].
      replace (24 * zlen pre + 24 - 24) with (24 * zlen pre) by lia. rewrite rec_base by done. simpl.
      destruct (key <? rbase y); [|done]. unfold rec_copy. rewrite rec_slice by done. simpl.
      assert (HA : Forall is_rec (pre ++ [y])) by (apply Forall_app; by rewrite Forall_singleton).
      pose proof (rec_blit (pre ++ [y]) post h rest HA Hh y Hy) as E. rewrite <- !app_assoc in E. cbn [app] in E.
      replace (24 * zlen pre + 24) with (24 * zlen (pre ++ [y])) by llia.
      by rewrite E. }
    rewrite Hstep. destruct (Z.ltb_spec key (rbase y)) as [Hk|Hk].
    + destruct (IH y (y :: post) n Hpre Hy ltac:(lia)) as (pre1 & moved & h' & -> & Hh' & E & Hm & Hl).
      exists pre1, (moved ++ [y]), h'. split; [by rewrite app_assoc|]. split; [done|]. split.
      * rewrite E. by rewrite <- app_assoc.
      * split; [apply Forall_app; by rewrite Forall_singleton|]. intros r Hr Hne. apply Hl; [|done].
        rewrite <- Hr. destruct pre1 as [|? ? _] using rev_ind; [done|]. by rewrite !List.last_last.
    + exists (pre ++ [y]), [], h. rewrite app_nil_r. split; [done|]. split; [done|]. split.
      * rewrite <- app_assoc. simpl. do 2 f_equal. llia.
      * split; [done|]. intros r <- _. by rewrite List.last_last.
Qed.

Lemma sorted_insert pre1 moved (x : list Z) :
  Sorted by_base (pre1 ++ moved) -> Forall (fun r => rbase x < rbase r) moved ->
  (forall r, List.last pre1 x = r -> pre1 <> [] -> rbase r <= rbase x) -> Sorted by_base (pre1 ++ x :: moved).
Proof.
  induction pre1 as [|a pre1 IH]; simpl; intros Hs Hm Hl.
  - constructor; [done|]. destruct Hm; constructor. unfold by_base. lia.
  - inversion Hs as [|? ? Hs' Hh]; subst. constructor.
    + apply IH; [done..|]. intros r Hr Hne. apply Hl; [|done]. destruct pre1; [done|]. done.
    + destruct pre1 as [|b pre1]; simpl in *.
      * constructor. unfold by_base. by apply (Hl a).
      * inversion Hh. by constructor.
Qed.

Lemma sort_loop_spec rest post pre n :
  Forall is_rec (pre ++ post) -> Sorted by_base pre -> (length post < n)%nat ->
  exists S, sort_loop n (blob (pre ++ post) rest) (24 * zlen pre) (24 * zlen (pre ++ post)) = Some (blob S rest) /\
    S ≡ₚ pre ++ post /\ Sorted by_base S.
Proof.
  revert pre n. induction post as [|x post IH]; intros pre n Hr Hs Hn; (destruct n as [|n]; [lia|]); cbn [sort_loop].
  - rewrite app_nil_r. destruct (Z.ltb_spec (24 * zlen pre) (24 * zlen pre)); [lia|]. by exists pre.
  - pose proof Hr as Hr2. apply Forall_app in Hr2 as [Hpre [Hx Hpost]%Forall_cons]. simpl in Hn.
    destruct (Z.ltb_spec (24 * zlen pre) (24 * zlen (pre ++ x :: post))) as [_|Hl]; [|llia].
    rewrite rec_slice by done. cbn [mbind option_bind]. destruct (rbase_read x Hx) as [-> _]. cbn [mbind option_bind].
    destruct (sort_shift_spec pre x post rest (rbase x) (S (Z.to_nat (24 * zlen pre))) Hpre Hx ltac:(lia))
      as (pre1 & moved & h' & -> & Hh' & -> & Hm & Hl). cbn [mbind option_bind].
    apply Forall_app in Hpre as [Hp1 Hp2]. rewrite rec_blit by done. cbn [mbind option_bind].
    destruct (IH (pre1 ++ x :: moved) n) as (S & E & HP & HS).
    + rewrite <- app_assoc. simpl. rewrite !Forall_app, Forall_cons, Forall_app in *. naive_solver.
    + apply sorted_insert; [done..|]. intros r Hrl Hne.
      destruct pre1 as [|? ? _] using rev_ind; [done|]. rewrite List.last_last in Hrl. subst. apply Hl; [by rewrite List.last_last|done].
    + lia.
    + exists S. split; [|split; [|done]].
      * rewrite <- app_assoc in E. cbn [app] in E.
        replace (24 * zlen (pre1 ++ moved) + 24) with (24 * zlen (pre1 ++ x :: moved)) by llia.
        by replace (24 * zlen ((pre1 ++ moved) ++ x :: post)) with (24 * zlen (pre1 ++ x :: moved ++ post)) by llia.
      * rewrite HP, <- !app_assoc. simpl. by rewrite Permutation_middle.
Qed.

(** ** Merging *)

(** Ranges as [(base, length)]. *)
Definition iv (r : list Z) : Z * Z := (rbase r, rlen r).

Fixpoint merge_iv (t : Z * Z) (l : list (Z * Z)) : list (Z * Z) :=
  match l with
  | [] => [t]
  | (b, n) :: l' =>
      if b <=? t.1 + t.2 then merge_iv (if t.1 + t.2 <? b + n then (t.1, b + n - t.1) else t) l'
      else t :: merge_iv (b, n) l'
  end.

Definition no_wrap (i : Z * Z) : Prop := 0 <= i.1 /\ 0 <= i.2 /\ i.1 + i.2 < 18446744073709551616.

Lemma merge_loop_spec rest post out junk tmp n :
  Forall is_rec (out ++ junk ++ post) -> is_rec tmp -> junk <> [] ->
  Forall no_wrap (iv tmp :: (iv <$> post)) -> (length post < n)%nat ->
  exists O J tmp', merge_loop n (blob (out ++ junk ++ post) rest) tmp (24 * zlen (out ++ junk)) (24 * zlen out)
      (24 * zlen (out ++ junk ++ post)) = Some (blob (O ++ J) rest, tmp', 24 * zlen O) /\
    Forall is_rec (O ++ J) /\ is_rec tmp' /\ J <> [] /\ length (O ++ J) = length (out ++ junk ++ post) /\
    iv <$> (O ++ [tmp']) = (iv <$> out) ++ merge_iv (iv tmp) (iv <$> post).
Proof.
  revert out junk tmp n. induction post as [|x post IH]; intros out junk tmp n Hr Ht Hj Hw Hn; (destruct n as [|n]; [lia|]); cbn [merge_loop].
  { rewrite !app_nil_r in *. rewrite Z.ltb_irrefl. exists out, junk, tmp. do 5 (split; [done|]). simpl. by rewrite fmap_app. }
  simpl in Hn. rewrite fmap_cons in Hw. apply Forall_cons in Hw as [Hwt Hw]. apply Forall_cons in Hw as [Hwx Hw].
  assert (Hx : is_rec x) by (rewrite !Forall_app, Forall_cons in Hr; naive_solver).
  assert (Hoj : Forall is_rec (out ++ junk)) by (rewrite !Forall_app in Hr; rewrite Forall_app; naive_solver).
  assert (Hlt : 24 * zlen (out ++ junk) < 24 * zlen (out ++ junk ++ x :: post)) by llia.
  rewrite (proj2 (Z.ltb_lt _ _) Hlt). destruct (rbase_read tmp Ht) as [-> Ha0]. destruct (rlen_read tmp Ht) as [-> Hal].
  cbn [mbind option_bind]. rewrite (app_assoc out junk (x :: post)), rec_base, rec_len by done. cbn [mbind option_bind].
  destruct Hwt as (W1 & W2 & W3). destruct Hwx as (X1 & X2 & X3). cbn [iv fst snd] in *.
  rewrite !u64_small by lia.
  assert (Hi : 24 * zlen (out ++ junk) + 24 = 24 * zlen (out ++ (junk ++ [x]))) by llia.
  assert (Hre : forall p : list (list Z), (out ++ junk) ++ x :: p = out ++ (junk ++ [x]) ++ p) by (intros; by rewrite <- !app_assoc).
  assert (Hr' : Forall is_rec (out ++ (junk ++ [x]) ++ post)) by (by rewrite <- Hre, <- app_assoc).
  assert (Hj' : junk ++ [x] <> []) by (by destruct junk).
  rewrite fmap_cons. cbn [merge_iv iv fst snd].
  destruct (Z.leb_spec (rbase x) (rbase tmp + rlen tmp)) as [Hm|Hm]; [destruct (Z.ltb_spec (rbase tmp + rlen tmp) (rbase x + rlen x)) as [Hb|Hb]|].
  - destruct (put_len tmp (u64 (rbase x + rlen x - rbase tmp)) Ht (u64_range _)) as (tmp2 & -> & Ht2 & Eb & El).
    cbn [mbind option_bind]. rewrite Hi, Hre. rewrite u64_small in El by lia.
    destruct (IH out (junk ++ [x]) tmp2 n) as (O & J & tmp' & E & P); [done..| |lia|].
    { constructor; [|done]. unfold no_wrap, iv. simpl. rewrite Eb, El. lia. }
    exists O, J, tmp'. split; [exact E|]. unfold iv in P at 3. rewrite Eb, El in P. exact P.
  - rewrite Hi, Hre. destruct (IH out (junk ++ [x]) tmp n) as (O & J & tmp' & E & P); [done..| |lia|by exists O, J, tmp'].
    by constructor.
  - destruct junk as [|j junk]; [done|].
    assert (Hout : Forall is_rec out) by (rewrite !Forall_app in Hr; naive_solver).
    assert (Hjr : is_rec j) by (rewrite !Forall_app, Forall_cons in Hr; naive_solver).
    assert (Ere : (out ++ j :: junk) ++ x :: post = out ++ j :: (junk ++ x :: post)) by (by rewrite <- app_assoc).
    rewrite Ere, rec_blit by done. cbn [mbind option_bind].
    assert (Ere2 : out ++ tmp :: junk ++ x :: post = (out ++ tmp :: junk) ++ x :: post) by (by rewrite <- app_assoc).
    assert (Hotj : Forall is_rec (out ++ tmp :: junk)).
    { rewrite !Forall_app, !Forall_cons in *. naive_solver. }
    assert (El : 24 * zlen (out ++ j :: junk) = 24 * zlen (out ++ tmp :: junk)) by llia.
    rewrite El, Ere2, rec_slice by done. cbn [mbind option_bind].
    destruct (IH (out ++ [tmp]) (junk ++ [x]) x n) as (O & J & tmp' & E & HP); [| |by destruct junk| |lia|].
    { rewrite <- !app_assoc. simpl. rewrite !Forall_app, !Forall_cons, !Forall_app in *. naive_solver. }
    { done. } { by constructor. }
    assert (Ere3 : (out ++ [tmp]) ++ (junk ++ [x]) ++ post = (out ++ tmp :: junk) ++ x :: post) by (by rewrite <- !app_assoc).
    assert (El2 : 24 * zlen ((out ++ [tmp]) ++ junk ++ [x]) = 24 * zlen (out ++ tmp :: junk) + 24) by llia.
    assert (El3 : 24 * zlen (out ++ [tmp]) = 24 * zlen out + 24) by llia.
    rewrite Ere3, El2, El3 in *. exists O, J, tmp'. destruct HP as (P1 & P2 & P3 & P4 & P5). split; [|split; [|split; [|split; [|split]]]]; try done.
    + rewrite <- E. f_equal. llia.
    + rewrite P4. llia.
    + rewrite P5, fmap_app. simpl. by rewrite <- app_assoc.
Qed.

Definition in_iv (x : Z) (i : Z * Z) : Prop := i.1 <= x < i.1 + i.2.
Definition apart (a b : Z * Z) : Prop := a.1 + a.2 < b.1.

Lemma merge_iv_head t l : exists n l', merge_iv t l = (t.1, n) :: l'.
Proof.
  revert t. induction l as [|[b n] l IH]; intros t; simpl; [destruct t; eauto|].
  destruct (b <=? t.1 + t.2); [|destruct t; eauto]. case_match; [|apply IH]. apply (IH (_, _)).
Qed.

Lemma merge_iv_apart t l : Sorted apart (merge_iv t l).
Proof.
  revert t. induction l as [|[b n] l IH]; intros t; simpl; [by repeat constructor|].
  destruct (Z.leb_spec b (t.1 + t.2)) as [H|H]; [apply IH|]. constructor; [apply IH|].
  destruct (merge_iv_head (b, n) l) as (m & l' & ->). constructor. unfold apart. simpl. lia.
Qed.

Lemma merge_iv_covers t l x :
  Forall no_wrap (t :: l) -> Sorted (fun a b => a.1 <= b.1) (t :: l) ->
  (exists i, i ∈ merge_iv t l /\ in_iv x i) <-> (exists i, i ∈ t :: l /\ in_iv x i).
Proof.
  revert t. induction l as [|[b n] l IH]; intros t Hw Hs; [done|]. cbn [merge_iv].
  apply Forall_cons in Hw as [Ht Hw]. apply Forall_cons in Hw as [Hb Hw]. unfold no_wrap in Ht, Hb. cbn [fst snd] in *.
  apply Sorted_inv in Hs as [Hs Hh]. apply HdRel_inv in Hh. cbn [fst snd] in Hh.
  apply Sorted_inv in Hs as [Hs Hh2].
  assert (Hhd : forall v, b <= v -> v = b \/ True) by auto.
  assert (Hsub : forall t', t'.1 = t.1 -> Sorted (fun a b => a.1 <= b.1) (t' :: l)).
  { intros t' Et. constructor; [done|]. inversion Hh2; constructor. simpl in *. lia. }
  destruct (Z.leb_spec b (t.1 + t.2)) as [H|H]; [destruct (Z.ltb_spec (t.1 + t.2) (b + n)) as [H2|H2]|].
  - rewrite IH; [| |by apply Hsub].
    + setoid_rewrite elem_of_cons. unfold in_iv. split.
      * intros (i & [->|Hi] & Hx); [|by exists i; split; [right; right|]]. cbn [fst snd] in Hx.
        destruct (decide (x < t.1 + t.2)); [exists t; split; [by left|lia]|]. exists (b, n). split; [|simpl; lia]. right. by left.
      * intros (i & [->|[->|Hi]%elem_of_cons] & Hx); [..|by exists i; split; [right|]];
          (eexists; split; [by left|]; cbn [fst snd] in *; lia).
    + constructor; [|done]. unfold no_wrap. simpl. lia.
  - rewrite IH; [|by constructor|by apply Hsub]. setoid_rewrite elem_of_cons. unfold in_iv. split.
    + intros (i & [->|Hi] & Hx); [exists t; split; [by left|done]|exists i; split; [right; by right|done]].
    + intros (i & [->|[->|Hi]%elem_of_cons] & Hx); [exists t; split; [by left|done]| |exists i; split; [by right|done]].
      exists t. split; [by left|]. cbn [fst snd] in Hx. lia.
  - setoid_rewrite elem_of_cons. split.
    + intros (i & [->|Hi] & Hx); [exists t; split; [by left|done]|].
      destruct (proj1 (IH (b, n) ltac:(by constructor) ltac:(by constructor))) as (j & Hj & Hxj); [by exists i|].
      exists j. split; [by right|done].
    + intros (i & [->|Hi] & Hx); [exists t; split; [by left|done]|].
      destruct (proj2 (IH (b, n) ltac:(by constructor) ltac:(by constructor))) as (j & Hj & Hxj); [by exists i|].
      exists j. split; [by right|done].
Qed.

Lemma sorted_iv L : Sorted by_base L -> Sorted (fun a b => a.1 <= b.1) (iv <$> L).
Proof. induction 1 as [|a l Hs IH Hh]; [constructor|]. constructor; [done|]. destruct Hh; by constructor. Qed.

(** The whole of [blob_sort_merge]. *)
Lemma sort_merge_spec R rest :
  Forall is_rec R -> R <> [] -> Forall no_wrap (iv <$> R) ->
  exists S rest', blob_sort_merge (blob R rest) (24 * zlen R) = Some (blob S rest', 24 * zlen S) /\
    Forall is_rec S /\ S <> [] /\ Sorted apart (iv <$> S) /\
    length (blob S rest') = length (blob R rest) /\
    forall x, (exists r, r ∈ S /\ in_iv x (iv r)) <-> (exists r, r ∈ R /\ in_iv x (iv r)).
Proof.
  intros HR Hne Hw. unfold blob_sort_merge. destruct (Z.ltb_spec (24 * zlen R) 48) as [Hl|Hl].
  { destruct R as [|r [|]]; [done| |simpl in Hl; lia]. exists [r], rest. split; [done|]. split; [done|]. split; [done|].
    split; [by repeat constructor|]. done. }
  destruct R as [|r R]; [done|]. destruct (sort_loop_spec rest R [r] (S (Z.to_nat (24 * zlen (r :: R))))) as (T & E & HP & HT);
    [done|by repeat constructor|simpl; lia|]. change (24 * zlen [r]) with 24 in E. cbn [app] in E. rewrite E. cbn [mbind option_bind].
  change ([r] ++ R) with (r :: R) in HP. destruct T as [|t T]; [by apply Permutation_nil_l in HP|].
  assert (HrT : Forall is_rec (t :: T)) by (by rewrite HP).
  assert (HwT : Forall no_wrap (iv <$> t :: T)) by (by rewrite HP).
  assert (Hlen : 24 * zlen (r :: R) = 24 * zlen (t :: T)) by (by rewrite (Permutation_length HP)).
  apply Forall_cons in HrT as HrT'. destruct HrT' as [Ht HTr].
  pose proof (rec_slice [] T t rest ltac:(constructor) Ht) as Es. change (24 * zlen []) with 0 in Es. cbn [app] in Es.
  rewrite Es. cbn [mbind option_bind].
  destruct (merge_loop_spec rest T [] [t] t (S (Z.to_nat (24 * zlen (r :: R))))) as (O & J & tmp' & E2 & H1 & H2 & H3 & H4 & H5);
    [done..| |]. { pose proof (Permutation_length HP). simpl in *. lia. }
  change (24 * zlen ([] ++ [t])) with 24 in E2. change (24 * zlen []) with 0 in E2. cbn [app] in E2, H4.
  rewrite Hlen in E2 |- *. rewrite E2. cbn [mbind option_bind]. destruct J as [|j J]; [done|].
  apply Forall_app in H1 as [H1 [Hj HJ]%Forall_cons]. rewrite rec_blit by done. cbn [mbind option_bind].
  exists (O ++ [tmp']), (concat J ++ rest). split.
  { f_equal. f_equal; [|llia]. rewrite concat_app, concat_app. simpl. rewrite app_nil_r. by rewrite <- !(assoc_L (++)). }
  split; [apply Forall_app; by rewrite Forall_singleton|]. split; [by destruct O|]. cbn [app] in H5.
  split; [|split].
  - rewrite H5. simpl. apply merge_iv_apart.
  - assert (Hz : zlen (concat (O ++ [tmp']) ++ concat J ++ rest) = zlen (concat (r :: R) ++ rest)); [|lia].
    rewrite !length_app, !Nat2Z.inj_add, !concat_length; [|done|done|apply Forall_app; by rewrite Forall_singleton].
    pose proof (Permutation_length HP). llia.
  - intros x. assert (Hm : forall L : list (list Z), (exists r, r ∈ L /\ in_iv x (iv r)) <-> (exists i, i ∈ iv <$> L /\ in_iv x i)).
    { intros L. setoid_rewrite list_elem_of_fmap. naive_solver. }
    rewrite !Hm, H5. simpl. rewrite merge_iv_covers; [|done|].
    + setoid_rewrite <- (fmap_Permutation iv _ _ HP). done.
    + apply (sorted_iv (t :: T) HT).
Qed.
End MemmapSort.
