(* ===== verification/MemmapSpec.v ===== *)
(** * What the fw.memmap card promises

    [feed_efi] turns an EFI map into sorted, merged records that cover the same
    memory; [pick] returns the longest usable stretch outside the avoided one;
    [add_spare] hands out only pools clear of every cut; the walks return for
    every buffer. *)
From Stdlib Require Import Sorted.
From S2P Require Import Prelude Dt Memmap MemmapSort.

Module MemmapSpec.
Import Dt Memmap MemmapSort.

(** ** Walking *)

Lemma read_ent_some b p : bytes_ok b -> 0 <= p -> p + 24 <= zlen b ->
  exists e, read_ent b p = Some e /\ 0 <= e_base e < 18446744073709551616 /\ 0 <= e_len e < 18446744073709551616 /\ 0 <= e_sz e < 4294967296.
Proof.
  intros Hb Hp Hl. unfold read_ent.
  destruct (mmap_u32_some b p) as (sz & -> & ?); [done|lia..|]. destruct (mmap_u32_some b (p + 20)) as (ty & -> & ?); [done|lia..|].
  destruct (mmap_u64_some b (p + 4)) as (ba & -> & ?); [done|lia..|]. destruct (mmap_u64_some b (p + 12)) as (ln & -> & ?); [done|lia..|].
  by exists (Ent sz ty ba ln).
Qed.

Lemma map_walk_some b bytes fuel p : bytes_ok b -> bytes <= zlen b -> 0 <= p -> bytes - p < Z.of_nat fuel -> (0 < fuel)%nat ->
  exists es, map_walk fuel b p bytes = Some es /\
    Forall (fun e => 0 <= e_base e < 18446744073709551616 /\ 0 <= e_len e < 18446744073709551616) es.
Proof.
  intros Hb Hl. revert p. induction fuel as [|f IH]; intros p Hp Hf Hf0; [lia|]; cbn [map_walk]; destruct (Z.leb_spec (p + 24) bytes) as [H|H];
    [|by eexists].
  destruct (read_ent_some b p Hb Hp ltac:(lia)) as (e & -> & E1 & E2 & E3). cbn [mbind option_bind].
  destruct (Z.ltb_spec (u32 (e_sz e + 4)) 24) as [Hs|Hs]; [eexists; split; [done|]; constructor; [lia|constructor]|].
  destruct (IH (p + u32 (e_sz e + 4))) as (es & -> & Hes); [lia..|]. cbn [mbind option_bind]. eexists. split; [done|]. constructor; [lia|done].
Qed.

Lemma map_ents_some b bytes : bytes_ok b -> bytes <= zlen b ->
  exists es, map_ents b bytes = Some es /\
    Forall (fun e => 0 <= e_base e < 18446744073709551616 /\ 0 <= e_len e < 18446744073709551616) es.
Proof. intros Hb Hl. apply map_walk_some; [done..|lia|lia|lia]. Qed.

(** ** Page alignment *)

Lemma align_up_val x : 0 <= x -> x + 4095 < 18446744073709551616 ->
  align_up_u64 x 4096 = (x + 4095) / 4096 * 4096.
Proof.
  intros Hx Hl. unfold align_up_u64. change (4096 - 1) with 4095. rewrite u64_small by lia.
  assert (E : Z.land (x + 4095) (u64 (Z.lnot 4095)) = Z.ldiff (x + 4095) (Z.ones 12)).
  { apply Z.bits_inj_iff'. intros i Hi. rewrite Z.land_spec, Z.ldiff_spec. change 4095 with (Z.ones 12) at 2.
    unfold u64. change 18446744073709551616 with (2 ^ 64). destruct (decide (i < 64)).
    - rewrite Z.mod_pow2_bits_low, Z.lnot_spec by lia. done.
    - rewrite <- (Z.mod_small (x + 4095) (2 ^ 64)) by lia. rewrite Z.mod_pow2_bits_high by lia. done. }
  rewrite E, Z.ldiff_ones_r, Z.shiftl_mul_pow2, Z.shiftr_div_pow2 by lia. done.
Qed.

Lemma align_up_spec x : 0 <= x -> x + 4095 < 18446744073709551616 ->
  let a := align_up_u64 x 4096 in x <= a < x + 4096 /\ a mod 4096 = 0 /\ forall y, x <= y -> y mod 4096 = 0 -> a <= y.
Proof.
  intros Hx Hl a. unfold a. rewrite align_up_val by lia. split; [mlia|]. split; [by rewrite Z.mod_mul|].
  intros y Hy Hm. mlia.
Qed.

(** ** Choosing the best stretch *)

(** A page-aligned stretch of at least 32 KiB inside [[r0, r1)]. *)
Definition fits (r0 r1 a n : Z) : Prop := a mod 4096 = 0 /\ r0 <= a /\ a + n <= r1 /\ 32768 <= n.

Lemma consider_spec r0 r1 best : 0 <= r0 -> r0 + 4096 <= 18446744073709551616 -> r1 < 18446744073709551616 ->
  let best' := consider r0 r1 best in
  (best' = best \/ fits r0 r1 best'.1 best'.2) /\ best.2 <= best'.2 /\
  forall a n, fits r0 r1 a n -> n <= best'.2.
Proof.
  intros H0 H1 H2. destruct (align_up_spec r0 H0 ltac:(lia)) as (A1 & A2 & A3). unfold consider, fits.
  set (a := align_up_u64 r0 4096) in *. change (32 * 1024) with 32768.
  destruct (Z.leb_spec r1 r0); [split; [by left|split; [lia|intros; lia]]|].
  destruct (Z.leb_spec r1 a); [split; [by left|split; [lia|]]; intros x n (X1 & X2 & X3 & X4); specialize (A3 x X2 X1); lia|].
  destruct (Z.ltb_spec (r1 - a) 32768); [split; [by left|split; [lia|]]; intros x n (X1 & X2 & X3 & X4); specialize (A3 x X2 X1); lia|].
  destruct (Z.ltb_spec best.2 (r1 - a)).
  - cbn [fst snd]. split; [right; lia|]. split; [lia|]. intros x n (X1 & X2 & X3 & X4). specialize (A3 x X2 X1). lia.
  - split; [by left|]. split; [lia|]. intros x n (X1 & X2 & X3 & X4). specialize (A3 x X2 X1). lia.
Qed.

(** A stretch of the usable record [e] clear of [[lo, hi)]. *)
Definition free_in (lo hi : Z) (e : ent) (a n : Z) : Prop :=
  usable e = true /\ fits (e_base e) (e_base e + e_len e) a n /\ (hi <= lo \/ a + n <= lo \/ hi <= a).

Definition ent_room (e : ent) : Prop :=
  0 <= e_base e /\ 0 <= e_len e /\ e_base e + e_len e + 4096 <= 18446744073709551616.

Lemma pick_ent_spec lo hi best e : ent_room e -> 0 <= lo < 18446744073709551616 ->
  let best' := pick_ent lo hi best e in
  (best' = best \/ free_in lo hi e best'.1 best'.2) /\ best.2 <= best'.2 /\
  forall a n, free_in lo hi e a n -> n <= best'.2.
Proof.
  intros (R1 & R2 & R3) Hlo. unfold pick_ent, free_in. rewrite u64_small by lia. set (r1 := e_base e + e_len e) in *.
  destruct (usable e); [|split; [by left|split; [lia|naive_solver]]].
  destruct ((hi <=? lo) || (r1 <=? lo) || (hi <=? e_base e)) eqn:Ec.
  - destruct (consider_spec (e_base e) r1 best) as (C1 & C2 & C3); [lia..|]. split; [|split; [done|naive_solver]].
    destruct C1 as [C1|C1]; [by left|]. right. split; [done|]. split; [done|]. unfold fits in C1.
    apply orb_true_iff in Ec as [[Ec|Ec]%orb_true_iff|Ec]; breflect; lia.
  - breflect. set (x1 := if lo <? r1 then lo else r1). set (x2 := if e_base e <? hi then hi else e_base e).
    assert (Hx1 : x1 = lo) by (unfold x1; zcase). assert (Hx2 : x2 = hi) by (unfold x2; zcase).
    destruct (consider_spec (e_base e) x1 best) as (C1 & C2 & C3); [lia..|]. set (b1 := consider (e_base e) x1 best) in *.
    destruct (decide (hi + 4096 <= 18446744073709551616)) as [Hh|Hh].
    + destruct (consider_spec x2 r1 b1) as (D1 & D2 & D3); [lia..|]. split; [|split; [lia|]].
      * destruct D1 as [->|D1]; [destruct C1 as [->|C1]; [by left|]|]; right; (split; [done|]);
          unfold fits in *; lia.
      * intros a n (_ & (F1 & F2 & F3 & F4) & [F|[F|F]]); [lia| |].
        -- specialize (C3 a n ltac:(unfold fits; lia)). lia.
        -- apply (D3 a n). unfold fits. lia.
    + assert (Hc2 : consider x2 r1 b1 = b1) by (unfold consider; by rewrite (proj2 (Z.leb_le r1 x2)) by lia).
      rewrite Hc2. split; [|split; [lia|]].
      * destruct C1 as [->|C1]; [by left|]; right; (split; [done|]); unfold fits in *; lia.
      * intros a n (_ & (F1 & F2 & F3 & F4) & [F|[F|F]]); [lia| |lia]. apply (C3 a n). unfold fits. lia.
Qed.

Lemma pick_fold_spec lo hi es best : Forall ent_room es -> 0 <= lo < 18446744073709551616 ->
  let best' := foldl (pick_ent lo hi) best es in
  (best' = best \/ exists e, e ∈ es /\ free_in lo hi e best'.1 best'.2) /\ best.2 <= best'.2 /\
  forall e a n, e ∈ es -> free_in lo hi e a n -> n <= best'.2.
Proof.
  intros Hes Hlo. revert best. induction Hes as [|e es He _ IH]; intros best; simpl.
  { split; [by left|]. split; [lia|]. intros e a n Hin. by apply not_elem_of_nil in Hin. }
  destruct (pick_ent_spec lo hi best e He Hlo) as (P1 & P2 & P3). destruct (IH (pick_ent lo hi best e)) as (I1 & I2 & I3).
  split; [|split; [lia|]].
  - destruct I1 as [->|(e' & He' & Hf)]; [|right; exists e'; split; [by right|done]].
    destruct P1 as [->|P1]; [by left|right; exists e; split; [by left|done]].
  - intros e' a n [->|Hin]%elem_of_cons Hf; [|by eapply I3]. specialize (P3 _ _ Hf). lia.
Qed.

(** For every fed map, [pick] returns, without reading outside the map,
    the longest page-aligned stretch of at least 32 KiB of a usable record
    that is clear of the avoided range, cut down to [want]; it fails exactly
    when there is no such stretch. *)
Theorem pick_best (mem_at : Z -> list Z) (m : memmap) (b : list Z) (bytes lo hi want : Z)
    (Hfed : fed_mmap mem_at m = Some (Some (b, bytes))) (Hb : bytes_ok b) (Hlen : 24 <= bytes <= zlen b)
    (Hlo : 0 <= lo < 18446744073709551616) (Hw : 0 <= want)
    (Hroom : forall es, map_ents b bytes = Some es -> Forall ent_room es) :
  exists es, map_ents b bytes = Some es /\
  match pm_metal_fw_memmap_pick mem_at m lo hi want with
  | None => False
  | Some None => forall e a n, e ∈ es -> ~ free_in lo hi e a n
  | Some (Some (base, n)) => exists e src, e ∈ es /\ free_in lo hi e base src /\
      n = (if (want =? 0) then src else Z.min want src) /\
      forall e' a' n', e' ∈ es -> free_in lo hi e' a' n' -> n' <= src
  end.
Proof.
  destruct (map_ents_some b bytes Hb ltac:(lia)) as (es & Ees & _). exists es. split; [done|]. specialize (Hroom _ Ees).
  unfold pm_metal_fw_memmap_pick. rewrite Hfed. cbn [mbind option_bind]. rewrite (proj2 (Z.ltb_ge bytes 24)), Ees by lia.
  cbn [mbind option_bind]. set (hi' := if hi <? lo then lo else hi).
  assert (Hfree : forall e a n, free_in lo hi' e a n <-> free_in lo hi e a n).
  { intros e a n. unfold free_in, hi'. destruct (Z.ltb_spec hi lo); [|done]. split; intros (F1 & F2 & F3); (split; [done|]; split; [done|]); lia. }
  destruct (pick_fold_spec lo hi' es (0, 0) Hroom Hlo) as (P1 & P2 & P3). destruct (foldl (pick_ent lo hi') (0, 0) es) as [base src] eqn:Ef.
  cbn [fst snd] in *. destruct (Z.eqb_spec src 0) as [->|Hs].
  - intros e a n He Hf%Hfree. specialize (P3 _ _ _ He Hf). destruct Hf as (_ & (_ & _ & _ & ?) & _). lia.
  - destruct P1 as [[= _ P1]|(e & He & Hf)]; [lia|]. exists e, src. rewrite Hfree in Hf. split; [done|]. split; [done|]. split.
    + destruct (Z.eqb_spec want 0); simpl; [done|]. zcase.
    + intros e' a' n' He' Hf'%Hfree. by eapply P3.
Qed.

(** ** Spare pools *)

Definition apart_from (c p : Z * Z) : Prop := c.2 <= c.1 \/ p.1 + p.2 <= c.1 \/ c.2 <= p.1.

Lemma spare_take_spec pmax smax r0 r1 p : 0 <= r0 -> r1 + 4096 <= 18446744073709551616 -> p ∈ spare_take pmax smax r0 r1 ->
  r0 <= p.1 /\ p.1 + p.2 = r1 /\ SPARE_MIN <= p.2 /\ SPARE_FLOOR <= p.1 /\ p.1 mod 4096 = 0 /\ p.1 <= pmax /\ p.2 <= smax.
Proof.
  intros H0 H1. unfold spare_take. destruct (Z.leb_spec r1 r0); [by intros ?%not_elem_of_nil|].
  destruct (align_up_spec r0 H0) as (A1 & A2 & A3); [lia|]. set (a := align_up_u64 r0 4096) in *.
  set (c := if a <? SPARE_FLOOR then SPARE_FLOOR else a).
  assert (Hc : a <= c /\ SPARE_FLOOR <= c /\ c mod 4096 = 0).
  { unfold c. destruct (Z.ltb_spec a SPARE_FLOOR); [|lia]. split; [lia|]. split; [lia|]. reflexivity. }
  destruct (Z.leb_spec r1 c); [by intros ?%not_elem_of_nil|]. destruct (Z.ltb_spec (r1 - c) SPARE_MIN); [by intros ?%not_elem_of_nil|].
  destruct (_ || _) eqn:Eb; [by intros ?%not_elem_of_nil|]. breflect. intros ->%list_elem_of_singleton. simpl. lia.
Qed.

Lemma ordpairs_app {A} (R : A -> A -> Prop) l l' :
  ForallOrdPairs R l -> ForallOrdPairs R l' -> (forall x y, x ∈ l -> y ∈ l' -> R x y) -> ForallOrdPairs R (l ++ l').
Proof.
  induction 1 as [|x l Hx Hl IH]; intros Hl' Hc; simpl; [done|]. constructor.
  - apply Forall_app. split; [done|]. apply Forall_forall. intros y Hy. apply Hc; [by left|done].
  - apply IH; [done|]. intros a b' Ha Hb'. apply Hc; [by right|done].
Qed.

Definition pool_ok (r0 r1 : Z) (cuts : list (Z * Z)) (p : Z * Z) : Prop :=
  r0 <= p.1 /\ p.1 + p.2 <= r1 /\ SPARE_MIN <= p.2 /\ SPARE_FLOOR <= p.1 /\ p.1 mod 4096 = 0 /\ Forall (fun c => apart_from c p) cuts.

Lemma pool_ok_weaken r0 r1 r0' r1' cuts p : pool_ok r0 r1 cuts p -> r0' <= r0 -> r1 <= r1' -> pool_ok r0' r1' cuts p.
Proof. unfold pool_ok. intros (? & ? & ? & ? & ? & ?) ? ?. split_and!; try lia; done. Qed.

(** The pieces of a range cut by a list of holes. *)
Lemma spare_apply_ok pmax smax cuts r0 r1 : 0 <= r0 -> r1 + 4096 <= 18446744073709551616 -> Forall (fun c => 0 <= c.1 /\ 0 <= c.2) cuts ->
  Forall (pool_ok r0 r1 cuts) (spare_apply pmax smax r0 r1 cuts) /\
  ForallOrdPairs (fun p q => p.1 + p.2 <= q.1) (spare_apply pmax smax r0 r1 cuts).
Proof.
  intros H0 H1 Hc. revert r0 r1 H0 H1. induction Hc as [|[clo chi] cuts [Hlo Hhi] _ IH]; intros r0 r1 H0 H1; cbn [spare_apply].
  - destruct (Z.leb_spec r1 r0); [split; constructor|]. split.
    + apply Forall_forall. intros p Hp%spare_take_spec; [|done..]. unfold pool_ok. split_and!; try lia. constructor.
    + unfold spare_take. repeat case_match; repeat constructor.
  - destruct (Z.leb_spec r1 r0) as [Hr|Hr]; [split; constructor|]. cbn [fst snd] in *.
    destruct ((chi <=? clo) || (r1 <=? clo) || (chi <=? r0)) eqn:E.
    + destruct (IH r0 r1 H0 H1) as [I1 I2]. split; [|done]. eapply Forall_impl; [exact I1|].
      intros p (? & ? & ? & ? & ? & ?). unfold pool_ok. split_and!; try lia. constructor; [|done].
      unfold apart_from. cbn [fst snd]. apply orb_true_iff in E as [[E|E]%orb_true_iff|E]; breflect; lia.
    + breflect. rewrite (proj2 (Z.ltb_lt clo r1)), (proj2 (Z.ltb_lt r0 chi)) by lia.
      destruct (IH r0 clo) as [A1 A2]; [lia..|]. destruct (IH chi r1) as [B1 B2]; [lia..|]. rewrite Forall_forall in A1, B1. split.
      * apply Forall_app. split; apply Forall_forall; intros p Hp.
        -- specialize (A1 p Hp). destruct A1 as (? & ? & ? & ? & ? & ?). unfold pool_ok. split_and!; try lia.
           constructor; [|done]. unfold apart_from. cbn [fst snd]. lia.
        -- specialize (B1 p Hp). destruct B1 as (? & ? & ? & ? & ? & ?). unfold pool_ok. split_and!; try lia.
           constructor; [|done]. unfold apart_from. cbn [fst snd]. lia.
      * apply ordpairs_app; [done..|]. intros p q Hp Hq. specialize (A1 p Hp). specialize (B1 q Hq). unfold pool_ok in *. lia.
Qed.

(** Every pool that [add_spare] hands to the arena lies inside a usable
    record, starts page aligned at or above 16 MiB, has at least 256 KiB, and
    is clear of the avoided range, of the used range and of the stack. *)
Theorem add_spare_clear (mem_at : Z -> list Z) (pmax smax : Z) (m : memmap) (b : list Z) (bytes sp lo hi ulo uhi : Z)
    (Hfed : fed_mmap mem_at m = Some (Some (b, bytes))) (Hb : bytes_ok b) (Hlen : 24 <= bytes <= zlen b)
    (Hu : 0 <= lo /\ 0 <= hi /\ 0 <= ulo /\ 0 <= uhi /\ 0 <= sp)
    (Hroom : forall es, map_ents b bytes = Some es -> Forall ent_room es) :
  exists es pools, map_ents b bytes = Some es /\
    pm_metal_fw_memmap_add_spare mem_at pmax smax m true sp lo hi ulo uhi = Some (0, pools) /\
    forall p, p ∈ pools -> exists e, e ∈ es /\ usable e = true /\
      pool_ok (e_base e) (e_base e + e_len e) [(lo, hi); (ulo, uhi); stack_cut sp] p.
Proof.
  destruct (map_ents_some b bytes Hb ltac:(lia)) as (es & Ees & _). specialize (Hroom _ Ees).
  unfold pm_metal_fw_memmap_add_spare. cbn [negb]. rewrite Hfed. cbn [mbind option_bind].
  rewrite (proj2 (Z.ltb_ge bytes 24)), Ees by lia. cbn [mbind option_bind]. do 2 eexists. split; [done|]. split; [done|].
  intros p (e & Hp & He)%list_elem_of_bind. exists e. split; [done|]. rewrite Forall_forall in Hroom.
  destruct (Hroom e He) as (R1 & R2 & R3). unfold spare_ent in Hp. rewrite u64_small in Hp by lia.
  destruct (usable e) eqn:Eu; [|by apply not_elem_of_nil in Hp]. split; [done|].
  set (hi' := if hi <? lo then lo else hi) in *. set (uhi' := if uhi <? ulo then ulo else uhi) in *.
  assert (Hcuts : Forall (fun c : Z * Z => 0 <= c.1 /\ 0 <= c.2) [(ulo, uhi'); stack_cut sp]).
  { repeat constructor; cbn [fst snd]; [lia|unfold uhi'; zcase|unfold stack_cut; repeat case_match; simpl; breflect; lia|].
    unfold stack_cut. pose proof (u64_range (sp + 65536)). destruct (sp =? 0); cbn [fst snd]; lia. }
  assert (Huse : forall q r0 r1, q ∈ spare_apply pmax smax r0 r1 [(ulo, uhi'); stack_cut sp] -> 0 <= r0 -> e_base e <= r0 ->
    r1 <= e_base e + e_len e -> (hi <= lo \/ r1 <= lo \/ hi <= r0) ->
    pool_ok (e_base e) (e_base e + e_len e) [(lo, hi); (ulo, uhi); stack_cut sp] q).
  { intros q r0 r1 Hq Hr0 Hbr Hr1 Hav. destruct (spare_apply_ok pmax smax [(ulo, uhi'); stack_cut sp] r0 r1) as [A _]; [lia..|done|].
    rewrite Forall_forall in A. destruct (A q Hq) as (Q1 & Q2 & Q3 & Q4 & Q5 & Q6). unfold pool_ok. split_and!; try lia.
    apply Forall_cons in Q6 as [Qu Qs]. constructor; [unfold apart_from; cbn [fst snd]; lia|]. constructor; [|done].
    unfold apart_from, uhi' in *. cbn [fst snd] in *. destruct (Z.ltb_spec uhi ulo); lia. }
  assert (Hhi : hi <= hi' /\ (lo < hi' -> hi' = hi)) by (unfold hi'; zcase).
  unfold spare_punch in Hp. destruct ((hi' <=? lo) || (e_base e + e_len e <=? lo) || (hi' <=? e_base e)) eqn:Ec.
  - apply (Huse _ _ _ Hp); [lia..|]. apply orb_true_iff in Ec as [[Ec|Ec]%orb_true_iff|Ec]; breflect; lia.
  - breflect. destruct Hhi as [_ Hhi]. specialize (Hhi ltac:(lia)).
    rewrite (proj2 (Z.ltb_lt lo _)), (proj2 (Z.ltb_lt (e_base e) hi')) in Hp by lia.
    apply elem_of_app in Hp as [Hp|Hp]; apply (Huse _ _ _ Hp); lia.
Qed.

(** ** EFI descriptors *)

(** The range of a conventional-memory descriptor of at least 32 KiB. *)
Definition efi_range (map : list Z) (p : Z) : option (list (Z * Z)) :=
  type ← mmap_u32 map p; phys ← mmap_u64 map (p + 8); pages ← mmap_u64 map (p + 24);
  let len := u64 (Z.shiftl pages 12) in
  Some (if (type =? EFI_CONVENTIONAL_MEMORY) && (32 * 1024 <=? len) then [(phys, len)] else []).

(** The ranges of [k] descriptors from offset [p]. *)
Fixpoint efi_ranges (k : nat) (map : list Z) (p desc_size : Z) : option (list (Z * Z)) :=
  match k with
  | O => Some []
  | S k' => r ← efi_range map p; rs ← efi_ranges k' map (p + desc_size) desc_size; Some (r ++ rs)
  end.

Definition efi_rec (phys len : Z) : list Z := le 4 20 ++ le 8 phys ++ le 8 len ++ le 4 1.

Lemma efi_rec_ok phys len : 0 <= phys < 18446744073709551616 -> 0 <= len < 18446744073709551616 ->
  is_rec (efi_rec phys len) /\ iv (efi_rec phys len) = (phys, len).
Proof.
  intros Hp Hl. split; [split|].
  - unfold efi_rec. by rewrite !length_app, !le_length.
  - unfold efi_rec. rewrite !Forall_app. split_and!; apply le_bytes.
  - unfold iv, rbase, rlen, efi_rec. pose proof (mmap_u64_le (le 4 20) phys (le 8 len ++ le 4 1) Hp) as E1.
    pose proof (mmap_u64_le (le 4 20 ++ le 8 phys) len (le 4 1) Hl) as E2. rewrite <- (app_assoc (le 4 20)) in E2.
    change (zlen (le 4 20)) with 4 in E1. change (zlen (le 4 20 ++ le 8 phys)) with 12 in E2. by rewrite E1, E2.
Qed.

Lemma put_rec b n phys len : 0 <= n -> n + 24 <= zlen b ->
  (b ← put_u32 b n 20; b ← put_u64 b (n + 4) phys; b ← put_u64 b (n + 12) len; put_u32 b (n + 20) 1)
  = blit b n (efi_rec phys len).
Proof.
  intros Hn Hl. unfold efi_rec. rewrite put_u32_blit by lia.
  destruct (blit b n (le 4 20)) as [b1|] eqn:E1; [|by rewrite blit_is_Some in E1 by (rewrite ?le_length; lia)].
  cbn [mbind option_bind]. pose proof (blit_length _ _ _ _ E1) as L1. rewrite put_u64_blit by lia.
  destruct (blit b1 (n + 4) (le 8 phys)) as [b2|] eqn:E2; [|by rewrite blit_is_Some in E2 by (rewrite ?le_length; lia)].
  cbn [mbind option_bind]. pose proof (blit_length _ _ _ _ E2) as L2. rewrite put_u64_blit by lia.
  destruct (blit b2 (n + 12) (le 8 len)) as [b3|] eqn:E3; [|by rewrite blit_is_Some in E3 by (rewrite ?le_length; lia)].
  cbn [mbind option_bind]. pose proof (blit_length _ _ _ _ E3) as L3. rewrite put_u32_blit by lia.
  assert (E12 : blit b n (le 4 20 ++ le 8 phys) = Some b2).
  { rewrite <- blit_blit by (rewrite ?le_length; lia). rewrite E1. exact E2. }
  assert (E123 : blit b n ((le 4 20 ++ le 8 phys) ++ le 8 len) = Some b3).
  { rewrite <- blit_blit by (rewrite ?length_app, ?le_length; lia). rewrite E12. exact E3. }
  rewrite !(assoc_L (++)), <- blit_blit by (rewrite ?length_app, ?le_length; lia). rewrite E123. done.
Qed.

Lemma efi_range_some map p : bytes_ok map -> 0 <= p -> p + 32 <= zlen map ->
  exists ty phys pages, mmap_u32 map p = Some ty /\ mmap_u64 map (p + 8) = Some phys /\ mmap_u64 map (p + 24) = Some pages /\
    0 <= phys < 18446744073709551616.
Proof.
  intros Hb Hp Hl. destruct (mmap_u32_some map p) as (ty & ? & ?); [done|lia..|].
  destruct (mmap_u64_some map (p + 8)) as (ph & ? & ?); [done|lia..|]. destruct (mmap_u64_some map (p + 24)) as (pg & ? & ?); [done|lia..|].
  by exists ty, ph, pg.
Qed.

Lemma efi_ranges_some map desc k p : bytes_ok map -> 32 <= desc -> 0 <= p -> p + Z.of_nat k * desc <= zlen map ->
  exists rs, efi_ranges k map p desc = Some rs.
Proof.
  intros Hb Hd. revert p. induction k as [|k IH]; intros p Hp Hk; [by eexists|]. rewrite Nat2Z.inj_succ in Hk.
  destruct (efi_range_some map p Hb Hp ltac:(nia)) as (ty & phys & pages & E1 & E2 & E3 & _).
  destruct (IH (p + desc)) as (rs & E); [lia..|]. cbn [efi_ranges]. unfold efi_range. rewrite E1, E2, E3, E.
  cbn [mbind option_bind]. eauto.
Qed.

Lemma efi_append map desc bytes fuel p out rest phys len ty pages :
  mmap_u32 map p = Some ty -> mmap_u64 map (p + 8) = Some phys -> mmap_u64 map (p + 24) = Some pages ->
  len = u64 (Z.shiftl pages 12) -> (ty =? EFI_CONVENTIONAL_MEMORY) && (32 * 1024 <=? len) = true ->
  Forall is_rec out -> 0 <= phys < 18446744073709551616 -> zlen (blob out rest) = BLOB_MAX -> 24 * zlen out + 24 <= BLOB_MAX ->
  p + desc <= bytes ->
  exists rest', zlen (blob (out ++ [efi_rec phys len]) rest') = BLOB_MAX /\
    efi_loop (S fuel) map desc bytes p (blob out rest) (24 * zlen out) =
    efi_loop fuel map desc bytes (p + desc) (blob (out ++ [efi_rec phys len]) rest') (24 * zlen out + 24).
Proof.
  intros E1 E2 E3 Elen Eu Ho Hph Hz Hroom Hp. pose proof (u64_range (Z.shiftl pages 12)) as Hlen. rewrite <- Elen in Hlen.
  destruct (efi_rec_ok phys len Hph Hlen) as [Hrec _].
  destruct (split_at rest 24) as (x & rest' & -> & Hx).
  { rewrite length_app, Nat2Z.inj_add, concat_length in Hz by done. lia. }
  assert (Hblit : blit (blob out (x ++ rest')) (24 * zlen out) (efi_rec phys len) = Some (blob (out ++ [efi_rec phys len]) rest')).
  { rewrite <- concat_length by done. rewrite blit_mid; [|destruct Hrec as [-> _]; lia]. rewrite concat_app. cbn [concat].
    by rewrite app_nil_r, <- (assoc_L (++)). }
  exists rest'. split; [by rewrite (blit_length _ _ _ _ Hblit)|]. cbn [efi_loop].
  rewrite (proj2 (Z.leb_le (p + desc) bytes)), (proj2 (Z.leb_le _ BLOB_MAX)) by lia. cbn [andb].
  rewrite E1, E2, E3. cbn [mbind option_bind]. rewrite <- Elen, Eu.
  pose proof (put_rec (blob out (x ++ rest')) (24 * zlen out) phys len ltac:(lia) ltac:(lia)) as Epr. rewrite Hblit in Epr.
  apply bind_Some in Epr as (b1 & -> & Epr). cbn [mbind option_bind]. apply bind_Some in Epr as (b2 & -> & Epr).
  cbn [mbind option_bind]. apply bind_Some in Epr as (b3 & -> & Epr). cbn [mbind option_bind]. by rewrite Epr.
Qed.

Lemma efi_loop_spec map desc bytes k : bytes_ok map -> 32 <= desc -> bytes <= zlen map ->
  forall p out rest rs fuel, 0 <= p -> p + Z.of_nat k * desc <= bytes < p + (Z.of_nat k + 1) * desc ->
  Forall is_rec out -> zlen (blob out rest) = BLOB_MAX -> (k < fuel)%nat ->
  efi_ranges k map p desc = Some rs -> zlen out + zlen rs <= 170 ->
  exists R rest', efi_loop fuel map desc bytes p (blob out rest) (24 * zlen out) = Some (blob R rest', 24 * zlen R) /\
    Forall is_rec R /\ zlen (blob R rest') = BLOB_MAX /\ iv <$> R = (iv <$> out) ++ rs.
Proof.
  intros Hb Hd Hl. induction k as [|k IH]; intros p out rest rs fuel Hp Hk Ho Hz Hf Hrs Hcnt; (destruct fuel as [|fuel]; [lia|]).
  - injection Hrs as <-. cbn [efi_loop]. destruct (Z.leb_spec (p + desc) bytes); [lia|]. exists out, rest. by rewrite app_nil_r.
  - destruct (decide (24 * zlen out + 24 <= BLOB_MAX)) as [Hroom|Hroom].
    2: { destruct rs; [|unfold BLOB_MAX in *; simpl in Hcnt; lia]. exists out, rest. rewrite app_nil_r. cbn [efi_loop].
         rewrite (proj2 (Z.leb_gt _ BLOB_MAX)), andb_false_r by lia. done. }
    rewrite Nat2Z.inj_succ in Hk. destruct (efi_range_some map p Hb Hp ltac:(nia)) as (ty & phys & pages & E1 & E2 & E3 & Hph).
    cbn [efi_ranges] in Hrs. unfold efi_range in Hrs. rewrite E1, E2, E3 in Hrs. cbn [mbind option_bind] in Hrs.
    set (len := u64 (Z.shiftl pages 12)) in *. apply bind_Some in Hrs as (rs' & Hrs' & [= <-]).
    destruct ((ty =? EFI_CONVENTIONAL_MEMORY) && (32 * 1024 <=? len)) eqn:Eu.
    + pose proof (efi_rec_ok phys len Hph (u64_range _)) as [Hrec Hiv].
      destruct (efi_append map desc bytes fuel p out rest phys len ty pages) as (rest' & Hz' & E); try done; [nia|].
      destruct (IH (p + desc) (out ++ [efi_rec phys len]) rest' rs' fuel) as (R & rest2 & ER & HR & HzR & Hiv2); try done; try lia.
      { apply Forall_app. by rewrite Forall_singleton. } { llia. }
      exists R, rest2. rewrite E. split; [|split; [done|split; [done|]]].
      * rewrite <- ER. f_equal. llia.
      * rewrite Hiv2, fmap_app, <- app_assoc. simpl. by rewrite Hiv.
    + destruct (IH (p + desc) out rest rs' fuel) as (R & rest2 & ER & P); try done; try lia.
      exists R, rest2. split; [|done]. cbn [efi_loop].
      rewrite (proj2 (Z.leb_le (p + desc) bytes)), (proj2 (Z.leb_le _ BLOB_MAX)) by nia. cbn [andb].
      rewrite E1, E2, E3. cbn [mbind option_bind]. fold len. by rewrite Eu.
Qed.

(** C11: [feed_efi] never reads or writes out of bounds, and when the map has
    at most 170 large conventional ranges (what the blob can hold), none of
    which wraps around 2^64, it publishes records that are sorted, pairwise
    apart, and cover exactly the addresses of those ranges. *)
Theorem feed_efi_covers (m : memmap) (map : list Z) (desc bytes : Z) (rs : list (Z * Z))
    (Hm : zlen (s_blob m) = BLOB_MAX) (Hb : bytes_ok map) (Hd : 32 <= desc <= bytes) (Hl : bytes <= zlen map)
    (Hrs : efi_ranges (Z.to_nat (bytes / desc)) map 0 desc = Some rs)
    (Hcnt : 0 < zlen rs <= 170) (Hw : Forall no_wrap rs) :
  exists m' S rest, pm_metal_fw_memmap_feed_efi m (Some map) desc bytes = Some (0, m') /\
    s_blob m' = blob S rest /\ s_blob_len m' = 24 * zlen S /\ zlen (s_blob m') = BLOB_MAX /\ s_kind m' = 2 /\
    Forall is_rec S /\ Sorted apart (iv <$> S) /\
    forall x, (exists r, r ∈ S /\ in_iv x (iv r)) <-> (exists i, i ∈ rs /\ in_iv x i).
Proof.
  destruct (efi_loop_spec map desc bytes (Z.to_nat (bytes / desc)) Hb ltac:(lia) Hl 0 [] (s_blob m) rs (S (Z.to_nat bytes)))
    as (R & rest & E & HR & HzR & Hiv); try done; try lia.
  { rewrite Z2Nat.id by (apply Z.div_pos; lia). split; [mlia|]. mlia. }
  { assert (bytes / desc <= bytes) by (apply Z.div_le_upper_bound; nia). lia. } { simpl length. lia. }
  simpl in Hiv. assert (HlR : zlen R = zlen rs) by (by rewrite <- Hiv, length_fmap).
  destruct (sort_merge_spec R rest HR) as (T & rest' & E2 & HT & HTne & Hap & Hlen & Hcov).
  { intros ->. simpl in HlR. lia. } { by rewrite Hiv. }
  exists (Mm (s_arena m) 0 None (blob T rest') (24 * zlen T) 2), T, rest'. split; [|split; [done|split; [done|split; [|split; [done|split; [done|split; [done|]]]]]]].
  - unfold pm_metal_fw_memmap_feed_efi. rewrite (proj2 (Z.ltb_ge desc 32)), (proj2 (Z.ltb_ge bytes desc)) by lia. cbn [orb].
    change (24 * zlen []) with 0 in E. cbn [app concat] in E. rewrite E. cbn [mbind option_bind].
    rewrite (proj2 (Z.ltb_ge _ 24)) by lia. by rewrite E2.
  - simpl. lia.
  - intros x. rewrite Hcov. rewrite <- Hiv. setoid_rewrite list_elem_of_fmap. naive_solver.
Qed.

(** ** Witnesses: an EFI map of two touching ranges and a one-record map *)

Definition demo_desc (phys pages : Z) : list Z := le 4 7 ++ le 4 0 ++ le 8 phys ++ le 8 0 ++ le 8 pages ++ le 8 0.
Definition demo_efi : list Z := demo_desc 2162688 16 ++ demo_desc 2097152 16.
Definition demo_state : memmap := Mm true 0 None (repeat 0 4096) 0 0.

Lemma feed_efi_covers_witness :
  exists m' S rest, pm_metal_fw_memmap_feed_efi demo_state (Some demo_efi) 40 80 = Some (0, m') /\
    s_blob m' = blob S rest /\ s_blob_len m' = 24 * zlen S /\ zlen (s_blob m') = BLOB_MAX /\ s_kind m' = 2 /\
    Forall is_rec S /\ Sorted apart (iv <$> S) /\
    forall x, (exists r, r ∈ S /\ in_iv x (iv r)) <-> (exists i, i ∈ [(2162688, 65536); (2097152, 65536)] /\ in_iv x i).
Proof.
  refine (feed_efi_covers demo_state demo_efi 40 80 [(2162688, 65536); (2097152, 65536)] _ _ _ _ _ _ _).
  - vm_compute. reflexivity.
  - apply (bool_decide_unpack _). vm_compute. exact I.
  - lia.
  - apply Z.leb_le. vm_compute. reflexivity.
  - vm_compute. reflexivity.
  - split; [apply Z.ltb_lt|apply Z.leb_le]; vm_compute; reflexivity.
  - repeat constructor; simpl; lia.
Defined.

Definition demo_map : list Z := efi_rec 1048576 33554432.
Definition demo_fed : memmap := Mm true 0 None demo_map 24 2.

Lemma demo_room es : map_ents demo_map 24 = Some es -> Forall ent_room es.
Proof. intros E. vm_compute in E. injection E as <-. repeat constructor; simpl; lia. Qed.

Lemma demo_map_bytes : bytes_ok demo_map.
Proof. apply (bool_decide_unpack _). vm_compute. exact I. Qed.

Lemma pick_best_witness :
  exists es, map_ents demo_map 24 = Some es /\
  match pm_metal_fw_memmap_pick (fun _ => []) demo_fed 1048576 2097152 0 with
  | None => False
  | Some None => forall e a n, e ∈ es -> ~ free_in 1048576 2097152 e a n
  | Some (Some (base, n)) => exists e src, e ∈ es /\ free_in 1048576 2097152 e base src /\ n = src /\
      forall e' a' n', e' ∈ es -> free_in 1048576 2097152 e' a' n' -> n' <= src
  end.
Proof.
  refine (pick_best (fun _ => []) demo_fed demo_map 24 1048576 2097152 0 eq_refl demo_map_bytes _ _ _ demo_room).
  - split; [lia|]. apply Z.leb_le. vm_compute. reflexivity.
  - lia.
  - lia.
Defined.

Lemma add_spare_clear_witness :
  exists es pools, map_ents demo_map 24 = Some es /\
    pm_metal_fw_memmap_add_spare (fun _ => []) 4294967295 4294967295 demo_fed true 20971520 0 1048576 2097152 3145728 = Some (0, pools) /\
    forall p, p ∈ pools -> exists e, e ∈ es /\ usable e = true /\
      pool_ok (e_base e) (e_base e + e_len e) [(0, 1048576); (2097152, 3145728); stack_cut 20971520] p.
Proof.
  refine (add_spare_clear (fun _ => []) 4294967295 4294967295 demo_fed demo_map 24 20971520 0 1048576 2097152 3145728
    eq_refl demo_map_bytes _ _ demo_room).
  - split; [lia|]. apply Z.leb_le. vm_compute. reflexivity.
  - lia.
Defined.

(** On a record that ends within a page of 2^64 the alignment wraps to 0
    and the pool that is handed out starts at the 16 MiB floor, far below the
    record. *)
Lemma spare_take_wraps :
  spare_take U64_MAX U64_MAX 18446744073709548000 18446744073709551615 = [(SPARE_FLOOR, 18446744073709551615 - SPARE_FLOOR)].
Proof. vm_compute. reflexivity. Qed.
End MemmapSpec.
