(* ===== verification/WgCrypto.v ===== *)
(** * The wg card's symmetric cryptography

    ChaCha20, Poly1305 and the AEAD of src/.../metal/net/wg/__crypto__.c.
    Fixed-size arrays (keys, states, blocks) are lists of their C length read at
    constant indices; variable-length buffers are consumed from the front. *)
From S2P Require Import Prelude.

Module WgCrypto.

(** ** Words *)

Definition at_ (b : list Z) (i : nat) : Z := nth i b 0.

Definition load32_le (p : list Z) : Z :=
  Z.lor (Z.lor (Z.lor (at_ p 0) (Z.shiftl (at_ p 1) 8)) (Z.shiftl (at_ p 2) 16)) (Z.shiftl (at_ p 3) 24).
Definition store32_le (v : Z) : list Z := [u8 v; u8 (Z.shiftr v 8); u8 (Z.shiftr v 16); u8 (Z.shiftr v 24)].
Definition store64_le (v : Z) : list Z := store32_le (u32 v) ++ store32_le (u32 (Z.shiftr v 32)).

Definition rotl32 (x n : Z) : Z := Z.lor (u32 (Z.shiftl x n)) (Z.shiftr x (32 - n)).

(** ** ChaCha20 *)

Definition chacha_qr (w : list Z) (a b c d : nat) : list Z :=
  let w := <[a := u32 (at_ w a + at_ w b)]> w in
  let w := <[d := rotl32 (Z.lxor (at_ w d) (at_ w a)) 16]> w in
  let w := <[c := u32 (at_ w c + at_ w d)]> w in
  let w := <[b := rotl32 (Z.lxor (at_ w b) (at_ w c)) 12]> w in
  let w := <[a := u32 (at_ w a + at_ w b)]> w in
  let w := <[d := rotl32 (Z.lxor (at_ w d) (at_ w a)) 8]> w in
  let w := <[c := u32 (at_ w c + at_ w d)]> w in
  <[b := rotl32 (Z.lxor (at_ w b) (at_ w c)) 7]> w.

Definition chacha_double (w : list Z) : list Z :=
  let w := chacha_qr w 0 4 8 12 in let w := chacha_qr w 1 5 9 13 in
  let w := chacha_qr w 2 6 10 14 in let w := chacha_qr w 3 7 11 15 in
  let w := chacha_qr w 0 5 10 15 in let w := chacha_qr w 1 6 11 12 in
  let w := chacha_qr w 2 7 8 13 in chacha_qr w 3 4 9 14.

Definition chacha20_block (st : list Z) : list Z :=
  let w := Nat.iter 10 chacha_double st in
  concat ((fun i => store32_le (u32 (at_ w i + at_ st i))) <$> seq 0 16).

(** The 16 state words that [chacha20_xor] and both AEAD entries set up. *)
Definition chacha_state (key nonce : list Z) (counter : Z) : list Z :=
  [1634760805; 857760878; 2036477234; 1797285236;
   load32_le key; load32_le (drop 4 key); load32_le (drop 8 key); load32_le (drop 12 key);
   load32_le (drop 16 key); load32_le (drop 20 key); load32_le (drop 24 key); load32_le (drop 28 key);
   counter; load32_le nonce; load32_le (drop 4 nonce); load32_le (drop 8 nonce)].

Definition xor_bytes (a b : list Z) : list Z := zip_with (fun x y => u8 (Z.lxor x y)) a b.

(** The [while (off < n)] loop; [inp] is the input from [off] on. *)
Fixpoint xor_loop (fuel : nat) (key nonce : list Z) (counter : Z) (inp : list Z) : list Z :=
  match fuel with
  | O => []
  | S f => match inp with
           | [] => []
           | _ => xor_bytes (take 64 inp) (chacha20_block (chacha_state key nonce counter))
                  ++ xor_loop f key nonce (u32 (counter + 1)) (drop 64 inp)
           end
  end.
Definition chacha20_xor (key nonce : list Z) (counter : Z) (inp : list Z) : list Z :=
  xor_loop (length inp) key nonce counter inp.

(** ** Poly1305 in five 26-bit limbs *)

Record limbs := L5 { l0 : Z; l1 : Z; l2 : Z; l3 : Z; l4 : Z }.

Definition M26 := 67108863.

Definition poly_r (key : list Z) : limbs :=
  L5 (Z.land (load32_le key) 67108863)
     (Z.land (Z.shiftr (load32_le (drop 3 key)) 2) 67108611)
     (Z.land (Z.shiftr (load32_le (drop 6 key)) 4) 67092735)
     (Z.land (Z.shiftr (load32_le (drop 9 key)) 6) 66076671)
     (Z.land (Z.shiftr (load32_le (drop 12 key)) 8) 1048575).

(** The additions of one block to the accumulator. *)
Definition poly_add (h : limbs) (block : list Z) (hibit : Z) : limbs :=
  L5 (u32 (l0 h + Z.land (load32_le block) M26))
     (u32 (l1 h + Z.land (Z.shiftr (load32_le (drop 3 block)) 2) M26))
     (u32 (l2 h + Z.land (Z.shiftr (load32_le (drop 6 block)) 4) M26))
     (u32 (l3 h + Z.land (Z.shiftr (load32_le (drop 9 block)) 6) M26))
     (u32 (l4 h + Z.lor (Z.shiftr (load32_le (drop 12 block)) 8) hibit)).

(** The multiplication by [r] and the carries. *)
Definition poly_mul (r h : limbs) : limbs :=
  let '(L5 r0 r1 r2 r3 r4) := r in let '(L5 h0 h1 h2 h3 h4) := h in
  let d0 := u64 (h0 * r0 + h1 * 5 * r4 + h2 * 5 * r3 + h3 * 5 * r2 + h4 * 5 * r1) in
  let d1 := u64 (h0 * r1 + h1 * r0 + h2 * 5 * r4 + h3 * 5 * r3 + h4 * 5 * r2) in
  let d2 := u64 (h0 * r2 + h1 * r1 + h2 * r0 + h3 * 5 * r4 + h4 * 5 * r3) in
  let d3 := u64 (h0 * r3 + h1 * r2 + h2 * r1 + h3 * r0 + h4 * 5 * r4) in
  let d4 := u64 (h0 * r4 + h1 * r3 + h2 * r2 + h3 * r1 + h4 * r0) in
  let c := Z.shiftr d0 26 in let h0 := Z.land (u32 d0) M26 in
  let d1 := u64 (d1 + c) in
  let c := Z.shiftr d1 26 in let h1 := Z.land (u32 d1) M26 in
  let d2 := u64 (d2 + c) in
  let c := Z.shiftr d2 26 in let h2 := Z.land (u32 d2) M26 in
  let d3 := u64 (d3 + c) in
  let c := Z.shiftr d3 26 in let h3 := Z.land (u32 d3) M26 in
  let d4 := u64 (d4 + c) in
  let c := Z.shiftr d4 26 in let h4 := Z.land (u32 d4) M26 in
  let h0 := u32 (h0 + u32 (u32 c * 5)) in
  let c := Z.shiftr h0 26 in
  L5 (Z.land h0 M26) (u32 (h1 + u32 c)) h2 h3 h4.

Definition HIBIT := 16777216.

(** The block of the [n] first bytes of [msg] and its high bit. *)
Definition poly_block (msg : list Z) : list Z * Z :=
  let n := length (take 16 msg) in
  if (n <? 16)%nat then (take 16 msg ++ 1 :: repeat 0 (15 - n), 0) else (take 16 msg, HIBIT).

(** Passes 0 and 1: the [while] loop over a message. *)
Fixpoint poly_pass (fuel : nat) (r h : limbs) (msg : list Z) : limbs :=
  match fuel with
  | O => h
  | S f => match msg with
           | [] => h
           | _ => let '(block, hibit) := poly_block msg in
                  poly_pass f r (poly_mul r (poly_add h block hibit)) (drop 16 msg)
           end
  end.

(** The final carries. *)
Definition poly_carry (h : limbs) : limbs :=
  let '(L5 h0 h1 h2 h3 h4) := h in
  let h1 := u32 (h1 + Z.shiftr h0 26) in let h0 := Z.land h0 M26 in
  let h2 := u32 (h2 + Z.shiftr h1 26) in let h1 := Z.land h1 M26 in
  let h3 := u32 (h3 + Z.shiftr h2 26) in let h2 := Z.land h2 M26 in
  let h4 := u32 (h4 + Z.shiftr h3 26) in let h3 := Z.land h3 M26 in
  let h0 := u32 (h0 + u32 (5 * Z.shiftr h4 26)) in let h4 := Z.land h4 M26 in
  let h1 := u32 (h1 + Z.shiftr h0 26) in let h0 := Z.land h0 M26 in
  L5 h0 h1 h2 h3 h4.

(** The selection of [h] or [h + 5 - 2^130] by a mask. *)
Definition poly_select (h : limbs) : limbs :=
  let '(L5 h0 h1 h2 h3 h4) := h in
  let g0 := u32 (h0 + 5) in
  let g1 := u32 (h1 + Z.shiftr g0 26) in let g0 := Z.land g0 M26 in
  let g2 := u32 (h2 + Z.shiftr g1 26) in let g1 := Z.land g1 M26 in
  let g3 := u32 (h3 + Z.shiftr g2 26) in let g2 := Z.land g2 M26 in
  let g4 := u32 (h4 + Z.shiftr g3 26) in let g3 := Z.land g3 M26 in
  let mask := u32 (Z.shiftr g4 26 - 1) in let g4 := Z.land g4 M26 in
  let pick h g := Z.lor (Z.land h mask) (Z.land g (u32 (Z.lnot mask))) in
  L5 (pick h0 g0) (pick h1 g1) (pick h2 g2) (pick h3 g3) (pick h4 g4).

(** Four 32-bit words of the limbs, plus the pad. *)
Definition poly_pack (h : limbs) (pad : list Z) : list Z :=
  let '(L5 h0 h1 h2 h3 h4) := h in
  let s0 := Z.lor h0 (u32 (Z.shiftl h1 26)) in
  let s1 := Z.lor (Z.shiftr h1 6) (u32 (Z.shiftl h2 20)) in
  let s2 := Z.lor (Z.shiftr h2 12) (u32 (Z.shiftl h3 14)) in
  let s3 := Z.lor (Z.shiftr h3 18) (u32 (Z.shiftl h4 8)) in
  let f0 := u64 (s0 + load32_le pad) in
  let f1 := u64 (s1 + load32_le (drop 4 pad) + Z.shiftr f0 32) in
  let f2 := u64 (s2 + load32_le (drop 8 pad) + Z.shiftr f1 32) in
  let f3 := u64 (s3 + load32_le (drop 12 pad) + Z.shiftr f2 32) in
  store32_le (u32 f0) ++ store32_le (u32 f1) ++ store32_le (u32 f2) ++ store32_le (u32 f3).

Definition poly_final (h : limbs) (pad : list Z) : list Z := poly_pack (poly_select (poly_carry h)) pad.

Definition poly1305_mac (key ad ct : list Z) : list Z :=
  let r := poly_r key in
  let h := L5 0 0 0 0 0 in
  let h := poly_pass (length ad) r h ad in
  let h := poly_pass (length ct) r h ct in
  let lens := store64_le (zlen ad) ++ store64_le (zlen ct) in
  let h := poly_mul r (poly_add h lens HIBIT) in
  poly_final h (take 16 (drop 16 key)).

(** ** The AEAD *)

Definition noise_nonce (n : Z) : list Z := [0; 0; 0; 0] ++ store64_le n.

Definition poly_key (key : list Z) (nonce : Z) : list Z := chacha20_block (chacha_state key (noise_nonce nonce) 0).

(** [pt] is [None] for a NULL pointer, [ct_buf] tells whether the output
    pointer is not NULL; [None] is the return value -1. *)
Definition pm_metal_wg_aead_encrypt (key : list Z) (nonce : Z) (ad : list Z) (pt : option (list Z)) (pt_len : Z) (ct_buf : bool) : option (list Z * list Z) :=
  let n12 := noise_nonce nonce in
  let pkey := poly_key key nonce in
  if negb (pt_len =? 0) && (negb ct_buf || bool_decide (pt = None)) then None else
  let ct := if negb (pt_len =? 0) then chacha20_xor key n12 1 (default [] pt) else [] in
  Some (ct, poly1305_mac pkey ad ct).

(** The constant-time comparison of 16 bytes. *)
Definition tag_diff (a b : list Z) : Z :=
  foldl (fun d i => u8 (Z.lor d (Z.lxor (at_ a i) (at_ b i)))) 0 (seq 0 16).

Definition pm_metal_wg_aead_decrypt (key : list Z) (nonce : Z) (ad ct tag : list Z) (pt_buf : bool) : option (list Z) :=
  let expect := poly1305_mac (poly_key key nonce) ad ct in
  if negb (tag_diff expect tag =? 0) then None else
  if negb (zlen ct =? 0) && negb pt_buf then None else
  Some (if negb (zlen ct =? 0) then chacha20_xor key (noise_nonce nonce) 1 ct else []).
End WgCrypto.
