(* ===== verification/WgAead.v ===== *)
(** * What the AEAD promises

    Poly1305 in limbs is the polynomial evaluation modulo 2^130 - 5 with no
    intermediate overflow; ChaCha20 is its own inverse; decryption undoes
    encryption and accepts nothing but the computed tag. *)
From S2P Require Import Prelude WgCrypto.

Module WgAead.
Import WgCrypto.

(** ** Numbers as bytes *)

Definition seq_bytes (n : nat) : list Z := (fun i => u8 (7 * Z.of_nat i + 3)) <$> seq 0 n.

Fixpoint le_num (b : list Z) : Z := match b with [] => 0 | x :: t => x + 256 * le_num t end.

Lemma le_num_range b : bytes_ok b -> 0 <= le_num b < 256 ^ zlen b.
Proof.
  induction 1 as [|x b Hx _ IH]; [done|]. cbn [le_num length]. rewrite Nat2Z.inj_succ, Z.pow_succ_r by lia. unfold is_byte in Hx. lia.
Qed.

Lemma le_num_app a b : le_num (a ++ b) = le_num a + 256 ^ zlen a * le_num b.
Proof.
  induction a as [|x a IH]; [cbn; lia|]. cbn [le_num length app]. rewrite IH, Nat2Z.inj_succ, Z.pow_succ_r by lia. lia.
Qed.

Lemma le_num_drop b k : bytes_ok b -> (k <= length b)%nat -> le_num (drop k b) = le_num b / 256 ^ Z.of_nat k.
Proof.
  intros Hb Hk. rewrite <- (take_drop k b) at 2. rewrite le_num_app, length_take, Nat.min_l by done.
  pose proof (le_num_range (take k b) (Forall_take _ _ _ Hb)) as Hr. rewrite length_take, Nat.min_l in Hr by done.
  rewrite Z.mul_comm, Z.div_add by lia. rewrite Z.div_small by done. lia.
Qed.

Lemma le_num_zeros n : le_num (repeat 0 n) = 0.
Proof. induction n as [|n IH]; [done|]. cbn [repeat le_num]. lia. Qed.

Lemma load32_num p : bytes_ok p -> (4 <= length p)%nat -> load32_le p = le_num p mod 4294967296.
Proof.
  intros Hb Hl. destruct p as [|x [|y [|z [|t p]]]]; simpl in Hl; try lia. unfold load32_le, at_. cbn [nth].
  rewrite !Forall_cons in Hb. unfold is_byte in Hb. destruct Hb as (Hx & Hy & Hz & Ht & Hp).
  assert (E1 : Z.lor x (Z.shiftl y 8) = x + y * 256) by (by rewrite lor_disjoint_add by lia).
  assert (E2 : Z.lor (x + y * 256) (Z.shiftl z 16) = x + y * 256 + z * 65536) by (rewrite lor_disjoint_add by lia; done).
  assert (E3 : Z.lor (x + y * 256 + z * 65536) (Z.shiftl t 24) = x + y * 256 + z * 65536 + t * 16777216) by (rewrite lor_disjoint_add by lia; done).
  rewrite E1, E2, E3. cbn [le_num]. generalize (le_num p). intros v. mlia.
Qed.

Lemma store32_num v : le_num (store32_le v) = u32 v.
Proof. unfold store32_le. cbn [le_num]. rewrite !Z.shiftr_div_pow2 by lia. change (2 ^ 8) with 256. change (2 ^ 16) with 65536. change (2 ^ 24) with 16777216. ulia. Qed.
Lemma store32_bytes v : bytes_ok (store32_le v).
Proof. repeat constructor; apply u8_range. Qed.
Lemma store64_num v : le_num (store64_le v) = u64 v.
Proof.
  unfold store64_le. rewrite le_num_app, !store32_num, Z.shiftr_div_pow2 by lia.
  change (256 ^ zlen (store32_le (u32 v))) with 4294967296. change (2 ^ 32) with 4294967296. ulia.
Qed.
Lemma store64_bytes v : bytes_ok (store64_le v).
Proof. apply Forall_app. split; apply store32_bytes. Qed.

(** The 26-bit digit at bit [26 i] of a block, as the code cuts it out of a
    word that starts [3 i] bytes in. *)
Lemma digit b k (sh : Z) : bytes_ok b -> (Z.of_nat k + 4 <= zlen b) -> 0 <= sh <= 6 ->
  Z.land (Z.shiftr (load32_le (drop k b)) sh) M26 = (le_num b / 2 ^ (8 * Z.of_nat k + sh)) mod 67108864.
Proof.
  intros Hb Hk Hs. rewrite load32_num; [|by apply Forall_drop|rewrite length_drop; lia].
  rewrite le_num_drop by (done || lia). change M26 with (2 ^ 26 - 1). rewrite land_ones_mod, Z.shiftr_div_pow2 by lia.
  change 256 with (2 ^ 8). rewrite <- Z.pow_mul_r by lia. rewrite Z.pow_add_r by lia. rewrite <- Z.div_div by lia.
  set (v := le_num b / 2 ^ (8 * Z.of_nat k)).
  assert (E : 4294967296 = 2 ^ sh * 2 ^ (32 - sh)) by (rewrite <- Z.pow_add_r by lia; by replace (sh + (32 - sh)) with 32 by lia).
  rewrite E. rewrite Z.rem_mul_r by lia.
  rewrite (Z.add_comm (v mod 2 ^ sh)), Z.mul_comm, Z.div_add_l by lia. rewrite (Z.div_small (v mod _)) by (apply Z.mod_pos_bound; lia).
  rewrite Z.add_0_r. assert (E2 : 2 ^ (32 - sh) = 2 ^ 26 * 2 ^ (6 - sh)) by (rewrite <- Z.pow_add_r by lia; f_equal; lia).
  rewrite E2, Z.rem_mul_r by lia. change (2 ^ 26) with 67108864. rewrite Z.mul_comm, Z.mod_add by lia. apply Z.mod_mod. lia.
Qed.

(** ** Limbs *)

Definition B := 67108864.
Definition p1305 := 2 ^ 130 - 5.
Definition val (h : limbs) : Z := l0 h + B * l1 h + B ^ 2 * l2 h + B ^ 3 * l3 h + B ^ 4 * l4 h.

(** Between blocks: the second limb may hold a small carry. *)
Definition reduced (h : limbs) : Prop :=
  0 <= l0 h < B /\ 0 <= l1 h < B + 64 /\ 0 <= l2 h < B /\ 0 <= l3 h < B /\ 0 <= l4 h < B.
(** After the addition of a block. *)
Definition loaded (h : limbs) : Prop :=
  0 <= l0 h <= 134217792 /\ 0 <= l1 h <= 134217792 /\ 0 <= l2 h <= 134217792 /\ 0 <= l3 h <= 134217792 /\ 0 <= l4 h <= 134217792.
Definition small_r (r : limbs) : Prop :=
  0 <= l0 r < B /\ 0 <= l1 r < B /\ 0 <= l2 r < B /\ 0 <= l3 r < B /\ 0 <= l4 r < B.

Lemma land_bound x m : 0 <= m -> 0 <= x -> 0 <= Z.land x m <= m.
Proof.
  intros Hm Hx. split; [apply Z.land_nonneg; by left|]. rewrite <- (Z2N.id x), <- (Z2N.id m), <- N2Z.inj_land by done.
  apply N2Z.inj_le, N.land_le_r.
Qed.

Lemma M26_mod x : Z.land x M26 = x mod B.
Proof. change M26 with (2 ^ 26 - 1). by rewrite land_ones_mod by lia. Qed.

(** Base-[B] digits of a number below [2 ^ 128]. *)
Lemma digits v : 0 <= v < 2 ^ 128 ->
  v = v mod B + B * ((v / 2 ^ 26) mod B) + B ^ 2 * ((v / 2 ^ 52) mod B) + B ^ 3 * ((v / 2 ^ 78) mod B) + B ^ 4 * (v / 2 ^ 104)
  /\ 0 <= v / 2 ^ 104 < 16777216.
Proof.
  intros Hv. change (2 ^ 104) with (2 ^ 78 * 2 ^ 26). change (2 ^ 78) with (2 ^ 52 * 2 ^ 26). change (2 ^ 52) with (2 ^ 26 * 2 ^ 26).
  rewrite <- !Z.div_div by lia. change (2 ^ 26) with 67108864. unfold B.
  change (67108864 ^ 2) with 4503599627370496. change (67108864 ^ 3) with 302231454903657293676544.
  change (67108864 ^ 4) with 20282409603651670423947251286016. change (2 ^ 128) with 340282366920938463463374607431768211456 in Hv. mlia.
Qed.

(** The clamp of the key's first half. *)
Definition CLAMP := 21267647620597763993911028882763415551.
Lemma land_split a b m n k : 0 <= k -> 0 <= a < 2 ^ k -> 0 <= m < 2 ^ k ->
  Z.land (a + b * 2 ^ k) (m + n * 2 ^ k) = Z.land a m + Z.land b n * 2 ^ k.
Proof.
  intros Hk Ha Hm. assert (Hl : 0 <= Z.land a m < 2 ^ k).
  { pose proof (land_bound a m ltac:(lia) ltac:(lia)). lia. }
  rewrite <- !lor_disjoint_add by lia. apply Z.bits_inj_iff'. intros i Hi.
  rewrite !Z.land_spec, !Z.lor_spec, !Z.shiftl_spec, !Z.land_spec by lia. destruct (Z.ltb_spec i k).
  - rewrite !(Z.testbit_neg_r _ (i - k)) by lia. by rewrite !orb_false_r.
  - assert (Hz : forall x, 0 <= x < 2 ^ k -> Z.testbit x i = false).
    { intros x Hx. rewrite <- (Z.mod_small x (2 ^ k)) by lia. apply Z.mod_pow2_bits_high. lia. }
    rewrite (Hz a), (Hz m) by lia. by rewrite andb_false_l.
Qed.

Lemma land_digit x m : 0 <= x -> 0 <= m < B -> Z.land x m = Z.land (x mod B) m.
Proof. intros Hx Hm. rewrite <- (M26_mod x), <- Z.land_assoc. f_equal. rewrite Z.land_comm, M26_mod, Z.mod_small; lia. Qed.

Lemma shifted_load b k sh : bytes_ok b -> Z.of_nat k + 4 <= zlen b -> 0 <= sh -> 0 <= Z.shiftr (load32_le (drop k b)) sh.
Proof.
  intros Hb Hk Hs. apply Z.shiftr_nonneg. rewrite load32_num; [apply Z.mod_pos_bound; lia|by apply Forall_drop|rewrite length_drop; lia].
Qed.

(** The top word of a block, less its low byte. *)
Lemma top_digit b : bytes_ok b -> length b = 16%nat -> Z.shiftr (load32_le (drop 12 b)) 8 = le_num b / 2 ^ 104.
Proof.
  intros Hb Hl. pose proof (le_num_range b Hb) as Hr. rewrite Hl in Hr. change (256 ^ Z.of_nat 16) with (2 ^ 128) in Hr.
  rewrite load32_num; [|by apply Forall_drop|rewrite length_drop; lia]. rewrite le_num_drop by (done || lia).
  change (256 ^ Z.of_nat 12) with (2 ^ 96). rewrite Z.shiftr_div_pow2 by lia. change (2 ^ 104) with (2 ^ 96 * 2 ^ 8). rewrite <- Z.div_div by lia.
  rewrite Z.mod_small; [done|]. change (2 ^ 128) with (2 ^ 96 * 2 ^ 32) in Hr. change 4294967296 with (2 ^ 32).
  split; [apply Z.div_pos; lia|]. apply Z.div_lt_upper_bound; lia.
Qed.

Lemma poly_r_clamp key : bytes_ok key -> (16 <= length key)%nat ->
  val (poly_r key) = Z.land (le_num (take 16 key)) CLAMP /\ small_r (poly_r key).
Proof.
  intros Hb Hl. set (b := take 16 key).
  assert (Hbb : bytes_ok b) by (by apply Forall_take). assert (Hlb : length b = 16%nat) by (unfold b; rewrite length_take; lia).
  assert (Hload : forall k, (k <= 12)%nat -> load32_le (drop k key) = load32_le (drop k b)).
  { intros k Hk. unfold b. rewrite <- (take_drop 16 key) at 1. rewrite drop_app_le by (rewrite length_take; lia).
    assert (Hlt : (4 <= length (drop k (take 16 key)))%nat) by (rewrite length_drop, length_take; lia).
    destruct (drop k (take 16 key)) as [|x [|y [|z [|t l]]]]; simpl in Hlt; try lia. done. }
  pose proof (Hload 0%nat ltac:(lia)) as L0. rewrite !drop_0 in L0.
  pose proof (le_num_range b Hbb) as Hr. rewrite Hlb in Hr. change (256 ^ Z.of_nat 16) with (2 ^ 128) in Hr.
  pose proof (digit b 0 0 Hbb ltac:(lia) ltac:(lia)) as D0. pose proof (digit b 3 2 Hbb ltac:(lia) ltac:(lia)) as D1.
  pose proof (digit b 6 4 Hbb ltac:(lia) ltac:(lia)) as D2. pose proof (digit b 9 6 Hbb ltac:(lia) ltac:(lia)) as D3.
  pose proof (top_digit b Hbb Hlb) as D4. rewrite drop_0, Z.shiftr_0_r, M26_mod in D0. rewrite M26_mod in D1, D2, D3.
  change (8 * Z.of_nat 0 + 0) with 0 in D0. change (2 ^ 0) with 1 in D0. rewrite Z.div_1_r in D0.
  change (8 * Z.of_nat 3 + 2) with 26 in D1. change (8 * Z.of_nat 6 + 4) with 52 in D2. change (8 * Z.of_nat 9 + 6) with 78 in D3.
  unfold poly_r. rewrite L0, !Hload by lia.
  pose proof (shifted_load b 0 0 Hbb ltac:(lia) ltac:(lia)) as P0. rewrite drop_0, Z.shiftr_0_r in P0.
  pose proof (shifted_load b 3 2 Hbb ltac:(lia) ltac:(lia)) as P1. pose proof (shifted_load b 6 4 Hbb ltac:(lia) ltac:(lia)) as P2.
  pose proof (shifted_load b 9 6 Hbb ltac:(lia) ltac:(lia)) as P3.
  rewrite (land_digit (load32_le b)), (land_digit (Z.shiftr (load32_le (drop 3 b)) 2)), (land_digit (Z.shiftr (load32_le (drop 6 b)) 4)),
    (land_digit (Z.shiftr (load32_le (drop 9 b)) 6)) by (unfold B; lia).
  rewrite D0, D1, D2, D3, D4. destruct (digits (le_num b) Hr) as [Ed E4]. fold B in Ed |- *.
  set (v := le_num b) in *. set (v0 := v mod B) in *. set (v1 := (v / 2 ^ 26) mod B) in *. set (v2 := (v / 2 ^ 52) mod B) in *.
  set (v3 := (v / 2 ^ 78) mod B) in *. set (v4 := v / 2 ^ 104) in *.
  assert (R0 : 0 <= v0 < B) by (apply Z.mod_pos_bound; done). assert (R1 : 0 <= v1 < B) by (apply Z.mod_pos_bound; done).
  assert (R2 : 0 <= v2 < B) by (apply Z.mod_pos_bound; done). assert (R3 : 0 <= v3 < B) by (apply Z.mod_pos_bound; done).
  split.
  - unfold val. cbn [l0 l1 l2 l3 l4].
    assert (EC : CLAMP = 67108863 + (67108611 + (67092735 + (66076671 + 1048575 * 2 ^ 26) * 2 ^ 26) * 2 ^ 26) * 2 ^ 26) by (vm_compute; reflexivity).
    assert (EV : v = v0 + (v1 + (v2 + (v3 + v4 * 2 ^ 26) * 2 ^ 26) * 2 ^ 26) * 2 ^ 26).
    { rewrite Ed at 1. change (2 ^ 26) with B. ring. }
    rewrite EV at 1. rewrite EC, !land_split by (unfold B in *; lia || done). change (2 ^ 26) with B. ring.
  - pose proof (land_bound v0 67108863 ltac:(lia) ltac:(lia)). pose proof (land_bound v1 67108611 ltac:(lia) ltac:(lia)).
    pose proof (land_bound v2 67092735 ltac:(lia) ltac:(lia)). pose proof (land_bound v3 66076671 ltac:(lia) ltac:(lia)).
    pose proof (land_bound v4 1048575 ltac:(lia) ltac:(lia)). unfold small_r, B. cbn [l0 l1 l2 l3 l4]. lia.
Qed.

(** Adding a block. *)
Lemma poly_add_val h b hibit : reduced h -> bytes_ok b -> length b = 16%nat -> hibit = 0 \/ hibit = HIBIT ->
  loaded (poly_add h b hibit) /\ val (poly_add h b hibit) = val h + le_num b + hibit * B ^ 4.
Proof.
  intros (H0 & H1 & H2 & H3 & H4) Hb Hl Hh. pose proof (le_num_range b Hb) as Hr. rewrite Hl in Hr. change (256 ^ Z.of_nat 16) with (2 ^ 128) in Hr.
  pose proof (digit b 0 0 Hb ltac:(lia) ltac:(lia)) as D0. pose proof (digit b 3 2 Hb ltac:(lia) ltac:(lia)) as D1.
  pose proof (digit b 6 4 Hb ltac:(lia) ltac:(lia)) as D2. pose proof (digit b 9 6 Hb ltac:(lia) ltac:(lia)) as D3.
  pose proof (top_digit b Hb Hl) as D4. rewrite drop_0, Z.shiftr_0_r in D0.
  change (8 * Z.of_nat 0 + 0) with 0 in D0. change (2 ^ 0) with 1 in D0. rewrite Z.div_1_r in D0.
  change (8 * Z.of_nat 3 + 2) with 26 in D1. change (8 * Z.of_nat 6 + 4) with 52 in D2. change (8 * Z.of_nat 9 + 6) with 78 in D3.
  destruct (digits (le_num b) Hr) as [Ed E4]. unfold poly_add. rewrite D0, D1, D2, D3, D4. fold B in *.
  set (v := le_num b) in *. set (v0 := v mod B) in *. set (v1 := (v / 2 ^ 26) mod B) in *. set (v2 := (v / 2 ^ 52) mod B) in *.
  set (v3 := (v / 2 ^ 78) mod B) in *. set (v4 := v / 2 ^ 104) in *.
  assert (R0 : 0 <= v0 < B) by (apply Z.mod_pos_bound; done). assert (R1 : 0 <= v1 < B) by (apply Z.mod_pos_bound; done).
  assert (R2 : 0 <= v2 < B) by (apply Z.mod_pos_bound; done). assert (R3 : 0 <= v3 < B) by (apply Z.mod_pos_bound; done).
  assert (El : Z.lor v4 hibit = v4 + hibit).
  { destruct Hh as [->| ->]; [by rewrite Z.lor_0_r, Z.add_0_r|]. change HIBIT with (Z.shiftl 1 24). rewrite lor_disjoint_add by lia. done. }
  rewrite El. assert (Hhb : 0 <= hibit <= 16777216) by (unfold HIBIT in Hh; lia). unfold B in *. unfold loaded, val. cbn [l0 l1 l2 l3 l4].
  rewrite !u32_small by lia. split; [lia|]. rewrite Ed at 1. fold B. ring.
Qed.

(** The product of two bounded limbs. *)
Lemma prod_bound a b A C : 0 <= a <= A -> 0 <= b <= C -> 0 <= a * b <= A * C.
Proof. intros. split; [nia|]. apply Z.mul_le_mono_nonneg; lia. Qed.

(** Carrying five column sums, with the final wrap of the top carry times 5. *)
Lemma carry_chain d0 d1 d2 d3 d4 :
  0 <= d0 <= 189151271725300416 -> 0 <= d1 <= 189151271725300416 -> 0 <= d2 <= 189151271725300416 ->
  0 <= d3 <= 189151271725300416 -> 0 <= d4 <= 45036017077452480 ->
  let h := (let c := Z.shiftr d0 26 in let h0 := Z.land (u32 d0) M26 in
    let d1 := u64 (d1 + c) in let c := Z.shiftr d1 26 in let h1 := Z.land (u32 d1) M26 in
    let d2 := u64 (d2 + c) in let c := Z.shiftr d2 26 in let h2 := Z.land (u32 d2) M26 in
    let d3 := u64 (d3 + c) in let c := Z.shiftr d3 26 in let h3 := Z.land (u32 d3) M26 in
    let d4 := u64 (d4 + c) in let c := Z.shiftr d4 26 in let h4 := Z.land (u32 d4) M26 in
    let h0 := u32 (h0 + u32 (u32 c * 5)) in let c := Z.shiftr h0 26 in
    L5 (Z.land h0 M26) (u32 (h1 + u32 c)) h2 h3 h4) in
  reduced h /\ exists q, val h = d0 + B * d1 + B ^ 2 * d2 + B ^ 3 * d3 + B ^ 4 * d4 - q * p1305.
Proof.
  intros H0 H1 H2 H3 H4. cbv zeta. rewrite !M26_mod, !Z.shiftr_div_pow2 by lia. change (2 ^ 26) with B.
  assert (Em : forall x, u32 x mod B = x mod B).
  { intros x. unfold u32. change 4294967296 with (B * 64). rewrite Z.rem_mul_r by (unfold B; lia).
    rewrite Z.mul_comm, Z.mod_add by (unfold B; lia). apply Z.mod_mod. unfold B; lia. }
  rewrite !Em. unfold B.
  set (c0 := d0 / 67108864). assert (Hc0 : 0 <= c0 <= 3000000000) by (unfold c0; mlia).
  rewrite (u64_small (d1 + c0)) by lia.
  set (c1 := (d1 + c0) / 67108864). assert (Hc1 : 0 <= c1 <= 3000000000) by (unfold c1; mlia).
  rewrite (u64_small (d2 + c1)) by lia.
  set (c2 := (d2 + c1) / 67108864). assert (Hc2 : 0 <= c2 <= 3000000000) by (unfold c2; mlia).
  rewrite (u64_small (d3 + c2)) by lia.
  set (c3 := (d3 + c2) / 67108864). assert (Hc3 : 0 <= c3 <= 3000000000) by (unfold c3; mlia).
  rewrite (u64_small (d4 + c3)) by lia.
  set (c4 := (d4 + c3) / 67108864). assert (Hc4 : 0 <= c4 <= 672000000) by (unfold c4; mlia).
  rewrite (u32_small c4), (u32_small (c4 * 5)) by lia.
  assert (Hd0 : 0 <= d0 mod 67108864 < 67108864) by (apply Z.mod_pos_bound; lia).
  rewrite (u32_small (d0 mod 67108864 + c4 * 5)) by lia.
  set (e := (d0 mod 67108864 + c4 * 5) / 67108864). assert (He : 0 <= e < 64) by (unfold e; mlia).
  rewrite (u32_small e) by lia.
  assert (Hd1 : 0 <= (d1 + c0) mod 67108864 < 67108864) by (apply Z.mod_pos_bound; lia).
  assert (Hd2 : 0 <= (d2 + c1) mod 67108864 < 67108864) by (apply Z.mod_pos_bound; lia).
  assert (Hd3 : 0 <= (d3 + c2) mod 67108864 < 67108864) by (apply Z.mod_pos_bound; lia).
  assert (Hd4 : 0 <= (d4 + c3) mod 67108864 < 67108864) by (apply Z.mod_pos_bound; lia).
  rewrite (u32_small ((d1 + c0) mod 67108864 + e)) by lia.
  assert (Hh0 : 0 <= (d0 mod 67108864 + c4 * 5) mod 67108864 < 67108864) by (apply Z.mod_pos_bound; lia).
  split; [unfold reduced, B; cbn [l0 l1 l2 l3 l4]; lia|]. exists c4. unfold val, p1305. cbn [l0 l1 l2 l3 l4].
  pose proof (Z.div_mod d0 67108864 ltac:(lia)) as E0. pose proof (Z.div_mod (d1 + c0) 67108864 ltac:(lia)) as E1.
  pose proof (Z.div_mod (d2 + c1) 67108864 ltac:(lia)) as E2. pose proof (Z.div_mod (d3 + c2) 67108864 ltac:(lia)) as E3.
  pose proof (Z.div_mod (d4 + c3) 67108864 ltac:(lia)) as E4. pose proof (Z.div_mod (d0 mod 67108864 + c4 * 5) 67108864 ltac:(lia)) as E5.
  fold c0 in E0. fold c1 in E1. fold c2 in E2. fold c3 in E3. fold c4 in E4. fold e in E5. unfold B.
  change (67108864 ^ 2) with 4503599627370496. change (67108864 ^ 3) with 302231454903657293676544.
  change (67108864 ^ 4) with 20282409603651670423947251286016. change (2 ^ 130 - 5) with (67108864 * 20282409603651670423947251286016 - 5). lia.
Qed.

(** A column sum of five bounded products. *)
Lemma column k1 k2 k3 k4 a b c d e :
  0 <= a <= 9007203415490496 -> 0 <= b <= 9007203415490496 -> 0 <= c <= 9007203415490496 ->
  0 <= d <= 9007203415490496 -> 0 <= e <= 9007203415490496 -> 0 <= k1 <= 5 -> 0 <= k2 <= 5 -> 0 <= k3 <= 5 -> 0 <= k4 <= 5 ->
  0 <= a + k1 * b + k2 * c + k3 * d + k4 * e <= 189151271725300416.
Proof.
  intros Ha Hb Hc Hd He K1 K2 K3 K4. pose proof (prod_bound k1 b 5 _ K1 Hb). pose proof (prod_bound k2 c 5 _ K2 Hc).
  pose proof (prod_bound k3 d 5 _ K3 Hd). pose proof (prod_bound k4 e 5 _ K4 He). lia.
Qed.

(** One multiplication: the value is multiplied modulo 2^130 - 5, and nothing
    overflows 64 bits on the way. *)
Lemma poly_mul_val r h : small_r r -> loaded h ->
  reduced (poly_mul r h) /\ exists q, val (poly_mul r h) = val h * val r - q * p1305.
Proof.
  destruct r as [r0 r1 r2 r3 r4], h as [h0 h1 h2 h3 h4]. intros (R0 & R1 & R2 & R3 & R4) (H0 & H1 & H2 & H3 & H4).
  cbn [l0 l1 l2 l3 l4] in *. unfold B in R0, R1, R2, R3, R4.
  assert (P : forall a b, 0 <= a <= 134217792 -> 0 <= b < 67108864 -> 0 <= a * b <= 9007203415490496).
  { intros a b Ha Hb. pose proof (prod_bound a b 134217792 67108863 Ha ltac:(lia)). lia. }
  unfold poly_mul.
  set (D0 := h0 * r0 + h1 * 5 * r4 + h2 * 5 * r3 + h3 * 5 * r2 + h4 * 5 * r1).
  set (D1 := h0 * r1 + h1 * r0 + h2 * 5 * r4 + h3 * 5 * r3 + h4 * 5 * r2).
  set (D2 := h0 * r2 + h1 * r1 + h2 * r0 + h3 * 5 * r4 + h4 * 5 * r3).
  set (D3 := h0 * r3 + h1 * r2 + h2 * r1 + h3 * r0 + h4 * 5 * r4).
  set (D4 := h0 * r4 + h1 * r3 + h2 * r2 + h3 * r1 + h4 * r0).
  assert (E0 : D0 = h0 * r0 + 5 * (h1 * r4) + 5 * (h2 * r3) + 5 * (h3 * r2) + 5 * (h4 * r1)) by (unfold D0; ring).
  assert (E1 : D1 = h0 * r1 + h1 * r0 + 5 * (h2 * r4) + 5 * (h3 * r3) + 5 * (h4 * r2)) by (unfold D1; ring).
  assert (E2 : D2 = h0 * r2 + h1 * r1 + h2 * r0 + 5 * (h3 * r4) + 5 * (h4 * r3)) by (unfold D2; ring).
  assert (E3 : D3 = h0 * r3 + h1 * r2 + h2 * r1 + h3 * r0 + 5 * (h4 * r4)) by (unfold D3; ring).
  assert (E4 : D4 = h0 * r4 + h1 * r3 + h2 * r2 + h3 * r1 + h4 * r0) by (unfold D4; ring).
  assert (B0 : 0 <= D0 <= 189151271725300416) by (rewrite E0; apply (column 5 5 5 5); auto; lia).
  assert (B1 : 0 <= D1 <= 189151271725300416).
  { pose proof (column 1 5 5 5 _ _ _ _ _ (P h0 r1 H0 R1) (P h1 r0 H1 R0) (P h2 r4 H2 R4) (P h3 r3 H3 R3) (P h4 r2 H4 R2)) as Hc.
    rewrite E1. rewrite Z.mul_1_l in Hc. apply Hc; lia. }
  assert (B2 : 0 <= D2 <= 189151271725300416).
  { pose proof (column 1 1 5 5 _ _ _ _ _ (P h0 r2 H0 R2) (P h1 r1 H1 R1) (P h2 r0 H2 R0) (P h3 r4 H3 R4) (P h4 r3 H4 R3)) as Hc.
    rewrite E2. rewrite !Z.mul_1_l in Hc. apply Hc; lia. }
  assert (B3 : 0 <= D3 <= 189151271725300416).
  { pose proof (column 1 1 1 5 _ _ _ _ _ (P h0 r3 H0 R3) (P h1 r2 H1 R2) (P h2 r1 H2 R1) (P h3 r0 H3 R0) (P h4 r4 H4 R4)) as Hc.
    rewrite E3. rewrite !Z.mul_1_l in Hc. apply Hc; lia. }
  assert (B4 : 0 <= D4 <= 45036017077452480).
  { pose proof (P h0 r4 H0 R4) as Q0. pose proof (P h1 r3 H1 R3) as Q1. pose proof (P h2 r2 H2 R2) as Q2.
    pose proof (P h3 r1 H3 R1) as Q3. pose proof (P h4 r0 H4 R0) as Q4. rewrite E4. clear -Q0 Q1 Q2 Q3 Q4. lia. }
  rewrite !(u64_small D0), !(u64_small D1), !(u64_small D2), !(u64_small D3), !(u64_small D4) by lia.
  destruct (carry_chain D0 D1 D2 D3 D4) as [Hred (q & Hq)]; [lia..|]. split; [exact Hred|].
  exists (q + (h1 * r4 + h2 * r3 + h3 * r2 + h4 * r1) + B * (h2 * r4 + h3 * r3 + h4 * r2) + B ^ 2 * (h3 * r4 + h4 * r3) + B ^ 3 * (h4 * r4)).
  etransitivity; [exact Hq|]. unfold val. cbn [l0 l1 l2 l3 l4]. rewrite E0, E1, E2, E3, E4. change p1305 with (B ^ 5 - 5). ring.
Qed.

(** ** The final steps *)

Definition tight (h : limbs) : Prop :=
  0 <= l0 h < B /\ 0 <= l1 h < B /\ 0 <= l2 h < B /\ 0 <= l3 h < B /\ 0 <= l4 h < B.

Lemma tight_val h : tight h -> 0 <= val h < 2 ^ 130.
Proof.
  unfold tight, val, B. intros (H0 & H1 & H2 & H3 & H4). change (67108864 ^ 2) with 4503599627370496.
  change (67108864 ^ 3) with 302231454903657293676544. change (67108864 ^ 4) with 20282409603651670423947251286016.
  change (2 ^ 130) with (67108864 * 20282409603651670423947251286016). lia.
Qed.

Lemma poly_carry_val h : reduced h -> tight (poly_carry h) /\ exists q, val (poly_carry h) = val h - q * p1305.
Proof.
  destruct h as [h0 h1 h2 h3 h4]. intros (H0 & H1 & H2 & H3 & H4). unfold poly_carry. cbn [l0 l1 l2 l3 l4] in *.
  rewrite !M26_mod, !Z.shiftr_div_pow2 by lia. change (2 ^ 26) with B. unfold B in *.
  rewrite (Z.div_small h0), (Z.mod_small h0), Z.add_0_r, (u32_small h1) by lia.
  set (c1 := h1 / 67108864). assert (Hc1 : 0 <= c1 <= 1) by (unfold c1; mlia).
  rewrite (u32_small (h2 + c1)) by lia. set (c2 := (h2 + c1) / 67108864). assert (Hc2 : 0 <= c2 <= c1) by (unfold c2; mlia).
  rewrite (u32_small (h3 + c2)) by lia. set (c3 := (h3 + c2) / 67108864). assert (Hc3 : 0 <= c3 <= c2) by (unfold c3; mlia).
  rewrite (u32_small (h4 + c3)) by lia. set (c4 := (h4 + c3) / 67108864). assert (Hc4 : 0 <= c4 <= c3) by (unfold c4; mlia).
  rewrite (u32_small (5 * c4)), (u32_small (h0 + 5 * c4)) by lia.
  set (e := (h0 + 5 * c4) / 67108864). assert (He : 0 <= e <= c4) by (unfold e; mlia).
  assert (Hm1 : 0 <= h1 mod 67108864 < 67108864 /\ (c1 = 1 -> h1 mod 67108864 < 64)).
  { split; [apply Z.mod_pos_bound; lia|]. unfold c1. intros. mlia. }
  rewrite (u32_small (h1 mod 67108864 + e)) by lia.
  pose proof (Z.mod_pos_bound (h2 + c1) 67108864 ltac:(lia)). pose proof (Z.mod_pos_bound (h3 + c2) 67108864 ltac:(lia)).
  pose proof (Z.mod_pos_bound (h4 + c3) 67108864 ltac:(lia)). pose proof (Z.mod_pos_bound (h0 + 5 * c4) 67108864 ltac:(lia)).
  split; [unfold tight, B; cbn [l0 l1 l2 l3 l4]; lia|]. exists c4. unfold val, p1305, B. cbn [l0 l1 l2 l3 l4].
  pose proof (Z.div_mod h1 67108864 ltac:(lia)) as E1. pose proof (Z.div_mod (h2 + c1) 67108864 ltac:(lia)) as E2.
  pose proof (Z.div_mod (h3 + c2) 67108864 ltac:(lia)) as E3. pose proof (Z.div_mod (h4 + c3) 67108864 ltac:(lia)) as E4.
  pose proof (Z.div_mod (h0 + 5 * c4) 67108864 ltac:(lia)) as E5. fold c1 in E1. fold c2 in E2. fold c3 in E3. fold c4 in E4. fold e in E5.
  change (67108864 ^ 2) with 4503599627370496. change (67108864 ^ 3) with 302231454903657293676544.
  change (67108864 ^ 4) with 20282409603651670423947251286016. change (2 ^ 130 - 5) with (67108864 * 20282409603651670423947251286016 - 5). lia.
Qed.

Lemma pick_zero h g : 0 <= g < 4294967296 -> Z.lor (Z.land h 0) (Z.land g (u32 (Z.lnot 0))) = g.
Proof.
  intros Hg. rewrite Z.land_0_r, Z.lor_0_l. change (u32 (Z.lnot 0)) with (2 ^ 32 - 1).
  rewrite land_ones_mod by lia. apply Z.mod_small. lia.
Qed.
Lemma pick_ones h g : 0 <= h < 4294967296 -> Z.lor (Z.land h (u32 (-1))) (Z.land g (u32 (Z.lnot (u32 (-1))))) = h.
Proof.
  intros Hh. change (u32 (Z.lnot (u32 (-1)))) with 0. rewrite Z.land_0_r, Z.lor_0_r. change (u32 (-1)) with (2 ^ 32 - 1).
  rewrite land_ones_mod by lia. apply Z.mod_small. lia.
Qed.

Lemma poly_select_val h : tight h -> tight (poly_select h) /\ val (poly_select h) = val h mod p1305.
Proof.
  intros Ht. pose proof (tight_val h Ht) as Hv. revert Ht Hv. destruct h as [h0 h1 h2 h3 h4].
  intros (H0 & H1 & H2 & H3 & H4) Hv. unfold poly_select. cbn [l0 l1 l2 l3 l4] in *.
  rewrite !M26_mod, !Z.shiftr_div_pow2 by lia. change (2 ^ 26) with B. unfold B in H0, H1, H2, H3, H4.
  rewrite (u32_small (h0 + 5)) by lia. unfold B.
  set (c0 := (h0 + 5) / 67108864). assert (Hc0 : 0 <= c0 <= 1) by (unfold c0; mlia). rewrite (u32_small (h1 + c0)) by lia.
  set (c1 := (h1 + c0) / 67108864). assert (Hc1 : 0 <= c1 <= 1) by (unfold c1; mlia). rewrite (u32_small (h2 + c1)) by lia.
  set (c2 := (h2 + c1) / 67108864). assert (Hc2 : 0 <= c2 <= 1) by (unfold c2; mlia). rewrite (u32_small (h3 + c2)) by lia.
  set (c3 := (h3 + c2) / 67108864). assert (Hc3 : 0 <= c3 <= 1) by (unfold c3; mlia). rewrite (u32_small (h4 + c3)) by lia.
  set (c4 := (h4 + c3) / 67108864). assert (Hc4 : 0 <= c4 <= 1) by (unfold c4; mlia).
  pose proof (Z.div_mod (h0 + 5) 67108864 ltac:(lia)) as E0. pose proof (Z.div_mod (h1 + c0) 67108864 ltac:(lia)) as E1.
  pose proof (Z.div_mod (h2 + c1) 67108864 ltac:(lia)) as E2. pose proof (Z.div_mod (h3 + c2) 67108864 ltac:(lia)) as E3.
  pose proof (Z.div_mod (h4 + c3) 67108864 ltac:(lia)) as E4. fold c0 in E0. fold c1 in E1. fold c2 in E2. fold c3 in E3. fold c4 in E4.
  pose proof (Z.mod_pos_bound (h0 + 5) 67108864 ltac:(lia)). pose proof (Z.mod_pos_bound (h1 + c0) 67108864 ltac:(lia)).
  pose proof (Z.mod_pos_bound (h2 + c1) 67108864 ltac:(lia)). pose proof (Z.mod_pos_bound (h3 + c2) 67108864 ltac:(lia)).
  pose proof (Z.mod_pos_bound (h4 + c3) 67108864 ltac:(lia)).
  set (g0 := (h0 + 5) mod 67108864) in *. set (g1 := (h1 + c0) mod 67108864) in *. set (g2 := (h2 + c1) mod 67108864) in *.
  set (g3 := (h3 + c2) mod 67108864) in *. set (g4 := (h4 + c3) mod 67108864) in *.
  unfold val, B in Hv |- *. cbn [l0 l1 l2 l3 l4] in Hv |- *.
  change (67108864 ^ 2) with 4503599627370496 in *. change (67108864 ^ 3) with 302231454903657293676544 in *.
  change (67108864 ^ 4) with 20282409603651670423947251286016 in *.
  change (2 ^ 130) with (67108864 * 20282409603651670423947251286016) in Hv.
  set (V := h0 + 67108864 * h1 + 4503599627370496 * h2 + 302231454903657293676544 * h3 + 20282409603651670423947251286016 * h4) in *.
  assert (EG : g0 + 67108864 * g1 + 4503599627370496 * g2 + 302231454903657293676544 * g3 + 20282409603651670423947251286016 * g4
    = V + 5 - c4 * (67108864 * 20282409603651670423947251286016)) by (unfold V; lia).
  assert (Hgb : 0 <= g0 + 67108864 * g1 + 4503599627370496 * g2 + 302231454903657293676544 * g3 + 20282409603651670423947251286016 * g4
    < 67108864 * 20282409603651670423947251286016) by lia.
  unfold p1305. change (2 ^ 130 - 5) with (67108864 * 20282409603651670423947251286016 - 5).
  assert (Hcase : c4 = 0 \/ c4 = 1) by lia. destruct Hcase as [Ec|Ec]; rewrite Ec in *.
  - change (u32 (0 - 1)) with (u32 (-1)). rewrite !pick_ones by lia. split; [unfold tight, B; cbn [l0 l1 l2 l3 l4]; lia|].
    fold V. rewrite Z.mod_small; lia.
  - change (u32 (1 - 1)) with 0. rewrite !pick_zero by lia. split; [unfold tight, B; cbn [l0 l1 l2 l3 l4]; lia|].
    rewrite EG. apply (Z.mod_unique _ _ 1); [left|]; lia.
Qed.

(** A word glued from the high part of a limb and the low part of the next. *)
Lemma glue x y k : 0 <= k <= 32 -> 0 <= x < 2 ^ k -> Z.lor x (u32 (Z.shiftl y k)) = x + (y mod 2 ^ (32 - k)) * 2 ^ k.
Proof.
  intros Hk Hx. assert (E : u32 (Z.shiftl y k) = Z.shiftl (y mod 2 ^ (32 - k)) k).
  { unfold u32. rewrite !Z.shiftl_mul_pow2 by lia. change 4294967296 with (2 ^ 32).
    replace (2 ^ 32) with (2 ^ k * 2 ^ (32 - k)) by (rewrite <- Z.pow_add_r by lia; f_equal; lia).
    rewrite (Z.mul_comm y). rewrite Z.mul_mod_distr_l by lia. apply Z.mul_comm. }
  rewrite E. apply lor_disjoint_add; lia.
Qed.

(** Four 32-bit words added with their carries. *)
Lemma add_words s0 s1 s2 s3 p0 p1 p2 p3 :
  0 <= s0 < 4294967296 -> 0 <= s1 < 4294967296 -> 0 <= s2 < 4294967296 -> 0 <= s3 < 4294967296 ->
  0 <= p0 < 4294967296 -> 0 <= p1 < 4294967296 -> 0 <= p2 < 4294967296 -> 0 <= p3 < 4294967296 ->
  let f0 := u64 (s0 + p0) in let f1 := u64 (s1 + p1 + f0 / 4294967296) in
  let f2 := u64 (s2 + p2 + f1 / 4294967296) in let f3 := u64 (s3 + p3 + f2 / 4294967296) in
  le_num (store32_le (u32 f0) ++ store32_le (u32 f1) ++ store32_le (u32 f2) ++ store32_le (u32 f3))
  = (s0 + 4294967296 * s1 + 18446744073709551616 * s2 + 79228162514264337593543950336 * s3
     + (p0 + 4294967296 * p1 + 18446744073709551616 * p2 + 79228162514264337593543950336 * p3)) mod 2 ^ 128.
Proof.
  intros S0 S1 S2 S3 P0 P1 P2 P3. cbv zeta. rewrite !le_num_app, !store32_num. change (256 ^ zlen (store32_le _)) with 4294967296.
  assert (Ei : forall x, u32 (u32 x) = u32 x) by (intros x; apply Z.mod_mod; lia). rewrite !Ei.
  rewrite (u64_small (s0 + p0)) by lia. assert (0 <= (s0 + p0) / 4294967296 <= 1) by mlia.
  set (c0 := (s0 + p0) / 4294967296) in *. rewrite (u64_small (s1 + p1 + c0)) by lia.
  assert (0 <= (s1 + p1 + c0) / 4294967296 <= 1) by mlia. set (c1 := (s1 + p1 + c0) / 4294967296) in *. rewrite (u64_small (s2 + p2 + c1)) by lia.
  assert (0 <= (s2 + p2 + c1) / 4294967296 <= 1) by mlia. set (c2 := (s2 + p2 + c1) / 4294967296) in *. rewrite (u64_small (s3 + p3 + c2)) by lia.
  change (2 ^ 128) with 340282366920938463463374607431768211456.
  pose proof (Z.div_mod (s0 + p0) 4294967296 ltac:(lia)) as E0. pose proof (Z.div_mod (s1 + p1 + c0) 4294967296 ltac:(lia)) as E1.
  pose proof (Z.div_mod (s2 + p2 + c1) 4294967296 ltac:(lia)) as E2. pose proof (Z.div_mod (s3 + p3 + c2) 4294967296 ltac:(lia)) as E3.
  fold c0 in E0. fold c1 in E1. fold c2 in E2. fold (u32 (s0 + p0)) in E0. fold (u32 (s1 + p1 + c0)) in E1.
  fold (u32 (s2 + p2 + c1)) in E2. fold (u32 (s3 + p3 + c2)) in E3.
  pose proof (u32_range (s0 + p0)). pose proof (u32_range (s1 + p1 + c0)). pose proof (u32_range (s2 + p2 + c1)). pose proof (u32_range (s3 + p3 + c2)).
  apply (Z.mod_unique _ _ ((s3 + p3 + c2) / 4294967296)); [left|]; lia.
Qed.

(** The four words of a 16-byte number. *)
Lemma word_at b k : bytes_ok b -> length b = 16%nat -> (k <= 12)%nat ->
  load32_le (drop k b) = (le_num b / 256 ^ Z.of_nat k) mod 4294967296.
Proof.
  intros Hb Hl Hk. rewrite load32_num; [|by apply Forall_drop|rewrite length_drop; lia]. by rewrite le_num_drop by (done || lia).
Qed.

Lemma poly_pack_val h pad : tight h -> bytes_ok pad -> length pad = 16%nat ->
  le_num (poly_pack h pad) = (val h + le_num pad) mod 2 ^ 128.
Proof.
  destruct h as [h0 h1 h2 h3 h4]. intros (H0 & H1 & H2 & H3 & H4) Hb Hl. cbn [l0 l1 l2 l3 l4] in *. unfold B in *.
  pose proof (le_num_range pad Hb) as Hr. rewrite Hl in Hr. change (256 ^ Z.of_nat 16) with (2 ^ 128) in Hr.
  pose proof (word_at pad 0 Hb Hl ltac:(lia)) as W0. rewrite drop_0 in W0.
  pose proof (word_at pad 4 Hb Hl ltac:(lia)) as W1. pose proof (word_at pad 8 Hb Hl ltac:(lia)) as W2. pose proof (word_at pad 12 Hb Hl ltac:(lia)) as W3.
  unfold poly_pack. rewrite !Z.shiftr_div_pow2 by lia.
  rewrite !glue by (lia || (split; [apply Z.div_pos; lia|apply Z.div_lt_upper_bound; lia])).
  rewrite W0, W1, W2, W3. generalize dependent (le_num pad). intros p Hr W0 W1 W2 W3. clear W0 W1 W2 W3 Hb Hl pad.
  change (256 ^ Z.of_nat 0) with 1. change (256 ^ Z.of_nat 4) with 4294967296. change (256 ^ Z.of_nat 8) with 18446744073709551616.
  change (256 ^ Z.of_nat 12) with 79228162514264337593543950336. rewrite Z.div_1_r.
  change (2 ^ (32 - 26)) with 64. change (2 ^ (32 - 20)) with 4096. change (2 ^ (32 - 14)) with 262144. change (2 ^ (32 - 8)) with 16777216.
  change (2 ^ 26) with 67108864. change (2 ^ 6) with 64. change (2 ^ 20) with 1048576. change (2 ^ 12) with 4096.
  change (2 ^ 14) with 16384. change (2 ^ 18) with 262144. change (2 ^ 8) with 256. change (2 ^ 32) with 4294967296.
  set (s0 := h0 + h1 mod 64 * 67108864). set (s1 := h1 / 64 + h2 mod 4096 * 1048576).
  set (s2 := h2 / 4096 + h3 mod 262144 * 16384). set (s3 := h3 / 262144 + h4 mod 16777216 * 256).
  assert (S0 : 0 <= s0 < 4294967296) by (unfold s0; mlia). assert (S1 : 0 <= s1 < 4294967296) by (unfold s1; mlia).
  assert (S2 : 0 <= s2 < 4294967296) by (unfold s2; mlia). assert (S3 : 0 <= s3 < 4294967296) by (unfold s3; mlia).
  pose proof (Z.mod_pos_bound p 4294967296 ltac:(lia)). pose proof (Z.mod_pos_bound (p / 4294967296) 4294967296 ltac:(lia)).
  pose proof (Z.mod_pos_bound (p / 18446744073709551616) 4294967296 ltac:(lia)).
  pose proof (Z.mod_pos_bound (p / 79228162514264337593543950336) 4294967296 ltac:(lia)).
  etransitivity; [apply add_words; lia|].
  assert (Ep : p mod 4294967296 + 4294967296 * ((p / 4294967296) mod 4294967296) + 18446744073709551616 * ((p / 18446744073709551616) mod 4294967296)
    + 79228162514264337593543950336 * ((p / 79228162514264337593543950336) mod 4294967296) = p).
  { change (2 ^ 128) with 340282366920938463463374607431768211456 in Hr. change 18446744073709551616 with (4294967296 * 4294967296) at 2.
    change 79228162514264337593543950336 with (4294967296 * (4294967296 * 4294967296)) at 2. rewrite <- !Z.div_div by lia. mlia. }
  rewrite Ep. assert (Es : s0 + 4294967296 * s1 + 18446744073709551616 * s2 + 79228162514264337593543950336 * s3
    = val (L5 h0 h1 h2 h3 h4) + - (h4 / 16777216) * 2 ^ 128).
  { unfold val, B, s0, s1, s2, s3. cbn [l0 l1 l2 l3 l4]. change (67108864 ^ 2) with 4503599627370496.
    change (67108864 ^ 3) with 302231454903657293676544. change (67108864 ^ 4) with 20282409603651670423947251286016.
    change (2 ^ 128) with 340282366920938463463374607431768211456. mlia. }
  rewrite Es. replace (val (L5 h0 h1 h2 h3 h4) + - (h4 / 16777216) * 2 ^ 128 + p)
    with (val (L5 h0 h1 h2 h3 h4) + p + - (h4 / 16777216) * 2 ^ 128) by ring. apply Z.mod_add. lia.
Qed.

(** ** The authenticator as a polynomial *)

(** A chunk as a number: its bytes and a final 1. *)
Definition chunk_num (c : list Z) : Z := le_num (c ++ [1]).

(** [acc] after the 16-byte chunks of [msg] (the last may be shorter). *)
Fixpoint poly_eval (fuel : nat) (r acc : Z) (msg : list Z) : Z :=
  match fuel, msg with
  | O, _ | _, [] => acc
  | S f, _ => poly_eval f r ((acc + chunk_num (take 16 msg)) * r mod p1305) (drop 16 msg)
  end.

Definition poly1305_ref (key ad ct : list Z) : Z :=
  let r := Z.land (le_num (take 16 key)) CLAMP in
  let a := poly_eval (length ad) r 0 ad in
  let a := poly_eval (length ct) r a ct in
  let a := (a + chunk_num (store64_le (zlen ad) ++ store64_le (zlen ct))) * r mod p1305 in
  (a + le_num (take 16 (drop 16 key))) mod 2 ^ 128.

Lemma step_mod h r v q a : val h = v * r - q * p1305 -> v mod p1305 = a mod p1305 -> val h mod p1305 = a * r mod p1305.
Proof.
  intros -> E. replace (v * r - q * p1305) with (v * r + - q * p1305) by ring. rewrite Z.mod_add by (unfold p1305; lia).
  rewrite (Z.mul_mod v), (Z.mul_mod a), E by (unfold p1305; lia). done.
Qed.

(** One block, added and multiplied. *)
Lemma poly_step r h b hibit acc : small_r r -> reduced h -> val h mod p1305 = acc -> bytes_ok b -> length b = 16%nat ->
  hibit = 0 \/ hibit = HIBIT ->
  reduced (poly_mul r (poly_add h b hibit))
  /\ val (poly_mul r (poly_add h b hibit)) mod p1305 = (acc + (le_num b + hibit * B ^ 4)) * val r mod p1305.
Proof.
  intros Hr Hh Hv Hb Hl Hi. destruct (poly_add_val h b hibit Hh Hb Hl Hi) as [Hld Ea].
  destruct (poly_mul_val r _ Hr Hld) as [Hred (q & Hq)]. split; [exact Hred|].
  eapply step_mod; [exact Hq|]. rewrite Ea, <- Z.add_assoc, <- Hv. rewrite Z.add_mod_idemp_l by (unfold p1305; lia). done.
Qed.

Lemma poly_block_num msg : bytes_ok msg -> let '(b, hibit) := poly_block msg in
  bytes_ok b /\ length b = 16%nat /\ (hibit = 0 \/ hibit = HIBIT) /\ le_num b + hibit * B ^ 4 = chunk_num (take 16 msg).
Proof.
  intros Hb. unfold poly_block, chunk_num. set (c := take 16 msg). assert (Hc : bytes_ok c) by (by apply Forall_take).
  assert (Hl : (length c <= 16)%nat) by (unfold c; rewrite length_take; lia).
  destruct (Nat.ltb_spec (length c) 16); repeat split.
  - apply Forall_app. split; [done|]. constructor; [done|]. apply Forall_forall. intros z Hz%list_elem_of_In%repeat_spec. by subst.
  - rewrite length_app. cbn [length]. rewrite repeat_length. lia.
  - by left.
  - rewrite !le_num_app. cbn [le_num]. rewrite le_num_zeros. lia.
  - done.
  - lia.
  - by right.
  - rewrite le_num_app. replace (length c) with 16%nat by lia. unfold HIBIT, B. cbn [le_num].
    change (256 ^ Z.of_nat 16) with (16777216 * 67108864 ^ 4). lia.
Qed.

Lemma poly_pass_val fuel r msg : forall h acc, small_r r -> reduced h -> val h mod p1305 = acc mod p1305 -> bytes_ok msg ->
  reduced (poly_pass fuel r h msg) /\ val (poly_pass fuel r h msg) mod p1305 = poly_eval fuel (val r) acc msg mod p1305.
Proof.
  revert msg. induction fuel as [|f IH]; intros msg h acc Hr Hh Hv Hb; [done|]. destruct msg as [|x msg']; [done|].
  cbn [poly_pass poly_eval]. set (msg := x :: msg') in *. pose proof (poly_block_num msg Hb) as Hbl.
  destruct (poly_block msg) as [b hibit]. destruct Hbl as (Hbb & Hlb & Hi & En).
  destruct (poly_step r h b hibit _ Hr Hh eq_refl Hbb Hlb Hi) as [Hred E].
  apply IH; [done|done| |by apply Forall_drop]. rewrite E, En, Hv. rewrite Z.mod_mod by (unfold p1305; lia).
  rewrite Z.mul_mod by (unfold p1305; lia). rewrite Z.add_mod_idemp_l by (unfold p1305; lia). rewrite <- Z.mul_mod by (unfold p1305; lia). done.
Qed.

Lemma poly_final_val h pad : reduced h -> bytes_ok pad -> length pad = 16%nat ->
  le_num (poly_final h pad) = (val h mod p1305 + le_num pad) mod 2 ^ 128.
Proof.
  intros Hh Hb Hl. unfold poly_final. destruct (poly_carry_val h Hh) as [Ht (q & Hq)].
  destruct (poly_select_val _ Ht) as [Ht2 E2]. rewrite poly_pack_val by done. rewrite E2, Hq.
  replace (val h - q * p1305) with (val h + - q * p1305) by ring. rewrite Z.mod_add by (unfold p1305; lia). done.
Qed.

(** C37: for every key, associated data and ciphertext, the tag computed in
    five 26-bit limbs with deferred carries is the reference polynomial over
    the 16-byte chunks, evaluated at the clamped key modulo 2^130 - 5 and added
    to the pad modulo 2^128: no 32- or 64-bit intermediate loses a carry. *)
Theorem poly1305_mac_polynomial key ad ct : bytes_ok key -> (32 <= length key)%nat -> bytes_ok ad -> bytes_ok ct ->
  le_num (poly1305_mac key ad ct) = poly1305_ref key ad ct.
Proof.
  intros Hk Hl Ha Hc. unfold poly1305_mac, poly1305_ref. destruct (poly_r_clamp key Hk ltac:(lia)) as [Er Hr]. rewrite <- Er.
  assert (Hz : reduced (L5 0 0 0 0 0)) by (unfold reduced, B; cbn [l0 l1 l2 l3 l4]; lia).
  destruct (poly_pass_val (length ad) _ ad _ 0 Hr Hz eq_refl Ha) as [H1 E1].
  destruct (poly_pass_val (length ct) _ ct _ _ Hr H1 E1 Hc) as [H2 E2].
  set (lens := store64_le (zlen ad) ++ store64_le (zlen ct)).
  destruct (poly_step _ _ lens HIBIT _ Hr H2 E2) as [H3 E3]; [|done|by right|].
  { apply Forall_app. split; apply store64_bytes. }
  rewrite poly_final_val; [|done|by apply Forall_take, Forall_drop|rewrite length_take, length_drop; lia].
  f_equal. f_equal. rewrite E3. unfold chunk_num. rewrite le_num_app. change (zlen lens) with 16. cbn [le_num].
  replace (HIBIT * B ^ 4) with (256 ^ 16 * (1 + 256 * 0)) by (unfold HIBIT, B; lia).
  rewrite Z.mul_mod, Z.add_mod_idemp_l, <- Z.mul_mod by (unfold p1305; lia). done.
Qed.

Example poly1305_mac_polynomial_witness :
  le_num (poly1305_mac (seq_bytes 32) [1; 2; 3] (seq_bytes 21)) = poly1305_ref (seq_bytes 32) [1; 2; 3] (seq_bytes 21).
Proof. apply poly1305_mac_polynomial; [apply (bool_decide_unpack _); vm_compute; exact I|vm_compute; lia|apply (bool_decide_unpack _); vm_compute; exact I..]. Defined.

(** The vector of RFC 8439, section 2.8.2: the RFC pads associated data and
    ciphertext with zeros to whole blocks before the polynomial ([pad16]); the
    code ends a partial chunk with a 1 instead, so the tags differ. *)
Definition rfc_key : list Z := [123; 172; 43; 37; 45; 180; 71; 175; 9; 182; 122; 85; 164; 233; 85; 132; 10; 225; 214; 115; 16; 117; 217; 235; 42; 147; 117; 120; 62; 213; 83; 255].
Definition rfc_ad : list Z := [80; 81; 82; 83; 192; 193; 194; 195; 196; 197; 198; 199].
Definition rfc_ct : list Z :=
  [211; 26; 141; 52; 100; 142; 96; 219; 123; 134; 175; 188; 83; 239; 126; 194; 164; 173; 237; 81; 41; 110; 8; 254; 169; 226; 181; 167; 54; 238; 98; 214; 61; 190; 164; 94; 140; 169; 103; 18; 130; 250; 251; 105; 218; 146; 114; 139; 26; 113; 222; 10; 158; 6; 11; 41; 5; 214; 165; 182; 126; 205; 59; 54; 146; 221; 189; 127; 45; 119; 139; 140; 152; 3; 174; 227; 40; 9; 27; 88; 250; 179; 36; 228; 250; 214; 117; 148; 85; 133; 128; 139; 72; 49; 215; 188; 63; 244; 222; 240; 142; 75; 122; 157; 229; 118; 210; 101; 134; 206; 198; 75; 97; 22].
Definition rfc_tag : list Z := [26; 225; 11; 89; 79; 9; 226; 106; 126; 144; 46; 203; 208; 96; 6; 145].
Definition pad16 (m : list Z) : list Z := m ++ repeat 0 ((16 - length m mod 16) mod 16).
Definition rfc8439_tag (key ad ct : list Z) : Z :=
  let r := Z.land (le_num (take 16 key)) CLAMP in
  let a := poly_eval (length (pad16 ad)) r 0 (pad16 ad) in
  let a := poly_eval (length (pad16 ct)) r a (pad16 ct) in
  let a := (a + chunk_num (store64_le (zlen ad) ++ store64_le (zlen ct))) * r mod p1305 in
  (a + le_num (take 16 (drop 16 key))) mod 2 ^ 128.

Lemma rfc8439_vector_differs : rfc8439_tag rfc_key rfc_ad rfc_ct = le_num rfc_tag /\ poly1305_mac rfc_key rfc_ad rfc_ct <> rfc_tag.
Proof. split; [vm_compute; reflexivity|vm_compute; discriminate]. Qed.

(** On whole blocks the two agree. *)
Lemma rfc8439_aligned key ad ct :
  (length ad mod 16 = 0)%nat -> (length ct mod 16 = 0)%nat -> poly1305_ref key ad ct = rfc8439_tag key ad ct.
Proof.
  intros Ha Hc. assert (E : forall m, (length m mod 16 = 0)%nat -> pad16 m = m) by (intros m Hm; unfold pad16; rewrite Hm; apply app_nil_r).
  unfold poly1305_ref, rfc8439_tag. by rewrite !E.
Qed.

(** ** The stream cipher *)

Lemma chacha20_block_length st : length (chacha20_block st) = 64%nat.
Proof. reflexivity. Qed.
Lemma chacha20_block_bytes st : bytes_ok (chacha20_block st).
Proof. unfold chacha20_block. apply Forall_concat, Forall_fmap, Forall_forall. intros i _. apply store32_bytes. Qed.
#[global] Opaque chacha20_block.

Lemma byte_high x i : is_byte x -> 8 <= i -> Z.testbit x i = false.
Proof. unfold is_byte. intros Hx Hi. rewrite <- (Z.mod_small x (2 ^ 8)) by lia. by apply Z.mod_pow2_bits_high. Qed.
Lemma byte_by_bits x : (forall i, 8 <= i -> Z.testbit x i = false) -> is_byte x.
Proof.
  intros H. assert (E : x = x mod 2 ^ 8); [|rewrite E; apply Z.mod_pos_bound; lia].
  apply Z.bits_inj_iff'. intros i Hi. destruct (Z.ltb_spec i 8); [by rewrite Z.mod_pow2_bits_low by lia|].
  rewrite Z.mod_pow2_bits_high by lia. by apply H.
Qed.
Lemma lxor_byte x y : is_byte x -> is_byte y -> is_byte (Z.lxor x y).
Proof. intros Hx Hy. apply byte_by_bits. intros i Hi. by rewrite Z.lxor_spec, !byte_high by done. Qed.
Lemma lor_byte x y : is_byte x -> is_byte y -> is_byte (Z.lor x y).
Proof. intros Hx Hy. apply byte_by_bits. intros i Hi. by rewrite Z.lor_spec, !byte_high by done. Qed.

Lemma xor_bytes_cancel a b : bytes_ok a -> bytes_ok b -> (length a <= length b)%nat -> xor_bytes (xor_bytes a b) b = a.
Proof.
  unfold xor_bytes. intros Ha. revert b. induction Ha as [|x a Hx Ha IH]; intros [|y b] Hb Hl; simpl in Hl; try lia; [done..|].
  apply Forall_cons in Hb as [Hy Hb]. cbn [zip_with]. f_equal; [|apply IH; [done|lia]].
  pose proof (lxor_byte x y Hx Hy) as Hxy. unfold is_byte in Hxy, Hx.
  rewrite (u8_small (Z.lxor x y)) by done. rewrite Z.lxor_assoc, Z.lxor_nilpotent, Z.lxor_0_r. by apply u8_small.
Qed.
Lemma xor_bytes_length a b : (length a <= length b)%nat -> length (xor_bytes a b) = length a.
Proof. intros H. unfold xor_bytes. rewrite length_zip_with. lia. Qed.
Lemma xor_bytes_ok a b : bytes_ok (xor_bytes a b).
Proof. unfold xor_bytes. revert b. induction a as [|x a IH]; intros [|y b]; cbn [zip_with]; constructor; auto. apply u8_range. Qed.

Lemma xor_loop_length f key n12 : forall c inp, (length inp <= f)%nat -> length (xor_loop f key n12 c inp) = length inp.
Proof.
  induction f as [|f IH]; intros c inp Hf; [by destruct inp; simpl in *; [|lia]|]. destruct inp as [|x inp']; [done|].
  cbn [xor_loop]. set (inp := x :: inp') in *. assert (Hp : (0 < length inp)%nat) by (unfold inp; simpl; lia).
  rewrite length_app, xor_bytes_length, IH, length_take, length_drop; [lia|rewrite length_drop; lia|].
  rewrite chacha20_block_length, length_take. lia.
Qed.

Lemma xor_loop_bytes f key n12 : forall c inp, bytes_ok (xor_loop f key n12 c inp).
Proof.
  induction f as [|f IH]; intros c inp; [constructor|]. destruct inp as [|x inp']; [constructor|].
  cbn [xor_loop]. apply Forall_app. split; [apply xor_bytes_ok|apply IH].
Qed.

Lemma xor_loop_twice f key n12 : forall c inp, (length inp <= f)%nat -> bytes_ok inp ->
  xor_loop f key n12 c (xor_loop f key n12 c inp) = inp.
Proof.
  induction f as [|f IH]; intros c inp Hf Hb; [by destruct inp; simpl in *; [|lia]|]. destruct inp as [|x inp']; [done|].
  set (inp := x :: inp') in *. assert (Hp : (0 < length inp)%nat) by (unfold inp; simpl; lia).
  assert (E : forall c' l, (0 < length l)%nat -> xor_loop (S f) key n12 c' l
    = xor_bytes (take 64 l) (chacha20_block (chacha_state key n12 c')) ++ xor_loop f key n12 (u32 (c' + 1)) (drop 64 l)).
  { intros c' [|y l] Hl; [simpl in Hl; lia|done]. }
  rewrite (E c inp) by done. set (blk := chacha20_block (chacha_state key n12 c)).
  set (h := xor_bytes (take 64 inp) blk). assert (Hh : length h = length (take 64 inp)).
  { apply xor_bytes_length. unfold blk. rewrite chacha20_block_length, length_take. lia. }
  set (tl := xor_loop f key n12 (u32 (c + 1)) (drop 64 inp)). assert (Htl : length tl = length (drop 64 inp)).
  { apply xor_loop_length. rewrite length_drop. lia. }
  rewrite length_take in Hh. rewrite length_drop in Htl. rewrite E by (rewrite length_app; lia). fold blk.
  assert (Et : take 64 (h ++ tl) = h /\ drop 64 (h ++ tl) = tl).
  { destruct (decide (64 <= length inp)%nat).
    - rewrite take_app_length', drop_app_length' by lia. done.
    - assert (tl = []) as -> by (apply nil_length_inv; lia). rewrite app_nil_r, take_ge, drop_ge by lia. done. }
  destruct Et as [-> ->]. unfold h, tl. rewrite xor_bytes_cancel, IH.
  - apply take_drop.
  - rewrite length_drop. lia.
  - by apply Forall_drop.
  - by apply Forall_take.
  - apply chacha20_block_bytes.
  - unfold blk. rewrite chacha20_block_length, length_take. lia.
Qed.

Lemma chacha20_xor_length key n12 c inp : length (chacha20_xor key n12 c inp) = length inp.
Proof. by apply xor_loop_length. Qed.
Lemma chacha20_xor_twice key n12 c inp : bytes_ok inp -> chacha20_xor key n12 c (chacha20_xor key n12 c inp) = inp.
Proof. intros Hb. unfold chacha20_xor at 1. rewrite chacha20_xor_length. by apply xor_loop_twice. Qed.

(** ** The tag comparison *)

Lemma at_byte (l : list Z) i : bytes_ok l -> (i < length l)%nat -> is_byte (at_ l i).
Proof.
  intros Hl Hi. destruct (lookup_lt_is_Some_2 l i Hi) as [v Hv]. unfold at_. rewrite (nth_lookup_Some _ _ _ _ Hv). by eapply Forall_lookup_1 in Hl.
Qed.

Lemma tag_diff_loop a b js : (forall i, i ∈ js -> is_byte (at_ a i) /\ is_byte (at_ b i)) -> forall d, is_byte d ->
  foldl (fun d i => u8 (Z.lor d (Z.lxor (at_ a i) (at_ b i)))) d js = 0 <-> (d = 0 /\ forall i, i ∈ js -> at_ a i = at_ b i).
Proof.
  induction js as [|i js IH]; intros Hi d Hd; cbn [foldl].
  { split; [intros ->; split; [reflexivity|]; intros i Hin; by apply not_elem_of_nil in Hin|intros [-> _]; reflexivity]. }
  destruct (Hi i ltac:(left)) as [Ha Hb]. pose proof (lor_byte _ _ Hd (lxor_byte _ _ Ha Hb)) as Hl.
  rewrite (u8_small (Z.lor _ _)) by exact Hl. rewrite IH; [|intros j Hj; apply Hi; by right|done]. rewrite Z.lor_eq_0_iff, Z.lxor_eq_0_iff.
  split; [intros ((-> & E) & H); split; [done|]; intros j [->|Hj]%elem_of_cons; auto|].
  intros [-> H]. split; [split; [done|apply H; by left]|intros j Hj; apply H; by right].
Qed.

Lemma tag_diff_eq a b : bytes_ok a -> bytes_ok b -> length a = 16%nat -> length b = 16%nat -> tag_diff a b = 0 <-> a = b.
Proof.
  intros Ha Hb La Lb. unfold tag_diff. rewrite tag_diff_loop; [|intros i [_ Hi]%elem_of_seq; split; apply at_byte; (done || lia)|done].
  split; [|intros ->; done]. intros [_ H]. apply (list_eq_same_length a b 16); [lia..|]. intros i x y Hi Hx Hy.
  specialize (H i ltac:(apply elem_of_seq; lia)). unfold at_ in H. rewrite (nth_lookup_Some _ _ _ _ Hx), (nth_lookup_Some _ _ _ _ Hy) in H. done.
Qed.

Lemma poly1305_mac_shape key ad ct : bytes_ok (poly1305_mac key ad ct) /\ length (poly1305_mac key ad ct) = 16%nat.
Proof.
  unfold poly1305_mac, poly_final, poly_pack. destruct (poly_select _) as [h0 h1 h2 h3 h4].
  split; [repeat (apply Forall_app; split); apply store32_bytes|done].
Qed.

(** ** The AEAD's contract *)

(** Sealing never fails on a real buffer, and opening undoes it. *)
Lemma aead_seal key nonce ad (pt : option (list Z)) buf :
  bytes_ok (default [] pt) -> default [] pt = [] \/ buf = true ->
  exists ct tag, pm_metal_wg_aead_encrypt key nonce ad pt (zlen (default [] pt)) true = Some (ct, tag)
    /\ length ct = length (default [] pt) /\ length tag = 16%nat /\ bytes_ok ct /\ bytes_ok tag
    /\ pm_metal_wg_aead_decrypt key nonce ad ct tag buf = Some (default [] pt).
Proof.
  intros Hb Hbuf. unfold pm_metal_wg_aead_encrypt, pm_metal_wg_aead_decrypt. set (pkey := poly_key key nonce).
  destruct (Z.eqb_spec (zlen (default [] pt)) 0) as [E|E]; cbn [negb andb orb].
  - assert (Ep : default [] pt = []) by (apply nil_length_inv; lia). rewrite Ep. exists [], (poly1305_mac pkey ad []).
    destruct (poly1305_mac_shape pkey ad []) as [H1 H2]. split; [done|]. split; [done|]. split; [done|]. split; [constructor|]. split; [done|].
    rewrite (proj2 (tag_diff_eq _ _ H1 H1 H2 H2)) by done. done.
  - destruct Hbuf as [Hbuf| ->]; [rewrite Hbuf in E; done|]. destruct pt as [p|]; [|done]. change (default [] (Some p)) with p in *.
    rewrite (bool_decide_false (Some p = None)) by done. cbn [negb andb orb].
    exists (chacha20_xor key (noise_nonce nonce) 1 p), (poly1305_mac pkey ad (chacha20_xor key (noise_nonce nonce) 1 p)).
    destruct (poly1305_mac_shape pkey ad (chacha20_xor key (noise_nonce nonce) 1 p)) as [H1 H2].
    split; [done|]. split; [apply chacha20_xor_length|]. split; [done|]. split; [apply xor_loop_bytes|]. split; [done|].
    rewrite (proj2 (tag_diff_eq _ _ H1 H1 H2 H2)) by done. cbn [Z.eqb negb]. rewrite chacha20_xor_length, andb_false_r.
    rewrite (proj2 (Z.eqb_neq _ _)) by done. cbn [negb]. by rewrite chacha20_xor_twice.
Qed.

(** Decrypting what [pm_metal_wg_aead_encrypt] produced, under the same
    key, nonce and associated data, returns the plaintext; the ciphertext is as
    long as the plaintext and the tag has 16 bytes. *)
Theorem aead_round_trip key nonce ad pt ct tag : bytes_ok pt ->
  pm_metal_wg_aead_encrypt key nonce ad (Some pt) (zlen pt) true = Some (ct, tag) ->
  length ct = length pt /\ length tag = 16%nat /\ pm_metal_wg_aead_decrypt key nonce ad ct tag true = Some pt.
Proof.
  intros Hb H. destruct (aead_seal key nonce ad (Some pt) true Hb ltac:(by right)) as (ct' & tag' & E & Hl & Ht & _ & _ & Hd).
  change (default [] (Some pt)) with pt in *. rewrite H in E. by simplify_eq.
Qed.

Example aead_round_trip_witness :
  let key := seq_bytes 32 in let pt := seq_bytes 70 in
  pm_metal_wg_aead_decrypt key 5 [1; 2] (chacha20_xor key (noise_nonce 5) 1 pt)
    (poly1305_mac (poly_key key 5) [1; 2] (chacha20_xor key (noise_nonce 5) 1 pt)) true = Some pt.
Proof. apply (aead_round_trip (seq_bytes 32) 5 [1; 2] (seq_bytes 70)); [apply (bool_decide_unpack _); vm_compute; exact I|reflexivity]. Defined.

(** Decryption accepts a 16-byte tag only when it is the one computed over
    the associated data and the ciphertext: a changed tag is refused, and a
    plaintext is only ever released behind the right tag. *)
Theorem aead_decrypt_authentic key nonce ad ct tag pt_buf : bytes_ok tag -> length tag = 16%nat ->
  pm_metal_wg_aead_decrypt key nonce ad ct tag pt_buf =
    if bool_decide (tag = poly1305_mac (poly_key key nonce) ad ct) && (bool_decide (ct = []) || pt_buf)
    then Some (chacha20_xor key (noise_nonce nonce) 1 ct) else None.
Proof.
  intros Ht Hl. unfold pm_metal_wg_aead_decrypt. destruct (poly1305_mac_shape (poly_key key nonce) ad ct) as [H1 H2].
  set (mac := poly1305_mac (poly_key key nonce) ad ct) in *. destruct (Z.eqb_spec (tag_diff mac tag) 0) as [E|E]; cbn [negb].
  - apply (tag_diff_eq _ _ H1 Ht H2 Hl) in E as <-. rewrite (bool_decide_true (mac = mac)) by done. cbn [andb].
    destruct ct as [|x ct']; [done|]. rewrite (bool_decide_false (x :: ct' = [])) by done. destruct pt_buf; done.
  - rewrite (bool_decide_false (tag = mac)); [done|]. intros ->. apply E. by apply (tag_diff_eq _ _ H1 H1 H2 H2).
Qed.

Example aead_decrypt_authentic_witness :
  pm_metal_wg_aead_decrypt (seq_bytes 32) 5 [] [7] (repeat 9 16) true = None.
Proof.
  assert (E : repeat 9 16 <> poly1305_mac (poly_key (seq_bytes 32) 5) [] [7]) by (vm_compute; discriminate).
  rewrite (aead_decrypt_authentic (seq_bytes 32) 5 [] [7] (repeat 9 16) true); [|apply (bool_decide_unpack _); vm_compute; exact I|done].
  by rewrite (bool_decide_false _ E).
Defined.
End WgAead.
