(* ===== verification/WgBlake.v ===== *)
(** * BLAKE2s, HMAC and HKDF of the wg card

    The hash half of src/.../metal/net/wg/__crypto__.c: the compression
    function on sixteen-word lists, the streaming loop, and the two key
    derivations of the handshake.  The loop is proved equal to the block-wise
    definition of RFC 7693. *)
From S2P Require Import Prelude WgCrypto.

Module WgBlake.
Import WgCrypto.

(** ** The compression function *)

Definition BLAKE2S_IV0 := 1779033703.
Definition BLAKE2S_IV1 := 3144134277.
Definition BLAKE2S_IV2 := 1013904242.
Definition BLAKE2S_IV3 := 2773480762.
Definition BLAKE2S_IV4 := 1359893119.
Definition BLAKE2S_IV5 := 2600822924.
Definition BLAKE2S_IV6 := 528734635.
Definition BLAKE2S_IV7 := 1541459225.

Definition rotr32 (x n : Z) : Z := Z.lor (Z.shiftr x n) (u32 (Z.shiftl x (32 - n))).

Definition blake2s_sigma : list (list nat) :=
  [[0; 1; 2; 3; 4; 5; 6; 7; 8; 9; 10; 11; 12; 13; 14; 15];
   [14; 10; 4; 8; 9; 15; 13; 6; 1; 12; 0; 2; 11; 7; 5; 3];
   [11; 8; 12; 0; 5; 2; 15; 13; 10; 14; 3; 6; 7; 1; 9; 4];
   [7; 9; 3; 1; 13; 12; 11; 14; 2; 6; 5; 10; 4; 0; 15; 8];
   [9; 0; 5; 7; 2; 4; 10; 15; 14; 1; 11; 12; 6; 8; 3; 13];
   [2; 12; 6; 10; 0; 11; 8; 3; 4; 13; 7; 5; 15; 14; 1; 9];
   [12; 5; 1; 15; 14; 13; 4; 10; 0; 7; 6; 3; 9; 2; 8; 11];
   [13; 11; 7; 14; 12; 1; 3; 9; 5; 0; 15; 4; 8; 6; 2; 10];
   [6; 15; 14; 9; 11; 3; 0; 8; 12; 2; 13; 7; 1; 4; 10; 5];
   [10; 2; 8; 4; 7; 6; 1; 5; 15; 11; 9; 14; 3; 12; 13; 0]]%nat.

Definition B2S_G (v : list Z) (a b c d : nat) (x y : Z) : list Z :=
  let v := <[a := u32 (at_ v a + at_ v b + x)]> v in
  let v := <[d := rotr32 (Z.lxor (at_ v d) (at_ v a)) 16]> v in
  let v := <[c := u32 (at_ v c + at_ v d)]> v in
  let v := <[b := rotr32 (Z.lxor (at_ v b) (at_ v c)) 12]> v in
  let v := <[a := u32 (at_ v a + at_ v b + y)]> v in
  let v := <[d := rotr32 (Z.lxor (at_ v d) (at_ v a)) 8]> v in
  let v := <[c := u32 (at_ v c + at_ v d)]> v in
  <[b := rotr32 (Z.lxor (at_ v b) (at_ v c)) 7]> v.

(** One of the ten rounds, under the permutation [s]. *)
Definition b2s_round (m : list Z) (v : list Z) (s : list nat) : list Z :=
  let x i := at_ m (nth i s 0%nat) in
  let v := B2S_G v 0 4 8 12 (x 0%nat) (x 1%nat) in let v := B2S_G v 1 5 9 13 (x 2%nat) (x 3%nat) in
  let v := B2S_G v 2 6 10 14 (x 4%nat) (x 5%nat) in let v := B2S_G v 3 7 11 15 (x 6%nat) (x 7%nat) in
  let v := B2S_G v 0 5 10 15 (x 8%nat) (x 9%nat) in let v := B2S_G v 1 6 11 12 (x 10%nat) (x 11%nat) in
  let v := B2S_G v 2 7 8 13 (x 12%nat) (x 13%nat) in B2S_G v 3 4 9 14 (x 14%nat) (x 15%nat).

Definition blake2s_compress (h block : list Z) (t : Z) (last : bool) : list Z :=
  let m := (fun i => load32_le (drop (4 * i) block)) <$> seq 0 16 in
  let v14 := if last then u32 (Z.lnot BLAKE2S_IV6) else BLAKE2S_IV6 in
  let v := (at_ h <$> seq 0 8) ++ [BLAKE2S_IV0; BLAKE2S_IV1; BLAKE2S_IV2; BLAKE2S_IV3; Z.lxor BLAKE2S_IV4 (u32 t);
    Z.lxor BLAKE2S_IV5 (u32 (Z.shiftr t 32)); v14; BLAKE2S_IV7] in
  let v := foldl (b2s_round m) v blake2s_sigma in
  (fun i => Z.lxor (at_ h i) (Z.lxor (at_ v i) (at_ v (i + 8)))) <$> seq 0 8.

(** ** The hash *)

Definition b2s_init : list Z :=
  [Z.lxor BLAKE2S_IV0 16842784; BLAKE2S_IV1; BLAKE2S_IV2; BLAKE2S_IV3; BLAKE2S_IV4; BLAKE2S_IV5; BLAKE2S_IV6; BLAKE2S_IV7].

(** The [while (n > 64)] loop: the chaining value, the counter and what is left. *)
Fixpoint b2s_loop (fuel : nat) (h : list Z) (t : Z) (inp : list Z) : list Z * Z * list Z :=
  match fuel with
  | O => (h, t, inp)
  | S f => if (64 <? length inp)%nat
           then let t := u64 (t + 64) in b2s_loop f (blake2s_compress h (take 64 inp) t false) t (drop 64 inp)
           else (h, t, inp)
  end.

Definition pad64 (b : list Z) : list Z := b ++ repeat 0 (64 - length b).

Definition pm_metal_wg_blake2s (inp : list Z) : list Z :=
  let '(h, t, rest) := b2s_loop (length inp) b2s_init 0 inp in
  let h := blake2s_compress h (pad64 rest) (u64 (t + zlen rest)) true in
  concat ((fun i => store32_le (at_ h i)) <$> seq 0 8).

(** [inner[64 + 256]] and [outer[64 + 32]] as byte lists. *)
Definition hmac_blake2s (key inp : list Z) : list Z :=
  let key := if (64 <? length key)%nat then pm_metal_wg_blake2s key else key in
  let kpad := pad64 key in
  let inner := (fun k => u8 (Z.lxor k 54)) <$> kpad in
  let outer := (fun k => u8 (Z.lxor k 92)) <$> kpad in
  let inp := if (256 <? length inp)%nat then take 256 inp else inp in
  pm_metal_wg_blake2s (outer ++ pm_metal_wg_blake2s (inner ++ inp)).

(** A NULL [ikm] is the empty one. *)
Definition pm_metal_wg_hkdf2 (ck : list Z) (ikm : option (list Z)) : list Z * list Z :=
  let prk := hmac_blake2s ck (default [] ikm) in
  let out1 := hmac_blake2s prk [1] in
  (out1, hmac_blake2s prk (out1 ++ [2])).

(** ** The block-wise definition of RFC 7693

    [dd] blocks, the last zero-padded; block [i] below the last is compressed
    with the counter [64 (i + 1)], the last with the message length and the
    finalisation flag. *)
Definition rfc_blocks (msg : list Z) : nat := Nat.max 1 ((length msg + 63) / 64).
Definition rfc_block (msg : list Z) (i : nat) : list Z := pad64 (take 64 (drop (64 * i) msg)).
Definition rfc_blake2s (msg : list Z) : list Z :=
  let dd := rfc_blocks msg in
  let h := foldl (fun h i => blake2s_compress h (rfc_block msg i) (64 * (Z.of_nat i + 1)) false) b2s_init (seq 0 (dd - 1)) in
  let h := blake2s_compress h (rfc_block msg (dd - 1)) (zlen msg) true in
  concat ((fun i => store32_le (at_ h i)) <$> seq 0 8).

#[global] Opaque blake2s_compress.

Lemma pad64_full b : (64 <= length b)%nat -> pad64 b = b.
Proof. intros H. unfold pad64. replace (64 - length b)%nat with 0%nat by lia. apply app_nil_r. Qed.

(** The loop, started at block [k], has compressed the blocks up to the last. *)
Lemma b2s_loop_blocks msg fuel : zlen msg < 2 ^ 64 -> forall k h, (length (drop (64 * k) msg) <= fuel)%nat -> (k = 0 \/ 64 * k < length msg)%nat ->
  b2s_loop fuel h (64 * Z.of_nat k) (drop (64 * k) msg)
  = (foldl (fun h i => blake2s_compress h (rfc_block msg i) (64 * (Z.of_nat i + 1)) false) h (seq k (rfc_blocks msg - 1 - k)),
     64 * Z.of_nat (rfc_blocks msg - 1), drop (64 * (rfc_blocks msg - 1)) msg).
Proof.
  intros Hm. induction fuel as [|f IH]; intros k h Hf Hk; rewrite length_drop in Hf.
  - assert (rfc_blocks msg - 1 = k)%nat as -> by (unfold rfc_blocks; assert (length msg <= 64 * k)%nat by lia; assert (k = 0)%nat by lia; subst; assert (length msg = 0)%nat as -> by lia; done).
    rewrite Nat.sub_diag. done.
  - cbn [b2s_loop]. rewrite length_drop. destruct (Nat.ltb_spec 64 (length msg - 64 * k)).
    + assert (Hd : (k + 2 <= rfc_blocks msg)%nat).
      { unfold rfc_blocks. transitivity ((length msg + 63) / 64)%nat; [|lia]. apply Nat.div_le_lower_bound; lia. }
      rewrite u64_small by lia. replace (64 * Z.of_nat k + 64) with (64 * Z.of_nat (S k)) by lia.
      rewrite drop_drop. replace (64 * k + 64)%nat with (64 * S k)%nat by lia. rewrite IH by (rewrite ?length_drop; lia).
      replace (rfc_blocks msg - 1 - k)%nat with (S (rfc_blocks msg - 1 - S k)) by lia. cbn [seq foldl].
      assert (Eb : rfc_block msg k = take 64 (drop (64 * k) msg)) by (apply pad64_full; rewrite length_take, length_drop; lia).
      rewrite Eb. replace (64 * (Z.of_nat k + 1)) with (64 * Z.of_nat (S k)) by lia. done.
    + assert (rfc_blocks msg - 1 = k)%nat as ->.
      { unfold rfc_blocks. destruct Hk as [->|Hk].
        - destruct (Nat.eq_dec (length msg) 0%nat) as [->|]; [done|]. rewrite (Nat.max_r _ _); [|apply Nat.div_le_lower_bound; lia].
          rewrite <- (Nat.div_unique (length msg + 63) 64 1%nat (length msg - 1)%nat); lia.
        - rewrite <- (Nat.div_unique (length msg + 63) 64 (k + 1)%nat (length msg + 63 - 64 * (k + 1))%nat); lia. }
      rewrite Nat.sub_diag. done.
Qed.

(** For a message of less than 2^64 bytes, the streaming loop of
    [pm_metal_wg_blake2s] -- which keeps a last block of 1 to 64 bytes back for
    the finalisation -- computes the block-wise hash of RFC 7693. *)
Theorem blake2s_blocks msg : zlen msg < 2 ^ 64 -> pm_metal_wg_blake2s msg = rfc_blake2s msg.
Proof.
  intros Hm. unfold pm_metal_wg_blake2s, rfc_blake2s. pose proof (b2s_loop_blocks msg (length msg) Hm 0 b2s_init) as E.
  rewrite drop_0, Nat.sub_0_r in E. change (64 * Z.of_nat 0) with 0 in E. rewrite E by lia. clear E.
  assert (Hdd : (64 * (rfc_blocks msg - 1) <= length msg /\ length msg - 64 * (rfc_blocks msg - 1) <= 64)%nat).
  { unfold rfc_blocks. pose proof (Nat.div_mod_eq (length msg + 63) 64). pose proof (Nat.mod_upper_bound (length msg + 63) 64 ltac:(lia)).
    destruct (Nat.max_spec 1 ((length msg + 63) / 64)) as [[? ->]|[? ->]]; lia. }
  assert (Et : u64 (64 * Z.of_nat (rfc_blocks msg - 1) + zlen (drop (64 * (rfc_blocks msg - 1)) msg)) = zlen msg)
    by (rewrite length_drop, u64_small; lia).
  assert (Eb : rfc_block msg (rfc_blocks msg - 1) = pad64 (drop (64 * (rfc_blocks msg - 1)) msg))
    by (unfold rfc_block; rewrite take_ge by (rewrite length_drop; lia); reflexivity).
  rewrite Eb, Et. reflexivity.
Qed.

Definition abc_hash : list Z :=
  [80; 140; 94; 140; 50; 124; 20; 226; 225; 167; 43; 163; 78; 235; 69; 47; 55; 69; 139; 32; 158; 214; 58; 41; 77; 153; 155; 76; 134; 103; 89; 130].

(** The message abc of RFC 7693, appendix B. *)
Example blake2s_blocks_witness : rfc_blake2s [97; 98; 99] = abc_hash.
Proof. rewrite <- (blake2s_blocks [97; 98; 99]) by reflexivity. vm_compute. reflexivity. Defined.

(** The hash of the card's own self test. *)
Lemma blake2s_empty : pm_metal_wg_blake2s [] =
  [105; 33; 122; 48; 121; 144; 128; 148; 225; 17; 33; 208; 66; 53; 74; 124; 31; 85; 182; 72; 44; 161; 165; 30; 27; 37; 13; 253; 30; 208; 238; 249].
Proof. vm_compute. reflexivity. Qed.

Lemma blake2s_length msg : length (pm_metal_wg_blake2s msg) = 32%nat.
Proof. unfold pm_metal_wg_blake2s. destruct (b2s_loop _ _ _ _) as [[h t] rest]. reflexivity. Qed.
Lemma blake2s_bytes msg : bytes_ok (pm_metal_wg_blake2s msg).
Proof.
  unfold pm_metal_wg_blake2s. destruct (b2s_loop _ _ _ _) as [[h t] rest]. apply Forall_concat, Forall_fmap, Forall_forall.
  intros i _. cbn. repeat constructor; apply u8_range.
Qed.

(** The message authentication code of [hmac_blake2s] sees only the first
    256 bytes of its input: two inputs that agree there have the same code,
    under every key. *)
Theorem hmac_blake2s_prefix key a b : take 256 a = take 256 b -> hmac_blake2s key a = hmac_blake2s key b.
Proof.
  assert (E : forall c, hmac_blake2s key c = hmac_blake2s key (take 256 c)).
  { intros c. unfold hmac_blake2s. destruct (Nat.ltb_spec 256 (length c)); rewrite length_take.
    - by rewrite Nat.min_l, Nat.ltb_irrefl by lia.
    - assert (Ec : take 256 c = c) by (apply take_ge; lia). rewrite Ec.
      assert (En : (256 <? Nat.min 256 (length c))%nat = false) by (apply Nat.ltb_ge; lia). by rewrite En. }
  intros H. by rewrite (E a), (E b), H.
Qed.
End WgBlake.
