(* ===== verification/WgX25519.v ===== *)
(** * X25519 of the wg card

    The Montgomery ladder of src/.../metal/net/wg/__crypto__.c over a bignum
    library.  The card calls mbedtls (not part of this repository's sources),
    so the library is a record of operations whose documented behaviour is the
    class [MpiLaws]; the ladder is proved against that interface. *)
From Stdlib Require Import Zcong.
From S2P Require Import Prelude WgCrypto WgAead.

Module WgX25519.
Import WgCrypto WgAead.

(** ** The interface of the bignum library *)

(** One field per mbedtls function the card calls; [None] is a non-zero return. *)
Record mpi_ops := MkMpi {
  mpi : Type;
  mbedtls_mpi_lset : Z -> option mpi;
  mbedtls_mpi_shift_l : mpi -> Z -> option mpi;
  mbedtls_mpi_sub_int : mpi -> Z -> option mpi;
  mbedtls_mpi_copy : mpi -> option mpi;
  mbedtls_mpi_add_mpi : mpi -> mpi -> option mpi;
  mbedtls_mpi_sub_mpi : mpi -> mpi -> option mpi;
  mbedtls_mpi_mul_mpi : mpi -> mpi -> option mpi;
  mbedtls_mpi_mod_mpi : mpi -> mpi -> option mpi;
  mbedtls_mpi_inv_mod : mpi -> mpi -> option mpi;
  mbedtls_mpi_cmp_int : mpi -> Z -> Z;
  mbedtls_mpi_read_binary : list Z -> option mpi;
  mbedtls_mpi_write_binary : mpi -> Z -> option (list Z);
}.

(** What the card relies on: with memory to allocate, every call computes the
    documented integer; [inv_mod] fails exactly when there is no inverse. *)
Class MpiLaws (M : mpi_ops) (mv : mpi M -> Z) : Prop := {
  lset_law z : Z.abs z < 2 ^ 31 -> exists x, mbedtls_mpi_lset M z = Some x /\ mv x = z;
  shift_l_law a n : 0 <= n -> exists x, mbedtls_mpi_shift_l M a n = Some x /\ mv x = mv a * 2 ^ n;
  sub_int_law a z : Z.abs z < 2 ^ 31 -> exists x, mbedtls_mpi_sub_int M a z = Some x /\ mv x = mv a - z;
  copy_law a : exists x, mbedtls_mpi_copy M a = Some x /\ mv x = mv a;
  add_law a b : exists x, mbedtls_mpi_add_mpi M a b = Some x /\ mv x = mv a + mv b;
  sub_law a b : exists x, mbedtls_mpi_sub_mpi M a b = Some x /\ mv x = mv a - mv b;
  mul_law a b : exists x, mbedtls_mpi_mul_mpi M a b = Some x /\ mv x = mv a * mv b;
  mod_law a b : 0 < mv b -> exists x, mbedtls_mpi_mod_mpi M a b = Some x /\ mv x = mv a mod mv b;
  inv_law a b : 1 < mv b -> if Z.gcd (mv a) (mv b) =? 1
    then exists x, mbedtls_mpi_inv_mod M a b = Some x /\ (mv a * mv x) mod mv b = 1 else mbedtls_mpi_inv_mod M a b = None;
  cmp_law a z : Z.abs z < 2 ^ 31 -> (mbedtls_mpi_cmp_int M a z <? 0) = (mv a <? z);
  read_law b : bytes_ok b -> exists x, mbedtls_mpi_read_binary M b = Some x /\ mv x = le_num (rev b);
  write_law a n : 0 <= n -> 0 <= mv a < 256 ^ n -> exists b, mbedtls_mpi_write_binary M a n = Some b
    /\ zlen b = n /\ bytes_ok b /\ le_num (rev b) = mv a;
}.

(** ** The field *)

Section field.
Context (M : mpi_ops).
Local Notation mpi := (mpi M).

Definition mpi_from_le32 (le : list Z) : option mpi :=
  let be := (fun i => at_ le (31 - i)) <$> seq 0 32 in mbedtls_mpi_read_binary M be.
Definition mpi_to_le32 (x : mpi) : option (list Z) :=
  be ← mbedtls_mpi_write_binary M x 32;
  Some ((fun i => at_ be (31 - i)) <$> seq 0 32).

Definition mpi_add_mod (a b p : mpi) : option mpi := tmp ← mbedtls_mpi_add_mpi M a b; mbedtls_mpi_mod_mpi M tmp p.

(** The [while (cmp_int(tmp, 0) < 0) tmp += p] loop; the operands are below
    [p], so one turn is enough. *)
Fixpoint mpi_lift (fuel : nat) (tmp p : mpi) : option mpi :=
  if mbedtls_mpi_cmp_int M tmp 0 <? 0
  then match fuel with O => None | S f => tmp ← mbedtls_mpi_add_mpi M tmp p; mpi_lift f tmp p end
  else Some tmp.
Definition mpi_sub_mod (a b p : mpi) : option mpi :=
  tmp ← mbedtls_mpi_sub_mpi M a b; tmp ← mpi_lift 1 tmp p; mbedtls_mpi_mod_mpi M tmp p.
Definition mpi_mul_mod (a b p : mpi) : option mpi := tmp ← mbedtls_mpi_mul_mpi M a b; mbedtls_mpi_mod_mpi M tmp p.
Definition mpi_sq_mod (a p : mpi) : option mpi := tmp ← mbedtls_mpi_mul_mpi M a a; mbedtls_mpi_mod_mpi M tmp p.

(** ** The ladder *)

Record ladder := Ladder { x2 : mpi; z2 : mpi; x3 : mpi; z3 : mpi; swap : Z }.

Definition cond_swap (s : ladder) : ladder :=
  if swap s =? 0 then s else Ladder (x3 s) (z3 s) (x2 s) (z2 s) (swap s).

Definition kbit (k : list Z) (i : nat) : Z := Z.land (Z.shiftr (at_ k (i / 8)) (Z.of_nat (i mod 8))) 1.

(** The loop body after the swap. *)
Definition ladder_step (P a24 x1 : mpi) (s : ladder) : option ladder :=
  A ← mpi_add_mod (x2 s) (z2 s) P;
  AA ← mpi_sq_mod A P;
  B ← mpi_sub_mod (x2 s) (z2 s) P;
  BB ← mpi_sq_mod B P;
  E ← mpi_sub_mod AA BB P;
  C ← mpi_add_mod (x3 s) (z3 s) P;
  D ← mpi_sub_mod (x3 s) (z3 s) P;
  DA ← mpi_mul_mod D A P;
  CB ← mpi_mul_mod C B P;
  t ← mpi_add_mod DA CB P;
  x3' ← mpi_sq_mod t P;
  t ← mpi_sub_mod DA CB P;
  s' ← mpi_sq_mod t P;
  z3' ← mpi_mul_mod x1 s' P;
  x2' ← mpi_mul_mod AA BB P;
  t ← mpi_mul_mod a24 E P;
  s' ← mpi_add_mod AA t P;
  z2' ← mpi_mul_mod E s' P;
  Some (Ladder x2' z2' x3' z3' (swap s)).

(** [for (i = 254; i >= 0; i--)], entered with [n] bits left. *)
Fixpoint ladder_loop (n : nat) (k : list Z) (P a24 x1 : mpi) (s : ladder) : option ladder :=
  match n with
  | O => Some s
  | S i =>
      let kt := kbit k i in
      let s := cond_swap (Ladder (x2 s) (z2 s) (x3 s) (z3 s) (Z.lxor (swap s) kt)) in
      s ← ladder_step P a24 x1 (Ladder (x2 s) (z2 s) (x3 s) (z3 s) kt);
      ladder_loop i k P a24 x1 s
  end.

Definition clamp (scalar : list Z) : list Z :=
  let k := <[0%nat := u8 (Z.land (at_ scalar 0) 248)]> scalar in
  <[31%nat := u8 (Z.lor (Z.land (at_ k 31) 127) 64)]> k.

Definition pm_metal_wg_x25519 (scalar u : list Z) : option (list Z) :=
  let k := clamp scalar in
  P ← mbedtls_mpi_lset M 1; P ← mbedtls_mpi_shift_l M P 255; P ← mbedtls_mpi_sub_int M P 19;
  a24 ← mbedtls_mpi_lset M 121665;
  let u_bits := <[31%nat := u8 (Z.land (at_ u 31) 127)]> u in
  x1 ← mpi_from_le32 u_bits; x1 ← mbedtls_mpi_mod_mpi M x1 P;
  vx2 ← mbedtls_mpi_lset M 1; vz2 ← mbedtls_mpi_lset M 0;
  vx3 ← mbedtls_mpi_copy M x1; vz3 ← mbedtls_mpi_lset M 1;
  s ← ladder_loop 255 k P a24 x1 (Ladder vx2 vz2 vx3 vz3 0);
  let s := cond_swap s in
  t ← mbedtls_mpi_inv_mod M (z2 s) P;
  r ← mpi_mul_mod (x2 s) t P;
  mpi_to_le32 r.

End field.

(** The base point of [pm_metal_wg_x25519_base]. *)
Definition nine : list Z := 9 :: repeat 0 31.

(** ** The reference: RFC 7748 over the integers modulo 2^255 - 19 *)

Definition p25519 := 2 ^ 255 - 19.
Definition fadd a b := (a + b) mod p25519.
Definition fsub a b := (a - b) mod p25519.
Definition fmul a b := (a * b) mod p25519.

(** Doubling and differential addition of projective abscissas. *)
Definition xdbl (q : Z * Z) : Z * Z :=
  let a := fadd q.1 q.2 in let b := fsub q.1 q.2 in let aa := fmul a a in let bb := fmul b b in
  let e := fsub aa bb in (fmul aa bb, fmul e (fadd aa (fmul 121665 e))).
Definition xadd (u : Z) (q r : Z * Z) : Z * Z :=
  let da := fmul (fsub r.1 r.2) (fadd q.1 q.2) in let cb := fmul (fadd r.1 r.2) (fsub q.1 q.2) in
  (fmul (fadd da cb) (fadd da cb), fmul u (fmul (fsub da cb) (fsub da cb))).

(** The ladder with no swaps: a pair of points, one branch per bit. *)
Fixpoint montgomery (n : nat) (k u : Z) (q r : Z * Z) : Z * Z :=
  match n with
  | O => q
  | S i => if Z.testbit k (Z.of_nat i) then montgomery i k u (xadd u q r) (xdbl r) else montgomery i k u (xdbl q) (xadd u q r)
  end.

(** The clamped scalar and the abscissa as numbers. *)
Definition clamp_num (scalar : list Z) : Z := Z.lor (Z.land (le_num scalar mod 2 ^ 255) (2 ^ 255 - 8)) (2 ^ 254).
Definition u_num (u : list Z) : Z := (le_num u mod 2 ^ 255) mod p25519.

Definition felt (x : Z) : Prop := 0 <= x < p25519.
Lemma p25519_pos : 1 < p25519.
Proof. reflexivity. Qed.
Lemma felt_mod x : felt (x mod p25519).
Proof. apply Z.mod_pos_bound. pose proof p25519_pos. lia. Qed.
#[global] Opaque p25519.

Lemma fsub_sq a b : fmul (fsub a b) (fsub a b) = fmul (fsub b a) (fsub b a).
Proof. unfold fmul, fsub. rewrite <- !Z.mul_mod by (pose proof p25519_pos; lia). f_equal. ring. Qed.

Lemma xadd_comm u q r : xadd u q r = xadd u r q.
Proof.
  unfold xadd. rewrite (fsub_sq (fmul (fsub r.1 r.2) (fadd q.1 q.2))).
  assert (Ec : forall a b, fmul a b = fmul b a) by (intros; unfold fmul; by rewrite Z.mul_comm).
  rewrite (Ec (fsub r.1 r.2)), (Ec (fadd r.1 r.2)). f_equal. assert (Ea : forall a b, fadd a b = fadd b a) by (intros; unfold fadd; by rewrite Z.add_comm).
  by rewrite (Ea (fmul (fadd q.1 q.2) _)).
Qed.

(** ** Bytes, bits and numbers *)

Lemma rev32 (l : list Z) : length l = 32%nat -> (fun i => at_ l (31 - i)) <$> seq 0 32 = rev l.
Proof. intros H. do 32 (destruct l as [|? l]; [discriminate H|]). destruct l; [reflexivity|discriminate H]. Qed.

Lemma le_num_bit b i : bytes_ok b -> Z.testbit (le_num b) (Z.of_nat i) = Z.testbit (at_ b (i / 8)) (Z.of_nat (i mod 8)).
Proof.
  intros Hb. revert i. induction Hb as [|x b Hx Hb IH]; intros i; [unfold at_; destruct (i / 8)%nat; cbn [le_num nth]; by rewrite !Z.testbit_0_l|].
  cbn [le_num]. unfold is_byte in Hx. destruct (Nat.ltb_spec i 8) as [Hi|Hi].
  - rewrite Nat.div_small, Nat.mod_small by lia. cbn [at_ nth]. rewrite <- (Z.mod_pow2_bits_low _ 8) by lia.
    change (2 ^ 8) with 256. rewrite (Z.mul_comm 256), Z.mod_add by lia. by rewrite Z.mod_small by lia.
  - assert (Ei : i = (i - 8 + 1 * 8)%nat) by lia. rewrite Ei at 2 3. rewrite Nat.div_add, Nat.Div0.mod_add by lia.
    rewrite Nat.add_1_r. change (at_ (x :: b) (S ((i - 8) / 8))) with (at_ b ((i - 8) / 8)). rewrite <- IH.
    replace (Z.of_nat i) with (Z.of_nat (i - 8) + 8) by lia. rewrite <- Z.shiftr_spec by lia. rewrite Z.shiftr_div_pow2 by lia.
    change (2 ^ 8) with 256. rewrite (Z.mul_comm 256), Z.div_add by lia. by rewrite Z.div_small by lia.
Qed.

Lemma kbit_testbit k i : kbit k i = Z.b2z (Z.testbit (at_ k (i / 8)) (Z.of_nat (i mod 8))).
Proof.
  unfold kbit. change 1 with (2 ^ 1 - 1). rewrite land_ones_mod by lia. rewrite Z.testbit_spec' by lia. by rewrite Z.shiftr_div_pow2 by lia.
Qed.

Lemma at_insert_eq (l : list Z) i v : (i < length l)%nat -> at_ (<[i := v]> l) i = v.
Proof. intros H. unfold at_. apply nth_lookup_Some. by apply list_lookup_insert_eq. Qed.
Lemma at_insert_ne (l : list Z) i j v : i <> j -> at_ (<[i := v]> l) j = at_ l j.
Proof. intros H. unfold at_. rewrite !nth_lookup. by rewrite list_lookup_insert_ne. Qed.

(** A number between 0 and 7 is one of eight. *)
Local Ltac eight i := let H := fresh in assert (H : (i = 0 \/ i = 1 \/ i = 2 \/ i = 3 \/ i = 4 \/ i = 5 \/ i = 6 \/ i = 7)%nat) by lia;
  destruct H as [->|[->|[->|[->|[->|[->|[->| ->]]]]]]].

Lemma clamp_bits s i : bytes_ok s -> length s = 32%nat -> (i < 255)%nat ->
  kbit (clamp s) i = Z.b2z (Z.testbit (clamp_num s) (Z.of_nat i)).
Proof.
  intros Hb Hl Hi. rewrite kbit_testbit. f_equal. unfold clamp_num.
  rewrite Z.lor_spec, Z.land_spec, Z.mod_pow2_bits_low, le_num_bit, Z.pow2_bits_eqb by (done || lia).
  assert (Em : Z.testbit (2 ^ 255 - 8) (Z.of_nat i) = (3 <=? i)%nat).
  { change (2 ^ 255 - 8) with (Z.shiftl (Z.ones 252) 3). rewrite Z.shiftl_spec by lia. destruct (Nat.leb_spec 3 i).
    - apply Z.ones_spec_low. lia.
    - apply Z.testbit_neg_r. lia. }
  rewrite Em. clear Em. unfold clamp. rewrite (at_insert_ne _ 0 31) by done.
  pose proof (Nat.div_mod_eq i 8) as Ei. pose proof (Nat.mod_upper_bound i 8 ltac:(lia)) as Hr.
  set (j := (i / 8)%nat) in *. set (r := (i mod 8)%nat) in *. clearbody j r.
  pose proof (at_byte s 0 Hb ltac:(lia)) as B0. pose proof (at_byte s 31 Hb ltac:(lia)) as B31.
  destruct (Nat.eq_dec j 31%nat) as [->|H31].
  - rewrite at_insert_eq by (rewrite length_insert; lia). rewrite (proj2 (Nat.leb_le 3 i)) by lia. rewrite andb_true_r.
    rewrite u8_small by (apply lor_byte; [|done]; unfold is_byte; change 127 with (2 ^ 7 - 1); rewrite land_ones_mod by lia; mlia).
    rewrite Z.lor_spec, Z.land_spec. rewrite Ei. eight r; try lia; cbn; by rewrite ?andb_true_r, ?orb_false_r.
  - rewrite at_insert_ne by done. replace (254 =? Z.of_nat i) with false by (symmetry; apply Z.eqb_neq; lia). rewrite orb_false_r.
    destruct (Nat.eq_dec j 0%nat) as [->|H0].
    + rewrite at_insert_eq by lia. rewrite u8_small by (pose proof (land_bound (at_ s 0) 248 ltac:(lia) ltac:(unfold is_byte in B0; lia)); lia).
      rewrite Z.land_spec. rewrite Ei. eight r; try lia; cbn; by rewrite ?andb_true_r, ?andb_false_r.
    + rewrite at_insert_ne by done. rewrite (proj2 (Nat.leb_le 3 i)) by lia. by rewrite andb_true_r.
Qed.

Lemma mask_top u : bytes_ok u -> length u = 32%nat ->
  let b := <[31%nat := u8 (Z.land (at_ u 31) 127)]> u in bytes_ok b /\ length b = 32%nat /\ le_num b = le_num u mod 2 ^ 255.
Proof.
  intros Hb Hl. cbv zeta. pose proof (at_byte u 31 Hb ltac:(lia)) as B31. unfold is_byte in B31.
  assert (Eu : u = take 31 u ++ [at_ u 31]).
  { do 32 (destruct u as [|? u]; [discriminate Hl|]). destruct u; [reflexivity|discriminate Hl]. }
  change 127 with (2 ^ 7 - 1). rewrite land_ones_mod by lia. rewrite u8_small by mlia.
  assert (Ht : bytes_ok (take 31 u)) by (by apply Forall_take). pose proof (le_num_range _ Ht) as Hr.
  assert (Hlt : length (take 31 u) = 31%nat) by (rewrite length_take; lia). rewrite Hlt in Hr.
  rewrite insert_take_drop by lia. rewrite (drop_ge u (S 31)) by lia. split; [apply Forall_app; split; [done|repeat constructor; mlia]|].
  split; [rewrite length_app, Hlt; done|]. rewrite Eu at 3. rewrite !le_num_app, Hlt. cbn [le_num].
  change (256 ^ Z.of_nat 31) with (2 ^ 248) in *. change (2 ^ 255) with (2 ^ 248 * 2 ^ 7). rewrite !Z.mul_0_r, !Z.add_0_r.
  rewrite (Z.mul_comm (2 ^ 248) (at_ u 31)), Z.rem_mul_r by lia. rewrite Z.mod_add, Z.div_add by lia.
  rewrite (Z.mod_small (le_num (take 31 u))), (Z.div_small (le_num (take 31 u))) by lia. by rewrite Z.add_0_l.
Qed.

Fixpoint le_bytes (n : nat) (v : Z) : list Z := match n with O => [] | S k => u8 v :: le_bytes k (v / 256) end.
Lemma le_bytes_num n v : 0 <= v < 256 ^ Z.of_nat n -> le_num (le_bytes n v) = v.
Proof.
  revert v. induction n as [|n IH]; intros v Hv; [change (256 ^ Z.of_nat 0) with 1 in Hv; cbn; lia|].
  rewrite Nat2Z.inj_succ, Z.pow_succ_r in Hv by lia. cbn [le_bytes le_num]. rewrite IH by (split; [apply Z.div_pos; lia|apply Z.div_lt_upper_bound; lia]). ulia.
Qed.
Lemma le_bytes_length n v : length (le_bytes n v) = n.
Proof. revert v. induction n as [|n IH]; intros v; cbn; auto. Qed.
Lemma le_bytes_ok n v : bytes_ok (le_bytes n v).
Proof. revert v. induction n as [|n IH]; intros v; cbn; constructor; auto with metal. Qed.
Lemma le_num_bytes b : bytes_ok b -> le_bytes (length b) (le_num b) = b.
Proof.
  induction 1 as [|x b Hx Hb IH]; [done|]. unfold is_byte in Hx. cbn [length le_num le_bytes]. rewrite (Z.mul_comm 256), Z.div_add, Z.div_small, Z.add_0_l, IH by lia. f_equal. ulia.
Qed.

(** X25519 as RFC 7748 describes it; no output for the point at infinity. *)
Definition x25519_point (scalar u : list Z) : Z * Z := montgomery 255 (clamp_num scalar) (u_num u) (1, 0) (u_num u, 1).
Definition rfc7748 (scalar u : list Z) : option (list Z) :=
  let '(X, Z) := x25519_point scalar u in if Z.gcd Z p25519 =? 1 then Some (le_bytes 32 (fmul X (Z.invmod Z p25519))) else None.
Lemma p25519_bytes : p25519 <= 256 ^ 32.
Proof. with_strategy transparent [p25519] (vm_compute; discriminate). Qed.
Lemma fmul_inverse X Z t : Z.gcd Z p25519 = 1 -> (Z * t) mod p25519 = 1 -> fmul X t = fmul X (Z.invmod Z p25519).
Proof.
  intros Hg Ht. pose proof p25519_pos. pose proof (Z.invmod_coprime Z p25519 ltac:(lia) Hg) as Hi. unfold fmul. rewrite <- Z.mul_mod_idemp_r, <- (Z.mul_mod_idemp_r X (Z.invmod _ _)) by lia. do 2 f_equal.
  rewrite <- (Z.mul_1_l t), <- Hi, Z.mul_mod_idemp_l, <- Z.mul_assoc by lia. by rewrite <- Z.mul_mod_idemp_r, Ht, Z.mul_1_r by lia.
Qed.

Section laws.
Context (M : mpi_ops) (mv : mpi M -> Z) `{!MpiLaws M mv}.

Lemma mpi_add_mod_ok a b p : mv p = p25519 -> exists x, mpi_add_mod M a b p = Some x /\ mv x = fadd (mv a) (mv b).
Proof.
  intros Hp. unfold mpi_add_mod, fadd. destruct (add_law a b) as (t & -> & Et). cbn [mbind option_bind]. rewrite <- Hp, <- Et. apply mod_law. rewrite Hp. pose proof p25519_pos. lia.
Qed.
Lemma mpi_mul_mod_ok a b p : mv p = p25519 -> exists x, mpi_mul_mod M a b p = Some x /\ mv x = fmul (mv a) (mv b).
Proof.
  intros Hp. unfold mpi_mul_mod, fmul. destruct (mul_law a b) as (t & -> & Et). cbn [mbind option_bind]. rewrite <- Hp, <- Et. apply mod_law. rewrite Hp. pose proof p25519_pos. lia.
Qed.
Lemma mpi_sq_mod_ok a p : mv p = p25519 -> exists x, mpi_sq_mod M a p = Some x /\ mv x = fmul (mv a) (mv a).
Proof. apply (mpi_mul_mod_ok a a). Qed.
Lemma mpi_sub_mod_ok a b p : mv p = p25519 -> felt (mv a) -> felt (mv b) ->
  exists x, mpi_sub_mod M a b p = Some x /\ mv x = fsub (mv a) (mv b).
Proof.
  intros Hp [Ha1 Ha2] [Hb1 Hb2]. unfold mpi_sub_mod. destruct (sub_law a b) as (t & -> & Et). cbn [mbind option_bind]. pose proof p25519_pos.
  assert (Hlift : exists t', mpi_lift M 1 t p = Some t' /\ mv t' mod p25519 = mv t mod p25519).
  { cbn [mpi_lift]. rewrite cmp_law by lia. destruct (Z.ltb_spec (mv t) 0); [|by exists t].
    destruct (add_law t p) as (t' & -> & Et'). cbn [mbind option_bind]. rewrite cmp_law by lia. rewrite (proj2 (Z.ltb_ge (mv t') 0)) by lia.
    exists t'. split; [done|]. rewrite Et', Hp. rewrite <- (Z.mod_add (mv t) 1 p25519) by lia. f_equal; lia. }
  destruct Hlift as (t' & -> & Et'). cbn [mbind option_bind]. unfold fsub. rewrite <- Et, <- Et', <- Hp. apply mod_law. lia.
Qed.

(** A state as its pair of points. *)
Definition pt_a (s : ladder M) : Z * Z := (mv (x2 M s), mv (z2 M s)).
Definition pt_b (s : ladder M) : Z * Z := (mv (x3 M s), mv (z3 M s)).
Definition felts (s : ladder M) : Prop := felt (pt_a s).1 /\ felt (pt_a s).2 /\ felt (pt_b s).1 /\ felt (pt_b s).2.

(** [field_op lemma]: run one field operation of the straight-line code. *)
Local Ltac field_op L v E := let w := fresh v in destruct L as (w & -> & E); cbn [mbind option_bind].

Lemma ladder_step_ok P a24 u s : mv P = p25519 -> mv a24 = 121665 -> felts s ->
  exists s', ladder_step M P a24 u s = Some s' /\ swap M s' = swap M s /\ felts s'
    /\ pt_a s' = xdbl (pt_a s) /\ pt_b s' = xadd (mv u) (pt_a s) (pt_b s).
Proof.
  intros HP Ha (F1 & F2 & F3 & F4). destruct s as [a1 b1 a2 b2 sw]. unfold pt_a, pt_b in *. cbn [x2 z2 x3 z3 swap fst snd] in *.
  unfold ladder_step. cbn [x2 z2 x3 z3 swap].
  field_op (mpi_add_mod_ok a1 b1 P HP) A E1. field_op (mpi_sq_mod_ok A P HP) AA E2.
  field_op (mpi_sub_mod_ok a1 b1 P HP F1 F2) Bv E3. field_op (mpi_sq_mod_ok Bv P HP) BB E4.
  assert (FAA : felt (mv AA)) by (rewrite E2; apply felt_mod). assert (FBB : felt (mv BB)) by (rewrite E4; apply felt_mod).
  field_op (mpi_sub_mod_ok AA BB P HP FAA FBB) E' E5.
  field_op (mpi_add_mod_ok a2 b2 P HP) C E6. field_op (mpi_sub_mod_ok a2 b2 P HP F3 F4) D E7.
  field_op (mpi_mul_mod_ok D A P HP) DA E8. field_op (mpi_mul_mod_ok C Bv P HP) CB E9.
  assert (FDA : felt (mv DA)) by (rewrite E8; apply felt_mod). assert (FCB : felt (mv CB)) by (rewrite E9; apply felt_mod).
  field_op (mpi_add_mod_ok DA CB P HP) t1 E10. field_op (mpi_sq_mod_ok t1 P HP) nx3 E11.
  field_op (mpi_sub_mod_ok DA CB P HP FDA FCB) t2 E12. field_op (mpi_sq_mod_ok t2 P HP) s1 E13.
  field_op (mpi_mul_mod_ok u s1 P HP) nz3 E14. field_op (mpi_mul_mod_ok AA BB P HP) nx2 E15.
  field_op (mpi_mul_mod_ok a24 E' P HP) t3 E16. field_op (mpi_add_mod_ok AA t3 P HP) s2 E17.
  field_op (mpi_mul_mod_ok E' s2 P HP) nz2 E18.
  eexists. split; [reflexivity|]. split; [done|]. unfold felts, pt_a, pt_b, xdbl, xadd. cbn [x2 z2 x3 z3 fst snd].
  rewrite E11, E14, E15, E18. split; [repeat split; apply felt_mod|].
  rewrite E17, E16, E13, E12, E10, E9, E8, E7, E6, E5, E4, E3, E2, E1, Ha. done.
Qed.

Definition pair_of (s : ladder M) : (Z * Z) * (Z * Z) := if swap M s =? 0 then (pt_a s, pt_b s) else (pt_b s, pt_a s).

(** The swapping ladder from any state is the branching one. *)
Lemma ladder_loop_ok k K P a24 u n : mv P = p25519 -> mv a24 = 121665 ->
  (forall i, (i < n)%nat -> kbit k i = Z.b2z (Z.testbit K (Z.of_nat i))) -> forall s, felts s -> swap M s = 0 \/ swap M s = 1 ->
  exists s', ladder_loop M n k P a24 u s = Some s' /\ felts s' /\ (swap M s' = 0 \/ swap M s' = 1)
    /\ (pair_of s').1 = montgomery n K (mv u) (pair_of s).1 (pair_of s).2.
Proof.
  intros HP Ha. induction n as [|n IH]; intros Hk s Hf Hs; [by exists s|]. cbn [ladder_loop montgomery].
  set (kt := kbit k n). assert (Hkt : kt = Z.b2z (Z.testbit K (Z.of_nat n))) by (apply Hk; lia).
  set (s1 := cond_swap M (Ladder M (x2 M s) (z2 M s) (x3 M s) (z3 M s) (Z.lxor (swap M s) kt))).
  set (s2 := Ladder M (x2 M s1) (z2 M s1) (x3 M s1) (z3 M s1) kt).
  assert (H2 : felts s2 /\ pair_of s2 = (if Z.testbit K (Z.of_nat n) then (pair_of s) else pair_of s)
    /\ pt_a s2 = (if Z.testbit K (Z.of_nat n) then (pair_of s).2 else (pair_of s).1)
    /\ pt_b s2 = (if Z.testbit K (Z.of_nat n) then (pair_of s).1 else (pair_of s).2)).
  { destruct s as [a1 b1 a2 b2 sw]. cbn [swap] in Hs. unfold s2, s1, cond_swap, felts, pair_of, pt_a, pt_b in *. cbn [x2 z2 x3 z3 swap fst snd] in *.
    rewrite Hkt. destruct Hf as (F1 & F2 & F3 & F4). destruct Hs as [-> | ->], (Z.testbit K (Z.of_nat n)); cbn; done. }
  destruct H2 as (Hf2 & _ & Ea & Eb). destruct (ladder_step_ok P a24 u s2 HP Ha Hf2) as (s3 & -> & Es & Hf3 & Ea3 & Eb3).
  cbn [mbind option_bind]. assert (Hs3 : swap M s3 = Z.b2z (Z.testbit K (Z.of_nat n))) by (rewrite Es; exact Hkt).
  destruct (IH ltac:(intros; apply Hk; lia) s3 Hf3) as (s' & H' & Hf' & Hs' & E'); [rewrite Hs3; destruct (Z.testbit K _); auto|].
  exists s'. split; [done|]. split; [done|]. split; [done|]. rewrite E'. unfold pair_of at 1 2. rewrite Hs3, Ea3, Eb3, Ea, Eb.
  destruct (Z.testbit K (Z.of_nat n)); cbn [Z.b2z Z.eqb fst snd]; [|done]. by rewrite xadd_comm.
Qed.

Lemma mpi_from_le32_ok b : bytes_ok b -> length b = 32%nat -> exists x, mpi_from_le32 M b = Some x /\ mv x = le_num b.
Proof.
  intros Hb Hl. unfold mpi_from_le32. rewrite rev32 by done. destruct (read_law (rev b)) as (x & E & Ev); [by apply Forall_rev|].
  exists x. by rewrite rev_involutive in Ev.
Qed.
Lemma mpi_to_le32_ok x : felt (mv x) -> exists b, mpi_to_le32 M x = Some b /\ bytes_ok b /\ length b = 32%nat /\ le_num b = mv x.
Proof.
  intros [H1 H2]. unfold mpi_to_le32. assert (p25519 <= 256 ^ 32) by (with_strategy transparent [p25519] (vm_compute; discriminate)).
  destruct (write_law x 32) as (b & -> & Hl & Hb & Ev); [lia..|]. cbn [mbind option_bind]. rewrite rev32 by lia. exists (rev b).
  split; [done|]. split; [by apply Forall_rev|]. rewrite length_rev. split; [lia|done].
Qed.

(** The card's function is the reference, whatever bignum library is under it. *)
Lemma x25519_spec scalar u : bytes_ok scalar -> length scalar = 32%nat -> bytes_ok u -> length u = 32%nat -> pm_metal_wg_x25519 M scalar u = rfc7748 scalar u.
Proof.
  intros Hs Hls Hu Hlu. destruct (x25519_point scalar u) as [X Z0] eqn:EX. unfold pm_metal_wg_x25519, rfc7748. rewrite EX.
  field_op (lset_law 1 ltac:(lia)) P0 EP0. field_op (shift_l_law P0 255 ltac:(lia)) P1 EP1.
  field_op (sub_int_law P1 19 ltac:(lia)) P EP. assert (HP : mv P = p25519) by (rewrite EP, EP1, EP0; reflexivity). assert (HP1 : 1 < mv P) by (rewrite HP; exact p25519_pos). assert (HP0 : 0 < mv P) by lia.
  field_op (lset_law 121665 ltac:(lia)) a24 Ea. destruct (mask_top u Hu Hlu) as (Hb & Hlb & En).
  field_op (mpi_from_le32_ok _ Hb Hlb) x0 Ex0. field_op (mod_law x0 P HP0) x1 Ex1.
  cbn [mbind option_bind]. field_op (lset_law 0 ltac:(lia)) vz2 F2. field_op (copy_law x1) vx3 E3.
  assert (Eu : mv x1 = u_num u) by (rewrite Ex1, Ex0, En, HP; reflexivity).
  assert (Hf0 : felts (Ladder M P0 vz2 vx3 P0 0)).
  { unfold felts, pt_a, pt_b. cbn [x2 z2 x3 z3 fst snd]. rewrite EP0, F2, E3, Eu. pose proof p25519_pos. repeat split; try lia; apply felt_mod. }
  destruct (ladder_loop_ok (clamp scalar) (clamp_num scalar) P a24 x1 255 HP Ea ltac:(intros; by apply clamp_bits) _ Hf0 ltac:(by left))
    as (s & -> & Hf & Hsw & Er). cbn [mbind option_bind].
  assert (Epair : pt_a (cond_swap M s) = (X, Z0)).
  { transitivity (pair_of s).1; [unfold pair_of, cond_swap; destruct (swap M s =? 0); reflexivity|]. rewrite Er, <- EX.
    assert (Ep : pair_of (Ladder M P0 vz2 vx3 P0 0) = ((1, 0), (u_num u, 1))) by (unfold pair_of, pt_a, pt_b; cbn; by rewrite EP0, F2, E3, Eu).
    rewrite Ep, Eu. unfold x25519_point. cbn [fst snd]. reflexivity. }
  set (s' := cond_swap M s) in *. unfold pt_a in Epair. injection Epair as EXs EZs.
  pose proof (inv_law (z2 M s') P HP1) as Hinv. rewrite HP, EZs in Hinv.
  destruct (Z.eqb_spec (Z.gcd Z0 p25519) 1) as [Hg|]; [|by rewrite Hinv].
  destruct Hinv as (t & -> & Ht). cbn [mbind option_bind]. field_op (mpi_mul_mod_ok (x2 M s') t P HP) r Er'.
  assert (Hr : felt (mv r)) by (rewrite Er'; apply felt_mod). destruct (mpi_to_le32_ok r Hr) as (out & -> & Ho & Hlo & Eo).
  f_equal. rewrite <- (le_num_bytes out Ho), Hlo, Eo, Er', EXs. f_equal. by apply fmul_inverse.
Qed.

(** C40: under the documented behaviour of the bignum library, [pm_metal_wg_x25519]
    is the scalar multiplication of RFC 7748: with [(X, Z)] the result of the
    branching Montgomery ladder on the clamped scalar and the masked abscissa,
    it writes the 32 bytes of the number [X / Z] modulo 2^255 - 19, and it
    returns -1 exactly when [Z] has no inverse (the point at infinity, where
    RFC 7748 would output zeros). *)
Theorem x25519_scalar_mult scalar u : bytes_ok scalar -> length scalar = 32%nat -> bytes_ok u -> length u = 32%nat ->
  let '(X, Z) := x25519_point scalar u in
  if Z.gcd Z p25519 =? 1
  then exists out, pm_metal_wg_x25519 M scalar u = Some out /\ bytes_ok out /\ length out = 32%nat
    /\ 0 <= le_num out < p25519 /\ fmul (le_num out) Z = X mod p25519
  else pm_metal_wg_x25519 M scalar u = None.
Proof.
  intros Hs Hls Hu Hlu. rewrite x25519_spec by done. unfold rfc7748. destruct (x25519_point scalar u) as [X Z0]. destruct (Z.eqb_spec (Z.gcd Z0 p25519) 1) as [Hg|]; [|done].
  pose proof (felt_mod (X * Z.invmod Z0 p25519)) as Hf. pose proof p25519_bytes. pose proof p25519_pos. eexists. split; [done|]. split; [apply le_bytes_ok|]. split; [apply le_bytes_length|].
  rewrite le_bytes_num by (unfold fmul, felt in *; change (256 ^ Z.of_nat 32) with (256 ^ 32); lia). split; [exact Hf|]. unfold fmul. rewrite Z.mul_mod_idemp_l, <- Z.mul_assoc by lia. rewrite <- Z.mul_mod_idemp_r, Z.invmod_coprime, Z.mul_1_r by (done || lia). done.
Qed.
End laws.

(** ** The interface is inhabited: integers as their own bignums *)

Definition z_mpi : mpi_ops := {|
  mpi := Z; mbedtls_mpi_lset := Some; mbedtls_mpi_shift_l a n := Some (a * 2 ^ n); mbedtls_mpi_sub_int a z := Some (a - z);
  mbedtls_mpi_copy := Some; mbedtls_mpi_add_mpi a b := Some (a + b); mbedtls_mpi_sub_mpi a b := Some (a - b);
  mbedtls_mpi_mul_mpi a b := Some (a * b); mbedtls_mpi_mod_mpi a b := Some (a mod b);
  mbedtls_mpi_inv_mod a b := if Z.gcd a b =? 1 then Some (Z.invmod a b) else None; mbedtls_mpi_cmp_int a z := a - z;
  mbedtls_mpi_read_binary b := Some (le_num (rev b)); mbedtls_mpi_write_binary a n := Some (rev (le_bytes (Z.to_nat n) a)) |}.

#[export] Instance z_mpi_laws : MpiLaws z_mpi (fun z => z).
Proof.
  split; cbn; eauto.
  - intros a b Hb. destruct (Z.eqb_spec (Z.gcd a b) 1) as [E|E]; [|done]. exists (Z.invmod a b). split; [done|].
    rewrite Z.mul_comm. apply Z.invmod_coprime; [lia|exact E].
  - intros a z _. destruct (Z.ltb_spec (a - z) 0), (Z.ltb_spec a z); lia.
  - intros a n Hn Ha. eexists. split; [reflexivity|]. rewrite length_rev, le_bytes_length, rev_involutive.
    split; [lia|]. split; [apply Forall_rev, le_bytes_ok|]. apply le_bytes_num. by rewrite Z2Nat.id by lia.
Qed.

Example x25519_scalar_mult_witness : let '(X, Z) := x25519_point (seq_bytes 32) nine in
  if Z.gcd Z p25519 =? 1
  then exists out, pm_metal_wg_x25519 z_mpi (seq_bytes 32) nine = Some out /\ bytes_ok out /\ length out = 32%nat
    /\ 0 <= le_num out < p25519 /\ fmul (le_num out) Z = X mod p25519
  else pm_metal_wg_x25519 z_mpi (seq_bytes 32) nine = None.
Proof.
  apply (x25519_scalar_mult z_mpi (fun z => z) (seq_bytes 32) nine); (reflexivity || (apply (bool_decide_unpack _); vm_compute; exact I)).
Defined.
End WgX25519.
