(* ===== verification/Curve25519.v ===== *)
(** * The group behind X25519

    Why the X25519 of the wg card is a key agreement.  The points of the Edwards
    form of Curve25519 over the integers modulo 2^255 - 19 are a commutative group
    (Module Edwards), in which the Montgomery ladder of WgX25519 computes the
    multiples of a point (Module Ladder, [ladder_smul]).  The base point has a
    prime order, so its multiples by clamped scalars have an abscissa, and two
    secrets make the same of each other's public keys (Module Curve25519,
    [rfc7748_agree]).  That 2^255 - 19 and the order are primes is computed from a
    certificate by Pocklington's criterion (Module Primes). *)
From Stdlib Require Import Zcong Zdivisibility Znumtheory Field NsatzTactic.
From Stdlib.Zmod Require Import ZmodDef ZstarDef ZmodBase ZstarBase ZmodInv ZmodNsatz.
From S2P Require Import Prelude WgCrypto WgAead WgX25519.

(** ** Primality certificates *)

Module Primes.

(** [x] less a multiple of [N], with the quotient taken from [m], an
    approximation of [2 ^ (2 * k + 16) / N]. *)
Definition reduce (N m k x : Z) : Z := x - Z.shiftr (Z.shiftr x (k - 1) * m) (k + 17) * N.
Fixpoint pow_red (N m k a : Z) (n : positive) : Z :=
  match n with
  | xH => reduce N m k a
  | xO n => let r := pow_red N m k a n in reduce N m k (r * r)
  | xI n => let r := pow_red N m k a n in reduce N m k (a * (r * r))
  end.
Definition powmod (N a n : Z) : Z :=
  let k := Z.log2 N + 1 in match n with Zpos n => pow_red N (2 ^ (2 * k + 16) / N) k a n mod N | _ => 1 mod N end.

Lemma reduce_mod N m k x : N <> 0 -> reduce N m k x mod N = x mod N.
Proof. intros HN. unfold reduce. generalize (Z.shiftr (Z.shiftr x (k - 1) * m) (k + 17)) as c. intros c. rewrite <- (Z.mod_add x (- c)) by done. f_equal. lia. Qed.
Lemma pow_red_mod N m k a n : N <> 0 -> pow_red N m k a n mod N = a ^ Z.pos n mod N.
Proof.
  intros HN. assert (Sq : forall x n, x mod N = a ^ Z.pos n mod N -> (x * x) mod N = a ^ Z.pos (xO n) mod N).
  { intros x j Hx. rewrite Z.mul_mod, Hx, <- Z.mul_mod by done. rewrite <- Z.pow_add_r by lia. f_equal. f_equal. lia. }
  induction n as [n IH|n IH|]; cbn [pow_red]; rewrite reduce_mod by done; [|by apply Sq|by rewrite Z.pow_1_r].
  rewrite <- Z.mul_mod_idemp_r, (Sq _ _ IH), Z.mul_mod_idemp_r by done. rewrite <- Z.pow_succ_r by lia. f_equal.
Qed.
Lemma powmod_spec N a n : N <> 0 -> 0 <= n -> powmod N a n = a ^ n mod N.
Proof. intros HN Hn. unfold powmod. destruct n as [|n|n]; [done|by apply pow_red_mod|lia]. Qed.

(** An entry of a certificate: either trial division up to [fuel + 1], or
    Pocklington's conditions for a base and some prime divisors of [N - 1]. *)
Inductive entry := Trial (N : Z) (fuel : nat) | Pock (N a : Z) (qs : list Z).
Definition proved (e : entry) : Z := match e with Trial N _ | Pock N _ _ => N end.
Definition product (qs : list Z) : Z := foldr Z.mul 1 qs.
Definition check_entry (known : list Z) (e : entry) : bool :=
  match e with
  | Trial N fuel => (1 <? N) && (N <? (Z.of_nat fuel + 2) * (Z.of_nat fuel + 2)) && forallb (fun d => negb (N mod (Z.of_nat d + 2) =? 0) || (N =? Z.of_nat d + 2)) (seq 0 fuel)
  | Pock N a qs => (1 <? N) && (N <=? product qs * product qs) && bool_decide (NoDup qs) && forallb (fun q => bool_decide (q ∈ known)) qs
      && (powmod N a (N - 1) =? 1) && forallb (fun q => ((N - 1) mod q =? 0) && (Z.gcd (powmod N a ((N - 1) / q) - 1) N =? 1)) qs
  end.
Fixpoint check_all (known : list Z) (c : list entry) : bool :=
  match c with [] => true | e :: c => check_entry known e && check_all (proved e :: known) c end.

#[local] Instance divide_dec (a b : Z) : Decision (a | b) := Znumtheory.Zdivide_dec a b.

(** A number that is not prime has a prime divisor up to its root. *)
Lemma small_prime N : 1 < N -> (forall r, Z.prime r -> (r | N) -> N < r * r) -> Z.prime N.
Proof.
  intros HN Hr. assert (Hleast : forall n, 1 < n -> (n | N) -> exists m, 1 < m <= n /\ (m | N) /\ forall k, 1 < k < m -> ~ (k | N)).
  { intros n. induction n as [n IH] using (well_founded_induction (Z.lt_wf 0)). intros Hn Hd.
    destruct (decide (Exists (fun k => (Z.of_nat k + 2 | N)) (seq 0 (Z.to_nat (n - 2))))) as [H|H].
    - apply Exists_exists in H as (k & Hk%elem_of_seq & Hd'). destruct (IH (Z.of_nat k + 2)) as (m & Hm & Hm'); [lia|lia|done|]. exists m. split; [lia|done].
    - exists n. split; [lia|]. split; [done|]. intros k Hk Hd'. apply H, Exists_exists. exists (Z.to_nat (k - 2)). split; [apply elem_of_seq; lia|]. by replace (Z.of_nat (Z.to_nat (k - 2)) + 2) with k by lia. }
  destruct (Hleast N HN (Z.divide_refl N)) as (m & Hm & Hd & Hmin).
  assert (Pm : Z.prime m). { split; [lia|]. intros k Hk Hkm. apply (Hmin k Hk). by etransitivity. }
  specialize (Hr m Pm Hd). destruct Hd as [c Ec]. assert (c = 1); [|subst c; by rewrite Ec, Z.mul_1_l].
  destruct (Z.eq_dec c 1) as [|Hc]; [done|]. assert (1 < c) by nia. destruct (Hmin c); [nia|]. exists m. lia.
Qed.

(** In the units modulo a prime: an element of two coprime orders is one. *)
Lemma order_divides r q b : Z.prime r -> Z.prime q -> b ^ q mod r = 1 -> (b - 1) mod r <> 0 -> (q | r - 1).
Proof.
  intros Pr Pq Hq Hb. pose proof (Z.prime_ge_2 _ Pr) as Hr. pose proof (Z.prime_ge_2 _ Pq) as Hq2.
  assert (Hcop : Z.coprime b r). { unfold Z.coprime. rewrite Z.gcd_comm. apply Z.coprime_prime_l; [done|]. intros [c Ec]. subst b. rewrite Z.pow_mul_l, <- (Z.succ_pred q), (Z.pow_succ_r r) in Hq by lia. replace (c ^ Z.succ (Z.pred q) * (r * r ^ Z.pred q)) with (c ^ Z.succ (Z.pred q) * r ^ Z.pred q * r) in Hq by ring. rewrite Z.mod_mul in Hq by lia. done. }
  destruct (Z.BoolSpec_divide q (r - 1)) as [|Hnd]; [done|]. destruct Hb.
  apply Z.coprime_prime_l in Hnd; [|done]. apply Z.Bezout_coprime in Hnd as (u & v & Huv).
  set (x := Zstar.of_Zmod (Zmod.of_Z r b)). assert (Hx : Zstar.to_Zmod x = Zmod.of_Z r b). { apply Zstar.to_Zmod_of_Zmod. rewrite Zmod.unsigned_of_Z. by apply Z.coprime_mod_l_iff. }
  assert (X1 : Zstar.pow x q = Zstar.one). { apply Zstar.to_Zmod_inj. rewrite Zstar.to_Zmod_pow, Zstar.to_Zmod_1, Hx. apply Zmod.unsigned_inj. rewrite Zmod.to_Z_pow_nonneg_r, Zmod.unsigned_of_Z, Zmod.unsigned_1_pos by lia. by rewrite Z.mod_pow_l. }
  assert (X2 : Zstar.pow x (r - 1) = Zstar.one) by apply (Zstar.fermat x Pr).
  assert (X : x = Zstar.one). { rewrite <- (Zstar.pow_1_r x), <- Huv, Zstar.pow_add_r, (Z.mul_comm u), (Z.mul_comm v), !Zstar.pow_mul_r, X1, X2, !Zstar.pow_1_l. apply Zstar.mul_1_l. }
  apply (f_equal Zstar.to_Zmod) in X. rewrite Hx, Zstar.to_Zmod_1 in X. apply (f_equal Zmod.unsigned) in X. rewrite Zmod.unsigned_of_Z, Zmod.unsigned_1_pos in X by lia.
  rewrite Zminus_mod, X, (Z.mod_small 1) by lia. done.
Qed.

Lemma prime_in_product q qs : Z.prime q -> Forall Z.prime qs -> (q | product qs) -> q ∈ qs.
Proof.
  intros Pq Hqs. induction Hqs as [|a qs Pa Hqs IH]; cbn; intros Hd.
  - pose proof (Z.prime_ge_2 _ Pq). apply Z.divide_1_r_nonneg in Hd; lia.
  - apply Z.divide_prime_mul in Hd as [Hd|Hd]; [|by right; apply IH|done]. apply Z.divide_prime_prime in Hd; [|done..]. subst. left.
Qed.
Lemma product_pos qs : Forall Z.prime qs -> 1 <= product qs.
Proof. unfold product. induction 1 as [|q qs Pq _ IH]; cbn; [lia|]. pose proof (Z.prime_ge_2 _ Pq). nia. Qed.
Lemma product_divides n qs : Forall Z.prime qs -> NoDup qs -> Forall (fun q => (q | n)) qs -> (product qs | n).
Proof.
  induction 1 as [|q qs Pq Hqs IH]; intros Hnd Hn; [apply Z.divide_1_l|]. apply NoDup_cons in Hnd as [Hq Hnd]. apply Forall_cons in Hn as [Hqn Hn].
  specialize (IH Hnd Hn). cbn. destruct IH as [c ->]. assert (Hc : (q | c)). { apply (Z.gauss _ (product qs)); [by rewrite Z.mul_comm|]. apply Z.coprime_prime_l; [done|]. intros Hd. by apply Hq, prime_in_product. }
  destruct Hc as [e ->]. exists e. rewrite <- Z.mul_assoc. done.
Qed.

Lemma check_entry_prime known e : Forall Z.prime known -> check_entry known e = true -> Z.prime (proved e).
Proof.
  intros Hk. destruct e as [N fuel|N a qs]; cbn [check_entry proved]; rewrite !andb_true_iff.
  - intros [[HN%Z.ltb_lt Hf%Z.ltb_lt] Hall]. apply small_prime; [done|]. intros r Pr Hd. pose proof (Z.prime_ge_2 _ Pr). destruct (Z.lt_ge_cases r (Z.of_nat fuel + 2)) as [Hlt|Hge]; [|nia].
    rewrite forallb_forall in Hall. specialize (Hall (Z.to_nat (r - 2))). cbv beta in Hall. replace (Z.of_nat (Z.to_nat (r - 2)) + 2) with r in Hall by lia. rewrite (Z.mod0_divide _ _ Hd) in Hall. cbn in Hall.
    rewrite Z.eqb_eq in Hall. rewrite Hall; [nia|]. apply in_seq. lia.
  - intros [[[[[HN%Z.ltb_lt Hf%Z.leb_le] Hnd%bool_decide_eq_true] Hkn] Hone%Z.eqb_eq] Hall]. rewrite powmod_spec in Hone by lia. rewrite forallb_forall in Hkn, Hall.
    assert (Pqs : Forall Z.prime qs). { apply Forall_forall. intros q Hq. rewrite Forall_forall in Hk. apply Hk. specialize (Hkn q). apply bool_decide_eq_true in Hkn; [done|]. by apply list_elem_of_In. }
    apply small_prime; [done|]. intros r Pr Hd. pose proof (Z.prime_ge_2 _ Pr).
    assert (HF : (product qs | r - 1)). { apply product_divides; [done..|]. apply Forall_forall. intros q Hq. pose proof (proj1 (Forall_forall _ _) Pqs q Hq) as Pq. pose proof (Z.prime_ge_2 _ Pq).
      specialize (Hall q (proj1 (list_elem_of_In _ _) Hq)). apply andb_true_iff in Hall as [Hq0%Z.eqb_eq Hg%Z.eqb_eq]. set (b := powmod N a _) in Hg. assert (Hp : b ^ q mod N = 1).
      { assert (0 <= (N - 1) / q) by (apply Z.div_pos; lia). unfold b. rewrite powmod_spec, Z.mod_pow_l, <- Z.pow_mul_r by lia. transitivity (a ^ (N - 1) mod N); [|exact Hone]. f_equal. f_equal. rewrite Z.mul_comm. pose proof (Z.div_mod (N - 1) q ltac:(lia)) as E. rewrite Hq0 in E. lia. }
      apply (order_divides r q b Pr Pq). 
      - by rewrite <- (Z.mod_mod_divide _ _ _ Hd), Hp, Z.mod_small by lia.
      - intros Hb0%Z.mod_divide; [|lia]. assert (Hr1 : (r | 1)) by (rewrite <- Hg; by apply Z.gcd_greatest). apply Z.divide_1_r_nonneg in Hr1; lia. }
    apply Z.divide_pos_le in HF; [|lia]. pose proof (product_pos _ Pqs). nia.
Qed.
Lemma check_all_prime c : forall known, Forall Z.prime known -> check_all known c = true -> Forall Z.prime ((proved <$> c) ++ known).
Proof.
  induction c as [|e c IH]; intros known Hk; [done|]. cbn [check_all]. rewrite andb_true_iff. intros [He Hc]. pose proof (check_entry_prime _ _ Hk He) as Pe.
  specialize (IH (proved e :: known) (proj2 (Forall_cons _ _ _) (conj Pe Hk)) Hc). rewrite Forall_app in IH |- *. destruct IH as [IH1 IH2]. apply Forall_cons in IH2 as [_ IH2]. split; [|done]. by constructor.
Qed.

(** The certificate of the two moduli: of the field, and of the base point. *)
Definition certificate : list entry := [
  Trial 991 30;
  Trial 103 9;
  Pock 8574133 2 [991; 103];
  Trial 127 10;
  Pock 1919519569386763 2 [8574133; 127];
  Trial 569003 753;
  Pock 2773320623 2 [569003];
  Pock 72106336199 2 [2773320623];
  Pock 75445702479781427272750846543864801 2 [1919519569386763; 72106336199];
  Trial 430751 655;
  Trial 4153 63;
  Pock 31757755568855353 2 [430751; 4153];
  Pock 74058212732561358302231226437062788676166966415465897661863160754340907 2 [75445702479781427272750846543864801; 31757755568855353];
  Pock 57896044618658097711785492504343953926634992332820282019728792003956564819949 2 [74058212732561358302231226437062788676166966415465897661863160754340907];
  Trial 1224481 1105;
  Trial 531581 728;
  Pock 1257559732178653 2 [1224481; 531581];
  Pock 4434155615661930479 2 [1257559732178653];
  Pock 172054593956031949258510691 2 [4434155615661930479];
  Pock 19757330305831588566944191468367130476339 2 [172054593956031949258510691];
  Pock 276602624281642239937218680557139826668747 2 [19757330305831588566944191468367130476339];
  Pock 7237005577332262213973186563042994240857116359379907606001950938285454250989 2 [276602624281642239937218680557139826668747]].
Definition order25519 := 2 ^ 252 + 27742317777372353535851937790883648493.
Lemma certificate_prime : Forall Z.prime ((proved <$> certificate) ++ []).
Proof. apply check_all_prime; [constructor|]. vm_compute. reflexivity. Qed.
Lemma certified N : bool_decide (N ∈ (proved <$> certificate) ++ []) = true -> Z.prime N.
Proof. intros H%bool_decide_eq_true. pose proof certificate_prime as C. rewrite Forall_forall in C. exact (C N H). Qed.
Lemma p_prime : Z.prime (2 ^ 255 - 19).
Proof. apply certified. vm_compute. reflexivity. Qed.
Lemma order_prime : Z.prime order25519.
Proof. apply certified. vm_compute. reflexivity. Qed.
End Primes.

(** ** The ladder, for any arithmetic *)

Module Ladder.
Section ops.
Context {A : Type} (add sub mul : A -> A -> A) (a24 : A).
Definition dbl (q : A * A) : A * A :=
  let a := add q.1 q.2 in let b := sub q.1 q.2 in let aa := mul a a in let bb := mul b b in
  let e := sub aa bb in (mul aa bb, mul e (add aa (mul a24 e))).
Definition dadd (u : A) (q r : A * A) : A * A :=
  let da := mul (sub r.1 r.2) (add q.1 q.2) in let cb := mul (add r.1 r.2) (sub q.1 q.2) in
  (mul (add da cb) (add da cb), mul u (mul (sub da cb) (sub da cb))).
Fixpoint ladder (n : nat) (k : Z) (u : A) (q r : A * A) : A * A :=
  match n with
  | O => q
  | S i => if Z.testbit k (Z.of_nat i) then ladder i k u (dadd u q r) (dbl r) else ladder i k u (dbl q) (dadd u q r)
  end.
End ops.

(** A map that respects the arithmetic respects the ladder. *)
Section hom.
Context {A B : Type} (add sub mul : A -> A -> A) (a24 : A) (add' sub' mul' : B -> B -> B) (f : A -> B)
  (f_add : forall x y, f (add x y) = add' (f x) (f y)) (f_sub : forall x y, f (sub x y) = sub' (f x) (f y)) (f_mul : forall x y, f (mul x y) = mul' (f x) (f y)).
Definition both (q : A * A) : B * B := (f q.1, f q.2).
Lemma both_dbl q : both (dbl add sub mul a24 q) = dbl add' sub' mul' (f a24) (both q).
Proof. unfold both, dbl. cbn. by repeat first [rewrite f_mul | rewrite f_add | rewrite f_sub]. Qed.
Lemma both_dadd u q r : both (dadd add sub mul u q r) = dadd add' sub' mul' (f u) (both q) (both r).
Proof. unfold both, dadd. cbn. by repeat first [rewrite f_mul | rewrite f_add | rewrite f_sub]. Qed.
Lemma both_ladder n k u q r : both (ladder add sub mul a24 n k u q r) = ladder add' sub' mul' (f a24) n k (f u) (both q) (both r).
Proof. revert q r. induction n as [|n IH]; intros q r; [done|]. cbn [ladder]. destruct (Z.testbit k (Z.of_nat n)); by rewrite IH, both_dbl, both_dadd. Qed.
End hom.
End Ladder.

(** ** The Edwards curve x^2 + y^2 = 1 + d x^2 y^2 *)

Module Edwards.
Section curve.
Context (p : Z) (p_prime : Z.prime p) (p_odd : 2 < p) (d : Zmod p) (d_nonsquare : forall r : Zmod p, Zmod.mul r r <> d).
Local Notation F := (Zmod p).
Local Open Scope Zmod_scope.
Local Notation "x / y" := (Zmod.mdiv x y) : Zmod_scope.
Add Field modular_field : (Zmod.field_theory p p_prime).

#[local] Instance F_eq_dec : EqDecision F.
Proof. intros x y. destruct (decide (Zmod.unsigned x = Zmod.unsigned y)) as [H|H]; [left; by apply Zmod.unsigned_inj|right; congruence]. Defined.

Lemma one_nz : (1 : F) <> 0.
Proof. apply Zmod.one_neq_zero. lia. Qed.
Lemma two_nz : (1 + 1 : F) <> 0.
Proof.
  intros H. apply (f_equal Zmod.unsigned) in H. rewrite Zmod.unsigned_add, Zmod.unsigned_0, Zmod.unsigned_1_pos, Z.mod_small in H by lia. lia.
Qed.
Lemma mul_zero (a b : F) : a * b = 0 -> a = 0 \/ b = 0.
Proof. apply (Zmod.mul_0_iff_prime p_prime). Qed.
Lemma mul_nz (a b : F) : a <> 0 -> b <> 0 -> a * b <> 0.
Proof. intros Ha Hb [H|H]%mul_zero; auto. Qed.
Lemma mul_cancel (a b c : F) : c <> 0 -> a * c = b * c -> a = b.
Proof. intros Hc H. destruct (mul_zero (a - b) c) as [H0|H0]; [transitivity (a * c - b * c); [ring|rewrite H; ring]| |done]. transitivity (a - b + b); [ring|rewrite H0; ring]. Qed.
Lemma div_mul (a b : F) : b <> 0 -> a / b * b = a.
Proof. intros Hb. field. done. Qed.

Definition excess (x y : F) : F := x * x + y * y - 1 - d * (x * x) * (y * y).
Definition curve (x y : F) : Prop := excess x y = 0.

(** [combination s]: the two sides differ by [s], which is zero. *)
Lemma sides (a b s : F) : a - b = s -> s = 0 -> a = b.
Proof. intros H Hs. transitivity (a - b + b); [ring|]. rewrite H, Hs. ring. Qed.
Ltac combination s := apply (sides _ _ s); [unfold excess; ring|].

Section sum.
Context (x1 y1 x2 y2 : F) (C1 : curve x1 y1) (C2 : curve x2 y2).
Let t := d * x1 * x2 * y1 * y2.

(** A product of coordinates whose square is 1 would make [d] a square. *)
Lemma product_root (e : F) : t * t = 1 -> e * e = 1 -> x2 + e * y2 = 0.
Proof.
  intros Ht He. destruct (decide (x2 + e * y2 = 0)) as [|Nw]; [done|]. exfalso.
  assert (x1 <> 0 /\ y1 <> 0) as [Nx1 Ny1] by (split; intros E; apply one_nz; rewrite <- Ht; unfold t; rewrite E; ring).
  assert (Nd : x1 * y1 * (x2 + e * y2) <> 0) by (repeat apply mul_nz; done).
  apply (d_nonsquare ((x1 + e * t * y1) / (x1 * y1 * (x2 + e * y2)))).
  apply (mul_cancel _ _ ((x1 * y1 * (x2 + e * y2)) * (x1 * y1 * (x2 + e * y2)))); [by apply mul_nz|].
  transitivity ((x1 + e * t * y1) * (x1 + e * t * y1)); [field; done|].
  apply (sides _ _ (excess x1 y1 - d * x1 * x1 * y1 * y1 * excess x2 y2 + (t * t - 1) * (y1 * y1 - 1) + (e * e - 1) * (t * t * y1 * y1 - d * x1 * x1 * y1 * y1 * y2 * y2))); [unfold t, excess; ring|].
  rewrite Ht, He, C1, C2. ring.
Qed.
Lemma product_not_unit : t * t <> 1.
Proof.
  intros Ht. pose proof (product_root 1 Ht ltac:(ring)) as H1. pose proof (product_root (0 - 1) Ht ltac:(ring)) as H2.
  destruct (mul_zero (1 + 1) x2) as [H|H]; [|by apply two_nz|].
  - transitivity (x2 + 1 * y2 + (x2 + (0 - 1) * y2)); [ring|]. rewrite H1, H2. ring.
  - apply one_nz. rewrite <- Ht. unfold t. rewrite H. ring.
Qed.
Lemma plus_nz : 1 + t <> 0.
Proof. intros H. apply product_not_unit. combination ((1 + t) * (t - 1)). rewrite H. ring. Qed.
Lemma minus_nz : 1 - t <> 0.
Proof. intros H. apply product_not_unit. combination ((0 - 1) * (1 - t) * (1 + t)). rewrite H. ring. Qed.

Definition sum_x : F := (x1 * y2 + x2 * y1) / (1 + t).
Definition sum_y : F := (y1 * y2 - x1 * x2) / (1 - t).
Lemma sum_x_mul : sum_x * (1 + t) = x1 * y2 + x2 * y1.
Proof. apply div_mul, plus_nz. Qed.
Lemma sum_y_mul : sum_y * (1 - t) = y1 * y2 - x1 * x2.
Proof. apply div_mul, minus_nz. Qed.

Lemma sum_curve : curve sum_x sum_y.
Proof.
  unfold curve. apply (mul_cancel _ _ ((1 + t) * (1 + t) * ((1 - t) * (1 - t)))); [repeat apply mul_nz; apply plus_nz || apply minus_nz|].
  pose proof sum_x_mul as X. pose proof sum_y_mul as Y. set (u := sum_x) in *. set (w := sum_y) in *. clearbody u w.
  transitivity ((u * (1 + t)) * (u * (1 + t)) * ((1 - t) * (1 - t)) + (w * (1 - t)) * (w * (1 - t)) * ((1 + t) * (1 + t)) - (1 - t * t) * (1 - t * t)
    - d * ((u * (1 + t)) * (u * (1 + t))) * ((w * (1 - t)) * (w * (1 - t)))); [unfold excess; ring|].
  rewrite X, Y. transitivity (
    (y2*y2*y2*y2 + (1+1)*(1+1)*x2*x2*y2*y2 - (1+1)*x2*x2*y2*y2*y2*y2 + x2*x2*x2*x2 - (1+1)*x2*x2*x2*x2*y2*y2 - (1+1)*d*x2*x2*y2*y2 + (1+1)*d*x2*x2*x2*x2*y2*y2*y2*y2 - d*y1*y1*x2*x2*y2*y2*y2*y2 - d*y1*y1*x2*x2*x2*x2*y2*y2 - d*x1*x1*x2*x2*y2*y2*y2*y2 - d*x1*x1*x2*x2*x2*x2*y2*y2 - d*d*x2*x2*x2*x2*y2*y2*y2*y2 + d*d*y1*y1*x2*x2*x2*x2*y2*y2*y2*y2 + d*d*x1*x1*x2*x2*x2*x2*y2*y2*y2*y2 + d*d*d*x1*x1*y1*y1*x2*x2*x2*x2*y2*y2*y2*y2) * excess x1 y1
    + (1 + y2*y2 + x2*x2 - (1+1)*x2*x2*y2*y2 - y1*y1*y2*y2 - y1*y1*x2*x2 + (1+1)*y1*y1*x2*x2*y2*y2 - x1*x1*y2*y2 - x1*x1*x2*x2 + (1+1)*x1*x1*x2*x2*y2*y2 + d*x2*x2*y2*y2 - (1+1)*d*y1*y1*x2*x2*y2*y2 + d*y1*y1*y1*y1*x2*x2*y2*y2 - (1+1)*d*x1*x1*x2*x2*y2*y2 + d*x1*x1*x1*x1*x2*x2*y2*y2) * excess x2 y2); [unfold t, excess; ring|].
  rewrite C1, C2. ring.
Qed.
End sum.

(** ** Associativity *)

Section sums.
Context (x1 y1 x2 y2 x3 y3 : F) (C1 : curve x1 y1) (C2 : curve x2 y2) (C3 : curve x3 y3).
Local Notation X := (sum_x x1 y1 x2 y2).
Local Notation Y := (sum_y x1 y1 x2 y2).
Local Notation U := (sum_x x2 y2 x3 y3).
Local Notation W := (sum_y x2 y2 x3 y3).
Let t := d * x1 * x2 * y1 * y2.
Let s := d * x2 * x3 * y2 * y3.

(** Both sides of a law for the sums [(X, Y)] and [(U, W)], without their denominators. *)
Lemma clear_sums (f g : F -> F -> F -> F -> F) : 
  (forall X Y U W, X * (1 + t) = x1 * y2 + x2 * y1 -> Y * (1 - t) = y1 * y2 - x1 * x2 -> U * (1 + s) = x2 * y3 + x3 * y2 -> W * (1 - s) = y2 * y3 - x2 * x3 ->
    f X Y U W * ((1 + t) * (1 - t) * ((1 + s) * (1 - s))) = g X Y U W * ((1 + t) * (1 - t) * ((1 + s) * (1 - s)))) -> f X Y U W = g X Y U W.
Proof.
  intros H. apply (mul_cancel _ _ ((1 + t) * (1 - t) * ((1 + s) * (1 - s)))).
  - repeat apply mul_nz; (by apply plus_nz) || (by apply minus_nz).
  - apply H; [by apply sum_x_mul|by apply sum_y_mul|by apply sum_x_mul|by apply sum_y_mul].
Qed.

Lemma assoc_x_cross : (X * y3 + x3 * Y) * (1 + d * x1 * U * y1 * W) = (x1 * W + U * y1) * (1 + d * X * x3 * Y * y3).
Proof.
  apply (clear_sums (fun X Y U W => (X * y3 + x3 * Y) * (1 + d * x1 * U * y1 * W)) (fun X Y U W => (x1 * W + U * y1) * (1 + d * X * x3 * Y * y3))).
  intros A B C D EA EB EC ED.
  transitivity ((A * (1 + t) * (1 - t) * y3 + x3 * (B * (1 - t)) * (1 + t)) * ((1 + s) * (1 - s) + d * x1 * (C * (1 + s)) * y1 * (D * (1 - s)))); [ring|].
  transitivity ((x1 * (D * (1 - s)) * (1 + s) + C * (1 + s) * (1 - s) * y1) * ((1 + t) * (1 - t) + d * (A * (1 + t)) * x3 * (B * (1 - t)) * y3)); [|ring].
  rewrite EA, EB, EC, ED.
  apply (sides _ _ (
    d*x2*y2*( 0 - y1*y2*y2*y2*x3*x3*y3 - y1*x2*y2*y2*x3 + y1*x2*y2*y2*x3*x3*x3 - y1*x2*x2*y2*y3 + y1*x2*x2*y2*y3*y3*y3 - y1*x2*x2*x2*x3*y3*y3 + x1*y2*y2*y2*x3*y3*y3 - x1*x2*y2*y2*y3 + x1*x2*y2*y2*y3*y3*y3 + x1*x2*x2*y2*x3 - x1*x2*x2*y2*x3*x3*x3 - x1*x2*x2*x2*x3*x3*y3 + d*y1*x2*x2*y2*y2*y2*x3*x3*y3 + d*y1*x2*x2*x2*y2*y2*x3*y3*y3 - d*x1*x2*x2*y2*y2*y2*x3*y3*y3 + d*x1*x2*x2*x2*y2*y2*x3*x3*y3 ) * excess x1 y1
    + d*x2*y2*( 0 - y1*y2*x3*x3*y3 - y1*x2*x3*y3*y3 + y1*y1*y1*y2*x3*x3*y3 + y1*y1*y1*x2*x3*y3*y3 + x1*y2*x3*y3*y3 - x1*x2*x3*x3*y3 - x1*y1*y1*y2*x3 + x1*y1*y1*y2*x3*x3*x3 + x1*y1*y1*x2*y3 - x1*y1*y1*x2*y3*y3*y3 + x1*x1*y1*y2*y3 - x1*x1*y1*y2*y3*y3*y3 + x1*x1*y1*x2*x3 - x1*x1*y1*x2*x3*x3*x3 - x1*x1*x1*y2*x3*y3*y3 + x1*x1*x1*x2*x3*x3*y3 ) * excess x2 y2
    + d*x2*y2*( y1*x2*y2*y2*x3 + y1*x2*x2*y2*y3 - y1*y1*y1*x2*y2*y2*x3 - y1*y1*y1*x2*x2*y2*y3 + x1*x2*y2*y2*y3 - x1*x2*x2*y2*x3 - x1*y1*y1*y2*y2*y2*x3 + x1*y1*y1*x2*x2*x2*y3 + x1*x1*y1*y2*y2*y2*y3 + x1*x1*y1*x2*x2*x2*x3 - x1*x1*x1*x2*y2*y2*y3 + x1*x1*x1*x2*x2*y2*x3 + d*x1*y1*y1*x2*x2*y2*y2*y2*x3 - d*x1*y1*y1*x2*x2*x2*y2*y2*y3 - d*x1*x1*y1*x2*x2*y2*y2*y2*y3 - d*x1*x1*y1*x2*x2*x2*y2*y2*x3 ) * excess x3 y3)); [unfold t, s, excess; ring|].
  rewrite C1, C2, C3. ring.
Qed.
Lemma assoc_y_cross : (Y * y3 - X * x3) * (1 - d * x1 * U * y1 * W) = (y1 * W - x1 * U) * (1 - d * X * x3 * Y * y3).
Proof.
  apply (clear_sums (fun X Y U W => (Y * y3 - X * x3) * (1 - d * x1 * U * y1 * W)) (fun X Y U W => (y1 * W - x1 * U) * (1 - d * X * x3 * Y * y3))).
  intros A B C D EA EB EC ED.
  transitivity ((B * (1 - t) * (1 + t) * y3 - A * (1 + t) * (1 - t) * x3) * ((1 + s) * (1 - s) - d * x1 * (C * (1 + s)) * y1 * (D * (1 - s)))); [ring|].
  transitivity ((y1 * (D * (1 - s)) * (1 + s) - x1 * (C * (1 + s)) * (1 - s)) * ((1 + t) * (1 - t) - d * (A * (1 + t)) * x3 * (B * (1 - t)) * y3)); [|ring].
  rewrite EA, EB, EC, ED.
  apply (sides _ _ (
    d*x2*y2*( y1*y2*y2*y2*x3*y3*y3 - y1*x2*y2*y2*y3 + y1*x2*y2*y2*y3*y3*y3 + y1*x2*x2*y2*x3 - y1*x2*x2*y2*x3*x3*x3 - y1*x2*x2*x2*x3*x3*y3 + x1*y2*y2*y2*x3*x3*y3 + x1*x2*y2*y2*x3 - x1*x2*y2*y2*x3*x3*x3 + x1*x2*x2*y2*y3 - x1*x2*x2*y2*y3*y3*y3 + x1*x2*x2*x2*x3*y3*y3 - d*y1*x2*x2*y2*y2*y2*x3*y3*y3 + d*y1*x2*x2*x2*y2*y2*x3*x3*y3 - d*x1*x2*x2*y2*y2*y2*x3*x3*y3 - d*x1*x2*x2*x2*y2*y2*x3*y3*y3 ) * excess x1 y1
    + d*x2*y2*( y1*y2*x3*y3*y3 - y1*x2*x3*x3*y3 - y1*y1*y1*y2*x3*y3*y3 + y1*y1*y1*x2*x3*x3*y3 + x1*y2*x3*x3*y3 + x1*x2*x3*y3*y3 - x1*y1*y1*y2*y3 + x1*y1*y1*y2*y3*y3*y3 - x1*y1*y1*x2*x3 + x1*y1*y1*x2*x3*x3*x3 - x1*x1*y1*y2*x3 + x1*x1*y1*y2*x3*x3*x3 + x1*x1*y1*x2*y3 - x1*x1*y1*x2*y3*y3*y3 - x1*x1*x1*y2*x3*x3*y3 - x1*x1*x1*x2*x3*y3*y3 ) * excess x2 y2
    + d*x2*y2*( y1*x2*y2*y2*y3 - y1*x2*x2*y2*x3 - y1*y1*y1*x2*y2*y2*y3 + y1*y1*y1*x2*x2*y2*x3 - x1*x2*y2*y2*x3 - x1*x2*x2*y2*y3 - x1*y1*y1*y2*y2*y2*y3 - x1*y1*y1*x2*x2*x2*x3 - x1*x1*y1*y2*y2*y2*x3 + x1*x1*y1*x2*x2*x2*y3 + x1*x1*x1*x2*y2*y2*x3 + x1*x1*x1*x2*x2*y2*y3 + d*x1*y1*y1*x2*x2*y2*y2*y2*y3 + d*x1*y1*y1*x2*x2*x2*y2*y2*x3 + d*x1*x1*y1*x2*x2*y2*y2*y2*x3 - d*x1*x1*y1*x2*x2*x2*y2*y2*y3 ) * excess x3 y3)); [unfold t, s, excess; ring|].
  rewrite C1, C2, C3. ring.
Qed.
End sums.

Lemma div_eq (a b a' b' : F) : b <> 0 -> b' <> 0 -> a * b' = a' * b -> a / b = a' / b'.
Proof. intros Hb Hb' H. apply (mul_cancel _ _ (b * b')); [by apply mul_nz|]. transitivity (a * b'); [field; done|]. rewrite H. field. done. Qed.

(** ** The group *)

Record point := Pt { px : F; py : F; on : curve px py }.
Lemma point_eq (P Q : point) : px P = px Q -> py P = py Q -> P = Q.
Proof. destruct P as [x y C], Q as [x' y' C']. cbn. intros -> ->. f_equal. apply (proof_irrel C C'). Qed.

Definition padd (P Q : point) : point := Pt _ _ (sum_curve (px P) (py P) (px Q) (py Q) (on P) (on Q)).
Lemma zero_curve : curve 0 1.
Proof. unfold curve, excess. ring. Qed.
Definition pzero : point := Pt 0 1 zero_curve.
Lemma opp_curve (P : point) : curve (0 - px P) (py P).
Proof. transitivity (excess (px P) (py P)); [unfold excess; ring|apply on]. Qed.
Definition popp (P : point) : point := Pt _ _ (opp_curve P).

Lemma padd_comm P Q : padd P Q = padd Q P.
Proof. apply point_eq; cbn; unfold sum_x, sum_y; f_equal; ring. Qed.
Lemma padd_assoc P Q R : padd (padd P Q) R = padd P (padd Q R).
Proof.
  destruct P as [x1 y1 C1], Q as [x2 y2 C2], R as [x3 y3 C3]. pose proof (sum_curve _ _ _ _ C1 C2). pose proof (sum_curve _ _ _ _ C2 C3). apply point_eq; apply div_eq.
  - by apply plus_nz.
  - by apply plus_nz.
  - by apply assoc_x_cross.
  - by apply minus_nz.
  - by apply minus_nz.
  - cbn. rewrite <- assoc_y_cross by done. ring.
Qed.
Lemma padd_zero P : padd P pzero = P.
Proof.
  apply point_eq.
  - apply (mul_cancel _ _ _ (plus_nz _ _ _ _ (on P) zero_curve)). cbn [px py padd pzero popp]. rewrite (sum_x_mul _ _ _ _ (on P) zero_curve). cbn. ring.
  - apply (mul_cancel _ _ _ (minus_nz _ _ _ _ (on P) zero_curve)). cbn [px py padd pzero popp]. rewrite (sum_y_mul _ _ _ _ (on P) zero_curve). cbn. ring.
Qed.
Lemma padd_opp P : padd P (popp P) = pzero.
Proof.
  apply point_eq.
  - apply (mul_cancel _ _ _ (plus_nz _ _ _ _ (on P) (opp_curve P))). cbn [px py padd pzero popp]. rewrite (sum_x_mul _ _ _ _ (on P) (opp_curve P)). cbn. ring.
  - apply (mul_cancel _ _ _ (minus_nz _ _ _ _ (on P) (opp_curve P))). cbn [px py padd pzero popp]. rewrite (sum_y_mul _ _ _ _ (on P) (opp_curve P)). cbn. combination (excess (px P) (py P)). apply on.
Qed.

(** ** Multiples *)

Fixpoint smul (n : nat) (P : point) : point := match n with O => pzero | S n => padd P (smul n P) end.
Lemma smul_add m n P : smul (m + n) P = padd (smul m P) (smul n P).
Proof. induction m as [|m IH]; cbn; [by rewrite padd_comm, padd_zero|]. by rewrite IH, padd_assoc. Qed.
Lemma smul_mul m n P : smul (m * n) P = smul m (smul n P).
Proof. induction m as [|m IH]; cbn; [done|]. by rewrite smul_add, IH. Qed.
Lemma smul_zero n : smul n pzero = pzero.
Proof. induction n as [|n IH]; cbn; [done|]. by rewrite IH, padd_zero. Qed.


Lemma d_square_nz (y : F) : 1 - d * y * y <> 0.
Proof.
  intros H. assert (Ny : y <> 0) by (intros ->; apply one_nz; rewrite <- H; ring). apply (d_nonsquare (1 / y)).
  apply (mul_cancel _ _ (y * y)); [by apply mul_nz|]. transitivity (1 : F); [field; done|]. combination (1 - d * y * y). done.
Qed.

(** ** The ladder computes multiples *)

Section ladder.
Import Ladder.
Context (a24 : F) (a24_nz : a24 + 1 <> 0) (d_a24 : d * (a24 + 1) = a24).
Local Notation dbl := (dbl Zmod.add Zmod.sub Zmod.mul a24).
Local Notation dadd := (dadd Zmod.add Zmod.sub Zmod.mul).
Local Notation ladder := (ladder Zmod.add Zmod.sub Zmod.mul a24).

(** [(X : Z)] is the abscissa [(1 + y) / (1 - y)] of a point, infinity included. *)
Definition rep (q : F * F) (P : point) : Prop := q.1 + q.2 <> 0 /\ q.1 - q.2 = py P * (q.1 + q.2).

Lemma rep_dbl q P : rep q P -> rep (dbl q) (padd P P).
Proof.
  unfold rep. intros [Hs Hy]. destruct q as [X Z]. cbn [fst snd] in *. set (s := X + Z) in *. pose proof (on P) as C. unfold curve in C.
  pose proof (sum_y_mul _ _ _ _ (on P) (on P)) as E. change (sum_y _ _ _ _) with (py (padd P P)) in E.
  pose proof (minus_nz _ _ _ _ (on P) (on P)) as Nm. set (y2 := py (padd P P)) in *. clearbody y2. set (x := px P) in *. set (y := py P) in *. clearbody x y.
  assert (H : (dbl (X, Z)).1 + (dbl (X, Z)).2 = (a24 + 1) * (1 - d * y * y) * (1 - d * x * x * y * y) * (s * s * s * s)).
  { unfold dbl. cbn [fst snd]. fold s. rewrite Hy. combination ((d * (a24 + 1) - a24) * (1 + 1 - y * y) * y * y * (s * s * s * s) - (a24 + 1) * excess x y * (0 - d * y * y) * (s * s * s * s)). rewrite C, d_a24. ring. }
  split; [rewrite H; repeat apply mul_nz; done || apply d_square_nz|]. rewrite H.
  transitivity ((a24 + 1) * (1 - d * y * y) * (s * s * s * s) * (y2 * (1 - d * x * x * y * y))); [|ring]. rewrite E.
  unfold dbl. cbn [fst snd]. fold s. rewrite Hy. combination ((a24 + 1) * excess x y * (s * s * s * s) + (d * (a24 + 1) - a24) * (y * y * y * y) * (s * s * s * s)). rewrite C, d_a24. ring.
Qed.

(** Differential addition: the difference is a point [B] whose abscissa is neither infinity nor zero. *)
Section difference.
Context (u : F) (B : point) (u_B : u * (1 - py B) = 1 + py B) (B_fin : 1 - py B <> 0) (B_nz : 1 + py B <> 0).

Lemma sum_of_squares x1 y1 x2 y2 : curve x1 y1 -> curve x2 y2 ->
  let v := y1 * y2 in let w := x1 * x2 in (y1 * y1 + y2 * y2) * (1 - d * w * w) = 1 + v * v - w * w - d * d * w * w * v * v.
Proof. intros C1 C2. cbv zeta. combination (x2 * x2 * (1 - d * y2 * y2) * excess x1 y1 + (1 - y1 * y1) * excess x2 y2). rewrite C1, C2. ring. Qed.

(** The ordinates of [P + Q] and [Q - P] in the coordinates of [P] and [Q]. *)
Lemma ordinates P Q : Q = padd P B ->
  let v := py P * py Q in let w := px P * px Q in let S := py P * py P + py Q * py Q in
  (1 + 1) * v - py B * S = py (padd P Q) * (S - (1 + 1) * py B * v) /\ py B * (1 + d * w * v) = v + w.
Proof.
  intros EQ. cbv zeta. assert (EB : padd Q (popp P) = B) by (rewrite EQ, (padd_comm P), padd_assoc, padd_opp; apply padd_zero).
  pose proof (sum_y_mul _ _ _ _ (on P) (on Q)) as E3. change (sum_y _ _ _ _) with (py (padd P Q)) in E3.
  pose proof (sum_y_mul _ _ _ _ (on Q) (on (popp P))) as E4. change (sum_y _ _ _ _) with (py (padd Q (popp P))) in E4. rewrite EB in E4. cbn [px py popp] in E4.
  pose proof (sum_of_squares _ _ _ _ (on P) (on Q)) as ES. cbv zeta in ES. pose proof (minus_nz _ _ _ _ (on P) (on Q)) as Nm. pose proof (plus_nz _ _ _ _ (on P) (on Q)) as Np.
  assert (Et : d * px P * px Q * py P * py Q = d * (px P * px Q) * (py P * py Q)) by ring. rewrite Et in E3, Nm, Np. clear Et.
  set (v := py P * py Q) in *. set (w := px P * px Q) in *. set (S := py P * py P + py Q * py Q) in *.
  assert (E4' : py B * (1 + d * w * v) = v + w) by (transitivity (py B * (1 - d * px Q * (0 - px P) * py Q * py P)); [unfold v, w; ring|rewrite E4; unfold v, w; ring]). clear E4.
  split; [|done]. clearbody v w S. apply (mul_cancel _ _ ((1 - d * w * v) * (1 + d * w * v))); [by apply mul_nz|].
  transitivity (((1 + 1) * v * (1 + d * w * v) - py B * (1 + d * w * v) * S) * (1 - d * w * v)); [ring|].
  transitivity (py (padd P Q) * (1 - d * w * v) * (S * (1 + d * w * v) - (1 + 1) * (py B * (1 + d * w * v)) * v)); [|ring]. rewrite E3, E4'.
  apply (sides _ _ ((0 - (1 + 1)) * v * (S * (1 - d * w * w) - (1 + v * v - w * w - d * d * w * w * v * v)))); [ring|]. rewrite ES. ring.
Qed.

Lemma difference_nz P Q : Q = padd P B -> py P * py P + py Q * py Q - (1 + 1) * py B * (py P * py Q) <> 0.
Proof.
  intros EQ E. destruct (ordinates P Q EQ) as [I EB]. rewrite E in I. pose proof (on P) as C1. pose proof (on Q) as C2. unfold curve in C1, C2.
  assert (Sq : forall a b : F, a <> 0 -> a * (b * b) = 0 -> b = 0) by (intros a b Ha [|[|]%mul_zero]%mul_zero; done).
  assert (Ep : py P + py Q = 0).
  { apply (Sq (1 - py B)); [done|]. transitivity ((py P * py P + py Q * py Q - (1 + 1) * py B * (py P * py Q)) + ((1 + 1) * (py P * py Q) - py B * (py P * py P + py Q * py Q))); [ring|]. rewrite E, I. ring. }
  assert (Em : py P - py Q = 0).
  { apply (Sq (1 + py B)); [done|]. transitivity ((py P * py P + py Q * py Q - (1 + 1) * py B * (py P * py Q)) - ((1 + 1) * (py P * py Q) - py B * (py P * py P + py Q * py Q))); [ring|]. rewrite E, I. ring. }
  assert (HP : py P = 0). { destruct (mul_zero (1 + 1) (py P)) as [H|H]; [|by destruct two_nz|done]. transitivity ((py P + py Q) + (py P - py Q)); [ring|]. rewrite Ep, Em. ring. }
  assert (HQ : py Q = 0) by (rewrite HP in Ep; rewrite <- Ep; ring). rewrite HP, HQ in *. unfold excess in C1, C2.
  destruct (mul_zero (1 - py B) (1 + py B)); [|done..].
  assert (Ew : py B = px P * px Q) by (transitivity (py B * (1 + d * (px P * px Q) * (0 * 0))); [ring|rewrite EB; ring]). rewrite Ew.
  transitivity (0 - ((px P * px P + 0 * 0 - 1 - d * (px P * px P) * (0 * 0)) * (px Q * px Q) + (px Q * px Q + 0 * 0 - 1 - d * (px Q * px Q) * (0 * 0)))); [ring|]. rewrite C1, C2. ring.
Qed.

Lemma rep_dadd q r P Q : Q = padd P B -> rep q P -> rep r Q -> rep (dadd u q r) (padd P Q).
Proof.
  unfold rep. intros EQ [Hs1 Hy1] [Hs2 Hy2]. destruct q as [X1 Z1], r as [X2 Z2]. cbn [fst snd] in *.
  destruct (ordinates P Q EQ) as [I _]. pose proof (difference_nz P Q EQ) as Nz.
  set (y3 := py (padd P Q)) in *. set (s1 := X1 + Z1) in *. set (s2 := X2 + Z2) in *. set (y1 := py P) in *. set (y2 := py Q) in *. clearbody y3 y1 y2.
  unfold dadd. cbn [fst snd]. fold s1. fold s2. rewrite Hy1, Hy2. set (da := y2 * s2 * s1). set (cb := s2 * (y1 * s1)).
  assert (H : forall e : F, (1 - py B) * ((da + cb) * (da + cb) + e * (u * ((da - cb) * (da - cb)))) = (1 - py B) * ((da + cb) * (da + cb)) + e * (1 + py B) * ((da - cb) * (da - cb))) by (intros e; rewrite <- u_B; ring).
  assert (Sum : (1 - py B) * ((da + cb) * (da + cb) + u * ((da - cb) * (da - cb))) = (1 + 1) * (y1 * y1 + y2 * y2 - (1 + 1) * py B * (y1 * y2)) * (s1 * s2 * (s1 * s2))).
  { pose proof (H 1) as H1. transitivity ((1 - py B) * ((da + cb) * (da + cb) + 1 * (u * ((da - cb) * (da - cb))))); [ring|]. rewrite H1. unfold da, cb. ring. }
  split.
  - intros E. rewrite E in Sum. apply (mul_nz ((1 + 1) * (y1 * y1 + y2 * y2 - (1 + 1) * py B * (y1 * y2))) (s1 * s2 * (s1 * s2))); [apply mul_nz; [apply two_nz|done]|repeat apply mul_nz; done|]. rewrite <- Sum. ring.
  - apply (mul_cancel _ _ (1 - py B)); [done|]. transitivity ((1 - py B) * ((da + cb) * (da + cb) + (0 - 1) * (u * ((da - cb) * (da - cb))))); [ring|]. rewrite H.
    transitivity (y3 * ((1 - py B) * ((da + cb) * (da + cb) + u * ((da - cb) * (da - cb))))); [|ring]. rewrite Sum.
    transitivity ((1 + 1) * (s1 * s2 * (s1 * s2)) * ((1 + 1) * (y1 * y2) - py B * (y1 * y1 + y2 * y2))); [unfold da, cb; ring|]. rewrite I. ring.
Qed.

(** From the multiples [a] and [a + 1] the ladder goes on to [2^n a] and the low bits of its scalar. *)
Lemma ladder_rep n k : forall a q r, (0 <= a)%Z -> rep q (smul (Z.to_nat a) B) -> rep r (smul (Z.to_nat (a + 1)) B) ->
  rep (ladder n k u q r) (smul (Z.to_nat (a * 2 ^ Z.of_nat n + k mod 2 ^ Z.of_nat n)) B).
Proof.
  assert (Hnext : forall a, (0 <= a)%Z -> smul (Z.to_nat (a + 1)) B = padd (smul (Z.to_nat a) B) B) by (intros a Ha; rewrite Z2Nat.inj_add by lia; rewrite smul_add; change (Z.to_nat 1) with 1%nat; cbn [smul]; by rewrite padd_zero).
  assert (Hadd : forall a b c, (0 <= a)%Z -> (0 <= b)%Z -> c = (a + b)%Z -> smul (Z.to_nat c) B = padd (smul (Z.to_nat a) B) (smul (Z.to_nat b) B)) by (intros a b c Ha Hb ->; rewrite Z2Nat.inj_add by lia; apply smul_add).
  induction n as [|n IH]; intros a q r Ha Hq Hr; cbn [ladder].
  - by rewrite Z.mod_1_r, Z.mul_1_r, Z.add_0_r.
  - assert (Hk : (k mod 2 ^ Z.of_nat (S n) = Z.b2z (Z.testbit k (Z.of_nat n)) * 2 ^ Z.of_nat n + k mod 2 ^ Z.of_nat n)%Z).
    { rewrite Nat2Z.inj_succ, Z.pow_succ_r, Z.mul_comm, Z.rem_mul_r, Z.testbit_spec' by lia. lia. }
    assert (Hp : (2 ^ Z.of_nat (S n) = 2 * 2 ^ Z.of_nat n)%Z) by (by rewrite Nat2Z.inj_succ, Z.pow_succ_r by lia).
    pose proof (rep_dadd q r _ _ (Hnext a Ha) Hq Hr) as Hs. rewrite Hk, Hp. destruct (Z.testbit k (Z.of_nat n)); cbn [Z.b2z].
    + replace (a * (2 * 2 ^ Z.of_nat n) + (1 * 2 ^ Z.of_nat n + k mod 2 ^ Z.of_nat n))%Z with ((2 * a + 1) * 2 ^ Z.of_nat n + k mod 2 ^ Z.of_nat n)%Z by ring.
      apply IH; [lia| |]; [rewrite (Hadd a (a + 1)%Z) by lia; exact Hs|]. rewrite (Hadd (a + 1) (a + 1))%Z by lia. by apply rep_dbl.
    + replace (a * (2 * 2 ^ Z.of_nat n) + (0 * 2 ^ Z.of_nat n + k mod 2 ^ Z.of_nat n))%Z with ((2 * a) * 2 ^ Z.of_nat n + k mod 2 ^ Z.of_nat n)%Z by ring.
      apply IH; [lia| |]; [rewrite (Hadd a a)%Z by lia; by apply rep_dbl|]. rewrite (Hadd a (a + 1))%Z by lia. exact Hs.
Qed.

(** From the neutral element, the multiple of the scalar. *)
Lemma ladder_smul n k : (0 <= k < 2 ^ Z.of_nat n)%Z -> rep (ladder n k u (1, 0) (u, 1)) (smul (Z.to_nat k) B).
Proof.
  intros Hk. pose proof (ladder_rep n k 0 (1, 0) (u, 1) ltac:(lia)) as H. rewrite Z.mul_0_l, !Z.add_0_l, Z.mod_small in H by done. apply H.
  - change (Z.to_nat 0) with 0%nat. unfold rep. cbn [fst snd smul pzero py]. split; [replace (1 + 0 : F) with (1 : F) by ring; apply one_nz|ring].
  - change (Z.to_nat 1) with 1%nat. cbn [smul]. rewrite padd_zero. assert (E : (1 - py B) * (u + 1) = 1 + 1) by (transitivity (u * (1 - py B) + (1 - py B)); [ring|rewrite u_B; ring]).
    split; cbn [fst snd]; [intros E0; rewrite E0 in E; apply two_nz; rewrite <- E; ring|]. apply (mul_cancel _ _ (1 - py B)); [done|].
    transitivity (u * (1 - py B) - (1 - py B)); [ring|]. transitivity (py B * ((1 - py B) * (u + 1))); [|ring]. rewrite E, u_B. ring.
Qed.
End difference.
End ladder.
(** ** Orders *)

Lemma smul_gcd m n P : smul m P = pzero -> smul n P = pzero -> smul (Nat.gcd m n) P = pzero.
Proof.
  assert (H : forall m n, smul m P = pzero -> smul n P = pzero -> Nat.Bezout m n (Nat.gcd m n) -> smul (Nat.gcd m n) P = pzero).
  { intros a b Ha Hb (u & v & E). apply (f_equal (fun k => smul k P)) in E. rewrite smul_add, !smul_mul, Ha, Hb, !smul_zero, padd_zero in E. done. }
  intros Hm Hn. destruct (Nat.gcd_bezout m n) as [B|B]; [by apply H|]. rewrite Nat.gcd_comm. apply H; [done..|]. by rewrite Nat.gcd_comm.
Qed.

(** In the multiples of a point of prime order, only those by multiples of the order vanish. *)
Lemma smul_order l P : Z.prime l -> smul (Z.to_nat l) P = pzero -> P <> pzero -> forall n, (0 <= n)%Z -> smul (Z.to_nat n) P = pzero -> (l | n)%Z.
Proof.
  intros Pl Hl HP n Hn H. destruct (Z.BoolSpec_divide l n) as [|Hnd]; [done|]. destruct HP. apply Z.coprime_prime_l in Hnd; [|done]. pose proof (Z.prime_ge_2 _ Pl).
  pose proof (smul_gcd _ _ _ Hl H) as G. replace (Nat.gcd (Z.to_nat l) (Z.to_nat n)) with 1%nat in G; [cbn [smul] in G; by rewrite padd_zero in G|].
  destruct (Nat.gcd_divide_l (Z.to_nat l) (Z.to_nat n)) as [u Eu]. destruct (Nat.gcd_divide_r (Z.to_nat l) (Z.to_nat n)) as [v Ev]. set (g := Nat.gcd _ _) in *.
  assert (Hg : (Z.of_nat g | 1)%Z); [|apply Z.divide_1_r_nonneg in Hg; lia]. rewrite <- Hnd. apply Z.gcd_greatest; [exists (Z.of_nat u)|exists (Z.of_nat v)]; lia.
Qed.

Lemma px_zero P : py P * py P = 1 -> px P = 0.
Proof.
  intros Hy. pose proof (on P) as C. unfold curve in C. assert (H : px P * px P * (1 - d * 1 * 1) = 0).
  { transitivity (excess (px P) (py P) - (1 - d * px P * px P) * (py P * py P - 1)); [unfold excess; ring|]. rewrite C, Hy. ring. }
  destruct (mul_zero _ _ H) as [[|]%mul_zero|H1]; [done..|]. by destruct (d_square_nz 1).
Qed.
Lemma py_one P : 1 - py P = 0 -> P = pzero.
Proof. intros H. assert (E : py P = 1) by (transitivity (1 - (1 - py P)); [ring|rewrite H; ring]). apply point_eq; cbn; [apply px_zero; rewrite E; ring|done]. Qed.
Lemma py_minus_one P : 1 + py P = 0 -> padd P P = pzero.
Proof.
  intros H. assert (E : py P = 0 - 1) by (transitivity ((1 + py P) - 1); [ring|rewrite H; ring]). assert (Ex : px P = 0) by (apply px_zero; rewrite E; ring).
  apply point_eq; cbn [padd pzero px py].
  - apply (mul_cancel _ _ _ (plus_nz _ _ _ _ (on P) (on P))). rewrite (sum_x_mul _ _ _ _ (on P) (on P)), Ex. ring.
  - apply (mul_cancel _ _ _ (minus_nz _ _ _ _ (on P) (on P))). rewrite (sum_y_mul _ _ _ _ (on P) (on P)), Ex, E. ring.
Qed.
End curve.
End Edwards.

(** ** Curve25519 *)

Module Curve25519.
Import WgCrypto WgAead WgX25519 Primes.
Local Open Scope Zmod_scope.

Lemma p25519_value : p25519 = (2 ^ 255 - 19)%Z.
Proof. with_strategy transparent [p25519] reflexivity. Qed.
Lemma p25519_prime : Z.prime p25519.
Proof. rewrite p25519_value. apply p_prime. Qed.
Lemma p25519_odd : (2 < p25519)%Z.
Proof. rewrite p25519_value. reflexivity. Qed.

Local Notation F := (Zmod p25519).
Add Field F25519 : (Zmod.field_theory p25519 p25519_prime).
Definition num (z : Z) : F := Zmod.of_Z p25519 z.
Lemma num_eq a b : (a mod (2 ^ 255 - 19) = b mod (2 ^ 255 - 19))%Z -> num a = num b.
Proof. intros H. apply Zmod.of_Z_inj. by rewrite p25519_value. Qed.
Lemma num_nz a : (a mod (2 ^ 255 - 19) <> 0)%Z -> num a <> 0.
Proof. intros H. apply Zmod.of_Z_nz. by rewrite p25519_value. Qed.
Lemma num_add a b : num (a + b) = num a + num b. Proof. apply Zmod.of_Z_add. Qed.
Lemma num_sub a b : num (a - b) = num a - num b. Proof. apply Zmod.of_Z_sub. Qed.
Lemma num_mul a b : num (a * b) = num a * num b. Proof. apply Zmod.of_Z_mul. Qed.
Lemma num_1 : num 1 = 1. Proof. apply Zmod.of_Z_1. Qed.
Lemma num_0 : num 0 = 0. Proof. apply Zmod.of_Z_0. Qed.

Definition a24 : F := num 121665.
Definition d : F := Zmod.mdiv a24 (a24 + 1).
Lemma a24_nz : a24 + 1 <> 0.
Proof. unfold a24. rewrite <- num_1, <- num_add. apply num_nz. apply Z.eqb_neq. vm_compute. reflexivity. Qed.
Lemma d_a24 : d * (a24 + 1) = a24.
Proof. unfold d. field. apply a24_nz. Qed.

(** Euler's criterion, by computing a power of 121665 * 121666. *)
Lemma d_nonsquare (r : F) : r * r <> d.
Proof.
  intros E. set (s := r * (a24 + 1)). assert (Es : s * s = num (121665 * 121666)).
  { unfold s. transitivity (r * r * (a24 + 1) * (a24 + 1)); [ring|]. rewrite E, d_a24. unfold a24. rewrite num_mul. by rewrite <- num_1, <- num_add. }
  assert (Ns : s <> 0). { intros H. rewrite H in Es. apply (num_nz (121665 * 121666)); [discriminate|]. rewrite <- Es. ring. }
  pose proof (Zmod.fermat_nz s Ns p25519_prime) as Fm. pose proof p25519_value as V.
  assert (Hp : exists e, (0 <= e)%Z /\ Z.pred p25519 = (2 * e)%Z /\ e = ((2 ^ 255 - 20) / 2)%Z).
  { exists ((2 ^ 255 - 20) / 2)%Z. rewrite V. split; [by apply Z.leb_le|by split]. }
  destruct Hp as (e & He & Hp & Ee). rewrite Hp, Zmod.pow_mul_r_nonneg in Fm by done.
  assert (E2 : Zmod.pow s 2 = num (121665 * 121666)) by (rewrite Zmod.pow_2_r; exact Es). rewrite E2 in Fm.
  apply (f_equal Zmod.unsigned) in Fm. unfold num in Fm. rewrite Zmod.to_Z_pow_nonneg_r, Zmod.unsigned_of_Z, Z.mod_pow_l, Zmod.unsigned_1_pos in Fm by (done || pose proof p25519_odd; lia).
  rewrite V, <- powmod_spec, Ee in Fm by done. revert Fm. apply Z.eqb_neq. vm_compute. reflexivity.
Qed.

(** The group, with its parameters. *)
Local Notation point := (Edwards.point p25519 d).
Local Notation py := (Edwards.py p25519 d).
Local Notation pzero := (Edwards.pzero p25519 p25519_prime d).
Local Notation smul := (Edwards.smul p25519 p25519_prime p25519_odd d d_nonsquare).
Local Notation padd := (Edwards.padd p25519 p25519_prime p25519_odd d d_nonsquare).
Local Notation rep := (Edwards.rep p25519 d).

(** The base point: the abscissa 9 of the card is the ordinate 4/5. *)
Definition base_x : Z := 9771384041963202563870679428059935816164187996444183106833894008023910952347.
Definition base_y : Z := 46316835694926478169428394003475163141307993866256225615783033603165251855960.
Lemma base_curve : Edwards.curve p25519 d (num base_x) (num base_y).
Proof.
  apply (Edwards.mul_cancel p25519 p25519_prime _ _ (a24 + 1) a24_nz). unfold Edwards.excess.
  transitivity ((num base_x * num base_x + num base_y * num base_y - 1) * (a24 + 1) - d * (a24 + 1) * (num base_x * num base_x) * (num base_y * num base_y)); [ring|]. rewrite d_a24.
  transitivity (0 : F); [|ring]. unfold a24. rewrite <- num_1. repeat rewrite <- num_mul, <- ?num_add, <- ?num_sub. rewrite <- num_0. apply num_eq. vm_compute. reflexivity.
Qed.
Definition base : point := Edwards.Pt p25519 d _ _ base_curve.
Lemma base_u : num 9 * (1 - py base) = 1 + py base.
Proof. cbn [Edwards.py base]. rewrite <- num_1, <- num_sub, <- num_mul, <- num_add. apply num_eq. reflexivity. Qed.
Lemma base_fin : 1 - py base <> 0.
Proof. cbn [Edwards.py base]. rewrite <- num_1, <- num_sub. apply num_nz. apply Z.eqb_neq. vm_compute. reflexivity. Qed.
Lemma base_nz : 1 + py base <> 0.
Proof. cbn [Edwards.py base]. rewrite <- num_1, <- num_add. apply num_nz. apply Z.eqb_neq. vm_compute. reflexivity. Qed.
Lemma base_not_zero : base <> pzero.
Proof. intros E. apply base_fin. rewrite E. cbn. ring. Qed.

(** Vanishing of a representation. *)
Lemma rep_zero q P : rep q P -> q.2 = 0 <-> P = pzero.
Proof.
  intros [Hs Hy]. split.
  - intros E. apply (Edwards.py_one _ p25519_prime p25519_odd d d_nonsquare). rewrite E in *. apply (Edwards.mul_cancel p25519 p25519_prime _ _ _ Hs). transitivity ((q.1 + 0) - py P * (q.1 + 0)); [ring|]. rewrite <- Hy. ring.
  - intros ->. cbn in Hy. apply (Edwards.mul_cancel p25519 p25519_prime _ _ (1 + 1)); [apply (Edwards.two_nz _ p25519_odd)|]. transitivity (1 * (q.1 + q.2) - (q.1 - q.2)); [ring|]. rewrite Hy. ring.
Qed.

(** ** The order of the base point *)

(** The ladder on integers, reduced by folding the bits from 255 up, which are worth 19. *)
Definition fold (x : Z) : Z := Z.land x (2 ^ 255 - 1) + 19 * Z.shiftr x 255.
Definition lazy_ladder : nat -> Z -> Z -> Z * Z -> Z * Z -> Z * Z := Ladder.ladder Z.add Z.sub (fun a b => fold (fold (a * b))) 121665.
Lemma num_fold a : num (fold a) = num a.
Proof.
  apply num_eq. unfold fold. change (2 ^ 255 - 1)%Z with (Z.ones 255). rewrite Z.land_ones, Z.shiftr_div_pow2 by done. rewrite (Z.div_mod a (2 ^ 255)) at 3 by done.
  rewrite <- (Z.mod_add _ (a / 2 ^ 255)) by done. f_equal. ring.
Qed.
Lemma num_lazy n k u q r : Ladder.both num (lazy_ladder n k u q r) = Ladder.ladder Zmod.add Zmod.sub Zmod.mul a24 n k (num u) (Ladder.both num q) (Ladder.both num r).
Proof. apply Ladder.both_ladder; [apply num_add|apply num_sub|]. intros a b. by rewrite !num_fold, num_mul. Qed.
Lemma ladder_point u (P : point) n k : num u * (1 - py P) = 1 + py P -> 1 - py P <> 0 -> 1 + py P <> 0 -> (0 <= k < 2 ^ Z.of_nat n)%Z ->
  rep (Ladder.ladder Zmod.add Zmod.sub Zmod.mul a24 n k (num u) (1, 0) (num u, 1)) (smul (Z.to_nat k) P).
Proof. intros. by apply (Edwards.ladder_smul p25519 p25519_prime p25519_odd d d_nonsquare a24 a24_nz d_a24). Qed.

Lemma base_order : smul (Z.to_nat order25519) base = pzero.
Proof.
  pose proof (ladder_point 9 base 253 order25519 base_u base_fin base_nz ltac:(split; [by apply Z.leb_le|by apply Z.ltb_lt])) as R.
  rewrite <- num_0, <- num_1 in R. change (num 1, num 0) with (Ladder.both num (1, 0)%Z) in R. change (num 9, num 1) with (Ladder.both num (9, 1)%Z) in R. rewrite <- num_lazy in R.
  apply (rep_zero _ _ R). unfold Ladder.both. cbn [fst snd]. rewrite <- num_0. apply num_eq. vm_compute. reflexivity.
Qed.
Lemma base_multiple n : (0 <= n)%Z -> smul (Z.to_nat n) base = pzero -> (order25519 | n)%Z.
Proof. apply (Edwards.smul_order _ _ _ _ _ _ _ order_prime base_order base_not_zero). Qed.

(** The scalars of X25519 are multiples of 8 between 2^254 and 2^255. *)
Lemma clamp_num_shape s : exists m, clamp_num s = (8 * m)%Z /\ (0 < m < 2 ^ 252)%Z.
Proof.
  set (c := clamp_num s). assert (Hbit : forall i, (0 <= i)%Z -> Z.testbit c i = Z.testbit (le_num s mod 2 ^ 255) i && Z.testbit (2 ^ 255 - 8) i || (254 =? i)%Z) by (intros i Hi; unfold c, clamp_num; by rewrite Z.lor_spec, Z.land_spec, Z.pow2_bits_eqb).
  assert (H8 : (c mod 2 ^ 3 = 0)%Z).
  { apply Z.bits_inj'. intros i Hi. rewrite Z.testbit_0_l. destruct (Z.lt_ge_cases i 3) as [H|H]; [|by apply Z.mod_pow2_bits_high]. rewrite Z.mod_pow2_bits_low, Hbit by done.
    assert (i = 0 \/ i = 1 \/ i = 2)%Z as [->|[->| ->]] by lia; by rewrite andb_false_r. }
  assert (Hc : (c mod 2 ^ 255 = c)%Z).
  { apply Z.bits_inj'. intros i Hi. destruct (Z.lt_ge_cases i 255) as [H|H]; [by apply Z.mod_pow2_bits_low|]. rewrite Z.mod_pow2_bits_high, Hbit, (Z.mod_pow2_bits_high (le_num s)) by lia. cbn [andb orb]. symmetry. apply Z.eqb_neq. lia. }
  assert (H0 : c <> 0%Z) by (intros E; pose proof (Hbit 254%Z ltac:(done)) as H; by rewrite E, Z.testbit_0_l, orb_true_r in H).
  pose proof (Z.mod_pos_bound c (2 ^ 255) ltac:(done)) as Hr. rewrite Hc in Hr. exists (c / 8)%Z. change (2 ^ 3)%Z with 8%Z in H8. change (2 ^ 255)%Z with (8 * 2 ^ 252)%Z in Hr. clearbody c. set (w := (2 ^ 252)%Z) in *. clearbody w. split; mlia.
Qed.
Lemma clamp_coprime s : ~ (order25519 | clamp_num s)%Z.
Proof.
  destruct (clamp_num_shape s) as (m & -> & Hm). intros H. apply Z.divide_prime_mul in H as [H|H]; [| |apply order_prime]; apply Z.divide_pos_le in H; [by apply Z.leb_le in H|done| |lia]. unfold order25519 in H. lia.
Qed.

(** ** X25519 computes multiples of points *)

Lemma montgomery_ladder n k u : forall q r, montgomery n k u q r = Ladder.ladder fadd fsub fmul 121665 n k u q r.
Proof. induction n as [|n IH]; intros q r; [done|]. cbn [montgomery Ladder.ladder]. destruct (Z.testbit k (Z.of_nat n)); apply IH. Qed.
Lemma num_montgomery n k u q r : Ladder.both num (montgomery n k u q r) = Ladder.ladder Zmod.add Zmod.sub Zmod.mul a24 n k (num u) (Ladder.both num q) (Ladder.both num r).
Proof.
  rewrite montgomery_ladder. apply Ladder.both_ladder; intros a b; unfold num, fadd, fsub, fmul; rewrite Zmod.of_Z_mod; [apply num_add|apply num_sub|apply num_mul].
Qed.

(** A point as the card writes it. *)
Definition abscissa (P : point) : Z := Zmod.unsigned (Zmod.mdiv (1 + py P) (1 - py P)).
Definition encode (P : point) : list Z := le_bytes 32 (abscissa P).
Lemma abscissa_range P : (0 <= abscissa P < p25519)%Z.
Proof. apply Zmod.unsigned_pos_bound. pose proof p25519_odd. lia. Qed.
Lemma encode_key P : bytes_ok (encode P) /\ length (encode P) = 32%nat.
Proof. split; [apply le_bytes_ok|apply le_bytes_length]. Qed.
Lemma encode_abscissa P : 1 - py P <> 0 -> num (u_num (encode P)) * (1 - py P) = 1 + py P.
Proof.
  intros H. pose proof (abscissa_range P) as Hr. assert (H255 : (p25519 < 2 ^ 255)%Z) by (rewrite p25519_value; by apply Z.ltb_lt).
  assert (E : u_num (encode P) = abscissa P).
  { unfold u_num, encode. rewrite le_bytes_num by (split; [lia|]; eapply Z.lt_le_trans; [apply Hr|apply p25519_bytes]). rewrite (Z.mod_small _ (2 ^ 255)), Z.mod_small; [done|done|]. split; [lia|]. etransitivity; [apply Hr|done]. }
  rewrite E. unfold num, abscissa. rewrite Zmod.of_Z_unsigned. field. done.
Qed.

Lemma rfc7748_point scalar u P (Q := smul (Z.to_nat (clamp_num scalar)) P) :
  num (u_num u) * (1 - py P) = 1 + py P -> 1 - py P <> 0 -> 1 + py P <> 0 -> Q <> pzero -> rfc7748 scalar u = Some (encode Q).
Proof.
  intros Hu H1 H2 HQ. destruct (clamp_num_shape scalar) as (m & Em & Hm).
  pose proof (ladder_point (u_num u) P 255 (clamp_num scalar) Hu H1 H2 ltac:(rewrite Em; change (2 ^ Z.of_nat 255)%Z with (8 * 2 ^ 252)%Z; set (w := (2 ^ 252)%Z) in *; clearbody w; lia)) as R. fold Q in R. clearbody Q.
  rewrite <- num_0, <- num_1 in R. change (num 1, num 0) with (Ladder.both num (1, 0)%Z) in R. change (num (u_num u), num 1) with (Ladder.both num (u_num u, 1)%Z) in R. rewrite <- num_montgomery in R.
  unfold rfc7748, x25519_point. destruct (montgomery 255 (clamp_num scalar) (u_num u) (1, 0)%Z (u_num u, 1)%Z) as [X Z].
  assert (NZ : num Z <> 0) by (intros E; apply HQ; by apply (rep_zero _ _ R)). destruct R as [Hs Hy]. cbn [Ladder.both fst snd] in Hs, Hy.
  assert (Hg : Z.gcd Z p25519 = 1%Z). { rewrite Z.gcd_comm. apply Z.coprime_prime_l; [apply p25519_prime|]. intros Hd. apply NZ. rewrite <- num_0. apply Zmod.of_Z_inj. by rewrite (Z.mod0_divide _ _ Hd). }
  rewrite Hg. cbn [Z.eqb Pos.eqb]. unfold encode. do 2 f_equal. pose proof p25519_odd.
  assert (Hi : num Z * num (Z.invmod Z p25519) = 1). { rewrite <- num_mul, <- num_1. apply Zmod.of_Z_inj. rewrite Z.mul_comm, Z.invmod_coprime, Z.mod_small by (done || lia). done. }
  assert (HyQ : 1 - py Q <> 0) by (intros E; apply HQ; by apply (Edwards.py_one _ p25519_prime p25519_odd d d_nonsquare)).
  unfold abscissa. rewrite <- (Zmod.unsigned_of_Z_small (m := p25519) (fmul X (Z.invmod Z p25519))) by apply felt_mod. f_equal. unfold fmul. rewrite Zmod.of_Z_mod. fold (num (X * Z.invmod Z p25519)). rewrite num_mul.
  apply (Edwards.mul_cancel p25519 p25519_prime _ _ _ HyQ). transitivity (num Z * num (Z.invmod Z p25519) * (1 + py Q)); [|rewrite Hi; field; done].
  assert (Hx : num X * (1 - py Q) = num Z * (1 + py Q)). { transitivity (num X - num Z + num Z - num X * py Q); [ring|]. rewrite Hy. ring. }
  transitivity (num X * (1 - py Q) * num (Z.invmod Z p25519)); [ring|]. rewrite Hx. ring.
Qed.

(** A multiple of the base point by scalars of X25519 has an abscissa, and is no point of order two. *)
Lemma base_scalar n (Q := smul (Z.to_nat n) base) : (0 <= n)%Z -> ~ (order25519 | n)%Z -> Q <> pzero /\ 1 - py Q <> 0 /\ 1 + py Q <> 0.
Proof.
  intros Hn Hd. assert (HQ : Q <> pzero) by (intros E; apply Hd; by apply base_multiple). split; [done|]. split.
  - intros E. apply HQ. by apply (Edwards.py_one _ p25519_prime p25519_odd d d_nonsquare).
  - intros E. apply (Edwards.py_minus_one _ p25519_prime p25519_odd d d_nonsquare) in E. unfold Q in E. rewrite <- Edwards.smul_add, <- Z2Nat.inj_add in E by done.
    apply base_multiple in E; [|lia]. replace (n + n)%Z with (2 * n)%Z in E by ring. apply Z.divide_prime_mul in E as [E|E]; [|done|apply order_prime]. apply Z.divide_pos_le in E; [by apply Z.leb_le in E|done].
Qed.
Lemma clamp_nonneg s : (0 <= clamp_num s)%Z.
Proof. destruct (clamp_num_shape s) as (m & -> & Hm). lia. Qed.

(** The public key of a secret, and what a secret makes of another's public key. *)
Lemma public_key a : rfc7748 a nine = Some (encode (smul (Z.to_nat (clamp_num a)) base)).
Proof.
  apply (rfc7748_point a nine base); [replace (u_num nine) with 9%Z by (unfold u_num; rewrite p25519_value; reflexivity); apply base_u|apply base_fin|apply base_nz|].
  apply base_scalar; [apply clamp_nonneg|apply clamp_coprime].
Qed.
Lemma shared_secret a b : rfc7748 a (encode (smul (Z.to_nat (clamp_num b)) base)) = Some (encode (smul (Z.to_nat (clamp_num a * clamp_num b)) base)).
Proof.
  pose proof (clamp_nonneg a) as Ha. pose proof (clamp_nonneg b) as Hb. destruct (base_scalar (clamp_num b) Hb (clamp_coprime b)) as (_ & H1 & H2). rewrite Z2Nat.inj_mul, Edwards.smul_mul by done.
  apply rfc7748_point; [by apply encode_abscissa|done|done|]. rewrite <- Edwards.smul_mul, <- Z2Nat.inj_mul by done.
  apply base_scalar; [lia|]. intros H. apply Z.divide_prime_mul in H as [H|H]; [by apply clamp_coprime in H..|apply order_prime].
Qed.

(** Two secrets agree. *)
Lemma rfc7748_agree a b A B : rfc7748 a nine = Some A -> rfc7748 b nine = Some B -> exists s, rfc7748 a B = Some s /\ rfc7748 b A = Some s.
Proof. rewrite !public_key. intros [= <-] [= <-]. eexists. rewrite !shared_secret, Z.mul_comm. done. Qed.
End Curve25519.
