(* ===== verification/Wg.v ===== *)
(** * The wg card: Noise_IK handshake and sealed frames

    src/.../metal/net/wg/__impl__.c: the symmetric state of the Noise protocol,
    the handshake the card runs between its two peers, and the link driver that
    seals a frame into the queue and opens it again.  The key agreement is an
    interface ([Dh], with its laws [DhLaws]) that the ladder of WgX25519
    implements and Curve25519 proves. *)
From S2P Require Import Prelude WgCrypto WgAead WgBlake WgX25519 Curve25519.

Module Wg.
Import WgCrypto WgAead WgBlake WgX25519.

Definition WG_KEY := 32.
Definition WG_TAG := 16.
Definition WG_NONCE := 8.
Definition WG_QMAX := 4096.

(** The key agreement: [None] is a non-zero return. *)
Class Dh := { x25519 : list Z -> list Z -> option (list Z) }.
#[export] Instance x25519_dh (M : mpi_ops) : Dh := {| x25519 := pm_metal_wg_x25519 M |}.

(** [mac_eq] over the [n] first bytes. *)
Definition mac_eq (a b : list Z) (n : nat) : bool :=
  foldl (fun d i => u8 (Z.lor d (Z.lxor (at_ a i) (at_ b i)))) 0 (seq 0 n) =? 0.

(** ** The Noise symmetric state *)

Record noise_st := Noise { ck : list Z; h : list Z; k : list Z; n : Z }.

Definition noise_mixhash (s : noise_st) (data : list Z) : noise_st :=
  let data := if (64 <? length data)%nat then take 64 data else data in
  Noise (ck s) (pm_metal_wg_blake2s (h s ++ data)) (k s) (n s).

Definition noise_mixkey (s : noise_st) (ikm : list Z) : noise_st :=
  let '(c, key) := pm_metal_wg_hkdf2 (ck s) (Some ikm) in Noise c (h s) key 0.

(** The output buffer holds the ciphertext and the tag. *)
Definition noise_encrypt_hash (s : noise_st) (pt : option (list Z)) : option (noise_st * list Z) :=
  match pm_metal_wg_aead_encrypt (k s) (n s) (h s) pt (zlen (default [] pt)) true with
  | None => None
  | Some (ct, tag) =>
      let s := Noise (ck s) (h s) (k s) (u64 (n s + 1)) in
      Some (noise_mixhash s (ct ++ tag), ct ++ tag)
  end.

(** [msg] is the ciphertext of [pt_len] bytes and its tag; [pt_buf] tells
    whether the output pointer is not NULL. *)
Definition noise_decrypt_hash (s : noise_st) (msg : list Z) (pt_len : nat) (pt_buf : bool) : option (noise_st * list Z) :=
  match pm_metal_wg_aead_decrypt (k s) (n s) (h s) (take pt_len msg) (take 16 (drop pt_len msg)) pt_buf with
  | None => None
  | Some pt =>
      let s := Noise (ck s) (h s) (k s) (u64 (n s + 1)) in
      Some (noise_mixhash s (take (pt_len + 16) msg), pt)
  end.

(** "Noise_IK_25519_ChaChaPoly_BLAKE2s". *)
Definition noise_name : list Z :=
  [78; 111; 105; 115; 101; 95; 73; 75; 95; 50; 53; 53; 49; 57; 95; 67; 104; 97; 67; 104; 97; 80; 111; 108; 121; 95; 66; 76; 65; 75; 69; 50; 115].
Definition noise_init : noise_st :=
  let h := pm_metal_wg_blake2s noise_name in Noise h h (repeat 0 32) 0.

(** The tag is cut at its NUL and at eight bytes. *)
Definition eph_from (priv tag : list Z) : list Z := pm_metal_wg_blake2s (take 32 priv ++ take 8 (cstr tag)).

Definition put_be64 (v : Z) : list Z := (fun i => u8 (Z.shiftr v (56 - 8 * i))) <$> [0; 1; 2; 3; 4; 5; 6; 7].

(** ** The card's state *)

Record wg_peer := Peer { used : bool; local : list Z; remote : list Z }.
Definition no_peer : wg_peer := Peer false (repeat 0 32) (repeat 0 32).

Record wg := Wg { s_arena : bool; s_peer0 : wg_peer; s_peer1 : wg_peer; s_sess : list Z; s_ready : bool; s_nonce : Z; s_q : list Z; s_qlen : Z }.

Definition s_mac : list Z := [2; 0; 0; 0; 0; 5].

Definition wg_open (s : wg) : wg * Z :=
  if negb (s_ready s) then (s, -1) else
  (Wg (s_arena s) (s_peer0 s) (s_peer1 s) (s_sess s) (s_ready s) 0 (s_q s) 0, 0).

Definition set_q (s : wg) (nonce : Z) (q : list Z) (qlen : Z) : wg :=
  Wg (s_arena s) (s_peer0 s) (s_peer1 s) (s_sess s) (s_ready s) nonce q qlen.

(** [frame] is [None] for a NULL pointer.  The outer option is undefined
    behaviour (a write past [s_q]); no call has it, see the theorems. *)
Definition wg_tx (s : wg) (frame : option (list Z)) : option (wg * Z) :=
  match frame with
  | None => Some (s, -1)
  | Some f =>
      let len := zlen f in
      if negb (s_ready s) || (len =? 0) then Some (s, -1) else
      if WG_QMAX <? len + WG_NONCE + WG_TAG then Some (s, -1) else
      match pm_metal_wg_aead_encrypt (s_sess s) (s_nonce s) [] (Some f) len true with
      | None => Some (s, -1)
      | Some (ct, tag) =>
          q ← blit (s_q s) WG_NONCE ct; q ← blit q 0 (put_be64 (s_nonce s)); q ← blit q (WG_NONCE + len) tag;
          Some (set_q s (u64 (s_nonce s + 1)) q (u16 (WG_NONCE + len + WG_TAG)), 0)
      end
  end.

(** What [wg_poll] ends with: 0, or the result of handing a frame to
    [pm_metal_net_ip_rx]. *)
Inductive polled := Idle | Rx (body : list Z).

Definition wg_poll (s : wg) : option (wg * polled) :=
  if s_qlen s <=? WG_NONCE + WG_TAG then Some (s, Idle) else
  let n := u16 (s_qlen s - WG_NONCE - WG_TAG) in
  hdr ← slice (s_q s) 0 8;
  let nonce := foldl (fun v b => u64 (Z.lor (Z.shiftl v 8) b)) 0 hdr in
  tag ← slice (s_q s) (WG_NONCE + n) WG_TAG;
  ct ← slice (s_q s) WG_NONCE n;
  let s := set_q s (s_nonce s) (s_q s) 0 in
  match pm_metal_wg_aead_decrypt (s_sess s) nonce [] ct tag true with
  | None => Some (s, Idle)
  | Some body => Some (s, Rx body)
  end.

Definition pm_metal_net_wg_init (arena : bool) (s : wg) : wg * Z :=
  if negb arena then (s, -1) else (Wg true no_peer no_peer (repeat 0 32) false 0 (s_q s) 0, 0).
Definition pm_metal_net_wg_deinit (s : wg) : wg := Wg false no_peer no_peer (s_sess s) false (s_nonce s) (s_q s) 0.

Definition pm_metal_net_wg_peer (s : wg) (id : Z) (loc rem : option (list Z)) : wg * Z :=
  match s_arena s, loc, rem with
  | true, Some l, Some r =>
      if (id <? 0) || (1 <? id) then (s, -1) else
      let p := Peer true (take 32 l) (take 32 r) in
      (Wg (s_arena s) (if id =? 0 then p else s_peer0 s) (if id =? 1 then p else s_peer1 s) (s_sess s) false (s_nonce s) (s_q s) (s_qlen s), 0)
  | _, _, _ => (s, -1)
  end.

(** ** The handshake

    The initiator is peer 0, the responder peer 1; both run here. *)

Section handshake.
Context `{Dh} (junk : list Z).

(** [_base] ignores the status of the ladder: a failed call leaves the bytes
    the output buffer had. *)
Definition pm_metal_wg_x25519_base (scalar : list Z) : list Z := default junk (x25519 scalar nine).

Definition eph0 : list Z := [101; 112; 104; 48; 0].
Definition eph1 : list Z := [101; 112; 104; 49; 0].

(** The session key of a completed handshake; [None] is a return of -1. *)
Definition handshake_key (s : wg) : option (list Z) :=
  if negb (used (s_peer0 s)) || negb (used (s_peer1 s)) then None else
  let pub0 := pm_metal_wg_x25519_base (local (s_peer0 s)) in
  let pub1 := pm_metal_wg_x25519_base (local (s_peer1 s)) in
  let want1 := pm_metal_wg_x25519_base (remote (s_peer0 s)) in
  let want0 := pm_metal_wg_x25519_base (remote (s_peer1 s)) in
  if negb (mac_eq want1 pub1 32) || negb (mac_eq want0 pub0 32) then None else
  let e0 := eph_from (local (s_peer0 s)) eph0 in
  let e1 := eph_from (local (s_peer1 s)) eph1 in
  let e0pub := pm_metal_wg_x25519_base e0 in
  let e1pub := pm_metal_wg_x25519_base e1 in
  let ini := noise_init in
  let ini := noise_mixhash ini pub1 in
  let ini := noise_mixhash ini e0pub in
  dh ← x25519 e0 pub1;
  let ini := noise_mixkey ini dh in
  '(ini, msg_s) ← noise_encrypt_hash ini (Some pub0);
  dh ← x25519 (local (s_peer0 s)) pub1;
  let ini := noise_mixkey ini dh in
  '(ini, msg_p) ← noise_encrypt_hash ini None;
  let rsp := noise_init in
  let rsp := noise_mixhash rsp pub1 in
  let rsp := noise_mixhash rsp e0pub in
  dh ← x25519 (local (s_peer1 s)) e0pub;
  let rsp := noise_mixkey rsp dh in
  '(rsp, got) ← noise_decrypt_hash rsp msg_s 32 true;
  if negb (mac_eq got pub0 32) then None else
  dh ← x25519 (local (s_peer1 s)) pub0;
  let rsp := noise_mixkey rsp dh in
  '(rsp, _) ← noise_decrypt_hash rsp msg_p 0 false;
  let rsp := noise_mixhash rsp e1pub in
  dh ← x25519 e1 e0pub;
  let rsp := noise_mixkey rsp dh in
  dh ← x25519 e1 pub0;
  let rsp := noise_mixkey rsp dh in
  '(rsp, msg_r) ← noise_encrypt_hash rsp None;
  let ini := noise_mixhash ini e1pub in
  dh ← x25519 e0 e1pub;
  let ini := noise_mixkey ini dh in
  dh ← x25519 (local (s_peer0 s)) e1pub;
  let ini := noise_mixkey ini dh in
  '(ini, _) ← noise_decrypt_hash ini msg_r 0 false;
  if negb (mac_eq (ck ini) (ck rsp) 32) then None else
  Some (pm_metal_wg_hkdf2 (ck ini) None).1.

Definition pm_metal_net_wg_handshake (s : wg) : wg * Z :=
  match handshake_key s with
  | None => (s, -1)
  | Some sess => (Wg (s_arena s) (s_peer0 s) (s_peer1 s) sess true (s_nonce s) (s_q s) (s_qlen s), 0)
  end.
End handshake.

(** Whether the call reaches [pm_metal_net_l2_attach]. *)
Definition pm_metal_net_wg_up (s : wg) : bool := s_arena s && s_ready s.

(** ** Lemmas *)

Lemma mac_eq_spec a b m : bytes_ok a -> bytes_ok b -> length a = m -> length b = m -> mac_eq a b m = bool_decide (a = b).
Proof.
  intros Ha Hb La Lb. unfold mac_eq. set (d := foldl _ 0 (seq 0 m)). assert (Hd : d = 0 <-> a = b).
  { unfold d. rewrite tag_diff_loop; [|intros i [_ Hi]%elem_of_seq; split; apply at_byte; (done || lia)|done].
    split; [|intros ->; done]. intros [_ Hi]. apply (list_eq_same_length a b m); [lia..|]. intros i x y Hl Hx Hy.
    specialize (Hi i ltac:(apply elem_of_seq; lia)). unfold at_ in Hi. rewrite (nth_lookup_Some _ _ _ _ Hx), (nth_lookup_Some _ _ _ _ Hy) in Hi. done. }
  destruct (Z.eqb_spec d 0); [rewrite bool_decide_true by tauto|rewrite bool_decide_false by tauto]; done.
Qed.

(** A message encrypted by one side is decrypted by the other, and both end
    with the same state. *)
Lemma noise_seal s pt buf : bytes_ok (default [] pt) -> default [] pt = [] \/ buf = true ->
  exists s' msg, noise_encrypt_hash s pt = Some (s', msg) /\ ck s' = ck s
    /\ noise_decrypt_hash s msg (length (default [] pt)) buf = Some (s', default [] pt).
Proof.
  intros Hb Hbuf. destruct (aead_seal (k s) (n s) (h s) pt buf Hb Hbuf) as (ct & tag & E & Hl & Ht & _ & _ & Hd).
  unfold noise_encrypt_hash, noise_decrypt_hash. rewrite E. eexists _, _. split; [reflexivity|]. split; [done|].
  rewrite <- Hl, take_app_length, drop_app_length, (take_ge tag) by lia. rewrite Hd.
  rewrite (take_ge (ct ++ tag)) by (rewrite length_app; lia). done.
Qed.

Lemma hkdf2_bytes c ikm : bytes_ok (pm_metal_wg_hkdf2 c ikm).1 /\ length (pm_metal_wg_hkdf2 c ikm).1 = 32%nat.
Proof. split; [apply blake2s_bytes|apply blake2s_length]. Qed.

(** ** The key agreement as a contract *)

Definition key_ok (x : list Z) : Prop := bytes_ok x /\ length x = 32%nat.

(** Diffie-Hellman: every secret has a public key, and two parties compute the
    same secret from each other's public key. *)
Class DhLaws (D : Dh) : Prop := {
  dh_public a : key_ok a -> exists A, x25519 a nine = Some A /\ key_ok A;
  dh_agree a b A B : key_ok a -> key_ok b -> x25519 a nine = Some A -> x25519 b nine = Some B ->
    exists d, x25519 a B = Some d /\ x25519 b A = Some d;
}.

(** Binds are discharged by rewriting: unification would run the ciphers. *)

Section handshake_spec.
Context {D : Dh} {DL : DhLaws D} (junk : list Z).
Local Notation base := (pm_metal_wg_x25519_base junk).

Lemma base_key a : key_ok a -> x25519 a nine = Some (base a) /\ key_ok (base a).
Proof. intros Ha. destruct (dh_public a Ha) as (A & E & HA). unfold pm_metal_wg_x25519_base. by rewrite E. Qed.
Lemma base_agree a b : key_ok a -> key_ok b -> exists d, x25519 a (base b) = Some d /\ x25519 b (base a) = Some d.
Proof. intros Ha Hb. apply dh_agree; [done|done|by apply base_key..]. Qed.

(** The chaining key after a list of shared secrets, from the protocol name. *)
Definition chain (dhs : list (list Z)) : list Z := foldl (fun c d => (pm_metal_wg_hkdf2 c (Some d)).1) (pm_metal_wg_blake2s noise_name) dhs.

Lemma eph_key l tag : key_ok (eph_from l tag).
Proof. split; [apply blake2s_bytes|apply blake2s_length]. Qed.

Lemma ck_mixkey s d : ck (noise_mixkey s d) = (pm_metal_wg_hkdf2 (ck s) (Some d)).1.
Proof. reflexivity. Qed.
Lemma ck_mixhash s d : ck (noise_mixhash s d) = ck s.
Proof. reflexivity. Qed.
Lemma ck_init : ck noise_init = pm_metal_wg_blake2s noise_name.
Proof. unfold noise_init. generalize (pm_metal_wg_blake2s noise_name). reflexivity. Qed.
#[local] Opaque noise_mixhash noise_mixkey noise_init pm_metal_wg_hkdf2 pm_metal_wg_blake2s noise_encrypt_hash noise_decrypt_hash mac_eq.

(** The handshake over a key agreement that keeps its laws. *)
Lemma handshake_run s : used (s_peer0 s) = true -> used (s_peer1 s) = true ->
  key_ok (local (s_peer0 s)) -> key_ok (local (s_peer1 s)) -> key_ok (remote (s_peer0 s)) -> key_ok (remote (s_peer1 s)) ->
  if bool_decide (base (remote (s_peer0 s)) = base (local (s_peer1 s)) /\ base (remote (s_peer1 s)) = base (local (s_peer0 s)))
  then exists es ss ee se,
    let l0 := local (s_peer0 s) in let l1 := local (s_peer1 s) in let e0 := eph_from l0 eph0 in let e1 := eph_from l1 eph1 in
    (x25519 e0 (base l1) = Some es /\ x25519 l1 (base e0) = Some es) /\ (x25519 l0 (base l1) = Some ss /\ x25519 l1 (base l0) = Some ss)
    /\ (x25519 e0 (base e1) = Some ee /\ x25519 e1 (base e0) = Some ee) /\ (x25519 l0 (base e1) = Some se /\ x25519 e1 (base l0) = Some se)
    /\ pm_metal_net_wg_handshake junk s = (Wg (s_arena s) (s_peer0 s) (s_peer1 s)
         (pm_metal_wg_hkdf2 (chain [es; ss; ee; se]) None).1 true (s_nonce s) (s_q s) (s_qlen s), 0)
  else pm_metal_net_wg_handshake junk s = (s, -1).
Proof.
  intros U0 U1 L0 L1 R0 R1. unfold pm_metal_net_wg_handshake, handshake_key. rewrite U0, U1. cbn [negb orb].
  destruct (base_key _ L0) as [_ [K0 N0]]. destruct (base_key _ L1) as [_ [K1 N1]].
  destruct (base_key _ R0) as [_ [K2 N2]]. destruct (base_key _ R1) as [_ [K3 N3]].
  rewrite (mac_eq_spec _ _ 32 K2 K1 N2 N1), (mac_eq_spec _ _ 32 K3 K0 N3 N0).
  destruct (decide (base (remote (s_peer0 s)) = base (local (s_peer1 s)))) as [E1|E1];
    [rewrite (bool_decide_true _ E1)|rewrite (bool_decide_false _ E1), bool_decide_false by tauto; done].
  destruct (decide (base (remote (s_peer1 s)) = base (local (s_peer0 s)))) as [E0|E0];
    [rewrite (bool_decide_true _ E0)|rewrite (bool_decide_false _ E0), bool_decide_false by tauto; done].
  rewrite bool_decide_true by done. cbn [negb orb].
  set (l0 := local (s_peer0 s)) in *. set (l1 := local (s_peer1 s)) in *.
  set (e0 := eph_from l0 eph0). set (e1 := eph_from l1 eph1).
  pose proof (eph_key l0 eph0) as Ke0. fold e0 in Ke0. pose proof (eph_key l1 eph1) as Ke1. fold e1 in Ke1.
  destruct (base_agree e0 l1 Ke0 L1) as (es & Ees & Ees'). destruct (base_agree l0 l1 L0 L1) as (ss & Ess & Ess').
  destruct (base_agree e0 e1 Ke0 Ke1) as (ee & Eee & Eee'). destruct (base_agree l0 e1 L0 Ke1) as (se & Ese & Ese').
  exists es, ss, ee, se. cbv zeta. do 4 (split; [by split|]).
  rewrite Ees. rewrite !some_bind.
  remember (noise_mixkey (noise_mixhash (noise_mixhash noise_init (base l1)) (base e0)) es) as s1 eqn:Hs1.
  destruct (noise_seal s1 (Some (base l0)) true K0 ltac:(by right)) as (s2 & msg_s & Ens & C2 & Dns).
  change (default [] (Some (base l0))) with (base l0) in Dns. rewrite N0 in Dns. rewrite Ens. rewrite !some_bind.
  rewrite Ess. rewrite !some_bind. remember (noise_mixkey s2 ss) as s3 eqn:Hs3.
  destruct (noise_seal s3 None false (List.Forall_nil _) ltac:(by left)) as (s4 & msg_p & Enp & C4 & Dnp).
  rewrite Enp. rewrite !some_bind. rewrite Ees'. rewrite !some_bind. rewrite <- Hs1, Dns. rewrite !some_bind.
  rewrite (mac_eq_spec _ _ 32 K0 K0 N0 N0), bool_decide_true by done. cbn [negb]. rewrite Ess'. rewrite !some_bind. rewrite <- Hs3.
  cbn [default length] in Dnp. rewrite Dnp. rewrite !some_bind. rewrite Eee', Ese'. rewrite !some_bind.
  remember (noise_mixkey (noise_mixkey (noise_mixhash s4 (base e1)) ee) se) as s5 eqn:Hs5.
  destruct (noise_seal s5 None false (List.Forall_nil _) ltac:(by left)) as (s6 & msg_r & Enr & C6 & Dnr).
  rewrite Enr. rewrite !some_bind. rewrite Eee, Ese. rewrite !some_bind. rewrite <- ?Hs5. cbn [default length] in Dnr. rewrite Dnr. rewrite !some_bind.
  assert (EC : ck s6 = chain [es; ss; ee; se]).
  { rewrite C6. rewrite Hs5, !ck_mixkey, ck_mixhash, C4, Hs3, ck_mixkey, C2, Hs1, ck_mixkey, !ck_mixhash, ck_init. unfold chain. cbn [foldl]. reflexivity. }
  assert (KC : key_ok (ck s6)).
  { rewrite EC. unfold chain. cbn [foldl]. apply hkdf2_bytes. }
  destruct KC as [KC1 KC2]. rewrite (mac_eq_spec _ _ 32 KC1 KC1 KC2 KC2), bool_decide_true by done. cbn [negb]. by rewrite EC.
Qed.
End handshake_spec.

(** ** The handshake over X25519 *)

Lemma nine_ok : key_ok nine.
Proof. split; [apply (bool_decide_unpack _); vm_compute; exact I|reflexivity]. Qed.
(** The card's X25519 is a key agreement, whatever bignum library is under it. *)
#[export] Instance x25519_laws (M : mpi_ops) (mv : mpi M -> Z) `{!MpiLaws M mv} : DhLaws (x25519_dh M).
Proof.
  assert (Hspec : forall a u, key_ok a -> key_ok u -> @x25519 (x25519_dh M) a u = rfc7748 a u) by (intros a u [Ha La] [Hu Lu]; exact (x25519_spec M mv a u Ha La Hu Lu)).
  split.
  - intros a Ha. rewrite (Hspec a nine Ha nine_ok), Curve25519.public_key. eexists. split; [reflexivity|]. apply Curve25519.encode_key.
  - intros a b A B Ha Hb. rewrite (Hspec a nine Ha nine_ok), (Hspec b nine Hb nine_ok). intros EA EB. pose proof EA as KA. pose proof EB as KB. rewrite Curve25519.public_key in KA, KB.
    assert (HA : key_ok A) by (injection KA as <-; apply Curve25519.encode_key). assert (HB : key_ok B) by (injection KB as <-; apply Curve25519.encode_key).
    rewrite (Hspec a B Ha HB), (Hspec b A Hb HA). exact (Curve25519.rfc7748_agree a b A B EA EB).
Qed.

(** C39: the handshake of two configured peers over the card's own X25519, on any
    bignum library that computes what its manual says.  When each peer's
    recorded remote secret has the public key of the other's local secret, the
    four key exchanges es, ss, ee and se succeed with the same secret on both
    sides, each side decrypts the other's messages, and the session key is
    derived from exactly these four; with any other remote keys it returns -1
    and leaves the session alone.  That the two sides of an exchange agree and
    that every secret has a public key is not assumed of X25519: it is
    [x25519_laws], from the group of Curve25519. *)
Theorem handshake_establishes (M : mpi_ops) (mv : mpi M -> Z) `{!MpiLaws M mv} (junk : list Z) (s : wg) :
  let base := pm_metal_wg_x25519_base (H := x25519_dh M) junk in let dh := pm_metal_wg_x25519 M in
  used (s_peer0 s) = true -> used (s_peer1 s) = true ->
  key_ok (local (s_peer0 s)) -> key_ok (local (s_peer1 s)) -> key_ok (remote (s_peer0 s)) -> key_ok (remote (s_peer1 s)) ->
  if bool_decide (base (remote (s_peer0 s)) = base (local (s_peer1 s)) /\ base (remote (s_peer1 s)) = base (local (s_peer0 s)))
  then exists es ss ee se,
    let l0 := local (s_peer0 s) in let l1 := local (s_peer1 s) in let e0 := eph_from l0 eph0 in let e1 := eph_from l1 eph1 in
    (dh e0 (base l1) = Some es /\ dh l1 (base e0) = Some es) /\ (dh l0 (base l1) = Some ss /\ dh l1 (base l0) = Some ss)
    /\ (dh e0 (base e1) = Some ee /\ dh e1 (base e0) = Some ee) /\ (dh l0 (base e1) = Some se /\ dh e1 (base l0) = Some se)
    /\ pm_metal_net_wg_handshake (H := x25519_dh M) junk s = (Wg (s_arena s) (s_peer0 s) (s_peer1 s)
         (pm_metal_wg_hkdf2 (chain [es; ss; ee; se]) None).1 true (s_nonce s) (s_q s) (s_qlen s), 0)
  else pm_metal_net_wg_handshake (H := x25519_dh M) junk s = (s, -1).
Proof. exact (handshake_run (D := x25519_dh M) junk s). Qed.

Definition demo_peers : wg := Wg true (Peer true (seq_bytes 32) (repeat 5 32)) (Peer true (repeat 5 32) (seq_bytes 32)) (repeat 0 32) false 0 (repeat 0 4096) 0.

Example handshake_establishes_witness :
  let base := pm_metal_wg_x25519_base (H := x25519_dh z_mpi) [] in let dh := pm_metal_wg_x25519 z_mpi in
  let l0 := seq_bytes 32 in let l1 := repeat 5 32 in let e0 := eph_from l0 eph0 in let e1 := eph_from l1 eph1 in
  exists es ss ee se,
    (dh e0 (base l1) = Some es /\ dh l1 (base e0) = Some es) /\ (dh l0 (base l1) = Some ss /\ dh l1 (base l0) = Some ss)
    /\ (dh e0 (base e1) = Some ee /\ dh e1 (base e0) = Some ee) /\ (dh l0 (base e1) = Some se /\ dh e1 (base l0) = Some se)
    /\ pm_metal_net_wg_handshake (H := x25519_dh z_mpi) [] demo_peers
       = (Wg true (Peer true l0 l1) (Peer true l1 l0) (pm_metal_wg_hkdf2 (chain [es; ss; ee; se]) None).1 true 0 (repeat 0 4096) 0, 0).
Proof.
  pose proof (handshake_establishes z_mpi (fun z => z) [] demo_peers eq_refl eq_refl) as E. cbv zeta in E.
  rewrite bool_decide_true in E by (split; reflexivity).
  apply E; (split; [apply (bool_decide_unpack _); vm_compute; exact I|reflexivity]).
Defined.

(** ** The sealed link *)

Lemma xor_bytes_comm a b : xor_bytes a b = xor_bytes b a.
Proof.
  unfold xor_bytes. revert b. induction a as [|x a IH]; intros [|y b]; cbn [zip_with]; try done. by rewrite Z.lxor_comm, IH.
Qed.
Lemma xor_bytes_assoc a b c : bytes_ok a -> bytes_ok b -> bytes_ok c -> xor_bytes a (xor_bytes b c) = xor_bytes (xor_bytes a b) c.
Proof.
  unfold xor_bytes. intros Ha. revert b c. induction Ha as [|x a Hx Ha IH]; intros [|y b] [|z c] Hb Hc; cbn [zip_with]; try done.
  apply Forall_cons in Hb as [Hy Hb]. apply Forall_cons in Hc as [Hz Hc]. rewrite IH by done. f_equal.
  rewrite !(u8_small (Z.lxor _ _)) by (repeat apply lxor_byte; done || (rewrite u8_small by (by apply lxor_byte); by apply lxor_byte)).
  by rewrite Z.lxor_assoc.
Qed.
Lemma be_step a x : 0 <= a -> a * 256 < 18446744073709551616 -> 0 <= x < 256 -> u64 (Z.lor (Z.shiftl a 8) x) = a * 256 + x.
Proof. intros Ha Ha2 Hx. rewrite Z.lor_comm, lor_disjoint_add by lia. change (2 ^ 8) with 256. rewrite u64_small; [lia|mlia]. Qed.

Lemma put_be64_nonce v : 0 <= v < 18446744073709551616 -> foldl (fun v b => u64 (Z.lor (Z.shiftl v 8) b)) 0 (put_be64 v) = v.
Proof.
  intros Hv. unfold put_be64. cbn [fmap list_fmap foldl]. rewrite !Z.shiftr_div_pow2 by lia.
  change (56 - 8 * 0) with 56. change (56 - 8 * 1) with 48. change (56 - 8 * 2) with 40. change (56 - 8 * 3) with 32.
  change (56 - 8 * 4) with 24. change (56 - 8 * 5) with 16. change (56 - 8 * 6) with 8. change (56 - 8 * 7) with 0.
  change (2 ^ 0) with 1. rewrite Z.div_1_r. change (2 ^ 8) with 256.
  change (2 ^ 16) with (256 * 256). change (2 ^ 24) with (256 * 256 * 256). change (2 ^ 32) with (256 * 256 * 256 * 256).
  change (2 ^ 40) with (256 * 256 * 256 * 256 * 256). change (2 ^ 48) with (256 * 256 * 256 * 256 * 256 * 256).
  change (2 ^ 56) with (256 * 256 * 256 * 256 * 256 * 256 * 256). rewrite <- !Z.div_div by lia.
  set (v1 := v / 256). set (v2 := v1 / 256). set (v3 := v2 / 256). set (v4 := v3 / 256). set (v5 := v4 / 256). set (v6 := v5 / 256). set (v7 := v6 / 256).
  assert (H7 : 0 <= v7 < 256) by (unfold v7, v6, v5, v4, v3, v2, v1; mlia).
  assert (E : forall x, 0 <= x -> x / 256 * 256 + u8 x = x) by (intros x Hx; ulia).
  assert (N1 : 0 <= v1) by (apply Z.div_pos; lia). assert (N2 : 0 <= v2) by (apply Z.div_pos; lia). assert (N3 : 0 <= v3) by (apply Z.div_pos; lia).
  assert (N4 : 0 <= v4) by (apply Z.div_pos; lia). assert (N5 : 0 <= v5) by (apply Z.div_pos; lia). assert (N6 : 0 <= v6) by (apply Z.div_pos; lia).
  pose proof (u8_range v1). pose proof (u8_range v2). pose proof (u8_range v3). pose proof (u8_range v4). pose proof (u8_range v5).
  pose proof (u8_range v6). pose proof (u8_range v).
  pose proof (E v ltac:(lia)) as E0. pose proof (E v1 N1) as E1. pose proof (E v2 N2) as E2. pose proof (E v3 N3) as E3. pose proof (E v4 N4) as E4.
  pose proof (E v5 N5) as E5. pose proof (E v6 N6) as E6. fold v1 in E0. fold v2 in E1. fold v3 in E2. fold v4 in E3. fold v5 in E4. fold v6 in E5. fold v7 in E6.
  rewrite (u8_small v7) by lia. rewrite (be_step 0 v7) by lia. change (0 * 256 + v7) with v7.
  rewrite (be_step v7) by lia. rewrite E6. rewrite (be_step v6) by lia. rewrite E5. rewrite (be_step v5) by lia. rewrite E4.
  rewrite (be_step v4) by lia. rewrite E3. rewrite (be_step v3) by lia. rewrite E2. rewrite (be_step v2) by lia. rewrite E1.
  rewrite (be_step v1) by lia. exact E0.
Qed.

(** The queue after a transmission: nonce, ciphertext, tag. *)
Lemma wg_tx_queue s f : s_ready s = true -> zlen (s_q s) = WG_QMAX -> bytes_ok f -> 0 < zlen f -> zlen f <= 4072 ->
  exists ct tag rest, pm_metal_wg_aead_encrypt (s_sess s) (s_nonce s) [] (Some f) (zlen f) true = Some (ct, tag)
    /\ length ct = length f /\ length tag = 16%nat
    /\ wg_tx s (Some f) = Some (set_q s (u64 (s_nonce s + 1)) (put_be64 (s_nonce s) ++ ct ++ tag ++ rest) (24 + zlen f), 0).
Proof.
  intros Hr Hq Hb H0 H1. destruct (aead_seal (s_sess s) (s_nonce s) [] (Some f) true Hb ltac:(by right)) as (ct & tag & E & Hl & Ht & _).
  change (default [] (Some f)) with f in *. unfold WG_QMAX in Hq.
  destruct (split_at (s_q s) 8) as (a & c & Eq & La); [lia|]. rewrite Eq, length_app in Hq.
  destruct (split_at c (zlen ct)) as (b & c' & -> & Lb); [lia|]. rewrite length_app in Hq.
  destruct (split_at c' 16) as (d & rest & -> & Ld); [lia|].
  exists ct, tag, rest. split; [done|]. split; [done|]. split; [done|]. unfold wg_tx, WG_QMAX, WG_NONCE, WG_TAG. rewrite Hr.
  rewrite (proj2 (Z.eqb_neq _ _)), (proj2 (Z.ltb_ge _ _)) by lia. cbn [negb orb]. rewrite E, Eq.
  assert (B1 : blit (a ++ b ++ d ++ rest) 8 ct = Some (a ++ ct ++ d ++ rest)) by (rewrite <- La; apply blit_mid; lia).
  assert (B2 : blit (a ++ ct ++ d ++ rest) 0 (put_be64 (s_nonce s)) = Some (put_be64 (s_nonce s) ++ ct ++ d ++ rest)).
  { apply (blit_mid [] a). change (length (put_be64 (s_nonce s))) with 8%nat. lia. }
  assert (B3 : blit (put_be64 (s_nonce s) ++ ct ++ d ++ rest) (8 + zlen f) tag = Some (put_be64 (s_nonce s) ++ ct ++ tag ++ rest)).
  { rewrite !(assoc_L (++) (put_be64 (s_nonce s)) ct). replace (8 + zlen f) with (zlen (put_be64 (s_nonce s) ++ ct)) by (rewrite length_app; change (length (put_be64 (s_nonce s))) with 8%nat; lia).
    apply blit_mid. lia. }
  rewrite B1, some_bind, B2, some_bind, B3, some_bind. do 3 f_equal. rewrite u16_small; lia.
Qed.

(** C38: a frame of 1 to 4072 bytes sent over a ready session is delivered: the
    next poll hands exactly these bytes to the IP stack, empties the queue and
    leaves the session otherwise alone; the nonce has moved on by one. *)
Theorem wg_tx_poll_delivers s f : s_ready s = true -> zlen (s_q s) = WG_QMAX -> 0 <= s_nonce s < 2 ^ 64 ->
  bytes_ok f -> 0 < zlen f -> zlen f <= 4072 ->
  exists q, wg_tx s (Some f) = Some (set_q s (u64 (s_nonce s + 1)) q (24 + zlen f), 0)
    /\ wg_poll (set_q s (u64 (s_nonce s + 1)) q (24 + zlen f)) = Some (set_q s (u64 (s_nonce s + 1)) q 0, Rx f).
Proof.
  intros Hr Hq Hn Hb H0 H1. destruct (wg_tx_queue s f Hr Hq Hb H0 H1) as (ct & tag & rest & E & Hl & Ht & Etx).
  destruct (aead_seal (s_sess s) (s_nonce s) [] (Some f) true Hb ltac:(by right)) as (ct' & tag' & E' & _ & _ & _ & _ & Hd).
  change (default [] (Some f)) with f in *. rewrite E in E'. injection E' as <- <-.
  eexists. split; [exact Etx|]. unfold wg_poll, WG_NONCE, WG_TAG, set_q. cbn [s_qlen s_q s_sess s_nonce s_arena s_peer0 s_peer1 s_ready].
  rewrite (proj2 (Z.leb_gt _ _)) by lia. replace (24 + zlen f - 8 - 16) with (zlen f) by lia. rewrite (u16_small (zlen f)) by lia.
  set (nb := put_be64 (s_nonce s)). assert (Lnb : length nb = 8%nat) by reflexivity.
  assert (S1 : slice (nb ++ ct ++ tag ++ rest) 0 8 = Some nb) by (apply (slice_mid [] nb); lia).
  assert (S2 : slice (nb ++ ct ++ tag ++ rest) (8 + zlen f) 16 = Some tag).
  { rewrite !(assoc_L (++) nb ct). replace (8 + zlen f) with (zlen (nb ++ ct)) by (rewrite length_app; lia). apply slice_mid. lia. }
  assert (S3 : slice (nb ++ ct ++ tag ++ rest) 8 (zlen f) = Some ct) by (replace 8 with (zlen nb) by lia; apply slice_mid; lia).
  rewrite S1, some_bind, S2, some_bind, S3, some_bind. unfold nb. rewrite put_be64_nonce by exact Hn. by rewrite Hd.
Qed.

Definition demo_session : wg := Wg true no_peer no_peer (seq_bytes 32) true 7 (repeat 0 4096) 0.
Example wg_tx_poll_delivers_witness : exists q s', wg_tx demo_session (Some (seq_bytes 60)) = Some (s', 0)
  /\ wg_poll s' = Some (set_q demo_session 8 q 0, Rx (seq_bytes 60)).
Proof.
  destruct (wg_tx_poll_delivers demo_session (seq_bytes 60)) as (q & E1 & E2);
    [reflexivity|reflexivity|cbn; lia|apply (bool_decide_unpack _); vm_compute; exact I|vm_compute; reflexivity|vm_compute; discriminate|].
  exists q. eexists. split; [exact E1|]. exact E2.
Defined.

(** ** Reopening *)

Lemma xor_bytes_stream a b p : bytes_ok a -> bytes_ok b -> bytes_ok p -> length a = length b -> (length a <= length p)%nat ->
  xor_bytes (xor_bytes a p) (xor_bytes b p) = xor_bytes a b.
Proof.
  intros Ha Hb Hp Hl Hlp. rewrite (xor_bytes_comm b p), xor_bytes_assoc by (try apply xor_bytes_ok; done). by rewrite xor_bytes_cancel.
Qed.

Lemma xor_bytes_app a b c d : length a = length c -> xor_bytes (a ++ b) (c ++ d) = xor_bytes a c ++ xor_bytes b d.
Proof. unfold xor_bytes. apply zip_with_app. Qed.

(** Two messages under one key and nonce: the keystream cancels. *)
Lemma xor_loop_stream fu key n12 : forall c a b, (length a <= fu)%nat -> length a = length b -> bytes_ok a -> bytes_ok b ->
  xor_bytes (xor_loop fu key n12 c a) (xor_loop fu key n12 c b) = xor_bytes a b.
Proof.
  induction fu as [|fu IH]; intros c a b Hf Hl Ha Hb; [by destruct a, b; simpl in *; try lia|].
  destruct a as [|x a'], b as [|y b']; simpl in Hl; try lia; [done|]. cbn [xor_loop]. set (a := x :: a') in *. set (b := y :: b') in *.
  assert (Hab : length a = length b) by (unfold a, b; simpl; lia). assert (Hp : (0 < length a)%nat) by (unfold a; simpl; lia).
  rewrite xor_bytes_app.
  - rewrite xor_bytes_stream, IH; [|rewrite length_drop; lia|rewrite !length_drop; lia|by apply Forall_drop..|by apply Forall_take|by apply Forall_take|apply chacha20_block_bytes|rewrite !length_take; lia|rewrite chacha20_block_length, length_take; lia].
    rewrite <- xor_bytes_app by (rewrite !length_take; lia). by rewrite !take_drop.
  - rewrite !xor_bytes_length by (rewrite chacha20_block_length, length_take; lia). rewrite !length_take. lia.
Qed.

(** The ciphertext a transmission leaves in the queue. *)
Lemma wg_tx_ciphertext s f s' : s_ready s = true -> zlen (s_q s) = WG_QMAX -> bytes_ok f -> 0 < zlen f -> zlen f <= 4072 ->
  wg_tx s (Some f) = Some (s', 0) ->
  slice (s_q s') WG_NONCE (zlen f) = Some (chacha20_xor (s_sess s) (noise_nonce (s_nonce s)) 1 f)
  /\ s_ready s' = true /\ s_sess s' = s_sess s /\ zlen (s_q s') = WG_QMAX.
Proof.
  intros Hr Hq Hb H0 H1 Htx. destruct (wg_tx_queue s f Hr Hq Hb H0 H1) as (ct & tag & rest & E & Hl & Ht & Etx).
  assert (Hlen : zlen (s_q s') = WG_QMAX).
  { revert Htx. unfold wg_tx. rewrite Hr, (proj2 (Z.eqb_neq _ _)) by lia. cbn [negb orb].
    destruct (_ <? _) eqn:Hb2; [intros [=]|]. rewrite E. destruct (blit (s_q s) WG_NONCE ct) as [q1|] eqn:B1; [rewrite some_bind|done].
    destruct (blit q1 0 _) as [q2|] eqn:B2; [rewrite some_bind|done]. destruct (blit q2 _ tag) as [q3|] eqn:B3; [rewrite some_bind|done].
    intros [= <-]. cbn [s_q set_q]. apply blit_length in B1, B2, B3. congruence. }
  rewrite Etx in Htx. injection Htx as <-. split; [|split; [exact Hr|split; [reflexivity|exact Hlen]]].
  unfold pm_metal_wg_aead_encrypt in E. rewrite (proj2 (Z.eqb_neq _ _)) in E by lia. cbn [negb andb orb] in E.
  rewrite (bool_decide_false (Some f = None)) in E by done. pose proof (f_equal (fun o => match o with Some p => p.1 | None => [] end) E) as Ec. cbn beta iota delta [fst] in Ec. rewrite <- Ec in Hl |- *. cbn [s_q set_q].
  change WG_NONCE with (zlen (put_be64 (s_nonce s))). apply (slice_mid (put_be64 (s_nonce s))). change (default [] (Some f)) with f. by rewrite chacha20_xor_length.
Qed.

Lemma wg_open_ready s s' : wg_open s = (s', 0) ->
  s_ready s = true /\ s_ready s' = true /\ s_nonce s' = 0 /\ s_sess s' = s_sess s /\ s_q s' = s_q s.
Proof. unfold wg_open. destruct (s_ready s) eqn:E; cbn [negb]; intros [= <-]; done. Qed.

(** [wg_open] resets the nonce but not the session key, so the first frame
    after each of two opens is sealed under the same key and nonce: the exclusive
    or of the two ciphertexts is that of the two plaintexts. *)
Theorem wg_reopen_reuses_keystream s f g s1 s2 s3 s4 ct1 ct2 :
  zlen (s_q s) = WG_QMAX -> bytes_ok f -> bytes_ok g -> length f = length g -> 0 < zlen f <= 4072 ->
  wg_open s = (s1, 0) -> wg_tx s1 (Some f) = Some (s2, 0) -> wg_open s2 = (s3, 0) -> wg_tx s3 (Some g) = Some (s4, 0) ->
  slice (s_q s2) WG_NONCE (zlen f) = Some ct1 -> slice (s_q s4) WG_NONCE (zlen g) = Some ct2 ->
  xor_bytes ct1 ct2 = xor_bytes f g.
Proof.
  intros Hq Hf Hg Hl H0 O1 T1 O2 T2 C1 C2. apply wg_open_ready in O1 as (_ & R1 & N1 & K1 & Q1).
  destruct (wg_tx_ciphertext s1 f s2 R1 ltac:(congruence) Hf ltac:(lia) ltac:(lia) T1) as (S1 & _ & K2 & L2).
  apply wg_open_ready in O2 as (_ & R3 & N3 & K3 & Q3).
  destruct (wg_tx_ciphertext s3 g s4 R3 ltac:(congruence) Hg ltac:(lia) ltac:(lia) T2) as (S2 & _ & _ & _).
  rewrite S1 in C1. rewrite S2 in C2. injection C1 as <-. injection C2 as <-. rewrite N1, N3, K3, K2.
  unfold chacha20_xor. rewrite <- Hl. apply xor_loop_stream; [lia|done..].
Qed.

Example wg_reopen_reuses_keystream_witness : exists ct1 ct2, ct1 <> ct2
  /\ xor_bytes ct1 ct2 = xor_bytes (repeat 1 20) (repeat 2 20).
Proof.
  set (f := repeat 1 20). set (g := repeat 2 20). set (s1 := (wg_open demo_session).1).
  assert (Hf : bytes_ok f) by (apply (bool_decide_unpack _); vm_compute; exact I).
  assert (Hg : bytes_ok g) by (apply (bool_decide_unpack _); vm_compute; exact I).
  destruct (wg_tx_queue s1 f) as (ct & tag & rest & _ & _ & _ & T1); [done..|].
  destruct (wg_tx_ciphertext s1 f _ eq_refl eq_refl Hf eq_refl ltac:(done) T1) as (C1 & _ & _ & L1).
  set (s2 := set_q s1 _ _ _) in T1, C1, L1. set (s3 := (wg_open s2).1).
  destruct (wg_tx_queue s3 g) as (ct' & tag' & rest' & _ & _ & _ & T2); [done..|].
  destruct (wg_tx_ciphertext s3 g _ eq_refl L1 Hg eq_refl ltac:(done) T2) as (C2 & _).
  eexists _, _. match goal with |- ?c1 <> ?c2 /\ _ => assert (E : xor_bytes c1 c2 = xor_bytes f g) end.
  { refine (wg_reopen_reuses_keystream demo_session f g s1 s2 s3 _ _ _ eq_refl Hf Hg eq_refl _ eq_refl T1 eq_refl T2 C1 C2). split; [reflexivity|discriminate]. }
  split; [|exact E]. intros Heq. rewrite Heq in E. revert E. generalize (chacha20_xor (s_sess s3) (noise_nonce (s_nonce s3)) 1 g). clear.
  intros ct2 Hx. destruct ct2 as [|x l]; [vm_compute in Hx; discriminate|]. cbn in Hx. rewrite Z.lxor_nilpotent in Hx. discriminate.
Defined.
End Wg.
