(* ===== verification/Udp.v ===== *)
(** * The UDP sockets of the IP stack, as its clients see them

    The interface between the datagram services (dns, tftp) and
    src/.../metal/net/ip: one operation per call the services make, over a
    state of the stack that they never look into.  [LoopNet] is a small
    implementation in which every socket is on one machine. *)
From S2P Require Import Prelude.

(** A received datagram: its bytes, the sender's address and port. *)
Record dgram := Dgram { d_bytes : list Z; d_addr : Z; d_port : Z }.

(** [ip_recvfrom net fd cap] is the status and the datagram; a status of 0 is
    "nothing yet", a negative one an error. *)
Class UdpOps (N : Type) := {
  ip_socket : N -> N * Z;
  ip_bind : N -> Z -> Z -> Z -> N * Z;
  ip_close : N -> Z -> N;
  ip_sendto : N -> Z -> list Z -> Z -> Z -> N * Z;
  ip_recvfrom : N -> Z -> Z -> N * Z * dgram;
  ip_pump : N -> N;
  mono_us : N -> N * Z;
}.

(** What a receiver may rely on: the status never exceeds the buffer, and a
    positive status is the number of bytes delivered. *)
Class UdpLaws (N : Type) `{!UdpOps N} : Prop := {
  recvfrom_fits net fd cap net' n d : ip_recvfrom net fd cap = (net', n, d) -> 0 < n -> n <= cap /\ zlen (d_bytes d) = n /\ bytes_ok (d_bytes d);
}.

Module LoopNet.

(** Bound sockets (descriptor and port) and the datagrams in flight (target
    port, sender's port, bytes). *)
Record net := Net { next_fd : Z; socks : list (Z * Z); flight : list (Z * Z * list Z); clock : Z }.

Definition port_of (n : net) (fd : Z) : Z := default 0 (snd <$> list_find (fun p => p.1 = fd) (socks n) ≫= fun p => Some p.2).

Fixpoint take_first (port : Z) (fl : list (Z * Z * list Z)) : option (Z * list Z * list (Z * Z * list Z)) :=
  match fl with
  | [] => None
  | (dst, src, b) :: t => if dst =? port then Some (src, b, t)
                          else match take_first port t with Some (s, b', t') => Some (s, b', (dst, src, b) :: t') | None => None end
  end.

#[export] Instance loop_udp : UdpOps net := {|
  ip_socket n := (Net (next_fd n + 1) (socks n) (flight n) (clock n), next_fd n);
  ip_bind n fd _ port := (Net (next_fd n) ((fd, port) :: socks n) (flight n) (clock n), 0);
  ip_close n fd := Net (next_fd n) (filter (fun p => p.1 <> fd) (socks n)) (flight n) (clock n);
  ip_sendto n fd b _ port := (Net (next_fd n) (socks n) (flight n ++ [(port, port_of n fd, b)]) (clock n), zlen b);
  ip_recvfrom n fd cap := match take_first (port_of n fd) (flight n) with
    | Some (src, b, fl) => if zlen b <=? cap then (Net (next_fd n) (socks n) fl (clock n), zlen b, Dgram (u8 <$> b) 2130706433 src)
                           else (Net (next_fd n) (socks n) fl (clock n), -1, Dgram [] 0 0)
    | None => (n, 0, Dgram [] 0 0) end;
  ip_pump n := n;
  mono_us n := (Net (next_fd n) (socks n) (flight n) (clock n + 1), clock n) |}.

#[export] Instance loop_laws : UdpLaws net.
Proof.
  split. intros n fd cap n' k d. cbn. destruct (take_first (port_of n fd) (flight n)) as [[[src b] fl]|]; [|intros [= _ <- _]; lia].
  destruct (Z.leb_spec (zlen b) cap); intros [= <- <- <-]; [|lia]. intros _. cbn [d_bytes]. rewrite length_fmap. split; [done|]. split; [done|].
  apply Forall_fmap, Forall_forall. intros x _. apply u8_range.
Qed.
End LoopNet.
