(* ===== verification/Dns.v ===== *)
(** * The dns card: names on the wire, the zone, and the lookup

    src/.../metal/net/dns/__impl__.c.  A C string is the list of its bytes
    before the NUL.  A value of type [option (option A)] separates undefined
    behaviour ([None]: an access outside a buffer) from the C return value -1
    ([Some None]).  The sockets are the interface of Udp. *)
From S2P Require Import Prelude Udp.

Module Dns.

Definition ZONE_DEFAULT := 8.
Definition NAME_MAX := 80.
Definition DNS_MAX := 512.
Definition DNS_PORT := 53.
Definition DNS_WAIT_US := 2000000.
Definition DNS_SPINS := 200000.

(** ** Names *)

Definition lower (c : Z) : Z := if (65 <=? c) && (c <=? 90) then c + 32 else c.

(** The [for] loop with [k] characters left to [NAME_MAX]. *)
Fixpoint name_eq_loop (k : nat) (a b : list Z) : bool :=
  match k, a, b with
  | S k', x :: a', y :: b' => (lower x =? lower y) && name_eq_loop k' a' b'
  | _, _, _ => bool_decide (a = []) && bool_decide (b = [])
  end.
Definition name_eq (a b : list Z) : bool := name_eq_loop (Z.to_nat NAME_MAX) a b.

(** The label before the first dot. *)
Fixpoint label (name : list Z) : list Z :=
  match name with
  | [] => []
  | c :: t => if c =? 46 then [] else c :: label t
  end.

(** [enc_name] from [n] bytes on: the bytes it appends, or [None] for -1.  The
    loop eats at least one character per turn, so [length name] turns are enough. *)
Fixpoint enc_loop (fuel : nat) (n cap : Z) (name : list Z) : option (list Z) :=
  match name, fuel with
  | [], _ => if cap <? n + 1 then None else Some [0]
  | _, O => None
  | _, S f =>
      let l := label name in let lab := zlen l in
      if (lab =? 0) || (63 <? lab) || (cap <? n + 1 + lab + 1) then None else
      let dot := drop (length l) name in
      let name' := match dot with c :: t => t | [] => [] end in
      r ← enc_loop f (n + 1 + lab) cap name';
      Some (u8 lab :: l ++ r)
  end.
Definition enc_name (cap : Z) (name : list Z) : option (list Z) := enc_loop (length name) 0 cap name.

(** [dec_name]: the offset [o], the jumps taken, where the caller goes on
    ([endo], fixed by the first pointer), and the bytes put in [out] so far. *)
Fixpoint dec_loop (fuel : nat) (msg : list Z) (len ocap o jumps endo : Z) (saw_ptr : bool) (out : list Z) : option (option (list Z * Z)) :=
  match fuel with
  | O => None
  | S f =>
      if negb (o <? len) then Some None else
      lab ← rd msg o;
      if Z.land lab 192 =? 192 then
        if (len <=? o + 1) || (8 <? jumps) then Some None else
        lo ← rd msg (o + 1);
        dec_loop f msg len ocap (Z.lor (Z.shiftl (Z.land lab 63) 8) lo) (jumps + 1) (if saw_ptr then endo else o + 2) true out
      else
        let o := o + 1 in
        if lab =? 0 then
          if zlen out <? ocap then Some (Some (out, if saw_ptr then endo else o)) else None
        else
          if (len <? o + lab) || (ocap <=? zlen out + lab + 1) then Some None else
          let out := if zlen out =? 0 then out else out ++ [46] in
          b ← slice msg o lab;
          if ocap <? zlen (out ++ b) then None else
          dec_loop f msg len ocap (o + lab) jumps endo saw_ptr (out ++ b)
  end.
(** Ten runs between jumps, each at most [len] turns. *)
Definition dec_fuel (len : Z) : nat := Z.to_nat (11 * (len + 2)).
Definition dec_name (msg : list Z) (len off ocap : Z) : option (option (list Z * Z)) :=
  dec_loop (dec_fuel len) msg len ocap off 0 off false [].

(** ** The zone *)

Record zone := Zone { used : bool; name : list Z; addr_be : Z }.
Definition no_zone : zone := Zone false [] 0.

Record dns := St { s_arena : bool; s_zone : option (list zone); s_zone_cap : Z; s_zone_used : Z; s_fd : Z; s_xid : Z; s_cport : Z; s_server_be : Z }.

(** [zone_find] from slot [i] on, the number of slots when nothing matches. *)
Fixpoint find_from (i : Z) (zs : list zone) (nm : list Z) : Z :=
  match zs with
  | [] => i
  | z :: t => if used z && name_eq (name z) nm then i else find_from (i + 1) t nm
  end.
Definition zone_find (s : dns) (nm : list Z) : option Z :=
  match s_zone s with
  | Some zs => Some (find_from 0 zs nm)
  | None => if s_zone_cap s =? 0 then Some 0 else None
  end.

(** The copy of a name into a slot: cut at [NAME_MAX - 1] bytes. *)
Definition copy_name (nm : list Z) : list Z := take (Z.to_nat (NAME_MAX - 1)) nm.

Fixpoint first_free (i : nat) (zs : list zone) : option nat :=
  match zs with
  | [] => None
  | z :: t => if used z then first_free (S i) t else Some i
  end.

(** [grow] is [pm_util_limits_grow] on the zone: a longer table that keeps the
    old entries, or [None]. *)
Definition pm_metal_net_dns_add (grow : option (list zone) -> option (list zone)) (s : dns) (nm : option (list Z)) (addr : Z) : dns * Z :=
  match nm with
  | None | Some [] => (s, -1)
  | Some n =>
      let z := Zone true (copy_name n) addr in
      let put zs i := St (s_arena s) (Some (<[i := z]> zs)) (zlen zs) (u32 (s_zone_used s + 1)) (s_fd s) (s_xid s) (s_cport s) (s_server_be s) in
      match s_zone s ≫= first_free 0 with
      | Some i => (put (default [] (s_zone s)) i, 0)
      | None => match grow (s_zone s) with
                | None => (s, -1)
                | Some zs => (put zs (length zs - 1)%nat, 0)
                end
      end
  end.

(** ** The resolver's answer *)

(** [dns_reply]: the datagram it sends, [Some None] when it stays silent. *)
Definition dns_reply (s : dns) (q : list Z) (qlen : Z) : option (option (list Z)) :=
  if (qlen <? 12) || (s_fd s <? 0) then Some None else
  d ← dec_name q qlen 12 NAME_MAX;
  match d with
  | None => Some None
  | Some (nm, _) =>
      zi ← zone_find s (cstr nm);
      if s_zone_cap s <=? zi then Some None else
      if DNS_MAX - 16 <? qlen then Some None else
      z ← rd (default [] (s_zone s)) zi;
      body ← slice q 0 qlen;
      b2 ← rd body 2;
      body ← wr body 2 (u8 (Z.lor b2 128)); body ← wr body 3 0; body ← wr body 6 0; body ← wr body 7 1;
      let a := addr_be z in
      Some (Some (body ++ [192; 12; 0; 1; 0; 1; 0; 0; 0; 8; 0; 4; u8 (Z.shiftr a 24); u8 (Z.shiftr a 16); u8 (Z.shiftr a 8); u8 a]))
  end.

(** ** The client's datagrams *)

(** The query [q] of a lookup, [None] when the name cannot be encoded. *)
Definition mk_query (xid : Z) (nm : list Z) : option (list Z) :=
  e ← enc_name (DNS_MAX - 16) nm;
  Some ([u8 (Z.shiftr xid 8); u8 xid; 1; 0; 0; 1; 0; 0; 0; 0; 0; 0] ++ e ++ [0; 1; 0; 1]).

(** What a lookup does with the [n] bytes of [buf] it received: the address,
    or [Some None] for -1. *)
Definition parse_answer (xid : Z) (buf : list Z) (n : Z) : option (option Z) :=
  if n <? 12 then Some None else
  b0 ← rd buf 0; b1 ← rd buf 1; b2 ← rd buf 2; b7 ← rd buf 7;
  if negb (u16 (Z.lor (Z.shiftl b0 8) b1) =? xid) || (Z.land b2 128 =? 0) || (b7 =? 0) then Some None else
  d ← dec_name buf n 12 NAME_MAX;
  match d with
  | None => Some None
  | Some (_, off) =>
      let off := off + 4 in
      isptr ← (if off + 2 <? n then b ← rd buf off; Some (b =? 192) else Some false);
      d ← (if isptr : bool then Some (Some (off + 2))
           else d ← dec_name buf n off NAME_MAX; Some (match d with Some p => Some p.2 | None => None end));
      match d with
      | None => Some None
      | Some off =>
          if n <? off + 14 then Some None else
          let off := off + 10 in
          a0 ← rd buf off; a1 ← rd buf (off + 1); a2 ← rd buf (off + 2); a3 ← rd buf (off + 3);
          Some (Some (Z.lor (Z.lor (Z.lor (Z.shiftl a0 24) (Z.shiftl a1 16)) (Z.shiftl a2 8)) a3))
      end
  end.

(** A query port per lookup. *)
Definition cli_port (s : dns) : dns * Z :=
  let c := u16 (s_cport s + 1) in
  let c := if (c <? 49500) || (49999 <? c) then 49500 else c in
  (St (s_arena s) (s_zone s) (s_zone_cap s) (s_zone_used s) (s_fd s) (s_xid s) c (s_server_be s), c).

Definition set_fd (s : dns) (fd : Z) : dns :=
  St (s_arena s) (s_zone s) (s_zone_cap s) (s_zone_used s) fd (s_xid s) (s_cport s) (s_server_be s).
Definition set_xid (s : dns) (x : Z) : dns :=
  St (s_arena s) (s_zone s) (s_zone_cap s) (s_zone_used s) (s_fd s) x (s_cport s) (s_server_be s).

Section net.
Context {N : Type} `{UdpOps N}.

(** [alloc] tells whether the arena had room for the zone. *)
Definition pm_metal_net_dns_init (arena alloc : bool) (s : dns) : dns * Z :=
  if negb arena then (s, -1) else
  if negb alloc then (St true None ZONE_DEFAULT 0 (s_fd s) (s_xid s) (s_cport s) (s_server_be s), -1) else
  (St true (Some (repeat no_zone (Z.to_nat ZONE_DEFAULT))) ZONE_DEFAULT 0 (-1) (s_xid s) 49500 0, 0).

Definition pm_metal_net_dns_deinit (s : dns) (net : N) : dns * N :=
  (St false None 0 0 (if 0 <=? s_fd s then -1 else s_fd s) (s_xid s) (s_cport s) 0, if 0 <=? s_fd s then ip_close net (s_fd s) else net).

Definition pm_metal_net_dns_server_set (s : dns) (a : Z) : dns :=
  St (s_arena s) (s_zone s) (s_zone_cap s) (s_zone_used s) (s_fd s) (s_xid s) (s_cport s) a.
Definition pm_metal_net_dns_server (s : dns) : Z := s_server_be s.

Definition pm_metal_net_dns_listen (s : dns) (net : N) (addr port : Z) : dns * N * Z :=
  if negb (s_arena s) then (s, net, -1) else
  if 0 <=? s_fd s then (s, net, 0) else
  let '(net, fd) := ip_socket net in
  if fd <? 0 then (set_fd s fd, net, -1) else
  let '(net, r) := ip_bind net fd addr port in
  if negb (r =? 0) then (set_fd s (-1), ip_close net fd, -1) else (set_fd s fd, net, 0).

Definition pm_metal_net_dns_poll (s : dns) (net : N) : option N :=
  if s_fd s <? 0 then Some net else
  let '(net, n, d) := ip_recvfrom net (s_fd s) DNS_MAX in
  if n <=? 0 then Some net else
  r ← dns_reply s (d_bytes d) n;
  match r with
  | None => Some net
  | Some out => Some (ip_sendto net (s_fd s) out (d_addr d) (d_port d)).1
  end.

(** [await_answer] from the [spins]-th turn, begun at [t0]: the status and the
    datagram. *)
Fixpoint await_loop (fuel : nat) (s : dns) (net : N) (fd cap t0 spins : Z) : option (N * Z * dgram) :=
  match fuel with
  | O => None
  | S f =>
      let '(net, n, d) := ip_recvfrom net fd cap in
      if negb (n =? 0) then Some (net, n, d) else
      let net := ip_pump net in
      net ← (if 0 <=? s_fd s then pm_metal_net_dns_poll s net else Some net);
      let '(net, now) := mono_us net in
      if (DNS_WAIT_US <? u64 (now - t0)) || (DNS_SPINS <? spins + 1) then Some (net, -1, d)
      else await_loop f s net fd cap t0 (spins + 1)
  end.
Definition await_answer (s : dns) (net : N) (fd cap : Z) : option (N * Z * dgram) :=
  let '(net, t0) := mono_us net in await_loop (Z.to_nat (DNS_SPINS + 1)) s net fd cap t0 0.

(** [Some (s, net, None)] is a return of -1. *)
Definition pm_metal_net_dns_lookup (s : dns) (net : N) (nm : option (list Z)) (server port : Z) : option (dns * N * option Z) :=
  match nm with
  | Some n =>
      if negb (s_arena s) then Some (s, net, None) else
      let '(net, fd) := ip_socket net in
      if fd <? 0 then Some (s, net, None) else
      let '(s, cport) := cli_port s in
      let '(net, r) := ip_bind net fd 0 cport in
      if negb (r =? 0) then Some (s, ip_close net fd, None) else
      let xid := s_xid s in
      let s := set_xid s (u16 (xid + 1)) in
      match mk_query xid n with
      | None => Some (s, ip_close net fd, None)
      | Some q =>
          let '(net, r) := ip_sendto net fd q server port in
          if r <? 0 then Some (s, ip_close net fd, None) else
          '(net, n, d) ← await_answer s net fd DNS_MAX;
          let net := ip_close net fd in
          a ← parse_answer xid (d_bytes d) n;
          Some (s, net, a)
      end
  | None => Some (s, net, None)
  end.

(** ** Literals and the whole resolution *)

(** [literal]: the loop at position [i] with the octets [q]; one character per
    turn. *)
Fixpoint lit_loop (name : list Z) (q : list Z) (i : Z) (seen : bool) : option Z :=
  match name with
  | [] => if seen && (i =? 3)
          then Some (Z.lor (Z.lor (Z.lor (u32 (Z.shiftl (nth 0 q 0) 24)) (Z.shiftl (nth 1 q 0) 16)) (Z.shiftl (nth 2 q 0) 8)) (nth 3 q 0))
          else None
  | c :: t =>
      if (48 <=? c) && (c <=? 57) then
        let v := u32 (u32 (nth (Z.to_nat i) q 0 * 10) + (c - 48)) in
        if 255 <? v then None else lit_loop t (<[Z.to_nat i := v]> q) i true
      else if (c =? 46) && seen && (i <? 3) then lit_loop t q (i + 1) false
      else None
  end.
Definition literal (nm : list Z) : option Z := lit_loop nm [0; 0; 0; 0] 0 false.

Definition pm_metal_net_dns_resolve (s : dns) (net : N) (nm : option (list Z)) : option (dns * N * option Z) :=
  match nm with
  | None => Some (s, net, None)
  | Some n =>
      match literal n with
      | Some a => Some (s, net, Some a)
      | None =>
          zi ← zone_find s n;
          if zi <? s_zone_cap s then z ← rd (default [] (s_zone s)) zi; Some (s, net, Some (addr_be z))
          else if s_server_be s =? 0 then Some (s, net, None)
          else pm_metal_net_dns_lookup s net (Some n) (s_server_be s) DNS_PORT
      end
  end.
End net.
End Dns.
