(* ===== verification/DnsSpec.v ===== *)
(** * What the dns card promises

    Decoding terminates inside its buffers on every message, so no datagram
    can harm the resolver or a lookup; and a query built by the client,
    answered by the resolver and read back by the client yields the zone's
    address. *)
From S2P Require Import Prelude Udp Dns.

Module DnsSpec.
Import Dns.

(** ** Decoding is safe *)

(** Turns left: runs between jumps times their length, and this run. *)
Definition dec_measure (len o jumps : Z) : Z := (9 - jumps) * (len + 2) + (len + 1 - Z.min o len).

Lemma dec_loop_total fuel msg len ocap : bytes_ok msg -> 0 <= len <= zlen msg -> forall o jumps endo saw out,
  0 <= o -> 0 <= jumps <= 9 -> zlen out < ocap -> endo <= len \/ saw = false -> dec_measure len o jumps <= Z.of_nat fuel ->
  exists r, dec_loop fuel msg len ocap o jumps endo saw out = Some r
    /\ match r with Some (nm, e) => zlen nm < ocap /\ e <= len /\ (0 <= endo -> 0 <= e) | None => True end.
Proof.
  intros Hm Hlen. induction fuel as [|f IH]; intros o jumps endo saw out Ho Hj Hout He Hf.
  { unfold dec_measure in Hf. nia. }
  cbn [dec_loop]. destruct (Z.ltb_spec o len); cbn [negb]; [|by exists None].
  destruct (rd_is_Some msg o) as [lab Elab]; [lia|]. rewrite Elab. cbn [mbind option_bind].
  pose proof (rd_byte _ _ _ Hm Elab) as Hlab. destruct (Z.eqb_spec (Z.land lab 192) 192).
  - destruct (Z.leb_spec len (o + 1)); [by exists None|]. destruct (Z.ltb_spec 8 jumps); cbn [orb]; [by exists None|].
    destruct (rd_is_Some msg (o + 1)) as [lo Elo]; [lia|]. rewrite Elo. cbn [mbind option_bind]. pose proof (rd_byte _ _ _ Hm Elo) as Hlo.
    set (tgt := Z.lor (Z.shiftl (Z.land lab 63) 8) lo).
    assert (Ht : 0 <= tgt). { apply Z.lor_nonneg. split; [|lia]. apply Z.shiftl_nonneg, Z.land_nonneg. by left; lia. }
    destruct (IH tgt (jumps + 1) (if saw then endo else o + 2) true out) as (r & Er & Hr); [done|lia|done|destruct saw; left; lia || (destruct He; [done|done])| |].
    { unfold dec_measure in *. nia. }
    exists r. split; [done|]. destruct r as [[nm e1]|]; [|done]. destruct Hr as (Q1 & Q2 & Q3). split; [done|]. split; [done|].
    intros. apply Q3. destruct saw; lia.
  - destruct (Z.eqb_spec lab 0) as [->|Hl0].
    + rewrite (proj2 (Z.ltb_lt _ _)) by done. eexists. split; [done|]. cbn. split; [done|]. destruct saw; [|split; lia]. destruct He; [|done]. by split.
    + destruct (Z.ltb_spec len (o + 1 + lab)); cbn [orb]; [by exists None|]. destruct (Z.leb_spec ocap (zlen out + lab + 1)); [by exists None|].
      rewrite slice_is_Some by lia. cbn [mbind option_bind].
      set (out' := if zlen out =? 0 then out else out ++ [46]). set (b := take (Z.to_nat lab) (drop (Z.to_nat (o + 1)) msg)).
      assert (Hb : zlen b = lab) by (unfold b; rewrite length_take, length_drop; lia).
      assert (Ho' : zlen out' <= zlen out + 1) by (unfold out'; destruct (_ =? _); rewrite ?length_app; cbn [length]; lia).
      rewrite length_app. rewrite (proj2 (Z.ltb_ge _ _)) by lia.
      apply IH; [lia|done|rewrite length_app; lia|done|]. unfold dec_measure in *. lia.
Qed.

Lemma dec_name_total msg len off ocap : bytes_ok msg -> 0 <= len <= zlen msg -> 0 <= off -> 0 < ocap ->
  exists r, dec_name msg len off ocap = Some r
    /\ match r with Some (nm, e) => zlen nm < ocap /\ 0 <= e <= len | None => True end.
Proof.
  intros Hm Hl Ho Hc. destruct (dec_loop_total (dec_fuel len) msg len ocap Hm Hl off 0 off false []) as (r & Er & Hr); [done|lia|done|by right| |].
  { unfold dec_measure, dec_fuel. rewrite Z2Nat.id by lia. lia. }
  exists r. split; [done|]. destruct r as [[nm e]|]; [|done]. naive_solver.
Qed.

(** The zone table has as many slots as the capacity says. *)
Definition zone_ok (s : dns) : Prop := match s_zone s with Some zs => s_zone_cap s = zlen zs | None => s_zone_cap s = 0 end.

Lemma find_from_spec i zs nm : let r := find_from i zs nm in
  i <= r <= i + zlen zs /\ (r < i + zlen zs -> exists z, rd zs (r - i) = Some z /\ used z = true /\ name_eq (name z) nm = true).
Proof.
  revert i. induction zs as [|z zs IH]; intros i; cbn [find_from length]; [split; lia|].
  destruct (used z && name_eq (name z) nm)%bool eqn:E.
  - split; [lia|]. intros _. exists z. rewrite Z.sub_diag. split; [done|]. by apply andb_true_iff in E.
  - destruct (IH (i + 1)) as [H1 H2]. split; [lia|]. intros H. destruct H2 as (z' & Ez & Hz); [lia|]. exists z'. split; [|done].
    unfold rd in *. destruct (Z.ltb_spec (find_from (i + 1) zs nm - (i + 1)) 0); [lia|]. rewrite (proj2 (Z.ltb_ge _ _)) by lia.
    rewrite <- Ez. replace (Z.to_nat (find_from (i + 1) zs nm - i)) with (S (Z.to_nat (find_from (i + 1) zs nm - (i + 1)))) by lia. done.
Qed.

Lemma zone_find_total s nm : zone_ok s -> exists zi, zone_find s nm = Some zi /\ 0 <= zi
  /\ (zi < s_zone_cap s -> exists z, rd (default [] (s_zone s)) zi = Some z /\ used z = true /\ name_eq (name z) nm = true).
Proof.
  unfold zone_ok, zone_find. destruct (s_zone s) as [zs|]; intros ->; [|exists 0; split; [done|]; split; lia].
  pose proof (find_from_spec 0 zs nm) as [H1 H2]. eexists. split; [done|]. split; [lia|]. intros H. destruct H2 as (z & Ez & Hz); [lia|].
  rewrite Z.sub_0_r in Ez. by exists z.
Qed.

Lemma dns_reply_total s q n : zone_ok s -> bytes_ok q -> 0 <= n <= zlen q -> is_Some (dns_reply s q n).
Proof.
  intros Hz Hq Hn. unfold dns_reply. destruct (Z.ltb_spec n 12); [done|]. destruct (s_fd s <? 0); [done|]. cbn [orb].
  destruct (dec_name_total q n 12 NAME_MAX) as (r & -> & _); [done|done|done|done|]. cbn [mbind option_bind].
  destruct r as [[nm e]|]; [|done]. destruct (zone_find_total s (cstr nm) Hz) as (zi & -> & Hzi & Hfind). cbn [mbind option_bind].
  destruct (Z.leb_spec (s_zone_cap s) zi); [done|]. destruct (DNS_MAX - 16 <? n); [done|]. destruct Hfind as (z & -> & _); [lia|].
  cbn [mbind option_bind]. rewrite slice_is_Some by lia. cbn [mbind option_bind]. set (body := take _ _).
  assert (Hb : zlen body = n) by (unfold body; rewrite length_take, length_drop; lia).
  destruct (rd_is_Some body 2) as [b2 ->]; [lia|]. cbn [mbind option_bind].
  rewrite !wr_is_Some by (rewrite ?length_insert; lia). cbn [mbind option_bind].
  rewrite !wr_is_Some by (rewrite ?length_insert; lia). cbn [mbind option_bind].
  rewrite !wr_is_Some by (rewrite ?length_insert; lia). cbn [mbind option_bind].
  rewrite !wr_is_Some by (rewrite ?length_insert; lia). done.
Qed.

Lemma parse_answer_total xid buf n : bytes_ok buf -> n <= zlen buf -> is_Some (parse_answer xid buf n).
Proof.
  intros Hb Hn. unfold parse_answer. destruct (Z.ltb_spec n 12); [done|].
  destruct (rd_is_Some buf 0) as [b0 ->]; [lia|]. destruct (rd_is_Some buf 1) as [b1 ->]; [lia|].
  destruct (rd_is_Some buf 2) as [b2 ->]; [lia|]. destruct (rd_is_Some buf 7) as [b7 ->]; [lia|]. cbn [mbind option_bind].
  destruct (_ || _)%bool; [done|]. destruct (dec_name_total buf n 12 NAME_MAX) as (r & -> & Hr); [done|lia|done|done|]. cbn [mbind option_bind].
  destruct r as [[nm off]|]; [|done]. destruct Hr as [_ Ho].
  assert (Hptr : exists isptr, (if off + 4 + 2 <? n then b ← rd buf (off + 4); Some (b =? 192) else Some false) = Some isptr /\ (isptr = true -> off + 4 + 2 < n)).
  { destruct (Z.ltb_spec (off + 4 + 2) n); [|by exists false]. destruct (rd_is_Some buf (off + 4)) as [b ->]; [lia|]. cbn. by eexists. }
  destruct Hptr as (isptr & -> & _). cbn [mbind option_bind].
  assert (Hd : exists d, (if isptr then Some (Some (off + 4 + 2)) else d ← dec_name buf n (off + 4) NAME_MAX; Some (match d with Some p => Some p.2 | None => None end)) = Some d
    /\ match d with Some o => 0 <= o | None => True end).
  { destruct isptr; [eexists; split; [done|]; cbn; lia|]. destruct (dec_name_total buf n (off + 4) NAME_MAX) as (r & -> & Hr); [done|lia|lia|done|].
    cbn [mbind option_bind]. eexists. split; [done|]. destruct r as [[nm' o]|]; [|done]. cbn. lia. }
  destruct Hd as (d & -> & Hd). cbn [mbind option_bind]. destruct d as [o|]; [|done]. destruct (Z.ltb_spec n (o + 14)); [done|].
  destruct (rd_is_Some buf (o + 10)) as [a0 ->]; [lia|]. destruct (rd_is_Some buf (o + 10 + 1)) as [a1 ->]; [lia|].
  destruct (rd_is_Some buf (o + 10 + 2)) as [a2 ->]; [lia|]. destruct (rd_is_Some buf (o + 10 + 3)) as [a3 ->]; [lia|]. done.
Qed.

(** ** Names round-trip *)

(** A label of a well-formed name, the name and its wire form. *)
Definition label_ok (l : list Z) : Prop := 0 < zlen l <= 63 /\ Forall (fun c => c <> 46 /\ c <> 0) l.
Fixpoint dname (ls : list (list Z)) : list Z :=
  match ls with [] => [] | [l] => l | l :: t => l ++ 46 :: dname t end.
Definition wire (ls : list (list Z)) : list Z := concat ((fun l => zlen l :: l) <$> ls) ++ [0].

Lemma label_app l t : Forall (fun c => c <> 46 /\ c <> 0) l -> label (l ++ 46 :: t) = l.
Proof. induction 1 as [|c l [Hc _] Hl IH]; cbn [label app]; [done|]. rewrite (proj2 (Z.eqb_neq _ _)) by done. by f_equal. Qed.
Lemma label_all l : Forall (fun c => c <> 46 /\ c <> 0) l -> label l = l.
Proof. induction 1 as [|c l [Hc _] Hl IH]; cbn [label]; [done|]. rewrite (proj2 (Z.eqb_neq _ _)) by done. by f_equal. Qed.

Lemma dname_cons l t : t <> [] -> dname (l :: t) = l ++ 46 :: dname t.
Proof. by destruct t. Qed.
Lemma wire_cons l t : wire (l :: t) = (zlen l :: l) ++ wire t.
Proof. unfold wire. cbn [fmap list_fmap concat]. by rewrite <- app_assoc. Qed.
Lemma wire_length ls : ls <> [] -> zlen (wire ls) = zlen (dname ls) + 2.
Proof.
  induction ls as [|l t IH]; [done|]. intros _. rewrite wire_cons. destruct t as [|l' t]; [cbn; rewrite length_app; cbn; lia|].
  rewrite dname_cons by done. rewrite !length_app. cbn [length]. specialize (IH ltac:(done)). lia.
Qed.

Lemma enc_loop_wire ls : Forall label_ok ls -> forall fuel n cap, (length (dname ls) <= fuel)%nat -> n + zlen (wire ls) <= cap ->
  enc_loop fuel n cap (dname ls) = Some (wire ls).
Proof.
  induction 1 as [|l t [Hl Hc] Ht IH]; intros fuel n cap Hf Hn.
  - destruct fuel; cbn in *; by rewrite (proj2 (Z.ltb_ge _ _)) by lia.
  - rewrite wire_cons, length_app in Hn. cbn [length] in Hn. assert (Hw : 1 <= zlen (wire t)) by (unfold wire; rewrite length_app; cbn; lia).
    assert (Hd : exists rest, dname (l :: t) = l ++ rest /\ label (dname (l :: t)) = l
      /\ dname t = match rest with c :: r => r | [] => [] end /\ (length (dname t) < length (dname (l :: t)))%nat).
    { destruct t as [|l' t].
      - exists []. cbn [dname]. rewrite app_nil_r, label_all by done. cbn. split; [done|]. split; [done|]. split; [done|]. lia.
      - exists (46 :: dname (l' :: t)). rewrite dname_cons by done. rewrite label_app by done. split; [done|]. split; [done|]. split; [done|].
        rewrite length_app. cbn [length]. lia. }
    destruct Hd as (rest & Ed & El & Er & Hlt). destruct fuel as [|f]; [lia|]. destruct (dname (l :: t)) as [|c nm] eqn:En; [simpl in Hlt; lia|].
    cbn [enc_loop]. rewrite El. rewrite (proj2 (Z.eqb_neq _ _)), (proj2 (Z.ltb_ge 63 _)), (proj2 (Z.ltb_ge cap _)) by lia. cbn [orb].
    rewrite Ed, drop_app_length, <- Er. rewrite IH by lia. cbn [mbind option_bind]. rewrite u8_small by lia. by rewrite wire_cons.
Qed.

Lemma land_small_192 x : 0 <= x <= 63 -> (Z.land x 192 =? 192) = false.
Proof.
  intros Hx. apply Z.eqb_neq. intros E. apply (f_equal (fun v => Z.testbit v 7)) in E. rewrite Z.land_spec in E.
  rewrite <- (Z.mod_small x (2 ^ 6)), Z.mod_pow2_bits_high in E by lia. done.
Qed.

(** The name read so far with the labels still to come. *)
Fixpoint joined (out : list Z) (ls : list (list Z)) : list Z :=
  match ls with [] => out | l :: t => joined ((if zlen out =? 0 then out else out ++ [46]) ++ l) t end.

Lemma joined_app out ls : out <> [] -> joined out ls = out ++ match ls with [] => [] | _ => 46 :: dname ls end.
Proof.
  revert out. induction ls as [|l t IH]; intros out Ho; cbn [joined]; [by rewrite app_nil_r|].
  assert (Hz : (zlen out =? 0) = false) by (destruct out; [by destruct Ho|apply Z.eqb_neq; cbn [length]; lia]). rewrite Hz, IH by (intros E; apply app_nil in E as [E _]; by apply app_nil in E as [_ E]).
  rewrite <- !app_assoc. cbn [app]. destruct t; [by rewrite app_nil_r|]. by rewrite (dname_cons l).
Qed.
Lemma joined_dname ls : Forall label_ok ls -> joined [] ls = dname ls.
Proof.
  destruct 1 as [|l t [Hl _] _]; [done|]. cbn [joined]. rewrite (proj2 (Z.eqb_eq _ _)) by done. cbn [app].
  rewrite joined_app by (destruct l; simpl in *; [lia|done]). destruct t; [apply app_nil_r|]. by rewrite (dname_cons l).
Qed.
Lemma joined_length out ls : zlen out <= zlen (joined out ls).
Proof. revert out. induction ls as [|l t IH]; intros out; cbn [joined]; [lia|]. etransitivity; [|apply IH]. destruct (_ =? _); rewrite !length_app; lia. Qed.

Lemma dec_loop_wire ls : Forall label_ok ls -> forall fuel pre post ocap out endo, (length ls < fuel)%nat ->
  zlen (joined out ls) + 1 < ocap ->
  dec_loop fuel (pre ++ wire ls ++ post) (zlen (pre ++ wire ls ++ post)) ocap (zlen pre) 0 endo false out
  = Some (Some (joined out ls, zlen pre + zlen (wire ls))).
Proof.
  induction 1 as [|l t [Hl Hc] Ht IH]; intros fuel pre post ocap out endo Hf Hj; (destruct fuel as [|f]; [simpl in Hf; lia|]); cbn [dec_loop].
  - unfold wire. cbn [fmap list_fmap concat app]. rewrite length_app. cbn [length]. rewrite (proj2 (Z.ltb_lt _ _)) by lia. cbn [negb].
    assert (Er : rd (pre ++ 0 :: post) (zlen pre) = Some 0) by (rewrite rd_app_r, Z.sub_diag by lia; done). rewrite Er.
    cbn [mbind option_bind joined] in *. change (Z.land 0 192 =? 192) with false. cbn. rewrite (proj2 (Z.ltb_lt _ _)) by lia. done.
  - rewrite wire_cons in *. set (m := pre ++ ((zlen l :: l) ++ wire t) ++ post).
    assert (Hm : zlen m = zlen pre + 1 + zlen l + zlen (wire t) + zlen post) by (unfold m; llia).
    assert (Hw : 1 <= zlen (wire t)) by (unfold wire; rewrite length_app; cbn; lia).
    rewrite (proj2 (Z.ltb_lt _ _)) by lia. cbn [negb].
    assert (Er : rd m (zlen pre) = Some (zlen l)) by (unfold m; rewrite rd_app_r, Z.sub_diag by lia; done). rewrite Er. cbn [mbind option_bind].
    rewrite land_small_192 by lia. rewrite (proj2 (Z.eqb_neq _ _)) by lia. rewrite (proj2 (Z.ltb_ge _ _)) by lia. cbn [orb].
    set (out' := if zlen out =? 0 then out else out ++ [46]). cbn [joined] in Hj. fold out' in Hj.
    pose proof (joined_length (out' ++ l) t) as Hjl. rewrite length_app in Hjl.
    assert (Ho : zlen out <= zlen out') by (unfold out'; destruct (_ =? _); rewrite ?length_app; lia).
    rewrite (proj2 (Z.leb_gt _ _)) by lia.
    assert (Es : slice m (zlen pre + 1) (zlen l) = Some l).
    { replace m with ((pre ++ [zlen l]) ++ l ++ (wire t ++ post)) by (unfold m; rewrite <- !app_assoc; done).
      replace (zlen pre + 1) with (zlen (pre ++ [zlen l])) by llia. by apply slice_mid. }
    rewrite Es. cbn [mbind option_bind]. rewrite length_app, (proj2 (Z.ltb_ge _ _)) by lia.
    replace m with ((pre ++ zlen l :: l) ++ wire t ++ post) by (unfold m; rewrite <- !app_assoc; done).
    replace (zlen pre + 1 + zlen l) with (zlen (pre ++ zlen l :: l)) by llia.
    rewrite IH by (done || (simpl in Hf; lia)). do 3 f_equal. llia.
Qed.

Lemma dec_name_wire ls pre post ocap : Forall label_ok ls -> zlen (dname ls) + 1 < ocap ->
  dec_name (pre ++ wire ls ++ post) (zlen (pre ++ wire ls ++ post)) (zlen pre) ocap = Some (Some (dname ls, zlen pre + zlen (wire ls))).
Proof.
  intros Hl Hc. unfold dec_name. rewrite dec_loop_wire; [by rewrite joined_dname|done| |by rewrite joined_dname].
  assert (Hn : (length ls < length (wire ls))%nat).
  { clear. induction ls as [|l t IH]; [cbn; lia|]. rewrite wire_cons, length_app. cbn [length]. lia. }
  unfold dec_fuel. rewrite !length_app. lia.
Qed.

(** ** Question and answer *)

Lemma be32_bytes a : 0 <= a < 4294967296 ->
  Z.lor (Z.lor (Z.lor (Z.shiftl (u8 (Z.shiftr a 24)) 24) (Z.shiftl (u8 (Z.shiftr a 16)) 16)) (Z.shiftl (u8 (Z.shiftr a 8)) 8)) (u8 a) = a.
Proof.
  intros Ha. rewrite !Z.shiftr_div_pow2 by lia. change (2 ^ 24) with 16777216. change (2 ^ 16) with 65536. change (2 ^ 8) with 256.
  assert (R0 : 0 <= u8 a < 256) by apply u8_range. pose proof (u8_range (a / 256)) as R1. pose proof (u8_range (a / 65536)) as R2.
  pose proof (u8_range (a / 16777216)) as R3.
  set (x := u8 a) in *. set (y := u8 (a / 256)) in *. set (z := u8 (a / 65536)) in *. set (w := u8 (a / 16777216)) in *.
  rewrite <- Z.lor_assoc, (Z.lor_comm (Z.shiftl y 8)), (lor_disjoint_add x y 8) by lia. change (2 ^ 8) with 256.
  rewrite <- Z.lor_assoc, (Z.lor_comm (Z.shiftl z 16)), (lor_disjoint_add _ z 16) by lia. change (2 ^ 16) with 65536. rewrite Z.lor_comm.
  rewrite lor_disjoint_add by lia. change (2 ^ 24) with 16777216. unfold x, y, z, w. ulia.
Qed.

Lemma be16_bytes v : 0 <= v < 65536 -> u16 (Z.lor (Z.shiftl (u8 (Z.shiftr v 8)) 8) (u8 v)) = v.
Proof.
  intros Hv. rewrite Z.lor_comm, lor_disjoint_add by (lia || apply u8_range). rewrite Z.shiftr_div_pow2 by lia. change (2 ^ 8) with 256. ulia.
Qed.

Lemma dname_no_nul ls : Forall label_ok ls -> no_nul (dname ls).
Proof.
  induction 1 as [|l t [_ Hc] Ht IH]; [constructor|]. assert (Hl : no_nul l) by (eapply Forall_impl; [exact Hc|]; by intros ? []).
  destruct t; [done|]. rewrite dname_cons by done. apply Forall_app. split; [done|]. by constructor.
Qed.
(** The query of a well-formed name, and the answer [a] appended to it. *)
Definition query_of (xid : Z) (ls : list (list Z)) : list Z :=
  [u8 (Z.shiftr xid 8); u8 xid; 1; 0; 0; 1; 0; 0; 0; 0; 0; 0] ++ wire ls ++ [0; 1; 0; 1].
(** [rr]: type, class, time to live and data length of the record. *)
Definition answer_of (rr : list Z) (a : Z) : list Z :=
  192 :: 12 :: rr ++ [u8 (Z.shiftr a 24); u8 (Z.shiftr a 16); u8 (Z.shiftr a 8); u8 a].
Definition reply_of (xid : Z) (ls : list (list Z)) (rr : list Z) (a : Z) : list Z :=
  [u8 (Z.shiftr xid 8); u8 xid; 129; 0; 0; 1; 0; 1; 0; 0; 0; 0] ++ wire ls ++ [0; 1; 0; 1] ++ answer_of rr a.
Definition rr_a : list Z := [0; 1; 0; 1; 0; 0; 0; 8; 0; 4].

Lemma mk_query_of xid ls : Forall label_ok ls -> ls <> [] -> zlen (dname ls) + 1 < NAME_MAX -> mk_query xid (dname ls) = Some (query_of xid ls).
Proof.
  intros Hl Hn Hc. unfold mk_query, enc_name. unfold NAME_MAX in Hc. pose proof (wire_length ls Hn).
  rewrite enc_loop_wire; [done|done|done|]. unfold DNS_MAX. lia.
Qed.

Lemma dns_reply_of s xid ls zi z : Forall label_ok ls -> ls <> [] -> zlen (dname ls) + 1 < NAME_MAX -> 0 <= s_fd s ->
  zone_find s (dname ls) = Some zi -> zi < s_zone_cap s -> rd (default [] (s_zone s)) zi = Some z ->
  dns_reply s (query_of xid ls) (zlen (query_of xid ls)) = Some (Some (reply_of xid ls rr_a (addr_be z))).
Proof.
  intros Hl Hn Hc Hfd Hzf Hzi Hz. unfold NAME_MAX in Hc. pose proof (wire_length ls Hn) as Hw.
  assert (Hq : zlen (query_of xid ls) = zlen (dname ls) + 18) by (unfold query_of; llia).
  unfold dns_reply. rewrite (proj2 (Z.ltb_ge _ 12)), (proj2 (Z.ltb_ge _ 0)) by lia. cbn [orb].
  set (hd := [u8 (Z.shiftr xid 8); u8 xid; 1; 0; 0; 1; 0; 0; 0; 0; 0; 0]).
  assert (Ed : dec_name (query_of xid ls) (zlen (query_of xid ls)) 12 NAME_MAX = Some (Some (dname ls, zlen hd + zlen (wire ls)))).
  { change 12 with (zlen hd). unfold query_of. fold hd. apply dec_name_wire; [done|]. unfold NAME_MAX. lia. }
  rewrite Ed. cbn [mbind option_bind].
  rewrite cstr_id by (by apply dname_no_nul). rewrite Hzf. cbn [mbind option_bind]. rewrite (proj2 (Z.leb_gt _ _)) by lia.
  unfold DNS_MAX. rewrite (proj2 (Z.ltb_ge (512 - 16) _)) by lia. rewrite Hz. cbn [mbind option_bind].
  rewrite slice_is_Some by lia. rewrite Nat2Z.id. change (Z.to_nat 0) with 0%nat. rewrite drop_0, take_ge by done. cbn [mbind option_bind].
  assert (Hr2 : rd (query_of xid ls) 2 = Some 1) by reflexivity. rewrite Hr2. cbn [mbind option_bind].
  rewrite wr_is_Some by lia. cbn [mbind option_bind]. rewrite wr_is_Some by (rewrite length_insert; lia). cbn [mbind option_bind].
  rewrite wr_is_Some by (rewrite !length_insert; lia). cbn [mbind option_bind]. rewrite wr_is_Some by (rewrite !length_insert; lia). cbn [mbind option_bind].
  do 2 f_equal. unfold reply_of. rewrite !app_assoc. f_equal; rewrite <- ?app_assoc; reflexivity.
Qed.

Lemma parse_answer_of xid ls rr a : length rr = 10%nat -> Forall label_ok ls -> ls <> [] -> zlen (dname ls) + 1 < NAME_MAX -> 0 <= xid < 65536 -> 0 <= a < 4294967296 ->
  parse_answer xid (reply_of xid ls rr a) (zlen (reply_of xid ls rr a)) = Some (Some a).
Proof.
  intros Hrr Hl Hn Hc Hx Ha. unfold NAME_MAX in Hc. pose proof (wire_length ls Hn) as Hw.
  do 10 (destruct rr as [|? rr]; [discriminate Hrr|]). destruct rr; [|discriminate Hrr]. set (rr := [z; z0; z1; z2; z3; z4; z5; z6; z7; z8]).
  set (rep := reply_of xid ls rr a). set (hd := [u8 (Z.shiftr xid 8); u8 xid; 129; 0; 0; 1; 0; 1; 0; 0; 0; 0]).
  set (big := hd ++ wire ls ++ [0; 1; 0; 1]). assert (Eb : rep = big ++ answer_of rr a) by (unfold rep, big, reply_of; rewrite <- !app_assoc; done).
  assert (Hbig : zlen big = zlen (wire ls) + 16) by (unfold big, hd; llia).
  assert (Hr : zlen rep = zlen big + 16) by (rewrite Eb, length_app; change (length (answer_of rr a)) with 16%nat; lia).
  assert (Hrd : forall i, 0 <= i -> rd rep (zlen big + i) = rd (answer_of rr a) i) by (intros i Hi; rewrite Eb, rd_app_r by lia; f_equal; lia).
  unfold parse_answer. rewrite (proj2 (Z.ltb_ge _ 12)) by lia.
  assert (R0 : rd rep 0 = Some (u8 (Z.shiftr xid 8))) by reflexivity. assert (R1 : rd rep 1 = Some (u8 xid)) by reflexivity.
  assert (R2 : rd rep 2 = Some 129) by reflexivity. assert (R7 : rd rep 7 = Some 1) by reflexivity.
  rewrite R0, R1, R2, R7. cbn [mbind option_bind]. rewrite be16_bytes, Z.eqb_refl by done. change (Z.land 129 128 =? 0) with false. cbn [negb orb Z.eqb].
  assert (Ed : dec_name rep (zlen rep) 12 NAME_MAX = Some (Some (dname ls, zlen hd + zlen (wire ls)))).
  { change 12 with (zlen hd). unfold rep, reply_of. fold hd. apply dec_name_wire; [done|]. unfold NAME_MAX. lia. }
  rewrite Ed. cbn [mbind option_bind]. change (zlen hd) with 12. replace (12 + zlen (wire ls) + 4) with (zlen big + 0) by lia.
  rewrite (proj2 (Z.ltb_lt _ _)) by lia. rewrite Hrd by lia. assert (P0 : rd (answer_of rr a) 0 = Some 192) by reflexivity. rewrite P0.
  cbn [mbind option_bind]. change (192 =? 192) with true. cbv iota. cbn [mbind option_bind].
  rewrite (proj2 (Z.ltb_ge _ _)) by lia. replace (zlen big + 0 + 2 + 10) with (zlen big + 12) by lia.
  rewrite <- !Z.add_assoc, !Hrd by lia.
  assert (A0 : rd (answer_of rr a) 12 = Some (u8 (Z.shiftr a 24))) by reflexivity. assert (A1 : rd (answer_of rr a) (12 + 1) = Some (u8 (Z.shiftr a 16))) by reflexivity.
  assert (A2 : rd (answer_of rr a) (12 + 2) = Some (u8 (Z.shiftr a 8))) by reflexivity. assert (A3 : rd (answer_of rr a) (12 + 3) = Some (u8 a)) by reflexivity.
  rewrite A0, A1, A2, A3. cbn [mbind option_bind]. by rewrite be32_bytes.
Qed.

(** ** The card's contract *)

(** For every well-formed name of at most 78 characters that the zone
    knows, the query a lookup builds is answered by the resolver, and reading
    the answer back gives the address of the zone entry: encoding, label
    decoding, the compression pointer of the answer and the record offsets of
    the two sides agree. *)
Theorem dns_answers_own_query s xid ls zi : Forall label_ok ls -> ls <> [] -> zlen (dname ls) + 1 < NAME_MAX ->
  zone_ok s -> 0 <= s_fd s -> 0 <= xid < 65536 -> zone_find s (dname ls) = Some zi -> zi < s_zone_cap s ->
  exists z q rep, rd (default [] (s_zone s)) zi = Some z /\ name_eq (name z) (dname ls) = true
    /\ mk_query xid (dname ls) = Some q /\ dns_reply s q (zlen q) = Some (Some rep)
    /\ (0 <= addr_be z < 2 ^ 32 -> parse_answer xid rep (zlen rep) = Some (Some (addr_be z))).
Proof.
  intros Hl Hn Hc Hz Hfd Hx Hf Hzi. destruct (zone_find_total s (dname ls) Hz) as (zi' & E & _ & Hrd). rewrite Hf in E. injection E as <-.
  destruct (Hrd Hzi) as (z & Ez & _ & Hname). exists z, (query_of xid ls), (reply_of xid ls rr_a (addr_be z)).
  split; [done|]. split; [done|]. split; [by apply mk_query_of|]. split; [by eapply dns_reply_of|]. intros Ha. by apply parse_answer_of.
Qed.

Definition demo_dns : dns := St true (Some (Zone true [77; 101; 46; 116; 118] 3232235777 :: repeat no_zone 7)) 8 1 3 1 49500 0.

Example dns_answers_own_query_witness : exists z q rep, rd (default [] (s_zone demo_dns)) 0 = Some z
  /\ name_eq (name z) [109; 101; 46; 116; 118] = true
  /\ mk_query 513 [109; 101; 46; 116; 118] = Some q /\ dns_reply demo_dns q (zlen q) = Some (Some rep)
  /\ (0 <= addr_be z < 2 ^ 32 -> parse_answer 513 rep (zlen rep) = Some (Some (addr_be z))).
Proof.
  refine (dns_answers_own_query demo_dns 513 [[109; 101]; [116; 118]] 0 _ _ _ _ _ _ _ _); try reflexivity; try done.
  repeat constructor; done.
Defined.

(** A lookup never looks at the type, class or data length of the record
    it takes the address from: with the ten bytes between the owner's name and
    the data replaced by any others (a CNAME's, say), the reply is read as the
    same address, the first four bytes of the record's data. *)
Lemma dns_answer_type_unchecked xid ls rr a : length rr = 10%nat -> Forall label_ok ls -> ls <> [] ->
  zlen (dname ls) + 1 < NAME_MAX -> 0 <= xid < 65536 -> 0 <= a < 2 ^ 32 ->
  parse_answer xid (reply_of xid ls rr a) (zlen (reply_of xid ls rr a)) = Some (Some a)
  /\ parse_answer xid (reply_of xid ls rr a) (zlen (reply_of xid ls rr a)) = parse_answer xid (reply_of xid ls rr_a a) (zlen (reply_of xid ls rr_a a)).
Proof. intros. split; [by apply parse_answer_of|]. by rewrite !parse_answer_of. Qed.

(** A CNAME whose target starts with the label w is read as 1.119.0.0. *)
Example dns_answer_type_unchecked_witness :
  let cname := [0; 5; 0; 1; 0; 0; 0; 8; 0; 4] in
  parse_answer 513 (reply_of 513 [[109; 101]] cname 24576000) (zlen (reply_of 513 [[109; 101]] cname 24576000)) = Some (Some 24576000).
Proof. apply (dns_answer_type_unchecked 513 [[109; 101]] [0; 5; 0; 1; 0; 0; 0; 8; 0; 4] 24576000); [done|repeat constructor; done|done|done|lia|lia]. Defined.

Section lookup.
Context {N : Type} `{UL : UdpLaws N}.

Lemma dns_poll_total s (net : N) : zone_ok s -> is_Some (pm_metal_net_dns_poll s net).
Proof.
  intros Hz. unfold pm_metal_net_dns_poll. destruct (s_fd s <? 0); [done|]. destruct (ip_recvfrom net (s_fd s) DNS_MAX) as [[net' n] d] eqn:E.
  destruct (Z.leb_spec n 0); [done|]. destruct (recvfrom_fits _ _ _ _ _ _ E ltac:(lia)) as (_ & Hl & Hb).
  destruct (dns_reply_total s (d_bytes d) n Hz Hb ltac:(lia)) as [r ->]. cbn [mbind option_bind]. by destruct r.
Qed.

Lemma await_loop_total fuel s fd cap t0 : zone_ok s -> forall (net : N) spins, 0 <= spins <= DNS_SPINS -> DNS_SPINS + 1 - spins <= Z.of_nat fuel ->
  exists net' n d, await_loop fuel s net fd cap t0 spins = Some (net', n, d) /\ (0 < n -> zlen (d_bytes d) = n /\ bytes_ok (d_bytes d)).
Proof.
  intros Hz. induction fuel as [|f IH]; intros net spins Hs Hf; [lia|]. cbn [await_loop].
  destruct (ip_recvfrom net fd cap) as [[net1 n] d] eqn:E. destruct (Z.eqb_spec n 0); cbn [negb].
  - assert (Hp : exists net2, (if 0 <=? s_fd s then pm_metal_net_dns_poll s (ip_pump net1) else Some (ip_pump net1)) = Some net2).
    { destruct (0 <=? s_fd s); [|by eexists]. destruct (dns_poll_total s (ip_pump net1) Hz) as [r Hr]. by exists r. }
    destruct Hp as [net2 ->]. cbn [mbind option_bind]. destruct (mono_us net2) as [net3 now].
    destruct (_ <? u64 _); cbn [orb]; [eexists _, _, _; split; [done|]; lia|].
    destruct (Z.ltb_spec DNS_SPINS (spins + 1)); [eexists _, _, _; split; [done|]; lia|]. apply IH; lia.
  - eexists _, _, _. split; [done|]. intros Hn. by destruct (recvfrom_fits _ _ _ _ _ _ E Hn) as (_ & ? & ?).
Qed.

(** A lookup ends and stays inside its buffers, whatever the network
    delivers: for every name, every stack that keeps its socket contract and
    every sequence of datagrams it hands over -- to the lookup's socket or to
    the resolver it services while waiting -- [pm_metal_net_dns_lookup] returns
    an address or -1, after at most 200001 turns of the wait. *)
Theorem dns_lookup_total s (net : N) nm server port : zone_ok s -> is_Some (pm_metal_net_dns_lookup s net nm server port).
Proof.
  intros Hz. unfold pm_metal_net_dns_lookup. destruct nm as [n|]; [|done]. destruct (s_arena s); cbn [negb]; [|done].
  destruct (ip_socket net) as [net1 fd]. destruct (fd <? 0); [done|]. destruct (cli_port s) as [s1 cport] eqn:Ec.
  assert (Hz1 : forall x, zone_ok (set_xid s1 x)) by (intros x; unfold cli_port in Ec; injection Ec as <- _; exact Hz).
  destruct (ip_bind net1 fd 0 cport) as [net2 r]. destruct (r =? 0); cbn [negb]; [|done]. destruct (mk_query (s_xid s1) n) as [q|]; [|done].
  destruct (ip_sendto net2 fd q server port) as [net3 r2]. destruct (r2 <? 0); [done|]. unfold await_answer. destruct (mono_us net3) as [net4 t0].
  destruct (await_loop_total (Z.to_nat (DNS_SPINS + 1)) (set_xid s1 (u16 (s_xid s1 + 1))) fd DNS_MAX t0 (Hz1 _) net4 0) as (net5 & k & d & -> & Hd);
    [done|rewrite Z2Nat.id by done; lia|]. cbn [mbind option_bind].
  destruct (decide (0 < k)) as [Hk|Hk].
  - destruct (Hd Hk) as [Hl Hb]. destruct (parse_answer_total (s_xid s1) (d_bytes d) k Hb ltac:(lia)) as [a ->]. done.
  - unfold parse_answer. by rewrite (proj2 (Z.ltb_lt k 12)) by lia.
Qed.
End lookup.

Import LoopNet.
Example dns_lookup_total_witness :
  is_Some (pm_metal_net_dns_lookup demo_dns (LoopNet.Net 4 [(3, 53)] [] 0) (Some [109; 101; 46; 116; 118]) 2130706433 53).
Proof. apply (dns_lookup_total (N := LoopNet.net) demo_dns). reflexivity. Defined.
End DnsSpec.
