(* ===== verification/Tftp.v ===== *)
(** * The tftp card: files in blocks, served and fetched

    src/.../metal/net/tftp/__impl__.c.  The server's answer to one datagram
    and the client's step on one packet are functions of their own, composed
    with the sockets of Udp the way [pm_metal_net_tftp_poll] and
    [pm_metal_net_tftp_get] compose them.  As in Dns, [None] is an access
    outside a buffer and C strings are their bytes before the NUL. *)
From S2P Require Import Prelude Udp.

Module Tftp.

Definition FILE_DEFAULT := 4.
Definition NAME_MAX := 40.
Definition DATA_MAX := 512.
Definition FILE_BYTES := 2048.
Definition TFTP_WAIT_US := 3000000.
Definition TFTP_SPINS := 200000.

(** [data] is the whole allocated buffer, [len] the bytes of it in use. *)
Record file := File { used : bool; name : list Z; data : option (list Z); data_cap : Z; len : Z }.
Record xfer := Xfer { live : bool; fi : Z; addr : Z; port : Z; block : Z }.
Record tftp := St { s_arena : bool; s_file : option (list file); s_file_cap : Z; s_file_used : Z; s_xfer : xfer; s_fd : Z; s_cport : Z }.

Definition no_file : file := File false [] None 0 0.
Definition no_xfer : xfer := Xfer false 0 0 0 0.

(** The [for] loop of [name_eq] with [k] characters left to [NAME_MAX]. *)
Fixpoint name_eq_loop (k : nat) (a b : list Z) : bool :=
  match k, a, b with
  | S k', x :: a', y :: b' => (x =? y) && name_eq_loop k' a' b'
  | _, _, _ => bool_decide (a = []) && bool_decide (b = [])
  end.
Definition name_eq (a b : list Z) : bool := name_eq_loop (Z.to_nat NAME_MAX) a b.

Definition copy_name (nm : list Z) : list Z := take (Z.to_nat (NAME_MAX - 1)) nm.

Fixpoint first_free (i : nat) (fs : list file) : option nat :=
  match fs with
  | [] => None
  | f :: t => if used f then first_free (S i) t else Some i
  end.

(** The slots the loops over [s_file_cap] read: none after [deinit]; a NULL
    table with slots (a failed [init]) is undefined. *)
Definition files (s : tftp) : option (list file) :=
  match s_file s with Some fs => Some fs | None => if s_file_cap s =? 0 then Some [] else None end.

Definition set_files (s : tftp) (fs : list file) (n : Z) : tftp :=
  St (s_arena s) (Some fs) (zlen fs) n (s_xfer s) (s_fd s) (s_cport s).

(** [alloc n] is [pm_util_mem_alloc]: a buffer of [n] bytes or [None]; [grow]
    is [pm_util_limits_grow] on the table; [soft] the data knob. *)
Definition pm_metal_net_tftp_add (alloc : Z -> option (list Z)) (grow : option (list file) -> option (list file)) (soft : Z)
    (s : tftp) (nm d : option (list Z)) : option (tftp * Z) :=
  match nm, d with
  | Some (c :: n), Some b =>
      if zlen b =? 0 then Some (s, -1) else
      let dcap := if (soft =? 0) || (FILE_BYTES <? soft) then FILE_BYTES else soft in
      if dcap <? zlen b then Some (s, -1) else
      let put fs i (f : file) (fresh : bool) :=
        let nm' := copy_name (c :: n) in
        match (if fresh then alloc dcap else match data f with Some buf => Some buf | None => alloc dcap end) with
        | None => Some (set_files s (<[i := File (used f) nm' (if fresh then None else data f) (data_cap f) (len f)]> fs) (s_file_used s), -1)
        | Some buf =>
            buf' ← blit buf 0 b;
            Some (set_files s (<[i := File true nm' (Some buf') (if fresh then dcap else match data f with Some _ => data_cap f | None => dcap end) (zlen b)]> fs)
                    (u32 (s_file_used s + 1)), 0)
        end in
      fs0 ← files s;
      match first_free 0 fs0 with
      | Some i => f ← fs0 !! i; put fs0 i f false
      | None => match grow (s_file s) with
                | None => Some (s, -1)
                | Some fs => f ← fs !! (length fs - 1)%nat; put fs (length fs - 1)%nat f true
                end
      end
  | _, _ => Some (s, -1)
  end.

(** ** The server *)

Definition blocks_of (n : Z) : Z := n / DATA_MAX + 1.

(** The DATA packet of block [blk] of file [f]. *)
Definition send_block (f : file) (blk : Z) : option (list Z) :=
  let off := u32 (u32 (blk - 1) * DATA_MAX) in
  let dlen := if off <? len f then len f - off else 0 in
  let dlen := if DATA_MAX <? dlen then DATA_MAX else dlen in
  d ← (if dlen =? 0 then Some [] else slice (default [] (data f)) off dlen);
  Some ([0; 3; u8 (Z.shiftr blk 8); u8 blk] ++ d).

Definition send_error (code : Z) : list Z := [0; 5; 0; code; 0].

(** The file name in a request: up to a NUL, the end, or 39 bytes. *)
Fixpoint req_name (k : nat) (b : list Z) : list Z :=
  match k, b with
  | S k', c :: t => if c =? 0 then [] else c :: req_name k' t
  | _, _ => []
  end.

Fixpoint find_file (i : Z) (fs : list file) (nm : list Z) : option Z :=
  match fs with
  | [] => None
  | f :: t => if used f && name_eq (name f) nm then Some i else find_file (i + 1) t nm
  end.

Definition set_xfer (s : tftp) (x : xfer) : tftp :=
  St (s_arena s) (s_file s) (s_file_cap s) (s_file_used s) x (s_fd s) (s_cport s).

(** What [pm_metal_net_tftp_poll] does with the [n] bytes of [buf] it received
    from [src], [sport]: the new state and the datagram it sends there. *)
Definition tftp_serve (s : tftp) (buf : list Z) (n src sport : Z) : option (tftp * option (list Z)) :=
  if n <? 4 then Some (s, None) else
  b0 ← rd buf 0; b1 ← rd buf 1; b2 ← rd buf 2; b3 ← rd buf 3;
  if negb (b0 =? 0) then Some (s, None) else
  if b1 =? 4 then
    let acked := u16 (Z.lor (u16 (Z.shiftl b2 8)) b3) in
    let x := s_xfer s in
    if negb (live x) || negb (src =? addr x) || negb (sport =? port x) || negb (acked =? block x) then Some (s, None) else
    f ← rd (default [] (s_file s)) (fi x);
    if blocks_of (len f) <=? acked then Some (set_xfer s (Xfer false (fi x) (addr x) (port x) (block x)), None) else
    let blk := u16 (acked + 1) in
    out ← send_block f blk;
    Some (set_xfer s (Xfer (live x) (fi x) (addr x) (port x) blk), Some out)
  else if negb (b1 =? 1) then Some (s, None) else
    body ← slice buf 2 (n - 2);
    let nm := req_name (Z.to_nat (NAME_MAX - 1)) body in
    fs ← files s;
    match find_file 0 fs nm with
    | Some i =>
        f ← rd fs i;
        out ← send_block f 1;
        Some (set_xfer s (Xfer true i src sport 1), Some out)
    | None => Some (s, Some (send_error 1))
    end.

(** ** The client *)

Definition mk_request (nm : list Z) : list Z := [0; 1] ++ copy_name nm ++ [0; 111; 99; 116; 101; 116; 0].

(** The loop's variables: the bytes written to [out], the block awaited and
    the server's transfer port. *)
Record client := Client { c_got : list Z; c_block : Z; c_tid : Z }.
Inductive client_next := CFail | CSkip | CAck (c : client) (ack : list Z) | CDone (c : client) (ack : list Z).

(** One turn of the loop on a packet of [n] bytes from port [sport]; [cap] is
    the room the caller gave. *)
Definition tftp_accept (cap : Z) (c : client) (buf : list Z) (n sport : Z) : option client_next :=
  if n <? 4 then Some CFail else
  b0 ← rd buf 0; b1 ← rd buf 1; b2 ← rd buf 2; b3 ← rd buf 3;
  if negb (b0 =? 0) then Some CFail else
  if b1 =? 5 then Some CFail else
  if negb (b1 =? 3) || negb (u16 (Z.lor (u16 (Z.shiftl b2 8)) b3) =? c_block c) then Some CSkip else
  let tid := if c_block c =? 1 then sport else c_tid c in
  if negb (c_block c =? 1) && negb (sport =? c_tid c) then Some CSkip else
  let dlen := n - 4 in
  if cap <? zlen (c_got c) + dlen then Some CFail else
  d ← slice buf 4 dlen;
  let c' := Client (c_got c ++ d) (c_block c) tid in
  let ack := [0; 4; b2; b3] in
  if dlen <? DATA_MAX then Some (CDone c' ack) else Some (CAck (Client (c_got c') (u16 (c_block c + 1)) tid) ack).

Section net.
Context {N : Type} `{UdpOps N}.

Definition pm_metal_net_tftp_init (arena alloc : bool) (s : tftp) : tftp * Z :=
  if negb arena then (s, -1) else
  if negb alloc then (St true None FILE_DEFAULT 0 (s_xfer s) (s_fd s) (s_cport s), -1) else
  (St true (Some (repeat no_file (Z.to_nat FILE_DEFAULT))) FILE_DEFAULT 0 no_xfer (-1) (s_cport s), 0).

Definition pm_metal_net_tftp_deinit (s : tftp) (net : N) : tftp * N :=
  (St false None 0 0 (s_xfer s) (if 0 <=? s_fd s then -1 else s_fd s) (s_cport s), if 0 <=? s_fd s then ip_close net (s_fd s) else net).

Definition set_fd (s : tftp) (fd : Z) : tftp := St (s_arena s) (s_file s) (s_file_cap s) (s_file_used s) (s_xfer s) fd (s_cport s).
Definition set_cport (s : tftp) (p : Z) : tftp := St (s_arena s) (s_file s) (s_file_cap s) (s_file_used s) (s_xfer s) (s_fd s) p.

Definition pm_metal_net_tftp_listen (s : tftp) (net : N) (a p : Z) : tftp * N * Z :=
  if negb (s_arena s) then (s, net, -1) else
  if 0 <=? s_fd s then (s, net, 0) else
  let '(net, fd) := ip_socket net in
  if fd <? 0 then (set_fd s fd, net, -1) else
  let '(net, r) := ip_bind net fd a p in
  if negb (r =? 0) then (set_fd s (-1), ip_close net fd, -1) else (set_fd s fd, net, 0).

Definition pm_metal_net_tftp_poll (s : tftp) (net : N) : option (tftp * N) :=
  if s_fd s <? 0 then Some (s, net) else
  let '(net, n, d) := ip_recvfrom net (s_fd s) (DATA_MAX + 4) in
  '(s', out) ← tftp_serve s (d_bytes d) n (d_addr d) (d_port d);
  match out with
  | None => Some (s', net)
  | Some b => Some (s', (ip_sendto net (s_fd s) b (d_addr d) (d_port d)).1)
  end.

Fixpoint await_loop (fuel : nat) (s : tftp) (net : N) (fd cap t0 spins : Z) : option (tftp * N * Z * dgram) :=
  match fuel with
  | O => None
  | S f =>
      let '(net, n, d) := ip_recvfrom net fd cap in
      if negb (n =? 0) then Some (s, net, n, d) else
      let net := ip_pump net in
      '(s, net) ← (if 0 <=? s_fd s then pm_metal_net_tftp_poll s net else Some (s, net));
      let '(net, now) := mono_us net in
      if (TFTP_WAIT_US <? u64 (now - t0)) || (TFTP_SPINS <? spins + 1) then Some (s, net, -1, d)
      else await_loop f s net fd cap t0 (spins + 1)
  end.
Definition await_packet (s : tftp) (net : N) (fd cap : Z) : option (tftp * N * Z * dgram) :=
  let '(net, t0) := mono_us net in await_loop (Z.to_nat (TFTP_SPINS + 1)) s net fd cap t0 0.

(** The loop of [pm_metal_net_tftp_get], at most [fuel] packets long (the code
    has no limit: stray packets keep it going); [inl] is "still running". *)
Fixpoint get_loop (fuel : nat) (s : tftp) (net : N) (fd cap : Z) (c : client) : option (unit + (tftp * N * option (list Z))) :=
  match fuel with
  | O => Some (inl ())
  | S f =>
      '(s, net, n, d) ← await_packet s net fd (DATA_MAX + 4);
      r ← tftp_accept cap c (d_bytes d) n (d_port d);
      match r with
      | CFail => Some (inr (s, ip_close net fd, None))
      | CSkip => get_loop f s net fd cap c
      | CAck c' ack => get_loop f s (ip_sendto net fd ack (d_addr d) (c_tid c')).1 fd cap c'
      | CDone c' ack => Some (inr (s, ip_close (ip_sendto net fd ack (d_addr d) (c_tid c')).1 fd, Some (c_got c')))
      end
  end.

(** [cap] is [*out_len] on entry; the result is the bytes written to [out]. *)
Definition pm_metal_net_tftp_get (fuel : nat) (s : tftp) (net : N) (server port : Z) (nm : option (list Z)) (cap : Z)
    : option (unit + (tftp * N * option (list Z))) :=
  match nm with
  | Some n =>
      if negb (s_arena s) then Some (inr (s, net, None)) else
      let '(net, fd) := ip_socket net in
      let s := set_cport s (if s_cport s <? 49999 then u16 (s_cport s + 1) else 49700) in
      if fd <? 0 then Some (inr (s, net, None)) else
      let '(net, r) := ip_bind net fd 0 (s_cport s) in
      if negb (r =? 0) then Some (inr (s, ip_close net fd, None)) else
      let '(net, r) := ip_sendto net fd (mk_request n) server port in
      if r <? 0 then Some (inr (s, ip_close net fd, None)) else
      get_loop fuel s net fd cap (Client [] 1 port)
  | None => Some (inr (s, net, None))
  end.
End net.
End Tftp.
