(* ===== verification/TftpSpec.v ===== *)
(** * What the tftp card promises

    The client's loop and the server's answers, run against each other packet
    by packet, transfer a file exactly. *)
From S2P Require Import Prelude Udp Tftp.

Module TftpSpec.
Import Tftp.

(** Client and server in lock step from a DATA packet on: the bytes the client
    ends with and the server's state after the last acknowledgement. *)
Fixpoint exchange (turns : nat) (s : tftp) (c : client) (pkt : list Z) (cap src cport sport : Z) : option (list Z * tftp) :=
  match turns with
  | O => None
  | S k =>
      match tftp_accept cap c pkt (zlen pkt) sport with
      | Some (CDone c' ack) => match tftp_serve s ack (zlen ack) src cport with Some (s', None) => Some (c_got c', s') | _ => None end
      | Some (CAck c' ack) => match tftp_serve s ack (zlen ack) src cport with Some (s', Some pkt') => exchange k s' c' pkt' cap src cport sport | _ => None end
      | _ => None
      end
  end.

(** The bytes of a file and its [j]-th block. *)
Definition contents (f : file) : list Z := take (Z.to_nat (len f)) (default [] (data f)).
Definition block_at (d : list Z) (j : Z) : list Z := take 512 (drop (Z.to_nat (512 * (j - 1))) d).
Definition data_packet (d : list Z) (j : Z) : list Z := [0; 3; u8 (Z.shiftr j 8); u8 j] ++ block_at d j.

Definition file_ok (f : file) : Prop := exists buf, data f = Some buf /\ 0 <= len f <= zlen buf /\ len f < 65536.

Lemma contents_length f : file_ok f -> zlen (contents f) = len f.
Proof. intros (buf & E & Hl & _). unfold contents. rewrite E. change (default [] (Some buf)) with buf. rewrite length_take. lia. Qed.

Lemma send_block_packet f j : file_ok f -> 1 <= j <= blocks_of (len f) -> send_block f j = Some (data_packet (contents f) j).
Proof.
  intros (buf & E & Hl & Hm) Hj. unfold blocks_of, DATA_MAX in Hj. unfold send_block, data_packet, block_at, contents, DATA_MAX. rewrite E.
  change (default [] (Some buf)) with buf. assert (Hq : 512 * (len f / 512) <= len f) by mlia. set (q := len f / 512) in *.
  rewrite (u32_small (j - 1)), (u32_small ((j - 1) * 512)) by lia. set (off := (j - 1) * 512).
  replace (Z.to_nat (512 * (j - 1))) with (Z.to_nat off) by (unfold off; lia).
  assert (Ho : 0 <= off <= len f) by (unfold off; lia).
  assert (Et : take 512 (drop (Z.to_nat off) (take (Z.to_nat (len f)) buf)) = take (Z.to_nat (Z.min 512 (len f - off))) (drop (Z.to_nat off) buf)).
  { rewrite (List.skipn_firstn_comm (Z.to_nat off)), take_take. f_equal. lia. }
  rewrite Et. clear Et. destruct (Z.ltb_spec off (len f)).
  - assert (Ed : (if 512 <? len f - off then 512 else len f - off) = Z.min 512 (len f - off)) by (destruct (Z.ltb_spec 512 (len f - off)); lia).
    rewrite Ed, (proj2 (Z.eqb_neq _ _)), slice_is_Some by lia. done.
  - change (512 <? 0) with false. cbv iota. replace (Z.min 512 (len f - off)) with 0 by lia. done.
Qed.

(** A block is full unless it is the last, and the blocks in order are the file. *)
Lemma block_length d j : 1 <= j -> 512 * (j - 1) <= zlen d -> zlen (block_at d j) = Z.min 512 (zlen d - 512 * (j - 1)).
Proof. intros. unfold block_at. rewrite length_take, length_drop. lia. Qed.

Lemma take_block d j : 1 <= j -> take (Z.to_nat (512 * (j - 1))) d ++ block_at d j = take (Z.to_nat (512 * j)) d.
Proof. intros. unfold block_at. rewrite take_take_drop. f_equal. lia. Qed.

Lemma be16_word v : 0 <= v < 65536 -> u16 (Z.lor (u16 (Z.shiftl (u8 (Z.shiftr v 8)) 8)) (u8 v)) = v.
Proof.
  intros Hv. rewrite Z.shiftr_div_pow2, Z.shiftl_mul_pow2 by lia. change (2 ^ 8) with 256.
  rewrite (u16_small (u8 (v / 256) * 256)) by ulia. rewrite Z.lor_comm. change 256 with (2 ^ 8) at 2. rewrite <- Z.shiftl_mul_pow2 by lia.
  rewrite lor_disjoint_add by (lia || apply u8_range). change (2 ^ 8) with 256. ulia.
Qed.

(** The client on block [j] of a file it has room for. *)
Lemma accept_block d j cap tid sport : 1 <= j <= zlen d / 512 + 1 -> zlen d < 65536 -> zlen d <= cap -> j = 1 \/ tid = sport ->
  let pkt := data_packet d j in let c' := Client (take (Z.to_nat (512 * j)) d) in
  tftp_accept cap (Client (take (Z.to_nat (512 * (j - 1))) d) j tid) pkt (zlen pkt) sport =
    Some (if j <=? zlen d / 512 then CAck (c' (j + 1) sport) [0; 4; u8 (Z.shiftr j 8); u8 j] else CDone (c' j sport) [0; 4; u8 (Z.shiftr j 8); u8 j]).
Proof.
  intros Hj Hd Hc Ht. cbv zeta. assert (Hq : 512 * (zlen d / 512) <= zlen d < 512 * (zlen d / 512) + 512) by mlia. set (q := zlen d / 512) in *.
  pose proof (block_length d j ltac:(lia) ltac:(lia)) as Hb. set (pkt := data_packet d j). assert (Hn : zlen pkt = 4 + zlen (block_at d j)) by (unfold pkt, data_packet; llia).
  unfold tftp_accept. rewrite (proj2 (Z.ltb_ge _ 4)) by lia.
  assert (R0 : rd pkt 0 = Some 0) by reflexivity. assert (R1 : rd pkt 1 = Some 3) by reflexivity.
  assert (R2 : rd pkt 2 = Some (u8 (Z.shiftr j 8))) by reflexivity. assert (R3 : rd pkt 3 = Some (u8 j)) by reflexivity.
  rewrite R0, R1, R2, R3. cbn [mbind option_bind Z.eqb negb Pos.eqb c_block c_got c_tid orb]. rewrite be16_word, Z.eqb_refl by lia. cbn [negb].
  assert (Etid : (if j =? 1 then sport else tid) = sport) by (destruct Ht as [->| ->]; [done|by destruct (j =? 1)]). rewrite Etid.
  assert (Eok : (negb (j =? 1) && negb (sport =? tid))%bool = false) by (destruct Ht as [->| ->]; [done|rewrite Z.eqb_refl; apply andb_false_r]). rewrite Eok.
  rewrite length_take. rewrite (proj2 (Z.ltb_ge cap _)) by lia. replace (zlen pkt - 4) with (zlen (block_at d j)) by lia.
  assert (Es : slice pkt 4 (zlen (block_at d j)) = Some (block_at d j)).
  { unfold pkt, data_packet. rewrite <- (app_nil_r (block_at d j)) at 1. apply (slice_mid [0; 3; u8 (Z.shiftr j 8); u8 j]). done. }
  rewrite Es. cbn [mbind option_bind]. rewrite take_block by lia. unfold DATA_MAX.
  destruct (Z.leb_spec j q); [rewrite (proj2 (Z.ltb_ge _ 512)) by lia; by rewrite u16_small by lia|by rewrite (proj2 (Z.ltb_lt _ 512)) by lia].
Qed.

(** The server on the acknowledgement of its current block. *)
Lemma serve_ack s f i src cport j : rd (default [] (s_file s)) i = Some f -> file_ok f -> 1 <= j <= blocks_of (len f) ->
  s_xfer s = Xfer true i src cport j ->
  let ack := [0; 4; u8 (Z.shiftr j 8); u8 j] in
  tftp_serve s ack (zlen ack) src cport =
    if j =? blocks_of (len f) then Some (set_xfer s (Xfer false i src cport j), None)
    else Some (set_xfer s (Xfer true i src cport (j + 1)), Some (data_packet (contents f) (j + 1))).
Proof.
  intros Hf Hok Hj Hx. cbv zeta. assert (Hm : blocks_of (len f) <= 128) by (destruct Hok as (buf & _ & Hl & Hm); unfold blocks_of, DATA_MAX; mlia).
  unfold tftp_serve. set (ack := [0; 4; u8 (Z.shiftr j 8); u8 j]). change (zlen ack <? 4) with false. cbv iota.
  assert (R0 : rd ack 0 = Some 0) by reflexivity. assert (R1 : rd ack 1 = Some 4) by reflexivity.
  assert (R2 : rd ack 2 = Some (u8 (Z.shiftr j 8))) by reflexivity. assert (R3 : rd ack 3 = Some (u8 j)) by reflexivity.
  rewrite R0, R1, R2, R3. cbn [mbind option_bind Z.eqb negb Pos.eqb]. rewrite be16_word by lia. rewrite Hx. cbn [live addr port block fi negb orb].
  rewrite !Z.eqb_refl. cbn [negb orb]. rewrite Hf. cbn [mbind option_bind].
  destruct (Z.eqb_spec j (blocks_of (len f))) as [->|Hne]; [by rewrite Z.leb_refl|]. rewrite (proj2 (Z.leb_gt _ _)) by lia.
  rewrite u16_small by lia. rewrite send_block_packet by (done || lia). done.
Qed.

Lemma serve_file_kept s x : s_file (set_xfer s x) = s_file s.
Proof. reflexivity. Qed.

Lemma exchange_eq k s c pkt cap src cport sport : exchange (S k) s c pkt cap src cport sport =
  match tftp_accept cap c pkt (zlen pkt) sport with
  | Some (CDone c' ack) => match tftp_serve s ack (zlen ack) src cport with Some (s', None) => Some (c_got c', s') | _ => None end
  | Some (CAck c' ack) => match tftp_serve s ack (zlen ack) src cport with Some (s', Some pkt') => exchange k s' c' pkt' cap src cport sport | _ => None end
  | _ => None
  end.
Proof. reflexivity. Qed.

(** From block [j] on, the rest of the blocks is enough. *)
Lemma exchange_from k : forall s f i src cport sport cap tid j, rd (default [] (s_file s)) i = Some f -> file_ok f -> len f <= cap ->
  1 <= j -> j + Z.of_nat k = blocks_of (len f) -> s_xfer s = Xfer true i src cport j -> j = 1 \/ tid = sport ->
  exchange (S k) s (Client (take (Z.to_nat (512 * (j - 1))) (contents f)) j tid) (data_packet (contents f) j) cap src cport sport
  = Some (contents f, set_xfer s (Xfer false i src cport (blocks_of (len f)))).
Proof.
  induction k as [|k IH]; intros s f i src cport sport cap tid j Hf Hok Hc Hj Hk Hx Ht; rewrite exchange_eq.
  all: pose proof (contents_length f Hok) as Hlen; assert (Hm : len f < 65536) by (destruct Hok as (? & _ & _ & ?); done).
  all: assert (Hb : blocks_of (len f) = zlen (contents f) / 512 + 1) by (rewrite Hlen; reflexivity).
  all: rewrite (accept_block (contents f) j cap tid sport) by (done || lia).
  - rewrite (proj2 (Z.leb_gt _ _)) by lia. rewrite (serve_ack s f i) by (done || lia). rewrite (proj2 (Z.eqb_eq _ _)) by lia.
    cbn [c_got]. rewrite take_ge by (assert (zlen (contents f) < 512 * j) by mlia; lia). replace j with (blocks_of (len f)) by lia. done.
  - rewrite (proj2 (Z.leb_le _ _)) by lia. rewrite (serve_ack s f i) by (done || lia). rewrite (proj2 (Z.eqb_neq _ _)) by lia.
    replace (512 * j) with (512 * (j + 1 - 1)) by lia. rewrite (IH _ f i) by (done || lia || by right). done.
Qed.

Lemma req_name_copy nm rest : no_nul nm -> req_name (Z.to_nat (NAME_MAX - 1)) (copy_name nm ++ 0 :: rest) = copy_name nm.
Proof.
  unfold copy_name. change (Z.to_nat (NAME_MAX - 1)) with 39%nat. generalize 39%nat. intros k Hn. revert nm Hn.
  induction k as [|k IH]; intros nm Hn; [by destruct nm|]. destruct Hn as [|c nm Hc Hn]; [done|]. cbn [take app req_name].
  rewrite (proj2 (Z.eqb_neq _ _)) by done. by rewrite IH.
Qed.

Lemma find_file_spec fs nm : forall i0 i, find_file i0 fs nm = Some i -> i0 <= i /\ exists f, rd fs (i - i0) = Some f.
Proof.
  induction fs as [|f fs IH]; intros i0 i; cbn [find_file]; [done|]. destruct (_ && _)%bool; [intros [= <-]; split; [lia|]; exists f; by rewrite Z.sub_diag|].
  intros H. destruct (IH _ _ H) as (Hi & f' & Hf). split; [lia|]. exists f'. unfold rd in *. destruct (Z.ltb_spec (i - (i0 + 1)) 0); [lia|].
  rewrite (proj2 (Z.ltb_ge _ _)) by lia. rewrite <- Hf. replace (Z.to_nat (i - i0)) with (S (Z.to_nat (i - (i0 + 1)))) by lia. done.
Qed.

(** C32: a client that asks for a file the server holds and has room for it
    gets exactly the file's bytes: the request selects the first file of that
    (39-byte) name, each acknowledgement draws the next block, the transfer is
    over after [len / 512 + 1] blocks -- an empty last one when the length is a
    multiple of 512 -- and the last acknowledgement ends the server's transfer. *)
Theorem tftp_transfer s fs nm i f src cport sport tid cap : s_file s = Some fs -> no_nul nm ->
  find_file 0 fs (copy_name nm) = Some i -> rd fs i = Some f -> file_ok f -> len f <= cap ->
  exists s' pkt, tftp_serve s (mk_request nm) (zlen (mk_request nm)) src cport = Some (s', Some pkt)
    /\ exchange (Z.to_nat (blocks_of (len f))) s' (Client [] 1 tid) pkt cap src cport sport
       = Some (contents f, set_xfer s (Xfer false i src cport (blocks_of (len f)))).
Proof.
  intros Hs Hn Hi Hf Hok Hc. assert (Hb : 1 <= blocks_of (len f)) by (destruct Hok as (? & _ & ? & _); unfold blocks_of, DATA_MAX; mlia).
  exists (set_xfer s (Xfer true i src cport 1)), (data_packet (contents f) 1). split.
  - unfold tftp_serve. set (q := mk_request nm). assert (Hq : zlen q = 9 + zlen (copy_name nm)) by (unfold q, mk_request; llia).
    rewrite (proj2 (Z.ltb_ge _ 4)) by lia. assert (R0 : rd q 0 = Some 0) by reflexivity. assert (R1 : rd q 1 = Some 1) by reflexivity.
    destruct (rd_is_Some q 2) as [b2 ->]; [lia|]. destruct (rd_is_Some q 3) as [b3 ->]; [lia|]. rewrite R0, R1. cbn [mbind option_bind Z.eqb negb Pos.eqb].
    assert (Es : slice q 2 (zlen q - 2) = Some (copy_name nm ++ [0; 111; 99; 116; 101; 116; 0])).
    { replace q with ([0; 1] ++ (copy_name nm ++ [0; 111; 99; 116; 101; 116; 0]) ++ []) by (rewrite app_nil_r; reflexivity).
      apply (slice_mid [0; 1]). rewrite app_nil_r. llia. }
    rewrite Es. cbn [mbind option_bind]. rewrite req_name_copy by done. unfold files. rewrite Hs. cbn [mbind option_bind].
    rewrite Hi, Hf. cbn [mbind option_bind]. rewrite send_block_packet by (done || lia). done.
  - replace (Z.to_nat (blocks_of (len f))) with (S (Z.to_nat (blocks_of (len f) - 1))) by lia.
    replace [] with (take (Z.to_nat (512 * (1 - 1))) (contents f)) by reflexivity.
    rewrite (exchange_from _ _ f i) by (done || (cbn [s_file set_xfer]; by rewrite Hs) || lia || by left). done.
Qed.

Definition demo_file : file := File true [98; 111; 111; 116] (Some (repeat 7 1024)) 2048 1024.
Definition demo_tftp : tftp := St true (Some [no_file; demo_file; no_file; no_file]) 4 1 no_xfer 3 49700.

(** A file of exactly two blocks needs a third, empty one. *)
Example tftp_transfer_witness : exists s' pkt,
  tftp_serve demo_tftp (mk_request [98; 111; 111; 116]) (zlen (mk_request [98; 111; 111; 116])) 1 49701 = Some (s', Some pkt)
  /\ exchange 3 s' (Client [] 1 69) pkt 2048 1 49701 5000 = Some (repeat 7 1024, set_xfer demo_tftp (Xfer false 1 1 49701 3)).
Proof.
  refine (tftp_transfer demo_tftp [no_file; demo_file; no_file; no_file] [98; 111; 111; 116] 1 demo_file 1 49701 5000 69 2048 eq_refl _ eq_refl eq_refl _ _).
  - repeat constructor; done.
  - exists (repeat 7 1024). split; [reflexivity|]. split; [split; [discriminate|vm_compute; discriminate]|reflexivity].
  - vm_compute. discriminate.
Defined.
End TftpSpec.
