(* ===== verification/Dhcp.v ===== *)
(** * The dhcp card: the client's DORA exchange and the in-process OFFER server

    src/.../metal/net/dhcp/__impl__.c.  As in Dns, [None] is an access outside a
    buffer.  The two stack arrays of the card, the request being built and the
    reply being received, are arguments ([q], [buf]): they come in with whatever
    the stack held.  The stack, the drivers and the resolver are an interface
    ([UdpOps] and [DhcpOps]), and [pm_util_limits_grow] is an argument. *)
From S2P Require Import Prelude Udp.

(** What the client needs beside sockets: pinning a socket to an interface,
    the interface itself, the gateway and the resolver it configures, and the
    driver's identity and hardware address. *)
Class DhcpOps (N : Type) `{!UdpOps N} := {
  ip_bind_l2 : N -> Z -> Z -> N * Z;
  ip_l2_attach : N -> Z -> N * Z;
  ip_if_up_mask : N -> Z -> Z -> Z -> N * Z;
  ip_gw_set : N -> Z -> N * Z;
  dns_server_set : N -> Z -> N;
  net_dt_id : N -> Z -> Z;
  net_mac : N -> Z -> list Z;
}.

(** The driver fills six bytes. *)
Class DhcpLaws (N : Type) `{DhcpOps N} : Prop := {
  net_mac_six net h : zlen (net_mac net h) = 6 /\ bytes_ok (net_mac net h);
}.

Module Dhcp.

Definition BOOT_MIN := 240.
Definition COOKIE := 1669485411.
Definition BCAST := 4294967295.
Definition DHCP_SERVER_PORT := 67.
Definition DHCP_CLIENT_PORT := 68.
Definition DHCP_DISCOVER := 1.
Definition DHCP_OFFER := 2.
Definition DHCP_REQUEST := 3.
Definition DHCP_ACK := 5.
Definition DHCP_NAK := 6.
Definition DHCP_WAIT_DEFAULT_US := 2000000.
Definition DHCP_SPINS := 200000.
Definition DHCP_HELD_DEFAULT := 8.
Definition DHCP_ASK_NONE := 0.
Definition DHCP_ASK_SILENT := 1.
Definition DHCP_ASK_LEASED := 2.
(** [sizeof buf], and [sizeof q] in the client. *)
Definition BUF_LEN := 548.
Definition REQ_LEN := BOOT_MIN + 32.

(** ** State *)

Record lease := Lease { addr_be : Z; mask_be : Z; gw_be : Z; dns_be : Z; server_be : Z; lease_sec : Z }.
Definition no_lease : lease := Lease 0 0 0 0 0 0.
Record dhcp_held := DhcpHeld { d_h : Z; d_lease : lease }.
Record dhcp_ask := DhcpAsk { k_h : Z; k_how : Z }.

(** [s_held_cap] and [s_ask_cap] are the lengths of the tables. *)
Record dhcp := St { s_arena : bool; s_fd : Z; s_offer_be : Z; s_xid : Z; s_wait_us : Z;
  s_held : option (list dhcp_held); s_held_used : Z; s_ask : option (list dhcp_ask) }.

Definition set_fd (s : dhcp) (fd : Z) : dhcp :=
  St (s_arena s) fd (s_offer_be s) (s_xid s) (s_wait_us s) (s_held s) (s_held_used s) (s_ask s).
Definition with_xid (s : dhcp) (x : Z) : dhcp :=
  St (s_arena s) (s_fd s) (s_offer_be s) x (s_wait_us s) (s_held s) (s_held_used s) (s_ask s).
Definition set_held (s : dhcp) (t : list dhcp_held) (used : Z) : dhcp :=
  St (s_arena s) (s_fd s) (s_offer_be s) (s_xid s) (s_wait_us s) (Some t) used (s_ask s).
Definition set_ask (s : dhcp) (t : list dhcp_ask) : dhcp :=
  St (s_arena s) (s_fd s) (s_offer_be s) (s_xid s) (s_wait_us s) (s_held s) (s_held_used s) (Some t).

(** ** The two tables *)

(** The first index from [i] on whose entry passes [f]. *)
Fixpoint first_at {A} (f : A -> bool) (i : nat) (l : list A) : option nat :=
  match l with
  | [] => None
  | x :: t => if f x then Some i else first_at f (S i) t
  end.

Definition ask_slot (h : Z) (e : dhcp_ask) : bool := (k_how e =? DHCP_ASK_NONE) || (k_h e =? h).
Definition ask_note (grow : list dhcp_ask -> option (list dhcp_ask)) (s : dhcp) (h how : Z) : option dhcp :=
  match s_ask s with
  | None => Some s
  | Some t =>
      match first_at (ask_slot h) 0 t with
      | Some i => t' ← wr t (Z.of_nat i) (DhcpAsk h how); Some (set_ask s t')
      | None => match grow t with
                | None => Some s
                | Some g => g' ← wr g (zlen g - 1) (DhcpAsk h how); Some (set_ask s g')
                end
      end
  end.

Definition held_at (h : Z) (e : dhcp_held) : bool := (d_h e =? h) && negb (addr_be (d_lease e) =? 0).
Definition held (s : dhcp) (h : Z) : option lease :=
  t ← s_held s; i ← first_at (held_at h) 0 t; e ← t !! i; Some (d_lease e).

Definition hold_slot (h : Z) (e : dhcp_held) : bool := (addr_be (d_lease e) =? 0) || (d_h e =? h).
Definition hold (grow : list dhcp_held -> option (list dhcp_held)) (s : dhcp) (h : Z) (l : lease) : option dhcp :=
  match s_held s with
  | None => Some s
  | Some t =>
      match first_at (hold_slot h) 0 t with
      | Some i =>
          t' ← wr t (Z.of_nat i) (DhcpHeld h l);
          Some (set_held s t' (if addr_be l =? 0 then s_held_used s else u32 (s_held_used s + 1)))
      | None => match grow t with
                | None => Some s
                | Some g => g' ← wr g (zlen g - 1) (DhcpHeld h l); Some (set_held s g' (u32 (s_held_used s + 1)))
                end
      end
  end.

(** ** Options *)

Definition put_be32 (p : list Z) (at_ v : Z) : option (list Z) :=
  blit p at_ [u8 (Z.shiftr v 24); u8 (Z.shiftr v 16); u8 (Z.shiftr v 8); u8 v].
Definition get_be32 (p : list Z) (at_ : Z) : option Z :=
  a ← rd p at_; b ← rd p (at_ + 1); c ← rd p (at_ + 2); d ← rd p (at_ + 3);
  Some (Z.lor (Z.lor (Z.lor (Z.shiftl a 24) (Z.shiftl b 16)) (Z.shiftl c 8)) d).

(** The [while] loops from offset [i]; every turn advances, so [n] turns are
    enough, and [i] stays below [n + 257], far from the width of [uint32_t]. *)
Fixpoint opt_type_from (fuel : nat) (p : list Z) (n i : Z) : option Z :=
  match fuel with
  | O => None
  | S f =>
      if n <? i + 2 then Some 0 else
      t ← rd p i;
      if t =? 255 then Some 0 else
      if t =? 0 then opt_type_from f p n (i + 1) else
      l ← rd p (i + 1);
      if n <? i + 2 + l then Some 0 else
      if (t =? 53) && (1 <=? l) then rd p (i + 2) else opt_type_from f p n (i + 2 + l)
  end.
Definition opt_type (p : list Z) (n : Z) : option Z := opt_type_from (S (Z.to_nat n)) p n BOOT_MIN.

Fixpoint opt_u32_from (fuel : nat) (p : list Z) (n want i : Z) : option Z :=
  match fuel with
  | O => None
  | S f =>
      if n <? i + 2 then Some 0 else
      t ← rd p i;
      if t =? 255 then Some 0 else
      if t =? 0 then opt_u32_from f p n want (i + 1) else
      l ← rd p (i + 1);
      if n <? i + 2 + l then Some 0 else
      if (t =? want) && (l =? 4) then get_be32 p (i + 2) else opt_u32_from f p n want (i + 2 + l)
  end.
Definition opt_u32 (p : list Z) (n want : Z) : option Z := opt_u32_from (S (Z.to_nat n)) p n want BOOT_MIN.

(** The writers return the buffer and the offset behind what they wrote. *)
Definition boot_head (q : list Z) (xid : Z) (mac : list Z) (ciaddr_be : Z) : option (list Z * Z) :=
  q ← blit q 0 (replicate (Z.to_nat BOOT_MIN) 0);
  q ← wr q 0 1; q ← wr q 1 1; q ← wr q 2 6;
  q ← put_be32 q 4 xid;
  q ← wr q 10 128;
  q ← put_be32 q 12 ciaddr_be;
  q ← blit q 28 mac;
  q ← put_be32 q 236 COOKIE;
  Some (q, BOOT_MIN).
Definition opt_msg (q : list Z) (at_ type : Z) : option (list Z * Z) :=
  q ← wr q at_ 53; q ← wr q (at_ + 1) 1; q ← wr q (at_ + 2) type; Some (q, at_ + 3).
Definition opt_addr (q : list Z) (at_ code addr : Z) : option (list Z * Z) :=
  q ← wr q at_ code; q ← wr q (at_ + 1) 4; q ← put_be32 q (at_ + 2) addr; Some (q, at_ + 6).
Definition opt_params (q : list Z) (at_ : Z) : option (list Z * Z) :=
  q ← wr q at_ 55; q ← wr q (at_ + 1) 4; q ← wr q (at_ + 2) 1; q ← wr q (at_ + 3) 3; q ← wr q (at_ + 4) 6; q ← wr q (at_ + 5) 51;
  Some (q, at_ + 6).
(** [q[at++] = 255]. *)
Definition opt_end (q : list Z) (at_ : Z) : option (list Z * Z) := q ← wr q at_ 255; Some (q, at_ + 1).

(** The client's two requests, built in [q]. *)
Definition discover_msg (q : list Z) (xid : Z) (mac : list Z) : option (list Z * Z) :=
  '(q, at_) ← boot_head q xid mac 0;
  '(q, at_) ← opt_msg q at_ DHCP_DISCOVER;
  '(q, at_) ← opt_params q at_;
  opt_end q at_.
Definition request_msg (q : list Z) (xid : Z) (mac : list Z) (offer server : Z) : option (list Z * Z) :=
  '(q, at_) ← boot_head q xid mac 0;
  '(q, at_) ← opt_msg q at_ DHCP_REQUEST;
  '(q, at_) ← opt_addr q at_ 50 offer;
  '(q, at_) ← (if server =? 0 then Some (q, at_) else opt_addr q at_ 54 server);
  '(q, at_) ← opt_params q at_;
  opt_end q at_.

(** The loopback client's query, and the server's answer made in the query's
    buffer. *)
Definition boot_query (xid : Z) : option (list Z) :=
  let q := replicate (Z.to_nat (BOOT_MIN + 4)) 0 in
  q ← wr q 0 1; q ← wr q 1 1; q ← wr q 2 6;
  q ← put_be32 q 4 xid; q ← put_be32 q 236 COOKIE;
  q ← wr q BOOT_MIN 53; q ← wr q (BOOT_MIN + 1) 1; q ← wr q (BOOT_MIN + 2) 1;
  wr q (BOOT_MIN + 3) 255.
Definition mk_offer (buf : list Z) (offer : Z) : option (list Z) :=
  buf ← wr buf 0 2;
  buf ← put_be32 buf 16 offer;
  buf ← wr buf BOOT_MIN 53; buf ← wr buf (BOOT_MIN + 1) 1; buf ← wr buf (BOOT_MIN + 2) 2;
  wr buf (BOOT_MIN + 3) 255.

(** What [await_reply] makes of [n] received bytes: [Some None] to go on. *)
Definition judge (buf : list Z) (n xid want : Z) : option (option Z) :=
  if n <? BOOT_MIN then Some None else
  b0 ← rd buf 0;
  if negb (b0 =? 2) then Some None else
  x ← get_be32 buf 4;
  if negb (x =? xid) then Some None else
  c ← get_be32 buf 236;
  if negb (c =? COOKIE) then Some None else
  t ← opt_type buf n;
  Some (if t =? want then Some n else if t =? DHCP_NAK then Some (-1) else None).

(** The fields of an acknowledgement; [server] is the one that offered. *)
Definition read_ack (buf : list Z) (n server : Z) : option lease :=
  a ← get_be32 buf 16;
  m ← opt_u32 buf n 1; g ← opt_u32 buf n 3; d ← opt_u32 buf n 6; v ← opt_u32 buf n 54; t ← opt_u32 buf n 51;
  Some (Lease a m g d (if v =? 0 then server else v) t).

(** A server that sends no mask leaves the classful one. *)
Definition class_mask (l : lease) : Z :=
  if negb (mask_be l =? 0) then mask_be l else
  let class_byte := u8 (Z.shiftr (addr_be l) 24) in
  if (1 <=? class_byte) && (class_byte <=? 127) then 4278190080
  else if (128 <=? class_byte) && (class_byte <=? 191) then 4294901760
  else 4294967040.

Section net.
Context {N : Type} `{DO : DhcpOps N}.
Context (grow_held : list dhcp_held -> option (list dhcp_held)) (grow_ask : list dhcp_ask -> option (list dhcp_ask)).

(** [recvfrom] into [buf]: the bytes beyond the datagram stay as they were. *)
Definition recv (net : N) (fd : Z) (buf : list Z) : option (N * Z * list Z * dgram) :=
  let '(net, n, d) := ip_recvfrom net fd BUF_LEN in
  buf ← (if 0 <? n then blit buf 0 (d_bytes d) else Some buf);
  Some (net, n, buf, d).

(** [held] and [ask] are the two allocations, with what the memory held. *)
Definition pm_metal_net_dhcp_init (arena : bool) (held : option (list dhcp_held)) (ask : option (list dhcp_ask)) (s : dhcp) : dhcp * Z :=
  if negb arena then (s, -1) else
  let n := Z.to_nat DHCP_HELD_DEFAULT in
  match held, ask with
  | Some _, Some _ => (St true (-1) 167772162 (s_xid s) DHCP_WAIT_DEFAULT_US (Some (replicate n (DhcpHeld 0 no_lease))) 0 (Some (replicate n (DhcpAsk 0 0))), 0)
  | _, _ => (St true (-1) 167772162 (s_xid s) DHCP_WAIT_DEFAULT_US held 0 ask, -1)
  end.

Definition pm_metal_net_dhcp_set_wait_us (s : dhcp) (us : Z) : dhcp :=
  St (s_arena s) (s_fd s) (s_offer_be s) (s_xid s) (if us =? 0 then DHCP_WAIT_DEFAULT_US else us) (s_held s) (s_held_used s) (s_ask s).

Definition pm_metal_net_dhcp_deinit (s : dhcp) (net : N) : dhcp * N :=
  (St false (if 0 <=? s_fd s then -1 else s_fd s) (s_offer_be s) (s_xid s) (s_wait_us s) None 0 None,
   if 0 <=? s_fd s then ip_close net (s_fd s) else net).

Definition pm_metal_net_dhcp_set_offer (s : dhcp) (addr : Z) : dhcp * Z :=
  if addr =? 0 then (s, -1) else
  (St (s_arena s) (s_fd s) addr (s_xid s) (s_wait_us s) (s_held s) (s_held_used s) (s_ask s), 0).

Definition pm_metal_net_dhcp_listen (s : dhcp) (net : N) (addr port : Z) : dhcp * N * Z :=
  if negb (s_arena s) then (s, net, -1) else
  if 0 <=? s_fd s then (s, net, 0) else
  let '(net, fd) := ip_socket net in
  if fd <? 0 then (set_fd s fd, net, -1) else
  let '(net, r) := ip_bind net fd addr port in
  if negb (r =? 0) then (set_fd s (-1), ip_close net fd, -1) else (set_fd s fd, net, 0).

(** ** The in-process server *)

Definition pm_metal_net_dhcp_poll (s : dhcp) (net : N) (buf : list Z) : option N :=
  if s_fd s <? 0 then Some net else
  '(net, n, buf, d) ← recv net (s_fd s) buf;
  if n <? BOOT_MIN then Some net else
  b0 ← rd buf 0;
  if negb (b0 =? 1) then Some net else
  t ← opt_type buf n;
  if negb (t =? 1) then Some net else
  buf ← mk_offer buf (s_offer_be s);
  out ← slice buf 0 (BOOT_MIN + 4);
  Some (ip_sendto net (s_fd s) out (d_addr d) (d_port d)).1.

(** [dbuf] is the buffer of the poll inside; [None] in the result is -1. *)
Definition pm_metal_net_dhcp_discover (s : dhcp) (net : N) (server port : Z) (yiaddr : bool) (buf dbuf : list Z) : option (dhcp * N * option Z) :=
  if negb yiaddr || negb (s_arena s) then Some (s, net, None) else
  let '(net, fd) := ip_socket net in
  if fd <? 0 then Some (s, net, None) else
  let '(net, r) := ip_bind net fd 2130706433 68 in
  if negb (r =? 0) then Some (s, ip_close net fd, None) else
  let xid := s_xid s in
  let s := with_xid s (u32 (xid + 1)) in
  q ← boot_query xid;
  let '(net, r) := ip_sendto net fd q server port in
  if r <? 0 then Some (s, ip_close net fd, None) else
  net ← pm_metal_net_dhcp_poll s net dbuf;
  '(net, n, buf, _) ← recv net fd buf;
  let net := ip_close net fd in
  if n <? BOOT_MIN then Some (s, net, None) else
  b0 ← rd buf 0;
  if negb (b0 =? 2) then Some (s, net, None) else
  x ← get_be32 buf 4;
  if negb (x =? xid) then Some (s, net, None) else
  t ← opt_type buf n;
  if negb (t =? 2) then Some (s, net, None) else
  a ← get_be32 buf 16;
  Some (s, net, Some a).

(** ** The client *)

(** The [for] loop of [await_reply] with [fuel] spins left: the status and [buf]. *)
Fixpoint await_from (fuel : nat) (net : N) (fd xid want deadline : Z) (buf : list Z) : option (N * Z * list Z) :=
  match fuel with
  | O => Some (net, -1, buf)
  | S f =>
      '(net, n, buf, _) ← recv net fd buf;
      v ← judge buf n xid want;
      match v with
      | Some r => Some (net, r, buf)
      | None =>
          let '(net, now) := mono_us net in
          if deadline <=? now then Some (net, -1, buf)
          else await_from f (ip_pump net) fd xid want deadline buf
      end
  end.
Definition await_reply (s : dhcp) (net : N) (fd xid want : Z) (buf : list Z) : option (N * Z * list Z) :=
  let '(net, now) := mono_us net in
  await_from (Z.to_nat DHCP_SPINS) net fd xid want (u64 (now + s_wait_us s)) buf.

(** From the open socket on: the address [offer]ed and the server, or -1. *)
Definition discover_leg (s : dhcp) (net : N) (fd xid : Z) (mac q buf : list Z) : option (N * list Z * list Z * option (Z * Z)) :=
  '(q, at_) ← discover_msg q xid mac;
  pkt ← slice q 0 at_;
  let '(net, r) := ip_sendto net fd pkt BCAST DHCP_SERVER_PORT in
  if r <? 0 then Some (net, q, buf, None) else
  '(net, n, buf) ← await_reply s net fd xid DHCP_OFFER buf;
  if n <? 0 then Some (net, q, buf, None) else
  offer ← get_be32 buf 16;
  server ← opt_u32 buf n 54;
  if offer =? 0 then Some (net, q, buf, None) else Some (net, q, buf, Some (offer, server)).

(** The second leg: the datagram's bytes in [buf] and their number, or -1. *)
Definition request_leg (s : dhcp) (net : N) (fd xid : Z) (mac : list Z) (offer server : Z) (q buf : list Z) : option (N * Z * list Z) :=
  '(q, at_) ← request_msg q xid mac offer server;
  pkt ← slice q 0 at_;
  let '(net, r) := ip_sendto net fd pkt BCAST DHCP_SERVER_PORT in
  if r <? 0 then Some (net, -1, buf) else
  await_reply s net fd xid DHCP_ACK buf.

(** [out] is what [*out] holds, before and after; [None] a NULL pointer. *)
Definition pm_metal_net_dhcp_lease (s : dhcp) (net : N) (h : Z) (out : option lease) (q buf : list Z) : option (dhcp * N * option lease * Z) :=
  match out with
  | None => Some (s, net, None, -1)
  | Some _ =>
      if negb (s_arena s) || (net_dt_id net h <? 0) then Some (s, net, out, -1) else
      let out := Some no_lease in
      let mac := net_mac net h in
      let '(net, r) := ip_l2_attach net h in
      if negb (r =? 0) then Some (s, net, out, -1) else
      let '(net, fd) := ip_socket net in
      if fd <? 0 then Some (s, net, out, -1) else
      let '(net, r) := ip_bind net fd 0 DHCP_CLIENT_PORT in
      if negb (r =? 0) then Some (s, ip_close net fd, out, -1) else
      let '(net, r) := ip_bind_l2 net fd h in
      if negb (r =? 0) then Some (s, ip_close net fd, out, -1) else
      let xid := u32 (s_xid s + 1) in
      let s := with_xid s xid in
      '(net, q, buf, o) ← discover_leg s net fd xid mac q buf;
      match o with
      | None => Some (s, ip_close net fd, out, -1)
      | Some (offer, server) =>
          '(net, n, buf) ← request_leg s net fd xid mac offer server q buf;
          let net := ip_close net fd in
          if n <? 0 then Some (s, net, out, -1) else
          l ← read_ack buf n server;
          Some (s, net, Some l, if addr_be l =? 0 then -1 else 0)
      end
  end.

(** [l0] is the uninitialised local [lease]; the last component is [*out]. *)
Definition pm_metal_net_dhcp_up (s : dhcp) (net : N) (h : Z) (out : option lease) (l0 : lease) (q buf : list Z) : option (dhcp * N * option lease * Z) :=
  '(s, net, l, r) ← pm_metal_net_dhcp_lease s net h (Some l0) q buf;
  if negb (r =? 0) then s ← ask_note grow_ask s h DHCP_ASK_SILENT; Some (s, net, out, -1) else
  let l := default l0 l in
  let '(net, r) := ip_if_up_mask net h (addr_be l) (class_mask l) in
  if negb (r =? 0) then Some (s, net, out, -1) else
  let '(net, r) := if gw_be l =? 0 then (net, 0) else ip_gw_set net (gw_be l) in
  if negb (r =? 0) then Some (s, net, out, -1) else
  let net := if dns_be l =? 0 then net else dns_server_set net (dns_be l) in
  s ← hold grow_held s h l;
  s ← ask_note grow_ask s h DHCP_ASK_LEASED;
  Some (s, net, (fun _ => l) <$> out, 0).

(** ** What the box can be asked *)

Definition pm_metal_net_dhcp_leased (s : dhcp) (h : Z) : Z := match held s h with Some _ => 1 | None => 0 end.
Definition asked_at (h : Z) (e : dhcp_ask) : bool := (k_h e =? h) && negb (k_how e =? DHCP_ASK_NONE).
Definition pm_metal_net_dhcp_asked (s : dhcp) (h : Z) : Z :=
  default DHCP_ASK_NONE (t ← s_ask s; i ← first_at (asked_at h) 0 t; e ← t !! i; Some (k_how e)).
Definition pm_metal_net_dhcp_leased_gw (s : dhcp) (h : Z) : Z := default 0 (gw_be <$> held s h).
Definition pm_metal_net_dhcp_leased_sec (s : dhcp) (h : Z) : Z := default 0 (lease_sec <$> held s h).
End net.
End Dhcp.
