(* ===== verification/DhcpSpec.v ===== *)
(** * What the dhcp card promises

    The option scans against a parser of option lists, the client against a
    reference that never sees a buffer, the exchange a granted lease comes from,
    and the client and the OFFER server run on concrete networks. *)
From S2P Require Import Prelude Udp Dhcp.

Module DhcpSpec.
Import Dhcp.

(** ** Words *)

Definition be (v : Z) : list Z := [u8 (Z.shiftr v 24); u8 (Z.shiftr v 16); u8 (Z.shiftr v 8); u8 v].

Lemma be_bytes v : bytes_ok (be v).
Proof. repeat constructor; apply u8_range. Qed.
#[local] Hint Resolve be_bytes : metal.

Lemma rd_mid0 {A} (a s c : list A) : 0 < zlen s -> rd (a ++ s ++ c) (zlen a) = rd s 0.
Proof. intros. rewrite <- (rd_mid a s c 0) by lia. f_equal. lia. Qed.

Lemma get_be32_at a v c : 0 <= v < 4294967296 -> get_be32 (a ++ be v ++ c) (zlen a) = Some v.
Proof.
  intros Hv. unfold get_be32. rewrite rd_mid0, !(rd_mid a (be v)) by (cbn; lia).
  change (rd (be v) 0) with (Some (u8 (Z.shiftr v 24))). change (rd (be v) 1) with (Some (u8 (Z.shiftr v 16))).
  change (rd (be v) 2) with (Some (u8 (Z.shiftr v 8))). change (rd (be v) 3) with (Some (u8 v)). by rewrite !some_bind, be32_read.
Qed.

Lemma rd_prefix {A} (d r : list A) i : i < zlen d -> rd (d ++ r) i = rd d i.
Proof. apply rd_app_l. Qed.

Lemma get_be32_prefix d r i : i + 4 <= zlen d -> get_be32 (d ++ r) i = get_be32 d i.
Proof. intros. unfold get_be32. by rewrite !rd_prefix by lia. Qed.

Lemma get_be32_total d i : 0 <= i -> i + 4 <= zlen d -> is_Some (get_be32 d i).
Proof.
  intros. unfold get_be32. destruct (rd_is_Some d i) as [? ->]; [lia|]. destruct (rd_is_Some d (i + 1)) as [? ->]; [lia|].
  destruct (rd_is_Some d (i + 2)) as [? ->]; [lia|]. destruct (rd_is_Some d (i + 3)) as [? ->]; [lia|]. done.
Qed.

(** ** Options as a list *)

(** The options of the bytes behind the cookie: code and body. *)
Fixpoint parse_opts (fuel : nat) (b : list Z) : list (Z * list Z) :=
  match fuel, b with
  | S f, c :: l :: t =>
      if c =? 255 then [] else if c =? 0 then parse_opts f (l :: t)
      else if zlen t <? l then [] else (c, take (Z.to_nat l) t) :: parse_opts f (drop (Z.to_nat l) t)
  | _, _ => []
  end.
Definition options (d : list Z) : list (Z * list Z) := parse_opts (length d) (drop (Z.to_nat BOOT_MIN) d).

(** The body of the first option whose code and length pass [hit]. *)
Fixpoint first_opt (hit : Z -> Z -> bool) (os : list (Z * list Z)) : option (list Z) :=
  match os with
  | [] => None
  | (c, b) :: t => if hit c (zlen b) then Some b else first_opt hit t
  end.

(** The message type, and the four-byte option of a code: 0 when there is none. *)
Definition is_type (t l : Z) : bool := (t =? 53) && (1 <=? l).
Definition is_u32 (want t l : Z) : bool := (t =? want) && (l =? 4).
Definition find_type (os : list (Z * list Z)) : Z := match first_opt is_type os with Some (x :: _) => x | _ => 0 end.
Definition find_u32 (want : Z) (os : list (Z * list Z)) : Z := match first_opt (is_u32 want) os with Some b => default 0 (get_be32 b 0) | None => 0 end.

(** The loop of both scans: the offset of the first body whose code and length
    pass [hit]. *)
Fixpoint opt_scan (hit : Z -> Z -> bool) (fuel : nat) (p : list Z) (n i : Z) : option (option Z) :=
  match fuel with
  | O => None
  | S f =>
      if n <? i + 2 then Some None else
      t ← rd p i;
      if t =? 255 then Some None else
      if t =? 0 then opt_scan hit f p n (i + 1) else
      l ← rd p (i + 1);
      if n <? i + 2 + l then Some None else
      if hit t l then Some (Some (i + 2)) else opt_scan hit f p n (i + 2 + l)
  end.

Lemma opt_type_scan fuel p n i :
  opt_type_from fuel p n i = (o ← opt_scan is_type fuel p n i; match o with None => Some 0 | Some j => rd p j end).
Proof.
  revert i. induction fuel as [|f IH]; intros i; cbn [opt_type_from opt_scan]; [done|].
  destruct (n <? i + 2); [done|]. destruct (rd p i) as [t|]; [|done]. cbn [mbind option_bind]. destruct (t =? 255); [done|]. destruct (t =? 0); [apply IH|].
  destruct (rd p (i + 1)) as [l|]; [|done]. cbn [mbind option_bind]. destruct (n <? i + 2 + l); [done|]. unfold is_type, is_u32 in *. destruct (_ && _); [done|apply IH].
Qed.

Lemma opt_u32_scan fuel p n want i :
  opt_u32_from fuel p n want i = (o ← opt_scan (is_u32 want) fuel p n i; match o with None => Some 0 | Some j => get_be32 p j end).
Proof.
  revert i. induction fuel as [|f IH]; intros i; cbn [opt_u32_from opt_scan]; [done|].
  destruct (n <? i + 2); [done|]. destruct (rd p i) as [t|]; [|done]. cbn [mbind option_bind]. destruct (t =? 255); [done|]. destruct (t =? 0); [apply IH|].
  destruct (rd p (i + 1)) as [l|]; [|done]. cbn [mbind option_bind]. destruct (n <? i + 2 + l); [done|]. unfold is_type, is_u32 in *. destruct (_ && _); [done|apply IH].
Qed.

(** The scan of the bytes [s] that stand behind [a] in the first [n] bytes of a
    buffer stops in bounds, at the body of the first option that passes. *)
Lemma opt_scan_parse hit rest : forall fuel fuel' (a s : list Z), bytes_ok s -> zlen s < Z.of_nat fuel -> zlen s <= Z.of_nat fuel' ->
  match first_opt hit (parse_opts fuel' s) with
  | None => opt_scan hit fuel (a ++ s ++ rest) (zlen a + zlen s) (zlen a) = Some None
  | Some b => (exists c, hit c (zlen b) = true) /\ exists a' z, a ++ s = a' ++ b ++ z /\ opt_scan hit fuel (a ++ s ++ rest) (zlen a + zlen s) (zlen a) = Some (Some (zlen a'))
  end.
Proof.
  induction fuel as [|f IH]; intros fuel' a s Hs Hf Hf'; [lia|]. cbn [opt_scan].
  destruct s as [|c [|l t]]; [destruct fuel'; cbn; by rewrite (proj2 (Z.ltb_lt _ _)) by lia..|].
  destruct fuel' as [|f']; [llia|]. apply Forall_cons in Hs as [Hc Hs]. pose proof Hs as Hs1. apply Forall_cons in Hs as [Hl Ht].
  rewrite (proj2 (Z.ltb_ge _ _)) by llia. rewrite rd_mid0 by llia.
  change (rd (c :: l :: t) 0) with (Some c). rewrite some_bind. cbn [parse_opts]. destruct (Z.eqb_spec c 255); [done|]. destruct (Z.eqb_spec c 0) as [->|].
  { specialize (IH f' (a ++ [0]) (l :: t) Hs1). rewrite <- !(assoc_L (++)) in IH. cbn [app] in IH.
    replace (zlen (a ++ [0])) with (zlen a + 1) in IH by llia. replace (zlen a + 1 + zlen (l :: t)) with (zlen a + zlen (0 :: l :: t)) in IH by llia.
    apply IH; llia. }
  rewrite rd_mid by llia. change (rd (c :: l :: t) 1) with (Some l). rewrite some_bind. unfold is_byte in *.
  destruct (Z.ltb_spec (zlen t) l); [by rewrite (proj2 (Z.ltb_lt _ _)) by llia|]. rewrite (proj2 (Z.ltb_ge (zlen a + zlen (c :: l :: t)) _)) by llia.
  destruct (split_at t l) as (b & t' & -> & <-); [lia|]. rewrite Nat2Z.id, take_app_length, drop_app_length. cbn [first_opt].
  destruct (hit c (zlen b)) eqn:Eh.
  - split; [by exists c|]. exists (a ++ [c; zlen b]), t'. split; [by rewrite <- !(assoc_L (++))|]. do 2 f_equal. llia.
  - specialize (IH f' (a ++ c :: zlen b :: b) t'). rewrite <- !(assoc_L (++)) in IH. cbn [app] in IH. cbn [app]. rewrite <- !(assoc_L (++)).
    replace (zlen (a ++ c :: zlen b :: b)) with (zlen a + 2 + zlen b) in IH by llia.
    replace (zlen a + 2 + zlen b + zlen t') with (zlen a + zlen (c :: zlen b :: b ++ t')) in IH by llia.
    apply Forall_app in Ht as [_ Ht']. specialize (IH Ht' ltac:(llia) ltac:(llia)).
    destruct (first_opt hit (parse_opts f' t')) as [b'|]; exact IH.
Qed.

Lemma rd_inner {A} (a b z rest : list A) i : 0 <= i < zlen b -> rd ((a ++ b ++ z) ++ rest) (zlen a + i) = rd b i.
Proof. intros. rewrite <- !(assoc_L (++)). by apply rd_mid. Qed.

(** Both scans of [n] received bytes read those bytes only, and agree with the
    parser on them. *)
Lemma opt_scan_options hit d rest : bytes_ok d ->
  match first_opt hit (options d) with
  | None => opt_scan hit (S (Z.to_nat (zlen d))) (d ++ rest) (zlen d) BOOT_MIN = Some None
  | Some b => (exists c, hit c (zlen b) = true) /\ exists a z, d = a ++ b ++ z /\ opt_scan hit (S (Z.to_nat (zlen d))) (d ++ rest) (zlen d) BOOT_MIN = Some (Some (zlen a))
  end.
Proof.
  intros Hd. destruct (Z.leb_spec BOOT_MIN (zlen d)) as [Hl|Hl]; unfold BOOT_MIN in *.
  - unfold options, BOOT_MIN. assert (Hs : 0 <= 240 <= zlen d) by lia. destruct (split_at d 240 Hs) as (a & s & -> & Ha).
    replace (Z.to_nat 240) with (length a) by lia. rewrite drop_app_length. apply Forall_app in Hd as [_ Hs'].
    pose proof (opt_scan_parse hit rest (S (Z.to_nat (zlen (a ++ s)))) (length (a ++ s)) a s Hs' ltac:(llia) ltac:(llia)) as K.
    rewrite <- (assoc_L (++)). replace (zlen a + zlen s) with (zlen (a ++ s)) in K by llia. rewrite Ha in K.
    destruct (first_opt _ _) as [b|]; [|exact K]. destruct K as [Hc (a' & z & E & K)]. split; [exact Hc|]. exists a', z. by split.
  - unfold options, BOOT_MIN. rewrite drop_ge by lia. assert (E0 : parse_opts (length d) [] = []) by (by destruct (length d)). rewrite E0. cbn [first_opt opt_scan].
    by rewrite (proj2 (Z.ltb_lt _ _)) by lia.
Qed.

Lemma opt_type_options d rest : bytes_ok d -> opt_type (d ++ rest) (zlen d) = Some (find_type (options d)).
Proof.
  intros Hd. unfold opt_type, find_type. rewrite opt_type_scan. pose proof (opt_scan_options is_type d rest Hd) as K.
  destruct (first_opt is_type (options d)) as [b|]; [|by rewrite K]. destruct K as [[c Hc] (a & z & E & K)]. rewrite K, some_bind. unfold is_type in Hc. breflect.
  destruct b as [|x b]; [cbn in *; lia|]. rewrite E, <- !(assoc_L (++)). by rewrite rd_mid0 by llia.
Qed.

Lemma opt_u32_options d rest want : bytes_ok d -> opt_u32 (d ++ rest) (zlen d) want = Some (find_u32 want (options d)).
Proof.
  intros Hd. unfold opt_u32, find_u32. rewrite opt_u32_scan. pose proof (opt_scan_options (is_u32 want) d rest Hd) as K.
  destruct (first_opt (is_u32 want) (options d)) as [b|]; [|by rewrite K]. destruct K as [[c Hc] (a & z & E & K)]. rewrite K, some_bind. unfold is_u32 in Hc. breflect.
  rewrite E, <- !(assoc_L (++)). unfold get_be32 at 1. rewrite rd_mid0, !rd_mid by lia. fold (get_be32 b 0).
  destruct (get_be32_total b 0 ltac:(lia) ltac:(lia)) as [v Hv]. unfold get_be32 in *. cbn [Z.add] in *. by rewrite Hv.
Qed.

(** ** Encoded options *)

Inductive item := Pad | Opt (code : Z) (body : list Z).

Definition item_ok (it : item) : Prop :=
  match it with Pad => True | Opt c b => 0 < c < 255 /\ zlen b < 256 /\ bytes_ok b end.
Definition encode_item (it : item) : list Z := match it with Pad => [0] | Opt c b => c :: zlen b :: b end.
(** An option field as a server writes it: options and pads, then END. *)
Definition encode (its : list item) : list Z := concat (encode_item <$> its).
Definition bodies (its : list item) : list (Z * list Z) := omap (fun it => match it with Pad => None | Opt c b => Some (c, b) end) its.

Lemma parse_opts_encode its rest : Forall item_ok its -> forall fuel, zlen (encode its) < Z.of_nat fuel -> parse_opts fuel (encode its ++ 255 :: rest) = bodies its.
Proof.
  induction 1 as [|it its Hi _ IH]; intros fuel Hf; (destruct fuel as [|f]; [llia|]).
  - by destruct rest.
  - unfold encode in *. cbn [fmap list_fmap concat] in *. destruct it as [|c b]; cbn [encode_item app] in *.
    + cbn [bodies omap list_omap]. specialize (IH f ltac:(llia)). destruct (concat (encode_item <$> its) ++ 255 :: rest) eqn:E; [by destruct (concat (encode_item <$> its))|].
      cbn [parse_opts]. exact IH.
    + destruct Hi as (Hc & Hl & _). cbn [parse_opts]. rewrite !(proj2 (Z.eqb_neq c _)) by lia. rewrite <- (assoc_L (++)).
      rewrite (proj2 (Z.ltb_ge _ _)) by llia. rewrite Nat2Z.id, take_app_length, drop_app_length. cbn [bodies omap list_omap]. rewrite IH by llia. done.
Qed.

Lemma encode_bytes its : Forall item_ok its -> bytes_ok (encode its).
Proof.
  induction 1 as [|it its Hi _ IH]; [constructor|]. unfold encode in *. cbn [fmap list_fmap concat]. apply Forall_app. split; [|exact IH].
  destruct it as [|c b]; cbn [encode_item]; [by repeat constructor|]. destruct Hi as (? & ? & Hb). repeat constructor; unfold is_byte; try lia. exact Hb.
Qed.

Lemma options_encode head its rest : zlen head = BOOT_MIN -> Forall item_ok its -> options (head ++ encode its ++ 255 :: rest) = bodies its.
Proof.
  intros Hh Hi. unfold options. replace (Z.to_nat BOOT_MIN) with (length head) by lia. rewrite drop_app_length. apply parse_opts_encode; [done|llia].
Qed.

(** Reading options back.  From a datagram whose option field encodes any
    list of options and pads, ended by END and followed by anything,
    [opt_u32] yields the value of the first option of the wanted code that has
    exactly four bytes, [opt_type] the first byte of the first non-empty option
    53, and 0 when there is none -- in a buffer with any bytes behind the
    datagram. *)
Theorem options_read_back head its tail junk want :
  zlen head = BOOT_MIN -> bytes_ok head -> Forall item_ok its -> bytes_ok tail ->
  let d := head ++ encode its ++ 255 :: tail in
  opt_u32 (d ++ junk) (zlen d) want = Some (find_u32 want (bodies its)) /\ opt_type (d ++ junk) (zlen d) = Some (find_type (bodies its)).
Proof.
  intros Hh Hb Hi Ht d. assert (Hd : bytes_ok d).
  { unfold d. apply Forall_app. split; [done|]. apply Forall_app. split; [by apply encode_bytes|]. constructor; [done|exact Ht]. }
  rewrite opt_u32_options, opt_type_options by done. unfold d. by rewrite options_encode.
Qed.

Example options_read_back_witness :
  let d := replicate 240 0 ++ encode [Pad; Opt 3 [10; 0; 2; 2; 10; 0; 2; 3]; Opt 53 [5]; Opt 3 [10; 0; 2; 9]] ++ 255 :: [7] in
  opt_u32 (d ++ [1; 2]) (zlen d) 3 = Some 167772681 /\ opt_type (d ++ [1; 2]) (zlen d) = Some 5.
Proof. apply (options_read_back (replicate 240 0) [Pad; Opt 3 [10; 0; 2; 2; 10; 0; 2; 3]; Opt 53 [5]; Opt 3 [10; 0; 2; 9]] [7] [1; 2] 3); [done|by repeat constructor..]. Defined.

(** ** The requests on the wire *)

(** The 240 bytes [boot_head] lays out, and the two requests. *)
Definition boot (xid : Z) (mac : list Z) : list Z :=
  [1; 1; 6; 0] ++ be xid ++ [0; 0; 128; 0] ++ be 0 ++ replicate 12 0 ++ mac ++ replicate 202 0 ++ be COOKIE.
Definition wanted : item := Opt 55 [1; 3; 6; 51].
Definition discover_items : list item := [Opt 53 [DHCP_DISCOVER]; wanted].
Definition request_items (offer server : Z) : list item :=
  [Opt 53 [DHCP_REQUEST]; Opt 50 (be offer)] ++ (if server =? 0 then [] else [Opt 54 (be server)]) ++ [wanted].
Definition packet (xid : Z) (mac : list Z) (its : list item) : list Z := boot xid mac ++ encode its ++ [255].

Lemma blit_app {A} (a c s a' : list A) i : blit a i s = Some a' -> blit (a ++ c) i s = Some (a' ++ c).
Proof.
  intros H. unfold blit in *. destruct (Z.leb_spec 0 i); [|done]. destruct (Z.leb_spec (i + zlen s) (zlen a)); [|done]. cbn [andb] in *. simplify_eq.
  rewrite (proj2 (Z.leb_le _ _)) by llia. f_equal. rewrite take_app_le, drop_app_le by lia. by rewrite <- !(assoc_L (++)).
Qed.
Lemma wr_app (a c a' : list Z) i v : wr a i v = Some a' -> wr (a ++ c) i v = Some (a' ++ c).
Proof. rewrite !wr_blit. apply blit_app. Qed.

Lemma boot_head_app a c xid mac ci a' k : boot_head a xid mac ci = Some (a', k) -> boot_head (a ++ c) xid mac ci = Some (a' ++ c, k).
Proof.
  intros H. unfold boot_head, put_be32 in *. repeat (let q := fresh "q" in let E := fresh "E" in obind H q E; lazymatch type of E with wr _ _ _ = _ => apply (wr_app _ c) in E | _ => apply (blit_app _ c) in E end; rewrite E; cbn [mbind option_bind]; clear E).
  by simplify_eq.
Qed.

Lemma boot_head_spec a c xid mac : zlen a = BOOT_MIN -> zlen mac = 6 -> boot_head (a ++ c) xid mac 0 = Some (boot xid mac ++ c, BOOT_MIN).
Proof.
  intros Ha Hm. apply boot_head_app. unfold boot_head. assert (E : blit a 0 (replicate (Z.to_nat BOOT_MIN) 0) = Some (replicate (Z.to_nat BOOT_MIN) 0)).
  { rewrite <- (app_nil_r a). unfold BOOT_MIN in *. apply (blit_mid [] a (replicate (Z.to_nat 240) 0) []). rewrite length_replicate. lia. }
  rewrite E. do 6 (destruct mac as [|? mac]; [cbn in Hm; lia|]). destruct mac; [|cbn in Hm; lia]. reflexivity.
Qed.

Lemma wr_in (a g c g' : list Z) i v k : i = zlen a + k -> wr g k v = Some g' -> wr (a ++ g ++ c) i v = Some (a ++ g' ++ c).
Proof.
  intros -> H. assert (Hk : 0 <= k < zlen g) by (unfold wr in H; case_match eqn:E; [breflect; lia|done]). rewrite wr_is_Some in H by done. simplify_eq.
  rewrite wr_is_Some by llia. f_equal. replace (Z.to_nat (zlen a + k)) with (length a + Z.to_nat k)%nat by lia.
  rewrite insert_app_r. by rewrite insert_app_l by lia.
Qed.
Ltac elen := unfold encode, wanted, be in *; cbn [fmap list_fmap concat encode_item app length] in *; llia.
(** Store at [k] into the middle list. *)
Ltac put k := erewrite (wr_in _ _ _ _ _ _ k) by first [lia|reflexivity]; rewrite some_bind.

Lemma opt_msg_mid a g c ty : zlen g = 3 -> opt_msg (a ++ g ++ c) (zlen a) ty = Some ((a ++ encode [Opt 53 [ty]]) ++ c, zlen (a ++ encode [Opt 53 [ty]])).
Proof.
  intros Hg. do 3 (destruct g as [|? g]; [cbn in Hg; lia|]). destruct g; [|cbn in Hg; lia]. unfold opt_msg. put 0. put 1. put 2.
  rewrite <- (assoc_L (++)). do 2 f_equal. elen.
Qed.

Lemma opt_addr_mid a g c code v : zlen g = 6 ->
  opt_addr (a ++ g ++ c) (zlen a) code v = Some ((a ++ encode [Opt code (be v)]) ++ c, zlen (a ++ encode [Opt code (be v)])).
Proof.
  intros Hg. destruct g as [|x0 [|x1 [|x2 [|x3 [|x4 [|x5 [|? g]]]]]]]; try (cbn in Hg; lia). unfold opt_addr, put_be32. put 0. put 1.
  match goal with |- context [a ++ ?l ++ c] => change (a ++ l ++ c) with (a ++ [code; 4] ++ [x2; x3; x4; x5] ++ c) end.
  rewrite (assoc_L (++) a [code; 4]). replace (zlen a + 2) with (zlen (a ++ [code; 4])) by llia. rewrite blit_mid, some_bind by done.
  rewrite <- !(assoc_L (++)). do 2 f_equal. elen.
Qed.

Lemma opt_params_mid a g c : zlen g = 6 -> opt_params (a ++ g ++ c) (zlen a) = Some ((a ++ encode [wanted]) ++ c, zlen (a ++ encode [wanted])).
Proof.
  intros Hg. do 6 (destruct g as [|? g]; [cbn in Hg; lia|]). destruct g; [|cbn in Hg; lia]. unfold opt_params. put 0. put 1. put 2. put 3. put 4. put 5.
  rewrite <- (assoc_L (++)). do 2 f_equal. elen.
Qed.

Lemma opt_end_mid a g c : zlen g = 1 -> opt_end (a ++ g ++ c) (zlen a) = Some (a ++ 255 :: c, zlen a + 1).
Proof.
  intros Hg. destruct g as [|x g]; [cbn in Hg; lia|]. destruct g; [|cbn in Hg; lia]. unfold opt_end. put 0. done.
Qed.

Lemma boot_length xid mac : zlen mac = 6 -> zlen (boot xid mac) = BOOT_MIN.
Proof. intros. unfold boot. rewrite !length_app, !length_replicate. cbn [length be]. unfold BOOT_MIN. lia. Qed.

Lemma encode_app a b : encode (a ++ b) = encode a ++ encode b.
Proof. unfold encode. by rewrite fmap_app, concat_app. Qed.

Lemma discover_msg_spec q xid mac : zlen q = REQ_LEN -> zlen mac = 6 ->
  exists q', discover_msg q xid mac = Some (q', zlen (packet xid mac discover_items)) /\
    slice q' 0 (zlen (packet xid mac discover_items)) = Some (packet xid mac discover_items) /\ zlen q' = REQ_LEN.
Proof.
  intros Hq Hm. unfold REQ_LEN, BOOT_MIN in *. destruct (split_at q 240) as (a & c & -> & Ha); [lia|]. destruct (split_at c 3) as (g1 & c1 & -> & H1); [llia|].
  destruct (split_at c1 6) as (g2 & c2 & -> & H2); [llia|]. destruct (split_at c2 1) as (g3 & c3 & -> & H3); [llia|].
  unfold discover_msg. rewrite boot_head_spec, some_bind by done. pose proof (boot_length xid mac Hm) as Hb. rewrite <- Hb.
  rewrite opt_msg_mid, some_bind by done. rewrite opt_params_mid, some_bind by done. rewrite opt_end_mid by done. unfold packet.
  eexists. split; [do 2 f_equal; unfold discover_items; elen|]. split.
  - rewrite <- !(assoc_L (++)). unfold discover_items. change (encode [Opt 53 [DHCP_DISCOVER]; wanted]) with (encode [Opt 53 [DHCP_DISCOVER]] ++ encode [wanted]).
    replace (boot xid mac ++ encode [Opt 53 [DHCP_DISCOVER]] ++ encode [wanted] ++ 255 :: c3)
      with ([] ++ (boot xid mac ++ (encode [Opt 53 [DHCP_DISCOVER]] ++ encode [wanted]) ++ [255]) ++ c3) by (rewrite <- !(assoc_L (++)); done).
    by apply (slice_mid []).
  - unfold BOOT_MIN in Hb. rewrite !length_app in *. cbn [length encode encode_item fmap list_fmap concat app wanted] in *. lia.
Qed.
Lemma request_msg_spec q xid mac offer server : zlen q = REQ_LEN -> zlen mac = 6 -> let pkt := packet xid mac (request_items offer server) in
  exists q', request_msg q xid mac offer server = Some (q', zlen pkt) /\ slice q' 0 (zlen pkt) = Some pkt /\ zlen q' = REQ_LEN.
Proof.
  intros Hq Hm pkt. unfold REQ_LEN, BOOT_MIN in *. destruct (split_at q 240) as (a & c & -> & Ha); [lia|]. destruct (split_at c 3) as (g1 & c1 & -> & H1); [llia|].
  destruct (split_at c1 6) as (g2 & c2 & -> & H2); [llia|].
  unfold request_msg. rewrite boot_head_spec, some_bind by done. pose proof (boot_length xid mac Hm) as Hb. rewrite <- Hb.
  rewrite opt_msg_mid, some_bind by done. rewrite opt_addr_mid, some_bind by done.
  assert (Et : exists b c3, (if server =? 0 then Some ((((boot xid mac ++ encode [Opt 53 [DHCP_REQUEST]]) ++ encode [Opt 50 (be offer)]) ++ c2), zlen ((boot xid mac ++ encode [Opt 53 [DHCP_REQUEST]]) ++ encode [Opt 50 (be offer)]))
      else opt_addr (((boot xid mac ++ encode [Opt 53 [DHCP_REQUEST]]) ++ encode [Opt 50 (be offer)]) ++ c2) (zlen ((boot xid mac ++ encode [Opt 53 [DHCP_REQUEST]]) ++ encode [Opt 50 (be offer)])) 54 server)
      = Some (b ++ c3, zlen b) /\ b = boot xid mac ++ encode ([Opt 53 [DHCP_REQUEST]; Opt 50 (be offer)] ++ (if server =? 0 then [] else [Opt 54 (be server)])) /\ 7 <= zlen c3 /\ zlen b + zlen c3 = 272).
  { destruct (server =? 0).
    - eexists _, c2. split; [done|]. split; [rewrite app_nil_r, <- (assoc_L (++)); done|]. unfold BOOT_MIN in Hb. elen.
    - destruct (split_at c2 6) as (g3 & c3 & -> & H3); [llia|]. rewrite opt_addr_mid by done. eexists _, c3. split; [done|].
      split; [rewrite <- !(assoc_L (++)); done|]. unfold BOOT_MIN in Hb. elen. }
  destruct Et as (b & c3 & -> & Eb & Hc & Hbc). rewrite some_bind. destruct (split_at c3 6) as (g4 & c4 & -> & H4); [llia|]. destruct (split_at c4 1) as (g5 & c5 & -> & H5); [llia|].
  rewrite opt_params_mid, some_bind by done. rewrite opt_end_mid by done.
  assert (Ep : pkt = (b ++ encode [wanted]) ++ [255]).
  { unfold pkt, packet, request_items. rewrite Eb, !encode_app, <- !(assoc_L (++)). done. }
  eexists. split; [do 2 f_equal; rewrite Ep; elen|]. split.
  - replace ((b ++ encode [wanted]) ++ 255 :: c5) with ([] ++ pkt ++ c5) by (rewrite Ep, <- !(assoc_L (++)); done). by apply (slice_mid []).
  - elen.
Qed.

(** ** The tables *)

Lemma first_at_lt {A} (f : A -> bool) l : forall i j, first_at f i l = Some j -> (i <= j < i + length l)%nat /\ exists x, l !! (j - i)%nat = Some x /\ f x = true.
Proof.
  induction l as [|x l IH]; intros i j; cbn [first_at length]; [done|]. destruct (f x) eqn:E.
  - intros [= <-]. split; [lia|]. exists x. by rewrite Nat.sub_diag.
  - intros E'. destruct (IH _ _ E') as [? (y & Hy & Hf)]. split; [lia|]. exists y. split; [|done]. replace (j - i)%nat with (S (j - S i)) by lia. done.
Qed.

(** Storing at the slot found for [f]: what a stricter search [g] finds after. *)
Lemma first_at_put {A} (f g : A -> bool) l x : forall i k, first_at f i l = Some (i + k)%nat -> (forall y, g y = true -> f y = true) -> g x = true ->
  first_at g i (<[k := x]> l) = Some (i + k)%nat.
Proof.
  induction l as [|y l IH]; intros i k; cbn [first_at]; [done|]. intros E Hgf Hx. destruct (f y) eqn:Ey.
  - injection E as E. assert (k = 0%nat) as -> by lia. cbn. by rewrite Hx, Nat.add_0_r.
  - destruct k as [|k]; [apply first_at_lt in E as [? _]; lia|]. cbn. destruct (g y) eqn:Gy; [apply Hgf in Gy; congruence|].
    replace (i + S k)%nat with (S i + k)%nat in * by lia. by apply IH.
Qed.

Lemma first_at_skip {A} (g : A -> bool) l x : forall i k, g x = false -> (forall y, l !! k = Some y -> g y = false) -> first_at g i (<[k := x]> l) = first_at g i l.
Proof.
  induction l as [|y l IH]; intros i k Hx Hy; [done|]. destruct k as [|k]; cbn.
  - by rewrite Hx, (Hy y eq_refl).
  - destruct (g y); [done|]. apply IH; [done|]. intros z Hz. by apply Hy.
Qed.

(** [hold] is an update of the map from interfaces to leases, when a slot is left. *)
Lemma hold_lookup grow s h l t i : s_held s = Some t -> first_at (hold_slot h) 0 t = Some i -> addr_be l <> 0 ->
  exists s', hold grow s h l = Some s' /\ s_ask s' = s_ask s /\ forall h', held s' h' = if h' =? h then Some l else held s h'.
Proof.
  intros Ht Hi Hl. pose proof (first_at_lt _ _ _ _ Hi) as [Hlt (y & Hy & Hs)]. rewrite Nat.sub_0_r in Hy. unfold hold. rewrite Ht, Hi, wr_is_Some, some_bind by lia. eexists. split; [done|]. split; [done|].
  intros h'. unfold held. rewrite Ht. cbn [s_held set_held]. rewrite Nat2Z.id, !some_bind. assert (Hx : forall k, held_at k (DhcpHeld h l) = (h =? k)).
  { intros k. unfold held_at. cbn [d_h d_lease]. apply Z.eqb_neq in Hl. rewrite Hl. by rewrite andb_true_r. }
  destruct (Z.eqb_spec h' h) as [->|Hh].
  - rewrite (first_at_put (hold_slot h) (held_at h) t _ 0 i Hi), some_bind.
    + rewrite list_lookup_insert_eq by lia. done.
    + intros z. unfold held_at, hold_slot. intros [-> _]%andb_true_iff. apply orb_true_r.
    + by rewrite Hx, Z.eqb_refl.
  - rewrite first_at_skip.
    + destruct (first_at (held_at h') 0 t) as [j|] eqn:Ej; [|done]. rewrite !some_bind. apply first_at_lt in Ej as [_ (z & Hz & Hf)]. rewrite Nat.sub_0_r in Hz.
      rewrite list_lookup_insert_ne; [done|]. intros <-. rewrite Hy in Hz. injection Hz as <-. unfold held_at, hold_slot in *.
      apply andb_true_iff in Hf as [Hf1 Hf2]. apply orb_true_iff in Hs as [E|E]; rewrite ?E in Hf2; breflect; congruence.
    + rewrite Hx. apply Z.eqb_neq. congruence.
    + intros z Hz. rewrite Hy in Hz. injection Hz as <-. unfold held_at, hold_slot in *. apply orb_true_iff in Hs as [E|E]; [rewrite E; apply andb_false_r|]. breflect.
      by rewrite (proj2 (Z.eqb_neq (d_h y) h')) by congruence.
Qed.

(** And [ask_note] of the map from interfaces to the last outcome. *)
Lemma ask_note_lookup grow s h how t i : s_ask s = Some t -> first_at (ask_slot h) 0 t = Some i -> how <> DHCP_ASK_NONE ->
  exists s', ask_note grow s h how = Some s' /\ s_held s' = s_held s /\ pm_metal_net_dhcp_asked s' h = how.
Proof.
  intros Ht Hi Hh. pose proof (first_at_lt _ _ _ _ Hi) as [Hlt _]. unfold ask_note. rewrite Ht, Hi, wr_is_Some, some_bind by lia. eexists. split; [done|]. split; [done|].
  unfold pm_metal_net_dhcp_asked. cbn [s_ask set_ask]. rewrite Nat2Z.id, some_bind. rewrite (first_at_put (ask_slot h) (asked_at h) t _ 0 i Hi), some_bind.
  - by rewrite list_lookup_insert_eq by lia.
  - intros z. unfold asked_at, ask_slot. intros [-> _]%andb_true_iff. apply orb_true_r.
  - unfold asked_at. cbn [k_h k_how]. by rewrite Z.eqb_refl, (proj2 (Z.eqb_neq _ _)) by done.
Qed.

(** ** The client without its buffers *)

(** A word of a datagram. *)
Definition word (d : list Z) (i : Z) : Z := default 0 (get_be32 d i).

(** What a datagram is to a client waiting for [want]: taken, a refusal, or
    nothing to it. *)
Definition verdict (xid want : Z) (d : list Z) : option bool :=
  if (BOOT_MIN <=? zlen d) && (default 0 (rd d 0) =? 2) && (word d 4 =? xid) && (word d 236 =? COOKIE) then
    let t := find_type (options d) in
    if t =? want then Some true else if t =? DHCP_NAK then Some false else None
  else None.

(** The lease an acknowledgement grants. *)
Definition granted (d : list Z) (server : Z) : lease :=
  let v := find_u32 54 (options d) in
  Lease (word d 16) (find_u32 1 (options d)) (find_u32 3 (options d)) (find_u32 6 (options d)) (if v =? 0 then server else v) (find_u32 51 (options d)).

Lemma word_prefix d r i : 0 <= i -> i + 4 <= zlen d -> get_be32 (d ++ r) i = Some (word d i).
Proof. intros. rewrite get_be32_prefix by lia. unfold word. by destruct (get_be32_total d i) as [v ->]. Qed.

Lemma judge_verdict d r xid want : bytes_ok d ->
  judge (d ++ r) (zlen d) xid want = Some (match verdict xid want d with Some true => Some (zlen d) | Some false => Some (-1) | None => None end).
Proof.
  intros Hd. unfold judge, verdict. destruct (Z.ltb_spec (zlen d) BOOT_MIN) as [?|Hl]; [by rewrite (proj2 (Z.leb_gt _ _)) by lia|].
  rewrite (proj2 (Z.leb_le _ _)) by lia. unfold BOOT_MIN in Hl. rewrite rd_prefix by lia. destruct (rd_is_Some d 0) as [b0 E0]; [lia|]. rewrite E0, some_bind. change (default 0 (Some b0)) with b0. cbn [andb].
  destruct (b0 =? 2); cbn [negb andb]; [|done]. rewrite (word_prefix d r 4), some_bind by lia. destruct (word d 4 =? xid); cbn [negb andb]; [|done].
  rewrite (word_prefix d r 236), some_bind by lia. destruct (word d 236 =? COOKIE); cbn [negb andb]; [|done]. rewrite opt_type_options, some_bind by done.
  destruct (_ =? want); [done|]. by destruct (_ =? DHCP_NAK).
Qed.

Lemma read_ack_granted d r server : bytes_ok d -> 20 <= zlen d -> read_ack (d ++ r) (zlen d) server = Some (granted d server).
Proof. intros Hd Hl. unfold read_ack. rewrite word_prefix, some_bind by lia. by rewrite !opt_u32_options by done. Qed.

Lemma verdict_long xid want d b : verdict xid want d = Some b -> BOOT_MIN <= zlen d.
Proof. unfold verdict. destruct (Z.leb_spec BOOT_MIN (zlen d)); [done|]. cbn [andb]. discriminate. Qed.

Section client.
Context {N : Type} `{DL : DhcpLaws N} `{!UdpLaws N}.

(** The bytes a [recvfrom] delivers. *)
Definition heard (n : Z) (g : dgram) : list Z := if 0 <? n then d_bytes g else [].

Lemma recv_spec (net : N) fd buf : zlen buf = BUF_LEN -> let '(net', n, g) := ip_recvfrom net fd BUF_LEN in
  exists r, recv net fd buf = Some (net', n, heard n g ++ r, g) /\ bytes_ok (heard n g) /\ zlen (heard n g ++ r) = BUF_LEN /\ zlen (heard n g) = Z.max 0 n.
Proof.
  intros Hb. unfold recv, heard. destruct (ip_recvfrom net fd BUF_LEN) as [[net' n] g] eqn:E. destruct (Z.ltb_spec 0 n) as [Hn|Hn].
  - destruct (recvfrom_fits _ _ _ _ _ _ E Hn) as (H1 & H2 & H3). rewrite blit_is_Some, some_bind by lia.
    eexists. split; [done|]. split; [done|]. split; [|lia]. rewrite length_app, length_drop. lia.
  - exists buf. rewrite app_nil_l. split; [done|]. split; [constructor|]. split; [done|cbn; lia].
Qed.

(** [await_reply]: the datagram that is taken. *)
Fixpoint wait_from (fuel : nat) (net : N) (fd xid want deadline : Z) : N * option (list Z) :=
  match fuel with
  | O => (net, None)
  | S f =>
      let '(net, n, g) := ip_recvfrom net fd BUF_LEN in
      match verdict xid want (heard n g) with
      | Some b => (net, if b : bool then Some (heard n g) else None)
      | None => let '(net, now) := mono_us net in
                if deadline <=? now then (net, None) else wait_from f (ip_pump net) fd xid want deadline
      end
  end.
Definition wait (s : dhcp) (net : N) (fd xid want : Z) : N * option (list Z) :=
  let '(net, now) := mono_us net in wait_from (Z.to_nat DHCP_SPINS) net fd xid want (u64 (now + s_wait_us s)).

(** The buffer behind the status [n] of a wait for a datagram. *)
Definition holds (n : Z) (buf : list Z) (o : option (list Z)) : Prop :=
  zlen buf = BUF_LEN /\ match o with Some d => n = zlen d /\ bytes_ok d /\ BOOT_MIN <= n /\ exists r, buf = d ++ r | None => n = -1 end.

Lemma await_from_wait fd xid want deadline : forall fuel (net : N) buf, zlen buf = BUF_LEN ->
  exists n buf', await_from fuel net fd xid want deadline buf = Some ((wait_from fuel net fd xid want deadline).1, n, buf') /\ holds n buf' (wait_from fuel net fd xid want deadline).2.
Proof.
  induction fuel as [|f IH]; intros net buf Hb; cbn [await_from wait_from]; [by exists (-1), buf|].
  pose proof (recv_spec net fd buf Hb) as R. destruct (ip_recvfrom net fd BUF_LEN) as [[net1 n] g]. destruct R as (r & -> & Hd & Hl & Hn). rewrite some_bind.
  assert (J : judge (heard n g ++ r) n xid want = Some (match verdict xid want (heard n g) with Some true => Some n | Some false => Some (-1) | None => None end)).
  { destruct (Z.ltb_spec n BOOT_MIN) as [Hs|Hs].
    - unfold judge. rewrite (proj2 (Z.ltb_lt _ _)) by lia. destruct (verdict _ _ _) eqn:V; [|done]. apply verdict_long in V. unfold BOOT_MIN in *. lia.
    - unfold BOOT_MIN in Hs. assert (En : n = zlen (heard n g)) by lia. pose proof (judge_verdict (heard n g) r xid want Hd) as J. by rewrite <- En in J. }
  rewrite J, some_bind. destruct (verdict xid want (heard n g)) as [[|]|] eqn:V.
  - exists n, (heard n g ++ r). split; [done|]. apply verdict_long in V. unfold BOOT_MIN in V. repeat (split; [done || unfold BOOT_MIN; lia|]). by exists r.
  - exists (-1), (heard n g ++ r). by split.
  - destruct (mono_us net1) as [net2 now]. destruct (deadline <=? now); [by exists (-1), (heard n g ++ r)|]. by apply IH.
Qed.

Lemma await_wait s (net : N) fd xid want buf : zlen buf = BUF_LEN ->
  exists n buf', await_reply s net fd xid want buf = Some ((wait s net fd xid want).1, n, buf') /\ holds n buf' (wait s net fd xid want).2.
Proof. intros Hb. unfold await_reply, wait. destruct (mono_us net) as [net1 now]. by apply await_from_wait. Qed.

(** The exchange on an open socket: the lease acknowledged, if one is. *)
Definition exchange (s : dhcp) (net : N) (fd xid : Z) (mac : list Z) : N * option lease :=
  let '(net, r) := ip_sendto net fd (packet xid mac discover_items) BCAST DHCP_SERVER_PORT in
  if r <? 0 then (net, None) else
  let '(net, o) := wait s net fd xid DHCP_OFFER in
  match o with
  | None => (net, None)
  | Some off =>
      let offer := word off 16 in let server := find_u32 54 (options off) in
      if offer =? 0 then (net, None) else
      let '(net, r) := ip_sendto net fd (packet xid mac (request_items offer server)) BCAST DHCP_SERVER_PORT in
      if r <? 0 then (net, None) else
      let '(net, o) := wait s net fd xid DHCP_ACK in
      (net, (fun ack => granted ack server) <$> o)
  end.

(** The whole client: what it leaves in [*out] ([None] for nothing) and the status. *)
Definition ref_lease (s : dhcp) (net : N) (h : Z) : dhcp * N * option lease * Z :=
  if negb (s_arena s) || (net_dt_id net h <? 0) then (s, net, None, -1) else
  let mac := net_mac net h in
  let '(net, r) := ip_l2_attach net h in
  if negb (r =? 0) then (s, net, Some no_lease, -1) else
  let '(net, fd) := ip_socket net in
  if fd <? 0 then (s, net, Some no_lease, -1) else
  let '(net, r) := ip_bind net fd 0 DHCP_CLIENT_PORT in
  if negb (r =? 0) then (s, ip_close net fd, Some no_lease, -1) else
  let '(net, r) := ip_bind_l2 net fd h in
  if negb (r =? 0) then (s, ip_close net fd, Some no_lease, -1) else
  let xid := u32 (s_xid s + 1) in
  let s := with_xid s xid in
  let '(net, o) := exchange s net fd xid mac in
  match o with
  | None => (s, ip_close net fd, Some no_lease, -1)
  | Some l => (s, ip_close net fd, Some l, if addr_be l =? 0 then -1 else 0)
  end.

Lemma lease_ref s (net : N) h l0 q buf : zlen q = REQ_LEN -> zlen buf = BUF_LEN ->
  pm_metal_net_dhcp_lease s net h (Some l0) q buf =
    let '(s', net', w, r) := ref_lease s net h in Some (s', net', match w with Some l => Some l | None => Some l0 end, r).
Proof.
  intros Hq Hb. unfold pm_metal_net_dhcp_lease, ref_lease. destruct (_ || _); [done|]. destruct (net_mac_six net h) as [Hm _].
  destruct (ip_l2_attach net h) as [net1 r1]. destruct (r1 =? 0); cbn [negb]; [|done].
  destruct (ip_socket net1) as [net2 fd]. destruct (fd <? 0); [done|]. destruct (ip_bind net2 fd 0 DHCP_CLIENT_PORT) as [net3 r3]. destruct (r3 =? 0); cbn [negb]; [|done].
  destruct (ip_bind_l2 net3 fd h) as [net4 r4]. destruct (r4 =? 0); cbn [negb]; [|done]. set (xid := u32 _). set (s1 := with_xid s xid). set (mac := net_mac net h) in *.
  unfold discover_leg, exchange. destruct (discover_msg_spec q xid mac Hq Hm) as (q1 & -> & Es & Hq1). rewrite some_bind, Es, some_bind.
  destruct (ip_sendto net4 fd _ BCAST DHCP_SERVER_PORT) as [net5 r5]. destruct (r5 <? 0); [done|].
  destruct (await_wait s1 net5 fd xid DHCP_OFFER buf Hb) as (n & buf1 & -> & Hb1 & Ho). rewrite some_bind.
  destruct (wait s1 net5 fd xid DHCP_OFFER) as [net6 [off|]]; cbn [fst snd] in *; [|by rewrite Ho].
  destruct Ho as (-> & Hoff & Hl & r & ->). unfold BOOT_MIN in Hl. rewrite (proj2 (Z.ltb_ge _ 0)) by lia. rewrite (word_prefix off r 16), some_bind by lia.
  rewrite opt_u32_options, some_bind by done. destruct (word off 16 =? 0); [done|]. rewrite some_bind. unfold request_leg.
  destruct (request_msg_spec q1 xid mac (word off 16) (find_u32 54 (options off)) Hq1 Hm) as (q2 & -> & Es2 & _). rewrite some_bind, Es2, some_bind.
  destruct (ip_sendto net6 fd _ BCAST DHCP_SERVER_PORT) as [net7 r7]. destruct (r7 <? 0); [done|].
  destruct (await_wait s1 net7 fd xid DHCP_ACK _ Hb1) as (n' & buf2 & -> & Hb2 & Ho). rewrite some_bind.
  destruct (wait s1 net7 fd xid DHCP_ACK) as [net8 [ack|]]; cbn [fst snd fmap option_fmap option_map] in *; [|by rewrite Ho].
  destruct Ho as (-> & Hack & Hl' & r' & ->). unfold BOOT_MIN in Hl'. rewrite (proj2 (Z.ltb_ge _ 0)) by lia. rewrite read_ack_granted, some_bind by (done || lia). done.
Qed.

Lemma ref_lease_ok s (net : N) h s' net' w : ref_lease s net h = (s', net', w, 0) -> exists l, w = Some l.
Proof.
  unfold ref_lease. destruct (_ || _); [done|]. destruct (ip_l2_attach net h) as [net1 r1]. destruct (r1 =? 0); cbn [negb]; [|done].
  destruct (ip_socket net1) as [net2 fd]. destruct (fd <? 0); [done|]. destruct (ip_bind net2 fd 0 DHCP_CLIENT_PORT) as [net3 r3]. destruct (r3 =? 0); cbn [negb]; [|done].
  destruct (ip_bind_l2 net3 fd h) as [net4 r4]. destruct (r4 =? 0); cbn [negb]; [|done]. destruct (exchange _ _ _ _ _) as [net5 [l|]]; [|done].
  intros [= _ _ <- _]. by exists l.
Qed.

Section tables.
Context (grow_held : list dhcp_held -> option (list dhcp_held)) (grow_ask : list dhcp_ask -> option (list dhcp_ask)).
(** What [pm_util_limits_grow] promises: a grown table has more entries. *)
Hypothesis grow_held_longer : forall t g, grow_held t = Some g -> zlen t < zlen g.
Hypothesis grow_ask_longer : forall t g, grow_ask t = Some g -> zlen t < zlen g.

Lemma ask_note_total s h how : is_Some (ask_note grow_ask s h how).
Proof.
  unfold ask_note. destruct (s_ask s) as [t|]; [|done]. destruct (first_at (ask_slot h) 0 t) as [i|] eqn:E.
  - apply first_at_lt in E as [Hi _]. by rewrite wr_is_Some by lia.
  - destruct (grow_ask t) as [g|] eqn:G; [|done]. apply grow_ask_longer in G. by rewrite wr_is_Some by lia.
Qed.

Lemma hold_total s h l : is_Some (hold grow_held s h l).
Proof.
  unfold hold. destruct (s_held s) as [t|]; [|done]. destruct (first_at (hold_slot h) 0 t) as [i|] eqn:E.
  - apply first_at_lt in E as [Hi _]. by rewrite wr_is_Some by lia.
  - destruct (grow_held t) as [g|] eqn:G; [|done]. apply grow_held_longer in G. by rewrite wr_is_Some by lia.
Qed.

(** C30: the client stays inside its arrays, whatever is delivered to it.  With
    [uint8_t q[272]] and [uint8_t buf[548]] holding anything at all,
    [pm_metal_net_dhcp_up] makes no access outside them or the two tables, ends
    within the spins of its two waits, and the bytes the arrays happened to hold
    change nothing: not the requests it sends, not the lease, the tables or the
    status. *)
Theorem dhcp_up_in_bounds s (net : N) h out :
  exists r, forall q buf l0, zlen q = REQ_LEN -> zlen buf = BUF_LEN -> pm_metal_net_dhcp_up grow_held grow_ask s net h out l0 q buf = Some r.
Proof.
  destruct (ref_lease s net h) as [[[s1 net1] w] r] eqn:E. destruct (Z.eqb_spec r 0) as [->|Hr].
  - destruct (ref_lease_ok _ _ _ _ _ _ E) as [l ->]. destruct (hold_total s1 h l) as [s2 Hs2]. destruct (ask_note_total s2 h DHCP_ASK_LEASED) as [s3 Hs3].
    destruct (ip_if_up_mask net1 h (addr_be l) (class_mask l)) as [net2 r2] eqn:E2.
    destruct (if gw_be l =? 0 then (net2, 0) else ip_gw_set net2 (gw_be l)) as [net3 r3] eqn:E3.
    exists (if negb (r2 =? 0) then (s1, net2, out, -1) else if negb (r3 =? 0) then (s1, net3, out, -1) else
      (s3, if dns_be l =? 0 then net3 else dns_server_set net3 (dns_be l), (fun _ => l) <$> out, 0)).
    intros q buf l0 Hq Hb. unfold pm_metal_net_dhcp_up. rewrite lease_ref, E, some_bind by done. change (default l0 (Some l)) with l. cbn [Z.eqb negb].
    rewrite E2. destruct (r2 =? 0); cbn [negb]; [|done]. rewrite E3. destruct (r3 =? 0); cbn [negb]; [|done]. by rewrite Hs2, some_bind, Hs3, some_bind.
  - destruct (ask_note_total s1 h DHCP_ASK_SILENT) as [s2 Hs2]. exists (s2, net1, out, -1). intros q buf l0 Hq Hb. unfold pm_metal_net_dhcp_up.
    rewrite lease_ref, E, some_bind by done. apply Z.eqb_neq in Hr. rewrite Hr. cbn [negb]. by rewrite Hs2.
Qed.
End tables.

(** ** The exchange behind a lease *)

(** One turn of a wait: what came is nothing to the client, and the stack is
    pumped. *)
Inductive turn (fd xid want : Z) : N -> N -> Prop :=
  turn_on net n g net1 now net2 : ip_recvfrom net fd BUF_LEN = (net1, n, g) -> verdict xid want (heard n g) = None ->
    mono_us net1 = (net2, now) -> turn fd xid want net (ip_pump net2).

(** [d] is a BOOTREPLY to [xid] of message type [want]. *)
Definition replies (xid want : Z) (d : list Z) : Prop :=
  BOOT_MIN <= zlen d /\ rd d 0 = Some 2 /\ get_be32 d 4 = Some xid /\ get_be32 d 236 = Some COOKIE /\ opt_type d (zlen d) = Some want.

(** After some turns, [fd] receives the reply [d]. *)
Definition takes (fd xid want : Z) (net : N) (d : list Z) (net' : N) : Prop :=
  exists now net0 net1 n g, mono_us net = (net0, now) /\ rtc (turn fd xid want) net0 net1 /\
    ip_recvfrom net1 fd BUF_LEN = (net', n, g) /\ d = d_bytes g /\ replies xid want d.

(** DISCOVER, OFFER, REQUEST, ACK: all broadcast or heard on one socket bound to
    port 68 and pinned to the interface, under one transaction id. *)
Inductive dora (xid : Z) (net : N) (h : Z) : lease -> N -> Prop :=
  dora_run n1 n2 fd n3 n4 n5 r n6 off offer server n7 r' n8 ack n9 :
    ip_l2_attach net h = (n1, 0) -> ip_socket n1 = (n2, fd) -> 0 <= fd -> ip_bind n2 fd 0 68 = (n3, 0) -> ip_bind_l2 n3 fd h = (n4, 0) ->
    ip_sendto n4 fd (packet xid (net_mac net h) discover_items) BCAST 67 = (n5, r) -> 0 <= r ->
    takes fd xid DHCP_OFFER n5 off n6 -> get_be32 off 16 = Some offer -> offer <> 0 -> opt_u32 off (zlen off) 54 = Some server ->
    ip_sendto n6 fd (packet xid (net_mac net h) (request_items offer server)) BCAST 67 = (n7, r') -> 0 <= r' ->
    takes fd xid DHCP_ACK n7 ack n8 -> addr_be (granted ack server) <> 0 -> n9 = ip_close n8 fd ->
    dora xid net h (granted ack server) n9.

Lemma verdict_replies xid want d : bytes_ok d -> verdict xid want d = Some true -> replies xid want d.
Proof.
  intros Hd. unfold verdict, replies. destruct (Z.leb_spec BOOT_MIN (zlen d)) as [Hl|]; [|by cbn]. unfold BOOT_MIN in Hl.
  destruct (rd_is_Some d 0 ltac:(lia)) as [b0 E0]. rewrite E0. change (default 0 (Some b0)) with b0.
  pose proof (word_prefix d [] 4 ltac:(lia) ltac:(lia)) as W4. pose proof (word_prefix d [] 236 ltac:(lia) ltac:(lia)) as W236.
  pose proof (opt_type_options d [] Hd) as T. rewrite app_nil_r in W4, W236, T. rewrite W4, W236, T.
  destruct (Z.eqb_spec b0 2) as [->|]; cbn [andb]; [|done]. destruct (Z.eqb_spec (word d 4) xid) as [->|]; cbn [andb]; [|done].
  destruct (Z.eqb_spec (word d 236) COOKIE) as [->|]; [|done]. destruct (Z.eqb_spec (find_type (options d)) want) as [->|]; [done|]. by destruct (_ =? DHCP_NAK).
Qed.

Lemma heard_bytes (net : N) fd net' n g : ip_recvfrom net fd BUF_LEN = (net', n, g) -> bytes_ok (heard n g) /\ (0 < zlen (heard n g) -> heard n g = d_bytes g).
Proof.
  intros E. unfold heard. destruct (Z.ltb_spec 0 n) as [Hn|]; [|split; [constructor|cbn; lia]]. by destruct (recvfrom_fits _ _ _ _ _ _ E Hn) as (_ & _ & ?).
Qed.

Lemma wait_from_takes fd xid want deadline d : forall fuel (net net' : N), wait_from fuel net fd xid want deadline = (net', Some d) ->
  exists net1 n g, rtc (turn fd xid want) net net1 /\ ip_recvfrom net1 fd BUF_LEN = (net', n, g) /\ d = d_bytes g /\ replies xid want d /\ bytes_ok d.
Proof.
  induction fuel as [|f IH]; intros net net'; cbn [wait_from]; [done|]. destruct (ip_recvfrom net fd BUF_LEN) as [[net1 n] g] eqn:E.
  destruct (heard_bytes _ _ _ _ _ E) as [Hb Hg]. destruct (verdict xid want (heard n g)) as [[|]|] eqn:V; [|done|].
  - intros [= <- <-]. pose proof (verdict_long _ _ _ _ V) as Hl. unfold BOOT_MIN in Hl. exists net, n, g. split; [apply rtc_refl|]. split; [done|]. split; [apply Hg; lia|].
    split; [by apply verdict_replies|done].
  - destruct (mono_us net1) as [net2 now] eqn:M. destruct (deadline <=? now); [done|]. intros (net3 & n3 & g3 & Ht & Hr)%IH.
    exists net3, n3, g3. split; [|exact Hr]. eapply rtc_l; [|exact Ht]. by econstructor.
Qed.

Lemma wait_takes s (net : N) fd xid want net' d : wait s net fd xid want = (net', Some d) -> takes fd xid want net d net' /\ bytes_ok d.
Proof.
  unfold wait. destruct (mono_us net) as [net0 now] eqn:M. intros (net1 & n & g & Ht & Hr & Hd & Hp & Hb)%wait_from_takes.
  split; [|done]. by exists now, net0, net1, n, g.
Qed.

(** C28: a lease comes from a complete exchange.  When [pm_metal_net_dhcp_lease]
    returns 0, [*out] is what an ACK granted that [recvfrom] delivered on the
    client's own socket -- a BOOTREPLY with the DHCP cookie and this exchange's
    transaction id -- in answer to the REQUEST for the address a matching OFFER
    named; everything received in between was none of the two, the requests on
    the wire are exactly the two packets, and the socket is closed. *)
Theorem lease_follows_dora s (net : N) h l0 q buf s' net' l : zlen q = REQ_LEN -> zlen buf = BUF_LEN ->
  pm_metal_net_dhcp_lease s net h (Some l0) q buf = Some (s', net', Some l, 0) ->
  s' = with_xid s (u32 (s_xid s + 1)) /\ dora (s_xid s') net h l net'.
Proof.
  intros Hq Hb. rewrite lease_ref by done. unfold ref_lease. destruct (_ || _); [done|].
  destruct (ip_l2_attach net h) as [net1 r1] eqn:E1. destruct (Z.eqb_spec r1 0) as [->|]; cbn [negb]; [|done].
  destruct (ip_socket net1) as [net2 fd] eqn:E2. destruct (Z.ltb_spec fd 0); [done|].
  destruct (ip_bind net2 fd 0 DHCP_CLIENT_PORT) as [net3 r3] eqn:E3. destruct (Z.eqb_spec r3 0) as [->|]; cbn [negb]; [|done].
  destruct (ip_bind_l2 net3 fd h) as [net4 r4] eqn:E4. destruct (Z.eqb_spec r4 0) as [->|]; cbn [negb]; [|done]. set (xid := u32 _). set (s1 := with_xid s xid).
  unfold exchange. destruct (ip_sendto net4 fd _ BCAST DHCP_SERVER_PORT) as [net5 r5] eqn:E5. destruct (Z.ltb_spec r5 0); [done|].
  destruct (wait s1 net5 fd xid DHCP_OFFER) as [net6 [off|]] eqn:E6; [|done]. destruct (wait_takes _ _ _ _ _ _ _ E6) as [T6 B6].
  assert (L6 : BOOT_MIN <= zlen off) by (destruct T6 as (? & ? & ? & ? & ? & _ & _ & _ & _ & R & _); exact R). unfold BOOT_MIN in L6.
  pose proof (word_prefix off [] 16 ltac:(lia) ltac:(lia)) as W. pose proof (opt_u32_options off [] 54 B6) as V. rewrite app_nil_r in W, V.
  destruct (Z.eqb_spec (word off 16) 0) as [|Ho]; [done|].
  destruct (ip_sendto net6 fd _ BCAST DHCP_SERVER_PORT) as [net7 r7] eqn:E7. destruct (Z.ltb_spec r7 0); [done|].
  destruct (wait s1 net7 fd xid DHCP_ACK) as [net8 [ack|]] eqn:E8; cbn [fmap option_fmap option_map]; [|done].
  destruct (Z.eqb_spec (addr_be (granted ack (find_u32 54 (options off)))) 0) as [|Ha]; [done|]. intros [= <- <- <-]. split; [done|]. cbn [s_xid s1 with_xid].
  destruct (wait_takes _ _ _ _ _ _ _ E8) as [T8 _]. eapply (dora_run xid net h); eauto.
Qed.
End client.
End DhcpSpec.
