(* ===== verification/DhcpLan.v ===== *)
(** * The dhcp card on concrete networks

    [LanNet] is a segment with a DHCP server and strangers' datagrams, on which
    the client's whole exchange is run; on [LoopNet] the card's own OFFER server
    answers [pm_metal_net_dhcp_discover]. *)
From S2P Require Import Prelude Udp Dhcp DhcpSpec.

Module LanNet.
Import Dhcp DhcpSpec.

(** The datagrams on their way to the client, what the server grants, the
    datagrams that arrive ahead of each of its replies, and what the client
    configures: interfaces, gateway, resolver, open sockets. *)
Record lan := Lan { l_flight : list (list Z); l_server : lease; l_noise : list (list Z); l_clock : Z;
  l_ifs : list (Z * Z * Z); l_gw : Z; l_dns : Z; l_open : list Z }.

(** An option the server sends when it has a value for it. *)
Definition opt1 (c v : Z) : list item := if v =? 0 then [] else [Opt c (be v)].
Definition reply_items (v : lease) (type : Z) : list item :=
  [Opt 53 [type]] ++ opt1 54 (server_be v) ++ opt1 51 (lease_sec v) ++ opt1 1 (mask_be v) ++ opt1 3 (gw_be v) ++ opt1 6 (dns_be v).
Definition reply_head (v : lease) (xid : list Z) : list Z :=
  [2; 1; 6; 0] ++ xid ++ replicate 8 0 ++ be (addr_be v) ++ replicate 216 0 ++ be COOKIE.
Definition reply (v : lease) (pkt : list Z) (type : Z) : list Z :=
  reply_head v (take 4 (drop 4 pkt)) ++ encode (reply_items v type) ++ [255].

(** The server: DISCOVER is offered the lease, REQUEST for it acknowledged, any
    other REQUEST refused. *)
Definition serve (v : lease) (pkt : list Z) : list (list Z) :=
  let os := options pkt in
  if find_type os =? DHCP_DISCOVER then [reply v pkt DHCP_OFFER]
  else if find_type os =? DHCP_REQUEST then
    [reply v pkt (if (find_u32 50 os =? addr_be v) && (find_u32 54 os =? server_be v) then DHCP_ACK else DHCP_NAK)]
  else [].

Definition with_flight (n : lan) (fl : list (list Z)) : lan :=
  Lan fl (l_server n) (l_noise n) (l_clock n) (l_ifs n) (l_gw n) (l_dns n) (l_open n).

#[export] Instance lan_udp : UdpOps lan := {|
  ip_socket n := (Lan (l_flight n) (l_server n) (l_noise n) (l_clock n) (l_ifs n) (l_gw n) (l_dns n) (3 :: l_open n), 3);
  ip_bind n _ _ _ := (n, 0);
  ip_close n fd := Lan (l_flight n) (l_server n) (l_noise n) (l_clock n) (l_ifs n) (l_gw n) (l_dns n) (filter (fun x => x <> fd) (l_open n));
  ip_sendto n _ b addr port := (if (addr =? BCAST) && (port =? DHCP_SERVER_PORT) then with_flight n (l_flight n ++ l_noise n ++ serve (l_server n) b) else n, zlen b);
  ip_recvfrom n _ cap := match l_flight n with
    | [] => (n, 0, Dgram [] 0 0)
    | b :: fl => if zlen b <=? cap then (with_flight n fl, zlen b, Dgram (u8 <$> b) 0 0) else (with_flight n fl, -1, Dgram [] 0 0) end;
  ip_pump n := n;
  mono_us n := (Lan (l_flight n) (l_server n) (l_noise n) (l_clock n + 1) (l_ifs n) (l_gw n) (l_dns n) (l_open n), l_clock n) |}.

#[export] Instance lan_dhcp : DhcpOps lan := {|
  ip_bind_l2 n _ _ := (n, 0);
  ip_l2_attach n _ := (n, 0);
  ip_if_up_mask n h a m := (Lan (l_flight n) (l_server n) (l_noise n) (l_clock n) ((h, a, m) :: l_ifs n) (l_gw n) (l_dns n) (l_open n), 0);
  ip_gw_set n g := (Lan (l_flight n) (l_server n) (l_noise n) (l_clock n) (l_ifs n) g (l_dns n) (l_open n), 0);
  dns_server_set n d := Lan (l_flight n) (l_server n) (l_noise n) (l_clock n) (l_ifs n) (l_gw n) d (l_open n);
  net_dt_id _ h := h;
  net_mac _ h := [2; 0; 0; 0; 0; u8 h] |}.

#[export] Instance lan_udp_laws : UdpLaws lan.
Proof.
  split. intros n fd cap n' k d. cbn. destruct (l_flight n) as [|b fl]; [intros [= _ <- _]; lia|].
  destruct (Z.leb_spec (zlen b) cap); intros [= <- <- <-]; [|lia]. intros _. cbn [d_bytes]. rewrite length_fmap. split; [done|]. split; [done|].
  apply Forall_fmap, Forall_forall. intros x _. apply u8_range.
Qed.

#[export] Instance lan_dhcp_laws : DhcpLaws lan.
Proof. split. intros n h. cbn. split; [done|]. do 5 (constructor; [done|]). constructor; [apply u8_range|constructor]. Qed.

(** ** Reading requests and replies *)

Definition word_ok (v : Z) : Prop := 0 <= v < 4294967296.
Definition lease_ok (v : lease) : Prop :=
  word_ok (addr_be v) /\ word_ok (mask_be v) /\ word_ok (gw_be v) /\ word_ok (dns_be v) /\ word_ok (server_be v) /\ word_ok (lease_sec v).

Lemma u8_fmap b : bytes_ok b -> u8 <$> b = b.
Proof. induction 1 as [|x b Hx _ IH]; [done|]. cbn. by rewrite IH, u8_small. Qed.

Lemma be_item_ok c v : 0 < c < 255 -> item_ok (Opt c (be v)).
Proof. intros Hc. split; [done|]. split; [done|apply be_bytes]. Qed.

Lemma opt1_ok c v : 0 < c < 255 -> Forall item_ok (opt1 c v).
Proof. intros. unfold opt1. destruct (v =? 0); [constructor|]. constructor; [by apply be_item_ok|constructor]. Qed.

Lemma bodies_app a b : bodies (a ++ b) = bodies a ++ bodies b.
Proof. unfold bodies. by rewrite omap_app. Qed.

Lemma find_opt1 want c v its : word_ok v ->
  find_u32 want (bodies (opt1 c v ++ its)) = if (c =? want) && negb (v =? 0) then v else find_u32 want (bodies its).
Proof.
  intros Hv. unfold opt1. destruct (Z.eqb_spec v 0) as [->|]; cbn [negb]; [by rewrite andb_false_r|]. rewrite andb_true_r, bodies_app.
  change (bodies [Opt c (be v)]) with [(c, be v)]. cbn [app]. unfold find_u32. cbn [first_opt]. unfold is_u32. change (zlen (be v) =? 4) with true. rewrite andb_true_r.
  destruct (c =? want); [|done]. pose proof (get_be32_at [] v [] Hv) as G. rewrite app_nil_r in G. cbn [app length] in G. change (Z.of_nat 0) with 0 in G. by rewrite G.
Qed.

Lemma find_u32_type want t its : want <> 53 -> find_u32 want (bodies ([Opt 53 [t]] ++ its)) = find_u32 want (bodies its).
Proof. intros Hw. rewrite bodies_app. unfold find_u32. cbn [bodies omap list_omap app first_opt]. unfold is_u32 at 1. by rewrite (proj2 (Z.eqb_neq 53 want)) by done. Qed.

(** What the reply says of each field. *)
Lemma reply_fields v t : lease_ok v -> let f c := find_u32 c (bodies (reply_items v t)) in
  f 1 = mask_be v /\ f 3 = gw_be v /\ f 6 = dns_be v /\ f 54 = server_be v /\ f 51 = lease_sec v.
Proof.
  intros (Ha & Hm & Hg & Hd & Hs & Hl) f. assert (F : forall c, c <> 53 -> f c = find_u32 c (bodies (opt1 54 (server_be v) ++ opt1 51 (lease_sec v) ++ opt1 1 (mask_be v) ++ opt1 3 (gw_be v) ++ opt1 6 (dns_be v) ++ []))).
  { intros c Hc. unfold f, reply_items. rewrite find_u32_type by done. by rewrite app_nil_r. }
  rewrite !F by done. rewrite !find_opt1 by done. cbn [Z.eqb Pos.eqb andb]. unfold find_u32 at 1 2 3 4 5. cbn [bodies omap list_omap first_opt].
  repeat split; case_match; breflect; congruence.
Qed.

Lemma reply_items_ok v t : is_byte t -> Forall item_ok (reply_items v t).
Proof.
  intros Ht. unfold reply_items. repeat (apply Forall_app; split); try (apply opt1_ok; lia). constructor; [|constructor].
  split; [lia|]. split; [done|]. constructor; [done|constructor].
Qed.

Lemma reply_head_length v x : zlen x = 4 -> zlen (reply_head v x) = BOOT_MIN.
Proof. intros. unfold reply_head. rewrite !length_app, !length_replicate. cbn [length be]. unfold BOOT_MIN. lia. Qed.

Lemma reply_options v t x : zlen x = 4 -> is_byte t -> options (reply_head v x ++ encode (reply_items v t) ++ [255]) = bodies (reply_items v t).
Proof. intros Hx Ht. apply (options_encode _ _ []); [by apply reply_head_length|by apply reply_items_ok]. Qed.

(** Reply to a packet of the client, as the client sees it. *)
Lemma packet_xid xid mac its : take 4 (drop 4 (packet xid mac its)) = be xid.
Proof. reflexivity. Qed.

Lemma reply_shape v xid mac its t : word_ok xid -> lease_ok v -> is_byte t -> let d := reply v (packet xid mac its) t in
  zlen d < BUF_LEN /\ BOOT_MIN <= zlen d /\ bytes_ok d /\ rd d 0 = Some 2 /\ word d 4 = xid /\ word d 16 = addr_be v /\ word d 236 = COOKIE /\ options d = bodies (reply_items v t).
Proof.
  intros Hx Hv Ht d0. assert (E0 : d0 = reply_head v (be xid) ++ encode (reply_items v t) ++ [255]) by (unfold d0, reply; by rewrite packet_xid).
  rewrite E0. clear d0 E0. set (h := reply_head v (be xid)). pose proof (reply_head_length v (be xid) eq_refl) as Hh. fold h in Hh.
  set (e := encode (reply_items v t)). assert (He : 0 <= zlen e <= 33).
  { unfold e, reply_items. rewrite !encode_app, !length_app. unfold opt1. repeat match goal with |- context [if ?b then [] else _] => destruct b end; cbn; lia. }
  unfold BOOT_MIN, BUF_LEN in *. set (d := h ++ e ++ [255]). assert (Hl : zlen d = 241 + zlen e) by (unfold d; llia).
  assert (W : forall a c w, word_ok w -> d = a ++ be w ++ c -> word d (zlen a) = w) by (intros a c w Hw ->; unfold word; by rewrite get_be32_at).
  assert (Ed : d = [2; 1; 6; 0] ++ be xid ++ replicate 8 0 ++ be (addr_be v) ++ replicate 216 0 ++ be COOKIE ++ e ++ [255]) by (unfold d, h, reply_head; by rewrite <- !(assoc_L (++))).
  split; [lia|]. split; [lia|]. split.
  { rewrite Ed. assert (Z0 : forall n, bytes_ok (replicate n 0)) by (intros n; by apply Forall_replicate). assert (Be : bytes_ok e) by (by apply encode_bytes, reply_items_ok).
    rewrite !Forall_app. split; [do 4 (constructor; [done|]); constructor|]. repeat (split; [first [apply be_bytes|apply Z0|exact Be]|]). by constructor. }
  split; [done|]. destruct Hv as (Ha & _). split; [|split; [|split]].
  - exact (W [2; 1; 6; 0] (replicate 8 0 ++ be (addr_be v) ++ replicate 216 0 ++ be COOKIE ++ e ++ [255]) xid Hx Ed).
  - apply (W ([2; 1; 6; 0] ++ be xid ++ replicate 8 0) (replicate 216 0 ++ be COOKIE ++ e ++ [255]) _ Ha). rewrite Ed. by rewrite <- !(assoc_L (++)).
  - apply (W ([2; 1; 6; 0] ++ be xid ++ replicate 8 0 ++ be (addr_be v) ++ replicate 216 0) (e ++ [255]) COOKIE); [done|]. rewrite Ed. by rewrite <- !(assoc_L (++)).
  - unfold d, h, e. by apply reply_options.
Qed.

Lemma reply_verdict v xid mac its t : word_ok xid -> lease_ok v -> is_byte t -> verdict xid t (reply v (packet xid mac its) t) = Some true.
Proof.
  intros Hx Hv Ht. destruct (reply_shape v xid mac its t Hx Hv Ht) as (_ & Hl & _ & H0 & H4 & _ & H236 & Ho). unfold verdict.
  rewrite (proj2 (Z.leb_le _ _)) by done. rewrite H0, H4, H236, Ho. change (default 0 (Some 2) =? 2) with true.
  change (find_type (bodies (reply_items v t))) with t. by rewrite !Z.eqb_refl.
Qed.

Lemma reply_granted v xid mac its : word_ok xid -> lease_ok v -> granted (reply v (packet xid mac its) DHCP_ACK) (server_be v) = v.
Proof.
  intros Hx Hv. destruct (reply_shape v xid mac its DHCP_ACK Hx Hv) as (_ & _ & _ & _ & _ & H16 & _ & Ho); [done|]. unfold granted. rewrite H16, Ho.
  destruct (reply_fields v DHCP_ACK Hv) as (-> & -> & -> & -> & ->). by destruct v as [? ? ? ? sv ?]; cbn; destruct (sv =? 0).
Qed.

(** The server on the client's two requests. *)
Lemma packet_options xid mac its : zlen mac = 6 -> Forall item_ok its -> options (packet xid mac its) = bodies its.
Proof. intros Hm Hi. apply (options_encode (boot xid mac) its []); [by apply boot_length|done]. Qed.

Lemma serve_discover v xid mac : zlen mac = 6 -> serve v (packet xid mac discover_items) = [reply v (packet xid mac discover_items) DHCP_OFFER].
Proof.
  intros Hm. unfold serve. rewrite packet_options; [done|done|]. constructor; [|constructor; [|constructor]]; (split; [lia|]; split; [done|]).
  - by constructor.
  - do 4 (constructor; [done|]). constructor.
Qed.

Lemma request_items_ok a sv : Forall item_ok (request_items a sv).
Proof.
  unfold request_items. repeat (apply Forall_app; split).
  - constructor; [|constructor; [by apply be_item_ok|constructor]]. split; [lia|]. split; [done|]. by constructor.
  - destruct (sv =? 0); [constructor|]. constructor; [by apply be_item_ok|constructor].
  - constructor; [|constructor]. split; [lia|]. split; [done|]. do 4 (constructor; [done|]). constructor.
Qed.

Lemma serve_request v xid mac : zlen mac = 6 -> lease_ok v -> addr_be v <> 0 -> let pkt := packet xid mac (request_items (addr_be v) (server_be v)) in
  serve v pkt = [reply v pkt DHCP_ACK].
Proof.
  intros Hm Hv Ha pkt. unfold serve. cbv zeta. assert (Eo : options pkt = bodies (request_items (addr_be v) (server_be v))) by (apply packet_options; [done|apply request_items_ok]). rewrite Eo.
  assert (E : request_items (addr_be v) (server_be v) = [Opt 53 [DHCP_REQUEST]] ++ opt1 50 (addr_be v) ++ opt1 54 (server_be v) ++ [wanted]).
  { unfold request_items, opt1. by rewrite (proj2 (Z.eqb_neq (addr_be v) 0)) by done. }
  destruct Hv as (Hv & _ & _ & _ & Hs & _). rewrite E. change (find_type _) with DHCP_REQUEST. cbn [Z.eqb Pos.eqb DHCP_REQUEST DHCP_DISCOVER].
  rewrite !find_u32_type, !find_opt1 by done. cbn [Z.eqb Pos.eqb andb]. rewrite (proj2 (Z.eqb_neq (addr_be v) 0)) by done. cbn [negb]. rewrite Z.eqb_refl. cbn [andb].
  change (find_u32 54 (bodies [wanted])) with 0. destruct (Z.eqb_spec (server_be v) 0) as [->|]; cbn [negb]; by rewrite ?Z.eqb_refl.
Qed.

(** ** The waits *)

(** A datagram that is neither of the replies the client waits for. *)
Definition stray (xid : Z) (d : list Z) : Prop := bytes_ok d /\ zlen d <= BUF_LEN /\ verdict xid DHCP_OFFER d = None /\ verdict xid DHCP_ACK d = None.

Definition at_clock (n : lan) (c : Z) : lan := Lan (l_flight n) (l_server n) (l_noise n) c (l_ifs n) (l_gw n) (l_dns n) (l_open n).

Lemma wait_from_noise fd xid want d fl : bytes_ok d -> zlen d <= BUF_LEN -> verdict xid want d = Some true -> forall noise fuel n deadline,
  Forall (fun x => bytes_ok x /\ zlen x <= BUF_LEN /\ verdict xid want x = None) noise -> (length noise < fuel)%nat -> l_clock n + zlen noise < deadline ->
  wait_from fuel (with_flight n (noise ++ d :: fl)) fd xid want deadline = (at_clock (with_flight n fl) (l_clock n + zlen noise), Some d).
Proof.
  intros Hd Hl V. induction noise as [|x noise IH]; intros fuel n deadline Hn Hf Hc; (destruct fuel as [|f]; [cbn in Hf; lia|]); cbn [wait_from].
  - cbn [app ip_recvfrom lan_udp with_flight l_flight]. rewrite (proj2 (Z.leb_le _ _)) by done. rewrite u8_fmap by done. cbn [d_bytes].
    pose proof (verdict_long _ _ _ _ V) as L. unfold BOOT_MIN in L. unfold heard. rewrite (proj2 (Z.ltb_lt 0 (zlen d))) by lia. cbn [d_bytes]. rewrite V. unfold at_clock, with_flight. cbn.
    change (Z.of_nat 0) with 0. by rewrite Z.add_0_r.
  - apply Forall_cons in Hn as [(Hx & Hxl & Vx) Hn]. cbn [app ip_recvfrom lan_udp with_flight l_flight]. rewrite (proj2 (Z.leb_le _ _)) by done. rewrite u8_fmap by done.
    assert (Vh : verdict xid want (heard (zlen x) (Dgram x 0 0)) = None) by (unfold heard; destruct (0 <? zlen x); done). rewrite Vh. cbn [mono_us ip_pump lan_udp l_clock with_flight].
    cbn [length] in Hc, Hf. rewrite (proj2 (Z.leb_gt _ _)) by lia.
    match goal with |- wait_from f ?m _ _ _ _ = _ => change m with (with_flight (at_clock n (l_clock n + 1)) (noise ++ d :: fl)) end.
    rewrite IH by (done || cbn [at_clock l_clock]; lia). unfold at_clock, with_flight. cbn [l_clock length]. do 2 f_equal. lia.
Qed.

Lemma wait_noise s n fd xid want d noise : bytes_ok d -> zlen d <= BUF_LEN -> verdict xid want d = Some true ->
  Forall (fun x => bytes_ok x /\ zlen x <= BUF_LEN /\ verdict xid want x = None) noise -> zlen noise < DHCP_SPINS -> zlen noise + 1 < s_wait_us s ->
  0 <= l_clock n -> l_clock n + s_wait_us s < 18446744073709551616 ->
  wait s (with_flight n (noise ++ [d])) fd xid want = (at_clock (with_flight n []) (l_clock n + 1 + zlen noise), Some d).
Proof.
  intros Hd Hl V Hn Hs Hw Hc Ho. unfold wait. cbn [mono_us lan_udp].
  match goal with |- wait_from _ ?m _ _ _ _ = _ => change m with (with_flight (at_clock n (l_clock n + 1)) (noise ++ [d])) end.
  change (l_clock (with_flight n (noise ++ [d]))) with (l_clock n). rewrite u64_small by lia. unfold DHCP_SPINS in *.
  rewrite (wait_from_noise fd xid want d [] Hd Hl V); [done|done|lia|]. cbn [at_clock l_clock]. lia.
Qed.

(** ** The exchange *)

(** A segment at rest: nothing under way, [noise] of strangers to come. *)
Definition lan_ok (s : dhcp) (n : lan) : Prop :=
  l_flight n = [] /\ lease_ok (l_server n) /\ addr_be (l_server n) <> 0 /\ Forall (stray (u32 (s_xid s + 1))) (l_noise n) /\
  zlen (l_noise n) < DHCP_SPINS /\ zlen (l_noise n) + 1 < s_wait_us s /\ 0 <= l_clock n /\ l_clock n + 2 * s_wait_us s < 18446744073709551616.

Lemma exchange_completes s n fd h : lan_ok s n -> let xid := u32 (s_xid s + 1) in
  exchange (with_xid s xid) n fd xid (net_mac n h) = (at_clock n (l_clock n + 2 * (1 + zlen (l_noise n))), Some (l_server n)).
Proof.
  intros (Hf & Hv & Ha & Hn & Hs & Hw & Hc & Ho) xid. set (v := l_server n) in *. set (mac := net_mac n h). assert (Hm : zlen mac = 6) by done.
  assert (Hx : word_ok xid) by apply u32_range. set (s1 := with_xid s xid).
  assert (No : Forall (fun x => bytes_ok x /\ zlen x <= BUF_LEN /\ verdict xid DHCP_OFFER x = None) (l_noise n)) by (eapply Forall_impl; [exact Hn|]; by intros ? (? & ? & ? & ?)).
  assert (Na : Forall (fun x => bytes_ok x /\ zlen x <= BUF_LEN /\ verdict xid DHCP_ACK x = None) (l_noise n)) by (eapply Forall_impl; [exact Hn|]; by intros ? (? & ? & ? & ?)).
  unfold exchange. cbn [ip_sendto lan_udp]. change ((BCAST =? BCAST) && (DHCP_SERVER_PORT =? DHCP_SERVER_PORT)) with true. cbv iota. rewrite (proj2 (Z.ltb_ge (zlen _) 0)) by lia.
  rewrite Hf, app_nil_l. fold v. rewrite serve_discover by done. set (off := reply v _ DHCP_OFFER).
  destruct (reply_shape v xid mac discover_items DHCP_OFFER Hx Hv ltac:(done)) as (L1 & _ & B1 & _ & _ & W1 & _ & O1). fold off in L1, B1, W1, O1.
  assert (V1 : verdict xid DHCP_OFFER off = Some true) by (by apply reply_verdict).
  rewrite (wait_noise s1 n fd xid DHCP_OFFER off (l_noise n)); [|done|lia|done|done|done|done|done|cbn [s1 with_xid s_wait_us]; lia].
  rewrite W1, O1. destruct (reply_fields v DHCP_OFFER Hv) as (_ & _ & _ & F54 & _). cbv beta in F54. rewrite F54. rewrite (proj2 (Z.eqb_neq (addr_be v) 0)) by done.
  cbn [at_clock with_flight l_flight l_noise l_server]. fold v. rewrite app_nil_l, serve_request by done. set (ack := reply v _ DHCP_ACK).
  pose proof (reply_shape v xid mac (request_items (addr_be v) (server_be v)) DHCP_ACK Hx Hv ltac:(done)) as (L2 & _ & B2 & _). fold ack in L2, B2.
  assert (V2 : verdict xid DHCP_ACK ack = Some true) by (by apply reply_verdict).
  rewrite (proj2 (Z.ltb_ge (zlen _) 0)) by lia.
  match goal with |- context [wait s1 ?m _ _ _] => change m with (with_flight (at_clock n (l_clock n + 1 + zlen (l_noise n))) (l_noise n ++ [ack])) end.
  rewrite (wait_noise s1 _ fd xid DHCP_ACK ack (l_noise n)); [|done|lia|done|done|done|done|cbn [at_clock l_clock]; lia|cbn [at_clock l_clock s1 with_xid s_wait_us]; lia].
  cbn [fmap option_fmap option_map]. unfold ack. rewrite reply_granted by done. f_equal. unfold at_clock, with_flight. cbn [l_clock l_server l_noise l_ifs l_gw l_dns l_open]. rewrite Hf. f_equal. lia.
Qed.

(** A segment with one datagram of noise, and the state the exchange is run in. *)
Definition demo_lease : lease := Lease 167772687 4294967040 167772674 0 167772674 86400.
Definition demo_lan : lan := Lan [] demo_lease [[1; 2; 3]; replicate 300 2] 0 [] 0 0 [].
Definition demo_dhcp : dhcp := (pm_metal_net_dhcp_init true (Some []) (Some []) (St false (-1) 0 1 0 None 0 None)).1.

Example dhcp_up_in_bounds_witness : exists r, forall q buf l0, zlen q = REQ_LEN -> zlen buf = BUF_LEN ->
  pm_metal_net_dhcp_up (fun t => Some (t ++ t ++ [DhcpHeld 0 no_lease])) (fun t => Some (t ++ [DhcpAsk 0 0])) demo_dhcp demo_lan 7 (Some no_lease) l0 q buf = Some r.
Proof.
  apply (dhcp_up_in_bounds (N := lan) (fun t => Some (t ++ t ++ [DhcpHeld 0 no_lease])) (fun t => Some (t ++ [DhcpAsk 0 0]))); intros t g [= <-]; llia.
Defined.

Example lease_follows_dora_witness : exists n', pm_metal_net_dhcp_lease demo_dhcp demo_lan 7 (Some no_lease) (replicate 272 170) (replicate 548 170) = Some (with_xid demo_dhcp 2, n', Some demo_lease, 0) /\
  with_xid demo_dhcp 2 = with_xid demo_dhcp (u32 (s_xid demo_dhcp + 1)) /\ dora (s_xid (with_xid demo_dhcp 2)) demo_lan 7 demo_lease n'.
Proof.
  set (r := pm_metal_net_dhcp_lease demo_dhcp demo_lan 7 (Some no_lease) (replicate 272 170) (replicate 548 170)).
  assert (E : exists n', r = Some (with_xid demo_dhcp 2, n', Some demo_lease, 0)) by (vm_compute; eexists; reflexivity).
  destruct E as [n' E]. exists n'. split; [exact E|]. apply (lease_follows_dora demo_dhcp demo_lan 7 no_lease (replicate 272 170) (replicate 548 170)); [reflexivity|reflexivity|exact E].
Defined.

(** C29: the client obtains what a server grants.  On a segment whose server
    offers and acknowledges any lease with an address -- with a mask, router,
    resolver, server id and lease time or without -- and where any number of
    strangers' datagrams (fewer than the spins and the microseconds of a wait)
    precede each of its replies, [pm_metal_net_dhcp_up] returns 0: [*out] is the
    lease, the interface is up with the address and the mask (the classful one
    if none was sent), gateway and resolver are configured, the socket is
    closed, and the box reports the interface as leased. *)
Theorem dora_completes gh ga s n h t i ta ia q buf l0 out : 0 <= h -> s_arena s = true -> lan_ok s n -> l_open n = [] -> l_gw n = 0 -> l_dns n = 0 ->
  s_held s = Some t -> first_at (hold_slot h) 0 t = Some i -> s_ask s = Some ta -> first_at (ask_slot h) 0 ta = Some ia -> zlen q = REQ_LEN -> zlen buf = BUF_LEN ->
  let v := l_server n in
  exists s' n', pm_metal_net_dhcp_up gh ga s n h (Some out) l0 q buf = Some (s', n', Some v, 0) /\
    l_ifs n' = (h, addr_be v, class_mask v) :: l_ifs n /\ l_gw n' = gw_be v /\ l_dns n' = dns_be v /\ l_open n' = [] /\
    held s' h = Some v /\ pm_metal_net_dhcp_asked s' h = DHCP_ASK_LEASED /\ forall h', h' <> h -> held s' h' = held s h'.
Proof.
  intros Hh Har Hok Hop Hgw Hdns Ht Hi Hta Hia Hq Hb v. pose proof Hok as (_ & _ & Ha & _). fold v in Ha. unfold pm_metal_net_dhcp_up. rewrite lease_ref by done.
  unfold ref_lease. rewrite Har. cbn [negb orb net_dt_id lan_dhcp]. rewrite (proj2 (Z.ltb_ge h 0)) by done. cbn [ip_l2_attach lan_dhcp Z.eqb negb ip_socket lan_udp ip_bind ip_bind_l2].
  change (3 <? 0) with false. cbv iota. set (xid := u32 _). set (n1 := Lan _ _ _ _ _ _ _ (3 :: _)). set (s1 := with_xid s xid).
  assert (Hok1 : lan_ok s n1) by exact Hok. pose proof (exchange_completes s n1 3 h Hok1) as E. cbv zeta in E. change (net_mac n1 h) with (net_mac n h) in E. fold xid s1 in E. rewrite E.
  change (l_server n1) with v. rewrite (proj2 (Z.eqb_neq (addr_be v) 0)) by done. rewrite some_bind. change (default l0 (Some v)) with v. cbn [negb Z.eqb ip_if_up_mask lan_dhcp ip_gw_set ip_close lan_udp].
  destruct (hold_lookup gh s1 h v t i) as (s2 & E2 & A2 & H2); [done|done|done|].
  destruct (ask_note_lookup ga s2 h DHCP_ASK_LEASED ta ia) as (s3 & E3 & H3 & A3); [by rewrite A2|done|done|].
  assert (Hh3 : forall h', held s3 h' = held s2 h') by (intros h'; unfold held; by rewrite H3).
  assert (Hq3 : forall h', h' <> h -> held s3 h' = held s h') by (intros h' Hn; rewrite Hh3, H2; by rewrite (proj2 (Z.eqb_neq _ _)) by done).
  assert (Hs3 : held s3 h = Some v) by (by rewrite Hh3, H2, Z.eqb_refl).
  destruct (Z.eqb_spec (gw_be v) 0) as [Eg|Eg], (Z.eqb_spec (dns_be v) 0) as [Ed|Ed]; cbn [negb Z.eqb]; rewrite E2, some_bind, E3, some_bind;
    (eexists s3, _; split; [reflexivity|]; cbn; by rewrite ?Hgw, ?Hdns, ?Hop, ?Eg, ?Ed).
Qed.
Example dora_completes_witness :
  exists s' n', pm_metal_net_dhcp_up (fun _ => None) (fun _ => None) demo_dhcp demo_lan 7 (Some no_lease) no_lease (replicate 272 170) (replicate 548 170) = Some (s', n', Some demo_lease, 0) /\
    l_ifs n' = [(7, 167772687, 4294967040)] /\ l_gw n' = 167772674 /\ l_dns n' = 0 /\ l_open n' = [] /\
    held s' 7 = Some demo_lease /\ pm_metal_net_dhcp_asked s' 7 = DHCP_ASK_LEASED /\ forall h', h' <> 7 -> held s' h' = held demo_dhcp h'.
Proof.
  apply (dora_completes (fun _ => None) (fun _ => None) demo_dhcp demo_lan 7 (replicate 8 (DhcpHeld 0 no_lease)) 0 (replicate 8 (DhcpAsk 0 0)) 0); try done.
  split; [done|]. split; [repeat split; done|]. split; [done|]. split; [|done].
  constructor; [|constructor; [|constructor]]; (split; [|done]); [by repeat (constructor; [done|])|by apply Forall_replicate].
Defined.
End LanNet.

Module Loop.
Import Dhcp DhcpSpec LoopNet.

(** The loopback query and the answer to it. *)
Definition query (xid : Z) : list Z := [1; 1; 6; 0] ++ be xid ++ replicate 228 0 ++ be COOKIE ++ [53; 1; 1; 255].
Definition offered (xid a : Z) : list Z := [2; 1; 6; 0] ++ be xid ++ replicate 8 0 ++ be a ++ replicate 216 0 ++ be COOKIE ++ [53; 1; 2; 255].

Lemma boot_query_spec xid : boot_query xid = Some (query xid).
Proof. reflexivity. Qed.

Lemma mk_offer_spec xid a r : mk_offer (query xid ++ r) a = Some (offered xid a ++ r).
Proof.
  assert (E : mk_offer (query xid) a = Some (offered xid a)) by reflexivity. unfold mk_offer, put_be32 in *.
  repeat (let q := fresh "q" in let E1 := fresh "E" in obind E q E1; lazymatch type of E1 with wr _ _ _ = _ => apply (wr_app _ r) in E1 | _ => apply (blit_app _ r) in E1 end; rewrite E1; cbn [mbind option_bind]; clear E1).
  by apply wr_app.
Qed.

Lemma query_bytes xid : bytes_ok (query xid).
Proof. unfold query. rewrite !Forall_app. repeat split; try apply be_bytes; try (by apply Forall_replicate); by repeat (constructor; [done|]). Qed.
Lemma offered_bytes xid a : bytes_ok (offered xid a).
Proof. unfold offered. rewrite !Forall_app. repeat split; try apply be_bytes; try (by apply Forall_replicate); by repeat (constructor; [done|]). Qed.

Lemma recv_loop (n : net) fd buf src d fl : zlen buf = BUF_LEN -> bytes_ok d -> 0 < zlen d <= BUF_LEN -> take_first (port_of n fd) (flight n) = Some (src, d, fl) ->
  exists r, recv n fd buf = Some (Net (next_fd n) (socks n) fl (clock n), zlen d, d ++ r, Dgram d 2130706433 src).
Proof.
  intros Hb Hd Hl Ht. unfold recv. cbn [ip_recvfrom loop_udp]. rewrite Ht, (proj2 (Z.leb_le _ _)) by lia. rewrite LanNet.u8_fmap by done. cbn [d_bytes].
  rewrite (proj2 (Z.ltb_lt 0 (zlen d))) by lia. rewrite blit_is_Some, some_bind by lia. by eexists.
Qed.

Lemma take_first_last p src d fl : Forall (fun f : Z * Z * list Z => f.1.1 <> p) fl -> take_first p (fl ++ [(p, src, d)]) = Some (src, d, fl).
Proof.
  induction 1 as [|[[x y] z] fl Hx _ IH]; cbn [app take_first]; [by rewrite Z.eqb_refl|]. cbn in Hx. by rewrite (proj2 (Z.eqb_neq _ _)), IH by done.
Qed.

Lemma port_of_new nf fd p so fl c : port_of (Net nf ((fd, p) :: so) fl c) fd = p.
Proof. unfold port_of. cbn. by rewrite decide_True by done. Qed.
Lemma port_of_old nf fd fd' p so fl c : fd <> fd' -> port_of (Net nf ((fd, p) :: so) fl c) fd' = port_of (Net nf so fl c) fd'.
Proof. intros. unfold port_of. cbn. rewrite decide_False by done. destruct (list_find _ so) as [[i [a b]]|]; done. Qed.
Lemma port_of_closed nf nf' fd fd' so fl fl' c c' : fd <> fd' -> port_of (Net nf (filter (fun p => p.1 <> fd) so) fl c) fd' = port_of (Net nf' so fl' c') fd'.
Proof.
  intros Hne. unfold port_of. cbn [socks]. induction so as [|[a b] so IH]; [done|]. rewrite filter_cons. cbn [list_find fst]. destruct (decide (a = fd')) as [->|Ha].
  - rewrite decide_True by (cbn; congruence). cbn [list_find fst]. by rewrite decide_True by done.
  - case_decide; cbn [list_find fst]; rewrite ?decide_False by done; destruct (list_find _ so) as [[? [? ?]]|]; destruct (list_find _ (filter _ so)) as [[? [? ?]]|]; done.
Qed.

(** The loopback pair.  With the card's server listening on a port and
    nothing else under way for it or for port 68, a
    [pm_metal_net_dhcp_discover] to that port polls the server, reads its OFFER
    and yields the configured address, in whatever state the two receive
    buffers were; its socket is closed and the transaction id moves on. *)
Theorem discover_gets_offer s (n : net) server port buf dbuf : s_arena s = true -> 0 <= s_fd s -> 0 <= next_fd n -> s_fd s <> next_fd n -> port_of n (s_fd s) = port -> port <> 68 ->
  Forall (fun f => f.1.1 <> port /\ f.1.1 <> 68) (flight n) -> 0 <= s_offer_be s < 4294967296 -> 0 <= s_xid s < 4294967296 -> zlen buf = BUF_LEN -> zlen dbuf = BUF_LEN ->
  exists n', pm_metal_net_dhcp_discover s n server port true buf dbuf = Some (with_xid s (u32 (s_xid s + 1)), n', Some (s_offer_be s)) /\
    flight n' = flight n /\ port_of n' (s_fd s) = port.
Proof.
  intros Har Hfd Hnx Hne Hp H68 Hfl Ho Hx Hb Hdb. unfold pm_metal_net_dhcp_discover. rewrite Har. cbn [negb orb ip_socket loop_udp].
  rewrite (proj2 (Z.ltb_ge (next_fd n) 0)) by done. cbn [ip_bind loop_udp Z.eqb negb]. rewrite boot_query_spec, some_bind. cbn [ip_sendto loop_udp].
  set (xid := s_xid s) in *. set (s1 := with_xid s _). rewrite (proj2 (Z.ltb_ge (zlen (query xid)) 0)) by lia.
  set (fd := next_fd n) in *. rewrite port_of_new. cbn [next_fd socks flight clock].
  unfold pm_metal_net_dhcp_poll. change (s_fd s1) with (s_fd s). change (s_offer_be s1) with (s_offer_be s). rewrite (proj2 (Z.ltb_ge (s_fd s) 0)) by done.
  set (n1 := Net _ _ _ _). assert (P1 : port_of n1 (s_fd s) = port) by (unfold n1; by rewrite port_of_old).
  assert (F1 : Forall (fun f : Z * Z * list Z => f.1.1 <> port) (flight n)) by (eapply Forall_impl; [exact Hfl|]; by intros ? [? ?]).
  assert (F2 : Forall (fun f : Z * Z * list Z => f.1.1 <> 68) (flight n)) by (eapply Forall_impl; [exact Hfl|]; by intros ? [? ?]).
  assert (T1 : take_first (port_of n1 (s_fd s)) (flight n1) = Some (68, query xid, flight n)) by (rewrite P1; by apply take_first_last).
  destruct (recv_loop n1 (s_fd s) dbuf 68 (query xid) (flight n) Hdb (query_bytes xid) ltac:(done) T1) as [r1 ->]. rewrite some_bind.
  change (zlen (query xid) <? BOOT_MIN) with false. change (rd (query xid ++ r1) 0) with (Some 1). rewrite some_bind. cbn [Z.eqb Pos.eqb negb].
  rewrite opt_type_options, some_bind by apply query_bytes. change (find_type (options (query xid))) with 1. cbn [Z.eqb Pos.eqb negb].
  rewrite mk_offer_spec, some_bind. assert (Sl : slice (offered xid (s_offer_be s) ++ r1) 0 (BOOT_MIN + 4) = Some (offered xid (s_offer_be s))) by (by apply (slice_mid [])).
  rewrite Sl, some_bind. cbn [ip_sendto loop_udp fst d_port next_fd socks flight clock]. clear Sl T1.
  match goal with |- context [(Some ?m ≫= _)] => set (n2 := m) end. rewrite some_bind.
  assert (P2 : port_of n2 fd = 68) by apply port_of_new.
  assert (T2 : take_first (port_of n2 fd) (flight n2) = Some (port_of (Net (next_fd n1) (socks n1) (flight n) (clock n1)) (s_fd s), offered xid (s_offer_be s), flight n)) by (rewrite P2; by apply take_first_last).
  destruct (recv_loop n2 fd buf _ _ _ Hb (offered_bytes xid (s_offer_be s)) ltac:(done) T2) as [r2 ->]. rewrite some_bind.
  change (zlen (offered xid (s_offer_be s)) <? BOOT_MIN) with false. change (rd (offered xid (s_offer_be s) ++ r2) 0) with (Some 2). rewrite some_bind. cbn [Z.eqb Pos.eqb negb].
  assert (W4 : get_be32 (offered xid (s_offer_be s) ++ r2) 4 = Some xid) by (exact (get_be32_at [2; 1; 6; 0] xid (replicate 8 0 ++ be (s_offer_be s) ++ replicate 216 0 ++ be COOKIE ++ [53; 1; 2; 255] ++ r2) Hx)).
  assert (W16 : get_be32 (offered xid (s_offer_be s) ++ r2) 16 = Some (s_offer_be s)) by (exact (get_be32_at ([2; 1; 6; 0] ++ be xid ++ replicate 8 0) (s_offer_be s) (replicate 216 0 ++ be COOKIE ++ [53; 1; 2; 255] ++ r2) Ho)).
  rewrite W4, some_bind, Z.eqb_refl. cbn [negb]. rewrite opt_type_options, some_bind by apply offered_bytes. change (find_type (options (offered xid (s_offer_be s)))) with 2.
  cbn [Z.eqb Pos.eqb negb]. rewrite W16, some_bind. eexists. split; [done|]. split; [done|].
  cbn [ip_close loop_udp socks n2]. rewrite <- P1. by apply port_of_closed.
Qed.

Example discover_gets_offer_witness :
  let s := St true 4 167772162 9 0 None 0 None in let n := Net 5 [(4, 67)] [(53, 1000, [1])] 0 in
  exists n', pm_metal_net_dhcp_discover s n 2130706433 67 true (replicate 548 7) (replicate 548 7) = Some (with_xid s 10, n', Some 167772162) /\
    flight n' = [(53, 1000, [1])] /\ port_of n' 4 = 67.
Proof.
  intros s n. apply (discover_gets_offer s n 2130706433 67 (replicate 548 7) (replicate 548 7)); try done. constructor; [done|constructor].
Defined.
End Loop.
