(* ===== verification/Dstate.v ===== *)
(** * The dstate card: a replica of the shared key-value state

    src/.../metal/net/dstate/__impl__.c.  The card's globals are one record; of
    the two static arrays it keeps the live elements, [s_n] and [s_nm] being the
    lengths: an element behind them is all zero and never read.  A key is a C
    string, the bytes before the NUL; a NULL pointer is [None].  [None] as a
    result is an access outside a buffer. *)
From S2P Require Import Prelude.

Module Dstate.

Definition PM_METAL_DSTATE_KEY_MAX := 128.
Definition PM_METAL_DSTATE_VALUE_MAX := 4096.
Definition PM_METAL_DSTATE_ENTRIES_MAX := 64.
Definition PM_METAL_DSTATE_MERGES_MAX := 8.

(** [value] is the whole array of 4096 bytes. *)
Record entry := Entry { key : list Z; value : list Z; value_len : Z; version : Z; peer_id : Z }.

(** A merge callback: the local and the incoming bytes, the buffer [merged] and
    [*merged_len] as they come in, [user]; the status and both as they go out. *)
Definition merge_fn := list Z -> list Z -> list Z -> Z -> Z -> Z * list Z * Z.
Record merge := Merge { m_prefix : list Z; m_fn : option merge_fn; m_user : Z; m_used : bool }.

Record dstate := St { s_entries : list entry; s_merges : list merge; s_clock : Z; s_peer_id : Z }.

Definition s_n (s : dstate) : Z := zlen (s_entries s).
Definition s_nm (s : dstate) : Z := zlen (s_merges s).
Definition set_entries (s : dstate) (es : list entry) : dstate := St es (s_merges s) (s_clock s) (s_peer_id s).
Definition set_clock (s : dstate) (c : Z) : dstate := St (s_entries s) (s_merges s) c (s_peer_id s).

(** What [strncpy] of at most 127 bytes into a zeroed array leaves. *)
Definition key_copy (k : list Z) : list Z := take (Z.to_nat (PM_METAL_DSTATE_KEY_MAX - 1)) k.

(** The index from [i] on, or [None] for -1. *)
Fixpoint find_key (i : nat) (es : list entry) (k : list Z) : option nat :=
  match es with
  | [] => None
  | e :: t => if bool_decide (key e = k) then Some i else find_key (S i) t k
  end.
Definition find_entry (s : dstate) (k : option (list Z)) : option nat :=
  match k with None => None | Some k => find_key 0 (s_entries s) k end.

(** The loop of [find_merge] from index [i] with its [best] and [best_len]. *)
Fixpoint find_merge_from (i : nat) (ms : list merge) (k : list Z) (best : option nat) (best_len : Z) : option nat :=
  match ms with
  | [] => best
  | m :: t =>
      let plen := zlen (m_prefix m) in
      if negb (m_used m) then find_merge_from (S i) t k best best_len else
      if zlen k <? plen then find_merge_from (S i) t k best best_len else
      if bool_decide (take (Z.to_nat plen) k = m_prefix m) && (best_len <? plen) then find_merge_from (S i) t k (Some i) plen
      else find_merge_from (S i) t k best best_len
  end.
Definition find_merge (s : dstate) (k : option (list Z)) : option nat :=
  match k with None => None | Some k => find_merge_from 0 (s_merges s) k None 0 end.

Definition pm_metal_dstate_init (peer : Z) : dstate := St [] [] 0 peer.

Definition bump_clock (s : dstate) (incoming : Z) : dstate :=
  set_clock s (if s_clock s <=? incoming then u64 (incoming + 1) else u64 (s_clock s + 1)).

(** [memcpy(dst, value, value_len)] when [value_len > 0]. *)
Definition copy_value (dst : list Z) (v : option (list Z)) (len : Z) : option (list Z) :=
  if 0 <? len then b ← v; src ← slice b 0 len; blit dst 0 src else Some dst.
Definition zero_value : list Z := replicate (Z.to_nat PM_METAL_DSTATE_VALUE_MAX) 0.

(** A value is missing where bytes are promised. *)
Definition no_value (v : option (list Z)) (len : Z) : bool := negb (len =? 0) && match v with None => true | Some _ => false end.

Definition pm_metal_dstate_set (s : dstate) (k : option (list Z)) (v : option (list Z)) (len : Z) : option (dstate * Z) :=
  match k with
  | None | Some [] => Some (s, -1)
  | Some kk =>
      if no_value v len then Some (s, -1) else
      if PM_METAL_DSTATE_VALUE_MAX <? len then Some (s, -1) else
      let s := bump_clock s 0 in
      match find_entry s k with
      | Some idx =>
          e ← s_entries s !! idx;
          b ← copy_value (value e) v len;
          Some (set_entries s (<[idx := Entry (key e) b len (s_clock s) (s_peer_id s)]> (s_entries s)), 0)
      | None =>
          if PM_METAL_DSTATE_ENTRIES_MAX <=? s_n s then Some (s, -1) else
          b ← copy_value zero_value v len;
          Some (set_entries s (s_entries s ++ [Entry (key_copy kk) b len (s_clock s) (s_peer_id s)]), 0)
      end
  end.

(** [buf] and [len] are [*value] and [*value_len], before and after. *)
Definition pm_metal_dstate_get (s : dstate) (k : option (list Z)) (buf : option (list Z)) (len : option Z) : option (Z * option (list Z) * option Z) :=
  match k, buf, len with
  | Some _, Some b, Some l =>
      match find_entry s k with
      | None => Some (-1, buf, len)
      | Some idx =>
          e ← s_entries s !! idx;
          if PM_METAL_DSTATE_VALUE_MAX <? value_len e then Some (-1, buf, len) else
          if 0 <? value_len e then
            if l <? value_len e then Some (-2, buf, len) else
            b' ← copy_value b (Some (value e)) (value_len e);
            Some (0, Some b', Some (value_len e))
          else Some (0, buf, Some (value_len e))
      end
  | _, _, _ => Some (-1, buf, len)
  end.

Definition pm_metal_dstate_del (s : dstate) (k : option (list Z)) : option (dstate * Z) :=
  match k with
  | None | Some [] => Some (s, -1)
  | Some _ =>
      match find_entry s k with
      | None => Some (s, -1)
      | Some idx =>
          let n := (length (s_entries s) - 1)%nat in
          last ← s_entries s !! n;
          let es := if (idx <? n)%nat then <[idx := last]> (s_entries s) else s_entries s in
          Some (set_entries s (take n es), 0)
      end
  end.

Definition pm_metal_dstate_merge_register (s : dstate) (prefix : option (list Z)) (fn : option merge_fn) (user : Z) : dstate * Z :=
  match prefix, fn with
  | Some (c :: p), Some f =>
      if PM_METAL_DSTATE_MERGES_MAX <=? s_nm s then (s, -1) else
      (St (s_entries s) (s_merges s ++ [Merge (key_copy (c :: p)) (Some f) user true]) (s_clock s) (s_peer_id s), 0)
  | _, _ => (s, -1)
  end.

(** Overwriting an entry with what came in: an oversized value is not copied. *)
Definition take_incoming (e : entry) (v : option (list Z)) (len ver peer : Z) : option entry :=
  if len <=? PM_METAL_DSTATE_VALUE_MAX then b ← copy_value (value e) v len; Some (Entry (key e) b len ver peer)
  else Some (Entry (key e) (value e) (value_len e) ver peer).

(** The handler's turn in [recv], at a version tie. *)
Definition recv_merge (s : dstate) (idx : nat) (e : entry) (fn : merge_fn) (user : Z) (v : option (list Z)) (len ver : Z) : option (dstate * Z) :=
  loc ← slice (value e) 0 (value_len e);
  inc ← (if 0 <? len then b ← v; slice b 0 len else Some []);
  let '(mr, merged, merged_len) := fn loc inc zero_value PM_METAL_DSTATE_VALUE_MAX user in
  if mr =? 0 then
    '(b, l) ← (if merged_len <=? PM_METAL_DSTATE_VALUE_MAX then b ← copy_value (value e) (Some merged) merged_len; Some (b, merged_len)
               else Some (value e, value_len e));
    let s := bump_clock s ver in
    Some (set_entries s (<[idx := Entry (key e) b l (s_clock s) (s_peer_id s)]> (s_entries s)), 0)
  else Some (s, 0).

Definition pm_metal_dstate_recv (s : dstate) (k : option (list Z)) (v : option (list Z)) (len ver from_peer : Z) : option (dstate * Z) :=
  match k with
  | None => Some (s, -1)
  | Some kk =>
      if no_value v len then Some (s, -1) else
      if from_peer =? s_peer_id s then Some (s, 0) else
      match find_entry s k with
      | Some idx =>
          e ← s_entries s !! idx;
          if version e <? ver then
            e' ← take_incoming e v len ver from_peer;
            Some (bump_clock (set_entries s (<[idx := e']> (s_entries s))) ver, 0)
          else if ver =? version e then
            match mi ← find_merge s k; m ← s_merges s !! mi; f ← m_fn m; Some (f, m_user m) with
            | Some (f, user) => recv_merge s idx e f user v len ver
            | None =>
                e' ← (if peer_id e <? from_peer then take_incoming e v len (version e) from_peer else Some e);
                Some (bump_clock (set_entries s (<[idx := e']> (s_entries s))) ver, 0)
            end
          else Some (s, 0)
      | None =>
          if PM_METAL_DSTATE_ENTRIES_MAX <=? s_n s then Some (s, -1) else
          b ← (if len <=? PM_METAL_DSTATE_VALUE_MAX then copy_value zero_value v len else Some zero_value);
          let e := Entry (key_copy kk) b (if len <=? PM_METAL_DSTATE_VALUE_MAX then len else 0) ver from_peer in
          Some (bump_clock (set_entries s (s_entries s ++ [e])) ver, 0)
      end
  end.

Definition pm_metal_dstate_count (s : dstate) : Z := s_n s.
(** [out] tells whether the pointer is there; [None] is -1. *)
Definition pm_metal_dstate_at (s : dstate) (idx : Z) (out : bool) : option entry :=
  if negb out || (s_n s <=? idx) then None else s_entries s !! Z.to_nat idx.
Definition pm_metal_dstate_publish (s : dstate) : Z := s_n s.
End Dstate.
