(* ===== verification/DstateSpec.v ===== *)
(** * What the dstate card promises

    A replica is a finite map from keys to values with their version and origin;
    the calls are the map operations, and [recv] keeps the later writer.  Any
    number of replicas that have received the same writes, in any order and any
    number of times, answer alike. *)
From S2P Require Import Prelude Dstate.

Module DstateSpec.
Import Dstate.

(** ** The map a table stands for *)

(** The bytes, the version and the origin of an entry. *)
Abbreviation reg := (list Z * Z * Z)%type.
Definition reg_of (e : entry) : reg := (take (Z.to_nat (value_len e)) (value e), version e, peer_id e).
Definition kv (e : entry) : list Z * reg := (key e, reg_of e).
Definition abs (es : list entry) : gmap (list Z) reg := list_to_map (kv <$> es).

Definition entry_ok (e : entry) : Prop := zlen (value e) = PM_METAL_DSTATE_VALUE_MAX /\ 0 <= value_len e <= PM_METAL_DSTATE_VALUE_MAX.
Definition fn_ok (f : merge_fn) : Prop :=
  forall loc inc user, let '(_, b, l) := f loc inc zero_value PM_METAL_DSTATE_VALUE_MAX user in zlen b = PM_METAL_DSTATE_VALUE_MAX /\ 0 <= l.
Definition merge_ok (m : merge) : Prop := match m_fn m with Some f => fn_ok f | None => True end.
Definition wf (s : dstate) : Prop :=
  Forall entry_ok (s_entries s) /\ NoDup (key <$> s_entries s) /\ s_n s <= PM_METAL_DSTATE_ENTRIES_MAX /\ Forall merge_ok (s_merges s).

Lemma kv_keys es : (kv <$> es).*1 = key <$> es.
Proof. rewrite <- list_fmap_compose. by apply list_fmap_ext. Qed.

Lemma abs_perm es es' : NoDup (key <$> es) -> es ≡ₚ es' -> abs es = abs es'.
Proof. intros Hn Hp. apply list_to_map_proper; [by rewrite kv_keys|by apply fmap_Permutation]. Qed.

Lemma abs_cons e es : abs (e :: es) = <[key e := reg_of e]> (abs es).
Proof. done. Qed.

Lemma abs_size es : NoDup (key <$> es) -> size (abs es) = length es.
Proof.
  induction es as [|e es IH]; intros Hn; [done|]. apply NoDup_cons in Hn as [Hi Hn]. rewrite abs_cons, map_size_insert_None; [cbn; by rewrite IH|].
  apply not_elem_of_list_to_map_1. by rewrite kv_keys.
Qed.

Lemma abs_None es k : abs es !! k = None <-> k ∉ (key <$> es).
Proof. unfold abs. rewrite <- kv_keys. split; [apply not_elem_of_list_to_map_2|apply not_elem_of_list_to_map_1]. Qed.

Lemma find_key_spec k : forall es i, match find_key i es k with
  | Some j => exists d e, j = (i + d)%nat /\ es !! d = Some e /\ key e = k
  | None => k ∉ (key <$> es) end.
Proof.
  induction es as [|e es IH]; intros i; cbn [find_key]; [apply not_elem_of_nil|]. case_bool_decide as Hk.
  - exists 0%nat, e. split; [lia|done].
  - specialize (IH (S i)). destruct (find_key (S i) es k) as [j|].
    + destruct IH as (d & e' & -> & He & Hk'). exists (S d), e'. split; [lia|done].
    + cbn. rewrite not_elem_of_cons. by split; [congruence|].
Qed.

(** What [find_entry] says of the map, and how storing at its index changes it. *)
Lemma find_entry_abs s k : wf s -> match find_entry s (Some k) with
  | Some i => exists e, s_entries s !! i = Some e /\ key e = k /\ entry_ok e /\ abs (s_entries s) !! k = Some (reg_of e)
  | None => abs (s_entries s) !! k = None end.
Proof.
  intros (He & Hn & _). unfold find_entry. pose proof (find_key_spec k (s_entries s) 0) as F. destruct (find_key 0 (s_entries s) k) as [i|]; [|by apply abs_None].
  destruct F as (d & e & -> & Hd & Hk). exists e. split; [done|]. split; [done|]. split; [by eapply Forall_lookup_1|].
  rewrite (abs_perm _ (e :: delete d (s_entries s)) Hn) by (by apply delete_Permutation). rewrite abs_cons, Hk. apply lookup_insert_eq.
Qed.

Lemma put_perm {A} (l : list A) i x y : l !! i = Some x -> <[i := y]> l ≡ₚ y :: delete i l.
Proof.
  intros H. rewrite (delete_Permutation (<[i := y]> l) i y) by (apply list_lookup_insert_eq; by eapply lookup_lt_Some).
  apply reflexive_eq. f_equal. clear x H. revert i. induction l as [|z l IH]; intros [|i]; cbn; [done..|]. by rewrite IH.
Qed.

Lemma keys_put (es : list entry) (i : nat) e e' : es !! i = Some e -> key e' = key e -> key <$> (<[i := e']> es) = key <$> es.
Proof.
  intros H Hk. rewrite list_fmap_insert, Hk. apply list_insert_id. by rewrite list_lookup_fmap, H.
Qed.

Lemma abs_put (es : list entry) (i : nat) e e' : NoDup (key <$> es) -> es !! i = Some e -> key e' = key e -> abs (<[i := e']> es) = <[key e := reg_of e']> (abs es).
Proof.
  intros Hn H Hk. rewrite (abs_perm (<[i := e']> es) (e' :: delete i es)) by (rewrite ?(keys_put _ _ e) by done; done || by eapply put_perm).
  rewrite (abs_perm es (e :: delete i es) Hn) by (by apply delete_Permutation). by rewrite !abs_cons, Hk, insert_insert_eq.
Qed.

Lemma abs_snoc es e : NoDup (key <$> es) -> key e ∉ (key <$> es) -> abs (es ++ [e]) = <[key e := reg_of e]> (abs es).
Proof.
  intros Hn Hk. rewrite (abs_perm (es ++ [e]) (e :: es)); [done| |by rewrite Permutation_app_comm].
  rewrite fmap_app. apply NoDup_app. split; [done|]. split; [|by apply NoDup_singleton]. intros x Hx ->%list_elem_of_singleton. done.
Qed.

Lemma wf_put s i e e' : wf s -> s_entries s !! i = Some e -> key e' = key e -> entry_ok e' -> wf (set_entries s (<[i := e']> (s_entries s))).
Proof.
  intros (He & Hn & Hl & Hm) H Hk Ho. unfold wf, s_n in *. cbn [s_entries set_entries s_merges]. rewrite length_insert, (keys_put _ _ e) by done. split; [by apply Forall_insert|done].
Qed.

Lemma wf_snoc s e : wf s -> s_n s < PM_METAL_DSTATE_ENTRIES_MAX -> abs (s_entries s) !! key e = None -> entry_ok e -> wf (set_entries s (s_entries s ++ [e])).
Proof.
  intros (He & Hn & Hl & Hm) H Hk%abs_None Ho. unfold wf, s_n in *. cbn [s_entries set_entries s_merges]. rewrite length_app. cbn [length]. split; [|split; [|split; [lia|done]]].
  - apply Forall_app. split; [done|by constructor].
  - rewrite fmap_app. apply NoDup_app. split; [done|]. split; [|by apply NoDup_singleton]. intros x Hx ->%list_elem_of_singleton. done.
Qed.

Lemma wf_clock s c : wf s -> wf (set_clock s c).
Proof. done. Qed.

(** ** Copies *)

(** [v] has the [len] bytes it is said to have, and they are these. *)
Definition val_ok (v : option (list Z)) (len : Z) : Prop := 0 <= len /\ match v with Some b => len <= zlen b | None => len = 0 end.
Definition content (v : option (list Z)) (len : Z) : list Z := take (Z.to_nat len) (default [] v).

Lemma val_ok_no_value v len : val_ok v len -> no_value v len = false.
Proof. unfold val_ok, no_value. intros [? H]. destruct v; [by rewrite andb_false_r|]. subst. done. Qed.

Lemma copy_value_spec dst v len : val_ok v len -> len <= zlen dst ->
  exists b, copy_value dst v len = Some b /\ zlen b = zlen dst /\ take (Z.to_nat len) b = content v len.
Proof.
  intros [Hl Hv] Hd. unfold copy_value. destruct (Z.ltb_spec 0 len) as [Hp|Hz].
  - destruct v as [b|]; [|lia]. rewrite some_bind, slice_is_Some, some_bind by lia. change (Z.to_nat 0) with 0%nat. rewrite drop_0.
    assert (L : zlen (take (Z.to_nat len) b) = len) by (rewrite length_take; lia). rewrite blit_is_Some by lia. eexists. split; [done|]. change (Z.to_nat 0) with 0%nat. rewrite take_0, app_nil_l. split.
    + rewrite length_app, length_drop. lia.
    + unfold content. change (default [] (Some b)) with b. by rewrite take_app_length' by lia.
  - exists dst. assert (len = 0) as -> by lia. done.
Qed.

Lemma zero_value_length : zlen zero_value = PM_METAL_DSTATE_VALUE_MAX.
Proof. unfold zero_value. by rewrite length_replicate. Qed.

Lemma key_copy_short k : zlen k < PM_METAL_DSTATE_KEY_MAX -> key_copy k = k.
Proof. unfold PM_METAL_DSTATE_KEY_MAX. intros. unfold key_copy, PM_METAL_DSTATE_KEY_MAX. by rewrite take_ge by lia. Qed.

(** ** The abstract replica *)

Record astate := A { a_map : gmap (list Z) reg; a_merges : list merge; a_clock : Z; a_peer : Z }.
Definition abstr (s : dstate) : astate := A (abs (s_entries s)) (s_merges s) (s_clock s) (s_peer_id s).

(** The Lamport clock after an event of version [v]. *)
Definition tick (c v : Z) : Z := if c <=? v then u64 (v + 1) else u64 (c + 1).
Definition fits (v : list Z) : bool := zlen v <=? PM_METAL_DSTATE_VALUE_MAX.
Definition a_put (a : astate) (k : list Z) (r : reg) (c : Z) : astate := A (<[k := r]> (a_map a)) (a_merges a) c (a_peer a).
Definition a_full (a : astate) : bool := PM_METAL_DSTATE_ENTRIES_MAX <=? Z.of_nat (size (a_map a)).

Definition a_set (a : astate) (k v : list Z) : astate * Z :=
  if bool_decide (k = []) || negb (fits v) then (a, -1) else
  let c := tick (a_clock a) 0 in
  if a_full a && bool_decide (a_map a !! k = None) then (A (a_map a) (a_merges a) c (a_peer a), -1)
  else (a_put a k (v, c, a_peer a) c, 0).

Definition a_get (a : astate) (k : list Z) (cap : Z) : Z * list Z :=
  match a_map a !! k with
  | None => (-1, [])
  | Some (v, _, _) => if cap <? zlen v then (-2, []) else (0, v)
  end.

Definition a_del (a : astate) (k : list Z) : astate * Z :=
  match k, a_map a !! k with
  | _ :: _, Some _ => (A (delete k (a_map a)) (a_merges a) (a_clock a) (a_peer a), 0)
  | _, _ => (a, -1)
  end.

(** The handler in charge of a key. *)
Definition handler (ms : list merge) (k : list Z) : option (merge_fn * Z) :=
  mi ← find_merge_from 0 ms k None 0; m ← ms !! mi; f ← m_fn m; Some (f, m_user m).

(** Later writer wins: by version, then by origin; an oversized value is not taken. *)
Definition a_recv (a : astate) (k v : list Z) (ver from : Z) : astate * Z :=
  if from =? a_peer a then (a, 0) else
  match a_map a !! k with
  | None => if a_full a then (a, -1) else (a_put a k (if fits v then v else [], ver, from) (tick (a_clock a) ver), 0)
  | Some (lv, lver, lpeer) =>
      if lver <? ver then (a_put a k (if fits v then v else lv, ver, from) (tick (a_clock a) ver), 0)
      else if ver =? lver then
        match handler (a_merges a) k with
        | Some (f, user) =>
            let '(mr, b, l) := f lv v zero_value PM_METAL_DSTATE_VALUE_MAX user in
            if mr =? 0 then let c := tick (a_clock a) ver in
              (a_put a k (if l <=? PM_METAL_DSTATE_VALUE_MAX then take (Z.to_nat l) b else lv, c, a_peer a) c, 0)
            else (a, 0)
        | None => (a_put a k (if lpeer <? from then (if fits v then v else lv, lver, from) else (lv, lver, lpeer)) (tick (a_clock a) ver), 0)
        end
      else (a, 0)
  end.

Lemma abstr_put s i e e' c : wf s -> s_entries s !! i = Some e -> key e' = key e ->
  abstr (set_clock (set_entries s (<[i := e']> (s_entries s))) c) = a_put (abstr s) (key e) (reg_of e') c.
Proof. intros (_ & Hn & _) H Hk. unfold abstr, a_put. cbn [s_entries set_clock set_entries a_map a_merges a_peer s_merges s_peer_id s_clock]. by rewrite (abs_put _ _ e) by done. Qed.

Lemma abstr_snoc s e c : wf s -> abs (s_entries s) !! key e = None -> abstr (set_clock (set_entries s (s_entries s ++ [e])) c) = a_put (abstr s) (key e) (reg_of e) c.
Proof. intros (_ & Hn & _) Hk%abs_None. unfold abstr, a_put. cbn [s_entries set_clock set_entries a_map a_merges a_peer s_merges s_peer_id s_clock]. by rewrite abs_snoc by done. Qed.

Lemma a_full_n s : wf s -> a_full (abstr s) = (PM_METAL_DSTATE_ENTRIES_MAX <=? s_n s).
Proof. intros (_ & Hn & _). unfold a_full, s_n. cbn [abstr a_map]. by rewrite abs_size by done. Qed.

Lemma content_whole v : content (Some v) (zlen v) = v.
Proof. unfold content. change (default [] (Some v)) with v. by rewrite Nat2Z.id, take_ge by lia. Qed.

Lemma val_ok_whole v : val_ok (Some v) (zlen v).
Proof. unfold val_ok. lia. Qed.

Lemma set_spec s k v : wf s -> zlen k < PM_METAL_DSTATE_KEY_MAX ->
  exists s' r, pm_metal_dstate_set s (Some k) (Some v) (zlen v) = Some (s', r) /\ wf s' /\ a_set (abstr s) k v = (abstr s', r).
Proof.
  intros Hw Hk. unfold pm_metal_dstate_set, a_set. destruct k as [|c k']; [by exists s, (-1)|]. set (k := c :: k') in *. rewrite (bool_decide_eq_false_2 (k = [])) by done.
  rewrite val_ok_no_value by apply val_ok_whole. unfold fits. cbn [orb].
  destruct (Z.ltb_spec PM_METAL_DSTATE_VALUE_MAX (zlen v)), (Z.leb_spec (zlen v) PM_METAL_DSTATE_VALUE_MAX) as [Hv|]; try lia; cbn [negb]; [by exists s, (-1)|].
  unfold bump_clock. change (if s_clock s <=? 0 then u64 (0 + 1) else u64 (s_clock s + 1)) with (tick (s_clock s) 0). change (a_clock (abstr s)) with (s_clock s). set (c0 := tick _ 0).
  rewrite a_full_n by done. change (a_map (abstr s)) with (abs (s_entries s)). pose proof (find_entry_abs s k Hw) as F.
  change (find_entry (set_clock s c0) (Some k)) with (find_entry s (Some k)). change (s_entries (set_clock s c0)) with (s_entries s). change (s_n (set_clock s c0)) with (s_n s).
  destruct (find_entry s (Some k)) as [i|].
  - destruct F as (e & Hi & He & Ho & Ha). rewrite Ha, andb_false_r, Hi, some_bind. destruct Ho as [Ho1 Ho2].
    destruct (copy_value_spec (value e) (Some v) (zlen v) (val_ok_whole v) ltac:(lia)) as (b & -> & Lb & Tb). rewrite some_bind. eexists _, _. split; [done|].
    rewrite content_whole in Tb. assert (Eo : entry_ok (Entry (key e) b (zlen v) c0 (s_peer_id s))) by (split; cbn; lia). split; [by apply (wf_put (set_clock s c0) i e)|].
    change (set_entries (set_clock s c0) ?es) with (set_clock (set_entries s es) c0). rewrite (abstr_put s i e) by done. rewrite He. unfold reg_of. cbn [value_len value version peer_id]. by rewrite Tb.
  - rewrite F, bool_decide_eq_true_2, andb_true_r by done. destruct (Z.leb_spec PM_METAL_DSTATE_ENTRIES_MAX (s_n s)) as [|Hn]; [by exists (set_clock s c0), (-1)|].
    destruct (copy_value_spec zero_value (Some v) (zlen v) (val_ok_whole v)) as (b & -> & Lb & Tb); [by rewrite zero_value_length|]. rewrite some_bind, key_copy_short by done.
    rewrite content_whole in Tb. rewrite zero_value_length in Lb. assert (Eo : entry_ok (Entry k b (zlen v) c0 (s_peer_id s))) by (split; cbn; lia). eexists _, _. split; [done|]. split; [by apply (wf_snoc (set_clock s c0))|].
    change (set_entries (set_clock s c0) ?es) with (set_clock (set_entries s es) c0). cbn [s_peer_id set_clock s_clock]. rewrite abstr_snoc by done. unfold reg_of. cbn [value_len value version peer_id key]. by rewrite Tb.
Qed.
Lemma reg_length e : entry_ok e -> zlen (reg_of e).1.1 = value_len e.
Proof. intros [H1 H2]. cbn. rewrite length_take. lia. Qed.

Lemma get_spec s k buf : wf s ->
  exists r b l, pm_metal_dstate_get s (Some k) (Some buf) (Some (zlen buf)) = Some (r, Some b, Some l) /\
    a_get (abstr s) k (zlen buf) = (r, if r =? 0 then take (Z.to_nat l) b else []).
Proof.
  intros Hw. unfold pm_metal_dstate_get, a_get. change (a_map (abstr s)) with (abs (s_entries s)). pose proof (find_entry_abs s k Hw) as F.
  destruct (find_entry s (Some k)) as [i|]; [|rewrite F; by eexists _, _, _]. destruct F as (e & -> & _ & Ho & ->). rewrite some_bind.
  pose proof (reg_length e Ho) as R. destruct Ho as [H1 H2]. rewrite (proj2 (Z.ltb_ge _ _)) by lia. cbn [reg_of fst] in *. rewrite R.
  destruct (Z.ltb_spec 0 (value_len e)) as [Hp|Hz].
  - destruct (Z.ltb_spec (zlen buf) (value_len e)) as [|Hc]; [by eexists _, _, _|].
    destruct (copy_value_spec buf (Some (value e)) (value_len e)) as (b & -> & _ & Tb); [split; lia|done|]. rewrite some_bind. eexists _, _, _. split; [done|]. cbn [Z.eqb]. by rewrite Tb.
  - assert (value_len e = 0) as E by lia. rewrite E, (proj2 (Z.ltb_ge _ 0)) by lia. eexists _, _, _. split; [done|]. done.
Qed.

Lemma take_swap (es : list entry) i e last : es !! i = Some e -> es !! (length es - 1)%nat = Some last ->
  take (length es - 1) (if (i <? length es - 1)%nat then <[i := last]> es else es) ≡ₚ delete i es.
Proof.
  intros Hi Hl. pose proof (lookup_lt_Some _ _ _ Hi) as Hlt. set (n := (length es - 1)%nat) in *. assert (Es : es = take n es ++ [last]).
  { rewrite <- (take_drop n es) at 1. f_equal. rewrite (drop_S _ _ _ Hl), drop_ge by (unfold n; lia). done. }
  assert (Ln : length (take n es) = n) by (rewrite length_take; unfold n; lia). set (a := take n es) in *. destruct (Nat.ltb_spec i n).
  - assert (Hi' : a !! i = Some e) by (rewrite Es, lookup_app_l in Hi by lia; exact Hi). rewrite Es, insert_app_l, take_app_length' by (rewrite ?length_insert; lia).
    rewrite (put_perm _ _ _ _ Hi'), !delete_take_drop, take_app_le, drop_app_le, (assoc_L (++)) by lia. by rewrite Permutation_cons_append.
  - assert (i = n) as -> by (unfold n in *; lia). fold a. rewrite Es, delete_take_drop, take_app_length', drop_ge by (rewrite ?length_app; cbn; lia). by rewrite app_nil_r.
Qed.

Lemma del_spec s k : wf s ->
  exists s' r, pm_metal_dstate_del s (Some k) = Some (s', r) /\ wf s' /\ a_del (abstr s) k = (abstr s', r).
Proof.
  intros Hw. unfold pm_metal_dstate_del, a_del. destruct k as [|c k']; [by exists s, (-1)|]. set (k := c :: k') in *. change (a_map (abstr s)) with (abs (s_entries s)). pose proof (find_entry_abs s k Hw) as F.
  destruct (find_entry s (Some k)) as [i|]; [|rewrite F; by exists s, (-1)]. destruct F as (e & Hi & He & Ho & Ha). rewrite Ha.
  pose proof (lookup_lt_Some _ _ _ Hi) as Hlt. destruct (lookup_lt_is_Some_2 (s_entries s) (length (s_entries s) - 1)) as [last Hl]; [lia|]. rewrite Hl, some_bind.
  pose proof (take_swap _ _ _ _ Hi Hl) as P. set (es' := take _ _) in *. destruct Hw as (We & Wn & Wl & Wm).
  pose proof (delete_Permutation _ _ _ Hi) as D. assert (N : NoDup (key <$> e :: delete i (s_entries s))) by (by rewrite <- D). apply NoDup_cons in N as [N1 N2].
  eexists _, _. split; [done|]. split.
  - unfold wf, s_n in *. cbn [s_entries set_entries s_merges]. split; [rewrite P; by apply Forall_delete|]. split; [by rewrite P|]. split; [|done].
    rewrite P. pose proof (Permutation_length D) as L. cbn [length] in L. lia.
  - unfold abstr. cbn [s_entries set_entries s_merges s_clock s_peer_id a_merges a_clock a_peer]. f_equal. f_equal. rewrite (abs_perm es' (delete i (s_entries s))) by (rewrite ?P; done).
    rewrite (abs_perm _ _ Wn D), abs_cons, He. rewrite delete_insert_id; [done|]. apply abs_None. by rewrite <- He.
Qed.

Lemma take_incoming_spec e v ver peer : entry_ok e -> exists e', take_incoming e (Some v) (zlen v) ver peer = Some e' /\ key e' = key e /\ entry_ok e' /\
  reg_of e' = (if fits v then v else (reg_of e).1.1, ver, peer).
Proof.
  intros [H1 H2]. unfold take_incoming, fits. destruct (Z.leb_spec (zlen v) PM_METAL_DSTATE_VALUE_MAX) as [Hv|Hv].
  - destruct (copy_value_spec (value e) (Some v) (zlen v) (val_ok_whole v) ltac:(lia)) as (b & -> & Lb & Tb). rewrite some_bind. eexists. split; [done|]. split; [done|].
    split; [split; cbn; lia|]. rewrite content_whole in Tb. unfold reg_of. cbn [value value_len version peer_id]. by rewrite Tb.
  - eexists. split; [done|]. split; [done|]. by split.
Qed.

Lemma bump_tick s v : bump_clock s v = set_clock s (tick (s_clock s) v).
Proof. done. Qed.

Lemma handler_lookup s k : (mi ← find_merge s (Some k); m ← s_merges s !! mi; f ← m_fn m; Some (f, m_user m)) = handler (s_merges s) k.
Proof. done. Qed.

Lemma handler_ok s k f u : wf s -> handler (s_merges s) k = Some (f, u) -> fn_ok f.
Proof.
  intros (_ & _ & _ & Hm) H. unfold handler in H. obind H mi E1. obind H m E2. obind H g E3. simplify_eq.
  eapply Forall_lookup_1 in Hm; [|exact E2]. unfold merge_ok in Hm. by rewrite E3 in Hm.
Qed.

Lemma recv_merge_spec s i e k v ver f u from : wf s -> s_entries s !! i = Some e -> key e = k -> entry_ok e -> fn_ok f ->
  a_map (abstr s) !! k = Some (reg_of e) -> version e = ver -> handler (s_merges s) k = Some (f, u) -> from <> s_peer_id s ->
  exists s' r, recv_merge s i e f u (Some v) (zlen v) ver = Some (s', r) /\ wf s' /\ a_recv (abstr s) k v ver from = (abstr s', r).
Proof.
  intros Hw Hi <- [H1 H2] Hf Ha <- Hh Hfrom. unfold recv_merge, a_recv. cbn [abstr a_peer a_map]. rewrite (proj2 (Z.eqb_neq _ _)) by done. cbn [abstr a_map] in Ha. rewrite Ha. cbn [abstr a_merges a_clock reg_of].
  rewrite Z.ltb_irrefl, Z.eqb_refl, Hh. rewrite slice_is_Some, some_bind by lia. change (Z.to_nat 0) with 0%nat. rewrite drop_0.
  assert (Inc : (if 0 <? zlen v then b ← Some v; slice b 0 (zlen v) else Some []) = Some v).
  { destruct (Z.ltb_spec 0 (zlen v)); [|by destruct v; [|cbn in *; lia]]. rewrite some_bind, slice_is_Some by lia. change (Z.to_nat 0) with 0%nat. by rewrite drop_0, take_ge by lia. }
  rewrite Inc, some_bind. specialize (Hf (take (Z.to_nat (value_len e)) (value e)) v u). destruct (f _ v zero_value _ u) as [[mr b] l]. destruct Hf as [Hb Hl].
  destruct (mr =? 0); [|by exists s, 0]. rewrite bump_tick. set (c := tick (s_clock s) (version e)).
  assert (K : exists b' l', (if l <=? PM_METAL_DSTATE_VALUE_MAX then b0 ← copy_value (value e) (Some b) l; Some (b0, l) else Some (value e, value_len e)) = Some (b', l') /\
    zlen b' = PM_METAL_DSTATE_VALUE_MAX /\ 0 <= l' <= PM_METAL_DSTATE_VALUE_MAX /\
    take (Z.to_nat l') b' = if l <=? PM_METAL_DSTATE_VALUE_MAX then take (Z.to_nat l) b else take (Z.to_nat (value_len e)) (value e)).
  { destruct (Z.leb_spec l PM_METAL_DSTATE_VALUE_MAX); [|by exists (value e), (value_len e)].
    destruct (copy_value_spec (value e) (Some b) l) as (b0 & -> & L0 & T0); [split; lia|lia|]. rewrite some_bind. exists b0, l. split; [done|]. split; [lia|]. split; [lia|exact T0]. }
  destruct K as (b' & l' & -> & Lb & Ll & <-). rewrite some_bind. set (e' := Entry (key e) b' l' _ _).
  assert (Eo : entry_ok e') by (split; cbn; lia). eexists _, _. split; [done|]. split; [by apply (wf_put (set_clock s c) i e)|].
  change (set_entries (set_clock s c) ?es) with (set_clock (set_entries s es) c). by rewrite (abstr_put s i e).
Qed.

Lemma dstate_recv_spec s k v ver from : wf s -> zlen k < PM_METAL_DSTATE_KEY_MAX ->
  exists s' r, pm_metal_dstate_recv s (Some k) (Some v) (zlen v) ver from = Some (s', r) /\ wf s' /\ a_recv (abstr s) k v ver from = (abstr s', r).
Proof.
  intros Hw Hk. unfold pm_metal_dstate_recv. rewrite val_ok_no_value by apply val_ok_whole. destruct (Z.eqb_spec from (s_peer_id s)) as [->|Hfrom].
  { exists s, 0. split; [done|]. split; [done|]. unfold a_recv. cbn [abstr a_peer]. by rewrite Z.eqb_refl. }
  pose proof (find_entry_abs s k Hw) as F. destruct (find_entry s (Some k)) as [i|].
  - destruct F as (e & Hi & He & Ho & Ha). rewrite Hi, some_bind. destruct (Z.ltb_spec (version e) ver) as [Hv|Hv].
    + destruct (take_incoming_spec e v ver from Ho) as (e' & -> & Ke & Oe & Re). rewrite some_bind, bump_tick. eexists _, _. split; [done|].
      split; [by apply (wf_put s i e)|]. change (s_clock (set_entries s ?es)) with (s_clock s). rewrite (abstr_put s i e) by done.
      unfold a_recv. cbn [abstr a_peer a_map a_clock]. rewrite (proj2 (Z.eqb_neq _ _)), Ha by done. cbn [reg_of]. rewrite (proj2 (Z.ltb_lt _ _)) by done. by rewrite He, Re.
    + destruct (Z.eqb_spec ver (version e)) as [->|Hne].
      * rewrite handler_lookup. destruct (handler (s_merges s) k) as [[f u]|] eqn:Hh; [eapply recv_merge_spec; eauto using handler_ok|].
        assert (K : exists e', (if peer_id e <? from then take_incoming e (Some v) (zlen v) (version e) from else Some e) = Some e' /\ key e' = key e /\ entry_ok e' /\
          reg_of e' = if peer_id e <? from then (if fits v then v else (reg_of e).1.1, version e, from) else reg_of e).
        { destruct (peer_id e <? from); [by apply take_incoming_spec|by exists e]. }
        destruct K as (e' & -> & Ke & Oe & Re). rewrite some_bind, bump_tick. eexists _, _. split; [done|]. split; [by apply (wf_put s i e)|].
        change (s_clock (set_entries s ?es)) with (s_clock s). rewrite (abstr_put s i e) by done. unfold a_recv. cbn [abstr a_peer a_map a_clock a_merges]. rewrite (proj2 (Z.eqb_neq _ _)), Ha by done.
        cbn [reg_of fst] in *. rewrite Z.ltb_irrefl, Z.eqb_refl, Hh, He, Re. done.
      * exists s, 0. split; [done|]. split; [done|]. unfold a_recv. cbn [abstr a_peer a_map]. rewrite (proj2 (Z.eqb_neq from _)), Ha by done. cbn [reg_of].
        rewrite (proj2 (Z.ltb_ge _ _)), (proj2 (Z.eqb_neq ver _)) by done. done.
  - assert (Ea : a_recv (abstr s) k v ver from = if a_full (abstr s) then (abstr s, -1) else (a_put (abstr s) k (if fits v then v else [], ver, from) (tick (s_clock s) ver), 0)).
    { unfold a_recv. cbn [abstr a_peer a_map]. by rewrite (proj2 (Z.eqb_neq _ _)), F by done. }
    rewrite Ea, a_full_n by done. destruct (Z.leb_spec PM_METAL_DSTATE_ENTRIES_MAX (s_n s)) as [|Hn]; [by exists s, (-1)|]. rewrite key_copy_short by done.
    assert (K : exists b, (if zlen v <=? PM_METAL_DSTATE_VALUE_MAX then copy_value zero_value (Some v) (zlen v) else Some zero_value) = Some b /\ zlen b = PM_METAL_DSTATE_VALUE_MAX /\
      take (Z.to_nat (if zlen v <=? PM_METAL_DSTATE_VALUE_MAX then zlen v else 0)) b = if fits v then v else []).
    { unfold fits. destruct (Z.leb_spec (zlen v) PM_METAL_DSTATE_VALUE_MAX); [|exists zero_value; split; [done|]; split; [apply zero_value_length|done]].
      destruct (copy_value_spec zero_value (Some v) (zlen v) (val_ok_whole v)) as (b & -> & Lb & Tb); [by rewrite zero_value_length|]. rewrite zero_value_length in Lb. rewrite content_whole in Tb. by exists b. }
    destruct K as (b & -> & Lb & Tb). rewrite some_bind, bump_tick. set (e' := Entry k b _ ver from).
    assert (Eo : entry_ok e') by (split; [exact Lb|cbn; destruct (Z.leb_spec (zlen v) PM_METAL_DSTATE_VALUE_MAX); unfold PM_METAL_DSTATE_VALUE_MAX in *; lia]).
    eexists _, _. split; [done|]. split; [by apply (wf_snoc s)|]. change (s_clock (set_entries s ?es)) with (s_clock s). rewrite abstr_snoc by done.
    unfold reg_of. cbn [e' value_len value version peer_id key]. by rewrite Tb.
Qed.
End DstateSpec.
