(* ===== verification/DstateNet.v ===== *)
(** * Replicas of the dstate card among themselves

    Any sequence of calls against the abstract replica; any number of replicas
    that write and hear each other's writes in any order; and what a merge
    handler does at a tie. *)
From S2P Require Import Prelude Dstate DstateSpec.

Module DstateNet.
Import Dstate DstateSpec.

(** ** Sequences of calls *)

Inductive call :=
| CSet (k v : list Z)
| CGet (k buf : list Z)
| CDel (k : list Z)
| CRegister (prefix : list Z) (fn : merge_fn) (user : Z)
| CRecv (k v : list Z) (ver from : Z)
| CCount.

(** A call's status and the bytes it hands out. *)
Definition call_exec (s : dstate) (c : call) : option (dstate * (Z * list Z)) :=
  match c with
  | CSet k v => '(s, r) ← pm_metal_dstate_set s (Some k) (Some v) (zlen v); Some (s, (r, []))
  | CGet k buf =>
      '(r, b, l) ← pm_metal_dstate_get s (Some k) (Some buf) (Some (zlen buf));
      Some (s, (r, if r =? 0 then take (Z.to_nat (default 0 l)) (default [] b) else []))
  | CDel k => '(s, r) ← pm_metal_dstate_del s (Some k); Some (s, (r, []))
  | CRegister p f u => let '(s, r) := pm_metal_dstate_merge_register s (Some p) (Some f) u in Some (s, (r, []))
  | CRecv k v ver from => '(s, r) ← pm_metal_dstate_recv s (Some k) (Some v) (zlen v) ver from; Some (s, (r, []))
  | CCount => Some (s, (pm_metal_dstate_count s, []))
  end.

Definition a_register (a : astate) (p : list Z) (f : merge_fn) (u : Z) : astate * Z :=
  if bool_decide (p = []) || (PM_METAL_DSTATE_MERGES_MAX <=? zlen (a_merges a)) then (a, -1)
  else (A (a_map a) (a_merges a ++ [Merge (key_copy p) (Some f) u true]) (a_clock a) (a_peer a), 0).

Definition aexec (a : astate) (c : call) : astate * (Z * list Z) :=
  match c with
  | CSet k v => let '(a, r) := a_set a k v in (a, (r, []))
  | CGet k buf => (a, a_get a k (zlen buf))
  | CDel k => let '(a, r) := a_del a k in (a, (r, []))
  | CRegister p f u => let '(a, r) := a_register a p f u in (a, (r, []))
  | CRecv k v ver from => let '(a, r) := a_recv a k v ver from in (a, (r, []))
  | CCount => (a, (Z.of_nat (size (a_map a)), []))
  end.

Fixpoint runs (s : dstate) (cs : list call) : option (dstate * list (Z * list Z)) :=
  match cs with
  | [] => Some (s, [])
  | c :: t => '(s, r) ← call_exec s c; '(s, rs) ← runs s t; Some (s, r :: rs)
  end.
Fixpoint aruns (a : astate) (cs : list call) : astate * list (Z * list Z) :=
  match cs with
  | [] => (a, [])
  | c :: t => let '(a, r) := aexec a c in let '(a, rs) := aruns a t in (a, r :: rs)
  end.

(** Keys that fit into [key[128]], handlers that keep to their buffer. *)
Definition call_ok (c : call) : Prop :=
  match c with
  | CSet k _ | CRecv k _ _ _ => zlen k < PM_METAL_DSTATE_KEY_MAX
  | CRegister _ f _ => fn_ok f
  | _ => True
  end.

Lemma init_wf p : wf (pm_metal_dstate_init p).
Proof. split; [constructor|]. split; [constructor|]. split; [done|constructor]. Qed.

Lemma call_exec_spec s c : wf s -> call_ok c -> exists s' r, call_exec s c = Some (s', r) /\ wf s' /\ aexec (abstr s) c = (abstr s', r).
Proof.
  intros Hw Hc. destruct c as [k v|k buf|k|p f u|k v ver from|]; cbn [call_exec aexec call_ok] in *.
  - destruct (set_spec s k v Hw Hc) as (s' & r & -> & Hw' & ->). by eexists _, _.
  - destruct (get_spec s k buf Hw) as (r & b & l & -> & ->). by eexists _, _.
  - destruct (del_spec s k Hw) as (s' & r & -> & Hw' & ->). by eexists _, _.
  - unfold pm_metal_dstate_merge_register, a_register. destruct p as [|c p]; [by eexists _, _|]. rewrite (bool_decide_eq_false_2 (c :: p = [])) by done.
    change (zlen (a_merges (abstr s))) with (s_nm s). cbn [orb]. destruct (PM_METAL_DSTATE_MERGES_MAX <=? s_nm s); [by eexists _, _|]. eexists _, _. split; [done|]. split; [|done].
    destruct Hw as (H1 & H2 & H3 & H4). split; [done|]. split; [done|]. split; [done|]. cbn [s_merges]. apply Forall_app. split; [done|]. by constructor.
  - destruct (dstate_recv_spec s k v ver from Hw Hc) as (s' & r & -> & Hw' & ->). by eexists _, _.
  - eexists _, _. split; [done|]. split; [done|]. cbn [abstr a_map]. rewrite abs_size by apply Hw. done.
Qed.

(** C27: a replica is a last-writer-wins map.  Whatever calls are made, in
    whatever order, from [init] on -- writes, reads, deletions, handlers,
    messages of any peer with any version and size -- every one returns, stays
    inside its arrays and answers as the map from keys to (value, version,
    origin) does: the table with its linear search, its slots that move on a
    deletion and its buffers implements that map. *)
Theorem dstate_refines_lww peer cs : Forall call_ok cs ->
  exists s rs, runs (pm_metal_dstate_init peer) cs = Some (s, rs) /\ wf s /\ aruns (A ∅ [] 0 peer) cs = (abstr s, rs).
Proof.
  intros Hc. change (A ∅ [] 0 peer) with (abstr (pm_metal_dstate_init peer)). generalize (init_wf peer). generalize (pm_metal_dstate_init peer).
  induction Hc as [|c cs Hc _ IH]; intros s Hw; cbn [runs aruns]; [by eexists _, _|].
  destruct (call_exec_spec s c Hw Hc) as (s1 & r & -> & Hw1 & ->). rewrite some_bind. destruct (IH s1 Hw1) as (s2 & rs & -> & Hw2 & ->). rewrite some_bind. by eexists _, _.
Qed.

Definition demo_calls : list call :=
  [CSet [97] [1; 2]; CSet [98] [3]; CRecv [97] [9] 5 2; CRecv [97] [8] 5 1; CGet [97] (replicate 4 0); CDel [97]; CCount; CGet [98] [0]].
Example dstate_refines_lww_witness :
  exists s rs, runs (pm_metal_dstate_init 7) demo_calls = Some (s, rs) /\ wf s /\ aruns (A ∅ [] 0 7) demo_calls = (abstr s, rs).
Proof. apply (dstate_refines_lww 7 demo_calls). repeat (constructor; [done|]). constructor. Defined.
Example demo_answers : snd <$> runs (pm_metal_dstate_init 7) demo_calls = Some [(0, []); (0, []); (0, []); (0, []); (0, [9]); (0, []); (1, []); (0, [3])].
Proof. vm_compute. reflexivity. Qed.

(** ** The handler in charge: the longest prefix *)

Definition matches (k : list Z) (m : merge) : Prop := m_used m = true /\ take (length (m_prefix m)) k = m_prefix m.

Lemma find_merge_from_spec k ms : forall i best best_len, 0 <= best_len ->
  match find_merge_from i ms k best best_len with
  | r => (r = best /\ Forall (fun m => matches k m -> zlen (m_prefix m) <= best_len) ms) \/
         exists d m, r = Some (i + d)%nat /\ ms !! d = Some m /\ matches k m /\ best_len < zlen (m_prefix m) /\ Forall (fun m' => matches k m' -> zlen (m_prefix m') <= zlen (m_prefix m)) ms
  end.
Proof.
  induction ms as [|m ms IH]; intros i best bl Hb; cbn [find_merge_from]; [left; split; [done|constructor]|].
  assert (Skip : (matches k m -> zlen (m_prefix m) <= bl) -> forall r, r = find_merge_from (S i) ms k best bl ->
    (r = best /\ Forall (fun m => matches k m -> zlen (m_prefix m) <= bl) (m :: ms)) \/
    exists d m0, r = Some (i + d)%nat /\ (m :: ms) !! d = Some m0 /\ matches k m0 /\ bl < zlen (m_prefix m0) /\ Forall (fun m' => matches k m' -> zlen (m_prefix m') <= zlen (m_prefix m0)) (m :: ms)).
  { intros Hm r ->. destruct (IH (S i) best bl Hb) as [[-> F]|(d & m0 & -> & Hd & Mm & Hl & F)]; [left; split; [done|by constructor]|].
    right. exists (S d), m0. split; [f_equal; lia|]. split; [done|]. split; [done|]. split; [done|]. constructor; [|done]. intros M. specialize (Hm M). lia. }
  destruct (m_used m) eqn:Eu; cbn [negb]; [|apply Skip; [intros [? _]; congruence|done]].
  destruct (Z.ltb_spec (zlen k) (zlen (m_prefix m))) as [Hlt|Hge].
  { apply Skip; [|done]. intros [_ E]. pose proof (f_equal length E) as L. rewrite length_take in L. lia. }
  rewrite Nat2Z.id. case_bool_decide as Ep; cbn [andb]; [|apply Skip; [by intros [_ ?]|done]].
  destruct (Z.ltb_spec bl (zlen (m_prefix m))) as [Hbl|Hbl]; [|by apply Skip].
  destruct (IH (S i) (Some i) (zlen (m_prefix m)) ltac:(lia)) as [[-> F]|(d & m0 & -> & Hd & Mm & Hl & F)].
  - right. exists 0%nat, m. split; [f_equal; lia|]. split; [done|]. split; [done|]. split; [done|]. constructor; [lia|done].
  - right. exists (S d), m0. split; [f_equal; lia|]. split; [done|]. split; [done|]. split; [lia|]. constructor; [lia|done].
Qed.

(** [find_merge] yields a registered prefix of the key that no other exceeds. *)
Lemma find_merge_longest s k i : find_merge s (Some k) = Some i ->
  exists m, s_merges s !! i = Some m /\ matches k m /\ Forall (fun m' => matches k m' -> zlen (m_prefix m') <= zlen (m_prefix m)) (s_merges s).
Proof.
  intros H. unfold find_merge in H. pose proof (find_merge_from_spec k (s_merges s) 0 None 0 ltac:(lia)) as S. cbv zeta in S. rewrite H in S.
  destruct S as [[? _]|(d & m & [= ->] & Hd & Mm & _ & F)]; [done|]. by exists m.
Qed.

(** ** Replicas hearing each other *)

(** A write on the wire. *)
Record msg := Msg { g_key : list Z; g_val : list Z; g_ver : Z; g_peer : Z }.

(** The replicas by peer id, every write ever published, and -- ghost state --
    the writes each replica has made or received. *)
Record cluster := Cl { at_ : Z -> dstate; sent : list msg; seen : Z -> list msg }.
Definition upd {A} (f : Z -> A) (p : Z) (x : A) : Z -> A := fun q => if q =? p then x else f q.

Lemma upd_cases {A} (P : Z -> A -> Prop) f p x : P p x -> (forall q, q <> p -> P q (f q)) -> forall q, P q (upd f p x q).
Proof. intros Hp Hq q. unfold upd. destruct (Z.eqb_spec q p) as [->|]; auto. Qed.

(** The order in which the last writer wins. *)
Definition le_msg (a b : msg) : Prop := g_ver a < g_ver b \/ (g_ver a = g_ver b /\ g_peer a <= g_peer b).

Section cluster.
(** The keys in use: they fit the table and the key arrays. *)
Context (K : list (list Z)).
Hypothesis K_fits : zlen K <= PM_METAL_DSTATE_ENTRIES_MAX.
Hypothesis K_keys : Forall (fun k => zlen k < PM_METAL_DSTATE_KEY_MAX) K.

(** A peer writes a key and the write is published; a peer receives any write
    ever published, its own included, the first time or again.  No clock is
    about to pass the width of [uint64_t]. *)
Inductive cstep : cluster -> cluster -> Prop :=
| step_write c p k v s' : k ∈ K -> s_clock (at_ c p) + 1 < U64_MAX ->
    pm_metal_dstate_set (at_ c p) (Some k) (Some v) (zlen v) = Some (s', 0) ->
    let m := Msg k v (s_clock s') p in
    cstep c (Cl (upd (at_ c) p s') (m :: sent c) (upd (seen c) p (m :: seen c p)))
| step_hear c p m s' r : m ∈ sent c -> s_clock (at_ c p) < U64_MAX ->
    pm_metal_dstate_recv (at_ c p) (Some (g_key m)) (Some (g_val m)) (zlen (g_val m)) (g_ver m) (g_peer m) = Some (s', r) ->
    cstep c (Cl (upd (at_ c) p s') (sent c) (upd (seen c) p (m :: seen c p))).

Definition start : cluster := Cl pm_metal_dstate_init [] (fun _ => []).

(** A replica holds the last of the writes it has seen. *)
Definition holds (s : dstate) (l : list msg) : Prop :=
  forall k, match abs (s_entries s) !! k with
  | None => forall m, m ∈ l -> g_key m <> k
  | Some (v, ver, q) => Msg k v ver q ∈ l /\ forall m, m ∈ l -> g_key m = k -> le_msg m (Msg k v ver q)
  end.

Definition replica_ok (p : Z) (s : dstate) (l : list msg) : Prop :=
  wf s /\ s_peer_id s = p /\ s_merges s = [] /\ 0 <= s_clock s <= U64_MAX /\ holds s l /\ forall m, m ∈ l -> g_ver m <= s_clock s.

Record inv (c : cluster) : Prop := {
  inv_rep p : replica_ok p (at_ c p) (seen c p);
  inv_seen p m : m ∈ seen c p -> m ∈ sent c;
  inv_own m : m ∈ sent c -> m ∈ seen c (g_peer m);
  inv_one m m' : m ∈ sent c -> m' ∈ sent c -> g_ver m = g_ver m' -> g_peer m = g_peer m' -> m = m';
  inv_sent m : m ∈ sent c -> g_key m ∈ K /\ zlen (g_val m) <= PM_METAL_DSTATE_VALUE_MAX /\ 0 <= g_ver m < U64_MAX;
}.

(** The table has room for a key of [K] it does not hold yet. *)
Lemma room s l : wf s -> holds s l -> (forall m, m ∈ l -> g_key m ∈ K) -> forall k, k ∈ K -> abs (s_entries s) !! k = None -> a_full (abstr s) = false.
Proof.
  intros Hw Hh Hl k Hk Hn. unfold a_full. cbn [abstr a_map]. apply Z.leb_gt. assert (S : dom (abs (s_entries s)) ∪ {[k]} ⊆ list_to_set K).
  { intros x [Hx| ->%elem_of_singleton]%elem_of_union; apply elem_of_list_to_set; [|done]. apply elem_of_dom in Hx as [[[v ver] q] Hx].
    specialize (Hh x). rewrite Hx in Hh. destruct Hh as [Hm _]. exact (Hl _ Hm). }
  apply subseteq_size in S. rewrite size_union, size_singleton, size_dom in S by (apply not_elem_of_dom in Hn; set_solver).
  assert (Lk : (size (list_to_set K : gset (list Z)) <= length K)%nat).
  { clear. induction K as [|x xs IH]; [done|]. cbn [list_to_set length]. rewrite size_union_alt. etransitivity; [apply Nat.add_le_mono_l, subseteq_size, subseteq_difference_l; reflexivity|]. rewrite size_singleton. lia. }
  lia.
Qed.

Lemma tick_next c v : 0 <= c < U64_MAX -> 0 <= v < U64_MAX -> c < tick c v <= U64_MAX /\ v < tick c v.
Proof. intros. unfold tick. destruct (Z.leb_spec c v); rewrite u64_small by lia; lia. Qed.

Lemma holds_put s l k v ver q c m : holds s l -> m = Msg k v ver q -> (forall m', m' ∈ l -> g_key m' = k -> le_msg m' m) -> forall s', abstr s' = a_put (abstr s) k (v, ver, q) c -> holds s' (m :: l).
Proof.
  intros Hh -> Hle s' E k'. pose proof (f_equal a_map E) as M. cbn [abstr a_map a_put] in M. rewrite M. destruct (decide (k' = k)) as [->|Hne].
  - rewrite lookup_insert_eq. split; [by left|]. intros m' [->|Hm]%elem_of_cons Hk; [right; cbn; lia|by apply Hle].
  - rewrite lookup_insert_ne by done. specialize (Hh k'). destruct (abs (s_entries s) !! k') as [[[v' ver'] q']|].
    + destruct Hh as [H1 H2]. split; [by right|]. intros m' [->|Hm]%elem_of_cons Hkm; [cbn in Hkm; congruence|by apply H2].
    + intros m' [->|Hm]%elem_of_cons; [cbn; congruence|by apply Hh].
Qed.

Lemma holds_skip s l m v ver q : holds s l -> abs (s_entries s) !! g_key m = Some (v, ver, q) -> le_msg m (Msg (g_key m) v ver q) -> holds s (m :: l).
Proof.
  intros Hh E Hle k. specialize (Hh k). destruct (abs (s_entries s) !! k) as [[[v' ver'] q']|] eqn:E'.
  - destruct Hh as [H1 H2]. split; [by right|]. intros m' [->|Hm]%elem_of_cons Hkm; [|by apply H2]. subst k. rewrite E in E'. by simplify_eq.
  - intros m' [->|Hm]%elem_of_cons; [|by apply Hh]. intros <-. congruence.
Qed.

Lemma holds_same s s' l l' : holds s l -> abs (s_entries s') = abs (s_entries s) -> (forall m, m ∈ l' <-> m ∈ l) -> holds s' l'.
Proof.
  intros Hh E Hl k. specialize (Hh k). rewrite E. destruct (abs (s_entries s) !! k) as [[[v ver] q]|].
  - destruct Hh as [H1 H2]. split; [by apply Hl|]. intros m Hm. apply H2. by apply Hl.
  - intros m Hm. apply Hh. by apply Hl.
Qed.

Lemma replica_write p s l k v s' : replica_ok p s l -> (forall m, m ∈ l -> g_key m ∈ K) -> k ∈ K -> s_clock s + 1 < U64_MAX ->
  pm_metal_dstate_set s (Some k) (Some v) (zlen v) = Some (s', 0) ->
  replica_ok p s' (Msg k v (s_clock s') p :: l) /\ s_clock s' = s_clock s + 1 /\ zlen v <= PM_METAL_DSTATE_VALUE_MAX.
Proof.
  intros (Hw & Hp & Hm & Hc & Hh & Hv) Hl Hk Hlim E. assert (Lk : zlen k < PM_METAL_DSTATE_KEY_MAX) by exact (proj1 (Forall_forall _ _) K_keys k Hk).
  destruct (set_spec s k v Hw Lk) as (s1 & r & E1 & Hw1 & Ha). rewrite E in E1. injection E1 as <- <-. unfold a_set in Ha.
  destruct (bool_decide (k = []) || negb (fits v)) eqn:G; [done|]. apply orb_false_iff in G as [_ G]. apply negb_false_iff in G. unfold fits in G. apply Z.leb_le in G.
  destruct (a_full (abstr s) && _); [done|]. apply (f_equal fst) in Ha; cbn [fst] in Ha. symmetry in Ha. assert (T : tick (s_clock s) 0 = s_clock s + 1) by (unfold tick; destruct (Z.leb_spec (s_clock s) 0); rewrite u64_small by lia; lia).
  cbn [abstr a_clock a_peer] in Ha. rewrite T, Hp in Ha. pose proof (f_equal a_clock Ha) as Ec. pose proof (f_equal a_peer Ha) as Ep. pose proof (f_equal a_merges Ha) as Em. cbn [abstr a_clock a_peer a_merges a_put] in Ec, Ep, Em.
  rewrite Ec. split; [|done]. split; [done|]. split; [congruence|]. split; [congruence|]. split; [lia|]. split.
  - eapply (holds_put s l k v (s_clock s + 1) p _ _ Hh eq_refl); [|exact Ha]. intros m Hm' _. left. cbn. specialize (Hv m Hm'). lia.
  - intros m [->|Hm']%elem_of_cons; cbn; [lia|]. specialize (Hv m Hm'). lia.
Qed.

Lemma replica_hear p s l m s' r : replica_ok p s l -> (forall m, m ∈ l -> g_key m ∈ K) -> g_key m ∈ K -> zlen (g_val m) <= PM_METAL_DSTATE_VALUE_MAX -> 0 <= g_ver m < U64_MAX ->
  (g_peer m = p -> m ∈ l) -> s_clock s < U64_MAX ->
  pm_metal_dstate_recv s (Some (g_key m)) (Some (g_val m)) (zlen (g_val m)) (g_ver m) (g_peer m) = Some (s', r) -> replica_ok p s' (m :: l).
Proof.
  intros (Hw & Hp & Hm & Hc & Hh & Hv) Hl Hk Hs Hver Hown Hlim E. assert (Lk : zlen (g_key m) < PM_METAL_DSTATE_KEY_MAX) by exact (proj1 (Forall_forall _ _) K_keys _ Hk).
  destruct (dstate_recv_spec s (g_key m) (g_val m) (g_ver m) (g_peer m) Hw Lk) as (s1 & r1 & E1 & Hw1 & Ha). rewrite E in E1. injection E1 as <- <-.
  assert (Hf : fits (g_val m) = true) by (by apply Z.leb_le). pose proof (tick_next (s_clock s) (g_ver m) ltac:(lia) Hver) as [T1 T2].
  (* the three ways the state can change *)
  assert (Same : abstr s' = abstr s -> m ∈ l \/ (exists v ver q, abs (s_entries s) !! g_key m = Some (v, ver, q) /\ le_msg m (Msg (g_key m) v ver q)) -> replica_ok p s' (m :: l)).
  { intros Ea Hcase. pose proof (f_equal a_map Ea) as M. pose proof (f_equal a_clock Ea) as Ec. pose proof (f_equal a_peer Ea) as Ep. pose proof (f_equal a_merges Ea) as Em.
    cbn [abstr a_map a_clock a_peer a_merges] in *. split; [done|]. split; [congruence|]. split; [congruence|]. split; [lia|]. destruct Hcase as [Hin|(v & ver & q & Ek & Hle)].
    - split; [eapply holds_same; [exact Hh|exact M|]; intros x; rewrite elem_of_cons; naive_solver|]. intros x [->|Hx]%elem_of_cons; rewrite Ec; auto.
    - split; [eapply holds_same; [eapply holds_skip; [exact Hh|exact Ek|exact Hle]|exact M|done]|]. intros x [->|Hx]%elem_of_cons; rewrite Ec; [|by auto].
      specialize (Hh (g_key m)). rewrite Ek in Hh. destruct Hh as [Hin _]. specialize (Hv _ Hin). cbn in Hv. destruct Hle as [?|[? _]]; cbn in *; lia. }
  assert (Put : forall v ver q, abstr s' = a_put (abstr s) (g_key m) (v, ver, q) (tick (s_clock s) (g_ver m)) -> holds s' (m :: l) -> replica_ok p s' (m :: l)).
  { intros v ver q Ea Hh'. pose proof (f_equal a_clock Ea) as Ec. pose proof (f_equal a_peer Ea) as Ep. pose proof (f_equal a_merges Ea) as Em. cbn [abstr a_clock a_peer a_merges a_put] in *.
    split; [done|]. split; [congruence|]. split; [congruence|]. split; [lia|]. split; [done|]. intros x [->|Hx]%elem_of_cons; [lia|]. specialize (Hv x Hx). lia. }
  assert (Em : m = Msg (g_key m) (g_val m) (g_ver m) (g_peer m)) by (by destruct m).
  unfold a_recv in Ha. cbn [abstr a_peer a_map a_merges a_clock] in Ha. rewrite Hp, Hm, Hf in Ha. destruct (Z.eqb_spec (g_peer m) p) as [Eo|Ho]; [apply (f_equal fst) in Ha; cbn [fst] in Ha; apply Same; [symmetry; exact Ha|left; auto]|].
  pose proof (Hh (g_key m)) as Hk'. destruct (abs (s_entries s) !! g_key m) as [[[lv lver] lp]|] eqn:Ek.
  - destruct Hk' as [Hin Hmax]. destruct (Z.ltb_spec lver (g_ver m)) as [Hlt|Hge].
    + apply (f_equal fst) in Ha; cbn [fst] in Ha. symmetry in Ha. eapply Put; [exact Ha|]. eapply holds_put; [exact Hh|exact Em| |exact Ha].
      intros m' Hm' Hkm. specialize (Hmax m' Hm' Hkm). left. destruct Hmax as [?|[? _]]; cbn in *; lia.
    + destruct (Z.eqb_spec (g_ver m) lver) as [Ev|Hne].
      * subst lver. cbn [handler find_merge_from mbind option_bind] in Ha. apply (f_equal fst) in Ha; cbn [fst] in Ha. symmetry in Ha. destruct (Z.ltb_spec lp (g_peer m)) as [Hlt|Hge'].
        -- eapply Put; [exact Ha|]. eapply holds_put; [exact Hh|exact Em| |exact Ha]. intros m' Hm' Hkm. specialize (Hmax m' Hm' Hkm). destruct Hmax as [?|[? ?]]; cbn in *; [left; lia|right; lia].
        -- pose proof (f_equal a_map Ha) as M. cbn [abstr a_map a_put] in M. rewrite insert_id in M by done. eapply Put; [exact Ha|].
           eapply holds_same; [eapply holds_skip; [exact Hh|exact Ek|]|exact M|done]. right. cbn. lia.
      * apply (f_equal fst) in Ha; cbn [fst] in Ha. apply Same; [symmetry; exact Ha|]. right. exists lv, lver, lp. split; [done|]. left. cbn. lia.
  - assert (Rm : a_full (abstr s) = false) by (eapply room; eauto). rewrite Rm in Ha. apply (f_equal fst) in Ha; cbn [fst] in Ha. symmetry in Ha. eapply Put; [exact Ha|].
    eapply holds_put; [exact Hh|exact Em| |exact Ha]. intros m' Hm' Hkm. by destruct (Hk' m' Hm').
Qed.

Lemma cluster_start : inv start.
Proof.
  assert (E : forall (x : msg) (P : Prop), x ∈ [] -> P) by (intros x P H; by apply not_elem_of_nil in H).
  split; cbn [at_ sent seen start]; [|intros p m Hm; by apply (E m)|intros m Hm; by apply (E m)|intros m m' Hm; by apply (E m)|intros m Hm; by apply (E m)].
  intros p. split; [apply init_wf|]. split; [done|]. split; [done|]. split; [cbn; lia|]. split; [|intros m Hm; by apply (E m)].
  intros k. change (abs (s_entries (pm_metal_dstate_init p))) with (∅ : gmap (list Z) reg). rewrite lookup_empty. intros m Hm. by apply (E m).
Qed.

Lemma cstep_inv c c' : cstep c c' -> inv c -> inv c'.
Proof.
  intros S [Ir Is Io I1 It]. destruct S as [c p k v s' Hk Hlim E m|c p m s' r Hm Hlim E].
  - destruct (replica_write p _ _ k v s' (Ir p) (fun x Hx => proj1 (It x (Is p x Hx))) Hk Hlim E) as (Hr & Ec & Hv). fold m in Hr.
    assert (New : forall x, x ∈ sent c -> g_peer x = p -> g_ver x < g_ver m).
    { intros x Hx Hp. destruct (Ir p) as (_ & _ & _ & _ & _ & Hold). specialize (Hold x). rewrite <- Hp in Hold at 1. specialize (Hold (Io x Hx)). cbn. lia. }
    split; cbn [at_ sent seen].
    + intros q. unfold upd. destruct (Z.eqb_spec q p) as [->|]; [done|apply Ir].
    + intros q x Hx. unfold upd in Hx. destruct (Z.eqb_spec q p) as [->|]; [apply elem_of_cons in Hx as [->|Hx]; [by left|]|]; right; by eapply Is.
    + intros x [->|Hx]%elem_of_cons; unfold upd; [rewrite Z.eqb_refl; by left|]. destruct (Z.eqb_spec (g_peer x) p) as [Ex|]; [right; rewrite <- Ex|]; by apply Io.
    + intros x y [->|Hx]%elem_of_cons [->|Hy]%elem_of_cons Ev Ep; [done| | |by apply I1].
      * specialize (New y Hy (eq_sym Ep)). lia.
      * specialize (New x Hx Ep). lia.
    + intros x [->|Hx]%elem_of_cons; [|by apply It]. destruct (Ir p) as (_ & _ & _ & Hc & _). cbn. split; [done|]. split; [done|lia].
  - destruct (It m Hm) as (Hk & Hv & Hver).
    assert (Hr : replica_ok p s' (m :: seen c p)).
    { eapply (replica_hear p _ _ m s' r (Ir p)); eauto; [intros x Hx; exact (proj1 (It x (Is p x Hx)))|]. intros <-. by apply Io. }
    split; cbn [at_ sent seen]; [| | |exact I1|exact It].
    + intros q. unfold upd. destruct (Z.eqb_spec q p) as [->|]; [done|apply Ir].
    + intros q x Hx. unfold upd in Hx. destruct (Z.eqb_spec q p) as [->|]; [apply elem_of_cons in Hx as [->|Hx]; [done|]|]; by eapply Is.
    + intros x Hx. unfold upd. destruct (Z.eqb_spec (g_peer x) p) as [Ex|]; [right; rewrite <- Ex|]; by apply Io.
Qed.

(** C4: replicas converge.  Peers write and receive each other's writes in any
    order, late, repeatedly, or not at all.  Two replicas that have seen the
    same writes of a key -- whatever the order and whatever else happened --
    answer a read of it alike: with "not found" if nobody wrote it, else with
    the value of the last of those writes in the order of version and origin. *)
Theorem dstate_converges c p q k buf : rtc cstep start c -> (forall m, g_key m = k -> m ∈ seen c p <-> m ∈ seen c q) ->
  exists o, call_exec (at_ c p) (CGet k buf) = Some (at_ c p, o) /\ call_exec (at_ c q) (CGet k buf) = Some (at_ c q, o) /\
    ((o = (-1, []) /\ forall m, m ∈ seen c p -> g_key m <> k) \/
     exists m, m ∈ seen c p /\ g_key m = k /\ (forall m', m' ∈ seen c p -> g_key m' = k -> le_msg m' m) /\
       o = if zlen buf <? zlen (g_val m) then (-2, []) else (0, g_val m)).
Proof.
  intros Hs Hag. assert (I : inv c). { clear Hag. clear -Hs K_fits K_keys. assert (G : forall x y, rtc cstep x y -> inv x -> inv y).
    { induction 1 as [|x y z S _ IH]; [done|]. intros Ix. apply IH. by eapply cstep_inv. }
    eapply G; [exact Hs|apply cluster_start]. }
  destruct I as [Ir Is Io I1 It].
  assert (G : forall x, call_exec (at_ c x) (CGet k buf) = Some (at_ c x, a_get (abstr (at_ c x)) k (zlen buf))).
  { intros x. destruct (Ir x) as (Hw & _). destruct (call_exec_spec (at_ c x) (CGet k buf) Hw Logic.I) as (s' & r & E & _ & Ea). cbn [aexec] in Ea. apply (f_equal snd) in Ea; cbn [snd] in Ea. rewrite E, <- Ea.
    cbn [call_exec] in E. destruct (get_spec (at_ c x) k buf Hw) as (r' & b' & l' & E' & _). rewrite E', some_bind in E. by injection E as <- _. }
  exists (a_get (abstr (at_ c p)) k (zlen buf)). rewrite !G. split; [done|]. destruct (Ir p) as (_ & _ & _ & _ & Hp & _). destruct (Ir q) as (_ & _ & _ & _ & Hq & _).
  specialize (Hp k). specialize (Hq k). unfold a_get. cbn [abstr a_map].
  destruct (abs (s_entries (at_ c p)) !! k) as [[[v ver] o]|], (abs (s_entries (at_ c q)) !! k) as [[[v' ver'] o']|].
  - destruct Hp as [P1 P2], Hq as [Q1 Q2]. assert (E : Msg k v ver o = Msg k v' ver' o').
    { assert (L1 : le_msg (Msg k v ver o) (Msg k v' ver' o')) by (apply Q2; [by apply Hag|done]). assert (L2 : le_msg (Msg k v' ver' o') (Msg k v ver o)) by (apply P2; [by apply Hag|done]).
      unfold le_msg in *. cbn in *. apply I1; [by eapply Is|by eapply Is|cbn; lia|cbn; lia]. }
    injection E as <- <- <-. split; [done|]. right. by exists (Msg k v ver o).
  - destruct Hp as [P1 _]. exfalso. apply (Hq (Msg k v ver o)); [by apply Hag|done].
  - destruct Hq as [Q1 _]. exfalso. apply (Hp (Msg k v' ver' o')); [by apply Hag|done].
  - split; [done|]. by left.
Qed.
End cluster.

(** Two peers write one key at once and hear each other. *)
Lemma computed {X} (o : option (X * Z)) d r : snd <$> o = Some r -> o = Some ((default d o).1, r).
Proof. destruct o as [[x r']|]; [|done]. by intros [= ->]. Qed.

Definition demo_m1 : msg := Msg [97] [10] 1 1.
Definition demo_m2 : msg := Msg [97] [20] 1 2.
Definition demo_set (p v : Z) : option (dstate * Z) := pm_metal_dstate_set (pm_metal_dstate_init p) (Some [97]) (Some [v]) 1.
Definition demo_recv (s : dstate) (m : msg) : option (dstate * Z) := pm_metal_dstate_recv s (Some (g_key m)) (Some (g_val m)) (zlen (g_val m)) (g_ver m) (g_peer m).
Definition demo_s (p v : Z) : dstate := (default (pm_metal_dstate_init p, 0) (demo_set p v)).1.
Definition demo_r (s : dstate) (m : msg) : dstate := (default (s, 0) (demo_recv s m)).1.
Definition demo_c1 : cluster := Cl (upd pm_metal_dstate_init 1 (demo_s 1 10)) [demo_m1] (upd (fun _ => []) 1 [demo_m1]).
Definition demo_c2 : cluster := Cl (upd (at_ demo_c1) 2 (demo_s 2 20)) [demo_m2; demo_m1] (upd (seen demo_c1) 2 [demo_m2]).
Definition demo_c3 : cluster := Cl (upd (at_ demo_c2) 1 (demo_r (demo_s 1 10) demo_m2)) (sent demo_c2) (upd (seen demo_c2) 1 [demo_m2; demo_m1]).
Definition demo_c4 : cluster := Cl (upd (at_ demo_c3) 2 (demo_r (demo_s 2 20) demo_m1)) (sent demo_c2) (upd (seen demo_c3) 2 [demo_m1; demo_m2]).

Lemma demo_run : rtc (cstep [[97]]) start demo_c4.
Proof.
  assert (S1 : demo_set 1 10 = Some (demo_s 1 10, 0)) by (apply computed; vm_compute; reflexivity).
  assert (S2 : demo_set 2 20 = Some (demo_s 2 20, 0)) by (apply computed; vm_compute; reflexivity).
  assert (R1 : demo_recv (demo_s 1 10) demo_m2 = Some (demo_r (demo_s 1 10) demo_m2, 0)) by (apply computed; vm_compute; reflexivity).
  assert (R2 : demo_recv (demo_s 2 20) demo_m1 = Some (demo_r (demo_s 2 20) demo_m1, 0)) by (apply computed; vm_compute; reflexivity).
  assert (C1 : s_clock (demo_s 1 10) = 1) by (vm_compute; reflexivity). assert (C2 : s_clock (demo_s 2 20) = 1) by (vm_compute; reflexivity).
  apply rtc_l with demo_c1.
  { unfold demo_c1, demo_m1. rewrite <- C1. apply (step_write [[97]] start 1 [97] [10] (demo_s 1 10)); [by left|done|exact S1]. }
  apply rtc_l with demo_c2.
  { unfold demo_c2, demo_m2. rewrite <- C2. apply (step_write [[97]] demo_c1 2 [97] [20] (demo_s 2 20)); [by left|done|exact S2]. }
  apply rtc_l with demo_c3.
  { apply (step_hear [[97]] demo_c2 1 demo_m2 (demo_r (demo_s 1 10) demo_m2) 0); [by left|change (s_clock (demo_s 1 10) < U64_MAX); by rewrite C1|exact R1]. }
  apply rtc_l with demo_c4; [|apply rtc_refl].
  apply (step_hear [[97]] demo_c3 2 demo_m1 (demo_r (demo_s 2 20) demo_m1) 0); [by right; left|change (s_clock (demo_s 2 20) < U64_MAX); by rewrite C2|exact R2].
Qed.

Example dstate_converges_witness :
  exists o, call_exec (at_ demo_c4 1) (CGet [97] [0]) = Some (at_ demo_c4 1, o) /\ call_exec (at_ demo_c4 2) (CGet [97] [0]) = Some (at_ demo_c4 2, o) /\
    ((o = (-1, []) /\ forall m, m ∈ seen demo_c4 1 -> g_key m <> [97]) \/
     exists m, m ∈ seen demo_c4 1 /\ g_key m = [97] /\ (forall m', m' ∈ seen demo_c4 1 -> g_key m' = [97] -> le_msg m' m) /\
       o = if zlen [0] <? zlen (g_val m) then (-2, []) else (0, g_val m)).
Proof.
  apply (dstate_converges [[97]] ltac:(done) ltac:(by repeat constructor) demo_c4 1 2 [97] [0] demo_run).
  intros m _. change (seen demo_c4 1) with [demo_m2; demo_m1]. change (seen demo_c4 2) with [demo_m1; demo_m2]. rewrite !elem_of_cons. tauto.
Defined.

(** ** Two replicas with a merge handler *)

(** What a replica publishes of a key: the bytes, version and origin of its entry. *)
Definition published (s : dstate) (k : list Z) : option reg := i ← find_entry s (Some k); e ← s_entries s !! i; Some (reg_of e).
Definition hear (s : dstate) (k : list Z) (r : reg) : option dstate :=
  let '(v, ver, from) := r in '(s', _) ← pm_metal_dstate_recv s (Some k) (Some v) (zlen v) ver from; Some s'.

(** Each publishes its entry, each hears the other's; [n] times. *)
Fixpoint rounds (n : nat) (k : list Z) (s t : dstate) : option (dstate * dstate) :=
  match n with
  | O => Some (s, t)
  | S n => a ← published s k; b ← published t k; s' ← hear s k b; t' ← hear t k a; rounds n k s' t'
  end.

Section ties.
Context (f : merge_fn) (u : Z) (k : list Z) (p q : Z).
(** The handler always has a merge to offer. *)
Hypothesis f_succeeds : forall loc inc, (f loc inc zero_value PM_METAL_DSTATE_VALUE_MAX u).1.1 = 0.
Hypothesis k_fits : zlen k < PM_METAL_DSTATE_KEY_MAX.
Hypothesis p_q : p <> q.

(** A replica of [me] whose entry of [k] is its own, of version [ver], the
    handler being in charge of [k]. *)
Definition owns (me ver : Z) (s : dstate) : Prop :=
  wf s /\ s_peer_id s = me /\ s_clock s = ver /\ handler (s_merges s) k = Some (f, u) /\ exists v, abs (s_entries s) !! k = Some (v, ver, me).

Lemma published_abs s r : wf s -> abs (s_entries s) !! k = Some r -> published s k = Some r.
Proof.
  intros Hw Hr. unfold published. pose proof (find_entry_abs s k Hw) as F. destruct (find_entry s (Some k)) as [i|]; [|congruence].
  destruct F as (e & He & _ & _ & Ha). rewrite Ha in Hr. rewrite some_bind, He, some_bind. exact Hr.
Qed.

Lemma hear_tie me you ver s v : owns me ver s -> me <> you -> 0 <= ver < U64_MAX -> exists s', hear s k (v, ver, you) = Some s' /\ owns me (ver + 1) s'.
Proof.
  intros (Hw & Hp & Hc & Hh & lv & Hk) Hne Hver. destruct (dstate_recv_spec s k v ver you Hw k_fits) as (s' & r & E & Hw' & Ha). exists s'. unfold hear. rewrite E, some_bind. split; [done|].
  unfold a_recv in Ha. cbn [abstr a_peer a_map a_merges a_clock] in Ha. rewrite Hp, (proj2 (Z.eqb_neq you me)), Hk, Z.ltb_irrefl, Z.eqb_refl, Hh in Ha by congruence.
  pose proof (f_succeeds lv v) as Hs. destruct (f lv v zero_value _ u) as [[mr b] l]. cbn in Hs. subst mr. cbn [Z.eqb] in Ha.
  assert (T : tick (s_clock s) ver = ver + 1) by (unfold tick; rewrite Hc, Z.leb_refl; apply u64_small; lia). rewrite T in Ha. apply (f_equal fst) in Ha; cbn [fst] in Ha. symmetry in Ha.
  pose proof (f_equal a_map Ha) as M. pose proof (f_equal a_clock Ha) as Ec. pose proof (f_equal a_peer Ha) as Ep. pose proof (f_equal a_merges Ha) as Em. cbn [abstr a_map a_clock a_peer a_merges a_put] in *.
  split; [done|]. split; [congruence|]. split; [done|]. split; [congruence|]. eexists. rewrite M. apply lookup_insert_eq.
Qed.

(** Merging never ends.  Two replicas with a handler for a key that wrote it
    at the same time tie on its version; each merges the other's value and
    gives the result its own clock and origin, so that after any number of
    rounds of publishing and hearing they tie again, one version further, and
    each still holds an entry of its own -- whatever the handler computes, even
    when both arrive at the same bytes in the first round. *)
Theorem merge_never_settles n : forall ver s t, owns p ver s -> owns q ver t -> 0 <= ver -> ver + Z.of_nat n <= U64_MAX ->
  exists s' t', rounds n k s t = Some (s', t') /\ owns p (ver + Z.of_nat n) s' /\ owns q (ver + Z.of_nat n) t'.
Proof.
  induction n as [|n IH]; intros ver s t Hs Ht H0 Hn; cbn [rounds]; [exists s, t; rewrite Z.add_0_r; done|].
  destruct (Hs) as (Ws & _ & _ & _ & v & Hv). destruct (Ht) as (Wt & _ & _ & _ & w & Hw). rewrite (published_abs s _ Ws Hv), some_bind, (published_abs t _ Wt Hw), some_bind.
  destruct (hear_tie p q ver s w Hs p_q ltac:(lia)) as (s1 & -> & O1). destruct (hear_tie q p ver t v Ht (not_eq_sym p_q) ltac:(lia)) as (t1 & -> & O2). rewrite !some_bind.
  destruct (IH (ver + 1) s1 t1 O1 O2 ltac:(lia) ltac:(lia)) as (s2 & t2 & E & O3 & O4). exists s2, t2. split; [done|]. by replace (ver + Z.of_nat (S n)) with (ver + 1 + Z.of_nat n) by lia.
Qed.
End ties.

(** A handler that keeps the greater first byte: both replicas compute the same
    bytes in the first round, and go on for ever. *)
Definition max_merge : merge_fn := fun loc inc buf _ _ => (0, Z.max (nth 0 loc 0) (nth 0 inc 0) :: drop 1 buf, 1).
Definition tie_peer (p v : Z) : dstate :=
  let s := (pm_metal_dstate_merge_register (pm_metal_dstate_init p) (Some [97]) (Some max_merge) 0).1 in
  (default (s, 0) (pm_metal_dstate_set s (Some [97]) (Some [v]) 1)).1.

Lemma max_merge_ok : fn_ok max_merge.
Proof. intros loc inc user. cbn. split; [|lia]. vm_compute. reflexivity. Qed.

Lemma tie_owns p v : p = 1 \/ p = 2 -> v = 5 \/ v = 9 -> owns max_merge 0 [97] p 1 (tie_peer p v).
Proof.
  intros Hp Hv. split; [|split; [|split; [|split; [|eexists]]]]; [|destruct Hp as [->| ->], Hv as [->| ->]; vm_compute; reflexivity..].
  assert (W : wf (pm_metal_dstate_merge_register (pm_metal_dstate_init p) (Some [97]) (Some max_merge) 0).1).
  { split; [constructor|]. split; [constructor|]. split; [done|]. constructor; [exact max_merge_ok|constructor]. }
  destruct (set_spec _ [97] [v] W ltac:(done)) as (s' & r & E & Hw & _). unfold tie_peer. cbv zeta. change 1 with (zlen [v]). rewrite E. exact Hw.
Qed.

Example merge_never_settles_witness : exists s' t', rounds 3 [97] (tie_peer 1 5) (tie_peer 2 9) = Some (s', t') /\
  owns max_merge 0 [97] 1 (1 + Z.of_nat 3) s' /\ owns max_merge 0 [97] 2 (1 + Z.of_nat 3) t'.
Proof.
  apply (merge_never_settles max_merge 0 [97] 1 2 ltac:(done) ltac:(done) ltac:(done) 3 1);
    [apply tie_owns; by left|apply tie_owns; by right|lia|vm_compute; discriminate].
Defined.

(** ** Beyond the bounds of [call_ok] *)

(** A key of 128 bytes is stored cut to 127 and never found again: two writes of
    it take two entries, and a read says it is not there. *)
Example long_key_lost : let k := repeat 107 128 in
  (snd <$> runs (pm_metal_dstate_init 1) [CSet k [1]; CSet k [2]; CCount; CGet k [0]]) = Some [(0, []); (0, []); (2, []); (-1, [])].
Proof. vm_compute. reflexivity. Qed.

(** A message of the greatest version takes the clock to 0: the next write of the
    replica is older than what its peers hold, and stays unheard. *)
Example clock_wraps :
  let s := (pm_metal_dstate_recv (pm_metal_dstate_init 1) (Some [97]) (Some [7]) 1 U64_MAX 2) in
  (s_clock <$> (fst <$> s)) = Some 0 /\
  (snd <$> runs (pm_metal_dstate_init 3) [CRecv [97] [7] U64_MAX 2; CRecv [97] [8] 1 1; CGet [97] [0]]) = Some [(0, []); (0, []); (0, [7])].
Proof. split; vm_compute; reflexivity. Qed.

(** A deletion leaves nothing behind: the same write, received again, brings the
    key back. *)
Example deleted_key_returns :
  (snd <$> runs (pm_metal_dstate_init 1) [CRecv [97] [7] 3 2; CDel [97]; CRecv [97] [7] 3 2; CGet [97] [0]]) = Some [(0, []); (0, []); (0, []); (0, [7])].
Proof. vm_compute. reflexivity. Qed.
End DstateNet.
