(* ===== verification/Process.v ===== *)
(** * The process card: pids over the tasks of coop

    src/.../metal/process/__impl__.c, over the coop card of CoopState and
    CoopRun: the task a slot points to is a task of coop's store, and writing to
    one that coop has freed is a [Fault].  The list of slots is [s_head] to
    [s_tail]; slots are appended and stay.  The boot arena hands out blocks by
    address; [blocks] are those the card holds, [subs] the sub-arenas made on
    them, and giving back what is not held is a [Fault].  A signed overflow is
    undefined and a [Fault] too. *)
From S2P Require Import Prelude Ring CoopState CoopRun.

Module Process.
Import Store.
Local Open Scope metal_scope.
#[local] Existing Instance Coop.status_eq_dec.

(** [b_arena] and [b_backing] are 0 for NULL. *)
Record budget := Budget { b_arena : Z; b_backing : Z; b_cap : Z }.
Definition no_budget : budget := Budget 0 0 0.

(** [s_addr]: the block the slot lies in. *)
Record slot := Slot { s_addr : Z; s_used : bool; s_pid : Z; s_task : Z; s_budget : budget }.

(** The card's statics ([s_repl_arena], [s_repl_backing] and [s_repl_cap] as one
    budget), with the blocks and sub-arenas it holds and the coop card. *)
Record pworld := PWorld { s_arena : bool; s_slots : list slot; s_next_pid : Z; s_repl : budget;
  blocks : gset Z; subs : gset Z; coop : Coop.world }.

Definition set_slots v w := PWorld (s_arena w) v (s_next_pid w) (s_repl w) (blocks w) (subs w) (coop w).
Definition set_next_pid v w := PWorld (s_arena w) (s_slots w) v (s_repl w) (blocks w) (subs w) (coop w).
Definition set_repl v w := PWorld (s_arena w) (s_slots w) (s_next_pid w) v (blocks w) (subs w) (coop w).
Definition set_blocks v w := PWorld (s_arena w) (s_slots w) (s_next_pid w) (s_repl w) v (subs w) (coop w).
Definition set_subs v w := PWorld (s_arena w) (s_slots w) (s_next_pid w) (s_repl w) (blocks w) v (coop w).
Definition set_coop v w := PWorld (s_arena w) (s_slots w) (s_next_pid w) (s_repl w) (blocks w) (subs w) v.

Definition P := M pworld.

(** A call into coop. *)
Definition co {A} (m : Coop.M A) : P A := fun w =>
  match m (coop w) with Coop.Done a c => Done a (set_coop c w) | Coop.Fault => Fault | Coop.NoFuel => NoFuel end.

Section WithHost.
(** [alloc w n], [arena_create w b n]: the arena's answers, 0 for NULL.
    [heap_used w a]: what it says of a sub-arena. *)
Variable alloc : pworld -> Z -> Z.
Variable arena_create : pworld -> Z -> Z -> Z.
Variable heap_used : pworld -> Z -> Z.
(** The coop card's own parameters. *)
Variable coop_alloc : Coop.world -> Z -> Z.
Variable clk : nat -> Z.
Variable ip_pump : Coop.M unit.
Variable run_step : Z -> Z -> Coop.M Coop.status.

Definition SLOT_BYTES := 48.
Definition INT32_MAX := 2147483647.
(** The address of [idle_step]. *)
Definition IDLE_STEP := 64.

Definition pm_util_mem_alloc (n : Z) : P Z := fun w =>
  let a := alloc w n in Done a (if a =? 0 then w else set_blocks ({[a]} ∪ blocks w) w).
Definition pm_util_mem_free (a : Z) : P unit := fun w =>
  if bool_decide (a ∈ blocks w) then Done tt (set_blocks (blocks w ∖ {[a]}) w) else Fault.
Definition pm_util_mem_arena_create (b n : Z) : P Z := fun w =>
  let a := arena_create w b n in Done a (if a =? 0 then w else set_subs ({[a]} ∪ subs w) w).
Definition pm_util_mem_arena_destroy (a : Z) : P unit := fun w =>
  if bool_decide (a ∈ subs w) then Done tt (set_subs (subs w ∖ {[a]}) w) else Fault.

Definition when (b : bool) (m : P unit) : P unit := if b then m else ret tt.
Definition upd_slot (i : nat) (f : slot -> slot) : P unit := modify (fun w => set_slots (alter f i (s_slots w)) w).
Definition set_s_budget (b : budget) (s : slot) : slot := Slot (s_addr s) (s_used s) (s_pid s) (s_task s) b.

(** ** Start and end *)

Definition pm_metal_process_init (arena : bool) : P Z := fun w =>
  if negb arena then Done (-1) w else Done 0 (PWorld true [] 1 (s_repl w) (blocks w) (subs w) (coop w)).

(** Giving back a budget's sub-arena and block, field by field. *)
Definition drop_arena (b : budget) : P budget :=
  when (negb (b_arena b =? 0)) (pm_util_mem_arena_destroy (b_arena b)) ;; ret (Budget 0 (b_backing b) (b_cap b)).
Definition drop_backing (b : budget) : P budget :=
  have <- gets s_arena ;;
  if negb (b_backing b =? 0) && have then pm_util_mem_free (b_backing b) ;; ret (Budget (b_arena b) 0 (b_cap b)) else ret b.

Fixpoint deinit_loop (i : nat) (l : list slot) : P unit :=
  match l with
  | [] => ret tt
  | s :: t => b <- drop_arena (s_budget s) ;; b <- drop_backing b ;; upd_slot i (set_s_budget b) ;; deinit_loop (S i) t
  end.
Definition pm_metal_process_deinit : P unit :=
  l <- gets s_slots ;;
  deinit_loop 0 l ;;
  modify (fun w => set_next_pid 1 (set_slots [] w)) ;;
  b <- gets s_repl ;;
  b <- drop_arena b ;; b <- drop_backing b ;;
  modify (fun w => PWorld false (s_slots w) (s_next_pid w) (Budget (b_arena b) (b_backing b) 0) (blocks w) (subs w) (coop w)).

(** ** Looking up *)

Definition pm_metal_process_count : P Z := gets (fun w => zlen (List.filter s_used (s_slots w))).
Definition pm_metal_process_at (i : Z) : P Z := gets (fun w =>
  if i <? 0 then -1 else default (-1) (s_pid <$> (List.filter s_used (s_slots w)) !! Z.to_nat i)).
Definition pm_metal_process_current : P Z := co CoopRun.pm_metal_coop_process_id.

Fixpoint slot_from (i : nat) (l : list slot) (pid : Z) : option nat :=
  match l with
  | [] => None
  | s :: t => if s_used s && (s_pid s =? pid) then Some i else slot_from (S i) t pid
  end.
Definition find_slot (pid : Z) : P (option nat) :=
  pid <- (if pid =? 0 then pm_metal_process_current else ret pid) ;;
  if pid <? 1 then ret None else gets (fun w => slot_from 0 (s_slots w) pid).

(** The budget of slot [i], and [slot_budget_drop]. *)
Definition get_budget (i : nat) : P budget := gets (fun w => default no_budget (s_budget <$> s_slots w !! i)).
Definition slot_budget_drop (i : nat) : P unit :=
  b <- get_budget i ;;
  if b_backing b =? 0 then ret tt else
  b <- drop_arena b ;;
  have <- gets s_arena ;;
  when have (pm_util_mem_free (b_backing b)) ;;
  upd_slot i (set_s_budget (Budget (b_arena b) 0 0)).

(** ** Pids *)

Definition set_t_pid (v : Z) (t : Coop.task) : Coop.task :=
  Coop.Task (Coop.t_root t) (Coop.t_on_c_stack t) (Coop.t_running t) v (Coop.t_mutex_next t) (Coop.t_ring_refs t) (Coop.t_dead t).

(** [s_next_pid++], with the value before. *)
Definition next_pid : P Z :=
  p <- gets s_next_pid ;; if p =? INT32_MAX then fault else modify (set_next_pid (p + 1)) ;; ret p.

Definition crown_task (t : Z) : P Z :=
  have <- gets s_arena ;;
  if negb have || (t =? 0) then ret (-1) else
  k <- co (Coop.get_task t) ;;
  if negb (Coop.t_pid k =? 0) then ret (-1) else
  a <- pm_util_mem_alloc SLOT_BYTES ;;
  if a =? 0 then ret (-1) else
  pid <- next_pid ;;
  pid <- (if pid <? 1 then modify (set_next_pid 1) ;; next_pid else ret pid) ;;
  co (Coop.upd_task t (set_t_pid (u32 pid))) ;;
  modify (fun w => set_slots (s_slots w ++ [Slot a true pid t no_budget]) w) ;;
  ret pid.

Definition pm_metal_process_crown : P Z := t <- co CoopRun.pm_metal_coop_current_task ;; crown_task t.

(** The step function of a spawned task: park once. *)
Definition idle_step (self : Z) : Coop.M Coop.status :=
  if self =? 0 then Coop.ret Coop.ERROR else
  Coop.bind (Coop.get_coro self) (fun c =>
    if bool_decide (Coop.c_status c = Coop.CANCELLED) then Coop.ret Coop.CANCELLED else
    Coop.bind (Coop.upd_coro self (Coop.set_c_status Coop.WAITING)) (fun _ => Coop.ret Coop.WAITING)).

Definition pm_metal_process_spawn : P Z :=
  have <- gets s_arena ;;
  ready <- gets (fun w => Coop.s_ready (coop w)) ;;
  if negb have || negb ready then ret (-1) else
  c <- co (CoopRun.pm_metal_coop_coro_create coop_alloc IDLE_STEP CoopRun.CORO_BYTES) ;;
  if c =? 0 then ret (-1) else
  t <- co (CoopRun.pm_metal_coop_create_task coop_alloc c) ;;
  if t =? 0 then ret (-1) else
  crown_task t.

Definition pm_metal_process_quit (pid : Z) : P Z :=
  pid <- (if pid =? 0 then pm_metal_process_current else ret pid) ;;
  if pid <? 1 then ret (-1) else
  o <- gets (fun w => slot_from 0 (s_slots w) pid) ;;
  match o with
  | None => ret (-1)
  | Some i =>
      slot_budget_drop i ;;
      o <- gets (fun w => s_slots w !! i) ;;
      match o with
      | None => ret (-1)
      | Some s =>
          when (negb (s_task s =? 0))
            (co (Coop.upd_task (s_task s) (set_t_pid 0)) ;;
             k <- co (Coop.get_task (s_task s)) ;;
             when (negb (Coop.t_root k =? 0)) (co (Coop.upd_coro (Coop.t_root k) (Coop.set_c_status Coop.CANCELLED)))) ;;
          upd_slot i (fun s => Slot (s_addr s) false 0 0 (s_budget s)) ;;
          ret 0
      end
  end.

(** ** Budgets *)

Definition pm_metal_process_budget (pid : Z) : P Z :=
  if pid =? 0 then gets (fun w => b_cap (s_repl w)) else
  o <- find_slot pid ;;
  match o with None => ret (-1) | Some i => b <- get_budget i ;; ret (b_cap b) end.

(** A new block and sub-arena of [cap] bytes in the place of budget [b]:
    [drop] gives back what was there once the block is had, [put] stores. *)
Definition replace_budget (cap : Z) (drop : P unit) (put : budget -> P unit) : P Z :=
  nb <- pm_util_mem_alloc cap ;;
  if nb =? 0 then ret (-1) else
  drop ;;
  put (Budget 0 nb cap) ;;
  a <- pm_util_mem_arena_create nb cap ;;
  if a =? 0 then pm_util_mem_free nb ;; put no_budget ;; ret (-1)
  else put (Budget a nb cap) ;; ret 0.

Definition drop_repl : P unit :=
  b <- gets s_repl ;;
  b <- drop_arena b ;;
  when (negb (b_backing b =? 0)) (pm_util_mem_free (b_backing b)) ;;
  modify (set_repl no_budget).

Definition pm_metal_process_budget_set (pid cap : Z) : P Z :=
  o <- find_slot pid ;;
  have <- gets s_arena ;;
  if negb have || (cap <? 0) then ret (-1) else
  if cap =? 0 then
    if pid =? 0 then
      cur <- pm_metal_process_current ;;
      if negb (cur =? 0) then ret (-1) else drop_repl ;; ret 0
    else match o with None => ret (-1) | Some i => slot_budget_drop i ;; ret 0 end
  else if pid =? 0 then
    cur <- pm_metal_process_current ;;
    if negb (cur =? 0) then ret (-1) else
    b <- gets s_repl ;;
    if cap =? b_cap b then ret 0 else
    replace_budget cap drop_repl (fun b => modify (set_repl b))
  else match o with
  | None => ret (-1)
  | Some i =>
      b <- get_budget i ;;
      if cap =? b_cap b then ret 0 else
      replace_budget cap (slot_budget_drop i) (fun b => upd_slot i (set_s_budget b))
  end.

Definition pm_metal_process_arena (pid : Z) : P Z :=
  if pid =? 0 then gets (fun w => b_arena (s_repl w)) else
  o <- find_slot pid ;;
  match o with None => ret 0 | Some i => b <- get_budget i ;; ret (b_arena b) end.

Definition pm_metal_process_budget_used (pid : Z) : P Z :=
  a <- pm_metal_process_arena pid ;;
  if a =? 0 then ret 0 else gets (fun w => heap_used w a).

(** The card's own proof at boot. *)
Definition pm_metal_process_up (fuel : nat) : P Z :=
  have <- gets s_arena ;;
  if negb have then ret (-1) else
  n0 <- pm_metal_process_count ;;
  cur <- pm_metal_process_current ;;
  if negb (cur =? 0) then ret (-1) else
  pid <- pm_metal_process_spawn ;;
  n1 <- pm_metal_process_count ;;
  if (pid <? 1) || negb (n1 =? n0 + 1) then ret (-1) else
  co (CoopRun.pm_metal_coop_poll clk ip_pump run_step fuel) ;;
  q <- pm_metal_process_quit pid ;;
  n2 <- pm_metal_process_count ;;
  if negb (q =? 0) || negb (n2 =? n0) then ret (-1) else ret 0.
End WithHost.
End Process.
