(* ===== verification/ProcessSpec.v ===== *)
(** * What the process card promises

    Blocks and sub-arenas are owned by exactly one budget, pids name one task
    each, and no call of the card faults as long as the tasks behind its slots
    stay allocated -- together with what happens when coop frees one. *)
From S2P Require Import Prelude Ring CoopState CoopRun CoopRefs CoopMutex CoopInv CoopStep CoopSpec CoopApi Process.

Module ProcessSpec.
Import Store Process.
Local Open Scope metal_scope.

(** ** What the card holds *)

Definition nz (a : Z) : list Z := if a =? 0 then [] else [a].
Definition slot_blocks (s : slot) : list Z := s_addr s :: nz (b_backing (s_budget s)).
Definition slot_subs (s : slot) : list Z := nz (b_arena (s_budget s)).
Definition held (w : pworld) : list Z := nz (b_backing (s_repl w)) ++ concat (slot_blocks <$> s_slots w).
Definition held_subs (w : pworld) : list Z := nz (b_arena (s_repl w)) ++ concat (slot_subs <$> s_slots w).

(** A budget has its block and its sub-arena, or neither. *)
Definition budget_ok (b : budget) : Prop := b = no_budget \/ (b_backing b <> 0 /\ b_arena b <> 0 /\ 0 < b_cap b).

(** [l] lists a set without repetition. *)
Definition lists (l : list Z) (s : gset Z) : Prop := NoDup l /\ s = list_to_set l.

(** The blocks are those held, and [E] on the C stack. *)
Record mem_at (E : list Z) (w : pworld) : Prop := {
  mo_blocks : lists (E ++ held w) (blocks w);
  mo_subs : lists (held_subs w) (subs w);
  mo_repl : budget_ok (s_repl w);
  mo_slots : Forall (fun s => budget_ok (s_budget s)) (s_slots w);
}.

Lemma lists_perm l l' s : lists l s -> l ≡ₚ l' -> lists l' s.
Proof. intros [H1 ->] Hp. split; [by rewrite <- Hp|]. apply leibniz_equiv. by rewrite Hp. Qed.

Lemma lists_add l s a : lists l s -> a ∉ s -> lists (a :: l) ({[a]} ∪ s).
Proof. intros [H1 ->] Ha. rewrite elem_of_list_to_set in Ha. split; [by constructor|done]. Qed.

Lemma lists_drop l s a : lists (a :: l) s -> a ∈ s /\ lists l (s ∖ {[a]}).
Proof. intros [[Ha Hn]%NoDup_cons ->]. split; [set_solver|]. split; [done|]. apply set_eq. intros x. set_solver. Qed.

(** A slot's budget singled out. *)
Definition put_budget (i : nat) (b : budget) (w : pworld) : pworld := set_slots (alter (set_s_budget b) i (s_slots w)) w.

Lemma concat_alter {A} (f : A -> list Z) (g : A -> A) l i x : l !! i = Some x -> forall rest, f x ≡ₚ rest ++ f (g x) -> concat (f <$> l) ≡ₚ rest ++ concat (f <$> alter g i l).
Proof.
  revert i. induction l as [|y l IH]; intros [|i] Hx rest Hf; [done..| |].
  - injection Hx as ->. cbn. by rewrite Hf, (assoc_L (++)).
  - cbn. rewrite (IH i Hx rest Hf). by rewrite !(assoc_L (++)), (Permutation_app_comm (f y) rest).
Qed.

Lemma held_slot w i s : s_slots w !! i = Some s -> held w ≡ₚ nz (b_backing (s_budget s)) ++ held (put_budget i no_budget w).
Proof.
  intros Hs. unfold held. cbn [put_budget s_slots set_slots s_repl]. rewrite (concat_alter slot_blocks (set_s_budget no_budget) _ i s Hs (nz (b_backing (s_budget s)))).
  - rewrite !(assoc_L (++)). by rewrite (Permutation_app_comm (nz (b_backing (s_repl w)))).
  - unfold slot_blocks. cbn. by rewrite Permutation_app_comm.
Qed.

Lemma held_subs_slot w i s : s_slots w !! i = Some s -> held_subs w ≡ₚ nz (b_arena (s_budget s)) ++ held_subs (put_budget i no_budget w).
Proof.
  intros Hs. unfold held_subs. cbn [put_budget s_slots set_slots s_repl]. rewrite (concat_alter slot_subs (set_s_budget no_budget) _ i s Hs (nz (b_arena (s_budget s)))).
  - rewrite !(assoc_L (++)). by rewrite (Permutation_app_comm (nz (b_arena (s_repl w)))).
  - unfold slot_subs. cbn. by rewrite app_nil_r.
Qed.

Lemma alter_fix {A} (f : A -> A) (l : list A) (i : nat) x : l !! i = Some x -> f x = x -> alter f i l = l.
Proof. revert i. induction l as [|y l IH]; intros [|i] Hx Hf; [done..|injection Hx as ->; cbn; by rewrite Hf|]. cbn. f_equal. by apply IH. Qed.

Lemma put_put i b b' w : put_budget i b (put_budget i b' w) = put_budget i b w.
Proof.
  unfold put_budget, set_slots. cbn. f_equal. revert i. induction (s_slots w) as [|s l IH]; intros [|i]; [done..|]. cbn. f_equal. apply IH.
Qed.

Lemma put_lookup w i s b : s_slots w !! i = Some s -> s_slots (put_budget i b w) !! i = Some (set_s_budget b s).
Proof. intros Hs. cbn. by rewrite list_lookup_alter_eq, Hs. Qed.

Lemma put_slots_ok w i b : Forall (fun s => budget_ok (s_budget s)) (s_slots w) -> budget_ok b -> Forall (fun s => budget_ok (s_budget s)) (s_slots (put_budget i b w)).
Proof. intros Hs Hb. cbn. apply Forall_alter; [done|]. intros s _ _. done. Qed.

(** ** Giving back and taking *)

Lemma free_wp a l w (Q : unit -> pworld -> Prop) : lists (a :: l) (blocks w) -> (lists l (blocks w ∖ {[a]}) -> Q tt (set_blocks (blocks w ∖ {[a]}) w)) -> wp (pm_util_mem_free a) Q w.
Proof. intros Hl HQ. apply lists_drop in Hl as [Ha Hl]. unfold wp, pm_util_mem_free. rewrite bool_decide_eq_true_2 by done. by apply HQ. Qed.

Lemma destroy_wp a l w (Q : unit -> pworld -> Prop) : lists (a :: l) (subs w) -> (lists l (subs w ∖ {[a]}) -> Q tt (set_subs (subs w ∖ {[a]}) w)) -> wp (pm_util_mem_arena_destroy a) Q w.
Proof. intros Hl HQ. apply lists_drop in Hl as [Ha Hl]. unfold wp, pm_util_mem_arena_destroy. rewrite bool_decide_eq_true_2 by done. by apply HQ. Qed.

(** Nothing but the card's memory differs, the coop card and the pids do not. *)
Definition same_rest (w w' : pworld) : Prop := s_arena w' = s_arena w /\ s_next_pid w' = s_next_pid w /\ coop w' = coop w.

(** [slot_budget_drop]: the slot is left without a budget. *)
Lemma slot_drop_wp w i s (Q : unit -> pworld -> Prop) E : mem_at E w -> s_arena w = true -> s_slots w !! i = Some s ->
  (forall w', mem_at E w' -> same_rest w w' -> s_repl w' = s_repl w -> s_slots w' = s_slots (put_budget i no_budget w) -> Q tt w') -> wp (slot_budget_drop i) Q w.
Proof.
  intros Hm Ha Hi HQ. pose proof Hm as [Hb Hs Hr Hl]. unfold slot_budget_drop. wstep. unfold get_budget. wstep. rewrite Hi. cbn [fmap option_fmap option_map default from_option id].
  pose proof (Forall_lookup_1 _ _ _ _ Hl Hi) as Hok. assert (Pb : E ++ held w ≡ₚ nz (b_backing (s_budget s)) ++ E ++ held (put_budget i no_budget w)) by (rewrite (held_slot w i s Hi), !(assoc_L (++)); by rewrite (Permutation_app_comm E)).
  apply (lists_perm _ _ _) with (2 := Pb) in Hb. clear Pb. apply (lists_perm _ _ _) with (2 := held_subs_slot w i s Hi) in Hs.
  destruct Hok as [En|(Hbk & Har & _)].
  - rewrite En in *. cbn [b_backing no_budget Z.eqb] in *. wstep. apply HQ; [exact Hm|done|done|]. cbn. symmetry. apply (alter_fix _ _ _ s Hi). destruct s; cbn in *; by subst.
  - rewrite (proj2 (Z.eqb_neq _ 0)) by done. unfold nz in Hb, Hs.
    rewrite (proj2 (Z.eqb_neq (b_backing (s_budget s)) 0)) in Hb by done. rewrite (proj2 (Z.eqb_neq (b_arena (s_budget s)) 0)) in Hs by done. cbn [app] in *.
    wstep. unfold drop_arena. rewrite (proj2 (Z.eqb_neq _ 0)) by done. cbn [negb when]. wstep. eapply destroy_wp; [exact Hs|]. intros Hs'. wstep. wstep. wstep. cbn [s_arena set_subs]. rewrite Ha. cbn [when b_backing].
    wstep. eapply free_wp; [exact Hb|]. intros Hb'. unfold upd_slot. wstep. apply HQ; [|done|done|done].
    constructor; [exact Hb'|exact Hs'|exact Hr|]. apply (put_slots_ok w i no_budget); [done|by left].
Qed.

Lemma drop_repl_wp w (Q : unit -> pworld -> Prop) E : mem_at E w -> (forall w', mem_at E w' -> same_rest w w' -> s_repl w' = no_budget -> s_slots w' = s_slots w -> Q tt w') -> wp drop_repl Q w.
Proof.
  intros [Hb Hs Hr Hl] HQ. unfold drop_repl. wstep. wstep. destruct Hr as [En|(Hbk & Har & _)].
  - unfold held, held_subs in *. rewrite En in *. wstep. unfold drop_arena. cbn [b_arena no_budget Z.eqb negb when b_backing]. repeat wstep. apply HQ; [|done|done|done]. constructor; [exact Hb|exact Hs|by left|done].
  - unfold held, held_subs, nz in *.
    rewrite (proj2 (Z.eqb_neq (b_backing (s_repl w)) 0)) in Hb by done. apply (lists_perm _ (b_backing (s_repl w) :: E ++ concat (slot_blocks <$> s_slots w))) in Hb; [|cbn [app]; symmetry; apply Permutation_middle]. rewrite (proj2 (Z.eqb_neq (b_arena (s_repl w)) 0)) in Hs by done. cbn [app] in *.
    wstep. unfold drop_arena. rewrite (proj2 (Z.eqb_neq _ 0)) by done. cbn [negb when]. wstep. eapply destroy_wp; [exact Hs|]. intros Hs'. wstep. wstep. cbn [b_backing]. rewrite (proj2 (Z.eqb_neq _ 0)) by done. cbn [negb when].
    eapply free_wp; [exact Hb|]. intros Hb'. wstep. apply HQ; [|done|done|done]. constructor; [exact Hb'|exact Hs'|by left|done].
Qed.

Section host.
Set Default Proof Using "Type".
Variable alloc : pworld -> Z -> Z.
Variable arena_create : pworld -> Z -> Z -> Z.
Variable heap_used : pworld -> Z -> Z.
Variable coop_alloc : Coop.world -> Z -> Z.
(** The arenas hand out what is not in use. *)
Hypothesis alloc_fresh : forall w n, alloc w n <> 0 -> alloc w n ∉ blocks w.
Hypothesis create_fresh : forall w b n, arena_create w b n <> 0 -> arena_create w b n ∉ subs w.
Hypothesis coop_fresh : forall w n, coop_alloc w n <> 0 ->
  Ring.is_pay (coop_alloc w n) /\ Coop.s_tasks w !! coop_alloc w n = None /\ Coop.s_coros w !! coop_alloc w n = None.

Lemma alloc_wp n w E (Q : Z -> pworld -> Prop) : mem_at E w -> Q 0 w ->
  (forall a, a <> 0 -> mem_at (a :: E) (set_blocks ({[a]} ∪ blocks w) w) -> Q a (set_blocks ({[a]} ∪ blocks w) w)) -> wp (pm_util_mem_alloc alloc n) Q w.
Proof using alloc_fresh.
  intros [Hb Hs Hr Hl] H0 Ha. unfold wp, pm_util_mem_alloc. destruct (Z.eqb_spec (alloc w n) 0) as [->|Hne]; [done|]. apply Ha; [done|].
  constructor; [|exact Hs|exact Hr|exact Hl]. apply lists_add; [exact Hb|by apply alloc_fresh].
Qed.

(** ** A place that has a budget: a slot's, or the REPL's *)

Record place (at_ : budget -> pworld -> pworld) (is_ : pworld -> Prop) : Prop := {
  pl_is b w : is_ w -> is_ (at_ b w);
  pl_held b w : is_ w -> held (at_ b w) ≡ₚ nz (b_backing b) ++ held (at_ no_budget w);
  pl_subs b w : is_ w -> held_subs (at_ b w) ≡ₚ nz (b_arena b) ++ held_subs (at_ no_budget w);
  pl_over b b' w : at_ b (at_ b' w) = at_ b w;
  pl_blocks b v w : at_ b (set_blocks v w) = set_blocks v (at_ b w);
  pl_set_subs b v w : at_ b (set_subs v w) = set_subs v (at_ b w);
  pl_rest b w : same_rest w (at_ b w) /\ blocks (at_ b w) = blocks w /\ subs (at_ b w) = subs w;
  pl_ok E b w : mem_at E w -> budget_ok b -> budget_ok (s_repl (at_ b w)) /\ Forall (fun s => budget_ok (s_budget s)) (s_slots (at_ b w));
}.

Lemma repl_place : place set_repl (fun _ => True).
Proof.
  split; try done. intros E b w [_ _ Hr Hl] Hb. by split.
Qed.

Lemma slot_place i : place (put_budget i) (fun w => is_Some (s_slots w !! i)).
Proof.
  split; try done.
  - intros b w [s Hs]. rewrite (put_lookup w i s b Hs). by eexists.
  - intros b w [s Hs]. rewrite (held_slot (put_budget i b w) i (set_s_budget b s)) by (by apply put_lookup). by rewrite put_put.
  - intros b w [s Hs]. rewrite (held_subs_slot (put_budget i b w) i (set_s_budget b s)) by (by apply put_lookup). by rewrite put_put.
  - intros b b' w. apply put_put.
  - intros E b w [_ _ Hr Hl] Hb. split; [done|]. by apply put_slots_ok.
Qed.

Lemma rest_refl w : same_rest w w.
Proof. done. Qed.
Lemma rest_trans w1 w2 w3 : same_rest w1 w2 -> same_rest w2 w3 -> same_rest w1 w3.
Proof. unfold same_rest. intros (-> & -> & ->). done. Qed.

(** The new budget goes in, or the place stays empty. *)
Lemma install_wp at_ is_ put nb cap w : place at_ is_ -> is_ w -> (forall b w, put b w = Done tt (at_ b w)) -> nb <> 0 -> 0 < cap -> mem_at [nb] w -> at_ no_budget w = w ->
  wp (put (Budget 0 nb cap) ;; a <- pm_util_mem_arena_create arena_create nb cap ;;
      if a =? 0 then pm_util_mem_free nb ;; put no_budget ;; ret (-1) else put (Budget a nb cap) ;; ret 0)
     (fun r w' => mem_at [] w' /\ same_rest w w' /\
        exists b, s_slots w' = s_slots (at_ b w) /\ s_repl w' = s_repl (at_ b w) /\ (r = 0 /\ b_cap b = cap \/ r = -1 /\ b = no_budget)) w.
Proof using create_fresh.
  intros Hp His Hput Hnb Hcap [Hb Hs Hr Hl] Hat. wstep. unfold wp at 1. rewrite Hput. set (w1 := at_ _ w). destruct (pl_rest _ _ Hp (Budget 0 nb cap) w) as (R1 & B1 & S1). fold w1 in R1, B1, S1.
  wstep. unfold wp at 1, pm_util_mem_arena_create. destruct (Z.eqb_spec (arena_create w1 nb cap) 0) as [E0|E0].
  - wstep. apply (free_wp nb (held w)); [rewrite B1; exact Hb|]. intros Hb'. rewrite B1 in *. wstep. unfold wp at 1. rewrite Hput. wstep.
    assert (E : at_ no_budget (set_blocks (blocks w ∖ {[nb]}) w1) = set_blocks (blocks w ∖ {[nb]}) w).
    { unfold w1. by rewrite (pl_blocks _ _ Hp), (pl_over _ _ Hp), Hat. }
    rewrite E. split; [constructor; [exact Hb'|exact Hs|exact Hr|exact Hl]|]. split; [done|]. exists no_budget. rewrite Hat. split; [done|]. split; [done|]. by right.
  - set (a := arena_create w1 nb cap) in *. pose proof (create_fresh w1 nb cap E0) as Hf. fold a in Hf. rewrite S1 in Hf. wstep. unfold wp at 1. rewrite Hput. wstep.
    set (b := Budget a nb cap). assert (E : at_ b (set_subs ({[a]} ∪ subs w1) w1) = set_subs ({[a]} ∪ subs w) (at_ b w)).
    { unfold w1. rewrite (pl_set_subs _ _ Hp), (pl_over _ _ Hp). by destruct (pl_rest _ _ Hp (Budget 0 nb cap) w) as (_ & _ & ->). }
    rewrite E. destruct (pl_rest _ _ Hp b w) as (R2 & B2 & S2). assert (Hbo : budget_ok b) by (right; cbn; lia). destruct (pl_ok _ _ Hp [nb] b w ltac:(by constructor) Hbo) as [Or Os].
    split; [|split; [exact R2|]; exists b; split; [done|]; split; [done|]; left; done].
    constructor; [| |exact Or|exact Os].
    + change (lists ([] ++ held (at_ b w)) (blocks (at_ b w))). rewrite B2. eapply lists_perm; [exact Hb|]. cbn [app]. rewrite (pl_held _ _ Hp b w His), Hat. unfold nz. cbn [b_backing b]. by rewrite (proj2 (Z.eqb_neq nb 0)).
    + change (lists (held_subs (at_ b w)) ({[a]} ∪ subs w)). eapply lists_perm; [apply (lists_add _ _ a Hs Hf)|]. rewrite (pl_subs _ _ Hp b w His), Hat. unfold nz. cbn [b_arena b]. by rewrite (proj2 (Z.eqb_neq a 0)).
Qed.

(** The new block is had first; then the old budget goes and the new one comes. *)
Lemma replace_wp at_ is_ put drop cap w : place at_ is_ -> is_ w -> (forall b w, put b w = Done tt (at_ b w)) -> 0 < cap -> mem_at [] w ->
  (forall w1 E, mem_at E w1 -> same_rest w w1 -> s_slots w1 = s_slots w -> s_repl w1 = s_repl w ->
     wp drop (fun _ w' => mem_at E w' /\ same_rest w w' /\ is_ w' /\ s_slots w' = s_slots (at_ no_budget w) /\ s_repl w' = s_repl (at_ no_budget w) /\ at_ no_budget w' = w') w1) ->
  (forall b w w', s_slots w = s_slots w' -> s_repl w = s_repl w' -> s_slots (at_ b w) = s_slots (at_ b w') /\ s_repl (at_ b w) = s_repl (at_ b w')) ->
  wp (replace_budget alloc arena_create cap drop put) (fun r w' => mem_at [] w' /\ same_rest w w' /\
    (r = -1 /\ w' = w \/ exists b, s_slots w' = s_slots (at_ b w) /\ s_repl w' = s_repl (at_ b w) /\ (r = 0 /\ b_cap b = cap \/ r = -1 /\ b = no_budget))) w.
Proof using alloc_fresh create_fresh.
  intros Hp His Hput Hcap Hm Hdrop Hext. unfold replace_budget. wstep. apply (alloc_wp cap w []); [done| |].
  { cbn [Z.eqb]. wstep. split; [done|]. split; [apply rest_refl|]. by left. }
  intros nb Hnb Hm1. rewrite (proj2 (Z.eqb_neq nb 0)) by done. wstep. eapply wp_mono; [apply (Hdrop _ [nb] Hm1); done|].
  intros _ w2 (Hm2 & R2 & I2 & S2 & P2 & A2). eapply wp_mono; [apply (install_wp at_ is_ put nb cap w2); done|].
  intros r w3 (Hm3 & R3 & b & S3 & P3 & Hr). split; [done|]. split; [by eapply rest_trans|]. right. exists b.
  destruct (Hext b w2 (at_ no_budget w) S2 P2) as [E1 E2]. rewrite (pl_over _ _ Hp) in E1, E2. by rewrite S3, P3, E1, E2.
Qed.

Lemma replace_repl_wp cap w : 0 < cap -> mem_at [] w ->
  wp (replace_budget alloc arena_create cap drop_repl (fun b => modify (set_repl b))) (fun r w' => mem_at [] w' /\ same_rest w w' /\
    (r = -1 /\ w' = w \/ exists b, s_slots w' = s_slots w /\ s_repl w' = b /\ (r = 0 /\ b_cap b = cap \/ r = -1 /\ b = no_budget))) w.
Proof using alloc_fresh create_fresh.
  intros Hcap Hm. eapply wp_mono; [apply (replace_wp set_repl (fun _ => True) (fun b => modify (set_repl b)) drop_repl cap w repl_place I (fun b w => eq_refl) Hcap Hm)|].
  - intros w1 E H1 R1 S1 P1. apply (drop_repl_wp _ _ E); [done|]. intros w' H' R' P' S'. split; [done|]. split; [by eapply rest_trans|]. split; [done|]. cbn [s_slots set_repl s_repl]. split; [congruence|]. split; [done|]. destruct w'; cbn in *; by subst.
  - intros b w1 w2 S12 _. by split.
  - intros r w' (?&?&Hr). split; [done|]. split; [done|]. destruct Hr as [?|(b&?&?&?)]; [by left|right]. by exists b.
Qed.

Lemma replace_slot_wp i cap w : 0 < cap -> mem_at [] w -> s_arena w = true -> is_Some (s_slots w !! i) ->
  wp (replace_budget alloc arena_create cap (slot_budget_drop i) (fun b => upd_slot i (set_s_budget b))) (fun r w' => mem_at [] w' /\ same_rest w w' /\
    (r = -1 /\ w' = w \/ exists b, s_slots w' = alter (set_s_budget b) i (s_slots w) /\ s_repl w' = s_repl w /\ (r = 0 /\ b_cap b = cap \/ r = -1 /\ b = no_budget))) w.
Proof using alloc_fresh create_fresh.
  intros Hcap Hm Ha Hs. eapply wp_mono; [apply (replace_wp (put_budget i) (fun w => is_Some (s_slots w !! i)) (fun b => upd_slot i (set_s_budget b)) (slot_budget_drop i) cap w (slot_place i) Hs (fun b w => eq_refl) Hcap Hm)|].
  - intros w1 E H1 R1 S1 P1. destruct Hs as [s Hs]. apply (slot_drop_wp w1 i s _ E); [done|by rewrite (proj1 R1)|by rewrite S1|].
    intros w' H' R' P' S'. split; [done|]. split; [by eapply rest_trans|].
    assert (Hi : s_slots w' !! i = Some (set_s_budget no_budget s)) by (rewrite S'; apply put_lookup; by rewrite S1).
    split; [by eexists|]. split; [rewrite S'; cbn [put_budget s_slots set_slots]; by rewrite S1|]. split; [by rewrite P', P1|].
    unfold put_budget. rewrite (alter_fix _ _ _ _ Hi) by done. by destruct w'.
  - intros b w1 w2 S12 P12. cbn [put_budget s_slots set_slots s_repl]. by rewrite S12, P12.
  - intros r w' (?&?&Hr). split; [done|]. split; [done|]. destruct Hr as [?|(b&?&?&?)]; [by left|right]. by exists b.
Qed.

(** ** The invariant of the card *)

(** A pid that is given out is that of a task of coop; a slot that is not in
    use has no budget. *)
Definition slot_ok (c : Coop.world) (next : Z) (s : slot) : Prop :=
  if s_used s then 1 <= s_pid s < next /\ exists k, Coop.s_tasks c !! s_task s = Some k /\ Coop.t_pid k = s_pid s
  else s_budget s = no_budget.
Definition pids (l : list slot) : list Z := s_pid <$> List.filter s_used l.

Record pinv (w : pworld) : Prop := {
  pi_up : s_arena w = true;
  pi_mem : mem_at [] w;
  pi_next : 1 <= s_next_pid w <= INT32_MAX;
  pi_coop : CoopInv.inv CoopInv.BIG (coop w) [];
  pi_cur : CoopApi.task_arg (coop w) (Coop.s_current (coop w));
  pi_slots : Forall (slot_ok (coop w) (s_next_pid w)) (s_slots w);
  pi_pids : NoDup (pids (s_slots w));
}.

(** Slots that differ in the budget of a slot in use. *)
Definition alike (s s' : slot) : Prop := exists b, s' = set_s_budget b s /\ (s_used s = false -> b = s_budget s).

Lemma alike_refl s : alike s s.
Proof. exists (s_budget s). split; [by destruct s|done]. Qed.

Lemma alike_all l : Forall2 alike l l.
Proof. apply Reflexive_instance_0. intros s. apply alike_refl. Qed.

Lemma alike_alter i b l s : l !! i = Some s -> s_used s = true -> Forall2 alike l (alter (set_s_budget b) i l).
Proof.
  revert i. induction l as [|x l IH]; intros [|i] Hi Hu; [done..| |]; cbn; constructor; [|apply alike_all|apply alike_refl|by apply IH].
  injection Hi as ->. exists b. split; [done|]. by rewrite Hu.
Qed.

Lemma alike_pids l l' : Forall2 alike l l' -> pids l' = pids l.
Proof. unfold pids. induction 1 as [|s s' l l' (b & -> & _) _ IH]; [done|]. cbn. destruct (s_used s); cbn; by rewrite IH. Qed.

Lemma alike_ok c n l l' : Forall2 alike l l' -> Forall (slot_ok c n) l -> Forall (slot_ok c n) l'.
Proof.
  induction 1 as [|s s' l l' (b & -> & Hb) _ IH]; [done|]. intros [Hs Hl]%Forall_cons. constructor; [|by apply IH].
  unfold slot_ok in *. cbn. destruct (s_used s); [done|]. by rewrite (Hb eq_refl).
Qed.

Lemma pinv_mem w w' : pinv w -> mem_at [] w' -> same_rest w w' -> Forall2 alike (s_slots w) (s_slots w') -> pinv w'.
Proof.
  intros [] Hm (Ea & En & Ec) Ha. constructor; rewrite ?Ea, ?En, ?Ec; try done.
  - by eapply alike_ok.
  - by rewrite (alike_pids _ _ Ha).
Qed.

Lemma slot_from_spec l pid n i : slot_from n l pid = Some i -> exists s, l !! (i - n)%nat = Some s /\ s_used s = true /\ s_pid s = pid /\ (n <= i)%nat.
Proof.
  revert n. induction l as [|s l IH]; intros n; cbn; [done|]. destruct (s_used s && (s_pid s =? pid)) eqn:E.
  - intros [= <-]. apply andb_true_iff in E as [E1 E2%Z.eqb_eq]. exists s. by rewrite Nat.sub_diag.
  - intros H. destruct (IH _ H) as (s' & H1 & H2 & H3 & H4). exists s'. replace (i - n)%nat with (S (i - S n)) by lia. split; [done|]. split; [done|]. split; [done|lia].
Qed.

Lemma pids_below c n l p : Forall (slot_ok c n) l -> p ∈ pids l -> 1 <= p < n.
Proof.
  unfold pids. intros Hl (s & -> & Hs)%list_elem_of_fmap. apply list_elem_of_In, filter_In in Hs as [Hs Hu]. apply list_elem_of_In in Hs. rewrite Forall_forall in Hl. specialize (Hl _ Hs). unfold slot_ok in Hl. rewrite Hu in Hl. apply Hl.
Qed.

Lemma slot_from_none l pid n : slot_from n l pid = None -> pid ∉ pids l.
Proof.
  unfold pids. revert n. induction l as [|s l IH]; intros n; cbn; [intros _; apply not_elem_of_nil|]. destruct (s_used s); cbn [andb]; [|by apply IH]. destruct (Z.eqb_spec (s_pid s) pid) as [|Hne]; [done|].
  intros H. cbn. apply not_elem_of_cons. split; [done|by eapply IH].
Qed.

Lemma current_wp w (Q : Z -> pworld -> Prop) : pinv w -> (forall p, Q p w) -> wp pm_metal_process_current Q w.
Proof.
  intros Hi HQ. unfold wp, pm_metal_process_current, co, CoopRun.pm_metal_coop_process_id, Coop.bind, CoopRun.pm_metal_coop_current_task, Coop.gets.
  assert (E : set_coop (coop w) w = w) by by destruct w. destruct (pi_cur _ Hi) as [->|[k Hk]]; [cbn; rewrite E; apply HQ|].
  destruct (_ =? 0); [cbn; rewrite E; apply HQ|]. unfold Coop.get_task. rewrite Hk. cbn. rewrite E. apply HQ.
Qed.

Lemma find_slot_wp pid w (Q : option nat -> pworld -> Prop) : pinv w -> ((pid <> 0 -> pid ∉ pids (s_slots w)) -> Q None w) ->
  (forall i s, s_slots w !! i = Some s -> s_used s = true -> (pid <> 0 -> s_pid s = pid) -> Q (Some i) w) -> wp (find_slot pid) Q w.
Proof.
  intros Hi H0 HQ. unfold find_slot. wstep. assert (K : forall p, (pid <> 0 -> p = pid) -> wp (if p <? 1 then ret None else gets (fun w => slot_from 0 (s_slots w) p)) Q w).
  { intros p Hp. destruct (Z.ltb_spec p 1) as [Hlt|Hge]; wstep.
    - apply H0. intros Hn Hin. rewrite <- (Hp Hn) in Hin. pose proof (pids_below _ _ _ _ (pi_slots _ Hi) Hin). lia.
    - destruct (slot_from 0 (s_slots w) p) as [i|] eqn:E; [|apply H0; intros Hn; rewrite <- (Hp Hn); by eapply slot_from_none].
      destruct (slot_from_spec _ _ _ _ E) as (s & H1 & H2 & H3 & _). rewrite Nat.sub_0_r in H1. eapply HQ; [done|done|]. intros Hn. by rewrite H3, Hp. }
  destruct (Z.eqb_spec pid 0); [apply current_wp; [done|intros p; by apply K]|apply wp_ret, K; done].
Qed.

(** What [budget_set] does to the slots: one is that of [pid] and has the new
    budget, or none when its sub-arena cannot be had. *)
Definition budgeted (pid cap : Z) (w : pworld) (r : Z) (w' : pworld) : Prop :=
  s_slots w' = s_slots w /\ (pid = 0 \/ r = -1) \/
  exists i s b, s_slots w !! i = Some s /\ s_used s = true /\ s_pid s = pid /\
    s_slots w' = alter (set_s_budget b) i (s_slots w) /\ (r = 0 /\ b_cap b = cap \/ r = -1 /\ b = no_budget).

Lemma budgeted_pinv pid cap w r w' : pinv w -> mem_at [] w' -> same_rest w w' -> budgeted pid cap w r w' -> pinv w' /\ budgeted pid cap w r w' /\ same_rest w w'.
Proof.
  intros Hi Hm Hr Hb. split; [|done]. apply (pinv_mem w); [done|done|done|]. destruct Hb as [[-> _]|(i & s & b & Hs & Us & _ & -> & _)]; [apply alike_all|by apply (alike_alter i b _ s)].
Qed.

(** The REPL's part of [budget_set], and a slot's. *)
Lemma set_repl_wp cap w : pinv w -> 0 <= cap ->
  wp (if cap =? 0 then cur <- pm_metal_process_current ;; if negb (cur =? 0) then ret (-1) else drop_repl ;; ret 0
      else cur <- pm_metal_process_current ;; if negb (cur =? 0) then ret (-1) else b <- gets s_repl ;; if cap =? b_cap b then ret 0 else replace_budget alloc arena_create cap drop_repl (fun b => modify (set_repl b)))
     (fun r w' => pinv w' /\ budgeted 0 cap w r w' /\ same_rest w w') w.
Proof using alloc_fresh create_fresh.
  intros Hi Hc0. pose proof (pi_mem _ Hi) as Hm. assert (Hw : forall r, pinv w /\ budgeted 0 cap w r w /\ same_rest w w) by (intros r; split; [done|split; [left; split; [done|by left]|done]]).
  destruct (Z.eqb_spec cap 0) as [->|Hc].
  - wstep. apply current_wp; [done|]. intros p. cbv beta. wstep; [by wstep|]. wstep. apply (drop_repl_wp _ _ []); [done|]. intros w' H' R' _ S'. wstep. apply budgeted_pinv; [done..|]. left. split; [done|by left].
  - wstep. apply current_wp; [done|]. intros p. cbv beta. wstep; [by wstep|]. wstep. wstep. wstep; [by wstep|]. eapply wp_mono; [apply replace_repl_wp; [lia|done]|].
    intros r w' (H' & R' & [[_ ->]|(b & S' & _)]); [done|]. apply budgeted_pinv; [done..|]. left. split; [done|by left].
Qed.

Lemma set_slot_wp pid cap i s w : pinv w -> 0 <= cap -> s_slots w !! i = Some s -> s_used s = true -> s_pid s = pid ->
  wp (if cap =? 0 then slot_budget_drop i ;; ret 0
      else b <- get_budget i ;; if cap =? b_cap b then ret 0 else replace_budget alloc arena_create cap (slot_budget_drop i) (fun b => upd_slot i (set_s_budget b)))
     (fun r w' => pinv w' /\ budgeted pid cap w r w' /\ same_rest w w') w.
Proof using alloc_fresh create_fresh.
  intros Hi Hc0 Hs Us Ep. pose proof (pi_mem _ Hi) as Hm. destruct (Z.eqb_spec cap 0) as [->|Hc].
  - wstep. apply (slot_drop_wp _ i s _ []); [done|apply (pi_up _ Hi)|done|]. intros w' H' R' _ S'. wstep. apply budgeted_pinv; [done..|]. right. exists i, s, no_budget. repeat split; try done. by left.
  - wstep. unfold get_budget. wstep. rewrite Hs. cbn. destruct (Z.eqb_spec cap (b_cap (s_budget s))) as [E|_].
    + wstep. apply budgeted_pinv; [done..|]. right. exists i, s, (s_budget s). do 3 (split; [done|]). split; [symmetry; apply (alter_fix _ _ _ s Hs); by destruct s|by left].
    + eapply wp_mono; [apply replace_slot_wp; [lia|done|apply (pi_up _ Hi)|by eexists]|].
      intros r w' (H' & R' & [[-> ->]|(b & S' & _ & Hb)]); (apply budgeted_pinv; [done..|]); [left; split; [done|by right]|]. right. by exists i, s, b.
Qed.

(** [budget_set] keeps the invariant, whichever budget it is and whatever fails. *)
Lemma budget_set_wp pid cap w : pinv w -> wp (pm_metal_process_budget_set alloc arena_create pid cap) (fun r w' => pinv w' /\ budgeted pid cap w r w' /\ same_rest w w') w.
Proof using alloc_fresh create_fresh.
  intros Hi. assert (Hw : pinv w /\ budgeted pid cap w (-1) w /\ same_rest w w) by (split; [done|split; [left; split; [done|by right]|done]]).
  unfold pm_metal_process_budget_set. wstep. assert (H0 : forall o, pid = 0 \/ o = None -> wp (have <- gets s_arena ;; if negb have || (cap <? 0) then ret (-1) else
      if cap =? 0 then if pid =? 0 then cur <- pm_metal_process_current ;; if negb (cur =? 0) then ret (-1) else drop_repl ;; ret 0
        else match o with None => ret (-1) | Some i => slot_budget_drop i ;; ret 0 end
      else if pid =? 0 then cur <- pm_metal_process_current ;; if negb (cur =? 0) then ret (-1) else b <- gets s_repl ;; if cap =? b_cap b then ret 0 else replace_budget alloc arena_create cap drop_repl (fun b => modify (set_repl b))
      else match o with None => ret (-1) | Some i => b <- get_budget i ;; if cap =? b_cap b then ret 0 else replace_budget alloc arena_create cap (slot_budget_drop i) (fun b => upd_slot i (set_s_budget b)) end)
     (fun r w' => pinv w' /\ budgeted pid cap w r w' /\ same_rest w w') w).
  { intros o Ho. wstep. wstep. rewrite (pi_up _ Hi). cbn [negb orb]. destruct (Z.ltb_spec cap 0) as [|Hc0]; [by wstep|]. destruct (Z.eqb_spec pid 0) as [->|Hp].
    - by apply set_repl_wp.
    - destruct Ho as [?| ->]; [done|]. destruct (cap =? 0); by wstep. }
  apply find_slot_wp; [done|intros _; apply (H0 None); by right|]. intros i s Hs Us Ep. destruct (Z.eqb_spec pid 0) as [->|Hp]; [apply (H0 (Some i)); by left|].
  wstep. wstep. rewrite (pi_up _ Hi). cbn [negb orb]. destruct (Z.ltb_spec cap 0) as [|Hc0]; [by wstep|]. by apply (set_slot_wp pid cap i s); [..|apply Ep].
Qed.

(** ** Crowning *)

Lemma next_pid_wp w (Q : Z -> pworld -> Prop) : 1 <= s_next_pid w < INT32_MAX -> Q (s_next_pid w) (set_next_pid (s_next_pid w + 1) w) -> wp next_pid Q w.
Proof. intros Hn HQ. unfold next_pid. wstep. wstep. rewrite (proj2 (Z.eqb_neq _ _)) by lia. by do 2 wstep. Qed.

Lemma slot_ok_other c n n' t k v s : Coop.s_tasks c !! t = Some k -> Coop.t_pid k <> s_pid s \/ s_used s = false -> n <= n' -> slot_ok c n s ->
  slot_ok (Coop.set_tasks (<[t := set_t_pid v k]> (Coop.s_tasks c)) c) n' s.
Proof.
  unfold slot_ok. intros Hk Hp Hn. destruct (s_used s) eqn:Eu; [|done]. intros (Hr & k' & Hk' & Ep). split; [lia|]. exists k'. cbn [Coop.s_tasks Coop.set_tasks]. rewrite lookup_insert_ne; [done|]. intros ->. destruct Hp; [|done]. congruence.
Qed.

Lemma pids_app l s : s_used s = true -> pids (l ++ [s]) = pids l ++ [s_pid s].
Proof. unfold pids. intros Hu. rewrite List.filter_app, fmap_app. cbn. by rewrite Hu. Qed.

(** The world with task [t] under the new pid. *)
Definition crowned (a t : Z) (k : Coop.task) (w : pworld) : pworld :=
  let p := s_next_pid w in
  PWorld true (s_slots w ++ [Slot a true p t no_budget]) (p + 1) (s_repl w) ({[a]} ∪ blocks w) (subs w) (Coop.set_tasks (<[t := set_t_pid (u32 p) k]> (Coop.s_tasks (coop w))) (coop w)).

(** [crown_task] refuses, or the task has the next pid and a slot. *)
Definition crowns (t : Z) (w : pworld) (r : Z) (w' : pworld) : Prop :=
  r = -1 /\ w' = w \/ exists a k, Coop.s_tasks (coop w) !! t = Some k /\ Coop.t_pid k = 0 /\ r = s_next_pid w /\ w' = crowned a t k w.

Lemma crowned_pinv a t k w : pinv w -> s_next_pid w < INT32_MAX -> Coop.s_tasks (coop w) !! t = Some k -> Coop.t_pid k = 0 -> lists (a :: held w) ({[a]} ∪ blocks w) -> pinv (crowned a t k w).
Proof.
  intros [Hu [Hb Hs Hr Hl] Hn Hc Hcur Hsl Hp] Hlt Hk E0 Ha. constructor; cbn [crowned s_arena s_next_pid coop s_slots]; [done| |lia| | | |].
  - constructor; cbn [crowned s_repl s_slots blocks subs]; [|unfold held_subs in *; cbn [crowned s_repl s_slots]; rewrite fmap_app, concat_app; cbn; by rewrite app_nil_r|done|].
    + eapply lists_perm; [exact Ha|]. unfold held. cbn [crowned s_repl s_slots]. rewrite fmap_app, concat_app. cbn. rewrite (assoc_L (++)). apply Permutation_cons_append.
    + apply Forall_app. split; [done|]. constructor; [by left|done].
  - apply (CoopInv.inv_upd_task _ _ _ _ k); auto.
  - destruct Hcur as [?|Hcur]; [by left|right]. apply lookup_insert_is_Some'. by right.
  - apply Forall_app. split.
    + eapply Forall_impl; [exact Hsl|]. intros s Hok. apply (slot_ok_other _ (s_next_pid w)); [done| |lia|done]. unfold slot_ok in Hok. destruct (s_used s); [left; lia|by right].
    + constructor; [|done]. split; cbn; [lia|]. exists (set_t_pid (u32 (s_next_pid w)) k). split; [by rewrite lookup_insert_eq|]. cbn. apply u32_small. unfold INT32_MAX in *. lia.
  - rewrite pids_app by done. apply NoDup_app. split; [done|]. split; [|apply NoDup_singleton]. intros p Hp' ->%list_elem_of_singleton. cbn in Hp'. pose proof (pids_below _ _ _ _ Hsl Hp'). lia.
Qed.

Lemma crown_task_wp t w : pinv w -> s_next_pid w < INT32_MAX -> CoopApi.task_arg (coop w) t -> wp (crown_task alloc t) (fun r w' => pinv w' /\ crowns t w r w') w.
Proof using alloc_fresh.
  intros Hi Hlt Ht. assert (H1 : pinv w /\ crowns t w (-1) w) by (split; [done|by left]). unfold crown_task. wstep. wstep. rewrite (pi_up _ Hi). cbn [negb orb].
  destruct (Z.eqb_spec t 0) as [E0|E0]; [by wstep|]. destruct Ht as [?|[k Hk]]; [done|]. wstep. unfold wp at 1, co, Coop.get_task. rewrite Hk.
  replace (set_coop (coop w) w) with w by by destruct w. destruct (Z.eqb_spec (Coop.t_pid k) 0) as [Ep|Ep]; cbn [negb]; [|by wstep].
  wstep. apply (alloc_wp _ w []); [apply (pi_mem _ Hi)|cbn [Z.eqb]; by wstep|]. intros a Ha Hm. rewrite (proj2 (Z.eqb_neq a 0)) by done. wstep.
  pose proof (pi_next _ Hi) as Hn. apply next_pid_wp; [cbn; lia|]. cbn [s_next_pid set_blocks]. rewrite (proj2 (Z.ltb_ge _ 1)) by lia. wstep. wstep. wstep.
  unfold wp at 1, co, Coop.upd_task, Coop.bind, Coop.get_task. cbn [coop set_next_pid set_blocks]. rewrite Hk. cbn. do 2 (first [apply wp_bind, wp_modify | apply wp_ret]).
  pose proof (mo_blocks _ _ Hm) as Hb. change (lists (a :: held w) ({[a]} ∪ blocks w)) in Hb.
  match goal with |- pinv ?x /\ _ => replace x with (crowned a t k w) by (pose proof (pi_up _ Hi) as Hu; unfold crowned, set_slots, set_coop, set_next_pid, set_blocks; cbn; by rewrite Hu) end.
  split; [by apply crowned_pinv|]. right. by exists a, k.
Qed.

(** ** Spawning *)

(** [c'] has the tasks of [c], under the same pids, and its current task. *)
Definition tasks_kept (c c' : Coop.world) : Prop :=
  Coop.s_current c' = Coop.s_current c /\ forall t k, Coop.s_tasks c !! t = Some k -> exists k', Coop.s_tasks c' !! t = Some k' /\ Coop.t_pid k' = Coop.t_pid k.

Lemma slot_ok_kept c c' n s : tasks_kept c c' -> slot_ok c n s -> slot_ok c' n s.
Proof. unfold slot_ok. intros [_ Hk] H. destruct (s_used s); [|done]. destruct H as (Hr & k & H1 & H2). split; [done|]. destruct (Hk _ _ H1) as (k' & ? & ?). exists k'. split; [done|congruence]. Qed.

Lemma pinv_coop c w : pinv w -> tasks_kept (coop w) c -> CoopInv.inv CoopInv.BIG c [] -> pinv (set_coop c w).
Proof.
  intros [Hu [] Hn Hc Hcur Hsl Hp] Hk Hi. constructor; try done.
  - unfold CoopApi.task_arg. cbn [coop set_coop]. rewrite (proj1 Hk). destruct Hcur as [?|[k Hk']]; [by left|]. destruct (proj2 Hk _ _ Hk') as (k' & ? & _). right. by eexists.
  - eapply Forall_impl; [exact Hsl|]. intros s. by apply slot_ok_kept.
Qed.

(** What leaves the current task alone. *)
Definition keeps_cur {A} (m : Coop.M A) : Prop := forall w a w', m w = Coop.Done a w' -> Coop.s_current w' = Coop.s_current w.

Lemma kc_bind {A B} (m : Coop.M A) (f : A -> Coop.M B) : keeps_cur m -> (forall a, keeps_cur (f a)) -> keeps_cur (Coop.bind m f).
Proof. unfold keeps_cur, Coop.bind. intros Hm Hf w b w'. destruct (m w) as [a w1| |] eqn:E; [|done..]. intros H. by rewrite (Hf _ _ _ _ H), (Hm _ _ _ E). Qed.

Lemma kc_prim : (forall A (a : A), keeps_cur (Coop.ret a)) /\ (forall A (f : Coop.world -> A), keeps_cur (Coop.gets f)) /\ (forall t, keeps_cur (Coop.get_task t)) /\ (forall c, keeps_cur (Coop.get_coro c)) /\
  (forall t k, keeps_cur (Coop.put_task t k)) /\ (forall c k, keeps_cur (Coop.put_coro c k)) /\ (forall t, keeps_cur (Coop.free_task t)) /\ (forall c, keeps_cur (Coop.free_coro c)) /\ (forall k p, keeps_cur (Coop.ring_push_w k p)).
Proof.
  repeat split; intros; intros w0 a0 w1; unfold Coop.ret, Coop.gets, Coop.get_task, Coop.get_coro, Coop.put_task, Coop.put_coro, Coop.modify, Coop.free_task, Coop.free_coro, Coop.ring_push_w; intros E; repeat case_match; by simplify_eq.
Qed.

Lemma create_keeps_cur c : keeps_cur (CoopRun.pm_metal_coop_create_task coop_alloc c).
Proof.
  destruct kc_prim as (K1 & K2 & K3 & K4 & K5 & K6 & K7 & K8 & K9).
  unfold CoopRun.pm_metal_coop_create_task, CoopRun.mem_alloc_w, Coop.push_task_ref, Coop.task_unref, Coop.task_free, Coop.upd_coro. cbv zeta.
  repeat first [apply kc_bind; [|intros ?] | apply K1 | apply K2 | apply K3 | apply K4 | apply K5 | apply K6 | apply K7 | apply K8 | apply K9 | case_match].
Qed.

Lemma co_wp {A} (m : Coop.M A) w (Q : A -> pworld -> Prop) a c : m (coop w) = Coop.Done a c -> Q a (set_coop c w) -> wp (co m) Q w.
Proof. intros E HQ. unfold wp, co. by rewrite E. Qed.

(** A coroutine of nobody's, made or not. *)
Lemma coro_create_done step n c : CoopInv.inv CoopInv.BIG c [] -> exists v c', CoopRun.pm_metal_coop_coro_create coop_alloc step n c = Coop.Done v c' /\
  CoopInv.inv CoopInv.BIG c' [] /\ Coop.s_ready c' = Coop.s_ready c /\ Coop.s_current c' = Coop.s_current c /\ Coop.s_tasks c' = Coop.s_tasks c /\
  (v <> 0 -> is_Some (Coop.s_coros c' !! v) /\ forall s j, Coop.s_tasks c' !! s = Some j -> Coop.t_root j <> v).
Proof using coop_fresh.
  intros Hi. destruct (CoopApi.sound_coro_create coop_alloc c step n Hi) as (v & c' & E & Hi'). exists v, c'. split; [done|]. split; [done|].
  unfold CoopRun.pm_metal_coop_coro_create in E. unfold Coop.bind, Coop.gets, CoopRun.mem_alloc_w, Coop.put_coro, Coop.modify, Coop.ret in E.
  destruct (_ || _); [by simplify_eq|]. unfold Coop.gets in E. destruct (Z.eqb_spec (coop_alloc c n) 0) as [E0|E0]; [by simplify_eq|]. injection E as <- <-. do 3 (split; [done|]). intros _.
  split; [apply lookup_insert_is_Some; by left|]. intros s j Hj Hroot. destruct (coop_fresh c n E0) as (_ & _ & Hn). destruct Hi as (r & q & l & Hi). destruct (proj2 (CoopInv.iv_store _ _ _ _ _ _ Hi) s j Hj ltac:(lia)) as [[x Hx] _]. congruence.
Qed.

(** A task of it, queued, or nothing. *)
Lemma create_task_done cr c : CoopInv.inv CoopInv.BIG c [] -> cr <> 0 -> is_Some (Coop.s_coros c !! cr) -> (forall s j, Coop.s_tasks c !! s = Some j -> Coop.t_root j <> cr) ->
  exists t c', CoopRun.pm_metal_coop_create_task coop_alloc cr c = Coop.Done t c' /\ CoopInv.inv CoopInv.BIG c' [] /\ tasks_kept c c' /\ CoopApi.task_arg c' t.
Proof using coop_fresh.
  intros Hi H0 [kc Hc] Hown. destruct (CoopApi.sound_create coop_alloc (fun _ _ => 0%nat) coop_fresh c cr Hi) as (t & c' & E & Hi'); [split; [right; by eexists|done]|]. exists t, c'. split; [done|]. split; [done|].
  pose proof (create_keeps_cur cr _ _ _ E) as Ec. destruct (Coop.s_ready c) eqn:Er.
  2: { unfold CoopRun.pm_metal_coop_create_task, Coop.bind at 1, Coop.gets at 1 in E. rewrite Er in E. injection E as <- <-. split; [split; [done|intros x k Hx; by exists k]|by left]. }
  destruct (decide (coop_alloc c CoopRun.TASK_BYTES = 0)) as [Ea|Ea].
  { unfold CoopRun.pm_metal_coop_create_task, Coop.bind at 1, Coop.gets at 1 in E. rewrite Er, (proj2 (Z.eqb_neq cr 0)) in E by done. cbn [negb orb] in E. unfold Coop.bind at 1, CoopRun.mem_alloc_w, Coop.gets at 1 in E. rewrite Ea in E. injection E as <- <-. split; [split; [done|intros x k Hx; by exists k]|by left]. }
  destruct (coop_fresh c CoopRun.TASK_BYTES Ea) as (Hp & Hn & _). destruct Hi as (r & q & l & Hi).
  destruct (CoopSpec.create_task_queues coop_alloc CoopInv.BIG c [] r q l cr _ kc Hi Er H0 Hc Hown eq_refl Ea Hp Hn) as (v & w' & E' & _ & Hq). rewrite E in E'. injection E' as <- <-.
  destruct (zlen q <? _).
  - destruct Hq as (-> & HT & _). split; [|right; rewrite HT; apply lookup_insert_is_Some; by left]. split; [done|]. intros x k Hx. exists k. rewrite HT, lookup_insert_ne; [done|]. intros <-. congruence.
  - destruct Hq as (-> & HT & _). split; [|by left]. split; [done|]. intros x k Hx. exists k. by rewrite HT.
Qed.

(** What a call leaves of the slots there were. *)
Definition grows (w : pworld) (r : Z) (w' : pworld) : Prop :=
  r = -1 /\ s_slots w' = s_slots w \/ r = s_next_pid w /\ exists a t, s_slots w' = s_slots w ++ [Slot a true r t no_budget].

Lemma crowns_grows t w r w' : crowns t w r w' -> grows w r w'.
Proof. intros [[-> ->]|(a & k & _ & _ & -> & ->)]; [by left|right]. split; [done|]. by exists a, t. Qed.

Lemma spawn_wp w : pinv w -> s_next_pid w < INT32_MAX -> wp (pm_metal_process_spawn alloc coop_alloc) (fun r w' => pinv w' /\ grows w r w') w.
Proof using alloc_fresh coop_fresh.
  intros Hi Hlt. assert (H1 : pinv w /\ grows w (-1) w) by (split; [done|by left]). unfold pm_metal_process_spawn. do 4 wstep. destruct (_ || _); [by wstep|].
  destruct (coro_create_done IDLE_STEP CoopRun.CORO_BYTES (coop w) (pi_coop _ Hi)) as (v & c1 & E1 & Hi1 & _ & Ecur & ET & Hv). wstep. eapply co_wp; [exact E1|].
  assert (K1 : tasks_kept (coop w) c1) by (split; [done|]; rewrite ET; intros x k Hx; by exists k). pose proof (pinv_coop _ _ Hi K1 Hi1) as Hp1.
  destruct (Z.eqb_spec v 0) as [|Hv0]; [wstep; split; [done|by left]|]. destruct (Hv Hv0) as [Hc Hown].
  destruct (create_task_done v c1 Hi1 Hv0 Hc Hown) as (t & c2 & E2 & Hi2 & K2 & Ht). wstep. eapply co_wp; [exact E2|]. pose proof (pinv_coop c2 (set_coop c1 w) Hp1 K2 Hi2) as Hp2.
  destruct (Z.eqb_spec t 0); [wstep; split; [done|by left]|]. eapply wp_mono; [by apply crown_task_wp|]. intros r w' [Hp' Hg]. split; [done|]. by apply (crowns_grows t (set_coop c2 (set_coop c1 w))) in Hg.
Qed.

Lemma crown_wp w : pinv w -> s_next_pid w < INT32_MAX -> wp (pm_metal_process_crown alloc) (fun r w' => pinv w' /\ grows w r w') w.
Proof using alloc_fresh.
  intros Hi Hlt. unfold pm_metal_process_crown. wstep. eapply co_wp; [reflexivity|]. replace (set_coop (coop w) w) with w by by destruct w.
  eapply wp_mono; [apply crown_task_wp; [done|done|apply (pi_cur _ Hi)]|]. intros r w' [Hp Hg]. split; [done|]. by eapply crowns_grows.
Qed.

(** ** Quitting *)

Definition retired (s : slot) : slot := Slot (s_addr s) false 0 0 (s_budget s).

Lemma pids_retire i l s : l !! i = Some s -> s_used s = true -> pids l ≡ₚ s_pid s :: pids (alter retired i l).
Proof.
  unfold pids. revert i. induction l as [|x l IH]; intros [|i] Hi Hu; [done..| |].
  - injection Hi as ->. cbn. by rewrite Hu.
  - cbn. destruct (s_used x); cbn; rewrite (IH i) by done; [apply perm_swap|done].
Qed.

(** No other slot in use has that pid. *)
Lemma pids_other i j l s s' : NoDup (pids l) -> l !! i = Some s -> s_used s = true -> alter retired i l !! j = Some s' -> s_used s' = true -> l !! j = Some s' /\ s_pid s' <> s_pid s.
Proof.
  intros Hn Hi Hu Hj Hu'. assert (Hne : i <> j) by (intros <-; rewrite list_lookup_alter_eq, Hi in Hj; injection Hj as <-; done).
  assert (Hj0 : l !! j = Some s') by by rewrite list_lookup_alter_ne in Hj. split; [done|]. intros E. rewrite (pids_retire i l s Hi Hu) in Hn. apply NoDup_cons in Hn as [Hn _]. apply Hn. rewrite <- E.
  unfold pids. apply list_elem_of_fmap. exists s'. split; [done|]. apply list_elem_of_In, filter_In. split; [|done]. apply list_elem_of_In. by eapply list_elem_of_lookup_2.
Qed.

Lemma fmap_alter_same {A B} (f : A -> B) (g : A -> A) (i : nat) (l : list A) : (forall x, f (g x) = f x) -> f <$> alter g i l = f <$> l.
Proof. intros H. revert i. induction l as [|x l IH]; intros [|i]; [done..|cbn; by rewrite H|]. cbn. f_equal. apply IH. Qed.

(** The task loses its pid and its root is cancelled; the slot is free. *)
Lemma retire_pinv i s c w : pinv w -> s_slots w !! i = Some s -> s_used s = true -> s_budget s = no_budget ->
  CoopInv.inv CoopInv.BIG c [] -> CoopApi.task_arg c (Coop.s_current c) -> (forall t k, t <> s_task s -> Coop.s_tasks (coop w) !! t = Some k -> Coop.s_tasks c !! t = Some k) ->
  pinv (set_slots (alter retired i (s_slots w)) (set_coop c w)).
Proof.
  intros [Hu [Hb Hs Hr Hl] Hn Hc Hcur Hsl Hp] Hi Us Eb Hi' Hcur' HT. constructor; try done.
  - constructor; [| |done|].
    + unfold held. cbn [s_slots set_slots s_repl set_coop]. by rewrite (fmap_alter_same slot_blocks retired).
    + unfold held_subs. cbn [s_slots set_slots s_repl set_coop]. by rewrite (fmap_alter_same slot_subs retired).
    + cbn. apply Forall_alter; [done|]. intros x _ Hx. done.
  - cbn [s_slots set_slots coop set_coop s_next_pid]. apply Forall_lookup_2. intros j s' Hj. destruct (s_used s') eqn:Us'.
    + destruct (pids_other _ _ _ _ _ Hp Hi Us Hj Us') as [Hj0 Hne]. pose proof (Forall_lookup_1 _ _ _ _ Hsl Hj0) as Hok. pose proof (Forall_lookup_1 _ _ _ _ Hsl Hi) as Hs0. unfold slot_ok in *. rewrite Us' in *. rewrite Us in Hs0.
      destruct Hok as (Hrg & k & Hk & Ep), Hs0 as (_ & k0 & Hk0 & Ep0). split; [done|]. exists k. split; [|done]. apply HT; [|done]. intros E. rewrite E in Hk. congruence.
    + unfold slot_ok. rewrite Us'. destruct (decide (i = j)) as [<-|Hne].
      * rewrite list_lookup_alter_eq, Hi in Hj. injection Hj as <-. done.
      * rewrite list_lookup_alter_ne in Hj by done. pose proof (Forall_lookup_1 _ _ _ _ Hsl Hj) as Hok. unfold slot_ok in Hok. by rewrite Us' in Hok.
  - cbn [s_slots set_slots]. rewrite (pids_retire i _ s Hi Us) in Hp. by apply NoDup_cons in Hp as [_ ?].
Qed.

(** What [quit] does to coop: the pid goes, the root is cancelled. *)
Lemma cancel_wp w s (Q : unit -> pworld -> Prop) : pinv w -> slot_ok (coop w) (s_next_pid w) s -> s_used s = true ->
  (forall c, CoopInv.inv CoopInv.BIG c [] -> CoopApi.task_arg c (Coop.s_current c) -> (forall t k, t <> s_task s -> Coop.s_tasks (coop w) !! t = Some k -> Coop.s_tasks c !! t = Some k) -> Q tt (set_coop c w)) ->
  wp (when (negb (s_task s =? 0)) (co (Coop.upd_task (s_task s) (set_t_pid 0)) ;; k <- co (Coop.get_task (s_task s)) ;;
        when (negb (Coop.t_root k =? 0)) (co (Coop.upd_coro (Coop.t_root k) (Coop.set_c_status Coop.CANCELLED))))) Q w.
Proof.
  intros Hi Hs Us HQ. unfold slot_ok in Hs. rewrite Us in Hs. destruct Hs as (_ & k & Hk & _). destruct (Z.eqb_spec (s_task s) 0) as [E0|E0]; cbn [negb when].
  { wstep. replace w with (set_coop (coop w) w) by by destruct w. apply HQ; [apply (pi_coop _ Hi)|apply (pi_cur _ Hi)|done]. }
  set (c1 := Coop.set_tasks (<[s_task s := set_t_pid 0 k]> (Coop.s_tasks (coop w))) (coop w)).
  assert (Hc1 : CoopInv.inv CoopInv.BIG c1 []) by (apply (CoopInv.inv_upd_task _ _ _ _ k); auto; apply (pi_coop _ Hi)).
  assert (Ha1 : CoopApi.task_arg c1 (Coop.s_current c1)). { destruct (pi_cur _ Hi) as [?|?]; [by left|right]. apply lookup_insert_is_Some'. by right. }
  assert (HT : forall t k, t <> s_task s -> Coop.s_tasks (coop w) !! t = Some k -> Coop.s_tasks c1 !! t = Some k) by (intros t k' Ht Hk'; cbn; by rewrite lookup_insert_ne).
  wstep. apply (co_wp _ _ _ tt c1); [unfold Coop.upd_task, Coop.bind, Coop.get_task; by rewrite Hk|]. wstep. apply (co_wp _ _ _ (set_t_pid 0 k) c1); [unfold Coop.get_task; cbn; by rewrite lookup_insert_eq|].
  cbn [Coop.t_root set_t_pid]. destruct (Z.eqb_spec (Coop.t_root k) 0) as [Er|Er]; cbn [negb when]; [wstep; by apply (HQ c1)|].
  pose proof Hc1 as (r & q & l & Hat). destruct (proj2 (CoopInv.iv_store _ _ _ _ _ _ Hat) (s_task s) (set_t_pid 0 k)) as [[kc Hkc] _]; [cbn; by rewrite lookup_insert_eq|done|]. cbn [Coop.t_root set_t_pid] in Hkc.
  destruct (CoopStep.inv_upd_coro _ _ _ _ _ (Coop.set_c_status Coop.CANCELLED) Hc1 Hkc) as [E Hi2]. eapply co_wp; [exact E|]. by eapply HQ.
Qed.

(** What [quit] leaves. *)
Definition quits (pid : Z) (w : pworld) (r : Z) (w' : pworld) : Prop :=
  r = -1 /\ w' = w /\ (pid <> 0 -> pid ∉ pids (s_slots w)) \/ r = 0 /\ exists i s, s_slots w !! i = Some s /\ s_used s = true /\ (pid <> 0 -> s_pid s = pid) /\
    s_slots w' = alter retired i (alter (set_s_budget no_budget) i (s_slots w)).

Lemma quit_wp pid w : pinv w -> wp (pm_metal_process_quit pid) (fun r w' => pinv w' /\ quits pid w r w') w.
Proof.
  intros Hi. unfold pm_metal_process_quit. wstep.
  assert (H1 : (pid <> 0 -> pid ∉ pids (s_slots w)) -> pinv w /\ quits pid w (-1) w) by (intros Hn; split; [done|by left]).
  assert (K : forall p, (pid <> 0 -> p = pid) -> forall m, (forall i s, s_slots w !! i = Some s -> s_used s = true -> s_pid s = p -> wp (m (Some i)) (fun r w' => pinv w' /\ quits pid w r w') w) -> m None = ret (-1) ->
     wp (if p <? 1 then ret (-1) else o <- gets (fun w => slot_from 0 (s_slots w) p) ;; m o) (fun r w' => pinv w' /\ quits pid w r w') w).
  { intros p Hp m Hm Hm0. destruct (Z.ltb_spec p 1) as [Hlt|_].
    { wstep. apply H1. intros Hn Hin. rewrite <- (Hp Hn) in Hin. pose proof (pids_below _ _ _ _ (pi_slots _ Hi) Hin). lia. }
    wstep. wstep. destruct (slot_from 0 (s_slots w) p) as [i|] eqn:E; [|rewrite Hm0; wstep; apply H1; intros Hn; rewrite <- (Hp Hn); by eapply slot_from_none].
    destruct (slot_from_spec _ _ _ _ E) as (s & Hs & Us & Ep & _). rewrite Nat.sub_0_r in Hs. by eapply Hm. }
  assert (D : forall p i s, (pid <> 0 -> p = pid) -> s_slots w !! i = Some s -> s_used s = true -> s_pid s = p ->
     wp (slot_budget_drop i ;; o <- gets (fun w => s_slots w !! i) ;;
      match o with
      | None => ret (-1)
      | Some s =>
          when (negb (s_task s =? 0)) (co (Coop.upd_task (s_task s) (set_t_pid 0)) ;; k <- co (Coop.get_task (s_task s)) ;;
             when (negb (Coop.t_root k =? 0)) (co (Coop.upd_coro (Coop.t_root k) (Coop.set_c_status Coop.CANCELLED)))) ;;
          upd_slot i retired ;; ret 0
      end) (fun r w' => pinv w' /\ quits pid w r w') w).
  { intros p i s Hpp Hs Us Ep. wstep. apply (slot_drop_wp _ i s _ []); [apply (pi_mem _ Hi)|apply (pi_up _ Hi)|done|]. intros w1 Hm1 R1 _ S1.
    assert (Hi1 : pinv w1) by (apply (pinv_mem w); [done|done|done|]; rewrite S1; by apply (alike_alter i no_budget _ s)).
    assert (Hs1 : s_slots w1 !! i = Some (set_s_budget no_budget s)) by (rewrite S1; by apply put_lookup).
    wstep. wstep. rewrite Hs1. wstep. pose proof (Forall_lookup_1 _ _ _ _ (pi_slots _ Hi1) Hs1) as Hok. apply cancel_wp; [done|done|done|]. intros c Hc Hcur HT. unfold upd_slot. wstep. wstep. wstep.
    split; [by apply (retire_pinv i (set_s_budget no_budget s) c w1)|]. right. split; [done|]. exists i, s. do 2 (split; [done|]). split; [intros; rewrite Ep; by apply Hpp|]. cbn [s_slots set_slots set_coop]. by rewrite S1. }
  wstep.
  - apply current_wp; [done|]. intros p. assert (Hp : pid <> 0 -> p = pid) by (intros Hn; by apply Z.eqb_eq in Heqb). apply K; [done|intros i s ???; by apply (D p i s)|done].
  - wstep. apply K; [done|intros i s ???; by apply (D pid i s)|done].
Qed.

End host.
End ProcessSpec.
