(* ===== verification/ProcessTable.v ===== *)
(** * The process card as a table of pids

    The card's calls in any order, with coop running in between, against a map
    from pids to budgets; what [deinit] gives back; and a task that coop frees
    while a slot still points to it. *)
From S2P Require Import Prelude Ring CoopState CoopRun CoopRefs CoopMutex CoopInv CoopStep CoopSpec CoopApi Process ProcessSpec.

Module ProcessTable.
Import Store Process ProcessSpec.
Local Open Scope metal_scope.

(** ** The table *)

Definition tab (l : list slot) : gmap Z Z := foldr (fun s m => if s_used s then <[s_pid s := b_cap (s_budget s)]> m else m) ∅ l.
Definition table (w : pworld) : gmap Z Z := tab (s_slots w).

Lemma pids_cons s l : pids (s :: l) = if s_used s then s_pid s :: pids l else pids l.
Proof. unfold pids. cbn. by destruct (s_used s). Qed.

Lemma tab_cons s l : tab (s :: l) = if s_used s then <[s_pid s := b_cap (s_budget s)]> (tab l) else tab l.
Proof. done. Qed.

Lemma pids_elem l p : p ∈ pids l <-> exists i s, l !! i = Some s /\ s_used s = true /\ s_pid s = p.
Proof.
  unfold pids. rewrite list_elem_of_fmap. split.
  - intros (s & -> & Hs). apply list_elem_of_In, filter_In in Hs as [Hs Hu]. apply list_elem_of_In, list_elem_of_lookup_1 in Hs as [i Hi]. by exists i, s.
  - intros (i & s & Hi & Hu & <-). exists s. split; [done|]. apply list_elem_of_In, filter_In. split; [|done]. apply list_elem_of_In. by eapply list_elem_of_lookup_2.
Qed.

Lemma tab_none l p : tab l !! p = None <-> p ∉ pids l.
Proof.
  induction l as [|s l IH]; [cbn; set_solver|]. rewrite pids_cons. cbn [tab foldr]. fold (tab l). destruct (s_used s); [|done].
  rewrite lookup_insert_None, not_elem_of_cons, IH. naive_solver.
Qed.

Lemma tab_some l p : is_Some (tab l !! p) <-> p ∈ pids l.
Proof. rewrite <- not_eq_None_Some, tab_none. destruct (decide (p ∈ pids l)); naive_solver. Qed.

Lemma tab_lookup l i s : NoDup (pids l) -> l !! i = Some s -> s_used s = true -> tab l !! s_pid s = Some (b_cap (s_budget s)).
Proof.
  revert i. induction l as [|x l IH]; intros i Hn Hi Hu; [done|]. rewrite pids_cons in Hn. cbn [tab foldr]. fold (tab l). destruct i as [|i].
  - injection Hi as ->. rewrite Hu. apply lookup_insert_eq.
  - destruct (s_used x); [|by eapply IH]. apply NoDup_cons in Hn as [Hx Hn]. rewrite lookup_insert_ne; [by eapply IH|]. intros E. apply Hx. rewrite E. apply pids_elem. by exists i, s.
Qed.

Lemma tab_app l s : s_used s = true -> s_pid s ∉ pids l -> tab (l ++ [s]) = <[s_pid s := b_cap (s_budget s)]> (tab l).
Proof.
  intros Hu. induction l as [|x l IH]; [intros _; cbn; by rewrite Hu|]. rewrite pids_cons. cbn [tab foldr app]. fold (tab l) (tab (l ++ [s])). destruct (s_used x); [|by apply IH].
  intros [Hx Hl]%not_elem_of_cons. rewrite IH by done. by apply insert_insert_ne.
Qed.

Lemma tab_alter l i s b : NoDup (pids l) -> l !! i = Some s -> s_used s = true -> tab (alter (set_s_budget b) i l) = <[s_pid s := b_cap b]> (tab l).
Proof.
  revert i. induction l as [|x l IH]; intros i Hn Hi Hu; [done|]. rewrite pids_cons in Hn. destruct i as [|i].
  - injection Hi as ->. cbn. rewrite Hu. fold (tab l). by rewrite insert_insert_eq.
  - change (alter (set_s_budget b) (S i) (x :: l)) with (x :: alter (set_s_budget b) i l). rewrite !tab_cons. destruct (s_used x); [|by apply IH]. apply NoDup_cons in Hn as [Hx Hn]. rewrite (IH i) by done.
    apply insert_insert_ne. intros E. apply Hx. rewrite E. apply pids_elem. by exists i, s.
Qed.

Lemma tab_retire l i s : NoDup (pids l) -> l !! i = Some s -> s_used s = true -> tab (alter retired i l) = delete (s_pid s) (tab l).
Proof.
  revert i. induction l as [|x l IH]; intros i Hn Hi Hu; [done|]. rewrite pids_cons in Hn. destruct i as [|i].
  - injection Hi as ->. rewrite Hu in *. apply NoDup_cons in Hn as [Hx Hn]. cbn. rewrite Hu. fold (tab l). symmetry. apply delete_insert_id. by apply tab_none.
  - change (alter retired (S i) (x :: l)) with (x :: alter retired i l). rewrite !tab_cons. destruct (s_used x); [|by apply IH]. apply NoDup_cons in Hn as [Hx Hn]. rewrite (IH i) by done.
    symmetry. apply delete_insert_ne. intros E. apply Hx. rewrite <- E. apply pids_elem. by exists i, s.
Qed.

Lemma tab_size l : NoDup (pids l) -> Z.of_nat (size (tab l)) = zlen (List.filter s_used l).
Proof.
  induction l as [|s l IH]; [done|]. rewrite pids_cons. cbn [tab foldr List.filter]. fold (tab l). destruct (s_used s); [|done]. intros [Hs Hn]%NoDup_cons.
  rewrite map_size_insert_None by (by apply tab_none). specialize (IH Hn).
  cbn [length].
  apply Nat2Z.inj in IH. do 2 f_equal. exact IH.
Qed.

(** ** The calls and what the table says of them *)

Inductive call :=
| Crown | Spawn
| Quit (pid : Z)
| BudgetSet (pid cap : Z)
| Budget (pid : Z)
| Count
| At (i : Z).

(** A pid is left to give out. *)
Definition may (x : call) (w : pworld) : Prop :=
  match x with Crown | Spawn => s_next_pid w < INT32_MAX | _ => True end.

(** [pid] 0 is the caller's, or the REPL, which is not in the table. *)
Definition spec (x : call) (next : Z) (a : gmap Z Z) (r : Z) (a' : gmap Z Z) : Prop :=
  match x with
  | Crown | Spawn => r = -1 /\ a' = a \/ r = next /\ a !! next = None /\ a' = <[next := 0]> a
  | Quit p =>
      if p =? 0 then r = -1 /\ a' = a \/ r = 0 /\ exists q, is_Some (a !! q) /\ a' = delete q a
      else r = (if a !! p then 0 else -1) /\ a' = delete p a
  | BudgetSet p c =>
      if p =? 0 then a' = a
      else r = -1 /\ a' = a \/ is_Some (a !! p) /\ (r = 0 /\ a' = <[p := c]> a \/ r = -1 /\ a' = <[p := 0]> a)
  | Budget p => a' = a /\ (p <> 0 -> r = default (-1) (a !! p))
  | Count => a' = a /\ r = Z.of_nat (size a)
  | At i => a' = a /\ if (0 <=? i) && (i <? Z.of_nat (size a)) then is_Some (a !! r) else r = -1
  end.

Section host.
Variable alloc : pworld -> Z -> Z.
Variable arena_create : pworld -> Z -> Z -> Z.
Variable coop_alloc : Coop.world -> Z -> Z.

Definition invoke (x : call) : P Z :=
  match x with
  | Crown => pm_metal_process_crown alloc
  | Spawn => pm_metal_process_spawn alloc coop_alloc
  | Quit p => pm_metal_process_quit p
  | BudgetSet p c => pm_metal_process_budget_set alloc arena_create p c
  | Budget p => pm_metal_process_budget p
  | Count => pm_metal_process_count
  | At i => pm_metal_process_at i
  end.

(** Coop runs: what it leaves of the tasks behind the slots. *)
Definition turn (w : pworld) (c : Coop.world) : Prop :=
  CoopInv.inv CoopInv.BIG c [] /\ CoopApi.task_arg c (Coop.s_current c) /\
  forall s, s ∈ s_slots w -> s_used s = true -> exists k, Coop.s_tasks c !! s_task s = Some k /\ Coop.t_pid k = s_pid s.

Inductive reachable (w0 : pworld) : pworld -> Prop :=
| reach_start : reachable w0 w0
| reach_call w x r w' : reachable w0 w -> may x w -> invoke x w = Done r w' -> reachable w0 w'
| reach_turn w c : reachable w0 w -> turn w c -> reachable w0 (set_coop c w).

Hypothesis alloc_fresh : forall w n, alloc w n <> 0 -> alloc w n ∉ blocks w.
Hypothesis create_fresh : forall w b n, arena_create w b n <> 0 -> arena_create w b n ∉ subs w.
Hypothesis coop_fresh : forall w n, coop_alloc w n <> 0 ->
  Ring.is_pay (coop_alloc w n) /\ Coop.s_tasks w !! coop_alloc w n = None /\ Coop.s_coros w !! coop_alloc w n = None.

Definition refines (x : call) (w : pworld) (r : Z) (w' : pworld) : Prop := pinv w' /\ spec x (s_next_pid w) (table w) r (table w').

Lemma grows_refines x w r w' : x = Crown \/ x = Spawn -> pinv w -> grows w r w' -> spec x (s_next_pid w) (table w) r (table w').
Proof.
  intros Hx Hi Hg. assert (Hn : s_next_pid w ∉ pids (s_slots w)) by (intros Hin; pose proof (pids_below _ _ _ _ (pi_slots _ Hi) Hin); lia).
  assert (r = -1 /\ table w' = table w \/ r = s_next_pid w /\ table w !! s_next_pid w = None /\ table w' = <[s_next_pid w := 0]> (table w)); [|by destruct Hx as [->| ->]].
  unfold table. destruct Hg as [[-> ->]|(-> & a & t & ->)]; [by left|right]. split; [done|]. split; [by apply tab_none|]. by rewrite tab_app.
Qed.

Lemma quits_refines p w r w' : pinv w -> quits p w r w' -> spec (Quit p) (s_next_pid w) (table w) r (table w').
Proof.
  intros Hi. pose proof (pi_pids _ Hi) as Hp. unfold spec, table. intros [(-> & -> & Hn)|(-> & i & s & Hs & Us & Ep & ->)].
  - destruct (Z.eqb_spec p 0) as [|H0]; [by left|]. specialize (Hn H0). apply tab_none in Hn. rewrite Hn. split; [done|]. symmetry. by apply delete_insert_id || apply delete_id.
  - assert (E : tab (alter retired i (alter (set_s_budget no_budget) i (s_slots w))) = delete (s_pid s) (tab (s_slots w))).
    { rewrite (tab_retire _ i (set_s_budget no_budget s)); [|rewrite (alike_pids (s_slots w)); [done|by apply (alike_alter i no_budget _ s)]|by rewrite list_lookup_alter_eq, Hs|done].
      rewrite (tab_alter _ i s) by done. apply delete_insert_eq. }
    rewrite E. assert (Hin : is_Some (tab (s_slots w) !! s_pid s)) by (by rewrite (tab_lookup _ i s)). destruct (Z.eqb_spec p 0) as [|H0]; [right; split; [done|by exists (s_pid s)]|].
    rewrite <- (Ep H0). destruct Hin as [c ->]. done.
Qed.

Lemma budgeted_refines p c w r w' : pinv w -> budgeted p c w r w' -> spec (BudgetSet p c) (s_next_pid w) (table w) r (table w').
Proof.
  intros Hi Hb. pose proof (pi_pids _ Hi) as Hp. unfold spec, table. destruct Hb as [[-> Hr]|(i & s & b & Hs & Us & <- & -> & Hb)].
  - destruct (Z.eqb_spec p 0); [done|]. destruct Hr as [?|Hr]; [done|]. by left.
  - rewrite (tab_alter _ i s) by done. destruct (Z.eqb_spec (s_pid s) 0) as [E|H0].
    { pose proof (Forall_lookup_1 _ _ _ _ (pi_slots _ Hi) Hs) as Hok. unfold slot_ok in Hok. rewrite Us in Hok. lia. }
    right. split; [by rewrite (tab_lookup _ i s)|]. destruct Hb as [[-> ->]|[-> ->]]; [by left|by right].
Qed.

Lemma budget_refines p w : pinv w -> wp (pm_metal_process_budget p) (refines (Budget p) w) w.
Proof.
  intros Hi. unfold pm_metal_process_budget. destruct (Z.eqb_spec p 0) as [->|H0]; [wstep; split; [done|split; [done|done]]|]. wstep. apply find_slot_wp; [done|intros Hn|intros i s Hs Us Ep].
  - wstep. split; [done|]. split; [done|]. intros _. specialize (Hn H0). apply tab_none in Hn. unfold table. by rewrite Hn.
  - wstep. unfold get_budget. wstep. wstep. split; [done|]. split; [done|]. intros _. rewrite Hs, <- (Ep H0). unfold table. by rewrite (tab_lookup _ i s); [| apply (pi_pids _ Hi)|..].
Qed.

Lemma at_refines i w : pinv w -> wp (pm_metal_process_at i) (refines (At i) w) w.
Proof.
  intros Hi. apply wp_gets. split; [done|]. split; [done|]. unfold table. rewrite (tab_size _ (pi_pids _ Hi)). destruct (Z.ltb_spec i 0), (Z.leb_spec 0 i); try lia; cbn [andb]; [done|]. destruct (Z.ltb_spec i (zlen (List.filter s_used (s_slots w)))) as [Hl|Hl].
  - destruct (lookup_lt_is_Some_2 (List.filter s_used (s_slots w)) (Z.to_nat i)) as [s Hs]; [apply Nat2Z.inj_lt; rewrite Z2Nat.id by done; exact Hl|]. rewrite Hs. cbn. apply tab_some. unfold pids. apply list_elem_of_fmap. exists s. split; [done|by eapply list_elem_of_lookup_2].
  - rewrite lookup_ge_None_2; [done|]. apply Nat2Z.inj_le; rewrite Z2Nat.id by done; exact Hl.
Qed.

Lemma call_refines x w : pinv w -> may x w -> wp (invoke x) (refines x w) w.
Proof.
  intros Hi Hm. destruct x; cbn [invoke may] in *.
  - eapply wp_mono; [by apply crown_wp|]. intros r w' [Hp Hg]. split; [done|]. apply (grows_refines Crown); auto.
  - eapply wp_mono; [by apply spawn_wp|]. intros r w' [Hp Hg]. split; [done|]. apply (grows_refines Spawn); auto.
  - eapply wp_mono; [by apply quit_wp|]. intros r w' [Hp Hq]. split; [done|]. by apply quits_refines.
  - eapply wp_mono; [by apply budget_set_wp|]. intros r w' (Hp & Hb & _). split; [done|]. by apply budgeted_refines.
  - by apply budget_refines.
  - apply wp_gets. split; [done|]. split; [done|]. symmetry. apply tab_size, (pi_pids _ Hi).
  - by apply at_refines.
Qed.

Lemma turn_pinv w c : pinv w -> turn w c -> pinv (set_coop c w).
Proof.
  intros [Hu [] Hn Hc Hcur Hsl Hp] (Hi & Ha & Ht). constructor; try done. cbn [s_slots set_coop coop s_next_pid]. apply Forall_forall. intros s Hs. rewrite Forall_forall in Hsl. specialize (Hsl s Hs). unfold slot_ok in *.
  destruct (s_used s) eqn:Us; [|done]. split; [apply Hsl|by apply Ht].
Qed.

Lemma reachable_pinv w0 w : pinv w0 -> reachable w0 w -> pinv w.
Proof.
  intros H0. induction 1 as [|w1 y r w2 _ IH Hy E|w1 c _ IH Ht]; [done| |by apply turn_pinv]. by apply (wp_done _ _ _ _ _ E (call_refines y w1 IH Hy)).
Qed.

(** C7: the card is a table of pids.  In whatever order its calls are made and
    coop runs in between, as long as coop keeps the tasks behind the slots, the
    next call runs to its end without a fault and answers what a map from the
    pids given out to their budgets says: [crown] and [spawn] add a pid that was
    not there, [quit] takes it out, [budget_set] changes its budget or fails. *)
Theorem process_refines (w0 w : pworld) (x : call) (H0 : pinv w0) (Hr : reachable w0 w) (Hm : may x w) :
  exists r w', invoke x w = Done r w' /\ spec x (s_next_pid w) (table w) r (table w').
Proof.
  pose proof (reachable_pinv w0 w H0 Hr) as Hi.
  destruct (wp_run _ _ _ (call_refines x w Hi Hm)) as (r & w' & E & _ & Hs). by exists r, w'.
Qed.
End host.

(** ** The end *)

(** Giving back a whole budget. *)
Lemma drop_all_wp {A} b (k : budget -> P A) w E F (Q : A -> pworld -> Prop) : budget_ok b -> s_arena w = true ->
  lists (nz (b_backing b) ++ E) (blocks w) -> lists (nz (b_arena b) ++ F) (subs w) ->
  (forall b' w', lists E (blocks w') -> lists F (subs w') -> s_arena w' = true -> s_repl w' = s_repl w -> s_slots w' = s_slots w -> b_arena b' = 0 /\ b_backing b' = 0 -> wp (k b') Q w') ->
  wp (b <- drop_arena b ;; b <- drop_backing b ;; k b) Q w.
Proof.
  unfold nz. intros [->|(Hb & Ha & _)] Hu HE HF HQ.
  - wstep. unfold drop_arena. cbn [no_budget b_arena Z.eqb negb when]. wstep. wstep. wstep. wstep. unfold drop_backing. wstep. wstep. cbn [b_backing no_budget Z.eqb negb andb]. wstep. by apply HQ.
  - rewrite (proj2 (Z.eqb_neq (b_backing b) 0)) in HE by done. rewrite (proj2 (Z.eqb_neq (b_arena b) 0)) in HF by done. wstep. unfold drop_arena. rewrite (proj2 (Z.eqb_neq _ 0)) by done. cbn [negb when].
    wstep. eapply destroy_wp; [exact HF|]. intros HF'. wstep. wstep. unfold drop_backing. wstep. wstep. cbn [s_arena set_subs b_backing]. rewrite Hu, (proj2 (Z.eqb_neq _ 0)) by done. cbn [negb andb].
    wstep. eapply free_wp; [exact HE|]. intros HE'. wstep. by apply HQ.
Qed.

Lemma deinit_loop_wp l i E F w (Q : unit -> pworld -> Prop) : Forall (fun s => budget_ok (s_budget s)) l -> s_arena w = true ->
  lists (E ++ concat (slot_blocks <$> l)) (blocks w) -> lists (F ++ concat (slot_subs <$> l)) (subs w) ->
  (forall w', lists (E ++ (s_addr <$> l)) (blocks w') -> lists F (subs w') -> s_arena w' = true -> s_repl w' = s_repl w -> Q tt w') -> wp (deinit_loop i l) Q w.
Proof.
  revert i E w. induction l as [|s l IH]; intros i E w Hl Hu HE HF HQ; cbn [deinit_loop].
  - wstep. cbn in HE, HF. apply HQ; [done| |done|done]. by rewrite app_nil_r in HF.
  - apply Forall_cons in Hl as [Hs Hl]. cbn in HE, HF. apply (drop_all_wp _ _ _ (E ++ s_addr s :: concat (slot_blocks <$> l)) (F ++ concat (slot_subs <$> l))); [done|done| | |].
    + eapply lists_perm; [exact HE|]. unfold slot_blocks. cbn. solve_Permutation.
    + eapply lists_perm; [exact HF|]. unfold slot_subs. solve_Permutation.
    + intros b' w' HE' HF' Hu' Er _ _. unfold upd_slot. wstep. wstep. apply (IH (S i) (E ++ [s_addr s])); [done|done| |done|].
      * cbn [blocks set_slots]. by rewrite <- (assoc_L (++)).
      * cbn [s_repl set_slots]. intros w2 H1 H2 H3 H4. apply HQ; [|done|done|congruence]. by rewrite <- (assoc_L (++)) in H1.
Qed.

(** C24: the end of the card gives back every sub-arena and every budget's
    block, each once, and nothing that is not its own; the blocks of the slots
    themselves are left, one for each pid ever given out. *)
Theorem deinit_gives_back (w : pworld) (Hi : pinv w) :
  exists w', pm_metal_process_deinit w = Done tt w' /\ subs w' = ∅ /\ blocks w' = list_to_set (s_addr <$> s_slots w) /\
    s_slots w' = [] /\ b_arena (s_repl w') = 0 /\ b_backing (s_repl w') = 0 /\ b_cap (s_repl w') = 0.
Proof.
  destruct Hi as [Hu [Hb Hs Hr Hl] _ _ _ _ _].
  enough (W : wp pm_metal_process_deinit (fun _ w' => subs w' = ∅ /\ blocks w' = list_to_set (s_addr <$> s_slots w) /\
    s_slots w' = [] /\ b_arena (s_repl w') = 0 /\ b_backing (s_repl w') = 0 /\ b_cap (s_repl w') = 0) w).
  { destruct (wp_run _ _ _ W) as ([] & w' & E & H). by exists w'. }
  unfold pm_metal_process_deinit. wstep. wstep. wstep. apply (deinit_loop_wp _ _ (nz (b_backing (s_repl w))) (nz (b_arena (s_repl w)))); [done|done|done|done|].
  intros w1 Hb1 Hs1 Hu1 Er. wstep. wstep. wstep. wstep. cbn [s_repl set_next_pid set_slots]. rewrite Er.
  apply (drop_all_wp _ _ _ (s_addr <$> s_slots w) []); [done|done|done|by rewrite app_nil_r|].
  intros b' w' [_ Hb'] [_ Hs'] _ _ El [Ea Eb]. wstep. split; [exact Hs'|]. split; [exact Hb'|]. split; [exact El|]. by split.
Qed.

(** ** On a small machine *)

(** The lowest addresses not in use. *)
Fixpoint first_free (used : Z -> bool) (l : list Z) : Z :=
  match l with [] => 0 | a :: t => if used a then first_free used t else a end.
Definition room : list Z := [65536; 69632; 73728; 77824].
Definition small_alloc (w : pworld) (_ : Z) : Z := first_free (fun a => bool_decide (a ∈ blocks w)) room.
Definition small_create (w : pworld) (b _ : Z) : Z := if bool_decide (b ∈ subs w) then 0 else b.
Definition small_coop (c : Coop.world) (_ : Z) : Z :=
  first_free (fun a => negb (bool_decide (Coop.s_tasks c !! a = None /\ Coop.s_coros c !! a = None))) room.

Lemma first_free_ok used l : first_free used l <> 0 -> used (first_free used l) = false /\ first_free used l ∈ l.
Proof. induction l as [|a l IH]; cbn; [done|]. destruct (used a) eqn:E; [|set_solver]. intros H. destruct (IH H). set_solver. Qed.

Lemma small_alloc_fresh w n : small_alloc w n <> 0 -> small_alloc w n ∉ blocks w.
Proof. intros H. apply first_free_ok in H as [H _]. by apply bool_decide_eq_false in H. Qed.

Lemma small_create_fresh w b n : small_create w b n <> 0 -> small_create w b n ∉ subs w.
Proof. unfold small_create. by case_bool_decide. Qed.

Lemma small_coop_fresh c n : small_coop c n <> 0 -> Ring.is_pay (small_coop c n) /\ Coop.s_tasks c !! small_coop c n = None /\ Coop.s_coros c !! small_coop c n = None.
Proof.
  intros H. apply first_free_ok in H as [H Hin]. apply negb_false_iff, bool_decide_eq_true in H. split; [|done]. unfold Ring.is_pay. apply (proj1 (Forall_forall (fun a => 0 <= a < 281474976710656) room)); [|exact Hin]. repeat (constructor; [lia|]). constructor.
Qed.

(** The card after boot, with no pid given out. *)
Definition booted : pworld := PWorld true [] 1 no_budget ∅ ∅ CoopSpec.fresh_world.

Lemma booted_pinv : pinv booted.
Proof.
  constructor; try done.
  - constructor; try done; [split; [constructor|done]|split; [constructor|done]|by left].
  - apply (CoopInv.inv_weaken 100); [|unfold CoopInv.BIG; lia]. exists Ring.demo_ring, [], []. exact CoopSpec.fresh_inv.
  - by left.
  - constructor.
Qed.

Definition out {A} (d : A) (r : outcome pworld A) : A * pworld := match r with Done a w => (a, w) | _ => (d, booted) end.
Definition run (x : call) (w : pworld) : pworld := (out 0 (invoke small_alloc small_create small_coop x w)).2.

(** A pid spawned, given a budget, then quit. *)
Definition spawned : pworld := run Spawn booted.
Definition capped : pworld := run (BudgetSet 1 4096) spawned.

Lemma capped_reachable : reachable small_alloc small_create small_coop booted capped.
Proof.
  apply (reach_call _ _ _ _ spawned (BudgetSet 1 4096) 0); [|exact I|vm_compute; reflexivity].
  apply (reach_call _ _ _ _ booted Spawn 1); [apply reach_start|reflexivity|vm_compute; reflexivity].
Qed.

Lemma process_refines_witness :
  exists r w', invoke small_alloc small_create small_coop (Quit 1) capped = Done r w' /\ spec (Quit 1) (s_next_pid capped) (table capped) r (table w').
Proof.
  exact (process_refines small_alloc small_create small_coop small_alloc_fresh small_create_fresh small_coop_fresh booted capped (Quit 1) booted_pinv capped_reachable I).
Defined.

(** A second pid, spawned, with a budget for the REPL as well: two slots, two
    budgets with their blocks and sub-arenas. *)
Definition full : pworld := run (BudgetSet 0 2048) (run Spawn capped).
Lemma full_pinv : pinv full.
Proof.
  apply (reachable_pinv small_alloc small_create small_coop small_alloc_fresh small_create_fresh small_coop_fresh booted full booted_pinv).
  apply (reach_call _ _ _ _ (run Spawn capped) (BudgetSet 0 2048) 0); [|exact I|vm_compute; reflexivity].
  apply (reach_call _ _ _ _ capped Spawn 2); [apply capped_reachable|reflexivity|vm_compute; reflexivity].
Qed.

(** The end gives back both sub-arenas and both blocks, and leaves the slots'. *)
Lemma deinit_gives_back_witness :
  (blocks full = {[65536; 69632; 73728; 77824]} /\ subs full = {[69632; 77824]} /\ b_cap (s_repl full) = 2048) /\
  exists w', pm_metal_process_deinit full = Done tt w' /\ subs w' = ∅ /\ blocks w' = {[65536; 73728]} /\
    s_slots w' = [] /\ b_arena (s_repl w') = 0 /\ b_backing (s_repl w') = 0 /\ b_cap (s_repl w') = 0.
Proof.
  split; [vm_compute; auto|]. destruct (deinit_gives_back full full_pinv) as (w' & E & Hs & Hb & H). exists w'. split; [exact E|]. split; [exact Hs|]. split; [rewrite Hb; vm_compute; reflexivity|exact H].
Defined.

(** The budget is in the table and its block and sub-arena are held. *)
Example capped_table : table capped = {[1 := 4096]} /\ blocks capped = {[65536; 69632]} /\ subs capped = {[69632]}.
Proof. vm_compute. auto. Qed.

Definition idle (_ c : Z) : Coop.M Coop.status := idle_step c.
Definition boot_proof : P Z := pm_metal_process_up small_alloc small_coop (fun _ => 0) (Coop.ret tt) idle 20.

(** The card's own proof at boot answers 0, and leaves behind its slot's
    block, a task and a coroutine: nobody gives back what [spawn] made. *)
Example up_leaves : let w := (out 0 (boot_proof booted)).2 in
  boot_proof booted = Done 0 w /\ table w = ∅ /\ blocks w = {[65536]} /\ size (Coop.s_tasks (coop w)) = 1%nat /\ size (Coop.s_coros (coop w)) = 2%nat.
Proof. vm_compute. auto. Qed.

(** A slot keeps no reference to its task: when the task's owner has retired
    it and coop freed it, [quit] writes into the block that was its. *)
Example quit_after_retire :
  (pid <- pm_metal_process_spawn small_alloc small_coop ;;
   co (CoopRun.pm_metal_coop_poll (fun _ => 0) (Coop.ret tt) idle 20) ;;
   t <- gets (fun w => default 0 (s_task <$> head (s_slots w))) ;;
   co (Coop.pm_metal_coop_task_retire t) ;;
   pm_metal_process_quit pid) booted = Fault.
Proof. vm_compute. reflexivity. Qed.

(** With every positive pid given out, the next [s_next_pid++] is undefined. *)
Example pids_run_out : invoke small_alloc small_create small_coop Spawn (set_next_pid INT32_MAX booted) = Fault.
Proof. vm_compute. reflexivity. Qed.
End ProcessTable.
