(* ===== verification/Http.v ===== *)
(** * The http card: one request over a stream

    src/.../metal/net/http/__impl__.c.  [step_fetch] is the coroutine of one
    request, a computation over its frame [fetch] and the world it talks to;
    [http_do] runs it.  The TCP and TLS streams, the resolver, coop and the
    arena are the operations of [HttpOps].  C strings are the bytes before the
    NUL; a scan whose result C does not define is a [Fault]. *)
From stdpp Require Import strings.
From S2P Require Import Prelude CoopState.

(** What the card calls.  A stream's [send] and [recv] return a count, 0 for
    "wait", a negative number for an error or (-2, receiving) the end;
    [park e] is the world when the socket has posted the waiting task again,
    [None] when [run_until] gives up; the arena answers whether it has room. *)
Class HttpOps (E : Type) := {
  tcp_socket : E -> E * Z;
  tcp_connect : Z -> Z -> Z -> E -> E * Z;
  tcp_send : Z -> list Z -> E -> E * Z;
  tcp_recv : Z -> Z -> E -> E * (Z * list Z);
  tcp_close : Z -> E -> E;
  tls_ready : E -> bool;
  tls_client : Z -> list Z -> E -> E * Z;
  tls_handshake : Z -> E -> E * Z;
  tls_send : Z -> list Z -> E -> E * Z;
  tls_recv : Z -> Z -> E -> E * (Z * list Z);
  tls_close : Z -> E -> E;
  dns_resolve : list Z -> E -> E * option Z;
  new_coro : E -> E * bool;
  new_task : E -> E * bool;
  park : E -> option E;
  http_alloc : Z -> E -> E * bool;
  http_realloc : Z -> E -> E * bool;
  http_free : E -> E;
  auth_bearer : E -> option (list Z);
  cdn_session_id : E -> option (list Z);
}.

Module Http.
Import Store Decimal.
Local Open Scope metal_scope.
#[local] Existing Instance Coop.status_eq_dec.

Definition bytes_of (s : string) : list Z := (fun a => Z.of_nat (Ascii.nat_of_ascii a)) <$> String.list_ascii_of_string s.
Definition CRLF : list Z := [13; 10].

(** ** URIs *)

Fixpoint prefix (p s : list Z) : bool :=
  match p, s with
  | [], _ => true
  | a :: p', b :: s' => (a =? b) && prefix p' s'
  | _, [] => false
  end.

(** [strchr], as the bytes before the character and from it on. *)
Fixpoint until (c : Z) (s : list Z) : list Z * option (list Z) :=
  match s with
  | [] => ([], None)
  | x :: t => if x =? c then ([], Some s) else let '(a, r) := until c t in (x :: a, r)
  end.
Fixpoint strstr (s n : list Z) : option (list Z) :=
  if prefix n s then Some s else match s with [] => None | _ :: t => strstr t n end.

(** [sscanf(s, "%u", &v) == 1]: [Some (Some v)]; [Some None] does not match,
    [None] is a number that an unsigned does not hold. *)
Definition scan_u (s : list Z) : option (option Z) :=
  let s := skip_space s in
  let '(neg, s) := match s with c :: t => if c =? 45 then (true, t) else if c =? 43 then (false, t) else (false, s) | [] => (false, s) end in
  match s with
  | c :: _ => if is_digit c
              then let v := digits 0 s in
                   if U32_MAX <? v then None else Some (Some (if neg : bool then u32 (- v) else v))
              else Some None
  | [] => Some None
  end.

Record uri := Uri { u_host : list Z; u_port : Z; u_path : list Z; u_tls : bool }.

Definition HOST_CAP := 80.
Definition PATH_CAP := 160.
Definition HTTPS := bytes_of "https://".
Definition HTTP := bytes_of "http://".

(** Outside [None] a scan is undefined; inside it is the return of -1. *)
Definition parse_http_uri (s : list Z) (host_cap path_cap : Z) : option (option uri) :=
  match (if prefix HTTPS s then Some (drop 8 s, 443, true) else if prefix HTTP s then Some (drop 7 s, 80, false) else None) with
  | None => Some None
  | Some (p, port, use_tls) =>
      let '(before, slash) := until 47 p in
      let '(name, colon) := until 58 before in
      match (match colon with Some c => scan_u (tail c ++ default [] slash) | None => Some (Some port) end) with
      | None => None
      | Some None => Some None
      | Some (Some pr) =>
          if (pr =? 0) || (65535 <? pr) then Some None else
          if (zlen name =? 0) || (host_cap <=? zlen name) then Some None else
          match slash with
          | Some sl => if path_cap <=? zlen sl then Some None else Some (Some (Uri name pr sl use_tls))
          | None => if path_cap <? 2 then Some None else Some (Some (Uri name pr [47] use_tls))
          end
      end
  end.

(** ** The frame of a request *)

Record fetch := Fetch {
  step : Z; fd : Z; addr : Z; target : uri; method : list Z; req_body : list Z; ctype : option (list Z);
  acc : list Z; acc_cap : Z; out : option (list Z); err : Z; snd_off : Z; tls : Z }.

Definition set_step v x := Fetch v (fd x) (addr x) (target x) (method x) (req_body x) (ctype x) (acc x) (acc_cap x) (out x) (err x) (snd_off x) (tls x).
Definition set_fd v x := Fetch (step x) v (addr x) (target x) (method x) (req_body x) (ctype x) (acc x) (acc_cap x) (out x) (err x) (snd_off x) (tls x).
Definition set_acc v c x := Fetch (step x) (fd x) (addr x) (target x) (method x) (req_body x) (ctype x) v c (out x) (err x) (snd_off x) (tls x).
Definition set_out v x := Fetch (step x) (fd x) (addr x) (target x) (method x) (req_body x) (ctype x) (acc x) (acc_cap x) v (err x) (snd_off x) (tls x).
Definition set_err v x := Fetch (step x) (fd x) (addr x) (target x) (method x) (req_body x) (ctype x) (acc x) (acc_cap x) (out x) v (snd_off x) (tls x).
Definition set_snd_off v x := Fetch (step x) (fd x) (addr x) (target x) (method x) (req_body x) (ctype x) (acc x) (acc_cap x) (out x) (err x) v (tls x).
Definition set_tls v x := Fetch (step x) (fd x) (addr x) (target x) (method x) (req_body x) (ctype x) (acc x) (acc_cap x) (out x) (err x) (snd_off x) v.

Section WithWorld.
Context {E : Type} `{!HttpOps E}.

Record hw := HW { env : E; f : fetch }.
Definition P := M hw.
Definition on_env {A} (op : E -> E * A) : P A := fun w => let '(e, a) := op (env w) in Done a (HW e (f w)).
Definition on_env_ (op : E -> E) : P unit := modify (fun w => HW (op (env w)) (f w)).
Definition get {A} (g : fetch -> A) : P A := gets (fun w => g (f w)).
Definition upd (g : fetch -> fetch) : P unit := modify (fun w => HW (env w) (g (f w))).
Definition when (b : bool) (m : P unit) : P unit := if b then m else ret tt.

(** The stream is the TLS session when there is one. *)
Definition http_send (buf : list Z) : P Z :=
  t <- get tls ;; d <- get fd ;; if negb (t =? 0) then on_env (tls_send t buf) else on_env (tcp_send d buf).
Definition http_recv (len : Z) : P (Z * list Z) :=
  t <- get tls ;; d <- get fd ;; if negb (t =? 0) then on_env (tls_recv t len) else on_env (tcp_recv d len).
Definition http_close_fd : P unit :=
  t <- get tls ;; when (negb (t =? 0)) (on_env_ (tls_close t) ;; upd (set_tls 0)) ;;
  d <- get fd ;; when (0 <=? d) (on_env_ (tcp_close d) ;; upd (set_fd (-1))).
Definition fetch_fail : P Coop.status := upd (set_err 1) ;; http_close_fd ;; ret Coop.ERROR.

(** ** The reply *)

(** [cap *= 2u] until [need] fits. *)
Fixpoint grow_cap (fuel : nat) (cap need : Z) : option Z :=
  if cap <? need then match fuel with O => None | S k => grow_cap k (u32 (cap * 2)) need end else Some cap.

Definition acc_put (p : list Z) : P Z :=
  if zlen p =? 0 then ret 0 else
  a <- get acc ;; c <- get acc_cap ;;
  let need := u32 (zlen a + zlen p) in
  o <- (if c <? need then
          match grow_cap 32 (if c =? 0 then 256 else c) need with
          | None => nofuel
          | Some cap => ok <- on_env (http_realloc cap) ;;
                        if negb ok then ret None else upd (set_acc a cap) ;; ret (Some cap)
          end
        else ret (Some c)) ;;
  match o with
  | None => ret (-1)
  | Some c => if c <? zlen a + zlen p then fault else upd (set_acc (a ++ p) c) ;; ret 0
  end.

(** The offset behind the first empty line. *)
Fixpoint find_hdr_end (i : Z) (p : list Z) : option Z :=
  if prefix (CRLF ++ CRLF) p then Some (i + 4) else match p with [] => None | _ :: t => find_hdr_end (i + 1) t end.

(** The first 255 bytes of the header, as a C string. *)
Definition CLEN := bytes_of "Content-Length:".
Definition clen_lower := bytes_of "content-length:".
Definition parse_clen (hdr : list Z) : option (option Z) :=
  let tmp := cstr (take 255 hdr) in
  match (match strstr tmp CLEN with Some k => Some k | None => strstr tmp clen_lower end) with
  | None => Some None
  | Some k => scan_u (drop 15 k)
  end.

Definition finish_body : P Z :=
  a <- get acc ;;
  match find_hdr_end 0 a with
  | None => ret (-1)
  | Some e =>
      if (zlen a <? 12) || negb (prefix (bytes_of "HTTP/") a) then ret (-1) else
      c <- chk (rd a 9) ;;
      if negb (c =? 50) then ret (-1) else
      l <- chk (parse_clen (take (Z.to_nat e) a)) ;;
      let have := zlen a - e in
      if match l with Some n => have <? n | None => false end then ret 1 else
      let have := default have l in
      ok <- on_env (http_alloc (if have =? 0 then 1 else have)) ;;
      if negb ok then ret (-1) else
      b <- chk (slice a e have) ;;
      upd (set_out (Some b)) ;; ret 0
  end.

(** ** The steps: [Some st] is a return *)

Definition or_else {A} (m : P (option A)) (k : P A) : P A := o <- m ;; match o with Some a => ret a | None => k end.
Definition fail_now : P (option Coop.status) := st <- fetch_fail ;; ret (Some st).

Definition step_connect : P (option Coop.status) :=
  s <- get step ;;
  if negb (s =? 0) then ret None else
  d <- on_env tcp_socket ;; upd (set_fd d) ;;
  if d <? 0 then fail_now else
  a <- get addr ;; u <- get target ;;
  st <- on_env (tcp_connect d a (u_port u)) ;;
  if st =? 0 then upd (set_step 1) ;; ret (Some Coop.WAITING) else
  if st <? 0 then fail_now else upd (set_step 1) ;; ret None.

Definition step_tls : P (option Coop.status) :=
  s <- get step ;; u <- get target ;;
  if negb (s =? 1) then ret None else
  if negb (u_tls u) then upd (set_step 2) ;; ret None else
  t <- get tls ;; d <- get fd ;;
  t <- (if t =? 0 then t <- on_env (tls_client d (u_host u)) ;; upd (set_tls t) ;; ret t else ret t) ;;
  if t =? 0 then fail_now else
  st <- on_env (tls_handshake t) ;;
  if st =? 1 then ret (Some Coop.WAITING) else
  if st <? 0 then fail_now else upd (set_step 2) ;; ret None.

Definition REQ_CAP := 1792.
Definition add_piece (r : option (list Z)) (p : list Z) : option (list Z) :=
  match r with Some q => if REQ_CAP <=? zlen q + zlen p then None else Some (q ++ p) | None => None end.
(** A string that is not NULL and not empty. *)
Definition some_text (s : option (list Z)) : option (list Z) := match s with Some (c :: t) => Some (c :: t) | _ => None end.

(** The header of the request in its buffer; [None] when it does not fit. *)
Definition request (x : fetch) (tok sid : option (list Z)) : option (list Z) :=
  let r := add_piece (Some []) (method x ++ [32] ++ u_path (target x) ++ bytes_of " HTTP/1.0" ++ CRLF ++ bytes_of "Host: " ++ u_host (target x) ++ CRLF ++ bytes_of "Connection: close" ++ CRLF) in
  let r := match some_text tok with Some t => add_piece r (bytes_of "Authorization: Bearer " ++ t ++ CRLF) | None => r end in
  let r := match some_text sid with Some t => add_piece r (bytes_of "X-Shell-Session-Id: " ++ t ++ CRLF) | None => r end in
  let r := if zlen (req_body x) =? 0 then r else add_piece r (bytes_of "Content-Length: " ++ dec 10 (zlen (req_body x)) ++ CRLF) in
  let r := match some_text (ctype x) with Some t => add_piece r (bytes_of "Content-Type: " ++ t ++ CRLF) | None => r end in
  add_piece r CRLF.

(** Sending [data], whose first byte is byte [base] of what is sent. *)
Fixpoint send_loop (fuel : nat) (data : list Z) (base : Z) : P (option Coop.status) :=
  o <- get snd_off ;;
  let off := u32 (o - base) in
  if off <? zlen data then
    match fuel with
    | O => nofuel
    | S n =>
        k <- http_send (drop (Z.to_nat off) data) ;;
        if k =? 0 then ret (Some Coop.WAITING) else
        if k <? 0 then fail_now else
        upd (set_snd_off (u32 (o + k))) ;; send_loop n data base
    end
  else ret None.

Definition step_request : P (option Coop.status) :=
  s <- get step ;;
  if negb (s =? 2) then ret None else
  tok <- gets (fun w => auth_bearer (env w)) ;; sid <- gets (fun w => cdn_session_id (env w)) ;;
  x <- get id ;;
  match request x tok sid with
  | None => fail_now
  | Some req =>
      o <- send_loop (length req) req 0 ;;
      match o with
      | Some st => ret (Some st)
      | None => o <- send_loop (length (req_body x)) (req_body x) (zlen req) ;;
                match o with Some st => ret (Some st) | None => upd (set_step 3) ;; ret None end
      end
  end.

(** What came is put behind the rest; a reply with its length is complete
    when it is there. *)
Definition take_chunk (b : list Z) : P (option Coop.status) :=
  r <- acc_put b ;;
  if negb (r =? 0) then fail_now else
  a <- get acc ;;
  match find_hdr_end 0 a with
  | None => ret None
  | Some e =>
      l <- chk (parse_clen (take (Z.to_nat e) a)) ;;
      match l with
      | Some n => if n <=? zlen a - e then
                    r <- finish_body ;; if negb (r =? 0) then fail_now else http_close_fd ;; ret (Some Coop.DONE)
                  else ret None
      | None => ret None
      end
  end.

Fixpoint recv_loop (fuel : nat) : P Coop.status :=
  match fuel with
  | O => nofuel
  | S k =>
      nb <- http_recv 4096 ;;
      let '(n, b) := nb in
      if n =? 0 then ret Coop.WAITING else
      if n <? 0 then
        body <- finish_body ;;
        if body =? 0 then http_close_fd ;; ret Coop.DONE else
        if (n =? -2) || (body <? 0) then fetch_fail else ret Coop.WAITING
      else b <- chk (slice b 0 n) ;; or_else (take_chunk b) (recv_loop k)
  end.

Definition step_fetch (fuel : nat) : P Coop.status :=
  or_else step_connect (or_else step_tls (or_else step_request (recv_loop fuel))).

(** ** The calls *)

Inductive pm_wasmmod_io_result_t := IO_OK | IO_ERR | IO_DECLINE.

(** [run_until] on the coroutine's task: stepped whenever it is posted. *)
Fixpoint run_until (rounds fuel : nat) : P bool :=
  match rounds with
  | O => nofuel
  | S k =>
      st <- step_fetch fuel ;;
      match st with
      | Coop.DONE => ret true
      | Coop.WAITING => o <- gets (fun w => park (env w)) ;;
                        match o with None => ret false | Some e => modify (fun w => HW e (f w)) ;; run_until k fuel end
      | _ => ret false
      end
  end.

(** [s_arena] says whether the card is initialised.  The result, the body and
    what is left in [errbuf]. *)
Definition http_do (rounds fuel : nat) (s_arena : bool) (meth : option (list Z)) (u : option (list Z)) (body : list Z) (ct : option (list Z)) (e : E)
    : outcome E (pm_wasmmod_io_result_t * option (list Z) * string) :=
  match u with
  | Some s =>
      if negb s_arena then Done (IO_ERR, None, "http not inited") e else
      if prefix HTTPS s && negb (tls_ready e) || negb (prefix HTTPS s) && negb (prefix HTTP s) then Done (IO_DECLINE, None, "") e else
      let '(e, ok) := new_coro e in
      if negb ok then Done (IO_ERR, None, "coro") e else
      match parse_http_uri s HOST_CAP PATH_CAP with
      | None => Fault
      | Some None => Done (IO_ERR, None, "uri") e
      | Some (Some t) =>
          let '(e, a) := dns_resolve (u_host t) e in
          match a with
          | None => Done (IO_ERR, None, "host") e
          | Some a =>
              let x := Fetch 0 (-1) a t (take 7 (default (bytes_of "GET") meth)) body ct [] 0 None 0 0 0 in
              let '(e, ok) := new_task e in
              if negb ok then Done (IO_ERR, None, "task") e else
              match run_until rounds fuel (HW e x) with
              | Done ok w => match ok, out (f w) with
                             | true, Some b => Done (IO_OK, Some b, "") (env w)
                             | _, _ => Done (IO_ERR, None, "fetch failed") (env w)
                             end
              | Fault => Fault
              | NoFuel => NoFuel
              end
          end
      end
  | None => Done (IO_ERR, None, "http not inited") e
  end.

Definition pm_metal_net_http_init (s_arena arena : bool) : bool * Z := if negb arena then (s_arena, -1) else (true, 0).
Definition pm_metal_net_http_deinit : bool := false.

Definition pm_metal_net_http_fetch (rounds fuel : nat) (s_arena : bool) (u : option (list Z)) :=
  http_do rounds fuel s_arena (Some (bytes_of "GET")) u [] None.
Definition pm_metal_net_http_probe (rounds fuel : nat) (s_arena : bool) (u : option (list Z)) (e : E) : outcome E pm_wasmmod_io_result_t :=
  match http_do rounds fuel s_arena (Some (bytes_of "HEAD")) u [] None e with
  | Done (r, b, _) e => Done r (match b with Some _ => http_free e | None => e end)
  | Fault => Fault
  | NoFuel => NoFuel
  end.
Definition pm_metal_net_http_request (rounds fuel : nat) (s_arena : bool) (meth : list Z) (u : option (list Z)) (body : list Z) (ct : option (list Z)) :=
  http_do rounds fuel s_arena (Some meth) u body ct.
End WithWorld.
End Http.

(** * Replies: what the bytes of a stream say

    The reply a whole stream holds, and that the card reads it out of the
    pieces the stream comes in. *)

Module HttpReply.
Import Store Decimal Http.
Local Open Scope metal_scope.

(** The body of the reply that [s] holds, when it is a success and whole. *)
Definition success (s : list Z) : bool := (12 <=? zlen s) && prefix (bytes_of "HTTP/") s && bool_decide (s !! 9%nat = Some 50).
Definition reply (s : list Z) : option (list Z) :=
  match find_hdr_end 0 s with
  | None => None
  | Some e =>
      if negb (success s) then None else
      let rest := drop (Z.to_nat e) s in
      match parse_clen (take (Z.to_nat e) s) with
      | Some (Some n) => if n <=? zlen rest then Some (take (Z.to_nat n) rest) else None
      | Some None => Some rest
      | None => None
      end
  end.

(** The header and as much of the body as it announces are there. *)
Definition complete (a : list Z) : bool :=
  match find_hdr_end 0 a with
  | Some e => match parse_clen (take (Z.to_nat e) a) with Some (Some n) => n <=? zlen a - e | _ => false end
  | None => false
  end.

(** The number after "Content-Length:" is one that an unsigned holds. *)
Definition clen_fits (s : list Z) : Prop := forall e, find_hdr_end 0 s = Some e -> parse_clen (take (Z.to_nat e) s) <> None.

Lemma prefix_app p s t : zlen p <= zlen s -> prefix p (s ++ t) = prefix p s.
Proof. revert s. induction p as [|a p IH]; intros [|b s]; cbn; [done..|lia|]. intros H. rewrite IH by lia. done. Qed.

Lemma prefix_length p s : prefix p s = true -> zlen p <= zlen s.
Proof. revert s. induction p as [|a p IH]; intros [|b s]; cbn; try done; try lia. intros [_ H]%andb_true_iff. specialize (IH _ H). lia. Qed.

Lemma hdr_end_bounds i s e : find_hdr_end i s = Some e -> i + 4 <= e <= i + zlen s.
Proof.
  revert i. induction s as [|c s IH]; intros i; cbn [find_hdr_end]; destruct (prefix _ _) eqn:Ep; intros H; try done.
  - injection H as <-. apply prefix_length in Ep. cbn in *. lia.
  - apply IH in H. cbn [length]. lia.
Qed.

Lemma hdr_end_app i s t e : find_hdr_end i s = Some e -> find_hdr_end i (s ++ t) = Some e.
Proof.
  revert i. induction s as [|c s IH]; intros i H; pose proof (hdr_end_bounds _ _ _ H) as Hb; [cbn in Hb; lia|]. cbn [find_hdr_end app] in *.
  assert (E : prefix (CRLF ++ CRLF) (c :: s ++ t) = prefix (CRLF ++ CRLF) (c :: s)) by (apply (prefix_app _ (c :: s)); cbn in *; lia). rewrite E.
  destruct (prefix _ (c :: s)); [done|by apply IH].
Qed.

Lemma take_app_z {A} (s t : list A) e : 0 <= e <= zlen s -> take (Z.to_nat e) (s ++ t) = take (Z.to_nat e) s.
Proof. intros He. apply take_app_le. lia. Qed.

Lemma drop_app_z {A} (s t : list A) e : 0 <= e <= zlen s -> drop (Z.to_nat e) (s ++ t) = drop (Z.to_nat e) s ++ t.
Proof. intros He. apply drop_app_le. lia. Qed.

Lemma cstr_le b : zlen (cstr b) <= zlen b.
Proof. induction b as [|c b IH]; cbn; [lia|]. destruct (c =? 0); cbn; lia. Qed.

Lemma strstr_le s n k : strstr s n = Some k -> zlen n <= zlen s.
Proof.
  revert k. induction s as [|c s IH]; intros k; cbn [strstr]; destruct (prefix n _) eqn:Ep; intros H; try done; try (apply prefix_length in Ep; cbn in *; lia).
  apply IH in H. cbn [length]. lia.
Qed.

(** A header that announces a length is not a short one. *)
Lemma clen_long h n : parse_clen h = Some (Some n) -> 15 <= zlen h.
Proof.
  unfold parse_clen. intros H. pose proof (cstr_le (take 255 h)) as Hc. rewrite length_take in Hc.
  destruct (strstr _ CLEN) as [k|] eqn:E1; [apply strstr_le in E1; change (zlen CLEN) with 15 in E1; lia|].
  destruct (strstr _ clen_lower) as [k|] eqn:E2; [apply strstr_le in E2; change (zlen clen_lower) with 15 in E2; lia|done].
Qed.

Lemma complete_inv a : complete a = true -> exists e n, find_hdr_end 0 a = Some e /\ parse_clen (take (Z.to_nat e) a) = Some (Some n) /\ n <= zlen a - e /\ 15 <= e <= zlen a.
Proof.
  unfold complete. destruct (find_hdr_end 0 a) as [e|] eqn:He; [|done]. destruct (parse_clen _) as [[n|]|] eqn:Hc; [|done..]. intros H%Z.leb_le. exists e, n.
  pose proof (hdr_end_bounds _ _ _ He). pose proof (clen_long _ _ Hc) as Hl. rewrite length_take in Hl. repeat split; try done; lia.
Qed.

Lemma success_app a t : 12 <= zlen a -> success (a ++ t) = success a.
Proof.
  intros Ha. unfold success. rewrite length_app, prefix_app by (change (zlen (bytes_of "HTTP/")) with 5; lia). rewrite lookup_app_l by lia. rewrite !(proj2 (Z.leb_le 12 _)) by lia. done.
Qed.

(** Once it is complete, what follows does not change the reply. *)
Lemma reply_app a t : complete a = true -> reply (a ++ t) = reply a.
Proof.
  intros (e & n & He & Hc & Hn & Hb)%complete_inv. unfold reply. rewrite (hdr_end_app _ _ t _ He), He, success_app by lia. destruct (success a); [|done]. cbn [negb].
  rewrite take_app_z, drop_app_z, Hc by lia. rewrite length_app, !length_drop. rewrite !(proj2 (Z.leb_le n _)) by lia. f_equal.
  apply take_app_le. rewrite length_drop. lia.
Qed.
End HttpReply.
