(* ===== verification/HttpSpec.v ===== *)
(** * What a request does, whatever the stream

    A scripted peer: the stream takes the request in pieces of any size and
    delivers the reply in pieces of any size, with waits anywhere. *)
From stdpp Require Import strings.
From S2P Require Import Prelude CoopState Http.

Module HttpSpec.
Import Store Decimal Http HttpReply.
Local Open Scope metal_scope.
#[local] Existing Instance Coop.status_eq_dec.

(** [p_wait]: the connection is not made at once.  [p_shakes]: handshake calls
    that have to wait.  [p_sends]: how much each send takes (0: wait), all of it
    once the list is used up.  [p_arrives]: what each receive finds (nothing:
    wait), the end of the stream once the list is used up. *)
Record peer := Peer { p_dns : list Z -> option Z; p_tls : bool; p_tok : option (list Z); p_sid : option (list Z);
  p_wait : bool; p_shakes : nat; p_sends : list Z; p_sent : list Z; p_arrives : list (list Z); p_open : bool; p_session : bool }.

Definition stream_io (b : bool) (n : nat) (s : list Z) (t : list Z) (a : list (list Z)) (o ss : bool) (p : peer) : peer :=
  Peer (p_dns p) (p_tls p) (p_tok p) (p_sid p) b n s t a o ss.

Definition peer_send (buf : list Z) (p : peer) : peer * Z :=
  match p_sends p with
  | [] => (stream_io (p_wait p) (p_shakes p) [] (p_sent p ++ buf) (p_arrives p) (p_open p) (p_session p) p, zlen buf)
  | k :: ks => let k := Z.min k (zlen buf) in
      (stream_io (p_wait p) (p_shakes p) ks (p_sent p ++ take (Z.to_nat k) buf) (p_arrives p) (p_open p) (p_session p) p, k)
  end.
Definition peer_recv (len : Z) (p : peer) : peer * (Z * list Z) :=
  let next a := stream_io (p_wait p) (p_shakes p) (p_sends p) (p_sent p) a (p_open p) (p_session p) p in
  match p_arrives p with
  | [] => (p, (-2, []))
  | c :: cs => if zlen c <=? len then (next cs, (zlen c, c)) else (next (drop (Z.to_nat len) c :: cs), (len, take (Z.to_nat len) c))
  end.
Definition peer_open (o ss : bool) (p : peer) : peer := stream_io (p_wait p) (p_shakes p) (p_sends p) (p_sent p) (p_arrives p) o ss p.

#[export] Instance peer_ops : HttpOps peer := {|
  tcp_socket p := (peer_open true (p_session p) p, 3);
  tcp_connect _ _ _ p := (p, if p_wait p then 0 else 1);
  tcp_send _ := peer_send;
  tcp_recv _ := peer_recv;
  tcp_close _ p := peer_open false (p_session p) p;
  tls_ready := p_tls;
  tls_client _ _ p := (peer_open (p_open p) true p, 7);
  tls_handshake _ p := match p_shakes p with O => (p, 0) | S n => (stream_io (p_wait p) n (p_sends p) (p_sent p) (p_arrives p) (p_open p) (p_session p) p, 1) end;
  tls_send _ := peer_send;
  tls_recv _ := peer_recv;
  tls_close _ p := peer_open (p_open p) false p;
  dns_resolve n p := (p, p_dns p n);
  new_coro p := (p, true);
  new_task p := (p, true);
  park := Some;
  http_alloc _ p := (p, true);
  http_realloc _ p := (p, true);
  http_free p := p;
  auth_bearer := p_tok;
  cdn_session_id := p_sid |}.

(** ** Reading numbers and the body *)

Lemma digits_nonneg s acc : 0 <= acc -> 0 <= digits acc s.
Proof.
  revert acc. induction s as [|c s IH]; intros acc H; cbn; [done|]. destruct (is_digit c) eqn:E; [|done]. apply IH.
  unfold is_digit in E. apply andb_true_iff in E as [E1%Z.leb_le _]. lia.
Qed.

Lemma scan_u_range s v : scan_u s = Some (Some v) -> 0 <= v <= U32_MAX.
Proof.
  unfold scan_u. destruct (match skip_space s with [] => _ | _ => _ end) as [neg r]. destruct r as [|c r]; [done|]. destruct (is_digit c); [|done].
  pose proof (digits_nonneg (c :: r) 0 ltac:(done)) as Hd. revert Hd. generalize (digits 0 (c :: r)). intros d Hd.
  destruct (Z.ltb_spec U32_MAX d) as [|Hl]; [done|]. intros E. injection E as <-. destruct neg; [|lia]. pose proof (u32_range (- d)). lia.
Qed.

Lemma clen_range h n : parse_clen h = Some (Some n) -> 0 <= n.
Proof. unfold parse_clen. destruct (match strstr _ CLEN with Some k => _ | None => _ end); [|done]. intros H%scan_u_range. lia. Qed.

Lemma finish_wp (w : @hw peer) (Q : Z -> hw -> Prop) : clen_fits (acc (f w)) ->
  match reply (acc (f w)) with
  | Some b => Q 0 (HW (env w) (set_out (Some b) (f w)))
  | None => Q (-1) w /\ Q 1 w
  end -> wp finish_body Q w.
Proof.
  intros Hc. unfold finish_body, reply, success, get. set (a := acc (f w)) in *. intros HQ. wstep. wstep. fold a. destruct (find_hdr_end 0 a) as [e|] eqn:He; [|wstep; apply HQ].
  pose proof (hdr_end_bounds _ _ _ He) as Hb. destruct (Z.ltb_spec (zlen a) 12) as [Hl|Hl]; cbn [orb].
  { rewrite (proj2 (Z.leb_gt 12 _)) in HQ by lia. wstep. apply HQ. }
  rewrite (proj2 (Z.leb_le 12 _)) in HQ by lia. cbn [andb] in HQ. destruct (prefix _ a) eqn:Ep; cbn [negb andb] in *; [|wstep; apply HQ].
  destruct (lookup_lt_is_Some_2 a 9) as [c Hc9]; [lia|]. wstep. apply (wp_chk _ c); [exact Hc9|].
  rewrite Hc9 in HQ. destruct (Z.eqb_spec c 50) as [->|Hne]; cbn [negb].
  2: { rewrite bool_decide_eq_false_2 in HQ by congruence. wstep. apply HQ. }
  rewrite bool_decide_eq_true_2 in HQ by done. cbn [negb] in HQ. destruct (parse_clen (take (Z.to_nat e) a)) as [l|] eqn:El; [|by destruct (Hc e He)].
  wstep. apply (wp_chk _ l); [done|]. rewrite length_drop in HQ. assert (Hz : Z.of_nat (length a - Z.to_nat e) = zlen a - e) by lia. rewrite Hz in HQ.
  assert (Hfin : forall v, 0 <= v <= zlen a - e -> Q 0 (HW (env w) (set_out (Some (take (Z.to_nat v) (drop (Z.to_nat e) a))) (f w))) ->
    wp (ok <- on_env (http_alloc (if v =? 0 then 1 else v)) ;; if negb ok then ret (-1) else b <- chk (slice a e v) ;; upd (set_out (Some b)) ;; ret 0) Q w).
  { intros v Hv H. wstep. unfold wp, on_env. cbn [http_alloc peer_ops negb]. unfold bind, slice. rewrite !(proj2 (Z.leb_le _ _)) by lia. destruct w. exact H. }
  destruct l as [n|].
  - pose proof (clen_range _ _ El). destruct (Z.ltb_spec (zlen a - e) n) as [Hn|Hn]; [rewrite (proj2 (Z.leb_gt n _)) in HQ by lia; wstep; apply HQ|].
    rewrite (proj2 (Z.leb_le n _)) in HQ by lia. cbn [default]. apply Hfin; [cbn; lia|exact HQ].
  - cbn [default]. apply Hfin; [cbn; lia|]. cbn. rewrite take_ge; [exact HQ|]. rewrite length_drop. lia.
Qed.

(** ** Putting the pieces together *)

Abbreviation W := (@hw peer).
Definition linked (w : W) : Prop :=
  fd (f w) = 3 /\ p_open (env w) = true /\ (tls (f w) = 0 /\ p_session (env w) = false \/ tls (f w) = 7 /\ p_session (env w) = true).
Definition closed (w : W) : Prop := p_open (env w) = false /\ p_session (env w) = false.

(** Nothing is sent and no handshake called. *)
Definition quiet (w w' : W) : Prop := p_sends (env w') = p_sends (env w) /\ p_shakes (env w') = p_shakes (env w).
(** Nothing of the transfer has moved. *)
Definition same_io (w w' : W) : Prop := p_sent (env w') = p_sent (env w) /\ p_arrives (env w') = p_arrives (env w) /\ out (f w') = out (f w).

Lemma hang_up_wp w (Q : unit -> W -> Prop) : linked w -> (forall w', closed w' -> same_io w w' -> Q tt w') -> wp http_close_fd Q w.
Proof.
  intros (Hf & Ho & Ht) HQ. unfold http_close_fd, get, on_env_, upd, when. wstep. wstep. wstep. destruct Ht as [[-> Hs]|[-> Hs]]; cbn [Z.eqb negb].
  - wstep. wstep. wstep. rewrite Hf. change (0 <=? 3) with true. cbv iota. wstep. wstep. wstep. by apply HQ.
  - wstep. wstep. wstep. wstep. wstep. cbn [f fd set_tls]. rewrite Hf. change (0 <=? 3) with true. cbv iota. wstep. wstep. wstep. by apply HQ.
Qed.

Lemma fail_wp w (Q : Coop.status -> W -> Prop) : linked w -> (forall w', closed w' -> same_io w w' -> Q Coop.ERROR w') -> wp fetch_fail Q w.
Proof. intros Hl HQ. unfold fetch_fail, upd. wstep. wstep. wstep. apply hang_up_wp; [done|]. intros w' Hc Hs. wstep. by apply HQ. Qed.

Lemma fail_now_wp w (Q : option Coop.status -> W -> Prop) : linked w -> (forall w', closed w' -> same_io w w' -> Q (Some Coop.ERROR) w') -> wp fail_now Q w.
Proof. intros Hl HQ. unfold fail_now. wstep. apply fail_wp; [done|]. intros w' Hc Hs. wstep. by apply HQ. Qed.

Definition STREAM_MAX := 2147483648.
Definition cap_ok (c : Z) : Prop := c = 0 \/ 256 <= c <= U32_MAX.

Lemma grow_cap_ok k cap need : 1 <= cap -> need <= STREAM_MAX -> cap <= U32_MAX -> need <= cap * 2 ^ Z.of_nat k ->
  exists c, grow_cap k cap need = Some c /\ cap <= c <= U32_MAX /\ need <= c.
Proof.
  unfold STREAM_MAX. revert cap. induction k as [|k IH]; intros cap H1 Hn Hc Hk; cbn [grow_cap]; destruct (Z.ltb_spec cap need) as [Hl|Hl]; try (exists cap; split; [done|lia]).
  - cbn in Hk. lia.
  - rewrite u32_small by lia. destruct (IH (cap * 2)) as (c & E & ? & ?); [lia..| |exists c; split; [done|lia]].
    rewrite Nat2Z.inj_succ, Z.pow_succ_r in Hk by lia. lia.
Qed.

Lemma acc_put_wp p (w : W) (Q : Z -> W -> Prop) : cap_ok (acc_cap (f w)) -> zlen (acc (f w)) <= acc_cap (f w) -> zlen (acc (f w)) + zlen p <= STREAM_MAX -> p <> [] ->
  (forall c, cap_ok c -> zlen (acc (f w) ++ p) <= c -> Q 0 (HW (env w) (set_acc (acc (f w) ++ p) c (f w)))) -> wp (acc_put p) Q w.
Proof.
  unfold STREAM_MAX. intros Hc Ha Hm Hp HQ. unfold acc_put, get. assert (Hp0 : zlen p <> 0) by (destruct p; [done|cbn; lia]). rewrite (proj2 (Z.eqb_neq _ 0)) by done.
  wstep. wstep. wstep. wstep. cbv zeta. rewrite u32_small by lia. wstep. destruct (Z.ltb_spec (acc_cap (f w)) (zlen (acc (f w)) + zlen p)) as [Hl|Hl].
  - destruct (grow_cap_ok 32 (if acc_cap (f w) =? 0 then 256 else acc_cap (f w)) (zlen (acc (f w)) + zlen p)) as (c & -> & Hcc & Hn).
    + destruct (Z.eqb_spec (acc_cap (f w)) 0); destruct Hc; lia.
    + done.
    + destruct (Z.eqb_spec (acc_cap (f w)) 0); destruct Hc; lia.
    + change (2 ^ Z.of_nat 32) with 4294967296. destruct (Z.eqb_spec (acc_cap (f w)) 0); destruct Hc; lia.
    + wstep. unfold wp at 1, on_env. cbn [http_realloc peer_ops negb]. unfold upd. wstep. wstep. wstep. rewrite (proj2 (Z.ltb_ge c _)) by lia. wstep. wstep. wstep.
      apply (HQ c); [right; destruct (Z.eqb_spec (acc_cap (f w)) 0); destruct Hc; lia|rewrite length_app; lia].
  - wstep. rewrite (proj2 (Z.ltb_ge (acc_cap (f w)) _)) by lia. unfold upd. wstep. wstep. wstep. apply HQ; [done|rewrite length_app; lia].
Qed.

Section one_request.
Variable (req body stream : list Z).
Hypothesis clen_ok : clen_fits stream.
Hypothesis stream_fits : zlen stream <= STREAM_MAX.

(** All is sent and the reply is not complete. *)
Record reading (w : W) : Prop := {
  rd_step : step (f w) = 3;
  rd_linked : linked w;
  rd_sent : p_sent (env w) = req ++ body;
  rd_stream : acc (f w) ++ concat (p_arrives (env w)) = stream;
  rd_cap : cap_ok (acc_cap (f w)) /\ zlen (acc (f w)) <= acc_cap (f w);
  rd_more : complete (acc (f w)) = false;
  rd_out : out (f w) = None;
}.

(** The end of the request. *)
Definition ended (st : Coop.status) (w : W) : Prop :=
  closed w /\ p_sent (env w) = req ++ body /\ match reply stream with Some b => st = Coop.DONE /\ out (f w) = Some b | None => st = Coop.ERROR /\ out (f w) = None end.

Lemma clen_fits_prefix a t : a ++ t = stream -> clen_fits a.
Proof.
  intros <- e He. pose proof (hdr_end_bounds _ _ _ He). specialize (clen_ok e (hdr_end_app _ _ t _ He)). by rewrite take_app_z in clen_ok by lia.
Qed.

Lemma done_wp w b (Q : option Coop.status -> W -> Prop) : linked w -> out (f w) = Some b -> p_sent (env w) = req ++ body -> reply stream = Some b ->
  (forall st w', ended st w' -> Q (Some st) w') -> wp (http_close_fd ;; ret (Some Coop.DONE)) Q w.
Proof. intros Hl Ho Hs Hr HQ. wstep. apply hang_up_wp; [done|]. intros w' Hc (E1 & _ & E3). wstep. apply HQ. split; [done|]. split; [congruence|]. rewrite Hr. split; [done|congruence]. Qed.

Lemma ended_error w w' : p_sent (env w) = req ++ body -> out (f w) = None -> reply stream = None -> closed w' -> same_io w w' -> ended Coop.ERROR w'.
Proof. intros Hs Ho Hr Hc (E1 & _ & E3). split; [done|]. split; [congruence|]. rewrite Hr. split; [done|congruence]. Qed.

(** One piece. *)
Lemma take_chunk_wp p cs (w : W) (Q : option Coop.status -> W -> Prop) : p <> [] -> step (f w) = 3 -> linked w -> p_sent (env w) = req ++ body -> p_arrives (env w) = cs ->
  acc (f w) ++ p ++ concat cs = stream -> cap_ok (acc_cap (f w)) /\ zlen (acc (f w)) <= acc_cap (f w) -> out (f w) = None ->
  (forall w', reading w' -> p_arrives (env w') = cs -> quiet w w' -> Q None w') -> (forall st w', ended st w' -> Q (Some st) w') -> wp (take_chunk p) Q w.
Proof.
  intros Hp Hst Hl Hs Har Hstr [Hc1 Hc2] Ho HN HE. assert (Hm : zlen (acc (f w)) + zlen p <= STREAM_MAX) by (rewrite <- Hstr, !length_app in stream_fits; lia).
  unfold take_chunk. wstep. apply acc_put_wp; [done..|]. intros c Hc Hzc. cbn [Z.eqb negb]. unfold get. wstep. wstep. cbn [f acc set_acc]. set (a := acc (f w) ++ p) in *.
  assert (Hsa : a ++ concat cs = stream) by (unfold a; by rewrite <- (assoc_L (++))). set (w1 := HW (env w) (set_acc a c (f w))).
  assert (Hr1 : complete a = false -> reading w1) by (intros Hn; constructor; [exact Hst|exact Hl|exact Hs|cbn [w1 f env acc set_acc]; by rewrite Har|by split|exact Hn|exact Ho]).
  destruct (find_hdr_end 0 a) as [e|] eqn:He.
  2: { wstep. apply (HN w1); [|done|done]. apply Hr1. unfold complete. by rewrite He. }
  destruct (parse_clen (take (Z.to_nat e) a)) as [l|] eqn:El; [|by destruct (clen_fits_prefix a (concat cs) Hsa e He)].
  wstep. apply (wp_chk _ l); [done|]. destruct l as [n|]; [|wstep; apply (HN w1); [|done|done]; apply Hr1; unfold complete; by rewrite He, El].
  destruct (Z.leb_spec n (zlen a - e)) as [Hn|Hn]; [|wstep; apply (HN w1); [|done|done]; apply Hr1; unfold complete; rewrite He, El; apply Z.leb_gt; lia].
  assert (Hcomp : complete a = true) by (unfold complete; rewrite He, El; apply Z.leb_le; lia). pose proof (reply_app a (concat cs) Hcomp) as Hre. rewrite Hsa in Hre.
  wstep. apply finish_wp; [by apply (clen_fits_prefix a (concat cs))|]. change (acc (f w1)) with a. destruct (reply a) as [b|].
  - cbn [Z.eqb negb]. eapply (done_wp _ b); done.
  - split; cbn [Z.eqb negb]; (apply fail_now_wp; [done|]); intros w' Hcl Hio; apply HE; by apply (ended_error w1).
Qed.

Definition weight (cs : list (list Z)) : nat := length (concat cs) + length cs.

Lemma http_recv_wp (w : W) len (Q : Z * list Z -> W -> Prop) : linked w ->
  (let '(e, r) := peer_recv len (env w) in Q r (HW e (f w))) -> wp (http_recv len) Q w.
Proof.
  intros (Hf & _ & Ht) HQ. unfold http_recv, get. wstep. wstep. wstep. wstep. unfold wp, on_env. cbn [tls_recv tcp_recv peer_ops].
  destruct Ht as [[-> _]|[-> _]]; cbn [Z.eqb negb]; by destruct (peer_recv len (env w)) as [e r].
Qed.

(** The end of the stream. *)
Lemma at_end_wp (w : W) (Q : Coop.status -> W -> Prop) : reading w -> p_arrives (env w) = [] -> (forall st w', ended st w' -> Q st w') ->
  wp (body <- finish_body ;; if body =? 0 then http_close_fd ;; ret Coop.DONE else if (-2 =? -2) || (body <? 0) then fetch_fail else ret Coop.WAITING) Q w.
Proof.
  intros [Hst Hl Hs Hstr _ _ Ho] Ha HQ. rewrite Ha in Hstr. cbn in Hstr. rewrite app_nil_r in Hstr. wstep. apply finish_wp; rewrite Hstr; [done|].
  destruct (reply stream) as [b|] eqn:Hr.
  - cbn [Z.eqb]. wstep. apply hang_up_wp; [done|]. intros w' Hc (E1 & _ & E3). wstep. apply HQ. split; [done|]. cbn in E1, E3. split; [congruence|]. by rewrite Hr.
  - split; cbn [Z.eqb orb]; (apply fail_wp; [done|]); intros w' Hc Hio; apply HQ; by apply (ended_error w).
Qed.

(** Waiting, with less to wait for, or at the end. *)
Definition rests (w : W) (st : Coop.status) (w' : W) : Prop :=
  st = Coop.WAITING /\ reading w' /\ quiet w w' /\ (length (p_arrives (env w')) < length (p_arrives (env w)))%nat /\
    (weight (p_arrives (env w')) <= weight (p_arrives (env w)))%nat \/ ended st w'.

Definition arrived (cs : list (list Z)) (w : W) : W :=
  HW (stream_io (p_wait (env w)) (p_shakes (env w)) (p_sends (env w)) (p_sent (env w)) cs (p_open (env w)) (p_session (env w)) (env w)) (f w).

Lemma piece_wp (m k : @P peer Coop.status) n p cs w : reading w -> p <> [] -> n = zlen p -> p ++ concat cs = concat (p_arrives (env w)) -> (length cs <= length (p_arrives (env w)))%nat ->
  (forall w', reading w' -> p_arrives (env w') = cs -> wp k (rests w') w') ->
  wp (if n =? 0 then ret Coop.WAITING else if n <? 0 then m else b <- chk (slice p 0 n) ;; or_else (take_chunk b) k) (rests w) (arrived cs w).
Proof.
  intros [Hst Hl Hs Hstr Hcap _ Ho] Hp -> Hcat Hlen Hk. assert (Hp0 : 0 < zlen p) by (destruct p; [done|cbn; lia]).
  assert (Hwt : (weight cs <= weight (p_arrives (env w)))%nat) by (unfold weight; rewrite <- Hcat, length_app; lia).
  rewrite (proj2 (Z.eqb_neq _ 0)), (proj2 (Z.ltb_ge _ 0)) by lia. wstep. apply (wp_chk _ p); [apply slice_all|]. unfold or_else. wstep.
  apply (take_chunk_wp p cs); [done|done|exact Hl|exact Hs|done| |done|done| |].
  - cbn [arrived f]. by rewrite Hcat.
  - intros w' Hr' Ha' Hs'. eapply wp_mono; [by apply Hk|]. intros st w2 [(-> & Hr2 & Hs2 & Hl2 & Hw2)|He]; [left|by right].
    rewrite Ha' in *. split; [done|]. split; [done|]. split; [split; [by rewrite (proj1 Hs2), (proj1 Hs')|by rewrite (proj2 Hs2), (proj2 Hs')]|]. split; lia.
  - intros st w' He. wstep. by right.
Qed.

Lemma recv_loop_wp fuel w : reading w -> (weight (p_arrives (env w)) < fuel)%nat -> wp (recv_loop fuel) (rests w) w.
Proof.
  revert w. induction fuel as [|fuel IH]; intros w Hr Hw; [lia|]. cbn [recv_loop]. wstep. apply http_recv_wp; [apply (rd_linked _ Hr)|].
  unfold peer_recv. destruct (p_arrives (env w)) as [|c cs] eqn:Ha.
  { cbv beta iota zeta. rewrite (proj2 (Z.eqb_neq (-2) 0)), (proj2 (Z.ltb_lt (-2) 0)) by done. replace (HW (env w) (f w)) with w by by destruct w. apply at_end_wp; [done|done|]. intros st w' He. by right. }
  assert (Hk : forall p cs', p <> [] -> p ++ concat cs' = concat (c :: cs) -> (length cs' <= length (c :: cs))%nat ->
    forall w', reading w' -> p_arrives (env w') = cs' -> wp (recv_loop fuel) (rests w') w').
  { intros p cs' Hp Hcat Hlen w' Hr' Ha'. apply IH; [done|]. rewrite Ha'. assert (0 < length p)%nat by (destruct p; [done|cbn; lia]). unfold weight in *. rewrite <- Hcat, length_app in Hw. lia. }
  destruct (Z.leb_spec (zlen c) 4096) as [Hc|Hc]; [destruct c as [|x c]|].
  - cbn [length]. cbv beta iota zeta. change (Z.of_nat 0 =? 0) with true. cbv iota. wstep. left. split; [done|]. rewrite Ha. split; [|split; [done|split; cbn; [lia|unfold weight; cbn; lia]]].
    destruct Hr as [H1 H2 H3 H4 H5 H6 H7]. rewrite Ha in H4. constructor; [exact H1|exact H2|exact H3|exact H4|exact H5|exact H6|exact H7].
  - apply (piece_wp _ _ _ (x :: c) cs w); [done|done|done|by rewrite Ha|rewrite Ha; cbn; lia|]. by apply (Hk (x :: c)); [| |cbn; lia].
  - assert (Hcat : take (Z.to_nat 4096) c ++ concat (drop (Z.to_nat 4096) c :: cs) = concat (c :: cs)) by (cbn [concat]; by rewrite (assoc_L (++)), take_drop).
    assert (Hne : take (Z.to_nat 4096) c <> []) by (intros E; apply (f_equal length) in E; rewrite length_take in E; cbn [length] in E; lia).
    apply (piece_wp _ _ _ _ _ w); [done|exact Hne|rewrite length_take; lia|by rewrite Ha|rewrite Ha; cbn; lia|]. by apply (Hk (take (Z.to_nat 4096) c)).
Qed.

(** ** Sending *)

Definition whole : list Z := req ++ body.
Hypothesis whole_fits : zlen whole <= U32_MAX.

(** What the request of [w] is made of, and that its peer is one of ours. *)
Record asks (w : W) : Prop := {
  as_req : request (f w) (p_tok (env w)) (p_sid (env w)) = Some req;
  as_body : req_body (f w) = body;
  as_sends : Forall (fun k => 0 <= k) (p_sends (env w));
  as_arrives : concat (p_arrives (env w)) = stream;
  as_acc : acc (f w) = [] /\ acc_cap (f w) = 0;
  as_out : out (f w) = None;
}.

Record sending (w : W) : Prop := {
  sd_asks : asks w;
  sd_step : step (f w) = 2;
  sd_linked : linked w;
  sd_off : snd_off (f w) = zlen (p_sent (env w));
  sd_sent : exists rest, p_sent (env w) ++ rest = whole;
}.

Lemma http_send_wp (w : W) buf (Q : Z -> W -> Prop) : linked w -> (let '(e, k) := peer_send buf (env w) in Q k (HW e (f w))) -> wp (http_send buf) Q w.
Proof.
  intros (Hf & _ & Ht) HQ. unfold http_send, get. wstep. wstep. wstep. wstep. unfold wp, on_env. cbn [tls_send tcp_send peer_ops].
  destruct Ht as [[-> _]|[-> _]]; cbn [Z.eqb negb]; by destruct (peer_send buf (env w)) as [e r].
Qed.

Definition less_sends (w w' : W) : Prop := (length (p_sends (env w')) <= length (p_sends (env w)))%nat /\ p_shakes (env w') = p_shakes (env w) /\ p_arrives (env w') = p_arrives (env w).

(** [data] is the part of the whole from [base] on. *)
Lemma send_loop_wp fuel data base w : sending w -> (exists pre post, whole = pre ++ data ++ post /\ zlen pre = base) -> base <= snd_off (f w) -> zlen data - (snd_off (f w) - base) <= Z.of_nat fuel ->
  wp (send_loop fuel data base) (fun r w' => sending w' /\ less_sends w w' /\
    (r = Some Coop.WAITING /\ (length (p_sends (env w')) < length (p_sends (env w)))%nat \/ r = None /\ base + zlen data <= snd_off (f w') /\ snd_off (f w) <= snd_off (f w'))) w.
Proof.
  revert w. induction fuel as [|fuel IH]; intros w Hs (pre & post & Hwh & Hpre) Hb Hfu; pose proof Hs as [Ha Hst Hl Ho [rest Hr]]; pose proof whole_fits as Hfit.
  all: assert (Hso : zlen (p_sent (env w)) <= zlen whole) by (rewrite <- Hr, length_app; lia).
  all: cbn [send_loop]; unfold get; wstep; wstep; cbv zeta; rewrite u32_small by lia.
  - rewrite (proj2 (Z.ltb_ge _ _)) by lia. wstep. split; [done|]. split; [by split|]. right. split; [done|]. lia.
  - destruct (Z.ltb_spec (snd_off (f w) - base) (zlen data)) as [Hlt|Hge].
    2: { wstep. split; [done|]. split; [by split|]. right. split; [done|]. lia. }
    set (o := snd_off (f w)) in *. assert (Hdrop : p_sent (env w) ++ drop (Z.to_nat (o - base)) data ++ post = whole).
    { assert (Hp : p_sent (env w) = pre ++ take (Z.to_nat (o - base)) data).
      { rewrite Hwh in Hr. apply (f_equal (take (length (p_sent (env w))))) in Hr. rewrite take_app_length in Hr. rewrite Hr, take_app_ge by lia. f_equal. rewrite take_app_le by lia. f_equal. lia. }
      rewrite Hp, Hwh, <- (assoc_L (++)). f_equal. by rewrite (assoc_L (++)), take_drop. }
    wstep. apply http_send_wp; [done|]. set (buf := drop _ data) in *. assert (Hbuf : zlen buf = zlen data - (o - base)) by (unfold buf; rewrite length_drop; lia).
    assert (Hgo : forall k ks, 0 < k <= zlen buf -> (length ks <= length (p_sends (env w)))%nat -> Forall (fun k => 0 <= k) ks ->
      let w1 := HW (stream_io (p_wait (env w)) (p_shakes (env w)) ks (p_sent (env w) ++ take (Z.to_nat k) buf) (p_arrives (env w)) (p_open (env w)) (p_session (env w)) (env w)) (f w) in
      wp (if k =? 0 then ret (Some Coop.WAITING) else if k <? 0 then fail_now else upd (set_snd_off (u32 (o + k))) ;; send_loop fuel data base)
       (fun r w' => sending w' /\ less_sends w w' /\ (r = Some Coop.WAITING /\ (length (p_sends (env w')) < length (p_sends (env w)))%nat \/ r = None /\ base + zlen data <= snd_off (f w') /\ o <= snd_off (f w'))) w1).
    { intros k ks Hk Hks Hpos w1. rewrite (proj2 (Z.eqb_neq k 0)), (proj2 (Z.ltb_ge k 0)) by lia. unfold upd. wstep. wstep.
      assert (Hwl : o + k <= zlen whole) by (rewrite <- Hdrop, !length_app; lia). rewrite u32_small by lia.
      set (w2 := HW _ _). assert (Hs2 : sending w2).
      { destruct Ha as [A1 A2 A3 A4 A5 A6]. constructor; [constructor; done|done|exact Hl| |].
        - cbn [w2 w1 f env set_snd_off snd_off p_sent stream_io]. rewrite length_app, length_take. lia.
        - exists (drop (Z.to_nat k) buf ++ post). cbn [w2 w1 env p_sent stream_io]. rewrite <- (assoc_L (++)), (assoc_L (++) (take _ buf)), take_drop. exact Hdrop. }
      eapply wp_mono; [apply (IH w2); [done|by exists pre, post|cbn; lia|cbn [w2 f set_snd_off snd_off]; lia]|].
      intros r w' (H1 & (H2 & H3) & H4). change (p_sends (env w2)) with ks in H2, H4. change (snd_off (f w2)) with (o + k) in H4.
      split; [done|]. split; [split; [lia|done]|]. destruct H4 as [[-> H4]|(-> & H4 & H5)]; [left; split; [done|lia]|right]. split; [done|lia]. }
    unfold peer_send. pose proof (as_sends _ Ha) as Hpos. destruct (p_sends (env w)) as [|k ks] eqn:Hks.
    + replace (p_sent (env w) ++ buf) with (p_sent (env w) ++ take (Z.to_nat (zlen buf)) buf) by (by rewrite Nat2Z.id, firstn_all). apply Hgo; [lia|done|done].
    + apply Forall_cons in Hpos as [Hk Hpos]. destruct (decide (k = 0)) as [->|Hk0]; [|apply Hgo; [lia|cbn; lia|done]].
      rewrite Z.min_l by lia. cbn [Z.eqb]. wstep. destruct Ha as [A1 A2 A3 A4 A5 A6].
      split; [constructor; [constructor; done|done|exact Hl|cbn; rewrite app_nil_r; done|exists rest; cbn; by rewrite app_nil_r]|]. split; [split; [rewrite Hks; cbn; lia|done]|]. left. split; [done|cbn; lia].
Qed.

(** ** The steps *)

(** Before anything is sent: the connection, then the session. *)
Record opening (w : W) : Prop := {
  op_asks : asks w;
  op_off : snd_off (f w) = 0;
  op_sent : p_sent (env w) = [];
  op_step : step (f w) = 0 /\ tls (f w) = 0 /\ p_session (env w) = false \/ step (f w) = 1 /\ linked w;
}.
Definition going (w : W) : Prop := opening w \/ sending w \/ reading w.

(** How often it can still have to wait. *)
Definition waits (w : W) : nat := (if (step (f w) =? 0) then 1 else 0) + p_shakes (env w) + length (p_sends (env w)) + length (p_arrives (env w)).
Definition room (w w' : W) : Prop := (weight (p_arrives (env w')) <= weight (p_arrives (env w)))%nat.

Definition turns (w : W) (st : Coop.status) (w' : W) : Prop :=
  st = Coop.WAITING /\ going w' /\ (waits w' < waits w)%nat /\ room w w' \/ ended st w'.

(** A step that is through leaves the rest of the turn to the next. *)
Lemma or_else_wp m (k : @P peer Coop.status) w (Q : Coop.status -> W -> Prop) : wp m (fun o w' => match o with Some st => Q st w' | None => wp k Q w' end) w -> wp (or_else m k) Q w.
Proof. intros H. unfold or_else. wstep. eapply wp_mono; [exact H|]. intros [st|] w' Hw; [by wstep|done]. Qed.

Lemma turns_trans w w1 st w' : (waits w1 <= waits w)%nat -> room w w1 -> turns w1 st w' -> turns w st w'.
Proof. unfold turns, room. intros H1 H2 [(-> & Hg & Hw & Hr)|He]; [left|by right]. repeat split; try done; lia. Qed.

Lemma reading_turns fuel w : reading w -> (weight (p_arrives (env w)) < fuel)%nat -> wp (recv_loop fuel) (turns w) w.
Proof.
  intros Hr Hf. eapply wp_mono; [by apply recv_loop_wp|]. intros st w' [(-> & Hr' & [Hs1 Hs2] & Hl & Hw)|He]; [left|by right]. split; [done|]. split; [by right; right|]. split; [|done].
  unfold waits. rewrite (rd_step _ Hr), (rd_step _ Hr'), Hs1, Hs2. cbn. lia.
Qed.

Lemma sending_turns fuel w : sending w -> (weight (p_arrives (env w)) < fuel)%nat -> wp (or_else step_request (recv_loop fuel)) (turns w) w.
Proof.
  intros Hs Hf. apply or_else_wp. unfold step_request, get. wstep. wstep. rewrite (sd_step _ Hs), Z.eqb_refl. cbn [negb]. do 6 wstep. cbn [auth_bearer cdn_session_id peer_ops id].
  pose proof (sd_asks _ Hs) as Ha. change (id (f w)) with (f w). rewrite (as_req _ Ha). pose proof (sd_off _ Hs) as Ho.
  wstep. eapply wp_mono; [apply (send_loop_wp (length req) req 0 w Hs); [by exists [], body|lia|lia]|].
  intros r w1 (Hs1 & (Hl1 & Hk1 & Ha1) & Hr1). destruct Hr1 as [[-> Hlt]|(-> & Hoff & _)].
  { wstep. left. split; [done|]. split; [by right; left|]. unfold waits, room. rewrite (sd_step _ Hs), (sd_step _ Hs1), Hk1, Ha1. cbn. lia. }
  rewrite (as_body _ Ha). wstep. eapply wp_mono; [apply (send_loop_wp (length body) body (zlen req) w1 Hs1); [exists req, []; by rewrite app_nil_r|lia|lia]|].
  intros r w2 (Hs2 & (Hl2 & Hk2 & Ha2) & Hr2). destruct Hr2 as [[-> Hlt]|(-> & Hoff2 & _)].
  { wstep. left. split; [done|]. split; [by right; left|]. unfold waits, room. rewrite (sd_step _ Hs), (sd_step _ Hs2), Hk2, Hk1, Ha2, Ha1. cbn. lia. }
  unfold upd. wstep. wstep. wstep. set (w3 := HW _ _). assert (Hr3 : reading w3).
  { destruct Hs2 as [[A1 A2 A3 A4 [A5 A7] A6] S1 S2 S3 [rest S4]]. constructor; [done|exact S2| | | | |exact A6].
    - cbn [w3 env]. assert (Hn : rest = []) by (apply length_zero_iff_nil; apply (f_equal length) in S4; unfold whole in S4; rewrite !length_app in S4; lia). change (p_sent (env w2) = whole). by rewrite <- S4, Hn, app_nil_r.
    - cbn [w3 f env acc set_step]. by rewrite A5.
    - cbn [w3 f acc acc_cap set_step]. rewrite A5, A7. split; [by left|done].
    - cbn [w3 f acc set_step]. by rewrite A5. }
  apply (wp_mono _ (turns w3)); [apply reading_turns; [done|cbn [w3 env]; rewrite Ha2, Ha1; done]|].
  intros st w' Ht. revert Ht. apply turns_trans; [|unfold room; cbn [w3 env]; by rewrite Ha2, Ha1].
  unfold waits. cbn [w3 f env step set_step]. rewrite (sd_step _ Hs), Hk2, Hk1, Ha2, Ha1. cbn. lia.
Qed.

(** [step_tls] from a connection that is made, and what follows it. *)
Lemma tls_turns fuel w : asks w -> snd_off (f w) = 0 -> p_sent (env w) = [] -> step (f w) = 1 -> linked w -> (weight (p_arrives (env w)) < fuel)%nat ->
  wp (or_else step_tls (or_else step_request (recv_loop fuel))) (turns w) w.
Proof.
  intros Ha Ho Hs Hst Hl Hf. apply or_else_wp. unfold step_tls, get, upd. wstep. wstep. wstep. wstep. rewrite Hst, Z.eqb_refl. cbn [negb].
  assert (Hgo : forall w1, asks w1 -> linked w1 -> snd_off (f w1) = 0 -> p_sent (env w1) = [] -> p_sends (env w1) = p_sends (env w) -> p_shakes (env w1) = p_shakes (env w) -> p_arrives (env w1) = p_arrives (env w) ->
    wp (or_else step_request (recv_loop fuel)) (turns w) (HW (env w1) (set_step 2 (f w1)))).
  { intros w1 A1 L1 O1 S1 E1 E2 E3. set (w2 := HW _ _). assert (Hs2 : sending w2).
    { destruct A1 as [B1 B2 B3 B4 B5 B6]. constructor; [constructor; done|done|exact L1|cbn [w2 f env snd_off set_step]; by rewrite O1, S1|exists whole; cbn [w2 env]; by rewrite S1]. }
    eapply wp_mono; [apply (sending_turns fuel w2 Hs2); cbn [w2 env]; by rewrite E3|]. intros st w' Ht. revert Ht. apply turns_trans; [|unfold room; cbn [w2 env]; by rewrite E3].
    unfold waits. cbn [w2 f env step set_step]. rewrite Hst, E1, E2, E3. cbn. lia. }
  destruct (u_tls (target (f w))) eqn:Eu; cbn [negb].
  2: { wstep. wstep. wstep. by apply (Hgo w). }
  pose proof Hl as (Hfd & Hop & Ht). do 4 wstep. wstep.
  set (w1 := HW (peer_open (p_open (env w)) true (env w)) (set_tls 7 (f w))).
  assert (L1 : linked w1) by (split; [exact Hfd|split; [exact Hop|by right]]). assert (A1 : asks w1) by (destruct Ha as [B1 B2 B3 B4 B5 B6]; by constructor).
  assert (Hk : wp (if (7 : Z) =? 0 then fail_now else st <- on_env (tls_handshake 7) ;; if st =? 1 then ret (Some Coop.WAITING) else if st <? 0 then fail_now else modify (fun w => HW (env w) (set_step 2 (f w))) ;; ret None)
    (fun o w' => match o with Some st => turns w st w' | None => wp (or_else step_request (recv_loop fuel)) (turns w) w' end) w1).
  { rewrite (proj2 (Z.eqb_neq 7 0)) by done. wstep. unfold wp at 1, on_env. cbn [tls_handshake peer_ops]. change (p_shakes (env w1)) with (p_shakes (env w)). destruct (p_shakes (env w)) as [|n] eqn:En; cbv beta iota.
    - rewrite (proj2 (Z.eqb_neq 0 1)), (proj2 (Z.ltb_ge 0 0)) by done. wstep. wstep. wstep. by apply (Hgo w1).
    - rewrite Z.eqb_refl. wstep. left. split; [done|]. split; [left|].
      + destruct A1 as [B1 B2 B3 B4 B5 B6]. constructor; [by constructor|done|done|]. right. split; [done|exact L1].
      + split; [|apply Nat.le_refl]. unfold waits. cbn [env f w1 step p_shakes p_sends p_arrives stream_io peer_open set_tls]. rewrite En, Hst. cbn. lia. }
  destruct Ht as [[Et Es]|[Et Es]]; rewrite Et.
  - rewrite Z.eqb_refl. wstep. unfold wp at 1, on_env. cbn [tls_client peer_ops]. cbv beta iota. wstep. wstep. wstep. exact Hk.
  - rewrite (proj2 (Z.eqb_neq 7 0)) by done. wstep. replace w with w1; [exact Hk|]. unfold w1, peer_open, stream_io, set_tls. rewrite <- Es, <- Et. by destruct w as [[] []].
Qed.

Lemma opening_turns fuel w : opening w -> (weight (p_arrives (env w)) < fuel)%nat -> wp (step_fetch fuel) (turns w) w.
Proof.
  intros [Ha Ho Hs Hst] Hf. unfold step_fetch. apply or_else_wp. unfold step_connect, get, upd. wstep. wstep. destruct Hst as [(Hst & Ht & Hss)|[Hst Hl]]; rewrite Hst.
  2: { rewrite (proj2 (Z.eqb_neq 1 0)) by done. cbn [negb]. wstep. by apply tls_turns. }
  rewrite Z.eqb_refl. cbn [negb]. wstep. unfold wp at 1, on_env. cbn [tcp_socket peer_ops]. cbv beta iota. do 2 wstep. rewrite (proj2 (Z.ltb_ge 3 0)) by done. do 4 wstep.
  wstep. unfold wp at 1, on_env. cbn [tcp_connect peer_ops]. cbv beta iota. cbn [env f]. set (w1 := HW (peer_open true (p_session (env w)) (env w)) (set_step 1 (set_fd 3 (f w)))).
  assert (L1 : linked w1) by (split; [done|split; [done|by left]]). assert (A1 : asks w1) by (destruct Ha as [B1 B2 B3 B4 B5 B6]; by constructor).
  assert (Hw1 : waits w = S (waits w1)) by (unfold waits; cbn [w1 f env step set_step set_fd peer_open stream_io p_shakes p_sends p_arrives]; by rewrite Hst).
  change (p_wait (peer_open true (p_session (env w)) (env w))) with (p_wait (env w)). destruct (p_wait (env w)).
  - rewrite Z.eqb_refl. wstep. wstep. wstep. left. split; [done|]. change (HW _ _) with w1. split; [left; constructor; [exact A1|done|done|right; by split]|]. split; [lia|apply Nat.le_refl].
  - rewrite (proj2 (Z.eqb_neq 1 0)), (proj2 (Z.ltb_ge 1 0)) by done. wstep. wstep. wstep. change (HW _ _) with w1.
    eapply wp_mono; [by apply (tls_turns fuel w1)|]. intros st w' H. revert H. apply turns_trans; [lia|apply Nat.le_refl].
Qed.

Lemma turn_wp fuel w : going w -> (weight (p_arrives (env w)) < fuel)%nat -> wp (step_fetch fuel) (turns w) w.
Proof.
  intros [Ho|[Hs|Hr]] Hf; [by apply opening_turns|..]; unfold step_fetch; apply or_else_wp; unfold step_connect, get; wstep; wstep.
  - rewrite (sd_step _ Hs), (proj2 (Z.eqb_neq 2 0)) by done. cbn [negb]. wstep. apply or_else_wp. unfold step_tls, get. do 4 wstep. rewrite (sd_step _ Hs), (proj2 (Z.eqb_neq 2 1)) by done. cbn [negb]. wstep. by apply sending_turns.
  - rewrite (rd_step _ Hr), (proj2 (Z.eqb_neq 3 0)) by done. cbn [negb]. wstep. apply or_else_wp. unfold step_tls, get. do 4 wstep. rewrite (rd_step _ Hr), (proj2 (Z.eqb_neq 3 1)) by done. cbn [negb]. wstep.
    apply or_else_wp. unfold step_request, get. do 2 wstep. rewrite (rd_step _ Hr), (proj2 (Z.eqb_neq 3 2)) by done. cbn [negb]. wstep. by apply reading_turns.
Qed.

Lemma run_until_wp rounds fuel w : going w -> (weight (p_arrives (env w)) < fuel)%nat -> (waits w < rounds)%nat ->
  wp (run_until rounds fuel) (fun ok w' => exists st, ended st w' /\ ok = bool_decide (st = Coop.DONE)) w.
Proof.
  revert w. induction rounds as [|k IH]; intros w Hg Hf Hr; [lia|]. cbn [run_until]. wstep. eapply wp_mono; [by apply turn_wp|].
  intros st w' [(-> & Hg' & Hw & Hroom)|He].
  - wstep. wstep. cbn [park peer_ops]. wstep. wstep. replace (HW (env w') (f w')) with w' by by destruct w'. apply IH; [done|unfold room in Hroom; lia|lia].
  - pose proof He as (_ & _ & Hre). destruct (reply stream) as [b|]; destruct Hre as [-> _]; wstep; by eexists.
Qed.
End one_request.
End HttpSpec.
