(* ===== verification/HttpFetch.v ===== *)
(** * Whole requests

    [http_do] against any peer of HttpSpec, replies with a length, and what
    becomes of HEAD. *)
From stdpp Require Import strings.
From S2P Require Import Prelude CoopState Http HttpSpec.

Module HttpFetch.
Import Store Decimal Http HttpReply HttpSpec.
Local Open Scope metal_scope.
#[local] Existing Instance Coop.status_eq_dec.

Lemma parse_scheme s t : parse_http_uri s HOST_CAP PATH_CAP = Some (Some t) ->
  prefix HTTPS s = true /\ u_tls t = true \/ prefix HTTPS s = false /\ prefix HTTP s = true /\ u_tls t = false.
Proof.
  unfold parse_http_uri. intros H. destruct (prefix HTTPS s) eqn:E1; [left|destruct (prefix HTTP s) eqn:E2; [right|done]].
  all: destruct (until 47 _) as [before slash], (until 58 before) as [name colon]; repeat (case_match; try done); simplify_eq; done.
Qed.

(** The frame of a request when its task starts. *)
Definition frame (a : Z) (t : uri) (meth body : list Z) (ct : option (list Z)) : fetch :=
  Fetch 0 (-1) a t (take 7 meth) body ct [] 0 None 0 0 0.

(** A peer that has seen nothing yet, and takes what it is sent. *)
Definition fresh_peer (p : peer) : Prop := p_sent p = [] /\ p_session p = false /\ Forall (fun k => 0 <= k) (p_sends p).
Definition stream_of (p : peer) : list Z := concat (p_arrives p).
(** Enough turns, and enough receives in one of them. *)
Definition enough (rounds fuel : nat) (p : peer) : Prop :=
  (p_shakes p + length (p_sends p) + length (p_arrives p) + 1 < rounds)%nat /\ (weight (p_arrives p) < fuel)%nat.

Section request.
Variables (p : peer) (u : list Z) (t : uri) (a : Z) (meth body : list Z) (ct : option (list Z)) (req : list Z) (rounds fuel : nat).
Hypothesis Huri : parse_http_uri u HOST_CAP PATH_CAP = Some (Some t).
Hypothesis Hdns : p_dns p (u_host t) = Some a.
Hypothesis Htls : u_tls t = true -> p_tls p = true.
Hypothesis Hreq : request (frame a t meth body ct) (p_tok p) (p_sid p) = Some req.
Hypothesis Hsize : zlen (req ++ body) <= U32_MAX.
Hypothesis Hfresh : fresh_peer p.
Hypothesis Hclen : clen_fits (stream_of p).
Hypothesis Hstream : zlen (stream_of p) <= STREAM_MAX.
Hypothesis Henough : enough rounds fuel p.

Lemma http_do_reads : exists p', http_do rounds fuel true (Some meth) (Some u) body ct p =
    Done (match reply (stream_of p) with Some b => (IO_OK, Some b, "") | None => (IO_ERR, None, "fetch failed") end) p' /\
    p_sent p' = req ++ body /\ p_open p' = false /\ p_session p' = false.
Proof.
  destruct Hfresh as (Hs & Hss & Hpos), Henough as [Hr Hf]. unfold http_do. cbn [negb].
  assert (Es : prefix HTTPS u && negb (tls_ready p) || negb (prefix HTTPS u) && negb (prefix HTTP u) = false).
  { cbn [tls_ready peer_ops]. destruct (parse_scheme _ _ Huri) as [[-> E]|(-> & -> & _)]; [by rewrite (Htls E)|done]. }
  rewrite Es. cbn [new_coro peer_ops negb]. rewrite Huri. cbn [dns_resolve peer_ops]. rewrite Hdns. cbn [new_task peer_ops negb default].
  set (w := HW p (frame a t meth body ct)). change (run_until rounds fuel _) with (run_until rounds fuel w).
  assert (Hg : going req body (stream_of p) w) by (left; constructor; [by constructor|done|done|left; done]).
  assert (Hw : (waits w < rounds)%nat) by (unfold waits; cbn; lia).
  destruct (wp_run _ _ _ (run_until_wp req body (stream_of p) Hclen Hstream Hsize rounds fuel w Hg Hf Hw)) as (ok & w' & -> & st & (Hc & Hsent & Hre) & ->).
  exists (env w'). destruct (reply (stream_of p)) as [b|]; destruct Hre as [-> Hout]; rewrite Hout.
  - rewrite bool_decide_eq_true_2 by done. split; [done|]. split; [exact Hsent|exact Hc].
  - rewrite bool_decide_eq_false_2 by done. split; [done|]. split; [exact Hsent|exact Hc].
Qed.
End request.

(** C33: a request does not depend on how the network cuts its streams.  The
    peer may take the request in pieces of any size and deliver any bytes in
    pieces of any size, with waits anywhere, in the clear or through a session:
    the request goes out whole and once, the call returns exactly what the
    concatenation of the pieces holds as a reply (or fails exactly when it holds
    none), and socket and session are closed. *)
Theorem fetch_any_stream (p : peer) (u : list Z) (t : uri) (a : Z) (meth body : list Z) (ct : option (list Z)) (req : list Z) (rounds fuel : nat)
    (Huri : parse_http_uri u HOST_CAP PATH_CAP = Some (Some t)) (Hdns : p_dns p (u_host t) = Some a) (Htls : u_tls t = true -> p_tls p = true)
    (Hreq : request (frame a t meth body ct) (p_tok p) (p_sid p) = Some req) (Hsize : zlen (req ++ body) <= U32_MAX) (Hfresh : fresh_peer p)
    (Hclen : clen_fits (stream_of p)) (Hstream : zlen (stream_of p) <= STREAM_MAX) (Henough : enough rounds fuel p) :
  exists p', pm_metal_net_http_request rounds fuel true meth (Some u) body ct p =
      Done (match reply (stream_of p) with Some b => (IO_OK, Some b, "") | None => (IO_ERR, None, "fetch failed") end) p' /\
    p_sent p' = req ++ body /\ p_open p' = false /\ p_session p' = false.
Proof. by apply (http_do_reads p u t a). Qed.

(** The header of a request fits its buffer. *)
Lemma add_piece_fits r q : (forall x, r = Some x -> zlen x < REQ_CAP) -> forall x, add_piece r q = Some x -> zlen x < REQ_CAP.
Proof. intros Hr x. unfold add_piece. destruct r as [y|]; [|done]. destruct (Z.leb_spec REQ_CAP (zlen y + zlen q)); [done|]. intros [= <-]. rewrite length_app. lia. Qed.

Lemma request_fits x tok sid q : request x tok sid = Some q -> zlen q < REQ_CAP.
Proof. unfold request. revert q. repeat (apply add_piece_fits || case_match || (intros ? [= <-]; done)). Qed.

(** ** Numbers *)

(** A printed number reads back. *)
Lemma scan_dec n r : 0 <= n <= U32_MAX -> (match r with c :: _ => is_digit c = false | [] => True end) -> scan_u (32 :: dec 10 n ++ r) = Some (Some n).
Proof.
  intros Hn Hr. destruct (dec_first 10 n) as (c & d & E & Hc); [lia|done|]. assert (Hv : digits 0 (dec 10 n ++ r) = n).
  { rewrite digits_app; [|apply dec_digits; lia|done]. apply dec_value. change (10 ^ Z.of_nat 10) with 10000000000. lia. }
  rewrite E in *. unfold scan_u. cbn [skip_space app]. change (is_space 32) with true. cbv iota. assert (Hs : is_space c = false).
  { unfold is_digit, is_space in *. apply andb_true_iff in Hc as [H1%Z.leb_le H2%Z.leb_le]. rewrite (proj2 (Z.eqb_neq c 32)), (proj2 (Z.leb_gt c 13)) by lia. by rewrite andb_false_r. }
  rewrite Hs. assert (Hc2 : 48 <= c) by (unfold is_digit in Hc; apply andb_true_iff in Hc as [H1%Z.leb_le _]; done).
  rewrite (proj2 (Z.eqb_neq c 45)), (proj2 (Z.eqb_neq c 43)) by lia. rewrite Hc. change (c :: d ++ r) with ((c :: d) ++ r). rewrite Hv. by rewrite (proj2 (Z.ltb_ge _ _)) by lia.
Qed.

(** ** A server's reply *)

(** What a server writes: the status line, the length, other header lines, the
    body (none for HEAD). *)
Definition head (n : Z) (extra : list Z) : list Z :=
  bytes_of "HTTP/1.0 200 OK" ++ CRLF ++ bytes_of "Content-Length:" ++ 32 :: dec 10 n ++ CRLF ++ extra ++ CRLF.

(** Other lines: each ends in CRLF, and none is empty. *)
Definition line (l : list Z) : Prop := l <> [] /\ Forall (fun c => c <> 13 /\ c <> 0) l.
Definition lines (ls : list (list Z)) : list Z := concat ((fun l => l ++ CRLF) <$> ls).

(** Looking for the empty line goes over a line that is not empty. *)
Lemma skip_plain i l r : Forall (fun c => c <> 13) l -> find_hdr_end i (l ++ r) = find_hdr_end (i + zlen l) r.
Proof.
  revert i. induction l as [|c l IH]; intros i Hl; cbn [app]; [by rewrite Z.add_0_r|]. apply Forall_cons in Hl as [Hc Hl]. cbn [find_hdr_end]. cbn [prefix CRLF app].
  rewrite (proj2 (Z.eqb_neq 13 c)) by done. cbn [andb]. rewrite IH by done. f_equal. cbn [length]. lia.
Qed.

Lemma hdr_end_line i l r : Forall (fun c => c <> 13) l -> (match r with c :: _ => c <> 13 | [] => True end) -> find_hdr_end i (l ++ CRLF ++ r) = find_hdr_end (i + zlen l + 2) r.
Proof.
  intros Hl Hr. rewrite skip_plain by done. cbn [CRLF app find_hdr_end]. destruct r as [|c r]; [done|].
  unfold CRLF. cbn [prefix]. rewrite !Z.eqb_refl, (proj2 (Z.eqb_neq 13 c)) by done. cbn [andb]. rewrite (proj2 (Z.eqb_neq 13 10)) by done. cbn [andb]. f_equal. lia.
Qed.

Lemma hdr_end_here i r : find_hdr_end i (CRLF ++ CRLF ++ r) = Some (i + 4).
Proof. done. Qed.

Ltac lengths := repeat (rewrite length_app || rewrite length_cons); change (length CRLF) with 2%nat; cbn [length]; lia.

Lemma hdr_end_lines i ls r : Forall line ls -> find_hdr_end i (lines ls ++ CRLF ++ r) = match ls with [] => find_hdr_end i (CRLF ++ r) | _ => Some (i + zlen (lines ls) + 2) end.
Proof.
  revert i. induction ls as [|l ls IH]; intros i Hls; [done|]. apply Forall_cons in Hls as [[Hne Hl] Hls]. unfold lines. cbn [fmap list_fmap concat]. fold (lines ls). rewrite <- !(assoc_L (++)).
  assert (Hp : Forall (fun c => c <> 13) l) by (eapply Forall_impl; [exact Hl|]; by intros c [? _]). destruct ls as [|l2 ls].
  - cbn [lines fmap list_fmap concat app]. rewrite app_nil_r. rewrite skip_plain, hdr_end_here by done. f_equal. lengths.
  - rewrite hdr_end_line; [|done|].
    + rewrite (IH _ Hls). f_equal. lengths.
    + apply Forall_cons in Hls as [[Hne2 Hl2] _]. destruct l2 as [|c l2]; [done|]. cbn. by apply Forall_cons in Hl2 as [[? _] _].
Qed.

Lemma head_end n ls r : 0 <= n -> Forall line ls -> find_hdr_end 0 (head n (lines ls) ++ r) = Some (zlen (head n (lines ls))).
Proof.
  intros Hn Hls. unfold head. rewrite <- !(assoc_L (++)). cbn [app]. rewrite <- !(assoc_L (++)).
  assert (Hd : Forall (fun c => c <> 13) (dec 10 n)) by (eapply Forall_impl; [apply dec_digits; lia|]; intros c Hc ->; done).
  rewrite hdr_end_line; [|by repeat (constructor; [done|])|done].
  change (bytes_of "Content-Length:" ++ 32 :: dec 10 n ++ CRLF ++ lines ls ++ CRLF ++ r) with ((bytes_of "Content-Length:" ++ 32 :: dec 10 n) ++ CRLF ++ lines ls ++ CRLF ++ r).
  assert (Hk : Forall (fun c => c <> 13) (bytes_of "Content-Length:" ++ 32 :: dec 10 n)) by (apply Forall_app; split; [by repeat (constructor; [done|])|by constructor]).
  destruct ls as [|l ls].
  - cbn [lines fmap list_fmap concat app]. rewrite skip_plain, hdr_end_here by done. f_equal. lengths.
  - rewrite hdr_end_line; [|done|].
    + rewrite hdr_end_lines by done. f_equal. lengths.
    + apply Forall_cons in Hls as [[Hne Hl] _]. destruct l as [|c l]; [done|]. cbn. by apply Forall_cons in Hl as [[? _] _].
Qed.

Lemma cstr_app a b : no_nul a -> cstr (a ++ b) = a ++ cstr b.
Proof. induction a as [|c a IH]; [done|]. intros [Hc Ha]%Forall_cons. cbn. rewrite (proj2 (Z.eqb_neq c 0)) by done. by rewrite IH. Qed.

Lemma dec_short k n : (length (dec k n) <= k)%nat.
Proof. revert n. induction k as [|k IH]; intros n; cbn [dec]; [done|]. rewrite length_app. cbn. destruct (n <? 10); cbn; [lia|]. specialize (IH (n / 10)). lia. Qed.

Lemma head_clen n extra : 0 <= n <= U32_MAX -> parse_clen (head n extra) = Some (Some n).
Proof.
  intros Hn. unfold parse_clen, head. set (line1 := bytes_of "HTTP/1.0 200 OK" ++ CRLF). pose proof (dec_short 10 n) as Hd.
  set (A := line1 ++ CLEN ++ 32 :: dec 10 n ++ [13]). set (rest := [10] ++ extra ++ CRLF).
  assert (EA : bytes_of "HTTP/1.0 200 OK" ++ CRLF ++ bytes_of "Content-Length:" ++ 32 :: dec 10 n ++ CRLF ++ extra ++ CRLF = A ++ rest).
  { unfold A, rest, line1. rewrite <- !(assoc_L (++)). do 3 f_equal. cbn [app]. f_equal. by rewrite <- !(assoc_L (++)). }
  assert (HA : no_nul A).
  { unfold A, line1. repeat (apply Forall_app; split); try (by repeat (constructor; [done|])). constructor; [done|]. apply Forall_app. split; [|by constructor].
    eapply Forall_impl; [apply dec_digits; lia|]. intros c Hc ->. done. }
  assert (HlA : (length A <= 255)%nat) by (unfold A; rewrite !length_app; cbn [length]; rewrite length_app; change (length line1) with 17%nat; change (length CLEN) with 15%nat; cbn [length]; lia).
  rewrite EA, take_app_ge, cstr_app by done. set (B := cstr _).
  assert (ES : strstr (A ++ B) CLEN = Some (CLEN ++ 32 :: dec 10 n ++ [13] ++ B)).
  { unfold A. rewrite <- !(assoc_L (++)). cbn [app]. rewrite <- (assoc_L (++)). reflexivity. }
  rewrite ES. change (drop 15 (CLEN ++ 32 :: dec 10 n ++ [13] ++ B)) with (32 :: dec 10 n ++ [13] ++ B). by apply scan_dec.
Qed.

(** The reply in a server's bytes is the body it announced, if it came whole. *)
Lemma reply_head n ls b : 0 <= n <= U32_MAX -> Forall line ls -> reply (head n (lines ls) ++ b) = if n <=? zlen b then Some (take (Z.to_nat n) b) else None.
Proof.
  intros Hn Hls. unfold reply. rewrite head_end by (done || lia). assert (Hs : success (head n (lines ls) ++ b) = true).
  { unfold success. rewrite (proj2 (Z.leb_le 12 _)); [reflexivity|]. unfold head. rewrite !length_app. change (length (bytes_of "HTTP/1.0 200 OK")) with 15%nat. lia. }
  rewrite Hs. cbn [negb]. rewrite Nat2Z.id, take_app_length, drop_app_length, head_clen by done. done.
Qed.

Lemma head_fits n ls b : 0 <= n <= U32_MAX -> Forall line ls -> clen_fits (head n (lines ls) ++ b).
Proof. intros Hn Hls e He. rewrite head_end in He by (done || lia). assert (e = zlen (head n (lines ls))) as -> by congruence. by rewrite Nat2Z.id, take_app_length, head_clen. Qed.

(** A fetch gives back the body a server wrote, however the network cuts it. *)
Lemma http_round_trip p u t a meth body ct req rounds fuel ls b :
  parse_http_uri u HOST_CAP PATH_CAP = Some (Some t) -> p_dns p (u_host t) = Some a -> (u_tls t = true -> p_tls p = true) ->
  request (frame a t meth body ct) (p_tok p) (p_sid p) = Some req -> zlen (req ++ body) <= U32_MAX -> fresh_peer p -> enough rounds fuel p ->
  Forall line ls -> stream_of p = head (zlen b) (lines ls) ++ b -> zlen (stream_of p) <= STREAM_MAX ->
  exists p', pm_metal_net_http_request rounds fuel true meth (Some u) body ct p = Done (IO_OK, Some b, "") p'.
Proof.
  intros Hu Hd Ht Hr Hs Hf He Hls Hst Hm. assert (Hb : 0 <= zlen b <= U32_MAX) by (unfold STREAM_MAX in Hm; rewrite Hst, length_app in Hm; lia).
  destruct (http_do_reads p u t a meth body ct req rounds fuel) as (p' & E & _); try done; [rewrite Hst; by apply head_fits|].
  exists p'. unfold pm_metal_net_http_request. rewrite E, Hst, reply_head by done. rewrite (proj2 (Z.leb_le _ _)) by lia. by rewrite Nat2Z.id, firstn_all.
Qed.

(** Probing never finds what is there.  A server answers HEAD with the
    header of the resource, its length included, and no body; the card waits
    for the body and fails, for every resource that is not empty. *)
Theorem probe_fails_on_length (p : peer) (u : list Z) (t : uri) (a : Z) (req : list Z) (rounds fuel : nat) (n : Z) (ls : list (list Z))
    (Huri : parse_http_uri u HOST_CAP PATH_CAP = Some (Some t)) (Hdns : p_dns p (u_host t) = Some a) (Htls : u_tls t = true -> p_tls p = true)
    (Hreq : request (frame a t (bytes_of "HEAD") [] None) (p_tok p) (p_sid p) = Some req) (Hfresh : fresh_peer p) (Henough : enough rounds fuel p)
    (Hn : 0 < n <= U32_MAX) (Hls : Forall line ls) (Hstream : stream_of p = head n (lines ls)) (Hsize : zlen (stream_of p) <= STREAM_MAX) :
  exists p', pm_metal_net_http_probe rounds fuel true (Some u) p = Done IO_ERR p'.
Proof.
  assert (Hst : stream_of p = head n (lines ls) ++ []) by by rewrite app_nil_r.
  assert (Hrq : zlen (req ++ []) <= U32_MAX).
  { rewrite app_nil_r. apply request_fits in Hreq. unfold REQ_CAP in Hreq. lia. }
  destruct (http_do_reads p u t a (bytes_of "HEAD") [] None req rounds fuel) as (p' & E & _); try done; [rewrite Hst; apply head_fits; [lia|done]|].
  exists p'. unfold pm_metal_net_http_probe. rewrite E, Hst, reply_head by (done || lia). by rewrite (proj2 (Z.leb_gt n _)) by (cbn; lia).
Qed.

(** ** A printed URI is read back *)

Lemma until_app c l r : Forall (fun x => x <> c) l -> until c (l ++ r) = let '(a, b) := until c r in (l ++ a, b).
Proof. induction l as [|x l IH]; intros Hl; cbn [app until]; [by destruct (until c r)|]. apply Forall_cons in Hl as [Hx Hl]. rewrite (proj2 (Z.eqb_neq x c)), (IH Hl) by done. by destruct (until c r). Qed.

Definition print_uri (x : uri) : list Z := (if u_tls x then HTTPS else HTTP) ++ u_host x ++ 58 :: dec 10 (u_port x) ++ u_path x.

Lemma parse_print_uri x rest : u_path x = 47 :: rest -> Forall (fun c => c <> 47 /\ c <> 58) (u_host x) -> 0 < zlen (u_host x) < HOST_CAP -> zlen (u_path x) < PATH_CAP -> 1 <= u_port x <= 65535 ->
  parse_http_uri (print_uri x) HOST_CAP PATH_CAP = Some (Some x).
Proof.
  intros Hp Hh Hl Hpl Hport. assert (Hs : Forall (fun c => c <> 47) (u_host x ++ 58 :: dec 10 (u_port x))).
  { apply Forall_app. split; [eapply Forall_impl; [exact Hh|]; by intros c []|]. constructor; [done|]. eapply Forall_impl; [apply dec_digits; lia|]. intros c Hc ->. done. }
  assert (Hsc : scan_u (dec 10 (u_port x) ++ 47 :: rest) = Some (Some (u_port x))) by exact (scan_dec (u_port x) (47 :: rest) ltac:(lia) eq_refl).
  assert (Hu : until 47 (u_host x ++ 58 :: dec 10 (u_port x) ++ u_path x) = (u_host x ++ 58 :: dec 10 (u_port x), Some (47 :: rest))).
  { rewrite Hp. change (u_host x ++ 58 :: dec 10 (u_port x) ++ 47 :: rest) with (u_host x ++ (58 :: dec 10 (u_port x)) ++ 47 :: rest). rewrite (assoc_L (++)), until_app by done. cbn. by rewrite app_nil_r. }
  assert (Hc : until 58 (u_host x ++ 58 :: dec 10 (u_port x)) = (u_host x, Some (58 :: dec 10 (u_port x)))).
  { rewrite until_app; [cbn; by rewrite app_nil_r|]. eapply Forall_impl; [exact Hh|]. by intros c []. }
  unfold parse_http_uri, print_uri. assert (Epre : (if prefix HTTPS ((if u_tls x then HTTPS else HTTP) ++ u_host x ++ 58 :: dec 10 (u_port x) ++ u_path x)
      then Some (drop 8 ((if u_tls x then HTTPS else HTTP) ++ u_host x ++ 58 :: dec 10 (u_port x) ++ u_path x), 443, true)
      else if prefix HTTP ((if u_tls x then HTTPS else HTTP) ++ u_host x ++ 58 :: dec 10 (u_port x) ++ u_path x)
           then Some (drop 7 ((if u_tls x then HTTPS else HTTP) ++ u_host x ++ 58 :: dec 10 (u_port x) ++ u_path x), 80, false) else None)
     = Some (u_host x ++ 58 :: dec 10 (u_port x) ++ u_path x, if u_tls x then 443 else 80, u_tls x)) by by destruct (u_tls x).
  rewrite Epre, Hu, Hc. cbn [tail default id]. rewrite Hsc. rewrite (proj2 (Z.eqb_neq (u_port x) 0)), (proj2 (Z.ltb_ge 65535 _)) by lia. cbn [orb].
  rewrite (proj2 (Z.eqb_neq (zlen (u_host x)) 0)), (proj2 (Z.leb_gt HOST_CAP _)) by lia. cbn [orb]. rewrite Hp in Hpl. rewrite (proj2 (Z.leb_gt PATH_CAP _)) by lia. rewrite <- Hp. by destruct x.
Qed.

(** ** A request to a small server *)

Definition site := bytes_of "http://metal:8080/index".
Definition ok5 := bytes_of "HTTP/1.0 200 OK" ++ CRLF ++ bytes_of "Content-Length: 5" ++ CRLF ++ CRLF.
(** Takes ten bytes, then nothing once, then the rest; answers in five pieces. *)
Definition small_server (pieces : list (list Z)) : peer :=
  Peer (fun _ => Some 2130706433) false None None true 0 [10; 0] [] pieces false false.
Definition cut : list (list Z) := [take 20 ok5; []; drop 20 ok5 ++ bytes_of "he"; bytes_of "l"; bytes_of "lo"].
Definition site_uri : uri := Uri (bytes_of "metal") 8080 (bytes_of "/index") false.
Definition site_req (m : string) : list Z := bytes_of m ++ bytes_of " /index HTTP/1.0" ++ CRLF ++ bytes_of "Host: metal" ++ CRLF ++ bytes_of "Connection: close" ++ CRLF ++ CRLF.

Lemma fetch_any_stream_witness : exists p',
  pm_metal_net_http_request 20 200 true (bytes_of "GET") (Some site) [] None (small_server cut) = Done (IO_OK, Some (bytes_of "hello"), "") p' /\
  p_sent p' = site_req "GET" ++ [] /\ p_open p' = false /\ p_session p' = false.
Proof.
  refine (fetch_any_stream (small_server cut) site site_uri 2130706433 (bytes_of "GET") [] None (site_req "GET") 20 200 _ _ _ _ _ _ _ _ _).
  - vm_compute. reflexivity.
  - reflexivity.
  - discriminate.
  - vm_compute. reflexivity.
  - vm_compute. discriminate.
  - split; [done|]. split; [done|]. repeat (constructor; [done|]). constructor.
  - intros e He. assert (e = 38) as -> by (revert He; vm_compute; congruence). vm_compute. discriminate.
  - vm_compute. discriminate.
  - vm_compute. lia.
Defined.

Definition probed : peer := small_server [ok5].
Lemma probe_fails_on_length_witness : exists p', pm_metal_net_http_probe 20 200 true (Some site) probed = Done IO_ERR p'.
Proof.
  refine (probe_fails_on_length probed site site_uri 2130706433 (site_req "HEAD") 20 200 5 [] _ _ _ _ _ _ _ _ _ _).
  - vm_compute. reflexivity.
  - reflexivity.
  - discriminate.
  - vm_compute. reflexivity.
  - split; [done|]. split; [done|]. repeat (constructor; [done|]). constructor.
  - vm_compute. lia.
  - lia.
  - constructor.
  - vm_compute. reflexivity.
  - vm_compute. discriminate.
Defined.

(** A [Content-Length] in another spelling, or past the first 255 bytes of the
    header, is not seen: the reply then ends with the stream. *)
Example clen_other_case : parse_clen (bytes_of "HTTP/1.0 200 OK" ++ CRLF ++ bytes_of "Content-length: 5" ++ CRLF ++ CRLF) = Some None.
Proof. vm_compute. reflexivity. Qed.

(** Another header that ends in the same words is taken for it. *)
Example clen_other_header : parse_clen (bytes_of "HTTP/1.0 200 OK" ++ CRLF ++ bytes_of "X-Old-Content-Length: 3" ++ CRLF ++ bytes_of "Content-Length: 5" ++ CRLF ++ CRLF) = Some (Some 3).
Proof. vm_compute. reflexivity. Qed.

(** A length that does not fit an unsigned: the scan is undefined. *)
Example clen_too_long : http_do 20 200 true None (Some site) [] None
  (small_server [bytes_of "HTTP/1.0 200 OK" ++ CRLF ++ bytes_of "Content-Length: 4294967296" ++ CRLF ++ CRLF]) = Fault.
Proof. vm_compute. reflexivity. Qed.
End HttpFetch.
