(* ===== verification/Fwd.v ===== *)
(** * The fwd card: guest listeners mirrored on host sockets

    src/.../metal/net/fwd/__impl__.c, the branch of a seat that has host
    sockets.  A mirror [ep] is pumped by a thread of its own: [fwd_round] is one
    round of its loop.  Host sockets, the guest's sockets, the thread and the
    arena are the operations of [FwdOps].  Giving back a block that the arena
    has not handed out, and an access outside a buffer, are [Fault]s. *)
From S2P Require Import Prelude.

(** [host_poll fds]: the return of [ppoll] once it is not [EINTR], and the
    [revents].  A failing [host_send] or [host_recv] comes with its [errno].
    [ep_grow t n]: a table of more than [n] pointers in the place of [t].  [junk a k]:
    what word [k] of fresh block [a] happens to hold. *)
Class FwdOps (E : Type) := {
  host_socket : E -> E * Z;
  host_bind : Z -> Z -> E -> E * Z;
  host_listen : Z -> Z -> E -> E * Z;
  host_poll : list (Z * Z) -> Z -> E -> E * (Z * list Z);
  host_accept : Z -> E -> E * Z;
  host_send : Z -> list Z -> E -> E * (Z * Z);
  host_recv : Z -> Z -> E -> E * (Z * list Z * Z);
  host_close : Z -> E -> E;
  guest_pump : E -> E;
  guest_socket : E -> E * Z;
  guest_connect : Z -> Z -> E -> E * Z;
  guest_established : Z -> E -> E * Z;
  guest_send : Z -> list Z -> E -> E * Z;
  guest_recv : Z -> Z -> E -> E * (Z * list Z);
  guest_close : Z -> E -> E;
  start_thread : E -> E * bool;
  join_thread : E -> E;
  fwd_alloc : Z -> E -> E * Z;
  ep_grow : Z -> nat -> E -> E * option (Z * nat);
  junk : Z -> nat -> Z;
}.

Module Fwd.
Import Store.
Local Open Scope metal_scope.

(** ** Data *)

Definition PM_METAL_FWD_CONN_DEFAULT := 8.
Definition PM_METAL_FWD_CHUNK_DEFAULT := 8192.
Definition POLLIN := 1.
Definition POLLOUT := 4.
Definition POLLERR := 8.
Definition POLLHUP := 16.
Definition EINTR := 4.
Definition EBADF := 9.
Definition EAGAIN := 11.
Definition ECONNRESET := 104.
Definition ENOTCONN := 107.

(** [pend] is the address of the holding area, [held] its first [pend_len]
    bytes. *)
Record conn := Conn { host_fd : Z; guest_fd : Z; connecting : bool; pend : Z; held : list Z; pend_off : Z }.
Record ep := Ep { e_addr : Z; e_port : Z; listen_fd : Z; running : bool; active : bool; a_conn : Z; e_conn : list conn; chunk : Z; a_hostbuf : Z; a_pf : Z; a_pfi : Z }.

Definition set_fds h g c := Conn h g (connecting c) (pend c) (held c) (pend_off c).
Definition set_connecting v c := Conn (host_fd c) (guest_fd c) v (pend c) (held c) (pend_off c).
Definition set_held b o c := Conn (host_fd c) (guest_fd c) (connecting c) (pend c) b o.
Definition set_conns l e := Ep (e_addr e) (e_port e) (listen_fd e) (running e) (active e) (a_conn e) l (chunk e) (a_hostbuf e) (a_pf e) (a_pfi e).
Definition set_running r a e := Ep (e_addr e) (e_port e) (listen_fd e) r a (a_conn e) (e_conn e) (chunk e) (a_hostbuf e) (a_pf e) (a_pfi e).
Definition set_listen fd e := Ep (e_addr e) (e_port e) fd (running e) (active e) (a_conn e) (e_conn e) (chunk e) (a_hostbuf e) (a_pf e) (a_pfi e).

Section WithHost.
Context {E : Type} `{!FwdOps E}.

(** ** The pump, over its own mirror *)

Record pw := PW { env : E; me : ep }.
Definition P := M pw.
Definition on_env {A} (op : E -> E * A) : P A := fun w => let '(e, a) := op (env w) in Done a (PW e (me w)).
Definition on_env_ (op : E -> E) : P unit := modify (fun w => PW (op (env w)) (me w)).
Definition when {S} (b : bool) (m : M S unit) : M S unit := if b then m else ret tt.

Definition get_conn (i : nat) : P conn := fun w => match e_conn (me w) !! i with Some c => Done c w | None => Fault end.
Definition upd_conn (i : nat) (g : conn -> conn) : P unit := modify (fun w => PW (env w) (set_conns (alter g i (e_conn (me w))) (me w))).

Definition fwd_guest_close (i : nat) : P unit :=
  c <- get_conn i ;; l <- gets (fun w => listen_fd (me w)) ;;
  if host_fd c =? l then upd_conn i (set_fds (-1) (-1)) else
  when (0 <=? guest_fd c) (on_env_ (guest_close (guest_fd c))) ;;
  upd_conn i (fun c => set_held [] 0 (set_fds (-1) (-1) c)).

(** [close(c->host_fd); fwd_guest_close(e, c);] *)
Definition hang_up (i : nat) : P unit := c <- get_conn i ;; on_env_ (host_close (host_fd c)) ;; fwd_guest_close i.

Fixpoint vacant_conn (i : nat) (l : list conn) : option nat :=
  match l with [] => None | c :: t => if host_fd c <? 0 then Some i else vacant_conn (S i) t end.

Fixpoint fwd_accept (fuel : nat) : P unit :=
  match fuel with
  | O => nofuel
  | S n =>
      o <- gets (fun w => vacant_conn 0 (e_conn (me w))) ;;
      match o with
      | None => ret tt
      | Some i =>
          l <- gets (fun w => listen_fd (me w)) ;; port <- gets (fun w => e_port (me w)) ;;
          h <- on_env (host_accept l) ;;
          if h <? 0 then ret tt else
          g <- on_env guest_socket ;;
          crc <- (if g <? 0 then ret (-99) else on_env (guest_connect g port)) ;;
          if (g <? 0) || (crc <? 0) then
            when (0 <=? g) (on_env_ (guest_close g)) ;; on_env_ (host_close h) ;; fwd_accept n
          else upd_conn i (fun c => set_connecting (crc =? 0) (set_fds h g c)) ;; fwd_accept n
      end
  end.

(** The bytes moved, or -1; [moved] is what earlier rounds of the loop did. *)
Fixpoint flush_loop (fuel : nat) (i : nat) (moved : Z) : P Z :=
  c <- get_conn i ;;
  if pend_off c <? zlen (held c) then
    match fuel with
    | O => nofuel
    | S n =>
        we <- on_env (host_send (host_fd c) (drop (Z.to_nat (pend_off c)) (held c))) ;;
        let '(w, errno) := we in
        if 0 <? w then upd_conn i (fun c => set_held (held c) (u32 (pend_off c + w)) c) ;; flush_loop n i (moved + w) else
        if (w <? 0) && ((errno =? EAGAIN) || (errno =? EINTR)) then ret moved else ret (-1)
    end
  else upd_conn i (set_held [] 0) ;; ret moved.
Definition fwd_flush (i : nat) : P Z := c <- get_conn i ;; flush_loop (length (held c)) i 0.

(** Guest to host, with [guard] rounds left; the answer is [worked]. *)
Fixpoint drain (guard : nat) (i : nat) (worked : bool) : P bool :=
  match guard with
  | O => ret worked
  | S g =>
      w <- fwd_flush i ;;
      if w <? 0 then hang_up i ;; ret worked else
      let worked := worked || (0 <? w) in
      c <- get_conn i ;;
      if negb (zlen (held c) =? 0) then ret worked else
      k <- gets (fun w => chunk (me w)) ;;
      nb <- on_env (guest_recv (guest_fd c) k) ;;
      let '(n, b) := nb in
      if n <=? 0 then when (n =? -2) (hang_up i) ;; ret worked
      else b <- chk (slice b 0 n) ;;
           if k <? n then fault else
           upd_conn i (set_held b 0) ;; drain g i true
  end.

(** Host to guest: whether this connection's turn is over, and [worked]. *)
Definition from_host (i : nat) (revents : Z) : P (bool * bool) :=
  c <- get_conn i ;;
  if (Z.land revents (Z.lor POLLIN (Z.lor POLLHUP POLLERR)) =? 0) || connecting c then ret (false, false) else
  k <- gets (fun w => chunk (me w)) ;;
  r <- on_env (host_recv (host_fd c) k) ;;
  let '(n, b, errno) := r in
  if 0 <? n then
    b <- chk (slice b 0 n) ;;
    if k <? n then fault else
    on_env (guest_send (guest_fd c) b) ;; ret (false, true)
  else if n =? 0 then hang_up i ;; ret (true, false)
  else if (errno =? EBADF) || (errno =? ECONNRESET) || (errno =? ENOTCONN) then hang_up i ;; ret (true, false)
  else ret (false, false).

(** One connection's part of a round; [idx] its place in the poll set. *)
Definition serve_conn (i : nat) (idx : Z) (revents : list Z) : P bool :=
  c <- get_conn i ;;
  if host_fd c <? 0 then ret false else
  over <- (if connecting c then
             st <- on_env (guest_established (guest_fd c)) ;;
             if negb (st =? 1) then when (st <? 0) (hang_up i) ;; ret true
             else upd_conn i (set_connecting false) ;; ret false
           else ret false) ;;
  if over then ret false else
  rw <- (if 0 <? idx then rv <- chk (rd revents idx) ;; from_host i rv else ret (false, false)) ;;
  let '(over, worked) := rw in
  if over : bool then ret worked else
  c <- get_conn i ;;
  if (0 <=? guest_fd c) && negb (connecting c) then drain 64 i worked else ret worked.

Fixpoint serve_all (i : nat) (pfi : list Z) (revents : list Z) (worked : bool) : P bool :=
  match pfi with
  | [] => ret worked
  | idx :: t => w <- serve_conn i idx revents ;; serve_all (S i) t revents (worked || w)
  end.

(** The poll set behind the listener, and each connection's place in it. *)
Fixpoint poll_set (n : Z) (l : list conn) : list (Z * Z) * list Z :=
  match l with
  | [] => ([], [])
  | c :: t =>
      if 0 <=? host_fd c then
        let '(pf, pfi) := poll_set (n + 1) t in
        ((host_fd c, if pend_off c <? zlen (held c) then Z.lor POLLIN POLLOUT else POLLIN) :: pf, n :: pfi)
      else let '(pf, pfi) := poll_set n t in (pf, -1 :: pfi)
  end.

(** The wait after a round: none after work, else 200 us doubled up to 50 ms. *)
Definition next_wait (worked : bool) (wait : Z) : Z :=
  if worked then 0 else if wait =? 0 then 200000 else
  if wait <? 50000000 then (if 50000000 <? wait * 2 then 50000000 else wait * 2) else wait.

(** One round: [None] when the poll failed, else the next wait. *)
Definition fwd_round (fuel : nat) (wait_ns : Z) : P (option Z) :=
  on_env_ guest_pump ;;
  l <- gets (fun w => listen_fd (me w)) ;;
  s <- gets (fun w => poll_set 1 (e_conn (me w))) ;;
  let '(pf, pfi) := s in
  rr <- on_env (host_poll ((l, POLLIN) :: pf) wait_ns) ;;
  let '(r, revents) := rr in
  if r <? 0 then ret None else
  r0 <- chk (rd revents 0) ;;
  when ((0 <? r) && negb (r0 =? 0)) (fwd_accept fuel) ;;
  worked <- serve_all 0 pfi revents false ;;
  ret (Some (next_wait worked wait_ns)).

(** [e->running] is cleared by another thread: [live] is what is read. *)
Fixpoint fwd_pump (fuel : nat) (live : list bool) (wait_ns : Z) : P unit :=
  match live with
  | true :: t => o <- fwd_round fuel wait_ns ;; match o with Some w => fwd_pump fuel t w | None => ret tt end
  | _ => ret tt
  end.

(** ** The card *)

(** [s_table]: the address of the table [s_ep]. *)
Record fwd := FW { s_env : E; s_arena : bool; s_table : Z; s_ep : list (option ep); s_mirror_used : Z; blocks : gset Z }.
Definition F := M fwd.
Definition on_fenv {A} (op : E -> E * A) : F A := fun w => let '(e, a) := op (s_env w) in Done a (FW e (s_arena w) (s_table w) (s_ep w) (s_mirror_used w) (blocks w)).
Definition on_fenv_ (op : E -> E) : F unit := modify (fun w => FW (op (s_env w)) (s_arena w) (s_table w) (s_ep w) (s_mirror_used w) (blocks w)).
Definition set_blocks v w := FW (s_env w) (s_arena w) (s_table w) (s_ep w) (s_mirror_used w) v.
Definition set_eps v w := FW (s_env w) (s_arena w) (s_table w) v (s_mirror_used w) (blocks w).
Definition set_used v w := FW (s_env w) (s_arena w) (s_table w) (s_ep w) v (blocks w).

Definition mem_alloc (n : Z) : F Z := a <- on_fenv (fwd_alloc n) ;; modify (fun w => if a =? 0 then w else set_blocks ({[a]} ∪ blocks w) w) ;; ret a.
Definition mem_free (a : Z) : F unit := fun w => if bool_decide (a ∈ blocks w) then Done tt (set_blocks (blocks w ∖ {[a]}) w) else Fault.
Definition free_ptr (a : Z) : F unit := when (negb (a =? 0)) (mem_free a).

Fixpoint each {A} (l : list A) (g : A -> F unit) : F unit := match l with [] => ret tt | x :: t => g x ;; each t g end.

Definition pm_metal_fwd_init (arena : bool) : F Z := fun w => if negb arena then Done (-1) w else Done 0 (FW (s_env w) true 0 [] 0 (blocks w)).

Definition fwd_ep_release (i : nat) : F unit :=
  o <- gets (fun w => s_ep w !! i) ;;
  match o with
  | Some (Some e) =>
      when (running e && active e) (on_fenv_ join_thread) ;;
      when (0 <=? listen_fd e) (on_fenv_ (host_close (listen_fd e))) ;;
      each (e_conn e) (fun c =>
        when (0 <=? host_fd c) (on_fenv_ (host_close (host_fd c))) ;;
        when (0 <=? guest_fd c) (on_fenv_ (guest_close (guest_fd c))) ;;
        free_ptr (pend c)) ;;
      free_ptr (a_conn e) ;; free_ptr (a_pf e) ;; free_ptr (a_pfi e) ;; free_ptr (a_hostbuf e) ;;
      modify (fun w => set_eps (<[i := None]> (s_ep w)) w) ;;
      mem_free (e_addr e) ;;
      modify (fun w => if s_mirror_used w =? 0 then w else set_used (s_mirror_used w - 1) w)
  | _ => ret tt
  end.

Definition pm_metal_fwd_deinit : F unit :=
  n <- gets (fun w => length (s_ep w)) ;;
  each (seq 0 n) fwd_ep_release ;;
  t <- gets s_table ;; free_ptr t ;;
  modify (fun w => FW (s_env w) false 0 [] 0 (blocks w)).

(** The holding areas, in order, until one cannot be had; with the rest 0. *)
Fixpoint alloc_pends (k : nat) (chunk : Z) : F (list Z * bool) :=
  match k with
  | O => ret ([], true)
  | S n => a <- mem_alloc chunk ;;
           if a =? 0 then ret (repeat 0 (S n), false) else
           r <- alloc_pends n chunk ;; let '(l, ok) := r in ret (a :: l, ok)
  end.

(** Non-blocking, on every address; its options' results are not looked at. *)
Definition fwd_open_listener (port : Z) : F Z :=
  fd <- on_fenv host_socket ;;
  if fd <? 0 then ret (-1) else
  rc <- on_fenv (host_bind fd port) ;;
  rc <- (if rc <? 0 then ret rc else on_fenv (host_listen fd 16)) ;;
  if rc <? 0 then on_fenv_ (host_close fd) ;; ret (-1) else ret fd.

(** Where a failing [fwd_ep_new] ends: what was had goes back; [pends] is what the areas' pointers hold. *)
Definition fwd_undo (a conn pf pfi buf : Z) (pends : list Z) : F (option ep) :=
  when (negb (conn =? 0)) (each pends free_ptr) ;;
  free_ptr conn ;; free_ptr pf ;; free_ptr pfi ;; free_ptr buf ;; mem_free a ;; ret None.

Definition fwd_ep_new (conn_soft chunk_soft port : Z) : F (option ep) :=
  let conns := if negb (conn_soft =? 0) then conn_soft else PM_METAL_FWD_CONN_DEFAULT in
  let chunk := if negb (chunk_soft =? 0) then chunk_soft else PM_METAL_FWD_CHUNK_DEFAULT in
  a <- mem_alloc 64 ;;
  if a =? 0 then ret None else
  conn <- mem_alloc (conns * 32) ;; pf <- mem_alloc ((conns + 1) * 8) ;; pfi <- mem_alloc (conns * 4) ;; buf <- mem_alloc chunk ;;
  let n := Z.to_nat conns in
  if (conn =? 0) || (pf =? 0) || (pfi =? 0) || (buf =? 0) then fwd_undo a conn pf pfi buf (junk conn <$> seq 0 n) else
  r <- alloc_pends n chunk ;;
  let '(pends, ok) := r in
  if negb ok then fwd_undo a conn pf pfi buf pends else
  ret (Some (Ep a port (-1) false false conn ((fun p => Conn (-1) (-1) false p [] 0) <$> pends) chunk buf pf pfi)).

Fixpoint find_ep (i : nat) (f : option ep -> bool) (l : list (option ep)) : option nat :=
  match l with [] => None | o :: t => if f o then Some i else find_ep (S i) f t end.
Definition mirrors (port : Z) (o : option ep) : bool := match o with Some e => running e && (e_port e =? port) | None => false end.
Definition unused (o : option ep) : bool := match o with None => true | Some _ => false end.

Definition pm_metal_fwd_listen (conn_soft chunk_soft port : Z) : F Z :=
  have <- gets s_arena ;;
  if negb have then ret (-1) else
  l <- gets s_ep ;;
  match find_ep 0 (mirrors port) l with
  | Some i => ret (Z.of_nat i)
  | None =>
      o <- match find_ep 0 unused l with
           | Some i => ret (Some i)
           | None => t <- gets s_table ;; g <- on_fenv (ep_grow t (length l)) ;;
                     match g with
                     | None => ret None
                     | Some (t', n) => modify (fun w => FW (s_env w) (s_arena w) t' (l ++ repeat None (n - length l)) (s_mirror_used w) ({[t']} ∪ blocks w ∖ {[t]})) ;; ret (Some (length l))
                     end
           end ;;
      match o with
      | None => ret (-1)
      | Some slot =>
          o <- fwd_ep_new conn_soft chunk_soft port ;;
          match o with
          | None => ret (-1)
          | Some e =>
              fd <- fwd_open_listener port ;;
              let put e := modify (fun w => set_eps (<[slot := Some e]> (s_ep w)) w) in
              put (set_listen fd e) ;; modify (fun w => set_used (u32 (s_mirror_used w + 1)) w) ;;
              if fd <? 0 then fwd_ep_release slot ;; ret (-1) else
              ok <- on_fenv start_thread ;;
              if negb ok then fwd_ep_release slot ;; ret (-1) else
              put (set_running true true (set_listen fd e)) ;; ret (Z.of_nat slot)
          end
      end
  end.

Definition pm_metal_fwd_count : F Z :=
  gets (fun w => zlen (List.filter (fun o => match o with Some e => running e | None => false end) (s_ep w))).
Definition pm_metal_fwd_status (id : Z) : F Z :=
  gets (fun w => if id <? 0 then 0 else match s_ep w !! Z.to_nat id with Some (Some e) => b2z (running e) | _ => 0 end).
Definition pm_metal_fwd_stop (id : Z) : F Z :=
  n <- gets (fun w => zlen (s_ep w)) ;;
  if (id <? 0) || (n <=? id) then ret (-1) else fwd_ep_release (Z.to_nat id) ;; ret 0.
End WithHost.
End Fwd.
