(* ===== verification/FwdSpec.v ===== *)
(** * A mirror and its connections, on any host

    The host and the guest's stack answer as they like; what they are asked is
    written down.  Whatever they answer, a mirror neither loses nor repeats a
    byte of a download, and every socket it opens it closes once. *)
From S2P Require Import Prelude Fwd.

Module FwdSpec.
Import Store Fwd.
Local Open Scope metal_scope.

(** What the host and the guest answer, by the number of the question. *)
Record oracle := Oracle {
  q_poll : nat -> Z * list Z; q_backlog : nat -> nat; q_accept : nat -> Z; q_send : nat -> Z * Z; q_recv : nat -> Z * list Z * Z;
  q_socket : nat -> Z; q_connect : nat -> Z; q_established : nat -> Z; q_gsend : nat -> Z; q_grecv : nat -> Z * list Z;
  q_host_socket : nat -> Z; q_bind : nat -> Z; q_thread : nat -> bool; q_alloc : nat -> bool; q_grow : nat -> option nat; q_junk : Z -> nat -> Z }.

(** [opened], [gopened]: the sockets the mirror has open.  [got], [put]: by guest socket what
    was read from it, by host socket what was written.  [up_got], [up_put]: the
    same of the other direction.  [bad]: a socket was used that is not in use. *)
Record seat := Seat { tick : nat; backlog : nat; opened : gset Z; gopened : gset Z; got : gmap Z (list Z); put : gmap Z (list Z);
  up_got : gmap Z (list Z); up_put : gmap Z (list Z); bad : bool }.

Section ops.
Variable q : oracle.

Definition next (s : seat) : seat := Seat (S (tick s)) (backlog s) (opened s) (gopened s) (got s) (put s) (up_got s) (up_put s) (bad s).
Definition log (m : gmap Z (list Z)) (fd : Z) (b : list Z) : gmap Z (list Z) := <[fd := default [] (m !! fd) ++ b]> m.
Definition host_ok (fd : Z) (s : seat) : bool := bool_decide (fd ∈ opened s).
Definition guest_ok (fd : Z) (s : seat) : bool := bool_decide (fd ∈ gopened s).
Definition flag (ok : bool) (s : seat) : seat := Seat (tick s) (backlog s) (opened s) (gopened s) (got s) (put s) (up_got s) (up_put s) (bad s || negb ok).
Definition set_opened v s := Seat (tick s) (backlog s) v (gopened s) (got s) (put s) (up_got s) (up_put s) (bad s).
Definition set_gopened v s := Seat (tick s) (backlog s) (opened s) v (got s) (put s) (up_got s) (up_put s) (bad s).
Definition set_got v s := Seat (tick s) (backlog s) (opened s) (gopened s) v (put s) (up_got s) (up_put s) (bad s).
Definition set_put v s := Seat (tick s) (backlog s) (opened s) (gopened s) (got s) v (up_got s) (up_put s) (bad s).
Definition set_up_got v s := Seat (tick s) (backlog s) (opened s) (gopened s) (got s) (put s) v (up_put s) (bad s).
Definition set_up_put v s := Seat (tick s) (backlog s) (opened s) (gopened s) (got s) (put s) (up_got s) v (bad s).
Definition set_backlog v s := Seat (tick s) v (opened s) (gopened s) (got s) (put s) (up_got s) (up_put s) (bad s).

(** A new socket is not one in use.  Blocks are numbered by the time they are had. *)
Definition seat_accept (s : seat) : seat * Z :=
  let h := q_accept q (tick s) in
  match backlog s with
  | O => (next s, -1)
  | S n => if (h <? 0) || host_ok h s then (next (set_backlog n s), -1)
           else (set_put (<[h := []]> (put s)) (set_opened ({[h]} ∪ opened s) (next (set_backlog n s))), h)
  end.
Definition seat_socket (s : seat) : seat * Z :=
  let g := q_socket q (tick s) in
  if (g <? 0) || guest_ok g s then (next s, -1) else (set_got (<[g := []]> (got s)) (set_gopened ({[g]} ∪ gopened s) (next s)), g).
Definition seat_host_socket (s : seat) : seat * Z :=
  let fd := q_host_socket q (tick s) in
  if (fd <? 0) || host_ok fd s then (next s, -1) else (set_opened ({[fd]} ∪ opened s) (next s), fd).
Definition seat_send (fd : Z) (b : list Z) (s : seat) : seat * (Z * Z) :=
  let '(w, errno) := q_send q (tick s) in
  let w := Z.min w (zlen b) in
  (flag (host_ok fd s) (set_put (log (put s) fd (take (Z.to_nat w) b)) (next s)), (w, errno)).
Definition seat_recv (fd n : Z) (s : seat) : seat * (Z * list Z * Z) :=
  let '(r, b, errno) := q_recv q (tick s) in
  let b := take (Z.to_nat n) b in
  (flag (host_ok fd s) (set_up_got (log (up_got s) fd b) (next s)), (if bool_decide (b = []) then Z.min r 0 else zlen b, b, errno)).
Definition seat_gsend (fd : Z) (b : list Z) (s : seat) : seat * Z :=
  let w := Z.min (q_gsend q (tick s)) (zlen b) in
  (flag (guest_ok fd s) (set_up_put (log (up_put s) fd (take (Z.to_nat w) b)) (next s)), w).
Definition seat_grecv (fd n : Z) (s : seat) : seat * (Z * list Z) :=
  let '(r, b) := q_grecv q (tick s) in
  let b := take (Z.to_nat n) b in
  (flag (guest_ok fd s) (set_got (log (got s) fd b) (next s)), (if bool_decide (b = []) then Z.min r 0 else zlen b, b)).

#[export] Instance seat_ops : FwdOps seat := {|
  host_socket := seat_host_socket;
  host_bind fd _ s := (flag (host_ok fd s) (next s), q_bind q (tick s));
  host_listen fd _ s := (flag (host_ok fd s) (next s), q_bind q (tick s));
  host_poll fds _ s := let '(r, l) := q_poll q (tick s) in (set_backlog (q_backlog q (tick s)) (next s), (r, take (length fds) (l ++ repeat 0 (length fds))));
  host_accept _ := seat_accept;
  host_send := seat_send;
  host_recv := seat_recv;
  host_close fd s := flag (host_ok fd s) (set_opened (opened s ∖ {[fd]}) s);
  guest_pump := next;
  guest_socket := seat_socket;
  guest_connect fd _ s := (flag (guest_ok fd s) (next s), q_connect q (tick s));
  guest_established fd s := (flag (guest_ok fd s) (next s), q_established q (tick s));
  guest_send := seat_gsend;
  guest_recv := seat_grecv;
  guest_close fd s := flag (guest_ok fd s) (set_gopened (gopened s ∖ {[fd]}) s);
  start_thread s := (next s, q_thread q (tick s));
  join_thread s := s;
  fwd_alloc _ s := (next s, if q_alloc q (tick s) then Z.of_nat (S (tick s)) else 0);
  ep_grow _ n s := (next s, match q_grow q (tick s) with Some k => Some (Z.of_nat (S (tick s)), (n + S k)%nat) | None => None end);
  junk := q_junk q |}.

(** ** The invariant of a mirror *)

Abbreviation W := (@pw seat).
Definition busy (c : conn) : bool := 0 <=? host_fd c.
Definition fds (pj : conn -> Z) (l : list conn) : list Z := pj <$> List.filter busy l.
Abbreviation host_fds := (fds host_fd).
Abbreviation guest_fds := (fds guest_fd).

(** A connection in use: what was read from the guest is what was written to
    the host and then what is held. *)
Definition conn_ok (s : seat) (c : conn) : Prop :=
  if busy c then 0 <= guest_fd c /\ 0 <= pend_off c <= zlen (held c) /\
    got s !! guest_fd c = Some (default [] (put s !! host_fd c) ++ drop (Z.to_nat (pend_off c)) (held c))
  else held c = [] /\ pend_off c = 0 /\ guest_fd c = -1 /\ host_fd c = -1.

Record minv (w : W) : Prop := {
  mi_listen : 0 <= listen_fd (me w);
  mi_chunk : 0 < chunk (me w) <= U32_MAX;
  mi_conns : Forall (conn_ok (env w)) (e_conn (me w));
  mi_held : Forall (fun c => zlen (held c) <= chunk (me w)) (e_conn (me w));
  mi_hosts : NoDup (listen_fd (me w) :: host_fds (e_conn (me w)));
  mi_guests : NoDup (guest_fds (e_conn (me w)));
  mi_opened : opened (env w) = list_to_set (listen_fd (me w) :: host_fds (e_conn (me w)));
  mi_gopened : gopened (env w) = list_to_set (guest_fds (e_conn (me w)));
  mi_good : bad (env w) = false;
}.

Lemma alter_insert {A} (g : A -> A) (l : list A) (i : nat) x : l !! i = Some x -> alter g i l = <[i := g x]> l.
Proof. revert i. induction l as [|y l IH]; intros [|i] Hx; [done..|by injection Hx as ->|]. cbn. f_equal. by apply IH. Qed.

(** The sockets of the busy slots when slot [i] becomes [c']. *)
Section fds.
Variable pj : conn -> Z.
Lemma fds_cons c l : fds pj (c :: l) = if busy c then pj c :: fds pj l else fds pj l.
Proof. unfold fds. cbn. by destruct (busy c). Qed.

Lemma fds_same l i c c' : l !! i = Some c -> busy c' = busy c -> pj c' = pj c -> fds pj (<[i := c']> l) = fds pj l.
Proof.
  revert i. induction l as [|x l IH]; intros [|i] Hx Hb Hp; [done..| |].
  - injection Hx as ->. change (<[O := c']> (c :: l)) with (c' :: l). rewrite !fds_cons, Hb, Hp. done.
  - change (<[S i := c']> (x :: l)) with (x :: <[i := c']> l). rewrite !fds_cons, (IH i); done.
Qed.

Lemma fds_leave l i c c' : l !! i = Some c -> busy c = true -> busy c' = false -> fds pj l ≡ₚ pj c :: fds pj (<[i := c']> l).
Proof.
  revert i. induction l as [|x l IH]; intros [|i] Hx Hb Hb'; [done..| |].
  - injection Hx as ->. change (<[O := c']> (c :: l)) with (c' :: l). by rewrite !fds_cons, Hb, Hb'.
  - change (<[S i := c']> (x :: l)) with (x :: <[i := c']> l). rewrite !fds_cons. destruct (busy x); rewrite (IH i) by done; [apply perm_swap|done].
Qed.

Lemma fds_enter l i c c' : l !! i = Some c -> busy c = false -> busy c' = true -> fds pj (<[i := c']> l) ≡ₚ pj c' :: fds pj l.
Proof.
  revert i. induction l as [|x l IH]; intros [|i] Hx Hb Hb'; [done..| |].
  - injection Hx as ->. change (<[O := c']> (c :: l)) with (c' :: l). by rewrite !fds_cons, Hb, Hb'.
  - change (<[S i := c']> (x :: l)) with (x :: <[i := c']> l). rewrite !fds_cons. destruct (busy x); rewrite (IH i) by done; [apply perm_swap|done].
Qed.

Lemma fds_in l i c : l !! i = Some c -> busy c = true -> pj c ∈ fds pj l.
Proof.
  intros Hc Hb. unfold fds. apply list_elem_of_fmap. exists c. split; [done|]. apply list_elem_of_In, filter_In. split; [|done]. apply list_elem_of_In. by eapply list_elem_of_lookup_2.
Qed.

Lemma fds_other l i j c d : NoDup (fds pj l) -> l !! i = Some c -> l !! j = Some d -> busy c = true -> busy d = true -> i <> j -> pj d <> pj c.
Proof.
  intros Hn Hc Hd Hbc Hbd Hij E. pose (free := Conn (-1) (-1) false 0 [] 0). rewrite (fds_leave l i c free Hc Hbc eq_refl) in Hn. apply NoDup_cons in Hn as [Hn _]. apply Hn. rewrite <- E.
  apply (fds_in _ j); [|done]. by rewrite list_lookup_insert_ne.
Qed.
End fds.

(** Slot [i] with the same sockets, and nothing of the others' touched. *)
Lemma minv_upd w i c c' s : minv w -> e_conn (me w) !! i = Some c -> busy c = true -> host_fd c' = host_fd c -> guest_fd c' = guest_fd c -> conn_ok s c' -> zlen (held c') <= chunk (me w) ->
  opened s = opened (env w) -> gopened s = gopened (env w) -> bad s = bad (env w) ->
  (forall h, h <> host_fd c -> put s !! h = put (env w) !! h) -> (forall g, g <> guest_fd c -> got s !! g = got (env w) !! g) ->
  minv (PW s (set_conns (<[i := c']> (e_conn (me w))) (me w))).
Proof.
  intros [] Hi Hb Hh Hg Hok Hl Ho Hgo Hbad Hput Hgot. assert (Hb' : busy c' = busy c) by (unfold busy; by rewrite Hh).
  constructor; cbn [me env set_conns e_conn listen_fd chunk]; rewrite ?Ho, ?Hgo, ?Hbad; try done.
  - apply Forall_lookup_2. intros j d Hj. destruct (decide (i = j)) as [<-|Hij].
    + rewrite list_lookup_insert_eq in Hj by (by eapply lookup_lt_Some). by injection Hj as <-.
    + rewrite list_lookup_insert_ne in Hj by done. pose proof (Forall_lookup_1 _ _ _ _ mi_conns0 Hj) as Hd. unfold conn_ok in *. destruct (busy d) eqn:Hbd; [|done].
      rewrite Hput, Hgot; [done| |].
      * apply NoDup_cons in mi_hosts0 as [_ Hn]. by apply (fds_other guest_fd (e_conn (me w)) i j).
      * apply NoDup_cons in mi_hosts0 as [_ Hn]. by apply (fds_other host_fd (e_conn (me w)) i j).
  - by apply Forall_insert.
  - rewrite (fds_same host_fd _ _ c); done.
  - rewrite (fds_same guest_fd _ _ c); done.
  - rewrite (fds_same host_fd _ _ c); done.
  - rewrite (fds_same guest_fd _ _ c); done.
Qed.

Lemma conn_facts w i c : minv w -> e_conn (me w) !! i = Some c -> busy c = true ->
  host_fd c ∈ opened (env w) /\ guest_fd c ∈ gopened (env w) /\ host_fd c <> listen_fd (me w) /\ conn_ok (env w) c.
Proof.
  intros [] Hi Hb. rewrite mi_opened0, mi_gopened0. pose proof (fds_in host_fd _ _ _ Hi Hb). pose proof (fds_in guest_fd _ _ _ Hi Hb). apply NoDup_cons in mi_hosts0 as [Hl _].
  split; [apply elem_of_list_to_set, list_elem_of_further; done|]. split; [by apply elem_of_list_to_set|]. split; [|by eapply Forall_lookup_1]. intros E. apply Hl. by rewrite <- E.
Qed.

Definition closed_conn (c : conn) : conn := Conn (-1) (-1) (connecting c) (pend c) [] 0.

(** Slot [i] closed. *)
Lemma minv_close w i c : minv w -> e_conn (me w) !! i = Some c -> busy c = true ->
  minv (PW (set_gopened (gopened (env w) ∖ {[guest_fd c]}) (set_opened (opened (env w) ∖ {[host_fd c]}) (env w))) (set_conns (<[i := closed_conn c]> (e_conn (me w))) (me w))).
Proof.
  intros [] Hi Hb. assert (Hb' : busy (closed_conn c) = false) by done.
  pose proof (fds_leave host_fd _ _ _ _ Hi Hb Hb') as Ph. pose proof (fds_leave guest_fd _ _ _ _ Hi Hb Hb') as Pg.
  rewrite Ph in mi_hosts0, mi_opened0. rewrite Pg in mi_guests0, mi_gopened0. apply NoDup_cons in mi_hosts0 as [H1 Hn]. apply NoDup_cons in Hn as [H2 H3]. apply NoDup_cons in mi_guests0 as [G1 G2]. rewrite not_elem_of_cons in H1.
  constructor; cbn [me env set_conns e_conn listen_fd chunk set_gopened set_opened opened gopened bad]; try done.
  - apply Forall_insert; [done|]. by cbn.
  - apply Forall_insert; [done|cbn; lia].
  - apply NoDup_cons. split; [apply H1|done].
  - rewrite mi_opened0. apply set_eq. intros x. set_solver.
  - rewrite mi_gopened0. apply set_eq. intros x. set_solver.
Qed.

(** ** One call each *)

(** What no call changes: everything but the connections, and their areas.  Time passes. *)
Definition like (w w' : W) : Prop := set_conns [] (me w') = set_conns [] (me w) /\ pend <$> e_conn (me w') = pend <$> e_conn (me w) /\ (tick (env w) <= tick (env w'))%nat.

Lemma like_refl w : like w w.
Proof. done. Qed.
Lemma like_trans w1 w2 w3 : like w1 w2 -> like w2 w3 -> like w1 w3.
Proof. unfold like. intros (-> & -> & H1) (-> & -> & H2). split; [done|]. split; [done|]. lia. Qed.
Lemma like_length w w' : like w w' -> length (e_conn (me w')) = length (e_conn (me w)).
Proof. intros (_ & H & _). by rewrite <- (length_fmap pend), H, length_fmap. Qed.
Lemma like_env w s : (tick (env w) <= tick s)%nat -> like w (PW s (me w)).
Proof. done. Qed.
Lemma like_insert w i c c' s : e_conn (me w) !! i = Some c -> pend c' = pend c -> (tick (env w) <= tick s)%nat -> like w (PW s (set_conns (<[i:=c']> (e_conn (me w))) (me w))).
Proof. intros Hi Hp Ht. split; [done|]. split; [|done]. cbn [me set_conns e_conn]. rewrite list_fmap_insert, Hp. apply list_insert_id. by rewrite list_lookup_fmap, Hi. Qed.

Lemma flag_true s : flag true s = s.
Proof. unfold flag. rewrite orb_false_r. by destruct s. Qed.

Lemma host_ok_in fd s : fd ∈ opened s -> host_ok fd s = true.
Proof. apply bool_decide_eq_true_2. Qed.
Lemma guest_ok_in fd s : fd ∈ gopened s -> guest_ok fd s = true.
Proof. apply bool_decide_eq_true_2. Qed.

Lemma on_env_wp {A} (op : seat -> seat * A) w (Q : A -> W -> Prop) e a : op (env w) = (e, a) -> Q a (PW e (me w)) -> wp (on_env op) Q w.
Proof. unfold wp, on_env. by intros ->. Qed.

Lemma get_conn_wp i c (w : W) (Q : conn -> W -> Prop) : e_conn (me w) !! i = Some c -> Q c w -> wp (get_conn i) Q w.
Proof. intros Hi HQ. unfold wp, get_conn. by rewrite Hi. Qed.

Lemma upd_conn_wp i g c (w : W) (Q : unit -> W -> Prop) : e_conn (me w) !! i = Some c -> Q tt (PW (env w) (set_conns (<[i := g c]> (e_conn (me w))) (me w))) -> wp (upd_conn i g) Q w.
Proof. intros Hi HQ. unfold upd_conn. wstep. by rewrite (alter_insert _ _ _ _ Hi). Qed.

(** The environment moves, with the same sockets and the logs of those in use. *)
Lemma minv_logs w s : minv w -> opened s = opened (env w) -> gopened s = gopened (env w) -> bad s = bad (env w) ->
  (forall h, h ∈ opened (env w) -> put s !! h = put (env w) !! h) -> (forall g, g ∈ gopened (env w) -> got s !! g = got (env w) !! g) -> minv (PW s (me w)).
Proof.
  intros Hm E1 E2 E3 E4 E5. pose proof Hm as []. constructor; cbn [me env]; rewrite ?E1, ?E2, ?E3; try done.
  apply Forall_lookup_2. intros i c Hi. pose proof (Forall_lookup_1 _ _ _ _ mi_conns0 Hi) as Hok. unfold conn_ok in *. destruct (busy c) eqn:Hb; [|done].
  destruct (conn_facts _ _ _ Hm Hi Hb) as (Ho & Hg & _). by rewrite E4, E5.
Qed.

Lemma minv_env w s : minv w -> opened s = opened (env w) -> gopened s = gopened (env w) -> bad s = bad (env w) -> got s = got (env w) -> put s = put (env w) -> minv (PW s (me w)).
Proof. intros Hm E1 E2 E3 E4 E5. apply minv_logs; try done; intros; by rewrite ?E4, ?E5. Qed.

Lemma fwd_hang_up_wp i c w (Q : unit -> W -> Prop) : minv w -> e_conn (me w) !! i = Some c -> busy c = true -> (forall w', minv w' -> like w w' -> Q tt w') -> wp (hang_up i) Q w.
Proof.
  intros Hm Hi Hb HQ. destruct (conn_facts _ _ _ Hm Hi Hb) as (Ho & Hg & Hl & Hok). unfold conn_ok in Hok. rewrite Hb in Hok. destruct Hok as (Hg0 & _).
  unfold hang_up. wstep. apply (get_conn_wp i c); [done|]. wstep. unfold on_env_. wstep. cbn [host_close seat_ops]. rewrite host_ok_in, flag_true by done.
  unfold fwd_guest_close. wstep. apply (get_conn_wp i c); [done|]. wstep. wstep. cbn [me]. rewrite (proj2 (Z.eqb_neq _ _)), (proj2 (Z.leb_le 0 _)) by done. cbn [when]. wstep. unfold on_env_. wstep. cbn [guest_close seat_ops env].
  rewrite guest_ok_in, flag_true by done. eapply upd_conn_wp; [exact Hi|]. apply HQ; [exact (minv_close w i c Hm Hi Hb)|]. refine (like_insert w _ c _ _ Hi _ _); cbn; lia || done.
Qed.

(** The slot is still that of the same pair of sockets. *)
Definition kept_slot (i : nat) (c : conn) (w : W) (c' : conn) : Prop := e_conn (me w) !! i = Some c' /\ host_fd c' = host_fd c /\ guest_fd c' = guest_fd c /\ connecting c' = connecting c.

Lemma kept_busy i c w c' : kept_slot i c w c' -> busy c = true -> busy c' = true.
Proof. unfold busy. by intros (_ & -> & _). Qed.

Definition slot_kept (i : nat) (c : conn) (w w' : W) : Prop := minv w' /\ like w w' /\ exists c', kept_slot i c w' c'.

(** A slot of the same sockets whose log still adds up. *)
Lemma put_slot_wp i c c' s w : minv w -> e_conn (me w) !! i = Some c -> busy c = true -> host_fd c' = host_fd c -> guest_fd c' = guest_fd c -> connecting c' = connecting c -> pend c' = pend c -> (tick (env w) <= tick s)%nat ->
  0 <= pend_off c' <= zlen (held c') -> zlen (held c') <= chunk (me w) ->
  got s !! guest_fd c = Some (default [] (put s !! host_fd c) ++ drop (Z.to_nat (pend_off c')) (held c')) ->
  opened s = opened (env w) -> gopened s = gopened (env w) -> bad s = bad (env w) ->
  (forall h, h <> host_fd c -> put s !! h = put (env w) !! h) -> (forall g, g <> guest_fd c -> got s !! g = got (env w) !! g) ->
  let w' := PW s (set_conns (<[i := c']> (e_conn (me w))) (me w)) in slot_kept i c w w' /\ e_conn (me w') !! i = Some c'.
Proof.
  intros Hm Hi Hb Eh Eg Ec Ep Ht Hoff Hch Hlog Ho Hgo Hbad Hput Hgot w'. destruct (conn_facts _ _ _ Hm Hi Hb) as (_ & _ & _ & Hok). unfold conn_ok in Hok. rewrite Hb in Hok.
  assert (Hi' : e_conn (me w') !! i = Some c') by (apply list_lookup_insert_eq; by eapply lookup_lt_Some).
  split; [|done]. split; [|split; [by apply (like_insert _ _ c)|by exists c']].
  apply (minv_upd w i c); try done. unfold conn_ok. replace (busy c') with true by (unfold busy in *; congruence). rewrite Eg, Eh. split; [apply Hok|]. by split.
Qed.

Lemma kept_trans i c w1 c1 w2 w3 : kept_slot i c w2 c1 -> like w1 w2 -> slot_kept i c1 w2 w3 -> slot_kept i c w1 w3.
Proof.
  intros (_ & K1 & K2 & K3) Hl (Hm & Hl2 & c' & H1 & H2 & H3 & H4). split; [done|]. split; [by eapply like_trans|]. exists c'. split; [done|]. split; [congruence|]. split; congruence.
Qed.

Lemma slot_refl i c w : minv w -> e_conn (me w) !! i = Some c -> slot_kept i c w w.
Proof. intros Hm Hi. split; [done|]. split; [apply like_refl|]. by exists c. Qed.

Lemma flush_loop_wp fuel i c moved w : minv w -> e_conn (me w) !! i = Some c -> busy c = true -> zlen (held c) - pend_off c <= Z.of_nat fuel ->
  wp (flush_loop fuel i moved) (fun _ w' => slot_kept i c w w') w.
Proof.
  revert moved c w. induction fuel as [|fuel IH]; intros moved c w Hm Hi Hb Hf; cbn [flush_loop]; wstep; (apply (get_conn_wp i c); [done|]).
  all: destruct (conn_facts _ _ _ Hm Hi Hb) as (Ho & Hg & _ & Hok); unfold conn_ok in Hok; rewrite Hb in Hok; destruct Hok as (Hg0 & Hoff & Hlog).
  all: pose proof (Forall_lookup_1 _ _ _ _ (mi_held _ Hm) Hi) as Hch; pose proof (mi_chunk _ Hm) as Hck; cbn in Hch.
  all: assert (Hempty : zlen (held c) <= pend_off c -> wp (upd_conn i (set_held [] 0) ;; ret moved) (fun _ w' => slot_kept i c w w') w) by
    (intros Hge; wstep; (eapply upd_conn_wp; [exact Hi|]); wstep; (apply (put_slot_wp i c); try done; try (cbn; lia)); cbn [set_held pend_off held]; rewrite Hlog, drop_ge by lia; done).
  all: destruct (Z.ltb_spec (pend_off c) (zlen (held c))) as [Hlt|Hge]; [|by apply Hempty].
  1: lia.
  wstep. unfold wp at 1, on_env. cbn [host_send seat_ops]. unfold seat_send. destruct (q_send q (tick (env w))) as [k errno]. set (buf := drop _ (held c)). cbv zeta.
  assert (Hbuf : zlen buf = zlen (held c) - pend_off c) by (unfold buf; rewrite length_drop; lia). set (n := Z.min k (zlen buf)). rewrite host_ok_in, flag_true by done.
  set (s := set_put _ _). assert (Hput : forall h, h <> host_fd c -> put s !! h = put (env w) !! h) by (intros h Hh; unfold s, log; cbn [put set_put]; by rewrite lookup_insert_ne).
  assert (Hlog' : put s !! host_fd c = Some (default [] (put (env w) !! host_fd c) ++ take (Z.to_nat n) buf)) by (unfold s, log; cbn [put set_put]; by rewrite lookup_insert_eq).
  destruct (Z.ltb_spec 0 n) as [Hn|Hn].
  - wstep. eapply upd_conn_wp; [exact Hi|]. cbn [env me]. rewrite u32_small by lia.
    destruct (put_slot_wp i c (set_held (held c) (pend_off c + n) c) s w) as [K1 K2]; try done; try (cbn; lia).
    { rewrite Hlog'. cbn [default id set_held held pend_off]. change (got s) with (got (env w)). rewrite Hlog. f_equal. rewrite <- (assoc_L (++)). f_equal.
      replace (Z.to_nat (pend_off c + n)) with (Z.to_nat (pend_off c) + Z.to_nat n)%nat by lia. rewrite <- drop_drop. fold buf. by rewrite take_drop. }
    pose proof K1 as (Km & Kl & _). eapply wp_mono; [apply (IH _ (set_held (held c) (pend_off c + n) c)); [exact Km|exact K2|done|cbn; lia]|].
    intros r w' Hw'. eapply kept_trans; [|exact Kl|exact Hw']. by split.
  - assert (Hsame : slot_kept i c w (PW s (me w))).
    { destruct (put_slot_wp i c c s w) as [K _]; try done; try (cbn; lia); [|by cbn in K; rewrite list_insert_id in K by done; destruct w as [? []]].
      rewrite Hlog'. cbn [default id]. replace (Z.to_nat n) with 0%nat by lia. cbn [take]. rewrite app_nil_r. exact Hlog. }
    wstep; by wstep.
Qed.

Definition good (w : W) {A} (_ : A) (w' : W) : Prop := minv w' /\ like w w'.

Lemma good_trans w w1 {A} (a : A) w' : like w w1 -> good w1 a w' -> good w a w'.
Proof. intros Hl [Hm Hl']. split; [done|]. by eapply like_trans. Qed.

Lemma hang_up_good i c w {A} (m : @P seat A) (w0 : W) : minv w -> e_conn (me w) !! i = Some c -> busy c = true -> like w0 w -> (forall w', minv w' -> like w0 w' -> wp m (good w0) w') -> wp (hang_up i ;; m) (good w0) w.
Proof. intros Hm Hi Hb Hl HQ. wstep. eapply fwd_hang_up_wp; [done|exact Hi|done|]. intros w' Hm' Hl'. apply HQ; [done|]. by eapply like_trans. Qed.

(** What was read joins the log of its socket. *)
Lemma read_slot i c b w : minv w -> e_conn (me w) !! i = Some c -> busy c = true -> held c = [] -> zlen b <= chunk (me w) ->
  let s := set_got (log (got (env w)) (guest_fd c) b) (Fwd.env w) in
  let w' := PW (next s) (set_conns (<[i := set_held b 0 c]> (e_conn (me w))) (me w)) in slot_kept i c w w' /\ e_conn (me w') !! i = Some (set_held b 0 c).
Proof.
  intros Hm Hi Hb Hh Hl s w'. destruct (conn_facts _ _ _ Hm Hi Hb) as (_ & _ & _ & Hok). unfold conn_ok in Hok. rewrite Hb in Hok. destruct Hok as (_ & _ & Hlog). rewrite Hh, drop_nil, app_nil_r in Hlog.
  apply (put_slot_wp i c); try done; try (cbn; lia).
  - cbn [next s set_got got put set_held held pend_off]. unfold log. rewrite lookup_insert_eq, Hlog. done.
  - intros g Hg. cbn [next s set_got got]. unfold log. by rewrite lookup_insert_ne.
Qed.

Lemma drain_wp g i c worked w : minv w -> e_conn (me w) !! i = Some c -> busy c = true -> wp (drain g i worked) (good w) w.
Proof.
  revert c worked w. induction g as [|g IH]; intros c worked w Hm Hi Hb; cbn [drain]; [by wstep|].
  wstep. unfold fwd_flush. wstep. apply (get_conn_wp i c); [done|]. eapply wp_mono; [apply (flush_loop_wp _ i c); [done|done|done|]|].
  { destruct (conn_facts _ _ _ Hm Hi Hb) as (_ & _ & _ & Hok). unfold conn_ok in Hok. rewrite Hb in Hok. lia. }
  intros r w1 (Hm1 & Hl1 & c1 & Hk1). pose proof (kept_busy _ _ _ _ Hk1 Hb) as Hb1. destruct Hk1 as (Hi1 & _).
  destruct (r <? 0). { apply (hang_up_good i c1); [done..|]. intros w' Hm' Hl'. by wstep. }
  wstep. apply (get_conn_wp i c1); [done|]. destruct (Z.eqb_spec (zlen (held c1)) 0) as [Hz|Hz]; cbn [negb]; [|by wstep].
  assert (Hh : held c1 = []) by (apply length_zero_iff_nil; lia). destruct (conn_facts _ _ _ Hm1 Hi1 Hb1) as (_ & Hg & _). pose proof (mi_chunk _ Hm1) as Hck.
  wstep. wstep. wstep. unfold wp at 1, on_env. cbn [guest_recv seat_ops]. unfold seat_grecv. destruct (q_grecv q (tick (env w1))) as [k b0]. cbv zeta. set (b := take (Z.to_nat (chunk (me w1))) b0).
  rewrite guest_ok_in, flag_true by done. assert (Hlb : zlen b <= chunk (me w1)) by (unfold b; rewrite length_take; lia).
  destruct (read_slot i c1 b w1 Hm1 Hi1 Hb1 Hh Hlb) as [K1 K2]. cbv zeta in K1, K2. destruct (decide (b = [])) as [Eb|Eb].
  - rewrite bool_decide_eq_true_2 by done. rewrite (proj2 (Z.leb_le _ _)) by lia. rewrite Eb in *.
    assert (Hsc : set_held [] 0 c1 = c1). { destruct (conn_facts _ _ _ Hm1 Hi1 Hb1) as (_ & _ & _ & Hok). unfold conn_ok in Hok. rewrite Hb1, Hh in Hok. destruct Hok as (_ & Ho & _). cbn [length] in Ho. assert (E0 : pend_off c1 = 0) by lia. destruct c1; unfold set_held; cbn in *; by subst. }
    rewrite Hsc, list_insert_id in K1 by done. assert (Hme : set_conns (e_conn (me w1)) (me w1) = me w1) by by destruct w1 as [? []]. rewrite Hme in K1. set (w2 := PW _ _) in K1. destruct K1 as (Hm2 & Hl2 & _).
    assert (Hl02 : like w w2) by (by eapply like_trans). change (set_got _ (next _)) with (env w2). change (PW (env w2) (me w1)) with w2.
    destruct (Z.min k 0 =? -2); cbn [when]; [apply (hang_up_good i c1); [done..|]; intros w' Hm' Hl'; by wstep|]. wstep. wstep. by wstep.
  - rewrite bool_decide_eq_false_2 by done. assert (0 < zlen b) by (destruct b; [done|cbn; lia]). rewrite (proj2 (Z.leb_gt _ 0)) by lia. wstep. apply (wp_chk _ b); [apply slice_all|].
    rewrite (proj2 (Z.ltb_ge _ _)) by lia. wstep. eapply upd_conn_wp; [exact Hi1|]. cbn [env me]. change (set_got _ (next (env w1))) with (next (set_got (log (got (env w1)) (guest_fd c1) b) (env w1))).
    set (w2 := PW _ _) in K1. destruct K1 as (Hm2 & Hl2 & _). eapply wp_mono; [apply (IH (set_held b 0 c1) true w2); [done|exact K2|done]|]. intros a w' Hg'. eapply good_trans; [|exact Hg']. by eapply like_trans.
Qed.

Lemma from_host_wp i rv c w : minv w -> e_conn (me w) !! i = Some c -> busy c = true ->
  wp (from_host i rv) (fun r w' => good w r w' /\ (r.1 = false -> e_conn (me w') = e_conn (me w))) w.
Proof.
  intros Hm Hi Hb. destruct (conn_facts _ _ _ Hm Hi Hb) as (Ho & Hg & _). unfold from_host. wstep. apply (get_conn_wp i c); [done|].
  assert (Hsame : forall s r, opened s = opened (env w) -> gopened s = gopened (env w) -> bad s = bad (env w) -> got s = got (env w) -> put s = put (env w) -> (tick (env w) <= tick s)%nat ->
    good w r (PW s (me w)) /\ ((r : bool * bool).1 = false -> e_conn (me (PW s (me w))) = e_conn (me w))) by (intros s r E1 E2 E3 E4 E5 E6; split; [split; [by apply minv_env|by apply like_env]|intros _; reflexivity]).
  destruct (_ || _); [wstep; destruct w; by apply (Hsame _ (false, false))|]. wstep. wstep. wstep. unfold wp at 1, on_env. cbn [host_recv seat_ops]. unfold seat_recv. destruct (q_recv q (tick (env w))) as [[k b0] errno]. cbv zeta.
  set (b := take (Z.to_nat (chunk (me w))) b0). rewrite host_ok_in, flag_true by done. set (s1 := set_up_got _ _).
  assert (Hm1 : minv (PW s1 (me w))) by (by apply minv_env). pose proof (mi_chunk _ Hm) as Hck. assert (Hlb : zlen b <= chunk (me w)) by (unfold b; rewrite length_take; lia).
  assert (Hover : forall w1, w1 = PW s1 (me w) -> wp (hang_up i ;; ret (true, false)) (fun r w' => good w r w' /\ (r.1 = false -> e_conn (me w') = e_conn (me w))) w1).
  { intros w1 ->. wstep. eapply (fwd_hang_up_wp i c); [done|done|done|]. intros w' Hm' Hl'. wstep. split; [split; [exact Hm'|]|discriminate]. eapply like_trans; [|exact Hl']. apply like_env. cbn. lia. }
  destruct (decide (b = [])) as [Eb|Eb].
  - rewrite bool_decide_eq_true_2 by done. rewrite (proj2 (Z.ltb_ge 0 _)) by lia. destruct (_ =? 0); [by apply Hover|]. destruct (_ || _); [by apply Hover|]. wstep. apply (Hsame s1 (false, false)); try done; cbn; lia.
  - rewrite bool_decide_eq_false_2 by done. assert (0 < zlen b) by (destruct b; [done|cbn; lia]). rewrite (proj2 (Z.ltb_lt 0 _)) by lia. wstep. apply (wp_chk _ b); [apply slice_all|].
    rewrite (proj2 (Z.ltb_ge _ _)) by lia. wstep. unfold wp at 1, on_env. cbn [guest_send seat_ops env]. unfold seat_gsend. cbv zeta. cbn [me]. rewrite guest_ok_in, flag_true by done. wstep. apply (Hsame _ (false, true)); try done; cbn; lia.
Qed.

Lemma serve_conn_wp i idx rv w : minv w -> (i < length (e_conn (me w)))%nat -> idx < zlen rv -> wp (serve_conn i idx rv) (good w) w.
Proof.
  intros Hm Hlen Hidx. destruct (lookup_lt_is_Some_2 _ _ Hlen) as [c Hi]. unfold serve_conn. wstep. apply (get_conn_wp i c); [done|]. destruct (Z.ltb_spec (host_fd c) 0) as [Hneg|Hpos]; [by wstep|].
  assert (Hb : busy c = true) by (apply Z.leb_le; lia). destruct (conn_facts _ _ _ Hm Hi Hb) as (_ & Hg & _ & Hok).
  assert (Htail : forall c1 w1 wk, minv w1 -> like w w1 -> e_conn (me w1) !! i = Some c1 -> busy c1 = true ->
    wp (c <- get_conn i ;; if (0 <=? guest_fd c) && negb (connecting c) then drain 64 i wk else ret wk) (good w) w1).
  { intros c1 w1 wk Hm1 Hl1 Hi1 Hb1. wstep. apply (get_conn_wp i c1); [done|]. destruct (_ && _); [|by wstep]. eapply wp_mono; [by apply (drain_wp 64 i c1)|]. intros a w' Hgd. by eapply good_trans. }
  assert (Hrest : forall c1 w1, minv w1 -> like w w1 -> e_conn (me w1) !! i = Some c1 -> busy c1 = true ->
    wp (rw <- (if 0 <? idx then rv <- chk (rd rv idx) ;; from_host i rv else ret (false, false)) ;;
        let '(over, worked) := rw in if over : bool then ret worked else c <- get_conn i ;; if (0 <=? guest_fd c) && negb (connecting c) then drain 64 i worked else ret worked) (good w) w1).
  { intros c1 w1 Hm1 Hl1 Hi1 Hb1. wstep. destruct (Z.ltb_spec 0 idx) as [Hp|Hp].
    - destruct (rd_is_Some rv idx) as [x Hx]; [lia|]. wstep. apply (wp_chk _ x); [done|]. eapply wp_mono; [by apply (from_host_wp i x c1)|]. intros [over wk] w2 [[Hm2 Hl2] He]. cbn [fst] in He.
      assert (Hl02 : like w w2) by (by eapply like_trans). destruct over; [by wstep|]. apply (Htail c1); [done|done|by rewrite He|done].
    - wstep. by apply (Htail c1). }
  wstep. destruct (connecting c) eqn:Ec; [|wstep; by apply (Hrest c)].
  wstep. unfold wp at 1, on_env. cbn [guest_established seat_ops]. rewrite guest_ok_in, flag_true by done. set (w1 := PW (next (env w)) (me w)). assert (Hm1 : minv w1) by (by apply minv_env). assert (Hl1 : like w w1) by (apply like_env; cbn; lia).
  destruct (negb (_ =? 1)).
  - wstep. destruct (_ <? 0); cbn [when]; [eapply (fwd_hang_up_wp i c); [done|done|done|]; intros w' Hm' Hl'; wstep; wstep; split; [done|by eapply like_trans]|wstep; wstep; by wstep].
  - wstep. eapply upd_conn_wp; [exact Hi|]. wstep. unfold conn_ok in Hok. rewrite Hb in Hok. pose proof (Forall_lookup_1 _ _ _ _ (mi_held _ Hm) Hi) as Hch.
    assert (Hset : minv (PW (env w1) (set_conns (<[i := set_connecting false c]> (e_conn (me w1))) (me w1)))).
    { apply (minv_upd w1 i c); try done. unfold conn_ok. replace (busy (set_connecting false c)) with true by (symmetry; exact Hb). exact Hok. }
    apply (Hrest (set_connecting false c)); [exact Hset| |cbn; by rewrite list_lookup_insert_eq|done].
    refine (like_insert w _ c _ _ Hi _ _); cbn; lia || done.
Qed.

Lemma serve_all_wp i pfi rv wk w : minv w -> (i + length pfi <= length (e_conn (me w)))%nat -> Forall (fun idx => idx < zlen rv) pfi -> wp (serve_all i pfi rv wk) (good w) w.
Proof.
  revert i wk w. induction pfi as [|idx pfi IH]; intros i wk w Hm Hl Hf; cbn [serve_all]; [by wstep|]. apply Forall_cons in Hf as [Hx Hf]. cbn [length] in Hl.
  wstep. eapply wp_mono; [apply serve_conn_wp; [done|lia|done]|]. intros a w1 [Hm1 Hl1]. eapply wp_mono; [apply IH; [done|rewrite (like_length _ _ Hl1); lia|done]|]. intros b w' Hg. by eapply good_trans.
Qed.
(** A free slot takes a fresh pair of sockets. *)
Lemma minv_open w i c c' h g s : minv w -> e_conn (me w) !! i = Some c -> 0 <= h -> 0 <= g -> h ∉ opened (env w) -> g ∉ gopened (env w) ->
  busy c = false -> host_fd c' = h -> guest_fd c' = g -> held c' = [] -> pend_off c' = 0 ->
  opened s = {[h]} ∪ opened (env w) -> gopened s = {[g]} ∪ gopened (env w) -> bad s = bad (env w) ->
  put s = <[h := []]> (put (env w)) -> got s = <[g := []]> (got (env w)) ->
  minv (PW s (set_conns (<[i := c']> (e_conn (me w))) (me w))).
Proof.
  intros Hm Hi Hh Hg Hho Hgo Hb Eh Eg El Eo E1 E2 E3 E4 E5. assert (Hb' : busy c' = true) by (apply Z.leb_le; lia). pose proof Hm as [].
  pose proof (fds_enter host_fd _ _ _ _ Hi Hb Hb') as Ph. pose proof (fds_enter guest_fd _ _ _ _ Hi Hb Hb') as Pg. rewrite Eh in Ph. rewrite Eg in Pg.
  constructor; cbn [me env set_conns e_conn listen_fd chunk]; rewrite ?E3; try done.
  - apply Forall_insert.
    + apply Forall_lookup_2. intros j d Hj. pose proof (Forall_lookup_1 _ _ _ _ mi_conns0 Hj) as Hok. unfold conn_ok in *. destruct (busy d) eqn:Hbd; [|done].
      destruct (conn_facts _ _ _ Hm Hj Hbd) as (Ho & Hgg & _). rewrite E4, E5, !lookup_insert_ne; [done|by intros ->|by intros ->].
    + unfold conn_ok. rewrite Hb', Eh, Eg, El, Eo, E4, E5, !lookup_insert_eq. cbn. by repeat split; lia.
  - apply Forall_insert; [done|]. rewrite El. cbn. lia.
  - rewrite Ph. rewrite mi_opened0 in Hho. rewrite <- perm_swap. apply NoDup_cons. split; [|done]. intros Hx. apply Hho. by apply elem_of_list_to_set.
  - rewrite Pg. rewrite mi_gopened0 in Hgo. apply NoDup_cons. split; [|done]. intros Hx. apply Hgo. by apply elem_of_list_to_set.
  - rewrite E1, Ph, mi_opened0. cbn. set_solver.
  - rewrite E2, Pg, mi_gopened0. cbn. set_solver.
Qed.

Lemma vacant_conn_spec k l i : vacant_conn k l = Some i -> exists j c, i = (k + j)%nat /\ l !! j = Some c /\ busy c = false.
Proof.
  revert k. induction l as [|c l IH]; intros k; cbn [vacant_conn]; [done|]. destruct (Z.ltb_spec (host_fd c) 0) as [H|H].
  - intros [= <-]. exists 0%nat, c. split; [lia|]. split; [done|]. by apply Z.leb_gt.
  - intros E. destruct (IH _ E) as (j & d & -> & Hj & Hb). exists (S j), d. split; [lia|done].
Qed.
Lemma take_back (X : gset Z) x : x ∉ X -> ({[x]} ∪ X) ∖ {[x]} = X.
Proof. intros Hx. apply set_eq. set_solver. Qed.

Lemma seat_accept_spec s e h : seat_accept s = (e, h) -> e = next s /\ h = -1 \/
  exists n, backlog s = S n /\ (h = -1 /\ e = next (set_backlog n s) \/
    0 <= h /\ h ∉ opened s /\ e = set_put (<[h := []]> (put s)) (set_opened ({[h]} ∪ opened s) (next (set_backlog n s)))).
Proof.
  unfold seat_accept. destruct (backlog s) as [|n]; [by intros [= <- <-]; left|]. intros E. right. exists n. split; [done|]. revert E. cbv zeta.
  destruct (Z.ltb_spec (q_accept q (tick s)) 0) as [Hh|Hh]; cbn [orb]; [by intros [= <- <-]; left|]. unfold host_ok. case_bool_decide as Eh; intros [= <- <-]; [by left|by right].
Qed.
Lemma seat_socket_spec s e g : seat_socket s = (e, g) -> e = next s /\ g = -1 \/
  0 <= g /\ g ∉ gopened s /\ e = set_got (<[g := []]> (got s)) (set_gopened ({[g]} ∪ gopened s) (next s)).
Proof.
  unfold seat_socket. cbv zeta. destruct (Z.ltb_spec (q_socket q (tick s)) 0) as [Hh|Hh]; cbn [orb]; [by intros [= <- <-]; left|].
  unfold guest_ok. case_bool_decide as Eh; intros [= <- <-]; [by left|by right].
Qed.

Lemma accept_wp fuel w : minv w -> (backlog (env w) < fuel)%nat -> wp (fwd_accept fuel) (good w) w.
Proof.
  revert w. induction fuel as [|fuel IH]; intros w Hm Hf; [lia|]. cbn [fwd_accept]. wstep. wstep.
  destruct (vacant_conn 0 (e_conn (me w))) as [i|] eqn:Ei; [|by wstep]. apply vacant_conn_spec in Ei as (j & c & -> & Hi & Hb). cbn [Nat.add] in *.
  pose proof (Forall_lookup_1 _ _ _ _ (mi_conns _ Hm) Hi) as Hok. unfold conn_ok in Hok. rewrite Hb in Hok. destruct Hok as (Hheld & Hoff & _).
  do 5 wstep. destruct (seat_accept (env w)) as [s1 h] eqn:Ea. eapply on_env_wp; [exact Ea|].
  apply seat_accept_spec in Ea as [[-> ->]|(n & Eb & [[-> ->]|(Hh & Eh & Es)])]; [change (-1 <? 0) with true; cbv iota; wstep; split; [by apply minv_env|apply like_env; cbn; lia]..|].
  rewrite (proj2 (Z.ltb_ge h 0)) by lia.
  assert (Hback : forall s, opened s = opened (env w) -> gopened s = gopened (env w) -> bad s = bad (env w) -> put s = put s1 -> (forall g, g ∈ gopened (env w) -> got s !! g = got (env w) !! g) -> backlog s = n -> (tick (env w) <= tick s)%nat ->
    wp (fwd_accept fuel) (good w) (PW s (me w))).
  { intros s E1 E2 E3 E4 E5 E6 E7. eapply wp_mono; [apply IH; [|cbn; lia]|].
    - apply minv_logs; try done. intros x Hx. rewrite E4, Es. cbn. rewrite lookup_insert_ne; [done|by intros ->].
    - intros [] w' Hw'. eapply good_trans; [|exact Hw']. apply like_env. cbn. lia. }
  assert (Hin : h ∈ opened s1) by (rewrite Es; cbn; set_solver). assert (Hopen : opened s1 ∖ {[h]} = opened (env w)) by (rewrite Es; by apply take_back).
  wstep. destruct (seat_socket s1) as [s2 g] eqn:Eg. eapply on_env_wp; [exact Eg|]. apply seat_socket_spec in Eg as [[-> ->]|(Hg & Egg & Es2)].
  { change (-1 <? 0) with true. change (0 <=? -1) with false. cbn [orb when]. wstep. wstep. wstep. wstep. unfold on_env_. wstep. wstep. cbn [host_close seat_ops env]. rewrite host_ok_in, flag_true by done.
    apply Hback; rewrite ?Es; try done; [by apply take_back|cbn; lia]. }
  rewrite (proj2 (Z.ltb_ge g 0)) by lia. wstep. eapply on_env_wp; [done|]. cbn [env me]. assert (Hgin : g ∈ gopened s2) by (rewrite Es2; cbn; set_solver). rewrite guest_ok_in, flag_true by done. cbn [orb].
  assert (Hgot : forall x, x ∈ gopened (env w) -> got s2 !! x = got (env w) !! x) by (intros x Hx; rewrite Es2, Es; cbn; rewrite lookup_insert_ne; [done|]; intros ->; apply Egg; by rewrite Es).
  assert (Hgclose : gopened s2 ∖ {[g]} = gopened (env w)) by (rewrite Es2; cbn; rewrite take_back by done; by rewrite Es).
  destruct (Z.ltb_spec (q_connect q (tick s2)) 0) as [Hc|Hc].
  - rewrite (proj2 (Z.leb_le _ _)) by lia. cbn [when]. wstep. unfold on_env_. wstep. cbn [guest_close seat_ops env]. rewrite guest_ok_in, flag_true by done.
    wstep. wstep. cbn [host_close seat_ops env me]. rewrite host_ok_in, flag_true by (rewrite Es2; exact Hin).
    apply Hback; cbn; try done; rewrite Es2; try done; rewrite Es; try done; cbn; lia.
  - wstep. eapply upd_conn_wp; [exact Hi|]. cbn [env me].
    set (w' := PW _ _). assert (Hm' : minv w').
    { apply (minv_open w j c _ h g); try done; try (by rewrite Es2, Es). by rewrite Es in Egg. }
    eapply wp_mono; [apply (IH w'); [done|]|].
    + unfold w'. rewrite Es2, Es. cbn. lia.
    + intros [] w2 Hw2. eapply good_trans; [|exact Hw2]. refine (like_insert w _ c _ _ Hi _ _); [done|]. rewrite Es2, Es. cbn. lia.
Qed.

Lemma poll_set_spec n l : let '(pf, pfi) := poll_set n l in length pfi = length l /\ (0 <= n -> Forall (fun idx => idx < n + zlen pf) pfi).
Proof.
  revert n. induction l as [|c l IH]; intros n; cbn [poll_set]; [done|]. destruct (0 <=? host_fd c).
  - specialize (IH (n + 1)). destruct (poll_set (n + 1) l) as [pf pfi]. destruct IH as [Hl Hf]. split; [cbn; lia|]. intros Hn. apply Forall_cons. split; [cbn; lia|]. specialize (Hf ltac:(lia)).
    eapply Forall_impl; [exact Hf|]. intros x Hx. cbn in *. lia.
  - specialize (IH n). destruct (poll_set n l) as [pf pfi]. destruct IH as [Hl Hf]. split; [cbn; lia|]. intros Hn. apply Forall_cons. split; [cbn; lia|]. by apply Hf.
Qed.

Lemma round_wp fuel wait w : (forall t, (q_backlog q t < fuel)%nat) -> minv w -> wp (fwd_round fuel wait) (good w) w.
Proof.
  intros Hf Hm. unfold fwd_round. wstep. unfold on_env_. wstep. cbn [guest_pump seat_ops]. wstep. wstep. wstep. wstep. cbn [me]. pose proof (poll_set_spec 1 (e_conn (me w))) as Hp.
  destruct (poll_set 1 (e_conn (me w))) as [pf pfi]. destruct Hp as [Hl Hx]. specialize (Hx ltac:(lia)). wstep. cbn [host_poll seat_ops env] in *.
  destruct (q_poll q (tick (next (env w)))) as [r l] eqn:Eq. eapply on_env_wp; [cbn [host_poll seat_ops env]; by rewrite Eq|]. cbn [env me].
  set (s1 := set_backlog _ _). set (rv := take _ _). assert (Hrv : zlen rv = 1 + zlen pf) by (unfold rv; rewrite length_take, length_app, repeat_length; cbn [length]; lia).
  assert (Hm1 : minv (PW s1 (me w))) by (by apply minv_env).
  destruct (r <? 0); [wstep; split; [done|apply like_env; cbn; lia]|]. destruct (rd_is_Some rv 0) as [r0 Hr0]; [lia|]. wstep. apply (wp_chk _ r0); [done|]. wstep.
  assert (Hacc : wp (when ((0 <? r) && negb (r0 =? 0)) (fwd_accept fuel)) (good w) (PW s1 (me w))).
  { destruct (_ && _); cbn [when]; [|wstep; split; [done|apply like_env; cbn; lia]]. eapply wp_mono; [apply accept_wp; [done|apply Hf]|]. intros [] w' Hw'. eapply good_trans; [|exact Hw']. apply like_env. cbn. lia. }
  eapply wp_mono; [exact Hacc|]. intros [] w2 [Hm2 Hl2]. wstep. eapply wp_mono; [apply serve_all_wp; [done| |]|].
  - rewrite (like_length _ _ Hl2). cbn. lia.
  - eapply Forall_impl; [exact Hx|]. intros x Hlt. cbn in *. lia.
  - intros worked w3 Hw3. wstep. by eapply good_trans.
Qed.

Lemma pump_wp fuel live wait w : (forall t, (q_backlog q t < fuel)%nat) -> minv w -> wp (fwd_pump fuel live wait) (good w) w.
Proof.
  intros Hf. revert wait w. induction live as [|[] live IH]; intros wait w Hm; cbn [fwd_pump]; [by wstep| |by wstep].
  wstep. eapply wp_mono; [by apply round_wp|]. intros [k|] w1 [Hm1 Hl1]; [|wstep; by split]. eapply wp_mono; [by apply IH|]. intros [] w' Hw'. by eapply good_trans.
Qed.
End ops.
End FwdSpec.
