(* ===== verification/FwdLife.v ===== *)
(** * The life of a mirror

    A mirror from [pm_metal_fwd_listen] to [pm_metal_fwd_stop] on a host and a
    guest that answer as they like: what it moves, and that it leaves no socket
    and no block behind. *)
From S2P Require Import Prelude Fwd FwdSpec.

Module FwdLife.
Import Store Fwd FwdSpec.
Local Open Scope metal_scope.

Definition seat0 : seat := Seat 0 0 ∅ ∅ ∅ ∅ ∅ ∅ false.

Section life.
Variable q : oracle.
#[local] Hint Extern 0 (FwdOps seat) => exact (seat_ops q) : typeclass_instances.
Abbreviation FS := (@fwd seat).

(** Every block was had in the past. *)
Definition aged (w : FS) : Prop := forall b, b ∈ blocks w -> 0 < b <= Z.of_nat (tick (s_env w)).

(** Pointers that are not NULL. *)
Definition ptrs (l : list Z) : list Z := filter (fun a => a <> 0) l.
Lemma ptrs_cons a l : ptrs (a :: l) = if a =? 0 then ptrs l else a :: ptrs l.
Proof. unfold ptrs. destruct (Z.eqb_spec a 0) as [->|H]; [by rewrite filter_cons_False by tauto|by rewrite filter_cons_True]. Qed.

Lemma ptrs_app l1 l2 : ptrs (l1 ++ l2) = ptrs l1 ++ ptrs l2.
Proof. apply filter_app. Qed.

Lemma on_fenv_wp {A} (op : seat -> seat * A) (w : FS) (Q : A -> FS -> Prop) e a : op (s_env w) = (e, a) -> Q a (FW e (s_arena w) (s_table w) (s_ep w) (s_mirror_used w) (blocks w)) -> wp (on_fenv op) Q w.
Proof. unfold wp, on_fenv. by intros ->. Qed.

Lemma free_ptr_wp a (w : FS) (Q : unit -> FS -> Prop) : (a <> 0 -> a ∈ blocks w) -> Q tt (set_blocks (blocks w ∖ list_to_set (ptrs [a])) w) -> wp (free_ptr a) Q w.
Proof.
  intros Ha HQ. unfold free_ptr. rewrite ptrs_cons in HQ. destruct (Z.eqb_spec a 0) as [->|H]; cbn [negb when].
  - wstep. replace w with (set_blocks (blocks w ∖ ∅) w) by (destruct w; unfold set_blocks; cbn; f_equal; set_solver). exact HQ.
  - unfold wp, mem_free. rewrite bool_decide_eq_true_2 by auto. replace {[a]} with (list_to_set [a] : gset Z) by set_solver. exact HQ.
Qed.

(** A list of areas goes back, each once. *)
Lemma each_free_wp l (w : FS) (Q : unit -> FS -> Prop) : NoDup (ptrs l) -> list_to_set (ptrs l) ⊆ blocks w -> Q tt (set_blocks (blocks w ∖ list_to_set (ptrs l)) w) -> wp (each l free_ptr) Q w.
Proof.
  revert w. induction l as [|a l IH]; intros w Hn Hs HQ; cbn [each].
  - wstep. replace w with (set_blocks (blocks w ∖ ∅) w) by (destruct w; unfold set_blocks; cbn; f_equal; set_solver). exact HQ.
  - rewrite ptrs_cons in *. wstep. apply free_ptr_wp.
    + intros H. rewrite (proj2 (Z.eqb_neq a 0) H) in Hs. set_solver.
    + rewrite ptrs_cons. destruct (Z.eqb_spec a 0) as [->|H].
      * apply IH; [done| |]; cbn [set_blocks blocks ptrs filter list_filter]; change (list_to_set []) with (∅ : gset Z).
        -- set_solver.
        -- replace (blocks w ∖ ∅) with (blocks w) by set_solver. exact HQ.
      * apply NoDup_cons in Hn as [Hna Hn]. change (ptrs []) with (@nil Z). apply IH; [done| |]; cbn [set_blocks blocks].
        -- set_solver.
        -- replace (blocks w ∖ list_to_set [a] ∖ list_to_set (ptrs l)) with (blocks w ∖ list_to_set (a :: ptrs l)) by set_solver. exact HQ.
Qed.

(** What the card has afterwards: more time, and the blocks of [l] as well. *)
Definition later (t : nat) (s : seat) : seat := Seat t (backlog s) (opened s) (gopened s) (got s) (put s) (up_got s) (up_put s) (bad s).
Record took (l : list Z) (w w' : FS) : Prop := {
  tk_at : exists t, (tick (s_env w) <= t)%nat /\ w' = FW (later t (s_env w)) (s_arena w) (s_table w) (s_ep w) (s_mirror_used w) (list_to_set (ptrs l) ∪ blocks w);
  tk_nodup : NoDup (ptrs l);
  tk_new b : b ∈ ptrs l -> Z.of_nat (tick (s_env w)) < b <= Z.of_nat (tick (s_env w'));
}.

Lemma took_aged l w w' : aged w -> took l w w' -> aged w'.
Proof.
  intros Ha [(t & Ht & ->) _ Hnew] b. cbn in *. rewrite elem_of_union, elem_of_list_to_set. intros [Hb|Hb]; [specialize (Hnew _ Hb); lia|]. specialize (Ha _ Hb). lia.
Qed.

Lemma took_trans l1 l2 w w1 w2 : took l1 w w1 -> took l2 w1 w2 -> took (l1 ++ l2) w w2.
Proof.
  intros [(t1 & Ht1 & ->) Hn1 Hnew1] [(t2 & Ht2 & ->) Hn2 Hnew2]. cbn in *. split; rewrite ptrs_app; cbn.
  - exists t2. split; [lia|]. f_equal. rewrite list_to_set_app_L. set_solver.
  - apply NoDup_app. split; [done|]. split; [|done]. intros b H1 H2. specialize (Hnew1 _ H1). specialize (Hnew2 _ H2). lia.
  - intros b. rewrite elem_of_app. intros [H|H]; [specialize (Hnew1 _ H)|specialize (Hnew2 _ H)]; lia.
Qed.

Lemma took_nil w : took [] w w.
Proof. split; cbn; [|by apply NoDup_nil|by intros b Hb%elem_of_nil]. exists (tick (s_env w)). split; [lia|]. destruct w as [[] ? ? ? ? ?]. cbn. f_equal. set_solver. Qed.

(** Giving back all that was had: only time has passed. *)
Lemma took_back l l' w w' : aged w -> took l w w' -> ptrs l' ≡ₚ ptrs l -> took [] w (set_blocks (blocks w' ∖ list_to_set (ptrs l')) w').
Proof.
  intros Ha [(t & Ht & ->) Hn Hnew] Hp. split; cbn; [|by apply NoDup_nil|by intros b Hb%elem_of_nil]. exists t. split; [done|]. unfold set_blocks. cbn. f_equal. rewrite Hp. apply set_eq. intros b. cbn in Hnew.
  rewrite elem_of_difference, !elem_of_union, elem_of_list_to_set. split; [intros [[H|H] Hx]; [done|by right]|]. intros [H|H]; [by apply elem_of_empty in H|]. split; [by right|]. intros H'. specialize (Ha _ H). specialize (Hnew _ H'). lia.
Qed.

Lemma mem_alloc_wp n w : wp (mem_alloc n) (fun a w' => took [a] w w') w.
Proof.
  unfold mem_alloc. wstep. eapply on_fenv_wp; [done|]. cbn [fwd_alloc seat_ops]. wstep. wstep. wstep. destruct (q_alloc q _).
  - rewrite (proj2 (Z.eqb_neq _ 0)) by lia. assert (Hp : ptrs [Z.of_nat (S (tick (s_env w)))] = [Z.of_nat (S (tick (s_env w)))]) by (rewrite ptrs_cons, (proj2 (Z.eqb_neq _ 0)) by lia; done).
    split; rewrite Hp; cbn.
    + exists (S (tick (s_env w))). split; [lia|]. unfold set_blocks. cbn. f_equal. set_solver.
    + apply NoDup_singleton.
    + intros b ->%list_elem_of_singleton. lia.
  - change (0 =? 0) with true. cbv iota. assert (Hp : ptrs [0] = []) by done. split; rewrite Hp; cbn; [|by apply NoDup_nil|by intros b Hb%elem_of_nil].
    exists (S (tick (s_env w))). split; [lia|]. f_equal. set_solver.
Qed.

Lemma ptrs_zeros n : ptrs (repeat 0 n) = [].
Proof. induction n as [|n IH]; [done|]. cbn [repeat]. by rewrite ptrs_cons. Qed.

Lemma alloc_pends_wp k n w : wp (alloc_pends k n) (fun '(l, ok) w' => took l w w' /\ length l = k /\ (ok = true -> Forall (fun a => a <> 0) l)) w.
Proof.
  revert w. induction k as [|k IH]; intros w; cbn [alloc_pends].
  - wstep. split; [apply took_nil|]. split; [done|]. intros _. constructor.
  - wstep. eapply wp_mono; [apply mem_alloc_wp|]. intros a w1 H1. destruct (Z.eqb_spec a 0) as [->|Hne].
    + wstep. split; [|split; [cbn; by rewrite repeat_length|done]]. destruct H1 as [Hx Hn Hnew]. cbn [repeat]. assert (Hp : ptrs (0 :: repeat 0 k) = ptrs [0]) by (rewrite ptrs_cons; apply ptrs_zeros). by split; rewrite Hp.
    + wstep. eapply wp_mono; [apply IH|]. intros [l ok] w2 (H2 & Hl & Hok). wstep. split; [by apply (took_trans [a] l w w1)|]. split; [cbn; by f_equal|]. intros Ht. constructor; [done|by apply Hok].
Qed.

(** Ends of a list apart, and the converse of [wp_bind]. *)
Lemma wp_unbind {A B} (m : F A) (k : A -> F B) (Q : B -> FS -> Prop) w : wp (bind m k) Q w -> wp m (fun a w' => wp (k a) Q w') w.
Proof. unfold wp, bind. by destruct (m w). Qed.
Lemma each_app_wp {A} (l1 l2 : list A) g (Q : unit -> FS -> Prop) w : wp (each (l1 ++ l2) g) Q w -> wp (each l1 g) (fun _ w' => wp (each l2 g) Q w') w.
Proof.
  revert w. induction l1 as [|a l1 IH]; intros w H; cbn [each app] in *; [by wstep|]. wstep. apply wp_unbind in H. eapply wp_mono; [exact H|]. intros [] w1. apply IH.
Qed.
Lemma each_cons_wp {A} (a : A) l g (Q : unit -> FS -> Prop) w : wp (each (a :: l) g) Q w -> wp (g a) (fun _ w' => wp (each l g) Q w') w.
Proof. intros H. apply wp_unbind in H. eapply wp_mono; [exact H|]. by intros []. Qed.
Lemma free_last_wp a (Q : unit -> FS -> Prop) w : a <> 0 -> wp (each [a] free_ptr) Q w -> wp (mem_free a) Q w.
Proof.
  intros Ha H. apply each_cons_wp in H. unfold free_ptr in H. rewrite (proj2 (Z.eqb_neq _ _) Ha) in H. eapply wp_mono; [exact H|]. by intros [].
Qed.

Lemma undo_wp a conn pf pfi buf pends w (Q : option ep -> FS -> Prop) : let l := (if conn =? 0 then [] else pends) ++ [conn; pf; pfi; buf; a] in
  a <> 0 -> NoDup (ptrs l) -> list_to_set (ptrs l) ⊆ blocks w -> Q None (set_blocks (blocks w ∖ list_to_set (ptrs l)) w) -> wp (fwd_undo a conn pf pfi buf pends) Q w.
Proof.
  intros l Ha Hn Hs HQ. assert (H : wp (each l free_ptr) (fun _ w' => Q None w') w) by (by apply each_free_wp).
  unfold fwd_undo, l in *. apply each_app_wp in H. wstep. eapply wp_mono.
  { instantiate (1 := fun _ w' => wp (each [conn; pf; pfi; buf; a] free_ptr) (fun _ w' => Q None w') w'). destruct (conn =? 0); [exact H|]. exact H. }
  clear H. intros [] w1 H. do 4 (wstep; apply each_cons_wp in H; eapply wp_mono; [exact H|]; clear H w1; intros [] w1 H). wstep. apply free_last_wp in H; [|done]. eapply wp_mono; [exact H|]. intros [] w2 H2. by wstep.
Qed.

(** A mirror's areas. *)
Definition areas (e : ep) : list Z := (pend <$> e_conn e) ++ [a_conn e; a_pf e; a_pfi e; a_hostbuf e; e_addr e].

Definition fresh_mirror (port chunk : Z) (e : ep) : Prop :=
  e_addr e <> 0 /\ e_port e = port /\ listen_fd e = -1 /\ running e = false /\ active e = false /\ Fwd.chunk e = chunk /\
  Forall (fun c => host_fd c = -1 /\ guest_fd c = -1 /\ held c = [] /\ pend_off c = 0) (e_conn e).

Definition soft (v d : Z) : Z := if negb (v =? 0) then v else d.

Lemma took_perm l l' w w' : ptrs l ≡ₚ ptrs l' -> took l w w' -> took l' w w'.
Proof.
  intros Hp [(t & Ht & E) Hn Hnew]. split; [|by rewrite <- Hp|intros b Hb; apply Hnew; by rewrite Hp]. exists t. split; [done|]. rewrite E. f_equal. by rewrite Hp.
Qed.

(** Without stale pointers in a fresh block, a mirror is had whole or not at all. *)
Lemma ep_new_wp conns ck port w : (forall a k, q_junk q a k = 0) -> aged w ->
  wp (fwd_ep_new conns ck port) (fun o w' => match o with Some e => took (areas e) w w' /\ fresh_mirror port (soft ck PM_METAL_FWD_CHUNK_DEFAULT) e | None => took [] w w' end) w.
Proof.
  intros Hj Ha. unfold fwd_ep_new. fold (soft conns PM_METAL_FWD_CONN_DEFAULT). fold (soft ck PM_METAL_FWD_CHUNK_DEFAULT). set (n := soft conns _). set (k := soft ck _). cbv zeta.
  wstep. eapply wp_mono; [apply mem_alloc_wp|]. intros a w1 T. destruct (Z.eqb_spec a 0) as [->|Hne]; [wstep; exact (took_perm [0] [] _ _ (Permutation_refl _) T)|].
  do 4 (wstep; eapply wp_mono; [apply mem_alloc_wp|]; let b := fresh "b" in let T' := fresh "T'" in let w2 := fresh "w2" in intros b w2 T'; pose proof (took_trans _ _ _ _ _ T T') as T2; clear dependent w1; rename T2 into T; rename w2 into w1; cbn [app] in T).
  assert (Hgive : forall l w' (pends : list Z), took ([a; b; b0; b1; b2] ++ l) w w' -> ptrs (if b =? 0 then [] else pends) = ptrs l ->
    wp (fwd_undo a b b0 b1 b2 pends) (fun o w' => match o with Some e => took (areas e) w w' /\ fresh_mirror port k e | None => took [] w w' end) w').
  { intros l w' pends T' Hp. set (l' := (if b =? 0 then [] else pends) ++ [b; b0; b1; b2; a]). assert (Hperm : ptrs l' ≡ₚ ptrs ([a; b; b0; b1; b2] ++ l)).
    { unfold l'. rewrite !ptrs_app, Hp. rewrite (Permutation_app_comm (ptrs l)). f_equiv. unfold ptrs. apply filter_Permutation. exact (Permutation_app_comm [b; b0; b1; b2] [a]). }
    pose proof T' as [(t & Ht & E) Hn Hnew]. apply undo_wp; fold l'; [done|by rewrite Hperm| |].
    - rewrite Hperm, E. cbn [blocks]. set_solver.
    - by apply (took_back ([a; b; b0; b1; b2] ++ l) l' w w'). }
  destruct (_ || _) eqn:Eor.
  - apply (Hgive []); [by rewrite app_nil_r|]. destruct (b =? 0); [done|]. cbn [junk seat_ops]. clear -Hj. induction (seq 0 (Z.to_nat n)) as [|x l IH]; [done|]. cbn [fmap list_fmap]. by rewrite Hj, ptrs_cons.
  - wstep. eapply wp_mono; [apply alloc_pends_wp|]. intros [l ok] w2 (T2 & Hl & Hok). pose proof (took_trans _ _ _ _ _ T T2) as T3. destruct ok; cbn [negb].
    + wstep. split.
      * apply (took_perm ([a; b; b0; b1; b2] ++ l)); [|done]. unfold areas. cbn [e_conn a_conn a_pf a_pfi a_hostbuf e_addr]. rewrite <- list_fmap_compose. cbn [pend compose]. rewrite list_fmap_id.
        unfold ptrs. apply filter_Permutation. rewrite (Permutation_app_comm l). f_equiv. exact (Permutation_app_comm [a] [b; b0; b1; b2]).
      * unfold fresh_mirror. cbn. repeat (split; [done|]). apply Forall_fmap, Forall_true. by intros x.
    + apply (Hgive l); [done|]. by destruct (b =? 0).
Qed.
(** ** Giving a mirror back *)

Definition pos (l : list Z) : list Z := filter (fun x => 0 <= x) l.
Lemma pos_cons x l : pos (x :: l) = if 0 <=? x then x :: pos l else pos l.
Proof. unfold pos. destruct (Z.leb_spec 0 x) as [H|H]; [by rewrite filter_cons_True|by rewrite filter_cons_False by lia]. Qed.

Definition socks (e : ep) : list Z := pos (listen_fd e :: (host_fd <$> e_conn e)).
Definition gsocks (e : ep) : list Z := pos (guest_fd <$> e_conn e).

(** The sockets the mirror has open are those it holds. *)
Record holds (e : ep) (s : seat) : Prop := {
  hd_hosts : NoDup (socks e); hd_opened : opened s = list_to_set (socks e);
  hd_guests : NoDup (gsocks e); hd_gopened : gopened s = list_to_set (gsocks e); hd_good : bad s = false }.

(** Less those sockets, less those blocks. *)
Definition shut (hs gs bs : gset Z) (w : FS) : FS :=
  FW (set_gopened (gopened (s_env w) ∖ gs) (set_opened (opened (s_env w) ∖ hs) (s_env w))) (s_arena w) (s_table w) (s_ep w) (s_mirror_used w) (blocks w ∖ bs).

Lemma shut_shut h1 g1 b1 h2 g2 b2 w : shut h2 g2 b2 (shut h1 g1 b1 w) = shut (h1 ∪ h2) (g1 ∪ g2) (b1 ∪ b2) w.
Proof. unfold shut, set_gopened, set_opened. cbn. f_equal; [f_equal|]; set_solver. Qed.
Lemma shut_none w : shut ∅ ∅ ∅ w = w.
Proof. unfold shut, set_gopened, set_opened. destruct w as [[] ? ? ? ? ?]. cbn. f_equal; [f_equal|]; set_solver. Qed.

Lemma host_close_wp fd w : fd ∈ opened (s_env w) \/ fd < 0 -> wp (when (0 <=? fd) (on_fenv_ (host_close fd))) (fun _ w' => w' = shut (list_to_set (pos [fd])) ∅ ∅ w) w.
Proof.
  intros Hf. rewrite pos_cons. destruct (Z.leb_spec 0 fd) as [H|H]; cbn [when]; [|wstep; symmetry; apply shut_none]. destruct Hf as [Hf|]; [|lia].
  unfold on_fenv_. wstep. cbn [host_close seat_ops]. rewrite host_ok_in, flag_true by done. unfold shut, set_gopened, set_opened. cbn. f_equal; [f_equal|]; set_solver.
Qed.
Lemma guest_close_wp fd w : fd ∈ gopened (s_env w) \/ fd < 0 -> wp (when (0 <=? fd) (on_fenv_ (guest_close fd))) (fun _ w' => w' = shut ∅ (list_to_set (pos [fd])) ∅ w) w.
Proof.
  intros Hf. rewrite pos_cons. destruct (Z.leb_spec 0 fd) as [H|H]; cbn [when]; [|wstep; symmetry; apply shut_none]. destruct Hf as [Hf|]; [|lia].
  unfold on_fenv_. wstep. cbn [guest_close seat_ops]. rewrite guest_ok_in, flag_true by done. unfold shut, set_gopened, set_opened. cbn. f_equal; [f_equal|]; set_solver.
Qed.
Lemma free_shut_wp a w : (a <> 0 -> a ∈ blocks w) -> wp (free_ptr a) (fun _ w' => w' = shut ∅ ∅ (list_to_set (ptrs [a])) w) w.
Proof.
  intros Ha. apply free_ptr_wp; [done|]. unfold shut, set_blocks, set_gopened, set_opened. destruct w as [[] ? ? ? ? ?]. cbn. f_equal. f_equal; set_solver.
Qed.

Lemma elem_of_pos x l : x ∈ pos l <-> x ∈ l /\ 0 <= x.
Proof. unfold pos. rewrite list_elem_of_filter. tauto. Qed.
Lemma elem_of_ptrs x l : x ∈ ptrs l <-> x ∈ l /\ x <> 0.
Proof. unfold ptrs. rewrite list_elem_of_filter. tauto. Qed.

Definition give_conn (c : conn) : @F seat unit :=
  when (0 <=? host_fd c) (on_fenv_ (host_close (host_fd c))) ;; when (0 <=? guest_fd c) (on_fenv_ (guest_close (guest_fd c))) ;; free_ptr (pend c).

Lemma pos_head x l : pos (x :: l) = pos [x] ++ pos l.
Proof. exact (filter_app _ [x] l). Qed.
Lemma ptrs_head x l : ptrs (x :: l) = ptrs [x] ++ ptrs l.
Proof. exact (filter_app _ [x] l). Qed.
Lemma pos_sub x (X : gset Z) : list_to_set (pos [x]) ⊆ X -> x ∈ X \/ x < 0.
Proof. intros H. destruct (decide (0 <= x)); [left|right; lia]. apply H, elem_of_list_to_set, elem_of_pos. split; [by left|done]. Qed.
Lemma ptrs_sub x (X : gset Z) : list_to_set (ptrs [x]) ⊆ X -> x <> 0 -> x ∈ X.
Proof. intros H Hx. apply H, elem_of_list_to_set, elem_of_ptrs. split; [by left|done]. Qed.
(** The rest of a list is there after its head has gone. *)
Lemma sub_rest (l1 l2 : list Z) (X : gset Z) : NoDup (l1 ++ l2) -> list_to_set (l1 ++ l2) ⊆ X -> list_to_set l1 ⊆ X /\ NoDup l2 /\ list_to_set l2 ⊆ X ∖ list_to_set l1.
Proof. rewrite NoDup_app, list_to_set_app_L. intros (_ & Hd & Hn) Hs. split; [set_solver|]. split; [done|]. set_solver. Qed.

Ltac shut_set := cbn [shut s_env set_gopened set_opened gopened opened blocks]; set_solver.

Lemma give_conns_wp l w : NoDup (pos (host_fd <$> l)) -> list_to_set (pos (host_fd <$> l)) ⊆ opened (s_env w) -> NoDup (pos (guest_fd <$> l)) -> list_to_set (pos (guest_fd <$> l)) ⊆ gopened (s_env w) ->
  NoDup (ptrs (pend <$> l)) -> list_to_set (ptrs (pend <$> l)) ⊆ blocks w ->
  wp (each l give_conn) (fun _ w' => w' = shut (list_to_set (pos (host_fd <$> l))) (list_to_set (pos (guest_fd <$> l))) (list_to_set (ptrs (pend <$> l))) w) w.
Proof.
  revert w. induction l as [|c l IH]; intros w H1 H2 G1 G2 B1 B2; cbn [each]; [wstep; symmetry; apply shut_none|]. rewrite !fmap_cons in *. rewrite (pos_head (host_fd c)), (pos_head (guest_fd c)), (ptrs_head (pend c)) in *.
  destruct (sub_rest _ _ _ H1 H2) as (Ha & H1' & H2'). destruct (sub_rest _ _ _ G1 G2) as (Ga & G1' & G2'). destruct (sub_rest _ _ _ B1 B2) as (Ba & B1' & B2').
  wstep. unfold give_conn at 1. wstep. eapply wp_mono; [by apply host_close_wp, pos_sub|]. intros [] w1 ->. wstep. eapply wp_mono; [apply guest_close_wp, pos_sub; shut_set|]. intros [] w2 ->. rewrite shut_shut.
  eapply wp_mono; [apply free_shut_wp, ptrs_sub; shut_set|]. intros [] w3 ->. rewrite shut_shut.
  eapply wp_mono; [apply IH; try done; shut_set|]. intros [] w4 ->. rewrite shut_shut, !list_to_set_app_L. f_equal; set_solver.
Qed.

Lemma release_wp i e w (Q : unit -> FS -> Prop) : s_ep w !! i = Some (Some e) -> holds e (s_env w) -> e_addr e <> 0 -> NoDup (ptrs (areas e)) -> list_to_set (ptrs (areas e)) ⊆ blocks w ->
  (forall w', opened (s_env w') = ∅ -> gopened (s_env w') = ∅ -> bad (s_env w') = false -> tick (s_env w') = tick (s_env w) -> s_arena w' = s_arena w -> s_table w' = s_table w -> s_ep w' = <[i := None]> (s_ep w) ->
    blocks w' = blocks w ∖ list_to_set (ptrs (areas e)) -> Q tt w') -> wp (fwd_ep_release i) Q w.
Proof.
  intros Hi [S1 S2 G1 G2 Hbad] Ha Hn Hs HQ. unfold fwd_ep_release. wstep. wstep. rewrite Hi. wstep.
  assert (Hjoin : wp (when (running e && active e) (on_fenv_ join_thread)) (fun _ w' => w' = w) w) by (destruct (_ && _); cbn [when]; [unfold on_fenv_; wstep; by destruct w|by wstep]).
  eapply wp_mono; [exact Hjoin|]. intros [] w1 ->. unfold socks in *. rewrite pos_head in *. fold (gsocks e) in *.
  destruct (sub_rest _ _ (opened (s_env w)) S1 ltac:(by rewrite S2)) as (La & L1 & L2).
  assert (Hareas : ptrs (areas e) = ptrs (pend <$> e_conn e) ++ ptrs [a_conn e] ++ ptrs [a_pf e] ++ ptrs [a_pfi e] ++ ptrs [a_hostbuf e] ++ ptrs [e_addr e]).
  { unfold areas. by rewrite ptrs_app, (ptrs_head (a_conn e)), (ptrs_head (a_pf e)), (ptrs_head (a_pfi e)), (ptrs_head (a_hostbuf e)). }
  rewrite Hareas in *. destruct (sub_rest _ _ _ Hn Hs) as (B1 & N1 & R1). destruct (sub_rest _ _ _ N1 R1) as (B2 & N2 & R2). destruct (sub_rest _ _ _ N2 R2) as (B3 & N3 & R3). destruct (sub_rest _ _ _ N3 R3) as (B4 & N4 & R4). destruct (sub_rest _ _ _ N4 R4) as (B5 & N5 & R5).
  wstep. eapply wp_mono; [by apply host_close_wp, pos_sub|]. intros [] w1 ->.
  wstep. eapply wp_mono; [apply give_conns_wp|]; [done|exact L2|done| |by apply NoDup_app in Hn as (? & _)| |]; cbn [shut s_env set_gopened set_opened gopened opened blocks].
  { by rewrite G2, difference_empty_L. }
  { by rewrite difference_empty_L. }
  intros [] w2 ->. rewrite shut_shut, !(left_id_L ∅ (∪)).
  do 4 (wstep; eapply wp_mono; [apply free_shut_wp, ptrs_sub; cbn [shut blocks]; rewrite <- ?difference_difference_l_L; assumption|intros [] w3 ->; rewrite shut_shut, !(right_id_L ∅ (∪))]).
  wstep. wstep. wstep. unfold wp at 1, mem_free. rewrite bool_decide_eq_true_2 by (apply ptrs_sub; [|done]; cbn [set_eps blocks shut]; rewrite <- !difference_difference_l_L; assumption). wstep.
  clear B1 B2 B3 B4 B5 R1 R2 R3 R4 R5 N1 N2 N3 N4 N5 Hs Hn. assert (Hfin : forall w', s_env w' = s_env (shut (list_to_set (socks e)) (list_to_set (gsocks e)) ∅ w) -> s_arena w' = s_arena w -> s_table w' = s_table w -> s_ep w' = <[i := None]> (s_ep w) ->
    blocks w' = blocks w ∖ list_to_set (ptrs (areas e)) -> Q tt w').
  { intros w' E1 E2 E3 E4 E5. apply HQ; rewrite ?E1; try done; [| |by rewrite Hareas in E5]; cbn [shut s_env set_gopened set_opened gopened opened].
    - rewrite S2, <- pos_head. fold (socks e). apply difference_diag_L.
    - rewrite G2. apply difference_diag_L. }
  assert (Hlast : list_to_set (ptrs [e_addr e]) = ({[e_addr e]} : gset Z)) by (rewrite ptrs_cons, (proj2 (Z.eqb_neq _ _) Ha); cbn; apply (right_id_L ∅ (∪))).
  match goal with |- Q tt (if _ then ?x else _) => set (w4 := x) end.
  assert (H4 : s_env w4 = s_env (shut (list_to_set (socks e)) (list_to_set (gsocks e)) ∅ w) /\ blocks w4 = blocks w ∖ list_to_set (ptrs (areas e))).
  { split; unfold w4; cbn [set_used set_blocks set_eps shut s_env blocks]; [by rewrite <- list_to_set_app_L, <- pos_head|]. rewrite Hareas, !list_to_set_app_L, Hlast, difference_difference_l_L. f_equal. by rewrite !(assoc_L (∪)). }
  destruct H4 as [H4 H5]. destruct (_ =? 0); by apply Hfin.
Qed.
(** ** One mirror on a seat *)

(** No mirror: only the table is had. *)
Record idle (w : FS) : Prop := {
  id_arena : s_arena w = true; id_eps : Forall (fun o => o = None) (s_ep w); id_aged : aged w;
  id_opened : opened (s_env w) = ∅; id_gopened : gopened (s_env w) = ∅; id_good : bad (s_env w) = false;
  id_blocks : blocks w = list_to_set (ptrs [s_table w]) }.

(** Mirror [e] in slot [i], and no other. *)
Record up (i : nat) (e : ep) (w : FS) : Prop := {
  up_arena : s_arena w = true; up_slot : s_ep w !! i = Some (Some e); up_eps : Forall (fun o => o = None) (<[i := None]> (s_ep w)); up_aged : aged w;
  up_addr : e_addr e <> 0; up_nodup : NoDup (ptrs (areas e)); up_apart : list_to_set (ptrs (areas e)) ## (list_to_set (ptrs [s_table w]) : gset Z);
  up_blocks : blocks w = list_to_set (ptrs (areas e)) ∪ list_to_set (ptrs [s_table w]) }.

Lemma up_release i e w (Q : unit -> FS -> Prop) : up i e w -> holds e (s_env w) -> (forall w', idle w' -> length (s_ep w') = length (s_ep w) -> Q tt w') -> wp (fwd_ep_release i) Q w.
Proof.
  intros [] Hh HQ. apply (release_wp i e); [done|done|done|done|rewrite up_blocks0; set_solver|]. intros w' E1 E2 E3 E4 E5 E6 E7 E8. apply HQ; [|by rewrite E7, length_insert].
  assert (Hb : blocks w' = list_to_set (ptrs [s_table w])) by (rewrite E8, up_blocks0; set_solver).
  constructor; rewrite ?E5, ?E6, ?E7; try done. intros b Hx. rewrite E4. apply up_aged0. rewrite up_blocks0. rewrite Hb in Hx. set_solver.
Qed.

Lemma minv_holds w : minv w -> holds (me w) (env w).
Proof.
  intros [Hl _ Hc _ Hh Hg Ho Hgo Hb].
  assert (Eh : socks (me w) = listen_fd (me w) :: fds host_fd (e_conn (me w))).
  { unfold socks. rewrite pos_cons, (proj2 (Z.leb_le _ _)) by done. f_equal. clear. induction (e_conn (me w)) as [|c l IH]; [done|]. rewrite fmap_cons, pos_cons, fds_cons, IH. done. }
  assert (Eg : gsocks (me w) = fds guest_fd (e_conn (me w))).
  { unfold gsocks. clear -Hc. induction Hc as [|c l Hok _ IH]; [done|]. rewrite fmap_cons, pos_cons, fds_cons, IH. unfold conn_ok in Hok. destruct (busy c).
    - by rewrite (proj2 (Z.leb_le _ _)) by apply Hok.
    - destruct Hok as (_ & _ & -> & _). done. }
  constructor; by rewrite ?Eh, ?Eg.
Qed.

Lemma find_ep_spec f k l : match find_ep k f l with Some i => exists j o, i = (k + j)%nat /\ l !! j = Some o /\ f o = true | None => Forall (fun o => f o = false) l end.
Proof.
  revert k. induction l as [|o l IH]; intros k; cbn [find_ep]; [done|]. destruct (f o) eqn:Ef; [exists 0%nat, o; split; [lia|done]|]. specialize (IH (S k)). destruct (find_ep (S k) f l) as [i|]; [|by constructor].
  destruct IH as (j & o' & -> & Hj). exists (S j), o'. split; [lia|done].
Qed.

Definition free_conn (c : conn) : Prop := host_fd c = -1 /\ guest_fd c = -1 /\ held c = [] /\ pend_off c = 0.

Lemma free_busy c : free_conn c -> busy c = false.
Proof. by intros (H & _); unfold busy; rewrite H. Qed.
Lemma free_fds pj l : Forall free_conn l -> fds pj l = [].
Proof. induction 1 as [|c l Hc _ IH]; [done|]. by rewrite fds_cons, free_busy. Qed.

Lemma fresh_minv e s : Forall free_conn (e_conn e) -> 0 < Fwd.chunk e <= U32_MAX -> opened s = {[listen_fd e]} -> gopened s = ∅ -> bad s = false -> 0 <= listen_fd e -> minv (PW s e).
Proof.
  intros Hc Hk Ho Hg Hb Hl. constructor; cbn [me env]; rewrite ?(free_fds _ _ Hc); try done.
  - eapply Forall_impl; [exact Hc|]. intros c Hf. unfold conn_ok. rewrite (free_busy _ Hf). destruct Hf as (-> & -> & -> & ->). done.
  - eapply Forall_impl; [exact Hc|]. intros c (_ & _ & -> & _). cbn. lia.
  - apply NoDup_singleton.
  - by apply NoDup_nil.
  - rewrite Ho. cbn. by rewrite (right_id_L ∅ (∪)).
Qed.

Lemma fresh_holds e s : Forall free_conn (e_conn e) -> opened s = ∅ -> gopened s = ∅ -> bad s = false -> listen_fd e < 0 -> holds e s.
Proof.
  intros Hc Ho Hg Hb Hl. assert (Hp : forall pj : conn -> Z, Forall (fun c => pj c = -1) (e_conn e) -> pos (pj <$> e_conn e) = []) by (clear; intros pj; induction 1 as [|c l E _ IH]; [done|]; cbn beta in E; rewrite fmap_cons, pos_cons, E; exact IH).
  assert (Es : socks e = []) by (unfold socks; rewrite pos_cons, (proj2 (Z.leb_gt _ _)) by done; apply Hp; eapply Forall_impl; [exact Hc|]; by intros c (? & _)).
  assert (Eg : gsocks e = []) by (apply Hp; eapply Forall_impl; [exact Hc|]; by intros c (_ & ? & _)).
  constructor; rewrite ?Es, ?Eg; try done; by apply NoDup_nil.
Qed.

Lemma took_later l w w' : took l w w' -> s_arena w' = s_arena w /\ s_table w' = s_table w /\ s_ep w' = s_ep w /\ blocks w' = list_to_set (ptrs l) ∪ blocks w /\
  opened (s_env w') = opened (s_env w) /\ gopened (s_env w') = gopened (s_env w) /\ bad (s_env w') = bad (s_env w).
Proof. by intros [(t & _ & ->) _ _]. Qed.

Lemma took_idle w w' : idle w -> took [] w w' -> idle w'.
Proof.
  intros [] T. pose proof (took_aged _ _ _ id_aged0 T). apply took_later in T as (E1 & E2 & E3 & E4 & E5 & E6 & E7). constructor; rewrite ?E1, ?E2, ?E3, ?E5, ?E6, ?E7; try done. rewrite E4. cbn. by rewrite (left_id_L ∅ (∪)).
Qed.

(** The mirror's record goes to its slot. *)
Lemma took_up w w' i e e' s u : idle w -> took (areas e) w w' -> (i < length (s_ep w))%nat -> areas e' = areas e -> e_addr e' = e_addr e -> e_addr e <> 0 -> (tick (s_env w') <= tick s)%nat ->
  up i e' (FW s (s_arena w') (s_table w') (<[i := Some e']> (s_ep w')) u (blocks w')).
Proof.
  intros [] T Hi Ea Ead Hne Ht. pose proof (took_aged _ _ _ id_aged0 T) as Hag. pose proof T as [_ Hn Hnew]. apply took_later in T as (E1 & E2 & E3 & E4 & E5 & E6 & E7).
  constructor; cbn [s_arena s_ep s_table blocks s_env]; rewrite ?E1, ?E2, ?E3, ?Ea, ?Ead; try done.
  - by apply list_lookup_insert_eq.
  - rewrite list_insert_insert_eq. by apply Forall_insert.
  - intros b Hb. cbn in *. specialize (Hag b Hb). lia.
  - intros b Hb1 Hb2. apply elem_of_list_to_set in Hb1. specialize (Hnew _ Hb1). rewrite <- id_blocks0 in Hb2. specialize (id_aged0 _ Hb2). lia.
  - by rewrite E4, id_blocks0.
Qed.

(** What listen gives: nothing, or a mirror whose pump may start. *)
Definition listening (port : Z) (id : Z) (w : FS) : Prop :=
  id = -1 /\ idle w \/ exists i e, id = Z.of_nat i /\ up i e w /\ running e = true /\ e_port e = port /\ minv (PW (s_env w) e).

Lemma mirror_slot_wp w (Q : option nat -> FS -> Prop) : idle w -> (forall o w', idle w' -> match o with Some i => (i < length (s_ep w'))%nat | None => True end -> Q o w') ->
  wp (match find_ep 0 unused (s_ep w) with
      | Some i => ret (Some i)
      | None => t <- gets s_table ;; g <- on_fenv (ep_grow t (length (s_ep w))) ;;
                match g with
                | None => ret None
                | Some (t', n) => modify (fun w' => FW (s_env w') (s_arena w') t' (s_ep w ++ repeat None (n - length (s_ep w))) (s_mirror_used w') ({[t']} ∪ blocks w' ∖ {[t]})) ;; ret (Some (length (s_ep w)))
                end
      end) Q w.
Proof.
  intros Hid HQ. pose proof (find_ep_spec unused 0 (s_ep w)) as Hf. destruct (find_ep 0 unused (s_ep w)) as [i|].
  - destruct Hf as (j & o & -> & Hj & _). wstep. apply HQ; [done|]. by eapply lookup_lt_Some.
  - wstep. wstep. wstep. eapply on_fenv_wp; [done|]. pose proof Hid as []. destruct (q_grow q _) as [k|].
    + wstep. wstep. wstep. cbn [s_env s_arena s_table s_ep s_mirror_used blocks]. apply HQ; [|cbn; rewrite length_app, repeat_length; lia].
      set (t' := Z.of_nat _). assert (Hp : ptrs [t'] = [t']) by (rewrite ptrs_cons, (proj2 (Z.eqb_neq _ 0)) by lia; done).
      assert (Hb : {[t']} ∪ blocks w ∖ {[s_table w]} = list_to_set (ptrs [t'])).
      { rewrite Hp, id_blocks0, ptrs_cons. destruct (s_table w =? 0); cbn; set_solver. }
      constructor; cbn [s_env s_arena s_table s_ep s_mirror_used blocks]; try done.
      * apply Forall_app. split; [done|]. apply Forall_forall. by intros o Ho%list_elem_of_In%repeat_spec.
      * intros b. cbn [blocks]. rewrite Hb, Hp, elem_of_list_to_set, list_elem_of_singleton. intros ->. cbn. lia.
    + wstep. apply HQ; [|done]. constructor; try done. intros b Hb. specialize (id_aged0 b Hb). cbn. lia.
Qed.

(** The listener, or nothing left of it. *)
Lemma listener_wp port w (Q : Z -> FS -> Prop) : opened (s_env w) = ∅ -> gopened (s_env w) = ∅ -> bad (s_env w) = false ->
  (forall fd s, (tick (s_env w) <= tick s)%nat -> gopened s = ∅ -> bad s = false -> fd = -1 /\ opened s = ∅ \/ 0 <= fd /\ opened s = {[fd]} ->
     Q fd (FW s (s_arena w) (s_table w) (s_ep w) (s_mirror_used w) (blocks w))) -> wp (fwd_open_listener port) Q w.
Proof.
  intros Ho Hg Hb HQ. unfold fwd_open_listener. wstep. destruct (seat_host_socket q (s_env w)) as [s fd] eqn:Es. eapply on_fenv_wp; [exact Es|].
  assert (Hs : fd = -1 /\ s = next (s_env w) \/ 0 <= fd /\ s = set_opened ({[fd]} ∪ opened (s_env w)) (next (s_env w))).
  { revert Es. unfold seat_host_socket. cbv zeta. destruct (Z.ltb_spec (q_host_socket q (tick (s_env w))) 0) as [Hneg|Hpos]; cbn [orb]; [|destruct (host_ok _ _)]; intros [= <- <-]; auto. }
  destruct Hs as [[-> ->]|[Hfd Es']]. { change (-1 <? 0) with true. cbv iota. wstep. apply HQ; cbn; try done; [lia|by left]. }
  rewrite (proj2 (Z.ltb_ge fd 0)) by lia. assert (Hop : opened s = {[fd]}) by (rewrite Es', Ho; cbn; apply (right_id_L ∅ (∪))). assert (Hin : fd ∈ opened s) by (rewrite Hop; by apply elem_of_singleton).
  assert (Hts : (tick (s_env w) <= tick s)%nat /\ gopened s = ∅ /\ bad s = false) by (rewrite Es'; cbn; auto with lia). destruct Hts as (Hts & Hgs & Hbs).
  wstep. eapply on_fenv_wp; [done|]. cbn [s_env s_arena s_table s_ep s_mirror_used blocks]. rewrite host_ok_in, flag_true by done.
  assert (Hend : forall rc s', opened s' = opened s -> (tick s <= tick s')%nat -> gopened s' = ∅ -> bad s' = false ->
    wp (if rc <? 0 then on_fenv_ (host_close fd) ;; ret (-1) else ret fd) Q (FW s' (s_arena w) (s_table w) (s_ep w) (s_mirror_used w) (blocks w))).
  { intros rc s' E1 E2 E3 E4. destruct (rc <? 0).
    - wstep. unfold on_fenv_. wstep. wstep. cbn [s_env s_arena s_table s_ep s_mirror_used blocks host_close seat_ops]. rewrite host_ok_in, flag_true by by rewrite E1.
      apply HQ; cbn; try done; [lia|left; split; [done|]]. rewrite E1, Hop. apply difference_diag_L.
    - wstep. apply HQ; try done; [lia|right; by rewrite E1]. }
  wstep. destruct (_ <? 0); [wstep; apply Hend; cbn; try done; lia|]. eapply on_fenv_wp; [done|]. cbn [s_env s_arena s_table s_ep s_mirror_used blocks]. rewrite host_ok_in, flag_true by done. apply Hend; cbn; try done; lia.
Qed.

Lemma listen_wp conns ck port w : (forall a k, q_junk q a k = 0) -> 0 <= ck <= U32_MAX -> idle w -> wp (pm_metal_fwd_listen conns ck port) (listening port) w.
Proof.
  intros Hj Hck Hid. unfold pm_metal_fwd_listen. wstep. wstep. rewrite (id_arena _ Hid). cbn [negb]. wstep. wstep.
  pose proof (find_ep_spec (mirrors port) 0 (s_ep w)) as Hf. destruct (find_ep 0 (mirrors port) (s_ep w)) as [i|].
  { destruct Hf as (j & o & _ & Hj' & Hm). pose proof (Forall_lookup_1 _ _ _ _ (id_eps _ Hid) Hj') as ->. done. }
  clear Hf. wstep. apply mirror_slot_wp; [done|]. intros [slot|] w1 Hid1 Hslot; [|wstep; by left]. wstep. eapply wp_mono; [apply ep_new_wp; [done|apply Hid1]|].
  intros [e|] w2 T; [|wstep; left; split; [done|by eapply took_idle]]. destruct T as [T (Hadd & Hport & Hl & Hr & Ha & Hc & Hfree)]. fold free_conn in Hfree. pose proof (took_later _ _ _ T) as (E1 & E2 & E3 & E4 & E5 & E6 & E7).
  destruct Hid1 as [Har1 Heps1 Hag1 Ho1 Hg1 Hb1 Hbl1]. assert (Hid1 : idle w1) by by constructor. rewrite Ho1 in E5. rewrite Hg1 in E6. rewrite Hb1 in E7.
  wstep. apply listener_wp; [done..|]. intros fd s Ht Hg Hb Ho. cbn [s_env s_arena s_table s_ep s_mirror_used blocks].
  wstep. wstep. wstep. wstep. unfold set_used, set_eps. cbn [s_env s_arena s_table s_ep s_mirror_used blocks].
  set (w3 := FW _ _ _ _ _ _). assert (Hup : up slot (set_listen fd e) w3) by (by apply (took_up w1 w2 slot e)).
  assert (Hgone : forall s' w', s_env w' = s' -> up slot (set_listen fd e) w' -> holds (set_listen fd e) s' -> wp (fwd_ep_release slot ;; ret (-1)) (listening port) w').
  { intros s' w' <- Hu Hh. wstep. apply (up_release _ _ _ _ Hu Hh). intros w4 Hid4 _. wstep. by left. }
  destruct Ho as [[-> Ho]|[Hfd Ho]].
  { change (-1 <? 0) with true. cbv iota. apply (Hgone s w3); [done|done|]. by apply fresh_holds. }
  rewrite (proj2 (Z.ltb_ge fd 0)) by lia. wstep. eapply on_fenv_wp; [done|]. cbn [s_env s_arena s_table s_ep s_mirror_used blocks].
  assert (Hk : 0 < Fwd.chunk e <= U32_MAX) by (rewrite Hc; unfold soft; destruct (Z.eqb_spec ck 0) as [->|Hne]; cbn; [by compute|lia]).
  assert (Hm : forall r a, minv (PW (next s) (set_running r a (set_listen fd e)))).
  { intros r a. by apply fresh_minv. }
  destruct (q_thread q _); cbn [negb].
  - wstep. wstep. wstep. right. exists slot, (set_running true true (set_listen fd e)). split; [done|]. split; [|split; [done|split; [done|apply Hm]]].
    unfold set_eps, w3. cbn [s_env s_arena s_table s_ep s_mirror_used blocks]. rewrite list_insert_insert_eq. apply (took_up w1 w2 slot e); try done. cbn. lia.
  - apply (Hgone (next s)); [done| |].
    + apply (took_up w1 w2 slot e); try done. cbn. lia.
    + apply (minv_holds (PW (next s) (set_listen fd e))). by apply fresh_minv.
Qed.

Lemma like_areas (w w' : @pw seat) : like w w' -> areas (me w') = areas (me w) /\ e_addr (me w') = e_addr (me w).
Proof. intros (H & Hp & _). unfold areas. rewrite Hp. injection H as E1 _ _ _ _ E2 _ E3 E4 E5. by rewrite E1, E2, E3, E4, E5. Qed.

(** The pump's thread, from its start to its end. *)
Definition pump_slot (fuel : nat) (live : list bool) (i : nat) : @F seat unit := fun w =>
  match s_ep w !! i with
  | Some (Some e) => match fwd_pump fuel live 0 (PW (s_env w) e) with
                     | Done _ p => Done tt (FW (env p) (s_arena w) (s_table w) (<[i := Some (me p)]> (s_ep w)) (s_mirror_used w) (blocks w))
                     | Fault => Fault
                     | NoFuel => NoFuel
                     end
  | _ => Fault
  end.

(** Open, pump while [live], stop; then the card itself. *)
Definition life (fuel : nat) (live : list bool) (conns ck port : Z) : @F seat Z :=
  pm_metal_fwd_init true ;;
  id <- pm_metal_fwd_listen conns ck port ;;
  rc <- (if id <? 0 then ret id else pump_slot fuel live (Z.to_nat id) ;; pm_metal_fwd_stop id) ;;
  pm_metal_fwd_deinit ;; ret rc.

Lemma pump_slot_wp fuel live i e w : (forall t, (q_backlog q t < fuel)%nat) -> up i e w -> minv (PW (s_env w) e) ->
  wp (pump_slot fuel live i) (fun _ w' => exists e', up i e' w' /\ holds e' (s_env w') /\ length (s_ep w') = length (s_ep w)) w.
Proof.
  intros Hf Hu Hm. unfold wp, pump_slot. rewrite (up_slot _ _ _ Hu). pose proof (pump_wp q fuel live 0 _ Hf Hm) as Hp. unfold wp in Hp. destruct (fwd_pump _ _ _ _) as [[] p| |]; [|done|done]. destruct Hp as [Hm' Hl].
  pose proof (like_areas _ _ Hl) as [Ea Ead]. destruct Hl as (_ & _ & Ht). cbn [env me] in *. pose proof Hu as []. exists (me p). split; [|split; [by apply (minv_holds p)|cbn; by rewrite length_insert]].
  constructor; cbn [s_arena s_ep s_table blocks s_env]; rewrite ?Ea, ?Ead; try done.
  - apply list_lookup_insert_eq. by eapply lookup_lt_Some.
  - by rewrite list_insert_insert_eq.
  - intros b Hb. specialize (up_aged0 b Hb). cbn in *. lia.
Qed.

Lemma deinit_wp w : idle w -> wp pm_metal_fwd_deinit (fun _ w' => blocks w' = ∅ /\ opened (s_env w') = ∅ /\ gopened (s_env w') = ∅ /\ bad (s_env w') = false /\ s_ep w' = []) w.
Proof.
  intros Hid. unfold pm_metal_fwd_deinit. wstep. wstep. wstep. assert (Heach : forall l, wp (each l fwd_ep_release) (fun _ w' => w' = w) w).
  { induction l as [|i l IH]; cbn [each]; [by wstep|]. wstep. unfold fwd_ep_release at 1. wstep. wstep. destruct (s_ep w !! i) as [o|] eqn:E; [|wstep; exact IH]. pose proof (Forall_lookup_1 _ _ _ _ (id_eps _ Hid) E) as ->. wstep. exact IH. }
  eapply wp_mono; [apply Heach|]. intros [] w1 ->. pose proof Hid as []. wstep. wstep. wstep. apply free_ptr_wp; [rewrite id_blocks0; by apply ptrs_sub|]. wstep. cbn. split; [|done]. rewrite id_blocks0. apply difference_diag_L.
Qed.

Lemma life_wp fuel live conns ck port w : s_env w = seat0 -> blocks w = ∅ -> (forall a k, q_junk q a k = 0) -> (forall t, (q_backlog q t < fuel)%nat) -> 0 <= ck <= U32_MAX ->
  wp (life fuel live conns ck port) (fun _ w' => blocks w' = ∅ /\ opened (s_env w') = ∅ /\ gopened (s_env w') = ∅ /\ bad (s_env w') = false /\ s_ep w' = []) w.
Proof.
  intros Es Eb Hj Hf Hck. unfold life. wstep. unfold wp at 1. cbn [pm_metal_fwd_init negb]. rewrite Es, Eb.
  set (w1 := FW _ _ _ _ _ _). assert (Hid : idle w1) by by constructor.
  wstep. eapply wp_mono; [by apply listen_wp|]. intros id w2 Hl. wstep.
  assert (Hend : forall (rc : Z) (w' : FS), idle w' -> wp (pm_metal_fwd_deinit ;; ret rc) (fun _ w' => blocks w' = ∅ /\ opened (s_env w') = ∅ /\ gopened (s_env w') = ∅ /\ bad (s_env w') = false /\ s_ep w' = []) w').
  { intros rc w' Hi. wstep. eapply wp_mono; [by apply deinit_wp|]. intros [] w3 H3. by wstep. }
  destruct Hl as [[-> Hi]|(i & e & -> & Hu & _ & _ & Hm)].
  - change (-1 <? 0) with true. cbv iota. wstep. by apply Hend.
  - rewrite (proj2 (Z.ltb_ge _ 0)), Nat2Z.id by lia. wstep. eapply wp_mono; [by apply (pump_slot_wp fuel live i e)|]. intros [] w3 (e' & Hu' & Hh' & Hlen). unfold pm_metal_fwd_stop. wstep. wstep.
    pose proof (lookup_lt_Some _ _ _ (up_slot _ _ _ Hu')) as Hlt. rewrite (proj2 (Z.ltb_ge _ 0)), (proj2 (Z.leb_gt _ _)), Nat2Z.id by lia. cbn [orb]. wstep. apply (up_release i e'); [done|done|]. intros w4 Hid4 _. wstep. by apply Hend.
Qed.
End life.

(** ** What a mirror promises *)

(** C34: however the host and the guest's stack answer, and however often they
    take less than they are offered, the pump ends as soon as it is told to,
    never uses a socket it has not open, and for every connection the bytes read
    from the guest are those written to the host followed by those it holds,
    which are never more than one chunk. *)
Theorem mirror_lossless (q : oracle) fuel live wait e s : (forall t, (q_backlog q t < fuel)%nat) ->
  Forall free_conn (e_conn e) -> 0 < Fwd.chunk e <= U32_MAX -> 0 <= listen_fd e -> opened s = {[listen_fd e]} -> gopened s = ∅ -> bad s = false ->
  exists w, fwd_pump (FwdOps0 := seat_ops q) fuel live wait (PW s e) = Done tt w /\ bad (env w) = false /\
    opened (env w) = {[listen_fd e]} ∪ list_to_set (fds host_fd (e_conn (me w))) /\ gopened (env w) = list_to_set (fds guest_fd (e_conn (me w))) /\
    forall c, c ∈ e_conn (me w) -> 0 <= host_fd c -> zlen (held c) <= Fwd.chunk e /\
      got (env w) !! guest_fd c = Some (default [] (put (env w) !! host_fd c) ++ drop (Z.to_nat (pend_off c)) (held c)).
Proof.
  intros Hf Hc Hk Hl Ho Hg Hb. assert (Hm : minv (PW s e)) by (by apply fresh_minv).
  destruct (wp_run _ _ _ (pump_wp q fuel live wait _ Hf Hm)) as ([] & w & Hrun & [] & Hlike). exists w. split; [done|]. destruct Hlike as (He & _).
  assert (E : listen_fd (me w) = listen_fd e /\ Fwd.chunk (me w) = Fwd.chunk e) by (injection He; auto). destruct E as [El Ek]. rewrite El in *. rewrite Ek in *.
  split; [done|]. split; [by rewrite mi_opened0|]. split; [done|]. intros c [i Hi]%list_elem_of_lookup Hh. split; [by apply (Forall_lookup_1 _ _ _ _ mi_held0 Hi)|].
  pose proof (Forall_lookup_1 _ _ _ _ mi_conns0 Hi) as Hok. unfold conn_ok in Hok. replace (busy c) with true in Hok by (symmetry; by apply Z.leb_le). apply Hok.
Qed.

(** A client that always comes, a host that takes two bytes at a time. *)
Definition slow_host : oracle := {|
  q_poll _ := (1, [POLLIN; POLLIN; POLLIN]); q_backlog _ := 1%nat; q_accept t := Z.of_nat (10 + t); q_send t := if Nat.even t then (2, 0) else (-1, EAGAIN);
  q_recv _ := (-1, [], EAGAIN); q_socket t := Z.of_nat (100 + t); q_connect _ := 1; q_established _ := 1; q_gsend _ := 2; q_grecv t := (0, [Z.of_nat t; 7; 8]);
  q_host_socket _ := 3; q_bind _ := 0; q_thread _ := true; q_alloc _ := true; q_grow _ := Some 1%nat; q_junk _ _ := 0 |}.
Definition one_mirror : ep := Ep 1 80 3 true true 2 [Conn (-1) (-1) false 6 [] 0; Conn (-1) (-1) false 7 [] 0] 8192 5 3 4.
Definition one_seat : seat := set_opened {[3]} seat0.

Lemma mirror_lossless_witness : exists w, fwd_pump (FwdOps0 := seat_ops slow_host) 2 [true; true; true] 0 (PW one_seat one_mirror) = Done tt w /\ bad (env w) = false /\
    opened (env w) = {[3]} ∪ list_to_set (fds host_fd (e_conn (me w))) /\ gopened (env w) = list_to_set (fds guest_fd (e_conn (me w))) /\
    forall c, c ∈ e_conn (me w) -> 0 <= host_fd c -> zlen (held c) <= 8192 /\
      got (env w) !! guest_fd c = Some (default [] (put (env w) !! host_fd c) ++ drop (Z.to_nat (pend_off c)) (held c)).
Proof.
  apply (mirror_lossless slow_host 2 [true; true; true] 0 one_mirror one_seat); [intros t; cbn; lia|repeat constructor|cbn; lia|cbn; lia|reflexivity..].
Defined.

(** It holds bytes for both clients of it. *)
Example slow_host_held : match fwd_pump (FwdOps0 := seat_ops slow_host) 2 [true; true; true; true] 0 (PW one_seat one_mirror) with
  | Done _ w => Some ((fun c => (host_fd c, drop (Z.to_nat (pend_off c)) (held c), got (env w) !! guest_fd c, put (env w) !! host_fd c)) <$> e_conn (me w))
  | _ => None end = Some [(12, [8], Some [6; 7; 8], Some [6; 7]); (20, [16; 7; 8], Some [16; 7; 8], Some [])].
Proof. vm_compute. reflexivity. Qed.

(** C35: a mirror that is opened, pumped as long as wanted and stopped leaves
    nothing behind, whatever the host, the guest, the arena and the thread
    library answer at any point: no socket, no block, none given back twice.
    The fresh blocks must hold zeros. *)
Theorem mirror_life (q : oracle) fuel live conns ck port : (forall a k, q_junk q a k = 0) -> (forall t, (q_backlog q t < fuel)%nat) -> 0 <= ck <= U32_MAX ->
  exists rc w, life q fuel live conns ck port (FW seat0 false 0 [] 0 ∅) = Done rc w /\
    blocks w = ∅ /\ opened (s_env w) = ∅ /\ gopened (s_env w) = ∅ /\ bad (s_env w) = false /\ s_ep w = [].
Proof. intros Hj Hf Hck. by apply wp_run, life_wp. Qed.

Lemma mirror_life_witness : exists rc w, life slow_host 2 [true; true; true] 2 0 80 (FW seat0 false 0 [] 0 ∅) = Done rc w /\
    blocks w = ∅ /\ opened (s_env w) = ∅ /\ gopened (s_env w) = ∅ /\ bad (s_env w) = false /\ s_ep w = [].
Proof. apply (mirror_life slow_host 2 [true; true; true] 2 0 80); [done|intros t; cbn; lia|lia]. Defined.

(** ** What it does not *)

(** What the guest's stack does not take of a host's bytes is gone: nothing of
    the connection keeps them.  It takes one segment at a time. *)
Lemma upload_tail_lost q i c w rv : minv w -> e_conn (me w) !! i = Some c -> busy c = true -> connecting c = false -> Z.land rv (Z.lor POLLIN (Z.lor POLLHUP POLLERR)) <> 0 ->
  let b := (q_recv q (tick (env w))).1.2 in let k := q_gsend q (S (tick (env w))) in 0 < zlen b <= chunk (me w) -> k < zlen b ->
  wp (from_host (FwdOps0 := seat_ops q) i rv) (fun r w' => r = (false, true) /\ e_conn (me w') = e_conn (me w) /\
    up_got (env w') !! host_fd c = Some (default [] (up_got (env w) !! host_fd c) ++ b) /\
    up_put (env w') !! guest_fd c = Some (default [] (up_put (env w) !! guest_fd c) ++ take (Z.to_nat k) b)) w.
Proof.
  intros Hm Hi Hb Hc Hrv b k Hbl Hk. destruct (conn_facts _ _ _ Hm Hi Hb) as (Ho & Hg & _). unfold from_host. wstep. apply (get_conn_wp i c); [done|]. rewrite (proj2 (Z.eqb_neq _ _) Hrv), Hc. cbn [orb].
  wstep. wstep. wstep. destruct (q_recv q (tick (env w))) as [[r b'] errno] eqn:Er. subst b. cbn [fst snd] in *. rename b' into b.
  assert (Ht : take (Z.to_nat (chunk (me w))) b = b) by (apply take_ge; lia).
  eapply on_env_wp; [cbn [host_recv seat_ops]; unfold seat_recv; by rewrite Er|]. cbv zeta. rewrite Ht, bool_decide_eq_false_2 by (intros ->; cbn in Hbl; lia). rewrite host_ok_in, flag_true by done.
  rewrite (proj2 (Z.ltb_lt 0 _)) by lia. wstep. apply (wp_chk _ b); [apply slice_all|]. rewrite (proj2 (Z.ltb_ge _ _)) by lia. wstep.
  eapply on_env_wp; [cbn [guest_send seat_ops env]; unfold seat_gsend; done|]. cbn [me env]. rewrite guest_ok_in, flag_true by done. wstep. split; [done|]. split; [done|]. cbn [env up_got up_put set_up_got set_up_put next tick].
  unfold log. rewrite !lookup_insert_eq. split; [done|]. fold k. by rewrite Z.min_l by lia.
Qed.

(** A table for which one area is not to be had, in a block that held something. *)
Definition stale_blocks : oracle := {|
  q_poll := q_poll slow_host; q_backlog := q_backlog slow_host; q_accept := q_accept slow_host; q_send := q_send slow_host; q_recv := q_recv slow_host; q_socket := q_socket slow_host;
  q_connect := q_connect slow_host; q_established := q_established slow_host; q_gsend := q_gsend slow_host; q_grecv := q_grecv slow_host; q_host_socket := q_host_socket slow_host; q_bind := q_bind slow_host; q_thread := q_thread slow_host;
  q_alloc t := negb (Nat.eqb t 3); q_grow := q_grow slow_host; q_junk _ _ := 77 |}.
Example stale_pointers_freed : pm_metal_fwd_listen (FwdOps0 := seat_ops stale_blocks) 2 0 80 (FW seat0 true 0 [] 0 ∅) = Fault.
Proof. vm_compute. reflexivity. Qed.

End FwdLife.
