(* ===== verification/Pci.v ===== *)
(** * The bus.pci and bus.virtio cards: functions on the bus

    src/.../metal/bus/pci/__impl__.c and bus/virtio/__impl__.c.  Configuration
    space is reached through ports on x86 firmware, through a window of memory
    on arm firmware, and on a host there is only the simulated table; which of
    them a build has is [variant].  The window that a board without PCI firmware
    gives to BARs goes with the second. *)
From S2P Require Import Prelude.

(** The ports and the words of memory behind which the bus lies. *)
Class PciHw (E : Type) := {
  pci_outl : Z -> Z -> E -> E;
  pci_inl : Z -> E -> E * Z;
  mem_r32 : Z -> E -> E * Z;
  mem_w32 : Z -> Z -> E -> E;
}.

Module Pci.
Import Store.
Local Open Scope metal_scope.

Definition PM_METAL_BUS_PCI_SIM_MAX := 16%nat.
Definition NO_DEV := 4294967295.

(** [ECAM base buses window]: [window] is PM_METAL_PCI_MMIO_BASE and _SIZE. *)
Inductive variant := CF8 | ECAM (base buses : Z) (window : option (Z * Z)) | HOST.

Record sim := Sim { sim_used : bool; sim_bus : Z; sim_dev : Z; sim_fn : Z; sim_vendor : Z; sim_device : Z; sim_class_rev : Z; sim_hdr : Z }.
Definition no_sim : sim := Sim false 0 0 0 0 0 0 0.

Section WithBus.
Context {E : Type} `{!PciHw E}.
Variable v : variant.

Record pci := PciSt { hw : E; s_arena : bool; s_sim : list sim; assign_cursor : Z }.
Definition B := M pci.
Definition on_hw {A} (op : E -> E * A) : B A := fun w => let '(e, a) := op (hw w) in Done a (PciSt e (s_arena w) (s_sim w) (assign_cursor w)).
Definition on_hw_ (op : E -> E) : B unit := modify (fun w => PciSt (op (hw w)) (s_arena w) (s_sim w) (assign_cursor w)).
Definition set_sim l w := PciSt (hw w) (s_arena w) l (assign_cursor w).
Definition set_cursor c w := PciSt (hw w) (s_arena w) (s_sim w) c.

(** ** Configuration space *)

Definition sim_at (bus dev fn : Z) (s : sim) : bool := sim_used s && (sim_bus s =? bus) && (sim_dev s =? dev) && (sim_fn s =? fn).

Fixpoint sim_read32 (l : list sim) (bus dev fn off : Z) : Z :=
  match l with
  | [] => NO_DEV
  | s :: t =>
      if sim_at bus dev fn s then
        let o := Z.land off 252 in
        if o =? 0 then Z.lor (sim_vendor s) (Z.shiftl (sim_device s) 16) else
        if o =? 8 then sim_class_rev s else if o =? 12 then sim_hdr s else 0
      else sim_read32 t bus dev fn off
  end.

Definition cf8_addr (bus dev fn off : Z) : Z :=
  Z.lor (Z.lor (Z.lor (Z.lor 2147483648 (Z.shiftl (Z.land bus 255) 16)) (Z.shiftl (Z.land dev 31) 11)) (Z.shiftl (Z.land fn 7) 8)) (Z.land off 252).
(** A 32-bit address: the seat is an arm one. *)
Definition ecam_addr (base bus dev fn off : Z) : Z := u32 (base + Z.shiftl bus 20 + Z.shiftl dev 15 + Z.shiftl fn 12 + (off - Z.land off 3)).

Definition pm_metal_bus_pci_cfg_read32 (bus dev fn off : Z) : B Z :=
  l <- gets s_sim ;;
  let x := sim_read32 l bus dev fn off in
  if negb (x =? NO_DEV) then ret x else
  match v with
  | CF8 => on_hw_ (pci_outl 3320 (cf8_addr bus dev fn off)) ;; on_hw (pci_inl 3324)
  | ECAM base buses _ => if buses <=? bus then ret NO_DEV else on_hw (mem_r32 (ecam_addr base bus dev fn off))
  | HOST => ret NO_DEV
  end.

Definition pm_metal_bus_pci_cfg_write32 (bus dev fn off val : Z) : B unit :=
  match v with
  | CF8 => on_hw_ (pci_outl 3320 (cf8_addr bus dev fn off)) ;; on_hw_ (pci_outl 3324 val)
  | ECAM base buses _ => if buses <=? bus then ret tt else on_hw_ (mem_w32 (ecam_addr base bus dev fn off) val)
  | HOST => ret tt
  end.

Fixpoint first_sim (f : sim -> bool) (i : nat) (l : list sim) : option nat :=
  match l with [] => None | s :: t => if f s then Some i else first_sim f (S i) t end.

Definition pm_metal_bus_pci_sim_add (bus dev fn vendor device : Z) : B Z :=
  have <- gets s_arena ;;
  if negb have || (vendor =? 0) || (vendor =? 65535) then ret (-1) else
  l <- gets s_sim ;;
  match first_sim (sim_at bus dev fn) 0 l with
  | Some i => modify (set_sim (alter (fun s => Sim true bus dev fn (Z.land vendor 65535) (Z.land device 65535) (sim_class_rev s) (sim_hdr s)) i l)) ;; ret 0
  | None =>
      match first_sim (fun s => negb (sim_used s)) 0 l with
      | Some i => modify (set_sim (<[i := Sim true bus dev fn (Z.land vendor 65535) (Z.land device 65535) 0 0]> l)) ;; ret 0
      | None => ret (-1)
      end
  end.

(** ** The enumerator *)

Section walk.
Context {C : Type}.
(** A callback gets and gives back what its [ctx] points at. *)
Variable cb : Z -> Z -> Z -> Z -> C -> B (Z * C).

Fixpoint walk_fns (bus dev : Z) (fns : list Z) (c : C) : B (Z * C) :=
  match fns with
  | [] => ret (0, c)
  | fn :: t =>
      id <- pm_metal_bus_pci_cfg_read32 bus dev fn 0 ;;
      let vendor := Z.land id 65535 in
      if (vendor =? 0) || (vendor =? 65535) then (if fn =? 0 then ret (0, c) else walk_fns bus dev t c) else
      r <- cb bus dev fn id c ;;
      let '(st, c) := r in
      if negb (st =? 0) then ret (st, c) else
      if fn =? 0 then
        x <- pm_metal_bus_pci_cfg_read32 bus dev fn 12 ;;
        let hdr := Z.land (Z.shiftr x 16) 255 in
        if negb (hdr =? 255) && (Z.land hdr 128 =? 0) then ret (0, c) else walk_fns bus dev t c
      else walk_fns bus dev t c
  end.

Fixpoint walk_devs (bus : Z) (devs : list Z) (c : C) : B (Z * C) :=
  match devs with
  | [] => ret (0, c)
  | dev :: t => r <- walk_fns bus dev (seqZ 0 8) c ;; let '(st, c) := r in if negb (st =? 0) then ret (st, c) else walk_devs bus t c
  end.

Fixpoint walk_buses (buses : list Z) (c : C) : B (Z * C) :=
  match buses with
  | [] => ret (0, c)
  | bus :: t => r <- walk_devs bus (seqZ 0 32) c ;; let '(st, c) := r in if negb (st =? 0) then ret (st, c) else walk_buses t c
  end.

Definition PM_METAL_BUS_PCI_WALK_BUSES : Z := match v with ECAM _ buses _ => buses | _ => 32 end.
Definition pm_metal_bus_pci_walk (c : C) : B (Z * C) := walk_buses (seqZ 0 PM_METAL_BUS_PCI_WALK_BUSES) c.
End walk.

Record pci_find_ctx := FindCtx { c_vendor : Z; c_device : Z; c_n : Z; c_seen : Z; c_out : option (Z * Z * Z * Z); match_device : bool }.

Definition find_slot (bus dev fn id : Z) (c : pci_find_ctx) : B (Z * pci_find_ctx) :=
  let vendor := Z.land id 65535 in
  let device := Z.land (Z.shiftr id 16) 65535 in
  if negb (vendor =? c_vendor c) then ret (0, c) else
  if match_device c && negb (device =? c_device c) then ret (0, c) else
  if c_seen c =? c_n c then ret (1, FindCtx (c_vendor c) (c_device c) (c_n c) (c_seen c) (Some (bus, dev, fn, device)) (match_device c))
  else ret (0, FindCtx (c_vendor c) (c_device c) (c_n c) (u32 (c_seen c + 1)) (c_out c) (match_device c)).

(** 0 and the outputs, or -1. *)
Definition pm_metal_bus_pci_find_nth (vendor device n : Z) : B (option (Z * Z * Z)) :=
  have <- gets s_arena ;;
  if negb have then ret None else
  r <- pm_metal_bus_pci_walk find_slot (FindCtx (Z.land vendor 65535) (Z.land device 65535) n 0 None true) ;;
  let '(st, c) := r in
  ret (if st =? 1 then match c_out c with Some (b, d, f, _) => Some (b, d, f) | None => None end else None).
Definition pm_metal_bus_pci_find_vendor_nth (vendor n : Z) : B (option (Z * Z * Z * Z)) :=
  have <- gets s_arena ;;
  if negb have then ret None else
  r <- pm_metal_bus_pci_walk find_slot (FindCtx (Z.land vendor 65535) 0 n 0 None false) ;;
  let '(st, c) := r in ret (if st =? 1 then c_out c else None).

(** ** BARs on a board without PCI firmware *)

(** What an all-ones probe reads back, as a size. *)
Definition bar_size32 (lo : Z) : Z := u64 (u64 (-1 - Z.land lo 4294967280) + 1).
Definition bar_size64 (lo hi : Z) : Z := u64 (u64 (-1 - Z.lor (Z.shiftl hi 32) (Z.land lo 4294967280)) + 1).

Fixpoint assign_bars (fuel : nat) (base size : Z) (bus dev fn bar : Z) : B unit :=
  match fuel with
  | O => ret tt
  | S n =>
      if 6 <=? bar then ret tt else
      let reg := 16 + bar * 4 in let next := assign_bars n base size bus dev fn (bar + 1) in
      lo <- pm_metal_bus_pci_cfg_read32 bus dev fn reg ;;
      if (lo =? NO_DEV) || (lo =? 0) then next else
      if negb (Z.land lo 1 =? 0) then next else
      pm_metal_bus_pci_cfg_write32 bus dev fn reg NO_DEV ;;
      lo <- pm_metal_bus_pci_cfg_read32 bus dev fn reg ;;
      if (lo =? NO_DEV) || (lo =? 0) then next else
      let wide := Z.land (Z.shiftr lo 1) 3 =? 2 in
      sz <- (if wide then
               pm_metal_bus_pci_cfg_write32 bus dev fn (reg + 4) NO_DEV ;;
               hi <- pm_metal_bus_pci_cfg_read32 bus dev fn (reg + 4) ;;
               ret (if negb (hi =? 0) then bar_size64 lo hi else bar_size32 lo)
             else ret (bar_size32 lo)) ;;
      cur <- gets assign_cursor ;;
      let at_ := u64 (base + cur) in
      if u64 (base + size) <? u64 (at_ + sz) then
        pm_metal_bus_pci_cfg_write32 bus dev fn reg 0 ;;
        (if wide then pm_metal_bus_pci_cfg_write32 bus dev fn (reg + 4) 0 else ret tt) ;; next
      else
        pm_metal_bus_pci_cfg_write32 bus dev fn reg (u32 at_) ;;
        (if wide then pm_metal_bus_pci_cfg_write32 bus dev fn (reg + 4) (u32 (Z.shiftr at_ 32)) else ret tt) ;;
        modify (fun w => set_cursor (u32 (assign_cursor w + sz)) w) ;;
        cmd <- pm_metal_bus_pci_cfg_read32 bus dev fn 4 ;;
        pm_metal_bus_pci_cfg_write32 bus dev fn 4 (Z.lor cmd 2) ;;
        assign_bars n base size bus dev fn (if wide then bar + 2 else bar + 1)
  end.
Definition assign_slot (base size : Z) (bus dev fn id : Z) (c : unit) : B (Z * unit) := assign_bars 6 base size bus dev fn 0 ;; ret (0, c).

Definition pm_metal_bus_pci_init (arena : bool) : B Z :=
  if negb arena then ret (-1) else
  modify (fun w => PciSt (hw w) true (repeat no_sim PM_METAL_BUS_PCI_SIM_MAX) (assign_cursor w)) ;;
  match v with
  | ECAM _ _ (Some (base, size)) => modify (set_cursor 0) ;; pm_metal_bus_pci_walk (assign_slot base size) tt ;; ret 0
  | _ => ret 0
  end.
Definition pm_metal_bus_pci_deinit : B unit := modify (fun w => PciSt (hw w) false (repeat no_sim PM_METAL_BUS_PCI_SIM_MAX) (assign_cursor w)).
End WithBus.
End Pci.

Module Virtio.
Import Store Pci.
Local Open Scope metal_scope.

Definition PM_METAL_BUS_VIRTIO_VENDOR := 6900.
Definition PM_METAL_BUS_VIRTIO_DEV_NET_LEGACY := 4096.
Definition PM_METAL_BUS_VIRTIO_DEV_BLK_LEGACY := 4097.
Definition PM_METAL_BUS_VIRTIO_DEV_NET := 4161.
Definition PM_METAL_BUS_VIRTIO_DEV_BLK := 4162.

Definition is_dev (a b vendor device : Z) : Z :=
  let device := Z.land device 65535 in
  if negb (Z.land vendor 65535 =? PM_METAL_BUS_VIRTIO_VENDOR) then 0 else b2z ((device =? a) || (device =? b)).
Definition pm_metal_bus_virtio_is_net := is_dev PM_METAL_BUS_VIRTIO_DEV_NET PM_METAL_BUS_VIRTIO_DEV_NET_LEGACY.
Definition pm_metal_bus_virtio_is_gpu := is_dev 4176 4112.
Definition pm_metal_bus_virtio_is_input := is_dev 4178 4178.
Definition pm_metal_bus_virtio_is_blk := is_dev PM_METAL_BUS_VIRTIO_DEV_BLK PM_METAL_BUS_VIRTIO_DEV_BLK_LEGACY.

Section WithBus.
Context {E : Type} `{!PciHw E}.
Variable v : variant.

Definition pm_metal_bus_virtio_mmio_net_ok (base : Z) : @B E Z :=
  if base =? 0 then ret 0 else
  m <- on_hw (mem_r32 base) ;;
  if negb (m =? 1953655158) then ret 0 else d <- on_hw (mem_r32 (base + 8)) ;; ret (b2z (d =? 1)).

(** The loop over [k]; the answer is the slot, or how many were seen. *)
Fixpoint find_loop (ks : list Z) (device n seen : Z) : @B E (Z * Z * Z + Z) :=
  match ks with
  | [] => ret (inr seen)
  | k :: t =>
      o <- pm_metal_bus_pci_find_nth v PM_METAL_BUS_VIRTIO_VENDOR device k ;;
      match o with
      | None => ret (inr seen)
      | Some s => if seen =? n then ret (inl s) else find_loop t device n (seen + 1)
      end
  end.
Definition find_either (modern legacy : Z) (arena : bool) (n : Z) : @B E (option (Z * Z * Z)) :=
  if negb arena then ret None else
  r <- find_loop (seqZ 0 16) modern n 0 ;;
  match r with
  | inl s => ret (Some s)
  | inr seen => r <- find_loop (seqZ 0 16) legacy n seen ;; ret (match r with inl s => Some s | inr _ => None end)
  end.
Definition pm_metal_bus_virtio_find_net_nth := find_either PM_METAL_BUS_VIRTIO_DEV_NET PM_METAL_BUS_VIRTIO_DEV_NET_LEGACY.
Definition pm_metal_bus_virtio_find_blk_nth := find_either PM_METAL_BUS_VIRTIO_DEV_BLK PM_METAL_BUS_VIRTIO_DEV_BLK_LEGACY.
End WithBus.
End Virtio.
