(* ===== verification/PciSpec.v ===== *)
(** * What the enumerator finds, and what the BARs get

    A bus as the PCI specification has it: a function is there when its vendor
    is neither 0 nor 0xffff, and functions 1 to 7 of a device only when the
    header of function 0 says so. *)
From S2P Require Import Prelude Pci.

Module PciSpec.
Import Store Pci Virtio.
Local Open Scope metal_scope.

(** ** The functions of a bus *)

Section functions.
Variable cfg : Z -> Z -> Z -> Z -> Z.

Abbreviation func := (Z * Z * Z)%type.
Definition vendor_of (s : func) : Z := let '(b, d, f) := s in Z.land (cfg b d f 0) 65535.
Definition device_of (s : func) : Z := let '(b, d, f) := s in Z.land (Z.shiftr (cfg b d f 0) 16) 65535.
Definition present (s : func) : bool := negb ((vendor_of s =? 0) || (vendor_of s =? 65535)).
Definition header (b d : Z) : Z := Z.land (Z.shiftr (cfg b d 0 12) 16) 255.
Definition single (b d : Z) : bool := negb (header b d =? 255) && (Z.land (header b d) 128 =? 0).
Definition listed (s : func) : bool := let '(b, d, f) := s in present s && ((f =? 0) || present (b, d, 0) && negb (single b d)).

Definition dev_slots (b d : Z) : list func := (fun f => (b, d, f)) <$> seqZ 0 8.
Definition bus_slots (b : Z) : list func := flat_map (dev_slots b) (seqZ 0 32).
Definition slots (buses : Z) : list func := flat_map bus_slots (seqZ 0 buses).

(** Every function there is, in the order of the addresses. *)
Definition functions (buses : Z) : list func := List.filter listed (slots buses).

(** A callback is called on one after the other until it does not return 0. *)
Fixpoint visit {C} (step : func -> C -> Z * C) (l : list func) (c : C) : Z * C :=
  match l with [] => (0, c) | s :: t => let '(st, c') := step s c in if negb (st =? 0) then (st, c') else visit step t c' end.

Lemma visit_app {C} (step : func -> C -> Z * C) l1 l2 c :
  visit step (l1 ++ l2) c = let '(st, c') := visit step l1 c in if negb (st =? 0) then (st, c') else visit step l2 c'.
Proof.
  revert c. induction l1 as [|s l1 IH]; intros c; cbn [visit app]; [done|]. destruct (step s c) as [st c']. destruct (Z.eqb_spec st 0) as [->|H]; cbn [negb]; [apply IH|].
  by rewrite (proj2 (Z.eqb_neq _ _) H).
Qed.

(** ** The walk *)

Context {E : Type} `{!PciHw E}.
Variable v : variant.
Variable I : @pci E -> Prop.
(** Reading configuration space gives what it holds. *)
Hypothesis reads : forall b d f o w, I w -> wp (pm_metal_bus_pci_cfg_read32 v b d f o) (fun x w' => x = cfg b d f o /\ I w') w.

Section visit.
Context {C : Type}.
Variable cb : Z -> Z -> Z -> Z -> C -> @B E (Z * C).
Variable step : func -> C -> Z * C.
Hypothesis cb_step : forall b d f c w, I w -> wp (cb b d f (cfg b d f 0) c) (fun r w' => r = step (b, d, f) c /\ I w') w.

Abbreviation dev_step b d l := (visit step (List.filter listed ((fun f => (b, d, f)) <$> l))).

(** Functions other than the first, once it is known that they may be there. *)
Lemma walk_rest b d fns c w : I w -> present (b, d, 0) && negb (single b d) = true -> Forall (fun f => f <> 0) fns ->
  wp (walk_fns v cb b d fns c) (fun r w' => r = dev_step b d fns c /\ I w') w.
Proof.
  intros HI Hm. revert c w HI. induction fns as [|f fns IH]; intros c w HI Hf; cbn [walk_fns]; [by wstep|]. apply Forall_cons in Hf as [Hf0 Hf].
  wstep. eapply wp_mono; [by apply reads|]. intros x w1 [-> HI1]. cbv zeta. cbn [fmap list_fmap List.filter]. unfold listed at 1, present at 1, vendor_of at 1 2. rewrite (proj2 (Z.eqb_neq _ _) Hf0), Hm. cbn [orb]. rewrite andb_true_r.
  destruct (_ || _); cbn [negb]; [by apply IH|]. wstep. eapply wp_mono; [by apply cb_step|]. intros r w2 [-> HI2]. cbn [visit]. destruct (step (b, d, f) c) as [st c']. destruct (negb (st =? 0)); [by wstep|]. by apply IH.
Qed.

Lemma filter_none (l : list func) : Forall (fun s => listed s = false) l -> List.filter listed l = [].
Proof. induction 1 as [|s l Hs _ IH]; [done|]. cbn. by rewrite Hs. Qed.

Lemma rest_unlisted b d : present (b, d, 0) && negb (single b d) = false -> List.filter listed ((fun f => (b, d, f)) <$> seqZ 1 7) = [].
Proof.
  intros Hm. apply filter_none. apply Forall_fmap, Forall_forall. intros f [Hf1 Hf2]%elem_of_seqZ. unfold compose, listed. rewrite Hm, (proj2 (Z.eqb_neq f 0)) by lia. by rewrite andb_false_r.
Qed.

Lemma walk_dev b d c w : I w -> wp (walk_fns v cb b d (seqZ 0 8) c) (fun r w' => r = visit step (List.filter listed (dev_slots b d)) c /\ I w') w.
Proof.
  intros HI. unfold dev_slots. change (seqZ 0 8) with (0 :: seqZ 1 7). cbn [walk_fns]. change (0 =? 0) with true. cbv iota. wstep. eapply wp_mono; [by apply reads|]. intros x w1 [-> HI1]. cbv zeta. rewrite fmap_cons. cbn [List.filter].
  change (listed (b, d, 0)) with (present (b, d, 0) && true). unfold present at 1, vendor_of at 1 2. destruct (_ || _) eqn:Ep; cbn [negb andb].
  - wstep. by rewrite rest_unlisted by (unfold present, vendor_of; by rewrite Ep).
  - assert (Hp : present (b, d, 0) = true) by (unfold present, vendor_of; by rewrite Ep). wstep. eapply wp_mono; [by apply cb_step|]. intros r w2 [-> HI2]. cbn [visit]. destruct (step (b, d, 0) c) as [st c'].
    destruct (negb (st =? 0)); [by wstep|]. wstep. eapply wp_mono; [by apply reads|]. intros x w3 [-> HI3]. cbv zeta. fold (header b d). fold (single b d). destruct (single b d) eqn:Es.
    + wstep. by rewrite rest_unlisted by by rewrite Es, andb_false_r.
    + apply walk_rest; [done|by rewrite Hp, Es|]. apply Forall_forall. intros f [Hf _]%elem_of_seqZ. lia.
Qed.
Lemma walk_devs_visit b devs c w : I w -> wp (walk_devs v cb b devs c) (fun r w' => r = visit step (List.filter listed (flat_map (dev_slots b) devs)) c /\ I w') w.
Proof.
  revert c w. induction devs as [|d devs IH]; intros c w HI; cbn [walk_devs flat_map]; [by wstep|]. wstep. eapply wp_mono; [by apply walk_dev|]. intros r w1 [-> HI1]. rewrite List.filter_app, visit_app.
  destruct (visit step (List.filter listed (dev_slots b d)) c) as [st c']. destruct (negb (st =? 0)); [by wstep|]. by apply IH.
Qed.

Lemma walk_buses_visit buses c w : I w -> wp (walk_buses v cb buses c) (fun r w' => r = visit step (List.filter listed (flat_map bus_slots buses)) c /\ I w') w.
Proof.
  revert c w. induction buses as [|b buses IH]; intros c w HI; cbn [walk_buses flat_map]; [by wstep|]. wstep. eapply wp_mono; [by apply walk_devs_visit|]. intros r w1 [-> HI1]. rewrite List.filter_app, visit_app. unfold bus_slots at 1.
  destruct (visit step (List.filter listed (flat_map (dev_slots b) (seqZ 0 32))) c) as [st c']. destruct (negb (st =? 0)); [by wstep|]. by apply IH.
Qed.

(** The enumerator calls on every function there is, once each and in order. *)
Lemma walk_visits c w : I w -> wp (pm_metal_bus_pci_walk v cb c) (fun r w' => r = visit step (functions (PM_METAL_BUS_PCI_WALK_BUSES v)) c /\ I w') w.
Proof. apply walk_buses_visit. Qed.
End visit.

(** ** The searches *)

Definition matches (vendor : Z) (device : option Z) (s : func) : bool := (vendor_of s =? vendor) && match device with Some d => device_of s =? d | None => true end.

Definition find_step (s : func) (c : pci_find_ctx) : Z * pci_find_ctx :=
  if negb (matches (c_vendor c) (if match_device c then Some (c_device c) else None) s) then (0, c) else
  if c_seen c =? c_n c then (1, FindCtx (c_vendor c) (c_device c) (c_n c) (c_seen c) (Some (s, device_of s)) (match_device c))
  else (0, FindCtx (c_vendor c) (c_device c) (c_n c) (u32 (c_seen c + 1)) (c_out c) (match_device c)).

Lemma find_slot_step b d f c w : I w -> wp (find_slot b d f (cfg b d f 0) c) (fun r w' => r = find_step (b, d, f) c /\ I w') w.
Proof.
  intros HI. unfold find_slot, find_step, matches. cbv zeta. fold (vendor_of (b, d, f)). fold (device_of (b, d, f)).
  destruct (vendor_of (b, d, f) =? c_vendor c); cbn [negb andb]; [|by wstep]. destruct (match_device c); cbn [andb].
  - destruct (device_of (b, d, f) =? c_device c); cbn [negb]; [|by wstep]. destruct (c_seen c =? c_n c); by wstep.
  - cbn [negb]. destruct (c_seen c =? c_n c); by wstep.
Qed.

Lemma find_visit vendor device md n l k out : (k <= n)%nat -> Z.of_nat n <= U32_MAX ->
  let r := visit find_step l (FindCtx vendor device (Z.of_nat n) (Z.of_nat k) out md) in
  match List.filter (matches vendor (if md : bool then Some device else None)) l !! (n - k)%nat with
  | Some s => r.1 = 1 /\ c_out r.2 = Some (s, device_of s)
  | None => r.1 = 0
  end.
Proof.
  intros Hk Hn. cbv zeta. revert k Hk out. induction l as [|s l IH]; intros k Hk out; cbn [List.filter]; [done|].
  change (visit find_step (s :: l) ?c) with (let '(st, c') := find_step s c in if negb (st =? 0) then (st, c') else visit find_step l c').
  assert (HE : find_step s (FindCtx vendor device (Z.of_nat n) (Z.of_nat k) out md) = if negb (matches vendor (if md then Some device else None) s) then (0, FindCtx vendor device (Z.of_nat n) (Z.of_nat k) out md) else
    if Z.of_nat k =? Z.of_nat n then (1, FindCtx vendor device (Z.of_nat n) (Z.of_nat k) (Some (s, device_of s)) md) else (0, FindCtx vendor device (Z.of_nat n) (u32 (Z.of_nat k + 1)) out md)) by done.
  rewrite HE. clear HE. destruct (matches vendor _ s); cbn [negb].
  - destruct (Z.eqb_spec (Z.of_nat k) (Z.of_nat n)) as [Heq|Hne].
    + replace (n - k)%nat with 0%nat by lia. done.
    + change (0 =? 0) with true. cbv iota beta. rewrite u32_small by lia. replace (Z.of_nat k + 1) with (Z.of_nat (S k)) by lia. replace (n - k)%nat with (S (n - S k)) by lia. exact (IH (S k) ltac:(lia) out).
  - change (0 =? 0) with true. cbv iota beta. by apply IH.
Qed.

Hypothesis up : forall w, I w -> s_arena w = true.

Lemma find_nth_wp vendor device n w : I w -> 0 <= n <= U32_MAX ->
  wp (pm_metal_bus_pci_find_nth v vendor device n) (fun o w' => o = List.filter (matches (Z.land vendor 65535) (Some (Z.land device 65535))) (functions (PM_METAL_BUS_PCI_WALK_BUSES v)) !! Z.to_nat n /\ I w') w.
Proof.
  intros HI Hn. unfold pm_metal_bus_pci_find_nth. wstep. wstep. rewrite (up _ HI). cbn [negb]. wstep. eapply wp_mono; [apply (walk_visits _ find_step find_slot_step); exact HI|]. intros r w1 [-> HI1].
  pose proof (find_visit (Z.land vendor 65535) (Z.land device 65535) true (Z.to_nat n) (functions (PM_METAL_BUS_PCI_WALK_BUSES v)) 0 None ltac:(lia) ltac:(lia)) as H. rewrite Z2Nat.id in H by lia. change (Z.of_nat 0) with 0 in H. rewrite Nat.sub_0_r in H.
  destruct (visit _ _ _) as [st c]. cbn [fst snd] in H. destruct (List.filter _ _ !! Z.to_nat n) as [[[b d] f]|].
  - destruct H as [-> Hc]. wstep. change (1 =? 1) with true. cbv iota. by rewrite Hc.
  - subst st. by wstep.
Qed.

Lemma find_vendor_nth_wp vendor n w : I w -> 0 <= n <= U32_MAX ->
  wp (pm_metal_bus_pci_find_vendor_nth v vendor n) (fun o w' => o = (fun s => (s, device_of s)) <$> List.filter (matches (Z.land vendor 65535) None) (functions (PM_METAL_BUS_PCI_WALK_BUSES v)) !! Z.to_nat n /\ I w') w.
Proof.
  intros HI Hn. unfold pm_metal_bus_pci_find_vendor_nth. wstep. wstep. rewrite (up _ HI). cbn [negb]. wstep. eapply wp_mono; [apply (walk_visits _ find_step find_slot_step); exact HI|]. intros r w1 [-> HI1].
  pose proof (find_visit (Z.land vendor 65535) 0 false (Z.to_nat n) (functions (PM_METAL_BUS_PCI_WALK_BUSES v)) 0 None ltac:(lia) ltac:(lia)) as H. rewrite Z2Nat.id in H by lia. change (Z.of_nat 0) with 0 in H. rewrite Nat.sub_0_r in H.
  destruct (visit _ _ _) as [st c]. cbn [fst snd] in H. destruct (List.filter _ _ !! Z.to_nat n) as [s|].
  - destruct H as [-> Hc]. wstep. change (1 =? 1) with true. cbv iota. by rewrite Hc.
  - subst st. by wstep.
Qed.
(** The first sixteen modern devices, then the first sixteen legacy ones. *)
Definition virtio_fns (device : Z) : list func := List.filter (matches PM_METAL_BUS_VIRTIO_VENDOR (Some device)) (functions (PM_METAL_BUS_PCI_WALK_BUSES v)).

Lemma find_loop_wp len k device n seen w : I w -> Z.land device 65535 = device -> 0 <= k -> k + Z.of_nat len <= 16 -> 0 <= seen <= n -> 
  let l := take len (drop (Z.to_nat k) (virtio_fns device)) in
  wp (find_loop v (seqZ k (Z.of_nat len)) device n seen) (fun r w' => r = match l !! Z.to_nat (n - seen) with Some s => inl s | None => inr (seen + zlen l) end /\ I w') w.
Proof.
  intros HI Hd. revert k seen w HI. induction len as [|len IH]; intros k seen w HI Hk H16 Hs; cbv zeta.
  - change (seqZ k (Z.of_nat 0)) with (@nil Z). cbn [find_loop take]. wstep. split; [|done]. rewrite firstn_O, lookup_nil. cbn [length]. f_equal. lia.
  - rewrite seqZ_cons by lia. cbn [find_loop]. wstep. eapply wp_mono; [apply find_nth_wp; [done|lia]|]. intros o w1 [-> HI1]. rewrite Hd. change (Z.land PM_METAL_BUS_VIRTIO_VENDOR 65535) with PM_METAL_BUS_VIRTIO_VENDOR. fold (virtio_fns device).
    destruct (virtio_fns device !! Z.to_nat k) as [s|] eqn:Es.
    + rewrite (drop_S _ _ _ Es). cbn [take]. destruct (Z.eqb_spec seen n) as [->|Hne]; [wstep; by rewrite Z.sub_diag|].
      replace (Z.to_nat (n - seen)) with (S (Z.to_nat (n - (seen + 1)))) by lia. cbn [lookup list_lookup length]. replace (S (Z.to_nat k)) with (Z.to_nat (k + 1)) by lia. replace (Z.pred (Z.of_nat (S len))) with (Z.of_nat len) by lia.
      eapply wp_mono; [apply (IH (k + 1) (seen + 1)); [done|lia|lia|lia]|]. intros r w2 [-> HI2]. split; [|done]. rewrite Nat2Z.inj_succ, <- Z.add_1_l, Z.add_assoc. done.
    + wstep. split; [|done]. rewrite drop_ge by by apply lookup_ge_None. rewrite take_nil. cbn. f_equal. lia.
Qed.

Lemma find_either_wp modern legacy n w : I w -> Z.land modern 65535 = modern -> Z.land legacy 65535 = legacy -> 0 <= n ->
  wp (find_either v modern legacy true n) (fun o w' => o = (take 16 (virtio_fns modern) ++ take 16 (virtio_fns legacy)) !! Z.to_nat n /\ I w') w.
Proof.
  intros HI Hm Hl Hn. unfold find_either. cbn [negb]. wstep. eapply wp_mono; [apply (find_loop_wp 16 0 modern n 0); [done..|lia|lia]|]. intros r w1 [-> HI1]. rewrite Z.sub_0_r, drop_0.
  destruct (take 16 (virtio_fns modern) !! Z.to_nat n) as [s|] eqn:Es; [wstep; by rewrite (lookup_app_l_Some _ _ _ _ Es)|]. apply lookup_ge_None in Es as Hge.
  wstep. eapply wp_mono; [apply (find_loop_wp 16 0 legacy n (0 + zlen (take 16 (virtio_fns modern)))); [done..|lia|lia]|]. intros r w2 [-> HI2]. wstep. rewrite drop_0, lookup_app_r by done.
  replace (Z.to_nat (n - (0 + zlen (take 16 (virtio_fns modern))))) with (Z.to_nat n - length (take 16 (virtio_fns modern)))%nat by lia. by destruct (take 16 (virtio_fns legacy) !! _).
Qed.
End functions.

(** ** A PC *)

(** The address port, and what lies behind the data port. *)
Record chipset := Chipset { latch : Z; dwords : Z -> Z }.
#[export] Instance cf8_hw : PciHw chipset := {|
  pci_outl port x e := if port =? 3320 then Chipset x (dwords e) else if port =? 3324 then Chipset (latch e) (fun a => if a =? latch e then x else dwords e a) else e;
  pci_inl port e := (e, if port =? 3324 then dwords e (latch e) else NO_DEV);
  mem_r32 _ e := (e, NO_DEV);
  mem_w32 _ _ e := e |}.

Definition pc_cfg (m : Z -> Z) (b d f o : Z) : Z := m (cf8_addr b d f o).
Definition pc_bus (m : Z -> Z) (w : @pci chipset) : Prop := dwords (hw w) = m /\ s_arena w = true /\ Forall (fun s => sim_used s = false) (s_sim w).

Lemma sim_unused l b d f o : Forall (fun s => sim_used s = false) l -> sim_read32 l b d f o = NO_DEV.
Proof. induction 1 as [|s l Hs _ IH]; [done|]. cbn [sim_read32]. unfold sim_at. by rewrite Hs. Qed.

Lemma pc_reads m b d f o w : pc_bus m w -> wp (pm_metal_bus_pci_cfg_read32 CF8 b d f o) (fun x w' => x = pc_cfg m b d f o /\ pc_bus m w') w.
Proof.
  intros (Hm & Ha & Hs). unfold pm_metal_bus_pci_cfg_read32. wstep. wstep. rewrite sim_unused by done. change (negb (NO_DEV =? NO_DEV)) with false. cbv iota zeta. wstep. unfold on_hw_. wstep. unfold wp, on_hw. cbn [pci_inl pci_outl cf8_hw hw]. change (3320 =? 3320) with true. change (3324 =? 3324) with true. cbn. by rewrite Hm.
Qed.

(** C36: on a PC, whatever its configuration space holds, the search for the
    n-th virtio disk finds the n-th of the first sixteen modern and the first
    sixteen legacy ones among the functions that are there, in the order of
    their addresses, and nothing when there are not so many. *)
Theorem virtio_blk_found (m : Z -> Z) (n : Z) (w : @pci chipset) : pc_bus m w -> 0 <= n ->
  exists w', pm_metal_bus_virtio_find_blk_nth CF8 true n w =
    Done ((take 16 (virtio_fns (pc_cfg m) CF8 PM_METAL_BUS_VIRTIO_DEV_BLK) ++ take 16 (virtio_fns (pc_cfg m) CF8 PM_METAL_BUS_VIRTIO_DEV_BLK_LEGACY)) !! Z.to_nat n) w' /\ pc_bus m w'.
Proof.
  intros Hw Hn. destruct (wp_run _ _ _ (find_either_wp (pc_cfg m) CF8 (pc_bus m) (pc_reads m) (fun w H => proj1 (proj2 H)) PM_METAL_BUS_VIRTIO_DEV_BLK PM_METAL_BUS_VIRTIO_DEV_BLK_LEGACY n w Hw eq_refl eq_refl Hn)) as (o & w' & Hrun & -> & Hw'). by exists w'.
Qed.

(** Slot 2 holds a legacy disk, function 3 of slot 4 a modern one; slot 5 has a
    disk that is not there, because its function 0 is not. *)
Definition pc_space (a : Z) : Z :=
  if a =? cf8_addr 0 2 0 0 then 268507892 (* 0x10011af4 *) else
  if a =? cf8_addr 0 4 0 0 then 305430788 else if a =? cf8_addr 0 4 0 12 then 8388608 else if a =? cf8_addr 0 4 3 0 then 272767732 (* 0x10421af4 *) else
  if a =? cf8_addr 0 5 1 0 then 272767732 else
  if a =? cf8_addr 0 2 0 12 then 0 else NO_DEV.
Definition pc0 : @pci chipset := PciSt (Chipset 0 pc_space) true (repeat no_sim 16) 0.

Lemma virtio_blk_found_witness : exists w', pm_metal_bus_virtio_find_blk_nth CF8 true 1 pc0 =
    Done ((take 16 (virtio_fns (pc_cfg pc_space) CF8 PM_METAL_BUS_VIRTIO_DEV_BLK) ++ take 16 (virtio_fns (pc_cfg pc_space) CF8 PM_METAL_BUS_VIRTIO_DEV_BLK_LEGACY)) !! Z.to_nat 1) w' /\ pc_bus pc_space w'.
Proof. apply (virtio_blk_found pc_space 1 pc0); [split; [done|]; split; [done|]; cbn; repeat constructor|lia]. Defined.

Example pc_disks : match pm_metal_bus_virtio_find_blk_nth CF8 true 0 pc0, pm_metal_bus_virtio_find_blk_nth CF8 true 1 pc0, pm_metal_bus_virtio_find_blk_nth CF8 true 2 pc0 with
  | Done a _, Done b _, Done c _ => (a, b, c) = (Some (0, 4, 3), Some (0, 2, 0), None) | _, _, _ => False end.
Proof. vm_compute. reflexivity. Qed.
(** ** BARs *)

(** The register of a BAR of [2^k] bytes after the probe; [fl] its type bits. *)
Definition probed (k fl : Z) : Z := 4294967296 - 2 ^ k + fl.

(** By trying all of them. *)
Lemma bar_sizes k fl : 4 <= k < 32 -> 0 <= fl < 16 -> bar_size64 (probed k fl) NO_DEV = 2 ^ k /\ bar_size32 (probed k fl) = 18446744069414584320 + 2 ^ k.
Proof.
  intros Hk Hf. assert (H : Forall (fun k => Forall (fun fl => bar_size64 (probed k fl) NO_DEV = 2 ^ k /\ bar_size32 (probed k fl) = 18446744069414584320 + 2 ^ k) (seqZ 0 16)) (seqZ 4 28)) by (apply (bool_decide_unpack _); vm_compute; exact I).
  rewrite Forall_forall in H. specialize (H k ltac:(apply elem_of_seqZ; lia)). rewrite Forall_forall in H. apply H, elem_of_seqZ. lia.
Qed.

(** A 32-bit BAR is taken to be almost 2^64 bytes: there is never room for it. *)
Lemma bar32_never_fits base size cur k fl : 0 <= base -> 0 <= size -> base + size < 4294967296 -> 4 <= k < 32 -> 0 <= fl < 16 -> 0 <= cur -> base + cur + 2 ^ k <= base + size ->
  (u64 (base + size) <? u64 (u64 (base + cur) + bar_size32 (probed k fl))) = true.
Proof.
  intros Hb Hs Hw Hk Hf Hc Hfit. destruct (bar_sizes k fl Hk Hf) as [_ ->]. assert (0 < 2 ^ k) by (apply Z.pow_pos_nonneg; lia). apply Z.ltb_lt. unfold u64. rewrite (Z.mod_small (base + cur)), !Z.mod_small by lia. lia.
Qed.

(** Registers of one function at 00:01.0 behind ECAM: what a write can change,
    and the bits that stay. *)
Record bar_reg := BarReg { r_val : Z; r_mask : Z; r_fixed : Z }.
Record board := Board { regs : list (Z * bar_reg) }.
Definition read_reg (e : board) (a : Z) : Z := match find (fun p => fst p =? a) (regs e) with Some (_, r) => Z.lor (Z.land (r_val r) (r_mask r)) (r_fixed r) | None => if (4096 * 8 <=? a - 1056964608) && (a - 1056964608 <? 4096 * 9) then 0 else NO_DEV end.
#[export] Instance ecam_hw : PciHw board := {|
  pci_outl _ _ e := e; pci_inl _ e := (e, NO_DEV);
  mem_r32 a e := (e, read_reg e a);
  mem_w32 a x e := Board ((fun p => if fst p =? a then (a, BarReg x (r_mask (snd p)) (r_fixed (snd p))) else p) <$> regs e) |}.
(** ARMV7_QEMU's window. *)
Definition armv7 : variant := ECAM 1056964608 32 (Some (268435456, 788463616)).
Definition fn_reg (off val mask fixed : Z) : Z * bar_reg := (ecam_addr 1056964608 0 1 0 off, BarReg val mask fixed).
Definition boot (e : board) : option board := match pm_metal_bus_pci_init (E := board) armv7 true (PciSt e false [] 0) with Done _ w => Some (hw w) | _ => None end.
Definition bar_at (e : board) (i : Z) : Z := read_reg e (ecam_addr 1056964608 0 1 0 (16 + i * 4)).

(** A prefetchable 32-bit BAR of 4 KiB is left without an address; next to it a
    64-bit one of 16 KiB gets the start of the window. *)
Example bar32_left_out : (fun e => (bar_at e 0, bar_at e 2)) <$> boot (Board [fn_reg 0 0 0 272767732; fn_reg 16 4096 4294963200 8; fn_reg 24 0 4294950912 12; fn_reg 28 0 4294967295 0]) = Some (8, 268435456 + 12).
Proof. vm_compute. reflexivity. Qed.

(** Two 64-bit BARs, 16 KiB then 64 KiB: the second is given an address that is
    no multiple of its size, so that it answers from the start of the window,
    where the first does. *)
Example bars_overlap : (fun e => (bar_at e 0, bar_at e 2)) <$> boot (Board [fn_reg 0 0 0 272767732; fn_reg 16 0 4294950912 12; fn_reg 20 0 4294967295 0; fn_reg 24 0 4294901760 12; fn_reg 28 0 4294967295 0]) = Some (268435456 + 12, 268435456 + 12).
Proof. vm_compute. reflexivity. Qed.
End PciSpec.
