(* ===== verification/Vblk.v ===== *)
(** * The drivers.blk.virtio card: disks in memory and virtio-blk over PCI

    src/.../metal/drivers/blk/virtio/__impl__.c.  Memory is shared with the
    device: [ram] holds the bytes that are mapped, and an access to another
    address is a [Fault].  A pointer is its address, NULL is 0; a seat that is
    not firmware has rows whose [common] is NULL.  The fences have nothing to
    order here: a device acts between two of the driver's looks. *)
From S2P Require Import Prelude.

(** [dev_run]: what the devices do to themselves and to memory between two
    looks.  The registers, configuration space, the arena (the address of a
    block, and memory with the block in it), the device inventory and the table
    of disks. *)
Class VblkOps (E : Type) := {
  dev_run : E -> gmap Z Z -> E * gmap Z Z;
  mmio_r8 : Z -> E -> E * Z;
  mmio_w8 : Z -> Z -> E -> E;
  mmio_r16 : Z -> E -> E * Z;
  mmio_w16 : Z -> Z -> E -> E;
  mmio_r32 : Z -> E -> E * Z;
  mmio_w32 : Z -> Z -> E -> E;
  cfg_read32 : Z -> Z -> Z -> Z -> E -> E * Z;
  cfg_write32 : Z -> Z -> Z -> Z -> Z -> E -> E;
  vb_alloc : Z -> Z -> E -> gmap Z Z -> E * gmap Z Z * Z;
  dt_add_blk : Z -> list Z -> E -> E * Z;
  dt_unbind : Z -> E -> E;
  blk_bind : Z -> Z -> E -> E * Z;
}.

Module Vblk.
Import Store.
Local Open Scope metal_scope.

Definition VIRTIO_BLK_SEC := 512.
Definition VIRTIO_BLK_SECTOR_DEFAULT := 256.
Definition FW_BLK_QSZ := 16.
Definition FW_DESC_F_NEXT := 1.
Definition FW_DESC_F_WRITE := 2.
Definition VIRTIO_BLK_T_IN := 0.
Definition VIRTIO_BLK_T_OUT := 1.
Definition FW_BLK_SPINS := 10000000.
Definition PM_METAL_DT_BUS_PCI := 1.
Definition PM_METAL_DT_BUS_VIRTIO := 3.

Record virtio_blk := VirtioBlk { used : bool; nsec : Z; unit_ : Z; data : Z; dt_id : Z; blk_h : Z;
  common : Z; notify : Z; notify_mult : Z; nqoff : Z; last_used : Z; vqmem : Z; req : Z; stbyte : Z; cap : Z }.
Definition zero_row (u : Z) : virtio_blk := VirtioBlk false 0 u 0 (-1) (-1) 0 0 0 0 0 0 0 0 0.

Definition set_used b d := VirtioBlk b (nsec d) (unit_ d) (data d) (dt_id d) (blk_h d) (common d) (notify d) (notify_mult d) (nqoff d) (last_used d) (vqmem d) (req d) (stbyte d) (cap d).
Definition set_block p n d := VirtioBlk (used d) n (unit_ d) p (dt_id d) (blk_h d) (common d) (notify d) (notify_mult d) (nqoff d) (last_used d) (vqmem d) (req d) (stbyte d) (cap d).
Definition set_ids i h d := VirtioBlk (used d) (nsec d) (unit_ d) (data d) i h (common d) (notify d) (notify_mult d) (nqoff d) (last_used d) (vqmem d) (req d) (stbyte d) (cap d).
Definition set_regs c n m d := VirtioBlk (used d) (nsec d) (unit_ d) (data d) (dt_id d) (blk_h d) c n m (nqoff d) (last_used d) (vqmem d) (req d) (stbyte d) (cap d).
Definition set_queue q r s d := VirtioBlk (used d) (nsec d) (unit_ d) (data d) (dt_id d) (blk_h d) (common d) (notify d) (notify_mult d) (nqoff d) (last_used d) q r s (cap d).
Definition set_last o l d := VirtioBlk (used d) (nsec d) (unit_ d) (data d) (dt_id d) (blk_h d) (common d) (notify d) (notify_mult d) o l (vqmem d) (req d) (stbyte d) (cap d).
Definition set_cap c d := VirtioBlk (used d) (nsec d) (unit_ d) (data d) (dt_id d) (blk_h d) (common d) (notify d) (notify_mult d) (nqoff d) (last_used d) (vqmem d) (req d) (stbyte d) c.

Section WithDevices.
Context {E : Type} `{!VblkOps E}.

(** [s_head]: the rows and their addresses, newest first. *)
Record vblk := VblkSt { env : E; ram : gmap Z Z; s_arena : bool; s_head : list (Z * virtio_blk); s_dev_used : Z }.
Definition V := M vblk.

Definition on_env {A} (op : E -> E * A) : V A := fun w => let '(e, a) := op (env w) in Done a (VblkSt e (ram w) (s_arena w) (s_head w) (s_dev_used w)).
Definition on_env_ (op : E -> E) : V unit := modify (fun w => VblkSt (op (env w)) (ram w) (s_arena w) (s_head w) (s_dev_used w)).
Definition set_ram m w := VblkSt (env w) m (s_arena w) (s_head w) (s_dev_used w).
Definition set_head l w := VblkSt (env w) (ram w) (s_arena w) l (s_dev_used w).
Definition set_dev_used n w := VblkSt (env w) (ram w) (s_arena w) (s_head w) n.
Definition run : V unit := fun w => let '(e, m) := dev_run (env w) (ram w) in Done tt (VblkSt e m (s_arena w) (s_head w) (s_dev_used w)).
(** [n] bytes at a multiple of [align]; NULL when there are none. *)
Definition alloc (align n : Z) : V Z := fun w => let '(e, m, a) := vb_alloc align n (env w) (ram w) in Done a (VblkSt e m (s_arena w) (s_head w) (s_dev_used w)).

(** ** Memory *)

Definition rd8 (a : Z) : V Z := fun w => match ram w !! a with Some x => Done x w | None => Fault end.
Definition wr8 (a x : Z) : V unit := fun w => match ram w !! a with Some _ => Done tt (set_ram (<[a := x]> (ram w)) w) | None => Fault end.
Fixpoint rd_bytes (a : Z) (n : nat) : V (list Z) :=
  match n with O => ret [] | S n => x <- rd8 a ;; l <- rd_bytes (a + 1) n ;; ret (x :: l) end.
Fixpoint wr_bytes (a : Z) (l : list Z) : V unit :=
  match l with [] => ret tt | x :: t => wr8 a x ;; wr_bytes (a + 1) t end.
Definition memset0 (a n : Z) : V unit := wr_bytes a (repeat 0 (Z.to_nat n)).
Definition memcpy (dst src n : Z) : V unit := l <- rd_bytes src (Z.to_nat n) ;; wr_bytes dst l.

(** The low [n] bytes of a number, least significant first. *)
Fixpoint le (n : nat) (x : Z) : list Z := match n with O => [] | S n => u8 x :: le n (Z.shiftr x 8) end.
Definition rd16 (a : Z) : V Z := lo <- rd8 a ;; hi <- rd8 (a + 1) ;; ret (Z.lor lo (Z.shiftl hi 8)).

(** ** Rows *)

Fixpoint row_of (l : list (Z * virtio_blk)) (a : Z) : option virtio_blk :=
  match l with [] => None | (b, d) :: t => if b =? a then Some d else row_of t a end.
Definition get_row (a : Z) : V virtio_blk := fun w => match row_of (s_head w) a with Some d => Done d w | None => Fault end.
Definition upd_row (a : Z) (g : virtio_blk -> virtio_blk) : V unit :=
  modify (fun w => set_head ((fun p => if fst p =? a then (fst p, g (snd p)) else p) <$> s_head w) w).

Fixpoint free_row (l : list (Z * virtio_blk)) : option Z :=
  match l with [] => None | (a, d) :: t => if used d then free_row t else Some a end.

(** NULL when the device knob says no ([room]) or the arena is empty. *)
Definition vb_row (room : Z -> bool) : V Z :=
  n <- gets s_dev_used ;;
  if negb (room n) then ret 0 else
  l <- gets s_head ;;
  match free_row l with
  | Some a => ret a
  | None => a <- alloc 8 200 ;; if a =? 0 then ret 0 else modify (set_head ((a, zero_row (zlen l)) :: l)) ;; ret a
  end.

(** ** A request *)

Definition desc_set (de addr len flags next : Z) : V unit := wr_bytes de (le 8 addr ++ le 4 len ++ le 2 flags ++ le 2 next).

(** The wait, [fuel] looks long. *)
Fixpoint spin (fuel : nat) (row : Z) (used_ st last : Z) : V Z :=
  match fuel with
  | O => ret (-1)
  | S n =>
      run ;; uidx <- rd16 (used_ + 2) ;;
      if negb (uidx =? last) then
        upd_row row (fun d => set_last (nqoff d) uidx d) ;; s <- rd8 st ;; ret (if s =? 0 then 0 else -1)
      else spin n row used_ st last
  end.

(** [addr]: the caller's buffer, to be read from or written to. *)
Definition fw_blk_io (row lba addr nsec_ : Z) (wr : bool) : V Z :=
  d <- get_row row ;;
  if (common d =? 0) || (vqmem d =? 0) || (nsec_ =? 0) then ret (-1) else
  if cap d <? u64 (lba + nsec_) then ret (-1) else
  let bytes := u32 (nsec_ * VIRTIO_BLK_SEC) in
  memset0 (req d) 16 ;;
  wr8 (req d) (if wr then VIRTIO_BLK_T_OUT else VIRTIO_BLK_T_IN) ;;
  wr_bytes (req d + 8) (le 8 lba) ;;
  wr8 (stbyte d) 255 ;;
  let desc := vqmem d in let avail := vqmem d + 256 in let used_ := vqmem d + 512 in
  desc_set desc (req d) 16 FW_DESC_F_NEXT 1 ;;
  desc_set (desc + 16) addr bytes (if wr then FW_DESC_F_NEXT else Z.lor FW_DESC_F_NEXT FW_DESC_F_WRITE) 2 ;;
  desc_set (desc + 32) (stbyte d) 1 FW_DESC_F_WRITE 0 ;;
  aidx <- rd16 (avail + 2) ;;
  wr8 (avail + 4 + aidx mod FW_BLK_QSZ * 2) 0 ;;
  wr8 (avail + 5 + aidx mod FW_BLK_QSZ * 2) 0 ;;
  wr_bytes (avail + 2) (le 2 (u16 (aidx + 1))) ;;
  on_env_ (mmio_w16 (notify d + u32 (nqoff d * notify_mult d)) 0) ;;
  spin (Z.to_nat FW_BLK_SPINS) row used_ (stbyte d) (last_used d).

Definition vb_ready (row : Z) : V Z := d <- get_row row ;; ret (if negb (common d =? 0) then 1 else b2z (negb (data d =? 0))).
Definition vb_cap (row : Z) : V Z := d <- get_row row ;; ret (if negb (common d =? 0) then cap d else nsec d).

Definition vb_rw (row lba buf src nsec_ : Z) (wr : bool) : V Z :=
  d <- get_row row ;;
  if nsec_ =? 0 then ret (-1) else
  if negb (common d =? 0) then fw_blk_io row lba (if wr then src else buf) nsec_ wr else
  if data d =? 0 then ret (-1) else
  if nsec d <? u64 (lba + nsec_) then ret (-1) else
  let off := u64 (lba * VIRTIO_BLK_SEC) in
  let bytes := u32 (nsec_ * VIRTIO_BLK_SEC) in
  (if wr then memcpy (data d + off) src bytes else memcpy buf (data d + off) bytes) ;; ret 0.
Definition vb_read (row lba buf nsec_ : Z) : V Z := vb_rw row lba buf 0 nsec_ false.
Definition vb_write (row lba buf nsec_ : Z) : V Z := vb_rw row lba 0 buf nsec_ true.

Definition vb_close (row : Z) : V unit :=
  d <- get_row row ;;
  modify (fun w => if used d && negb (s_dev_used w =? 0) then set_dev_used (s_dev_used w - 1) w else w) ;;
  upd_row row (fun d => set_cap 0 (set_queue 0 0 0 (set_regs 0 0 (notify_mult d) (set_ids (-1) (-1) (set_block 0 0 (set_used false d)))))).

(** ** The card *)

Definition pm_metal_drivers_blk_virtio_init (arena : bool) : V Z :=
  if negb arena then ret (-1) else modify (fun w => VblkSt (env w) (ram w) true [] 0) ;; ret 0.
Definition pm_metal_drivers_blk_virtio_deinit : V unit := modify (fun w => VblkSt (env w) (ram w) false [] 0).

(** A disk of [n] zeroed sectors in memory; [soft] the sector knob. *)
Definition pm_metal_drivers_blk_virtio_probe (room : Z -> bool) (soft n : Z) : V Z :=
  let most := if soft =? 0 then VIRTIO_BLK_SECTOR_DEFAULT else soft in
  have <- gets s_arena ;;
  if negb have || (n =? 0) || (most <? n) then ret (-1) else
  row <- vb_row room ;;
  if row =? 0 then ret (-1) else
  d <- get_row row ;;
  let bytes := n * VIRTIO_BLK_SEC in
  p <- (if (data d =? 0) || negb (nsec d =? n) then a <- alloc 8 bytes ;; upd_row row (set_block a (nsec d)) ;; ret a else ret (data d)) ;;
  if p =? 0 then ret (-1) else
  memset0 p bytes ;;
  upd_row row (fun d => set_used true (set_block p n d)) ;;
  id <- on_env (dt_add_blk PM_METAL_DT_BUS_VIRTIO [0; 0; 0; unit_ d]) ;;
  upd_row row (fun d => set_ids id (blk_h d) d) ;;
  if id <? 0 then upd_row row (set_used false) ;; ret (-1) else
  h <- on_env (blk_bind id row) ;;
  upd_row row (fun d => set_ids id h d) ;;
  if h <? 0 then on_env_ (dt_unbind id) ;; upd_row row (set_used false) ;; ret (-1) else
  modify (fun w => set_dev_used (u32 (s_dev_used w + 1)) w) ;; ret h.

(** ** Attaching a PCI function *)

Definition pci_bar (bus dev fn bar : Z) : V Z :=
  lo <- on_env (cfg_read32 bus dev fn (16 + bar * 4)) ;;
  if negb (Z.land lo 1 =? 0) then ret (Z.land lo 4294967292) else
  if Z.land (Z.shiftr lo 1) 3 =? 2 then hi <- on_env (cfg_read32 bus dev fn (16 + (bar + 1) * 4)) ;; ret (Z.lor (Z.shiftl hi 32) (Z.land lo 4294967280))
  else ret (Z.land lo 4294967280).

(** [common], [notify], [notify_mult], [devcfg]. *)
Definition regs := (Z * Z * Z * Z)%type.

Fixpoint caps_loop (fuel : nat) (bus dev fn cap : Z) (r : regs) : V regs :=
  if (cap =? 0) || (cap =? 255) then ret r else
  match fuel with
  | O => nofuel
  | S n =>
      dw0 <- on_env (cfg_read32 bus dev fn cap) ;;
      dw1 <- on_env (cfg_read32 bus dev fn (cap + 4)) ;;
      off <- on_env (cfg_read32 bus dev fn (cap + 8)) ;;
      let next := u8 (Z.shiftr dw0 8) in
      if negb (u8 dw0 =? 9) then caps_loop n bus dev fn next r else
      let cfg_type := u8 (Z.shiftr dw0 24) in
      base <- pci_bar bus dev fn (u8 dw1) ;;
      if base =? 0 then caps_loop n bus dev fn next r else
      let mmio := base + off in
      let '(c, nt, mult, dc) := r in
      if cfg_type =? 1 then caps_loop n bus dev fn next (mmio, nt, mult, dc) else
      if cfg_type =? 2 then m <- on_env (cfg_read32 bus dev fn (cap + 16)) ;; caps_loop n bus dev fn next (c, mmio, if m =? 0 then 1 else m, dc) else
      caps_loop n bus dev fn next (c, nt, mult, if cfg_type =? 4 then mmio else dc)
  end.

Definition virtio_pci_caps (fuel : nat) (bus dev fn : Z) : V (option regs) :=
  status <- on_env (cfg_read32 bus dev fn 4) ;;
  on_env_ (cfg_write32 bus dev fn 4 (Z.lor status 7)) ;;
  cap <- on_env (cfg_read32 bus dev fn 52) ;;
  r <- caps_loop fuel bus dev fn (Z.land cap 255) (0, 0, 1, 0) ;;
  let '(c, nt, _, _) := r in ret (if negb (c =? 0) && negb (nt =? 0) then Some r else None).

(** The wait for a reset has no bound in the code. *)
Fixpoint reset_wait (fuel : nat) (c : Z) : V unit :=
  match fuel with O => nofuel | S n => s <- on_env (mmio_r8 (c + 20)) ;; if s =? 0 then ret tt else reset_wait n c end.

Definition mmio_w64 (p x : Z) : V unit := on_env_ (mmio_w32 p (u32 x)) ;; on_env_ (mmio_w32 (p + 4) (u32 (Z.shiftr x 32))).

Definition fw_blk_attach_pci (fuel : nat) (room : Z -> bool) (bus dev fn : Z) : V Z :=
  o <- virtio_pci_caps fuel bus dev fn ;;
  match o with
  | None => ret (-1)
  | Some (c, nt, mult, dc) =>
      on_env_ (mmio_w8 (c + 20) 0) ;; reset_wait fuel c ;; on_env_ (mmio_w8 (c + 20) 3) ;;
      on_env_ (mmio_w32 c 1) ;; feat1 <- on_env (mmio_r32 (c + 4)) ;;
      on_env_ (mmio_w32 (c + 8) 0) ;; on_env_ (mmio_w32 (c + 12) 0) ;; on_env_ (mmio_w32 (c + 8) 1) ;; on_env_ (mmio_w32 (c + 12) (Z.land feat1 1)) ;;
      on_env_ (mmio_w8 (c + 20) 11) ;;
      s <- on_env (mmio_r8 (c + 20)) ;;
      if Z.land s 8 =? 0 then ret (-1) else
      row <- vb_row room ;;
      if row =? 0 then ret (-1) else
      upd_row row (fun d => set_regs c nt mult (set_used true d)) ;;
      vq <- alloc 4096 4096 ;; rq <- alloc 8 16 ;; sb <- alloc 8 1 ;;
      upd_row row (set_queue vq rq sb) ;;
      let undo := upd_row row (set_used false) ;; ret (-1) in
      if (vq =? 0) || (rq =? 0) || (sb =? 0) then undo else
      memset0 vq 4096 ;;
      on_env_ (mmio_w16 (c + 22) 0) ;; on_env_ (mmio_w16 (c + 24) FW_BLK_QSZ) ;;
      qs <- on_env (mmio_r16 (c + 24)) ;;
      if qs =? 0 then undo else
      mmio_w64 (c + 32) vq ;; mmio_w64 (c + 40) (vq + 256) ;; mmio_w64 (c + 48) (vq + 512) ;;
      on_env_ (mmio_w16 (c + 28) 1) ;;
      o <- on_env (mmio_r16 (c + 30)) ;;
      upd_row row (set_last o 0) ;;
      (if dc =? 0 then ret tt else
         lo <- on_env (mmio_r32 dc) ;; hi <- on_env (mmio_r32 (dc + 4)) ;; upd_row row (set_cap (Z.lor lo (Z.shiftl hi 32)))) ;;
      d <- get_row row ;;
      if cap d =? 0 then undo else
      on_env_ (mmio_w8 (c + 20) 15) ;;
      id <- on_env (cfg_read32 bus dev fn 0) ;;
      i <- on_env (dt_add_blk PM_METAL_DT_BUS_PCI [bus; Z.lor (Z.shiftl dev 8) fn; Z.land id 65535; Z.land (Z.shiftr id 16) 65535]) ;;
      upd_row row (fun d => set_ids i (blk_h d) d) ;;
      if i <? 0 then undo else
      h <- on_env (blk_bind i row) ;;
      upd_row row (fun d => set_ids i h d) ;;
      if h <? 0 then undo else
      modify (fun w => set_dev_used (u32 (s_dev_used w + 1)) w) ;; ret h
  end.

Definition virtio_blk_drv_attach (fuel : nat) (room : Z -> bool) (bus loc0 loc1 : Z) : V Z :=
  if negb (bus =? PM_METAL_DT_BUS_PCI) then ret (-1) else
  r <- fw_blk_attach_pci fuel room loc0 (Z.land (Z.shiftr loc1 8) 31) (Z.land loc1 7) ;; ret (if 0 <=? r then 0 else -1).
End WithDevices.
End Vblk.
