(* ===== verification/VblkSpec.v ===== *)
(** * A disk behind a virtqueue

    The driver and a virtio block device share memory.  What the specification
    of virtio says of a device is [DiskLaws]: it takes the request that the ring
    names, works on it for as long as it likes, and then publishes it as used;
    until then the requester's memory outside the request's buffers is left
    alone.  Any such device together with the driver is a disk. *)
From S2P Require Import Prelude Vblk.

Module VblkSpec.
Import Store Vblk.
Local Open Scope metal_scope.

(** ** Bytes in memory *)

Abbreviation memory := (gmap Z Z).

(** [l] stands at address [a]. *)
Definition at_ (m : memory) (a : Z) (l : list Z) : Prop := forall i x, l !! i = Some x -> m !! (a + Z.of_nat i) = Some x.
Definition mapped (m : memory) (a n : Z) : Prop := forall b, a <= b < a + n -> is_Some (m !! b).
(** Bytes of [a, a+n) only. *)
Definition inside (a n b : Z) : Prop := a <= b < a + n.
Definition keeps (m m' : memory) (S : Z -> Prop) : Prop := (forall b, ~ S b -> m' !! b = m !! b) /\ (forall b, is_Some (m !! b) -> is_Some (m' !! b)).

Lemma at_nil m a : at_ m a [].
Proof. by intros i x. Qed.
Lemma at_cons m a x l : at_ m a (x :: l) <-> m !! a = Some x /\ at_ m (a + 1) l.
Proof.
  split.
  - intros H. split; [specialize (H 0%nat x eq_refl); by rewrite Z.add_0_r in H|]. intros i y Hi. specialize (H (S i) y Hi). by replace (a + Z.of_nat (S i)) with (a + 1 + Z.of_nat i) in H by lia.
  - intros [Hx Hl] [|i] y Hi; [injection Hi as <-; by rewrite Z.add_0_r|]. replace (a + Z.of_nat (S i)) with (a + 1 + Z.of_nat i) by lia. by apply Hl.
Qed.
Lemma at_app m a l1 l2 : at_ m a (l1 ++ l2) <-> at_ m a l1 /\ at_ m (a + zlen l1) l2.
Proof.
  revert a. induction l1 as [|x l1 IH]; intros a; cbn [app length].
  - rewrite Z.add_0_r. split; [intros H; by split; [apply at_nil|]|by intros []].
  - rewrite !at_cons, IH. replace (a + Z.of_nat (S (length l1))) with (a + 1 + zlen l1) by lia. tauto.
Qed.
Lemma at_fun m a l l' : at_ m a l -> at_ m a l' -> length l = length l' -> l = l'.
Proof.
  revert a l'. induction l as [|x l IH]; intros a [|y l'] H H' Hl; [done..|]. apply at_cons in H as [Hx H]. apply at_cons in H' as [Hy H']. f_equal; [congruence|]. apply (IH (a + 1)); [done..|cbn in Hl; lia].
Qed.
Lemma at_keeps m m' S a l : at_ m a l -> keeps m m' S -> (forall b, inside a (zlen l) b -> ~ S b) -> at_ m' a l.
Proof. intros H [Hk _] Hd i x Hi. rewrite Hk; [by apply H|]. apply Hd. apply lookup_lt_Some in Hi. unfold inside. lia. Qed.
Lemma mapped_keeps m m' S a n : mapped m a n -> keeps m m' S -> mapped m' a n.
Proof. intros H [_ Hk] b Hb. by apply Hk, H. Qed.
Lemma keeps_refl m S : keeps m m S.
Proof. done. Qed.
Lemma keeps_trans m1 m2 m3 S : keeps m1 m2 S -> keeps m2 m3 S -> keeps m1 m3 S.
Proof. intros [H1 D1] [H2 D2]. split; [intros b Hb; by rewrite H2, H1|]. intros b Hb. by apply D2, D1. Qed.
Lemma keeps_sub m m' (S S' : Z -> Prop) : keeps m m' S -> (forall b, S b -> S' b) -> keeps m m' S'.
Proof. intros [H D] Hs. split; [|done]. intros b Hb. apply H. naive_solver. Qed.
Lemma mapped_sub m a n a' n' : mapped m a n -> a <= a' -> a' + n' <= a + n -> mapped m a' n'.
Proof. intros H H1 H2 b Hb. apply H. lia. Qed.
Lemma at_mapped m a l : at_ m a l -> mapped m a (zlen l).
Proof. intros H b Hb. destruct (lookup_lt_is_Some_2 l (Z.to_nat (b - a))) as [x Hx]; [lia|]. exists x. rewrite <- (H _ _ Hx). f_equal. lia. Qed.

(** Numbers as bytes. *)
Lemma length_le n x : length (le n x) = n.
Proof. revert x. induction n as [|n IH]; intros x; cbn; [done|]. by rewrite IH. Qed.
Fixpoint unle (l : list Z) : Z := match l with [] => 0 | b :: t => b + 256 * unle t end.
Lemma unle_le n x : unle (le n x) = x mod 2 ^ (8 * Z.of_nat n).
Proof.
  revert x. induction n as [|n IH]; intros x; [cbn; by rewrite Z.mod_1_r|]. cbn [le unle]. rewrite IH. unfold u8. rewrite Z.shiftr_div_pow2 by lia. change (2 ^ 8) with 256.
  replace (8 * Z.of_nat (S n)) with (8 + 8 * Z.of_nat n) by lia. rewrite Z.pow_add_r by lia. change (2 ^ 8) with 256. rewrite Z.rem_mul_r; [done|lia|apply Z.pow_pos_nonneg; lia].
Qed.

Section driver.
Context {E : Type} `{!VblkOps E}.
Abbreviation W := (@vblk E).

(** ** The driver's accesses *)

Lemma rd8_wp a x (w : W) (Q : Z -> W -> Prop) : ram w !! a = Some x -> Q x w -> wp (rd8 a) Q w.
Proof. intros Hx HQ. unfold wp, rd8. by rewrite Hx. Qed.

Lemma wr8_wp a x (w : W) (Q : unit -> W -> Prop) : is_Some (ram w !! a) -> Q tt (set_ram (<[a := x]> (ram w)) w) -> wp (wr8 a x) Q w.
Proof. intros [y Hy] HQ. unfold wp, wr8. by rewrite Hy. Qed.

Lemma rd_bytes_wp a n l (w : W) (Q : list Z -> W -> Prop) : at_ (ram w) a l -> length l = n -> Q l w -> wp (rd_bytes a n) Q w.
Proof.
  revert a l Q. induction n as [|n IH]; intros a [|x l] Q Ha Hl HQ; cbn [rd_bytes]; [by wstep|done|done|]. apply at_cons in Ha as [Hx Ha]. injection Hl as Hl.
  wstep. apply (rd8_wp a x); [done|]. wstep. apply (IH (a + 1) l); [done|done|]. by wstep.
Qed.

Lemma rd16_wp a x (w : W) (Q : Z -> W -> Prop) : at_ (ram w) a (le 2 x) -> 0 <= x < 65536 -> Q x w -> wp (rd16 a) Q w.
Proof.
  intros Ha Hx HQ. cbn [le] in Ha. apply at_cons in Ha as [H0 Ha]. apply at_cons in Ha as [H1 _]. unfold rd16. wstep. eapply rd8_wp; [exact H0|]. wstep. eapply rd8_wp; [exact H1|]. wstep.
  rewrite Z.shiftr_div_pow2 by lia. change (2 ^ 8) with 256. replace (Z.lor (u8 x) (Z.shiftl (u8 (x / 256)) 8)) with x; [done|]. rewrite lor_disjoint_add by (unfold u8; change (2 ^ 8) with 256; mlia). change (2 ^ 8) with 256. unfold u8. mlia.
Qed.

Lemma run_wp (w : W) (Q : unit -> W -> Prop) e m : dev_run (env w) (ram w) = (e, m) -> Q tt (VblkSt e m (s_arena w) (s_head w) (s_dev_used w)) -> wp run Q w.
Proof. unfold wp, run. by intros ->. Qed.

(** Bytes written stand there, and nothing else changes. *)
Lemma wr_bytes_wp a l (w : W) (Q : unit -> W -> Prop) : mapped (ram w) a (zlen l) ->
  (forall m, at_ m a l -> keeps (ram w) m (inside a (zlen l)) -> Q tt (set_ram m w)) -> wp (wr_bytes a l) Q w.
Proof.
  revert a w Q. induction l as [|x l IH]; intros a w Q Hm HQ; cbn [wr_bytes].
  - wstep. specialize (HQ (ram w) (at_nil _ _) (keeps_refl _ _)). by destruct w.
  - cbn [length] in *. wstep. apply wr8_wp; [apply Hm; lia|]. set (w1 := set_ram _ _). assert (K1 : keeps (ram w) (ram w1) (inside a 1)).
    { split; intros b Hb; cbn [w1 ram set_ram]; [rewrite lookup_insert_ne; [done|]; intros <-; apply Hb; unfold inside; lia|]. destruct (decide (a = b)) as [<-|Hne]; [by rewrite lookup_insert_eq|by rewrite lookup_insert_ne]. }
    apply IH. { eapply mapped_keeps; [|exact K1]. eapply mapped_sub; [exact Hm|lia|lia]. }
    intros m Ha Hk. apply HQ.
    + apply at_cons. split; [|done]. destruct Hk as [Hk _]. rewrite Hk by (unfold inside; lia). cbn. by rewrite lookup_insert_eq.
    + eapply keeps_trans; eapply keeps_sub; [exact K1|unfold inside; lia|exact Hk|unfold inside; lia].
Qed.
(** ** What the specification of virtio says of a disk *)

Record rq := Rq { r_wr : bool; r_lba : Z; r_addr : Z; r_nsec : Z }.

(** Where the driver keeps the queue, the header of a request and its status
    byte, and the address of the doorbell. *)
Variables (q hd sb door : Z).

Definition rq_len (r : rq) : Z := 512 * r_nsec r.
(** The sectors of a request. *)
Definition sub (r : rq) (disk : list Z) : list Z := take (Z.to_nat (rq_len r)) (drop (Z.to_nat (512 * r_lba r)) disk).
Definition fits (r : rq) (disk : list Z) : Prop := 0 <= r_lba r /\ 0 < r_nsec r < 8388608 /\ r_lba r + r_nsec r < 18446744073709551616 /\ 0 <= r_addr r < 18446744073709551616 /\ 512 * (r_lba r + r_nsec r) <= zlen disk.

(** Request [r] is the one after the first [n] in the ring. *)
Record posted (m : memory) (n : Z) (r : rq) : Prop := {
  rq_desc0 : at_ m q (le 8 hd ++ le 4 16 ++ le 2 1 ++ le 2 1);
  rq_desc1 : at_ m (q + 16) (le 8 (r_addr r) ++ le 4 (rq_len r) ++ le 2 (if r_wr r then 1 else 3) ++ le 2 2);
  rq_desc2 : at_ m (q + 32) (le 8 sb ++ le 4 1 ++ le 2 2 ++ le 2 0);
  rq_ring : at_ m (q + 260 + n mod 16 * 2) [0; 0];
  rq_avail : at_ m (q + 258) (le 2 (u16 (n + 1)));
  rq_head : at_ m hd ((if r_wr r then 1 else 0) :: repeat 0 7 ++ le 8 (r_lba r));
  rq_mapped : mapped m sb 1 /\ mapped m (r_addr r) (rq_len r) /\ mapped m q 4096;
}.

(** What a device may write while it works, and once it publishes. *)
Definition work (r : rq) (b : Z) : Prop := b = sb \/ (r_wr r = false /\ inside (r_addr r) (rq_len r) b).
Definition publish (r : rq) (b : Z) : Prop := work r b \/ inside (q + 512) 3584 b.
(** A buffer apart from what the driver keeps. *)
Definition clear (a n : Z) : Prop := (q + 4096 <= a \/ a + n <= q) /\ (hd + 16 <= a \/ a + n <= hd) /\ (sb < a \/ a + n <= sb).

(** What becomes of the medium. *)
Definition changed (r : rq) (d d' : list Z) : Prop :=
  length d' = length d /\ if r_wr r then forall i, ~ inside (512 * r_lba r) (rq_len r) (Z.of_nat i) -> d' !! i = d !! i else d' = d.
(** The buffer and the sectors hold the same. *)
Definition moved (r : rq) (m : memory) (d : list Z) : Prop := at_ m (r_addr r) (sub r d).

(** [P e n disk o]: the device has published [n] requests, its medium is [disk],
    and [o] is the request it is at.  A [good] one finishes within the driver's
    patience ([eta] looks) and without an error. *)
Variable P : E -> Z -> list Z -> option rq -> Prop.
Variable good : bool.
Variable eta : E -> nat.

Record DiskLaws : Prop := {
  dl_door e n disk o v : P e n disk o -> P (mmio_w16 door v e) n disk o;
  dl_eta e n disk v : good = true -> P e n disk None -> (eta (mmio_w16 door v e) < Z.to_nat FW_BLK_SPINS)%nat;
  dl_run e n disk o r m e' m' : P e n disk o -> o = None \/ o = Some r -> posted m n r -> clear (r_addr r) (rq_len r) -> fits r disk -> dev_run e m = (e', m') ->
    exists disk', changed r disk disk' /\
      ((P e' n disk' (Some r) /\ keeps m m' (work r) /\ (good = true -> (eta e' < eta e)%nat)) \/
       (P e' (u16 (n + 1)) disk' None /\ keeps m m' (publish r) /\ at_ m' (q + 514) (le 2 (u16 (n + 1))) /\
        exists st, m' !! sb = Some st /\ (good = true -> st = 0) /\ (st = 0 -> moved r m' disk')));
}.

Hypothesis laws : DiskLaws.
Variable row : Z.

(** ** The driver with its disk *)

Record layout : Prop := {
  la_q : 0 < q; la_hd0 : 0 <= hd < 18446744073709551616; la_sb0 : 0 <= sb < 18446744073709551616; la_hd : q + 4096 <= hd \/ hd + 16 <= q; la_sb : q + 4096 <= sb \/ sb < q; la_hs : hd + 16 <= sb \/ sb < hd }.
Hypothesis lay : layout.

Definition my_row (d : virtio_blk) (n : Z) (disk : list Z) : Prop :=
  common d <> 0 /\ vqmem d = q /\ req d = hd /\ stbyte d = sb /\ last_used d = n /\ notify d + u32 (nqoff d * notify_mult d) = door /\ 512 * cap d = zlen disk.

Record ready (w : W) (n : Z) (disk : list Z) : Prop := {
  re_row : exists d, row_of (s_head w) row = Some d /\ my_row d n disk;
  re_n : 0 <= n < 65536;
  re_q : mapped (ram w) q 4096; re_hd : mapped (ram w) hd 16; re_sb : mapped (ram w) sb 1;
  re_avail : at_ (ram w) (q + 258) (le 2 n); re_used : at_ (ram w) (q + 514) (le 2 n);
  re_dev : P (env w) n disk None;
}.

Lemma row_of_upd l a g : row_of ((fun p => if fst p =? a then (fst p, g (snd p)) else p) <$> l) a = g <$> row_of l a.
Proof. induction l as [|[b d] l IH]; [done|]. rewrite fmap_cons. cbn [fst snd row_of]. destruct (b =? a) eqn:Eb; cbn [row_of]; by rewrite Eb. Qed.

Lemma changed_trans r d1 d2 d3 : changed r d1 d2 -> changed r d2 d3 -> changed r d1 d3.
Proof. unfold changed. destruct (r_wr r); intros [L1 H1] [L2 H2]; (split; [congruence|]); [intros i Hi; by rewrite H2, H1|congruence]. Qed.
Lemma changed_refl r d : changed r d d.
Proof. unfold changed. by destruct (r_wr r). Qed.

Ltac apart := unfold publish, work, inside; cbn [length]; rewrite ?length_app, ?length_le, ?repeat_length; cbn [length]; rewrite ?length_app, ?length_le, ?repeat_length; destruct lay; unfold clear in *; (lia || (intros; lia)).

Lemma request_keeps m m' n r : posted m n r -> clear (r_addr r) (rq_len r) -> 0 <= n < 65536 -> keeps m m' (work r) -> posted m' n r.
Proof.
  intros [] Hc Hn Hk. destruct rq_mapped0 as (M1 & M2 & M3). assert (0 <= n mod 16 < 16) by (apply Z.mod_pos_bound; lia).
  constructor; try (eapply at_keeps; [eassumption|exact Hk|]; apart).
  split; [|split]; eapply mapped_keeps; eassumption.
Qed.
(** How a request ends: it is still in flight, or it is served. *)
Definition served (n : Z) (r : rq) (disk : list Z) (rc : Z) (w : W) : Prop :=
  exists disk', ready w (u16 (n + 1)) disk' /\ changed r disk disk' /\ (rc = 0 /\ moved r (ram w) disk' \/ rc = -1 /\ good = false).
Definition in_flight (n : Z) (r : rq) (rc : Z) (w : W) : Prop := rc = -1 /\ good = false /\ exists disk', P (env w) n disk' (Some r).

Lemma fits_changed r d d' : fits r d -> changed r d d' -> fits r d'.
Proof. unfold fits, changed. intros H [-> _]. done. Qed.

Lemma spin_wp fuel n r o disk d (w : W) : P (env w) n disk o -> o = None \/ o = Some r -> posted (ram w) n r -> clear (r_addr r) (rq_len r) -> fits r disk -> 0 <= n < 65536 ->
  at_ (ram w) (q + 514) (le 2 n) -> mapped (ram w) hd 16 -> row_of (s_head w) row = Some d -> my_row d n disk -> (good = true -> (eta (env w) < fuel)%nat) -> (good = true \/ o = Some r \/ (0 < fuel)%nat) ->
  wp (spin fuel row (q + 512) sb n) (fun rc w' => keeps (ram w) (ram w') (publish r) /\ (served n r disk rc w' \/ in_flight n r rc w')) w.
Proof.
  revert o disk w. induction fuel as [|fuel IH]; intros o disk w HP Ho Hr Hc Hf Hn Hu Hhd Hrow Hmy Heta Hz; cbn [spin].
  - wstep. split; [done|]. right. split; [done|]. destruct good; [specialize (Heta eq_refl); lia|]. split; [done|]. destruct Hz as [|[->|]]; [done| |lia]. by eexists.
  - wstep. destruct (dev_run (env w) (ram w)) as [e' m'] eqn:Erun. eapply run_wp; [exact Erun|].
    destruct (dl_run laws _ _ _ _ _ _ _ _ HP Ho Hr Hc Hf Erun) as (disk' & Hch & [(HP' & Hk & He)|(HP' & Hk & Hu' & st & Hst & Hg & Hmv)]).
    + wstep. replace (q + 512 + 2) with (q + 514) by lia. eapply rd16_wp; [|exact Hn|].
      { eapply at_keeps; [exact Hu|exact Hk|]. apart. }
      rewrite Z.eqb_refl. cbn [negb]. set (w1 := VblkSt _ _ _ _ _).
      eapply wp_mono; [apply (IH (Some r) disk' w1)|]; try done.
      * by right.
      * by apply (request_keeps (ram w)).
      * by eapply fits_changed.
      * eapply at_keeps; [exact Hu|exact Hk|]. apart.
      * by eapply mapped_keeps.
      * destruct Hmy as (? & ? & ? & ? & ? & ? & Hcap). unfold my_row. destruct Hch as [-> _]. done.
      * intros Hgood. specialize (He Hgood). specialize (Heta Hgood). cbn. lia.
      * right. by left.
      * intros rc w' [H2 H]. split; [eapply keeps_trans; [|exact H2]; eapply keeps_sub; [exact Hk|]; by left|]. destruct H as [(d2 & H1 & H3 & H4)|H]; [left|by right]. exists d2. split; [done|]. split; [by eapply changed_trans|done].
    + wstep. replace (q + 512 + 2) with (q + 514) by lia. assert (Hn1 : 0 <= u16 (n + 1) < 65536) by (unfold u16; mlia). eapply rd16_wp; [exact Hu'|exact Hn1|].
      rewrite (proj2 (Z.eqb_neq _ _)) by (unfold u16; mlia). cbn [negb]. wstep. unfold upd_row. wstep. wstep. apply (rd8_wp sb st); [done|]. wstep. split; [done|]. left. exists disk'.
      destruct Hr as [_ _ _ _ Hav _ (M1 & M2 & M3)]. split; [|split; [done|]].
      * constructor; cbn [ram env s_head set_head]; try done; try (by eapply mapped_keeps).
        -- exists (set_last (nqoff d) (u16 (n + 1)) d). rewrite (row_of_upd _ _ (fun d => set_last (nqoff d) (u16 (n + 1)) d)), Hrow. split; [done|]. destruct Hmy as (? & ? & ? & ? & ? & ? & Hcap). unfold my_row. cbn. destruct Hch as [-> _]. done.
        -- eapply at_keeps; [exact Hav|exact Hk|]. apart.
      * destruct (Z.eqb_spec st 0) as [->|Hne]; [left; split; [done|by apply Hmv]|right]. split; [done|]. destruct good; [|done]. by specialize (Hg eq_refl).
Qed.
Lemma wr8_at_wp a x (w : W) (Q : unit -> W -> Prop) : mapped (ram w) a 1 -> (forall m, at_ m a [x] -> keeps (ram w) m (inside a 1) -> Q tt (set_ram m w)) -> wp (wr8 a x) Q w.
Proof.
  intros Hm HQ. apply (wp_eq _ (wr_bytes a [x])); [|by apply wr_bytes_wp]. cbn [wr_bytes]. unfold bind, ret, wr8. by destruct (ram w !! a).
Qed.

(** What is known of memory [m] is known of [m'], unless it was overwritten. *)
Ltac carry K :=
  lazymatch type of K with keeps ?m ?m' _ =>
    repeat match goal with
    | H : at_ m _ _ |- _ => first [eapply at_keeps in H; [|exact K|solve [apart]] | clear H]
    | H : mapped m _ _ |- _ => eapply mapped_keeps in H; [|exact K]
    end
  end.

(** All that a request may change. *)
Definition foot (r : rq) (b : Z) : Prop := inside q 4096 b \/ inside hd 16 b \/ b = sb \/ (r_wr r = false /\ inside (r_addr r) (rq_len r) b).

(** The driver's own state, its last entry of the ring [a], its last used [n]. *)
Record tidy (w : W) (a n : Z) (disk : list Z) (d : virtio_blk) : Prop := {
  ti_row : row_of (s_head w) row = Some d; ti_my : my_row d n disk;
  ti_n : 0 <= n < 65536; ti_a : 0 <= a < 65536;
  ti_q : mapped (ram w) q 4096; ti_hd : mapped (ram w) hd 16; ti_sb : mapped (ram w) sb 1;
  ti_avail : at_ (ram w) (q + 258) (le 2 a); ti_used : at_ (ram w) (q + 514) (le 2 n);
}.
Lemma ready_tidy w n disk : ready w n disk -> exists d, tidy w n n disk d.
Proof. intros [(d & Hrow & Hmy) Hn Mq Mh Ms Ha Hu HP]. by exists d. Qed.

(** A request is laid out and the doorbell rung; then the driver looks. *)
Lemma post_wp a n disk d lba addr nsec_ wr (w : W) (Q : Z -> W -> Prop) : let r := Rq wr lba addr nsec_ in
  tidy w a n disk d -> clear addr (rq_len r) -> mapped (ram w) addr (rq_len r) -> fits r disk ->
  (forall m, posted m a r -> keeps (ram w) m (fun b => inside q 4096 b \/ inside hd 16 b \/ b = sb) -> at_ m (q + 514) (le 2 n) ->
     wp (spin (Z.to_nat FW_BLK_SPINS) row (q + 512) sb n) Q (VblkSt (mmio_w16 door 0 (env w)) m (s_arena w) (s_head w) (s_dev_used w))) ->
  wp (fw_blk_io row lba addr nsec_ wr) Q w.
Proof.
  intros r [Hrow Hmy Hn Hna Mq Mh Ms Ha Hu] Hc Mb Hf HQ. pose proof Hmy as (Hcm & Eq & Eh & Es & El & Ed & Ecap). pose proof Hf as (F1 & F2 & F3 & F4 & F5). subst r. cbn [r_lba r_nsec r_addr] in *.
  assert (0 <= a mod 16 < 16) by (apply Z.mod_pos_bound; lia). unfold rq_len in Hc, Mb. cbn [r_nsec] in Hc, Mb. pose proof lay as [].
  unfold fw_blk_io. wstep. unfold wp at 1, get_row. rewrite Hrow, Eq, Eh, Es, El, Ed. rewrite (proj2 (Z.eqb_neq (common d) 0)), (proj2 (Z.eqb_neq q 0)), (proj2 (Z.eqb_neq nsec_ 0)) by lia. cbn [orb].
  rewrite (proj2 (Z.ltb_ge _ _)) by (unfold u64; rewrite Z.mod_small by lia; lia). cbv zeta.
  assert (Mu : mapped (ram w) (q + 512) 4) by (eapply mapped_sub; [exact Mq|lia|lia]). set (m0 := ram w) in *.
  wstep. unfold memset0. apply wr_bytes_wp; [exact Mh|]. intros m1 W1 K1. cbn [ram set_ram env s_head s_arena s_dev_used]. fold m0 in K1. carry K1.
  change (repeat 0 (Z.to_nat 16)) with ([0] ++ repeat 0 7 ++ repeat 0 8) in W1. apply at_app in W1 as [_ W1]. apply at_app in W1 as [W1 _]. cbn [length] in W1. change (Z.of_nat 1) with 1 in W1.
  wstep. apply wr8_at_wp; [eapply mapped_sub; [exact Mh|lia|lia]|]. intros m2 W2 K2. cbn [ram set_ram env s_head s_arena s_dev_used] in *. carry K2.
  wstep. apply wr_bytes_wp; [rewrite length_le; eapply mapped_sub; [exact Mh|lia|lia]|]. intros m3 W3 K3. cbn [ram set_ram env s_head s_arena s_dev_used] in *. carry K3.
  wstep. apply wr8_at_wp; [exact Ms|]. intros m4 W4 K4. cbn [ram set_ram env s_head s_arena s_dev_used] in *. carry K4. clear W4.
  unfold desc_set.
  wstep. apply wr_bytes_wp; [eapply mapped_sub; [exact Mq|lia|apart]|]. intros m5 W5 K5. cbn [ram set_ram env s_head s_arena s_dev_used] in *. carry K5.
  wstep. apply wr_bytes_wp; [eapply mapped_sub; [exact Mq|lia|apart]|]. intros m6 W6 K6. cbn [ram set_ram env s_head s_arena s_dev_used] in *. carry K6.
  wstep. apply wr_bytes_wp; [eapply mapped_sub; [exact Mq|lia|apart]|]. intros m7 W7 K7. cbn [ram set_ram env s_head s_arena s_dev_used] in *. carry K7.
  replace (q + 256 + 2) with (q + 258) by lia. wstep. eapply rd16_wp; [exact Ha|exact Hna|]. unfold FW_BLK_QSZ.
  wstep. apply wr8_at_wp; [eapply mapped_sub; [exact Mq|lia|lia]|]. intros m8 W8 K8. cbn [ram set_ram env s_head s_arena s_dev_used] in *. carry K8.
  wstep. apply wr8_at_wp; [eapply mapped_sub; [exact Mq|lia|lia]|]. intros m9 W9 K9. cbn [ram set_ram env s_head s_arena s_dev_used] in *. carry K9.
  wstep. apply wr_bytes_wp; [rewrite length_le; eapply mapped_sub; [exact Mq|lia|lia]|]. intros m10 W10 K10. cbn [ram set_ram env s_head s_arena s_dev_used] in *. carry K10.
  set (r := Rq wr lba addr nsec_) in *. assert (K : keeps m0 m10 (fun b => inside q 4096 b \/ inside hd 16 b \/ b = sb)).
  { repeat (eapply keeps_trans; [|eapply keeps_sub; [first [exact K10|exact K9|exact K8|exact K7|exact K6|exact K5|exact K4|exact K3|exact K2|exact K1]|intros b; apart]]); apply keeps_refl. }
  assert (Hreq : posted m10 a r).
  { constructor; try exact W5; try exact W7; try exact W10; cbn [r_wr r_addr r_lba r].
    - replace (rq_len r) with (u32 (nsec_ * VIRTIO_BLK_SEC)) by (unfold rq_len, VIRTIO_BLK_SEC; cbn [r_nsec r]; rewrite u32_small; lia). destruct wr; exact W6.
    - replace (q + 260) with (q + 256 + 4) by lia. apply at_cons. split; [by apply at_cons in W8 as [? _]|]. replace (q + 256 + 4 + a mod 16 * 2 + 1) with (q + 256 + 5 + a mod 16 * 2) by lia. exact W9.
    - apply at_cons. split; [apply at_cons in W2 as [W2 _]; destruct wr; exact W2|]. apply at_app. split; [exact W1|]. rewrite repeat_length. replace (hd + 1 + Z.of_nat 7) with (hd + 8) by lia. exact W3.
    - done. }
  unfold on_env_. wstep. wstep. cbn [ram set_ram env s_head s_arena s_dev_used]. by apply HQ.
Qed.

Lemma io_wp n disk lba addr nsec_ wr (w : W) : let r := Rq wr lba addr nsec_ in
  ready w n disk -> clear addr (rq_len r) -> mapped (ram w) addr (rq_len r) -> fits r disk ->
  wp (fw_blk_io row lba addr nsec_ wr) (fun rc w' => keeps (ram w) (ram w') (foot r) /\ (served n r disk rc w' \/ in_flight n r rc w')) w.
Proof.
  intros r Hre Hc Mb Hf. destruct (ready_tidy _ _ _ Hre) as [d Ht]. apply (post_wp n n disk d); try done. intros m Hreq K Hu. destruct Hre as [_ Hn _ Mh _ _ _ HP]. destruct Ht as [Hrow Hmy _ _ _ _ _ _ _].
  eapply wp_mono; [eapply (spin_wp _ n r None disk d)|]; cbn [ram env s_head]; try done.
  - by apply (dl_door laws).
  - by left.
  - by eapply mapped_keeps.
  - intros Hg. exact (dl_eta laws (env w) n disk 0 Hg HP).
  - right. right. unfold FW_BLK_SPINS. lia.
  - intros rc w' [Hk Hs]. split; [|exact Hs]. eapply keeps_trans; [eapply keeps_sub; [exact K|]|eapply keeps_sub; [exact Hk|]]; intros b; unfold foot, publish, work, inside; [tauto|]. intros [[->|?]|?]; [tauto|tauto|]. left. lia.
Qed.
(** ** A disk, abstractly *)

Definition bytes (m : memory) (a n : Z) : list Z := (fun i => m !!! (a + i)) <$> seqZ 0 n.
Fixpoint put (m : memory) (a : Z) (l : list Z) : memory := match l with [] => m | x :: t => put (<[a := x]> m) (a + 1) t end.

Definition fits_b (r : rq) (disk : list Z) : bool := (0 <? r_nsec r) && (512 * (r_lba r + r_nsec r) <=? zlen disk).

(** Sectors and the requesters' memory; a request outside the disk is refused. *)
Definition disk_op (s : list Z * memory) (r : rq) : (list Z * memory) * Z :=
  let '(disk, m) := s in
  if negb (fits_b r disk) then ((disk, m), -1) else
  if r_wr r then ((take (Z.to_nat (512 * r_lba r)) disk ++ bytes m (r_addr r) (rq_len r) ++ drop (Z.to_nat (512 * (r_lba r + r_nsec r))) disk, m), 0)
  else ((disk, put m (r_addr r) (sub r disk)), 0).
Fixpoint disk_run (s : list Z * memory) (l : list rq) : (list Z * memory) * list Z :=
  match l with [] => (s, []) | r :: t => let '(s1, rc) := disk_op s r in let '(s2, rcs) := disk_run s1 t in (s2, rc :: rcs) end.

Definition do_op (r : rq) : @V E Z := if r_wr r then vb_write row (r_lba r) (r_addr r) (r_nsec r) else vb_read row (r_lba r) (r_addr r) (r_nsec r).
Fixpoint do_ops (l : list rq) : @V E (list Z) := match l with [] => ret [] | r :: t => rc <- do_op r ;; rcs <- do_ops t ;; ret (rc :: rcs) end.

(** A request a caller may make: a buffer of its own, and numbers that the
    64-bit and 32-bit sums of the driver hold. *)
Definition ok_rq (m : memory) (r : rq) : Prop :=
  0 <= r_lba r /\ 0 <= r_nsec r < 8388608 /\ r_lba r + r_nsec r < 18446744073709551616 /\ 0 <= r_addr r < 18446744073709551616 /\ clear (r_addr r) (rq_len r) /\ mapped m (r_addr r) (rq_len r).

Definition private (b : Z) : Prop := inside q 4096 b \/ inside hd 16 b \/ b = sb.
(** The disk and the memory that the rest of the system sees. *)
Definition sees (w : W) (s : list Z * memory) : Prop := (exists n, ready w n s.1) /\ forall b, ~ private b -> ram w !! b = s.2 !! b.

Lemma put_other m a l b : ~ inside a (zlen l) b -> put m a l !! b = m !! b.
Proof.
  revert m a. induction l as [|x l IH]; intros m a H; cbn [put]; [done|]. cbn [length] in H. rewrite IH by (unfold inside in *; lia). apply lookup_insert_ne. unfold inside in H. lia.
Qed.
Lemma put_at m a l : at_ (put m a l) a l.
Proof.
  revert m a. induction l as [|x l IH]; intros m a; [apply at_nil|]. cbn [put]. apply at_cons. split; [|apply IH]. rewrite put_other by (unfold inside; lia). apply lookup_insert_eq.
Qed.
Lemma put_mapped m a l b n : mapped m b n -> mapped (put m a l) b n.
Proof.
  intros H c Hc. destruct (decide (a <= c < a + zlen l)) as [Hin|Hout]; [by apply (at_mapped _ _ _ (put_at m a l))|]. rewrite put_other by done. by apply H.
Qed.
Lemma length_bytes m a n : 0 <= n -> zlen (bytes m a n) = n.
Proof. intros H. unfold bytes. rewrite length_fmap, length_seqZ. lia. Qed.
Lemma bytes_at m a n : 0 <= n -> mapped m a n -> at_ m a (bytes m a n).
Proof.
  intros Hn Hm i x Hi. unfold bytes in Hi. apply list_lookup_fmap_Some in Hi as (j & -> & Hj). apply lookup_seqZ in Hj as [-> Hj]. rewrite Z.add_0_l. destruct (Hm (a + Z.of_nat i)) as [y Hy]; [lia|]. rewrite Hy. f_equal. by rewrite (lookup_total_correct _ _ _ Hy).
Qed.
Lemma length_sub r disk : fits r disk -> zlen (sub r disk) = rq_len r.
Proof. intros (H1 & H2 & _ & _ & H3). unfold sub, rq_len in *. rewrite length_take, length_drop. lia. Qed.

(** What a write leaves is the old medium with the new sectors. *)
Lemma changed_splice r d d' : r_wr r = true -> fits r d -> changed r d d' -> d' = take (Z.to_nat (512 * r_lba r)) d ++ sub r d' ++ drop (Z.to_nat (512 * (r_lba r + r_nsec r))) d.
Proof.
  intros Hw Hf [Hl Hc]. rewrite Hw in Hc. assert (Hf' : fits r d') by (unfold fits in *; rewrite Hl; exact Hf). pose proof (length_sub r d' Hf') as Hs. destruct Hf as (H1 & H2 & _ & _ & H3). unfold rq_len in *.
  apply list_eq. intros i. destruct (decide (i < Z.to_nat (512 * r_lba r))%nat) as [Hi|Hi].
  - rewrite lookup_app_l by (rewrite length_take; lia). rewrite lookup_take_lt by lia. apply Hc. unfold inside. lia.
  - rewrite lookup_app_r by (rewrite length_take; lia). rewrite length_take, Nat.min_l by lia. destruct (decide (i < Z.to_nat (512 * (r_lba r + r_nsec r)))%nat) as [Hj|Hj].
    + rewrite lookup_app_l by lia. unfold sub, rq_len. rewrite lookup_take_lt by lia. rewrite lookup_drop. f_equal. lia.
    + rewrite lookup_app_r by lia. rewrite lookup_drop, Hc by (unfold inside; lia). f_equal. lia.
Qed.
Lemma do_op_io r d (w : W) (Q : Z -> W -> Prop) : row_of (s_head w) row = Some d -> common d <> 0 -> r_nsec r <> 0 -> wp (fw_blk_io row (r_lba r) (r_addr r) (r_nsec r) (r_wr r)) Q w -> wp (do_op r) Q w.
Proof.
  intros Hrow Hc Hz HQ. unfold do_op, vb_write, vb_read, vb_rw. destruct (r_wr r); wstep; unfold wp at 1, get_row; rewrite Hrow, (proj2 (Z.eqb_neq _ _) Hz), (proj2 (Z.eqb_neq _ _) Hc); exact HQ.
Qed.

Lemma do_op_wp r disk m (w : W) : good = true -> sees w (disk, m) -> ok_rq m r -> wp (do_op r) (fun rc w' => rc = (disk_op (disk, m) r).2 /\ sees w' (disk_op (disk, m) r).1) w.
Proof.
  intros Hg [[n Hre] Hs] (B1 & B2 & B3 & B4 & Hc & Hm). cbn [fst snd] in *. pose proof Hre as [(d & Hrow & Hmy) Hn Mq Mh Ms _ _ _]. pose proof Hmy as (Hcm & Eq & _ & _ & _ & _ & Ecap). pose proof lay as [].
  unfold disk_op. destruct (fits_b r disk) eqn:Ef; cbn [negb].
  - apply andb_true_iff in Ef as [E1%Z.ltb_lt E2%Z.leb_le]. assert (Hf : fits r disk) by (unfold fits; lia). apply (do_op_io r d); [done|lia|lia|].
    assert (Mb : mapped (ram w) (r_addr r) (rq_len r)) by (intros b Hb; rewrite Hs; [by apply Hm|]; unfold private, inside, clear in *; lia).
    eapply wp_mono; [destruct r; apply (io_wp n disk); done|]. intros rc w' [Hk [(disk' & Hre' & Hch & [[-> Hmv]|[_ Hb]])|(_ & Hb & _)]]; [|congruence|congruence]. destruct r as [wr lba addr ns]. cbn [r_wr r_lba r_addr r_nsec] in *. set (r := Rq wr lba addr ns) in *.
    assert (Hf' : fits r disk') by (by eapply fits_changed). pose proof (length_sub r disk' Hf') as Hl'. destruct Hk as [Hk _].
    assert (Hout : forall b, ~ private b -> (r_wr r = false -> ~ inside addr (rq_len r) b) -> ram w' !! b = m !! b) by (intros b Hp Hd; rewrite Hk; [by apply Hs|]; unfold foot, private in *; naive_solver).
    destruct wr.
    + split; [done|]. cbn [fst]. assert (Eb : bytes m addr (rq_len r) = sub r disk').
      { apply (at_fun m addr); [apply bytes_at; [unfold rq_len; cbn; lia|done]| |pose proof (length_bytes m addr (rq_len r) ltac:(unfold rq_len; cbn; lia)); lia].
        intros i x Hi. rewrite <- (Hout (addr + Z.of_nat i)); [by apply Hmv| |done]. apply lookup_lt_Some in Hi. unfold private, inside, clear in *. lia. }
      split; [|intros b Hp; by apply Hout]. exists (u16 (n + 1)). cbn [fst]. rewrite Eb. pose proof (changed_splice r disk disk' eq_refl Hf Hch) as Esp. change (r_lba r) with lba in Esp. change (r_nsec r) with ns in Esp. by rewrite <- Esp.
    + split; [done|]. destruct Hch as [_ Ed']. cbn [r_wr r] in Ed'. subst disk'. split; [by exists (u16 (n + 1))|]. cbn [snd]. intros b Hp. destruct (decide (inside addr (rq_len r) b)) as [Hin|Hnin].
      * destruct (lookup_lt_is_Some_2 (sub r disk) (Z.to_nat (b - addr))) as [x Hx]; [unfold inside in Hin; lia|]. replace b with (addr + Z.of_nat (Z.to_nat (b - addr))) by (unfold inside in Hin; lia). pose proof (Hmv _ _ Hx) as Ex. change (r_addr r) with addr in Ex. rewrite Ex. symmetry. apply (put_at m addr _ _ _ Hx).
      * cbn [fst snd]. rewrite put_other by by rewrite Hl'. by apply Hout.
  - assert (Hbad : r_nsec r = 0 \/ (0 < r_nsec r /\ zlen disk < 512 * (r_lba r + r_nsec r))).
    { unfold fits_b in Ef. apply andb_false_iff in Ef as [E1%Z.ltb_ge|E2%Z.leb_gt]; lia. }
    assert (Hsame : sees w (disk, m)) by (split; [by exists n|done]). cbn [fst snd]. destruct Hbad as [Hz|[Hz Hbig]].
    + unfold do_op, vb_write, vb_read, vb_rw. destruct (r_wr r); wstep; unfold wp at 1, get_row; rewrite Hrow, Hz; done.
    + apply (do_op_io r d); [done|lia|lia|]. unfold fw_blk_io. wstep. unfold wp at 1, get_row. rewrite Hrow, Eq, (proj2 (Z.eqb_neq (common d) 0)), (proj2 (Z.eqb_neq q 0)), (proj2 (Z.eqb_neq (r_nsec r) 0)) by lia. cbn [orb].
      rewrite (proj2 (Z.ltb_lt _ _)) by (unfold u64; rewrite Z.mod_small by lia; lia). by wstep.
Qed.

Lemma ok_rq_op r r' disk m : ok_rq m r -> ok_rq (disk_op (disk, m) r').1.2 r.
Proof.
  intros (H1 & H2 & H3 & H4 & H5 & H6). repeat (split; [done|]). unfold disk_op. destruct (negb _); [done|]. destruct (r_wr r'); [done|]. by apply put_mapped.
Qed.

Lemma do_ops_wp l s (w : W) : good = true -> sees w s -> Forall (ok_rq s.2) l -> wp (do_ops l) (fun rcs w' => rcs = (disk_run s l).2 /\ sees w' (disk_run s l).1) w.
Proof.
  intros Hg. revert s w. induction l as [|r l IH]; intros [disk m] w Hs Hok; cbn [do_ops disk_run]; [by wstep|]. apply Forall_cons in Hok as [Hr Hok]. cbn [snd] in *.
  wstep. eapply wp_mono; [by apply (do_op_wp r disk m)|]. intros rc w1 [-> Hs1]. destruct (disk_op (disk, m) r) as [s1 rc] eqn:Eop. cbn [fst snd] in *.
  wstep. eapply wp_mono; [apply (IH s1 w1); [done|]|].
  - eapply Forall_impl; [exact Hok|]. intros r' Hr'. replace s1.2 with (disk_op (disk, m) r).1.2 by by rewrite Eop. by apply ok_rq_op.
  - intros rcs w2 [-> Hs2]. wstep. destruct (disk_run s1 l) as [s2 rcs]. done.
Qed.
End driver.
End VblkSpec.
