(* ===== verification/VblkDisk.v ===== *)
(** * Driver and device together

    A virtio disk that takes its time, as one device of which [DiskLaws] holds;
    that the driver makes a disk of any such device that is quick enough; and
    what becomes of the driver when one is not. *)
From S2P Require Import Prelude Vblk VblkSpec.

Module VblkDisk.
Import Store Vblk VblkSpec.
Local Open Scope metal_scope.

(** ** A device *)

(** Requests published, the medium, the request at hand with its status byte,
    the looks it still takes, the looks that later ones will take, and the device
    status register. *)
Record disk := Disk { seen : Z; medium : list Z; job : option (rq * Z); wait : Z; delays : list Z; status : Z }.

Definition vq0 := 8192.
Definition hd0 := 4096.
Definition sb0 := 4112.
Definition door0 := 20480.

(** The chain of descriptors that the next entry of the ring names. *)
Definition num (m : gmap Z Z) (a n : Z) : Z := unle (bytes m a n).
Definition chain (m : gmap Z Z) (n : Z) : rq * Z :=
  let d0 := vq0 + 16 * num m (vq0 + 260 + n mod 16 * 2) 2 in
  let d1 := vq0 + 16 * num m (d0 + 14) 2 in
  let d2 := vq0 + 16 * num m (d1 + 14) 2 in
  let hdr := num m d0 8 in
  (Rq (num m hdr 4 =? 1) (num m (hdr + 8) 8) (num m d1 8) (num m (d1 + 8) 4 / 512), num m d2 8).

(** The sectors are moved, the status is written, the entry is used. *)
Definition new_medium (e : disk) (m : gmap Z Z) (r : rq) : list Z :=
  if r_wr r then take (Z.to_nat (512 * r_lba r)) (medium e) ++ bytes m (r_addr r) (rq_len r) ++ drop (Z.to_nat (512 * (r_lba r + r_nsec r))) (medium e) else medium e.
Definition new_memory (e : disk) (m : gmap Z Z) (r : rq) (st : Z) : gmap Z Z :=
  let m := if r_wr r then m else put m (r_addr r) (sub r (medium e)) in
  let m := put m st [0] in
  let m := put m (vq0 + 516 + seen e mod 16 * 8) (le 4 0 ++ le 4 (rq_len r + 1)) in
  put m (vq0 + 514) (le 2 (u16 (seen e + 1))).
Definition complete (e : disk) (m : gmap Z Z) (r : rq) (st : Z) : disk * gmap Z Z :=
  (Disk (u16 (seen e + 1)) (new_medium e m r) None 0 (delays e) (status e), new_memory e m r st).

Definition disk_look (e : disk) (m : gmap Z Z) : disk * gmap Z Z :=
  match job e with
  | None => if num m (vq0 + 258) 2 =? seen e then (e, m) else (Disk (seen e) (medium e) (Some (chain m (seen e))) (default 0 (head (delays e))) (tail (delays e)) (status e), m)
  | Some (r, st) => if 0 <? wait e then (Disk (seen e) (medium e) (job e) (wait e - 1) (delays e) (status e), m) else complete e m r st
  end.

(** Function 0 of device 1 on bus 0: its registers at 20000 behind BAR 4, and
    a chain of three capabilities. *)
Definition disk_cfg (bus dev fn off : Z) : Z :=
  if negb ((bus =? 0) && (dev =? 1) && (fn =? 0)) then 4294967295 else
  match off with
  | 0 => 272767732 | 32 => 20000 | 52 => 64
  | 64 => 9 + 80 * 256 + 16777216 | 68 => 4 | 72 => 0
  | 80 => 9 + 100 * 256 + 2 * 16777216 | 84 => 4 | 88 => 480 | 96 => 4
  | 100 => 9 + 4 * 16777216 | 104 => 4 | 108 => 100
  | _ => 0 end.
Definition zeros (m : gmap Z Z) (a n : Z) : gmap Z Z := put m a (repeat 0 (Z.to_nat n)).
(** The places of a row, the queue, the header and the status byte. *)
Definition place (n : Z) : Z := if n =? 4096 then vq0 else if n =? 16 then hd0 else if n =? 1 then sb0 else 2048.

#[export] Instance disk_ops : VblkOps disk := {|
  dev_run := disk_look;
  mmio_r8 _ e := (e, status e);
  mmio_w8 _ v e := Disk (seen e) (medium e) (job e) (wait e) (delays e) v;
  mmio_r16 a e := (e, if a =? 20024 then 16 else 0);
  mmio_w16 _ _ e := e;
  mmio_r32 a e := (e, if a =? 20100 then zlen (medium e) / 512 else if a =? 20004 then 1 else 0);
  mmio_w32 _ _ e := e;
  cfg_read32 bus dev fn off e := (e, disk_cfg bus dev fn off);
  cfg_write32 _ _ _ _ _ e := e;
  vb_alloc _ n e m := (e, zeros m (place n) n, place n);
  dt_add_blk _ _ e := (e, 3); dt_unbind _ e := e; blk_bind _ _ e := (e, 5) |}.

Definition looks (e : disk) : nat := match job e with None => S (S (Z.to_nat (default 0 (head (delays e))))) | Some _ => S (Z.to_nat (wait e)) end.

Section laws.
Variable good : bool.
Definition quick (x : Z) : Prop := 0 <= x /\ (good = true -> x < 9000000).
Definition at_disk (e : disk) (n : Z) (d : list Z) (o : option rq) : Prop :=
  seen e = n /\ medium e = d /\ job e = (fun r => (r, sb0)) <$> o /\ quick (wait e) /\ Forall quick (delays e) /\ 0 <= n < 65536.

Lemma bytes_of_at m a l : at_ m a l -> bytes m a (zlen l) = l.
Proof.
  intros H. symmetry. apply (at_fun m a); [done|apply bytes_at; [lia|by apply at_mapped]|]. pose proof (length_bytes m a (zlen l)). lia.
Qed.
Lemma num_at m a n x : at_ m a (le n x) -> num m a (Z.of_nat n) = x mod 2 ^ (8 * Z.of_nat n).
Proof. intros H. unfold num. rewrite <- unle_le. f_equal. rewrite <- (length_le n x) at 1. by apply bytes_of_at. Qed.

Lemma layout0 : layout vq0 hd0 sb0.
Proof. constructor; unfold vq0, hd0, sb0; lia. Qed.

Lemma chain_request m n r d : posted vq0 hd0 sb0 m n r -> fits r d -> 0 <= n < 65536 -> chain m n = (r, sb0).
Proof.
  intros [D0 D1 D2 Hring _ Hh _] (F1 & F2 & F3 & F4 & _) Hn. apply at_app in D0 as [A0 D0]. apply at_app in D0 as [_ D0]. apply at_app in D0 as [_ N0]. apply at_app in D1 as [A1 D1]. apply at_app in D1 as [L1 D1]. apply at_app in D1 as [_ N1].
  apply at_app in D2 as [A2 _]. rewrite ?length_le in *. unfold chain. change [0; 0] with (le 2 0) in Hring.
  rewrite (num_at _ _ 2 0) by exact Hring. change (0 mod 2 ^ (8 * Z.of_nat 2)) with 0. change (vq0 + 16 * 0) with vq0. cbv zeta.
  assert (E1 : num m vq0 8 = hd0) by exact (num_at m vq0 8 hd0 A0). assert (E2 : num m (vq0 + 14) 2 = 1) by exact (num_at m (vq0 + 14) 2 1 N0). rewrite E1, E2. change (vq0 + 16 * 1) with (vq0 + 16).
  assert (E3 : num m (vq0 + 16 + 14) 2 = 2) by exact (num_at m (vq0 + 16 + 14) 2 2 N1). assert (E4 : num m (vq0 + 16) 8 = r_addr r) by (rewrite (num_at m (vq0 + 16) 8 _ A1 : num m (vq0 + 16) 8 = _); apply Z.mod_small; done).
  assert (E5 : num m (vq0 + 16 + 8) 4 = rq_len r) by (rewrite (num_at m (vq0 + 16 + 8) 4 _ L1 : num m (vq0 + 16 + 8) 4 = _); apply Z.mod_small; unfold rq_len; change (2 ^ (8 * Z.of_nat 4)) with 4294967296; lia).
  rewrite E3, E4, E5. change (vq0 + 16 * 2) with (vq0 + 32). assert (E6 : num m (vq0 + 32) 8 = sb0) by exact (num_at m (vq0 + 32) 8 sb0 A2). rewrite E6.
  change ((if r_wr r then 1 else 0) :: repeat 0 7 ++ le 8 (r_lba r)) with (((if r_wr r then 1 else 0) :: repeat 0 3) ++ repeat 0 4 ++ le 8 (r_lba r)) in Hh. apply at_app in Hh as [T Hh]. apply at_app in Hh as [_ Hl].
  assert (E7 : num m hd0 4 = if r_wr r then 1 else 0) by (destruct (r_wr r); [exact (num_at m hd0 4 1 T)|exact (num_at m hd0 4 0 T)]).
  assert (E8 : num m (hd0 + 8) 8 = r_lba r) by (rewrite (num_at m (hd0 + 8) 8 _ Hl : num m (hd0 + 8) 8 = _); apply Z.mod_small; change (2 ^ (8 * Z.of_nat 8)) with 18446744073709551616; lia).
  rewrite E7, E8. unfold rq_len. rewrite (Z.mul_comm 512), Z.div_mul by lia. destruct r as [wr ? ? ?]. cbn. by destruct wr.
Qed.

Lemma keeps_put m a l : keeps m (put m a l) (inside a (zlen l)).
Proof.
  split; [intros b Hb; by apply put_other|]. intros b Hb. assert (mapped (put m a l) b 1) as H; [|apply H; lia]. apply put_mapped. intros c Hc. by replace c with b by lia.
Qed.

Lemma new_medium_ok e m r : fits r (medium e) -> changed r (medium e) (new_medium e m r).
Proof.
  intros (F1 & F2 & _ & _ & F5). unfold changed, new_medium. destruct (r_wr r); [|done]. pose proof (length_bytes m (r_addr r) (rq_len r)) as Hb. unfold rq_len in *. split; [rewrite !length_app, length_take, length_drop; lia|].
  intros i Hi. unfold inside in Hi. destruct (decide (i < Z.to_nat (512 * r_lba r))%nat) as [Hl|Hl]; [rewrite lookup_app_l by (rewrite length_take; lia); by apply lookup_take_lt|].
  rewrite lookup_app_r by (rewrite length_take; lia). rewrite length_take, lookup_app_r, lookup_drop by lia. f_equal. lia.
Qed.

(** The sectors of what was written are the buffer. *)
Lemma sub_new_medium e m r : r_wr r = true -> fits r (medium e) -> sub r (new_medium e m r) = bytes m (r_addr r) (rq_len r).
Proof.
  intros Hw (F1 & F2 & _ & _ & F5). unfold sub, new_medium. rewrite Hw. pose proof (length_bytes m (r_addr r) (rq_len r)) as Hb. unfold rq_len in *.
  rewrite drop_app_length' by (rewrite length_take; lia). by rewrite take_app_length' by lia.
Qed.

Lemma new_memory_ok e m r : mapped m (r_addr r) (rq_len r) -> clear vq0 hd0 sb0 (r_addr r) (rq_len r) -> fits r (medium e) -> 0 <= seen e < 65536 ->
  let m' := new_memory e m r sb0 in
  keeps m m' (publish vq0 sb0 r) /\ at_ m' (vq0 + 514) (le 2 (u16 (seen e + 1))) /\ m' !! sb0 = Some 0 /\ moved r m' (new_medium e m r).
Proof.
  intros Mb Hc Hf Hn m'. pose proof (length_sub r _ Hf) as Hl. assert (0 <= seen e mod 16 < 16) by (apply Z.mod_pos_bound; lia). assert (Hlen : 0 <= rq_len r) by (unfold rq_len; destruct Hf; lia).
  set (m1 := if r_wr r then m else put m (r_addr r) (sub r (medium e))). assert (K1 : keeps m m1 (fun b => r_wr r = false /\ inside (r_addr r) (rq_len r) b)).
  { unfold m1. destruct (r_wr r); [apply keeps_refl|]. eapply keeps_sub; [apply keeps_put|]. rewrite Hl. done. }
  assert (A1 : at_ m1 (r_addr r) (sub r (new_medium e m r))).
  { unfold m1. destruct (r_wr r) eqn:Ew; [rewrite sub_new_medium by done; by apply bytes_at|]. unfold new_medium. rewrite Ew. apply put_at. }
  assert (Ln : zlen (sub r (new_medium e m r)) = rq_len r) by (apply length_sub; by eapply fits_changed, new_medium_ok).
  set (m2 := put m1 sb0 [0]). pose proof (keeps_put m1 sb0 [0]) as K2. fold m2 in K2.
  set (m3 := put m2 (vq0 + 516 + seen e mod 16 * 8) (le 4 0 ++ le 4 (rq_len r + 1))). pose proof (keeps_put m2 (vq0 + 516 + seen e mod 16 * 8) (le 4 0 ++ le 4 (rq_len r + 1))) as K3. fold m3 in K3. rewrite length_app, !length_le in K3.
  pose proof (keeps_put m3 (vq0 + 514) (le 2 (u16 (seen e + 1)))) as K4. change (put m3 (vq0 + 514) (le 2 (u16 (seen e + 1)))) with m' in K4. rewrite length_le in K4.
  split; [|split; [apply put_at|split]].
  - eapply keeps_trans; [|eapply keeps_trans; [|eapply keeps_trans]]; eapply keeps_sub; [exact K1| |exact K2| |exact K3| |exact K4|]; intros b; unfold publish, work, inside; cbn [length]; [tauto|intros; left; left; lia|intros; right; lia|intros; right; lia].
  - assert (S2 : at_ m2 sb0 [0]) by apply put_at. assert (at_ m' sb0 [0]) as S4; [|by apply at_cons in S4 as [S4 _]].
    eapply at_keeps; [eapply at_keeps; [exact S2|exact K3|]|exact K4|]; unfold inside, vq0, sb0; cbn [length]; lia.
  - unfold moved. unfold clear, vq0, hd0, sb0 in Hc. eapply at_keeps; [eapply at_keeps; [eapply at_keeps; [exact A1|exact K2|]|exact K3|]|exact K4|]; rewrite Ln; unfold inside, vq0, sb0; cbn [length]; lia.
Qed.

(** It does what the specification says, with a bound on its looks when it is
    good. *)
Lemma disk_laws : DiskLaws vq0 hd0 sb0 door0 at_disk good looks.
Proof.
  constructor.
  - done.
  - intros e n d v Hg (_ & _ & Hj & _ & Hd & _). cbn [mmio_w16 disk_ops]. unfold looks. rewrite Hj. cbn. unfold FW_BLK_SPINS. destruct Hd as [|x l [Hx1 Hx2] _]; cbn [head default]; [lia|]. specialize (Hx2 Hg). unfold id. lia.
  - intros e n d o r m e' m' (Hs & Hm & Hj & Hw & Hd & Hn) Ho Hr Hcl Hf. cbn [dev_run disk_ops]. unfold disk_look. rewrite Hj. pose proof (num_at m (vq0 + 258) 2 _ (rq_avail _ _ _ _ _ _ Hr)) as Ea. change (Z.of_nat 2) with 2 in Ea. change (2 ^ (8 * 2)) with 65536 in Ea.
    destruct Ho as [->| ->]; cbn [fmap option_fmap option_map].
    + rewrite Ea, Z.mod_small, Hs, (proj2 (Z.eqb_neq _ _)) by (unfold u16; mlia). intros [= <- <-]. exists d. split; [apply changed_refl|]. left. rewrite (chain_request m n r d Hr Hf Hn). split; [|split; [apply keeps_refl|]].
      * unfold at_disk. cbn. repeat (split; [done|]). split; [|split; [|done]]; [|by apply Forall_tail]. destruct Hd as [|x l Hx _]; cbn; [split; [lia|done || (intros; lia)]|done].
      * intros _. unfold looks. rewrite Hj. cbn. lia.
    + destruct (Z.ltb_spec 0 (wait e)) as [Hlt|Hge].
      * intros [= <- <-]. exists d. split; [apply changed_refl|]. left. split; [|split; [apply keeps_refl|]].
        -- unfold at_disk. cbn. repeat (split; [done|]). split; [|done]. destruct Hw as [W1 W2]. split; [lia|]. intros Hg. specialize (W2 Hg). lia.
        -- intros _. unfold looks. rewrite Hj. cbn. lia.
      * intros [= <- <-]. subst n d. destruct (rq_mapped _ _ _ _ _ _ Hr) as (_ & Mb & _). destruct (new_memory_ok e m r Mb Hcl Hf Hn) as (Hk & Hu & Hst & Hmv). exists (new_medium e m r). split; [by apply new_medium_ok|]. right. split; [|split; [done|split; [done|by exists 0]]].
        unfold at_disk. cbn. split_and!; try done; unfold u16; mlia.
Qed.
End laws.

(** ** Driver and device *)

(** C19: For every virtio disk that keeps to the specification and finishes each
    request within the driver's patience, and for every sequence of reads and
    writes, the driver's answers, the medium and the memory of its callers are
    those of an abstract disk: a request outside the disk is refused and changes
    nothing, any other moves exactly its sectors. *)
Theorem vblk_is_a_disk {E : Type} `{!VblkOps E} q hd sb door P eta row (l : list rq) (s : list Z * gmap Z Z) (w : @vblk E)
  (laws : DiskLaws q hd sb door P true eta) (lay : layout q hd sb) (Hs : sees q hd sb door P row w s) (Hl : Forall (ok_rq q hd sb s.2) l) :
  wp (do_ops row l) (fun answers w' => answers = (disk_run s l).2 /\ sees q hd sb door P row w' (disk_run s l).1) w.
Proof. by apply (do_ops_wp q hd sb door P true eta laws row lay). Qed.

(** ** A device that is too slow *)

Definition sleep (k : nat) (e : disk) : disk := Disk (seen e) (medium e) (job e) (wait e - Z.of_nat k) (delays e) (status e).

Lemma spin_waits k fuel row u st n j (w : @vblk disk) (Q : Z -> @vblk disk -> Prop) : job (env w) = Some j -> Z.of_nat k <= wait (env w) -> at_ (ram w) (u + 2) (le 2 n) -> 0 <= n < 65536 ->
  wp (spin fuel row u st n) Q (VblkSt (sleep k (env w)) (ram w) (s_arena w) (s_head w) (s_dev_used w)) -> wp (spin (k + fuel) row u st n) Q w.
Proof.
  revert w. induction k as [|k IH]; intros [e m ar hd du] Hj Hk Hu Hn HQ; cbn [env ram s_arena s_head s_dev_used Nat.add spin] in *.
  - unfold sleep in HQ. replace (wait e - Z.of_nat 0) with (wait e) in HQ by lia. by destruct e.
  - wstep. eapply run_wp; [cbn [env ram dev_run disk_ops]; unfold disk_look; rewrite Hj; destruct j as [r s]; rewrite (proj2 (Z.ltb_lt _ _)) by lia; reflexivity|]. cbn [env ram s_arena s_head s_dev_used].
    wstep. eapply rd16_wp; [exact Hu|exact Hn|]. rewrite Z.eqb_refl. cbn [negb]. apply IH; cbn [env ram s_arena s_head s_dev_used job wait]; try done; [lia|].
    unfold sleep in *. cbn [seen medium job wait delays]. rewrite <- Hj. replace (wait e - 1 - Z.of_nat k) with (wait e - Z.of_nat (S k)) by lia. exact HQ.
Qed.

Section slow.
Variables (row : Z) (dk : list Z).
Abbreviation W := (@vblk disk).
Abbreviation tidy0 := (tidy vq0 hd0 sb0 door0 row).
Abbreviation clear0 := (clear vq0 hd0 sb0).

(** A request that a slow device has begun, and that the driver has given up. *)
Lemma first_times_out n d r x rest (w : W) (Q : Z -> W -> Prop) : tidy0 w n n dk d -> at_disk false (env w) n dk None -> delays (env w) = x :: rest -> 9999999 <= x ->
  clear0 (r_addr r) (rq_len r) -> mapped (ram w) (r_addr r) (rq_len r) -> fits r dk ->
  (forall m, keeps (ram w) m (private vq0 hd0 sb0) -> posted vq0 hd0 sb0 m n r -> at_ m (vq0 + 514) (le 2 n) ->
     Q (-1) (VblkSt (Disk n dk (Some (r, sb0)) (x - 9999999) rest (status (env w))) m (s_arena w) (s_head w) (s_dev_used w))) ->
  wp (do_op row r) Q w.
Proof.
  intros Ht (Es & Em & Ej & _) Hx Hbig Hc Mb Hf HQ. pose proof Ht as [Hrow (Hcm & _) Hn _ _ _ _ _ _]. apply (do_op_io row r d); [done..|unfold fits in Hf; lia|]. destruct r as [wr lba addr ns]. set (r := Rq wr lba addr ns) in *.
  apply (post_wp vq0 hd0 sb0 door0 row layout0 n n dk d); [done..|]. intros m Hreq K Hu. cbn [mmio_w16 disk_ops]. assert (exists k, Z.of_nat k = 9999999 /\ Z.to_nat FW_BLK_SPINS = S (k + 0)) as (k & Hk & ->) by (exists (Z.to_nat 9999999); unfold FW_BLK_SPINS; lia). cbn [spin]. wstep.
  pose proof (num_at m (vq0 + 258) 2 _ (rq_avail _ _ _ _ _ _ Hreq)) as Ea. change (Z.of_nat 2) with 2 in Ea. change (2 ^ (8 * 2)) with 65536 in Ea.
  eapply run_wp. { cbn [env ram dev_run disk_ops]. unfold disk_look. rewrite Ej. cbn [fmap option_fmap option_map]. rewrite Ea, Es, (proj2 (Z.eqb_neq _ _)) by (unfold u16; mlia). rewrite (chain_request m n r dk Hreq Hf Hn), Hx. cbn [head default tail]. reflexivity. }
  cbn [env ram s_arena s_head s_dev_used]. wstep. eapply rd16_wp; [exact Hu|exact Hn|]. rewrite Z.eqb_refl. cbn [negb].
  eapply (spin_waits _ 0); cbn [env ram s_arena s_head s_dev_used job wait]; [reflexivity|unfold id; lia|exact Hu|exact Hn|]. cbn [spin]. wstep. unfold sleep. cbn [seen medium job wait delays]. rewrite Em. unfold id. rewrite Hk. by apply HQ.
Qed.

(** The next one finds it finished. *)
Lemma next_is_answered n d r1 r2 x rest st (w : W) (Q : Z -> W -> Prop) : tidy0 w (u16 (n + 1)) n dk d -> env w = Disk n dk (Some (r1, sb0)) x rest st -> 0 <= x < 10000000 ->
  clear0 (r_addr r1) (rq_len r1) -> mapped (ram w) (r_addr r1) (rq_len r1) -> fits r1 dk ->
  clear0 (r_addr r2) (rq_len r2) -> mapped (ram w) (r_addr r2) (rq_len r2) -> fits r2 dk ->
  (forall w', keeps (ram w) (ram w') (fun b => private vq0 hd0 sb0 b \/ inside (r_addr r1) (rq_len r1) b) -> moved r1 (ram w') (medium (env w')) -> Q 0 w') ->
  wp (do_op row r2) Q w.
Proof.
  intros Ht Ee Hx Hc1 M1 F1 Hc2 M2 F2 HQ. pose proof Ht as [Hrow (Hcm & _) Hn Hn1 _ _ _ _ _]. apply (do_op_io row r2 d); [done..|unfold fits in F2; lia|]. destruct r2 as [wr lba addr ns].
  apply (post_wp vq0 hd0 sb0 door0 row layout0 (u16 (n + 1)) n dk d); [done..|]. intros m Hreq K Hu. cbn [mmio_w16 disk_ops]. replace (Z.to_nat FW_BLK_SPINS) with (Z.to_nat x + S (Z.to_nat (9999999 - x)))%nat by (unfold FW_BLK_SPINS; lia).
  eapply spin_waits; cbn [env ram s_arena s_head s_dev_used]; rewrite ?Ee; cbn [job wait]; [reflexivity|lia|exact Hu|exact Hn|]. unfold sleep. cbn [seen medium job wait delays]. replace (x - Z.of_nat (Z.to_nat x)) with 0 by lia. set (e1 := Disk _ _ _ _ _ _).
  assert (M1' : mapped m (r_addr r1) (rq_len r1)) by (eapply mapped_keeps; eassumption). destruct (new_memory_ok e1 m r1 M1' Hc1 F1 Hn) as (Hk & Hu' & Hst & Hmv). cbn [seen e1] in Hu'.
  cbn [spin]. wstep. eapply run_wp; [cbn [env ram dev_run disk_ops]; unfold disk_look; cbn [job wait e1]; change (0 <? 0) with false; unfold complete; reflexivity|]. cbn [env ram s_arena s_head s_dev_used].
  wstep. eapply rd16_wp; [exact Hu'|exact Hn1|]. rewrite (proj2 (Z.eqb_neq _ _)) by (unfold u16; mlia). cbn [negb]. wstep. unfold upd_row. wstep. wstep. apply (rd8_wp sb0 0); [exact Hst|]. wstep. change (0 =? 0) with true. apply HQ; [|exact Hmv]. cbn [ram set_head].
  eapply keeps_trans; eapply keeps_sub; [exact K| |exact Hk|]; intros b; unfold private, publish, work, inside, vq0, hd0, sb0; [tauto|lia].
Qed.

Definition sound_rq (m : gmap Z Z) (r : rq) : Prop := clear0 (r_addr r) (rq_len r) /\ mapped m (r_addr r) (rq_len r) /\ fits r dk.

Lemma late_wp n r1 r2 x rest (w : W) : ready vq0 hd0 sb0 door0 (at_disk false) row w n dk -> delays (env w) = x :: rest -> 9999999 <= x < 19999999 -> sound_rq (ram w) r1 -> sound_rq (ram w) r2 ->
  (forall b, inside (r_addr r2) (rq_len r2) b -> ~ inside (r_addr r1) (rq_len r1) b) ->
  wp (do_ops row [r1; r2]) (fun answers w' => answers = [-1; 0] /\ (forall b, inside (r_addr r2) (rq_len r2) b -> ram w' !! b = ram w !! b) /\ moved r1 (ram w') (medium (env w'))) w.
Proof.
  intros Hre Hx Hb (C1 & M1 & F1) (C2 & M2 & F2) Hd. destruct (ready_tidy _ _ _ _ _ _ _ _ _ Hre) as [d Ht]. pose proof (re_dev _ _ _ _ _ _ _ _ _ Hre) as HP. cbn [do_ops]. wstep.
  eapply (first_times_out n d r1 x rest); [exact Ht|exact HP|exact Hx|lia|done..|]. intros m K Hreq Hu. wstep. destruct Ht as [Hrow Hmy Hn _ Mq Mh Ms _ _].
  assert (Ht' : tidy0 (VblkSt (Disk n dk (Some (r1, sb0)) (x - 9999999) rest (status (env w))) m (s_arena w) (s_head w) (s_dev_used w)) (u16 (n + 1)) n dk d).
  { constructor; cbn [ram s_head]; try done; [unfold u16; mlia|eapply mapped_keeps; eassumption..|apply (rq_avail _ _ _ _ _ _ Hreq)]. }
  wstep. eapply (next_is_answered n d r1 r2); [exact Ht'|reflexivity|lia|done|eapply mapped_keeps; eassumption|done|done|eapply mapped_keeps; eassumption|done|].
  intros w' [Kw _] Hmv. wstep. split; [done|]. split; [|done]. destruct K as [Kb _]. intros b Hin. cbn [ram] in Kw. rewrite Kw, Kb; [done|..]; unfold private, inside, clear, vq0, hd0, sb0 in *; specialize (Hd b Hin); lia.
Qed.
End slow.

(** A disk that answers a request just after the driver has given it up
    answers the next one: the driver reports -1 for the first and 0 for the
    second, whose buffer is as it was, while the sectors of the first are moved
    after its caller was told that they were not. *)
Theorem late_completion_answers_the_next row dk n r1 r2 x rest (w : @vblk disk) (Hw : ready vq0 hd0 sb0 door0 (at_disk false) row w n dk)
  (Hx : delays (env w) = x :: rest) (Hlate : 9999999 <= x < 19999999) (H1 : sound_rq dk (ram w) r1) (H2 : sound_rq dk (ram w) r2)
  (Hd : forall b, inside (r_addr r2) (rq_len r2) b -> ~ inside (r_addr r1) (rq_len r1) b) :
  wp (do_ops row [r1; r2]) (fun answers w' => answers = [-1; 0] /\ (forall b, inside (r_addr r2) (rq_len r2) b -> ram w' !! b = ram w !! b) /\ moved r1 (ram w') (medium (env w'))) w.
Proof. by eapply late_wp. Qed.

(** *** A disk of two sectors *)

Definition two_sectors : list Z := repeat 7 512 ++ repeat 9 512.
Definition buffers : gmap Z Z := zeros ∅ 32768 1024.
(** Before the function is attached, and after. *)
Definition found (l : list Z) : @vblk disk := VblkSt (Disk 0 two_sectors None 0 l 0) buffers true [] 0.
Definition blank : gmap Z Z := zeros (zeros (zeros (zeros buffers 2048 200) vq0 4096) hd0 16) sb0 1.
Definition a_row : virtio_blk := VirtioBlk true 0 0 0 3 5 20000 door0 4 0 0 vq0 hd0 sb0 2.
Definition booted (l : list Z) : @vblk disk := VblkSt (Disk 0 two_sectors None 0 l 15) blank true [(2048, a_row)] 1.
#[local] Instance virtio_blk_eq_dec : EqDecision virtio_blk.
Proof. solve_decision. Defined.
#[local] Instance rq_eq_dec : EqDecision rq.
Proof. solve_decision. Defined.
#[local] Instance disk_eq_dec : EqDecision disk.
Proof. solve_decision. Defined.
#[local] Instance vblk_eq_dec : EqDecision (@vblk disk).
Proof. solve_decision. Defined.
#[local] Instance result_eq_dec : EqDecision (outcome (@vblk disk) Z).
Proof. solve_decision. Defined.
Example attach_boots : fw_blk_attach_pci 4 (fun n => n <? 4) 0 1 0 (found [5; 0; 3]) = Done 5 (booted [5; 0; 3]).
Proof. apply (bool_decide_unpack _). vm_compute. exact I. Qed.
(** Sector [i] into the [i]th buffer. *)
Definition reading (i : Z) : rq := Rq false i (32768 + 512 * i) 1.

Lemma zeros_mapped m a n : 0 <= n -> mapped (zeros m a n) a n.
Proof. intros Hn. unfold zeros. pose proof (at_mapped _ _ _ (put_at m a (repeat 0 (Z.to_nat n)))) as H. rewrite repeat_length in H. by rewrite Z2Nat.id in H. Qed.
Lemma blank_mapped : mapped blank hd0 16 /\ mapped blank sb0 1 /\ mapped blank vq0 4096 /\ mapped blank 32768 1024.
Proof. unfold blank, buffers. split_and!; [do 1 apply put_mapped|do 0 apply put_mapped|do 2 apply put_mapped|do 4 apply put_mapped]; by apply zeros_mapped. Qed.

Lemma booted_ready good l : Forall (quick good) l -> ready vq0 hd0 sb0 door0 (at_disk good) 2048 (booted l) 0 two_sectors.
Proof.
  intros Hl. destruct blank_mapped as (M1 & M2 & M3 & _). constructor; cbn [ram booted env s_head]; try done.
  - by exists a_row.
  - apply at_cons. split; [vm_compute; reflexivity|]. apply at_cons. split; [vm_compute; reflexivity|apply at_nil].
  - apply at_cons. split; [vm_compute; reflexivity|]. apply at_cons. split; [vm_compute; reflexivity|apply at_nil].
Qed.
Lemma booted_sees good l : Forall (quick good) l -> sees vq0 hd0 sb0 door0 (at_disk good) 2048 (booted l) (two_sectors, blank).
Proof.
  intros Hl. assert (ram (booted l) = blank) as Eb by reflexivity. split; [exists 0; by apply booted_ready|]. intros b _. rewrite Eb. cbn [snd]. reflexivity.
Qed.
Lemma reading_sound i : 0 <= i < 2 -> sound_rq two_sectors blank (reading i).
Proof.
  intros Hi. destruct blank_mapped as (_ & _ & _ & M3). unfold sound_rq, clear, fits, reading, rq_len, vq0, hd0, sb0. cbn [r_addr r_nsec r_lba]. assert (zlen two_sectors = 1024) as -> by reflexivity.
  split; [lia|]. split; [|lia]. eapply mapped_sub; [exact M3|lia|lia].
Qed.

Lemma reading_ok wr i b : 0 <= i < 3 -> 0 <= b < 2 -> ok_rq vq0 hd0 sb0 blank (Rq wr i (32768 + 512 * b) 1).
Proof.
  intros Hi Hb. destruct blank_mapped as (_ & _ & _ & M3). unfold ok_rq, clear, rq_len, vq0, hd0, sb0. cbn [r_addr r_nsec r_lba]. split_and!; try lia. eapply mapped_sub; [exact M3|lia|lia].
Qed.

(** Sector 1 is written, read back, and there is no sector 2. *)
Definition three : list rq := [Rq true 1 32768 1; Rq false 1 33280 1; Rq false 2 32768 1].
Lemma vblk_is_a_disk_witness : (disk_run (two_sectors, blank) three).2 = [0; 0; -1] /\
  wp (do_ops 2048 three) (fun answers w' => answers = (disk_run (two_sectors, blank) three).2 /\ sees vq0 hd0 sb0 door0 (at_disk true) 2048 w' (disk_run (two_sectors, blank) three).1) (booted [5; 0; 3]).
Proof.
  split; [vm_compute; reflexivity|]. apply (vblk_is_a_disk vq0 hd0 sb0 door0 (at_disk true) looks 2048 three (two_sectors, blank) (booted [5; 0; 3]) (disk_laws true) layout0).
  - apply booted_sees. repeat constructor; done.
  - repeat apply Forall_cons_2; [apply (reading_ok true 1 0)|apply (reading_ok false 1 1)|apply (reading_ok false 2 0)|apply Forall_nil_2]; done.
Defined.

Lemma late_completion_answers_the_next_witness :
  wp (do_ops 2048 [reading 0; reading 1]) (fun answers w' => answers = [-1; 0] /\ (forall b, inside (r_addr (reading 1)) (rq_len (reading 1)) b -> ram w' !! b = ram (booted [10000000]) !! b) /\ moved (reading 0) (ram w') (medium (env w'))) (booted [10000000]).
Proof.
  apply (late_completion_answers_the_next 2048 two_sectors 0 (reading 0) (reading 1) 10000000 [] (booted [10000000])); [|done|done|by apply reading_sound|by apply reading_sound|].
  - apply booted_ready. repeat constructor; done.
  - unfold inside, reading, rq_len. cbn. lia.
Defined.

(** *** What modelling showed *)

(** A function that is not a working disk: its configuration space, the size of
    its queue, and the next free address. *)
Record stub := Stub { t_cfg : Z -> Z; t_qsz : Z; t_status : Z; t_next : Z }.
#[export] Instance stub_ops : VblkOps stub := {|
  dev_run e m := (e, m);
  mmio_r8 _ e := (e, t_status e); mmio_w8 _ v e := Stub (t_cfg e) (t_qsz e) v (t_next e);
  mmio_r16 _ e := (e, t_qsz e); mmio_w16 _ _ e := e; mmio_r32 _ e := (e, 1); mmio_w32 _ _ e := e;
  cfg_read32 _ _ _ off e := (e, t_cfg e off); cfg_write32 _ _ _ _ _ e := e;
  vb_alloc _ n e m := (Stub (t_cfg e) (t_qsz e) (t_status e) (t_next e + n), zeros m (t_next e) n, t_next e);
  dt_add_blk _ _ e := (e, 3); dt_unbind _ e := e; blk_bind _ _ e := (e, 5) |}.
Definition plugged (cfg : Z -> Z) (qsz : Z) : @vblk stub := VblkSt (Stub cfg qsz 0 8192) (zeros ∅ 512 512) true [] 0.
Definition room4 (n : Z) : bool := n <? 4.

(** The capability list of a device may be a ring, and the walk has no end. *)
Definition ring_cfg (off : Z) : Z := if off =? 52 then 64 else 64 * 256.
Lemma caps_ring fuel r (w : @vblk stub) : t_cfg (env w) = ring_cfg -> caps_loop fuel 0 1 0 64 r w = NoFuel.
Proof.
  revert w. induction fuel as [|fuel IH]; intros w Hw; [done|]. cbn [caps_loop]. change ((64 =? 0) || (64 =? 255)) with false. unfold bind, on_env. cbn [cfg_read32 stub_ops env]. rewrite Hw. change (negb (u8 (ring_cfg 64) =? 9)) with true.
  change (u8 (Z.shiftr (ring_cfg 64) 8)) with 64. apply IH. done.
Qed.

(** The end of a request is computed modulo 2^64: the last sector that a number
    can name passes for one before the end, and 512 bytes before the disk are
    read. *)
Definition ram_disk (lba : Z) : option Z := match (pm_metal_drivers_blk_virtio_probe room4 0 4 ;; vb_read 8192 lba 512 1) (plugged ring_cfg 0) with Done r _ => Some r | _ => None end.
Example bound_wraps : ram_disk 3 = Some 0 /\ ram_disk 4 = Some (-1) /\ ram_disk 18446744073709551615 = None.
Proof. vm_compute. done. Qed.

(** An attach that fails leaves the registers in its row; the disk in memory
    that takes the row next has no sectors, and refuses every request. *)
Definition no_queue (off : Z) : Z := match off with 52 => 64 | 64 => 9 + 80 * 256 + 16777216 | 80 => 9 + 2 * 16777216 | 16 => 20000 | _ => 0 end.
Example row_left_behind :
  match (a <- fw_blk_attach_pci 4 room4 0 1 0 ;; h <- pm_metal_drivers_blk_virtio_probe room4 0 4 ;; c <- vb_cap 8192 ;; r <- vb_read 8192 0 512 1 ;; ret [a; h; c; r]) (plugged no_queue 0)
  with Done l _ => l | _ => [] end = [-1; 5; 0; -1].
Proof. vm_compute. reflexivity. Qed.
End VblkDisk.
