(* ===== verification/BlkTable.v ===== *)
(** * The drivers.blk card: the table of bound disks

    src/.../metal/drivers/blk/__impl__.c.  A driver hands over functions that
    work on its own state [S]; a handle is an index into the table.  The table
    is widened by pm_util_limits_grow, an argument here. *)
From S2P Require Import Prelude.

Module BlkTable.
Import Store.
Local Open Scope metal_scope.

Section table.
Context {S : Type}.

(** The driver's context is closed over; a function may be NULL. *)
Record blk_ops := BlkOps { op_ready : option (M S Z); op_capacity : option (M S Z); op_read : option (Z -> Z -> Z -> M S Z); op_write : option (Z -> Z -> Z -> M S Z); op_close : option (M S unit) }.
Definition no_ops : blk_ops := BlkOps None None None None None.
Record blkdev := BlkDev { bd_used : bool; bd_dt : Z; bd_ops : blk_ops }.
Definition no_dev : blkdev := BlkDev false 0 no_ops.

(** [s_dev_cap] is the length of [s_dev]. *)
Record table := Table { drv : S; t_arena : bool; s_dev : list blkdev; s_dev_used : Z }.
Definition T := M table.
Definition set_drv s t := Table s (t_arena t) (s_dev t) (s_dev_used t).
Definition set_dev l n t := Table (drv t) (t_arena t) l n.
Definition on_drv {A} (m : M S A) : T A := fun t => match m (drv t) with Done a s => Done a (set_drv s t) | Fault => Fault | NoFuel => NoFuel end.

Fixpoint dev_from (f : blkdev -> bool) (i : nat) (l : list blkdev) : option nat :=
  match l with [] => None | d :: t => if f d then Some i else dev_from f (Datatypes.S i) t end.
Definition dev_find (f : blkdev -> bool) (l : list blkdev) : option nat := dev_from f 0 l.
Definition bound_to (dt : Z) (d : blkdev) : bool := bd_used d && (bd_dt d =? dt).

(** [room] is the device knob; [grow] the wider table, if there is one. *)
Definition dev_slot (room : Z -> bool) (grow : list blkdev -> option (list blkdev)) : T (option nat) :=
  n <- gets s_dev_used ;;
  if negb (room n) then ret None else
  l <- gets s_dev ;;
  match dev_find (fun d => negb (bd_used d)) l with
  | Some i => ret (Some i)
  | None => match grow l with
      | Some l' => if (length l' <=? length l)%nat then ret None else modify (set_dev l' n) ;; ret (Some (length l))
      | None => ret None
      end
  end.

Definition pm_metal_drivers_blk_init (arena : bool) : T Z := if negb arena then ret (-1) else modify (fun t => Table (drv t) true [] 0) ;; ret 0.

Fixpoint close_all (l : list blkdev) : T unit :=
  match l with
  | [] => ret tt
  | d :: t => match (if bd_used d then op_close (bd_ops d) else None) with Some f => on_drv f | None => ret tt end ;; close_all t
  end.
Definition pm_metal_drivers_blk_deinit : T unit := l <- gets s_dev ;; close_all l ;; modify (fun t => Table (drv t) false [] 0).

Definition pm_metal_drivers_blk_bind (room : Z -> bool) (grow : list blkdev -> option (list blkdev)) (dt : Z) (ops : option blk_ops) : T Z :=
  have <- gets t_arena ;;
  match ops with
  | Some ops =>
      if negb have || (dt <? 0) then ret (-1) else
      l <- gets s_dev ;;
      match dev_find (bound_to dt) l with
      | Some i => ret (Z.of_nat i)
      | None =>
          o <- dev_slot room grow ;;
          match o with
          | None => ret (-1)
          | Some i => l <- gets s_dev ;; n <- gets s_dev_used ;; modify (set_dev (<[i := BlkDev true dt ops]> l) (u32 (n + 1))) ;; ret (Z.of_nat i)
          end
      end
  | None => ret (-1)
  end.

(** The row of a handle that is bound. *)
Definition row (h : Z) : T (option blkdev) :=
  l <- gets s_dev ;; ret (if h <? 0 then None else match l !! Z.to_nat h with Some d => if bd_used d then Some d else None | None => None end).

Definition pm_metal_drivers_blk_unbind (h : Z) : T Z :=
  o <- row h ;;
  match o with
  | None => ret (-1)
  | Some d =>
      match op_close (bd_ops d) with Some f => on_drv f | None => ret tt end ;;
      modify (fun t => set_dev (<[Z.to_nat h := no_dev]> (s_dev t)) (if s_dev_used t =? 0 then 0 else s_dev_used t - 1) t) ;; ret 0
  end.

Fixpoint unbind_loop (n i : nat) (dt st : Z) : T Z :=
  match n with
  | O => ret st
  | Datatypes.S n =>
      l <- gets s_dev ;;
      match l !! i with
      | Some d => if bound_to dt d then st <- pm_metal_drivers_blk_unbind (Z.of_nat i) ;; unbind_loop n (Datatypes.S i) dt st else unbind_loop n (Datatypes.S i) dt st
      | None => fault
      end
  end.
Definition pm_metal_drivers_blk_unbind_dt (dt : Z) : T Z := l <- gets s_dev ;; unbind_loop (length l) 0 dt (-1).

Definition pm_metal_drivers_blk_count : T Z := l <- gets s_dev ;; ret (zlen (List.filter bd_used l)).
Definition pm_metal_drivers_blk_dt_id (h : Z) : T Z := o <- row h ;; ret (match o with Some d => bd_dt d | None => -1 end).
Definition pm_metal_drivers_blk_by_dt (dt : Z) : T Z :=
  if dt <? 0 then ret (-1) else l <- gets s_dev ;; ret (match dev_find (bound_to dt) l with Some i => Z.of_nat i | None => -1 end).

(** [dt_compat] asks the dt card. *)
Fixpoint compat_loop (dt_compat : Z -> option (list Z)) (c : list Z) (i : nat) (k : Z) (l : list blkdev) : Z :=
  match l with
  | [] => -1
  | d :: t =>
      if bd_used d && bool_decide (dt_compat (bd_dt d) = Some c) then if k =? 0 then Z.of_nat i else compat_loop dt_compat c (Datatypes.S i) (k - 1) t
      else compat_loop dt_compat c (Datatypes.S i) k t
  end.
Definition pm_metal_drivers_blk_by_compat (dt_compat : Z -> option (list Z)) (c : option (list Z)) (nth : Z) : T Z :=
  match c with Some (x :: c) => if nth <? 0 then ret (-1) else l <- gets s_dev ;; ret (compat_loop dt_compat (x :: c) 0 nth l) | _ => ret (-1) end.

Definition pm_metal_drivers_blk_ready (h : Z) : T Z := o <- row h ;; match o with None => ret 0 | Some d => match op_ready (bd_ops d) with None => ret 1 | Some f => on_drv f end end.
Definition pm_metal_drivers_blk_capacity (h : Z) : T Z := o <- row h ;; match o with Some d => match op_capacity (bd_ops d) with Some f => on_drv f | None => ret 0 end | None => ret 0 end.
Definition pm_metal_drivers_blk_read (h lba buf nsec : Z) : T Z := o <- row h ;; match o with Some d => match op_read (bd_ops d) with Some f => on_drv (f lba buf nsec) | None => ret (-1) end | None => ret (-1) end.
Definition pm_metal_drivers_blk_write (h lba buf nsec : Z) : T Z := o <- row h ;; match o with Some d => match op_write (bd_ops d) with Some f => on_drv (f lba buf nsec) | None => ret (-1) end | None => ret (-1) end.
Definition blk_class_unbind (dt : Z) : T Z := pm_metal_drivers_blk_unbind_dt dt.
End table.
#[global] Arguments blk_ops : clear implicits.
#[global] Arguments blkdev : clear implicits.
#[global] Arguments table : clear implicits.
End BlkTable.

(** * The table of disks as a finite map

    What a client of the drivers.blk card is promised: handles are the keys of
    a finite map, a device has at most one, and a handle stays with its device
    until it is unbound.  Every sequence of calls answers as that map does. *)

Module BlkSpec.
Import Store BlkTable.
Local Open Scope metal_scope.

Section spec.
Context {S : Type}.
Abbreviation T := (table S).
Abbreviation devmap := (gmap nat (Z * blk_ops S)).
Implicit Types (t : T) (l : list (blkdev S)) (g : devmap).

(** ** Rows as a map *)

Definition entry (d : blkdev S) : option (Z * blk_ops S) := if bd_used d then Some (bd_dt d, bd_ops d) else None.
Definition rows l : devmap := omap entry (map_seq 0 l).
Lemma lookup_rows l i : rows l !! i = l !! i ≫= entry.
Proof. unfold rows. by rewrite lookup_omap, lookup_map_seq_0. Qed.
Lemma rows_Some l i dt ops : rows l !! i = Some (dt, ops) <-> l !! i = Some (BlkDev true dt ops).
Proof.
  rewrite lookup_rows. split; [|by intros ->]. destruct (l !! i) as [[[] dt' o]|]; cbn; [|done..]. by intros [= -> ->].
Qed.
Lemma rows_None l i d : rows l !! i = None -> l !! i = Some d -> bd_used d = false.
Proof. rewrite lookup_rows. intros H E. rewrite E in H. cbn in H. unfold entry in H. by destruct (bd_used d). Qed.
Lemma rows_insert l i dt ops : (i < length l)%nat -> rows (<[i := BlkDev true dt ops]> l) = <[i := (dt, ops)]> (rows l).
Proof.
  intros Hi. apply map_eq. intros j. rewrite lookup_rows. destruct (decide (i = j)) as [<-|Hne]; [by rewrite lookup_insert_eq, list_lookup_insert_eq|]. by rewrite lookup_insert_ne, list_lookup_insert_ne, lookup_rows.
Qed.
Lemma rows_delete l i : rows (<[i := no_dev]> l) = delete i (rows l).
Proof.
  apply map_eq. intros j. rewrite lookup_rows. destruct (decide (i = j)) as [<-|Hne]; [|by rewrite lookup_delete_ne, list_lookup_insert_ne, lookup_rows].
  rewrite lookup_delete_eq. destruct (decide (i < length l)%nat); [by rewrite list_lookup_insert_eq|]. by rewrite lookup_ge_None_2 by (rewrite length_insert; lia).
Qed.
Lemma rows_grow l k : rows (l ++ repeat no_dev k) = rows l.
Proof.
  apply map_eq. intros j. rewrite !lookup_rows. destruct (decide (j < length l)%nat); [by rewrite lookup_app_l|]. rewrite lookup_app_r, (lookup_ge_None_2 l) by lia.
  destruct (repeat no_dev k !! (j - length l)%nat) as [d|] eqn:E; [|done]. apply list_elem_of_lookup_2, list_elem_of_In, repeat_spec in E. by subst d.
Qed.
Lemma size_rows l : Z.of_nat (size (rows l)) = zlen (List.filter bd_used l).
Proof.
  induction l as [|d l IH] using rev_ind; [done|]. rewrite List.filter_app, length_app. cbn [List.filter].
  assert (rows (l ++ [d]) = match entry d with Some e => <[length l := e]> (rows l) | None => rows l end) as ->.
  { apply map_eq. intros j. rewrite lookup_rows. destruct (Nat.lt_total j (length l)) as [Hj|[->|Hj]].
    - rewrite lookup_app_l by done. destruct (entry d); [rewrite lookup_insert_ne by lia|]; by rewrite lookup_rows.
    - rewrite lookup_app_r, Nat.sub_diag by done. cbn. destruct (entry d); [by rewrite lookup_insert_eq|]. by rewrite lookup_rows, lookup_ge_None_2.
    - rewrite lookup_ge_None_2 by (rewrite length_app; cbn; lia). destruct (entry d); [rewrite lookup_insert_ne by lia|]; by rewrite lookup_rows, lookup_ge_None_2 by lia. }
  unfold entry. destruct (bd_used d); cbn [length]; [|lia]. rewrite map_size_insert_None; [lia|]. by rewrite lookup_rows, lookup_ge_None_2.
Qed.
Lemma size_rows_le l : Z.of_nat (size (rows l)) <= zlen l.
Proof. rewrite size_rows. pose proof (filter_length_le bd_used l). lia. Qed.

(** ** Finding a row *)

Lemma dev_from_Some f i l j : dev_from f i l = Some j -> exists d, l !! (j - i)%nat = Some d /\ f d = true /\ (i <= j)%nat.
Proof.
  revert i. induction l as [|d l IH]; intros i; cbn [dev_from]; [done|]. destruct (f d) eqn:Ef; [intros [= <-]; exists d; by rewrite Nat.sub_diag|]. intros H. destruct (IH _ H) as (d' & Hd & Hf & Hle). exists d'. split; [|split; [done|lia]].
  by replace (j - i)%nat with (Datatypes.S (j - Datatypes.S i)) by lia.
Qed.
Lemma dev_from_None f i l : dev_from f i l = None -> forall j d, l !! j = Some d -> f d = false.
Proof. revert i. induction l as [|d l IH]; intros i; cbn [dev_from]; [done|]. destruct (f d) eqn:Ef; [done|]. intros H [|j] d'; [by intros [= <-]|]. by eapply IH. Qed.
Lemma dev_find_Some f l j : dev_find f l = Some j -> exists d, l !! j = Some d /\ f d = true.
Proof. intros H. apply dev_from_Some in H as (d & Hd & Hf & _). rewrite Nat.sub_0_r in Hd. by exists d. Qed.

(** No handle is bound to device [dt]. *)
Definition unbound g (dt : Z) : Prop := forall i ops, g !! i <> Some (dt, ops).
Lemma find_bound l dt : match dev_find (bound_to dt) l with Some i => exists ops, rows l !! i = Some (dt, ops) | None => unbound (rows l) dt end.
Proof.
  destruct (dev_find (bound_to dt) l) as [i|] eqn:E.
  - apply dev_find_Some in E as ([u d o] & Hd & Hf). unfold bound_to in Hf. cbn in Hf. apply andb_true_iff in Hf as [-> ->%Z.eqb_eq]. exists o. by apply rows_Some.
  - intros i ops H. apply rows_Some in H. pose proof (dev_from_None _ _ _ E _ _ H) as Hf. unfold bound_to in Hf. cbn in Hf. by rewrite Z.eqb_refl in Hf.
Qed.

(** ** What a client is promised *)

Inductive call := Bind (dt : Z) (ops : blk_ops S) | Unbind (h : Z) | Unbind_dt (dt : Z) | By_dt (dt : Z) | Dt_id (h : Z) | Count.

Variable room : Z -> bool.
Variable grow : list (blkdev S) -> option (list (blkdev S)).
Definition do_call (c : call) : M T Z :=
  match c with
  | Bind dt ops => pm_metal_drivers_blk_bind room grow dt (Some ops)
  | Unbind h => pm_metal_drivers_blk_unbind h
  | Unbind_dt dt => pm_metal_drivers_blk_unbind_dt dt
  | By_dt dt => pm_metal_drivers_blk_by_dt dt
  | Dt_id h => pm_metal_drivers_blk_dt_id h
  | Count => pm_metal_drivers_blk_count
  end.

(** The knob refuses one more, or the arena has no wider table. *)
Definition full g : Prop := room (Z.of_nat (size g)) = false \/ exists l, match grow l with Some l' => (length l' <= length l)%nat | None => True end.
Definition no_handle g (h : Z) : Prop := forall i, h = Z.of_nat i -> g !! i = None.

Inductive answers : devmap -> call -> Z -> devmap -> Prop :=
| an_bind_bad g dt ops : dt < 0 -> answers g (Bind dt ops) (-1) g
| an_bind_old g dt ops i o : g !! i = Some (dt, o) -> answers g (Bind dt ops) (Z.of_nat i) g
| an_bind_full g dt ops : unbound g dt -> full g -> answers g (Bind dt ops) (-1) g
| an_bind_new g dt ops i : 0 <= dt -> unbound g dt -> room (Z.of_nat (size g)) = true -> g !! i = None -> answers g (Bind dt ops) (Z.of_nat i) (<[i := (dt, ops)]> g)
| an_unbind_bad g h : no_handle g h -> answers g (Unbind h) (-1) g
| an_unbind g i d : g !! i = Some d -> answers g (Unbind (Z.of_nat i)) 0 (delete i g)
| an_unbind_dt_bad g dt : unbound g dt -> answers g (Unbind_dt dt) (-1) g
| an_unbind_dt g dt i o : g !! i = Some (dt, o) -> answers g (Unbind_dt dt) 0 (delete i g)
| an_by_dt_bad g dt : unbound g dt -> answers g (By_dt dt) (-1) g
| an_by_dt g dt i o : g !! i = Some (dt, o) -> answers g (By_dt dt) (Z.of_nat i) g
| an_dt_id_bad g h : no_handle g h -> answers g (Dt_id h) (-1) g
| an_dt_id g i dt o : g !! i = Some (dt, o) -> answers g (Dt_id (Z.of_nat i)) dt g
| an_count g : answers g Count (Z.of_nat (size g)) g.

Inductive run_answers : devmap -> list call -> list Z -> devmap -> Prop :=
| ra_nil g : run_answers g [] [] g
| ra_cons g c rc g1 cs rcs g2 : answers g c rc g1 -> run_answers g1 cs rcs g2 -> run_answers g (c :: cs) (rc :: rcs) g2.

(** One handle for a device, and devices have numbers. *)
Record one_handle g : Prop := {
  oh_one i j dt o o' : g !! i = Some (dt, o) -> g !! j = Some (dt, o') -> i = j;
  oh_dt i dt o : g !! i = Some (dt, o) -> 0 <= dt;
}.
(** ** The table keeps the promise *)

(** What the drivers keep of their own state, and that the function called on
    the way out ends and keeps it. *)
Variable I : S -> Prop.
Definition closes (ops : blk_ops S) : Prop := match op_close ops with Some f => forall s, I s -> wp f (fun _ s' => I s') s | None => True end.
Record sound t : Prop := {
  so_drv : I (drv t);
  so_arena : t_arena t = true;
  so_used : s_dev_used t = Z.of_nat (size (rows (s_dev t)));
  so_len : zlen (s_dev t) <= 2147483648;
  so_one : one_handle (rows (s_dev t));
  so_close i dt o : rows (s_dev t) !! i = Some (dt, o) -> closes o;
}.
(** A wider table has the old rows, and new ones that are not in use. *)
Definition grows : Prop := forall l l', grow l = Some l' -> (length l < length l')%nat -> zlen l' <= 2147483648 /\ exists k, l' = l ++ repeat no_dev k.
Hypothesis Hgrow : grows.

Lemma one_handle_new g i dt o : one_handle g -> 0 <= dt -> unbound g dt -> one_handle (<[i := (dt, o)]> g).
Proof.
  intros [H1 H2] Hdt Hn. constructor.
  - intros j k d o1 o2 Hj Hk. apply lookup_insert_Some in Hj as [[<- [= <- <-]]|[? Hj]], Hk as [[<- Hk]|[? Hk]]; [done|by apply Hn in Hk|injection Hk as <- <-; by apply Hn in Hj|by eapply H1].
  - intros j d o' Hj. apply lookup_insert_Some in Hj as [[_ [= <- _]]|[_ Hj]]; [done|by eapply H2].
Qed.
Lemma one_handle_delete g i : one_handle g -> one_handle (delete i g).
Proof. intros [H1 H2]. constructor; intros *; rewrite !lookup_delete_Some; intros [_ H]; [intros [_ H']; by eapply H1|by eapply H2]. Qed.
Lemma unbound_delete g i dt o : one_handle g -> g !! i = Some (dt, o) -> unbound (delete i g) dt.
Proof. intros [H1 _] Hi j o' Hj. apply lookup_delete_Some in Hj as [Hne Hj]. by eapply Hne, H1. Qed.
Lemma unbound_neg g dt : one_handle g -> dt < 0 -> unbound g dt.
Proof. intros [_ H] Hd i o Hi. apply H in Hi. lia. Qed.

Lemma dev_slot_wp t (Q : option nat -> T -> Prop) : sound t ->
  (full (rows (s_dev t)) -> Q None t) ->
  (forall i l, room (s_dev_used t) = true -> rows l = rows (s_dev t) -> rows l !! i = None -> (i < length l)%nat -> zlen l <= 2147483648 -> Q (Some i) (set_dev l (s_dev_used t) t)) -> wp (dev_slot room grow) Q t.
Proof.
  intros [HI Ha Hu Hl H1 Hc] Hfull HQ. unfold dev_slot. do 2 wstep. destruct (room (s_dev_used t)) eqn:Er; cbn [negb]; [|wstep; apply Hfull; left; by rewrite <- Hu].
  do 2 wstep. destruct (dev_find _ (s_dev t)) as [i|] eqn:Ef.
  - apply dev_find_Some in Ef as (d & Hd & Hf). wstep. replace t with (set_dev (s_dev t) (s_dev_used t) t) at 1 by by destruct t. apply HQ; try done; [|by apply lookup_lt_Some in Hd]. rewrite lookup_rows, Hd. cbn. unfold entry. by destruct (bd_used d).
  - assert (Hno : full (rows (s_dev t)) -> wp (ret None) Q t) by (intros H; wstep; by apply Hfull). destruct (grow (s_dev t)) as [l'|] eqn:Eg; [|apply Hno; right; exists (s_dev t); by rewrite Eg]. destruct (Nat.leb_spec (length l') (length (s_dev t))) as [Hle|Hlt]; [apply Hno; right; exists (s_dev t); by rewrite Eg|].
    destruct (Hgrow _ _ Eg Hlt) as [Hlen [k ->]]. wstep. wstep. wstep. apply HQ; [done|apply rows_grow| |done|done]. rewrite rows_grow, lookup_rows. by rewrite lookup_ge_None_2.
Qed.

Lemma sound_put t i l dt ops : sound t -> rows l = rows (s_dev t) -> rows l !! i = None -> (i < length l)%nat -> zlen l <= 2147483648 -> 0 <= dt -> unbound (rows (s_dev t)) dt -> closes ops ->
  let t' := set_dev (<[i := BlkDev true dt ops]> l) (u32 (s_dev_used t + 1)) t in sound t' /\ rows (s_dev t') = <[i := (dt, ops)]> (rows (s_dev t)).
Proof.
  intros [HI Ha Hu Hl H1 Hc] Hr Hi Hlt Hlen Hdt Hn Hco t'. assert (Er : rows (s_dev t') = <[i := (dt, ops)]> (rows (s_dev t))) by (cbn [t' s_dev set_dev]; by rewrite rows_insert, Hr). split; [|done]. constructor; rewrite ?Er; cbn [t' drv t_arena s_dev s_dev_used set_dev].
  - done.
  - done.
  - rewrite map_size_insert_None by by rewrite <- Hr. pose proof (size_rows_le l) as Hs. rewrite Hr in Hs. rewrite u32_small; lia.
  - by rewrite length_insert.
  - by apply one_handle_new.
  - intros j d o Hj. apply lookup_insert_Some in Hj as [[_ [= _ <-]]|[_ Hj]]; [done|by eapply Hc].
Qed.

Lemma bind_wp dt ops t : sound t -> closes ops -> wp (do_call (Bind dt ops)) (fun rc t' => sound t' /\ answers (rows (s_dev t)) (Bind dt ops) rc (rows (s_dev t'))) t.
Proof.
  intros Hs Hco. pose proof Hs as [_ Ha _ _ _ _]. cbn [do_call]. unfold pm_metal_drivers_blk_bind. do 2 wstep. rewrite Ha. cbn [negb orb]. destruct (Z.ltb_spec dt 0); [wstep; split; [done|by constructor]|].
  do 2 wstep. pose proof (find_bound (s_dev t) dt) as Hf. destruct (dev_find _ _) as [i|]; [wstep; destruct Hf as [o Ho]; split; [done|by eapply an_bind_old]|].
  wstep. apply dev_slot_wp; [done|intros; wstep; split; [done|by apply an_bind_full]|]. intros i l Hr El Hi Hlt Hlen. do 7 wstep. destruct (sound_put t i l dt ops) as [Hs' Er]; try done. cbn [set_dev s_dev s_dev_used]. split; [exact Hs'|]. change (rows (<[i:=BlkDev true dt ops]> l)) with (rows (s_dev (set_dev (<[i := BlkDev true dt ops]> l) (u32 (s_dev_used t + 1)) t))). rewrite Er.
  apply an_bind_new; [done|done| |by rewrite <- El]. by rewrite <- (so_used _ Hs).
Qed.

Lemma row_wp t h (Q : option (blkdev S) -> T -> Prop) : (no_handle (rows (s_dev t)) h -> Q None t) -> (forall i d, h = Z.of_nat i -> rows (s_dev t) !! i = Some (bd_dt d, bd_ops d) -> Q (Some d) t) -> wp (row h) Q t.
Proof.
  intros Hn Hs. unfold row. do 3 wstep. destruct (Z.ltb_spec h 0) as [Hlt|Hge]; [apply Hn; intros i ->; lia|]. pose proof (lookup_rows (s_dev t) (Z.to_nat h)) as E. destruct (s_dev t !! Z.to_nat h) as [d|]; cbn in E; unfold entry in E.
  - destruct (bd_used d); [apply (Hs (Z.to_nat h)); [lia|done]|]. apply Hn. by intros i ->; rewrite Nat2Z.id in E.
  - apply Hn. by intros i ->; rewrite Nat2Z.id in E.
Qed.
Lemma on_drv_wp {A} (m : M S A) (Q : A -> T -> Prop) t : wp m (fun a s => Q a (set_drv s t)) (drv t) -> wp (on_drv m) Q t.
Proof. unfold wp, on_drv. by destruct (m (drv t)). Qed.

Lemma unbind_wp h t : sound t -> wp (pm_metal_drivers_blk_unbind h) (fun rc t' => sound t' /\ answers (rows (s_dev t)) (Unbind h) rc (rows (s_dev t')) /\ s_dev t' = (if rc =? 0 then <[Z.to_nat h := no_dev]> (s_dev t) else s_dev t)) t.
Proof.
  intros Hs. pose proof Hs as [HI Ha Hu Hl H1 Hc]. unfold pm_metal_drivers_blk_unbind. wstep. apply row_wp; [intros Hn; wstep; split; [done|split; [by constructor|done]]|]. intros i d -> Hi. pose proof (Hc _ _ _ Hi) as Hco.
  wstep. apply (wp_mono _ (fun _ t' => exists s, I s /\ t' = set_drv s t)).
  { unfold closes in Hco. destruct (op_close (bd_ops d)) as [f|]; [|wstep; exists (drv t); by destruct t]. apply on_drv_wp. eapply wp_mono; [by apply Hco|]. intros [] s Hs'. by exists s. }
  intros _ ? (s & HIs & ->). do 3 wstep. rewrite Nat2Z.id. cbn [set_drv set_dev s_dev s_dev_used t_arena]. assert (Hsz : Z.of_nat (size (rows (s_dev t))) <> 0) by (intros E; assert (size (rows (s_dev t)) = 0%nat) as E0 by lia; apply map_size_empty_inv in E0; by rewrite E0 in Hi).
  rewrite Hu. rewrite (proj2 (Z.eqb_neq _ _)) by done. change (0 =? 0) with true. cbv iota. rewrite rows_delete. split; [|split; [by econstructor|done]]. constructor; cbn [set_drv set_dev drv s_dev s_dev_used t_arena]; rewrite ?rows_delete.
  - done.
  - done.
  - rewrite map_size_delete_Some by by eexists. lia.
  - by rewrite length_insert.
  - by apply one_handle_delete.
  - intros j dt o Hj. apply lookup_delete_Some in Hj as [_ Hj]. by eapply Hc.
Qed.

Lemma unbind_loop_none n i dt st t (Q : Z -> T -> Prop) : (i + n = length (s_dev t))%nat -> (forall j, (i <= j)%nat -> forall o, rows (s_dev t) !! j <> Some (dt, o)) -> Q st t -> wp (unbind_loop n i dt st) Q t.
Proof.
  revert i. induction n as [|n IH]; intros i Hlen Hn HQ; cbn [unbind_loop]; [by wstep|]. do 2 wstep. destruct (lookup_lt_is_Some_2 (s_dev t) i) as [[u d o] Hd]; [lia|]. rewrite Hd. unfold bound_to. cbn [bd_used bd_dt].
  destruct (u && (d =? dt)) eqn:Eb; [apply andb_true_iff in Eb as [-> ->%Z.eqb_eq]; exfalso; by eapply (Hn i), rows_Some|]. apply IH; [lia|intros j Hj; apply Hn; lia|done].
Qed.
Lemma unbind_loop_one n i dt t k o : (i + n = length (s_dev t))%nat -> (i <= k)%nat -> sound t -> rows (s_dev t) !! k = Some (dt, o) ->
  wp (unbind_loop n i dt (-1)) (fun rc t' => sound t' /\ rc = 0 /\ rows (s_dev t') = delete k (rows (s_dev t))) t.
Proof.
  revert i. induction n as [|n IH]; intros i Hlen Hk Hs Hb; cbn [unbind_loop].
  - exfalso. apply rows_Some, lookup_lt_Some in Hb. lia.
  - do 2 wstep. destruct (lookup_lt_is_Some_2 (s_dev t) i) as [[u d o'] Hd]; [lia|]. rewrite Hd. unfold bound_to. cbn [bd_used bd_dt]. destruct (decide (i = k)) as [->|Hne].
    + apply rows_Some in Hb as Hb'. rewrite Hb' in Hd. injection Hd as <- <- <-. rewrite Z.eqb_refl. cbn [andb]. wstep. eapply wp_mono; [by apply unbind_wp|]. intros rc t' (Hs' & Han & Es). inversion Han as [| | | |g h Hno| g j d Hj| | | | | | |]; subst; [by rewrite Hno in Hb|]. rewrite Nat2Z.id in Es. cbn in Es.
      apply unbind_loop_none; [rewrite Es, length_insert; lia| |].
      * intros j' Hj' o'. rewrite Es, rows_delete. by eapply unbound_delete, Hb; apply so_one.
      * split; [done|]. split; [done|]. by rewrite Es, rows_delete.
    + destruct (u && (d =? dt)) eqn:Eb; [|apply IH; [lia|lia|done..]]. apply andb_true_iff in Eb as [-> ->%Z.eqb_eq]. exfalso. apply Hne. eapply (oh_one _ (so_one _ Hs)); [by apply rows_Some|exact Hb].
Qed.

(** One call. *)
Definition ok_call (c : call) : Prop := match c with Bind _ ops => closes ops | _ => True end.
Lemma call_wp c t : sound t -> ok_call c -> wp (do_call c) (fun rc t' => sound t' /\ answers (rows (s_dev t)) c rc (rows (s_dev t'))) t.
Proof.
  intros Hs Hok. destruct c as [dt ops|h|dt|dt|h|]; [by apply bind_wp|..]; cbn [do_call].
  - eapply wp_mono; [by apply unbind_wp|]. by intros rc t' (? & ? & _).
  - unfold pm_metal_drivers_blk_unbind_dt. do 2 wstep. destruct (dev_find (bound_to dt) (s_dev t)) as [k|] eqn:Ef; pose proof (find_bound (s_dev t) dt) as Hf; rewrite Ef in Hf.
    + destruct Hf as [o Ho]. eapply wp_mono; [eapply unbind_loop_one; [done|lia|done|exact Ho]|]. intros rc t' (Hs' & -> & ->). split; [done|by econstructor].
    + apply unbind_loop_none; [done|intros; apply Hf|]. split; [done|by constructor].
  - unfold pm_metal_drivers_blk_by_dt. destruct (Z.ltb_spec dt 0); [wstep; split; [done|]; constructor; by apply unbound_neg; [apply so_one|]|]. do 3 wstep. split; [done|]. pose proof (find_bound (s_dev t) dt) as Hf. destruct (dev_find _ _); [destruct Hf as [o Ho]; by econstructor|by constructor].
  - unfold pm_metal_drivers_blk_dt_id. wstep. apply row_wp; [intros Hn; wstep; split; [done|by constructor]|]. intros i d -> Hi. wstep. split; [done|by econstructor].
  - unfold pm_metal_drivers_blk_count. do 3 wstep. split; [done|]. rewrite <- size_rows. constructor.
Qed.

Fixpoint do_calls (cs : list call) : M T (list Z) := match cs with [] => ret [] | c :: cs => rc <- do_call c ;; rcs <- do_calls cs ;; ret (rc :: rcs) end.
Lemma calls_wp cs t : sound t -> Forall ok_call cs -> wp (do_calls cs) (fun rcs t' => sound t' /\ run_answers (rows (s_dev t)) cs rcs (rows (s_dev t'))) t.
Proof.
  revert t. induction cs as [|c cs IH]; intros t Hs Hok; cbn [do_calls]; [wstep; split; [done|constructor]|]. apply Forall_cons in Hok as [Hc Hok]. wstep. eapply wp_mono; [by apply call_wp|]. intros rc t1 [Hs1 Ha]. wstep. eapply wp_mono; [by apply IH|]. intros rcs t2 [Hs2 Hr]. wstep. split; [done|by econstructor].
Qed.
End spec.

(** C21: The table of disks is a finite map from handles to devices: every
    sequence of bind, unbind, unbind_dt, by_dt, dt_id and count answers as the
    map does.  A device has one handle, a bind is refused only when the knob or
    the arena is at its end, a handle is given to another device only after it
    was unbound, and no call of a driver's close loses what the drivers keep. *)
Theorem blk_table_refines_map {S} room grow (I : S -> Prop) (cs : list (call (S := S))) (t : table S)
  (Hgrow : grows grow) (Hdrv : I (drv t)) (Hok : Forall (ok_call I) cs) :
  wp (pm_metal_drivers_blk_init true ;; do_calls room grow cs) (fun rcs t' => I (drv t') /\ exists g, run_answers room grow ∅ cs rcs g /\ one_handle g /\ rows (s_dev t') = g) t.
Proof.
  wstep. unfold pm_metal_drivers_blk_init. cbn [negb]. do 2 wstep. wstep. eapply wp_mono; [apply (calls_wp room grow I Hgrow); [|done]|].
  - constructor; cbn; (done || lia || by constructor).
  - intros rcs t' [Hs Hr]. split; [apply Hs|]. exists (rows (s_dev t')). split; [exact Hr|]. split; [apply Hs|done].
Qed.

(** Two disks and a table of at most two rows; the second device is bound
    twice, and the first one's handle goes to a third. *)
Definition quiet : blk_ops Z := BlkOps None None None None (Some (modify (Z.add 1))).
Definition grow2 (l : list (blkdev Z)) : option (list (blkdev Z)) := if (length l <? 2)%nat then Some (l ++ repeat no_dev 1) else None.
Definition six : list (call (S := Z)) := [Bind 3 quiet; Bind 4 quiet; Bind 4 quiet; Bind 5 quiet; Unbind_dt 3; Bind 5 quiet; By_dt 5; Count].
Lemma blk_table_refines_map_witness :
  (exists t', (pm_metal_drivers_blk_init true ;; do_calls (fun n => n <? 4) grow2 six) (Table 0 false [] 0) = Done [0; 1; 1; -1; 0; 0; 0; 2] t') /\
  wp (pm_metal_drivers_blk_init true ;; do_calls (fun n => n <? 4) grow2 six) (fun rcs t' => 0 <= drv t' /\ exists g, run_answers (fun n => n <? 4) grow2 ∅ six rcs g /\ one_handle g /\ rows (s_dev t') = g) (Table 0 false [] 0).
Proof.
  split; [eexists; reflexivity|]. apply (blk_table_refines_map (fun n => n <? 4) grow2 (Z.le 0) six (Table 0 false [] 0)).
  - intros l l'. unfold grow2. destruct (Nat.ltb_spec (length l) 2) as [Hl|]; [|done]. intros [= <-] _. rewrite length_app. cbn. split; [lia|by exists 1%nat].
  - cbn. lia.
  - repeat apply Forall_cons_2; try done; intros s Hs; unfold wp; cbn; lia.
Defined.
End BlkSpec.
