(* ===== verification/Services.v ===== *)
(** * The services and net.neighbors cards: a registry shared over a mesh

    src/.../metal/services/__impl__.c and net/neighbors/ (__impl__.c,
    discovery.c, sync_services.c).  A seat registers the services it runs,
    publishes each as a row of text, and keeps the rows of others by the peer
    that sent them.  C strings are the bytes before the NUL; a field
    [char f[n]] holds at most n-1 of them. *)
From S2P Require Import Prelude.

(** coop's clock and tasks, and the zenoh session.  [mesh_zid] is the session's
    identity (16 bytes) when there is one, [mesh_scout] a peer that answers. *)
Class MeshOps (E : Type) := {
  mesh_us : E -> E * Z;
  mesh_zid : E -> E * option (list Z);
  mesh_subscribe : E -> E * Z;
  mesh_put : list Z -> list Z -> E -> E * Z;
  mesh_scout : E -> E * option (list Z);
  mesh_alloc : Z -> E -> E * bool;
  scan_coro : E -> E * Z;
  scan_task : Z -> E -> E * Z;
  scan_free : Z -> E -> E;
  scan_reclaim : Z -> E -> E;
  scan_sleep : Z -> E -> E * Z;
}.

Module Services.
Import Store Decimal.
Local Open Scope metal_scope.

Definition PM_METAL_SERVICES_PRE_N := 4%nat.
Definition PM_METAL_SERVICES_MAX := 16.
Definition PM_METAL_NEIGHBORS_MAX := 32%nat.
Definition PM_METAL_SERVICE_LOCAL := 1.
Definition PM_METAL_SERVICE_REMOTE := 2.
Definition PM_METAL_NEIGHBOR_CAP_HAS_ZENOH := 4.
Definition PM_METAL_NEIGHBOR_CAP_HAS_SERVICES := 8.

Definition i32 (x : Z) : Z := if x <? 2147483648 then x else x - 4294967296.
Definition i64 (x : Z) : Z := if x <? 9223372036854775808 then x else x - 18446744073709551616.

(** [strncpy] into a field of [n] bytes whose last one is then the NUL. *)
Definition strncpy (n : Z) (s : list Z) : list Z := take (Z.to_nat (n - 1)) s.

Section WithMesh.
Context {E : Type} `{!MeshOps E}.

(** What a server card hands over; a function pointer may be NULL. *)
Record service := Service { sv_name : option (list Z); sv_fqn : option (list Z); default_addr : Z; default_port : Z;
  sv_listen : option (Z -> Z -> E -> E * Z); sv_count : option (E -> E * Z); sv_status : option (Z -> E -> E * Z); sv_stop : option (Z -> E -> E * Z) }.

Record record := Rec { flags : Z; peer_id : Z; svc : option service; r_name : list Z; r_fqn : list Z; r_port : Z }.
Definition zero_rec : record := Rec 0 0 None [] [] 0.

Record neighbor := Nbr { nb_id : Z; host : list Z; zenoh_id : list Z; caps : Z; last_seen_us : Z; alive : bool }.
Definition zero_nbr : neighbor := Nbr 0 [] [] 0 0 false.

(** [s_svcs] is [None] before [init]. *)
Record mesh := Mesh { env : E;
  s_svcs : option (list record); s_svcs_pre : list record; s_nsvc : nat;
  s_neighbors : list neighbor; s_nn : nat; s_next_peer_id : Z;
  s_mesh_started : bool; s_mesh_next_us : Z; s_mesh_burst_until_us : Z; s_mesh_host : list Z;
  s_discover_task : Z; s_discover_interval_us : Z }.
Definition W := M mesh.

Definition set_env e w := Mesh e (s_svcs w) (s_svcs_pre w) (s_nsvc w) (s_neighbors w) (s_nn w) (s_next_peer_id w) (s_mesh_started w) (s_mesh_next_us w) (s_mesh_burst_until_us w) (s_mesh_host w) (s_discover_task w) (s_discover_interval_us w).
Definition set_pool p n w := Mesh (env w) p (s_svcs_pre w) n (s_neighbors w) (s_nn w) (s_next_peer_id w) (s_mesh_started w) (s_mesh_next_us w) (s_mesh_burst_until_us w) (s_mesh_host w) (s_discover_task w) (s_discover_interval_us w).
Definition set_pre p n w := Mesh (env w) (s_svcs w) p n (s_neighbors w) (s_nn w) (s_next_peer_id w) (s_mesh_started w) (s_mesh_next_us w) (s_mesh_burst_until_us w) (s_mesh_host w) (s_discover_task w) (s_discover_interval_us w).
Definition set_nbrs l n w := Mesh (env w) (s_svcs w) (s_svcs_pre w) (s_nsvc w) l n (s_next_peer_id w) (s_mesh_started w) (s_mesh_next_us w) (s_mesh_burst_until_us w) (s_mesh_host w) (s_discover_task w) (s_discover_interval_us w).
Definition set_next_id i w := Mesh (env w) (s_svcs w) (s_svcs_pre w) (s_nsvc w) (s_neighbors w) (s_nn w) i (s_mesh_started w) (s_mesh_next_us w) (s_mesh_burst_until_us w) (s_mesh_host w) (s_discover_task w) (s_discover_interval_us w).
Definition set_mesh b n u h w := Mesh (env w) (s_svcs w) (s_svcs_pre w) (s_nsvc w) (s_neighbors w) (s_nn w) (s_next_peer_id w) b n u h (s_discover_task w) (s_discover_interval_us w).
Definition set_scan t i w := Mesh (env w) (s_svcs w) (s_svcs_pre w) (s_nsvc w) (s_neighbors w) (s_nn w) (s_next_peer_id w) (s_mesh_started w) (s_mesh_next_us w) (s_mesh_burst_until_us w) (s_mesh_host w) t i.

Definition on_env {A} (op : E -> E * A) : W A := fun w => let '(e, a) := op (env w) in Done a (set_env e w).
Definition on_env_ (op : E -> E) : W unit := modify (fun w => set_env (op (env w)) w).
Definition is_flag (r : record) (f : Z) : bool := negb (Z.land (flags r) f =? 0).

(** The first index below [i+n] from [i] on that [f] accepts; reading past the
    array is undefined. *)
Fixpoint first_ix {A} (f : A -> bool) (n i : nat) (l : list A) : W (option nat) :=
  match n with
  | O => ret None
  | S n => x <- chk (l !! i) ;; if f x then ret (Some i) else first_ix f n (S i) l
  end.
Definition set_at {A} (l : list A) (i : nat) (x : A) : W (list A) := chk (if (i <? length l)%nat then Some (<[i := x]> l) else None).

(** ** services: the registry *)

Fixpoint take_pre (pre : list record) (cap : nat) (out : list record) : list record * list record :=
  match pre with
  | [] => (out, [])
  | r :: t => if (length out <? cap)%nat then
      match svc r with
      | Some _ => let '(out, t) := take_pre t cap (out ++ [r]) in (out, Rec (flags r) (peer_id r) None (r_name r) (r_fqn r) (r_port r) :: t)
      | None => let '(out, t) := take_pre t cap out in (out, r :: t)
      end else (out, pre)
  end.
(** [soft] is the count knob. *)
Definition pm_metal_services_init (soft : Z) : W Z :=
  p <- gets s_svcs ;;
  match p with
  | Some _ => ret 0
  | None =>
      let cap := if (soft =? 0) || (PM_METAL_SERVICES_MAX <? soft) then PM_METAL_SERVICES_MAX else soft in
      ok <- on_env (mesh_alloc cap) ;;
      if negb (ok : bool) then ret (-1) else
      pre <- gets s_svcs_pre ;;
      let '(out, pre) := take_pre pre (Z.to_nat cap) [] in
      modify (set_pre pre 0) ;;
      modify (set_pool (Some (out ++ repeat zero_rec (Z.to_nat cap - length out))) (length out)) ;; ret 0
  end.

Definition pm_metal_services_publish_deinit : W unit := modify (fun w => set_mesh false 0 0 (s_mesh_host w) w).
Definition pm_metal_services_deinit : W unit := pm_metal_services_publish_deinit ;; modify (set_pool None 0).

Definition fill_local_record (pool : list record) (cap : nat) (r : record) : W (option (list record)) :=
  n <- gets s_nsvc ;; if (cap <=? n)%nat then ret None else p <- set_at pool n r ;; ret (Some p).

(** It has a name, a module and its four functions. *)
Definition given (s : service) : bool :=
  bool_decide (is_Some (sv_name s)) && bool_decide (is_Some (sv_fqn s)) && match sv_listen s, sv_count s, sv_status s, sv_stop s with Some _, Some _, Some _, Some _ => true | _, _, _, _ => false end.

Definition pm_metal_services_register (s : option service) : W Z :=
  match s with
  | Some s =>
      if negb (given s) then ret (-1) else
      let r := Rec PM_METAL_SERVICE_LOCAL 0 (Some s) [] [] 0 in
      pool <- gets s_svcs ;; n <- gets s_nsvc ;;
      match pool with
      | Some p => o <- fill_local_record p (length p) r ;; match o with Some p => modify (set_pool (Some p) (S n)) ;; ret 0 | None => ret (-1) end
      | None => p <- gets s_svcs_pre ;; o <- fill_local_record p PM_METAL_SERVICES_PRE_N r ;; match o with Some p => modify (set_pre p (S n)) ;; ret 0 | None => ret (-1) end
      end
  | None => ret (-1)
  end.

Definition is_row (peer : Z) (name : list Z) (r : record) : bool := is_flag r PM_METAL_SERVICE_REMOTE && (peer_id r =? peer) && bool_decide (r_name r = name).

Definition pm_metal_services_register_remote (name fqn : option (list Z)) (port peer : Z) : W Z :=
  pool <- gets s_svcs ;; n <- gets s_nsvc ;;
  match pool, name, fqn with
  | Some p, Some name, Some fqn =>
      if peer =? 0 then ret (-1) else
      o <- first_ix (is_row peer name) n 0 p ;;
      match o with
      | Some i => r <- chk (p !! i) ;; p <- set_at p i (Rec (flags r) (peer_id r) (svc r) (r_name r) (strncpy 128 fqn) port) ;; modify (set_pool (Some p) n) ;; ret 0
      | None =>
          if (length p <=? n)%nat then ret (-1) else
          p <- set_at p n (Rec PM_METAL_SERVICE_REMOTE peer None (strncpy 64 name) (strncpy 128 fqn) port) ;; modify (set_pool (Some p) (S n)) ;; ret 0
      end
  | _, _, _ => ret (-1)
  end.

(** The index is not advanced past a row that took the place of a dropped one. *)
Fixpoint drop_loop (fuel : nat) (peer : Z) (i n : nat) (p : list record) : W (list record * nat) :=
  if (n <=? i)%nat then ret (p, n) else
  match fuel with
  | O => nofuel
  | S fuel =>
      r <- chk (p !! i) ;;
      if is_flag r PM_METAL_SERVICE_REMOTE && (peer_id r =? peer) then
        let n := (n - 1)%nat in
        p <- (if (i <? n)%nat then last <- chk (p !! n) ;; set_at p i last else ret p) ;;
        p <- set_at p n zero_rec ;; drop_loop fuel peer i n p
      else drop_loop fuel peer (S i) n p
  end.
Definition pm_metal_services_drop_peer (peer : Z) : W Z :=
  n <- gets s_nsvc ;; pool <- gets s_svcs ;;
  match pool with
  | Some p => if peer =? 0 then ret (-1) else r <- drop_loop n peer 0 n p ;; let '(p, n) := r in modify (set_pool (Some p) n) ;; ret 0
  | None => ret (-1)
  end.

Definition pm_metal_services_record_at (i : nat) : W (option record) :=
  n <- gets s_nsvc ;; if (n <=? i)%nat then ret None else
  w <- gets (fun w => match s_svcs w with Some p => p | None => s_svcs_pre w end) ;; r <- chk (w !! i) ;; ret (Some r).
Definition pm_metal_services_peer_of (i : nat) : W Z := o <- pm_metal_services_record_at i ;; ret (match o with Some r => peer_id r | None => 0 end).
Definition pm_metal_services_at (i : nat) : W (option service) := o <- pm_metal_services_record_at i ;; ret (match o with Some r => svc r | None => None end).
Definition pm_metal_services_count : W nat := gets s_nsvc.

(** The registered service behind a local record. *)
Definition local_of (r : record) : option service := if is_flag r PM_METAL_SERVICE_LOCAL then svc r else None.
Definition pm_metal_services_name (i : nat) : W (option (list Z)) :=
  o <- pm_metal_services_record_at i ;; ret (match o with Some r => match local_of r with Some s => sv_name s | None => Some (r_name r) end | None => None end).
Definition pm_metal_services_fqn (i : nat) : W (option (list Z)) :=
  o <- pm_metal_services_record_at i ;; ret (match o with Some r => match local_of r with Some s => sv_fqn s | None => Some (r_fqn r) end | None => None end).
Definition pm_metal_services_port (i : nat) : W Z :=
  o <- pm_metal_services_record_at i ;; ret (match o with Some r => match local_of r with Some s => default_port s | None => r_port r end | None => 0 end).

(** A call through a record; [op] picks the function, [dflt] is the answer for
    a record that has none. *)
Definition call_svc (i : nat) (bad remote dflt : Z) (op : service -> option (E -> E * Z)) : W Z :=
  o <- pm_metal_services_record_at i ;;
  match o with
  | None => ret bad
  | Some r => if is_flag r PM_METAL_SERVICE_REMOTE then ret remote else match svc r with Some s => f <- chk (op s) ;; on_env f | None => ret dflt end
  end.
Definition pm_metal_services_instances (i : nat) : W Z := call_svc i 0 0 0 sv_count.
Definition pm_metal_services_status (i : nat) (id : Z) : W Z := call_svc i (-1) (-1) (-1) (fun s => (fun f => f id) <$> sv_status s).
Definition pm_metal_services_stop (i : nat) (id : Z) : W Z := call_svc i (-1) (-1) (-1) (fun s => (fun f => f id) <$> sv_stop s).
Definition pm_metal_services_start (i : nat) : W Z := call_svc i (-1) (-1) (-1) (fun s => (fun f => f (default_addr s) (default_port s)) <$> sv_listen s).

(** ** net.neighbors: the peers *)

Definition pm_metal_neighbors_init : W Z := ret 0.
Definition pm_metal_neighbors_deinit : W unit := modify (set_nbrs (repeat zero_nbr PM_METAL_NEIGHBORS_MAX) 0).

Definition is_peer (zid : list Z) (nb : neighbor) : bool := alive nb && bool_decide (zenoh_id nb = zid).

Definition pm_metal_neighbors_add (zid hostname : option (list Z)) (cp : Z) : W Z :=
  match zid, hostname with
  | Some zid, Some hostname =>
      l <- gets s_neighbors ;; n <- gets s_nn ;;
      o <- first_ix (is_peer zid) n 0 l ;;
      match o with
      | Some i =>
          nb <- chk (l !! i) ;; t <- on_env mesh_us ;;
          l <- set_at l i (Nbr (nb_id nb) (strncpy 64 hostname) (zenoh_id nb) cp (i64 t) true) ;; modify (set_nbrs l n) ;; ret (i32 (nb_id nb))
      | None =>
          if (PM_METAL_NEIGHBORS_MAX <=? n)%nat then ret (-1) else
          id <- gets s_next_peer_id ;; modify (set_next_id (u32 (id + 1))) ;;
          t <- on_env mesh_us ;;
          l <- set_at l n (Nbr id (strncpy 64 hostname) (strncpy 128 zid) cp (i64 t) true) ;; modify (set_nbrs l (S n)) ;; ret (i32 id)
      end
  | _, _ => ret (-1)
  end.

Definition pm_metal_neighbors_seen (zid : option (list Z)) : W Z :=
  match zid with
  | Some zid =>
      l <- gets s_neighbors ;; n <- gets s_nn ;; o <- first_ix (is_peer zid) n 0 l ;;
      match o with
      | Some i => nb <- chk (l !! i) ;; t <- on_env mesh_us ;; l <- set_at l i (Nbr (nb_id nb) (host nb) (zenoh_id nb) (caps nb) (i64 t) true) ;; modify (set_nbrs l n) ;; ret (i32 (nb_id nb))
      | None => ret (-1)
      end
  | None => ret (-1)
  end.

(** Entry [i] makes room for the last one. *)
Definition take_out (i n : nat) (l : list neighbor) : W (list neighbor) :=
  l <- (if (i <? n - 1)%nat then last <- chk (l !! (n - 1)%nat) ;; set_at l i last else ret l) ;; set_at l (n - 1) zero_nbr.

Definition pm_metal_neighbors_drop (zid : option (list Z)) : W Z :=
  match zid with
  | Some zid =>
      l <- gets s_neighbors ;; n <- gets s_nn ;; o <- first_ix (fun nb => bool_decide (zenoh_id nb = zid)) n 0 l ;;
      match o with
      | Some i => l <- take_out i n l ;; modify (set_nbrs l (n - 1)) ;; ret 0
      | None => ret (-1)
      end
  | None => ret (-1)
  end.

Definition pm_metal_neighbors_count : W nat := gets s_nn.
Definition pm_metal_neighbors_at (i : nat) : W (option neighbor) := n <- gets s_nn ;; if (n <=? i)%nat then ret None else l <- gets s_neighbors ;; nb <- chk (l !! i) ;; ret (Some nb).
Definition pm_metal_neighbors_find (zid : option (list Z)) : W Z :=
  match zid with
  | Some zid => l <- gets s_neighbors ;; n <- gets s_nn ;; o <- first_ix (is_peer zid) n 0 l ;; ret (match o with Some i => Z.of_nat i | None => -1 end)
  | None => ret (-1)
  end.

Definition stale (timeout now : Z) (nb : neighbor) : bool := negb (alive nb) || ((0 <? timeout) && (last_seen_us nb <=? now) && (timeout <=? now - last_seen_us nb)).
Fixpoint reap_loop (fuel : nat) (timeout now : Z) (i : nat) (reaped : Z) : W Z :=
  n <- gets s_nn ;;
  if (n <=? i)%nat then ret reaped else
  match fuel with
  | O => nofuel
  | S fuel =>
      l <- gets s_neighbors ;; nb <- chk (l !! i) ;;
      if negb (stale timeout now nb) then reap_loop fuel timeout now (S i) reaped else
      pm_metal_services_drop_peer (nb_id nb) ;;
      l <- take_out i n l ;; modify (set_nbrs l (n - 1)) ;; reap_loop fuel timeout now i (u32 (reaped + 1))
  end.
Definition pm_metal_neighbors_reap (timeout : Z) : W Z := t <- on_env mesh_us ;; n <- gets s_nn ;; reap_loop n timeout (i64 t) 0 0.

(** ** services: the mesh *)

Definition hex_digit (x : Z) : Z := if x <? 10 then 48 + x else 87 + x.
Definition zid_hex (zid : list Z) : list Z := flat_map (fun b => [hex_digit (Z.shiftr b 4); hex_digit (Z.land b 15)]) zid.

Definition BAR := 124.
Fixpoint skip_bars (s : list Z) : list Z := match s with c :: t => if c =? BAR then skip_bars t else s | [] => [] end.
Fixpoint token (s : list Z) : list Z * list Z := match s with [] => ([], []) | c :: t => if c =? BAR then ([], t) else let '(a, r) := token t in (c :: a, r) end.
(** [strtok_r(s, "|", &s)] *)
Definition strtok (s : list Z) : option (list Z * list Z) := match skip_bars s with [] => None | s => Some (token s) end.
Fixpoint c_string (b : list Z) : list Z := match b with c :: t => if c =? 0 then [] else c :: c_string t | [] => [] end.

(** [strtoul(s, NULL, 10)], [max] its largest result. *)
Definition strtoul (max : Z) (s : list Z) : Z :=
  let s := skip_space s in
  let '(neg, s) := match s with c :: t => if c =? 45 then (true, t) else if c =? 43 then (false, t) else (false, s) | [] => (false, s) end in
  let v := digits 0 s in if max <? v then max else if (neg : bool) then (- v) mod (max + 1) else v.

(** The five fields of a row. *)
Definition row_fields (payload : list Z) : option (list Z * list Z * list Z * list Z * list Z) :=
  if (zlen payload =? 0) || (384 <=? zlen payload) then None else
  '(zid, r) ← strtok (c_string payload); '(h, r) ← strtok r; '(nm, r) ← strtok r; '(fqn, r) ← strtok r; '(port, _) ← strtok r;
  Some (zid, h, nm, fqn, port).

(** [ulong_max] is that of the seat. *)
Definition mesh_recv (ulong_max : Z) (payload : list Z) : W unit :=
  match row_fields payload with
  | None => ret tt
  | Some (zid, h, nm, fqn, port) =>
      own <- on_env mesh_zid ;;
      if match own with Some own => bool_decide (zid_hex own = zid) | None => false end then ret tt else
      peer <- pm_metal_neighbors_add (Some zid) (Some h) (Z.lor PM_METAL_NEIGHBOR_CAP_HAS_ZENOH PM_METAL_NEIGHBOR_CAP_HAS_SERVICES) ;;
      if 0 <? peer then
        pm_metal_neighbors_seen (Some zid) ;; pm_metal_services_register_remote (Some nm) (Some fqn) (u16 (strtoul ulong_max port)) peer ;; ret tt
      else ret tt
  end.

Definition pm_metal_services_mesh_start (h : option (list Z)) : W Z :=
  st <- gets s_mesh_started ;;
  if st then ret 0 else
  match h with
  | Some (c :: h) =>
      modify (fun w => set_mesh (s_mesh_started w) (s_mesh_next_us w) (s_mesh_burst_until_us w) (strncpy 64 (c :: h)) w) ;;
      rc <- on_env mesh_subscribe ;;
      if negb (rc =? 1) then ret (-1) else
      t <- on_env mesh_us ;; modify (fun w => set_mesh true 0 (u64 (t + 10000000)) (s_mesh_host w) w) ;; ret 0
  | _ => ret (-1)
  end.

Definition row_text (zh h nm fqn : list Z) (port : Z) : list Z := zh ++ BAR :: h ++ BAR :: nm ++ BAR :: fqn ++ BAR :: dec 10 port.
(** "metal/services/" *)
Definition KEY : list Z := [109; 101; 116; 97; 108; 47; 115; 101; 114; 118; 105; 99; 101; 115; 47].

Fixpoint publish_loop (n i : nat) (zh : list Z) (rc : Z) : W Z :=
  match n with
  | O => ret rc
  | S n =>
      pool <- gets s_svcs ;; p <- chk pool ;; r <- chk (p !! i) ;;
      if negb (is_flag r PM_METAL_SERVICE_LOCAL) then publish_loop n (S i) zh rc else
      match svc r with
      | None => publish_loop n (S i) zh rc
      | Some s =>
          h <- gets s_mesh_host ;; nm <- chk (sv_name s) ;; fqn <- chk (sv_fqn s) ;;
          let row := row_text zh h nm fqn (default_port s) in
          if 384 <=? zlen row then publish_loop n (S i) zh (-1) else
          ok <- on_env (mesh_put (KEY ++ zh) row) ;; publish_loop n (S i) zh (if ok =? 1 then rc else -1)
      end
  end.
Definition pm_metal_services_publish_all : W Z :=
  st <- gets s_mesh_started ;;
  if negb st then ret (-1) else
  z <- on_env mesh_zid ;;
  match z with Some z => n <- gets s_nsvc ;; publish_loop n 0 (zid_hex z) 0 | None => ret (-1) end.

Definition pm_metal_services_mesh_poll : W unit :=
  st <- gets s_mesh_started ;;
  if negb st then ret tt else
  now <- on_env mesh_us ;; next <- gets s_mesh_next_us ;;
  if next <=? now then
    pm_metal_services_publish_all ;;
    modify (fun w => set_mesh (s_mesh_started w) (u64 (now + (if now <? s_mesh_burst_until_us w then 50000 else 500000))) (s_mesh_burst_until_us w) (s_mesh_host w) w)
  else ret tt.

Definition pm_metal_services_discover_peer_services : W Z := st <- gets s_mesh_started ;; ret (if st then 0 else -1).

(** ** net.neighbors: discovery and synchronisation *)

Fixpoint scan_loop (n : nat) (found : Z) : W Z :=
  match n with
  | O => ret found
  | S n =>
      o <- on_env mesh_scout ;;
      match o with
      | None => ret found
      | Some z =>
          rc <- pm_metal_neighbors_add (Some (zid_hex z)) (Some []) PM_METAL_NEIGHBOR_CAP_HAS_ZENOH ;;
          pm_metal_neighbors_seen (Some (zid_hex z)) ;; scan_loop n (if 0 <=? rc then found + 1 else found)
      end
  end.
Definition pm_metal_neighbors_discover_scan : W Z := scan_loop 8 0.
Definition discover_step : W Z := pm_metal_neighbors_discover_scan ;; t <- gets s_discover_interval_us ;; on_env (scan_sleep t).

Definition pm_metal_neighbors_discover_start (interval : Z) : W Z :=
  t <- gets s_discover_task ;;
  if negb (t =? 0) || (interval =? 0) then ret (-1) else
  modify (set_scan 0 interval) ;;
  c <- on_env scan_coro ;;
  if c =? 0 then ret (-1) else
  t <- on_env (scan_task c) ;;
  if t =? 0 then on_env_ (scan_free c) ;; ret (-1) else modify (set_scan t interval) ;; ret 0.
Definition pm_metal_neighbors_discover_stop : W unit :=
  t <- gets s_discover_task ;; (if t =? 0 then ret tt else on_env_ (scan_reclaim t)) ;; modify (set_scan 0 0).

Fixpoint sync_find (n i : nat) (peer : Z) : W Z :=
  match n with
  | O => ret (-1)
  | S n => o <- pm_metal_neighbors_at i ;;
      match o with Some nb => if nb_id nb =? peer then pm_metal_services_discover_peer_services ;; ret 0 else sync_find n (S i) peer | None => sync_find n (S i) peer end
  end.
Definition pm_metal_neighbors_sync_services (peer : Z) : W Z := n <- pm_metal_neighbors_count ;; sync_find n 0 peer.
Fixpoint sync_loop (n i : nat) (rc : Z) : W Z :=
  match n with
  | O => ret rc
  | S n => o <- pm_metal_neighbors_at i ;;
      match o with Some nb => st <- pm_metal_neighbors_sync_services (nb_id nb) ;; sync_loop n (S i) (if st =? 0 then rc else -1) | None => sync_loop n (S i) rc end
  end.
Definition pm_metal_neighbors_sync_all : W Z := n <- pm_metal_neighbors_count ;; sync_loop n 0 0.
End WithMesh.
End Services.

(** * The registry and the peers, as lists

    What each operation of the two cards does to the entries in use: the
    records and the neighbours below the two counts. *)

Module ServicesSpec.
Import Store Services.
Local Open Scope metal_scope.

(** ** Searching an array *)

Fixpoint ix {A} (f : A -> bool) (l : list A) : option nat :=
  match l with [] => None | x :: t => if f x then Some 0%nat else S <$> ix f t end.

Lemma ix_Some {A} (f : A -> bool) l i : ix f l = Some i -> exists a x b, l = a ++ x :: b /\ length a = i /\ f x = true /\ Forall (fun y => f y = false) a.
Proof.
  revert i. induction l as [|x l IH]; intros i; cbn [ix]; [done|]. destruct (f x) eqn:Ef; [intros [= <-]; by exists [], x, l|].
  destruct (ix f l) as [j|]; [|done]. intros [= <-]. destruct (IH j eq_refl) as (a & y & b & -> & <- & Hy & Ha). exists (x :: a), y, b. repeat split; [done|by constructor].
Qed.
Lemma ix_None {A} (f : A -> bool) l : ix f l = None -> Forall (fun y => f y = false) l.
Proof. induction l as [|x l IH]; cbn [ix]; [done|]. destruct (f x) eqn:Ef; [done|]. destruct (ix f l); [done|]. intros _. constructor; [done|by apply IH]. Qed.

Section ops.
Context {E : Type} `{!MeshOps E}.
Abbreviation W := (@mesh E).
Implicit Types (w : W).

Lemma first_ix_eq {A} (f : A -> bool) n i (l : list A) w : (i + n <= length l)%nat -> first_ix f n i l w = Done (Nat.add i <$> ix f (take n (drop i l))) w.
Proof.
  revert i. induction n as [|n IH]; intros i Hl; [by rewrite take_0|]. cbn [first_ix]. destruct (lookup_lt_is_Some_2 l i ltac:(lia)) as [x Hx]. rewrite (drop_S _ _ _ Hx). cbn [take ix].
  unfold bind at 1, chk. rewrite Hx. unfold ret. destruct (f x); [cbn; by rewrite Nat.add_0_r|]. rewrite (IH (S i)) by lia. f_equal. destruct (ix f (take n (drop (S i) l))); cbn; f_equal. lia.
Qed.
Lemma first_ix_wp {A} (f : A -> bool) n (l : list A) w (Q : option nat -> W -> Prop) : (n <= length l)%nat -> Q (ix f (take n l)) w -> wp (first_ix f n 0 l) Q w.
Proof. intros Hl HQ. unfold wp. rewrite first_ix_eq by lia. rewrite drop_0. by destruct (ix f (take n l)). Qed.

Lemma set_at_wp {A} (l : list A) i x w (Q : list A -> W -> Prop) : (i < length l)%nat -> Q (<[i := x]> l) w -> wp (set_at l i x) Q w.
Proof. intros Hl HQ. unfold set_at. rewrite (proj2 (Nat.ltb_lt _ _) Hl). exact HQ. Qed.

Lemma take_set_in {A} (l : list A) n a x b y : take n l = a ++ x :: b -> take n (<[length a := y]> l) = a ++ y :: b.
Proof. intros H. rewrite take_insert_lt; [|]; [rewrite H; by rewrite insert_app_r_alt, Nat.sub_diag by lia|]. assert (length (take n l) <= n)%nat by (rewrite length_take; lia). rewrite H, length_app in H0. cbn in H0. lia. Qed.
Lemma take_set_end {A} (l : list A) n y : (n < length l)%nat -> take (S n) (<[n := y]> l) = take n l ++ [y].
Proof. intros H. rewrite (take_S_r _ _ y) by (rewrite list_lookup_insert_eq; done). by rewrite take_insert_ge by lia. Qed.

(** ** The entries in use *)

Record lists (w : W) (cap : nat) (R : list (@record E)) (N : list neighbor) : Prop := {
  ls_pool : exists p, s_svcs w = Some p /\ length p = cap /\ take (s_nsvc w) p = R;
  ls_n : length R = s_nsvc w;
  ls_nbrs : length (s_neighbors w) = PM_METAL_NEIGHBORS_MAX;
  ls_N : take (s_nn w) (s_neighbors w) = N;
  ls_nn : length N = s_nn w;
}.
Lemma lists_fit w cap R N : lists w cap R N -> (length R <= cap)%nat /\ (length N <= PM_METAL_NEIGHBORS_MAX)%nat.
Proof. intros [(p & _ & Hc & Hp) Hn Hl HN Hnn]. split; [rewrite <- Hp, length_take; lia|rewrite <- HN, length_take; lia]. Qed.
Lemma lists_env e w cap R N : lists w cap R N -> lists (set_env e w) cap R N.
Proof. by intros []. Qed.
Lemma lists_pool w cap R R' N p n : lists w cap R N -> length p = cap -> (n <= length p)%nat -> take n p = R' -> lists (set_pool (Some p) n w) cap R' N.
Proof. intros [] Hl Hn <-. constructor; cbn; try done; [by exists p|]. rewrite length_take. lia. Qed.
Lemma lists_nbrs w cap R N N' l n : lists w cap R N -> length l = PM_METAL_NEIGHBORS_MAX -> (n <= length l)%nat -> take n l = N' -> lists (set_nbrs l n w) cap R N'.
Proof. intros [] Hl Hn <-. constructor; cbn; try done. rewrite length_take. lia. Qed.

(** ** The registry *)

Definition up_remote (cap : nat) (name fqn : list Z) (port peer : Z) (R : list (@record E)) : list (@record E) * Z :=
  if peer =? 0 then (R, -1) else
  match ix (is_row peer name) R with
  | Some i => (alter (fun r => Rec (flags r) (peer_id r) (svc r) (r_name r) (strncpy 128 fqn) port) i R, 0)
  | None => if (cap <=? length R)%nat then (R, -1) else (R ++ [Rec PM_METAL_SERVICE_REMOTE peer None (strncpy 64 name) (strncpy 128 fqn) port], 0)
  end.

Lemma remote_wp w cap R N name fqn port peer : lists w cap R N ->
  wp (pm_metal_services_register_remote (Some name) (Some fqn) port peer) (fun rc w' => exists R', (R', rc) = up_remote cap name fqn port peer R /\ w' = set_pool (s_svcs w') (s_nsvc w') w /\ lists w' cap R' N) w.
Proof.
  intros H. pose proof H as [(p & Ep & Hc & Hp) Hn _ _ _]. unfold pm_metal_services_register_remote, up_remote. wstep. wstep. wstep. wstep. rewrite Ep. assert (Hfit : (s_nsvc w <= length p)%nat) by (rewrite <- Hn, <- Hp, length_take; lia).
  destruct (peer =? 0); [wstep; exists R; by destruct w|]. wstep. apply first_ix_wp; [done|]. rewrite Hp. destruct (ix (is_row peer name) R) as [i|] eqn:Ei.
  - apply ix_Some in Ei as (a & r & b & ER & Hi & _). subst i. wstep. assert (Er : p !! length a = Some r).
    { rewrite <- (lookup_take_lt p (s_nsvc w)); [rewrite Hp, ER; by apply list_lookup_middle|]. rewrite <- Hn, ER, length_app. cbn. lia. }
    apply (wp_chk _ r); [done|]. wstep. apply set_at_wp; [by apply lookup_lt_Some in Er|]. wstep. wstep. wstep. eexists. split; [reflexivity|]. split; [done|]. rewrite ER, alter_app_r_alt, Nat.sub_diag by lia. cbn [alter list_alter].
    eapply lists_pool; [exact H|by rewrite length_insert|by rewrite length_insert|]. eapply take_set_in. by rewrite Hp.
  - rewrite Hn, Hc. destruct (Nat.leb_spec cap (s_nsvc w)); [wstep; exists R; by destruct w|]. wstep. apply set_at_wp; [lia|]. wstep. wstep. wstep. eexists. split; [reflexivity|]. split; [done|].
    eapply lists_pool; [exact H|by rewrite length_insert|rewrite length_insert; lia|]. by rewrite take_set_end, Hp by lia.
Qed.

Lemma register_wp w cap R N s : lists w cap R N -> given s = true ->
  wp (pm_metal_services_register (Some s)) (fun rc w' => w' = set_pool (s_svcs w') (s_nsvc w') w /\
    if (cap <=? length R)%nat then rc = -1 /\ lists w' cap R N else rc = 0 /\ lists w' cap (R ++ [Rec PM_METAL_SERVICE_LOCAL 0 (Some s) [] [] 0]) N) w.
Proof.
  intros H Hs. pose proof H as [(p & Ep & Hc & Hp) Hn _ _ _]. unfold pm_metal_services_register. rewrite Hs. cbn [negb]. cbv zeta. wstep. wstep. wstep. wstep. rewrite Ep. wstep. unfold fill_local_record. wstep. wstep. rewrite Hc, Hn.
  destruct (Nat.leb_spec cap (s_nsvc w)); [wstep; wstep; by destruct w|]. wstep. apply set_at_wp; [lia|]. wstep. wstep. wstep. wstep. split; [done|]. split; [done|].
  eapply lists_pool; [exact H|by rewrite length_insert|rewrite length_insert; lia|]. by rewrite take_set_end, Hp by lia.
Qed.

(** The last entry in use takes the place of the one that goes. *)
Lemma swap_out {A} (p : list A) i n z y : (i < n <= length p)%nat -> p !! (n - 1)%nat = Some y ->
  let p' := <[(n - 1)%nat := z]> (if (i <? n - 1)%nat then <[i := y]> p else p) in
  length p' = length p /\ take i (take (n - 1) p') = take i p /\ take (n - 1) p' ≡ₚ take i p ++ drop (S i) (take n p).
Proof.
  intros Hi Hy p'. assert (Et : take n p = take (n - 1) p ++ [y]) by (replace n with (S (n - 1)) at 1 by lia; by rewrite (take_S_r _ _ y)).
  unfold p'. destruct (Nat.ltb_spec i (n - 1)).
  - split; [by rewrite !length_insert|]. rewrite take_insert_ge by lia. destruct (lookup_lt_is_Some_2 p i ltac:(lia)) as [x Hx].
    assert (Em : take (n - 1) p = take i p ++ x :: drop (S i) (take (n - 1) p)) by (rewrite <- (take_drop_middle (take (n - 1) p) i x) at 1; [rewrite take_take, Nat.min_l by lia; done|by rewrite lookup_take_lt by lia]).
    assert (Ei : take (n - 1) (<[i := y]> p) = take i p ++ y :: drop (S i) (take (n - 1) p)).
    { replace i with (length (take i p)) at 1 by (rewrite length_take; lia). by eapply take_set_in. }
    rewrite Ei. split; [rewrite take_app_le by (rewrite length_take; lia); by rewrite take_take, Nat.min_id|]. rewrite Et, drop_app_le by (rewrite length_take; lia). apply Permutation_app_head, Permutation_cons_append.
  - assert (i = n - 1)%nat as -> by lia. split; [by rewrite length_insert|]. rewrite take_insert_ge by lia. rewrite take_take, Nat.min_id. split; [done|].
    rewrite (drop_ge (take n p)) by (rewrite length_take; lia). by rewrite app_nil_r.
Qed.

Definition of_peer (peer : Z) (r : @record E) : bool := is_flag r PM_METAL_SERVICE_REMOTE && (peer_id r =? peer).

Lemma filter_id {A} (f : A -> bool) l : Forall (fun x => f x = false) l -> filter (fun x => f x = false) l = l.
Proof. induction 1 as [|x l Hx Hl IH]; [done|]. by rewrite filter_cons_True, IH. Qed.

Lemma drop_loop_wp fuel peer i n (p : list (@record E)) w : (n - i <= fuel)%nat -> (i <= n <= length p)%nat -> Forall (fun r => of_peer peer r = false) (take i p) ->
  wp (drop_loop fuel peer i n p) (fun r w' => w' = w /\ length r.1 = length p /\ (r.2 <= n)%nat /\ take r.2 r.1 ≡ₚ filter (fun r => of_peer peer r = false) (take n p)) w.
Proof.
  revert i n p. induction fuel as [|fuel IH]; intros i n p Hf Hn Hi; cbn [drop_loop]; destruct (Nat.leb_spec n i).
  1, 3: wstep; assert (i = n) as -> by lia; cbn; by rewrite filter_id.
  1: lia. destruct (lookup_lt_is_Some_2 p i ltac:(lia)) as [x Hx]. wstep. apply (wp_chk _ x); [done|]. assert (Et : take n p = take i p ++ x :: drop (S i) (take n p)).
  { rewrite <- (take_drop_middle (take n p) i x) at 1; [by rewrite take_take, Nat.min_l by lia|by rewrite lookup_take_lt by lia]. }
  fold (of_peer peer x). destruct (of_peer peer x) eqn:Ex.
  - cbv zeta. destruct (lookup_lt_is_Some_2 p (n - 1) ltac:(lia)) as [y Hy]. destruct (swap_out p i n zero_rec y ltac:(lia) Hy) as (Hl & Htk & Hperm). set (p' := if (i <? n - 1)%nat then <[i := y]> p else p) in *.
    wstep. apply (wp_mono _ (fun q w' => q = p' /\ w' = w)).
    { unfold p'. destruct (i <? n - 1)%nat; [|by wstep]. wstep. apply (wp_chk _ y); [done|]. apply set_at_wp; [lia|done]. }
    intros q w' [-> ->]. assert (Hlp : length p' = length p) by (by rewrite length_insert in Hl). wstep. apply set_at_wp; [lia|].
    eapply wp_mono; [apply (IH i (n - 1)%nat)|].
    + lia.
    + rewrite length_insert. lia.
    + rewrite take_take, Nat.min_l in Htk by lia. by rewrite Htk.
    + intros [p2 n2] w' (-> & Hl2 & Hn2 & Hp2). cbn [fst snd] in *. rewrite length_insert in Hl2. repeat split; [lia|lia|]. rewrite Hp2, Hperm. remember (drop (S i) (take n p)) as rest. rewrite Et, !filter_app, filter_cons_False; [done|by rewrite Ex].
  - eapply IH; [lia|lia|]. rewrite (take_S_r _ _ x) by done. apply Forall_app. by split; [|constructor].
Qed.

Lemma drop_peer_wp w cap R N peer : lists w cap R N ->
  wp (pm_metal_services_drop_peer peer) (fun rc w' => exists R', w' = set_pool (s_svcs w') (s_nsvc w') w /\ lists w' cap R' N /\
    if peer =? 0 then rc = -1 /\ R' = R else rc = 0 /\ R' ≡ₚ filter (fun r => of_peer peer r = false) R) w.
Proof.
  intros H. pose proof H as [(p & Ep & Hc & Hp) Hn _ _ _]. unfold pm_metal_services_drop_peer. wstep. wstep. wstep. wstep. rewrite Ep. assert (Hfit : (s_nsvc w <= length p)%nat) by (rewrite <- Hn, <- Hp, length_take; lia).
  destruct (peer =? 0); [wstep; exists R; by destruct w|]. wstep. eapply wp_mono; [apply (drop_loop_wp _ peer 0 (s_nsvc w) p); [lia|lia|done]|]. intros [p' n'] w' (-> & Hl & Hn' & Hperm). cbn [fst snd] in *.
  wstep. wstep. wstep. exists (take n' p'). split; [done|]. split; [eapply lists_pool; [exact H|lia|lia|done]|]. by rewrite <- Hp.
Qed.

(** ** The peers *)

Definition up_peer (zid hostname : list Z) (cp t id : Z) (N : list neighbor) : option (list neighbor * Z) :=
  match ix (is_peer zid) N with
  | Some i => nb ← N !! i; Some (<[i := Nbr (nb_id nb) (strncpy 64 hostname) (zenoh_id nb) cp (i64 t) true]> N, nb_id nb)
  | None => if (PM_METAL_NEIGHBORS_MAX <=? length N)%nat then None else Some (N ++ [Nbr id (strncpy 64 hostname) (strncpy 128 zid) cp (i64 t) true], id)
  end.
Definition up_seen (zid : list Z) (t : Z) (N : list neighbor) : option (list neighbor * Z) :=
  match ix (is_peer zid) N with
  | Some i => nb ← N !! i; Some (<[i := Nbr (nb_id nb) (host nb) (zenoh_id nb) (caps nb) (i64 t) true]> N, nb_id nb)
  | None => None
  end.

(** The clock is read when there is an entry to stamp. *)
Definition clock (e : E) : E * Z := mesh_us e.
Lemma peer_at w N i nb : (s_nn w <= length (s_neighbors w))%nat -> take (s_nn w) (s_neighbors w) = N -> N !! i = Some nb -> s_neighbors w !! i = Some nb /\ (i < s_nn w)%nat.
Proof. intros Hl <- Hi. pose proof (lookup_lt_Some _ _ _ Hi) as Hlt. rewrite length_take in Hlt. rewrite lookup_take_lt in Hi by lia. split; [done|lia]. Qed.

Lemma add_wp w cap R N zid hostname cp : lists w cap R N ->
  wp (pm_metal_neighbors_add (Some zid) (Some hostname) cp) (fun rc w' =>
    match up_peer zid hostname cp (mesh_us (env w)).2 (s_next_peer_id w) N with
    | None => rc = -1 /\ w' = w
    | Some (N', id) => rc = i32 id /\ lists w' cap R N' /\ env w' = (mesh_us (env w)).1 /\ s_next_peer_id w' = (if (length N <? length N')%nat then u32 (s_next_peer_id w + 1) else s_next_peer_id w) /\ s_mesh_started w' = s_mesh_started w
    end) w.
Proof.
  intros H. pose proof H as [_ _ Hl HN Hnn]. assert (Hfit : (s_nn w <= length (s_neighbors w))%nat) by (rewrite <- Hnn, <- HN, length_take; lia). unfold pm_metal_neighbors_add, up_peer. wstep. wstep. wstep. wstep. wstep. apply first_ix_wp; [done|]. rewrite HN.
  destruct (ix (is_peer zid) N) as [i|] eqn:Ei.
  - apply ix_Some in Ei as (a & nb & b & EN & <- & _). assert (Hi : N !! length a = Some nb) by (rewrite EN; by apply list_lookup_middle). destruct (peer_at w N _ _ Hfit HN Hi) as [Hnb Hlt]. rewrite Hi. cbn [mbind option_bind].
    wstep. apply (wp_chk _ nb); [done|]. wstep. unfold on_env, wp at 1. destruct (mesh_us (env w)) as [e t]. wstep. apply set_at_wp; [lia|]. wstep. wstep. wstep. split; [done|]. split; [|split; [done|split; [|done]]].
    + eapply lists_nbrs; [by apply lists_env|by rewrite length_insert|by rewrite length_insert|]. rewrite <- HN. by rewrite take_insert_lt.
    + rewrite length_insert, Nat.ltb_irrefl. done.
  - rewrite Hnn. destruct (Nat.leb_spec PM_METAL_NEIGHBORS_MAX (s_nn w)); [by wstep|]. wstep. wstep. wstep. wstep. wstep. unfold on_env, wp at 1. cbn [env set_next_id]. destruct (mesh_us (env w)) as [e t]. wstep. apply set_at_wp; [lia|]. wstep. wstep. wstep. split; [done|]. split; [|split; [done|split; [|done]]].
    + eapply lists_nbrs; [apply lists_env; by destruct H|by rewrite length_insert|rewrite length_insert; lia|]. by rewrite take_set_end, HN by lia.
    + rewrite length_app, (proj2 (Nat.ltb_lt _ _)) by (cbn; lia). done.
Qed.

Lemma seen_wp w cap R N zid : lists w cap R N ->
  wp (pm_metal_neighbors_seen (Some zid)) (fun rc w' =>
    match up_seen zid (mesh_us (env w)).2 N with
    | None => rc = -1 /\ w' = w
    | Some (N', id) => rc = i32 id /\ lists w' cap R N' /\ env w' = (mesh_us (env w)).1 /\ s_next_peer_id w' = s_next_peer_id w
    end) w.
Proof.
  intros H. pose proof H as [_ _ Hl HN Hnn]. assert (Hfit : (s_nn w <= length (s_neighbors w))%nat) by (rewrite <- Hnn, <- HN, length_take; lia). unfold pm_metal_neighbors_seen, up_seen. wstep. wstep. wstep. wstep. wstep. apply first_ix_wp; [done|]. rewrite HN.
  destruct (ix (is_peer zid) N) as [i|] eqn:Ei; [|by wstep]. apply ix_Some in Ei as (a & nb & b & EN & <- & _). assert (Hi : N !! length a = Some nb) by (rewrite EN; by apply list_lookup_middle). destruct (peer_at w N _ _ Hfit HN Hi) as [Hnb Hlt]. rewrite Hi. cbn [mbind option_bind].
  wstep. apply (wp_chk _ nb); [done|]. wstep. unfold on_env, wp at 1. destruct (mesh_us (env w)) as [e t]. wstep. apply set_at_wp; [lia|]. wstep. wstep. wstep. split; [done|]. split; [|done].
  eapply lists_nbrs; [by apply lists_env|by rewrite length_insert|by rewrite length_insert|]. rewrite <- HN. by rewrite take_insert_lt.
Qed.

(** [N'] is [N] without its entry [i]; the entries before it stay. *)
Definition without (N : list neighbor) (i : nat) (N' : list neighbor) : Prop := take i N' = take i N /\ N' ≡ₚ take i N ++ drop (S i) N.

Lemma take_out_wp w cap R N i : lists w cap R N -> (i < length N)%nat ->
  wp (take_out i (s_nn w) (s_neighbors w)) (fun l w' => w' = w /\ exists N', lists (set_nbrs l (s_nn w - 1) w) cap R N' /\ without N i N') w.
Proof.
  intros H Hi. pose proof H as [_ _ Hl HN Hnn]. assert (Hfit : (s_nn w <= length (s_neighbors w))%nat) by (rewrite <- Hnn, <- HN, length_take; lia). set (l := s_neighbors w) in *. set (n := s_nn w) in *. unfold take_out.
  destruct (lookup_lt_is_Some_2 l (n - 1) ltac:(lia)) as [y Hy]. destruct (swap_out l i n zero_nbr y ltac:(lia) Hy) as (Hlen & Htk & Hperm).
  wstep. apply (wp_mono _ (fun q w' => q = (if (i <? n - 1)%nat then <[i := y]> l else l) /\ w' = w)). { destruct (i <? n - 1)%nat; [|by wstep]. wstep. apply (wp_chk _ y); [done|]. apply set_at_wp; [lia|done]. }
  intros q w' [-> ->]. rewrite length_insert in Hlen. apply set_at_wp; [lia|]. split; [done|]. eexists. split; [eapply lists_nbrs; [exact H|rewrite length_insert; lia|rewrite length_insert; lia|reflexivity]|].
  split; [rewrite Htk, <- HN, take_take, Nat.min_l by lia; done|]. rewrite Hperm, <- HN, take_take, Nat.min_l by lia. done.
Qed.

Lemma ndrop_wp w cap R N zid : lists w cap R N ->
  wp (pm_metal_neighbors_drop (Some zid)) (fun rc w' => s_next_peer_id w' = s_next_peer_id w /\ env w' = env w /\
    match ix (fun nb => bool_decide (zenoh_id nb = zid)) N with None => rc = -1 /\ w' = w | Some i => rc = 0 /\ exists N', lists w' cap R N' /\ without N i N' end) w.
Proof.
  intros H. pose proof H as [_ _ Hl HN Hnn]. assert (Hfit : (s_nn w <= length (s_neighbors w))%nat) by (rewrite <- Hnn, <- HN, length_take; lia). unfold pm_metal_neighbors_drop. wstep. wstep. wstep. wstep. wstep. apply first_ix_wp; [done|]. rewrite HN.
  destruct (ix _ N) as [i|] eqn:Ei; [|by wstep]. apply ix_Some in Ei as (a & nb & b & EN & <- & _). wstep. eapply wp_mono; [apply (take_out_wp w cap R N); [done|rewrite EN, length_app; cbn; lia]|]. intros l w' (-> & N' & H' & Hw). wstep. wstep. wstep. repeat split; try done. by exists N'.
Qed.
End ops.
End ServicesSpec.
