(* ===== verification/MeshDb.v ===== *)
(** * The registry as a database

    Peers by their zenoh identity, the rows they sent by peer and name, and the
    services of the seat itself.  The arrays of the two cards are this database,
    whatever calls are made and whatever is heard. *)
From S2P Require Import Prelude Services.

Module MeshDb.
Import Store Services ServicesSpec.
Local Open Scope metal_scope.

(** ** Lists of pairs as maps *)

Section pairs.
Context {K V : Type} `{Countable K}.
Implicit Types (l : list (K * V)) (m : gmap K V).

Lemma ltm_update l a k v v' b : NoDup l.*1 -> l = a ++ (k, v) :: b -> list_to_map (a ++ (k, v') :: b) =@{gmap K V} <[k := v']> (list_to_map l).
Proof.
  intros Hn ->. rewrite fmap_app, fmap_cons in Hn. cbn [fst] in Hn. assert (Hn' : NoDup ((k, v') :: a ++ b).*1) by (rewrite fmap_cons, fmap_app; by rewrite Permutation_middle).
  rewrite <- (list_to_map_proper ((k, v') :: a ++ b) (a ++ (k, v') :: b)); [|done|apply Permutation_middle]. rewrite <- (list_to_map_proper ((k, v) :: a ++ b) (a ++ (k, v) :: b)); [|by rewrite fmap_cons in Hn' |- *|apply Permutation_middle].
  cbn. by rewrite insert_insert_eq.
Qed.
Lemma ltm_append l k v : NoDup l.*1 -> k ∉ l.*1 -> list_to_map (l ++ [(k, v)]) =@{gmap K V} <[k := v]> (list_to_map l).
Proof.
  intros Hn Hk. rewrite <- (list_to_map_proper ((k, v) :: l) (l ++ [(k, v)])); [done| |apply Permutation_cons_append]. rewrite fmap_cons. by constructor.
Qed.
Lemma ltm_filter (P : K * V -> Prop) `{!forall x, Decision (P x)} l l' : NoDup l.*1 -> l' ≡ₚ filter P l -> list_to_map l' =@{gmap K V} filter P (list_to_map l) /\ NoDup l'.*1.
Proof.
  intros Hn Hp. assert (Hf : NoDup (filter P l).*1) by (eapply sublist_NoDup; [exact Hn|apply fmap_sublist, sublist_filter]). assert (Hn' : NoDup l'.*1) by (by rewrite Hp). split; [|done].
  rewrite (list_to_map_proper l' (filter P l)) by done. apply map_eq. intros i. apply option_eq. intros x. rewrite map_lookup_filter_Some, <- !elem_of_list_to_map by done. rewrite list_elem_of_filter. tauto.
Qed.
Lemma ltm_lookup l k v : NoDup l.*1 -> (k, v) ∈ l -> (list_to_map l : gmap K V) !! k = Some v.
Proof. intros Hn Hl. by apply elem_of_list_to_map. Qed.
Lemma ltm_size l : NoDup l.*1 -> size (list_to_map l : gmap K V) = length l.
Proof. intros Hn. rewrite <- length_map_to_list. by rewrite map_to_list_to_map. Qed.
Lemma ltm_delete l l' a k v b : NoDup l.*1 -> l = a ++ (k, v) :: b -> l' ≡ₚ a ++ b -> list_to_map l' =@{gmap K V} delete k (list_to_map l) /\ NoDup l'.*1.
Proof.
  intros Hn -> Hp. rewrite fmap_app, fmap_cons in Hn. cbn [fst] in Hn. rewrite <- Permutation_middle, <- fmap_app in Hn. apply NoDup_cons in Hn as [Hk Hn]. assert (Hn' : NoDup l'.*1) by (by rewrite Hp). split; [|done].
  rewrite (list_to_map_proper l' (a ++ b)) by done. rewrite <- (list_to_map_proper ((k, v) :: a ++ b) (a ++ (k, v) :: b)); [|rewrite fmap_cons; by constructor|apply Permutation_middle].
  cbn. rewrite delete_insert_id; [done|]. by apply not_elem_of_list_to_map.
Qed.
End pairs.

Section db.
Context {E : Type} `{!MeshOps E}.
Variable ulong_max : Z.
Abbreviation W := (@mesh E).
Abbreviation service := (@service E).
Abbreviation record := (@record E).
Implicit Types (w : W) (e : E).

(** ** The database *)

Record peer := Peer { p_id : Z; p_host : list Z; p_caps : Z; p_seen : Z }.
Record db := Db { d_peers : gmap (list Z) peer; d_rows : gmap (Z * list Z) (list Z * Z); d_locals : list service; d_cap : nat; d_next : Z }.
Implicit Types (d : db).
Definition set_peers m d := Db m (d_rows d) (d_locals d) (d_cap d) (d_next d).
Definition set_rows m d := Db (d_peers d) m (d_locals d) (d_cap d) (d_next d).
Definition used d : nat := length (d_locals d) + size (d_rows d).

Definition db_register (s : service) (x : db * E) : (db * E) * Z :=
  let '(d, e) := x in
  if negb (given s) || (d_cap d <=? used d)%nat then (x, -1) else ((Db (d_peers d) (d_rows d) (s :: d_locals d) (d_cap d) (d_next d), e), 0).
Definition db_remote (name fqn : list Z) (port id : Z) (x : db * E) : (db * E) * Z :=
  let '(d, e) := x in
  if id =? 0 then (x, -1) else
  if bool_decide (d_rows d !! (id, name) = None) && (d_cap d <=? used d)%nat then (x, -1)
  else ((set_rows (<[(id, name) := (strncpy 128 fqn, port)]> (d_rows d)) d, e), 0).
Definition db_drop_peer (id : Z) (x : db * E) : (db * E) * Z :=
  let '(d, e) := x in if id =? 0 then (x, -1) else ((set_rows (filter (fun kv => kv.1.1 <> id) (d_rows d)) d, e), 0).
Definition db_add (zid h : list Z) (cp : Z) (x : db * E) : (db * E) * Z :=
  let '(d, e) := x in let '(e', t) := mesh_us e in
  match d_peers d !! zid with
  | Some p => ((set_peers (<[zid := Peer (p_id p) (strncpy 64 h) cp (i64 t)]> (d_peers d)) d, e'), i32 (p_id p))
  | None =>
      if (PM_METAL_NEIGHBORS_MAX <=? size (d_peers d))%nat then (x, -1)
      else ((Db (<[zid := Peer (d_next d) (strncpy 64 h) cp (i64 t)]> (d_peers d)) (d_rows d) (d_locals d) (d_cap d) (u32 (d_next d + 1)), e'), i32 (d_next d))
  end.
Definition db_seen (zid : list Z) (x : db * E) : (db * E) * Z :=
  let '(d, e) := x in let '(e', t) := mesh_us e in
  match d_peers d !! zid with
  | Some p => ((set_peers (<[zid := Peer (p_id p) (p_host p) (p_caps p) (i64 t)]> (d_peers d)) d, e'), i32 (p_id p))
  | None => (x, -1)
  end.
(** The rows of a peer that is dropped by its identity stay. *)
Definition db_drop (zid : list Z) (x : db * E) : (db * E) * Z :=
  let '(d, e) := x in match d_peers d !! zid with Some _ => ((set_peers (delete zid (d_peers d)) d, e), 0) | None => (x, -1) end.

Definition late (timeout now : Z) (p : peer) : bool := (0 <? timeout) && (p_seen p <=? now) && (timeout <=? now - p_seen p).
Definition late_ids (timeout now : Z) (m : gmap (list Z) peer) : list Z := (fun kv => p_id kv.2) <$> map_to_list (filter (fun kv => late timeout now kv.2 = true) m).
(** A peer that was not heard of goes with its rows. *)
Definition reaped (timeout now : Z) d : db :=
  Db (filter (fun kv => late timeout now kv.2 = false) (d_peers d)) (filter (fun kv => kv.1.1 ∉ late_ids timeout now (d_peers d)) (d_rows d)) (d_locals d) (d_cap d) (d_next d).
Definition db_reap (timeout : Z) (x : db * E) : (db * E) * Z :=
  let '(d, e) := x in let '(e, t) := mesh_us e in ((reaped timeout (i64 t) d, e), u32 (zlen (late_ids timeout (i64 t) (d_peers d)))).

Definition db_hear (payload : list Z) (x : db * E) : (db * E) * Z :=
  match row_fields payload with
  | None => (x, 0)
  | Some (zid, h, nm, fqn, port) =>
      let '(d, e) := x in let '(e, own) := mesh_zid e in let x := (d, e) in
      if match own with Some own => bool_decide (zid_hex own = zid) | None => false end then (x, 0) else
      let '(x, id) := db_add zid h (Z.lor PM_METAL_NEIGHBOR_CAP_HAS_ZENOH PM_METAL_NEIGHBOR_CAP_HAS_SERVICES) x in
      if 0 <? id then let x := (db_seen zid x).1 in ((db_remote nm fqn (u16 (strtoul ulong_max port)) id x).1, 0) else (x, 0)
  end.

(** ** The arrays hold the database *)

Definition row_kv (r : record) : option ((Z * list Z) * (list Z * Z)) := if flags r =? PM_METAL_SERVICE_REMOTE then Some ((peer_id r, r_name r), (r_fqn r, r_port r)) else None.
Definition nbr_kv (nb : neighbor) : list Z * peer := (zenoh_id nb, Peer (nb_id nb) (host nb) (caps nb) (last_seen_us nb)).

Definition good_row (r : record) : Prop := (flags r = PM_METAL_SERVICE_LOCAL /\ is_Some (svc r)) \/ (flags r = PM_METAL_SERVICE_REMOTE /\ peer_id r <> 0).
Record holds (R : list record) (N : list neighbor) (d : db) : Prop := {
  ho_rows : d_rows d = list_to_map (omap row_kv R); ho_nd : NoDup (omap row_kv R).*1; ho_good : Forall good_row R;
  ho_peers : d_peers d = list_to_map (nbr_kv <$> N); ho_ndp : NoDup (nbr_kv <$> N).*1; ho_alive : Forall (fun nb => alive nb = true) N;
  ho_locals : d_locals d ≡ₚ omap local_of R;
}.
Definition repr w (x : db * E) : Prop := exists R N, lists w (d_cap x.1) R N /\ holds R N x.1 /\ d_next x.1 = s_next_peer_id w /\ x.2 = env w.

Lemma local_row r : flags r = PM_METAL_SERVICE_LOCAL -> is_flag r PM_METAL_SERVICE_REMOTE = false /\ row_kv r = None /\ local_of r = svc r.
Proof. unfold is_flag, row_kv, local_of, is_flag. by intros ->. Qed.
Lemma remote_row r : flags r = PM_METAL_SERVICE_REMOTE -> is_flag r PM_METAL_SERVICE_REMOTE = true /\ row_kv r = Some ((peer_id r, r_name r), (r_fqn r, r_port r)) /\ local_of r = None.
Proof. unfold is_flag, row_kv, local_of, is_flag. by intros ->. Qed.
Lemma row_remote r : good_row r -> is_flag r PM_METAL_SERVICE_REMOTE = true -> row_kv r = Some ((peer_id r, r_name r), (r_fqn r, r_port r)).
Proof. intros [[Hf _]|[Hf _]] H; [apply local_row in Hf as [Hf _]; congruence|by apply remote_row]. Qed.

Lemma holds_used R N d : holds R N d -> used d = length R.
Proof.
  intros [Hr Hn Hg _ _ _ Hl]. unfold used. rewrite Hl, Hr, ltm_size by done. clear -Hg. induction Hg as [|r R Hr HR IH]; [done|]. cbn [omap list_omap length].
  destruct Hr as [[Hf [s Hs]]|[Hf _]]; [apply local_row in Hf as (_ & -> & ->); rewrite Hs|apply remote_row in Hf as (_ & -> & ->)]; cbn [length]; lia.
Qed.
Lemma holds_peers R N d : holds R N d -> size (d_peers d) = length N.
Proof. intros [_ _ _ Hp Hn _ _]. rewrite Hp, ltm_size by done. by rewrite length_fmap. Qed.

(** A row of the database is an entry of the array, and the search finds it. *)
Lemma find_row R N d id nm : holds R N d -> ix (is_row id nm) R = None <-> d_rows d !! (id, nm) = None.
Proof.
  intros [Hr Hn Hg _ _ _ _]. rewrite Hr, <- not_elem_of_list_to_map. split.
  - intros Hi%ix_None Hin. apply list_elem_of_fmap in Hin as ([k v] & Hk & Hin). cbn [fst] in Hk. subst k. apply list_elem_of_omap in Hin as (r & Hrin & Hkv). rewrite Forall_forall in Hi. specialize (Hi r Hrin). unfold row_kv in Hkv. destruct (flags r =? PM_METAL_SERVICE_REMOTE) eqn:Ef; [|done]. injection Hkv as <- <- <-.
    apply Z.eqb_eq in Ef. unfold is_row, is_flag in Hi. rewrite Ef, Z.eqb_refl, bool_decide_true in Hi by done. done.
  - intros Hnot. destruct (ix _ R) as [i|] eqn:Ei; [|done]. apply ix_Some in Ei as (a & r & b & -> & _ & Hf & _). exfalso. apply Hnot. unfold is_row in Hf. apply andb_true_iff in Hf as [[Hf1 Hf2%Z.eqb_eq]%andb_true_iff Hf3%bool_decide_eq_true]. subst id nm.
    apply list_elem_of_fmap. exists ((peer_id r, r_name r), (r_fqn r, r_port r)). split; [done|]. apply list_elem_of_omap. exists r. split; [set_solver|]. apply row_remote; [|done]. apply Forall_app in Hg as [_ Hg]. by apply Forall_cons in Hg as [? _].
Qed.

Lemma strncpy_short n s : zlen s < n -> strncpy n s = s.
Proof. intros H. unfold strncpy. apply take_ge. lia. Qed.

(** ** Each operation *)

Lemma register_ok s w x : repr w x -> wp (pm_metal_services_register (Some s)) (fun rc w' => rc = (db_register s x).2 /\ repr w' (db_register s x).1) w.
Proof.
  destruct x as [d e]. intros (R & N & HL & HH & Hnx & He). cbn [fst snd] in *. unfold db_register. destruct (given s) eqn:Es; cbn [negb orb].
  - rewrite (holds_used R N d HH). eapply wp_mono; [by apply (register_wp w (d_cap d) R N s)|]. cbv beta. intros rc w' [Ew Hif]. destruct (d_cap d <=? length R)%nat; destruct Hif as [-> HL']; (split; [done|]); rewrite Ew in *; cbn [fst].
    + by exists R, N.
    + eexists _, N. split; [exact HL'|]. split; [|done]. destruct HH as [Hr Hn Hg Hp Hnp Ha Hl]. set (r := Rec PM_METAL_SERVICE_LOCAL 0 (Some s) [] [] 0). destruct (local_row r eq_refl) as (_ & Ek & El).
      constructor; cbn [d_rows d_peers d_locals]; rewrite ?omap_app; cbn [omap list_omap]; rewrite ?Ek, ?El, ?app_nil_r; try done; [apply Forall_app; split; [done|]; constructor; [left; split; [done|by eexists]|done]|]. cbn. rewrite Hl. apply Permutation_cons_append.
  - unfold pm_metal_services_register. rewrite Es. cbn [negb]. wstep. split; [done|]. by exists R, N.
Qed.

Lemma remote_ok nm fqn port id w x : zlen nm < 64 -> repr w x -> wp (pm_metal_services_register_remote (Some nm) (Some fqn) port id) (fun rc w' => rc = (db_remote nm fqn port id x).2 /\ repr w' (db_remote nm fqn port id x).1) w.
Proof.
  intros Hnm. destruct x as [d e]. intros (R & N & HL & HH & Hnx & He). cbn [fst snd] in *. eapply wp_mono; [by apply (remote_wp w (d_cap d) R N)|]. intros rc w' (R' & Eup & Ew & HL'). revert Eup. unfold up_remote, db_remote. rewrite (holds_used R N d HH).
  destruct (Z.eqb_spec id 0) as [->|Hid]; [intros [= -> ->]; split; [done|]; exists R, N; by rewrite Ew in *|]. destruct (ix (is_row id nm) R) as [i|] eqn:Ei.
  - assert (Hsome : d_rows d !! (id, nm) <> None) by (rewrite <- (find_row R N d) by done; congruence). rewrite bool_decide_false by done. cbn [andb fst snd]. intros [= -> ->]. split; [done|]. eexists _, N. rewrite Ew. split; [by rewrite Ew in HL'|]. split; [|done].
    apply ix_Some in Ei as (a & r & b & ER & <- & Hf & _). destruct HH as [Hr Hn Hg Hp Hnp Ha Hl]. subst R. rewrite alter_app_r_alt, Nat.sub_diag by lia. cbn [alter list_alter]. unfold is_row in Hf. apply andb_true_iff in Hf as [[Hf1 Hf2%Z.eqb_eq]%andb_true_iff Hf3%bool_decide_eq_true]. subst id nm.
    apply Forall_app in Hg as [Hg1 Hg]. apply Forall_cons in Hg as [Hgr Hg2]. pose proof (row_remote r Hgr Hf1) as Ekv. destruct Hgr as [[Hf _]|[Hf _]]; [apply local_row in Hf as [Hf _]; congruence|]. destruct (remote_row r Hf) as (_ & _ & El). set (r' := Rec _ _ _ _ _ _). destruct (remote_row r' Hf) as (_ & Ekv' & El'). cbn [r' peer_id r_name r_fqn r_port] in Ekv'.
    rewrite omap_app in Hr. rewrite omap_app in Hn. rewrite omap_app in Hl. cbn [omap list_omap] in Hr, Hn, Hl. rewrite Ekv in Hr, Hn. rewrite El in Hl. constructor; cbn [d_rows d_peers d_locals set_rows]; rewrite ?omap_app; cbn [omap list_omap]; rewrite ?Ekv', ?El'; try done.
    + rewrite Hr. symmetry. by eapply ltm_update.
    + rewrite fmap_app, fmap_cons in *. exact Hn.
    + apply Forall_app. split; [done|]. constructor; [|done]. by right.
  - assert (Hnone : d_rows d !! (id, nm) = None) by by apply (find_row R N d). rewrite bool_decide_true by done. cbn [andb]. destruct (d_cap d <=? length R)%nat eqn:Ec; [intros [= -> ->]; split; [done|]; exists R, N; by rewrite Ew in *|].
    cbn [fst snd]. intros [= -> ->]. split; [done|]. eexists _, N. rewrite Ew. split; [by rewrite Ew in HL'|]. split; [|done]. destruct HH as [Hr Hn Hg Hp Hnp Ha Hl]. set (r := Rec _ _ _ _ _ _). destruct (remote_row r eq_refl) as (_ & Ekv & El). cbn [r peer_id r_name r_fqn r_port] in Ekv. rewrite (strncpy_short 64) in Ekv by done.
    rewrite Hr in Hnone. apply not_elem_of_list_to_map in Hnone. constructor; cbn [d_rows d_peers d_locals set_rows]; rewrite ?omap_app; cbn [omap list_omap]; rewrite ?Ekv, ?El, ?app_nil_r; try done.
    + rewrite Hr. symmetry. by apply ltm_append.
    + rewrite fmap_app. cbn [fmap list_fmap fst]. apply NoDup_app. split; [done|]. split; [|apply NoDup_singleton]. intros k Hk ->%list_elem_of_singleton. done.
    + apply Forall_app. split; [done|]. constructor; [by right|done].
Qed.

Lemma holds_dropped R R' N d id : holds R N d -> R' ≡ₚ filter (fun r => of_peer id r = false) R -> holds R' N (set_rows (filter (fun kv => kv.1.1 <> id) (d_rows d)) d).
Proof.
  intros [Hr Hn Hg Hp Hnp Ha Hl] HR.
  assert (Hkv : omap row_kv (filter (fun r => of_peer id r = false) R) = filter (fun kv => kv.1.1 <> id) (omap row_kv R) /\ omap local_of (filter (fun r => of_peer id r = false) R) = omap local_of R).
  { clear -Hg. induction Hg as [|r R Hr HR [IH1 IH2]]; [done|]. cbn [omap list_omap]. destruct Hr as [[Hf _]|[Hf _]].
    - destruct (local_row r Hf) as (E1 & E2 & E3). rewrite filter_cons_True by (unfold of_peer; by rewrite E1). cbn [omap list_omap]. rewrite E2, E3, IH1. split; [done|]. destruct (svc r); [by rewrite IH2|done].
    - destruct (remote_row r Hf) as (E1 & E2 & E3). rewrite E2, E3. destruct (decide (peer_id r = id)) as [Hid|Hid].
      + rewrite filter_cons_False by (unfold of_peer; rewrite E1; cbn; by rewrite (proj2 (Z.eqb_eq _ _) Hid)). rewrite filter_cons_False by (cbn; tauto). done.
      + rewrite filter_cons_True by (unfold of_peer; rewrite E1; cbn; by apply Z.eqb_neq). rewrite filter_cons_True by done. cbn [omap list_omap]. rewrite E2, E3, IH1. done. }
  destruct Hkv as [Hkv Hloc]. assert (Hperm : omap row_kv R' ≡ₚ filter (fun kv => kv.1.1 <> id) (omap row_kv R)) by (rewrite <- Hkv; by rewrite HR). destruct (ltm_filter (fun kv => kv.1.1 <> id) _ _ Hn Hperm) as [E1 E2].
  constructor; cbn [d_rows d_peers d_locals set_rows]; try done; [by rewrite E1, Hr| |by rewrite HR, Hloc]. rewrite HR. apply Forall_forall. intros r [_ Hin]%list_elem_of_filter. rewrite Forall_forall in Hg. by apply Hg.
Qed.

Lemma drop_peer_ok id w x : repr w x -> wp (pm_metal_services_drop_peer id) (fun rc w' => rc = (db_drop_peer id x).2 /\ repr w' (db_drop_peer id x).1) w.
Proof.
  destruct x as [d e]. intros (R & N & HL & HH & Hnx & He). cbn [fst snd] in *. eapply wp_mono; [by apply (drop_peer_wp w (d_cap d) R N)|]. intros rc w' (R' & Ew & HL' & Hif). unfold db_drop_peer.
  destruct (id =? 0); destruct Hif as [-> HR]; (split; [done|]); rewrite Ew in *.
  - subst R'. by exists R, N.
  - exists R', N. split; [done|]. split; [by eapply holds_dropped|done].
Qed.

Lemma find_peer R N d zid : holds R N d -> match ix (is_peer zid) N with
  | None => d_peers d !! zid = None
  | Some i => exists nb, N !! i = Some nb /\ zenoh_id nb = zid /\ d_peers d !! zid = Some (nbr_kv nb).2 /\ exists a b, N = a ++ nb :: b /\ length a = i end.
Proof.
  intros [_ _ _ Hp Hn Ha _]. destruct (ix (is_peer zid) N) as [i|] eqn:Ei.
  - apply ix_Some in Ei as (a & nb & b & -> & <- & Hf & _). apply andb_true_iff in Hf as [_ Hz%bool_decide_eq_true]. exists nb. split; [by apply list_lookup_middle|]. split; [done|]. split; [|by exists a, b].
    rewrite Hp. apply ltm_lookup; [done|]. subst zid. apply list_elem_of_fmap. exists nb. split; [done|set_solver].
  - apply ix_None in Ei. rewrite Hp. apply not_elem_of_list_to_map. intros Hin. rewrite <- list_fmap_compose in Hin. apply list_elem_of_fmap in Hin as (nb & -> & Hin). rewrite Forall_forall in Ei, Ha. specialize (Ei nb Hin). unfold is_peer in Ei. rewrite (Ha nb Hin), bool_decide_true in Ei by done. done.
Qed.
Lemma holds_peer_set R a nb b nb' d : holds R (a ++ nb :: b) d -> zenoh_id nb' = zenoh_id nb -> alive nb' = true -> holds R (a ++ nb' :: b) (set_peers (<[zenoh_id nb := (nbr_kv nb').2]> (d_peers d)) d).
Proof.
  intros [Hr Hn Hg Hp Hnp Ha Hl] Hz Hal. rewrite fmap_app, fmap_cons in Hp, Hnp. constructor; cbn [d_rows d_peers d_locals set_peers]; try done.
  - rewrite Hp, fmap_app, fmap_cons. symmetry. unfold nbr_kv at 2 3. rewrite Hz. eapply ltm_update; [exact Hnp|reflexivity].
  - rewrite fmap_app, fmap_cons, fmap_app, fmap_cons in *. cbn [nbr_kv fst] in *. by rewrite Hz.
  - apply Forall_app in Ha as [Ha1 Ha2]. apply Forall_cons in Ha2 as [_ Ha2]. apply Forall_app. split; [done|]. by constructor.
Qed.
Lemma holds_peer_add R N nb d nx : holds R N d -> d_peers d !! zenoh_id nb = None -> alive nb = true -> holds R (N ++ [nb]) (Db (<[zenoh_id nb := (nbr_kv nb).2]> (d_peers d)) (d_rows d) (d_locals d) (d_cap d) nx).
Proof.
  intros [Hr Hn Hg Hp Hnp Ha Hl] Hz Hal. rewrite Hp in Hz. apply not_elem_of_list_to_map in Hz. constructor; cbn [d_rows d_peers d_locals]; try done.
  - rewrite Hp, fmap_app. symmetry. by apply ltm_append.
  - rewrite !fmap_app. apply NoDup_app. split; [done|]. split; [|apply NoDup_singleton]. intros k Hk ->%list_elem_of_singleton. done.
  - apply Forall_app. split; [done|]. by constructor.
Qed.

Lemma nbr_add_ok zid h cp w x : zlen zid < 128 -> repr w x -> wp (pm_metal_neighbors_add (Some zid) (Some h) cp) (fun rc w' => rc = (db_add zid h cp x).2 /\ repr w' (db_add zid h cp x).1) w.
Proof.
  intros Hz. destruct x as [d e]. intros (R & N & HL & HH & Hnx & He). cbn [fst snd] in *. subst e. eapply wp_mono; [by apply (add_wp w (d_cap d) R N)|]. intros rc w'. unfold up_peer, db_add. pose proof (find_peer R N d zid HH) as Hfind. rewrite (holds_peers R N d HH). destruct (mesh_us (env w)) as [e t]. cbn [fst snd].
  destruct (ix (is_peer zid) N) as [i|].
  - destruct Hfind as (nb & Hi & Ez & Hd & a & b & EN & Ha). rewrite Hi, Hd. cbn [mbind option_bind nbr_kv fst snd p_id]. intros (-> & HL' & He' & Hnx' & _). split; [done|]. rewrite length_insert, Nat.ltb_irrefl in Hnx'. eexists R, _. split; [exact HL'|]. split; [|by rewrite Hnx', He'].
    subst N i. rewrite insert_app_r_alt, Nat.sub_diag by lia. cbn [insert list_insert]. set (nb' := Nbr _ _ _ _ _ _). subst zid. exact (holds_peer_set R a nb b nb' d HH eq_refl eq_refl).
  - rewrite Hfind. destruct (PM_METAL_NEIGHBORS_MAX <=? length N)%nat; [intros [-> ->]; split; [done|]; by exists R, N|]. intros (-> & HL' & He' & Hnx' & _). split; [by rewrite Hnx|]. rewrite length_app, (proj2 (Nat.ltb_lt _ _)) in Hnx' by (cbn; lia).
    eexists R, _. split; [exact HL'|]. split; [|cbn [fst snd d_next]; by rewrite Hnx', He', Hnx]. rewrite (strncpy_short 128) by done. set (nb := Nbr _ _ _ _ _ _). rewrite Hnx. exact (holds_peer_add R N nb d _ HH Hfind eq_refl).
Qed.

Lemma seen_ok zid w x : repr w x -> wp (pm_metal_neighbors_seen (Some zid)) (fun rc w' => rc = (db_seen zid x).2 /\ repr w' (db_seen zid x).1) w.
Proof.
  destruct x as [d e]. intros (R & N & HL & HH & Hnx & He). cbn [fst snd] in *. subst e. eapply wp_mono; [by apply (seen_wp w (d_cap d) R N)|]. intros rc w'. unfold up_seen, db_seen. pose proof (find_peer R N d zid HH) as Hfind. destruct (mesh_us (env w)) as [e t]. cbn [fst snd].
  destruct (ix (is_peer zid) N) as [i|]; [|rewrite Hfind; intros [-> ->]; split; [done|]; by exists R, N].
  destruct Hfind as (nb & Hi & Ez & Hd & a & b & EN & Ha). rewrite Hi, Hd. cbn [mbind option_bind nbr_kv fst snd p_id p_host p_caps]. intros (-> & HL' & He' & Hnx'). split; [done|]. eexists R, _. split; [exact HL'|]. split; [|by rewrite Hnx', He'].
  subst N i. rewrite insert_app_r_alt, Nat.sub_diag by lia. cbn [insert list_insert]. set (nb' := Nbr _ _ _ _ _ _). subst zid. exact (holds_peer_set R a nb b nb' d HH eq_refl eq_refl).
Qed.

Lemma holds_without R N N' i nb d : holds R N d -> N !! i = Some nb -> without N i N' -> holds R N' (set_peers (delete (zenoh_id nb) (d_peers d)) d).
Proof.
  intros [Hr Hn Hg Hp Hnp Ha Hl] Hi [_ HN']. pose proof (take_drop_middle N i nb Hi) as EN. assert (Hperm : nbr_kv <$> N' ≡ₚ (nbr_kv <$> take i N) ++ (nbr_kv <$> drop (S i) N)) by (rewrite <- fmap_app; by rewrite HN').
  destruct (ltm_delete (nbr_kv <$> N) (nbr_kv <$> N') (nbr_kv <$> take i N) (zenoh_id nb) (nbr_kv nb).2 (nbr_kv <$> drop (S i) N) Hnp) as [E1 E2]; [by rewrite <- EN at 1; rewrite fmap_app, fmap_cons|done|].
  constructor; cbn [d_rows d_peers d_locals set_peers]; try done; [by rewrite E1, Hp|]. rewrite HN'. rewrite <- EN in Ha. apply Forall_app in Ha as [Ha1 Ha2]. apply Forall_cons in Ha2 as [_ Ha2]. by apply Forall_app.
Qed.

Lemma nbr_drop_ok zid w x : repr w x -> wp (pm_metal_neighbors_drop (Some zid)) (fun rc w' => rc = (db_drop zid x).2 /\ repr w' (db_drop zid x).1) w.
Proof.
  destruct x as [d e]. intros (R & N & HL & HH & Hnx & He). cbn [fst snd] in *. eapply wp_mono; [by apply (ndrop_wp w (d_cap d) R N)|]. intros rc w' (Enx & Eenv & Hif). unfold db_drop. pose proof (find_peer R N d zid HH) as Hfind.
  assert (Eix : ix (fun nb => bool_decide (zenoh_id nb = zid)) N = ix (is_peer zid) N).
  { destruct HH as [_ _ _ _ _ Ha _]. clear -Ha. induction Ha as [|nb N Hnb HN IH]; [done|]. cbn [ix]. unfold is_peer at 1. rewrite Hnb, IH. done. }
  rewrite Eix in Hif. destruct (ix (is_peer zid) N) as [i|].
  - destruct Hfind as (nb & Hi & Ez & Hd & _). rewrite Hd. destruct Hif as [-> (N' & HL' & Hwo)]. split; [done|]. exists R, N'. subst zid. split; [done|]. split; [by eapply holds_without|]. cbn. by rewrite Enx, Eenv.
  - rewrite Hfind. destruct Hif as [-> ->]. split; [done|]. by exists R, N.
Qed.

(** *** Reaping *)

Lemma late_ids_delete timeout now m zid p : m !! zid = Some p -> late timeout now p = true -> late_ids timeout now m ≡ₚ p_id p :: late_ids timeout now (delete zid m).
Proof.
  intros Hm Hl. unfold late_ids. assert (Eq : filter (fun kv => late timeout now kv.2 = true) m = <[zid := p]> (filter (fun kv => late timeout now kv.2 = true) (delete zid m))).
  { rewrite <- (insert_delete_id m zid p) at 1 by done. by rewrite map_filter_insert_True. }
  rewrite Eq, map_to_list_insert; [done|]. apply map_lookup_filter_None. left. apply lookup_delete_eq.
Qed.
Lemma reaped_step timeout now d zid p : d_peers d !! zid = Some p -> late timeout now p = true ->
  reaped timeout now (set_peers (delete zid (d_peers d)) (set_rows (filter (fun kv => kv.1.1 <> p_id p) (d_rows d)) d)) = reaped timeout now d.
Proof.
  intros Hm Hl. unfold reaped. cbn [d_peers d_rows d_locals d_cap d_next set_peers set_rows]. f_equal.
  - apply map_eq. intros k. apply option_eq. intros v. rewrite !map_lookup_filter_Some, lookup_delete_Some. split; [tauto|]. intros [H1 H2]. split; [|done]. split; [|done]. intros <-. cbn in H2. congruence.
  - rewrite map_filter_filter. apply map_filter_ext. intros k v _. cbn. rewrite (late_ids_delete timeout now _ zid p Hm Hl). set_solver.
Qed.
Lemma all_fresh timeout now R N d : holds R N d -> Forall (fun nb => stale timeout now nb = false) N -> reaped timeout now d = d /\ late_ids timeout now (d_peers d) = [].
Proof.
  intros HH Hf. assert (Hfresh : forall k p, d_peers d !! k = Some p -> late timeout now p = false).
  { intros k p Hk. destruct HH as [_ _ _ Hp Hn _ _]. rewrite Hp in Hk. apply elem_of_list_to_map in Hk; [|done]. apply list_elem_of_fmap in Hk as (nb & [= -> ->] & Hin). rewrite Forall_forall in Hf. specialize (Hf nb Hin). unfold stale in Hf. by apply orb_false_iff in Hf as [_ Hf]. }
  assert (Eq : late_ids timeout now (d_peers d) = []).
  { unfold late_ids. assert (filter (fun kv => late timeout now kv.2 = true) (d_peers d) = ∅) as ->; [|by rewrite map_to_list_empty]. apply map_empty. intros k. apply map_lookup_filter_None. right. intros p Hk Hp. cbn in Hp. by rewrite (Hfresh k p Hk) in Hp. }
  split; [|done]. unfold reaped. rewrite Eq. destruct d as [dp dr dl dc dn]. cbn [d_peers d_rows d_locals d_cap d_next] in *. f_equal.
  - apply map_filter_id. intros k p Hk. by apply (Hfresh k).
  - apply map_filter_id. intros k v _. apply not_elem_of_nil.
Qed.

Lemma u32_add a b : u32 (u32 a + b) = u32 (a + b).
Proof. unfold u32. by rewrite Zplus_mod_idemp_l. Qed.

Lemma reap_loop_ok fuel timeout now i k w R N d : lists w (d_cap d) R N -> holds R N d -> d_next d = s_next_peer_id w -> (length N - i <= fuel)%nat -> Forall (fun nb => stale timeout now nb = false) (take i N) -> u32 k = k ->
  wp (reap_loop fuel timeout now i k) (fun r w' => r = u32 (k + zlen (late_ids timeout now (d_peers d))) /\ repr w' (reaped timeout now d, env w)) w.
Proof.
  revert i k w R N d. induction fuel as [|fuel IH]; intros i k w R N d HL HH Hnx Hf Hi Hk; cbn [reap_loop]; wstep; wstep; rewrite <- (ls_nn _ _ _ _ HL); (destruct (Nat.leb_spec (length N) i) as [Hle|Hlt]; [|try lia]).
  1, 2: rewrite take_ge in Hi by done; destruct (all_fresh timeout now R N d HH Hi) as [-> ->]; wstep; (split; [by rewrite Z.add_0_r|]); by exists R, N.
  wstep. wstep. destruct (lookup_lt_is_Some_2 N i Hlt) as [nb Hnb]. assert (Hfit : (s_nn w <= length (s_neighbors w))%nat) by (rewrite <- (ls_nn _ _ _ _ HL), <- (ls_N _ _ _ _ HL), length_take; lia).
  destruct (peer_at w N i nb Hfit (ls_N _ _ _ _ HL) Hnb) as [Hnb' _]. wstep. apply (wp_chk _ nb); [done|]. destruct (stale timeout now nb) eqn:Est; cbn [negb].
  - wstep. eapply wp_mono; [by apply (drop_peer_wp w (d_cap d) R N)|]. intros rc w1 (R1 & Ew1 & HL1 & Hif). assert (HH1 : holds R1 N (set_rows (filter (fun kv => kv.1.1 <> nb_id nb) (d_rows d)) d)).
    { destruct (Z.eqb_spec (nb_id nb) 0) as [Hz|Hz]; destruct Hif as [_ HR]; [|by eapply holds_dropped]. subst R1. eapply holds_dropped; [done|]. rewrite Hz. rewrite filter_id; [done|]. destruct HH as [_ _ Hg _ _ _ _]. eapply Forall_impl; [exact Hg|]. intros r [[Hfl _]|[_ Hp]]; unfold of_peer; [apply local_row in Hfl as [-> _]; done|]. rewrite (proj2 (Z.eqb_neq _ _) Hp). apply andb_false_r. }
    assert (Enn : s_nn w1 = s_nn w /\ s_neighbors w1 = s_neighbors w /\ env w1 = env w /\ s_next_peer_id w1 = s_next_peer_id w) by (by rewrite Ew1). destruct Enn as (E1 & E2 & E3 & E4).
    wstep. rewrite (ls_nn _ _ _ _ HL), <- E1, <- E2. eapply wp_mono; [by apply (take_out_wp w1 (d_cap d) R1 N)|]. intros l w2 (-> & N' & HL2 & Hwo). wstep. wstep. pose proof (holds_without R1 N N' i nb _ HH1 Hnb Hwo) as HH2. cbn [d_peers set_rows] in HH2.
    assert (Hd : d_peers d !! zenoh_id nb = Some (nbr_kv nb).2). { destruct HH as [_ _ _ Hp Hn _ _]. rewrite Hp. apply ltm_lookup; [done|]. apply list_elem_of_fmap. exists nb. split; [done|]. by eapply list_elem_of_lookup_2. }
    assert (Hlate : late timeout now (nbr_kv nb).2 = true). { destruct HH as [_ _ _ _ _ Ha _]. rewrite Forall_forall in Ha. unfold stale in Est. rewrite (Ha nb) in Est by (by eapply list_elem_of_lookup_2). exact Est. }
    eapply wp_mono; [eapply (IH i (u32 (k + 1)) _ R1 N' (set_peers (delete (zenoh_id nb) (d_peers d)) (set_rows (filter (fun kv => kv.1.1 <> nb_id nb) (d_rows d)) d)))|].
    + exact HL2.
    + exact HH2.
    + cbn. by rewrite E4.
    + destruct Hwo as [_ Hp]. rewrite Hp, length_app, length_take, length_drop. lia.
    + destruct Hwo as [-> _]. done.
    + unfold u32. by rewrite Zmod_mod.
    + intros r w' [-> Hrep]. pose proof (reaped_step timeout now d _ _ Hd Hlate) as Estep. cbn [nbr_kv snd p_id] in Estep. rewrite Estep in Hrep. split.
      * rewrite (late_ids_delete timeout now _ _ _ Hd Hlate). cbn [d_peers set_peers set_rows length]. rewrite u32_add. f_equal. lia.
      * cbn [env set_nbrs] in Hrep. by rewrite <- E3.
  - eapply IH; [done..|lia| |done]. rewrite (take_S_r _ _ nb) by done. apply Forall_app. by split; [|constructor].
Qed.

Lemma reap_ok timeout w x : repr w x -> wp (pm_metal_neighbors_reap timeout) (fun rc w' => rc = (db_reap timeout x).2 /\ repr w' (db_reap timeout x).1) w.
Proof.
  destruct x as [d e]. intros (R & N & HL & HH & Hnx & He). cbn [fst snd] in *. subst e. unfold pm_metal_neighbors_reap, db_reap. wstep. unfold on_env, wp at 1. destruct (mesh_us (env w)) as [e t]. wstep. wstep.
  eapply wp_mono; [apply (reap_loop_ok _ timeout (i64 t) 0 0 (set_env e w) R N d); try done|].
  - by apply lists_env.
  - rewrite (ls_nn _ _ _ _ HL). cbn. lia.
  - intros r w' [-> Hrep]. done.
Qed.

Lemma hear_ok payload w x : match row_fields payload with Some (zid, _, nm, _, _) => zlen zid < 128 /\ zlen nm < 64 | None => True end -> repr w x ->
  wp (mesh_recv ulong_max payload) (fun _ w' => 0 = (db_hear payload x).2 /\ repr w' (db_hear payload x).1) w.
Proof.
  unfold mesh_recv, db_hear. destruct (row_fields payload) as [[[[[zid h] nm] fqn] port]|]; [|by intros; wstep]. intros [Hz Hnm] Hrep. destruct x as [d e]. wstep. unfold on_env, wp at 1. destruct Hrep as (R & N & HL & HH & Hnx & He). cbn [fst snd] in *. subst e. destruct (mesh_zid (env w)) as [e own]. cbn [env set_env].
  assert (Hrep : repr (set_env e w) (d, e)) by (exists R, N; split; [by apply lists_env|done]). destruct (match own with Some own => _ | None => _ end); [wstep; by split|].
  wstep. eapply wp_mono; [by apply (nbr_add_ok zid h _ _ (d, e))|]. intros id w1 [-> Hrep1]. destruct (db_add zid h _ (d, e)) as [x1 id]. cbn [fst snd] in *. destruct (0 <? id); [|wstep; by split].
  wstep. eapply wp_mono; [by apply (seen_ok zid)|]. intros rc w2 [_ Hrep2]. wstep. eapply wp_mono; [by apply (remote_ok nm)|]. intros rc2 w3 [_ Hrep3]. wstep. by split.
Qed.

(** ** Calls in any order *)

Inductive call := Register (s : service) | Remote (name fqn : list Z) (port id : Z) | DropPeer (id : Z) | Add (zid h : list Z) (cp : Z) | Seen (zid : list Z) | Drop (zid : list Z) | Reap (timeout : Z) | Hear (payload : list Z).
Definition do_call (c : call) : @Services.W E Z :=
  match c with
  | Register s => pm_metal_services_register (Some s)
  | Remote nm fqn port id => pm_metal_services_register_remote (Some nm) (Some fqn) port id
  | DropPeer id => pm_metal_services_drop_peer id
  | Add zid h cp => pm_metal_neighbors_add (Some zid) (Some h) cp
  | Seen zid => pm_metal_neighbors_seen (Some zid)
  | Drop zid => pm_metal_neighbors_drop (Some zid)
  | Reap timeout => pm_metal_neighbors_reap timeout
  | Hear payload => mesh_recv ulong_max payload ;; ret 0
  end.
Fixpoint do_calls (l : list call) : @Services.W E (list Z) := match l with [] => ret [] | c :: t => r <- do_call c ;; rs <- do_calls t ;; ret (r :: rs) end.

Definition db_call (c : call) : db * E -> (db * E) * Z :=
  match c with
  | Register s => db_register s | Remote nm fqn port id => db_remote nm fqn port id | DropPeer id => db_drop_peer id | Add zid h cp => db_add zid h cp
  | Seen zid => db_seen zid | Drop zid => db_drop zid | Reap timeout => db_reap timeout | Hear payload => db_hear payload
  end.
Fixpoint db_calls (l : list call) (x : db * E) : (db * E) * list Z := match l with [] => (x, []) | c :: t => let '(x, r) := db_call c x in let '(x, rs) := db_calls t x in (x, r :: rs) end.

(** Names and identities that the fields hold whole. *)
Definition tidy (c : call) : Prop :=
  match c with
  | Remote nm _ _ _ => zlen nm < 64
  | Add zid _ _ => zlen zid < 128
  | Hear payload => match row_fields payload with Some (zid, _, nm, _, _) => zlen zid < 128 /\ zlen nm < 64 | None => True end
  | _ => True
  end.

Lemma call_ok c w x : tidy c -> repr w x -> wp (do_call c) (fun rc w' => rc = (db_call c x).2 /\ repr w' (db_call c x).1) w.
Proof.
  intros Ht Hr. destruct c; cbn [do_call db_call tidy] in *; [by apply register_ok|by apply remote_ok|by apply drop_peer_ok|by apply nbr_add_ok|by apply seen_ok|by apply nbr_drop_ok|by apply reap_ok|].
  wstep. eapply wp_mono; [by apply (hear_ok _ _ x)|]. intros _ w' [E0 H]. wstep. by split.
Qed.
Lemma calls_ok l w x : Forall tidy l -> repr w x -> wp (do_calls l) (fun rs w' => rs = (db_calls l x).2 /\ repr w' (db_calls l x).1) w.
Proof.
  revert w x. induction l as [|c l IH]; intros w x Ht Hr; cbn [do_calls db_calls]; [by wstep|]. apply Forall_cons in Ht as [Hc Ht]. wstep. eapply wp_mono; [by apply (call_ok c w x)|]. intros r w1 [-> Hr1]. destruct (db_call c x) as [x1 r]. cbn [fst snd] in *.
  wstep. eapply wp_mono; [by apply (IH w1 x1)|]. intros rs w2 [-> Hr2]. wstep. by destruct (db_calls l x1) as [x2 rs].
Qed.

(** *** With names of any length *)

Definition kind_ok (r : record) : Prop := (flags r = PM_METAL_SERVICE_LOCAL /\ is_Some (svc r)) \/ flags r = PM_METAL_SERVICE_REMOTE.
(** The seat's own services are still there. *)
Definition keeps_own (cap : nat) (R : list record) w : Prop := exists R' N', lists w cap R' N' /\ Forall kind_ok R' /\ omap local_of R ⊆+ omap local_of R'.

Lemma keeps_own_trans cap R R1 N1 w (m : @Services.W E Z) : lists w cap R1 N1 -> Forall kind_ok R1 -> omap local_of R ⊆+ omap local_of R1 -> wp m (fun _ w' => keeps_own cap R1 w') w -> wp m (fun _ w' => keeps_own cap R w') w.
Proof. intros HL Hk Hs Hm. eapply wp_mono; [exact Hm|]. intros r w' (R2 & N2 & H2 & Hk2 & Hs2). exists R2, N2. split; [done|]. split; [done|]. by etrans. Qed.

Lemma own_same cap R N w : lists w cap R N -> Forall kind_ok R -> keeps_own cap R w.
Proof. intros. by exists R, N. Qed.
Lemma own_register s w cap R N : lists w cap R N -> Forall kind_ok R -> wp (pm_metal_services_register (Some s)) (fun _ => keeps_own cap R) w.
Proof.
  intros HL Hk. destruct (given s) eqn:Es; [|unfold pm_metal_services_register; rewrite Es; cbn [negb]; wstep; by eapply own_same]. eapply wp_mono; [by apply (register_wp w cap R N s)|]. cbv beta. intros rc w' [_ Hif].
  destruct (cap <=? length R)%nat; destruct Hif as [_ HL']; [by eapply own_same|]. eexists _, N. split; [exact HL'|]. split; [apply Forall_app; split; [done|]; constructor; [left; split; [done|by eexists]|done]|]. rewrite omap_app. by apply submseteq_inserts_r.
Qed.
Lemma own_remote nm fqn port id w cap R N : lists w cap R N -> Forall kind_ok R -> wp (pm_metal_services_register_remote (Some nm) (Some fqn) port id) (fun _ => keeps_own cap R) w.
Proof.
  intros HL Hk. eapply wp_mono; [by apply (remote_wp w cap R N)|]. intros rc w' (R' & Eup & _ & HL'). exists R', N. split; [done|]. revert Eup. unfold up_remote. destruct (id =? 0); [by intros [= -> _]|]. destruct (ix (is_row id nm) R) as [i|] eqn:Ei.
  - intros [= -> _]. apply ix_Some in Ei as (a & r & b & -> & <- & Hf & _). rewrite alter_app_r_alt, Nat.sub_diag by lia. cbn [alter list_alter]. apply Forall_app in Hk as [Hk1 Hk]. apply Forall_cons in Hk as [Hkr Hk2].
    unfold is_row in Hf. apply andb_true_iff in Hf as [[Hf _]%andb_true_iff _]. destruct Hkr as [[Hfl _]|Hfl]; [apply local_row in Hfl as [Hfl _]; congruence|]. set (r' := Rec _ _ _ _ _ _). assert (Hfl' : flags r' = PM_METAL_SERVICE_REMOTE) by done.
    split; [apply Forall_app; split; [done|]; constructor; [by right|done]|]. rewrite !omap_app. cbn [omap list_omap]. destruct (remote_row r Hfl) as (_ & _ & ->). by destruct (remote_row r' Hfl') as (_ & _ & ->).
  - destruct (cap <=? length R)%nat; [by intros [= -> _]|]. intros [= -> _]. split; [apply Forall_app; split; [done|]; constructor; [by right|done]|]. rewrite omap_app. by apply submseteq_inserts_r.
Qed.
Lemma own_filter id R R' : Forall kind_ok R -> R' ≡ₚ filter (fun r => of_peer id r = false) R -> Forall kind_ok R' /\ omap local_of R ⊆+ omap local_of R'.
Proof.
  intros Hk HR. split; [rewrite HR; apply Forall_forall; intros r [_ Hin]%list_elem_of_filter; rewrite Forall_forall in Hk; by apply Hk|]. rewrite HR. clear HR R'. induction Hk as [|r R Hr HR IH]; [done|]. destruct Hr as [[Hf _]|Hf].
  - destruct (local_row r Hf) as (E1 & _ & E3). rewrite filter_cons_True by (unfold of_peer; by rewrite E1). cbn [omap list_omap]. rewrite E3. destruct (svc r); [by apply submseteq_skip|done].
  - destruct (remote_row r Hf) as (_ & _ & E3). cbn [omap list_omap]. rewrite E3. rewrite filter_cons. destruct (decide _); [|done]. cbn [omap list_omap]. by rewrite E3.
Qed.
Lemma own_drop_peer id w cap R N : lists w cap R N -> Forall kind_ok R -> wp (pm_metal_services_drop_peer id) (fun _ => keeps_own cap R) w.
Proof.
  intros HL Hk. eapply wp_mono; [by apply (drop_peer_wp w cap R N)|]. intros rc w' (R' & _ & HL' & Hif). exists R', N. split; [done|]. destruct (id =? 0); destruct Hif as [_ HR]; [by subst R'|by eapply own_filter].
Qed.
Lemma own_add zid h cp w cap R N : lists w cap R N -> Forall kind_ok R -> wp (pm_metal_neighbors_add (Some zid) (Some h) cp) (fun _ => keeps_own cap R) w.
Proof.
  intros HL Hk. eapply wp_mono; [by apply (add_wp w cap R N)|]. cbv beta. intros rc w'. destruct (up_peer _ _ _ _ _ _) as [[N' id]|]; [intros (_ & HL' & _); by eapply own_same|intros [_ ->]; by eapply own_same].
Qed.
Lemma own_seen zid w cap R N : lists w cap R N -> Forall kind_ok R -> wp (pm_metal_neighbors_seen (Some zid)) (fun _ => keeps_own cap R) w.
Proof.
  intros HL Hk. eapply wp_mono; [by apply (seen_wp w cap R N)|]. cbv beta. intros rc w'. destruct (up_seen _ _ _) as [[N' id]|]; [intros (_ & HL' & _); by eapply own_same|intros [_ ->]; by eapply own_same].
Qed.
Lemma own_drop zid w cap R N : lists w cap R N -> Forall kind_ok R -> wp (pm_metal_neighbors_drop (Some zid)) (fun _ => keeps_own cap R) w.
Proof.
  intros HL Hk. eapply wp_mono; [by apply (ndrop_wp w cap R N)|]. cbv beta. intros rc w' (_ & _ & H). destruct (ix _ N); [destruct H as (_ & N' & HL' & _); by eapply own_same|destruct H as [_ ->]; by eapply own_same].
Qed.
Lemma own_reap_loop fuel timeout now i k w cap R N : lists w cap R N -> Forall kind_ok R -> (length N - i <= fuel)%nat -> wp (reap_loop fuel timeout now i k) (fun _ => keeps_own cap R) w.
Proof.
  revert i k w R N. induction fuel as [|fuel IH]; intros i k w R N HL Hk Hf; cbn [reap_loop]; wstep; wstep; rewrite <- (ls_nn _ _ _ _ HL); (destruct (Nat.leb_spec (length N) i) as [Hle|Hlt]; [wstep; by eapply own_same|try lia]).
  wstep. wstep. destruct (lookup_lt_is_Some_2 N i Hlt) as [nb Hnb]. assert (Hfit : (s_nn w <= length (s_neighbors w))%nat) by (rewrite <- (ls_nn _ _ _ _ HL), <- (ls_N _ _ _ _ HL), length_take; lia).
  destruct (peer_at w N i nb Hfit (ls_N _ _ _ _ HL) Hnb) as [Hnb' _]. wstep. apply (wp_chk _ nb); [done|]. destruct (stale timeout now nb); cbn [negb]; [|eapply IH; [done..|lia]].
  wstep. eapply wp_mono; [by apply (drop_peer_wp w cap R N)|]. intros rc w1 (R1 & Ew1 & HL1 & Hif). assert (HR1 : Forall kind_ok R1 /\ omap local_of R ⊆+ omap local_of R1) by (destruct (nb_id nb =? 0); destruct Hif as [_ HR]; [by subst R1|by eapply own_filter]). destruct HR1 as [Hk1 Hs1].
  wstep. replace (length N) with (s_nn w1) by (rewrite Ew1; cbn; symmetry; apply (ls_nn _ _ _ _ HL)). replace (s_neighbors w) with (s_neighbors w1) by by rewrite Ew1. eapply wp_mono; [by apply (take_out_wp w1 cap R1 N)|]. intros l w2 (-> & N' & HL2 & _ & Hp). wstep. wstep.
  eapply keeps_own_trans; [exact HL2|exact Hk1|exact Hs1|]. apply (IH _ _ _ R1 N' HL2 Hk1). rewrite Hp, length_app, length_take, length_drop. lia.
Qed.
Lemma own_call c w cap R N : lists w cap R N -> Forall kind_ok R -> wp (do_call c) (fun _ => keeps_own cap R) w.
Proof.
  intros HL Hk. destruct c; cbn [do_call]; [by eapply own_register|by eapply own_remote|by eapply own_drop_peer|by eapply own_add|by eapply own_seen|by eapply own_drop| |].
  - unfold pm_metal_neighbors_reap. wstep. unfold on_env, wp at 1. destruct (mesh_us (env w)) as [e t]. wstep. wstep. eapply own_reap_loop; [by apply lists_env|done|]. cbn. rewrite (ls_nn _ _ _ _ HL). lia.
  - wstep. unfold mesh_recv. destruct (row_fields payload) as [[[[[zid h] nm] fqn] port]|]; [|wstep; wstep; by eapply own_same]. wstep. unfold on_env, wp at 1. destruct (mesh_zid (env w)) as [e own]. apply (lists_env e) in HL. destruct (match own with Some own => _ | None => _ end); [wstep; wstep; by eapply own_same|].
    wstep. eapply wp_mono; [by eapply own_add|]. intros id w1 (R1 & N1 & HL1 & Hk1 & Hs1). destruct (0 <? id); [|wstep; wstep; by exists R1, N1].
    wstep. eapply wp_mono; [by eapply own_seen|]. intros rc w2 (R2 & N2 & HL2 & Hk2 & Hs2). wstep. eapply wp_mono; [by eapply own_remote|]. intros rc2 w3 (R3 & N3 & HL3 & Hk3 & Hs3). wstep. wstep. exists R3, N3. split; [done|]. split; [done|]. by do 2 (etrans; [eassumption|]).
Qed.
Lemma own_calls l w cap R N : lists w cap R N -> Forall kind_ok R -> wp (do_calls l) (fun _ => keeps_own cap R) w.
Proof.
  revert w R N. induction l as [|c l IH]; intros w R N HL Hk; cbn [do_calls]; [wstep; by eapply own_same|]. wstep. eapply wp_mono; [by eapply own_call|]. intros r w1 (R1 & N1 & HL1 & Hk1 & Hs1). wstep. eapply wp_mono; [by eapply IH|]. intros rs w2 (R2 & N2 & HL2 & Hk2 & Hs2). wstep.
  exists R2, N2. split; [done|]. split; [done|]. by etrans.
Qed.
End db.
End MeshDb.
