(* ===== verification/MeshNet.v ===== *)
(** * Seats on a mesh

    What one seat publishes and another hears, in whatever order and however
    often; what the registry is under any calls; and what is left behind. *)
From S2P Require Import Prelude Services MeshDb.

Module MeshNet.
Import Store Decimal Services ServicesSpec MeshDb.
Local Open Scope metal_scope.

(** ** A session *)

(** The clock's readings, the identity, what was put on the air, and the peers
    that answer a scout. *)
Record air := Air { a_us : nat -> Z; a_tick : nat; my_zid : option (list Z); sent : list (list Z * list Z); about : list (list Z) }.
#[export] Instance air_ops : MeshOps air := {|
  mesh_us a := (Air (a_us a) (S (a_tick a)) (my_zid a) (sent a) (about a), a_us a (a_tick a));
  mesh_zid a := (a, my_zid a);
  mesh_subscribe a := (a, 1);
  mesh_put k p a := (Air (a_us a) (a_tick a) (my_zid a) (sent a ++ [(k, p)]) (about a), 1);
  mesh_scout a := match about a with z :: t => (Air (a_us a) (a_tick a) (my_zid a) (sent a) t, Some z) | [] => (a, None) end;
  mesh_alloc _ a := (a, true); scan_coro a := (a, 1); scan_task _ a := (a, 1); scan_free _ a := a; scan_reclaim _ a := a; scan_sleep _ a := (a, 1) |}.
Abbreviation W := (@mesh air).
Abbreviation service := (@Services.service air).
Abbreviation record := (@Services.record air).

(** ** A row and its fields *)

Definition plain (s : list Z) : Prop := s <> [] /\ Forall (fun c => c <> BAR /\ c <> 0) s.

Lemma token_plain s r : plain s -> strtok (s ++ BAR :: r) = Some (s, r).
Proof.
  intros [Hne Hs]. unfold strtok. assert (E : skip_bars (s ++ BAR :: r) = s ++ BAR :: r) by (destruct s as [|c s]; [done|]; apply Forall_cons in Hs as [[Hc _] _]; cbn; by rewrite (proj2 (Z.eqb_neq _ _) Hc)).
  rewrite E. destruct (s ++ BAR :: r) eqn:E2; [by destruct s|]. rewrite <- E2. f_equal. clear -Hs. induction Hs as [|c s [Hc _] Hs IH]; cbn; [done|]. by rewrite (proj2 (Z.eqb_neq _ _) Hc), IH.
Qed.
Lemma token_last s : plain s -> strtok s = Some (s, []).
Proof.
  intros [Hne Hs]. unfold strtok. assert (E : skip_bars s = s) by (destruct s as [|c s]; [done|]; apply Forall_cons in Hs as [[Hc _] _]; cbn; by rewrite (proj2 (Z.eqb_neq _ _) Hc)).
  rewrite E. destruct s as [|c0 s0] eqn:E2; [done|]. rewrite <- E2 in *. f_equal. clear -Hs. induction Hs as [|c s [Hc _] Hs IH]; cbn; [done|]. by rewrite (proj2 (Z.eqb_neq _ _) Hc), IH.
Qed.
Lemma c_string_id s : Forall (fun c => c <> 0) s -> c_string s = s.
Proof. induction 1 as [|c s Hc Hs IH]; cbn; [done|]. by rewrite (proj2 (Z.eqb_neq _ _) Hc), IH. Qed.

Lemma dec_plain n : 0 <= n -> plain (dec 10 n).
Proof.
  intros Hn. destruct (dec_first 10 n Hn) as (c & r & E & _); [done|]. split; [by rewrite E|]. eapply Forall_impl; [by apply dec_digits|]. intros d Hd. unfold is_digit in Hd. apply andb_true_iff in Hd as [H1%Z.leb_le H2%Z.leb_le]. unfold BAR. lia.
Qed.
Lemma hex_plain z : z <> [] -> Forall (fun b => 0 <= b < 256) z -> plain (zid_hex z).
Proof.
  intros Hne Hz. split; [by destruct z|]. unfold zid_hex. induction Hz as [|b z Hb Hz IH]; [done|]. assert (Hd : forall x, 0 <= x < 16 -> hex_digit x <> BAR /\ hex_digit x <> 0) by (intros x Hx; unfold hex_digit, BAR; destruct (Z.ltb_spec x 10); lia).
  cbn [flat_map app]. constructor; [apply Hd; rewrite Z.shiftr_div_pow2 by lia; change (2 ^ 4) with 16; mlia|]. constructor; [apply Hd; change 15 with (2 ^ 4 - 1); rewrite land_ones_mod by lia; change (2 ^ 4) with 16; mlia|]. destruct z; [done|]. by apply IH.
Qed.

Lemma strtoul_dec max n : 0 <= n <= max -> n < 10000000000 -> strtoul max (dec 10 n) = n.
Proof.
  intros Hn Hs. destruct (dec_first 10 n) as (c & r & E & Hc); [lia|done|]. assert (Hv : digits 0 (dec 10 n) = n) by (apply dec_value; change (10 ^ Z.of_nat 10) with 10000000000; lia). rewrite E in *. unfold is_digit in Hc. apply andb_true_iff in Hc as [H1%Z.leb_le H2%Z.leb_le].
  unfold strtoul. cbn [skip_space]. unfold is_space. rewrite (proj2 (Z.eqb_neq c 32)), (proj2 (Z.leb_gt c 13)) by lia. rewrite andb_false_r. cbn [orb]. rewrite (proj2 (Z.eqb_neq c 45)), (proj2 (Z.eqb_neq c 43)) by lia. rewrite Hv. by rewrite (proj2 (Z.ltb_ge _ _)) by lia.
Qed.

(** What [snprintf] writes, [strtok_r] takes apart. *)
Lemma row_round_trip zh h nm fqn port : plain zh -> plain h -> plain nm -> plain fqn -> 0 <= port -> zlen (row_text zh h nm fqn port) < 384 -> row_fields (row_text zh h nm fqn port) = Some (zh, h, nm, fqn, dec 10 port).
Proof.
  intros Hz Hh Hn Hf Hp Hl. unfold row_fields. destruct (Z.eqb_spec (zlen (row_text zh h nm fqn port)) 0) as [H0|_]; [exfalso; unfold row_text in H0; rewrite length_app in H0; cbn in H0; lia|]. rewrite (proj2 (Z.leb_gt _ _)) by lia. cbn [orb].
  assert (E : c_string (row_text zh h nm fqn port) = row_text zh h nm fqn port).
  { apply c_string_id. unfold row_text. assert (Hx : forall s, plain s -> Forall (fun c => c <> 0) s) by (intros s [_ Hs]; eapply Forall_impl; [exact Hs|naive_solver]). pose proof (dec_plain port Hp). repeat (apply Forall_app; split; [by apply Hx|]; constructor; [done|]). by apply Hx. }
  rewrite E. unfold row_text. rewrite token_plain by done. cbn [mbind option_bind]. rewrite token_plain by done. cbn [mbind option_bind]. rewrite token_plain by done. cbn [mbind option_bind]. rewrite token_plain by done. cbn [mbind option_bind]. by rewrite token_last by by apply dec_plain.
Qed.

(** ** Publishing *)

Definition nm_of (s : service) : list Z := default [] (sv_name s).
Definition fqn_of (s : service) : list Z := default [] (sv_fqn s).
Definition row_of (z h : list Z) (s : service) : list Z := row_text (zid_hex z) h (nm_of s) (fqn_of s) (default_port s).
(** A service whose row a peer can keep whole. *)
Definition publishable (z h : list Z) (s : service) : Prop :=
  is_Some (sv_name s) /\ is_Some (sv_fqn s) /\ plain (nm_of s) /\ plain (fqn_of s) /\ zlen (nm_of s) < 64 /\ zlen (fqn_of s) < 128 /\ 0 <= default_port s < 65536 /\ zlen (row_of z h s) < 384.

Definition air_put (l : list (list Z * list Z)) (a : air) : air := Air (a_us a) (a_tick a) (my_zid a) (sent a ++ l) (about a).
Lemma publish_loop_wp n i z h rc (w : W) p : s_svcs w = Some p -> (i + n <= length p)%nat -> s_mesh_host w = h -> Forall kind_ok (take n (drop i p)) -> Forall (publishable z h) (omap local_of (take n (drop i p))) ->
  wp (publish_loop n i (zid_hex z) rc) (fun r w' => r = rc /\ w' = set_env (air_put ((fun s => (KEY ++ zid_hex z, row_of z h s)) <$> omap local_of (take n (drop i p))) (env w)) w) w.
Proof.
  revert i w. induction n as [|n IH]; intros i w Hp Hl Hh Hk Hpub; cbn [publish_loop].
  - wstep. split; [done|]. rewrite take_0. unfold air_put. cbn. rewrite app_nil_r. by destruct w as [[] ? ? ? ? ? ? ? ? ? ? ? ?].
  - destruct (lookup_lt_is_Some_2 p i ltac:(lia)) as [r Hr]. rewrite (drop_S _ _ _ Hr) in *. cbn [take omap list_omap] in *. apply Forall_cons in Hk as [Hkr Hk]. wstep. wstep. rewrite Hp. wstep. apply (wp_chk _ p); [done|]. wstep. apply (wp_chk _ r); [done|].
    destruct Hkr as [[Hfl [s Hs]]|Hfl].
    + assert (El : is_flag r PM_METAL_SERVICE_LOCAL = true) by (unfold is_flag; by rewrite Hfl). destruct (local_row r Hfl) as (_ & _ & E3). rewrite E3, Hs in *. rewrite El. cbn [negb]. apply Forall_cons in Hpub as [Hps Hpub]. destruct Hps as ([nm Hnm] & [fq Hfq] & _ & _ & _ & _ & _ & Hlen).
      wstep. wstep. wstep. apply (wp_chk _ nm); [done|]. wstep. apply (wp_chk _ fq); [done|]. cbv zeta. assert (Erow : row_text (zid_hex z) (s_mesh_host w) nm fq (default_port s) = row_of z h s) by (unfold row_of, nm_of, fqn_of; by rewrite Hnm, Hfq, Hh).
      rewrite Erow, (proj2 (Z.leb_gt _ _)) by lia. wstep. unfold on_env, wp at 1. cbn [mesh_put air_ops]. change (1 =? 1) with true. cbv iota. eapply wp_mono; [apply (IH (S i)); try done; lia|]. intros r' w' [-> ->]. split; [done|]. unfold air_put. cbn [env set_env sent a_us a_tick my_zid about fmap list_fmap]. rewrite <- app_assoc. done.
    + assert (El : is_flag r PM_METAL_SERVICE_LOCAL = false) by (unfold is_flag; by rewrite Hfl). destruct (remote_row r Hfl) as (_ & _ & E3). rewrite E3 in *. rewrite El. cbn [negb]. apply IH; try done. lia.
Qed.
Lemma publish_wp cap R N z (w : W) : lists w cap R N -> Forall kind_ok R -> s_mesh_started w = true -> my_zid (env w) = Some z -> Forall (publishable z (s_mesh_host w)) (omap local_of R) ->
  wp pm_metal_services_publish_all (fun rc w' => rc = 0 /\ sent (env w') = sent (env w) ++ ((fun s => (KEY ++ zid_hex z, row_of z (s_mesh_host w) s)) <$> omap local_of R)) w.
Proof.
  intros HL Hk Hst Hz Hpub. destruct HL as [(p & Ep & Hc & Hp) Hn _ _ _]. assert (Hfit : (s_nsvc w <= length p)%nat) by (rewrite <- Hn, <- Hp, length_take; lia). unfold pm_metal_services_publish_all. wstep. wstep. rewrite Hst. cbn [negb]. wstep. unfold on_env, wp at 1. cbn [mesh_zid air_ops]. rewrite Hz.
  wstep. wstep. eapply wp_mono; [apply (publish_loop_wp _ 0 z (s_mesh_host w) 0 _ p)|]; rewrite ?drop_0; cbn [s_svcs s_nsvc s_mesh_host set_env]; rewrite ?Hp; try done. intros r w' [-> ->]. done.
Qed.

(** ** Hearing *)

Section hearing.
Variables (max : Z) (z h own : list Z).
Hypothesis Hmax : 65536 <= max.
Hypothesis Hz : z <> [] /\ Forall (fun b => 0 <= b < 256) z /\ zlen z <= 16.
Hypothesis Hh : plain h /\ zlen h < 64.
Hypothesis Hown : zid_hex own <> zid_hex z.
Abbreviation zh := (zid_hex z).
Implicit Types (d : @db air) (e : air).

Definition known d (id : Z) : Prop := (exists p, d_peers d !! zh = Some p /\ p_id p = id) \/ (d_peers d !! zh = None /\ (size (d_peers d) < PM_METAL_NEIGHBORS_MAX)%nat /\ id = d_next d).
Definition seen_as d (id : Z) : Prop := exists p, d_peers d !! zh = Some p /\ p_id p = id /\ p_host p = h.

Lemma hear_row s d e id : publishable z h s -> my_zid e = Some own -> known d id -> 0 < id < 2147483648 -> d_rows d !! (id, nm_of s) <> None \/ (used d < d_cap d)%nat ->
  exists d' e', (db_hear max (row_of z h s) (d, e)).1 = (d', e') /\ my_zid e' = Some own /\ seen_as d' id /\ d_cap d' = d_cap d /\ d_locals d' = d_locals d /\ d_rows d' = <[(id, nm_of s) := (fqn_of s, default_port s)]> (d_rows d).
Proof.
  intros (_ & _ & Pn & Pf & Ln & Lf & Hport & Hlen) He Hk Hid Hroom. destruct Hz as (Hz1 & Hz2 & Hz3). destruct Hh as [Ph Lh]. unfold db_hear, row_of. rewrite row_round_trip; [|by apply hex_plain|done|done|done|lia|done]. cbn [mesh_zid air_ops]. rewrite He, bool_decide_false by done.
  assert (Hi : i32 id = id) by (unfold i32; destruct (Z.ltb_spec id 2147483648); lia). unfold db_add. cbn [mesh_us air_ops].
  assert (Hrem : forall d1 e1, d_rows d1 = d_rows d -> d_cap d1 = d_cap d -> d_locals d1 = d_locals d -> (db_remote (nm_of s) (fqn_of s) (u16 (strtoul max (dec 10 (default_port s)))) id (d1, e1)).1 = (set_rows (<[(id, nm_of s) := (fqn_of s, default_port s)]> (d_rows d1)) d1, e1)).
  { intros d1 e1 E1 E2 E3. unfold db_remote. rewrite (proj2 (Z.eqb_neq id 0)) by lia. rewrite strtoul_dec, u16_small, (strncpy_short 128) by lia. destruct (bool_decide (d_rows d1 !! (id, nm_of s) = None) && (d_cap d1 <=? used d1)%nat) eqn:Eb; [|done]. exfalso.
    apply andb_true_iff in Eb as [Eb1%bool_decide_eq_true Eb2%Nat.leb_le]. unfold used in *. rewrite E1, E2, E3 in *. destruct Hroom; [done|lia]. }
  destruct Hk as [(p & Ep & Epid)|(En & Hsz & Enx)].
  - rewrite Ep, Epid. rewrite Hi, (proj2 (Z.ltb_lt 0 id)) by lia. unfold db_seen. cbn [mesh_us air_ops d_peers set_peers]. rewrite lookup_insert_eq. cbn [fst p_id p_host p_caps]. rewrite Hrem by done. eexists _, _. split; [reflexivity|]. repeat split; try done. eexists. cbn [d_peers set_rows set_peers]. rewrite lookup_insert_eq. split; [reflexivity|]. split; [done|]. by apply strncpy_short.
  - rewrite En. destruct (PM_METAL_NEIGHBORS_MAX <=? size (d_peers d))%nat eqn:Esz; [apply Nat.leb_le in Esz; lia|]. rewrite <- Enx, Hi, (proj2 (Z.ltb_lt 0 id)) by lia. unfold db_seen. cbn [mesh_us air_ops d_peers set_peers]. rewrite lookup_insert_eq. cbn [fst p_id p_host p_caps]. rewrite Hrem by done. eexists _, _. split; [reflexivity|]. repeat split; try done. eexists. cbn [d_peers set_rows set_peers]. rewrite lookup_insert_eq. split; [reflexivity|]. split; [done|]. by apply strncpy_short.
Qed.

(** Services without a row yet. *)
Definition missing (L : list service) d (id : Z) : nat := length (filter (fun s => d_rows d !! (id, nm_of s) = None) L).

Lemma filter_less {A} (P Q : A -> Prop) `{!forall x, Decision (P x)} `{!forall x, Decision (Q x)} (l : list A) : (forall x, Q x -> P x) ->
  (length (filter Q l) <= length (filter P l))%nat /\ forall x, x ∈ l -> P x -> ~ Q x -> (S (length (filter Q l)) <= length (filter P l))%nat.
Proof.
  intros HQP. induction l as [|y l [IH1 IH2]]; [split; [done|]; intros x Hx; by apply elem_of_nil in Hx|]. rewrite !filter_cons. split.
  - destruct (decide (Q y)) as [Hq|Hq], (decide (P y)) as [Hp|Hp]; cbn [length]; try lia. by apply HQP in Hq.
  - intros x [->|Hx]%elem_of_cons Hpx Hqx; [rewrite decide_False, decide_True by done; cbn [length]; lia|]. specialize (IH2 x Hx Hpx Hqx). destruct (decide (Q y)) as [Hq|Hq], (decide (P y)) as [Hp|Hp]; cbn [length]; try lia. by apply HQP in Hq.
Qed.

Lemma hear_all L id l d e : Forall (publishable z h) L -> NoDup (nm_of <$> L) -> (forall s, s ∈ l -> s ∈ L) -> my_zid e = Some own -> known d id -> 0 < id < 2147483648 -> (used d + missing L d id <= d_cap d)%nat ->
  exists d' e', (db_calls max ((fun s => Hear (row_of z h s)) <$> l) (d, e)).1 = (d', e') /\ (l <> [] -> seen_as d' id) /\
    forall s, s ∈ L -> s ∈ l \/ d_rows d !! (id, nm_of s) = Some (fqn_of s, default_port s) -> d_rows d' !! (id, nm_of s) = Some (fqn_of s, default_port s).
Proof.
  intros HL Hnd. revert d e. induction l as [|s l IH]; intros d e Hin He Hk Hid Hroom.
  - exists d, e. split; [done|]. split; [done|]. intros s Hs [Hs'|Hs']; [by apply elem_of_nil in Hs'|done].
  - assert (HsL : s ∈ L) by (apply Hin; by left). assert (Hps : publishable z h s) by (by eapply Forall_forall).
    assert (Hone : d_rows d !! (id, nm_of s) <> None \/ (used d < d_cap d)%nat).
    { destruct (d_rows d !! (id, nm_of s)) eqn:Er; [by left|right]. destruct (filter_less (fun x => d_rows d !! (id, nm_of x) = None) (fun _ => False) L ltac:(done)) as [_ Hless]. specialize (Hless s HsL Er (fun f => f)). unfold missing in Hroom. lia. }
    destruct (hear_row s d e id Hps He Hk Hid Hone) as (d1 & e1 & E1 & He1 & Hs1 & Hc1 & Hl1 & Hr1). rewrite fmap_cons. cbn [db_calls]. cbn [db_call]. destruct (db_hear max (row_of z h s) (d, e)) as [x1 r1]. cbn [fst] in E1. subst x1.
    assert (Hroom1 : (used d1 + missing L d1 id <= d_cap d1)%nat).
    { rewrite Hc1. unfold used, missing in *. rewrite Hl1, Hr1. destruct (filter_less (fun x => d_rows d !! (id, nm_of x) = None) (fun x => <[(id, nm_of s) := (fqn_of s, default_port s)]> (d_rows d) !! (id, nm_of x) = None) L) as [Hle Hlt].
      { intros x Hx. by apply lookup_insert_None in Hx as [? _]. }
      destruct (d_rows d !! (id, nm_of s)) eqn:Er; [rewrite map_size_insert_Some by done; lia|]. rewrite map_size_insert_None by done. specialize (Hlt s HsL Er). rewrite lookup_insert_eq in Hlt. specialize (Hlt ltac:(congruence)). lia. }
    destruct Hs1 as (p & Ep & Epid & Eph). assert (Hk1 : known d1 id) by (left; by exists p). destruct (IH d1 e1 ltac:(intros; apply Hin; by right) He1 Hk1 Hid Hroom1) as (d2 & e2 & E2 & Hs2 & Hr2). destruct (db_calls max _ (d1, e1)) as [x2 rs2] eqn:Ec. cbn [fst] in E2. subst x2. exists d2, e2. split; [done|]. split.
    + intros _. destruct l as [|s2 l]; [|by apply Hs2]. cbn in Ec. injection Ec as <- <- _. by exists p.
    + intros s' Hs' Hor. apply Hr2; [done|]. rewrite Hr1. destruct (decide (nm_of s' = nm_of s)) as [En|En].
      * assert (s' = s) as -> by (apply list_elem_of_lookup in Hs' as [i Hi]; apply list_elem_of_lookup in HsL as [j Hj]; assert (i = j) as -> by (eapply (NoDup_lookup _ i j (nm_of s)); [exact Hnd|by rewrite list_lookup_fmap, Hi, <- En|by rewrite list_lookup_fmap, Hj]); congruence). right. by rewrite lookup_insert_eq.
      * rewrite lookup_insert_ne by congruence. destruct Hor as [[->|Hor]%elem_of_cons|Hor]; [done|by left|by right].
Qed.
End hearing.

(** ** What a seat answers *)

Lemma record_at_wp cap R N i r (w : W) (Q : option record -> W -> Prop) : lists w cap R N -> R !! i = Some r -> Q (Some r) w -> wp (pm_metal_services_record_at i) Q w.
Proof.
  intros [(p & Ep & Hc & Hp) Hn _ _ _] Hr HQ. pose proof (lookup_lt_Some _ _ _ Hr) as Hlt. unfold pm_metal_services_record_at. wstep. wstep. rewrite (proj2 (Nat.leb_gt _ _)) by lia. wstep. wstep. rewrite Ep. wstep. apply (wp_chk _ r); [|by wstep].
  rewrite <- Hp in Hr. rewrite lookup_take_lt in Hr by lia. done.
Qed.

(** Entry [i] is a service [s] of peer [id], and an entry of the peers is [id] at host [h]. *)
Definition offers (w : W) (z h : list Z) (id : Z) (L : list service) : Prop :=
  (exists j nb, wp (pm_metal_neighbors_at j) (fun o w' => o = Some nb /\ w' = w) w /\ zenoh_id nb = zid_hex z /\ host nb = h /\ nb_id nb = id) /\
  forall s, s ∈ L -> exists i, wp (pm_metal_services_peer_of i) (fun a w' => a = id /\ w' = w) w /\ wp (pm_metal_services_name i) (fun o w' => o = Some (nm_of s) /\ w' = w) w /\
    wp (pm_metal_services_fqn i) (fun o w' => o = Some (fqn_of s) /\ w' = w) w /\ wp (pm_metal_services_port i) (fun a w' => a = default_port s /\ w' = w) w.

Lemma offers_repr w d e z h id L : repr w (d, e) -> seen_as z h d id -> (forall s, s ∈ L -> d_rows d !! (id, nm_of s) = Some (fqn_of s, default_port s)) -> offers w z h id L.
Proof.
  intros (R & N & HL & HH & _ & _) (p & Ep & Eid & Eh) Hrows. cbn [fst] in *. destruct HH as [Hr Hn Hg Hp Hnp Ha Hl]. split.
  - rewrite Hp in Ep. apply elem_of_list_to_map in Ep; [|done]. apply list_elem_of_fmap in Ep as (nb & [= Ez ->] & Hin). apply list_elem_of_lookup in Hin as [j Hj]. exists j, nb. split; [|done].
    assert (Hfit : (s_nn w <= length (s_neighbors w))%nat) by (rewrite <- (ls_nn _ _ _ _ HL), <- (ls_N _ _ _ _ HL), length_take; lia). destruct (peer_at w N j nb Hfit (ls_N _ _ _ _ HL) Hj) as [Hnb Hlt].
    unfold pm_metal_neighbors_at. wstep. wstep. rewrite (proj2 (Nat.leb_gt _ _)) by lia. wstep. wstep. wstep. apply (wp_chk _ nb); [done|]. by wstep.
  - intros s Hs. specialize (Hrows s Hs). rewrite Hr in Hrows. apply elem_of_list_to_map in Hrows; [|done]. apply list_elem_of_omap in Hrows as (r & Hin & Hkv). rewrite Forall_forall in Hg. specialize (Hg r Hin). destruct Hg as [[Hf _]|[Hf _]]; [apply local_row in Hf as (_ & Hk & _); congruence|].
    destruct (remote_row r Hf) as (_ & Hk & Hloc). rewrite Hk in Hkv. injection Hkv as E1 E2 E3 E4. apply list_elem_of_lookup in Hin as [i Hi]. exists i.
    unfold pm_metal_services_peer_of, pm_metal_services_name, pm_metal_services_fqn, pm_metal_services_port. split_and!; wstep; (eapply record_at_wp; [exact HL|exact Hi|]); rewrite ?Hloc; wstep; (split; [congruence|done]).
Qed.

Lemma rows_of_list z h (L : list service) (l : list (list Z)) : (forall p, p ∈ l -> p ∈ row_of z h <$> L) -> exists ls, l = row_of z h <$> ls /\ forall s, s ∈ ls -> s ∈ L.
Proof.
  induction l as [|p l IH]; intros H; [exists []; split; [done|]; by intros s Hs%elem_of_nil|]. destruct IH as (ls & -> & Hls); [intros q Hq; apply H; by right|]. specialize (H p ltac:(left)). apply list_elem_of_fmap in H as (s & -> & Hs). exists (s :: ls). split; [done|]. intros s' [->|Hs']%elem_of_cons; [done|by apply Hls].
Qed.

Lemma row_tidy z h s : z <> [] -> Forall (fun b => 0 <= b < 256) z -> zlen z <= 16 -> plain h -> publishable z h s -> row_fields (row_of z h s) = Some (zid_hex z, h, nm_of s, fqn_of s, dec 10 (default_port s)) /\ zlen (zid_hex z) < 128.
Proof.
  intros H1 H2 H3 Hh (_ & _ & Pn & Pf & Ln & Lf & Hport & Hlen). split; [apply row_round_trip; try done; [by apply hex_plain|lia]|]. assert (E : length (zid_hex z) = (2 * length z)%nat) by (clear; induction z as [|b z IH]; [done|]; cbn [zid_hex flat_map]; rewrite length_app; unfold zid_hex in IH; rewrite IH; cbn; lia). lia.
Qed.

Lemma catalogue_wp max z own h L l d e (wB : W) id : repr wB (d, e) -> 65536 <= max -> z <> [] /\ Forall (fun b => 0 <= b < 256) z /\ zlen z <= 16 -> plain h /\ zlen h < 64 -> zid_hex own <> zid_hex z ->
  Forall (publishable z h) L -> NoDup (nm_of <$> L) -> my_zid e = Some own -> known z d id -> 0 < id < 2147483648 -> (used d + length L <= d_cap d)%nat -> (forall p, p ∈ l <-> p ∈ row_of z h <$> L) -> l <> [] ->
  wp (do_calls max (Hear <$> l)) (fun _ wB' => offers wB' z h id L) wB.
Proof.
  intros HB Hmax Hz Hh Hown HL Hnd He Hk Hid Hroom Hl Hne. destruct (rows_of_list z h L l) as (ls & -> & Hls); [intros p Hp; by apply Hl|]. destruct Hz as (Hz1 & Hz2 & Hz3). destruct Hh as [Ph Lh].
  assert (Htidy : Forall tidy (Hear <$> (row_of z h <$> ls) : list (@call air))).
  { apply Forall_forall. intros c Hc. apply list_elem_of_fmap in Hc as (p & -> & Hp). apply list_elem_of_fmap in Hp as (s & -> & Hs). rewrite Forall_forall in HL. specialize (HL s (Hls s Hs)). cbn [tidy]. destruct (row_tidy z h s Hz1 Hz2 Hz3 Ph HL) as [-> Hlen]. split; [done|]. by destruct HL as (_ & _ & _ & _ & ? & _). }
  eapply wp_mono; [by apply (calls_ok max _ _ (d, e))|]. intros rs wB' [_ Hrep].
  destruct (hear_all max z h own Hmax ltac:(done) ltac:(done) Hown L id ls d e HL Hnd Hls He Hk Hid) as (d' & e' & E & Hseen & Hrows).
  { unfold missing. etrans; [|exact Hroom]. apply Nat.add_le_mono_l, length_filter. }
  rewrite <- list_fmap_compose in Hrep. unfold compose in Hrep. rewrite E in Hrep. eapply offers_repr; [exact Hrep|apply Hseen; by intros ->|]. intros s Hs. apply Hrows; [done|]. left.
  assert (Hin : row_of z h s ∈ row_of z h <$> ls) by (apply Hl, list_elem_of_fmap; by exists s). apply list_elem_of_fmap in Hin as (s' & Erow & Hs'). assert (s = s') as ->; [|done].
  rewrite Forall_forall in HL. destruct (row_tidy z h s Hz1 Hz2 Hz3 Ph (HL s Hs)) as [F1 _]. destruct (row_tidy z h s' Hz1 Hz2 Hz3 Ph (HL s' (Hls s' Hs'))) as [F2 _]. rewrite Erow, F2 in F1. assert (En : nm_of s' = nm_of s) by congruence.
  apply list_elem_of_lookup in Hs as [a Ha]. destruct (proj1 (list_elem_of_lookup _ _) (Hls s' Hs')) as [b Hb]. assert (a = b) as -> by (eapply (NoDup_lookup _ a b (nm_of s)); [exact Hnd|by rewrite list_lookup_fmap, Ha|by rewrite list_lookup_fmap, Hb, <- En]). congruence.
Qed.

(** C22: Whatever calls are made on a seat and whatever rows it hears, in any
    order, as long as names and identities fit their fields: the two arrays are
    a database of peers by identity and of rows by peer and name, every call
    answers as the database does, and a peer that goes stale goes with its
    rows. *)
Theorem registry_refines_db {E : Type} `{!MeshOps E} (ulong_max : Z) (l : list (@call E)) (w : @mesh E) (x : @db E * E) (Hw : repr w x) (Hl : Forall tidy l) :
  wp (do_calls ulong_max l) (fun answers w' => answers = (db_calls ulong_max l x).2 /\ repr w' (db_calls ulong_max l x).1) w.
Proof. by apply calls_ok. Qed.

(** Whatever bytes come off the air, and whatever calls are made: no call
    reads or writes outside the arrays, both counts stay within them, and every
    service that the seat itself registered is still in its registry. *)
Theorem own_services_stay {E : Type} `{!MeshOps E} (ulong_max : Z) (l : list (@call E)) (w : @mesh E) cap R N (Hw : lists w cap R N) (Hk : Forall kind_ok R) :
  wp (do_calls ulong_max l) (fun _ w' => exists R' N', lists w' cap R' N' /\ (length R' <= cap)%nat /\ (length N' <= 32)%nat /\ omap local_of R ⊆+ omap local_of R') w.
Proof. eapply wp_mono; [by eapply own_calls|]. intros rs w' (R' & N' & HL & _ & Hs). destruct (lists_fit _ _ _ _ HL) as [H1 H2]. by exists R', N'. Qed.

(** C23: What one seat publishes, another knows: once each row that a seat put on
    the air was heard, in whatever order and however often, the other lists the
    seat at its host, and each of its services by name, module and port. *)
Theorem mesh_catalogue (ulong_max : Z) (z own : list Z) cap (RA : list record) NA (wA wB : W) (d : @db air) (e : air) (id : Z)
  (Hmax : 65536 <= ulong_max) (HA : lists wA cap RA NA) (Hk : Forall kind_ok RA) (Hst : s_mesh_started wA = true) (Hz : my_zid (env wA) = Some z) (Hbytes : z <> [] /\ Forall (fun b => 0 <= b < 256) z /\ zlen z <= 16)
  (Hh : plain (s_mesh_host wA) /\ zlen (s_mesh_host wA) < 64) (Hpub : Forall (publishable z (s_mesh_host wA)) (omap local_of RA)) (Hnames : NoDup (nm_of <$> omap local_of RA)) (Hsome : omap local_of RA <> []) (Hsent : sent (env wA) = [])
  (HB : repr wB (d, e)) (Hown : my_zid e = Some own) (Hother : zid_hex own <> zid_hex z) (Hknown : known z d id) (Hid : 0 < id < 2147483648) (Hroom : (used d + length (omap local_of RA) <= d_cap d)%nat) :
  wp pm_metal_services_publish_all (fun rc wA' => rc = 0 /\ forall heard, (forall p, p ∈ heard <-> p ∈ (sent (env wA')).*2) ->
    wp (do_calls ulong_max (Hear <$> heard)) (fun _ wB' => offers wB' z (s_mesh_host wA) id (omap local_of RA)) wB) wA.
Proof.
  eapply wp_mono; [by apply (publish_wp cap RA NA z)|]. intros rc wA' [-> Es]. split; [done|]. intros heard Hheard. rewrite Es, Hsent in Hheard. cbn [app] in Hheard. rewrite <- list_fmap_compose in Hheard. change (snd ∘ (fun s => (KEY ++ zid_hex z, row_of z (s_mesh_host wA) s))) with (row_of z (s_mesh_host wA)) in Hheard.
  eapply (catalogue_wp ulong_max z own); try done. intros ->. destruct (omap local_of RA) as [|s L] eqn:EL; [done|]. assert (Hin : row_of z (s_mesh_host wA) s ∈ ([] : list (list Z))) by (apply Hheard; by left). by apply elem_of_nil in Hin.
Qed.

(** *** Two seats *)

Definition text (l : list Z) : option (list Z) := Some l.
(** "ssh", "net.ssh"; "httpd", "net.http" *)
Definition ssh : service := Service (text [115; 115; 104]) (text [110; 101; 116; 46; 115; 115; 104]) 0 22 (Some (fun _ _ e => (e, 0))) (Some (fun e => (e, 1))) (Some (fun _ e => (e, 1))) (Some (fun _ e => (e, 0))).
Definition httpd : service := Service (text [104; 116; 116; 112; 100]) (text [110; 101; 116; 46; 104; 116; 116; 112]) 0 8080 (Some (fun _ _ e => (e, 0))) (Some (fun e => (e, 1))) (Some (fun _ e => (e, 1))) (Some (fun _ e => (e, 0))).
Definition off (zid : list Z) : W := Mesh (Air (fun n => Z.of_nat n * 1000) 0 (Some zid) [] []) None (repeat zero_rec 4) 0 (repeat zero_nbr 32) 0 1 false 0 0 [] 0 0.
Definition zA : list Z := repeat 161 16.
Definition zB : list Z := repeat 178 16.
(** The constructors register, the card starts, the mesh starts at host "a". *)
Definition up (zid : list Z) (l : list service) : outcome W Z :=
  (foldr (fun s k => pm_metal_services_register (Some s) ;; k) (ret 0) l ;; pm_metal_services_init 0 ;; pm_metal_services_mesh_start (Some [97])) (off zid).
Definition seatA : W := match up zA [ssh; httpd] with Done _ w => w | _ => off zA end.
Definition seatB : W := match up zB [ssh] with Done _ w => w | _ => off zB end.

Definition local (s : service) : record := Rec PM_METAL_SERVICE_LOCAL 0 (Some s) [] [] 0.
Definition dB : @db air := Db ∅ ∅ [ssh] 16 1.

Lemma seatA_lists : lists seatA 16 [local ssh; local httpd] [].
Proof. constructor; try (vm_compute; reflexivity). eexists. split; [vm_compute; reflexivity|]. split; vm_compute; reflexivity. Qed.
Lemma seatB_lists : lists seatB 16 [local ssh] [].
Proof. constructor; try (vm_compute; reflexivity). eexists. split; [vm_compute; reflexivity|]. split; vm_compute; reflexivity. Qed.
Lemma local_ok (s : service) : kind_ok (local s).
Proof. left. split; [done|by eexists]. Qed.
Lemma seatB_repr : repr seatB (dB, env seatB).
Proof.
  exists [local ssh], []. split; [exact seatB_lists|]. split; [|done]. constructor; try done; try apply NoDup_nil_2. constructor; [|done]. left. split; [done|by eexists].
Qed.
Lemma zA_bytes : zA <> [] /\ Forall (fun b => 0 <= b < 256) zA /\ zlen zA <= 16.
Proof. split; [done|]. split; [|vm_compute; done]. repeat constructor; done. Qed.

Ltac plain_now := split; [done|]; repeat constructor; done.
Lemma A_publishable : Forall (publishable zA [97]) [ssh; httpd].
Proof. repeat apply Forall_cons_2; [..|apply Forall_nil_2]; (split_and!; [by eexists|by eexists|plain_now|plain_now|vm_compute; done..]). Qed.

Definition few_calls : list (@call air) := [Hear (row_of zA [97] httpd); Hear (row_of zA [97] ssh); Seen (zid_hex zA); DropPeer 7; Reap 500].
Lemma registry_refines_db_witness : (db_calls 4294967295 few_calls (dB, env seatB)).2 = [0; 0; 1; 0; 1] /\
  wp (do_calls 4294967295 few_calls) (fun answers w' => answers = (db_calls 4294967295 few_calls (dB, env seatB)).2 /\ repr w' (db_calls 4294967295 few_calls (dB, env seatB)).1) seatB.
Proof.
  split; [vm_compute; reflexivity|]. apply (registry_refines_db 4294967295 few_calls seatB (dB, env seatB) seatB_repr). repeat apply Forall_cons_2; vm_compute; done.
Defined.

(** A name that the field does not hold, and a row of bars. *)
Definition noise : list (list Z) := [row_text [102] [97] (repeat 120 64) [97] 1; repeat BAR 300; []].
Lemma own_services_stay_witness : wp (do_calls 4294967295 (Hear <$> noise)) (fun _ w' => exists R' N', lists w' 16 R' N' /\ (length R' <= 16)%nat /\ (length N' <= 32)%nat /\ omap local_of [local ssh] ⊆+ omap local_of R') seatB.
Proof. apply (own_services_stay 4294967295 (Hear <$> noise) seatB 16 [local ssh] []); [exact seatB_lists|constructor; [apply local_ok|done]]. Defined.

Lemma mesh_catalogue_witness : wp pm_metal_services_publish_all (fun rc wA' => rc = 0 /\ forall heard, (forall p, p ∈ heard <-> p ∈ (sent (env wA')).*2) ->
  wp (do_calls 4294967295 (Hear <$> heard)) (fun _ wB' => offers wB' zA (s_mesh_host seatA) 1 (omap local_of [local ssh; local httpd])) seatB) seatA.
Proof.
  apply (mesh_catalogue 4294967295 zA zB 16 [local ssh; local httpd] [] seatA seatB dB (env seatB) 1); try done.
  - exact seatA_lists.
  - repeat apply Forall_cons_2; try apply local_ok. apply Forall_nil_2.
  - exact zA_bytes.
  - assert (s_mesh_host seatA = [97]) as -> by (vm_compute; reflexivity). split; [plain_now|done].
  - assert (s_mesh_host seatA = [97]) as -> by (vm_compute; reflexivity). exact A_publishable.
  - apply NoDup_cons_2; [intros Heq%list_elem_of_singleton; by vm_compute in Heq|apply NoDup_singleton].
  - exact seatB_repr.
  - right. split; [done|]. split; [vm_compute; lia|done].
  - vm_compute. lia.
Defined.

(** *** What modelling showed *)

(** Names longer than the field are compared with what it holds of them: a row
    that is heard again is a new row, until the registry is full. *)
Definition long_row : list Z := row_text [102] [97] (repeat 120 64) [97] 1.
Definition count_after (l : list (@call air)) : option (nat * nat) := match do_calls 4294967295 l seatB with Done _ w => Some (s_nsvc w, s_nn w) | _ => None end.
Example long_names_pile_up : count_after (repeat (Hear long_row) 2) = Some (3%nat, 1%nat) /\ count_after (repeat (Hear long_row) 40) = Some (16%nat, 1%nat).
Proof. vm_compute. done. Qed.

(** The rows of a neighbour that is dropped stay; when it is heard of again it
    is a new peer, and no call drops the old rows any more but one that knows
    the old number. *)
Example drop_leaves_rows : count_after [Hear (row_of zA [97] httpd); Drop (zid_hex zA)] = Some (2%nat, 0%nat) /\
  count_after [Hear (row_of zA [97] httpd); Drop (zid_hex zA); Hear (row_of zA [97] httpd)] = Some (3%nat, 1%nat) /\
  count_after [Hear (row_of zA [97] httpd); Drop (zid_hex zA); Hear (row_of zA [97] httpd); Reap 1; Reap 1] = Some (2%nat, 0%nat).
Proof. vm_compute. done. Qed.

(** A scout that finds a peer forgets its host and what it offers, and counts
    it as new. *)
Definition scouting (w : W) : W := set_env (Air (a_us (env w)) (a_tick (env w)) (my_zid (env w)) (sent (env w)) [zA]) w.
Example scan_forgets_host : match (mesh_recv 4294967295 (row_of zA [97] httpd) ;; (fun w => Done tt (scouting w)) ;; n <- pm_metal_neighbors_discover_scan ;; o <- pm_metal_neighbors_at 0 ;; ret (n, o)) seatB with
  Done (n, Some nb) _ => Some (n, host nb, caps nb) | _ => None end = Some (1, [], 4).
Proof. vm_compute. done. Qed.

(** The services of a seat register once; a card that is started again has
    none. *)
Example restart_loses_services : match (pm_metal_services_deinit ;; pm_metal_services_init 0 ;; pm_metal_services_count) seatB with Done n _ => Some n | _ => None end = Some 0%nat.
Proof. vm_compute. done. Qed.

(** Before [init] the rows are in the static pool, but publishing looks in the
    other. *)
Example publish_before_init : (pm_metal_services_register (Some ssh) ;; pm_metal_services_mesh_start (Some [97]) ;; pm_metal_services_publish_all) (off zA) = Fault.
Proof. vm_compute. done. Qed.
End MeshNet.
