(* ===== verification/Fat.v ===== *)
(** * The fs card's live FAT volumes

    src/.../metal/fs/__fat__.c.  Importing a block device reads its boot
    sector, walks its directories and records each file and directory under
    its path; a read follows the cluster chain on the disk.  The disk and the
    arena are parameters ([Blk], [Arena] of Store).  A buffer being filled is the list
    of the bytes written so far, and [push] refuses to go past its size; every
    other access is checked as in Prelude.  The pointers the card's own
    functions pass each other are never NULL, so those tests are left out. *)
From S2P Require Import Prelude.

Module Fat.
Import Store.
Local Open Scope metal_scope.

Definition FAT_SEC := 512.
Definition FAT_PATH_MAX := 256.

(** The block layer: whether a handle is ready, and the sector at an address
    when the read succeeds. *)
Class Blk := {
  blk_ready : Z -> bool;
  blk_read : Z -> Z -> option (list Z);
}.

Class BlkLaws `{!Blk} : Prop := {
  sector_ok h lba s : blk_read h lba = Some s -> zlen s = FAT_SEC /\ bytes_ok s;
}.

(** ** Data *)

Record fat_vol := Vol { blk_h : Z; reserved : Z; fat_bits : Z; first_data : Z; spc : Z; tot : Z }.
Record fat_ent := Ent { vol : fat_vol; path : list Z; clus : Z; size : Z; is_dir : bool }.

Definition SIZEOF_FAT_VOL := 32.
Definition SIZEOF_FAT_ENT := 40.

(** The volume and entry lists, newest first, and the arena behind the
    card's pointer to it. *)
Record fat (A : Type) := FatSt { s_mem : A; s_arena : bool; s_vol : list fat_vol; s_ent : list fat_ent }.
Arguments FatSt {A} s_mem s_arena s_vol s_ent.
Arguments s_mem {A} f.
Arguments s_arena {A} f.
Arguments s_vol {A} f.
Arguments s_ent {A} f.

(** ** Little-endian fields and C strings *)

Definition le16 (b : list Z) (p : Z) : option Z :=
  x ← rd b p; y ← rd b (p + 1); Some (u16 (Z.lor x (Z.shiftl y 8))).

Definition le32 (b : list Z) (p : Z) : option Z :=
  x0 ← rd b p; x1 ← rd b (p + 1); x2 ← rd b (p + 2); x3 ← rd b (p + 3);
  Some (u32 (Z.lor (Z.lor (Z.lor x0 (Z.shiftl x1 8)) (Z.shiftl x2 16)) (Z.shiftl x3 24))).

Fixpoint name_eq (a b : list Z) : bool :=
  match a, b with
  | x :: a', y :: b' => if x =? y then name_eq a' b' else false
  | [], [] => true
  | _, _ => false
  end.

(** ** The disk: sectors, table entries, cluster chains *)

Section disk.
Context `{!Blk}.

Definition read_sec (h lba : Z) : option (list Z) := blk_read h lba.

Definition fat_off (fat_bits clus : Z) : Z :=
  if fat_bits =? 12 then u32 (clus + clus / 2)
  else if fat_bits =? 16 then u32 (clus * 2) else u32 (clus * 4).

Definition fat_entry (h reserved fat_bits clus : Z) : option Z :=
  let off := fat_off fat_bits clus in
  let lba := u32 (reserved + off / FAT_SEC) in
  let o := off mod FAT_SEC in
  match read_sec h lba with
  | None => Some 0
  | Some sec =>
    if fat_bits =? 12 then
      let nibbles raw := if negb (Z.land clus 1 =? 0) then Z.land (Z.shiftr raw 4) 4095 else Z.land raw 4095 in
      if FAT_SEC <=? o + 1 then
        match read_sec h (u32 (lba + 1)) with
        | None => Some 0
        | Some nxt => x ← rd sec o; y ← rd nxt 0; Some (nibbles (Z.lor x (Z.shiftl y 8)))
        end
      else x ← rd sec o; y ← rd sec (o + 1); Some (nibbles (Z.lor x (Z.shiftl y 8)))
    else if fat_bits =? 16 then
      if FAT_SEC <=? o + 1 then Some 0 else le16 sec o
    else if FAT_SEC <=? o + 3 then Some 0
    else x ← le32 sec o; Some (Z.land x 268435455)
  end.

Definition eoc (fat_bits : Z) : Z :=
  if fat_bits =? 12 then 4088 else if fat_bits =? 16 then 65528 else 268435448.

Definition clus_lba (first_data spc clus : Z) : Z := u32 (first_data + u32 (u32 (clus - 2) * spc)).

(** The inner loop of [read_file], [k] sectors of the cluster left; the inner
    [None] is the return of -1. *)
Fixpoint read_clus (k : nat) (h lba i want : Z) (out : list Z) (got : Z) : option (option (list Z * Z)) :=
  match k with
  | O => Some (Some (out, got))
  | S k' =>
    if got <? want then
      match read_sec h (u32 (lba + i)) with
      | None => Some None
      | Some sec =>
        let chunk := Z.min (u32 (want - got)) FAT_SEC in
        s ← slice sec 0 chunk;
        out' ← blit out got s;
        read_clus k' h lba (i + 1) want out' (u32 (got + chunk))
      end
    else Some (Some (out, got))
  end.

(** The outer loop, [k] clusters of [need] left. *)
Fixpoint read_chain (k : nat) (v : fat_vol) (clus want : Z) (out : list Z) (got : Z) : option (option (list Z * Z)) :=
  match k with
  | O => Some (Some (out, got))
  | S k' =>
    if (2 <=? clus) && (clus <? eoc (fat_bits v)) && (got <? want) then
      r ← read_clus (Z.to_nat (spc v)) (blk_h v) (clus_lba (first_data v) (spc v) clus) 0 want out got;
      match r with
      | None => Some None
      | Some (out', got') =>
        c ← fat_entry (blk_h v) (reserved v) (fat_bits v) clus;
        if c =? 0 then Some None else read_chain k' v c want out' got'
      end
    else Some (Some (out, got))
  end.

Definition file_need (spc size : Z) : Z :=
  let clus_bytes := u32 (spc * FAT_SEC) in
  let need := u32 (size + clus_bytes - 1) / clus_bytes in
  if need =? 0 then 1 else need.

(** The result, the buffer, and [*got_out] when it is written. *)
Definition read_file (v : fat_vol) (start size : Z) (out : list Z) (cap : Z) : option (Z * list Z * option Z) :=
  if (start <? 2) || (spc v =? 0) then Some (-1, out, None)
  else
    let want := Z.min size cap in
    if want =? 0 then Some (0, out, Some 0)
    else
      r ← read_chain (Z.to_nat (file_need (spc v) size)) v start want out 0;
      match r with
      | None => Some (-1, out, None)
      | Some (out', got) => Some (if 0 <? got then 0 else -1, out', Some got)
      end.
End disk.

(** ** Names *)

(** One byte appended to a buffer of [cap] bytes. *)
Definition push (cap : Z) (dst : list Z) (c : Z) : option (list Z) :=
  if zlen dst <? cap then Some (dst ++ [c]) else None.

(** The terminating NUL of a string built in such a buffer. *)
Definition terminate (cap : Z) (dst : list Z) : option (list Z) :=
  if zlen dst <? cap then Some (cstr dst) else None.

Definition put_utf16 (dst : list Z) (cap u : Z) : option (list Z) :=
  let n := zlen dst in
  if (u =? 0) || (u =? 65535) || (cap <=? n + 1) then Some dst
  else if u <? 128 then push cap dst u
  else if (u <? 2048) && (n + 2 <? cap) then
    d ← push cap dst (Z.lor 192 (Z.shiftr u 6));
    push cap d (Z.lor 128 (Z.land u 63))
  else if n + 3 <? cap then
    d ← push cap dst (Z.lor 224 (Z.shiftr u 12));
    d ← push cap d (Z.lor 128 (Z.land (Z.shiftr u 6) 63));
    push cap d (Z.lor 128 (Z.land u 63))
  else Some dst.

Definition LFN_UNITS := 260.
Definition pos : list Z := [1; 3; 5; 7; 9; 14; 16; 18; 20; 22; 24; 28; 30].

Fixpoint lfn_fill (ps : list Z) (base : Z) (cap : Z) (e ucs : list Z) : option (list Z) :=
  match ps with
  | [] => Some ucs
  | p :: ps' =>
    if base <? cap then
      c ← le16 e p; ucs' ← wr ucs base c; lfn_fill ps' (base + 1) cap e ucs'
    else Some ucs
  end.

Definition lfn_slot (ucs : list Z) (cap : Z) (e : list Z) : option (list Z) :=
  e0 ← rd e 0;
  let seq := Z.land e0 31 in
  if (seq =? 0) || (20 <? seq) then Some ucs else lfn_fill pos ((seq - 1) * 13) cap e ucs.

Fixpoint lfn_chars (dst : list Z) (cap : Z) (ucs : list Z) : option (list Z) :=
  match ucs with
  | [] => Some dst
  | u :: t => if (u =? 0) || (u =? 65535) then Some dst else d ← put_utf16 dst cap u; lfn_chars d cap t
  end.

Definition lfn_utf8 (cap : Z) (ucs : list Z) : option (list Z) :=
  d ← lfn_chars [] cap ucs; terminate cap d.

(** The copying loops of [name_83], [k] characters left. *)
Fixpoint copy_83 (k : nat) (e : list Z) (i cap : Z) (dst : list Z) : option (list Z) :=
  match k with
  | O => Some dst
  | S k' =>
    c ← rd e i;
    if negb (c =? 32) && (zlen dst + 1 <? cap) then d ← push cap dst c; copy_83 k' e (i + 1) cap d
    else Some dst
  end.

Definition name_83 (e : list Z) (cap : Z) : option (list Z) :=
  if cap <? 13 then Some []
  else
    d ← copy_83 8 e 0 cap [];
    c ← rd e 8;
    d ← (if negb (c =? 32) && (zlen d + 2 <? cap) then d ← push cap d 46; copy_83 3 e 8 cap d else Some d);
    terminate cap d.

(** Copy while there is room for a NUL; what did not fit is returned. *)
Fixpoint copy_str (cap : Z) (dst s : list Z) : option (list Z * list Z) :=
  match s with
  | [] => Some (dst, [])
  | c :: t => if zlen dst + 1 <? cap then d ← push cap dst c; copy_str cap d t else Some (dst, s)
  end.

(** The inner [None] is the return of -1. *)
Definition join_path (cap : Z) (dir leaf : list Z) : option (option (list Z)) :=
  if bool_decide (leaf = []) then Some None
  else
    '(d, _) ← copy_str cap [] dir;
    let slash := bool_decide (d = []) || negb (default 0 (last d) =? 47) in
    if slash && (cap <=? zlen d + 1) then Some None
    else
      d ← (if slash then push cap d 47 else Some d);
      '(d, rest) ← copy_str cap d leaf;
      match rest with
      | [] => p ← terminate cap d; Some (Some p)
      | _ => Some None
      end.

(** ** The entry table *)

Section card.
Context `{!Blk} {A : Type} `{!Arena A}.
Implicit Types (v : fat_vol) (s : fat A).

Definition pm_metal_fs_fat_bind (mem : A) s : fat A := FatSt mem true (s_vol s) (s_ent s).
Definition pm_metal_fs_fat_reset s : fat A := FatSt (s_mem s) false [] [].

Fixpoint find_path (path' : list Z) (es : list fat_ent) : option fat_ent :=
  match es with
  | [] => None
  | e :: t => if name_eq (path e) path' then Some e else find_path path' t
  end.

Definition find_ent (path : option (list Z)) s : option fat_ent :=
  match path with
  | None | Some [] => None
  | Some p => find_path p (s_ent s)
  end.

Definition alloc (n : Z) : M (fat A) (option (list Z)) := fun s =>
  let '(a, r) := mem_alloc n (s_mem s) in Done r (FatSt a (s_arena s) (s_vol s) (s_ent s)).

Definition add_ent v (path : list Z) (clus size : Z) (is_dir : bool) : M (fat A) bool :=
  s <- gets (fun s => s);;
  if negb (s_arena s) || bool_decide (path = []) || bool_decide (is_Some (find_ent (Some path) s)) then ret false
  else
    e <- alloc SIZEOF_FAT_ENT;;
    name <- alloc (zlen path + 1);;
    match e, name with
    | Some _, Some _ =>
      modify (fun s => FatSt (s_mem s) (s_arena s) (s_vol s) (Ent v path clus size is_dir :: s_ent s));; ret true
    | _, _ => ret false
    end.

(** ** The directory walk

    [walk] is the walk of a subdirectory: start cluster, path and count so
    far to result and count.  The long name gathered so far ([ucs],
    [have_lfn]) and the count are passed along. *)

Record scan := Scan { ucs : list Z; have_lfn : bool; added : Z }.

Section walk.
Variable walk : fat_vol -> Z -> Z -> list Z -> Z -> M (fat A) (Z * Z).

Definition dot_name (leaf : list Z) : bool :=
  match leaf with
  | [] => true
  | [c] => c =? 46
  | [c; d] => (c =? 46) && (d =? 46)
  | _ => false
  end.

Definition take_file v (path : list Z) (attr clus size : Z) (sc : scan) : M (fat A) (Z * scan) :=
  if negb (Z.land attr 16 =? 0) then
    if clus <? 2 then ret (0, sc)
    else
      new <- add_ent v path clus 0 true;;
      r <- walk v clus 0 path (added sc + b2z new);;
      ret (r.1, Scan (ucs sc) (have_lfn sc) r.2)
  else if (clus <? 2) && negb (size =? 0) then ret (0, sc)
  else
    new <- add_ent v path clus size false;;
    ret (0, Scan (ucs sc) (have_lfn sc) (added sc + b2z new)).

Definition ent_clus v (e : list Z) : option Z :=
  lo ← le16 e 26;
  if fat_bits v =? 32 then hi ← le16 e 20; Some (Z.lor lo (u32 (Z.shiftl hi 16))) else Some lo.

Definition take_ent v (e : list Z) (prefix : list Z) (sc : scan) : M (fat A) (Z * scan) :=
  e0 <- chk (rd e 0);;
  if (e0 =? 0) || (e0 =? 229) then ret (if e0 =? 0 then -2 else 0, Scan (ucs sc) false (added sc))
  else
    attr <- chk (rd e 11);;
    if attr =? 15 then
      let u := if negb (Z.land e0 64 =? 0) then repeat 0 (Z.to_nat LFN_UNITS) else ucs sc in
      u' <- chk (lfn_slot u LFN_UNITS e);;
      ret (0, Scan u' true (added sc))
    else if negb (Z.land attr 8 =? 0) then ret (0, Scan (ucs sc) false (added sc))
    else
      size <- chk (le32 e 28);;
      clus <- chk (ent_clus v e);;
      leaf <- chk (if have_lfn sc then lfn_utf8 FAT_PATH_MAX (ucs sc) else name_83 e FAT_PATH_MAX);;
      let sc := Scan (ucs sc) false (added sc) in
      if dot_name leaf then ret (0, sc)
      else
        p <- chk (join_path FAT_PATH_MAX prefix leaf);;
        match p with
        | None => ret (0, sc)
        | Some path => take_file v path attr clus size sc
        end.

(** [k] entries of the sector left, [i] the offset of the next; true when the
    directory's last entry was met. *)
Fixpoint sec_loop (k : nat) v (sec : list Z) (i : Z) (prefix : list Z) (sc : scan) : M (fat A) (bool * scan) :=
  match k with
  | O => ret (false, sc)
  | S k' =>
    e <- chk (slice sec i 32);;
    r <- take_ent v e prefix sc;;
    if r.1 =? -2 then ret (true, r.2) else sec_loop k' v sec (i + 32) prefix r.2
  end.

Definition walk_dir_sec v (sec : list Z) (prefix : list Z) (sc : scan) : M (fat A) (bool * scan) :=
  sec_loop (Z.to_nat (FAT_SEC / 32)) v sec 0 prefix sc.

(** [k] sectors from [lba + i] on.  [inl rc] leaves the walk with [rc]. *)
Fixpoint secs_loop (k : nat) v (lba i : Z) (prefix : list Z) (sc : scan) : M (fat A) (option Z * scan) :=
  match k with
  | O => ret (None, sc)
  | S k' =>
    match read_sec (blk_h v) (u32 (lba + i)) with
    | None => ret (Some (-1), sc)
    | Some sec =>
      r <- walk_dir_sec v sec prefix sc;;
      if r.1 then ret (Some 0, r.2) else secs_loop k' v lba (i + 1) prefix r.2
    end
  end.

(** [k] clusters of [max_clus] left. *)
Fixpoint dir_loop (k : nat) v (clus : Z) (prefix : list Z) (sc : scan) : M (fat A) (Z * scan) :=
  match k with
  | O => ret (0, sc)
  | S k' =>
    if (2 <=? clus) && (clus <? eoc (fat_bits v)) then
      r <- secs_loop (Z.to_nat (spc v)) v (clus_lba (first_data v) (spc v) clus) 0 prefix sc;;
      match r.1 with
      | Some rc => ret (rc, r.2)
      | None =>
        c <- chk (fat_entry (blk_h v) (reserved v) (fat_bits v) clus);;
        if c =? 0 then ret (0, r.2) else dir_loop k' v c prefix r.2
      end
    else ret (0, sc)
  end.

Definition walk_body v (start root_secs : Z) (prefix : list Z) (added0 : Z) : M (fat A) (Z * Z) :=
  let sc := Scan (repeat 0 (Z.to_nat LFN_UNITS)) false added0 in
  if negb (root_secs =? 0) then
    r <- secs_loop (Z.to_nat root_secs) v (u32 (first_data v - root_secs)) 0 prefix sc;;
    ret (default 0 r.1, added r.2)
  else
    let max_clus := u32 (tot v - first_data v) / spc v in
    if (start <? 2) || (max_clus =? 0) then ret (-1, added0)
    else
      r <- dir_loop (Z.to_nat max_clus) v start prefix sc;;
      ret (r.1, added r.2).
End walk.

(** The recursion is as deep as the directories nest. *)
Fixpoint walk_dir (fuel : nat) v (start root_secs : Z) (prefix : list Z) (added0 : Z) : M (fat A) (Z * Z) :=
  match fuel with
  | O => nofuel
  | S f => walk_body (walk_dir f) v start root_secs prefix added0
  end.

(** A path has room for fewer components than bytes. *)
Definition WALK_FUEL : nat := 256.

(** ** The card's entry points *)

Definition pm_metal_fs_fat_stat (path : option (list Z)) s : Z * option Z :=
  match find_ent path s with
  | Some e => if is_dir e then (-1, None) else (0, Some (size e))
  | None => (-1, None)
  end.

(** [out] NULL is [None]; [len] is the room the caller names.  The result,
    the buffer, and [*len] when it is written. *)
Definition pm_metal_fs_fat_read (path : option (list Z)) (out : option (list Z)) (len : Z) s : option (Z * option (list Z) * Z) :=
  match find_ent path s, out with
  | Some e, Some o =>
    if is_dir e then Some (-1, out, len)
    else if size e =? 0 then Some (0, out, 0)
    else
      '(rc, o', got) ← read_file (vol e) (clus e) (size e) o len;
      Some (if rc =? 0 then (0, Some o', default 0 got) else (-1, Some o', len))
  | _, _ => Some (-1, out, len)
  end.

(** The boot sector's parameters, [None] when it is refused. *)
Record bpb := Bpb { b_spc : Z; b_reserved : Z; b_tot : Z; b_root_secs : Z; b_first_data : Z; b_bits : Z }.

Definition parse_bpb (sec : list Z) : option (option bpb) :=
  bps ← le16 sec 11;
  spc ← rd sec 13;
  reserved ← le16 sec 14;
  nfats ← rd sec 16;
  root_ents ← le16 sec 17;
  tot16 ← le16 sec 19;
  fat16 ← le16 sec 22;
  tot ← (if negb (tot16 =? 0) then Some tot16 else le32 sec 32);
  if negb (bps =? FAT_SEC) || (spc =? 0) || negb (Z.land spc (spc - 1) =? 0) || (64 <? spc) || (reserved =? 0)
     || (nfats =? 0) || (2 <? nfats) || (tot <? 4) then Some None
  else
    fat_sz ← (if negb (fat16 =? 0) then Some fat16 else le32 sec 36);
    let root_secs := if negb (fat16 =? 0) then (root_ents * 32 + (FAT_SEC - 1)) / FAT_SEC else 0 in
    if fat_sz =? 0 then Some None
    else
      let first_data := u32 (reserved + u32 (nfats * fat_sz) + root_secs) in
      if tot <=? first_data then Some None
      else
        let bits := if negb (fat16 =? 0) then if (tot - first_data) / spc <? 4085 then 12 else 16 else 32 in
        Some (Some (Bpb spc reserved tot root_secs first_data bits)).

Definition pm_metal_fs_import_blk (h : Z) : M (fat A) Z :=
  ok <- gets (fun s => s_arena s);;
  if negb ok || (h <? 0) || negb (blk_ready h) then ret (-1)
  else
    match read_sec h 0 with
    | None => ret (-1)
    | Some sec =>
      m0 <- chk (rd sec 510);;
      m1 <- chk (rd sec 511);;
      if negb (m0 =? 85) || negb (m1 =? 170) then ret (-1)
      else
        b <- chk (parse_bpb sec);;
        match b with
        | None => ret (-1)
        | Some b =>
          blk <- alloc SIZEOF_FAT_VOL;;
          match blk with
          | None => ret (-1)
          | Some _ =>
            let v := Vol h (b_reserved b) (b_bits b) (b_first_data b) (b_spc b) (b_tot b) in
            modify (fun s => FatSt (s_mem s) (s_arena s) (v :: s_vol s) (s_ent s));;
            clus <- (if negb (b_bits b =? 32) then ret 0 else chk (le32 sec 44));;
            r <- walk_dir WALK_FUEL v clus (b_root_secs b) [47; 101; 115; 112] 0;;
            ret (if negb (r.1 =? 0) then if 0 <? r.2 then r.2 else -1 else r.2)
          end
        end
    end.
End card.
End Fat.

(** * A small volume

    Eight sectors of FAT12, as a concrete disk for the examples: a file with
    a long name over two clusters that do not follow each other, and a
    directory holding an empty file. *)

Module FatDisk.
Import Store Fat.

Definition fill512 (b : list Z) : list Z := b ++ repeat 0 (512 - length b).

Definition boot_sec : list Z :=
  repeat 0 11 ++ [0; 2; 1; 1; 0; 1; 16; 0; 8; 0; 0; 1; 0] ++ repeat 0 486 ++ [85; 170].

(** Clusters 2 and 4 are linked, 3 stands alone. *)
Definition fat_sec : list Z := fill512 [248; 255; 255; 4; 240; 255; 255; 15].

Definition unit_bytes (u : Z) : list Z := [u mod 256; u / 256].
Definition lfn_ent (seq : Z) (us : list Z) : list Z :=
  [seq] ++ flat_map unit_bytes (take 5 us) ++ [15; 0; 0] ++ flat_map unit_bytes (take 6 (drop 5 us)) ++ [0; 0] ++ flat_map unit_bytes (drop 11 us).
Definition short_ent (name : list Z) (attr clus size : Z) : list Z :=
  name ++ [attr] ++ repeat 0 14 ++ unit_bytes clus ++ [size mod 256; size / 256; 0; 0].

(** "read me.txt" *)
Definition long_name : list Z := [114; 101; 97; 100; 32; 109; 101; 46; 116; 120; 116].
Definition read_me : list Z := short_ent [82; 69; 65; 68; 77; 69; 126; 49; 84; 88; 84] 32 2 600.
Definition read_me_lfn : list Z := lfn_ent 65 (long_name ++ [0; 65535]).
(** "SUB", ".", "..", "X.TXT" and a volume label. *)
Definition sub_ent : list Z := short_ent ([83; 85; 66] ++ repeat 32 8) 16 3 0.
Definition dot_ent : list Z := short_ent (46 :: repeat 32 10) 16 3 0.
Definition dotdot_ent : list Z := short_ent ([46; 46] ++ repeat 32 9) 16 0 0.
Definition x_ent : list Z := short_ent ([88] ++ repeat 32 7 ++ [84; 88; 84]) 32 0 0.
Definition label_ent : list Z := short_ent ([77; 69; 84; 65; 76] ++ repeat 32 6) 8 0 0.

Definition disk : list (list Z) :=
  [boot_sec; fat_sec; fill512 (label_ent ++ read_me_lfn ++ read_me ++ sub_ent); fill512 (repeat 7 512);
   fill512 (dot_ent ++ dotdot_ent ++ x_ent); fill512 (repeat 9 512); fill512 []; fill512 []].

Definition small_disk : Blk := {|
  blk_ready h := h =? 0;
  blk_read h lba := if h =? 0 then rd disk lba else None;
|}.

Lemma disk_sectors : Forall (fun s => zlen s = FAT_SEC /\ bytes_ok s) disk.
Proof. apply (bool_decide_unpack _). vm_compute. exact I. Qed.

Lemma small_disk_laws : BlkLaws (H := small_disk).
Proof.
  constructor. intros h lba s. simpl. destruct (h =? 0); [|done]. unfold rd. destruct (lba <? 0); [done|]. intros Hs.
  pose proof disk_sectors as K. rewrite Forall_lookup in K. exact (K _ _ Hs).
Qed.

Definition card0 : fat unit := FatSt tt true [] [].
End FatDisk.
