(* ===== verification/FatSafe.v ===== *)
(** * Importing any disk

    The names, the directory walk and the import of Fat on a disk of any
    content: every access stays inside its buffer, the walk ends, and what it
    records are new entries under the directory's path. *)
From S2P Require Import Prelude Fat.

Module FatSafe.
Import Store Fat FatDisk.
Local Open Scope metal_scope.

(** ** Names *)

Lemma push_Some cap d c : zlen d < cap -> push cap d c = Some (d ++ [c]).
Proof. intros H. unfold push. by rewrite (proj2 (Z.ltb_lt _ _)). Qed.

Lemma terminate_Some cap d : zlen d < cap -> terminate cap d = Some (cstr d).
Proof. intros H. unfold terminate. by rewrite (proj2 (Z.ltb_lt _ _)). Qed.

Lemma cstr_len b : zlen (cstr b) <= zlen b.
Proof. induction b as [|c t IH]; simpl; [done|]. destruct (c =? 0); simpl; lia. Qed.

(** [put_utf16] adds at most what fits below the last byte. *)
Lemma put_utf16_ok d cap u : zlen d < cap -> exists e, put_utf16 d cap u = Some e /\ zlen e < cap.
Proof.
  intros H. unfold put_utf16. zcase; try by eexists.
  all: repeat (rewrite push_Some, ?some_bind; [|llia]); eexists; (split; [done|llia]).
Qed.

Lemma lfn_chars_ok ucs : forall d cap, zlen d < cap -> exists e, lfn_chars d cap ucs = Some e /\ zlen e < cap.
Proof.
  induction ucs as [|u t IH]; intros d cap H; simpl; [by eexists|]. destruct (_ || _); [by eexists|].
  destruct (put_utf16_ok d cap u H) as (e & -> & He). rewrite some_bind. by apply IH.
Qed.

Definition leaf_ok (cap : Z) (s : list Z) : Prop := no_nul s /\ zlen s < cap.

Lemma cstr_leaf cap d : zlen d < cap -> leaf_ok cap (cstr d).
Proof. intros H. split; [apply cstr_no_nul|]. pose proof (cstr_len d). lia. Qed.

Lemma lfn_utf8_ok cap ucs : 0 < cap -> exists s, lfn_utf8 cap ucs = Some s /\ leaf_ok cap s.
Proof.
  intros H. unfold lfn_utf8. destruct (lfn_chars_ok ucs [] cap H) as (d & -> & Hd).
  rewrite some_bind, terminate_Some by done. eexists. split; [done|]. by apply cstr_leaf.
Qed.

Lemma copy_83_ok k : forall e i cap d, 0 <= i -> i + Z.of_nat k <= zlen e -> zlen d < cap ->
  exists d', copy_83 k e i cap d = Some d' /\ zlen d' < cap.
Proof.
  induction k as [|k IH]; intros e i cap d Hi Hk Hd; simpl; [by eexists|].
  destruct (rd_is_Some e i) as [c ->]; [lia|]. rewrite some_bind. destruct (_ && _) eqn:E; [|by eexists].
  breflect. rewrite push_Some, some_bind by lia. apply IH; [lia|lia|llia].
Qed.

Lemma name_83_ok e cap : zlen e = 32 -> 13 <= cap -> exists s, name_83 e cap = Some s /\ leaf_ok cap s.
Proof.
  intros He Hc. unfold name_83. rewrite (proj2 (Z.ltb_ge _ _)) by lia.
  destruct (copy_83_ok 8 e 0 cap []) as (d & -> & Hd); [lia|lia|simpl; lia|]. rewrite some_bind.
  destruct (rd_is_Some e 8) as [c ->]; [lia|]. rewrite some_bind.
  assert (exists d', (if negb (c =? 32) && (zlen d + 2 <? cap) then d0 ← push cap d 46; copy_83 3 e 8 cap d0 else Some d) = Some d' /\ zlen d' < cap) as (d' & -> & Hd').
  { destruct (_ && _) eqn:E; [|by eexists]. breflect. rewrite push_Some, some_bind by lia. apply copy_83_ok; [lia|lia|llia]. }
  rewrite some_bind, terminate_Some by done. eexists. split; [done|]. by apply cstr_leaf.
Qed.

(** [copy_str] copies what leaves room for a NUL. *)
Lemma copy_str_ok cap s : forall d, zlen d < cap -> exists d' r, copy_str cap d s = Some (d', r) /\ zlen d' < cap /\
  ((r = [] /\ d' = d ++ s) \/ (r <> [] /\ cap <= zlen d + zlen s)).
Proof.
  induction s as [|c t IH]; intros d Hd; simpl.
  - exists d, []. split_and!; [done|done|]. left. by rewrite app_nil_r.
  - destruct (Z.ltb_spec (zlen d + 1) cap).
    + rewrite push_Some, some_bind by lia. destruct (IH (d ++ [c])) as (d' & r & -> & Hl & HD); [llia|].
      exists d', r. split_and!; [done|done|]. destruct HD as [[-> ->]|[? ?]]; [left; split; [done|by rewrite <- (assoc_L (++))]|right; split; [done|llia]].
    + exists d, (c :: t). split_and!; [done|done|]. right. split; [done|lia].
Qed.

Lemma copy_str_fits cap d s : zlen d + zlen s < cap -> copy_str cap d s = Some (d ++ s, []).
Proof.
  intros H. destruct (copy_str_ok cap s d) as (d' & r & -> & _ & [[-> ->]|[_ ?]]); [lia|done|lia].
Qed.

(** The path of an entry: directory, one slash, name. *)
Definition slash (dir : list Z) : list Z := if bool_decide (dir = []) || negb (default 0 (last dir) =? 47) then [47] else [].
Definition joined (dir leaf : list Z) : list Z := dir ++ slash dir ++ leaf.

Lemma no_nul_joined dir leaf : no_nul dir -> no_nul leaf -> no_nul (joined dir leaf).
Proof. intros. unfold joined, slash. repeat (apply Forall_app; split); [done| |done]. destruct (_ || _); repeat constructor. lia. Qed.

(** [join_path] gives that path when it fits. *)
Lemma join_path_spec cap dir leaf : no_nul dir -> zlen dir < cap -> no_nul leaf -> leaf <> [] ->
  join_path cap dir leaf = Some (if zlen (joined dir leaf) <? cap then Some (joined dir leaf) else None).
Proof.
  intros Hd Hc Hl Hne. unfold join_path. rewrite bool_decide_eq_false_2 by done.
  rewrite copy_str_fits by (simpl; lia). rewrite some_bind, app_nil_l. cbv zeta. unfold joined, slash.
  set (b := _ || _). assert (1 <= zlen leaf) by (destruct leaf; [done|simpl; lia]).
  destruct (b && (cap <=? zlen dir + 1)) eqn:E.
  { breflect. destruct b; [|done]. zcase; [llia|done]. }
  assert ((if b then push cap dir 47 else Some dir) = Some (dir ++ (if b then [47] else []))) as ->.
  { destruct b; simpl in E; breflect; [apply push_Some; lia|by rewrite app_nil_r]. }
  rewrite some_bind. set (d := dir ++ _). assert (Hdl : zlen d < cap).
  { unfold d. destruct b; simpl in E; breflect; llia. }
  assert (zlen (dir ++ (if b then [47] else []) ++ leaf) = zlen d + zlen leaf) as -> by (unfold d; rewrite !length_app; lia).
  destruct (copy_str_ok cap leaf d Hdl) as (d' & r & -> & Hd' & [[-> ->]|[Hr Hfull]]); rewrite some_bind; cbv beta.
  - rewrite terminate_Some, some_bind by done. rewrite length_app in Hd'. rewrite (proj2 (Z.ltb_lt _ _)) by lia.
    do 2 f_equal. unfold d. rewrite <- (assoc_L (++)). apply cstr_id. apply (no_nul_joined dir leaf Hd Hl).
  - destruct r; [done|]. by rewrite (proj2 (Z.ltb_ge _ _)) by lia.
Qed.

Lemma joined_longer dir leaf : leaf <> [] -> zlen dir < zlen (joined dir leaf).
Proof. intros H. unfold joined. rewrite !length_app. assert (1 <= zlen leaf) by (destruct leaf; [done|simpl; lia]). lia. Qed.

(** ** Fields and slots *)

Lemma le16_ok b p : 0 <= p -> p + 2 <= zlen b -> is_Some (le16 b p).
Proof.
  intros. unfold le16. destruct (rd_is_Some b p) as [x ->]; [lia|]. rewrite some_bind.
  destruct (rd_is_Some b (p + 1)) as [y ->]; [lia|]. by eexists.
Qed.

Lemma le32_ok b p : 0 <= p -> p + 4 <= zlen b -> is_Some (le32 b p).
Proof.
  intros. unfold le32. destruct (rd_is_Some b p) as [x ->]; [lia|]. rewrite some_bind.
  destruct (rd_is_Some b (p + 1)) as [y ->]; [lia|]. rewrite some_bind.
  destruct (rd_is_Some b (p + 2)) as [z ->]; [lia|]. rewrite some_bind.
  destruct (rd_is_Some b (p + 3)) as [w ->]; [lia|]. by eexists.
Qed.

Lemma le32_range b p z : le32 b p = Some z -> 0 <= z <= U32_MAX.
Proof. unfold le32. intros Hb. repeat (apply bind_Some in Hb as (? & _ & Hb)). injection Hb as <-. pose proof (u32_range (Z.lor (Z.lor (Z.lor x (Z.shiftl x0 8)) (Z.shiftl x1 16)) (Z.shiftl x2 24))). lia. Qed.

Lemma lfn_fill_ok ps : forall base e ucs, Forall (fun p => 0 <= p <= 30) ps -> 0 <= base -> zlen e = 32 -> zlen ucs = LFN_UNITS ->
  exists u, lfn_fill ps base LFN_UNITS e ucs = Some u /\ zlen u = LFN_UNITS.
Proof.
  induction ps as [|p ps IH]; intros base e ucs Hp Hb He Hu; simpl; [by eexists|]. inversion Hp as [|? ? H1 H2]; subst.
  destruct (Z.ltb_spec base LFN_UNITS); [|by eexists]. destruct (le16_ok e p) as [c ->]; [lia|lia|]. rewrite some_bind.
  rewrite wr_is_Some, some_bind by lia. apply IH; [done|lia|done|]. by rewrite length_insert.
Qed.

Lemma lfn_slot_ok ucs e : zlen e = 32 -> zlen ucs = LFN_UNITS -> exists u, lfn_slot ucs LFN_UNITS e = Some u /\ zlen u = LFN_UNITS.
Proof.
  intros He Hu. unfold lfn_slot. destruct (rd_is_Some e 0) as [e0 ->]; [lia|]. rewrite some_bind. cbv zeta.
  destruct (_ || _) eqn:E; [by eexists|]. breflect. apply lfn_fill_ok; [repeat constructor; lia| |done|done].
  assert (0 <= Z.land e0 31) by (change 31 with (2 ^ 5 - 1); rewrite land_ones_mod by lia; apply Z.mod_pos_bound; lia). lia.
Qed.

Lemma ent_clus_ok v e : zlen e = 32 -> is_Some (ent_clus v e).
Proof.
  intros He. unfold ent_clus. destruct (le16_ok e 26) as [x ->]; [lia|lia|]. rewrite some_bind.
  destruct (_ =? _); [|by eexists]. destruct (le16_ok e 20) as [y ->]; [lia|lia|]. by eexists.
Qed.

Lemma fat_entry_ok `{!Blk, !BlkLaws} h r bits c : is_Some (fat_entry h r bits c).
Proof.
  unfold fat_entry. set (o := _ mod FAT_SEC). assert (Ho : 0 <= o < 512) by (apply Z.mod_pos_bound; unfold FAT_SEC; lia).
  unfold read_sec. destruct (blk_read h _) as [sec|] eqn:E; [|by eexists]. apply sector_ok in E as [E _].
  change FAT_SEC with 512 in *. destruct (bits =? 12).
  - cbv zeta. destruct (Z.leb_spec 512 (o + 1)).
    + destruct (blk_read h _) as [nxt|] eqn:E2; [|by eexists]. apply sector_ok in E2 as [E2 _]. change FAT_SEC with 512 in *.
      destruct (rd_is_Some sec o) as [x ->]; [lia|]. rewrite some_bind. destruct (rd_is_Some nxt 0) as [y ->]; [lia|]. by eexists.
    + destruct (rd_is_Some sec o) as [x ->]; [lia|]. rewrite some_bind. destruct (rd_is_Some sec (o + 1)) as [y ->]; [lia|]. by eexists.
  - destruct (bits =? 16); [destruct (Z.leb_spec 512 (o + 1)); [by eexists|apply le16_ok; lia]|].
    destruct (Z.leb_spec 512 (o + 3)); [by eexists|]. destruct (le32_ok sec o) as [x ->]; [lia|lia|]. by eexists.
Qed.

Lemma name_eq_spec a b : name_eq a b = bool_decide (a = b).
Proof.
  revert b. induction a as [|x a IH]; intros [|y b]; simpl; [done|done|done|].
  destruct (Z.eqb_spec x y); [rewrite IH|symmetry; apply bool_decide_eq_false_2; congruence].
  apply bool_decide_ext; naive_solver.
Qed.

Lemma find_path_spec p es : match find_path p es with
  | Some e => e ∈ es /\ path e = p
  | None => p ∉ (path <$> es)
  end.
Proof.
  induction es as [|e es IH]; simpl; [by apply not_elem_of_nil|]. rewrite name_eq_spec. case_bool_decide as E; [split; [by left|done]|].
  destruct (find_path p es) as [f|]; [destruct IH; split; [by right|done]|]. rewrite not_elem_of_cons. split; [congruence|done].
Qed.

(** ** The walk *)

Section walk.
Context `{B : !Blk, BL : !BlkLaws} {A : Type} `{AR : !Arena A}.
Implicit Types (s : fat A) (v : fat_vol).

Definition uniq s : Prop := NoDup (path <$> s_ent s).

Definition entry_in v (prefix : list Z) (e : fat_ent) : Prop :=
  vol e = v /\ no_nul (path e) /\ zlen (path e) < FAT_PATH_MAX /\ prefix `prefix_of` path e /\ 0 <= size e <= U32_MAX.

(** What a walk below [prefix] may do to the card, its count going from [n]
    to [n']: add entries below it, and nothing else. *)
Record grew v (prefix : list Z) (n : Z) s (n' : Z) s' : Prop := {
  gr_arena : s_arena s' = s_arena s;
  gr_vol : s_vol s' = s_vol s;
  gr_ent : exists new, s_ent s' = new ++ s_ent s /\ n' = n + zlen new /\ Forall (entry_in v prefix) new;
  gr_uniq : uniq s -> uniq s';
}.

Lemma grew_refl v p n s : grew v p n s n s.
Proof. constructor; try done. exists []. split_and!; [done|simpl; lia|constructor]. Qed.

Lemma grew_trans v p n s n1 s1 n2 s2 : grew v p n s n1 s1 -> grew v p n1 s1 n2 s2 -> grew v p n s n2 s2.
Proof.
  intros [A1 V1 (w1 & E1 & N1 & F1) U1] [A2 V2 (w2 & E2 & N2 & F2) U2]. constructor; [congruence|congruence| |auto].
  exists (w2 ++ w1). split_and!; [rewrite E2, E1; by rewrite (assoc_L (++))|llia|by apply Forall_app].
Qed.

Lemma grew_weaken v p q n s n' s' : q `prefix_of` p -> grew v p n s n' s' -> grew v q n s n' s'.
Proof.
  intros Hq [A1 V1 (w & E & N & F) U]. constructor; try done. exists w. split_and!; [done|done|].
  eapply Forall_impl; [exact F|]. intros e (? & ? & ? & ? & ?). repeat split; try done; try lia. by etrans.
Qed.

Lemma find_ent_none p s : find_ent (Some p) s = None -> p <> [] -> p ∉ (path <$> s_ent s).
Proof. intros Hf Hp. destruct p as [|c p]; [done|]. simpl in Hf. pose proof (find_path_spec (c :: p) (s_ent s)) as K. by rewrite Hf in K. Qed.

Definition with_mem (m : A) s : fat A := FatSt m (s_arena s) (s_vol s) (s_ent s).

Lemma wp_alloc n (Q : option (list Z) -> fat A -> Prop) s : (forall m r, Q r (with_mem m s)) -> wp (alloc n) Q s.
Proof. intros HQ. unfold wp, alloc. destruct (mem_alloc n (s_mem s)). apply HQ. Qed.

Lemma grew_mem v p n s m : grew v p n s n (with_mem m s).
Proof. constructor; try done. exists []. split_and!; [done|simpl; lia|constructor]. Qed.

Lemma add_ent_ok v p c z d n s : no_nul p -> p <> [] -> zlen p < FAT_PATH_MAX -> 0 <= z <= U32_MAX ->
  wp (add_ent v p c z d) (fun new s' => grew v p n s (n + b2z new) s') s.
Proof.
  intros Hn Hp Hl Hz. assert (E0 : n + b2z false = n) by (simpl; lia). unfold add_ent. do 2 wstep. wstep; [wstep; rewrite E0; apply grew_refl|].
  match goal with K : _ = false |- _ => apply orb_false_iff in K as [_ Hf%bool_decide_eq_false] end.
  wstep. apply wp_alloc. intros m1 r1. wstep. apply wp_alloc. intros m2 r2.
  destruct r1; [|wstep; rewrite E0; apply (grew_mem v p n s m2)]. destruct r2; [|wstep; rewrite E0; apply (grew_mem v p n s m2)].
  do 3 wstep. constructor; try done; simpl.
  - exists [Ent v p c z d]. split_and!; [done|done|]. constructor; [|constructor]. repeat split; simpl; try done; lia.
  - intros Hu. unfold uniq. simpl. constructor; [|done]. apply find_ent_none; [by apply eq_None_not_Some|done].
Qed.

Section level.
Variable walk : fat_vol -> Z -> Z -> list Z -> Z -> M (fat A) (Z * Z).
Variable F : Z.

Definition path_ok (p : list Z) : Prop := no_nul p /\ p <> [] /\ zlen p < FAT_PATH_MAX.

(** A subdirectory whose path leaves [F] bytes or fewer is walked safely. *)
Hypothesis walk_ok : forall v start p n s, path_ok p -> FAT_PATH_MAX - zlen p <= F ->
  wp (walk v start 0 p n) (fun r s' => (r.1 = 0 \/ r.1 = -1) /\ grew v p n s r.2 s') s.

Variables (v : fat_vol) (prefix : list Z).
Hypothesis Hprefix : path_ok prefix.
Hypothesis Hroom : FAT_PATH_MAX - zlen prefix <= F + 1.

Definition scan_ok (sc : scan) : Prop := zlen (ucs sc) = LFN_UNITS.
Definition walk_post (sc : scan) s (sc' : scan) s' : Prop := scan_ok sc' /\ grew v prefix (added sc) s (added sc') s'.

Lemma walk_post_refl sc s b u : zlen u = LFN_UNITS -> walk_post sc s (Scan u b (added sc)) s.
Proof. intros. split; [done|]. apply grew_refl. Qed.

Lemma take_file_ok p attr c z sc s : path_ok p -> zlen prefix < zlen p -> prefix `prefix_of` p -> 0 <= z <= U32_MAX -> scan_ok sc ->
  wp (take_file walk v p attr c z sc) (fun r s' => -2 < r.1 /\ walk_post sc s r.2 s') s.
Proof.
  intros Hp Hlt Hpre Hz Hsc. pose proof Hp as (Hn & Hne & Hl). unfold take_file. destruct (negb _).
  - destruct (c <? 2); [wstep; split; [done|split; [done|apply grew_refl]]|]. wstep.
    eapply wp_mono; [by apply (add_ent_ok _ _ _ _ _ (added sc))|]. intros new s1 G1; cbv beta in G1. wstep.
    eapply wp_mono; [apply walk_ok; [done|lia]|]. intros [rc k] s2 [Hrc G2]. simpl in *. wstep. split; [simpl; lia|]. split; [done|].
    simpl. eapply grew_weaken; [done|]. by eapply grew_trans.
  - destruct (_ && _); [wstep; split; [done|split; [done|apply grew_refl]]|]. wstep.
    eapply wp_mono; [by apply (add_ent_ok _ _ _ _ _ (added sc))|]. intros new s1 G1; cbv beta in G1. wstep. split; [done|].
    split; [done|]. by eapply grew_weaken.
Qed.

Lemma take_ent_ok e sc s : zlen e = 32 -> scan_ok sc ->
  wp (take_ent walk v e prefix sc) (fun r s' => walk_post sc s r.2 s') s.
Proof.
  intros He Hsc. pose proof Hprefix as (Hn & Hne & Hl). unfold take_ent. wstep. destruct (rd_is_Some e 0) as [e0 E0]; [lia|]. eapply wp_chk; [exact E0|].
  destruct (_ || _); [wstep; by apply walk_post_refl|]. wstep. destruct (rd_is_Some e 11) as [at' E1]; [lia|]. eapply wp_chk; [exact E1|].
  destruct (at' =? 15).
  - cbv zeta. wstep. destruct (lfn_slot_ok (if negb (Z.land e0 64 =? 0) then repeat 0 (Z.to_nat LFN_UNITS) else ucs sc) e) as (u & Eu & Hu); [done|by destruct (negb _)|].
    eapply wp_chk; [exact Eu|]. wstep. by apply walk_post_refl.
  - destruct (negb _); [wstep; by apply walk_post_refl|]. wstep. destruct (le32_ok e 28) as [sz Es]; [lia|lia|]. eapply wp_chk; [exact Es|].
    wstep. destruct (ent_clus_ok v e He) as [c Ec]. eapply wp_chk; [exact Ec|]. wstep.
    assert (exists leaf, (if have_lfn sc then lfn_utf8 FAT_PATH_MAX (ucs sc) else name_83 e FAT_PATH_MAX) = Some leaf /\ leaf_ok FAT_PATH_MAX leaf) as (leaf & El & Hleaf & Hll).
    { destruct (have_lfn sc); [by apply lfn_utf8_ok|by apply name_83_ok]. }
    eapply wp_chk; [exact El|]. cbv zeta. destruct (dot_name leaf) eqn:Ed; [wstep; by apply walk_post_refl|].
    assert (leaf <> []) by (by intros ->). wstep. eapply wp_chk; [by apply join_path_spec|].
    destruct (Z.ltb_spec (zlen (joined prefix leaf)) FAT_PATH_MAX) as [Hj|Hj]; [|wstep; by apply walk_post_refl].
    eapply wp_mono; [apply take_file_ok; [| | |by eapply le32_range|done]|].
    + split_and!; [by apply no_nul_joined| |done]. unfold joined. by destruct prefix.
    + by apply joined_longer.
    + by eexists.
    + intros r s' [_ K]. exact K.
Qed.

Lemma walk_post_trans sc s sc1 s1 sc2 s2 : walk_post sc s sc1 s1 -> walk_post sc1 s1 sc2 s2 -> walk_post sc s sc2 s2.
Proof. intros [_ G1] [H2 G2]. split; [done|]. by eapply grew_trans. Qed.

Lemma sec_loop_ok sec k : forall i sc s, zlen sec = FAT_SEC -> 0 <= i -> i + 32 * Z.of_nat k <= FAT_SEC -> scan_ok sc ->
  wp (sec_loop walk k v sec i prefix sc) (fun r s' => walk_post sc s r.2 s') s.
Proof.
  induction k as [|k IH]; intros i sc s Hs Hi Hk Hsc; cbn [sec_loop]; [wstep; split; [done|apply grew_refl]|].
  assert (Hin : i + 32 <= zlen sec) by lia. pose proof (slice_is_Some sec i 32 Hi ltac:(lia) Hin) as E.
  wstep. eapply wp_chk; [exact E|]. wstep. apply slice_length in E.
  eapply wp_mono; [by apply take_ent_ok|]. intros [st sc1] s1 K; cbv beta in K; simpl in *. destruct (st =? -2); [by wstep|].
  eapply wp_mono; [apply IH; [done|lia|lia|apply K]|]. intros r s2 K2. by eapply walk_post_trans.
Qed.

Lemma secs_loop_ok k : forall lba i sc s, scan_ok sc ->
  wp (secs_loop walk k v lba i prefix sc) (fun r s' => (r.1 = None \/ r.1 = Some 0 \/ r.1 = Some (-1)) /\ walk_post sc s r.2 s') s.
Proof.
  induction k as [|k IH]; intros lba i sc s Hsc; cbn [secs_loop]; [wstep; split; [by left|split; [done|apply grew_refl]]|].
  unfold read_sec. destruct (blk_read _ _) as [sec|] eqn:E; [|wstep; split; [by right; right|split; [done|apply grew_refl]]].
  apply sector_ok in E as [E _]. wstep. eapply wp_mono; [apply sec_loop_ok; [done|lia|by vm_compute|done]|].
  intros [b sc1] s1 K; cbv beta in K; simpl in *. destruct b; [wstep; split; [by right; left|done]|].
  eapply wp_mono; [apply IH, K|]. intros r s2 [Hr K2]. split; [done|]. by eapply walk_post_trans.
Qed.

Lemma dir_loop_ok k : forall c sc s, scan_ok sc ->
  wp (dir_loop walk k v c prefix sc) (fun r s' => (r.1 = 0 \/ r.1 = -1) /\ walk_post sc s r.2 s') s.
Proof.
  induction k as [|k IH]; intros c sc s Hsc; cbn [dir_loop]; [wstep; split; [by left|split; [done|apply grew_refl]]|].
  destruct (_ && _); [|wstep; split; [by left|split; [done|apply grew_refl]]]. wstep.
  eapply wp_mono; [by apply secs_loop_ok|]. intros [rc sc1] s1 [Hrc K]; simpl in *. destruct rc as [rc|].
  { wstep. split; [simpl; destruct Hrc as [Hr|[Hr|Hr]]; simplify_eq; auto|done]. }
  wstep. destruct (fat_entry_ok (blk_h v) (reserved v) (fat_bits v) c) as [c' Ec]. eapply wp_chk; [exact Ec|].
  destruct (c' =? 0); [wstep; split; [by left|done]|].
  eapply wp_mono; [apply IH, K|]. intros r s2 [Hr K2]. split; [done|]. by eapply walk_post_trans.
Qed.

Lemma walk_body_ok start rs n s :
  wp (walk_body walk v start rs prefix n) (fun r s' => (r.1 = 0 \/ r.1 = -1) /\ grew v prefix n s r.2 s') s.
Proof.
  assert (H0 : scan_ok (Scan (repeat 0 (Z.to_nat LFN_UNITS)) false n)) by done.
  unfold walk_body. cbv zeta. destruct (negb _).
  - wstep. eapply wp_mono; [by apply secs_loop_ok|]. intros [rc sc1] s1 [Hrc [_ K]]; simpl in *. wstep. simpl. split; [|done].
    destruct Hrc as [Hr|[Hr|Hr]]; rewrite Hr; auto.
  - destruct (_ || _); [wstep; split; [by right|apply grew_refl]|]. wstep.
    eapply wp_mono; [by apply dir_loop_ok|]. intros [rc sc1] s1 [Hrc [_ K]]; simpl in *. by wstep.
Qed.
End level.

(** Fuel for one level per byte the path has left is enough. *)
Lemma walk_dir_ok fuel : forall v start rs p n s, path_ok p -> FAT_PATH_MAX - zlen p <= Z.of_nat fuel ->
  wp (walk_dir fuel v start rs p n) (fun r s' => (r.1 = 0 \/ r.1 = -1) /\ grew v p n s r.2 s') s.
Proof.
  induction fuel as [|fuel IH]; intros v start rs p n s Hp Hf; [destruct Hp as (_ & _ & ?); lia|].
  cbn [walk_dir]. apply (walk_body_ok _ (Z.of_nat fuel)); [|done|lia]. intros. by apply IH.
Qed.

(** ** The import, and what a caller may then read *)

(** The card between calls: the paths are distinct and are paths. *)
Definition fat_ok s : Prop := uniq s /\ Forall (fun e => path_ok (path e) /\ 0 <= size e <= U32_MAX) (s_ent s).

Definition esp : list Z := [47; 101; 115; 112].

Lemma esp_ok : path_ok esp.
Proof. split_and!; [|done|by vm_compute]. repeat constructor; done. Qed.

Lemma import_post v s m n s' : fat_ok s -> s_arena s' = s_arena s ->
  grew v esp 0 (FatSt m (s_arena s) (v :: s_vol s) (s_ent s)) n s' ->
  fat_ok s' /\ 0 <= n /\ exists new, s_ent s' = new ++ s_ent s /\ n = zlen new /\
    Forall (fun e => head (s_vol s') = Some (vol e) /\ esp `prefix_of` path e) new.
Proof.
  intros [Hu Hf] Ha [_ V (new & E & N & F) U]. simpl in *. split; [split|split; [lia|]].
  - by apply U.
  - rewrite E. apply Forall_app. split; [|done]. eapply Forall_impl; [exact F|]. intros e (_ & ? & ? & Hpre & ?).
    split; [|done]. split_and!; [done| |done]. intros En. rewrite En in Hpre. by apply prefix_nil_inv in Hpre.
  - exists new. split_and!; [done|lia|]. eapply Forall_impl; [exact F|]. intros e (Hv & _ & _ & ? & _). rewrite V, Hv. done.
Qed.

Lemma parse_bpb_ok sec : zlen sec = FAT_SEC -> is_Some (parse_bpb sec).
Proof.
  intros Hs. change FAT_SEC with 512 in Hs. unfold parse_bpb.
  destruct (le16_ok sec 11) as [? ->]; [lia|lia|]. rewrite some_bind. destruct (rd_is_Some sec 13) as [? ->]; [lia|]. rewrite some_bind.
  destruct (le16_ok sec 14) as [? ->]; [lia|lia|]. rewrite some_bind. destruct (rd_is_Some sec 16) as [? ->]; [lia|]. rewrite some_bind.
  destruct (le16_ok sec 17) as [? ->]; [lia|lia|]. rewrite some_bind. destruct (le16_ok sec 19) as [t16 ->]; [lia|lia|]. rewrite some_bind.
  destruct (le16_ok sec 22) as [f16 ->]; [lia|lia|]. rewrite some_bind. destruct (le32_ok sec 32) as [? ->]; [lia|lia|]. destruct (le32_ok sec 36) as [? ->]; [lia|lia|].
  destruct (negb (t16 =? 0)); rewrite some_bind; (destruct (_ || _); [by eexists|]); (destruct (negb (f16 =? 0)); rewrite some_bind; cbv zeta); repeat case_match; by eexists.
Qed.

Lemma read_clus_ok k : forall h lba i want out got, 0 <= got <= want -> want <= zlen out -> want <= U32_MAX ->
  exists r, read_clus k h lba i want out got = Some r /\
    (r = None \/ exists o g, r = Some (o, g) /\ zlen o = zlen out /\ got <= g <= want).
Proof.
  induction k as [|k IH]; intros h lba i want out got Hg Hw Hm; cbn [read_clus].
  { eexists. split; [done|]. right. exists out, got. split_and!; [done|done|lia|lia]. }
  destruct (Z.ltb_spec got want); [|eexists; split; [done|]; right; exists out, got; split_and!; [done|done|lia|lia]].
  unfold read_sec. destruct (blk_read h _) as [sec|] eqn:E; [|by eexists; split; [|left]]. apply sector_ok in E as [E _].
  cbv zeta. rewrite (u32_small (want - got)) by lia. change FAT_SEC with 512 in *.
  set (ch := Z.min (want - got) 512). assert (0 < ch <= 512 /\ got + ch <= want) by lia.
  assert (Hs : 0 + ch <= zlen sec) by lia. pose proof (slice_is_Some sec 0 ch ltac:(lia) ltac:(lia) Hs) as Es. rewrite Es, some_bind.
  apply slice_length in Es. set (sl := take _ _) in *. assert (Hb : got + zlen sl <= zlen out) by lia.
  pose proof (blit_is_Some out sl got ltac:(lia) Hb) as Eb. rewrite Eb, some_bind. apply blit_length in Eb. set (o := _ ++ _) in *.
  rewrite u32_small by lia. destruct (IH h lba (i + 1) want o (got + ch)) as (r & -> & Hr); [lia|lia|lia|]. exists r. split; [done|].
  destruct Hr as [->|(o' & g & -> & Ho & ?)]; [by left|]. right. exists o', g. split_and!; [done|lia|lia|lia].
Qed.

Lemma read_chain_ok k : forall v c want out got, 0 <= got <= want -> want <= zlen out -> want <= U32_MAX ->
  exists r, read_chain k v c want out got = Some r /\
    (r = None \/ exists o g, r = Some (o, g) /\ zlen o = zlen out /\ got <= g <= want).
Proof.
  induction k as [|k IH]; intros v c want out got Hg Hw Hm; cbn [read_chain].
  { eexists. split; [done|]. right. exists out, got. split_and!; [done|done|lia|lia]. }
  destruct (_ && _); [|eexists; split; [done|]; right; exists out, got; split_and!; [done|done|lia|lia]].
  destruct (read_clus_ok (Z.to_nat (spc v)) (blk_h v) (clus_lba (first_data v) (spc v) c) 0 want out got Hg Hw Hm) as (r & -> & Hr). rewrite some_bind.
  destruct Hr as [->|(o & g & -> & Ho & ?)]; [by eexists; split; [|left]|].
  destruct (fat_entry_ok (blk_h v) (reserved v) (fat_bits v) c) as [c' ->]. rewrite some_bind.
  destruct (c' =? 0); [by eexists; split; [|left]|].
  destruct (IH v c' want o g) as (r & -> & Hr); [lia|lia|lia|]. exists r. split; [done|].
  destruct Hr as [->|(o' & g' & -> & Ho' & ?)]; [by left|]. right. exists o', g'. split_and!; [done|lia|lia|lia].
Qed.

(** A read into a buffer with the room its caller names stays inside it. *)
Lemma fat_read_ok s p out room : fat_ok s -> 0 <= room -> room <= zlen out -> exists rc o n,
  pm_metal_fs_fat_read p (Some out) room s = Some (rc, Some o, n) /\ zlen o = zlen out /\ 0 <= n <= room.
Proof.
  intros [_ Hf] Hr Hl. unfold pm_metal_fs_fat_read. destruct (find_ent p s) as [e|] eqn:Ee; [|by exists (-1), out, room].
  assert (He : 0 <= size e <= U32_MAX).
  { destruct p as [[|c p]|]; [done| |done]. simpl in Ee. pose proof (find_path_spec (c :: p) (s_ent s)) as K. rewrite Ee in K. destruct K as [K _].
    rewrite Forall_forall in Hf. by apply Hf in K as [_ ?]. }
  destruct (is_dir e); [by exists (-1), out, room|]. destruct (Z.eqb_spec (size e) 0); [exists 0, out, 0; split_and!; done|].
  unfold read_file. destruct (_ || _); [exists (-1), out, room; split_and!; done|]. cbv zeta.
  destruct (Z.eqb_spec (Z.min (size e) room) 0); [exists 0, out, 0; split_and!; done|].
  destruct (read_chain_ok (Z.to_nat (file_need (spc (vol e)) (size e))) (vol e) (clus e) (Z.min (size e) room) out 0) as (r & -> & HD); [lia|lia|lia|].
  rewrite some_bind. destruct HD as [->|(o & g & -> & Ho & ?)]; [exists (-1), out, room; split_and!; done|]. rewrite some_bind. cbv beta iota.
  destruct (0 <? g); simpl; [exists 0, o, g|exists (-1), o, room]; split_and!; try done; lia.
Qed.

Lemma fat_ok_mem s m : fat_ok s -> fat_ok (with_mem m s).
Proof. done. Qed.

(** C13: importing a block device of any content ends, inside every buffer,
    however the directories of the disk nest or loop; it only adds entries,
    all of the new volume and below /esp, keeps the paths distinct, and
    reports how many it added.  Reading any path afterwards, into a buffer
    with the room named, stays inside that buffer. *)
Theorem import_total (h : Z) (s : fat A) (Hs : fat_ok s) :
  wp (pm_metal_fs_import_blk h) (fun rc s' =>
    fat_ok s' /\
    (exists new, s_ent s' = new ++ s_ent s /\ Forall (fun e => head (s_vol s') = Some (vol e) /\ esp `prefix_of` path e) new /\
      (rc = zlen new \/ (rc = -1 /\ new = []))) /\
    forall p out room, 0 <= room -> room <= zlen out -> exists rc' o n,
      pm_metal_fs_fat_read p (Some out) room s' = Some (rc', Some o, n) /\ zlen o = zlen out /\ 0 <= n <= room) s.
Proof.
  match goal with |- wp _ ?P _ => set (Q := P) end.
  assert (HN : forall m, Q (-1) (with_mem m s)).
  { intros m. split; [done|split]; [exists []; split_and!; [done|constructor|by right]|]. intros. by apply fat_read_ok. }
  assert (HF : Q (-1) s) by (specialize (HN (s_mem s)); by destruct s). unfold pm_metal_fs_import_blk. do 2 wstep. wstep; [by wstep|].
  unfold read_sec at 1. destruct (blk_read h 0) as [sec|] eqn:E; [|by wstep]. apply sector_ok in E as [E _]. pose proof E as E512. change FAT_SEC with 512 in E512.
  wstep. destruct (rd_is_Some sec 510) as [? R1]; [lia|]. eapply wp_chk; [exact R1|]. wstep. destruct (rd_is_Some sec 511) as [? R2]; [lia|]. eapply wp_chk; [exact R2|].
  wstep; [by wstep|]. wstep. destruct (parse_bpb_ok sec E) as [b Eb]. eapply wp_chk; [exact Eb|]. destruct b as [b|]; [|by wstep].
  wstep. apply wp_alloc. intros m r. destruct r; [|by wstep]. cbv zeta. do 2 wstep. wstep.
  destruct (le32_ok sec 44) as [z Ez]; [lia|lia|]. rewrite Ez. set (v := Vol _ _ _ _ _ _).
  assert (HW : forall c, wp (walk_dir WALK_FUEL v c (b_root_secs b) [47; 101; 115; 112] 0 ) (fun r s' => Q (if negb (r.1 =? 0) then if 0 <? r.2 then r.2 else -1 else r.2) s')
    (FatSt m (s_arena s) (v :: s_vol s) (s_ent s))).
  { intros c. eapply wp_mono; [apply walk_dir_ok; [apply esp_ok|by vm_compute]|]. intros [rc n] s' [Hrc G]; simpl in *.
    destruct (import_post v s m n s' Hs (gr_arena _ _ _ _ _ _ G) G) as (Hok & Hn & new & En & -> & F).
    split; [done|split; [exists new; split_and!; [done|done|]|intros; by apply fat_read_ok]].
    destruct Hrc as [->| ->]; simpl; [by left|]. destruct (Z.ltb_spec 0 (zlen new)); [by left|]. right. split; [done|]. destruct new; [done|simpl in *; lia]. }
  eapply (wp_mono _ (fun _ s' => s' = FatSt m (s_arena s) (v :: s_vol s) (s_ent s))); [destruct (negb (b_bits b =? 32)); done|].
  intros c s1 ->. wstep. eapply wp_mono; [apply HW|]. intros r s2 K. by wstep.
Qed.
End walk.

#[local] Existing Instances small_disk small_disk_laws zero_arena.

Lemma card0_ok : fat_ok card0.
Proof. split; constructor. Qed.

Lemma import_total_witness : exists s', pm_metal_fs_import_blk 0 card0 = Done 3 s' /\ fat_ok s'.
Proof.
  destruct (wp_run _ _ _ (import_total 0 card0 card0_ok)) as (rc & s' & E & H & _). exists s'. split; [|exact H].
  rewrite E. f_equal. assert (K : match pm_metal_fs_import_blk 0 card0 with Done rc _ => rc | _ => 0 end = 3) by (vm_compute; reflexivity).
  by rewrite E in K.
Defined.
End FatSafe.
