(* ===== verification/FatChain.v ===== *)
(** * What a cluster chain holds

    The bytes of the clusters a chain of the allocation table links ([chain],
    [file_bytes]), and that reading a file of the volume gives them. *)
From S2P Require Import Prelude Fat FatSafe.

Module FatChain.
Import Store Fat FatSafe.
Local Open Scope metal_scope.

(** ** Cluster chains *)

Section disk.
Context `{B : !Blk, BL : !BlkLaws}.
Implicit Types (v : fat_vol).

(** [k] sectors from [lba + i] on. *)
Fixpoint sectors (h lba i : Z) (k : nat) : option (list (list Z)) :=
  match k with
  | O => Some []
  | S k' => s ← read_sec h (u32 (lba + i)); r ← sectors h lba (i + 1) k'; Some (s :: r)
  end.

Definition cluster v (c : Z) : option (list (list Z)) :=
  sectors (blk_h v) (clus_lba (first_data v) (spc v) c) 0 (Z.to_nat (spc v)).

(** From cluster [c], following the table to its end mark: the sectors of
    each cluster. *)
Inductive chain v : Z -> list (list (list Z)) -> Prop :=
| chain_end c : eoc (fat_bits v) <= c -> chain v c []
| chain_cons c c' secs rest :
    2 <= c < eoc (fat_bits v) -> cluster v c = Some secs ->
    fat_entry (blk_h v) (reserved v) (fat_bits v) c = Some c' -> c' <> 0 ->
    chain v c' rest -> chain v c (secs :: rest).

Definition chain_bytes (css : list (list (list Z))) : list Z := concat (concat css).

Lemma sectors_ok h lba k : forall i secs, sectors h lba i k = Some secs -> length secs = k /\ Forall (fun s => zlen s = FAT_SEC) secs.
Proof.
  induction k as [|k IH]; intros i secs Hs; simpl in Hs; [injection Hs as <-; by split; [|constructor]|].
  obind Hs s Es. obind Hs r Er. injection Hs as <-. apply sector_ok in Es as [Es _]. apply IH in Er as [<- Hr]. by split; [|constructor].
Qed.

(** ** Reading a chain *)

(** [out] once its first [n] bytes are those of [d]. *)
Definition filled (out d : list Z) (n : Z) : list Z := take (Z.to_nat n) d ++ drop (Z.to_nat n) out.

Lemma filled_len out d n : 0 <= n -> n <= zlen d -> n <= zlen out -> zlen (filled out d n) = zlen out.
Proof. intros. unfold filled. rewrite length_app, length_take, length_drop. lia. Qed.

Lemma filled_blit out d n k : 0 <= n -> 0 <= k -> n + k <= zlen d -> n + k <= zlen out ->
  blit (filled out d n) n (take (Z.to_nat k) (drop (Z.to_nat n) d)) = Some (filled out d (n + k)).
Proof.
  intros. set (t := take _ (drop _ d)). assert (Ht : zlen t = k) by (unfold t; rewrite length_take, length_drop; lia).
  rewrite blit_is_Some; [|lia|rewrite filled_len by lia; lia]. unfold filled. f_equal.
  rewrite take_app_length' by (rewrite length_take; lia). rewrite drop_app_ge by (rewrite length_take; lia). rewrite length_take, drop_drop.
  rewrite (assoc_L (++)). f_equal; [|f_equal; lia].
  unfold t. rewrite <- (take_drop (Z.to_nat n) (take (Z.to_nat (n + k)) d)), take_take, skipn_firstn_comm. repeat f_equal; lia.
Qed.

Lemma read_clus_fills h lba want d out : forall k i secs tail got,
  sectors h lba i k = Some secs -> drop (Z.to_nat got) d = concat secs ++ tail ->
  0 <= got <= want -> want <= zlen d -> want <= zlen out -> want <= U32_MAX ->
  let got' := Z.min want (got + FAT_SEC * Z.of_nat k) in
  read_clus k h lba i want (filled out d got) got = Some (Some (filled out d got', got')).
Proof.
  change FAT_SEC with 512. induction k as [|k IH]; intros i secs tail got Hs Hd Hg Hw Ho Hm; cbn [read_clus].
  { cbv zeta. by replace (Z.min want (got + 512 * Z.of_nat 0)) with got by lia. }
  cbn [sectors] in Hs. obind Hs s Es. obind Hs r Er. injection Hs as <-. cbv zeta.
  destruct (Z.ltb_spec got want); [|by replace (Z.min want _) with got by lia].
  rewrite Es. apply sector_ok in Es as [Es _]. change FAT_SEC with 512 in *. rewrite (u32_small (want - got)) by lia. set (ch := Z.min (want - got) 512).
  simpl in Hd. rewrite <- (assoc_L (++)) in Hd. assert (Hsl : slice s 0 ch = Some (take (Z.to_nat ch) (drop (Z.to_nat got) d))).
  { rewrite slice_is_Some by lia. f_equal. change (drop (Z.to_nat 0) s) with s. rewrite Hd, take_app_le by lia. done. }
  rewrite Hsl, some_bind, filled_blit, some_bind by lia. rewrite u32_small by lia.
  destruct (decide (ch = 512)) as [E|E].
  - assert (Hd' : drop (Z.to_nat (got + ch)) d = concat r ++ tail).
    { rewrite E, Z2Nat.inj_add, <- drop_drop, Hd by lia. apply drop_app_length'. lia. }
    rewrite (IH (i + 1) r tail _ Er Hd') by lia.
    by replace (got + 512 * Z.of_nat (S k)) with (got + ch + 512 * Z.of_nat k) by lia.
  - assert (E2 : got + ch = want) by lia. rewrite E2. replace (Z.min want (got + 512 * Z.of_nat (S k))) with want by lia.
    destruct k; cbn [read_clus]; [done|]. by rewrite Z.ltb_irrefl.
Qed.

Lemma chain_clusters v c css : chain v c css -> Forall (fun secs => length secs = Z.to_nat (spc v) /\ Forall (fun s => zlen s = FAT_SEC) secs) css.
Proof. induction 1 as [|c c' secs rest _ Hc _ _ _ IH]; constructor; [|done]. unfold cluster in Hc. by apply sectors_ok in Hc. Qed.

Lemma concat_len {X} (k : Z) (l : list (list X)) : Forall (fun s => zlen s = k) l -> zlen (concat l) = k * zlen l.
Proof. induction 1 as [|s l Hs _ IH]; simpl; [lia|]. rewrite length_app. lia. Qed.

(** Reading [want] bytes, all inside the chain, gives the chain's. *)
Lemma read_chain_fills v want d out css : forall k c tail got,
  chain v c css -> drop (Z.to_nat got) d = chain_bytes css ++ tail ->
  0 <= got <= want -> want <= zlen d -> want <= zlen out -> want <= U32_MAX -> 0 < spc v ->
  let cb := spc v * FAT_SEC in
  got + cb * zlen css >= want -> got + cb * Z.of_nat k >= want ->
  read_chain k v c want (filled out d got) got = Some (Some (filled out d want, want)).
Proof.
  cbv zeta. revert css. intros css k. revert css. induction k as [|k IH]; intros css c tail got Hc Hd Hg Hw Ho Hm Hsp Hcs Hk; cbn [read_chain].
  { by replace got with want by lia. }
  destruct (Z.ltb_spec got want); [|rewrite andb_false_r; by replace got with want by lia].
  inversion Hc as [|? c' secs rest Hr Hs He Hne Hc']; subst; [simpl in *; lia|].
  rewrite (proj2 (Z.leb_le _ _)), (proj2 (Z.ltb_lt _ _)) by lia. cbn [andb].
  unfold chain_bytes in Hd. cbn [concat] in Hd. rewrite concat_app, <- (assoc_L (++)) in Hd.
  unfold cluster in Hs. rewrite (read_clus_fills _ _ want d out _ _ secs _ got Hs Hd) by lia. rewrite some_bind, He, some_bind, (proj2 (Z.eqb_neq c' 0)) by done.
  rewrite Z2Nat.id by lia. assert (Hcb : 0 < spc v * FAT_SEC) by (unfold FAT_SEC; lia). set (cb := spc v * FAT_SEC) in *.
  replace (FAT_SEC * spc v) with cb by (unfold cb; lia).
  destruct (decide (want <= got + cb)) as [Hend|Hmore].
  - rewrite Z.min_l by lia. destruct k; cbn [read_chain]; [done|]. by rewrite Z.ltb_irrefl, andb_false_r.
  - rewrite Z.min_r by lia. apply (IH rest c' tail); try done; try (simpl in *; lia).
    apply sectors_ok in Hs as [Hl Hs]. rewrite Z2Nat.inj_add, <- drop_drop, Hd by lia. apply drop_app_length'.
    apply concat_len in Hs. rewrite Hl in Hs. unfold cb. lia.
Qed.

(** The bytes of a file of [size] bytes whose first cluster is [c]. *)
Definition file_bytes v (c size : Z) (d : list Z) : Prop :=
  (size = 0 /\ d = []) \/
  (0 < size /\ exists css, chain v c css /\ size <= zlen (chain_bytes css) /\ d = take (Z.to_nat size) (chain_bytes css)).

Lemma file_bytes_len v c z d : 0 <= z -> file_bytes v c z d -> zlen d = z.
Proof. intros ? [[-> ->]|(? & css & _ & ? & ->)]; [done|]. rewrite length_take. lia. Qed.

Definition vol_ok v : Prop := 1 <= spc v <= 64 /\ 2 < eoc (fat_bits v).

Lemma read_file_bytes v c z d out room : vol_ok v -> file_bytes v c z d -> 0 < z -> z + spc v * FAT_SEC <= 4294967296 ->
  0 <= room -> room <= zlen out ->
  let n := Z.min z room in
  read_file v c z out room = Some (0, take (Z.to_nat n) d ++ drop (Z.to_nat n) out, Some n).
Proof.
  intros Hv [[? _]|(_ & css & Hc & Hz & ->)] Hpos Hsz Hr Ho n; [lia|]. destruct Hv as [Hsp He].
  pose proof (chain_clusters _ _ _ Hc) as Hcl. set (D := chain_bytes css) in *.
  assert (HD : zlen D = spc v * FAT_SEC * zlen css).
  { unfold D, chain_bytes. rewrite (concat_len FAT_SEC).
    - rewrite (concat_len (spc v)); [unfold FAT_SEC; lia|]. eapply Forall_impl; [exact Hcl|]. intros secs [-> _]. lia.
    - clear -Hcl. induction Hcl as [|s l [_ Hs] _ IH]; simpl; [constructor|]. by apply Forall_app. }
  assert (2 <= c) by (inversion Hc; subst; [|lia]; simpl in *; lia).
  unfold read_file. rewrite (proj2 (Z.ltb_ge _ _)), (proj2 (Z.eqb_neq (spc v) 0)) by lia. cbn [orb]. cbv zeta. fold n.
  destruct (Z.eqb_spec n 0) as [E|E].
  { rewrite E. done. }
  assert (Hn : drop (Z.to_nat 0) D = chain_bytes css ++ []) by (by rewrite app_nil_r).
  change FAT_SEC with 512 in *.
  assert (Hneed : file_need (spc v) z * (spc v * 512) >= z /\ 0 <= file_need (spc v) z).
  { unfold file_need. change FAT_SEC with 512. rewrite (u32_small (spc v * 512)) by lia. cbv zeta. rewrite u32_small by lia.
    set (cb := spc v * 512) in *. destruct (Z.eqb_spec ((z + cb - 1) / cb) 0); mlia. }
  pose proof (read_chain_fills v n D out css (Z.to_nat (file_need (spc v) z)) c [] 0 Hc Hn) as HR. change FAT_SEC with 512 in HR.
  unfold filled at 1 in HR. change (take (Z.to_nat 0) D ++ drop (Z.to_nat 0) out) with out in HR. rewrite HR; [|lia|lia|lia|lia|lia|nia|nia].
  rewrite some_bind, (proj2 (Z.ltb_lt 0 n)) by lia. do 3 f_equal. unfold filled. rewrite take_take. do 2 f_equal. lia.
Qed.
End disk.
End FatChain.

(** * Names on the disk

    How a directory stores a name, as relations on its 32-byte entries: the
    short form, eleven bytes padded with spaces, and the long form, UTF-16
    units spread over entries that stand before the short one, last first.
    Scanning such entries gives the name back, in UTF-8. *)

Module FatNames.
Import Store Fat FatSafe.

(** ** Short names *)

Definition pad (n : nat) (s : list Z) : list Z := s ++ repeat 32 (n - length s).

Definition short_chars (s : list Z) : Prop := Forall (fun c => c <> 0 /\ c <> 32) s.

(** [b.x] in the name field of entry [e]. *)
Definition short_field (e b x : list Z) : Prop :=
  zlen e = 32 /\ take 11 e = pad 8 b ++ pad 3 x /\
  b <> [] /\ (length b <= 8)%nat /\ (length x <= 3)%nat /\ short_chars b /\ short_chars x.

Definition short_text (b x : list Z) : list Z := b ++ match x with [] => [] | _ => 46 :: x end.

Lemma short_no_nul s : short_chars s -> no_nul s.
Proof. intros H. eapply Forall_impl; [exact H|]. by intros c [? _]. Qed.

Lemma rd_head (e : list Z) i : 0 <= i -> rd e i = head (drop (Z.to_nat i) e).
Proof. intros H. unfold rd. rewrite (proj2 (Z.ltb_ge _ _)) by lia. by rewrite head_lookup, lookup_drop, Nat.add_0_r. Qed.

(** Copying a padded field stops at its padding. *)
Lemma copy_83_field cap s : forall (k : nat) e i d rest, drop (Z.to_nat i) e = s ++ repeat 32 (k - length s) ++ rest ->
  (length s <= k)%nat -> short_chars s -> 0 <= i -> zlen d + zlen s < cap ->
  copy_83 k e i cap d = Some (d ++ s).
Proof.
  induction s as [|c s IH]; intros k e i d rest He Hk Hs Hi Hc.
  - rewrite app_nil_r. destruct k as [|k]; [done|]. cbn [copy_83]. simpl in He.
    rewrite rd_head, He by lia. done.
  - destruct k as [|k]; [simpl in Hk; lia|]. inversion Hs as [|? ? [H0 H32] Hs']; subst. cbn [copy_83].
    rewrite rd_head, He by lia. cbn [app head].
    rewrite some_bind, (proj2 (Z.eqb_neq _ _)), (proj2 (Z.ltb_lt _ _)) by (simpl in *; lia). cbn [negb andb].
    rewrite push_Some, some_bind by (simpl in *; lia).
    rewrite (IH k e (i + 1) (d ++ [c]) rest); [by rewrite <- (assoc_L (++))| |simpl in *; lia|done|lia|llia].
    rewrite Z2Nat.inj_add, <- drop_drop, He by lia. done.
Qed.

(** The short form round trips. *)
Lemma name_83_text e b x : short_field e b x -> name_83 e FAT_PATH_MAX = Some (short_text b x).
Proof.
  intros (He & Hf & Hb & Lb & Lx & Cb & Cx). unfold name_83. rewrite (proj2 (Z.ltb_ge _ _)) by (unfold FAT_PATH_MAX; lia).
  assert (E0 : e = b ++ repeat 32 (8 - length b) ++ (x ++ repeat 32 (3 - length x) ++ drop 11 e)).
  { rewrite <- (take_drop 11 e) at 1. rewrite Hf. unfold pad. by rewrite <- !(assoc_L (++)). }
  assert (E8 : drop 8 e = x ++ repeat 32 (3 - length x) ++ drop 11 e).
  { rewrite E0 at 1. rewrite (assoc_L (++)). apply drop_app_length'. rewrite length_app, repeat_length. lia. }
  rewrite (copy_83_field FAT_PATH_MAX b 8 e 0 [] (drop 8 e)); [|by rewrite E8|done|done|lia|unfold FAT_PATH_MAX; simpl; lia]. rewrite some_bind, app_nil_l.
  rewrite rd_head by lia. change (Z.to_nat 8) with 8%nat. rewrite E8.
  destruct x as [|c x]; cbn [app head].
  - replace (3 - length (@nil Z))%nat with 3%nat by done. cbn [repeat app head]. rewrite some_bind. cbn [Z.eqb Pos.eqb negb andb]. rewrite some_bind.
    rewrite terminate_Some by (unfold FAT_PATH_MAX; lia). unfold short_text. rewrite app_nil_r. f_equal. by apply cstr_id, short_no_nul.
  - rewrite some_bind. pose proof Cx as [[_ H32] _]%Forall_cons. rewrite (proj2 (Z.eqb_neq _ _)), (proj2 (Z.ltb_lt _ _)) by (unfold FAT_PATH_MAX in *; simpl in *; lia). cbn [negb andb].
    rewrite push_Some, some_bind by (unfold FAT_PATH_MAX in *; simpl in *; lia).
    rewrite (copy_83_field FAT_PATH_MAX (c :: x) 3 e 8 (b ++ [46]) (drop 11 e)); [|exact E8|done|done|lia|unfold FAT_PATH_MAX in *; simpl in *; llia].
    rewrite some_bind, terminate_Some by (unfold FAT_PATH_MAX in *; simpl in *; llia). unfold short_text. rewrite <- (assoc_L (++)). f_equal.
    apply cstr_id. apply Forall_app. split; [by apply short_no_nul|]. constructor; [lia|by apply short_no_nul].
Qed.

(** ** Long names *)

Definition utf8_unit (u : Z) : list Z :=
  if u <? 128 then [u]
  else if u <? 2048 then [Z.lor 192 (Z.shiftr u 6); Z.lor 128 (Z.land u 63)]
  else [Z.lor 224 (Z.shiftr u 12); Z.lor 128 (Z.land (Z.shiftr u 6) 63); Z.lor 128 (Z.land u 63)].

Definition utf8 (us : list Z) : list Z := flat_map utf8_unit us.

Definition name_units (us : list Z) : Prop := Forall (fun u => 0 < u < 65535) us.

Lemma lor_pos a b : 0 < a -> 0 <= b -> Z.lor a b <> 0.
Proof. intros ? ? E. apply Z.lor_eq_0_l in E. lia. Qed.

Lemma utf8_unit_no_nul u : 0 < u -> no_nul (utf8_unit u).
Proof.
  intros H. assert (0 <= Z.shiftr u 6 /\ 0 <= Z.shiftr u 12) as [? ?] by (split; apply Z.shiftr_nonneg; lia).
  assert (forall x, 0 <= x -> 0 <= Z.land x 63) as Hl by (intros x Hx; apply Z.land_nonneg; lia).
  unfold utf8_unit. repeat case_match; repeat (apply Forall_cons; split); try apply Forall_nil_2; (lia || (apply lor_pos; [lia|]; try apply Hl; lia)).
Qed.

Lemma utf8_no_nul us : name_units us -> no_nul (utf8 us).
Proof. induction 1 as [|u us Hu _ IH]; simpl; [constructor|]. apply Forall_app. split; [apply utf8_unit_no_nul; lia|done]. Qed.

Lemma put_utf16_fits d cap u : 0 < u < 65535 -> zlen d + zlen (utf8_unit u) < cap -> put_utf16 d cap u = Some (d ++ utf8_unit u).
Proof.
  intros Hu. unfold utf8_unit, put_utf16. zcase; intros Hl; simpl in Hl; try lia; cbn [orb andb].
  all: repeat (rewrite push_Some, ?some_bind by llia); by rewrite <- ?(assoc_L (++)).
Qed.

(** Decoding stops where the name's units end. *)
Lemma lfn_chars_text cap us : forall d rest, name_units us -> zlen d + zlen (utf8 us) < cap ->
  (rest = [] \/ head rest = Some 0 \/ head rest = Some 65535) ->
  lfn_chars d cap (us ++ rest) = Some (d ++ utf8 us).
Proof.
  induction us as [|u us IH]; intros d rest Hu Hl Hr; simpl in *.
  - rewrite app_nil_r. destruct Hr as [->|Hr]; [done|]. destruct rest as [|r rest]; [done|]. simpl in *.
    destruct Hr as [[= ->]|[= ->]]; done.
  - inversion Hu as [|? ? H1 H2]; subst. rewrite length_app in Hl. rewrite (proj2 (Z.eqb_neq u 0)), (proj2 (Z.eqb_neq u 65535)) by lia. cbn [orb].
    rewrite put_utf16_fits, some_bind by lia. rewrite IH; [by rewrite <- (assoc_L (++))|done|llia|done].
Qed.

(** Entry [e] is the long-name slot number [q], of the name's last part when
    [lst], and holds the units [us]. *)
Definition lfn_holds (e : list Z) (q : nat) (lst : bool) (us : list Z) : Prop :=
  zlen e = 32 /\ rd e 0 = Some (Z.of_nat q + (if lst then 64 else 0)) /\ rd e 11 = Some 15 /\
  Forall2 (fun p u => le16 e p = Some u) pos us.

(** The slots of a name over [q] parts, in disk order: the last part first. *)
Fixpoint lfn_run (q : nat) (lst : bool) (padded : list Z) (es : list (list Z)) : Prop :=
  match q, es with
  | O, [] => True
  | S q', e :: es' => lfn_holds e q lst (take 13 (drop (13 * q') padded)) /\ lfn_run q' false padded es'
  | _, _ => False
  end.

(** [us] in the slots [es]: its units fill whole slots, what is left over
    starting with a NUL or a filler. *)
Definition long_field (es : list (list Z)) (us : list Z) : Prop :=
  exists q rest, us <> [] /\ name_units us /\ (0 < q <= 20)%nat /\ length (us ++ rest) = (13 * q)%nat /\
    (rest = [] \/ head rest = Some 0 \/ head rest = Some 65535) /\ lfn_run q true (us ++ rest) es.

Lemma lfn_fill_holds us : forall ps e base ucs a b x, Forall2 (fun p u => le16 e p = Some u) ps us ->
  ucs = a ++ x ++ b -> zlen a = base -> length x = length us -> zlen ucs <= LFN_UNITS ->
  lfn_fill ps base LFN_UNITS e ucs = Some (a ++ us ++ b).
Proof.
  induction us as [|u us IH]; intros ps e base ucs a b x HF -> Ha Hx Hl; inversion HF as [|p ? ps' ? Hp HF']; subst; cbn [lfn_fill].
  - by destruct x.
  - destruct x as [|y x]; [done|]. simpl in Hx. rewrite (proj2 (Z.ltb_lt _ _)) by llia. rewrite Hp, some_bind.
    replace (zlen a) with (zlen a + zlen (@nil Z)) by (simpl; lia). rewrite (wr_mid a [] (x ++ b) y u) by done. rewrite some_bind.
    rewrite (IH ps' e _ _ (a ++ [u]) b x); [by rewrite <- !(assoc_L (++))|done| | |lia|].
    + by rewrite <- !(assoc_L (++)).
    + llia.
    + llia.
Qed.

(** The buffer once the parts from [q] on are in place. *)
Definition ucs_from (q : nat) (ucs padded : list Z) : Prop :=
  exists a, ucs = a ++ drop (13 * q) padded ++ repeat 0 (260 - length padded) /\ length a = (13 * q)%nat.

Lemma land31 (q : nat) (lst : bool) : (0 < q <= 20)%nat -> let e0 := Z.of_nat q + (if lst then 64 else 0) in
  Z.land e0 31 = Z.of_nat q /\ (Z.land e0 64 =? 0) = negb lst /\ e0 <> 0 /\ e0 <> 229.
Proof. intros H. do 21 (destruct q as [|q]; [destruct lst; (lia || done)|]). lia. Qed.

Lemma lfn_slot_holds e q lst padded ucs : (0 < q <= 20)%nat -> (13 * q <= length padded)%nat ->
  (length padded <= 260)%nat ->
  lfn_holds e q lst (take 13 (drop (13 * (q - 1)) padded)) -> ucs_from q ucs padded ->
  exists u, lfn_slot ucs LFN_UNITS e = Some u /\ ucs_from (q - 1) u padded.
Proof.
  intros Hq Hlen Hmax (He & E0 & _ & HF) (a & -> & La). destruct (land31 q lst Hq) as (E31 & _).
  unfold lfn_slot. rewrite E0, some_bind. cbv zeta. rewrite E31, (proj2 (Z.eqb_neq _ 0)), (proj2 (Z.ltb_ge _ _)) by lia. cbn [orb].
  set (us := take 13 _) in *. assert (Lus : length us = 13%nat) by (unfold us; rewrite length_take, length_drop; lia).
  set (a0 := take (13 * (q - 1)) a). set (x := drop (13 * (q - 1)) a).
  assert (Ea : a = a0 ++ x) by (unfold a0, x; by rewrite take_drop).
  assert (La0 : length a0 = (13 * (q - 1))%nat) by (unfold a0; rewrite length_take; lia).
  assert (Lx : length x = 13%nat) by (unfold x; rewrite length_drop; lia).
  rewrite (lfn_fill_holds us pos e _ _ a0 (drop (13 * q) padded ++ repeat 0 (260 - length padded)) x).
  - eexists. split; [done|]. exists a0. split; [|done]. f_equal. rewrite (assoc_L (++)). f_equal. unfold us.
    rewrite <- (take_drop 13 (drop (13 * (q - 1)) padded)) at 2. rewrite drop_drop. do 2 f_equal. lia.
  - done.
  - by rewrite Ea, <- (assoc_L (++)).
  - lia.
  - lia.
  - unfold LFN_UNITS. rewrite !length_app, length_drop, repeat_length. lia.
Qed.
End FatNames.
