(* ===== verification/FatTree.v ===== *)
(** * What an import lists

    The directory tree a volume holds, as a relation between its 32-byte
    directory entries and a tree of names, and the proof that importing the
    volume records exactly that tree: the walk is a fold over the entries
    ([walk_root_slots], [walk_chain_slots]), and the fold adds the entries of
    the tree in order. *)
From S2P Require Import Prelude Fat FatSafe FatChain.

Module FatTree.
Import Store Fat FatDisk FatSafe FatChain FatNames.
Local Open Scope metal_scope.

(** ** Directories as lists of entries *)

Definition slots_of (sec : list Z) : list (list Z) := (fun i => take 32 (drop (32 * i) sec)) <$> seq 0 16.

Inductive node :=
  | NFile (name : list Z) (clus size : Z) (data : list Z)
  | NDir (name : list Z) (clus : Z) (kids : list node).

(** The entries an import records for a node, parents first. *)
Fixpoint node_ents (v : fat_vol) (prefix : list Z) (nd : node) : list fat_ent :=
  match nd with
  | NFile nm c z _ => [Ent v (joined prefix nm) c z false]
  | NDir nm c kids => Ent v (joined prefix nm) c 0 true :: flat_map (node_ents v (joined prefix nm)) kids
  end.
Definition tree_ents v prefix (ns : list node) : list fat_ent := flat_map (node_ents v prefix) ns.

(** The files of a tree, with their bytes. *)
Fixpoint node_files (prefix : list Z) (nd : node) : list (list Z * list Z) :=
  match nd with
  | NFile nm _ _ d => [(joined prefix nm, d)]
  | NDir nm _ kids => flat_map (node_files (joined prefix nm)) kids
  end.
Definition tree_files prefix (ns : list node) : list (list Z * list Z) := flat_map (node_files prefix) ns.

(** A name on the disk: the entries before the short one, the short one, the
    text. *)
Inductive named : list (list Z) -> list Z -> list Z -> Prop :=
| named_short e b x : short_field e b x -> head b <> Some 229 -> named [] e (short_text b x)
| named_long es e us b x : short_field e b x -> head b <> Some 229 -> long_field es us -> named es e (utf8 us).

(** Entries that list nothing: deleted ones, volume labels, [.] and [..]. *)
Definition skipped (e : list Z) : Prop :=
  zlen e = 32 /\ (rd e 0 = Some 229 \/ exists e0 a, rd e 0 = Some e0 /\ rd e 11 = Some a /\ e0 <> 0 /\ a <> 15 /\
    (Z.land a 8 <> 0 \/ exists s, name_83 e FAT_PATH_MAX = Some s /\ dot_name s = true)).

Section tree.
Context `{B : !Blk, BL : !BlkLaws} {A : Type} `{AR : !Arena A}.
Implicit Types (v : fat_vol) (s : fat A).

(** The entries of the directory that starts at cluster [c]. *)
Definition dir_slots v (c : Z) (slots : list (list Z)) : Prop :=
  exists css, chain v c css /\ css <> [] /\ zlen css <= u32 (tot v - first_data v) / spc v /\
    slots = concat (slots_of <$> concat css).

(** The tree that the entries [slots] list, up to the first free one. *)
Inductive dir_has v : list (list Z) -> list node -> Prop :=
| dh_end : dir_has v [] []
| dh_stop e rest : zlen e = 32 -> rd e 0 = Some 0 -> dir_has v (e :: rest) []
| dh_skip e rest ns : skipped e -> dir_has v rest ns -> dir_has v (e :: rest) ns
| dh_file es e nm a c z d rest ns :
    named es e nm -> dot_name nm = false -> rd e 11 = Some a -> a <> 15 -> Z.land a 8 = 0 -> Z.land a 16 = 0 ->
    ent_clus v e = Some c -> le32 e 28 = Some z -> 2 <= c \/ z = 0 -> file_bytes v c z d -> z + spc v * FAT_SEC <= 4294967296 ->
    dir_has v rest ns -> dir_has v (es ++ e :: rest) (NFile nm c z d :: ns)
| dh_dir es e nm a c z slots kids rest ns :
    named es e nm -> dot_name nm = false -> rd e 11 = Some a -> a <> 15 -> Z.land a 8 = 0 -> Z.land a 16 <> 0 ->
    ent_clus v e = Some c -> le32 e 28 = Some z -> 2 <= c -> dir_slots v c slots ->
    dir_has v slots kids -> dir_has v rest ns -> dir_has v (es ++ e :: rest) (NDir nm c kids :: ns).

(** ** The walk as a fold over the entries *)

Section fold.
Variable walk : fat_vol -> Z -> Z -> list Z -> Z -> M (fat A) (Z * Z).
Variables (v : fat_vol) (prefix : list Z).

Fixpoint slots_loop (slots : list (list Z)) (sc : scan) : M (fat A) (bool * scan) :=
  match slots with
  | [] => ret (false, sc)
  | e :: t => r <- take_ent walk v e prefix sc;; if r.1 =? -2 then ret (true, r.2) else slots_loop t r.2
  end.

Lemma slots_loop_app a : forall b sc s, slots_loop (a ++ b) sc s = bind (slots_loop a sc) (fun r => if r.1 then ret r else slots_loop b r.2) s.
Proof.
  induction a as [|e a IH]; intros b sc s; [done|]. cbn [app slots_loop]. unfold bind at 1 2 3.
  destruct (take_ent walk v e prefix sc s) as [[st sc1] s1| |]; try done. cbn [fst snd]. destruct (st =? -2); [done|]. by rewrite IH.
Qed.

Lemma sec_loop_slots sec k : forall i sc s, zlen sec = FAT_SEC -> (32 * (i + k) <= 512)%nat ->
  sec_loop walk k v sec (32 * Z.of_nat i) prefix sc s = slots_loop ((fun j => take 32 (drop (32 * j) sec)) <$> seq i k) sc s.
Proof.
  induction k as [|k IH]; intros i sc s Hs Hk; [done|]. cbn [sec_loop seq fmap list_fmap slots_loop]. change FAT_SEC with 512 in Hs.
  rewrite slice_is_Some by lia. replace (Z.to_nat (32 * Z.of_nat i)) with (32 * i)%nat by lia. change (Z.to_nat 32) with 32%nat.
  unfold bind at 1. cbn [chk ret]. unfold bind. destruct (take_ent walk v _ prefix sc s) as [[st sc1] s1| |]; try done. cbn [fst snd].
  destruct (st =? -2); [done|]. replace (32 * Z.of_nat i + 32) with (32 * Z.of_nat (S i)) by lia. rewrite IH by (done || lia). done.
Qed.

Lemma walk_dir_sec_slots sec sc s : zlen sec = FAT_SEC -> walk_dir_sec walk v sec prefix sc s = slots_loop (slots_of sec) sc s.
Proof. intros Hs. apply (sec_loop_slots sec 16 0 sc s Hs). lia. Qed.

(** Sectors read one after the other are one list of entries. *)
Lemma secs_loop_slots lba k : forall i secs sc s, sectors (blk_h v) lba i k = Some secs ->
  secs_loop walk k v lba i prefix sc s =
  bind (slots_loop (concat (slots_of <$> secs)) sc) (fun r => ret (if r.1 then Some 0 else None, r.2)) s.
Proof.
  induction k as [|k IH]; intros i secs sc s Hs; simpl in Hs; [by injection Hs as <-|].
  obind Hs sec Es. obind Hs r Er. injection Hs as <-. cbn [secs_loop fmap list_fmap concat]. rewrite Es. apply sector_ok in Es as [Es _].
  unfold bind at 1. rewrite walk_dir_sec_slots by done. unfold bind. rewrite slots_loop_app. unfold bind.
  destruct (slots_loop (slots_of sec) sc s) as [[b sc1] s1| |]; try done. cbn [fst snd]. destruct b; [done|]. rewrite (IH _ r) by done. done.
Qed.

(** So are the clusters of a chain. *)
Lemma dir_loop_slots css : forall k c sc s, chain v c css -> (length css <= k)%nat ->
  dir_loop walk k v c prefix sc s = bind (slots_loop (concat (slots_of <$> concat css)) sc) (fun r => ret (0, r.2)) s.
Proof.
  induction css as [|secs css IH]; intros k c sc s Hc Hk; inversion Hc as [? He|? c' ? ? Hr Hs He Hne Hc']; subst.
  { destruct k; cbn [dir_loop]; [done|]. rewrite (proj2 (Z.ltb_ge _ _)), andb_false_r by done. done. }
  destruct k as [|k]; [simpl in Hk; lia|]. cbn [dir_loop]. rewrite (proj2 (Z.leb_le _ _)), (proj2 (Z.ltb_lt _ _)) by lia. cbn [andb].
  unfold bind at 1. rewrite (secs_loop_slots _ _ _ _ _ _ Hs). cbn [concat]. rewrite fmap_app, concat_app. unfold bind. rewrite slots_loop_app. unfold bind.
  destruct (slots_loop (concat (slots_of <$> secs)) sc s) as [[b sc1] s1| |]; try done. cbn [fst snd ret]. destruct b; [done|]. rewrite He. cbn [chk ret].
  rewrite (proj2 (Z.eqb_neq _ _)) by done. rewrite (IH k c' sc1 s1) by (done || simpl in *; lia). done.
Qed.

(** ** One entry with its name *)

Lemma take_ent_lfn e q lst padded sc s : (0 < q <= 20)%nat -> (13 * q <= length padded)%nat -> (length padded <= 260)%nat ->
  lfn_holds e q lst (take 13 (drop (13 * (q - 1)) padded)) -> ucs_from q (if lst then repeat 0 (Z.to_nat LFN_UNITS) else ucs sc) padded ->
  exists u, take_ent walk v e prefix sc s = Done (0, Scan u true (added sc)) s /\ ucs_from (q - 1) u padded.
Proof.
  intros Hq Hl Hm Hh Hu. destruct (lfn_slot_holds e q lst padded _ Hq Hl Hm Hh Hu) as (u & Eu & Hu').
  exists u. split; [|done]. destruct Hh as (He & E0 & E11 & _). destruct (land31 q lst Hq) as (_ & E64 & N0 & N229).
  unfold take_ent. rewrite E0. cbn [chk ret]. unfold bind at 1. cbn [ret]. rewrite (proj2 (Z.eqb_neq _ 0)), (proj2 (Z.eqb_neq _ 229)) by done. cbn [orb].
  rewrite E11. unfold bind at 1. cbn [chk ret]. change (15 =? 15) with true. cbv iota zeta. rewrite E64, negb_involutive, Eu. done.
Qed.

Lemma lfn_tail padded rest : forall q es sc s, (length padded <= 260)%nat -> (13 * q <= length padded)%nat -> (q <= 20)%nat ->
  lfn_run q false padded es -> ucs_from q (ucs sc) padded -> have_lfn sc = true ->
  exists u, slots_loop (es ++ rest) sc s = slots_loop rest (Scan u true (added sc)) s /\ ucs_from 0 u padded.
Proof.
  induction q as [|q IH]; intros es sc s Hm Hl Hq Hr Hu Hh; destruct es as [|e es]; try done.
  { exists (ucs sc). split; [|done]. destruct sc. simpl in *. by subst. }
  destruct Hr as [He Hr].
  assert (He' : lfn_holds e (S q) false (take 13 (drop (13 * (S q - 1)) padded))) by (by replace (S q - 1)%nat with q by lia).
  destruct (take_ent_lfn e (S q) false padded sc s) as (u & E & Hu'); [lia|lia|done|done|done|].
  replace (S q - 1)%nat with q in Hu' by lia. cbn [app slots_loop]. unfold bind. rewrite E. cbn [fst snd]. change (0 =? -2) with false. cbv iota.
  destruct (IH es (Scan u true (added sc)) s) as (u' & E' & ?); [lia|lia|lia|done|done|done|]. exists u'. split; [exact E'|done].
Qed.

Lemma ucs_from_len q u padded : (13 * q <= length padded)%nat -> (length padded <= 260)%nat -> ucs_from q u padded -> zlen u = LFN_UNITS.
Proof. intros Hq Hm (a & -> & Ha). unfold LFN_UNITS. rewrite !length_app, length_drop, repeat_length. lia. Qed.

(** The entries of a long name fill the scan with it. *)
Lemma lfn_entries es us rest sc s : long_field es us -> zlen (utf8 us) < FAT_PATH_MAX ->
  exists u, slots_loop (es ++ rest) sc s = slots_loop rest (Scan u true (added sc)) s /\
    lfn_utf8 FAT_PATH_MAX u = Some (utf8 us) /\ zlen u = LFN_UNITS.
Proof.
  intros (q & r & Hne & Hun & Hq & Hl & Hr & Hrun) Hfit. destruct q as [|q]; [lia|]. destruct es as [|e es]; [done|]. destruct Hrun as [He Hrun].
  set (padded := us ++ r) in *. assert (Hm : (length padded <= 260)%nat) by lia.
  assert (He' : lfn_holds e (S q) true (take 13 (drop (13 * (S q - 1)) padded))) by (by replace (S q - 1)%nat with q by lia).
  destruct (take_ent_lfn e (S q) true padded sc s) as (u & E & Hu); [lia|lia|done|done| |].
  { exists (repeat 0 (13 * S q)). rewrite drop_ge by lia. rewrite app_nil_l, <- repeat_app, repeat_length. split; [|done].
    f_equal. unfold LFN_UNITS. lia. }
  replace (S q - 1)%nat with q in Hu by lia.
  destruct (lfn_tail padded rest q es (Scan u true (added sc)) s) as (u' & E' & Hu'); [done|lia|lia|done|done|done|].
  exists u'. split; [|split; [|by eapply (ucs_from_len 0); [lia|..]]].
  - cbn [app slots_loop]. unfold bind. rewrite E. cbn [fst snd]. change (0 =? -2) with false. done.
  - destruct Hu' as (a & -> & La). destruct a; [|done]. rewrite Nat.mul_0_r, drop_0, app_nil_l. unfold lfn_utf8, padded. rewrite <- (assoc_L (++)).
    rewrite (lfn_chars_text FAT_PATH_MAX us [] _ Hun Hfit), some_bind, app_nil_l.
    + rewrite terminate_Some by done. f_equal. by apply cstr_id, utf8_no_nul.
    + destruct r as [|x r]; [|right; by destruct Hr as [?|[?|?]]; [done|left|right]]. cbn [app].
      set (k := (260 - _)%nat). destruct k; [by left|by right; left].
Qed.

Lemma short_field_head e b x : short_field e b x -> head b <> Some 229 -> exists e0, rd e 0 = Some e0 /\ e0 <> 0 /\ e0 <> 229.
Proof.
  intros (He & Hf & Hb & _ & _ & Hs & _) H229. destruct b as [|c b]; [done|]. exists c. inversion Hs as [|? ? [H0 _] _]; subst.
  split; [|split; [done|intros ->; by apply H229]]. rewrite rd_head by lia. change (drop (Z.to_nat 0) e) with e.
  rewrite <- (take_drop 11 e), Hf. done.
Qed.

(** A named entry is taken under the directory's path. *)
Lemma take_named es e nm a c z rest sc s : path_ok prefix -> named es e nm -> dot_name nm = false ->
  rd e 11 = Some a -> a <> 15 -> Z.land a 8 = 0 -> ent_clus v e = Some c -> le32 e 28 = Some z ->
  have_lfn sc = false -> scan_ok sc -> zlen (joined prefix nm) < FAT_PATH_MAX ->
  exists u, zlen u = LFN_UNITS /\
  slots_loop (es ++ e :: rest) sc s =
  bind (take_file walk v (joined prefix nm) a c z (Scan u false (added sc)))
    (fun r => if r.1 =? -2 then ret (true, r.2) else slots_loop rest r.2) s.
Proof.
  intros (Hpn & _ & Hpl) Hn Hd Ha H15 H8 Hc Hz Hh Hsc Hj.
  assert (Hnm : zlen nm < FAT_PATH_MAX) by (unfold joined in Hj; rewrite !length_app in Hj; lia).
  assert (Hne : nm <> []) by (by intros ->).
  assert (HT : forall sc', (if have_lfn sc' then lfn_utf8 FAT_PATH_MAX (ucs sc') else name_83 e FAT_PATH_MAX) = Some nm -> no_nul nm ->
    (exists e0, rd e 0 = Some e0 /\ e0 <> 0 /\ e0 <> 229) ->
    slots_loop (e :: rest) sc' s = bind (take_file walk v (joined prefix nm) a c z (Scan (ucs sc') false (added sc')))
      (fun r => if r.1 =? -2 then ret (true, r.2) else slots_loop rest r.2) s).
  { intros sc' El Hnn (e0 & E0 & N0 & N229). cbn [slots_loop].
    assert (take_ent walk v e prefix sc' s = take_file walk v (joined prefix nm) a c z (Scan (ucs sc') false (added sc')) s) as E; [|unfold bind; by rewrite E].
    unfold take_ent. rewrite E0, Ha, Hz, Hc, El.
    cbn [chk]. unfold bind, ret. rewrite (proj2 (Z.eqb_neq _ 0)), (proj2 (Z.eqb_neq _ 229)), (proj2 (Z.eqb_neq a 15)), H8 by done.
    change (0 =? 0) with true. cbn [orb negb]. rewrite Hd, join_path_spec by done. rewrite (proj2 (Z.ltb_lt _ _)) by done. done. }
  destruct Hn as [e b x Hf H229|es e us b x Hf H229 Hlong].
  - exists (ucs sc). split; [done|]. cbn [app]. apply HT; [by rewrite Hh; apply name_83_text| |by eapply short_field_head].
    destruct Hf as (_ & _ & _ & _ & _ & Cb & Cx). apply Forall_app. split; [by apply short_no_nul|].
    destruct x; [constructor|constructor; [lia|by apply short_no_nul]].
  - destruct (lfn_entries es us (e :: rest) sc s Hlong Hnm) as (u & -> & Eu & Lu). exists u. split; [done|].
    apply (HT (Scan u true (added sc))); [done| |by eapply short_field_head]. destruct Hlong as (? & ? & _ & ? & _). by apply utf8_no_nul.
Qed.

Lemma take_skipped e rest sc s : skipped e -> have_lfn sc = false ->
  slots_loop (e :: rest) sc s = slots_loop rest sc s.
Proof.
  intros (He & Hs) Hh. cbn [slots_loop]. unfold bind. assert (take_ent walk v e prefix sc s = Done (0, sc) s) as ->; [|done].
  assert (Escn : Scan (ucs sc) false (added sc) = sc) by (destruct sc; simpl in *; by subst).
  unfold take_ent. destruct Hs as [E0|(e0 & a & E0 & Ea & N0 & N15 & Hs)]; rewrite E0; unfold bind; cbn [chk ret]; [by rewrite Escn|].
  rewrite (proj2 (Z.eqb_neq e0 0)) by done. destruct (Z.eqb_spec e0 229); cbn [orb]; [by rewrite Escn|].
  rewrite Ea. cbn [chk ret]. rewrite (proj2 (Z.eqb_neq a 15)) by done. destruct (Z.eqb_spec (Z.land a 8) 0) as [E8|]; cbn [negb]; [|by rewrite Escn].
  destruct Hs as [?|(nm & En & Hn)]; [done|]. destruct (le32_ok e 28) as [z ->]; [lia|lia|]. destruct (ent_clus_ok v e He) as [c ->].
  rewrite Hh, En. cbn [chk ret]. by rewrite Hn, Escn.
Qed.
End fold.

Definition scan0 (n : Z) : scan := Scan (repeat 0 (Z.to_nat LFN_UNITS)) false n.

Lemma walk_chain_slots f v c slots p n s : dir_slots v c slots ->
  walk_dir (S f) v c 0 p n s = bind (slots_loop (walk_dir f) v p slots (scan0 n)) (fun r => ret (0, added r.2)) s.
Proof.
  intros (css & Hc & Hne & Hl & ->). cbn [walk_dir]. unfold walk_body. change (0 =? 0) with true. cbn [negb]. cbv zeta.
  set (mc := _ / spc v) in *. inversion Hc as [|? c' secs rest Hr Hs He Hnz Hc']; subst; [done|]. simpl in Hl.
  rewrite (proj2 (Z.ltb_ge _ _)), (proj2 (Z.eqb_neq mc 0)) by lia. cbn [orb]. unfold bind at 1.
  rewrite (dir_loop_slots _ _ _ _ _ _ _ _ Hc) by (simpl; lia). unfold bind. by destruct (slots_loop _ _ _ _ _ _) as [[??]?| |].
Qed.

Lemma walk_root_slots f v c rs secs p n s : rs <> 0 -> sectors (blk_h v) (u32 (first_data v - rs)) 0 (Z.to_nat rs) = Some secs ->
  walk_dir (S f) v c rs p n s = bind (slots_loop (walk_dir f) v p (concat (slots_of <$> secs)) (scan0 n)) (fun r => ret (0, added r.2)) s.
Proof.
  intros Hrs Hs. cbn [walk_dir]. unfold walk_body. rewrite (proj2 (Z.eqb_neq _ _)) by done. cbn [negb]. cbv zeta. unfold bind at 1.
  rewrite (secs_loop_slots _ _ _ _ _ _ _ _ _ Hs). unfold bind. destruct (slots_loop _ _ _ _ _ _) as [[[] ?]?| |]; done.
Qed.

(** ** Recording the tree *)

Context `{AMP : !ArenaAmple A}.

Definition listed (es : list fat_ent) s s' : Prop := s_ent s' = rev es ++ s_ent s /\ s_arena s' = true.
Definition fresh (es : list fat_ent) s : Prop :=
  Forall (fun e => zlen (path e) < FAT_PATH_MAX) es /\ NoDup (path <$> (rev es ++ s_ent s)).

Lemma listed_app a b s s1 s2 : listed a s s1 -> listed b s1 s2 -> listed (a ++ b) s s2.
Proof. intros [E1 _] [E2 A2]. split; [|done]. by rewrite E2, E1, rev_app_distr, <- (assoc_L (++)). Qed.

Lemma fresh_app a b s s1 : fresh (a ++ b) s -> listed a s s1 -> fresh a s /\ fresh b s1.
Proof.
  intros [F N] [E _]. apply Forall_app in F as [Fa Fb]. rewrite rev_app_distr, <- (assoc_L (++)) in N.
  split; (split; [done|]); [|by rewrite E]. rewrite fmap_app in N. by apply NoDup_app in N as (_ & _ & N).
Qed.

Lemma fresh_app_l a b s : fresh (a ++ b) s -> fresh a s.
Proof.
  intros [F N]. apply Forall_app in F as [Fa _]. split; [done|]. rewrite rev_app_distr, <- (assoc_L (++)), fmap_app in N.
  by apply NoDup_app in N as (_ & _ & N).
Qed.

Lemma wp_alloc_ample n (Q : option (list Z) -> fat A -> Prop) s : (forall m b, Q (Some b) (with_mem m s)) -> wp (alloc n) Q s.
Proof.
  intros HQ. unfold wp, alloc. pose proof (ample n (s_mem s)) as [b Hb]. destruct (mem_alloc n (s_mem s)) as [m r]. simpl in Hb. subst. apply HQ.
Qed.

Lemma add_ent_new v p c z d s : s_arena s = true -> p <> [] -> p ∉ (path <$> s_ent s) ->
  wp (add_ent v p c z d) (fun new s' => new = true /\ listed [Ent v p c z d] s s') s.
Proof.
  intros Ha Hp Hn. unfold add_ent. do 2 wstep. rewrite Ha. cbn [negb orb].
  rewrite bool_decide_eq_false_2 by done. rewrite bool_decide_eq_false_2.
  - cbn [orb]. wstep. apply wp_alloc_ample. intros m b. wstep. apply wp_alloc_ample. intros m' b'. do 3 wstep. done.
  - intros [e He]. apply Hn. destruct p as [|x p]; [done|]. simpl in He. pose proof (find_path_spec (x :: p) (s_ent s)) as K. rewrite He in K.
    destruct K as [K <-]. by apply list_elem_of_fmap_2.
Qed.

Lemma fresh_one e s : fresh [e] s -> path e ∉ (path <$> s_ent s).
Proof. intros [_ N]. simpl in N. by apply NoDup_cons in N as [? _]. Qed.

(** A directory's entries are recorded in order, each below its parent. *)
Lemma dir_has_listed v slots ns : dir_has v slots ns -> forall f prefix sc s,
  path_ok prefix -> FAT_PATH_MAX - zlen prefix <= Z.of_nat f + 1 -> s_arena s = true -> have_lfn sc = false -> scan_ok sc ->
  fresh (tree_ents v prefix ns) s ->
  wp (slots_loop (walk_dir f) v prefix slots sc)
    (fun r s' => added r.2 = added sc + zlen (tree_ents v prefix ns) /\ listed (tree_ents v prefix ns) s s') s.
Proof.
  assert (Hnil : forall sc s, s_arena s = true -> added sc = added sc + zlen (@nil fat_ent) /\ listed [] s s) by (intros; split; [simpl; lia|done]).
  induction 1 as [|e rest He E0|e rest ns Hs _ IH|es e nm a c z d rest ns Hn Hd Ha H15 H8 H16 Hc Hz Hcz Hf Hbig _ IH|es e nm a c z slots kids rest ns Hn Hd Ha H15 H8 H16 Hc Hz Hc2 Hslots _ IHk _ IH];
    intros f prefix sc s Hp Hfu Hs0 Hh Hsc Hfr.
  - cbn [slots_loop]. wstep. by apply Hnil.
  - cbn [slots_loop]. wstep. unfold take_ent. wstep. eapply wp_chk; [exact E0|]. cbn [Z.eqb orb]. wstep. cbn [fst snd]. change (-2 =? -2) with true. cbv iota. wstep. exact (Hnil sc s Hs0).
  - eapply wp_eq; [by apply take_skipped|]. by apply IH.
  - unfold tree_ents in *. cbn [flat_map node_ents] in *. pose proof (fresh_app_l [_] _ _ Hfr) as Hf1. pose proof Hf1 as [Hfit _].
    apply Forall_cons in Hfit as [Hj _]. simpl in Hj. destruct (take_named (walk_dir f) v prefix es e nm a c z rest sc s Hp Hn Hd Ha H15 H8 Hc Hz Hh Hsc Hj) as (u & Hu & E).
    eapply wp_eq; [exact E|]. apply wp_bind. unfold take_file. rewrite H16. change (negb (0 =? 0)) with false. cbv iota.
    assert ((c <? 2) && negb (z =? 0) = false) as ->. { destruct Hcz as [?| ->]; [by rewrite (proj2 (Z.ltb_ge _ _))|apply andb_false_r]. }
    wstep. eapply wp_mono; [apply add_ent_new; [done| |by apply (fresh_one _ _ Hf1)]|].
    { intros En. apply (f_equal length) in En. unfold joined in En. rewrite !length_app in En. destruct Hp as (_ & ? & _). by destruct prefix. }
    intros new s1 [-> L1]. wstep. cbn [fst snd]. change (0 =? -2) with false. cbv iota.
    destruct (fresh_app [_] _ _ _ Hfr L1) as [_ Hf2]. eapply wp_mono; [apply IH; try done; apply L1|].
    intros r s2 [Hadd L2]. split; [rewrite Hadd, length_app; simpl; lia|]. by eapply (listed_app [_]).
  - unfold tree_ents in *. cbn [flat_map node_ents] in *. rewrite <- app_comm_cons in *. pose proof (fresh_app_l [_] _ _ Hfr) as Hf1. pose proof Hf1 as [Hfit _].
    apply Forall_cons in Hfit as [Hj _]. simpl in Hj. destruct (take_named (walk_dir f) v prefix es e nm a c z rest sc s Hp Hn Hd Ha H15 H8 Hc Hz Hh Hsc Hj) as (u & Hu & E).
    eapply wp_eq; [exact E|]. apply wp_bind. unfold take_file. rewrite (proj2 (Z.eqb_neq _ _)), (proj2 (Z.ltb_ge _ _)) by done. cbn [negb].
    assert (Hne : nm <> []) by (by intros ->). pose proof (joined_longer prefix nm Hne) as Hlong.
    assert (Hpj : path_ok (joined prefix nm)).
    { destruct Hp as (Hp1 & Hp2 & _). split_and!; [|unfold joined; by destruct prefix|done]. apply no_nul_joined; [done|].
      destruct Hn as [? ? ? (_ & _ & _ & _ & _ & Cb & Cx) _|? ? ? ? ? _ _ (? & ? & _ & ? & _)]; [|by apply utf8_no_nul].
      apply Forall_app. split; [by apply short_no_nul|]. destruct x; [constructor|constructor; [lia|by apply short_no_nul]]. }
    wstep. eapply wp_mono; [apply add_ent_new; [done|by apply Hpj|by apply (fresh_one _ _ Hf1)]|].
    intros new s1 [-> L1]. wstep. destruct f as [|f]; [destruct Hp as (_ & _ & ?); lia|].
    destruct (fresh_app [_] _ _ _ Hfr L1) as [_ Hf2]. eapply wp_eq; [by apply walk_chain_slots|]. wstep.
    eapply wp_mono; [apply IHk; [done|lia|apply L1|done|done|by eapply fresh_app_l]|]. intros r s2 [Hadd L2]. wstep. wstep. cbn [fst snd]. change (0 =? -2) with false. cbv iota.
    destruct (fresh_app _ _ _ _ Hf2 L2) as [_ Hf3]. eapply wp_mono; [apply IH; [done|lia|apply L2|done|done|done]|].
    intros r' s3 [Hadd' L3]. cbn [added] in *. split.
    + rewrite Hadd', Hadd. simpl. rewrite length_app. lia.
    + eapply (listed_app [_]); [done|]. by eapply listed_app.
Qed.

(** ** Finding the files again *)

Lemma find_path_in e es : NoDup (path <$> es) -> e ∈ es -> find_path (path e) es = Some e.
Proof.
  intros Hn He. pose proof (find_path_spec (path e) es) as K. destruct (find_path (path e) es) as [g|].
  - destruct K as [Hg Eg]. f_equal. apply list_elem_of_lookup in Hg as [i Hi]. apply list_elem_of_lookup in He as [j Hj].
    assert (i = j) as ->; [|congruence]. eapply (NoDup_lookup _ i j (path e) Hn); rewrite list_lookup_fmap; [by rewrite Hi; simpl; rewrite Eg|by rewrite Hj].
  - exfalso. apply K. by apply list_elem_of_fmap_2.
Qed.

Lemma dir_has_files v slots ns : dir_has v slots ns -> forall prefix p d, prefix <> [] -> (p, d) ∈ tree_files prefix ns -> p <> [] /\ exists c z,
  Ent v p c z false ∈ tree_ents v prefix ns /\ file_bytes v c z d /\ 0 <= z /\ z + spc v * FAT_SEC <= 4294967296.
Proof.
  induction 1 as [| |e rest ns Hs _ IH|es e nm a c z d rest ns Hn Hd Ha H15 H8 H16 Hc Hz Hcz Hf Hbig _ IH|es e nm a c z slots kids rest ns Hn Hd Ha H15 H8 H16 Hc Hz Hc2 Hslots _ IHk _ IH];
    intros prefix p d' Hp Hin; unfold tree_files, tree_ents in *; cbn [flat_map node_files node_ents] in *.
  1,2: by apply not_elem_of_nil in Hin.
  - by apply IH.
  - apply elem_of_app in Hin as [[= -> ->]%list_elem_of_singleton|Hin].
    + split; [unfold joined; by destruct prefix|]. exists c, z. split_and!; [apply elem_of_app; left; by apply list_elem_of_singleton|done| |done]. by apply le32_range in Hz as [? _].
    + destruct (IH prefix p d' Hp Hin) as (? & c' & z' & He & ?). split; [done|]. exists c', z'. split; [apply elem_of_app; by right|done].
  - rewrite <- app_comm_cons. apply elem_of_app in Hin as [Hin|Hin].
    + destruct (IHk (joined prefix nm) p d') as (? & c' & z' & He & ?); [unfold joined; by destruct prefix|done|]. split; [done|].
      exists c', z'. split; [right; apply elem_of_app; by left|done].
    + destruct (IH prefix p d' Hp Hin) as (? & c' & z' & He & ?). split; [done|]. exists c', z'. split; [right; apply elem_of_app; by right|done].
Qed.

Lemma fat_read_file s p v c z d out room : p <> [] -> NoDup (path <$> s_ent s) -> Ent v p c z false ∈ s_ent s ->
  vol_ok v -> file_bytes v c z d -> 0 <= z -> z + spc v * FAT_SEC <= 4294967296 -> 0 <= room -> room <= zlen out ->
  let n := Z.min (zlen d) room in
  pm_metal_fs_fat_stat (Some p) s = (0, Some (zlen d)) /\
  pm_metal_fs_fat_read (Some p) (Some out) room s = Some (0, Some (take (Z.to_nat n) d ++ drop (Z.to_nat n) out), n).
Proof.
  intros Hp Hn He Hv Hf Hz Hbig Hr Ho n. pose proof (file_bytes_len v c z d Hz Hf) as Hl.
  assert (Ef : find_ent (Some p) s = Some (Ent v p c z false)).
  { destruct p as [|x p]; [done|]. exact (find_path_in _ _ Hn He). }
  unfold pm_metal_fs_fat_stat, pm_metal_fs_fat_read. rewrite Ef. cbn [is_dir size]. split; [by rewrite Hl|].
  destruct (Z.eqb_spec z 0) as [E|E].
  - destruct Hf as [[_ ->]|[? _]]; [|lia]. unfold n. cbn [length]. by rewrite Z.min_l by lia.
  - cbn [vol clus]. rewrite (read_file_bytes v c z d out room) by (done || lia). rewrite some_bind. cbv beta iota. change (0 =? 0) with true. cbv iota.
    cbn [default]. unfold n. by rewrite Hl.
Qed.

(** ** A volume and its tree *)

Lemma parse_bpb_inv sec b : bytes_ok sec -> parse_bpb sec = Some (Some b) ->
  1 <= b_spc b <= 64 /\ (b_bits b = 12 \/ b_bits b = 16 \/ (b_bits b = 32 /\ b_root_secs b = 0)).
Proof.
  intros Hb. unfold parse_bpb. intros H. obind H x1 H1. obind H sp Hsp. obind H x2 H2. obind H x3 H3. obind H x4 H4. obind H x5 H5. obind H f16 H6. obind H t H7.
  apply (rd_byte _ _ _ Hb) in Hsp. destruct (_ || _) eqn:E; [done|]. breflect. obind H fs Hfs. cbv zeta in H.
  destruct (fs =? 0); [done|]. destruct (_ <=? _); [done|]. injection H as <-. cbn [b_spc b_bits b_root_secs]. split; [lia|].
  destruct (negb (f16 =? 0)); [|auto]. destruct (_ <? _); auto.
Qed.

(** The boot sector of device [h] describes the volume [v], whose root
    directory lists the tree [ns]. *)
Record volume_holds (h : Z) v (ns : list node) : Prop := {
  vh_ready : 0 <= h /\ blk_ready h = true;
  vh_root : exists sec b slots,
    read_sec h 0 = Some sec /\ rd sec 510 = Some 85 /\ rd sec 511 = Some 170 /\ parse_bpb sec = Some (Some b) /\
    v = Vol h (b_reserved b) (b_bits b) (b_first_data b) (b_spc b) (b_tot b) /\ dir_has v slots ns /\
    if b_bits b =? 32 then exists c, le32 sec 44 = Some c /\ dir_slots v c slots
    else b_root_secs b <> 0 /\ exists secs, sectors h (u32 (b_first_data b - b_root_secs b)) 0 (Z.to_nat (b_root_secs b)) = Some secs /\
      slots = concat (slots_of <$> secs);
}.

Lemma vol_ok_parsed h sec b : bytes_ok sec -> parse_bpb sec = Some (Some b) ->
  vol_ok (Vol h (b_reserved b) (b_bits b) (b_first_data b) (b_spc b) (b_tot b)).
Proof.
  intros Hb Hp. destruct (parse_bpb_inv sec b Hb Hp) as [Hs Hbits]. split; [done|]. cbn [fat_bits].
  destruct Hbits as [->|[->|[-> _]]]; by vm_compute.
Qed.

(** C12: importing a volume records exactly the tree of files and directories
    its directories list, short and long names alike, each under its path and
    parents first, and reports their number; a file of that tree then has the
    length and the bytes of its cluster chain, as many as the reader has room
    for. *)
Theorem import_serves_tree (h : Z) (v : fat_vol) (ns : list node) (s : fat A)
    (Ha : s_arena s = true) (Hv : volume_holds h v ns) (Hf : fresh (tree_ents v esp ns) s) :
  wp (pm_metal_fs_import_blk h) (fun rc s' =>
    rc = zlen (tree_ents v esp ns) /\ s_ent s' = rev (tree_ents v esp ns) ++ s_ent s /\
    forall p d, (p, d) ∈ tree_files esp ns ->
      pm_metal_fs_fat_stat (Some p) s' = (0, Some (zlen d)) /\
      forall out room, 0 <= room -> room <= zlen out ->
        let n := Z.min (zlen d) room in
        pm_metal_fs_fat_read (Some p) (Some out) room s' = Some (0, Some (take (Z.to_nat n) d ++ drop (Z.to_nat n) out), n)) s.
Proof.
  destruct Hv as [[H0 Hrdy] (sec & b & slots & Hsec & R1 & R2 & Hb & -> & Hdir & Hroot)]. set (v := Vol _ _ _ _ _ _) in *.
  assert (Hbytes : bytes_ok sec) by (by apply sector_ok in Hsec as [_ ?]). pose proof (vol_ok_parsed h sec b Hbytes Hb) as Hvok. fold v in Hvok.
  unfold pm_metal_fs_import_blk. do 2 wstep. rewrite Ha, (proj2 (Z.ltb_ge _ _)), Hrdy, Hsec by done. cbn [negb orb].
  wstep. eapply wp_chk; [exact R1|]. wstep. eapply wp_chk; [exact R2|]. cbn [Z.eqb Pos.eqb negb orb]. wstep. eapply wp_chk; [exact Hb|].
  cbv beta iota. wstep. apply wp_alloc_ample. intros m blk. cbv beta iota zeta. fold v. do 2 wstep. set (s1 := FatSt _ _ _ _).
  assert (HW : exists c, (if negb (b_bits b =? 32) then ret 0 else chk (le32 sec 44)) s1 = Done c s1 /\ forall f,
    walk_dir (S f) v c (b_root_secs b) esp 0 s1 = bind (slots_loop (walk_dir f) v esp slots (scan0 0)) (fun r => ret (0, added r.2)) s1).
  { destruct (b_bits b =? 32) eqn:E; cbn [negb].
    - destruct Hroot as (c & Ec & Hslots). exists c. rewrite Ec. split; [done|]. intros f.
      destruct (parse_bpb_inv sec b Hbytes Hb) as [_ [?|[?|[_ ->]]]]; [lia|lia|]. by apply walk_chain_slots.
    - destruct Hroot as (Hrs & secs & Hsecs & ->). exists 0. split; [done|]. intros f. by apply walk_root_slots. }
  destruct HW as (c & Ec & HW). wstep. apply (wp_eq _ (ret c)); [exact Ec|]. wstep. wstep. eapply wp_eq; [apply (HW 255%nat)|]. wstep.
  eapply wp_mono; [apply (dir_has_listed v slots ns Hdir); [apply esp_ok|by vm_compute|done|done|done|done]|].
  intros r s2 [Hadd [Hent _]]. wstep. wstep. cbn [fst snd]. change (negb (0 =? 0)) with false. cbv iota.
  rewrite Hadd. cbn [added scan0]. split; [lia|]. split; [exact Hent|]. intros p d Hin.
  destruct (dir_has_files v slots ns Hdir esp p d ltac:(done) Hin) as (Hp & c' & z & He & Hfb & Hz & Hbig).
  assert (Hin2 : Ent v p c' z false ∈ s_ent s2) by (rewrite Hent; apply elem_of_app; left; by rewrite list_elem_of_In, <- in_rev, <- list_elem_of_In).
  assert (Hnd : NoDup (path <$> s_ent s2)) by (rewrite Hent; apply Hf).
  split; [apply (fat_read_file s2 p v c' z d [] 0)|intros out room Hr Ho; apply (fat_read_file s2 p v c' z d out room)]; done.
Qed.
End tree.

(** ** The small volume *)

#[local] Existing Instances small_disk small_disk_laws zero_arena zero_arena_ample.

Definition vol0 : fat_vol := Vol 0 1 12 3 1 8.
Definition data0 : list Z := repeat 7 512 ++ repeat 9 88.
Definition sub_kids : list node := [NFile (short_text [88] [84; 88; 84]) 0 0 []].
Definition tree0 : list node := [NFile (utf8 long_name) 2 600 data0; NDir (short_text [83; 85; 66] []) 3 sub_kids].

Ltac short := repeat split; try done; try (apply (bool_decide_unpack _); vm_compute; exact I).

Lemma chain0 : chain vol0 2 [[repeat 7 512]; [repeat 9 512]].
Proof.
  apply (chain_cons vol0 2 4); [by vm_compute|by vm_compute|by vm_compute|done|].
  apply (chain_cons vol0 4 4095); [by vm_compute|by vm_compute|by vm_compute|done|]. by apply chain_end.
Qed.

Lemma sub_dir : dir_slots vol0 3 (slots_of (fill512 (dot_ent ++ dotdot_ent ++ x_ent))).
Proof.
  exists [[fill512 (dot_ent ++ dotdot_ent ++ x_ent)]]. split_and!; [|done|by vm_compute|by vm_compute].
  apply (chain_cons vol0 3 4095); [by vm_compute|by vm_compute|by vm_compute|done|]. by apply chain_end.
Qed.

Lemma skipped_ent e e0 a : zlen e = 32 -> rd e 0 = Some e0 -> rd e 11 = Some a -> e0 <> 0 -> a <> 15 ->
  Z.land a 8 <> 0 \/ (exists s, name_83 e FAT_PATH_MAX = Some s /\ dot_name s = true) -> skipped e.
Proof. intros. split; [done|]. right. by exists e0, a. Qed.

Lemma sub_has : dir_has vol0 (slots_of (fill512 (dot_ent ++ dotdot_ent ++ x_ent))) sub_kids.
Proof.
  assert (slots_of (fill512 (dot_ent ++ dotdot_ent ++ x_ent)) = dot_ent :: dotdot_ent :: [] ++ x_ent :: repeat (repeat 0 32) 13) as -> by by vm_compute.
  apply dh_skip; [apply (skipped_ent _ 46 16); try done; right; by exists [46]|].
  apply dh_skip; [apply (skipped_ent _ 46 16); try done; right; by exists [46; 46]|].
  apply (dh_file vol0 [] x_ent _ 32 0 0 []); try done; [|by right|by left|by apply dh_stop].
  apply named_short; [|done]. short.
Qed.

Lemma root_has : dir_has vol0 (slots_of (fill512 (label_ent ++ read_me_lfn ++ read_me ++ sub_ent))) tree0.
Proof.
  assert (slots_of (fill512 (label_ent ++ read_me_lfn ++ read_me ++ sub_ent)) = label_ent :: [read_me_lfn] ++ read_me :: [] ++ sub_ent :: repeat (repeat 0 32) 12) as -> by by vm_compute.
  apply dh_skip; [apply (skipped_ent _ 77 8); try done; by left|].
  apply (dh_file vol0 [read_me_lfn] read_me _ 32 2 600 data0); try done; [|by left| |].
  - apply (named_long [read_me_lfn] read_me long_name [82; 69; 65; 68; 77; 69; 126; 49] [84; 88; 84]); [short|done|].
    exists 1%nat, [0; 65535]. split_and!; try done; try lia; [short|by right; left|]. split; [|done]. split_and!; try done. repeat constructor.
  - right. split; [done|]. exists [[repeat 7 512]; [repeat 9 512]]. split; [apply chain0|]. by vm_compute.
  - apply (dh_dir vol0 [] sub_ent _ 16 3 0 (slots_of (fill512 (dot_ent ++ dotdot_ent ++ x_ent)))); try done; [|apply sub_dir|apply sub_has|by apply dh_stop].
    apply named_short; [|done]. short.
Qed.

Lemma volume0 : volume_holds 0 vol0 tree0.
Proof.
  constructor; [done|]. exists boot_sec, (Bpb 1 1 8 1 3 12), (slots_of (fill512 (label_ent ++ read_me_lfn ++ read_me ++ sub_ent))).
  split_and!; try (by vm_compute); [apply root_has|]. split; [done|]. eexists. split; by vm_compute.
Qed.

Lemma import_serves_tree_witness : exists s', pm_metal_fs_import_blk 0 card0 = Done 3 s' /\
  pm_metal_fs_fat_read (Some (esp ++ 47 :: utf8 long_name)) (Some (repeat 0 700)) 700 s' = Some (0, Some (data0 ++ repeat 0 100), 600).
Proof.
  assert (Hf : fresh (tree_ents vol0 esp tree0) card0) by (split; apply (bool_decide_unpack _); vm_compute; exact I).
  destruct (wp_run _ _ _ (import_serves_tree 0 vol0 tree0 card0 eq_refl volume0 Hf)) as (rc & s' & E & -> & _ & K).
  exists s'. split; [exact E|]. destruct (K (esp ++ 47 :: utf8 long_name) data0) as [_ R]; [by left|].
  rewrite (R (repeat 0 700) 700) by (by vm_compute). by vm_compute.
Defined.
End FatTree.
