(* ===== verification/BlkFat.v ===== *)
(** * Volumes on a virtio disk

    The fs card reads sectors through the table of disks, which calls the driver
    that the handle is bound to, which asks the device.  What the fs card relies
    on, the class [Blk] of Fat, is what those three make of a medium, so the
    theorems about volumes hold of the sectors that are on it. *)
From S2P Require Import Prelude Vblk VblkSpec VblkDisk BlkTable Fat.

Module BlkFat.
Import Store Vblk VblkSpec VblkDisk BlkTable BlkSpec Fat.
Local Open Scope metal_scope.

(** ** The sectors of a medium *)

Definition sector_at (medium : list Z) (lba : Z) : option (list Z) :=
  if (0 <=? lba) && (512 * (lba + 1) <=? zlen medium) then Some (take 512 (drop (Z.to_nat (512 * lba)) medium)) else None.
Definition disk_blk (h : Z) (medium : list Z) : Blk := {| blk_ready g := g =? h; blk_read g lba := if g =? h then sector_at medium lba else None |}.
Lemma disk_blk_laws h medium : bytes_ok medium -> BlkLaws (H := disk_blk h medium).
Proof.
  intros Hb. constructor. intros g lba s. cbn. destruct (g =? h); [|done]. unfold sector_at. destruct (_ && _) eqn:E; [|done]. apply andb_true_iff in E as [H0%Z.leb_le H1%Z.leb_le]. intros [= <-]. split; [unfold FAT_SEC; rewrite length_take, length_drop; lia|].
  by apply Forall_take, Forall_drop.
Qed.

Section stack.
Context {E : Type} `{!VblkOps E}.
Abbreviation T := (table (@vblk E)).

(** The functions the driver binds: its own, on the row of the device. *)
Definition virtio_ops (row : Z) : blk_ops (@vblk E) := BlkOps (Some (vb_ready row)) (Some (vb_cap row)) (Some (vb_read row)) (Some (vb_write row)) (Some (vb_close row)).

(** One sector into [buf], and what then stands there. *)
Definition read_sector (buf h lba : Z) : M T (option (list Z)) :=
  rc <- pm_metal_drivers_blk_read h lba buf 1 ;;
  if rc =? 0 then l <- on_drv (rd_bytes buf 512) ;; ret (Some l) else ret None.
Fixpoint read_sectors (buf h : Z) (lbas : list Z) : M T (list (option (list Z))) :=
  match lbas with [] => ret [] | a :: l => o <- read_sector buf h a ;; os <- read_sectors buf h l ;; ret (o :: os) end.

Variables (q hd sb door : Z) (P : E -> Z -> list Z -> option rq -> Prop) (eta : E -> nat) (vrow : Z).
Hypothesis laws : DiskLaws q hd sb door P true eta.
Hypothesis lay : layout q hd sb.

(** Handle [h] is bound to the row, and its device holds [medium]; the caller's
    buffer is apart from what the driver keeps. *)
Record mounted (buf h : Z) (medium : list Z) (t : T) (m : memory) : Prop := {
  mo_bound : exists dt, 0 <= h /\ s_dev t !! Z.to_nat h = Some (BlkDev true dt (virtio_ops vrow));
  mo_sees : sees q hd sb door P vrow (drv t) (medium, m);
  mo_buf : 0 <= buf < 18446744073709551616 /\ clear q hd sb buf 512 /\ mapped m buf 512;
}.
Definition same_but (buf : Z) (m m' : memory) : Prop := forall b, ~ inside buf 512 b -> m' !! b = m !! b.

Lemma row_bound (t : T) h d (Q : option (blkdev (@vblk E)) -> T -> Prop) : 0 <= h -> s_dev t !! Z.to_nat h = Some d -> bd_used d = true -> Q (Some d) t -> wp (row h) Q t.
Proof. intros H0 Hh Hu HQ. unfold row. do 3 wstep. rewrite (proj2 (Z.ltb_ge _ _)) by lia. by rewrite Hh, Hu. Qed.

Lemma ready_wp buf h medium t m (Q : Z -> T -> Prop) : mounted buf h medium t m -> Q 1 t -> wp (pm_metal_drivers_blk_ready h) Q t.
Proof.
  intros [(dt & H0 & Hh) [[n Hre] _] _] HQ. unfold pm_metal_drivers_blk_ready. wstep. eapply row_bound; [done|exact Hh|done|]. cbn [bd_ops op_ready virtio_ops]. apply on_drv_wp. destruct (re_row _ _ _ _ _ _ _ _ _ Hre) as (d & Hrow & Hc & _). unfold vb_ready. wstep. unfold wp at 1, get_row. rewrite Hrow. wstep. rewrite (proj2 (Z.eqb_neq _ _)) by done. by destruct t.
Qed.

Lemma read_sector_wp buf h medium lba t m : mounted buf h medium t m -> 0 <= lba < 18446744073709551615 ->
  wp (read_sector buf h lba) (fun o t' => o = sector_at medium lba /\ exists m', mounted buf h medium t' m' /\ same_but buf m m') t.
Proof.
  intros [(dt & H0 & Hh) Hs (Hb & Hc & Hm)] Hl. pose (r := Rq false lba buf 1). unfold read_sector. wstep. unfold pm_metal_drivers_blk_read. wstep. eapply row_bound; [done|exact Hh|done|]. cbn [bd_ops op_read virtio_ops]. apply on_drv_wp.
  eapply wp_mono; [apply (do_op_wp q hd sb door P true eta laws vrow lay r medium m); [done|exact Hs|]|]. { unfold ok_rq, rq_len. cbn. split_and!; try lia; done. }
  intros rc w' [-> Hs']. unfold disk_op, fits_b in *. cbn [r_nsec r_lba r_wr r_addr r] in *. change (0 <? 1) with true in *. cbn [andb] in *. unfold sector_at. rewrite (proj2 (Z.leb_le 0 lba)) by lia. cbn [andb].
  destruct (512 * (lba + 1) <=? zlen medium) eqn:Ef; cbn [negb fst snd] in *.
  - change (0 =? 0) with true. cbv iota. assert (Hlen : zlen (sub r medium) = 512). { apply (length_sub r). unfold fits. cbn. apply Z.leb_le in Ef. lia. }
    assert (Hpub : forall b, inside buf 512 b -> ~ private q hd sb b). { intros b Hi. unfold private, inside, clear in *. destruct lay. lia. }
    assert (Hat : at_ (ram w') buf (sub r medium)). { intros i x Hi. destruct Hs' as [_ Hs']. rewrite Hs'; [by apply (put_at m buf (sub r medium))|]. apply Hpub. apply lookup_lt_Some in Hi. unfold inside. lia. }
    wstep. apply on_drv_wp. eapply rd_bytes_wp; [exact Hat|lia|]. wstep. split; [done|]. exists (put m buf (sub r medium)). split; [|intros b Hb'; apply put_other; by rewrite Hlen]. constructor; [by exists dt|done|]. split; [done|]. split; [done|]. by apply put_mapped.
  - change (-1 =? 0) with false. cbv iota. wstep. split; [done|]. exists m. split; [|done]. constructor; [by exists dt|done|done].
Qed.

Lemma read_sectors_wp buf h medium lbas t m : mounted buf h medium t m -> Forall (fun a => 0 <= a < 18446744073709551615) lbas ->
  wp (read_sectors buf h lbas) (fun os t' => os = sector_at medium <$> lbas /\ exists m', mounted buf h medium t' m' /\ same_but buf m m') t.
Proof.
  revert t m. induction lbas as [|a l IH]; intros t m Hm Hl; cbn [read_sectors]; [wstep; split; [done|by exists m]|]. apply Forall_cons in Hl as [Ha Hl].
  wstep. eapply wp_mono; [by apply read_sector_wp|]. intros o t1 (-> & m1 & Hm1 & Hk1). wstep. eapply wp_mono; [by apply IH|]. intros os t2 (-> & m2 & Hm2 & Hk2). wstep. split; [done|]. exists m2. split; [done|]. intros b Hb. by rewrite Hk2, Hk1.
Qed.

(** What the fs card asks before an import, and the sectors it reads. *)
Definition ask (buf h : Z) (lbas : list Z) : M T (Z * list (option (list Z))) := r <- pm_metal_drivers_blk_ready h ;; os <- read_sectors buf h lbas ;; ret (r, os).
End stack.

(** C20: With a handle that is bound to a virtio disk that keeps to the
    specification and is quick enough, the fs card's view of the block layer is
    the medium: the handle is ready, every sequence of sector reads through
    table, driver and device yields the sectors that the class the FAT theorems
    are about has, a sector outside is an error, and nothing but the buffer is
    touched. *)
Theorem fat_reads_virtio {E} `{!VblkOps E} q hd sb door P eta vrow buf h medium lbas (t : table (@vblk E)) m
  (laws : DiskLaws q hd sb door P true eta) (lay : layout q hd sb) (Hm : mounted q hd sb door P vrow buf h medium t m) (Hl : Forall (fun a => 0 <= a < 18446744073709551615) lbas) :
  wp (ask buf h lbas) (fun a t' => a = (b2z (@blk_ready (disk_blk h medium) h), @read_sec (disk_blk h medium) h <$> lbas) /\
    exists m', mounted q hd sb door P vrow buf h medium t' m' /\ same_but buf m m') t.
Proof.
  unfold ask. wstep. eapply ready_wp; [exact Hm|]. wstep. eapply wp_mono; [by apply (read_sectors_wp q hd sb door P eta vrow laws lay buf h medium lbas t m)|]. intros os t' (-> & m' & Hm' & Hk). wstep. split; [|by exists m'].
  unfold read_sec. cbn. rewrite Z.eqb_refl. done.
Qed.

(** *** The small volume of FatDisk on a virtio disk of eight sectors *)

Definition volume_bytes : list Z := concat FatDisk.disk.
Definition row8 : virtio_blk := set_cap 8 a_row.
Definition booted8 : @vblk VblkDisk.disk := VblkSt (Disk 0 volume_bytes None 0 [5; 0; 3] 15) blank true [(2048, row8)] 1.
Definition unbound8 : table (@vblk VblkDisk.disk) := Table booted8 true [] 0.
Definition bound8 : table (@vblk VblkDisk.disk) := Table booted8 true [BlkDev true 3 (virtio_ops 2048)] 1.
Example bind8 : pm_metal_drivers_blk_bind (fun n => n <? 8) (fun l => Some (l ++ [no_dev])) 3 (Some (virtio_ops 2048)) unbound8 = Done 0 bound8.
Proof. reflexivity. Qed.

Lemma mounted8 : mounted vq0 hd0 sb0 door0 (at_disk true) 2048 32768 0 volume_bytes bound8 blank.
Proof.
  destruct blank_mapped as (M1 & M2 & M3 & M4). constructor.
  - exists 3. split; [done|]. reflexivity.
  - split; [exists 0|intros b _; reflexivity]. constructor; cbn [ram booted8 bound8 env s_head drv fst]; try done.
    + by exists row8.
    + apply at_cons. split; [vm_compute; reflexivity|]. apply at_cons. split; [vm_compute; reflexivity|apply at_nil].
    + apply at_cons. split; [vm_compute; reflexivity|]. apply at_cons. split; [vm_compute; reflexivity|apply at_nil].
    + unfold at_disk, quick. cbn. split_and!; try done; try lia. repeat constructor; try lia; done.
  - split; [lia|]. split; [unfold clear, vq0, hd0, sb0; lia|]. eapply mapped_sub; [exact M4|lia|lia].
Qed.

(** The import of that view finds the files of the volume. *)
Example import8 : exists s, @pm_metal_fs_import_blk (disk_blk 0 volume_bytes) unit zero_arena 0 FatDisk.card0 = Done 3 s.
Proof. eexists. vm_compute. reflexivity. Qed.

Lemma fat_reads_virtio_witness :
  (@read_sec (disk_blk 0 volume_bytes) 0 <$> [0; 2; 8]) = [Some FatDisk.boot_sec; FatDisk.disk !! 2%nat; None] /\
  wp (ask 32768 0 [0; 2; 8]) (fun a t' => a = (b2z (@blk_ready (disk_blk 0 volume_bytes) 0), @read_sec (disk_blk 0 volume_bytes) 0 <$> [0; 2; 8]) /\
    exists m', mounted vq0 hd0 sb0 door0 (at_disk true) 2048 32768 0 volume_bytes t' m' /\ same_but 32768 blank m') bound8.
Proof.
  split; [vm_compute; reflexivity|]. apply (fat_reads_virtio vq0 hd0 sb0 door0 (at_disk true) looks 2048 32768 0 volume_bytes [0; 2; 8] bound8 blank (disk_laws true) layout0 mounted8).
  repeat apply Forall_cons_2; try lia; constructor.
Defined.
End BlkFat.
