(* ===== verification/Fs.v ===== *)
(** * The fs card: files in the arena, then files on the disks

    src/.../metal/fs/__impl__.c.  A file is a node of a list that only grows;
    dropping one clears its mark.  Names that no such file carries are looked
    up on the imported volumes (Fat).  The list is newest first, and a
    position in it stands for the pointer to the node. *)
From S2P Require Import Prelude Fat.

Module Fs.
Import Store Fat.
Local Open Scope metal_scope.


Record file := File { name : list Z; data : list Z; len : Z; id : Z; used : bool }.

Definition SIZEOF_FILE := 40.

(** A [uint32_t] returned as an [int32_t]. *)
Definition int32 (x : Z) : Z := let y := u32 x in if y <? 2147483648 then y else y - 4294967296.

Section card.
Context `{!Blk} {A : Type} `{!Arena A}.

Record fs := FsSt { fs_arena : bool; s_head : list file; s_next_id : Z; s_fat : fat A }.
Implicit Types (s : fs).

(** The FAT half of the card works on its own part of the state. *)
Definition on_fat {B} (m : M (fat A) B) : M fs B := fun s =>
  match m (s_fat s) with
  | Done b f => Done b (FsSt (fs_arena s) (s_head s) (s_next_id s) f)
  | Fault => Fault
  | NoFuel => NoFuel
  end.

Definition set_head (l : list file) s : fs := FsSt (fs_arena s) l (s_next_id s) (s_fat s).

(** ** Lookups *)

Fixpoint find_named (path : list Z) (l : list file) : option (nat * file) :=
  match l with
  | [] => None
  | f :: t =>
    if used f && name_eq (name f) path then Some (O, f)
    else '(i, g) ← find_named path t; Some (S i, g)
  end.

Definition find_file (path : option (list Z)) s : option (nat * file) :=
  match path with
  | None | Some [] => None
  | Some p => find_named p (s_head s)
  end.

Fixpoint find_id (i : Z) (l : list file) : option file :=
  match l with
  | [] => None
  | f :: t => if used f && (id f =? i) then Some f else find_id i t
  end.

Definition find_by_id (i : Z) s : option file := find_id i (s_head s).

(** ** Start and stop *)

Definition pm_metal_fs_init (arena : option A) s : Z * fs :=
  match arena with
  | None => (-1, s)
  | Some mem => (0, FsSt true [] 0 (pm_metal_fs_fat_bind mem (s_fat s)))
  end.

Definition pm_metal_fs_deinit s : fs := FsSt false [] 0 (pm_metal_fs_fat_reset (s_fat s)).

(** ** Adding, dropping and replacing *)

Definition pm_metal_fs_reserve (path : option (list Z)) (len : Z) : M fs Z :=
  s <- gets (fun s => s);;
  match path with
  | None | Some [] => ret (-1)
  | Some p =>
    if negb (fs_arena s) || (len =? 0) then ret (-1)
    else if bool_decide (is_Some (find_file path s)) then ret (-1)
    else
      f <- on_fat (alloc SIZEOF_FILE);;
      nm <- on_fat (alloc (zlen p + 1));;
      buf <- on_fat (alloc len);;
      match f, nm, buf with
      | Some _, Some _, Some b =>
        modify (fun s => FsSt (fs_arena s) (File p b len (s_next_id s) true :: s_head s) (u32 (s_next_id s + 1)) (s_fat s));;
        ret (int32 (s_next_id s))
      | _, _, _ => ret (-1)
      end
  end.

Definition mark_unused (f : file) : file := File (name f) (data f) (len f) (id f) false.
Definition set_data (d : list Z) (f : file) : file := File (name f) d (len f) (id f) (used f).

Definition pm_metal_fs_drop (path : option (list Z)) : M fs Z :=
  s <- gets (fun s => s);;
  match find_file path s with
  | None => ret (-1)
  | Some (i, _) => modify (fun s => set_head (alter mark_unused i (s_head s)) s);; ret 0
  end.

(** [memcpy] into the buffer of the file at position [i]. *)
Definition fill (i : nat) (src : list Z) : M fs unit :=
  s <- gets (fun s => s);;
  f <- chk (s_head s !! i);;
  d <- chk (blit (data f) 0 src);;
  modify (fun s => set_head (alter (set_data d) i (s_head s)) s).

Definition pm_metal_fs_add (path data : option (list Z)) (len : Z) : M fs Z :=
  match data with
  | None => ret (-1)
  | Some d =>
    id <- pm_metal_fs_reserve path len;;
    if id <? 0 then ret (-1)
    else src <- chk (slice d 0 len);; fill 0 src;; ret id
  end.

Definition pm_metal_fs_write (path data : option (list Z)) (len' : Z) : M fs Z :=
  match data with
  | None => ret (-1)
  | Some d =>
    if len' =? 0 then ret (-1)
    else
      s <- gets (fun s => s);;
      match find_file path s with
      | Some (i, f) =>
        if len f =? len' then src <- chk (slice d 0 len');; fill i src;; ret (int32 (id f))
        else modify (fun s => set_head (alter mark_unused i (s_head s)) s);; pm_metal_fs_add path data len'
      | None => pm_metal_fs_add path data len'
      end
  end.

(** ** Reading *)

Definition pm_metal_fs_stat (path : option (list Z)) s : Z * option Z :=
  match find_file path s with
  | Some (_, f) => (0, Some (len f))
  | None => pm_metal_fs_fat_stat path (s_fat s)
  end.

(** [memcpy] of the file's first bytes into [out]: the result, the buffer
    and [*len]; outside a buffer is [None]. *)
Definition copy_out (f : file) (out : list Z) (room : Z) : option (Z * option (list Z) * Z) :=
  let n := if room <? len f then room else len f in
  src ← slice (data f) 0 n;
  o ← blit out 0 src;
  Some (0, Some o, n).

Definition pm_metal_fs_read (path out : option (list Z)) (room : Z) s : option (Z * option (list Z) * Z) :=
  match out with
  | None => Some (-1, out, room)
  | Some o =>
    match find_file path s with
    | Some (_, f) => copy_out f o room
    | None => pm_metal_fs_fat_read path out room (s_fat s)
    end
  end.

Definition pm_metal_fs_name_by_id (i : Z) s : option (list Z) := name <$> find_by_id i s.

Definition pm_metal_fs_stat_by_id (i : Z) s : Z * option Z :=
  match find_by_id i s with None => (-1, None) | Some f => (0, Some (len f)) end.

Definition pm_metal_fs_read_by_id (i : Z) (out : option (list Z)) (room : Z) s : option (Z * option (list Z) * Z) :=
  match find_by_id i s, out with
  | Some f, Some o => copy_out f o room
  | _, _ => Some (-1, out, room)
  end.

Definition pm_metal_fs_count s : Z := u32 (zlen (filter (fun f => used f = true) (s_head s))).

Fixpoint list_at (i index : Z) (l : list file) : option file :=
  match l with
  | [] => None
  | f :: t => if negb (used f) then list_at i index t else if i =? index then Some f else list_at (u32 (i + 1)) index t
  end.

(** The identifier, name and length stored through the caller's pointers. *)
Definition pm_metal_fs_list_at (index : Z) s : Z * option (Z * list Z * Z) :=
  match list_at 0 index (s_head s) with
  | None => (-1, None)
  | Some f => (0, Some (id f, name f, len f))
  end.

(** ** Bringing the card up *)

(** "/metal/hello.txt", its contents, and the paths [live] tries. *)
Definition hello_path : list Z := [47; 109; 101; 116; 97; 108; 47; 104; 101; 108; 108; 111; 46; 116; 120; 116].
Definition hello : list Z := [109; 101; 116; 97; 108; 32; 102; 115; 10].
Definition live : list (list Z) :=
  [[47; 101; 115; 112; 47; 72; 73; 46; 84; 88; 84];
   [47; 101; 115; 112; 47; 83; 85; 66; 47; 88; 46; 84; 88; 84];
   [47; 101; 115; 112; 47; 104; 101; 108; 108; 111; 46; 116; 120; 116];
   [47; 101; 115; 112; 47; 69; 70; 73; 47; 66; 79; 79; 84; 47; 66; 79; 79; 84; 88; 54; 52; 46; 69; 70; 73]].

Fixpoint import_loop (k : nat) (i : Z) : M fs unit :=
  match k with
  | O => ret tt
  | S k' =>
    (if blk_ready i then on_fat (pm_metal_fs_import_blk i) else ret 0);; import_loop k' (i + 1)
  end.

Fixpoint live_loop (paths : list (list Z)) (buf : list Z) s : option Z :=
  match paths with
  | [] => Some 0
  | p :: t =>
    let '(rc, n) := pm_metal_fs_stat (Some p) s in
    if negb (rc =? 0) || (default 0 n =? 0) then live_loop t buf s
    else
      '(rc, _, n) ← pm_metal_fs_read (Some p) (Some buf) (zlen buf) s;
      Some (if negb (rc =? 0) || (n =? 0) then -1 else 0)
  end.

Definition pm_metal_fs_up : M fs Z :=
  s <- gets (fun s => s);;
  if negb (fs_arena s) then ret (-1)
  else
    let '(rc, n) := pm_metal_fs_stat (Some hello_path) s in
    r <- (if negb (rc =? 0) || (default 0 n =? 0) then pm_metal_fs_add (Some hello_path) (Some hello) 9 else ret 0);;
    if r <? 0 then ret (-1)
    else import_loop 8 0;; s <- gets (fun s => s);; chk (live_loop live (repeat 0 8) s).
End card.
End Fs.
