(* ===== verification/FsSpec.v ===== *)
(** * The fs card's arena files as a finite map

    The used nodes of the list are a map from path to bytes; adding, writing
    and dropping act on it as insert and delete, and reads, counts and
    listings answer from it. *)
From S2P Require Import Prelude Fat FatSafe Fs.

Module FsSpec.
Import Store Fat FatSafe Fs.
Local Open Scope metal_scope.

(** ** The list of nodes *)

Fixpoint files (l : list file) : gmap (list Z) (list Z) :=
  match l with
  | [] => ∅
  | f :: t => if used f then <[name f := data f]> (files t) else files t
  end.

Definition names (l : list file) : list (list Z) := name <$> filter (fun f => used f = true) l.

Definition file_ok (f : file) : Prop := zlen (data f) = len f /\ 0 < len f <= U32_MAX /\ 0 <= id f < 2147483648.
Definition list_ok (l : list file) : Prop := NoDup (names l) /\ Forall file_ok l.

Lemma names_cons f l : names (f :: l) = if used f then name f :: names l else names l.
Proof. unfold names. rewrite filter_cons. destruct (used f); by simpl. Qed.

Lemma files_names l p : p ∈ names l <-> is_Some (files l !! p).
Proof.
  induction l as [|f l IH]; [split; [by intros ?%not_elem_of_nil|by intros []]|].
  rewrite names_cons. simpl. destruct (used f); [|done]. rewrite elem_of_cons, IH. destruct (decide (p = name f)) as [->|Hne].
  - rewrite lookup_insert_eq. split; [by eexists|by left].
  - rewrite lookup_insert_ne by done. naive_solver.
Qed.

(** A lookup finds the first used node of the name, which holds the bytes. *)
Lemma find_named_spec p l : match find_named p l with
  | Some (i, f) => l !! i = Some f /\ used f = true /\ name f = p /\ files l !! p = Some (data f)
  | None => files l !! p = None
  end.
Proof.
  induction l as [|f l IH]; [done|]. simpl. rewrite name_eq_spec. destruct (used f) eqn:Hu; cbn [andb].
  - case_bool_decide as E; [subst; by rewrite lookup_insert_eq|]. destruct (find_named p l) as [[i g]|]; simpl; rewrite lookup_insert_ne by done; exact IH.
  - destruct (find_named p l) as [[i g]|]; simpl; exact IH.
Qed.

Lemma names_in l i f : l !! i = Some f -> used f = true -> name f ∈ names l.
Proof. intros Hi Hu. apply list_elem_of_fmap_2, list_elem_of_filter. split; [done|]. by eapply list_elem_of_lookup_2. Qed.

Lemma names_other g l i f : NoDup (names (g :: l)) -> used g = true -> l !! i = Some f -> used f = true -> name g <> name f.
Proof. intros Hn Hg Hi Hu E. rewrite names_cons, Hg in Hn. apply NoDup_cons in Hn as [Hn _]. apply Hn. rewrite E. by eapply names_in. Qed.

Lemma names_tail g l : NoDup (names (g :: l)) -> NoDup (names l).
Proof. rewrite names_cons. destruct (used g); [by intros [_ ?]%NoDup_cons|done]. Qed.

(** Filling the buffer of a node is an insert, clearing its mark a delete. *)
Lemma files_set_data l d : forall i f, NoDup (names l) -> l !! i = Some f -> used f = true ->
  files (alter (set_data d) i l) = <[name f := d]> (files l) /\ names (alter (set_data d) i l) = names l.
Proof.
  induction l as [|g l IH]; intros [|i] f Hn Hi Hu; try done; simpl in Hi.
  - injection Hi as ->. cbn [alter list_alter files]. rewrite !names_cons. simpl. rewrite Hu. split; [by rewrite insert_insert_eq|done].
  - destruct (IH i f (names_tail _ _ Hn) Hi Hu) as [E1 E2].
    change (alter (set_data d) (S i) (g :: l)) with (g :: alter (set_data d) i l). cbn [files]. rewrite !names_cons, E1, E2.
    destruct (used g) eqn:Hg; [|done]. split; [|done]. apply insert_insert_ne. by eapply names_other.
Qed.

Lemma files_mark_unused l : forall i f, NoDup (names l) -> l !! i = Some f -> used f = true ->
  files (alter mark_unused i l) = delete (name f) (files l) /\ names (alter mark_unused i l) ⊆+ names l.
Proof.
  induction l as [|g l IH]; intros [|i] f Hn Hi Hu; try done; simpl in Hi.
  - injection Hi as ->. cbn [alter list_alter files]. rewrite names_cons in Hn. rewrite !names_cons. simpl. rewrite Hu in Hn |- *. split; [|by apply submseteq_cons].
    apply NoDup_cons in Hn as [Hn _]. rewrite files_names in Hn. rewrite delete_insert_id; [done|]. by apply eq_None_not_Some.
  - destruct (IH i f (names_tail _ _ Hn) Hi Hu) as [E1 E2].
    change (alter mark_unused (S i) (g :: l)) with (g :: alter mark_unused i l). cbn [files]. rewrite !names_cons, E1.
    destruct (used g) eqn:Hg; [|done]. split; [|by apply submseteq_skip]. rewrite delete_insert_ne; [done|]. by eapply not_eq_sym, names_other.
Qed.

Lemma list_ok_alter h l i f : list_ok l -> l !! i = Some f -> names (alter h i l) ⊆+ names l -> file_ok (h f) -> list_ok (alter h i l).
Proof.
  intros [Hn Hf] Hi Hs Hh. split.
  - apply submseteq_Permutation in Hs as [k Hk]. rewrite Hk in Hn. by apply NoDup_app in Hn as (? & _ & _).
  - apply Forall_alter; [done|]. intros g Hg _. rewrite Hi in Hg. by injection Hg as <-.
Qed.

Lemma blit_all (b d : list Z) : zlen d = zlen b -> blit b 0 d = Some d.
Proof. intros E. rewrite blit_is_Some by lia. change (take (Z.to_nat 0) b) with (@nil Z). rewrite drop_ge, app_nil_r by lia. done. Qed.

(** ** The operations *)

Section card.
Context `{B : !Blk} {A : Type} `{AR : !Arena A, AL : !ArenaLaws A}.
Implicit Types (s : fs (A := A)).

(** The card between calls: one used node per name, buffers as long as their
    files, identifiers left to give out. *)
Record fs_ok s : Prop := {
  ok_arena : fs_arena s = true;
  ok_list : list_ok (s_head s);
  ok_next : 0 <= s_next_id s <= U32_MAX;
}.

Definition abs s : gmap (list Z) (list Z) := files (s_head s).

Definition with_fat (f : fat A) s : fs := FsSt (fs_arena s) (s_head s) (s_next_id s) f.

Lemma wp_fs_alloc n (Q : option (list Z) -> fs -> Prop) s : 0 <= n ->
  (forall f r, (forall b, r = Some b -> zlen b = n) -> Q r (with_fat f s)) -> wp (on_fat (alloc n)) Q s.
Proof.
  intros Hn HQ. unfold wp, on_fat, alloc. destruct (mem_alloc n (s_mem (s_fat s))) as [a r] eqn:E. apply HQ.
  intros b ->. by eapply alloc_size.
Qed.

Lemma with_fat_ok f s : fs_ok s -> fs_ok (with_fat f s).
Proof. by intros [? ? ?]. Qed.

(** What the list looks like after an operation that reports [rc]. *)
Definition kept s (rc : Z) s' : Prop := rc = -1 /\ fs_ok s' /\ s_head s' = s_head s /\ s_next_id s' = s_next_id s.

Lemma reserve_ok p n s : fs_ok s -> s_next_id s < 2147483648 -> 0 <= n <= U32_MAX ->
  wp (pm_metal_fs_reserve p n) (fun rc s' => kept s rc s' \/
    exists q b, p = Some q /\ q <> [] /\ files (s_head s) !! q = None /\ 0 < n /\ zlen b = n /\ rc = int32 (s_next_id s) /\
      fs_ok s' /\ s_next_id s' = s_next_id s + 1 /\ s_head s' = File q b n (s_next_id s) true :: s_head s) s.
Proof.
  intros Hs Hid Hn. unfold pm_metal_fs_reserve. do 2 wstep. assert (HK : kept s (-1) s) by done.
  destruct p as [[|x p]|]; [wstep; by left| |wstep; by left]. set (q := x :: p). wstep; [wstep; by left|]. wstep; [wstep; by left|].
  match goal with K : (_ || _) = false |- _ => apply orb_false_iff in K as [_ K]; apply Z.eqb_neq in K; rename K into Hn0 end.
  match goal with K : bool_decide _ = false |- _ => apply bool_decide_eq_false in K; rename K into Hfree end.
  assert (HK' : forall f, kept s (-1) (with_fat f s)) by (intros; split_and!; [done|by apply with_fat_ok|done|done]).
  wstep. apply wp_fs_alloc; [done|]. intros f1 r1 _. wstep. apply wp_fs_alloc; [lia|]. intros f2 r2 _. wstep. apply wp_fs_alloc; [lia|]. intros f3 r3 Hb.
  destruct r1; [|wstep; left; apply (HK' f3)]. destruct r2; [|wstep; left; apply (HK' f3)]. destruct r3 as [b|]; [|wstep; left; apply (HK' f3)].
  do 3 wstep. right. exists q, b. specialize (Hb b eq_refl).
  assert (Hq : files (s_head s) !! q = None).
  { simpl in Hfree. pose proof (find_named_spec q (s_head s)) as K. unfold q in *. destruct (find_named (x :: p) (s_head s)) as [[??]|]; [exfalso; apply Hfree; by eexists|done]. }
  destruct Hs as [Ha [Hnd Hf] Hx]. split_and!; try done; [lia| |simpl; by rewrite u32_small by lia]. constructor; [done| |simpl; rewrite u32_small by lia; lia]. split.
  - simpl. rewrite names_cons. constructor; [|done]. intros Hin. apply files_names in Hin. change (is_Some (files (s_head s) !! q)) in Hin. rewrite Hq in Hin. by destruct Hin.
  - simpl. constructor; [|done]. split_and!; simpl; lia.
Qed.

(** [memcpy] of a whole file's bytes into a node. *)
Lemma fill_ok i f src s : fs_ok s -> s_head s !! i = Some f -> used f = true -> zlen src = len f ->
  wp (fill i src) (fun _ s' => fs_ok s' /\ abs s' = <[name f := src]> (abs s) /\ s_next_id s' = s_next_id s) s.
Proof.
  intros [Ha [Hn Hf] Hx] Hi Hu Hl. unfold fill. do 2 wstep. wstep. eapply wp_chk; [exact Hi|]. pose proof Hf as Hfi. rewrite Forall_lookup in Hfi.
  destruct (Hfi _ _ Hi) as (Hlen & Hpos & Hidf). wstep. eapply wp_chk; [apply blit_all; lia|]. wstep.
  destruct (files_set_data (s_head s) src i f Hn Hi Hu) as [E1 E2]. split_and!; [|exact E1|done]. constructor; [done| |done].
  apply (list_ok_alter _ _ _ f); [done|done|by rewrite E2|]. split_and!; simpl; lia.
Qed.

Definition dropped s i : fs := set_head (alter mark_unused i (s_head s)) s.

Lemma dropped_ok i f s : fs_ok s -> s_head s !! i = Some f -> used f = true ->
  fs_ok (dropped s i) /\ abs (dropped s i) = delete (name f) (abs s).
Proof.
  intros [Ha [Hn Hf] Hx] Hi Hu. destruct (files_mark_unused (s_head s) i f Hn Hi Hu) as [E1 E2]. split; [|exact E1].
  constructor; [done| |done]. apply (list_ok_alter _ _ _ f); [done|done|done|]. rewrite Forall_lookup in Hf. exact (Hf _ _ Hi).
Qed.

Lemma int32_id x : 0 <= x < 2147483648 -> int32 x = x.
Proof. intros H. unfold int32. rewrite u32_small by lia. cbv zeta. by rewrite (proj2 (Z.ltb_lt _ _)) by lia. Qed.

(** ** The map an operation makes *)

Definition added_spec (p : option (list Z)) (d : list Z) (m : gmap (list Z) (list Z)) (rc : Z) (m' : gmap (list Z) (list Z)) : Prop :=
  (rc = -1 /\ m' = m) \/ (0 <= rc /\ exists q, p = Some q /\ m !! q = None /\ m' = <[q := d]> m).

Lemma add_ok p d n s : fs_ok s -> s_next_id s < 2147483648 -> 0 <= n <= U32_MAX -> n <= zlen d ->
  wp (pm_metal_fs_add p (Some d) n) (fun rc s' => fs_ok s' /\ s_next_id s' <= s_next_id s + 1 /\ added_spec p (take (Z.to_nat n) d) (abs s) rc (abs s')) s.
Proof.
  intros Hs Hid Hn Hd. unfold pm_metal_fs_add. wstep. eapply wp_mono; [by apply reserve_ok|].
  intros rc s1 [(-> & Hok & Hh & Hx)|(q & b & -> & Hq & Hfree & Hpos & Hb & -> & Hok & Hx & Hh)].
  - cbn [Z.ltb Z.compare]. wstep. split; [done|]. split; [lia|]. left. by unfold abs; rewrite Hh.
  - pose proof (ok_next s Hs). rewrite int32_id by lia. rewrite (proj2 (Z.ltb_ge _ _)) by lia. wstep.
    eapply wp_chk; [apply slice_is_Some; lia|]. change (drop (Z.to_nat 0) d) with d. wstep.
    eapply wp_mono; [eapply fill_ok; [done|by rewrite Hh|done|simpl; rewrite length_take; lia]|]. intros _ s2 (Hok2 & E & Hx2). cbn [name] in E. wstep.
    split; [done|]. split; [lia|]. right. split; [lia|]. exists q. split_and!; [done|done|]. rewrite E. unfold abs. rewrite Hh. cbn [files used name data]. by rewrite insert_insert_eq.
Qed.

Lemma fs_drop_ok p s : fs_ok s ->
  wp (pm_metal_fs_drop p) (fun rc s' => fs_ok s' /\ s_next_id s' = s_next_id s /\
    ((rc = 0 /\ exists q d, p = Some q /\ abs s !! q = Some d /\ abs s' = delete q (abs s)) \/
     (rc = -1 /\ abs s' = abs s /\ forall q, p = Some q -> q <> [] -> abs s !! q = None))) s.
Proof.
  intros Hs. unfold pm_metal_fs_drop. do 2 wstep. destruct (find_file p s) as [[i f]|] eqn:E.
  - destruct p as [[|x p]|]; [done| |done]. simpl in E. pose proof (find_named_spec (x :: p) (s_head s)) as K. rewrite E in K. destruct K as (Hi & Hu & Hnm & Hd).
    wstep. wstep. wstep. destruct (dropped_ok i f s Hs Hi Hu) as [Hok Ha]. split; [done|]. split; [done|]. left. split; [done|].
    exists (x :: p), (data f). split_and!; [done|done|]. rewrite <- Hnm. exact Ha.
  - wstep. split; [done|]. split; [done|]. right. split_and!; [done|done|]. intros q -> Hq. destruct q as [|x q]; [done|]. simpl in E.
    pose proof (find_named_spec (x :: q) (s_head s)) as K. by rewrite E in K.
Qed.

(** A write of another length drops the old version first, and it stays
    dropped when there is no room for the new one. *)
Definition written_spec (p : option (list Z)) (d : list Z) (m : gmap (list Z) (list Z)) (rc : Z) (m' : gmap (list Z) (list Z)) : Prop :=
  (rc = -1 /\ m' = m) \/
  (rc = -1 /\ exists q d0, p = Some q /\ m !! q = Some d0 /\ zlen d0 <> zlen d /\ m' = delete q m) \/
  (0 <= rc /\ exists q, p = Some q /\ m' = <[q := d]> m).

Lemma write_ok p d n s : fs_ok s -> s_next_id s < 2147483648 -> 0 <= n <= U32_MAX -> n <= zlen d ->
  wp (pm_metal_fs_write p (Some d) n) (fun rc s' => fs_ok s' /\ s_next_id s' <= s_next_id s + 1 /\ written_spec p (take (Z.to_nat n) d) (abs s) rc (abs s')) s.
Proof.
  intros Hs Hid Hn Hd. unfold pm_metal_fs_write. destruct (Z.eqb_spec n 0); [wstep; split; [done|]; split; [lia|]; by left|]. do 2 wstep.
  assert (Hl : zlen (take (Z.to_nat n) d) = n) by (rewrite length_take; lia).
  destruct (find_file p s) as [[i f]|] eqn:E.
  - destruct p as [[|x p]|]; [done| |done]. simpl in E. pose proof (find_named_spec (x :: p) (s_head s)) as K. rewrite E in K. destruct K as (Hi & Hu & Hnm & Hdt).
    assert (Hfo : file_ok f) by (destruct (ok_list s Hs) as [_ F]; rewrite Forall_lookup in F; exact (F _ _ Hi)). destruct Hfo as (Hlf & Hlp & Hidf).
    destruct (Z.eqb_spec (len f) n) as [En|En].
    + wstep. eapply wp_chk; [apply slice_is_Some; lia|]. change (drop (Z.to_nat 0) d) with d. wstep.
      eapply wp_mono; [by apply (fill_ok i f); [..|lia]|]. intros _ s1 (Hok & Ha & Hx). wstep. split; [done|]. split; [lia|]. right; right.
      rewrite int32_id by lia. split; [lia|].
      exists (x :: p). split; [done|]. by rewrite <- Hnm.
    + wstep. wstep. destruct (dropped_ok i f s Hs Hi Hu) as [Hok Ha]. rewrite Hnm in Ha.
      eapply wp_mono; [by apply add_ok|]. intros rc s1 (Hok1 & Hx & HA). split; [done|]. split; [exact Hx|]. change (added_spec (Some (x :: p)) (take (Z.to_nat n) d) (abs (dropped s i)) rc (abs s1)) in HA. rewrite Ha in HA.
      destruct HA as [[-> ->]|(Hrc & q & [= <-] & _ & ->)].
      * right; left. split; [done|]. exists (x :: p), (data f). split_and!; [done|done|lia|done].
      * right; right. split; [done|]. exists (x :: p). split; [done|]. by rewrite insert_delete_eq.
  - eapply wp_mono; [by apply add_ok|]. intros rc s1 (Hok & Hx & [?|(? & q & ? & _ & ?)]); (split; [done|]; split; [done|]); [by left|]. right; right. eauto.
Qed.

(** ** Reading *)

Lemma copy_out_ok f out room : zlen (data f) = len f -> 0 <= room -> room <= zlen out ->
  let n := Z.min (len f) room in
  copy_out f out room = Some (0, Some (take (Z.to_nat n) (data f) ++ drop (Z.to_nat n) out), n).
Proof.
  intros Hl Hr Ho n. unfold copy_out. assert ((if room <? len f then room else len f) = n) as -> by (destruct (Z.ltb_spec room (len f)); lia). cbv zeta.
  assert (Hs : 0 + n <= zlen (data f)) by lia. rewrite (slice_is_Some (data f) 0 n) by lia. rewrite some_bind. change (drop (Z.to_nat 0) (data f)) with (data f).
  rewrite blit_is_Some, some_bind; [|lia|rewrite length_take; lia]. replace (Z.to_nat 0 + length (take (Z.to_nat n) (data f)))%nat with (Z.to_nat n) by (rewrite length_take; lia). done.
Qed.

(** What the readers of path [q] see when the map is [m]. *)
Definition reads_as (m : gmap (list Z) (list Z)) s : Prop := forall q, q <> [] ->
  match m !! q with
  | Some d => pm_metal_fs_stat (Some q) s = (0, Some (zlen d)) /\
      forall out room, 0 <= room -> room <= zlen out -> let n := Z.min (zlen d) room in
        pm_metal_fs_read (Some q) (Some out) room s = Some (0, Some (take (Z.to_nat n) d ++ drop (Z.to_nat n) out), n)
  | None => pm_metal_fs_stat (Some q) s = pm_metal_fs_fat_stat (Some q) (s_fat s) /\
      forall out room, pm_metal_fs_read (Some q) (Some out) room s = pm_metal_fs_fat_read (Some q) (Some out) room (s_fat s)
  end.

Lemma reads_abs s : fs_ok s -> reads_as (abs s) s.
Proof.
  intros Hs q Hq. destruct q as [|x q]; [done|]. set (p := x :: q) in *. unfold pm_metal_fs_stat, pm_metal_fs_read.
  change (find_file (Some p) s) with (find_named p (s_head s)). pose proof (find_named_spec p (s_head s)) as K. unfold abs.
  destruct (find_named p (s_head s)) as [[i f]|]; [|by rewrite K]. destruct K as (Hi & Hu & Hn & ->).
  destruct (ok_list s Hs) as [_ F]. rewrite Forall_lookup in F. destruct (F _ _ Hi) as (Hl & _). split; [by rewrite Hl|].
  intros out room Hr Ho. cbv zeta. rewrite Hl. by apply copy_out_ok.
Qed.

Lemma count_abs s : fs_ok s -> pm_metal_fs_count s = u32 (Z.of_nat (base.size (abs s))).
Proof.
  intros [_ [Hn _] _]. unfold pm_metal_fs_count, abs. do 2 f_equal. revert Hn. induction (s_head s) as [|f l IH]; intros Hn; [done|].
  cbn [files]. rewrite filter_cons. pose proof (names_tail _ _ Hn) as Hn'. destruct (used f) eqn:Hu; [|rewrite decide_False by congruence; by apply IH].
  rewrite decide_True by done. cbn [length]. rewrite IH by done. rewrite map_size_insert_None; [done|].
  apply eq_None_not_Some. intros Hin. apply files_names in Hin. rewrite names_cons, Hu in Hn. by apply NoDup_cons in Hn as [? _].
Qed.

(** ** Histories *)

Inductive op :=
  | OpAdd (p : option (list Z)) (d : list Z) (n : Z)
  | OpWrite (p : option (list Z)) (d : list Z) (n : Z)
  | OpDrop (p : option (list Z)).

Definition op_ok (o : op) : Prop :=
  match o with OpAdd _ d n | OpWrite _ d n => 0 <= n <= U32_MAX /\ n <= zlen d | OpDrop _ => True end.

Definition run_op (o : op) : M fs Z :=
  match o with
  | OpAdd p d n => pm_metal_fs_add p (Some d) n
  | OpWrite p d n => pm_metal_fs_write p (Some d) n
  | OpDrop p => pm_metal_fs_drop p
  end.

Fixpoint run_ops (os : list op) : M fs (list Z) :=
  match os with
  | [] => ret []
  | o :: t => r <- run_op o;; rs <- run_ops t;; ret (r :: rs)
  end.

(** The same operations on a finite map, whose memory may run out. *)
Definition spec_op (o : op) (m : gmap (list Z) (list Z)) (rc : Z) (m' : gmap (list Z) (list Z)) : Prop :=
  match o with
  | OpAdd p d n => added_spec p (take (Z.to_nat n) d) m rc m'
  | OpWrite p d n => written_spec p (take (Z.to_nat n) d) m rc m'
  | OpDrop p =>
    (rc = 0 /\ exists q d, p = Some q /\ m !! q = Some d /\ m' = delete q m) \/
    (rc = -1 /\ m' = m /\ forall q, p = Some q -> q <> [] -> m !! q = None)
  end.

Inductive spec_ops : list op -> gmap (list Z) (list Z) -> list Z -> gmap (list Z) (list Z) -> Prop :=
| spec_nil m : spec_ops [] m [] m
| spec_cons o os m m1 m2 rc rcs : spec_op o m rc m1 -> spec_ops os m1 rcs m2 -> spec_ops (o :: os) m (rc :: rcs) m2.

Lemma run_op_ok o s : fs_ok s -> op_ok o -> s_next_id s < 2147483648 ->
  wp (run_op o) (fun rc s' => fs_ok s' /\ s_next_id s' <= s_next_id s + 1 /\ spec_op o (abs s) rc (abs s')) s.
Proof.
  intros Hs Ho Hid. destruct o as [p d n|p d n|p]; simpl in *.
  - destruct Ho. by apply add_ok.
  - destruct Ho. by apply write_ok.
  - eapply wp_mono; [by apply fs_drop_ok|]. intros rc s' (? & -> & ?). split; [done|]. split; [lia|done].
Qed.

(** C18: any sequence of adds, writes and drops behaves as the same sequence on
    a finite map from paths to bytes, in its results and its effect: an add
    inserts a new path or is refused, a write replaces, a drop deletes; when
    memory runs out the map is unchanged, except that a write of another
    length has by then deleted the old version.  Afterwards a path in the map
    is read from it, with its length and as many of its bytes as there is
    room for, any other path from the volumes, and the count is the size of
    the map. *)
Theorem fs_refines_map (os : list op) (s : fs) (Hs : fs_ok s) (Ho : Forall op_ok os)
    (Hid : s_next_id s + zlen os <= 2147483648) :
  wp (run_ops os) (fun rcs s' =>
    fs_ok s' /\ spec_ops os (abs s) rcs (abs s') /\ reads_as (abs s') s' /\
    pm_metal_fs_count s' = u32 (Z.of_nat (base.size (abs s')))) s.
Proof.
  revert s Hs Hid. induction Ho as [|o os Ho Hos IH]; intros s Hs Hid; cbn [run_ops].
  - wstep. split_and!; [done|constructor|by apply reads_abs|by apply count_abs].
  - wstep. eapply wp_mono; [apply run_op_ok; [done|done|simpl in Hid; lia]|]. intros rc s1 (Hs1 & Hx & Hsp). wstep.
    eapply wp_mono; [apply IH; [done|simpl in Hid; lia]|]. intros rcs s2 (Hs2 & Hsps & Hr & Hc). wstep. split_and!; [done|by econstructor|done|done].
Qed.
End card.

(** ** An example history *)

#[local] Existing Instances FatDisk.small_disk zero_arena zero_arena_laws.

Definition fs0 : fs := FsSt true [] 0 FatDisk.card0.
Definition ops0 : list op := [OpAdd (Some [97]) [1; 2] 2; OpWrite (Some [97]) [3] 1; OpAdd (Some [98]) [4] 1; OpDrop (Some [98])].

Lemma fs0_ok : fs_ok fs0.
Proof. constructor; [done|split; constructor|done]. Qed.

Lemma fs_refines_map_witness : exists rcs s', run_ops ops0 fs0 = Done rcs s' /\ spec_ops ops0 ∅ rcs (abs s') /\
  pm_metal_fs_read (Some [97]) (Some [0; 0]) 2 s' = Some (0, Some [3; 0], 1).
Proof.
  assert (Ho : Forall op_ok ops0) by (repeat constructor; simpl; lia).
  destruct (wp_run _ _ _ (fs_refines_map ops0 fs0 fs0_ok Ho ltac:(by vm_compute))) as (rcs & s' & E & Hs & Hsp & Hr & _).
  exists rcs, s'. split; [exact E|]. split; [exact Hsp|].
  assert (K : match run_ops ops0 fs0 with Done _ s => abs s !! [97] | _ => None end = Some [3]) by (vm_compute; reflexivity). rewrite E in K.
  specialize (Hr [97] ltac:(done)). rewrite K in Hr. destruct Hr as [_ R]. by apply (R [0; 0] 2).
Defined.
End FsSpec.
