(* ===== verification/Edit.v ===== *)
(** * The edit card: C sources by their spans

    src/.../metal/edit/__impl__.c.  A source is a buffer of bytes and a read
    outside it is a [Fault]; a string argument is its bytes before the NUL.
    Offsets into a source stay below the ceiling of its knob, 16 MB, so the sums
    of the scans do not wrap; those that can are written out.  Each scan takes
    one round for each byte that is left and one more. *)
From S2P Require Import Prelude Fat Fs.

Module Edit.
Import Store.
Local Open Scope metal_scope.

(** ** Types *)

Definition PM_METAL_EDIT_NAME_MAX := 96.
Definition PM_METAL_EDIT_NODES_DEFAULT := 256.
Definition PM_METAL_EDIT_SRC_DEFAULT := 131072.
Inductive pm_metal_edit_kind := EDIT_NONE | EDIT_FN | EDIT_DEFINE.
#[export] Instance kind_eq_dec : EqDecision pm_metal_edit_kind.
Proof. solve_decision. Defined.

Record pm_metal_edit_node := Node { kind : pm_metal_edit_kind; name : list Z; name_off : Z; span_start : Z; span_end : Z; body_off : Z; value_off : Z; value_len : Z; line : Z }.

(** What [error] says: nothing, no room for a node, or a length that is not
    accepted. *)
Inductive perror := No_error | No_node (n : Z) | Bad_length (n : Z).
Record pm_metal_edit_tree := Tree { src : list Z; src_len : Z; nodes : list pm_metal_edit_node; cap_nodes : Z; error : perror }.
Definition empty_tree : pm_metal_edit_tree := Tree [] 0 [] 0 No_error.
Definition set_error e t := Tree (src t) (src_len t) (nodes t) (cap_nodes t) e.

Definition PM_METAL_EDIT_OK := 0.
Definition PM_METAL_EDIT_ERR_ARGS := -1.
Definition PM_METAL_EDIT_ERR_NOT_FOUND := -2.
Definition PM_METAL_EDIT_ERR_TYPECHECK := -3.
Definition PM_METAL_EDIT_ERR_NOTE := -4.
Definition PM_METAL_EDIT_ERR_NOMEM := -5.
Definition PM_METAL_EDIT_ERR_IO := -6.

(** ** Characters *)

Definition is_id_start (c : Z) : bool := ((97 <=? c) && (c <=? 122)) || ((65 <=? c) && (c <=? 90)) || (c =? 95).
Definition is_id_char (c : Z) : bool := is_id_start c || ((48 <=? c) && (c <=? 57)).
Definition is_tab (c : Z) : bool := (c =? 32) || (c =? 9).
Definition is_blank (c : Z) : bool := (c =? 32) || (c =? 9) || (c =? 13) || (c =? 10).

(** ** Scanning a source *)

Section scan.
Context {S : Type}.
Variable s : list Z.
Abbreviation P := (M S).

Definition at_ (i : Z) : P Z := chk (rd s i).

(** while (i < e && f(s[i])) i++; *)
Fixpoint while_loop (n : nat) (f : Z -> bool) (i e : Z) : P Z :=
  match n with
  | O => nofuel
  | Datatypes.S n => if i <? e then c <- at_ i ;; if f c then while_loop n f (i + 1) e else ret i else ret i
  end.
Definition rounds (e i : Z) : nat := Datatypes.S (Z.to_nat (e - i)).
Definition skip_while (f : Z -> bool) (i e : Z) : P Z := while_loop (rounds e i) f i e.

Fixpoint line_loop (n : nat) (i off l : Z) : P Z :=
  match n with
  | O => nofuel
  | Datatypes.S n => if i <? off then c <- at_ i ;; if c =? 0 then ret l else line_loop n (i + 1) off (if c =? 10 then u32 (l + 1) else l) else ret l
  end.
Definition line_of (off : Z) : P Z := line_loop (rounds off 0) 0 off 1.

Variable len : Z.

(** i + 1 < len && s[i + 1] == c *)
Definition next_is (i c : Z) : P bool := if i + 1 <? len then d <- at_ (i + 1) ;; ret (d =? c) else ret false.

(** The end of a literal, from behind its first quote; the end of a comment,
    from behind its opening. *)
Fixpoint quote_loop (n : nat) (q i : Z) : P Z :=
  match n with
  | O => nofuel
  | Datatypes.S n => if i <? len then c <- at_ i ;; if c =? q then ret i else if (c =? 92) && (i + 1 <? len) then quote_loop n q (i + 2) else quote_loop n q (i + 1) else ret i
  end.
Definition lit_end (q i : Z) : P Z := quote_loop (rounds len i) q i.
Fixpoint com_loop (n : nat) (i : Z) : P Z :=
  match n with
  | O => nofuel
  | Datatypes.S n => if i + 1 <? len then c <- at_ i ;; d <- at_ (i + 1) ;; if (c =? 42) && (d =? 47) then ret i else com_loop n (i + 1) else ret i
  end.
Definition com_end (i : Z) : P Z := com_loop (rounds len i) i.

(** (uint32_t)-1 *)
Definition NO_OFFSET := 4294967295.
Fixpoint paren_loop (n : nat) (i depth : Z) : P Z :=
  match n with
  | O => nofuel
  | Datatypes.S n =>
      if negb (i <? len) then ret NO_OFFSET else
      c <- at_ i ;;
      if c =? 40 then paren_loop n (i + 1) (u32 (depth + 1)) else
      if c =? 41 then if u32 (depth - 1) =? 0 then ret i else paren_loop n (i + 1) (u32 (depth - 1)) else
      if (c =? 34) || (c =? 39) then j <- lit_end c (i + 1) ;; paren_loop n (j + 1) depth else
      star <- (if c =? 47 then next_is i 42 else ret false) ;;
      if star then j <- com_end (i + 2) ;; paren_loop n (j + 2) depth else paren_loop n (i + 1) depth
  end.
Definition match_paren (off : Z) : P Z := paren_loop (rounds len off) off 0.

(** The walk over a body: where it ends, and the braces left open. *)
Fixpoint brace_loop (n : nat) (q depth : Z) : P (Z * Z) :=
  match n with
  | O => nofuel
  | Datatypes.S n =>
      if negb ((q <? len) && (0 <? depth)) then ret (q, depth) else
      c <- at_ q ;;
      if c =? 123 then brace_loop n (q + 1) (u32 (depth + 1)) else
      if c =? 125 then brace_loop n (q + 1) (u32 (depth - 1)) else
      if (c =? 34) || (c =? 39) then j <- lit_end c (q + 1) ;; brace_loop n (j + 1) depth else
      star <- (if c =? 47 then next_is q 42 else ret false) ;;
      if star then j <- com_end (q + 2) ;; brace_loop n (j + 2) depth else
      slash <- (if c =? 47 then next_is q 47 else ret false) ;;
      if slash then j <- skip_while (fun c => negb (c =? 10)) q len ;; brace_loop n (j + 1) depth else brace_loop n (q + 1) depth
  end.

(** The header of a function: the parenthesis, if the scan came to one, and
    the last identifier before it. *)
Fixpoint header_loop (n : nat) (p id_start id_end : Z) : P (option Z * Z * Z) :=
  match n with
  | O => nofuel
  | Datatypes.S n =>
      let stop := ret (None, id_start, id_end) in
      if negb (p <? len) then stop else
      c <- at_ p ;;
      if is_id_start c then e <- skip_while is_id_char p len ;; header_loop n e p e else
      if c =? 40 then ret (Some p, id_start, id_end) else
      if (c =? 59) || (c =? 61) || (c =? 123) || (c =? 125) || (c =? 34) || (c =? 39) then stop else
      slash <- (if c =? 47 then next_is p 47 else ret false) ;;
      if slash then stop else
      star <- (if c =? 47 then next_is p 42 else ret false) ;;
      if star then j <- com_end (p + 2) ;; header_loop n (j + 1) id_start id_end else
      if c =? 10 then stop else header_loop n (p + 1) id_start id_end
  end.

(** while (back > id_end && (s[back - 1] == ' ' || s[back - 1] == '\t')) back--; *)
Fixpoint back_loop (n : nat) (id_end back : Z) : P Z :=
  match n with
  | O => nofuel
  | Datatypes.S n => if id_end <? back then c <- at_ (back - 1) ;; if is_tab c then back_loop n id_end (back - 1) else ret back else ret back
  end.

(** A function that starts at [ls]: its name, the '{', one past the '}'. *)
Definition fn_at (ls : Z) : P (option (Z * Z * Z * Z)) :=
  h <- header_loop (rounds len ls) ls 0 0 ;;
  let '(paren, id_start, id_end) := h in
  match paren with
  | None => ret None
  | Some paren_off =>
      if negb (id_start <? id_end) then ret None else
      back <- back_loop (rounds paren_off id_end) id_end paren_off ;;
      if negb (back =? id_end) then ret None else
      pe <- match_paren paren_off ;;
      if pe =? NO_OFFSET then ret None else
      b <- skip_while is_blank (pe + 1) len ;;
      if negb (b <? len) then ret None else
      c <- at_ b ;;
      if negb (c =? 123) then ret None else
      r <- brace_loop (rounds len (b + 1)) (b + 1) 1 ;;
      let '(q, depth) := r in ret (if depth =? 0 then Some (id_start, id_end, b, q) else None)
  end.

(** snprintf("%.*s") of [s[a..b)] into a name: what fits with its NUL. *)
Definition name_of (a b : Z) : P (list Z) := l <- chk (slice s a (b - a)) ;; ret (take 95 (cstr l)).
End scan.

Definition fn_node (s : list Z) {S} (ls : Z) (f : Z * Z * Z * Z) : M S pm_metal_edit_node :=
  let '(id_start, id_end, b, q) := f in
  nm <- name_of s id_start id_end ;; l <- line_of s ls ;;
  ret (Node EDIT_FN nm id_start ls q b 0 0 l).

(** "#define" *)
Definition define_word : list Z := [35; 100; 101; 102; 105; 110; 101].
(** The name on the line [ls, le), if it is a #define. *)
Definition define_at (s : list Z) {S} (ls le : Z) : M S (option Z) :=
  if le - ls <? 8 then ret None else
  w <- chk (slice s ls 7) ;;
  if negb (bool_decide (w = define_word)) then ret None else
  c <- at_ s (ls + 7) ;;
  if negb (is_tab c) then ret None else ret (Some (ls + 7)).
Definition define_node (s : list Z) (len : Z) {S} (ls le ns : Z) : M S pm_metal_edit_node :=
  ne <- skip_while s is_id_char ns le ;;
  nm <- name_of s ns ne ;; l <- line_of s ls ;;
  glued <- (if ne <? le then c <- at_ s ne ;; ret (c =? 40) else ret false) ;;
  body <- (if glued then m <- match_paren s len ne ;; ret (u32 (m + 1)) else ret ne) ;;
  p <- skip_while s is_tab body le ;;
  e <- skip_while s (fun c => negb (is_tab c)) p le ;;
  ret (Node EDIT_DEFINE nm ns ls (if le <? len then le + 1 else le) body p (e - p) l).

(** ** Parsing *)

Section parse.
Context {A : Type} `{!Arena A}.
Abbreviation E := (M A).
(** The knobs: the longest source, and [pm_util_limits_grow] on the node list,
    which answers with the new capacity. *)
Variable limit : Z.
Variable grow : Z -> A -> A * option Z.

Definition on_arena {B} (f : A -> A * B) : E B := fun a => let '(a', b) := f a in Done b a'.
Definition alloc (n : Z) : E (option (list Z)) := on_arena (mem_alloc n).

(** Room for one more node: the tree, wider if it had to be, or with its
    message. *)
Definition node_room (t : pm_metal_edit_tree) : E (bool * pm_metal_edit_tree) :=
  let n := zlen (nodes t) in
  if cap_nodes t <=? n then
    o <- on_arena (grow (cap_nodes t)) ;;
    match o with
    | Some cap => if cap <=? n then ret (false, set_error (No_node (n + 1)) t) else ret (true, Tree (src t) (src_len t) (nodes t) cap (error t))
    | None => ret (false, set_error (No_node (n + 1)) t)
    end
  else ret (true, t).
Definition add_node (n : pm_metal_edit_node) (t : pm_metal_edit_tree) := Tree (src t) (src_len t) (nodes t ++ [n]) (cap_nodes t) (error t).

Fixpoint source_loop (n : nat) (s : list Z) (len i : Z) (t : pm_metal_edit_tree) : E (Z * pm_metal_edit_tree) :=
  match n with
  | O => nofuel
  | S n =>
      if negb (i <? len) then ret (PM_METAL_EDIT_OK, t) else
      le <- skip_while s (fun c => negb (c =? 10)) i len ;;
      let next := if le <? len then le + 1 else le in
      d <- define_at s i le ;;
      match d with
      | Some p =>
          p <- skip_while s is_tab p le ;;
          id <- (if p <? le then c <- at_ s p ;; ret (is_id_start c) else ret false) ;;
          if negb id then source_loop n s len next t else
          r <- node_room t ;;
          if negb (fst r) then ret (PM_METAL_EDIT_ERR_NOMEM, snd r) else
          nd <- define_node s len i le p ;;
          source_loop n s len next (add_node nd (snd r))
      | None =>
          c <- at_ s i ;;
          if negb (is_id_start c && (i <? le)) then source_loop n s len next t else
          f <- fn_at s len i ;;
          match f with
          | None => source_loop n s len next t
          | Some (id_start, id_end, b, q) =>
              r <- node_room t ;;
              if negb (fst r) then ret (PM_METAL_EDIT_ERR_NOMEM, snd r) else
              nd <- fn_node s i (id_start, id_end, b, q) ;;
              source_loop n s len (if q <? len then q else len) (add_node nd (snd r))
          end
      end
  end.

Definition strlen (s : list Z) : E Z := chk (if bool_decide (0 ∈ s) then Some (zlen (cstr s)) else None).

(** The status and what is left in the caller's tree; [None] is one that was not
    touched. *)
Definition pm_metal_edit_parse_c (arena tree : bool) (source : option (list Z)) (source_len : Z) : E (Z * option pm_metal_edit_tree) :=
  match source with
  | Some s =>
      if negb tree || negb arena then ret (PM_METAL_EDIT_ERR_ARGS, None) else
      len <- (if negb (source_len =? 0) then ret source_len else strlen s) ;;
      if (len =? 0) || (limit <? len) then ret (PM_METAL_EDIT_ERR_ARGS, Some (set_error (Bad_length len) empty_tree)) else
      r <- source_loop (rounds len 0) s len 0 (Tree s len [] 0 No_error) ;;
      ret (fst r, Some (snd r))
  | None => ret (PM_METAL_EDIT_ERR_ARGS, None)
  end.

(** The nodes go back to the arena. *)
Definition pm_metal_edit_tree_release (t : pm_metal_edit_tree) : pm_metal_edit_tree := empty_tree.

Fixpoint locate_in (k : pm_metal_edit_kind) (nm : list Z) (l : list pm_metal_edit_node) : option pm_metal_edit_node :=
  match l with [] => None | n :: t => if bool_decide (kind n = k) && bool_decide (name n = nm) then Some n else locate_in k nm t end.
Definition pm_metal_edit_locate (t : pm_metal_edit_tree) (k : pm_metal_edit_kind) (nm : list Z) : option pm_metal_edit_node := locate_in k nm (nodes t).

(** ** Editing *)

(** The status, and the new source with its NUL and its length. *)
Definition splice (source : list Z) (source_len at_ remove_len : Z) (insert : list Z) : E (Z * option (list Z * Z)) :=
  if (source_len <? at_) || (source_len <? at_ + remove_len) then ret (PM_METAL_EDIT_ERR_ARGS, None) else
  let ilen := zlen insert in
  let total := source_len - remove_len + ilen in
  if limit <=? total then ret (PM_METAL_EDIT_ERR_NOMEM, None) else
  o <- alloc (total + 1) ;;
  match o with
  | None => ret (PM_METAL_EDIT_ERR_NOMEM, None)
  | Some buf =>
      head <- chk (slice source 0 at_) ;;
      buf <- chk (blit buf 0 head) ;;
      buf <- chk (blit buf at_ insert) ;;
      tail <- chk (slice source (at_ + remove_len) (source_len - at_ - remove_len)) ;;
      buf <- chk (blit buf (at_ + ilen) tail) ;;
      buf <- chk (wr buf total 0) ;;
      ret (PM_METAL_EDIT_OK, Some (buf, total))
  end.

Definition pm_metal_edit_set_define (t : pm_metal_edit_tree) (nm value : list Z) : E (Z * option (list Z * Z)) :=
  match pm_metal_edit_locate t EDIT_DEFINE nm with
  | None => ret (PM_METAL_EDIT_ERR_NOT_FOUND, None)
  | Some n => if value_len n =? 0 then ret (PM_METAL_EDIT_ERR_ARGS, None) else splice (src t) (src_len t) (value_off n) (value_len n) value
  end.

Definition pm_metal_edit_set_fn_body (t : pm_metal_edit_tree) (nm body_text : list Z) : E (Z * option (list Z * Z)) :=
  match pm_metal_edit_locate t EDIT_FN nm with
  | None => ret (PM_METAL_EDIT_ERR_NOT_FOUND, None)
  | Some n =>
      let open := body_off n in
      o <- (if src_len t <=? open then ret false else c <- at_ (src t) open ;; ret (c =? 123)) ;;
      if negb o then ret (PM_METAL_EDIT_ERR_ARGS, None) else
      let close := u32 (span_end n - 1) in
      c <- (if src_len t <=? close then ret false else c <- at_ (src t) close ;; ret (c =? 125)) ;;
      if negb c then ret (PM_METAL_EDIT_ERR_ARGS, None) else
      splice (src t) (src_len t) (open + 1) (u32 (close - (open + 1))) body_text
  end.
End parse.

(** ** The gates before a write *)

Section write.
Context {A : Type} `{!Arena A}.
(** The arena made of a block, if it can be; the compiler's answer; the ledger. *)
Variable arena_create : list Z -> bool.
Variable object_compile : list Z -> Z.
Variable note_has : list Z -> Z.
(** The block back to the arena; the knob of the scratch, and whether the card
    has its arena. *)
Variable mem_free : list Z -> A -> A.
Variables (span : Z) (s_arena : bool).

Definition pm_metal_edit_typecheck_c (source : option (list Z)) : M (Fs.fs (A := A)) Z :=
  match source with
  | None | Some [] => ret PM_METAL_EDIT_ERR_ARGS
  | Some s =>
      if negb s_arena then ret PM_METAL_EDIT_ERR_NOMEM else
      block <- Fs.on_fat (Fat.alloc span) ;;
      match block with
      | None => ret PM_METAL_EDIT_ERR_NOMEM
      | Some b =>
          Fs.on_fat (modify (fun f => Fat.FatSt (mem_free b (Fat.s_mem f)) (Fat.s_arena f) (Fat.s_vol f) (Fat.s_ent f))) ;;
          ret (if negb (arena_create b) then PM_METAL_EDIT_ERR_NOMEM else if negb (object_compile s =? 0) then PM_METAL_EDIT_ERR_TYPECHECK else PM_METAL_EDIT_OK)
      end
  end.

Definition pm_metal_edit_write_back (target path source : option (list Z)) : M (Fs.fs (A := A)) Z :=
  match target, path, source with
  | Some g, Some p, Some (x :: s) =>
      if negb (note_has g =? 1) then ret PM_METAL_EDIT_ERR_NOTE else
      rc <- pm_metal_edit_typecheck_c source ;;
      if negb (rc =? PM_METAL_EDIT_OK) then ret rc else
      Fs.pm_metal_fs_drop path ;;
      rc <- Fs.pm_metal_fs_add path source (u32 (zlen (x :: s))) ;;
      ret (if rc <? 0 then PM_METAL_EDIT_ERR_IO else PM_METAL_EDIT_OK)
  | _, _, _ => ret PM_METAL_EDIT_ERR_ARGS
  end.
End write.

(** pm_metal_edit_init and deinit: the status and [s_arena]. *)
Definition pm_metal_edit_init (arena s_arena : bool) : Z * bool := if negb arena then (-1, s_arena) else (0, true).
Definition pm_metal_edit_deinit (s_arena : bool) : bool := false.
End Edit.
