(* ===== verification/EditSafe.v ===== *)
(** * Editing any source

    The scans of Edit on bytes of any content: they stay inside the buffer and
    end, and what they find are disjoint spans of the source. *)
From Stdlib Require Import Sorted.
From S2P Require Import Prelude Edit.

Module EditSafe.
Import Store Edit.
Local Open Scope metal_scope.

(** ** Scans *)

Section scan.
Context {S : Type}.
(** The source [x], at the start of a buffer. *)
Variables (x junk : list Z).
Abbreviation s := (x ++ junk).
Abbreviation len := (zlen x).
Implicit Types (st : S).

Lemma rd_source i : i < len -> rd s i = rd x i.
Proof. intros H. unfold rd. destruct (Z.ltb_spec i 0); [done|]. apply lookup_app_l. lia. Qed.
Lemma at_wp i (Q : Z -> S -> Prop) st : 0 <= i < len -> (forall c, rd x i = Some c -> Q c st) -> wp (at_ s i) Q st.
Proof. intros Hi HQ. destruct (rd_is_Some x i Hi) as [c Hc]. unfold at_. eapply wp_chk; [rewrite rd_source by lia; exact Hc|]. by apply HQ. Qed.

(** What [skip_while] stops at. *)
Definition run (f : Z -> bool) (i j : Z) : Prop := forall k, i <= k < j -> exists c, rd x k = Some c /\ f c = true.
Definition stops (f : Z -> bool) (j e : Z) : Prop := j < e -> exists c, rd x j = Some c /\ f c = false.
Lemma scan_wp f i e (Q : Z -> S -> Prop) st : 0 <= i -> e <= len -> (forall j, i <= j -> j <= Z.max i e -> run f i j -> stops f j e -> Q j st) -> wp (skip_while s f i e) Q st.
Proof.
  unfold skip_while, rounds. remember (Datatypes.S (Z.to_nat (e - i))) as n eqn:En. assert (Hn : (Z.to_nat (e - i) < n)%nat) by lia. clear En. revert i Hn. induction n as [|n IH]; intros i Hn H0 He HQ; [lia|]. cbn [while_loop].
  destruct (Z.ltb_spec i e) as [Hlt|Hge]; [|wstep; apply HQ; [lia|lia|intros k; lia|intros ?; lia]]. wstep. apply at_wp; [lia|]. intros c Hc. destruct (f c) eqn:Ef.
  - apply IH; [lia|lia|done|]. intros j H1 H2 H3 H4. apply HQ; [lia|lia| |done]. intros k Hk. destruct (decide (k = i)) as [->|]; [by exists c|]. apply H3. lia.
  - wstep. apply HQ; [lia|lia|intros k; lia|]. intros _. by exists c.
Qed.

Lemma lit_wp q i (Q : Z -> S -> Prop) st : 0 <= i -> (forall j, i <= j -> Q j st) -> wp (lit_end s len q i) Q st.
Proof.
  unfold lit_end, rounds. remember (Datatypes.S (Z.to_nat (len - i))) as n eqn:En. assert (Hn : (Z.to_nat (len - i) < n)%nat) by lia. clear En. revert i Hn. induction n as [|n IH]; intros i Hn H0 HQ; [lia|]. cbn [quote_loop].
  destruct (Z.ltb_spec i len); [|wstep; apply HQ; lia]. wstep. apply at_wp; [lia|]. intros c _. destruct (c =? q); [wstep; apply HQ; lia|]. destruct ((c =? 92) && _); (apply IH; [lia|lia|]); intros j Hj; apply HQ; lia.
Qed.
Lemma com_wp i (Q : Z -> S -> Prop) st : 0 <= i -> (forall j, i <= j -> Q j st) -> wp (com_end s len i) Q st.
Proof.
  unfold com_end, rounds. remember (Datatypes.S (Z.to_nat (len - i))) as n eqn:En. assert (Hn : (Z.to_nat (len - i) < n)%nat) by lia. clear En. revert i Hn. induction n as [|n IH]; intros i Hn H0 HQ; [lia|]. cbn [com_loop].
  destruct (Z.ltb_spec (i + 1) len); [|wstep; apply HQ; lia]. wstep. apply at_wp; [lia|]. intros c _. wstep. apply at_wp; [lia|]. intros d _. destruct (_ && _); [wstep; apply HQ; lia|]. apply IH; [lia|lia|]. intros j Hj. apply HQ. lia.
Qed.
Lemma next_wp i c (Q : bool -> S -> Prop) st : 0 <= i -> (forall b, Q b st) -> wp (next_is s len i c) Q st.
Proof. intros H0 HQ. unfold next_is. destruct (Z.ltb_spec (i + 1) len); [|by wstep]. wstep. apply at_wp; [lia|]. intros d _. by wstep. Qed.
Lemma if_next_wp (b : bool) i c (Q : bool -> S -> Prop) st : 0 <= i -> (forall r, Q r st) -> wp (if b then next_is s len i c else ret false) Q st.
Proof. intros H0 HQ. destruct b; [by apply next_wp|by wstep]. Qed.

Lemma paren_wp n i d (Q : Z -> S -> Prop) st : (Z.to_nat (len - i) < n)%nat -> 0 <= i -> (forall j, j = NO_OFFSET \/ (i <= j < len /\ rd x j = Some 41) -> Q j st) -> wp (paren_loop s len n i d) Q st.
Proof.
  revert i d. induction n as [|n IH]; intros i d Hn H0 HQ; [lia|]. cbn [paren_loop]. destruct (Z.ltb_spec i len); cbn [negb]; [|wstep; apply HQ; by left]. wstep. apply at_wp; [lia|]. intros c Hc.
  assert (Hrec : forall j d', i < j -> wp (paren_loop s len n j d') Q st). { intros j d' Hj. apply IH; [lia|lia|]. intros k Hk. apply HQ. destruct Hk as [->|[Hk1 Hk2]]; [by left|right; split; [lia|done]]. }
  destruct (c =? 40); [apply Hrec; lia|]. destruct (Z.eqb_spec c 41) as [->|]; [destruct (u32 (d - 1) =? 0); [wstep; apply HQ; right; split; [lia|done]|apply Hrec; lia]|].
  destruct (_ || _); [wstep; apply lit_wp; [lia|]; intros j Hj; apply Hrec; lia|]. wstep. apply if_next_wp; [lia|]. intros [|]; [wstep; apply com_wp; [lia|]; intros j Hj; apply Hrec; lia|apply Hrec; lia].
Qed.

(** The partner of a parenthesis is found by the bytes of the source alone. *)
Definition like {B} (m : M S B) (o : outcome unit B) : Prop := forall st, m st = match o with Done b _ => Done b st | Fault => Fault | NoFuel => NoFuel end.
Lemma like_ret {B} (b : B) : like (ret b) (ret b tt).
Proof. done. Qed.
Lemma like_bind {B C} (m : M S B) (k : B -> M S C) m' k' : like m (m' tt) -> (forall b, like (k b) (k' b tt)) -> like (bind m k) (bind m' k' tt).
Proof. intros Hm Hk st. unfold bind. rewrite Hm. destruct (m' tt) as [b []| |]; [apply Hk|done|done]. Qed.
Lemma like_at i : i < len -> like (at_ s i) (at_ x i tt).
Proof. intros Hi st. unfold at_. rewrite rd_source by done. by destruct (rd x i). Qed.
Lemma like_quote n q i : like (quote_loop s len n q i) (quote_loop x len n q i tt).
Proof. revert i. induction n as [|n IH]; intros i; [done|]. cbn [quote_loop]. destruct (Z.ltb_spec i len); [|apply like_ret]. apply like_bind; [by apply like_at|]. intros c. destruct (c =? q); [apply like_ret|]. by destruct (_ && _). Qed.
Lemma like_com n i : like (com_loop s len n i) (com_loop x len n i tt).
Proof.
  revert i. induction n as [|n IH]; intros i; [done|]. cbn [com_loop]. destruct (Z.ltb_spec (i + 1) len); [|apply like_ret]. apply like_bind; [apply like_at; lia|]. intros c. apply like_bind; [by apply like_at|]. intros d. destruct (_ && _); [apply like_ret|done].
Qed.
Lemma like_next i c : like (next_is s len i c) (next_is x len i c tt).
Proof. unfold next_is. destruct (Z.ltb_spec (i + 1) len); [|apply like_ret]. apply like_bind; [by apply like_at|]. intros d. apply like_ret. Qed.
Lemma like_paren n i d : like (paren_loop s len n i d) (paren_loop x len n i d tt).
Proof.
  revert i d. induction n as [|n IH]; intros i d; [done|]. cbn [paren_loop]. destruct (Z.ltb_spec i len); cbn [negb]; [|apply like_ret]. apply like_bind; [by apply like_at|]. intros c. destruct (c =? 40); [done|]. destruct (c =? 41); [by destruct (_ =? 0)|].
  destruct (_ || _); [apply like_bind; [apply like_quote|done]|]. apply like_bind; [destruct (c =? 47); [apply like_next|apply like_ret]|]. intros [|]; [apply like_bind; [apply like_com|done]|done].
Qed.
(** Where [match_paren] answers that the parenthesis at [i] is closed. *)
Definition partner (i : Z) : outcome unit Z := match_paren x len i tt.
Lemma match_wp i (Q : Z -> S -> Prop) st : 0 <= i -> (forall j, partner i = Done j tt -> j = NO_OFFSET \/ (i <= j < len /\ rd x j = Some 41) -> Q j st) -> wp (match_paren s len i) Q st.
Proof.
  intros Hi HQ. destruct (wp_run (match_paren s len i) (fun j st' => st' = st /\ (j = NO_OFFSET \/ (i <= j < len /\ rd x j = Some 41))) st) as (j & st' & E & -> & Hj); [apply paren_wp; [unfold rounds; lia|done|auto]|].
  eapply wp_eq; [exact E|]. apply HQ; [|done]. pose proof (like_paren (rounds len i) i 0 st) as L. unfold partner, match_paren in *. rewrite E in L. destruct (paren_loop x len (rounds len i) i 0 tt) as [b []| |]; congruence.
Qed.

Lemma brace_wp n i d (Q : Z * Z -> S -> Prop) st : (Z.to_nat (len - i) < n)%nat -> 0 <= i -> len < 4294967295 -> 0 <= d <= i -> (d = 0 -> 0 < i <= len /\ rd x (i - 1) = Some 125) ->
  (forall j e, i <= j -> (e = 0 -> 0 < j <= len /\ rd x (j - 1) = Some 125) -> Q (j, e) st) -> wp (brace_loop s len n i d) Q st.
Proof.
  revert i d. induction n as [|n IH]; intros i d Hn H0 Hlen Hd Hz HQ; [lia|]. cbn [brace_loop]. destruct (Z.ltb_spec i len); cbn [negb andb]; [|wstep; by apply HQ]. destruct (Z.ltb_spec 0 d); cbn [negb]; [|wstep; by apply HQ]. wstep. apply at_wp; [lia|]. intros c Hc.
  assert (Hrec : forall j d', i < j -> 0 <= d' <= j -> (d' = 0 -> 0 < j <= len /\ rd x (j - 1) = Some 125) -> wp (brace_loop s len n j d') Q st). { intros j d' Hj Hd' Hz'. apply IH; [lia|lia|done|done|done|]. intros k e Hk Hq. apply HQ; [lia|done]. }
  destruct (c =? 123); [rewrite u32_small by lia; apply Hrec; lia|]. destruct (Z.eqb_spec c 125) as [->|].
  { rewrite u32_small by lia. apply Hrec; [lia|lia|]. intros _. split; [lia|]. by replace (i + 1 - 1) with i by lia. }
  destruct (_ || _); [wstep; apply lit_wp; [lia|]; intros j Hj; apply Hrec; lia|]. wstep. apply if_next_wp; [lia|]. intros [|]; [wstep; apply com_wp; [lia|]; intros j Hj; apply Hrec; lia|].
  wstep. apply if_next_wp; [lia|]. intros [|]; [wstep; apply scan_wp; [lia|lia|]; intros j Hj _ _ _; apply Hrec; lia|apply Hrec; lia].
Qed.

(** The last identifier that a header has shown so far. *)
Definition ident_at (ls a b p : Z) : Prop := (a = 0 /\ b = 0) \/ (ls <= a < b /\ b <= p /\ run is_id_char a b /\ b <= len).
Lemma header_wp n ls p a b (Q : option Z * Z * Z -> S -> Prop) st : (Z.to_nat (len - p) < n)%nat -> 0 <= ls <= p -> ident_at ls a b p ->
  (forall o a' b', match o with Some po => p <= po < len /\ rd x po = Some 40 /\ ident_at ls a' b' po | None => True end -> Q (o, a', b') st) -> wp (header_loop s len n p a b) Q st.
Proof.
  revert p a b. induction n as [|n IH]; intros p a b Hn Hp Hid HQ; [lia|]. cbn [header_loop]. destruct (Z.ltb_spec p len); cbn [negb]; [|wstep; by apply HQ]. wstep. apply at_wp; [lia|]. intros c Hc.
  assert (Hrec : forall j a' b', p < j -> ident_at ls a' b' j -> wp (header_loop s len n j a' b') Q st). { intros j a' b' Hj Hid'. apply IH; [lia|lia|done|]. intros o a2 b2 Ho. apply HQ. destruct o; [|done]. destruct Ho as (? & ? & ?). split; [lia|done]. }
  assert (Hmono : forall j, p < j -> ident_at ls a b j) by (intros j Hj; destruct Hid as [?|(? & ? & ? & ?)]; [by left|right; split_and!; [lia|lia|lia|done|lia]]).
  assert (Hstop : wp (ret (None, a, b)) Q st) by (wstep; by apply HQ).
  destruct (is_id_start c) eqn:Es.
  - wstep. apply scan_wp; [lia|lia|]. intros e He1 He2 He3 He4. assert (p < e). { destruct (Z.le_gt_cases e p); [|lia]. assert (e = p) as -> by lia. destruct He4 as (c' & Hc' & Hf); [lia|]. rewrite Hc in Hc'. injection Hc' as <-. unfold is_id_char in Hf. by rewrite Es in Hf. }
    apply Hrec; [lia|]. right. split_and!; [lia|lia|lia|done|lia].
  - destruct (Z.eqb_spec c 40) as [->|]; [wstep; by apply HQ|]. destruct (_ || _); [exact Hstop|]. wstep. apply if_next_wp; [lia|]. intros [|]; [exact Hstop|]. wstep. apply if_next_wp; [lia|]. intros [|]; [wstep; apply com_wp; [lia|]; intros j Hj; apply Hrec; [lia|apply Hmono; lia]|].
    destruct (c =? 10); [exact Hstop|]. apply Hrec; [lia|apply Hmono; lia].
Qed.
Lemma back_wp n b p (Q : Z -> S -> Prop) st : (Z.to_nat (p - b) < n)%nat -> 0 <= b -> p <= len -> (forall j, Q j st) -> wp (back_loop s n b p) Q st.
Proof.
  revert p. induction n as [|n IH]; intros p Hn H0 Hp HQ; [lia|]. cbn [back_loop]. destruct (Z.ltb_spec b p); [|by wstep]. wstep. apply at_wp; [lia|]. intros c _. destruct (is_tab c); [apply IH; lia || done|by wstep].
Qed.
Lemma line_wp n i off l (Q : Z -> S -> Prop) st : (Z.to_nat (off - i) < n)%nat -> 0 <= i -> off <= len -> (forall l', Q l' st) -> wp (line_loop s n i off l) Q st.
Proof.
  revert i l. induction n as [|n IH]; intros i l Hn H0 Hp HQ; [lia|]. cbn [line_loop]. destruct (Z.ltb_spec i off); [|by wstep]. wstep. apply at_wp; [lia|]. intros c _. destruct (c =? 0); [by wstep|]. apply IH; [lia|lia|done|done].
Qed.
Lemma name_wp a b (Q : list Z -> S -> Prop) st : 0 <= a <= b -> b <= len -> Q (take 95 (cstr (take (Z.to_nat (b - a)) (drop (Z.to_nat a) x)))) st -> wp (name_of s a b) Q st.
Proof.
  intros Ha Hb HQ. unfold name_of. wstep. eapply wp_chk; [apply slice_is_Some; [lia|lia|rewrite length_app; lia]|]. wstep. rewrite drop_app_le by lia. rewrite take_app_le by (rewrite length_drop; lia). exact HQ.
Qed.

(** A function that was found: its name, its braces. *)
Definition fn_found (ls a b o q : Z) : Prop := ls <= a < b /\ b < o /\ o < q - 1 /\ q <= len /\ run is_id_char a b /\ rd x o = Some 123 /\ rd x (q - 1) = Some 125.
Lemma fn_wp ls (Q : option (Z * Z * Z * Z) -> S -> Prop) st : 0 <= ls -> len < 4294967295 -> (forall r, match r with Some (a, b, o, q) => fn_found ls a b o q | None => True end -> Q r st) -> wp (fn_at s len ls) Q st.
Proof.
  intros H0 Hlen HQ. assert (Hno : wp (ret None) Q st) by (wstep; by apply HQ). unfold fn_at. wstep. apply (header_wp _ ls ls 0 0); [unfold rounds; lia|lia|by left|]. intros o a b Ho. destruct o as [po|]; [|exact Hno]. destruct Ho as (Hpo & Hc & Hid).
  destruct (Z.ltb_spec a b) as [Hab|]; cbn [negb]; [|exact Hno]. destruct Hid as [[-> ->]|(Ha & Hb & Hrun & Hbl)]; [lia|]. wstep. apply back_wp; [unfold rounds; lia|lia|lia|]. intros back. destruct (back =? b); cbn [negb]; [|exact Hno].
  wstep. apply paren_wp; [unfold rounds; lia|lia|]. intros pe [->|[Hpe Hcl]]; [exact Hno|]. destruct (pe =? NO_OFFSET); [exact Hno|]. wstep. apply scan_wp; [lia|lia|]. intros o Ho1 Ho2 _ _. destruct (Z.ltb_spec o len); cbn [negb]; [|exact Hno].
  wstep. apply at_wp; [lia|]. intros c Hc'. destruct (Z.eqb_spec c 123) as [->|]; cbn [negb]; [|exact Hno]. wstep. apply brace_wp; [unfold rounds; lia|lia|done|lia|lia|]. intros q d Hq Hz. wstep. apply HQ. destruct (Z.eqb_spec d 0) as [->|]; [|done]. destruct (Hz eq_refl) as [Hq2 Hcl2].
  assert (o <> q - 1) by (intros ->; congruence). unfold fn_found. split_and!; try done; lia.
Qed.
End scan.

(** ** The nodes *)

Section nodes.
Variables (x junk : list Z).
Abbreviation s := (x ++ junk).
Abbreviation len := (zlen x).

(** The bytes of the source from [a] to [b]. *)
Definition part (a b : Z) : list Z := take (Z.to_nat (b - a)) (drop (Z.to_nat a) x).
(** Where the value of a macro stands whose name ends at [b]: at the first byte
    that is no blank from [o] on.  That is behind the name; or behind the
    parentheses that follow it; but from the front of the source when they are
    not closed, since [match_paren] then answers (uint32_t)-1, and 1 is added. *)
Definition value_place (b p : Z) : Prop := exists o, o <= p /\ run x is_tab o p /\
  (o = b \/ rd x b = Some 40 /\ (exists m, partner x b = Done m tt /\ b <= m < len /\ rd x m = Some 41 /\ o = m + 1) \/ rd x b = Some 40 /\ partner x b = Done NO_OFFSET tt /\ o = 0).
Record node_ok (n : pm_metal_edit_node) : Prop := {
  nk_span : 0 <= span_start n <= name_off n /\ span_end n <= len;
  nk_name : exists b, name_off n < b <= span_end n /\ run x is_id_char (name_off n) b /\ name n = take 95 (part (name_off n) b) /\
    match kind n with
    | EDIT_FN => b <= body_off n < span_end n - 1 /\ rd x (body_off n) = Some 123 /\ rd x (span_end n - 1) = Some 125
    | EDIT_DEFINE => 0 <= value_off n /\ 0 <= value_len n /\ value_off n + value_len n <= len /\ (value_len n <> 0 -> value_off n + value_len n <= span_end n) /\
        run x (fun c => negb (is_tab c)) (value_off n) (value_off n + value_len n) /\ value_place b (value_off n)
    | EDIT_NONE => False
    end;
}.
Lemma id_not_nul c : is_id_char c = true -> c <> 0.
Proof. by intros H ->. Qed.
Lemma run_part f a b : 0 <= a -> run x f a b -> Forall (fun c => f c = true) (part a b).
Proof.
  intros Ha Hr. apply Forall_lookup. intros i c Hi. unfold part in Hi. pose proof (lookup_lt_Some _ _ _ Hi) as Hl. rewrite length_take in Hl. rewrite lookup_take_lt, lookup_drop in Hi by lia. destruct (Hr (a + Z.of_nat i)) as (c' & Hc & Hf); [lia|].
  unfold rd in Hc. rewrite (proj2 (Z.ltb_ge _ _)) in Hc by lia. replace (Z.to_nat (a + Z.of_nat i)) with (Z.to_nat a + i)%nat in Hc by lia. congruence.
Qed.
Lemma id_cstr l : Forall (fun c => is_id_char c = true) l -> cstr l = l.
Proof. intros H. apply cstr_id. eapply Forall_impl; [exact H|]. intros c. apply id_not_nul. Qed.

Section state.
Context {S : Type}.
Lemma fn_node_wp ls a b o q (Q : pm_metal_edit_node -> S -> Prop) st : 0 <= ls -> fn_found x ls a b o q -> (forall n, node_ok n -> span_start n = ls -> span_end n = q -> Q n st) -> wp (fn_node s ls (a, b, o, q)) Q st.
Proof.
  intros H0 (Ha & Hb & Ho & Hq & Hrun & Hop & Hcl) HQ. unfold fn_node. wstep. apply name_wp; [lia|lia|]. wstep. apply line_wp; [unfold rounds; lia|lia|lia|]. intros l. wstep. apply HQ; [|done|done].
  constructor; cbn; [lia|]. exists b. split_and!; try done; try lia. rewrite id_cstr; [done|]. by apply run_part; [lia|].
Qed.
Lemma define_node_wp ls le ns (Q : pm_metal_edit_node -> S -> Prop) st c : 0 <= ls <= ns -> ns < le <= len -> len < 4294967295 -> rd x ns = Some c -> is_id_start c = true ->
  (forall n, node_ok n -> span_start n = ls -> span_end n = (if le <? len then le + 1 else le) -> Q n st) -> wp (define_node s len ls le ns) Q st.
Proof.
  intros Hns Hle Hlen Hc Hid HQ. unfold define_node. wstep. apply scan_wp; [lia|lia|]. intros ne Hn1 Hn2 Hrun Hstop. assert (ns < ne). { destruct (Z.le_gt_cases ne ns); [|lia]. assert (ne = ns) as -> by lia. destruct Hstop as (c' & Hc' & Hf); [lia|]. rewrite Hc in Hc'. injection Hc' as <-. unfold is_id_char in Hf. by rewrite Hid in Hf. }
  wstep. apply name_wp; [lia|lia|]. wstep. apply line_wp; [unfold rounds; lia|lia|lia|]. intros l. wstep. set (K := fun (g : bool) (st' : S) => st' = st /\ (g = true -> rd x ne = Some 40)).
  apply (wp_mono _ K). { unfold K. destruct (Z.ltb_spec ne le); [|by wstep]. wstep. apply at_wp; [lia|]. intros d Hd. wstep. split; [done|]. by intros ->%Z.eqb_eq. }
  intros g ? [-> Hg]. wstep. set (W := fun o => o = ne \/ rd x ne = Some 40 /\ (exists m, partner x ne = Done m tt /\ ne <= m < len /\ rd x m = Some 41 /\ o = m + 1) \/ rd x ne = Some 40 /\ partner x ne = Done NO_OFFSET tt /\ o = 0).
  apply (wp_mono _ (fun body st' => st' = st /\ 0 <= body <= len /\ W body)).
  { destruct g; [|wstep; split; [done|split; [lia|by left]]]. wstep. apply match_wp; [lia|]. intros m Em [->|[Hm Hc1]]; wstep; (split; [done|]); [change (u32 (NO_OFFSET + 1)) with 0; split; [lia|]; right; right; auto|rewrite u32_small by lia; split; [lia|]; right; left; split; [auto|]; by exists m]. }
  intros body ? (-> & Hbody & Hwhere). wstep. apply scan_wp; [lia|lia|]. intros p Hp1 Hp2 Hr1 _. wstep. apply scan_wp; [lia|lia|]. intros e He1 He2 Hr2 _. wstep. apply HQ; [|done|done]. assert (le <= (if le <? len then le + 1 else le) <= len) by (destruct (Z.ltb_spec le len); lia).
  constructor; cbn; [lia|]. exists ne. split_and!; try done; try lia; [by rewrite id_cstr; [|apply run_part; [lia|]]|by replace (p + (e - p)) with e by lia|by exists body].
Qed.
Lemma define_at_wp ls le (Q : option Z -> S -> Prop) st : 0 <= ls <= le -> le <= len -> (forall o, match o with Some p => p = ls + 7 /\ p < le | None => True end -> Q o st) -> wp (define_at s ls le) Q st.
Proof.
  intros Hls Hle HQ. unfold define_at. destruct (Z.ltb_spec (le - ls) 8); [wstep; by apply HQ|]. wstep. eapply wp_chk; [apply slice_is_Some; [lia|lia|rewrite length_app; lia]|]. destruct (negb _); [wstep; by apply HQ|]. wstep. apply at_wp; [lia|]. intros c _. destruct (negb _); wstep; apply HQ; [done|lia].
Qed.
End state.

(** Spans one after the other, from [lo] on. *)
Fixpoint in_order (lo : Z) (l : list pm_metal_edit_node) : Prop := match l with [] => True | n :: t => lo <= span_start n /\ span_start n <= span_end n /\ in_order (span_end n) t end.
Lemma in_order_snoc lo l i n : in_order lo l -> (forall m, m ∈ l -> span_end m <= i) -> lo <= i -> i <= span_start n <= span_end n -> in_order lo (l ++ [n]).
Proof.
  revert lo. induction l as [|m l IH]; intros lo Hd Hi Hlo Hn; cbn; [lia|]. destruct Hd as (H1 & H2 & H3). split; [done|]. split; [done|]. apply IH; [done| |apply Hi; left|lia]. intros m' Hm. apply Hi. by right.
Qed.
Record so_far (i : Z) (l : list pm_metal_edit_node) : Prop := { sf_ok : Forall node_ok l; sf_order : in_order 0 l; sf_end : forall m, m ∈ l -> span_end m <= i }.
Lemma so_far_mono i j l : so_far i l -> i <= j -> so_far j l.
Proof. intros [H1 H2 H3] Hij. constructor; [done|done|]. intros m Hm. specialize (H3 m Hm). lia. Qed.
Lemma so_far_snoc i j l n : 0 <= i -> so_far i l -> node_ok n -> i <= span_start n -> span_start n <= span_end n <= j -> so_far j (l ++ [n]).
Proof.
  intros H0 [H1 H2 H3] Hn Hi Hj. constructor; [apply Forall_app; split; [done|by constructor]|by eapply in_order_snoc; [exact H2|exact H3|lia|lia]|]. intros m [Hm|Hm%list_elem_of_singleton]%elem_of_app; [specialize (H3 m Hm); lia|subst; lia].
Qed.
End nodes.

(** ** Parsing and editing *)

Section edit.
Context {A : Type} `{!Arena A, !ArenaLaws A}.
Variables (limit : Z) (grow : Z -> A -> A * option Z).
Hypothesis Hlimit : limit <= 16777216.

Lemma on_arena_wp {B} (f : A -> A * B) (Q : B -> A -> Prop) a : Q (f a).2 (f a).1 -> wp (on_arena f) Q a.
Proof. unfold wp, on_arena. by destruct (f a). Qed.
Lemma room_wp t (Q : bool * pm_metal_edit_tree -> A -> Prop) a : (forall b t' a', src t' = src t -> src_len t' = src_len t -> nodes t' = nodes t -> Q (b, t') a') -> wp (node_room grow t) Q a.
Proof.
  intros HQ. unfold node_room. destruct (cap_nodes t <=? _); [|wstep; by apply HQ]. wstep. apply on_arena_wp. destruct (grow _ _) as [a' [cap|]]; cbn [fst snd]; [destruct (cap <=? _)|]; wstep; by apply HQ.
Qed.

(** A tree of the source [x]. *)
Definition tree_of (x junk : list Z) (t : pm_metal_edit_tree) : Prop := src t = x ++ junk /\ src_len t = zlen x /\ exists i, 0 <= i <= zlen x /\ so_far x i (nodes t).
Lemma parse_loop_wp x junk n i t (Q : Z * pm_metal_edit_tree -> A -> Prop) a : (Z.to_nat (zlen x - i) < n)%nat -> zlen x <= limit -> 0 <= i <= zlen x -> src t = x ++ junk -> src_len t = zlen x -> so_far x i (nodes t) ->
  (forall rc t' a', tree_of x junk t' -> rc = PM_METAL_EDIT_OK \/ rc = PM_METAL_EDIT_ERR_NOMEM -> Q (rc, t') a') -> wp (source_loop grow n (x ++ junk) (zlen x) i t) Q a.
Proof.
  revert i t a. induction n as [|n IH]; intros i t a Hn Hlen Hi Hs Hl Hsf HQ; [lia|]. cbn [source_loop]. assert (Hdone : forall rc t' a', src t' = src t -> src_len t' = src_len t -> nodes t' = nodes t -> rc = PM_METAL_EDIT_OK \/ rc = PM_METAL_EDIT_ERR_NOMEM -> Q (rc, t') a').
  { intros rc t' a' E1 E2 E3 Hrc. apply HQ; [|done]. split; [congruence|]. split; [congruence|]. exists i. split; [lia|]. by rewrite E3. }
  destruct (Z.ltb_spec i (zlen x)) as [Hlt|]; cbn [negb]; [|wstep; apply Hdone; by auto]. wstep. apply scan_wp; [lia|lia|]. intros le Hle1 Hle2 _ _. set (next := if le <? zlen x then le + 1 else le). assert (Hnext : i < next <= zlen x /\ le <= next) by (unfold next; destruct (Z.ltb_spec le (zlen x)); lia).
  assert (Hskip : forall a', wp (source_loop grow n (x ++ junk) (zlen x) next t) Q a') by (intros a'; apply IH; [lia|done|lia|done|done|eapply so_far_mono; [exact Hsf|lia]|done]).
  assert (Hadd : forall t1 nd j a', src t1 = src t -> src_len t1 = src_len t -> nodes t1 = nodes t -> node_ok x nd -> span_start nd = i -> span_end nd <= j -> i < j <= zlen x -> wp (source_loop grow n (x ++ junk) (zlen x) j (add_node nd t1)) Q a').
  { intros t1 nd j a' E1 E2 E3 Hok Hst Hen Hj. apply IH; [lia|done|lia|cbn; congruence|cbn; congruence| |done]. cbn. rewrite E3. pose proof Hok as [[? ?] (b & ? & _)]. eapply so_far_snoc; [|exact Hsf|exact Hok|lia|lia]. lia. }
  wstep. apply define_at_wp; [lia|lia|]. intros [p|] Hp.
  - destruct Hp as [-> Hp]. wstep. apply scan_wp; [lia|lia|]. intros p Hp1 Hp2 _ _. wstep. apply (wp_mono _ (fun b st' => b = true -> p < le /\ exists c, rd x p = Some c /\ is_id_start c = true)).
    { destruct (Z.ltb_spec p le); [|by wstep]. wstep. apply at_wp; [lia|]. intros c Hc. wstep. intros Hid. split; [done|by exists c]. }
    intros [|] a1 Hid; cbn [negb]; [|apply Hskip]. destruct Hid as (Hpl & c & Hc & Hid); [done|]. wstep. apply room_wp. intros b t1 a2 E1 E2 E3. cbn [fst snd]. destruct b; cbn [negb]; [|wstep; apply Hdone; by auto]. wstep. eapply define_node_wp; [lia|lia|lia|exact Hc|exact Hid|]. intros nd Hok Hst Hen. apply Hadd; try done; [fold next in Hen; lia|lia].
  - wstep. apply at_wp; [lia|]. intros c _. destruct (negb _); [apply Hskip|]. wstep. apply fn_wp; [lia|lia|]. intros [[[[a1 b1] o] q]|] Hf; [|apply Hskip]. wstep. apply room_wp. intros b t1 a2 E1 E2 E3. cbn [fst snd]. destruct b; cbn [negb]; [|wstep; apply Hdone; by auto].
    pose proof Hf as (F1 & F2 & F3 & F4 & _). wstep. eapply fn_node_wp; [lia|exact Hf|]. intros nd Hok Hst Hen. apply Hadd; try done; destruct (Z.ltb_spec q (zlen x)); lia.
Qed.
Lemma parse_wp x junk (Q : Z * option pm_metal_edit_tree -> A -> Prop) a : x <> [] ->
  (forall rc t a', tree_of x junk t -> rc = PM_METAL_EDIT_OK \/ rc = PM_METAL_EDIT_ERR_NOMEM -> Q (rc, Some t) a') ->
  (limit < zlen x -> forall t, Q (PM_METAL_EDIT_ERR_ARGS, Some t) a) -> wp (pm_metal_edit_parse_c limit grow true true (Some (x ++ junk)) (zlen x)) Q a.
Proof.
  intros Hx HQ Hbig. unfold pm_metal_edit_parse_c. cbn [negb orb]. assert (zlen x <> 0) by (destruct x; [done|cbn; lia]). wstep. rewrite (proj2 (Z.eqb_neq _ _)) by done. cbn [negb]. wstep. rewrite (proj2 (Z.eqb_neq _ _)) by done. cbn [orb]. destruct (Z.ltb_spec limit (zlen x)); [wstep; by apply Hbig|].
  wstep. apply parse_loop_wp; cbn [src src_len nodes]; try done; try (unfold rounds; lia).
  constructor; [constructor|done|]. intros m Hm. by apply not_elem_of_nil in Hm.
Qed.

Lemma splice_wp x junk p k ins (Q : Z * option (list Z * Z) -> A -> Prop) a : 0 <= p -> 0 <= k -> p + k <= zlen x ->
  (limit <= zlen x - k + zlen ins \/ (exists n a0, (mem_alloc n a0).2 = None) -> forall a', Q (PM_METAL_EDIT_ERR_NOMEM, None) a') ->
  (zlen x - k + zlen ins < limit -> forall a', Q (PM_METAL_EDIT_OK, Some ((take (Z.to_nat p) x ++ ins ++ drop (Z.to_nat (p + k)) x) ++ [0], zlen x - k + zlen ins)) a') ->
  wp (splice limit (x ++ junk) (zlen x) p k ins) Q a.
Proof.
  intros Hp Hk Hpk Hno HQ. unfold splice. rewrite !(proj2 (Z.ltb_ge _ _)) by lia. cbn [orb]. destruct (Z.leb_spec limit (zlen x - k + zlen ins)); [wstep; apply Hno; by left|]. cbv zeta. wstep. apply on_arena_wp. destruct (mem_alloc _ a) as [a' [buf|]] eqn:Em; cbn [fst snd]; [|wstep; apply Hno; right; do 2 eexists; by rewrite Em].
  assert (Hb : zlen buf = zlen x - k + zlen ins + 1) by (eapply alloc_size; [|exact Em]; lia). assert (Hsrc : forall i n, 0 <= i -> 0 <= n -> i + n <= zlen x -> slice (x ++ junk) i n = Some (take (Z.to_nat n) (drop (Z.to_nat i) x))).
  { intros i n H1 H2 H3. rewrite slice_is_Some by (rewrite ?length_app; lia). by rewrite drop_app_le, take_app_le by (rewrite ?length_drop; lia). }
  set (h := take (Z.to_nat p) x). set (tl := drop (Z.to_nat (p + k)) x). assert (Lh : zlen h = p) by (unfold h; rewrite length_take; lia). assert (Lt : zlen tl = zlen x - p - k) by (unfold tl; rewrite length_drop; lia).
  destruct (split_at buf p) as (b0 & r0 & -> & L0); [lia|]. rewrite length_app in Hb. destruct (split_at r0 (zlen ins)) as (b1 & r1 & -> & L1); [lia|]. rewrite length_app in Hb. destruct (split_at r1 (zlen tl)) as (b2 & r2 & -> & L2); [lia|]. rewrite length_app in Hb. destruct r2 as [|z [|]]; cbn [length] in Hb; [lia| |lia].
  wstep. eapply wp_chk; [apply Hsrc; lia|]. rewrite drop_0. fold h. wstep. eapply wp_chk; [apply (blit_mid [] b0 h); lia|]. cbn [app]. wstep. eapply wp_chk; [rewrite <- Lh; apply (blit_mid h b1 ins); lia|]. wstep. eapply wp_chk; [apply Hsrc; lia|].
  rewrite (take_ge (drop _ x)) by (rewrite length_drop; lia). fold tl. wstep. eapply wp_chk; [replace (p + zlen ins) with (zlen (h ++ ins)) by (rewrite length_app; lia); rewrite (assoc_L (++)); apply (blit_mid (h ++ ins) b2 tl); lia|]. wstep. eapply wp_chk.
  { rewrite wr_blit, (assoc_L (++) (h ++ ins) tl). replace (zlen x - k + zlen ins) with (zlen ((h ++ ins) ++ tl)) by (rewrite !length_app; lia). apply (blit_mid _ [z] [0] []). done. }
  wstep. specialize (HQ ltac:(lia) a'). by rewrite <- !(assoc_L (++)) in HQ |- *.
Qed.

Lemma locate_Some k nm l n : locate_in k nm l = Some n -> n ∈ l /\ kind n = k /\ name n = nm.
Proof.
  induction l as [|m l IH]; [done|]. cbn [locate_in]. destruct (bool_decide (kind m = k) && bool_decide (name m = nm)) eqn:E; [|intros H; split; [right|]; by apply IH]. intros [= <-]. apply andb_true_iff in E as [E1%bool_decide_eq_true E2%bool_decide_eq_true]. split; [left|done].
Qed.

(** One edit of a source, as a caller makes it. *)
Inductive edit := Set_body (nm body : list Z) | Set_value (nm value : list Z).
Definition apply_edit (e : edit) (t : pm_metal_edit_tree) : M A (Z * option (list Z * Z)) :=
  match e with Set_body nm body => pm_metal_edit_set_fn_body limit t nm body | Set_value nm v => pm_metal_edit_set_define limit t nm v end.
Definition run_edit (e : edit) (source : list Z) (len : Z) : M A (Z * option (list Z * Z)) :=
  r <- pm_metal_edit_parse_c limit grow true true (Some source) len ;;
  match r with (rc, Some t) => if rc =? PM_METAL_EDIT_OK then apply_edit e t else ret (rc, None) | (rc, None) => ret (rc, None) end.

(** The bytes [p, p+k) of [x] are those the edit may replace. *)
Definition editable (e : edit) (x : list Z) (p k : Z) : Prop :=
  exists a b, run x is_id_char a b /\ 0 <= a < b /\ b <= zlen x /\
  match e with
  | Set_body nm _ => nm = take 95 (part x a b) /\ b <= p - 1 /\ rd x (p - 1) = Some 123 /\ rd x (p + k) = Some 125
  | Set_value nm _ => nm = take 95 (part x a b) /\ k <> 0 /\ run x (fun c => negb (is_tab c)) p (p + k) /\ value_place x b p
  end.
Definition text_of (e : edit) : list Z := match e with Set_body _ b => b | Set_value _ v => v end.

Lemma edit_tree_wp e x junk t (Q : Z * option (list Z * Z) -> A -> Prop) a : zlen x <= limit -> tree_of x junk t ->
  (forall rc a', rc < 0 -> Q (rc, None) a') ->
  (forall p k a', 0 <= p -> 0 <= k -> p + k <= zlen x -> editable e x p k -> Q (PM_METAL_EDIT_OK, Some ((take (Z.to_nat p) x ++ text_of e ++ drop (Z.to_nat (p + k)) x) ++ [0], zlen x - k + zlen (text_of e))) a') ->
  wp (apply_edit e t) Q a.
Proof.
  intros Hlen (Es & El & i & Hi & [Hok _ _]) Hno HQ. rewrite Forall_forall in Hok. destruct e as [nm body|nm v]; cbn [apply_edit].
  - unfold pm_metal_edit_set_fn_body, pm_metal_edit_locate. destruct (locate_in _ _ _) as [n|] eqn:En; [|wstep; by apply Hno]. apply locate_Some in En as (Hn & Hk & Hnm). destruct (Hok n Hn) as [[S0 S1] (b & Hb & Hrun & Hname & Hkind)]. rewrite Hk in Hkind. destruct Hkind as (Ho & Hc1 & Hc2). rewrite El, Es. cbv zeta.
    assert (Hat : forall j c, 0 <= j < zlen x -> rd x j = Some c -> forall st : A, at_ (x ++ junk) j st = Done c st). { intros j c Hj Hr st. unfold at_. rewrite rd_source, Hr by lia. done. }
    rewrite (proj2 (Z.leb_gt _ _)) by lia. wstep. wstep. apply (wp_eq _ (ret 123)); [by apply Hat; [lia|]|]. do 2 wstep. change (123 =? 123) with true. cbn [negb]. rewrite u32_small by lia. rewrite (proj2 (Z.leb_gt _ _)) by lia. wstep. wstep. apply (wp_eq _ (ret 125)); [by apply Hat; [lia|]|]. do 2 wstep. change (125 =? 125) with true. cbn [negb].
    rewrite u32_small by lia. apply splice_wp; [lia|lia|lia|intros _ a'; by apply Hno|]. intros _ a'. apply (HQ (body_off n + 1) (span_end n - 1 - (body_off n + 1))); [lia|lia|lia|]. exists (name_off n), b. split; [done|]. split; [lia|]. split; [lia|]. split; [congruence|]. split; [lia|]. replace (body_off n + 1 - 1) with (body_off n) by lia. split; [done|]. by replace (body_off n + 1 + _) with (span_end n - 1) by lia.
  - unfold pm_metal_edit_set_define, pm_metal_edit_locate. destruct (locate_in _ _ _) as [n|] eqn:En; [|wstep; by apply Hno]. apply locate_Some in En as (Hn & Hk & Hnm). destruct (Hok n Hn) as [[S0 S1] (b & Hb & Hrun & Hname & Hkind)]. rewrite Hk in Hkind. destruct Hkind as (V0 & V1 & V2 & V3 & Vr & Vw). rewrite El, Es.
    destruct (Z.eqb_spec (value_len n) 0); [wstep; by apply Hno|]. apply splice_wp; [lia|lia|lia|intros _ a'; by apply Hno|]. intros _ a'. apply (HQ (value_off n) (value_len n)); [lia|lia|lia|]. exists (name_off n), b. split; [done|]. split; [lia|]. split; [lia|]. split; [congruence|]. by split.
Qed.
End edit.


(** Not even a text, in a buffer that is longer. *)
Definition noise : list Z := [35; 100; 101; 102; 105; 110; 101; 9; 78; 40; 34; 92; 10; 102; 40; 39; 41; 39; 41; 123; 47; 42; 125; 42; 47; 200; 125].
#[local] Existing Instances zero_arena zero_arena_laws.
(** A macro whose parenthesis is not closed: #define F(x. *)
Definition unclosed : list Z := [35; 100; 101; 102; 105; 110; 101; 32; 70; 40; 120].
Definition edit_noise (e : edit) (x : list Z) : outcome unit (Z * option (list Z * Z)) := run_edit 100 (fun c (a : unit) => (a, Some (c + 1))) e (x ++ [7; 0]) (zlen x) tt.
End EditSafe.
