(* ===== verification/EditText.v ===== *)
(** * Known text under the scans

    What the scans of Edit do on text of a known shape: literals, comments,
    balanced parentheses and braces, the header of a function, the line of a
    macro. *)
From S2P Require Import Prelude Edit EditSafe.

Module EditText.
Import Store Edit EditSafe.
Local Open Scope metal_scope.

(** ** Balanced text *)

(** Inside a literal; inside a comment. *)
Inductive lit (q : Z) : list Z -> Prop :=
| lit_nil : lit q []
| lit_char c l : c <> q -> c <> 92 -> lit q l -> lit q (c :: l)
| lit_escape c l : lit q l -> 92 <> q -> lit q (92 :: c :: l).
Fixpoint no_close (l : list Z) : Prop := match l with [] => True | c :: t => (c = 42 -> head t <> Some 47) /\ no_close t end.

Definition quote (q : Z) : Prop := q = 34 \/ q = 39.
(** Between a parenthesis and its partner. *)
Inductive parens : list Z -> Prop :=
| pa_nil : parens []
| pa_char c l : c <> 40 -> c <> 41 -> c <> 47 -> ~ quote c -> parens l -> parens (c :: l)
| pa_slash c l : c <> 42 -> parens (c :: l) -> parens (47 :: c :: l)
| pa_lit q m l : quote q -> lit q m -> parens l -> parens (q :: m ++ q :: l)
| pa_com m l : no_close m -> parens l -> parens (47 :: 42 :: m ++ 42 :: 47 :: l)
| pa_nest m l : parens m -> parens l -> parens (40 :: m ++ 41 :: l).
(** Between a brace and its partner. *)
Inductive braces : list Z -> Prop :=
| br_nil : braces []
| br_char c l : c <> 123 -> c <> 125 -> c <> 47 -> ~ quote c -> braces l -> braces (c :: l)
| br_slash c l : c <> 42 -> c <> 47 -> braces (c :: l) -> braces (47 :: c :: l)
| br_lit q m l : quote q -> lit q m -> braces l -> braces (q :: m ++ q :: l)
| br_com m l : no_close m -> braces l -> braces (47 :: 42 :: m ++ 42 :: 47 :: l)
| br_line m l : Forall (fun c => c <> 10) m -> braces l -> braces (47 :: 47 :: m ++ 10 :: l)
| br_nest m l : braces m -> braces l -> braces (123 :: m ++ 125 :: l).

(** ** Scans of known text *)

(** A loop comes to [zlen pre] in [x] with more rounds than bytes. *)
Definition fuel (x : list Z) (n : nat) (pre : list Z) : Prop := (Z.to_nat (zlen x - zlen pre) < n)%nat.

(** Lengths and pieces of a source that is known to be a concatenation. *)
Ltac xlen Hx := let H := fresh in pose proof (f_equal length Hx) as H; unfold fuel in *; llia.
Ltac neq := repeat match goal with |- context [?a =? ?b] => rewrite (proj2 (Z.eqb_neq a b)) by (done || lia) end.
Ltac same_list := repeat first [rewrite <- (assoc_L (++)) | progress cbn [app]]; reflexivity.
Ltac split_list Hx := rewrite Hx; same_list.
Ltac behind pre u := replace (zlen pre + 1) with (zlen (pre ++ u)) by llia.
Ltac closed_tests := repeat match goal with
  | |- context [is_id_start ?k] => change (is_id_start k) with false
  | |- context [?a =? ?b] => let v := eval vm_compute in (a =? b) in change (a =? b) with v
  end; cbn [orb]; cbv iota.

Section exact.
Context {S : Type}.
Variables (x junk : list Z).
Implicit Types (pre mid post m l t : list Z).
Abbreviation s := (x ++ junk).
Abbreviation len := (zlen x).

Lemma rd_pre pre c t : rd (pre ++ c :: t) (zlen pre) = Some c.
Proof. rewrite rd_app_r by lia. by rewrite Z.sub_diag. Qed.
Lemma at_exact pre c t (Q : Z -> S -> Prop) st : x = pre ++ c :: t -> Q c st -> wp (at_ s (zlen pre)) Q st.
Proof. intros Hx HQ. apply at_wp; [rewrite Hx; llia|]. intros d Hd. rewrite Hx, rd_pre in Hd. by injection Hd as <-. Qed.

Lemma scan_exact f pre mid post e (Q : Z -> S -> Prop) st : x = pre ++ mid ++ post -> Forall (fun c => f c = true) mid -> zlen pre + zlen mid <= e <= len -> (e = zlen pre + zlen mid \/ exists c t, post = c :: t /\ f c = false) ->
  Q (zlen pre + zlen mid) st -> wp (skip_while s f (zlen pre) e) Q st.
Proof.
  intros Hx Hmid He Hend HQ. apply scan_wp; [lia|lia|]. intros j Hj1 Hj2 Hrun Hstop. replace j with (zlen pre + zlen mid); [done|]. destruct (Z.lt_trichotomy j (zlen pre + zlen mid)) as [Hlt|[->|Hgt]]; [|done|].
  - destruct Hstop as (c & Hc & Hf); [lia|]. rewrite Hx in Hc. replace j with (zlen pre + (j - zlen pre)) in Hc by lia. rewrite rd_mid in Hc by lia. unfold rd in Hc. rewrite (proj2 (Z.ltb_ge _ _)) in Hc by lia. eapply Forall_lookup_1 in Hmid; [|exact Hc]. congruence.
  - destruct Hend as [->|(c & t & -> & Hf)]; [lia|]. destruct (Hrun (zlen pre + zlen mid)) as (d & Hd & Hfd); [lia|]. rewrite Hx, (assoc_L (++)) in Hd. replace (zlen pre + zlen mid) with (zlen (pre ++ mid)) in Hd by llia. rewrite rd_pre in Hd. congruence.
Qed.

Lemma lit_exact q pre m post (Q : Z -> S -> Prop) st : x = pre ++ m ++ q :: post -> lit q m -> Q (zlen pre + zlen m) st -> wp (lit_end s len q (zlen pre)) Q st.
Proof.
  intros Hx Hm HQ. unfold lit_end. assert (Hf : fuel x (rounds len (zlen pre)) pre) by (unfold fuel, rounds; lia). revert Hf. generalize (rounds len (zlen pre)) as n. revert pre Hx HQ. induction Hm as [|c l Hq Hb Hm IH|c l Hm IH Hq]; intros pre Hx HQ [|n] Hf; try (unfold fuel in Hf; lia); cbn [quote_loop]; rewrite (proj2 (Z.ltb_lt _ _)) by (xlen Hx); wstep.
  - eapply at_exact; [exact Hx|]. rewrite Z.eqb_refl. wstep. by rewrite Z.add_0_r in HQ.
  - eapply at_exact; [exact Hx|]. rewrite (proj2 (Z.eqb_neq c q)), (proj2 (Z.eqb_neq c 92)) by done. cbn [andb]. replace (zlen pre + 1) with (zlen (pre ++ [c])) by llia. apply IH; [by rewrite <- (assoc_L (++))|by replace (zlen (pre ++ [c]) + zlen l) with (zlen pre + zlen (c :: l)) by llia|xlen Hx].
  - eapply at_exact; [exact Hx|]. rewrite (proj2 (Z.eqb_neq 92 q)) by done. cbn [Z.eqb Pos.eqb andb]. rewrite (proj2 (Z.ltb_lt _ _)) by (xlen Hx). replace (zlen pre + 2) with (zlen (pre ++ [92; c])) by llia. apply IH; [by rewrite <- (assoc_L (++))|by replace (zlen (pre ++ [92; c]) + zlen l) with (zlen pre + zlen (92 :: c :: l)) by llia|xlen Hx].
Qed.
Lemma com_exact pre m post (Q : Z -> S -> Prop) st : x = pre ++ m ++ 42 :: 47 :: post -> no_close m -> Q (zlen pre + zlen m) st -> wp (com_end s len (zlen pre)) Q st.
Proof.
  intros Hx Hm HQ. unfold com_end. assert (Hf : fuel x (rounds len (zlen pre)) pre) by (unfold fuel, rounds; lia). revert Hf. generalize (rounds len (zlen pre)) as n. revert pre Hx HQ. induction m as [|c l IH]; intros pre Hx HQ [|n] Hf; try (unfold fuel in Hf; lia); cbn [com_loop]; rewrite (proj2 (Z.ltb_lt _ _)) by (xlen Hx); wstep.
  - eapply at_exact; [exact Hx|]. wstep. replace (zlen pre + 1) with (zlen (pre ++ [42])) by llia. eapply at_exact; [rewrite <- (assoc_L (++)); exact Hx|]. cbn [Z.eqb Pos.eqb andb]. wstep. by rewrite Z.add_0_r in HQ.
  - destruct Hm as [Hc Hm]. eapply at_exact; [exact Hx|]. wstep. replace (zlen pre + 1) with (zlen (pre ++ [c])) by llia. assert (exists d t, l ++ 42 :: 47 :: post = d :: t /\ (c = 42 -> d <> 47)) as (d & t & Ed & Hd). { destruct l as [|d l]; [exists 42, (47 :: post); done|]. exists d, (l ++ 42 :: 47 :: post). split; [done|]. intros -> ->. by apply Hc. }
    eapply (at_exact _ d t); [rewrite Hx, <- (assoc_L (++)); cbn [app]; by rewrite Ed|]. replace ((c =? 42) && (d =? 47)) with false by (destruct (Z.eqb_spec c 42) as [->|]; [rewrite (proj2 (Z.eqb_neq d 47)) by auto; done|done]).
    apply (IH Hm); [by rewrite <- (assoc_L (++))|by replace (zlen (pre ++ [c]) + zlen l) with (zlen pre + zlen (c :: l)) by llia|xlen Hx].
Qed.
Lemma next_exact pre c t d (Q : bool -> S -> Prop) st : x = pre ++ c :: t -> Q (match t with e :: _ => e =? d | [] => false end) st -> wp (next_is s len (zlen pre) d) Q st.
Proof.
  intros Hx HQ. unfold next_is. destruct t as [|e t]; [rewrite (proj2 (Z.ltb_ge _ _)) by (xlen Hx); by wstep|]. rewrite (proj2 (Z.ltb_lt _ _)) by (xlen Hx). wstep. replace (zlen pre + 1) with (zlen (pre ++ [c])) by llia. eapply at_exact; [rewrite <- (assoc_L (++)); exact Hx|]. by wstep.
Qed.

(** A character that a walk passes over. *)
Lemma not_quote c : ~ quote c -> (c =? 34) || (c =? 39) = false.
Proof. intros H. unfold quote in H. apply orb_false_iff. split; apply Z.eqb_neq; lia. Qed.
Lemma is_quote q : quote q -> (q =? 40) = false /\ (q =? 41) = false /\ (q =? 123) = false /\ (q =? 125) = false /\ (q =? 34) || (q =? 39) = true.
Proof. by intros [->| ->]. Qed.

(** A whole literal or comment, from its first byte to behind its last. *)
Lemma lit_step q pre m l (Q : Z -> S -> Prop) st : x = pre ++ (q :: m ++ q :: l) -> lit q m -> Q (zlen (pre ++ q :: m)) st -> wp (lit_end s len q (zlen pre + 1)) Q st.
Proof.
  intros Hx Hm HQ. replace (zlen pre + 1) with (zlen (pre ++ [q])) by llia. eapply (lit_exact q _ m l); [split_list Hx|done|]. by replace (zlen (pre ++ [q]) + zlen m) with (zlen (pre ++ q :: m)) by llia.
Qed.
Lemma com_step pre m l (Q : Z -> S -> Prop) st : x = pre ++ (47 :: 42 :: m ++ 42 :: 47 :: l) -> no_close m -> Q (zlen (pre ++ 47 :: 42 :: m)) st -> wp (com_end s len (zlen pre + 2)) Q st.
Proof.
  intros Hx Hm HQ. replace (zlen pre + 2) with (zlen (pre ++ [47; 42])) by llia. eapply (com_exact _ m l); [split_list Hx|done|]. by replace (zlen (pre ++ [47; 42]) + zlen m) with (zlen (pre ++ 47 :: 42 :: m)) by llia.
Qed.

(** Behind [u], as a position and as a list. *)

Lemma parens_exact m : parens m -> forall n pre post d (Q : Z -> S -> Prop) st, x = pre ++ m ++ post -> 0 < d -> d + zlen m < 4294967296 -> fuel x n pre ->
  (forall n', fuel x n' (pre ++ m) -> wp (paren_loop s len n' (zlen (pre ++ m)) d) Q st) -> wp (paren_loop s len n (zlen pre) d) Q st.
Proof.
  assert (Hgo : forall n d (Q : Z -> S -> Prop) st (a b : list Z), a = b -> (forall n', fuel x n' b -> wp (paren_loop s len n' (zlen b) d) Q st) -> fuel x n a -> wp (paren_loop s len n (zlen a) d) Q st) by (intros n d Q st a b ->; auto).
  induction 1 as [|c l H1 H2 H3 H4 _ IH|c l H1 _ IH|q m l Hq Hm _ IH|m l Hm _ IH|m l _ IHm _ IH]; intros n pre post d Q st Hx Hd Hdl Hf HQ; [rewrite app_nil_r in HQ; by apply HQ|..];
    (destruct n as [|n]; [unfold fuel in Hf; lia|]); cbn [paren_loop]; rewrite (proj2 (Z.ltb_lt _ _)) by xlen Hx; cbn [negb]; wstep; eapply at_exact; [exact Hx| |exact Hx| |exact Hx| |exact Hx| |exact Hx|].
  - rewrite not_quote by done. neq. wstep. wstep. behind pre [c]. apply (IH n _ post d); [split_list Hx|done|llia|xlen Hx|]. intros n' Hn'. eapply Hgo; [|exact HQ|exact Hn']. same_list.
  - change (47 =? 40) with false. change (47 =? 41) with false. change ((47 =? 34) || (47 =? 39)) with false. change (47 =? 47) with true. cbv iota. wstep. eapply next_exact; [exact Hx|]. cbn [app]. neq. behind pre [47]. apply (IH n _ post d); [split_list Hx|done|llia|xlen Hx|]. intros n' Hn'. eapply Hgo; [|exact HQ|exact Hn']. same_list.
  - destruct (is_quote q Hq) as (-> & -> & _ & _ & ->). wstep. eapply (lit_step q _ m (l ++ post)); [split_list Hx|done|]. behind (pre ++ q :: m) [q]. apply (IH n _ post d); [split_list Hx|done|llia|xlen Hx|]. intros n' Hn'. eapply Hgo; [|exact HQ|exact Hn']. same_list.
  - change (47 =? 40) with false. change (47 =? 41) with false. change ((47 =? 34) || (47 =? 39)) with false. change (47 =? 47) with true. cbv iota. wstep. eapply next_exact; [exact Hx|]. cbn [app]. change (42 =? 42) with true. cbv iota. wstep. eapply (com_step _ m (l ++ post)); [split_list Hx|done|]. replace (zlen (pre ++ 47 :: 42 :: m) + 2) with (zlen (pre ++ 47 :: 42 :: m ++ [42; 47])) by llia.
    apply (IH n _ post d); [split_list Hx|done|llia|xlen Hx|]. intros n' Hn'. eapply Hgo; [|exact HQ|exact Hn']. same_list.
  - change (40 =? 40) with true. cbv iota. rewrite u32_small by llia. behind pre [40]. apply (IHm n _ (41 :: l ++ post) (d + 1)); [split_list Hx|lia|llia|xlen Hx|]. intros n1 Hn1. destruct n1 as [|n1]; [unfold fuel in Hn1; lia|]. cbn [paren_loop]. rewrite (proj2 (Z.ltb_lt _ _)) by xlen Hx. cbn [negb]. wstep.
    eapply (at_exact _ 41 (l ++ post)); [split_list Hx|]. change (41 =? 40) with false. change (41 =? 41) with true. cbv iota. rewrite u32_small by llia. replace (d + 1 - 1) with d by lia. rewrite (proj2 (Z.eqb_neq d 0)) by lia.
    behind ((pre ++ [40]) ++ m) [41]. apply (IH n1 _ post d); [split_list Hx|lia|llia|xlen Hx|]. intros n' Hn'. eapply Hgo; [|exact HQ|exact Hn']. same_list.
Qed.
Lemma match_exact pre m post (Q : Z -> S -> Prop) st : x = pre ++ 40 :: m ++ 41 :: post -> parens m -> len < 4294967295 -> Q (zlen (pre ++ 40 :: m)) st -> wp (match_paren s len (zlen pre)) Q st.
Proof.
  intros Hx Hm Hlen HQ. unfold match_paren, rounds. cbn [paren_loop]. rewrite (proj2 (Z.ltb_lt _ _)) by xlen Hx. cbn [negb]. wstep. eapply at_exact; [exact Hx|]. change (40 =? 40) with true. cbv iota. change (u32 (0 + 1)) with 1. behind pre [40].
  apply (parens_exact m Hm _ _ (41 :: post)); [split_list Hx|lia|xlen Hx|xlen Hx|]. intros n Hn. destruct n as [|n]; [unfold fuel in Hn; lia|]. cbn [paren_loop]. rewrite (proj2 (Z.ltb_lt _ _)) by xlen Hx. cbn [negb]. wstep. eapply (at_exact _ 41 post); [split_list Hx|]. change (41 =? 40) with false. change (41 =? 41) with true. cbv iota. change (u32 (1 - 1) =? 0) with true. cbv iota. wstep. by replace (zlen ((pre ++ [40]) ++ m)) with (zlen (pre ++ 40 :: m)) by llia.
Qed.

Lemma braces_exact m : braces m -> forall n pre post d (Q : Z * Z -> S -> Prop) st, x = pre ++ m ++ post -> 0 < d -> d + zlen m < 4294967296 -> fuel x n pre -> post <> [] ->
  (forall n', fuel x n' (pre ++ m) -> wp (brace_loop s len n' (zlen (pre ++ m)) d) Q st) -> wp (brace_loop s len n (zlen pre) d) Q st.
Proof.
  assert (Hgo : forall n d (Q : Z * Z -> S -> Prop) st (a b : list Z), a = b -> (forall n', fuel x n' b -> wp (brace_loop s len n' (zlen b) d) Q st) -> fuel x n a -> wp (brace_loop s len n (zlen a) d) Q st) by (intros n d Q st a b ->; auto).
  induction 1 as [|c l H1 H2 H3 H4 _ IH|c l H1 H2 _ IH|q m l Hq Hm _ IH|m l Hm _ IH|m l Hm _ IH|m l _ IHm _ IH]; intros n pre post d Q st Hx Hd Hdl Hf Hpost HQ; [rewrite app_nil_r in HQ; by apply HQ|..];
    (destruct n as [|n]; [unfold fuel in Hf; lia|]); cbn [brace_loop]; rewrite (proj2 (Z.ltb_lt _ _)), (proj2 (Z.ltb_lt 0 d)) by (done || xlen Hx); cbn [negb andb]; wstep; eapply at_exact; [exact Hx| |exact Hx| |exact Hx| |exact Hx| |exact Hx| |exact Hx|].
  - rewrite not_quote by done. neq. do 4 wstep. behind pre [c]. apply (IH n _ post d); [split_list Hx|done|llia|xlen Hx|done|]. intros n' Hn'. eapply Hgo; [|exact HQ|exact Hn']. same_list.
  - change (47 =? 123) with false. change (47 =? 125) with false. change ((47 =? 34) || (47 =? 39)) with false. change (47 =? 47) with true. cbv iota. wstep. eapply next_exact; [exact Hx|]. cbn [app]. neq. wstep. eapply next_exact; [exact Hx|]. cbn [app]. neq. behind pre [47]. apply (IH n _ post d); [split_list Hx|done|llia|xlen Hx|done|]. intros n' Hn'. eapply Hgo; [|exact HQ|exact Hn']. same_list.
  - destruct (is_quote q Hq) as (_ & _ & -> & -> & ->). wstep. eapply (lit_step q _ m (l ++ post)); [split_list Hx|done|]. behind (pre ++ q :: m) [q]. apply (IH n _ post d); [split_list Hx|done|llia|xlen Hx|done|]. intros n' Hn'. eapply Hgo; [|exact HQ|exact Hn']. same_list.
  - change (47 =? 123) with false. change (47 =? 125) with false. change ((47 =? 34) || (47 =? 39)) with false. change (47 =? 47) with true. cbv iota. wstep. eapply next_exact; [exact Hx|]. cbn [app]. change (42 =? 42) with true. cbv iota. wstep. eapply (com_step _ m (l ++ post)); [split_list Hx|done|]. replace (zlen (pre ++ 47 :: 42 :: m) + 2) with (zlen (pre ++ 47 :: 42 :: m ++ [42; 47])) by llia.
    apply (IH n _ post d); [split_list Hx|done|llia|xlen Hx|done|]. intros n' Hn'. eapply Hgo; [|exact HQ|exact Hn']. same_list.
  - change (47 =? 123) with false. change (47 =? 125) with false. change ((47 =? 34) || (47 =? 39)) with false. change (47 =? 47) with true. cbv iota. wstep. eapply next_exact; [exact Hx|]. cbn [app]. change (47 =? 42) with false. cbv iota. wstep. eapply next_exact; [exact Hx|]. cbn [app]. change (47 =? 47) with true. cbv iota. wstep.
    eapply (scan_exact _ _ (47 :: 47 :: m) (10 :: l ++ post)); [split_list Hx| |xlen Hx|right; by exists 10, (l ++ post)|]. { repeat (apply Forall_cons; split; [done|]). eapply Forall_impl; [exact Hm|]. intros c Hc. by rewrite (proj2 (Z.eqb_neq _ _) Hc). }
    replace (zlen pre + zlen (47 :: 47 :: m) + 1) with (zlen (pre ++ 47 :: 47 :: m ++ [10])) by llia. apply (IH n _ post d); [split_list Hx|done|llia|xlen Hx|done|]. intros n' Hn'. eapply Hgo; [|exact HQ|exact Hn']. same_list.
  - change (123 =? 123) with true. cbv iota. rewrite u32_small by llia. behind pre [123]. apply (IHm n _ (125 :: l ++ post) (d + 1)); [split_list Hx|lia|llia|xlen Hx|done|]. intros n1 Hn1. destruct n1 as [|n1]; [unfold fuel in Hn1; lia|]. cbn [brace_loop]. rewrite (proj2 (Z.ltb_lt _ _)), (proj2 (Z.ltb_lt 0 _)) by (lia || xlen Hx). cbn [negb andb]. wstep.
    eapply (at_exact _ 125 (l ++ post)); [split_list Hx|]. change (125 =? 123) with false. change (125 =? 125) with true. cbv iota. rewrite u32_small by llia. replace (d + 1 - 1) with d by lia.
    behind ((pre ++ [123]) ++ m) [125]. apply (IH n1 _ post d); [split_list Hx|lia|llia|xlen Hx|done|]. intros n' Hn'. eapply Hgo; [|exact HQ|exact Hn']. same_list.
Qed.
Lemma body_exact pre m post (Q : Z * Z -> S -> Prop) st : x = pre ++ m ++ 125 :: post -> braces m -> len < 4294967295 -> Q (zlen (pre ++ m ++ [125]), 0) st -> wp (brace_loop s len (rounds len (zlen pre)) (zlen pre) 1) Q st.
Proof.
  intros Hx Hm Hlen HQ. apply (braces_exact m Hm _ _ (125 :: post)); [done|lia|xlen Hx|unfold fuel, rounds; lia|done|]. intros n Hn. destruct n as [|n]; [unfold fuel in Hn; lia|]. cbn [brace_loop]. rewrite (proj2 (Z.ltb_lt _ _)) by xlen Hx. cbn [negb andb Z.ltb Z.compare]. wstep. eapply (at_exact _ 125 post); [split_list Hx|]. change (125 =? 123) with false. change (125 =? 125) with true. cbv iota. change (u32 (1 - 1)) with 0.
  replace (zlen (pre ++ m) + 1) with (zlen (pre ++ m ++ [125])) by llia. destruct n as [|n]; [unfold fuel in Hn; pose proof (f_equal length Hx); llia|]. cbn [brace_loop]. rewrite andb_false_r. cbn [negb]. by wstep.
Qed.

(** ** Headers *)

Definition ident (l : list Z) : Prop := match l with [] => False | c :: t => is_id_start c = true /\ Forall (fun c => is_id_char c = true) t end.
(** A character of a header that means nothing to the scan, or begins a name. *)
Definition plain (c : Z) : Prop := c <> 40 /\ c <> 59 /\ c <> 61 /\ c <> 123 /\ c <> 125 /\ c <> 34 /\ c <> 39 /\ c <> 47 /\ c <> 10.
(** No name goes on from [u] into what follows. *)
Definition apart (u post : list Z) : Prop := u = [] \/ (exists v c, u = v ++ [c] /\ is_id_char c = false) \/ (exists c t, post = c :: t /\ is_id_char c = false).
Lemma ident_chars l : ident l -> l <> [] /\ Forall (fun c => is_id_char c = true) l.
Proof. destruct l as [|c t]; [done|]. intros [Hc Ht]. split; [done|]. constructor; [|done]. unfold is_id_char. by rewrite Hc. Qed.
Lemma plain_stop c : plain c -> (c =? 40) = false /\ ((c =? 59) || (c =? 61) || (c =? 123) || (c =? 125) || (c =? 34) || (c =? 39)) = false /\ (c =? 47) = false /\ (c =? 10) = false.
Proof. intros (? & ? & ? & ? & ? & ? & ? & ? & ?). by neq. Qed.
(** The name at the front of a text. *)
Lemma id_prefix (u : list Z) : exists r v, u = r ++ v /\ Forall (fun c => is_id_char c = true) r /\ match v with [] => True | c :: _ => is_id_char c = false end.
Proof.
  induction u as [|c u (r & v & -> & Hr & Hv)]; [by exists [], []|]. destruct (is_id_char c) eqn:Ec; [exists (c :: r), v; split; [done|]; split; [by constructor|done]|exists [], (c :: r ++ v); done].
Qed.

Lemma header_plain u : forall n pre post a b (Q : option Z * Z * Z -> S -> Prop) st, x = pre ++ u ++ post -> Forall plain u -> apart u post -> fuel x n pre ->
  (forall n' a' b', fuel x n' (pre ++ u) -> wp (header_loop s len n' (zlen (pre ++ u)) a' b') Q st) -> wp (header_loop s len n (zlen pre) a b) Q st.
Proof.
  induction u as [u IH] using (induction_ltof1 _ (@length Z)). intros n pre post a b Q st Hx Hu Hap Hf HQ. destruct u as [|c u]; [rewrite app_nil_r in HQ; by apply HQ|].
  assert (Hrec : forall r v n' a' b', c :: u = r ++ v -> r <> [] -> fuel x n' (pre ++ r) -> wp (header_loop s len n' (zlen (pre ++ r)) a' b') Q st).
  { intros r v n' a' b' E Hr Hn'. rewrite E in Hx, Hu, Hap, HQ. apply (IH v) with (post := post); [unfold ltof; rewrite E, length_app; destruct r; [done|cbn; lia]|split_list Hx|by apply Forall_app in Hu as [_ Hu]| |done|].
    - destruct Hap as [Hn|[(w & d & Hw & Hd)|Hp]]; [by destruct r|..]; [|right; by right]. destruct v as [|e v] using rev_ind; [by left|]. rewrite (assoc_L (++)) in Hw. apply app_inj_tail in Hw as [_ ->]. right. left. by exists v, d.
    - intros n2 a2 b2 Hn2. rewrite <- (assoc_L (++)) in *. by apply HQ. }
  destruct n as [|n]; [unfold fuel in Hf; lia|]. cbn [header_loop]. rewrite (proj2 (Z.ltb_lt _ _)) by xlen Hx. cbn [negb]. wstep. eapply at_exact; [exact Hx|]. apply Forall_cons in Hu as [Hc Hu]. destruct (plain_stop c Hc) as (-> & -> & -> & ->). destruct (is_id_start c) eqn:Es.
  - destruct (id_prefix (c :: u)) as (r & v & E & Hr & Hv). assert (r <> []). { intros ->. cbn in E. subst v. unfold is_id_char in Hv. by rewrite Es in Hv. } wstep. rewrite E in Hx. eapply (scan_exact _ _ r (v ++ post)); [split_list Hx|done|xlen Hx| |].
    + destruct v as [|d v]; [|right; by exists d, (v ++ post)]. destruct Hap as [?|[(w & d & Hw & Hd)|Hp]]; [done|..|by right]. rewrite app_nil_r in E. rewrite E in Hw. rewrite Hw, Forall_app in Hr. destruct Hr as [_ Hr]. apply Forall_cons in Hr as [Hr _]. congruence.
    + replace (zlen pre + zlen r) with (zlen (pre ++ r)) by llia. eapply Hrec; [exact E|done|]. destruct r; [done|]. xlen Hx.
  - do 4 wstep. behind pre [c]. eapply Hrec; [done|done|xlen Hx].
Qed.
(** A header up to its parenthesis. *)
Lemma gap_header g : forall n pre post a b (Q : option Z * Z * Z -> S -> Prop) st, x = pre ++ g ++ 40 :: post -> Forall (fun c => is_tab c = true) g -> fuel x n pre -> Q (Some (zlen (pre ++ g)), a, b) st -> wp (header_loop s len n (zlen pre) a b) Q st.
Proof.
  induction g as [|c g IH]; intros n pre post a b Q st Hx Hg Hf HQ; (destruct n as [|n]; [unfold fuel in Hf; lia|]); cbn [header_loop]; rewrite (proj2 (Z.ltb_lt _ _)) by xlen Hx; cbn [negb]; wstep; eapply at_exact; [exact Hx| |exact Hx|].
  - change (is_id_start 40) with false. change (40 =? 40) with true. cbv iota. wstep. by rewrite app_nil_r in HQ.
  - apply Forall_cons in Hg as [Hc Hg]. assert (c = 32 \/ c = 9) as Hc' by (unfold is_tab in Hc; apply orb_true_iff in Hc as [->%Z.eqb_eq| ->%Z.eqb_eq]; auto).
    replace (is_id_start c) with false by (by destruct Hc' as [->| ->]). replace ((c =? 59) || _ || _ || _ || _ || _) with false by (by destruct Hc' as [->| ->]). neq. do 4 wstep. neq. behind pre [c]. apply (IH n _ post); [split_list Hx|done|xlen Hx|]. by rewrite <- (assoc_L (++)).
Qed.
Lemma header_exact h nm g post (Q : option Z * Z * Z -> S -> Prop) st n pre a b : x = pre ++ h ++ nm ++ g ++ 40 :: post -> Forall plain h -> apart h [] -> ident nm -> Forall (fun c => is_tab c = true) g -> fuel x n pre ->
  Q (Some (zlen (pre ++ h ++ nm ++ g)), zlen (pre ++ h), zlen (pre ++ h ++ nm)) st -> wp (header_loop s len n (zlen pre) a b) Q st.
Proof.
  intros Hx Hh Hap Hnm Hg Hf HQ. apply (header_plain h _ _ (nm ++ g ++ 40 :: post)); [exact Hx|done| |done|]. { destruct Hap as [?|[?|(? & ? & ? & _)]]; [by left|right; by left|done]. }
  intros n' a' b' Hn'. destruct nm as [|c t]; [done|]. pose proof (ident_chars _ Hnm) as [_ Hchars]. destruct Hnm as [Hc Ht]. destruct n' as [|n']; [unfold fuel in Hn'; lia|]. cbn [header_loop]. rewrite (proj2 (Z.ltb_lt _ _)) by xlen Hx. cbn [negb]. wstep. eapply (at_exact _ c (t ++ g ++ 40 :: post)); [split_list Hx|]. rewrite Hc. wstep.
  eapply (scan_exact _ _ (c :: t) (g ++ 40 :: post)); [split_list Hx|done|xlen Hx| |].
  { right. destruct g as [|d g]; [by exists 40, post|]. exists d, (g ++ 40 :: post). split; [done|]. apply Forall_cons in Hg as [Hd _]. unfold is_tab in Hd. by apply orb_true_iff in Hd as [->%Z.eqb_eq| ->%Z.eqb_eq]. }
  replace (zlen (pre ++ h) + zlen (c :: t)) with (zlen ((pre ++ h) ++ c :: t)) by llia. eapply (gap_header g); [split_list Hx|done|xlen Hx|]. by rewrite <- !(assoc_L (++)) in *.
Qed.
Lemma back_exact g : forall n pre post (Q : Z -> S -> Prop) st, x = pre ++ g ++ post -> Forall (fun c => is_tab c = true) g -> (length g < n)%nat -> Q (zlen pre) st -> wp (back_loop s n (zlen pre) (zlen (pre ++ g))) Q st.
Proof.
  induction g as [|c g IH] using rev_ind; intros n pre post Q st Hx Hg Hn HQ; (destruct n as [|n]; [lia|]); cbn [back_loop].
  - rewrite app_nil_r, Z.ltb_irrefl. by wstep.
  - rewrite (proj2 (Z.ltb_lt _ _)) by llia. apply Forall_app in Hg as [Hg Hc]. apply Forall_cons in Hc as [Hc _]. wstep. replace (zlen (pre ++ g ++ [c]) - 1) with (zlen (pre ++ g)) by llia. eapply (at_exact _ c post); [split_list Hx|]. rewrite Hc. apply (IH n pre ([c] ++ post)); [split_list Hx|done|llia|done].
Qed.

(** ** Names and lines *)

Lemma name_exact pre nm post (Q : list Z -> S -> Prop) st : x = pre ++ nm ++ post -> Forall (fun c => is_id_char c = true) nm -> Q (take 95 nm) st -> wp (name_of s (zlen pre) (zlen (pre ++ nm))) Q st.
Proof.
  intros Hx Hnm HQ. apply name_wp; [llia|xlen Hx|]. replace (zlen (pre ++ nm) - zlen pre) with (zlen nm) by llia. by rewrite Hx, !Nat2Z.id, drop_app_length, take_app_length, id_cstr.
Qed.
Definition newlines (l : list Z) : Z := zlen (List.filter (Z.eqb 10) l).
Lemma newlines_app a b : newlines (a ++ b) = newlines a + newlines b.
Proof. unfold newlines. rewrite List.filter_app, length_app. lia. Qed.
Lemma newlines_le l : 0 <= newlines l <= zlen l.
Proof. unfold newlines. pose proof (filter_length_le (Z.eqb 10) l). lia. Qed.
Lemma line_exact pre post (Q : Z -> S -> Prop) st : x = pre ++ post -> Forall (fun c => c <> 0) pre -> len < 4294967295 -> Q (1 + newlines pre) st -> wp (line_of s (zlen pre)) Q st.
Proof.
  intros Hx H0 Hlen HQ. unfold line_of.
  assert (H : forall b a n, pre = a ++ b -> (length b < n)%nat -> wp (line_loop s n (zlen a) (zlen pre) (1 + newlines a)) Q st); [|apply (H pre []); [done|unfold rounds; lia]].
  induction b as [|c b IH]; intros a n Ha Hn; (destruct n as [|n]; [lia|]); cbn [line_loop].
  - rewrite app_nil_r in Ha. subst a. rewrite Z.ltb_irrefl. by wstep.
  - rewrite (proj2 (Z.ltb_lt _ _)) by (rewrite Ha; llia). wstep. eapply (at_exact _ c (b ++ post)); [rewrite Hx, Ha; same_list|]. rewrite Ha, Forall_app in H0. destruct H0 as [_ H0]. apply Forall_cons in H0 as [Hc _]. neq.
    replace (zlen a + 1) with (zlen (a ++ [c])) by llia. replace (if c =? 10 then _ else _) with (1 + newlines (a ++ [c])). { apply IH; [rewrite Ha; same_list|cbn in Hn; lia]. }
    rewrite newlines_app. pose proof (newlines_le a). assert (zlen a < len) by (rewrite Hx, Ha; llia). destruct (Z.eqb_spec c 10) as [->|]; [rewrite u32_small by lia; change (newlines [10]) with 1; lia|]. assert (newlines [c] = 0) as ->; [|lia]. unfold newlines. cbn [List.filter]. by rewrite (proj2 (Z.eqb_neq 10 c)) by auto.
Qed.

(** ** Functions *)

Definition tabs (l : list Z) : Prop := Forall (fun c => is_tab c = true) l.
Definition blanks (l : list Z) : Prop := Forall (fun c => is_blank c = true) l.
(** "uint32_t name(params)" *)
Definition front (h nm g ps : list Z) : list Z := h ++ nm ++ g ++ 40 :: ps ++ [41].
Record front_ok (h nm g ps : list Z) : Prop := { fr_plain : Forall plain h; fr_apart : apart h []; fr_name : ident nm; fr_gap : tabs g; fr_params : parens ps }.

(** Up to what follows the parameters. *)
Lemma front_exact h nm g ps ws c post (Q : option (Z * Z * Z * Z) -> S -> Prop) st pre : x = pre ++ front h nm g ps ++ ws ++ c :: post -> front_ok h nm g ps -> blanks ws -> is_blank c = false -> len < 4294967295 ->
  (let b := zlen (pre ++ front h nm g ps ++ ws) in c <> 123 -> Q None st) ->
  (let b := zlen (pre ++ front h nm g ps ++ ws) in c = 123 -> wp (r <- brace_loop s len (rounds len (b + 1)) (b + 1) 1 ;; let '(q, depth) := r in ret (if depth =? 0 then Some (zlen (pre ++ h), zlen (pre ++ h ++ nm), b, q) else None)) Q st) ->
  wp (fn_at s len (zlen pre)) Q st.
Proof.
  intros Hx [Hh Hap Hnm Hg Hps] Hws Hc Hlen Hno HQ. unfold front in *. unfold fn_at. wstep. eapply (header_exact h nm g (ps ++ [41] ++ ws ++ c :: post)); [split_list Hx|done..|unfold fuel, rounds; lia|]. pose proof (ident_chars _ Hnm) as [Hne _]. rewrite (proj2 (Z.ltb_lt _ _)) by (destruct nm; [done|llia]). cbn [negb].
  wstep. replace (pre ++ h ++ nm ++ g) with ((pre ++ h ++ nm) ++ g) by same_list. eapply (back_exact g _ _ (40 :: ps ++ [41] ++ ws ++ c :: post)); [split_list Hx|done|unfold rounds; llia|]. rewrite Z.eqb_refl. cbn [negb]. wstep.
  eapply (match_exact _ ps (ws ++ c :: post)); [split_list Hx|done|done|]. rewrite (proj2 (Z.eqb_neq _ _)) by (unfold NO_OFFSET; xlen Hx). wstep. replace (zlen (((pre ++ h ++ nm) ++ g) ++ 40 :: ps) + 1) with (zlen (pre ++ h ++ nm ++ g ++ 40 :: ps ++ [41])) by llia.
  eapply (scan_exact _ _ ws (c :: post)); [split_list Hx|done|xlen Hx|right; by exists c, post|]. replace (zlen (pre ++ h ++ nm ++ g ++ 40 :: ps ++ [41]) + zlen ws) with (zlen (pre ++ (h ++ nm ++ g ++ 40 :: ps ++ [41]) ++ ws)) by llia. rewrite (proj2 (Z.ltb_lt _ _)) by xlen Hx. cbn [negb]. wstep.
  eapply (at_exact _ c post); [split_list Hx|]. destruct (Z.eqb_spec c 123) as [E|E]; cbn [negb]; [by apply HQ|wstep; by apply Hno].
Qed.
Lemma fn_exact h nm g ps ws body post (Q : option (Z * Z * Z * Z) -> S -> Prop) st pre : x = pre ++ front h nm g ps ++ ws ++ 123 :: body ++ 125 :: post -> front_ok h nm g ps -> blanks ws -> braces body -> len < 4294967295 ->
  Q (Some (zlen (pre ++ h), zlen (pre ++ h ++ nm), zlen (pre ++ front h nm g ps ++ ws), zlen (pre ++ front h nm g ps ++ ws ++ 123 :: body ++ [125]))) st -> wp (fn_at s len (zlen pre)) Q st.
Proof.
  intros Hx Hf Hws Hb Hlen HQ. eapply front_exact; [exact Hx|done..|]. intros b _. wstep. replace (b + 1) with (zlen (pre ++ front h nm g ps ++ ws ++ [123])) by (unfold b; llia). eapply (body_exact _ body post); [split_list Hx|done|done|]. change (0 =? 0) with true. cbv iota. wstep.
  replace (pre ++ front h nm g ps ++ ws ++ 123 :: body ++ [125]) with ((pre ++ front h nm g ps ++ ws ++ [123]) ++ body ++ [125]) in HQ by same_list. exact HQ.
Qed.

(** A line that starts like a function and is none. *)
Lemma header_stop u post (Q : option Z * Z * Z -> S -> Prop) st pre n : x = pre ++ u ++ post -> Forall plain u -> match post with [] => False | c :: _ => c = 10 \/ c = 59 \/ c = 61 \/ c = 123 \/ c = 125 \/ quote c end -> fuel x n pre -> (forall a b, Q (None, a, b) st) -> wp (header_loop s len n (zlen pre) 0 0) Q st.
Proof.
  intros Hx Hu Hc Hf HQ. destruct post as [|c post]; [done|]. apply (header_plain u _ _ (c :: post)); [exact Hx|done|right; right; exists c, post; split; [done|]|done|]. { unfold quote in Hc. by destruct Hc as [->|[->|[->|[->|[->|[->| ->]]]]]]. }
  intros n' a b Hn'. destruct n' as [|n']; [unfold fuel in Hn'; lia|]. cbn [header_loop]. rewrite (proj2 (Z.ltb_lt _ _)) by xlen Hx. cbn [negb]. wstep. eapply (at_exact _ c post); [split_list Hx|]. unfold quote in Hc. destruct Hc as [->|[->|[->|[->|[->|[->| ->]]]]]]; closed_tests; repeat wstep; by apply HQ.
Qed.
Lemma decl_exact u post (Q : option (Z * Z * Z * Z) -> S -> Prop) st pre : x = pre ++ u ++ post -> Forall plain u -> match post with [] => False | c :: _ => c = 10 \/ c = 59 \/ c = 61 \/ c = 123 \/ c = 125 \/ quote c end -> Q None st -> wp (fn_at s len (zlen pre)) Q st.
Proof. intros Hx Hu Hc HQ. unfold fn_at. wstep. eapply header_stop; [exact Hx|done|done|unfold fuel, rounds; lia|]. intros a b. by wstep. Qed.
End exact.
End EditText.
