(* ===== verification/EditDoc.v ===== *)
(** * What a source says

    Sources of the editor as a list of items: lines it passes over, declarations,
    prototypes, macros and functions.  The parser of Edit finds the macros and
    functions of such a source, and an edit of one yields the source of the
    edited items. *)
From S2P Require Import Prelude Edit EditSafe EditText.

Module EditDoc.
Import Store Edit EditSafe EditText.
Local Open Scope metal_scope.

Definition no_newline (l : list Z) : Prop := Forall (fun c => c <> 10) l.

(** A line that is passed over; one that starts like a function, up to a
    character that stops the scan, and the rest of it; a prototype; a macro with
    the blanks around its name and value; a function. *)
Inductive item :=
| Line (l : list Z)
| Decl (u v : list Z)
| Proto (h nm g ps ws : list Z) (c : Z) (v : list Z)
| Macro (g nm : list Z) (ps : option (list Z)) (mid v rest : list Z)
| Fn (h nm g ps ws body : list Z).

Definition params (ps : option (list Z)) : list Z := match ps with Some p => 40 :: p ++ [41] | None => [] end.
Definition macro (g nm : list Z) (ps : option (list Z)) (mid v rest : list Z) : list Z := define_word ++ g ++ nm ++ params ps ++ mid ++ v ++ rest.
Definition render1 (it : item) : list Z :=
  match it with
  | Line l => l ++ [10]
  | Decl u v => u ++ v ++ [10]
  | Proto h nm g ps ws c v => front h nm g ps ++ ws ++ c :: v ++ [10]
  | Macro g nm ps mid v rest => macro g nm ps mid v rest ++ [10]
  | Fn h nm g ps ws body => front h nm g ps ++ ws ++ 123 :: body ++ [125]
  end.
Definition render (d : list item) : list Z := mjoin (render1 <$> d).

(** A line that the parser takes for a macro, if a name follows. *)
Definition is_def (l : list Z) : bool := bool_decide (take 7 l = define_word) && match drop 7 l with c :: _ => is_tab c | [] => false end.
Fixpoint after_tabs (l : list Z) : list Z := match l with c :: t => if is_tab c then after_tabs t else l | [] => [] end.
Definition starts (f : Z -> bool) (l : list Z) : bool := match l with c :: _ => f c | [] => false end.

Definition item_ok (it : item) : Prop :=
  match it with
  | Line l => no_newline l /\ starts is_id_start l = false /\ (is_def l = true -> starts is_id_start (after_tabs (drop 7 l)) = false)
  | Decl u v => no_newline v /\ Forall plain u /\ starts is_id_start u = true /\ match v with [] => True | c :: _ => c = 59 \/ c = 61 \/ c = 123 \/ c = 125 \/ quote c end
  | Proto h nm g ps ws c v => front_ok h nm g ps /\ starts is_id_start (h ++ nm) = true /\ no_newline ps /\ no_newline ws /\ blanks ws /\ is_blank c = false /\ c <> 123 /\ no_newline v
  | Macro g nm ps mid v rest => g <> [] /\ tabs g /\ ident nm /\ tabs mid /\ Forall (fun c => is_tab c = false /\ c <> 10) v /\ no_newline rest /\ (rest = [] \/ (v <> [] /\ starts is_tab rest = true)) /\
      match ps with Some p => parens p /\ no_newline p | None => v <> [] -> mid <> [] end
  | Fn h nm g ps ws body => front_ok h nm g ps /\ starts is_id_start (h ++ nm) = true /\ blanks ws /\ braces body
  end.

(** The node that is found for an item at an offset and on a line. *)
Definition item_node (off ln : Z) (it : item) : list pm_metal_edit_node :=
  match it with
  | Macro g nm ps mid v rest =>
      let value := off + zlen (define_word ++ g ++ nm ++ params ps ++ mid) in
      [Node EDIT_DEFINE (take 95 nm) (off + zlen (define_word ++ g)) off (off + zlen (render1 it)) (off + zlen (define_word ++ g ++ nm ++ params ps)) value (zlen v) ln]
  | Fn h nm g ps ws body => [Node EDIT_FN (take 95 nm) (off + zlen h) off (off + zlen (render1 it)) (off + zlen (front h nm g ps ++ ws)) 0 0 ln]
  | _ => []
  end.
Fixpoint nodes_of (pre : list Z) (d : list item) : list pm_metal_edit_node :=
  match d with [] => [] | it :: d => item_node (zlen pre) (1 + newlines pre) it ++ nodes_of (pre ++ render1 it) d end.

(** ** One item *)

Section scan.
Context {S : Type}.
Variables (x junk : list Z).
Abbreviation s := (x ++ junk).
Abbreviation len := (zlen x).
Implicit Types (pre l post : list Z).
Hypothesis Hlen : len < 4294967295.

Lemma define_at_exact pre l post (Q : option Z -> S -> Prop) st : x = pre ++ l ++ post -> Q (if is_def l then Some (zlen pre + 7) else None) st -> wp (define_at s (zlen pre) (zlen (pre ++ l))) Q st.
Proof.
  intros Hx HQ. unfold define_at. destruct (Z.ltb_spec (zlen (pre ++ l) - zlen pre) 8) as [Hs|Hs].
  - wstep. replace (is_def l) with false in HQ; [done|]. symmetry. unfold is_def. rewrite length_app in Hs. destruct (decide (length l = 7%nat)) as [E|E]; [rewrite drop_ge by lia; by rewrite andb_false_r|]. apply andb_false_iff. left. apply bool_decide_eq_false. intros Et. apply (f_equal length) in Et. rewrite length_take in Et. change (length define_word) with 7%nat in Et. lia.
  - assert (exists w c r, l = w ++ c :: r /\ length w = 7%nat) as (w & c & r & -> & Lw).
    { destruct (lookup_lt_is_Some_2 l 7 ltac:(llia)) as [c Hc]. exists (take 7 l), c, (drop 8 l). split; [by rewrite (take_drop_middle l 7 c Hc)|]. rewrite length_take. llia. }
    unfold is_def in HQ. rewrite take_app_length', drop_app_length' in HQ by done. wstep. eapply (wp_chk _ w); [rewrite Hx, <- !(assoc_L (++)); apply slice_mid; lia|]. destruct (bool_decide (w = define_word)); cbn [negb andb] in *; [|by wstep].
    wstep. replace (zlen pre + 7) with (zlen (pre ++ w)) in * by llia. eapply (at_exact _ _ _ c (r ++ post)); [split_list Hx|]. destruct (is_tab c); cbn [negb]; by wstep.
Qed.

(** The text behind the name of a macro ends it. *)
Lemma macro_break ps mid v rest post : (rest = [] \/ (v <> [] /\ starts is_tab rest = true)) -> tabs mid -> match ps with Some _ => True | None => v <> [] -> mid <> [] end ->
  exists c t, params ps ++ mid ++ v ++ rest ++ 10 :: post = c :: t /\ is_id_char c = false /\ (c =? 40) = match ps with Some _ => true | None => false end.
Proof.
  intros Hr Hmid Hps. destruct ps as [p|]; [by exists 40, ((p ++ [41]) ++ mid ++ v ++ rest ++ 10 :: post)|]. cbn [params app]. destruct mid as [|c mid].
  - destruct v as [|d v]; [|by destruct (Hps ltac:(done))]. destruct Hr as [->|[? _]]; [|done]. by exists 10, post.
  - exists c, (mid ++ v ++ rest ++ 10 :: post). split; [done|]. apply Forall_cons in Hmid as [Hc _]. unfold is_tab in Hc. by apply orb_true_iff in Hc as [->%Z.eqb_eq| ->%Z.eqb_eq].
Qed.

Lemma macro_exact pre g nm ps mid v rest post (Q : pm_metal_edit_node -> S -> Prop) st : x = pre ++ macro g nm ps mid v rest ++ 10 :: post -> item_ok (Macro g nm ps mid v rest) -> Forall (fun c => c <> 0) pre ->
  (forall nd, item_node (zlen pre) (1 + newlines pre) (Macro g nm ps mid v rest) = [nd] -> Q nd st) ->
  wp (define_node s len (zlen pre) (zlen (pre ++ macro g nm ps mid v rest)) (zlen (pre ++ define_word ++ g))) Q st.
Proof.
  intros Hx (Hg0 & Hg & Hnm & Hmid & Hv & Hrest & Hr & Hps) H0 HQ. destruct (macro_break ps mid v rest post Hr Hmid) as (c & t & Ec & Hid & H40); [by destruct ps|]. pose proof (ident_chars _ Hnm) as [_ Hchars]. unfold macro in *.
  unfold define_node. wstep. eapply (scan_exact _ _ _ _ nm (c :: t)); [rewrite <- Ec; split_list Hx|done|xlen Hx|right; by exists c, t|]. replace (zlen (pre ++ define_word ++ g) + zlen nm) with (zlen ((pre ++ define_word ++ g) ++ nm)) by llia.
  wstep. eapply (name_exact _ _ _ nm (c :: t)); [rewrite <- Ec; split_list Hx|done|]. wstep. eapply line_exact; [exact Hx|done|done|]. wstep.
  apply (wp_mono _ (fun b st' => st' = st /\ b = match ps with Some _ => true | None => false end)).
  { destruct (Z.ltb_spec (zlen ((pre ++ define_word ++ g) ++ nm)) (zlen (pre ++ define_word ++ g ++ nm ++ params ps ++ mid ++ v ++ rest))) as [Hlt|Hge]; [|wstep; split; [done|]; destruct ps; [cbn [params] in Hge; llia|done]]. wstep. eapply (at_exact _ _ _ c t); [rewrite <- Ec; split_list Hx|]. by wstep. }
  intros gl ? [-> ->]. wstep. apply (wp_mono _ (fun b st' => st' = st /\ b = zlen (pre ++ define_word ++ g ++ nm ++ params ps))).
  { destruct ps as [p|]; [|wstep; split; [done|cbn [params]; llia]]. destruct Hps as [Hp _]. wstep. eapply (match_exact _ _ _ p (mid ++ v ++ rest ++ 10 :: post)); [cbn [params] in Hx; split_list Hx|done|done|]. wstep. split; [done|]. cbn [params] in *. rewrite u32_small by xlen Hx. llia. }
  intros body ? [-> ->]. wstep. eapply (scan_exact _ _ _ _ mid (v ++ rest ++ 10 :: post)); [split_list Hx|done|xlen Hx| |].
  { destruct v as [|d v]; [destruct Hr as [->|[? _]]; [left; llia|done]|right]. exists d, (v ++ rest ++ 10 :: post). split; [done|]. by apply Forall_cons in Hv as [[? _] _]. }
  wstep. replace (zlen (pre ++ define_word ++ g ++ nm ++ params ps) + zlen mid) with (zlen (pre ++ define_word ++ g ++ nm ++ params ps ++ mid)) by llia. eapply (scan_exact _ _ _ _ v (rest ++ 10 :: post)); [split_list Hx| |xlen Hx| |].
  { eapply Forall_impl; [exact Hv|]. by intros d [-> _]. }
  { destruct rest as [|d rest]; [left; llia|right]. exists d, (rest ++ 10 :: post). split; [done|]. destruct Hr as [?|[_ Hd]]; [done|]. cbn in Hd. by rewrite Hd. }
  wstep. apply HQ. cbn [item_node]. do 2 f_equal; try llia; try (cbn [render1]; unfold macro).
  - rewrite (proj2 (Z.ltb_lt _ _)) by xlen Hx. llia.
Qed.
End scan.

(** ** A whole source *)

Lemma starts_app f a b : a <> [] -> starts f (a ++ b) = starts f a.
Proof. by destruct a. Qed.
Lemma starts_cons f l : starts f l = true -> exists c t, l = c :: t /\ f c = true.
Proof. destruct l as [|c t]; [done|]. intros H. by exists c, t. Qed.
Lemma not_def l c t : l = c :: t -> is_id_start c = true -> forall k, is_def (take k l) = false.
Proof. intros -> Hc k. destruct (is_def _) eqn:E; [|done]. apply andb_true_iff in E as [E%bool_decide_eq_true _]. destruct k; [done|]. cbn in E. by injection E as -> _. Qed.
Lemma after_tabs_split l : exists t, l = t ++ after_tabs l /\ tabs t /\ starts is_tab (after_tabs l) = false.
Proof.
  induction l as [|c l (t & E & Ht & Hs)]; [exists []; split; [done|]; by split; [constructor|]|]. cbn [after_tabs]. destruct (is_tab c) eqn:Ec; [|exists []; split; [done|]; split; [constructor|done]]. exists (c :: t). split; [by rewrite E at 1|]. split; [by constructor|done].
Qed.
Lemma ident_no_newline l : Forall (fun c => is_id_char c = true) l -> no_newline l.
Proof. intros H. eapply Forall_impl; [exact H|]. by intros c Hc ->. Qed.
Lemma tabs_no_newline l : tabs l -> no_newline l.
Proof. intros H. eapply Forall_impl; [exact H|]. by intros c Hc ->. Qed.
Lemma plain_no_newline l : Forall plain l -> no_newline l.
Proof. intros H. eapply Forall_impl; [exact H|]. intros c Hc. apply Hc. Qed.
Lemma no_newline_not l : no_newline l -> Forall (fun c => negb (c =? 10) = true) l.
Proof. intros H. eapply Forall_impl; [exact H|]. intros c Hc. by rewrite (proj2 (Z.eqb_neq _ _) Hc). Qed.
Lemma define_word_plain : no_newline define_word.
Proof. repeat constructor; done. Qed.
Lemma front_no_newline h nm g ps : front_ok h nm g ps -> no_newline ps -> no_newline (front h nm g ps).
Proof.
  intros [Hh _ Hnm Hg _] Hps. destruct (ident_chars _ Hnm) as [_ ?]. unfold front, no_newline. rewrite !Forall_app, Forall_cons, Forall_app. split_and!; [by apply plain_no_newline|by apply ident_no_newline|by apply tabs_no_newline|done|done|by repeat constructor].
Qed.
Lemma macro_no_newline g nm ps mid v rest : item_ok (Macro g nm ps mid v rest) -> no_newline (macro g nm ps mid v rest).
Proof.
  intros (_ & Hg & Hnm & Hmid & Hv & Hrest & _ & Hps). destruct (ident_chars _ Hnm) as [_ ?]. unfold macro, no_newline. rewrite !Forall_app. split_and!; [apply define_word_plain|by apply tabs_no_newline|by apply ident_no_newline| |by apply tabs_no_newline| |done].
  - destruct ps as [p|]; [|constructor]. cbn [params]. rewrite Forall_cons, Forall_app. split_and!; [done|apply Hps|by repeat constructor].
  - eapply Forall_impl; [exact Hv|]. by intros c [_ ?].
Qed.

Section parse.
Context {A : Type} `{!Arena A}.
Variable grow : Z -> A -> A * option Z.
(** The node list can always be wider. *)
Definition grows : Prop := forall cap a, exists a' cap', grow cap a = (a', Some cap') /\ cap < cap'.
Hypothesis Hgrow : grows.
Variables (x junk : list Z).
Abbreviation s := (x ++ junk).
Abbreviation len := (zlen x).
Hypothesis Hlen : len < 4294967295.
Hypothesis Hnul : Forall (fun c => c <> 0) x.
Implicit Types (pre l post : list Z).

Record good (t : pm_metal_edit_tree) : Prop := { go_src : src t = s; go_len : src_len t = len; go_cap : zlen (nodes t) <= cap_nodes t }.
Lemma room_exact t (Q : bool * pm_metal_edit_tree -> A -> Prop) a : good t -> (forall t' a', src t' = src t -> src_len t' = src_len t -> nodes t' = nodes t -> zlen (nodes t) < cap_nodes t' -> Q (true, t') a') -> wp (node_room grow t) Q a.
Proof.
  intros [_ _ Hc] HQ. unfold node_room. destruct (Z.leb_spec (cap_nodes t) (zlen (nodes t))); [|wstep; by apply HQ]. wstep. apply on_arena_wp. destruct (Hgrow (cap_nodes t) a) as (a' & cap & -> & Hcap). cbn [fst snd]. rewrite (proj2 (Z.leb_gt _ _)) by lia. wstep. apply HQ; cbn; done || lia.
Qed.
Lemma pre_nul pre post : x = pre ++ post -> Forall (fun c => c <> 0) pre.
Proof. intros ->. by apply Forall_app in Hnul as [? _]. Qed.

(** The parser goes over one item. *)
Definition passes (it : item) : Prop := forall pre post t n (Q : Z * pm_metal_edit_tree -> A -> Prop) a, x = pre ++ render1 it ++ post -> fuel x n pre -> good t ->
  (forall n' t' a', fuel x n' (pre ++ render1 it) -> good t' -> nodes t' = nodes t ++ item_node (zlen pre) (1 + newlines pre) it -> wp (source_loop grow n' s len (zlen (pre ++ render1 it)) t') Q a') ->
  wp (source_loop grow n s len (zlen pre) t) Q a.

(** Lines without a newline, up to it. *)
Lemma on_line l pre post t n (Q : Z * pm_metal_edit_tree -> A -> Prop) a : x = pre ++ l ++ 10 :: post -> no_newline l -> fuel x (S n) pre ->
  wp (d <- define_at s (zlen pre) (zlen (pre ++ l)) ;;
      match d with
      | Some p =>
          p <- skip_while s is_tab p (zlen (pre ++ l)) ;;
          id <- (if p <? zlen (pre ++ l) then c <- at_ s p ;; ret (is_id_start c) else ret false) ;;
          if negb id then source_loop grow n s len (zlen (pre ++ l ++ [10])) t else
          r <- node_room grow t ;;
          if negb (fst r) then ret (PM_METAL_EDIT_ERR_NOMEM, snd r) else
          nd <- define_node s len (zlen pre) (zlen (pre ++ l)) p ;;
          source_loop grow n s len (zlen (pre ++ l ++ [10])) (add_node nd (snd r))
      | None =>
          c <- at_ s (zlen pre) ;;
          if negb (is_id_start c && (zlen pre <? zlen (pre ++ l))) then source_loop grow n s len (zlen (pre ++ l ++ [10])) t else
          f <- fn_at s len (zlen pre) ;;
          match f with
          | None => source_loop grow n s len (zlen (pre ++ l ++ [10])) t
          | Some (id_start, id_end, b, q) =>
              r <- node_room grow t ;;
              if negb (fst r) then ret (PM_METAL_EDIT_ERR_NOMEM, snd r) else
              nd <- fn_node s (zlen pre) (id_start, id_end, b, q) ;;
              source_loop grow n s len (if q <? len then q else len) (add_node nd (snd r))
          end
      end) Q a -> wp (source_loop grow (S n) s len (zlen pre) t) Q a.
Proof.
  intros Hx Hl Hf HQ. cbn [source_loop]. rewrite (proj2 (Z.ltb_lt (zlen pre) len)) by xlen Hx. cbn [negb]. wstep. eapply (scan_exact _ _ _ _ l (10 :: post)); [exact Hx|by apply no_newline_not|xlen Hx|right; by exists 10, post|].
  replace (zlen pre + zlen l) with (zlen (pre ++ l)) by llia. rewrite (proj2 (Z.ltb_lt (zlen (pre ++ l)) len)) by xlen Hx. replace (zlen (pre ++ l) + 1) with (zlen (pre ++ l ++ [10])) by llia. exact HQ.
Qed.

Lemma line_passes l : item_ok (Line l) -> passes (Line l).
Proof.
  intros (Hl & Hid & Hdef) pre post t n Q a Hx Hf Hg HQ. cbn [render1 item_node] in *. destruct n as [|n]; [unfold fuel in Hf; lia|]. assert (Hx' : x = pre ++ l ++ 10 :: post) by split_list Hx.
  assert (Hend : forall a', wp (source_loop grow n s len (zlen (pre ++ l ++ [10])) t) Q a') by (intros a'; apply HQ; [xlen Hx|done|by rewrite app_nil_r]). eapply on_line; [exact Hx'|done|done|]. wstep. eapply define_at_exact; [exact Hx'|]. destruct (is_def l) eqn:Ed.
  - specialize (Hdef eq_refl). destruct (after_tabs_split (drop 7 l)) as (tb & E & Htb & Hst). assert (exists w, l = w ++ tb ++ after_tabs (drop 7 l) /\ length w = 7%nat) as (w & El & Lw). { exists (take 7 l). rewrite <- E, take_drop. split; [done|]. rewrite length_take. unfold is_def in Ed. apply andb_true_iff in Ed as [_ Ed]. destruct (drop 7 l) eqn:E7; [done|]. apply (f_equal length) in E7. rewrite length_drop in E7. cbn in E7. lia. }
    set (r := after_tabs (drop 7 l)) in *. clearbody r. clear E. subst l. wstep. replace (zlen pre + 7) with (zlen (pre ++ w)) by llia. eapply (scan_exact _ _ _ _ tb (r ++ 10 :: post)); [split_list Hx'|done|xlen Hx'| |].
    { destruct r as [|c r]; [left; llia|right]. exists c, (r ++ 10 :: post). by split. }
    wstep. apply (wp_mono _ (fun b _ => b = false)); [|intros ? a' ->; apply Hend]. replace (zlen (pre ++ w) + zlen tb) with (zlen ((pre ++ w) ++ tb)) by llia. destruct (Z.ltb_spec (zlen ((pre ++ w) ++ tb)) (zlen (pre ++ w ++ tb ++ r))) as [Hlt|]; [|by wstep]. destruct r as [|c r]; [llia|]. wstep. eapply (at_exact _ _ _ c (r ++ 10 :: post)); [split_list Hx'|]. by wstep.
  - wstep. destruct l as [|c l]; [eapply (at_exact _ _ _ 10 post); [exact Hx'|]; apply Hend|]. eapply (at_exact _ _ _ c (l ++ 10 :: post)); [exact Hx'|]. cbn in Hid. rewrite Hid. apply Hend.
Qed.
(** A line that the search for a function is done with. *)
Lemma none_passes l pre post t n (Q : Z * pm_metal_edit_tree -> A -> Prop) a : x = pre ++ l ++ 10 :: post -> no_newline l -> starts is_id_start l = true -> fuel x (S n) pre ->
  (forall (R : option (Z * Z * Z * Z) -> A -> Prop) a', R None a' -> wp (fn_at s len (zlen pre)) R a') -> (forall a', wp (source_loop grow n s len (zlen (pre ++ l ++ [10])) t) Q a') -> wp (source_loop grow (S n) s len (zlen pre) t) Q a.
Proof.
  intros Hx Hl Hs Hf Hfn Hend. destruct (starts_cons _ _ Hs) as (c & tl & E & Hc). eapply on_line; [exact Hx|done|done|]. wstep. eapply define_at_exact; [exact Hx|]. pose proof (not_def l c tl E Hc (length l)) as Hd. rewrite firstn_all in Hd. rewrite Hd. wstep. eapply (at_exact _ _ _ c (tl ++ 10 :: post)); [rewrite Hx, E; same_list|]. rewrite Hc. cbn [andb]. rewrite (proj2 (Z.ltb_lt _ _)) by (rewrite E; llia). cbn [negb]. wstep. apply Hfn. apply Hend.
Qed.
Lemma starts_front f h nm g ps r : ident nm -> starts f (front h nm g ps ++ r) = starts f (h ++ nm).
Proof. intros Hnm. unfold front. destruct h; [|done]. by destruct nm. Qed.
Lemma decl_passes u v : item_ok (Decl u v) -> passes (Decl u v).
Proof.
  intros (Hv & Hu & Hs & Hc) pre post t n Q a Hx Hf Hg HQ. cbn [render1 item_node] in *. destruct n as [|n]; [unfold fuel in Hf; lia|]. eapply (none_passes (u ++ v)); [split_list Hx|apply Forall_app; split; [by apply plain_no_newline|done]|rewrite starts_app; [done|by destruct u]|done| |].
  - intros R a' HR. eapply (decl_exact _ _ u (v ++ 10 :: post)); [split_list Hx|done|destruct v; [by left|by right]|exact HR].
  - intros a'. rewrite <- (assoc_L (++)). apply HQ; [xlen Hx|done|by rewrite app_nil_r].
Qed.
Lemma proto_passes h nm g ps ws c v : item_ok (Proto h nm g ps ws c v) -> passes (Proto h nm g ps ws c v).
Proof.
  intros (Hfr & Hs & Hps & Hws & Hbl & Hc & Hc2 & Hv) pre post t n Q a Hx Hf Hg HQ. cbn [render1 item_node] in *. destruct n as [|n]; [unfold fuel in Hf; lia|]. eapply (none_passes (front h nm g ps ++ ws ++ c :: v)); [split_list Hx| | |done| |].
  - apply Forall_app. split; [by apply front_no_newline|]. apply Forall_app. split; [done|]. constructor; [by intros ->|done].
  - rewrite starts_front; [done|by destruct Hfr].
  - intros R a' HR. eapply (front_exact _ _ h nm g ps ws c (v ++ 10 :: post)); [split_list Hx|done..|intros _ _; exact HR|done].
  - intros a'. replace (pre ++ (front h nm g ps ++ ws ++ c :: v) ++ [10]) with (pre ++ front h nm g ps ++ ws ++ c :: v ++ [10]) by same_list. apply HQ; [xlen Hx|done|by rewrite app_nil_r].
Qed.
Lemma add_good t t' nd : good t -> src t' = src t -> src_len t' = src_len t -> nodes t' = nodes t -> zlen (nodes t) < cap_nodes t' -> good (add_node nd t').
Proof. intros [Hs Hl Hc] E1 E2 E3 Hlt. constructor; cbn; [congruence|congruence|]. rewrite E3. llia. Qed.
Lemma macro_passes g nm ps mid v rest : item_ok (Macro g nm ps mid v rest) -> passes (Macro g nm ps mid v rest).
Proof.
  intros Hok pre post t n Q a Hx Hf Hg HQ. pose proof Hok as (Hg0 & Htab & Hnm & _). cbn [render1] in *. destruct n as [|n]; [unfold fuel in Hf; lia|]. assert (Hx' : x = pre ++ macro g nm ps mid v rest ++ 10 :: post) by split_list Hx. eapply on_line; [exact Hx'|by apply macro_no_newline|done|].
  wstep. eapply define_at_exact; [exact Hx'|]. replace (is_def (macro g nm ps mid v rest)) with true by (destruct g as [|c g]; [done|]; apply Forall_cons in Htab as [Hc _]; unfold is_def, macro; cbn; rewrite Hc; done).
  wstep. unfold macro in Hx'. replace (zlen pre + 7) with (zlen (pre ++ define_word)) by (rewrite length_app; change (length define_word) with 7%nat; lia). destruct nm as [|c nm]; [done|]. destruct Hnm as [Hc Hnm]. eapply (scan_exact _ _ _ _ g (c :: nm ++ params ps ++ mid ++ v ++ rest ++ 10 :: post)); [split_list Hx'|done|unfold macro; xlen Hx'| |].
  { right. do 2 eexists. split; [done|]. unfold is_tab. apply orb_false_iff. split; apply Z.eqb_neq; by intros ->. }
  replace (zlen (pre ++ define_word) + zlen g) with (zlen (pre ++ define_word ++ g)) by llia. rewrite (proj2 (Z.ltb_lt _ _)) by (unfold macro; llia). wstep. wstep. eapply (at_exact _ _ _ c (nm ++ params ps ++ mid ++ v ++ rest ++ 10 :: post)); [split_list Hx'|]. wstep. rewrite Hc. cbn [negb]. wstep. apply room_exact; [done|]. intros t' a' E1 E2 E3 Hcap. cbn [fst snd negb].
  wstep. eapply macro_exact; [done|exact Hx'|exact Hok|by eapply pre_nul|]. intros nd Hnd. apply HQ; [xlen Hx|by eapply add_good|]. cbn [add_node nodes]. by rewrite E3, Hnd.
Qed.
Lemma fn_passes h nm g ps ws body : item_ok (Fn h nm g ps ws body) -> passes (Fn h nm g ps ws body).
Proof.
  intros (Hfr & Hs & Hws & Hb) pre post t n Q a Hx Hf Hg HQ. cbn [render1 item_node] in *. set (it := front h nm g ps ++ ws ++ 123 :: body ++ [125]) in *. pose proof Hfr as [_ _ Hnm _ _]. destruct n as [|n]; [unfold fuel in Hf; lia|].
  assert (Hst : starts is_id_start (it ++ post) = true) by (unfold it; rewrite <- (assoc_L (++)), starts_front; done). destruct (starts_cons _ _ Hst) as (c & tl & E & Hc). rewrite E in Hx. cbn [source_loop]. rewrite (proj2 (Z.ltb_lt (zlen pre) len)) by xlen Hx. cbn [negb]. wstep. apply scan_wp; [lia|lia|]. intros le Hle1 Hle2 _ Hstop.
  assert (zlen pre < le). { destruct (Z.le_gt_cases le (zlen pre)); [|lia]. assert (le = zlen pre) as -> by lia. destruct Hstop as (d & Hd & Hf'); [xlen Hx|]. rewrite Hx, rd_pre in Hd. injection Hd as <-. destruct (Z.eqb_spec c 10) as [->|]; [done|]. done. }
  pose (k := Z.to_nat (le - zlen pre)). assert (Ele : le = zlen (pre ++ take k (c :: tl))) by (rewrite length_app, length_take; pose proof (f_equal length Hx); rewrite length_app in *; unfold k; lia).
  rewrite Ele. wstep. eapply (define_at_exact _ _ _ _ (drop k (c :: tl))); [by rewrite take_drop|]. rewrite (not_def _ c tl eq_refl Hc k). rewrite <- Ele. wstep. eapply (at_exact _ _ _ c tl); [exact Hx|]. rewrite Hc, (proj2 (Z.ltb_lt _ _)) by done. cbn [andb negb].
  assert (Hx' : x = pre ++ front h nm g ps ++ ws ++ 123 :: body ++ 125 :: post) by (rewrite Hx, <- E; unfold it; same_list). wstep. eapply (fn_exact _ _ h nm g ps ws body post); [exact Hx'|done|done|done|done|]. wstep. apply room_exact; [done|]. intros t' a' E1 E2 E3 Hcap. cbn [fst snd negb].
  replace (pre ++ front h nm g ps ++ ws ++ 123 :: body ++ [125]) with (pre ++ it) by done. wstep. unfold fn_node. wstep. replace (pre ++ h ++ nm) with ((pre ++ h) ++ nm) by same_list. eapply (name_exact _ _ _ nm (g ++ (40 :: ps ++ [41]) ++ ws ++ 123 :: body ++ 125 :: post)); [unfold front in Hx'; split_list Hx'|by apply ident_chars|].
  wstep. eapply (line_exact _ _ pre); [exact Hx|by eapply pre_nul|done|]. wstep. replace (if zlen (pre ++ it) <? len then zlen (pre ++ it) else len) with (zlen (pre ++ it)) by (pose proof (f_equal length Hx) as Hl; rewrite <- E in Hl; destruct (Z.ltb_spec (zlen (pre ++ it)) len); llia).
  apply HQ; [assert (0 < zlen it) by (unfold it; llia); clearbody it; unfold fuel in *; llia|by eapply add_good|]. cbn [add_node nodes]. rewrite E3. do 3 f_equal; llia.
Qed.

Lemma passes_ok it : item_ok it -> passes it.
Proof. destruct it; [apply line_passes|apply decl_passes|apply proto_passes|apply macro_passes|apply fn_passes]. Qed.

(** The nodes of a source are those of its items. *)
Lemma doc_exact d : forall pre t n (Q : Z * pm_metal_edit_tree -> A -> Prop) a, x = pre ++ render d -> Forall item_ok d -> fuel x n pre -> good t ->
  (forall t' a', good t' -> nodes t' = nodes t ++ nodes_of pre d -> Q (PM_METAL_EDIT_OK, t') a') -> wp (source_loop grow n s len (zlen pre) t) Q a.
Proof.
  induction d as [|it d IH]; intros pre t n Q a Hx Hok Hf Hg HQ.
  - destruct n as [|n]; [unfold fuel in Hf; lia|]. cbn [source_loop]. rewrite (proj2 (Z.ltb_ge _ _)) by (rewrite Hx; cbn; llia). cbn [negb]. wstep. apply HQ; [done|]. by rewrite app_nil_r.
  - apply Forall_cons in Hok as [Hit Hok]. eapply (passes_ok it Hit pre (render d)); [exact Hx|done|done|]. intros n' t' a' Hn' Hg' Hnd. apply IH; [rewrite Hx; cbn; same_list|done|done|done|]. intros t2 a2 Hg2 Hnd2. apply HQ; [done|]. by rewrite Hnd2, Hnd, <- (assoc_L (++)).
Qed.
End parse.
End EditDoc.
