(* ===== verification/EditSpec.v ===== *)
(** * Editing a document

    The editor against its contract: an edit of a source made of items is the
    edit of one item, every byte outside it stays, and the result is again a
    source that the parser reads as its items. *)
From stdpp Require Import strings.
From S2P Require Import Prelude Fat Fs FsSpec Edit EditSafe EditText EditDoc.

Module EditSpec.
Import Store Edit EditSafe EditText EditDoc.
Local Open Scope metal_scope.

(** ** Edits of items *)

(** Whether the edit is of this item, and what becomes of it: a macro without a
    value is left alone. *)
Definition edit_item (e : edit) (it : item) : option (option item) :=
  match e, it with
  | Set_body nm body, Fn h n g ps ws _ => if bool_decide (take 95 n = nm) then Some (Some (Fn h n g ps ws body)) else None
  | Set_value nm v', Macro g n ps mid v rest => if bool_decide (take 95 n = nm) then Some (if bool_decide (v = []) then None else Some (Macro g n ps mid v' rest)) else None
  | _, _ => None
  end.
Fixpoint edit_doc (e : edit) (d : list item) : Z * list item :=
  match d with
  | [] => (PM_METAL_EDIT_ERR_NOT_FOUND, [])
  | it :: d => match edit_item e it with
      | Some (Some it') => (PM_METAL_EDIT_OK, it' :: d)
      | Some None => (PM_METAL_EDIT_ERR_ARGS, it :: d)
      | None => let '(rc, d') := edit_doc e d in (rc, it :: d')
      end
  end.
(** The editor keeps sources below its limit. *)
Definition edit_within (limit : Z) (e : edit) (d : list item) : Z * list item :=
  let '(rc, d') := edit_doc e d in if (rc =? PM_METAL_EDIT_OK) && (limit <=? zlen (render d')) then (PM_METAL_EDIT_ERR_NOMEM, d) else (rc, d').
Fixpoint edits_within (limit : Z) (es : list edit) (d : list item) : list Z * list item :=
  match es with [] => ([], d) | e :: es => let '(rc, d1) := edit_within limit e d in let '(rcs, d2) := edits_within limit es d1 in (rc :: rcs, d2) end.

(** A new body is balanced, a new value is one token. *)
Definition edit_ok (e : edit) : Prop :=
  Forall (fun c => c <> 0) (text_of e) /\ match e with Set_body _ b => braces b | Set_value _ v => v <> [] /\ Forall (fun c => is_tab c = false /\ c <> 10) v end.
Definition no_nul (d : list item) : Prop := Forall (fun c => c <> 0) (render d).

Lemma render_app a b : render (a ++ b) = render a ++ render b.
Proof. unfold render. by rewrite fmap_app, join_app. Qed.
Lemma render_cons it d : render (it :: d) = render1 it ++ render d.
Proof. done. Qed.

Definition kind_of (e : edit) := match e with Set_body _ _ => EDIT_FN | Set_value _ _ => EDIT_DEFINE end.
Definition name_in (e : edit) := match e with Set_body nm _ => nm | Set_value nm _ => nm end.
Lemma node_hit e off ln it l : locate_in (kind_of e) (name_in e) (item_node off ln it ++ l) =
  match edit_item e it with Some _ => head (item_node off ln it) | None => locate_in (kind_of e) (name_in e) l end.
Proof.
  destruct e, it; try done; cbn [item_node app locate_in kind name kind_of name_in edit_item]; try (by rewrite bool_decide_eq_false_2 by done); rewrite (bool_decide_eq_true_2 (_ = _)) by done; cbn [andb]; by destruct (bool_decide _).
Qed.
Lemma edit_node e it o off ln : edit_item e it = Some o -> exists n, item_node off ln it = [n].
Proof. destruct e, it; try done; cbn [item_node]; by eexists. Qed.

(** The node that the editor finds is that of the item it is to edit. *)
Lemma locate_doc e d : forall pre,
  match locate_in (kind_of e) (name_in e) (nodes_of pre d) with
  | None => edit_doc e d = (PM_METAL_EDIT_ERR_NOT_FOUND, d)
  | Some n => exists d1 it d2 o, d = d1 ++ it :: d2 /\ item_node (zlen (pre ++ render d1)) (1 + newlines (pre ++ render d1)) it = [n] /\ edit_item e it = Some o /\
      edit_doc e d = match o with Some it' => (PM_METAL_EDIT_OK, d1 ++ it' :: d2) | None => (PM_METAL_EDIT_ERR_ARGS, d) end
  end.
Proof.
  induction d as [|it d IH]; intros pre; [done|]. cbn [nodes_of edit_doc]. rewrite node_hit. destruct (edit_item e it) as [o|] eqn:Eo.
  - destruct (edit_node e it o (zlen pre) (1 + newlines pre) Eo) as [n En]. rewrite En. cbn [head]. exists [], it, d, o. rewrite app_nil_r. by destruct o.
  - specialize (IH (pre ++ render1 it)). destruct (locate_in _ _ _) as [n|].
    + destruct IH as (d1 & it1 & d2 & o & -> & Hn & Ho & Hd). exists (it :: d1), it1, d2, o. rewrite render_cons, (assoc_L (++)). split_and!; try done. rewrite Hd. by destruct o.
    + by rewrite IH.
Qed.

(** An edited item is one. *)
Lemma edit_item_ok e it it' : edit_ok e -> item_ok it -> edit_item e it = Some (Some it') -> item_ok it'.
Proof.
  intros [_ He] Hit Ho. destruct e as [nm b|nm w], it; try done; cbn in Ho; destruct (bool_decide _); try done.
  - injection Ho as <-. destruct Hit as (H1 & H2 & H3 & H4). done.
  - destruct (bool_decide_reflect (v = [])); [done|]. injection Ho as <-. destruct He as [He1 He2]. destruct Hit as (H1 & H2 & H3 & H4 & H5 & H6 & H7 & H8). split_and!; try done; [destruct H7 as [?|[? ?]]; [by left|by right]|]. destruct ps; auto.
Qed.

(** ** The editor *)

Section run.
Context {A : Type} `{!Arena A, !ArenaLaws A, !ArenaAmple A}.
Variables (limit : Z) (grow : Z -> A -> A * option Z).
Hypothesis Hlimit : limit <= 16777216.
Hypothesis Hgrow : grows grow.

Lemma parse_doc d junk (Q : Z * option pm_metal_edit_tree -> A -> Prop) a : Forall item_ok d -> no_nul d -> render d <> [] -> zlen (render d) <= limit ->
  (forall t a', good (render d) junk t -> nodes t = nodes_of [] d -> Q (PM_METAL_EDIT_OK, Some t) a') -> wp (pm_metal_edit_parse_c limit grow true true (Some (render d ++ junk)) (zlen (render d))) Q a.
Proof.
  intros Hok Hn Hne Hlen HQ. unfold pm_metal_edit_parse_c. cbn [negb orb]. assert (zlen (render d) <> 0) by (destruct (render d); [done|cbn; lia]). wstep. rewrite (proj2 (Z.eqb_neq _ _)) by done. cbn [negb]. wstep. rewrite (proj2 (Z.eqb_neq _ _)), (proj2 (Z.ltb_ge _ _)) by done. cbn [orb]. wstep.
  apply (doc_exact grow Hgrow (render d) junk ltac:(lia) Hn d []); [done|done|unfold fuel, rounds; cbn [length]; lia|by constructor|]. intros t a' Hg Hnd. wstep. by apply HQ.
Qed.

Lemma splice_exact x junk p k ins (Q : Z * option (list Z * Z) -> A -> Prop) a : 0 <= p -> 0 <= k -> p + k <= zlen x ->
  (forall a', Q (if limit <=? zlen x - k + zlen ins then (PM_METAL_EDIT_ERR_NOMEM, None) else (PM_METAL_EDIT_OK, Some ((take (Z.to_nat p) x ++ ins ++ drop (Z.to_nat (p + k)) x) ++ [0], zlen x - k + zlen ins))) a') ->
  wp (splice limit (x ++ junk) (zlen x) p k ins) Q a.
Proof.
  intros Hp Hk Hpk HQ. apply splice_wp; [done..| |].
  - intros [Hl|(n & a0 & Hno)]; [intros a'; specialize (HQ a'); by rewrite (proj2 (Z.leb_le _ _)) in HQ|]. destruct (ample n a0) as [b Hb]. congruence.
  - intros Hl a'. specialize (HQ a'). by rewrite (proj2 (Z.leb_gt _ _)) in HQ.
Qed.

(** What the editor hands back for an edited document. *)
Definition reply (r : Z * list item) : Z * option (list Z * Z) := if r.1 =? PM_METAL_EDIT_OK then (PM_METAL_EDIT_OK, Some (render r.2 ++ [0], zlen (render r.2))) else (r.1, None).

Lemma splice_doc pre m post junk ins (r : list item) d (Q : Z * option (list Z * Z) -> A -> Prop) a p k : p = zlen pre -> k = zlen m -> render d = pre ++ m ++ post -> render r = pre ++ ins ++ post ->
  (forall a', Q (reply (if limit <=? zlen (render r) then (PM_METAL_EDIT_ERR_NOMEM, d) else (PM_METAL_EDIT_OK, r))) a') -> wp (splice limit (render d ++ junk) (zlen (render d)) p k ins) Q a.
Proof.
  intros -> -> Hd Hr HQ. apply splice_exact; [lia|lia|rewrite Hd; llia|]. intros a'. specialize (HQ a'). replace (zlen (render d) - zlen m + zlen ins) with (zlen (render r)) by (rewrite Hd, Hr; llia). destruct (limit <=? zlen (render r)); [exact HQ|]. unfold reply in HQ. cbn [fst snd] in HQ. change (PM_METAL_EDIT_OK =? PM_METAL_EDIT_OK) with true in HQ. cbv iota in HQ.
  replace (take _ (render d) ++ ins ++ drop _ (render d)) with (render r); [exact HQ|]. rewrite Hd, Hr, Nat2Z.id, take_app_length. f_equal. f_equal. replace (Z.to_nat (zlen pre + zlen m)) with (length (pre ++ m)) by (rewrite length_app; lia). by rewrite (assoc_L (++)), drop_app_length.
Qed.

Lemma apply_doc e d junk t (Q : Z * option (list Z * Z) -> A -> Prop) a : Forall item_ok d -> zlen (render d) <= limit -> good (render d) junk t -> nodes t = nodes_of [] d ->
  (forall a', Q (reply (edit_within limit e d)) a') -> wp (apply_edit limit e t) Q a.
Proof.
  intros Hok Hlen [Es El _] Hnd HQ. pose proof (locate_doc e d []) as HL. rewrite <- Hnd in HL. unfold edit_within in HQ. destruct (locate_in _ _ _) as [n|] eqn:En; cycle 1.
  { rewrite HL in HQ. destruct e; cbn [apply_edit kind_of name_in] in *; unfold pm_metal_edit_set_fn_body, pm_metal_edit_set_define, pm_metal_edit_locate; rewrite En; wstep; apply HQ. }
  destruct HL as (d1 & it & d2 & o & Ed & Hn & Ho & He). rewrite He in HQ. cbn [app] in Hn. assert (Er : render d = render d1 ++ render1 it ++ render d2) by by rewrite Ed, render_app, render_cons.
  destruct e as [nm b|nm w], it as [ | | |g n' ps mid v rest|h n' g ps ws body]; try done; cbn in Ho; (destruct (bool_decide _); [|done]); injection Ho as <-; cbn [item_node] in Hn; injection Hn as <-; cbn [apply_edit kind_of name_in] in *.
  - unfold pm_metal_edit_set_fn_body, pm_metal_edit_locate. rewrite En, Es, El. cbn [body_off span_end render1] in *. remember (front h n' g ps) as f eqn:Ef. assert (Er1 : render d = (render d1 ++ f ++ ws) ++ 123 :: body ++ [125] ++ render d2) by (rewrite Er; same_list). assert (Er2 : render d = (render d1 ++ f ++ ws ++ 123 :: body) ++ 125 :: render d2) by (rewrite Er; same_list).
    replace (zlen (render d1) + zlen (f ++ ws)) with (zlen (render d1 ++ f ++ ws)) by llia. replace (zlen (render d1) + zlen (f ++ ws ++ 123 :: body ++ [125])) with (zlen (render d1 ++ f ++ ws ++ 123 :: body) + 1) by llia. cbv zeta. pose proof (f_equal length Er1) as L1. pose proof (f_equal length Er2) as L2.
    rewrite (proj2 (Z.leb_gt _ (zlen (render d1 ++ f ++ ws)))) by llia. wstep. wstep. eapply at_exact; [exact Er1|]. wstep. change (123 =? 123) with true. cbn [negb]. replace (zlen (render d1 ++ f ++ ws ++ 123 :: body) + 1 - 1) with (zlen (render d1 ++ f ++ ws ++ 123 :: body)) by lia. rewrite u32_small by llia. rewrite (proj2 (Z.leb_gt _ (zlen (render d1 ++ f ++ ws ++ 123 :: body)))) by llia.
    wstep. wstep. eapply at_exact; [exact Er2|]. wstep. change (125 =? 125) with true. cbn [negb]. rewrite u32_small by llia. eapply (splice_doc (render d1 ++ f ++ ws ++ [123]) body ([125] ++ render d2) junk b (d1 ++ Fn h n' g ps ws b :: d2)); [llia|llia|rewrite Er; same_list|rewrite render_app, render_cons; cbn [render1]; rewrite <- Ef; same_list|]. intros a'. apply HQ.
  - unfold pm_metal_edit_set_define, pm_metal_edit_locate. rewrite En, Es, El. cbn [value_off value_len render1] in *. destruct v as [|c v].
    { change (zlen (@nil Z) =? 0) with true. cbv iota. wstep. apply HQ. }
    rewrite (proj2 (Z.eqb_neq _ _)) by llia. unfold macro in *. eapply (splice_doc (render d1 ++ define_word ++ g ++ n' ++ params ps ++ mid) (c :: v) (rest ++ [10] ++ render d2) junk w (d1 ++ Macro g n' ps mid w rest :: d2)); [rewrite !length_app; change (length define_word) with 7%nat; lia|done|rewrite Er; same_list|rewrite render_app, render_cons; cbn [render1]; unfold macro; same_list|]. intros a'. apply HQ.
Qed.

Lemma run_edit_doc e d junk (Q : Z * option (list Z * Z) -> A -> Prop) a : Forall item_ok d -> no_nul d -> render d <> [] -> zlen (render d) <= limit -> (forall a', Q (reply (edit_within limit e d)) a') -> wp (run_edit limit grow e (render d ++ junk) (zlen (render d))) Q a.
Proof.
  intros Hok Hn Hne Hlen HQ. unfold run_edit. wstep. apply parse_doc; [done..|]. intros t a' Hg Hnd. change (PM_METAL_EDIT_OK =? PM_METAL_EDIT_OK) with true. cbv iota. by eapply apply_doc.
Qed.

(** ** Edits one after the other *)

Lemma render1_some it : render1 it <> [].
Proof. destruct it; intros E; apply (f_equal length) in E; cbn [render1] in E; llia. Qed.
Lemma render_some d : d <> [] -> render d <> [].
Proof. destruct d as [|it d]; [done|]. intros _. rewrite render_cons. intros E. apply app_eq_nil in E as [E _]. by apply (render1_some it). Qed.
Lemma edit_item_nul e it it' : edit_ok e -> edit_item e it = Some (Some it') -> Forall (fun c => c <> 0) (render1 it) -> Forall (fun c => c <> 0) (render1 it').
Proof.
  intros [He _] Ho. destruct e as [nm b|nm w], it; try done; cbn in Ho; destruct (bool_decide _); try done; cbn [render1]; unfold macro.
  - injection Ho as <-. cbn [render1]. rewrite !Forall_app, !Forall_cons, !Forall_app. cbn in He. tauto.
  - destruct (bool_decide _); [done|]. injection Ho as <-. cbn [render1]. unfold macro. rewrite !Forall_app. cbn in He. tauto.
Qed.
Lemma edit_doc_ok e d : edit_ok e -> Forall item_ok d -> no_nul d -> d <> [] -> let d' := (edit_doc e d).2 in Forall item_ok d' /\ no_nul d' /\ d' <> [].
Proof.
  intros He Hok Hn Hd. pose proof (locate_doc e d []) as HL. destruct (locate_in _ _ _) as [n|]; [|by rewrite HL]. destruct HL as (d1 & it & d2 & o & -> & _ & Ho & ->). destruct o as [it'|]; cbn [snd]; [|done]. unfold no_nul in *. rewrite !render_app, !render_cons, !Forall_app in *. rewrite Forall_cons in *. destruct Hok as (? & ? & ?), Hn as (? & ? & ?).
  split_and!; try done; [by eapply edit_item_ok|by eapply edit_item_nul|by destruct d1].
Qed.
Lemma edit_within_ok e d : edit_ok e -> Forall item_ok d -> no_nul d -> d <> [] -> zlen (render d) <= limit -> let r := edit_within limit e d in Forall item_ok r.2 /\ no_nul r.2 /\ r.2 <> [] /\ zlen (render r.2) <= limit /\ (r.1 <> PM_METAL_EDIT_OK -> r.2 = d).
Proof.
  intros He Hok Hn Hd Hlen. pose proof (edit_doc_ok e d He Hok Hn Hd) as (H1 & H2 & H3). pose proof (locate_doc e d []) as HL. unfold edit_within. destruct (edit_doc e d) as [rc d'] eqn:E. cbn [snd] in *.
  assert (rc <> PM_METAL_EDIT_OK -> d' = d) as Hsame. { destruct (locate_in _ _ _) as [n|]; [|by injection HL as _ ->]. destruct HL as (d1 & it & d2 & [it'|] & -> & _ & _ & [= -> ->]); done. }
  destruct (Z.eqb_spec rc PM_METAL_EDIT_OK) as [->|Hne]; cbn [andb]; [|rewrite (Hsame Hne); by split_and!]. destruct (Z.leb_spec limit (zlen (render d'))); cbn [fst snd]; split_and!; try done; lia.
Qed.

(** A source, and each reply that is one. *)
Fixpoint run_edits (es : list edit) (b : list Z * Z) : M A (list Z * (list Z * Z)) :=
  match es with [] => ret ([], b) | e :: es => r <- run_edit limit grow e b.1 b.2 ;; p <- run_edits es (default b r.2) ;; ret (r.1 :: p.1, p.2) end.
Lemma run_edits_wp es : forall d junk (Q : list Z * (list Z * Z) -> A -> Prop) a, Forall edit_ok es -> Forall item_ok d -> no_nul d -> d <> [] -> zlen (render d) <= limit ->
  (forall junk' a', let r := edits_within limit es d in Forall item_ok r.2 -> no_nul r.2 -> r.2 <> [] -> zlen (render r.2) <= limit -> Q (r.1, (render r.2 ++ junk', zlen (render r.2))) a') -> wp (run_edits es (render d ++ junk, zlen (render d))) Q a.
Proof.
  induction es as [|e es IH]; intros d junk Q a Hes Hok Hn Hd Hlen HQ; cbn [run_edits]; [wstep; by apply HQ|]. apply Forall_cons in Hes as [He Hes]. pose proof (edit_within_ok e d He Hok Hn Hd Hlen) as (K1 & K2 & K3 & K4 & K5). wstep. cbn [fst snd].
  apply run_edit_doc; [done|done|by apply render_some|done|]. intros a'. wstep. cbn [edits_within] in HQ. unfold reply. destruct (edit_within limit e d) as [rc d1]. cbn [fst snd] in *.
  assert (Hgo : forall rc' junk' a2, rc' = rc -> wp (run_edits es (render d1 ++ junk', zlen (render d1))) (fun p s' => wp (ret (rc' :: p.1, p.2)) Q s') a2).
  { intros rc' junk' a2 ->. apply IH; [done..|]. intros j2 a3. specialize (HQ j2 a3). destruct (edits_within limit es d1) as [rcs d2]. cbn [fst snd] in *. intros. wstep. by apply HQ. }
  destruct (Z.eqb_spec rc PM_METAL_EDIT_OK) as [->|Hne]; cbn [fst snd default]; [by apply Hgo|]. rewrite (K5 Hne) in *. by apply Hgo.
Qed.
End run.


(** ** The gates before a write *)

Section write.
Context {A : Type} `{!Arena A, !ArenaLaws A}.
Variables (arena_create : list Z -> bool) (object_compile note_has : list Z -> Z) (mem_free : list Z -> A -> A) (span : Z) (s_arena : bool).
Abbreviation abs := (FsSpec.abs (A := A)).
Abbreviation fs_ok := (FsSpec.fs_ok (A := A)).

Lemma typecheck_wp x src (s : Fs.fs (A := A)) : 0 <= span -> fs_ok s ->
  wp (pm_metal_edit_typecheck_c arena_create object_compile mem_free span s_arena (Some (x :: src))) (fun rc s' => fs_ok s' /\ Fs.s_next_id s' = Fs.s_next_id s /\ abs s' = abs s /\
    (rc = PM_METAL_EDIT_OK /\ object_compile (x :: src) = 0 \/ rc = PM_METAL_EDIT_ERR_TYPECHECK /\ object_compile (x :: src) <> 0 \/ rc = PM_METAL_EDIT_ERR_NOMEM)) s.
Proof.
  intros Hspan Hs. unfold pm_metal_edit_typecheck_c. destruct s_arena; cbn [negb]; [|wstep; by auto 10]. wstep. apply FsSpec.wp_fs_alloc; [done|]. intros f r _. destruct r as [b|]; [|wstep; split; [by apply FsSpec.with_fat_ok|by auto 10]].
  wstep. unfold wp at 1, Fs.on_fat. cbn. split; [by destruct Hs|]. split; [done|]. split; [done|]. destruct (arena_create b); cbn [negb]; [|by auto 10]. destruct (Z.eqb_spec (object_compile (x :: src)) 0); cbn [negb]; auto 10.
Qed.
End write.

(** C16: Nothing is written back but what has its note and compiles: the file then
    holds the source and the other files are as they were.  A refusal leaves all
    files alone, except that a source for which there is no room has by then
    cost the file it was to replace. *)
Theorem write_back_gated {A : Type} `{!Arena A, !ArenaLaws A} (arena_create : list Z -> bool) (object_compile note_has : list Z -> Z) (mem_free : list Z -> A -> A) (span : Z) (s_arena : bool)
  (g p src : list Z) (s : Fs.fs (A := A)) (Hspan : 0 <= span) (Hs : FsSpec.fs_ok s) (Hid : Fs.s_next_id s < 2147483648) (Hp : p <> []) (Hsrc : src <> []) (Hlen : zlen src <= U32_MAX) :
  wp (pm_metal_edit_write_back arena_create object_compile note_has mem_free span s_arena (Some g) (Some p) (Some src)) (fun rc s' => FsSpec.fs_ok s' /\
    (rc = PM_METAL_EDIT_OK /\ note_has g = 1 /\ object_compile src = 0 /\ FsSpec.abs s' = <[p := src]> (FsSpec.abs s) \/
     rc = PM_METAL_EDIT_ERR_NOTE /\ note_has g <> 1 /\ s' = s \/
     rc = PM_METAL_EDIT_ERR_TYPECHECK /\ object_compile src <> 0 /\ FsSpec.abs s' = FsSpec.abs s \/
     rc = PM_METAL_EDIT_ERR_NOMEM /\ FsSpec.abs s' = FsSpec.abs s \/
     rc = PM_METAL_EDIT_ERR_IO /\ note_has g = 1 /\ object_compile src = 0 /\ FsSpec.abs s' = delete p (FsSpec.abs s))) s.
Proof.
  destruct src as [|x src]; [done|]. unfold pm_metal_edit_write_back. destruct (Z.eqb_spec (note_has g) 1) as [Hn|Hn]; cbn [negb]; [|wstep; by auto 10]. wstep. eapply wp_mono; [by apply (typecheck_wp arena_create object_compile mem_free span s_arena x src s)|].
  intros rc s1 (Hs1 & Hx1 & Ha1 & Hrc). destruct (Z.eqb_spec rc PM_METAL_EDIT_OK) as [->|Hne]; cbn [negb]; [|wstep; split; [done|]; destruct Hrc as [[? _]|[[-> ?]| ->]]; auto 10; done]. destruct Hrc as [[_ Hc]|[[? _]|?]]; [|done..].
  wstep. eapply wp_mono; [by apply FsSpec.fs_drop_ok|]. intros rd s2 (Hs2 & Hx2 & Hd). assert (Ha2 : FsSpec.abs s2 = delete p (FsSpec.abs s)).
  { rewrite <- Ha1. destruct Hd as [(_ & q & d & [= <-] & _ & ->)|(_ & -> & Hnone)]; [done|]. symmetry. apply delete_id. by apply Hnone. }
  rewrite u32_small by lia. wstep. eapply wp_mono; [apply (FsSpec.add_ok (Some p) (x :: src) (zlen (x :: src))); [done|lia|lia|lia]|]. intros ra s3 (Hs3 & _ & Had). wstep. split; [done|]. rewrite Nat2Z.id, firstn_all in Had. destruct Had as [[-> ->]|(Hra & q & [= <-] & _ & ->)].
  - change (-1 <? 0) with true. cbv iota. rewrite Ha2. auto 10.
  - rewrite (proj2 (Z.ltb_ge _ _)) by done. left. split_and!; try done. rewrite Ha2. apply insert_delete_eq.
Qed.

(** ** Examples *)

Definition c_text (t : string) : list Z := (fun c => Z.of_nat (Ascii.nat_of_ascii c)) <$> String.list_ascii_of_string t.
#[local] Existing Instances zero_arena zero_arena_laws zero_arena_ample FatDisk.small_disk.
Definition ample_nodes (c : Z) (a : unit) : unit * option Z := (a, Some (c + 8)).
Ltac letters := repeat match goal with |- context [c_text ?t] => let l := eval vm_compute in (c_text t) in change (c_text t) with l end.
Ltac chars := letters; repeat apply Forall_cons_2; try apply Forall_nil_2; (done || (unfold plain; lia)).
Ltac balanced := letters; repeat first [apply pa_char; [done..|unfold quote; lia|] | apply br_char; [done..|unfold quote; lia|]]; try first [apply pa_nil | apply br_nil].
Definition small : list item :=
  [Line (c_text "/* one */"); Macro (c_text " ") (c_text "N") None (c_text " ") (c_text "64") (c_text " // bytes");
   Fn (c_text "static int ") (c_text "f") [] (c_text "int a") (c_text " ") (c_text " return '}'; "); Line []].
Definition three : list edit := [Set_value (c_text "N") (c_text "128"); Set_body (c_text "g") []; Set_body (c_text "f") (c_text " return N; ")].
Lemma small_ok : Forall item_ok small.
Proof.
  repeat apply Forall_cons_2; [..|apply Forall_nil_2]; cbn [item_ok].
  - split_and!; [chars|done|done].
  - split_and!; [done|chars|split; [done|chars]|chars|chars|chars|right; done|done].
  - split_and!; [|done|chars|].
    + constructor; [chars|right; left; by eexists (c_text "static int"), 32|split; [done|chars]|chars|balanced].
    + balanced. apply (br_lit 39 [125]); [by right|apply lit_char; [done|done|constructor]|balanced].
  - split_and!; [chars|done|done].
Qed.

Definition target := c_text "edit".
Definition file := c_text "/src/a.c".
Definition new_text := c_text "int x;".
Definition compiles (src : list Z) : Z := if bool_decide (src = new_text) then 0 else -1.
Definition noted (g : list Z) : Z := if bool_decide (g = target) then 1 else 0.
Definition give_back (b : list Z) (a : unit) : unit := a.
Definition seat : Fs.fs (A := unit) := Fs.FsSt true [Fs.File file (c_text "int y;") 6 0 true] 1 FatDisk.card0.
Lemma seat_ok : FsSpec.fs_ok seat.
Proof.
  constructor; [done| |done]. split; [by apply NoDup_singleton|]. apply Forall_singleton. split; [done|]. split; cbn; lia.
Qed.
Lemma write_back_gated_witness :
  let src := new_text in
  wp (pm_metal_edit_write_back (fun _ => true) compiles noted give_back 64 true (Some target) (Some file) (Some src)) (fun rc s' => FsSpec.fs_ok s' /\
    (rc = PM_METAL_EDIT_OK /\ noted target = 1 /\ compiles src = 0 /\ FsSpec.abs s' = <[file := src]> (FsSpec.abs seat) \/
     rc = PM_METAL_EDIT_ERR_NOTE /\ noted target <> 1 /\ s' = seat \/
     rc = PM_METAL_EDIT_ERR_TYPECHECK /\ compiles src <> 0 /\ FsSpec.abs s' = FsSpec.abs seat \/
     rc = PM_METAL_EDIT_ERR_NOMEM /\ FsSpec.abs s' = FsSpec.abs seat \/
     rc = PM_METAL_EDIT_ERR_IO /\ noted target = 1 /\ compiles src = 0 /\ FsSpec.abs s' = delete file (FsSpec.abs seat))) seat.
Proof. apply (write_back_gated (fun _ => true) compiles noted give_back 64 true target file new_text seat); [done|apply seat_ok|done|done|done|done]. Defined.

(** *** What modelling showed *)

Definition out_of (o : outcome unit (Z * option (list Z * Z))) : option (Z * list Z) := match o with Done (rc, Some (b, n)) _ => Some (rc, take (Z.to_nat n) b) | Done (rc, None) _ => Some (rc, []) | _ => None end.
Definition edited (e : edit) (t : string) : option (Z * list Z) := out_of (run_edit 1000 ample_nodes e (c_text t) (zlen (c_text t)) tt).

(** A macro whose parenthesis is not closed has its value at the front of the
    file: the edit overwrites the first word of another line. *)
Example unclosed_macro : edited (Set_value (c_text "F") (c_text "9")) "#define F(x" = Some (0, c_text "9 F(x").
Proof. vm_compute. reflexivity. Qed.
(** A value right behind the name: the new one becomes part of the name. *)
Example glued_value : edited (Set_value (c_text "A") (c_text "5")) "#define A'x'" = Some (0, c_text "#define A5").
Proof. vm_compute. reflexivity. Qed.
(** The value of a function-like macro is edited. *)
Example macro_value : edited (Set_value (c_text "F") (c_text "5")) "#define F(x) x" = Some (0, c_text "#define F(x) 5").
Proof. vm_compute. reflexivity. Qed.
(** The scan of a header goes on at the slash that ends a comment: before a star
    it opens another one, and the function is not found. *)
Example comment_before_star : edited (Set_body (c_text "f") []) "int /* own */*f(void) {}" = Some (PM_METAL_EDIT_ERR_NOT_FOUND, []) /\ edited (Set_body (c_text "f") []) "int /* own */ *f(void) {}" = Some (0, c_text "int /* own */ *f(void) {}").
Proof. split; vm_compute; reflexivity. Qed.
(** A quote in a comment between the parameters hides the function. *)
Example quote_in_comment : edited (Set_body (c_text "f") []) "int f(int a, // it's
 int b) {}" = Some (PM_METAL_EDIT_ERR_NOT_FOUND, []).
Proof. vm_compute. reflexivity. Qed.

(** An arena with so many bytes left. *)
Definition small_arena : Arena Z := {| mem_alloc n a := if n <=? a then (a - n, Some (repeat 0 (Z.to_nat n))) else (a, None) |}.
Definition tight : Fs.fs (A := Z) := Fs.FsSt true [Fs.File file (c_text "int y;") 6 0 true] 1 (Fat.FatSt 50 true [] []).
(** No room for the new source: the old one is gone as well. *)
Example write_back_loses_file : match pm_metal_edit_write_back (Arena0 := small_arena) (fun _ => true) (fun _ => 0) (fun _ => 1) (fun b a => a + zlen b) 40 true (Some target) (Some file) (Some new_text) tight with
  | Done rc s' => rc = PM_METAL_EDIT_ERR_IO /\ FsSpec.abs tight !! file = Some (c_text "int y;") /\ FsSpec.abs s' !! file = None | _ => False end.
Proof. vm_compute. by split_and!. Qed.
End EditSpec.
