(* ===== verification/Build.v ===== *)
(** * The build card: manifests and their order

    src/.../metal/build/__impl__.c: the lexer and parser of __pmm__.toml and
    [pm_metal_build_graph_resolve].  A lexer position is the list of the bytes
    from [p] to [end] with the line number, so the tests [lx.p < lx.end] are
    matches on it; memory comes from the arena of Store, and what [err_set]
    leaves in the caller's buffer is the line and message it is given.  The
    returns on null arguments are left out. *)
From stdpp Require Import strings.
From S2P Require Import Prelude.

Module Build.
Import Store.
Local Open Scope metal_scope.

(** ** Constants and data *)

Definition BUILD_OK := 0.
Definition ERR_PARSE := -1.
Definition ERR_CYCLE := -2.
Definition ERR_MISSING_DEP := -3.
Definition ERR_NOMEM := -4.
Definition STR_MAX := 128.
Definition IMPL_MAX := 8.

(** Strings are C strings: the bytes before the NUL. *)
Record pm_metal_build_unit := Unit {
  fqn : list Z; impl : list Z; version : list Z;
  sources : list (list Z); include_dirs : list (list Z); defines : list (list Z); depends : list (list Z);
}.
Definition zero_unit : pm_metal_build_unit := Unit [] [] [] [] [] [] [].

Definition msg := String.string.
Definition err := option (Z * msg).

(** ** Lexer *)

Record lex := Lex { p : list Z; line : Z }.

Definition lex_peek (lx : lex) : Z := default 0 (head (p lx)).

(** [comment] inside the loop that skips a comment. *)
Fixpoint skip_ws (comment : bool) (s : list Z) (line : Z) : lex :=
  match s with
  | [] => Lex [] line
  | c :: t =>
    if comment && negb (c =? 10) then skip_ws true t line
    else if (c =? 32) || (c =? 9) || (c =? 13) then skip_ws false t line
    else if c =? 10 then skip_ws false t (line + 1)
    else if c =? 35 then skip_ws true t line
    else Lex s line
  end.
Definition lex_skip_ws (lx : lex) : lex := skip_ws false (p lx) (line lx).

(** The rest of the line is skipped up to its newline, or to a [#] as well. *)
Fixpoint to_eol (hash : bool) (s : list Z) : list Z * list Z :=
  match s with
  | [] => ([], [])
  | c :: t => if (c =? 10) || (hash && (c =? 35)) then ([], s) else let '(a, r) := to_eol hash t in (c :: a, r)
  end.

Definition expect (lx : lex) (c : Z) : option lex :=
  match p lx with
  | d :: t => if d =? c then Some (Lex t (line lx)) else None
  | [] => None
  end.

Definition escapes (d : Z) : bool := (d =? 34) || (d =? 92).

(** The measuring loop of [parse_string]: the bytes before the closing quote,
    their length once unescaped, and what follows from the quote on; [None]
    at a newline or the end. *)
Fixpoint scan_string (s : list Z) : option (list Z * Z * list Z) :=
  match s with
  | [] => None
  | c :: t =>
    if c =? 34 then Some ([], 0, s)
    else if c =? 10 then None
    else
      match t with
      | d :: t' =>
        if (c =? 92) && escapes d then '(raw, n, r) ← scan_string t'; Some (c :: d :: raw, n + 1, r)
        else '(raw, n, r) ← scan_string t; Some (c :: raw, n + 1, r)
      | [] => None
      end
  end.

(** The copying loop. *)
Fixpoint unescape (raw : list Z) : list Z :=
  match raw with
  | [] => []
  | c :: t =>
    match t with
    | d :: t' => if (c =? 92) && escapes d then d :: unescape t' else c :: unescape t
    | [] => [c]
    end
  end.

Section arena.
Context {A : Type} `{!Arena A}.

Definition alloc (n : Z) : M A (option (list Z)) := fun a => let '(a', r) := mem_alloc n a in Done r a'.

(** A C string of [src] in [n + 1] fresh bytes; [None] is NULL. *)
Definition dup_str (src : list Z) (n : Z) : M A (option (list Z)) :=
  d <- alloc (n + 1);;
  match d with
  | None => ret None
  | Some d => b <- chk (blit d 0 (src ++ [0]));; ret (Some (cstr b))
  end.

(** The position moves past the closing quote even when there is no memory. *)
Definition parse_string (lx : lex) : M A (option (list Z) * lex) :=
  match scan_string (p lx) with
  | None => ret (None, lx)
  | Some (raw, n, r) =>
    out <- dup_str (unescape raw) n;;
    ret (out, Lex (tail r) (line lx))
  end.

Definition key_end (c : Z) : bool := (c =? 61) || (c =? 10) || (c =? 35) || (c =? 32) || (c =? 9) || (c =? 13).

Fixpoint key_span (s : list Z) : list Z * list Z :=
  match s with
  | [] => ([], [])
  | c :: t => if key_end c then ([], s) else let '(k, r) := key_span t in (c :: k, r)
  end.

Definition parse_key (lx : lex) : M A (option (list Z) * lex) :=
  let '(k, r) := key_span (p lx) in
  if bool_decide (k = []) then ret (None, lx)
  else d <- dup_str k (zlen k);; ret (d, Lex r (line lx)).

(** ** Growing arrays of strings *)

Record strings := Strs { items : list (list Z); cap : Z; oom : bool }.
Definition no_strings : strings := Strs [] 0 false.

Definition strings_push (s : strings) (v : list Z) : M A strings :=
  if oom s then ret s
  else if zlen (items s) =? cap s then
    let ncap := if cap s =? 0 then 8 else u32 (cap s * 2) in
    ng <- alloc (ncap * 8);;
    match ng with
    | None => ret (Strs (items s) (cap s) true)
    | Some _ => if zlen (items s) <? ncap then ret (Strs (items s ++ [v]) ncap false) else fault
    end
  else ret (Strs (items s ++ [v]) (cap s) false).

(** ** Manifest to unit *)

Definition key_fqn : list Z := [102; 113; 110].
Definition key_impl : list Z := [105; 109; 112; 108].
Definition key_version : list Z := [118; 101; 114; 115; 105; 111; 110].

(** The keys "upstream", "archive" and "notes" and unknown ones all leave the
    unit as it is; [None] is the return of -1. *)
Definition set_scalar (u : pm_metal_build_unit) (key val : list Z) : option pm_metal_build_unit :=
  if bool_decide (key = key_fqn) then
    if STR_MAX <=? zlen val then None else Some (Unit val (impl u) (version u) (sources u) (include_dirs u) (defines u) (depends u))
  else if bool_decide (key = key_impl) then
    if IMPL_MAX <=? zlen val then None else Some (Unit (fqn u) val (version u) (sources u) (include_dirs u) (defines u) (depends u))
  else if bool_decide (key = key_version) then
    if STR_MAX <=? zlen val then None else Some (Unit (fqn u) (impl u) val (sources u) (include_dirs u) (defines u) (depends u))
  else Some u.

Inductive array := Sources | Includes | Defines | Depends.

Definition array_of (key : list Z) : option array :=
  if bool_decide (key = [115; 111; 117; 114; 99; 101; 115]) then Some Sources
  else if bool_decide (key = [105; 110; 99; 108; 117; 100; 101; 95; 100; 105; 114; 115]) then Some Includes
  else if bool_decide (key = [100; 101; 102; 105; 110; 101; 115]) then Some Defines
  else if bool_decide (key = [100; 101; 112; 101; 110; 100; 115]) then Some Depends
  else None.

(** The parser's locals: the unit and the four arrays. *)
Record parse := Parse { pu : pm_metal_build_unit; srcs : strings; incs : strings; defs : strings; deps : strings }.

Definition get_array (a : array) (st : parse) : strings :=
  match a with Sources => srcs st | Includes => incs st | Defines => defs st | Depends => deps st end.

Definition set_array (a : array) (s : strings) (st : parse) : parse :=
  match a with
  | Sources => Parse (pu st) s (incs st) (defs st) (deps st)
  | Includes => Parse (pu st) (srcs st) s (defs st) (deps st)
  | Defines => Parse (pu st) (srcs st) (incs st) s (deps st)
  | Depends => Parse (pu st) (srcs st) (incs st) (defs st) s
  end.

(** The elements of an array, after its [\[]. *)
Fixpoint array_loop (fuel : nat) (a : array) (lx : lex) (st : parse) : M A ((Z * msg) * parse + lex * parse) :=
  match fuel with
  | O => nofuel
  | S f =>
    let lx := lex_skip_ws lx in
    if lex_peek lx =? 93 then ret (inr (Lex (tail (p lx)) (line lx), st))
    else
      match p lx with
      | [] => ret (inl (line lx, "unterminated array"%string, st))
      | _ =>
        match expect lx 34 with
        | None => ret (inl (line lx, "expected string in array"%string, st))
        | Some lx =>
          r <- parse_string lx;;
          match r.1 with
          | None => ret (inl (line lx, "unterminated string in array"%string, st))
          | Some v =>
            s <- strings_push (get_array a st) v;;
            let lx := lex_skip_ws r.2 in
            let lx := if lex_peek lx =? 44 then Lex (tail (p lx)) (line lx) else lx in
            array_loop f a lx (set_array a s st)
          end
        end
      end
  end.

(** Trailing blanks go back to the input. *)
Fixpoint trim (s : list Z) : list Z :=
  match s with
  | [] => []
  | c :: t => match trim t with [] => if (c =? 32) || (c =? 9) || (c =? 13) then [] else [c] | u => c :: u end
  end.

(** The value after [key =]. *)
Definition parse_value (fuel : nat) (key : list Z) (lx : lex) (st : parse) : M A ((Z * msg) * parse + lex * parse) :=
  if lex_peek lx =? 34 then
    r <- parse_string (Lex (tail (p lx)) (line lx));;
    match r.1 with
    | None => ret (inl (line lx, "unterminated string"%string, st))
    | Some v =>
      match set_scalar (pu st) key v with
      | None => ret (inl (line lx, "value too long"%string, st))
      | Some u => ret (inr (r.2, Parse u (srcs st) (incs st) (defs st) (deps st)))
      end
    end
  else if lex_peek lx =? 91 then
    match array_of key with
    | None => ret (inl (line lx, "unknown array key"%string, st))
    | Some a => array_loop fuel a (Lex (tail (p lx)) (line lx)) st
    end
  else
    let v := trim (to_eol true (p lx)).1 in
    if bool_decide (v = []) then ret (inl (line lx, "expected value"%string, st))
    else ret (inr (Lex (drop (length v) (p lx)) (line lx), st)).

(** The main loop; [inl] is an error with its line and message. *)
Fixpoint parse_loop (fuel : nat) (lx : lex) (st : parse) : M A ((Z * msg) * parse + lex * parse) :=
  match fuel with
  | O => nofuel
  | S f =>
    let lx := lex_skip_ws lx in
    match p lx with
    | [] => ret (inr (lx, st))
    | c :: _ =>
      if c =? 91 then parse_loop f (Lex (to_eol false (p lx)).2 (line lx)) st
      else
        r <- parse_key lx;;
        match r.1 with
        | None => ret (inl (line lx, "expected key"%string, st))
        | Some key =>
          let lx := lex_skip_ws r.2 in
          match expect lx 61 with
          | None => ret (inl (line lx, "expected '=' after key"%string, st))
          | Some lx =>
            v <- parse_value f key (lex_skip_ws lx) st;;
            match v with
            | inl e => ret (inl e)
            | inr (lx, st) => parse_loop f lx st
            end
          end
        end
    end
  end.

Definition start : parse := Parse zero_unit no_strings no_strings no_strings no_strings.

Definition finish (lx : lex) (st : parse) : Z * pm_metal_build_unit * err :=
  if oom (srcs st) || oom (incs st) || oom (defs st) || oom (deps st) then (ERR_NOMEM, pu st, Some (line lx, "arena exhausted"%string))
  else
    let u := pu st in
    let u := Unit (fqn u) (impl u) (version u) (items (srcs st)) (items (incs st)) (items (defs st)) (items (deps st)) in
    if bool_decide (fqn u = []) || bool_decide (impl u = []) then (ERR_PARSE, u, Some (line lx, "manifest missing fqn or impl"%string))
    else (BUILD_OK, u, None).

(** A round of the loop consumes a byte at least. *)
Definition pm_metal_build_unit_parse (bytes : list Z) : M A (Z * pm_metal_build_unit * err) :=
  r <- parse_loop (S (length bytes)) (Lex bytes 1) start;;
  match r with
  | inl (e, st) => ret (ERR_PARSE, pu st, Some e)
  | inr (lx, st) => ret (finish lx st)
  end.
End arena.

(** ** The order of a set of units

    A pointer into [units] is an index. *)

Definition fqn_at (units : list pm_metal_build_unit) (i : nat) : list Z := default [] (fqn <$> units !! i).

Definition unit_has_all_deps (units : list pm_metal_build_unit) (u : pm_metal_build_unit) (done : list nat) : bool :=
  forallb (fun d => existsb (fun j => bool_decide (fqn_at units j = d)) done) (depends u).

Fixpoint dup_inner (name : list Z) (us : list pm_metal_build_unit) : bool :=
  match us with [] => false | u :: t => if bool_decide (name = fqn u) then true else dup_inner name t end.

(** The first name met twice. *)
Fixpoint dup_fqn (us : list pm_metal_build_unit) : option (list Z) :=
  match us with [] => None | u :: t => if dup_inner (fqn u) t then Some (fqn u) else dup_fqn t end.

Definition missing_dep (units : list pm_metal_build_unit) (u : pm_metal_build_unit) : option (list Z) :=
  find (fun d => negb (existsb (fun v => bool_decide (fqn v = d)) units)) (depends u).

(** One pass over the units from [i] on: [inl] is a dependency no unit has. *)
Fixpoint pass (units us : list pm_metal_build_unit) (i : nat) (out : list nat) (progressed : bool) : list Z + list nat * bool :=
  match us with
  | [] => inr (out, progressed)
  | u :: t =>
    if bool_decide (i ∈ out) then pass units t (S i) out progressed
    else if unit_has_all_deps units u out then
      match missing_dep units u with
      | Some d => inl d
      | None => pass units t (S i) (out ++ [i]) true
      end
    else pass units t (S i) out progressed
  end.

Definition error_name := option (list Z + msg).

Fixpoint resolve_loop (fuel : nat) (units : list pm_metal_build_unit) (out : list nat) : option (Z * list nat * error_name) :=
  if (length out <? length units)%nat then
    match fuel with
    | O => None
    | S f =>
      match pass units units 0 out false with
      | inl d => Some (ERR_MISSING_DEP, [], Some (inl d))
      | inr (out', progressed) =>
        if progressed then resolve_loop f units out' else Some (ERR_CYCLE, [], Some (inr "dependency cycle"%string))
      end
    end
  else Some (BUILD_OK, out, None).

(** [room] is whether the arena has the memory for the order.  [None] is a
    loop that has not ended within its fuel. *)
Definition pm_metal_build_graph_resolve (room : bool) (units : list pm_metal_build_unit) : option (Z * list nat * error_name) :=
  match units with
  | [] => Some (BUILD_OK, [], None)
  | _ =>
    if negb room then Some (ERR_NOMEM, [], Some (inr "arena exhausted"%string))
    else
      match dup_fqn units with
      | Some d => Some (ERR_CYCLE, [], Some (inl d))
      | None => resolve_loop (length units) units []
      end
  end.
End Build.

(** * The order of the units

    [pm_metal_build_graph_resolve] against its contract: an order in which
    every unit comes after its dependencies, when there is one. *)

Module BuildGraph.
Import Build.

Section units.
Context (units : list pm_metal_build_unit).

(** Units that can be built at all: their dependencies name units that can. *)
Inductive buildable : list Z -> Prop :=
| build_unit u : u ∈ units -> (forall d, d ∈ depends u -> buildable d) -> buildable (fqn u).

(** Every dependency of [u] names a unit in [done]. *)
Definition deps_in (u : pm_metal_build_unit) (done : list nat) : Prop := forall d, d ∈ depends u -> exists j, j ∈ done /\ fqn_at units j = d.

(** All units once, each after its dependencies. *)
Definition topological (order : list nat) : Prop :=
  order ≡ₚ seq 0 (length units) /\
  forall a i b u, order = a ++ i :: b -> units !! i = Some u -> deps_in u a.

(** A part of such an order. *)
Inductive topo : list nat -> Prop :=
| topo_nil : topo []
| topo_snoc out i u : topo out -> units !! i = Some u -> i ∉ out -> deps_in u out -> topo (out ++ [i]).

Lemma topo_NoDup out : topo out -> NoDup out /\ Forall (fun i => (i < length units)%nat) out.
Proof.
  induction 1 as [|out i u _ [IH1 IH2] Hu Hi _]; [split; constructor|]. split.
  - apply NoDup_app. split; [done|]. split; [|by apply NoDup_singleton]. intros j Hj ->%list_elem_of_singleton. done.
  - apply Forall_app. split; [done|]. constructor; [by eapply lookup_lt_Some|done].
Qed.

Lemma topo_split out : topo out -> forall a i b u, out = a ++ i :: b -> units !! i = Some u -> deps_in u a.
Proof.
  induction 1 as [|out j v _ IH Hv _ Hd]; intros a i b u E Hu; [by destruct a|].
  destruct b as [|x b _] using rev_ind.
  - apply app_inj_tail in E as [-> ->]. rewrite Hv in Hu. by injection Hu as <-.
  - apply (IH a i b u); [|done]. rewrite app_comm_cons, (assoc_L (++)) in E. by apply app_inj_tail in E as [-> _].
Qed.

Lemma topo_full out : topo out -> (length units <= length out)%nat -> topological out.
Proof.
  intros Ht Hl. split; [|by apply topo_split]. destruct (topo_NoDup out Ht) as [Hn Hb].
  apply submseteq_length_Permutation; [|by rewrite length_seq]. apply NoDup_submseteq; [done|].
  intros i Hi. rewrite elem_of_seq. rewrite Forall_forall in Hb. specialize (Hb i Hi). lia.
Qed.

Lemma topo_length out : topo out -> (length out <= length units)%nat.
Proof.
  intros Ht. destruct (topo_NoDup out Ht) as [Hn Hb]. rewrite <- (length_seq (length units) 0). apply submseteq_length, NoDup_submseteq; [done|].
  intros i Hi. rewrite elem_of_seq. rewrite Forall_forall in Hb. specialize (Hb i Hi). lia.
Qed.

Lemma unit_has_all_deps_spec u out : unit_has_all_deps units u out = true <-> deps_in u out.
Proof.
  unfold unit_has_all_deps, deps_in. rewrite forallb_forall. setoid_rewrite existsb_exists. split; intros H d Hd.
  - destruct (H d) as (j & Hj & Ej); [by apply list_elem_of_In|]. exists j. split; [by apply list_elem_of_In|]. by apply bool_decide_eq_true in Ej.
  - destruct (H d) as (j & Hj & Ej); [by apply list_elem_of_In|]. exists j. split; [by apply list_elem_of_In|]. by apply bool_decide_eq_true.
Qed.

(** A unit with all its dependencies done has none that is unknown. *)
Lemma missing_dep_none u out : topo out -> deps_in u out -> missing_dep units u = None.
Proof.
  intros Ht Hd. unfold missing_dep. destruct (find _ (depends u)) as [d|] eqn:E; [|done]. apply find_some in E as [Hin%list_elem_of_In Hx].
  destruct (Hd d Hin) as (j & Hj & Ej). apply negb_true_iff in Hx.
  destruct (topo_NoDup out Ht) as [_ Hb]. rewrite Forall_forall in Hb. destruct (lookup_lt_is_Some_2 units j (Hb j Hj)) as [w Hw].
  assert (existsb (fun v => bool_decide (fqn v = d)) units = true) as Hy; [|congruence].
  apply existsb_exists. exists w. split; [by apply list_elem_of_In, list_elem_of_lookup_2 with j|]. apply bool_decide_eq_true.
  unfold fqn_at in Ej. by rewrite Hw in Ej.
Qed.

(** ** One pass *)

Definition stuck (out : list nat) (us : list pm_metal_build_unit) (i : nat) : Prop :=
  forall j u, us !! j = Some u -> (i + j)%nat ∈ out \/ ~ deps_in u out.

Lemma pass_spec us : forall pre out pr, units = pre ++ us -> topo out ->
  exists out' pr', pass units us (length pre) out pr = inr (out', pr') /\ topo out' /\ (length out <= length out')%nat /\
    (pr' = true -> pr = true \/ (length out < length out')%nat) /\
    (pr' = false -> pr = false /\ out' = out /\ stuck out us (length pre)).
Proof.
  induction us as [|u us IH]; intros pre out pr E Ht; cbn [pass].
  { exists out, pr. split_and!; [done|done|done|by left|]. intros. split_and!; [done|done|]. by intros j w Hj. }
  assert (E' : units = (pre ++ [u]) ++ us) by (by rewrite <- (assoc_L (++))).
  assert (El : length (pre ++ [u]) = S (length pre)) by (rewrite length_app; simpl; lia).
  assert (Hu : units !! length pre = Some u) by (by rewrite E, list_lookup_middle).
  assert (Hskip : length pre ∈ out \/ ~ deps_in u out -> forall out' pr', (pr' = false -> pr = false /\ out' = out /\ stuck out us (S (length pre))) ->
    pr' = false -> pr = false /\ out' = out /\ stuck out (u :: us) (length pre)).
  { intros Hout out' pr' HF Hf. destruct (HF Hf) as (-> & -> & Hs). split_and!; [done|done|].
    intros [|j] w Hj; [injection Hj as <-; by rewrite Nat.add_0_r|]. rewrite <- Nat.add_succ_comm. by apply Hs. }
  destruct (bool_decide (length pre ∈ out)) eqn:Hin.
  - apply bool_decide_eq_true in Hin. destruct (IH (pre ++ [u]) out pr E' Ht) as (o & b & Ep & ? & ? & ? & HF). rewrite El in *.
    exists o, b. split_and!; try done. apply Hskip; [by left|done].
  - apply bool_decide_eq_false in Hin. destruct (unit_has_all_deps units u out) eqn:Hd.
    + apply unit_has_all_deps_spec in Hd. rewrite (missing_dep_none u out Ht Hd).
      destruct (IH (pre ++ [u]) (out ++ [length pre]) true E') as (o & b & Ep & ? & Hlen & _ & HF); [by eapply topo_snoc|]. rewrite El in *. rewrite length_app in Hlen. simpl in Hlen.
      exists o, b. split_and!; try done; [lia|intros _; right; lia|]. intros Hb. by destruct (HF Hb) as [? _].
    + destruct (IH (pre ++ [u]) out pr E' Ht) as (o & b & Ep & ? & ? & ? & HF). rewrite El in *.
      exists o, b. split_and!; try done. apply Hskip; [|done]. right. intros Hn%unit_has_all_deps_spec. congruence.
Qed.

(** ** The passes together *)

Lemma resolve_loop_spec fuel : forall out, topo out -> (length units - length out <= fuel)%nat ->
  (exists out', resolve_loop fuel units out = Some (BUILD_OK, out', None) /\ topo out' /\ (length units <= length out')%nat) \/
  (exists e out', resolve_loop fuel units out = Some (ERR_CYCLE, [], e) /\ topo out' /\ (length out' < length units)%nat /\ stuck out' units 0).
Proof.
  induction fuel as [|fuel IH]; intros out Ht Hf; cbn [resolve_loop]; destruct (Nat.ltb_spec (length out) (length units)); try lia.
  1, 3: left; by exists out.
  destruct (pass_spec units [] out false eq_refl Ht) as (o & b & Ep & Hto & Hlen & Hgrow & Hstuck). simpl in Ep. rewrite Ep. destruct b.
  - apply IH; [done|]. destruct (Hgrow eq_refl) as [?|?]; [done|lia].
  - destruct (Hstuck eq_refl) as (_ & -> & Hs). right. eauto 10.
Qed.

(** ** Duplicates *)

Lemma dup_inner_spec name us : dup_inner name us = true <-> name ∈ (fqn <$> us).
Proof.
  induction us as [|u us IH]; simpl; [split; [done|by intros ?%not_elem_of_nil]|]. rewrite elem_of_cons. case_bool_decide; [split; [by left|done]|].
  rewrite IH. naive_solver.
Qed.

Lemma dup_fqn_spec us : dup_fqn us = None <-> NoDup (fqn <$> us).
Proof.
  induction us as [|u us IH]; simpl; [split; [constructor|done]|]. rewrite NoDup_cons. destruct (dup_inner (fqn u) us) eqn:E.
  - apply dup_inner_spec in E. split; [done|by intros []].
  - rewrite IH. split; [|by intros []]. intros ?. split; [|done]. rewrite <- dup_inner_spec, E. done.
Qed.

(** ** What can be built *)

Lemma fqn_at_lookup i u : units !! i = Some u -> fqn_at units i = fqn u.
Proof. intros H. unfold fqn_at. by rewrite H. Qed.

Lemma topo_buildable out : topo out -> forall i, i ∈ out -> buildable (fqn_at units i).
Proof.
  induction 1 as [|out i u _ IH Hu _ Hd]; intros j Hj; [by apply not_elem_of_nil in Hj|].
  apply elem_of_app in Hj as [Hj| ->%list_elem_of_singleton]; [auto|]. rewrite (fqn_at_lookup i u) by done.
  constructor; [by eapply list_elem_of_lookup_2|]. intros d Hin. destruct (Hd d Hin) as (k & Hk & <-). auto.
Qed.

(** When no pass makes progress, all that can be built is done. *)
Lemma stuck_done out : NoDup (fqn <$> units) -> stuck out units 0 -> forall name, buildable name ->
  exists i, i ∈ out /\ fqn_at units i = name.
Proof.
  intros Hn Hs. induction 1 as [u Hu _ IH]. apply list_elem_of_lookup in Hu as [i Hi]. exists i. split; [|by apply fqn_at_lookup].
  destruct (Hs i u Hi) as [?|Hno]; [done|]. exfalso. apply Hno. intros d Hd. destruct (IH d Hd) as (j & ? & ?). by exists j.
Qed.

Lemma stuck_unbuildable out : NoDup (fqn <$> units) -> topo out -> (length out < length units)%nat -> stuck out units 0 ->
  exists u, u ∈ units /\ ~ buildable (fqn u).
Proof.
  intros Hn Ht Hl Hs. assert (exists i, (i < length units)%nat /\ i ∉ out) as (i & Hi & Hout).
  { destruct (decide (Exists (fun i => i ∉ out) (seq 0 (length units)))) as [(i & Hi & Ho)%Exists_exists|Hall].
    - exists i. apply elem_of_seq in Hi. split; [lia|done].
    - exfalso. apply (Nat.lt_irrefl (length out)). eapply Nat.lt_le_trans; [exact Hl|]. rewrite <- (length_seq (length units) 0).
      apply submseteq_length, NoDup_submseteq; [apply NoDup_seq|]. intros i Hi. destruct (decide (i ∈ out)); [done|]. exfalso. apply Hall, Exists_exists. eauto. }
  destruct (lookup_lt_is_Some_2 units i Hi) as [u Hu]. exists u. split; [by eapply list_elem_of_lookup_2|].
  intros Hb. destruct (stuck_done out Hn Hs (fqn u) Hb) as (j & Hj & Ej). destruct (topo_NoDup out Ht) as [_ Hbd]. rewrite Forall_forall in Hbd.
  destruct (lookup_lt_is_Some_2 units j (Hbd j Hj)) as [w Hw]. rewrite (fqn_at_lookup j w) in Ej by done.
  assert (i = j) as ->; [|done]. eapply (NoDup_lookup _ i j (fqn u) Hn); rewrite list_lookup_fmap; [by rewrite Hu|by rewrite Hw; simpl; rewrite Ej].
Qed.

(** C17: ordering a set of units ends.  With room for the order it succeeds
    exactly when no name occurs twice and every unit can be built, that is,
    its dependencies all name units that can; the order then holds every unit
    once, after its dependencies.  Otherwise the result is the cycle error:
    the missing-dependency error, which is what the code has for a dependency
    that names no unit, is never given. *)
Theorem graph_resolve_topological (room : bool) :
  exists rc order e, pm_metal_build_graph_resolve room units = Some (rc, order, e) /\
    if room || bool_decide (units = []) then
      (rc = BUILD_OK /\ topological order /\ NoDup (fqn <$> units) /\ (forall u, u ∈ units -> buildable (fqn u))) \/
      (rc = ERR_CYCLE /\ order = [] /\ ~ (NoDup (fqn <$> units) /\ forall u, u ∈ units -> buildable (fqn u)))
    else rc = ERR_NOMEM /\ order = [].
Proof.
  unfold pm_metal_build_graph_resolve. destruct units as [|u0 us] eqn:Eu.
  { do 3 eexists. split; [done|]. rewrite orb_true_r. left. split_and!; [done| |constructor|by intros u ?%not_elem_of_nil]. apply topo_full; [constructor|by rewrite Eu]. }
  rewrite bool_decide_eq_false_2, orb_false_r by done. rewrite <- Eu. clear u0 us Eu.
  destruct room; cbn [negb]; [|by do 3 eexists]. destruct (dup_fqn units) as [d|] eqn:Ed.
  { do 3 eexists. split; [done|]. right. split_and!; [done|done|]. intros [Hn _]. apply dup_fqn_spec in Hn. congruence. }
  apply dup_fqn_spec in Ed. destruct (resolve_loop_spec (length units) [] topo_nil) as [(out & E & Ht & Hl)|(e & out & E & Ht & Hl & Hs)]; [lia| |].
  - do 3 eexists. split; [exact E|]. left. pose proof (topo_full out Ht Hl) as Htop. split_and!; [done|done|done|].
    intros u Hu. apply list_elem_of_lookup in Hu as [i Hi]. rewrite <- (fqn_at_lookup i u Hi). apply (topo_buildable out Ht).
    destruct Htop as [Hp _]. rewrite Hp, elem_of_seq. apply lookup_lt_Some in Hi. lia.
  - do 3 eexists. split; [exact E|]. right. split_and!; [done|done|]. intros [Hn Hall].
    destruct (stuck_unbuildable out Hn Ht Hl Hs) as (u & Hu & Hnb). auto.
Qed.
End units.
End BuildGraph.
