(* ===== verification/BuildSafe.v ===== *)
(** * Parsing any manifest

    The lexer of Build on bytes of any content: every loop ends, every write
    stays in its block, and an error names a line of the input. *)
From stdpp Require Import strings.
From S2P Require Import Prelude Build.

Module BuildSafe.
Import Store Build.
Local Open Scope metal_scope.

(** ** Where the lexer stands *)

Definition nl (s : list Z) : Z := Z.of_nat (length (filter (fun c => c = 10) s)).

Lemma nl_app a b : nl (a ++ b) = nl a + nl b.
Proof. unfold nl. rewrite filter_app, length_app. lia. Qed.
Lemma nl_cons c s : nl (c :: s) = (if decide (c = 10) then 1 else 0) + nl s.
Proof. unfold nl. rewrite filter_cons. destruct (decide (c = 10)); simpl; lia. Qed.
Lemma nl_nonneg s : 0 <= nl s.
Proof. unfold nl. lia. Qed.

(** [lx'] is further on in the same text as [lx]: the line counts the
    newlines passed. *)
Definition onward (lx lx' : lex) : Prop :=
  (length (p lx') <= length (p lx))%nat /\ line lx <= line lx' /\ line lx' + nl (p lx') = line lx + nl (p lx).
Definition past (lx lx' : lex) : Prop := onward lx lx' /\ (length (p lx') < length (p lx))%nat.

Lemma onward_refl lx : onward lx lx.
Proof. unfold onward. lia. Qed.
Lemma onward_trans a b c : onward a b -> onward b c -> onward a c.
Proof. unfold onward. lia. Qed.
Lemma past_onward a b c : past a b -> onward b c -> past a c.
Proof. unfold past, onward. lia. Qed.
Lemma onward_past a b c : onward a b -> past b c -> past a c.
Proof. unfold past, onward. lia. Qed.

Lemma skip_ws_onward s : forall c l, onward (Lex s l) (skip_ws c s l).
Proof.
  induction s as [|x s IH]; intros c l; cbn [skip_ws]; [apply onward_refl|].
  assert (Hs : forall c' l', l <= l' -> l' + nl s = l + nl (x :: s) -> onward (Lex (x :: s) l) (skip_ws c' s l')).
  { intros c' l' H1 H2. eapply onward_trans; [|apply IH]. unfold onward. simpl in *. lia. }
  rewrite nl_cons in Hs. destruct (c && negb (x =? 10)) eqn:E; [|].
  { apply Hs; [lia|]. breflect. by rewrite decide_False. }
  destruct (Z.eqb_spec x 32), (Z.eqb_spec x 9), (Z.eqb_spec x 13), (Z.eqb_spec x 10), (Z.eqb_spec x 35); subst; cbn [orb];
    try apply onward_refl; (apply Hs; [lia|]); simpl; lia.
Qed.

Lemma lex_skip_ws_onward lx : onward lx (lex_skip_ws lx).
Proof. destruct lx. apply skip_ws_onward. Qed.

Lemma to_eol_spec h s : s = (to_eol h s).1 ++ (to_eol h s).2 /\ nl (to_eol h s).1 = 0.
Proof.
  induction s as [|c s [IH1 IH2]]; simpl; [done|]. destruct ((c =? 10) || (h && (c =? 35))) eqn:E; [done|]. breflect.
  destruct (to_eol h s) as [a r]. simpl in *. rewrite nl_cons, decide_False by done. split; [by f_equal|lia].
Qed.

Lemma key_span_spec s : s = (key_span s).1 ++ (key_span s).2 /\ nl (key_span s).1 = 0.
Proof.
  induction s as [|c s [IH1 IH2]]; simpl; [done|]. destruct (key_end c) eqn:E; [done|]. unfold key_end in E. breflect.
  destruct (key_span s) as [a r]. simpl in *. rewrite nl_cons, decide_False by done. split; [by f_equal|lia].
Qed.

Lemma onward_skip a r l : nl a = 0 -> onward (Lex (a ++ r) l) (Lex r l).
Proof. intros H. unfold onward. simpl. rewrite nl_app, length_app. lia. Qed.

Lemma past_skip a r l : nl a = 0 -> a <> [] -> past (Lex (a ++ r) l) (Lex r l).
Proof. intros H Ha. split; [by apply onward_skip|]. simpl. rewrite length_app. destruct a; [done|simpl; lia]. Qed.

Lemma expect_past lx c lx' : c <> 10 -> expect lx c = Some lx' -> past lx lx'.
Proof.
  unfold expect. destruct lx as [[|d t] l]; simpl; [done|]. intros Hc. destruct (Z.eqb_spec d c); [|done]. intros [= <-]. subst.
  by apply (past_skip [c]); [rewrite nl_cons, decide_False by done|].
Qed.

Lemma tail_past lx c : c <> 10 -> c <> 0 -> lex_peek lx = c -> past lx (Lex (tail (p lx)) (line lx)).
Proof.
  unfold lex_peek. destruct lx as [[|d t] l]; simpl; [by intros _ H <-|]. intros Hc _ ->. by apply (past_skip [c]); [rewrite nl_cons, decide_False by done|].
Qed.

(** [list_ind] that also gives the hypothesis two elements down. *)
Lemma list_ind_two {X} (P : list X -> Prop) : P [] -> (forall c, P [c]) -> (forall c d t, P t -> P (d :: t) -> P (c :: d :: t)) -> forall l, P l.
Proof. intros H0 H1 H2 l. enough (P l /\ forall c, P (c :: l)) by tauto. induction l as [|c l [IH1 IH2]]; [auto|]. split; [auto|]. intros d. auto. Qed.

Lemma scan_string_spec s : forall raw n r, scan_string s = Some (raw, n, r) ->
  s = raw ++ r /\ nl raw = 0 /\ zlen (unescape raw) = n /\ head r = Some 34.
Proof.
  induction s as [|c|c d t IH1 IH2] using list_ind_two; intros raw n r; [done|simpl|].
  { destruct (Z.eqb_spec c 34); [intros [= <- <- <-]; by subst|by destruct (c =? 10)]. }
  change (scan_string (c :: d :: t)) with (if c =? 34 then Some ([], 0, c :: d :: t) else if c =? 10 then None else
    if (c =? 92) && escapes d then '(raw, n, r) ← scan_string t; Some (c :: d :: raw, n + 1, r) else '(raw, n, r) ← scan_string (d :: t); Some (c :: raw, n + 1, r)).
  destruct (Z.eqb_spec c 34); [intros [= <- <- <-]; by subst|]. destruct (Z.eqb_spec c 10); [done|]. destruct ((c =? 92) && escapes d) eqn:E.
  - intros H. apply bind_Some in H as ([[raw' n'] r'] & Es & [= <- <- <-]). destruct (IH1 _ _ _ Es) as (-> & Hn & Hl & Hh).
    rewrite !nl_cons, decide_False by done. breflect. assert (d <> 10) by (intros ->; done). rewrite decide_False by done.
    split_and!; [done|lia| |done]. cbn [unescape]. subst c. change (92 =? 92) with true. match goal with K : escapes d = true |- _ => rewrite K end. simpl. lia.
  - intros H. apply bind_Some in H as ([[raw' n'] r'] & Es & [= <- <- <-]). destruct (IH2 _ _ _ Es) as (Ea & Hn & Hl & Hh).
    rewrite nl_cons, decide_False by done. split_and!; [by rewrite Ea|lia| |done].
    destruct raw' as [|d' raw']; [simpl in *; lia|]. simpl in Ea. injection Ea as <- _.
    assert (unescape (c :: d :: raw') = c :: unescape (d :: raw')) as ->; [|cbn [length]; lia].
    change (unescape (c :: d :: raw')) with (if (c =? 92) && escapes d then d :: unescape raw' else c :: unescape (d :: raw')). by rewrite E.
Qed.

Lemma trim_spec s : exists w, s = trim s ++ w.
Proof.
  induction s as [|c s [w IH]]; [by exists []|]. cbn [trim]. destruct (trim s) as [|x u]; [|exists w; simpl; by f_equal].
  destruct (_ || _); [by exists (c :: s)|by exists s].
Qed.

(** ** Memory *)

Section arena.
Context {A : Type} `{AR : !Arena A, AL : !ArenaLaws A}.
Implicit Types (a : A).

Lemma cstr_app_nul s : cstr (s ++ [0]) = cstr s.
Proof. induction s as [|c s IH]; [done|]. cbn [app cstr]. by rewrite IH. Qed.

Lemma dup_str_ok src n a : zlen src = n -> wp (dup_str src n) (fun r _ => r = None \/ r = Some (cstr src)) a.
Proof.
  intros Hn. unfold dup_str. wstep. unfold alloc, wp at 1. destruct (mem_alloc (n + 1) a) as [a' r] eqn:E. destruct r as [d|]; [|wstep; by left].
  apply alloc_size in E; [|lia]. wstep. eapply wp_chk.
  - rewrite blit_is_Some; [|lia|rewrite length_app; simpl; lia]. rewrite drop_ge by (rewrite length_app; simpl; lia). by rewrite app_nil_r.
  - wstep. right. change (take (Z.to_nat 0) d) with (@nil Z). rewrite app_nil_l. by rewrite cstr_app_nul.
Qed.

Lemma parse_string_ok lx a : wp (parse_string lx) (fun r _ => r.1 <> None -> past lx r.2) a.
Proof.
  unfold parse_string. destruct (scan_string (p lx)) as [[[raw n] r]|] eqn:E; [|by wstep].
  destruct (scan_string_spec _ _ _ _ E) as (Ep & Hn & Hl & Hh). wstep. eapply wp_mono; [by apply dup_str_ok|]. intros out a1 _. wstep. intros _.
  destruct r as [|q r]; [done|]. injection Hh as ->. destruct lx as [s l]. simpl in *. subst s. change (34 :: r) with ([34] ++ r). rewrite (assoc_L (++)).
  apply past_skip; [rewrite nl_app, Hn; by rewrite nl_cons, decide_False by done|by destruct raw].
Qed.

Lemma parse_key_ok lx a : wp (parse_key lx) (fun r _ => r.1 <> None -> past lx r.2) a.
Proof.
  unfold parse_key. destruct (key_span (p lx)) as [k r] eqn:E. destruct (key_span_spec (p lx)) as [Ep Hn]. rewrite E in Ep, Hn. simpl in *.
  case_bool_decide; [by wstep|]. wstep. eapply wp_mono; [by apply dup_str_ok|]. intros out a1 _. wstep. intros _. destruct lx as [s l]. simpl in *. subst s. by apply past_skip.
Qed.

(** An array has room for what it holds, and holds fewer strings than the
    bytes read. *)
Definition strings_ok (T : Z) (lx : lex) (s : strings) : Prop :=
  zlen (items s) <= cap s <= 8 + 2 * zlen (items s) /\ zlen (items s) + zlen (p lx) <= T.

Lemma strings_ok_onward T lx lx' s : onward lx lx' -> strings_ok T lx s -> strings_ok T lx' s.
Proof. intros (? & _) [? ?]. split; [done|lia]. Qed.

Lemma strings_push_ok T lx lx' s v a : T < 2147483648 -> strings_ok T lx s -> past lx lx' ->
  wp (strings_push s v) (fun s' _ => strings_ok T lx' s') a.
Proof.
  intros HT [Hc Hn] [(? & _) Hp]. unfold strings_push. wstep; [wstep; split; [done|lia]|].
  destruct (Z.eqb_spec (zlen (items s)) (cap s)) as [E|E].
  - set (ncap := if cap s =? 0 then 8 else u32 (cap s * 2)). assert (Hncap : zlen (items s) < ncap <= 8 + 2 * zlen (items s)).
    { unfold ncap. destruct (Z.eqb_spec (cap s) 0); [lia|]. rewrite u32_small by lia. lia. }
    cbv zeta. wstep. unfold alloc, wp at 1. destruct (mem_alloc (ncap * 8) a) as [a' [b|]]; [|wstep; split; [done|simpl; lia]].
    rewrite (proj2 (Z.ltb_lt _ _)) by lia. wstep. unfold strings_ok. cbn [items cap]. rewrite length_app. simpl. lia.
  - wstep. unfold strings_ok. cbn [items cap]. rewrite length_app. simpl. lia.
Qed.

(** ** The parser *)

Definition unit_fits (u : pm_metal_build_unit) : Prop := zlen (fqn u) < STR_MAX /\ zlen (impl u) < IMPL_MAX /\ zlen (version u) < STR_MAX.

Definition parse_ok (T : Z) (lx : lex) (st : parse) : Prop :=
  unit_fits (pu st) /\ strings_ok T lx (srcs st) /\ strings_ok T lx (incs st) /\ strings_ok T lx (defs st) /\ strings_ok T lx (deps st).

Lemma parse_ok_onward T lx lx' st : onward lx lx' -> parse_ok T lx st -> parse_ok T lx' st.
Proof. intros H (? & ? & ? & ? & ?). split_and!; try done; by eapply strings_ok_onward. Qed.

Lemma parse_ok_array T lx st w s : parse_ok T lx st -> strings_ok T lx s -> parse_ok T lx (set_array w s st).
Proof. intros (? & ? & ? & ? & ?) Hs. by destruct w. Qed.

Lemma get_array_ok T lx st w : parse_ok T lx st -> strings_ok T lx (get_array w st).
Proof. intros (? & ? & ? & ? & ?). by destruct w. Qed.

Lemma set_scalar_fits u k v u' : unit_fits u -> set_scalar u k v = Some u' -> unit_fits u'.
Proof.
  intros (? & ? & ?). unfold set_scalar. repeat case_bool_decide; [destruct (Z.leb_spec STR_MAX (zlen v))|destruct (Z.leb_spec IMPL_MAX (zlen v))|destruct (Z.leb_spec STR_MAX (zlen v))|];
    intros [= <-]; split_and!; done.
Qed.

(** What a part of the parser that starts at [lx] comes to: an error with a
    line of the input, or a place further on. *)
Definition came (T : Z) (strict : bool) (lx : lex) (r : (Z * msg) * parse + lex * parse) : Prop :=
  match r with
  | inl (l, _, st) => line lx <= l <= line lx + nl (p lx) /\ unit_fits (pu st)
  | inr (lx', st) => (if strict then past lx lx' else onward lx lx') /\ parse_ok T lx' st
  end.

Lemma came_err T b lx lx' m st : onward lx lx' -> parse_ok T lx' st -> came T b lx (inl (line lx', m, st)).
Proof. intros (? & ? & ?) (? & _). simpl. pose proof (nl_nonneg (p lx')). split; [lia|done]. Qed.

Lemma came_onward T b b' lx lx' r : onward lx lx' -> (b = true -> past lx lx' \/ b' = true) -> came T b' lx' r -> came T b lx r.
Proof.
  intros Ho Hb. destruct r as [[[l m] st]|[lx2 st]]; simpl.
  - intros [? ?]. split; [|done]. unfold onward in *. lia.
  - intros [Hl ?]. split; [|done]. assert (onward lx' lx2) by (destruct b'; [apply Hl|done]). destruct b; [|by eapply onward_trans].
    destruct (Hb eq_refl) as [?| ->]; [by eapply past_onward|by eapply onward_past].
Qed.

Context (T : Z) (HT : T < 2147483648).

Lemma array_loop_ok fuel : forall w lx st a, (length (p lx) < fuel)%nat -> parse_ok T lx st ->
  wp (array_loop fuel w lx st) (fun r _ => came T true lx r) a.
Proof.
  induction fuel as [|fuel IH]; intros w lx st a Hf Hst; [lia|]. cbn [array_loop]. cbv zeta.
  pose proof (lex_skip_ws_onward lx) as H1. set (lx1 := lex_skip_ws lx) in *. pose proof (parse_ok_onward T lx lx1 st H1 Hst) as Hst1.
  destruct (Z.eqb_spec (lex_peek lx1) 93) as [E|_].
  { wstep. pose proof (tail_past lx1 93 ltac:(done) ltac:(done) E) as Hp. split; [by eapply onward_past|]. eapply parse_ok_onward; [apply Hp|done]. }
  destruct (p lx1) eqn:Ep1; [wstep; by apply came_err|]. destruct (expect lx1 34) as [lx2|] eqn:E; [|wstep; by apply came_err].
  apply expect_past in E; [|done]. pose proof (onward_past _ _ _ H1 E) as H2. wstep.
  eapply wp_mono; [apply parse_string_ok|]. intros [o lx3] a1 H3; cbv beta in H3; simpl in *. destruct o as [v|]; [|wstep; apply came_err; [apply H2|by eapply parse_ok_onward; [apply H2|]]].
  specialize (H3 ltac:(done)). pose proof (past_onward _ _ _ H2 (proj1 H3)) as H4. wstep.
  eapply wp_mono; [by apply (strings_push_ok T lx lx3); [done|apply get_array_ok|]|]. intros s a2 Hs; cbv beta in Hs.
  pose proof (lex_skip_ws_onward lx3) as H5. set (lx4 := lex_skip_ws lx3) in *.
  set (lx5 := if lex_peek lx4 =? 44 then _ else _). assert (H6 : onward lx3 lx5).
  { unfold lx5. destruct (Z.eqb_spec (lex_peek lx4) 44) as [E5|]; [|done]. eapply onward_trans; [exact H5|]. by apply (tail_past lx4 44). }
  pose proof (past_onward _ _ _ H4 H6) as H7. eapply wp_mono; [apply IH|].
  - destruct H7 as [_ ?]. lia.
  - eapply parse_ok_onward; [exact H6|]. apply parse_ok_array; [|done]. eapply parse_ok_onward; [apply H4|done].
  - intros r a3 Hr. eapply came_onward; [apply H7|by left|exact Hr].
Qed.

Lemma parse_value_ok fuel key lx st a : (length (p lx) < fuel)%nat -> parse_ok T lx st ->
  wp (parse_value fuel key lx st) (fun r _ => came T true lx r) a.
Proof.
  intros Hf Hst. unfold parse_value. destruct (Z.eqb_spec (lex_peek lx) 34) as [E|_].
  - pose proof (tail_past lx 34 ltac:(done) ltac:(done) E) as H1. wstep. eapply wp_mono; [apply parse_string_ok|].
    intros [o lx2] a1 H2; cbv beta in H2; simpl in *. destruct o as [v|]; [|wstep; apply came_err; [apply onward_refl|done]].
    specialize (H2 ltac:(done)). destruct (set_scalar (pu st) key v) as [u|] eqn:Eu; [|wstep; apply came_err; [apply onward_refl|done]].
    wstep. assert (H3 : past lx lx2) by (eapply past_onward; [done|apply H2]). split; [done|].
    destruct (parse_ok_onward T lx lx2 st (proj1 H3) Hst) as (Hu & ? & ? & ? & ?). split_and!; try done. by eapply set_scalar_fits.
  - destruct (Z.eqb_spec (lex_peek lx) 91) as [E|_].
    + destruct (array_of key) as [w|]; [|wstep; apply came_err; [apply onward_refl|done]].
      pose proof (tail_past lx 91 ltac:(done) ltac:(done) E) as H1. eapply wp_mono; [apply array_loop_ok; [destruct H1 as [_ ?]; lia|by eapply parse_ok_onward; [apply H1|]]|].
      intros r a1 Hr. eapply came_onward; [apply H1|by left|exact Hr].
    + cbv zeta. case_bool_decide as Ev; [wstep; apply came_err; [apply onward_refl|done]|]. wstep.
      destruct (to_eol_spec true (p lx)) as [Ep Hn]. destruct (trim_spec (to_eol true (p lx)).1) as [w Ew]. set (v := trim _) in *.
      destruct lx as [s l]. cbn [p line] in *. assert (E2 : drop (length v) s = w ++ (to_eol true s).2).
      { rewrite Ep at 1. rewrite Ew, <- (assoc_L (++)). apply drop_app_length. }
      rewrite E2. assert (Hp : past (Lex s l) (Lex (w ++ (to_eol true s).2) l)).
      { rewrite Ep at 1. rewrite Ew, <- (assoc_L (++)). apply past_skip; [|done]. rewrite Ew, nl_app in Hn. pose proof (nl_nonneg v). pose proof (nl_nonneg w). lia. }
      split; [exact Hp|]. eapply parse_ok_onward; [apply Hp|done].
Qed.

Lemma parse_loop_ok fuel : forall lx st a, (length (p lx) < fuel)%nat -> parse_ok T lx st ->
  wp (parse_loop fuel lx st) (fun r _ => came T false lx r) a.
Proof.
  induction fuel as [|fuel IH]; intros lx st a Hf Hst; [lia|]. cbn [parse_loop]. cbv zeta.
  pose proof (lex_skip_ws_onward lx) as H1. set (lx1 := lex_skip_ws lx) in *. pose proof (parse_ok_onward T lx lx1 st H1 Hst) as Hst1.
  destruct (p lx1) as [|c t] eqn:Ep; [wstep; by split|]. destruct (Z.eqb_spec c 91) as [->|_].
  - assert (H2 : past lx1 (Lex (to_eol false (91 :: t)).2 (line lx1))).
    { destruct (to_eol_spec false (91 :: t)) as [E Hn]. destruct lx1 as [s l]. cbn [p line] in *. subst s. rewrite E at 1. apply past_skip; [done|].
      cbn [to_eol Z.eqb Pos.eqb orb andb]. by destruct (to_eol false t). }
    eapply wp_mono; [apply IH|].
    + destruct H2 as [_ ?], H1 as [? _]. cbn [p line] in *. lia.
    + eapply parse_ok_onward; [apply H2|done].
    + intros r a1 Hr. eapply came_onward; [|by intros|exact Hr]. eapply onward_trans; [exact H1|apply H2].
  - wstep. eapply wp_mono; [apply parse_key_ok|]. intros [o lx2] a1 H2; cbv beta in H2; simpl in H2 |- *. destruct o as [key|]; [|wstep; by apply came_err].
    specialize (H2 ltac:(done)). pose proof (onward_past _ _ _ H1 H2) as H3. pose proof (lex_skip_ws_onward lx2) as H4. set (lx3 := lex_skip_ws lx2) in *.
    pose proof (past_onward _ _ _ H3 H4) as H5. destruct (expect lx3 61) as [lx4|] eqn:E; [|wstep; apply came_err; [apply H5|by eapply parse_ok_onward; [apply H5|]]].
    apply expect_past in E; [|done]. pose proof (lex_skip_ws_onward lx4) as H6. pose proof (past_onward _ _ _ H5 (onward_trans _ _ _ (proj1 E) H6)) as H7.
    wstep. eapply wp_mono; [apply parse_value_ok; [destruct H7 as [_ ?]; lia|by eapply parse_ok_onward; [apply H7|]]|].
    intros [[[l m] st']|[lx5 st']] a2 Hr; cbv beta in Hr.
    + wstep. by eapply came_onward; [apply H7| |exact Hr].
    + destruct Hr as [H8 Hst5]. assert (H9 : past lx lx5) by (eapply past_onward; [exact H7|apply H8]).
      eapply wp_mono; [apply IH; [destruct H9 as [_ ?]; lia|done]|]. intros r a3 Hr. by eapply came_onward; [apply H9| |exact Hr].
Qed.
End arena.

(** C26: parsing bytes of any content, shorter than 2 GiB, ends, with every
    loop inside the input and every write inside its block, however memory
    runs out on the way; it succeeds only with a name and an implementation,
    reports an error only with a message and a line of the input, and the
    name fields always fit the unit. *)
Theorem unit_parse_total {A : Type} `{!Arena A, !ArenaLaws A} (bytes : list Z) (a : A) (Hb : zlen bytes < 2147483648) :
  wp (pm_metal_build_unit_parse bytes) (fun r _ =>
    let '(rc, u, e) := r in
    unit_fits u /\
    match e with
    | None => rc = BUILD_OK /\ fqn u <> [] /\ impl u <> []
    | Some (l, _) => (rc = ERR_PARSE \/ rc = ERR_NOMEM) /\ 1 <= l <= 1 + nl bytes
    end) a.
Proof.
  unfold pm_metal_build_unit_parse. wstep. eapply wp_mono; [apply (parse_loop_ok (zlen bytes) Hb)|].
  - simpl. lia.
  - unfold parse_ok, strings_ok. cbn. split_and!; try done; lia.
  - intros [[[l m] st]|[lx st]] a1 Hr; cbv beta in Hr; wstep; destruct Hr as [Hl Hst]; simpl in Hl.
    + split; [done|]. split; [by left|done].
    + destruct Hst as (Hu & _). assert (1 <= line lx <= 1 + nl bytes) by (destruct Hl as (_ & ? & ?); simpl in *; pose proof (nl_nonneg (p lx)); lia).
      unfold finish. destruct (_ || _); [split; [done|]; split; [by right|done]|]. cbv zeta. destruct (_ || _) eqn:E; [split; [done|]; split; [by left|done]|].
      apply orb_false_iff in E as [E1%bool_decide_eq_false E2%bool_decide_eq_false]. done.
Qed.

#[local] Existing Instances zero_arena zero_arena_laws.

(** Three lines, the last without its value. *)
Definition broken : list Z := [102; 113; 110; 61; 34; 97; 34; 10; 10; 120; 61; 10].

Lemma unit_parse_total_witness : exists u l m, pm_metal_build_unit_parse broken tt = Done (ERR_PARSE, u, Some (l, m)) tt /\ 1 <= l <= 1 + nl broken /\ fqn u = [97].
Proof.
  destruct (wp_run _ _ _ (unit_parse_total broken tt ltac:(by vm_compute))) as ([[rc u] e] & [] & E & _ & H).
  assert (K : match pm_metal_build_unit_parse broken tt with Done (r, u, Some _) _ => r = ERR_PARSE /\ fqn u = [97] | _ => False end) by (vm_compute; auto).
  rewrite E in K. destruct e as [[l m]|]; [|done]. destruct K as [-> Ku], H as [_ Hl]. exists u, l, m. done.
Defined.
End BuildSafe.
