(* ===== verification/BuildParse.v ===== *)
(** * What a manifest says

    The texts the parser of Build accepts, as a grammar ([doc]): blanks and
    comments between any two tokens, table headers, strings with escapes,
    arrays with an optional last comma, bare values.  Parsing such a text
    gives the unit its items describe, in order. *)
From stdpp Require Import strings.
From S2P Require Import Prelude Build BuildSafe.

Module BuildParse.
Import Store Build BuildSafe.
Local Open Scope metal_scope.

(** ** Blanks *)

Definition ws (c : Z) : bool := (c =? 32) || (c =? 9) || (c =? 13).

Inductive blank : list Z -> Prop :=
| blank_nil : blank []
| blank_char c s : ws c = true \/ c = 10 -> blank s -> blank (c :: s)
| blank_comment t s : nl t = 0 -> blank s -> blank (35 :: t ++ 10 :: s).

(** At the end of the text a comment needs no newline. *)
Definition blank_end (s : list Z) : Prop := exists b t, blank b /\ nl t = 0 /\ (s = b \/ s = b ++ 35 :: t).

(** [s] starts with a token or is over. *)
Definition token (s : list Z) : Prop := match s with [] => True | c :: _ => ws c = false /\ c <> 10 /\ c <> 35 end.

Lemma nl_zero_cons c t : nl (c :: t) = 0 -> c <> 10 /\ nl t = 0.
Proof. rewrite nl_cons. pose proof (nl_nonneg t). destruct (decide (c = 10)); lia. Qed.

Lemma skip_comment t : forall s l, nl t = 0 -> skip_ws true (t ++ 10 :: s) l = skip_ws false s (l + 1).
Proof.
  induction t as [|c t IH]; intros s l Ht; [done|]. apply nl_zero_cons in Ht as [Hc Ht]. cbn [app skip_ws]. rewrite (proj2 (Z.eqb_neq _ _)) by done. by apply IH.
Qed.

Lemma skip_comment_end t : forall l, nl t = 0 -> skip_ws true t l = Lex [] l.
Proof. induction t as [|c t IH]; intros l Ht; [done|]. apply nl_zero_cons in Ht as [Hc Ht]. cbn [skip_ws]. rewrite (proj2 (Z.eqb_neq _ _)) by done. by apply IH. Qed.

Lemma skip_token s l : token s -> skip_ws false s l = Lex s l.
Proof.
  destruct s as [|c s]; [done|]. intros (Hw & H10 & H35). cbn [skip_ws andb]. unfold ws in Hw. rewrite Hw, (proj2 (Z.eqb_neq c 10)), (proj2 (Z.eqb_neq c 35)) by done. done.
Qed.

Lemma skip_blank b : blank b -> forall s l, skip_ws false (b ++ s) l = skip_ws false s (l + nl b).
Proof.
  induction 1 as [|c b Hc _ IH|t b Ht _ IH]; intros s l.
  - by rewrite Z.add_0_r.
  - cbn [app skip_ws andb]. rewrite nl_cons. destruct Hc as [Hc| ->].
    + unfold ws in Hc. rewrite Hc, IH. f_equal. destruct (decide (c = 10)) as [->|]; [done|lia].
    + simpl. rewrite IH. f_equal. lia.
  - cbn [app skip_ws andb]. simpl. rewrite <- (assoc_L (++)). cbn [app]. rewrite skip_comment, IH by done. f_equal. rewrite nl_cons, nl_app, nl_cons. simpl. lia.
Qed.

Lemma skip_to b s l : blank b -> token s -> exists l', lex_skip_ws (Lex (b ++ s) l) = Lex s l'.
Proof. intros Hb Hs. eexists. unfold lex_skip_ws. cbn [p line]. rewrite skip_blank by done. by apply skip_token. Qed.

Lemma skip_end s l : blank_end s -> exists l', lex_skip_ws (Lex s l) = Lex [] l'.
Proof.
  intros (b & t & Hb & Ht & [->| ->]).
  - rewrite <- (app_nil_r b). by apply skip_to.
  - eexists. unfold lex_skip_ws. cbn [p line]. rewrite skip_blank by done. cbn [skip_ws andb]. simpl. by apply skip_comment_end.
Qed.

(** ** Strings and keys *)

Definition esc_char (c : Z) : list Z := if escapes c then [92; c] else [c].
Definition esc (v : list Z) : list Z := flat_map esc_char v.
Definition quoted (v : list Z) : list Z := 34 :: esc v ++ [34].

(** What a string can hold: no newline, no NUL. *)
Definition str_ok (v : list Z) : Prop := Forall (fun c => c <> 10 /\ c <> 0) v.

Lemma scan_esc v : forall r, str_ok v -> scan_string (esc v ++ 34 :: r) = Some (esc v, zlen v, 34 :: r).
Proof.
  induction v as [|c v IH]; intros r Hv; [done|]. inversion Hv as [|? ? [H10 _] Hv']; subst. specialize (IH r Hv').
  cbn [esc flat_map]. fold (esc v). unfold esc_char. destruct (escapes c) eqn:E; cbn [app].
  - cbn [scan_string Z.eqb Pos.eqb andb]. rewrite E, IH. cbn [mbind option_bind length]. do 3 f_equal. lia.
  - unfold escapes in E. breflect. assert (exists d t, esc v ++ 34 :: r = d :: t) as (d & t & Ed) by (destruct (esc v); simpl; eauto).
    rewrite Ed in IH |- *. change (scan_string (c :: d :: t)) with (if c =? 34 then Some ([], 0, c :: d :: t) else if c =? 10 then None else
      if (c =? 92) && escapes d then '(raw, n, r) ← scan_string t; Some (c :: d :: raw, n + 1, r) else '(raw, n, r) ← scan_string (d :: t); Some (c :: raw, n + 1, r)).
    rewrite (proj2 (Z.eqb_neq c 34)), (proj2 (Z.eqb_neq c 10)), (proj2 (Z.eqb_neq c 92)) by done. cbn [andb].
    rewrite IH. cbn [mbind option_bind length]. do 3 f_equal. lia.
Qed.

Lemma unescape_esc v : unescape (esc v) = v.
Proof.
  induction v as [|c v IH]; [done|]. cbn [esc flat_map]. fold (esc v). unfold esc_char. destruct (escapes c) eqn:E; cbn [app].
  - cbn [unescape]. rewrite E. cbn [andb Z.eqb Pos.eqb]. by rewrite IH.
  - unfold escapes in E. breflect. destruct (esc v) as [|d t] eqn:Ed; [by destruct v|].
    change (unescape (c :: d :: t)) with (if (c =? 92) && escapes d then d :: unescape t else c :: unescape (d :: t)).
    rewrite (proj2 (Z.eqb_neq c 92)) by done. cbn [andb]. by rewrite IH.
Qed.

Lemma str_no_nul v : str_ok v -> no_nul v.
Proof. intros H. eapply Forall_impl; [exact H|]. by intros c [_ ?]. Qed.

Definition key_ok (k : list Z) : Prop := k <> [] /\ head k <> Some 91 /\ Forall (fun c => key_end c = false /\ c <> 0) k.

Lemma key_span_ok k s : Forall (fun c => key_end c = false /\ c <> 0) k -> (s = [] \/ exists c t, s = c :: t /\ key_end c = true) ->
  key_span (k ++ s) = (k, s).
Proof.
  intros Hk Hs. induction Hk as [|c k [Hc _] _ IH]; cbn [app key_span]; [|by rewrite Hc, IH].
  destruct Hs as [->|(c & t & -> & Hc)]; [done|]. cbn [key_span]. by rewrite Hc.
Qed.

Lemma key_token k s : key_ok k -> token (k ++ s).
Proof.
  intros (Hne & _ & Hk). destruct k as [|c k]; [done|]. inversion Hk as [|? ? [Hc _] _]; subst. unfold key_end in Hc. cbn [app token]. breflect.
  unfold ws. by rewrite !(proj2 (Z.eqb_neq _ _)) by done.
Qed.

(** A blank, or what follows one, ends a key at the equals sign. *)
Lemma blank_key_end b s : blank b -> exists c t, b ++ 61 :: s = c :: t /\ key_end c = true.
Proof.
  intros Hb. inversion Hb as [|c b' Hc _|t b' Ht _]; subst; cbn [app]; do 2 eexists; (split; [done|]); [done| |done].
  destruct Hc as [Hc| ->]; [|done]. unfold ws in Hc. unfold key_end. apply orb_true_iff in Hc as [[->| ->]%orb_true_iff| ->]; by rewrite ?orb_true_r.
Qed.

(** ** The grammar *)

Inductive item :=
  | Scalar (k v : list Z)
  | Array (w : array) (vs : list (list Z))
  | Other (k : list Z).

(** The elements of an array and its closing bracket. *)
Inductive elems : list Z -> list (list Z) -> Prop :=
| elems_nil s : blank s -> elems (s ++ [93]) []
| elems_last s v s' : blank s -> str_ok v -> blank s' -> elems (s ++ quoted v ++ s' ++ [93]) [v]
| elems_cons s v s' rest vs : blank s -> str_ok v -> blank s' -> elems rest vs -> elems (s ++ quoted v ++ s' ++ 44 :: rest) (v :: vs).

(** A bare value: neither quote nor bracket first, no blank at either end. *)
Definition bare (v : list Z) : Prop :=
  Forall (fun c => c <> 10 /\ c <> 35) v /\ token v /\ v <> [] /\ head v <> Some 34 /\ head v <> Some 91 /\ (forall c, last v = Some c -> ws c = false).

Inductive doc : list Z -> list item -> Prop :=
| doc_end s : blank_end s -> doc s []
| doc_table s t rest its :
    blank s -> nl t = 0 -> rest = [] \/ head rest = Some 10 -> doc rest its -> doc (s ++ 91 :: t ++ rest) its
| doc_scalar s k s1 s2 v rest its :
    blank s -> key_ok k -> blank s1 -> blank s2 -> str_ok v -> doc rest its ->
    doc (s ++ k ++ s1 ++ 61 :: s2 ++ quoted v ++ rest) (Scalar k v :: its)
| doc_array s k s1 s2 w body vs rest its :
    blank s -> key_ok k -> blank s1 -> blank s2 -> array_of k = Some w -> elems body vs -> doc rest its ->
    doc (s ++ k ++ s1 ++ 61 :: s2 ++ 91 :: body ++ rest) (Array w vs :: its)
| doc_other s k s1 s2 v rest its :
    blank s -> key_ok k -> blank s1 -> blank s2 -> bare v -> forallb ws (to_eol true rest).1 = true -> doc rest its ->
    doc (s ++ k ++ s1 ++ 61 :: s2 ++ v ++ rest) (Other k :: its).

(** ** What the items say *)

Definition add_array (w : array) (vs : list (list Z)) (u : pm_metal_build_unit) : pm_metal_build_unit :=
  match w with
  | Sources => Unit (fqn u) (impl u) (version u) (sources u ++ vs) (include_dirs u) (defines u) (depends u)
  | Includes => Unit (fqn u) (impl u) (version u) (sources u) (include_dirs u ++ vs) (defines u) (depends u)
  | Defines => Unit (fqn u) (impl u) (version u) (sources u) (include_dirs u) (defines u ++ vs) (depends u)
  | Depends => Unit (fqn u) (impl u) (version u) (sources u) (include_dirs u) (defines u) (depends u ++ vs)
  end.

(** [None] when a name is too long for its field. *)
Fixpoint says (its : list item) (u : pm_metal_build_unit) : option pm_metal_build_unit :=
  match its with
  | [] => Some u
  | Scalar k v :: t => u' ← set_scalar u k v; says t u'
  | Array w vs :: t => says t (add_array w vs u)
  | Other _ :: t => says t u
  end.

(** The unit the parser has put together so far. *)
Definition so_far (st : parse) : pm_metal_build_unit :=
  Unit (fqn (pu st)) (impl (pu st)) (version (pu st)) (items (srcs st)) (items (incs st)) (items (defs st)) (items (deps st)).
Definition clean (st : parse) : Prop := oom (srcs st) = false /\ oom (incs st) = false /\ oom (defs st) = false /\ oom (deps st) = false.

Lemma set_scalar_so_far st k v u : set_scalar (so_far st) k v = Some u ->
  exists u', set_scalar (pu st) k v = Some u' /\ so_far (Parse u' (srcs st) (incs st) (defs st) (deps st)) = u.
Proof.
  unfold set_scalar. repeat case_bool_decide; try (destruct (_ <=? _); [done|]); intros [= <-]; eexists; (split; [done|]); done.
Qed.

Lemma so_far_array w st s v : items s = items (get_array w st) ++ v -> so_far (set_array w s st) = add_array w v (so_far st).
Proof. intros E. destruct w; cbn in *; unfold so_far; cbn; by rewrite E. Qed.

Lemma add_array_app w a b u : add_array w b (add_array w a u) = add_array w (a ++ b) u.
Proof. destruct w; cbn; by rewrite (assoc_L (++)). Qed.
Lemma add_array_nil w u : add_array w [] u = u.
Proof. destruct u, w; cbn; by rewrite app_nil_r. Qed.

Lemma clean_array w s st : clean st -> oom s = false -> clean (set_array w s st).
Proof. intros (? & ? & ? & ?) ?. by destruct w. Qed.
Lemma clean_get w st : clean st -> oom (get_array w st) = false.
Proof. intros (? & ? & ? & ?). by destruct w. Qed.

(** ** Parsing them *)

Section arena.
Context {A : Type} `{AR : !Arena A, AL : !ArenaLaws A, AMP : !ArenaAmple A}.
Implicit Types (a : A).

Lemma wp_alloc_arena n (Q : option (list Z) -> A -> Prop) a : 0 <= n -> (forall b a', zlen b = n -> Q (Some b) a') -> wp (alloc n) Q a.
Proof.
  intros Hn HQ. unfold wp, alloc. pose proof (ample n a) as [b Hb]. destruct (mem_alloc n a) as [a' r] eqn:E. simpl in Hb. subst r.
  apply HQ. by eapply alloc_size.
Qed.

Lemma dup_str_done src n a : zlen src = n -> no_nul src -> wp (dup_str src n) (fun r _ => r = Some src) a.
Proof.
  intros Hn Hs. unfold dup_str. wstep. apply wp_alloc_arena; [lia|]. intros b a' Hb. wstep. eapply wp_chk.
  - rewrite blit_is_Some; [|lia|rewrite length_app; simpl; lia]. rewrite drop_ge by (rewrite length_app; simpl; lia). by rewrite app_nil_r.
  - wstep. change (take (Z.to_nat 0) b) with (@nil Z). rewrite app_nil_l. f_equal. by apply cstr_nul.
Qed.

Lemma parse_string_done v r l a : str_ok v -> wp (parse_string (Lex (esc v ++ 34 :: r) l)) (fun o _ => o = (Some v, Lex r l)) a.
Proof.
  intros Hv. unfold parse_string. cbn [p line]. rewrite scan_esc by done. wstep. rewrite unescape_esc.
  eapply wp_mono; [by apply dup_str_done, str_no_nul|]. intros o a1 ->. by wstep.
Qed.

Lemma parse_key_done k s l a : key_ok k -> (exists c t, s = c :: t /\ key_end c = true) -> wp (parse_key (Lex (k ++ s) l)) (fun o _ => o = (Some k, Lex s l)) a.
Proof.
  intros (Hne & _ & Hk) Hs. unfold parse_key. cbn [p line]. rewrite key_span_ok by (by try right). rewrite bool_decide_eq_false_2 by done.
  wstep. eapply wp_mono; [apply dup_str_done; [done|]|].
  - eapply Forall_impl; [exact Hk|]. by intros c [_ ?].
  - intros o a1 ->. by wstep.
Qed.

Lemma strings_push_done T lx s v a : T < 2147483648 -> strings_ok T lx s -> oom s = false ->
  wp (strings_push s v) (fun s' _ => items s' = items s ++ [v] /\ oom s' = false) a.
Proof.
  intros HT [Hc Hn] Ho. unfold strings_push. rewrite Ho. destruct (Z.eqb_spec (zlen (items s)) (cap s)) as [E|E]; [|by wstep].
  cbv zeta. wstep. set (ncap := if cap s =? 0 then 8 else u32 (cap s * 2)). assert (Hncap : zlen (items s) < ncap).
  { unfold ncap. destruct (Z.eqb_spec (cap s) 0); [lia|]. rewrite u32_small by lia. lia. }
  apply wp_alloc_arena; [lia|]. intros b a' _. rewrite (proj2 (Z.ltb_lt _ _)) by done. by wstep.
Qed.

Context (T : Z) (HT : T < 2147483648).

(** The parser at [lx] with [u] put together so far. *)
Definition holds (lx : lex) (st : parse) (u : pm_metal_build_unit) : Prop := parse_ok T lx st /\ clean st /\ so_far st = u.

Definition reads (r : (Z * msg) * parse + lex * parse) (rest : list Z) (u : pm_metal_build_unit) : Prop :=
  exists l st, r = inr (Lex rest l, st) /\ holds (Lex rest l) st u.

Lemma peek_token c t l : lex_peek (Lex (c :: t) l) = c.
Proof. done. Qed.

Lemma push_step w v lx lx' st u a : holds lx st u -> past lx lx' ->
  wp (strings_push (get_array w st) v) (fun s _ => holds lx' (set_array w s st) (add_array w [v] u)) a.
Proof.
  intros (Hok & Hcl & <-) Hp. pose proof (get_array_ok T lx st w Hok) as Hs.
  eapply wp_mono; [apply wp_conj; [by apply (strings_push_ok T lx lx')|by apply (strings_push_done T lx); [..|apply clean_get]]|].
  intros s a1 [Hs' [Hi Ho]]. split; [|split; [by apply clean_array|by apply so_far_array]].
  apply parse_ok_array; [|done]. eapply parse_ok_onward; [apply Hp|done].
Qed.

Lemma onward_lex s t l l' : (length t <= length s)%nat -> l <= l' -> l' + nl t = l + nl s -> onward (Lex s l) (Lex t l').
Proof. done. Qed.

(** One element, up to the comma or the bracket after it. *)
Lemma array_elem f w s v s' c t l st u a : blank s -> str_ok v -> blank s' -> ws c = false -> c <> 10 -> c <> 35 ->
  holds (Lex (s ++ quoted v ++ s' ++ c :: t) l) st u ->
  exists l', forall Q, (forall st' a', holds (Lex (c :: t) l') st' (add_array w [v] u) ->
    wp (array_loop f w (if c =? 44 then Lex t l' else Lex (c :: t) l') st') Q a') ->
  wp (array_loop (S f) w (Lex (s ++ quoted v ++ s' ++ c :: t) l) st) Q a.
Proof.
  intros Hs Hv Hs' Hc H10 H35 Hh. destruct (skip_to s (quoted v ++ s' ++ c :: t) l Hs) as [l1 E1]; [done|]. destruct (skip_to s' (c :: t) l1 Hs') as [l2 E2]; [done|].
  exists l2. intros Q HQ. cbn [array_loop]. cbv zeta. pose proof (lex_skip_ws_onward (Lex (s ++ quoted v ++ s' ++ c :: t) l)) as O1. rewrite E1 in O1 |- *.
  unfold quoted in *. cbn [app] in *. rewrite <- !(assoc_L (++)) in *. cbn [app] in *. rewrite peek_token. change (34 =? 93) with false. cbv iota. cbn [p line].
  unfold expect. cbn [p line]. change (34 =? 34) with true. cbv iota. wstep.
  eapply wp_mono; [by apply parse_string_done|]. intros o a1 ->. cbn [fst snd]. wstep.
  assert (P1 : past (Lex (s ++ 34 :: esc v ++ 34 :: s' ++ c :: t) l) (Lex (s' ++ c :: t) l1)).
  { eapply onward_past; [exact O1|]. replace (34 :: esc v ++ 34 :: s' ++ c :: t) with ((34 :: esc v ++ [34]) ++ s' ++ c :: t) by (cbn [app]; by rewrite <- (assoc_L (++))).
    apply past_skip; [|done]. destruct (scan_string_spec _ _ _ _ (scan_esc v [] Hv)) as (_ & Hn & _). rewrite nl_cons, nl_app, Hn. done. }
  eapply wp_mono; [by eapply push_step|]. intros st' a2 Hst; cbv beta in Hst.
  pose proof (lex_skip_ws_onward (Lex (s' ++ c :: t) l1)) as O2. rewrite E2 in O2 |- *. rewrite peek_token. cbn [p line tail].
  apply HQ. destruct Hst as (Hok & ? & ?). split; [by eapply parse_ok_onward|done].
Qed.

Lemma holds_onward lx lx' st u : onward lx lx' -> holds lx st u -> holds lx' st u.
Proof. intros Ho (Hok & ? & ?). split; [by eapply parse_ok_onward|done]. Qed.

Lemma onward_tail c t l : c <> 10 -> onward (Lex (c :: t) l) (Lex t l).
Proof. intros H. apply (onward_skip [c]). by rewrite nl_cons, decide_False. Qed.

Lemma array_close f w b rest l st u a : blank b -> holds (Lex (b ++ 93 :: rest) l) st u ->
  wp (array_loop (S f) w (Lex (b ++ 93 :: rest) l) st) (fun r _ => reads r rest u) a.
Proof.
  intros Hb Hh. destruct (skip_to b (93 :: rest) l Hb) as [l1 E1]; [done|]. cbn [array_loop]. cbv zeta.
  pose proof (lex_skip_ws_onward (Lex (b ++ 93 :: rest) l)) as O1. rewrite E1 in O1 |- *. rewrite peek_token. change (93 =? 93) with true. cbv iota. cbn [p line tail].
  wstep. exists l1, st. split; [done|]. eapply holds_onward; [|exact Hh]. eapply onward_trans; [exact O1|by apply onward_tail].
Qed.

Lemma array_done w body vs : elems body vs -> forall f l rest st u a, (length (body ++ rest) < f)%nat -> holds (Lex (body ++ rest) l) st u ->
  wp (array_loop f w (Lex (body ++ rest) l) st) (fun r _ => reads r rest (add_array w vs u)) a.
Proof.
  induction 1 as [s Hs|s v s' Hs Hv Hs'|s v s' body vs Hs Hv Hs' _ IH]; intros f l rest st u a Hf Hh; (destruct f as [|f]; [lia|]).
  - rewrite <- (assoc_L (++)) in *. cbn [app] in *. rewrite add_array_nil. by apply array_close.
  - rewrite <- !(assoc_L (++)) in *. cbn [app] in *.
    destruct (array_elem f w s v s' 93 rest l st u a Hs Hv Hs' eq_refl ltac:(done) ltac:(done) Hh) as [l' Hel]. apply Hel. intros st' a' Hh'. change (93 =? 44) with false. cbv iota.
    destruct f as [|f]; [clear Hel Hh Hh'; unfold quoted in Hf; llia|]. by apply (array_close f w [] rest l' st'); [constructor|].
  - rewrite <- !(assoc_L (++)) in *. cbn [app] in *.
    destruct (array_elem f w s v s' 44 (body ++ rest) l st u a Hs Hv Hs' eq_refl ltac:(done) ltac:(done) Hh) as [l' Hel]. apply Hel. intros st' a' Hh'. change (44 =? 44) with true. cbv iota.
    change (v :: vs) with ([v] ++ vs). rewrite <- add_array_app. apply IH.
    + clear Hel Hh Hh'. unfold quoted in Hf. llia.
    + eapply holds_onward; [|exact Hh']. by apply onward_tail.
Qed.

(** ** Values *)

Lemma holds_set_scalar lx st u k v u' : holds lx st u -> set_scalar u k v = Some u' -> exists w,
  set_scalar (pu st) k v = Some w /\ holds lx (Parse w (srcs st) (incs st) (defs st) (deps st)) u'.
Proof.
  intros (Hok & Hcl & <-) Hs. destruct (set_scalar_so_far st k v u' Hs) as (w & E & Ew). exists w. split; [done|]. split; [|by split].
  destruct Hok as (Hu & ? & ? & ? & ?). split_and!; try done. by eapply set_scalar_fits.
Qed.

Lemma quoted_onward v rest l : str_ok v -> onward (Lex (quoted v ++ rest) l) (Lex rest l).
Proof. intros Hv. apply onward_skip. unfold quoted. destruct (scan_string_spec _ _ _ _ (scan_esc v [] Hv)) as (_ & Hn & _). by rewrite nl_cons, nl_app, Hn. Qed.

Lemma value_scalar f k v rest l st u u' a : str_ok v -> holds (Lex (quoted v ++ rest) l) st u -> set_scalar u k v = Some u' ->
  wp (parse_value f k (Lex (quoted v ++ rest) l) st) (fun r _ => reads r rest u') a.
Proof.
  intros Hv Hh Hs. pose proof (quoted_onward v rest l Hv) as Ho. unfold parse_value, quoted in *. cbn [app] in *. rewrite <- (assoc_L (++)) in *. cbn [app] in *.
  rewrite peek_token. change (34 =? 34) with true. cbv iota. cbn [p line tail]. wstep. eapply wp_mono; [by apply parse_string_done|]. intros o a1 ->. cbn [fst snd].
  destruct (holds_set_scalar _ _ _ _ _ _ Hh Hs) as (w & -> & Hw). wstep. eexists _, _. split; [done|]. by eapply holds_onward.
Qed.

Lemma value_array f k w body vs rest l st u a : array_of k = Some w -> elems body vs -> (length (91%Z :: body ++ rest) < f)%nat ->
  holds (Lex (91 :: body ++ rest) l) st u -> wp (parse_value f k (Lex (91 :: body ++ rest) l) st) (fun r _ => reads r rest (add_array w vs u)) a.
Proof.
  intros Hk Hb Hf Hh. unfold parse_value. rewrite peek_token. change (91 =? 34) with false. change (91 =? 91) with true. cbv iota. rewrite Hk. cbn [p line tail].
  apply array_done; [done|simpl in Hf; lia|]. eapply holds_onward; [|exact Hh]. by apply onward_tail.
Qed.

Lemma to_eol_bare v rest : Forall (fun c => c <> 10 /\ c <> 35) v -> to_eol true (v ++ rest) = (v ++ (to_eol true rest).1, (to_eol true rest).2).
Proof.
  induction 1 as [|c v [H10 H35] _ IH]; cbn [app]; [by destruct (to_eol true rest)|]. cbn [to_eol andb].
  rewrite (proj2 (Z.eqb_neq c 10)), (proj2 (Z.eqb_neq c 35)), IH by done. done.
Qed.

Lemma trim_blank b : forallb ws b = true -> trim b = [].
Proof. induction b as [|c b IH]; [done|]. cbn [forallb trim]. intros [Hc Hb]%andb_true_iff. rewrite IH by done. unfold ws in Hc. by rewrite Hc. Qed.

Lemma trim_bare v b : v <> [] -> (forall c, last v = Some c -> ws c = false) -> forallb ws b = true -> trim (v ++ b) = v.
Proof.
  intros Hv Hl Hb. induction v as [|c v IH]; [done|]. cbn [app trim]. destruct v as [|d v].
  - cbn [app]. rewrite trim_blank by done. specialize (Hl c eq_refl). unfold ws in Hl. by rewrite Hl.
  - by rewrite (IH ltac:(done) Hl).
Qed.

Lemma value_bare f k v rest l st u a : bare v -> forallb ws (to_eol true rest).1 = true ->
  holds (Lex (v ++ rest) l) st u -> wp (parse_value f k (Lex (v ++ rest) l) st) (fun r _ => reads r rest u) a.
Proof.
  intros (Hf & Ht & Hne & H34 & H91 & Hl) Hr Hh. unfold parse_value. cbn [p line]. rewrite to_eol_bare by done. cbn [fst]. rewrite trim_bare by done. cbv zeta.
  rewrite bool_decide_eq_false_2, drop_app_length by done. assert (Hnl : nl v = 0).
  { clear -Hf. induction Hf as [|c v [? _] _ IH]; [done|]. rewrite nl_cons, decide_False by done. lia. }
  pose proof (onward_skip v rest l Hnl) as Ho. destruct v as [|c v]; [done|]. cbn [app] in *. rewrite peek_token.
  assert (c <> 34 /\ c <> 91) as [? ?] by (split; intros ->; done). rewrite (proj2 (Z.eqb_neq c 34)), (proj2 (Z.eqb_neq c 91)) by done.
  wstep. exists l, st. split; [done|]. by eapply holds_onward.
Qed.

(** ** Whole texts *)

Lemma token_bracket t : token (91 :: t).
Proof. done. Qed.

(** From a key to its value. *)
Lemma to_value f s k s1 s2 tl rest l st u u' a : blank s -> key_ok k -> blank s1 -> blank s2 -> token tl ->
  (length (s ++ k ++ s1 ++ 61%Z :: s2 ++ tl) < S f)%nat -> holds (Lex (s ++ k ++ s1 ++ 61 :: s2 ++ tl) l) st u ->
  (forall l' a', holds (Lex tl l') st u -> (length tl < f)%nat -> wp (parse_value f k (Lex tl l') st) (fun r _ => reads r rest u') a') ->
  (length rest < f)%nat ->
  forall Q, (forall l' st' a', holds (Lex rest l') st' u' -> wp (parse_loop f (Lex rest l') st') Q a') ->
  wp (parse_loop (S f) (Lex (s ++ k ++ s1 ++ 61 :: s2 ++ tl) l) st) Q a.
Proof.
  intros Hs Hk Hs1 Hs2 Htl Hf Hh Hv Hrest Q HQ. cbn [parse_loop]. cbv zeta.
  destruct (skip_to s (k ++ s1 ++ 61 :: s2 ++ tl) l Hs) as [l1 E1]; [by apply key_token|]. destruct (skip_to s1 (61 :: s2 ++ tl) l1 Hs1) as [l2 E2]; [done|].
  destruct (skip_to s2 tl l2 Hs2) as [l3 E3]; [done|].
  pose proof (lex_skip_ws_onward (Lex (s ++ k ++ s1 ++ 61 :: s2 ++ tl) l)) as O1. rewrite E1 in O1 |- *. cbn [p].
  assert (exists c t, k ++ s1 ++ 61 :: s2 ++ tl = c :: t /\ c <> 91) as (c & t & Ec & H91).
  { destruct Hk as (? & Hh91 & _). destruct k as [|c k]; [done|]. exists c, (k ++ s1 ++ 61 :: s2 ++ tl). split; [done|]. intros ->. by apply Hh91. }
  rewrite Ec. rewrite (proj2 (Z.eqb_neq c 91)) by done. rewrite <- Ec. wstep. eapply wp_mono; [apply parse_key_done; [done|by apply blank_key_end]|]. intros o a1 ->. cbn [fst snd].
  assert (O2 : onward (Lex (k ++ s1 ++ 61 :: s2 ++ tl) l1) (Lex (s1 ++ 61 :: s2 ++ tl) l1)).
  { apply onward_skip. destruct Hk as (_ & _ & Hk). clear -Hk. induction Hk as [|c k [Hc _] _ IH]; [done|]. unfold key_end in Hc. breflect. by rewrite nl_cons, decide_False, IH. }
  pose proof (lex_skip_ws_onward (Lex (s1 ++ 61 :: s2 ++ tl) l1)) as O3. rewrite E2 in O3 |- *. unfold expect. cbn [p line]. change (61 =? 61) with true. cbv iota. wstep.
  pose proof (lex_skip_ws_onward (Lex (s2 ++ tl) l2)) as O4. rewrite E3 in O4 |- *.
  assert (O : onward (Lex (s ++ k ++ s1 ++ 61 :: s2 ++ tl) l) (Lex tl l3)).
  { eapply onward_trans; [exact O1|]. eapply onward_trans; [exact O2|]. eapply onward_trans; [exact O3|]. eapply onward_trans; [by apply onward_tail|exact O4]. }
  eapply wp_mono; [apply Hv|].
  - by eapply holds_onward.
  - destruct Hk as (Hne & _). destruct k; [done|]. clear -Hf. llia.
  - intros r a2 (l' & st' & -> & Hst'). by apply HQ.
Qed.

Lemma doc_done bytes its : doc bytes its -> forall f l st u u' a, (length bytes < f)%nat -> holds (Lex bytes l) st u -> says its u = Some u' ->
  wp (parse_loop f (Lex bytes l) st) (fun r _ => reads r [] u') a.
Proof.
  induction 1 as [s Hs|s t rest its Hs Ht Hr _ IH|s k s1 s2 v rest its Hs Hk Hs1 Hs2 Hv _ IH|s k s1 s2 w body vs rest its Hs Hk Hs1 Hs2 Hw Hb _ IH|s k s1 s2 v rest its Hs Hk Hs1 Hs2 Hv Hr _ IH];
    intros f l st u u' a Hf Hh Hsays; (destruct f as [|f]; [lia|]).
  - destruct (skip_end s l Hs) as [l1 E1]. cbn [parse_loop]. cbv zeta. pose proof (lex_skip_ws_onward (Lex s l)) as O1. rewrite E1 in O1 |- *. cbn [p].
    wstep. injection Hsays as <-. eexists _, _. split; [done|]. by eapply holds_onward.
  - destruct (skip_to s (91 :: t ++ rest) l Hs) as [l1 E1]; [done|]. cbn [parse_loop]. cbv zeta. pose proof (lex_skip_ws_onward (Lex (s ++ 91 :: t ++ rest) l)) as O1. rewrite E1 in O1 |- *.
    cbn [p line]. change (91 =? 91) with true. cbv iota. assert (Eol : (to_eol false (91 :: t ++ rest)).2 = rest).
    { cbn [to_eol]. change ((91 =? 10) || (false && (91 =? 35))) with false. cbv iota. assert (E : (to_eol false (t ++ rest)).2 = rest); [|by destruct (to_eol false (t ++ rest))].
      clear -Ht Hr. induction t as [|c t IHt]; cbn [app].
      - destruct rest as [|c rest]; [done|]. destruct Hr as [?|Hr]; [done|]. injection Hr as ->. done.
      - apply nl_zero_cons in Ht as [Hc Ht]. cbn [to_eol andb]. rewrite (proj2 (Z.eqb_neq c 10)) by done. cbn [orb]. specialize (IHt Ht). by destruct (to_eol false (t ++ rest)). }
    rewrite Eol. apply (IH f l1 st u); [clear -Hf; llia| |done].
    eapply holds_onward; [|exact Hh]. eapply onward_trans; [exact O1|]. apply (onward_skip (91 :: t)). by rewrite nl_cons, decide_False.
  - cbn [says] in Hsays. apply bind_Some in Hsays as (u1 & Hset & Hsays).
    eapply (to_value f s k s1 s2 (quoted v ++ rest) rest l st u u1); try done.
    + intros l' a' Hh' _. by eapply value_scalar.
    + clear -Hf. unfold quoted in Hf. llia.
    + intros l' st' a' Hst'. apply (IH f l' st' u1); [clear -Hf; unfold quoted in Hf; llia|done|done].
  - eapply (to_value f s k s1 s2 (91 :: body ++ rest) rest l st u (add_array w vs u)); try done.
    + intros l' a' Hh' Hl'. by apply value_array.
    + clear -Hf. llia.
    + intros l' st' a' Hst'. apply (IH f l' st' (add_array w vs u)); [clear -Hf; llia|done|done].
  - pose proof Hv as (_ & Htk & Hne & _). destruct v as [|c v]; [done|].
    eapply (to_value f s k s1 s2 ((c :: v) ++ rest) rest l st u u); try done.
    + intros l' a' Hh' _. by apply value_bare.
    + clear -Hf. llia.
    + intros l' st' a' Hst'. apply (IH f l' st' u); [clear -Hf; llia|done|done].
Qed.
End arena.

(** C25: a text of the manifest grammar, shorter than 2 GiB, is parsed without
    an error into exactly the unit its items describe, blanks, comments and
    escapes making no difference, provided the memory suffices, every name
    fits its field and the name and implementation are given. *)
Theorem unit_parse_grammar {A : Type} `{!Arena A, !ArenaLaws A, !ArenaAmple A} (bytes : list Z) (its : list item) (u : pm_metal_build_unit) (a : A)
    (Hdoc : doc bytes its) (Hu : says its zero_unit = Some u) (Hf : fqn u <> []) (Hi : impl u <> []) (Hb : zlen bytes < 2147483648) :
  wp (pm_metal_build_unit_parse bytes) (fun r _ => r = (BUILD_OK, u, None)) a.
Proof.
  unfold pm_metal_build_unit_parse. wstep. eapply wp_mono; [apply (doc_done (zlen bytes) Hb bytes its Hdoc _ _ _ zero_unit u); [lia| |done]|].
  - split; [|by split]. unfold parse_ok, strings_ok. cbn. split_and!; try done; lia.
  - intros r a1 (l & st & -> & _ & Hcl & <-). wstep. unfold finish. destruct Hcl as (-> & -> & -> & ->). cbn [orb]. cbv zeta.
    unfold so_far in Hf, Hi |- *. cbn [fqn impl version] in *. by rewrite !bool_decide_eq_false_2.
Qed.

(** ** A manifest *)

#[local] Existing Instances zero_arena zero_arena_laws zero_arena_ample.

(** # x
    [t]
    fqn = "a.b"
    impl="c"
    level = 3 # y
    depends = ["\\", "d" ,] *)
Definition key_level : list Z := [108; 101; 118; 101; 108].
Definition key_depends : list Z := [100; 101; 112; 101; 110; 100; 115].
Definition line6 : list Z := [10] ++ key_depends ++ [32] ++ 61 :: [32] ++ 91 :: ([] ++ quoted [92] ++ [] ++ 44 :: ([32] ++ quoted [100] ++ [32] ++ 44 :: ([] ++ [93]))) ++ [10; 35; 122].
Definition line5 : list Z := [10] ++ key_level ++ [32] ++ 61 :: [32] ++ [51] ++ (32 :: 35 :: [121] ++ line6).
Definition line4 : list Z := [10] ++ key_impl ++ [] ++ 61 :: [] ++ quoted [99] ++ line5.
Definition line3 : list Z := [10] ++ key_fqn ++ [32] ++ 61 :: [32] ++ quoted [97; 46; 98] ++ line4.
Definition manifest0 : list Z := (35 :: [32; 120] ++ [10]) ++ 91 :: [116; 93] ++ line3.
Definition items0 : list item := [Scalar key_fqn [97; 46; 98]; Scalar key_impl [99]; Other key_level; Array Depends [[92]; [100]]].

Lemma blank_one c : ws c = true \/ c = 10 -> blank [c].
Proof. intros H. apply blank_char; [exact H|constructor]. Qed.

Ltac plain := repeat first [apply Forall_nil_2 | apply Forall_cons_2]; by (done || vm_compute).

Lemma doc_manifest0 : doc manifest0 items0.
Proof.
  assert (B : forall c, c = 32 \/ c = 10 -> blank [c]) by (intros c [->| ->]; apply blank_one; auto).
  apply doc_table; [apply (blank_comment [32; 120] []); [done|constructor]|done|by right|].
  apply doc_scalar; [by apply B; right|split_and!; [done|done|plain]|by apply B; left|by apply B; left|plain|].
  apply doc_scalar; [by apply B; right|split_and!; [done|done|plain]|constructor|constructor|plain|].
  apply doc_other; [by apply B; right|split_and!; [done|done|plain]|by apply B; left|by apply B; left| |done|].
  - split_and!; try done; [plain|]. by intros c [= <-].
  - change (doc ([32] ++ 35 :: [121] ++ line6) [Array Depends [[92]; [100]]]). unfold line6. cbn [app].
    change (doc ((32 :: 35 :: [121] ++ [10]) ++ key_depends ++ [32] ++ 61 :: [32] ++ 91 :: ([] ++ quoted [92] ++ [] ++ 44 :: ([32] ++ quoted [100] ++ [32] ++ 44 :: ([] ++ [93]))) ++ [10; 35; 122]) [Array Depends [[92]; [100]]]).
    apply doc_array; [|split_and!; [done|done|plain]|by apply B; left|by apply B; left|done| |].
    + apply blank_char; [by left|]. apply (blank_comment [121] []); [done|constructor].
    + apply elems_cons; [constructor|plain|constructor|]. apply elems_cons; [by apply B; left|plain|by apply B; left|]. apply elems_nil. constructor.
    + apply doc_end. exists [10], [122]. split_and!; [by apply B; right|done|by right].
Qed.

Lemma unit_parse_grammar_witness :
  pm_metal_build_unit_parse manifest0 tt = Done (BUILD_OK, Unit [97; 46; 98] [99] [] [] [] [] [[92]; [100]], None) tt.
Proof.
  destruct (wp_run _ _ _ (unit_parse_grammar manifest0 items0 (Unit [97; 46; 98] [99] [] [] [] [] [[92]; [100]]) tt doc_manifest0 eq_refl
    ltac:(done) ltac:(done) ltac:(by vm_compute))) as (r & [] & E & ->). exact E.
Defined.
End BuildParse.
