(* ===== verification/Ip.v ===== *)
(** * The IP stack's state

    The card-wide tables of src/.../metal/net/ip/__priv__.h and __impl__.c:
    sockets, interfaces, routes, neighbours.  Sockets live in a store keyed by
    address and the slot table holds addresses (0 is NULL), so a socket that
    was dropped and is touched again is a [Fault].  What the card asks of its
    host (the limit knobs and table growth of pymergetic.util, the arena, the
    clock and task queue of the coop card, the NICs) is the class [Host]. *)
From S2P Require Import Prelude.

Module Ip.
Export Store.

(** ** Constants of __priv__.h *)

Definition IP_PKT_MAX := 8232.
Definition IP_TCP_MSS := IP_PKT_MAX - 40.
Definition IP_LO_BE := 2130706433.
Definition BCAST := 4294967295.
Definition IP_RTO_US := 50000.
Definition IP_REXMIT_TRIES := 40.
Definition IP_WND_STALL_US := 30000000.
Definition IP_MASK24 := 4294967040.
Definition IP_ARP_PEND := 1500.
Definition IP_ARP_TTL_US := 60000000.
Definition IP_ARP_RETRY_US := 500000.
Definition IP_ARP_TRIES := 4.
Definition IP_PING_WAIT_US := 2000000.
Definition IP_PING_SPINS := 200000%nat.

Definition TCP_FIN := 1.
Definition TCP_SYN := 2.
Definition TCP_RST := 4.
Definition TCP_PSH := 8.
Definition TCP_ACK := 16.

Definition TX_OK := 0.
Definition TX_WAIT := 1.
Definition TX_ERROR := -1.

Inductive sk_kind := SK_UDP | SK_TCP.
Inductive tcp_state := TCP_NONE | TCP_LISTEN | TCP_SYN_SENT | TCP_SYN_RCVD | TCP_ESTAB | TCP_FIN_WAIT | TCP_CLOSE_WAIT | TCP_LAST_ACK.
#[export] Instance sk_kind_eq : EqDecision sk_kind.
Proof. solve_decision. Defined.
#[export] Instance tcp_state_eq : EqDecision tcp_state.
Proof. solve_decision. Defined.
Definition is_st (a b : tcp_state) : bool := bool_decide (a = b).
Definition is_kind (a b : sk_kind) : bool := bool_decide (a = b).

(** The limit knobs of the card. *)
Inductive knob := Limit_socket | Limit_receive | Limit_resend | Limit_backlog | Limit_route | Limit_neighbour | Limit_interface | Limit_group.

(** ** One socket ([struct pm_metal_sock])

    The fields of the sending direction and of the receiving direction are
    grouped; [rexmit] and [rx] are the whole buffers laid out behind the
    struct, so [rexmit_cap] and [rx_cap] are their lengths. *)

Record snd := Snd {
  snd_nxt : Z; snd_una : Z; snd_wnd : Z; iss : Z; rexmit : list Z; rexmit_len : Z; rexmit_seq : Z; rexmit_flags : Z;
  rexmit_tries : Z; rexmit_end : Z; rexmit_at : Z; wnd_stall_at : Z }.

Definition set_snd_nxt v q := Snd v (snd_una q) (snd_wnd q) (iss q) (rexmit q) (rexmit_len q) (rexmit_seq q) (rexmit_flags q) (rexmit_tries q) (rexmit_end q) (rexmit_at q) (wnd_stall_at q).
Definition set_snd_una v q := Snd (snd_nxt q) v (snd_wnd q) (iss q) (rexmit q) (rexmit_len q) (rexmit_seq q) (rexmit_flags q) (rexmit_tries q) (rexmit_end q) (rexmit_at q) (wnd_stall_at q).
Definition set_snd_wnd v q := Snd (snd_nxt q) (snd_una q) v (iss q) (rexmit q) (rexmit_len q) (rexmit_seq q) (rexmit_flags q) (rexmit_tries q) (rexmit_end q) (rexmit_at q) (wnd_stall_at q).
Definition set_iss v q := Snd (snd_nxt q) (snd_una q) (snd_wnd q) v (rexmit q) (rexmit_len q) (rexmit_seq q) (rexmit_flags q) (rexmit_tries q) (rexmit_end q) (rexmit_at q) (wnd_stall_at q).
Definition set_rexmit_tries v q := Snd (snd_nxt q) (snd_una q) (snd_wnd q) (iss q) (rexmit q) (rexmit_len q) (rexmit_seq q) (rexmit_flags q) v (rexmit_end q) (rexmit_at q) (wnd_stall_at q).
Definition set_rexmit_at v q := Snd (snd_nxt q) (snd_una q) (snd_wnd q) (iss q) (rexmit q) (rexmit_len q) (rexmit_seq q) (rexmit_flags q) (rexmit_tries q) (rexmit_end q) v (wnd_stall_at q).
Definition set_wnd_stall_at v q := Snd (snd_nxt q) (snd_una q) (snd_wnd q) (iss q) (rexmit q) (rexmit_len q) (rexmit_seq q) (rexmit_flags q) (rexmit_tries q) (rexmit_end q) (rexmit_at q) v.

Record rcv := Rcv {
  rcv_nxt : Z; rx : list Z; rx_len : Z; rx_addr : Z; rx_port : Z; peer_fin : bool }.

Definition set_rcv_nxt v r := Rcv v (rx r) (rx_len r) (rx_addr r) (rx_port r) (peer_fin r).
Definition set_peer_fin v r := Rcv (rcv_nxt r) (rx r) (rx_len r) (rx_addr r) (rx_port r) v.

Record sock := Sock {
  k_used : bool; k_fd : Z; k_kind : sk_kind; k_st : tcp_state; k_bound : bool; k_l2 : Z; k_laddr : Z; k_lport : Z;
  k_raddr : Z; k_rport : Z; k_mcast : list Z; k_mcast_cap : Z; k_snd : snd; k_rcv : rcv; k_app_closed : bool;
  k_fin_sent : bool; k_error : bool; k_waiter : Z; k_listen : Z; k_aq : list Z; k_an : Z }.

Definition set_k_st v s := Sock (k_used s) (k_fd s) (k_kind s) v (k_bound s) (k_l2 s) (k_laddr s) (k_lport s) (k_raddr s) (k_rport s) (k_mcast s) (k_mcast_cap s) (k_snd s) (k_rcv s) (k_app_closed s) (k_fin_sent s) (k_error s) (k_waiter s) (k_listen s) (k_aq s) (k_an s).
Definition set_k_bound v s := Sock (k_used s) (k_fd s) (k_kind s) (k_st s) v (k_l2 s) (k_laddr s) (k_lport s) (k_raddr s) (k_rport s) (k_mcast s) (k_mcast_cap s) (k_snd s) (k_rcv s) (k_app_closed s) (k_fin_sent s) (k_error s) (k_waiter s) (k_listen s) (k_aq s) (k_an s).
Definition set_k_l2 v s := Sock (k_used s) (k_fd s) (k_kind s) (k_st s) (k_bound s) v (k_laddr s) (k_lport s) (k_raddr s) (k_rport s) (k_mcast s) (k_mcast_cap s) (k_snd s) (k_rcv s) (k_app_closed s) (k_fin_sent s) (k_error s) (k_waiter s) (k_listen s) (k_aq s) (k_an s).
Definition set_k_laddr v s := Sock (k_used s) (k_fd s) (k_kind s) (k_st s) (k_bound s) (k_l2 s) v (k_lport s) (k_raddr s) (k_rport s) (k_mcast s) (k_mcast_cap s) (k_snd s) (k_rcv s) (k_app_closed s) (k_fin_sent s) (k_error s) (k_waiter s) (k_listen s) (k_aq s) (k_an s).
Definition set_k_lport v s := Sock (k_used s) (k_fd s) (k_kind s) (k_st s) (k_bound s) (k_l2 s) (k_laddr s) v (k_raddr s) (k_rport s) (k_mcast s) (k_mcast_cap s) (k_snd s) (k_rcv s) (k_app_closed s) (k_fin_sent s) (k_error s) (k_waiter s) (k_listen s) (k_aq s) (k_an s).
Definition set_k_raddr v s := Sock (k_used s) (k_fd s) (k_kind s) (k_st s) (k_bound s) (k_l2 s) (k_laddr s) (k_lport s) v (k_rport s) (k_mcast s) (k_mcast_cap s) (k_snd s) (k_rcv s) (k_app_closed s) (k_fin_sent s) (k_error s) (k_waiter s) (k_listen s) (k_aq s) (k_an s).
Definition set_k_rport v s := Sock (k_used s) (k_fd s) (k_kind s) (k_st s) (k_bound s) (k_l2 s) (k_laddr s) (k_lport s) (k_raddr s) v (k_mcast s) (k_mcast_cap s) (k_snd s) (k_rcv s) (k_app_closed s) (k_fin_sent s) (k_error s) (k_waiter s) (k_listen s) (k_aq s) (k_an s).
Definition set_k_mcast v s := Sock (k_used s) (k_fd s) (k_kind s) (k_st s) (k_bound s) (k_l2 s) (k_laddr s) (k_lport s) (k_raddr s) (k_rport s) v (k_mcast_cap s) (k_snd s) (k_rcv s) (k_app_closed s) (k_fin_sent s) (k_error s) (k_waiter s) (k_listen s) (k_aq s) (k_an s).
Definition set_k_mcast_cap v s := Sock (k_used s) (k_fd s) (k_kind s) (k_st s) (k_bound s) (k_l2 s) (k_laddr s) (k_lport s) (k_raddr s) (k_rport s) (k_mcast s) v (k_snd s) (k_rcv s) (k_app_closed s) (k_fin_sent s) (k_error s) (k_waiter s) (k_listen s) (k_aq s) (k_an s).
Definition set_k_snd v s := Sock (k_used s) (k_fd s) (k_kind s) (k_st s) (k_bound s) (k_l2 s) (k_laddr s) (k_lport s) (k_raddr s) (k_rport s) (k_mcast s) (k_mcast_cap s) v (k_rcv s) (k_app_closed s) (k_fin_sent s) (k_error s) (k_waiter s) (k_listen s) (k_aq s) (k_an s).
Definition set_k_rcv v s := Sock (k_used s) (k_fd s) (k_kind s) (k_st s) (k_bound s) (k_l2 s) (k_laddr s) (k_lport s) (k_raddr s) (k_rport s) (k_mcast s) (k_mcast_cap s) (k_snd s) v (k_app_closed s) (k_fin_sent s) (k_error s) (k_waiter s) (k_listen s) (k_aq s) (k_an s).
Definition set_k_app_closed v s := Sock (k_used s) (k_fd s) (k_kind s) (k_st s) (k_bound s) (k_l2 s) (k_laddr s) (k_lport s) (k_raddr s) (k_rport s) (k_mcast s) (k_mcast_cap s) (k_snd s) (k_rcv s) v (k_fin_sent s) (k_error s) (k_waiter s) (k_listen s) (k_aq s) (k_an s).
Definition set_k_fin_sent v s := Sock (k_used s) (k_fd s) (k_kind s) (k_st s) (k_bound s) (k_l2 s) (k_laddr s) (k_lport s) (k_raddr s) (k_rport s) (k_mcast s) (k_mcast_cap s) (k_snd s) (k_rcv s) (k_app_closed s) v (k_error s) (k_waiter s) (k_listen s) (k_aq s) (k_an s).
Definition set_k_error v s := Sock (k_used s) (k_fd s) (k_kind s) (k_st s) (k_bound s) (k_l2 s) (k_laddr s) (k_lport s) (k_raddr s) (k_rport s) (k_mcast s) (k_mcast_cap s) (k_snd s) (k_rcv s) (k_app_closed s) (k_fin_sent s) v (k_waiter s) (k_listen s) (k_aq s) (k_an s).
Definition set_k_waiter v s := Sock (k_used s) (k_fd s) (k_kind s) (k_st s) (k_bound s) (k_l2 s) (k_laddr s) (k_lport s) (k_raddr s) (k_rport s) (k_mcast s) (k_mcast_cap s) (k_snd s) (k_rcv s) (k_app_closed s) (k_fin_sent s) (k_error s) v (k_listen s) (k_aq s) (k_an s).
Definition set_k_listen v s := Sock (k_used s) (k_fd s) (k_kind s) (k_st s) (k_bound s) (k_l2 s) (k_laddr s) (k_lport s) (k_raddr s) (k_rport s) (k_mcast s) (k_mcast_cap s) (k_snd s) (k_rcv s) (k_app_closed s) (k_fin_sent s) (k_error s) (k_waiter s) v (k_aq s) (k_an s).
Definition set_k_aq v s := Sock (k_used s) (k_fd s) (k_kind s) (k_st s) (k_bound s) (k_l2 s) (k_laddr s) (k_lport s) (k_raddr s) (k_rport s) (k_mcast s) (k_mcast_cap s) (k_snd s) (k_rcv s) (k_app_closed s) (k_fin_sent s) (k_error s) (k_waiter s) (k_listen s) v (k_an s).
Definition set_k_an v s := Sock (k_used s) (k_fd s) (k_kind s) (k_st s) (k_bound s) (k_l2 s) (k_laddr s) (k_lport s) (k_raddr s) (k_rport s) (k_mcast s) (k_mcast_cap s) (k_snd s) (k_rcv s) (k_app_closed s) (k_fin_sent s) (k_error s) (k_waiter s) (k_listen s) (k_aq s) v.

Definition rexmit_cap (q : snd) : Z := zlen (rexmit q).
Definition rx_cap (r : rcv) : Z := zlen (rx r).

(** ** Interfaces, routes, neighbours *)

Record l2row := L2 { l2_h : Z; l2_addr : Z; l2_mask : Z }.

Record route := Route { rt_on : bool; rt_dst : Z; rt_mask : Z; rt_gw : Z; rt_h : Z }.

Inductive arp_state := ARP_FREE | ARP_ASKING | ARP_LIVE.
#[export] Instance arp_state_eq : EqDecision arp_state.
Proof. solve_decision. Defined.
Definition is_arp (a b : arp_state) : bool := bool_decide (a = b).

(** [a_pend] holds the [pend_len] bytes that wait. *)
Record neigh := Neigh { a_state : arp_state; a_h : Z; a_addr : Z; a_mac : list Z; a_at : Z; a_tries : Z; a_pend : list Z }.

Definition no_route : route := Route false 0 0 0 0.
Definition no_neigh : neigh := Neigh ARP_FREE 0 0 (replicate 6 0) 0 0 [].

(** ** What the stack asks of its host *)

(** [h_grow k cap] is [pm_util_limits_grow]: the new capacity of a table of
    [cap] rows, the added rows zeroed, or nothing; [h_poll_frame h] is the next
    frame the driver behind [h] hands up. *)
Class Host (E : Type) := {
  h_grow : knob -> Z -> E -> E * option Z;
  h_alloc : Z -> E -> E * bool;
  h_room : knob -> Z -> E -> bool;
  h_soft : knob -> E -> Z;
  h_dflt : knob -> E -> Z;
  h_mono : E -> E * Z;
  h_current : E -> Z;
  h_post : Z -> E -> E;
  h_tx : Z -> list Z -> E -> E * Z;
  h_mac : Z -> E -> list Z;
  h_frame_max : Z -> E -> Z;
  h_dt_id : Z -> E -> Z;
  h_count_rx : Z -> E -> E;
  h_poll_frame : Z -> E -> E * option (list Z);
}.

(** What the stack relies on: a grown table holds one more row, sizes are
    sizes, a hardware address has six bytes. *)
Class HostLaws (E : Type) `{!Host E} : Prop := {
  grow_more k cap e e' cap' : h_grow k cap e = (e', Some cap') -> cap < cap';
  soft_size k e : 0 <= h_soft k e < 4294967296;
  dflt_size k e : 0 <= h_dflt k e < 4294967296;
  mac_six h e : length (h_mac h e) = 6%nat /\ bytes_ok (h_mac h e);
}.

(** The frames handed to the NICs so far, lost or not. *)
Class Wire (E : Type) `{!Host E} := { frames : E -> list (Z * list Z) }.

(** Only a transmission adds a frame, and one that reports failure does not. *)
Class WireLaws (E : Type) `{!Host E, !Wire E} : Prop := {
  tx_wire h f e e' r : h_tx h f e = (e', r) -> frames e' = frames e \/ (r = TX_OK /\ frames e' = frames e ++ [(h, f)]);
  mono_wire e : frames (fst (h_mono e)) = frames e;
  grow_wire k c e : frames (fst (h_grow k c e)) = frames e;
  alloc_wire n e : frames (fst (h_alloc n e)) = frames e;
  post_wire t e : frames (h_post t e) = frames e;
  count_wire h e : frames (h_count_rx h e) = frames e;
}.

Section state.
Context {E : Type} `{!Host E}.

(** ** The card's state

    [sk] is the slot table (its length is [pm_ip_sk_cap]), [l2] the
    [pm_ip_l2_n] rows in use, [rt] and [arp] whole tables.  [next_ptr] is the
    next address the arena hands out. *)

Record stack := Stack {
  arena : bool; lo_up : bool; lo_addr : Z; sk : list Z; sock_used : Z; socks : gmap Z sock; next_ptr : Z;
  l2 : list l2row; l2_cap : Z; l2_cur : Z; pending_be : Z; pending_mask : Z; rt : list route; rt_used : Z;
  arp : list neigh; arp_used : Z; rx_l2 : Z; ping_out : option (list Z); ping_len : Z; ping_id : Z; eph : Z;
  ping_seq : Z; env : E }.

Definition set_arena v w := Stack v (lo_up w) (lo_addr w) (sk w) (sock_used w) (socks w) (next_ptr w) (l2 w) (l2_cap w) (l2_cur w) (pending_be w) (pending_mask w) (rt w) (rt_used w) (arp w) (arp_used w) (rx_l2 w) (ping_out w) (ping_len w) (ping_id w) (eph w) (ping_seq w) (env w).
Definition set_lo_up v w := Stack (arena w) v (lo_addr w) (sk w) (sock_used w) (socks w) (next_ptr w) (l2 w) (l2_cap w) (l2_cur w) (pending_be w) (pending_mask w) (rt w) (rt_used w) (arp w) (arp_used w) (rx_l2 w) (ping_out w) (ping_len w) (ping_id w) (eph w) (ping_seq w) (env w).
Definition set_lo_addr v w := Stack (arena w) (lo_up w) v (sk w) (sock_used w) (socks w) (next_ptr w) (l2 w) (l2_cap w) (l2_cur w) (pending_be w) (pending_mask w) (rt w) (rt_used w) (arp w) (arp_used w) (rx_l2 w) (ping_out w) (ping_len w) (ping_id w) (eph w) (ping_seq w) (env w).
Definition set_sk v w := Stack (arena w) (lo_up w) (lo_addr w) v (sock_used w) (socks w) (next_ptr w) (l2 w) (l2_cap w) (l2_cur w) (pending_be w) (pending_mask w) (rt w) (rt_used w) (arp w) (arp_used w) (rx_l2 w) (ping_out w) (ping_len w) (ping_id w) (eph w) (ping_seq w) (env w).
Definition set_sock_used v w := Stack (arena w) (lo_up w) (lo_addr w) (sk w) v (socks w) (next_ptr w) (l2 w) (l2_cap w) (l2_cur w) (pending_be w) (pending_mask w) (rt w) (rt_used w) (arp w) (arp_used w) (rx_l2 w) (ping_out w) (ping_len w) (ping_id w) (eph w) (ping_seq w) (env w).
Definition set_socks v w := Stack (arena w) (lo_up w) (lo_addr w) (sk w) (sock_used w) v (next_ptr w) (l2 w) (l2_cap w) (l2_cur w) (pending_be w) (pending_mask w) (rt w) (rt_used w) (arp w) (arp_used w) (rx_l2 w) (ping_out w) (ping_len w) (ping_id w) (eph w) (ping_seq w) (env w).
Definition set_next_ptr v w := Stack (arena w) (lo_up w) (lo_addr w) (sk w) (sock_used w) (socks w) v (l2 w) (l2_cap w) (l2_cur w) (pending_be w) (pending_mask w) (rt w) (rt_used w) (arp w) (arp_used w) (rx_l2 w) (ping_out w) (ping_len w) (ping_id w) (eph w) (ping_seq w) (env w).
Definition set_l2 v w := Stack (arena w) (lo_up w) (lo_addr w) (sk w) (sock_used w) (socks w) (next_ptr w) v (l2_cap w) (l2_cur w) (pending_be w) (pending_mask w) (rt w) (rt_used w) (arp w) (arp_used w) (rx_l2 w) (ping_out w) (ping_len w) (ping_id w) (eph w) (ping_seq w) (env w).
Definition set_l2_cap v w := Stack (arena w) (lo_up w) (lo_addr w) (sk w) (sock_used w) (socks w) (next_ptr w) (l2 w) v (l2_cur w) (pending_be w) (pending_mask w) (rt w) (rt_used w) (arp w) (arp_used w) (rx_l2 w) (ping_out w) (ping_len w) (ping_id w) (eph w) (ping_seq w) (env w).
Definition set_l2_cur v w := Stack (arena w) (lo_up w) (lo_addr w) (sk w) (sock_used w) (socks w) (next_ptr w) (l2 w) (l2_cap w) v (pending_be w) (pending_mask w) (rt w) (rt_used w) (arp w) (arp_used w) (rx_l2 w) (ping_out w) (ping_len w) (ping_id w) (eph w) (ping_seq w) (env w).
Definition set_pending_be v w := Stack (arena w) (lo_up w) (lo_addr w) (sk w) (sock_used w) (socks w) (next_ptr w) (l2 w) (l2_cap w) (l2_cur w) v (pending_mask w) (rt w) (rt_used w) (arp w) (arp_used w) (rx_l2 w) (ping_out w) (ping_len w) (ping_id w) (eph w) (ping_seq w) (env w).
Definition set_pending_mask v w := Stack (arena w) (lo_up w) (lo_addr w) (sk w) (sock_used w) (socks w) (next_ptr w) (l2 w) (l2_cap w) (l2_cur w) (pending_be w) v (rt w) (rt_used w) (arp w) (arp_used w) (rx_l2 w) (ping_out w) (ping_len w) (ping_id w) (eph w) (ping_seq w) (env w).
Definition set_rt v w := Stack (arena w) (lo_up w) (lo_addr w) (sk w) (sock_used w) (socks w) (next_ptr w) (l2 w) (l2_cap w) (l2_cur w) (pending_be w) (pending_mask w) v (rt_used w) (arp w) (arp_used w) (rx_l2 w) (ping_out w) (ping_len w) (ping_id w) (eph w) (ping_seq w) (env w).
Definition set_rt_used v w := Stack (arena w) (lo_up w) (lo_addr w) (sk w) (sock_used w) (socks w) (next_ptr w) (l2 w) (l2_cap w) (l2_cur w) (pending_be w) (pending_mask w) (rt w) v (arp w) (arp_used w) (rx_l2 w) (ping_out w) (ping_len w) (ping_id w) (eph w) (ping_seq w) (env w).
Definition set_arp v w := Stack (arena w) (lo_up w) (lo_addr w) (sk w) (sock_used w) (socks w) (next_ptr w) (l2 w) (l2_cap w) (l2_cur w) (pending_be w) (pending_mask w) (rt w) (rt_used w) v (arp_used w) (rx_l2 w) (ping_out w) (ping_len w) (ping_id w) (eph w) (ping_seq w) (env w).
Definition set_arp_used v w := Stack (arena w) (lo_up w) (lo_addr w) (sk w) (sock_used w) (socks w) (next_ptr w) (l2 w) (l2_cap w) (l2_cur w) (pending_be w) (pending_mask w) (rt w) (rt_used w) (arp w) v (rx_l2 w) (ping_out w) (ping_len w) (ping_id w) (eph w) (ping_seq w) (env w).
Definition set_rx_l2 v w := Stack (arena w) (lo_up w) (lo_addr w) (sk w) (sock_used w) (socks w) (next_ptr w) (l2 w) (l2_cap w) (l2_cur w) (pending_be w) (pending_mask w) (rt w) (rt_used w) (arp w) (arp_used w) v (ping_out w) (ping_len w) (ping_id w) (eph w) (ping_seq w) (env w).
Definition set_ping_out v w := Stack (arena w) (lo_up w) (lo_addr w) (sk w) (sock_used w) (socks w) (next_ptr w) (l2 w) (l2_cap w) (l2_cur w) (pending_be w) (pending_mask w) (rt w) (rt_used w) (arp w) (arp_used w) (rx_l2 w) v (ping_len w) (ping_id w) (eph w) (ping_seq w) (env w).
Definition set_ping_len v w := Stack (arena w) (lo_up w) (lo_addr w) (sk w) (sock_used w) (socks w) (next_ptr w) (l2 w) (l2_cap w) (l2_cur w) (pending_be w) (pending_mask w) (rt w) (rt_used w) (arp w) (arp_used w) (rx_l2 w) (ping_out w) v (ping_id w) (eph w) (ping_seq w) (env w).
Definition set_ping_id v w := Stack (arena w) (lo_up w) (lo_addr w) (sk w) (sock_used w) (socks w) (next_ptr w) (l2 w) (l2_cap w) (l2_cur w) (pending_be w) (pending_mask w) (rt w) (rt_used w) (arp w) (arp_used w) (rx_l2 w) (ping_out w) (ping_len w) v (eph w) (ping_seq w) (env w).
Definition set_eph v w := Stack (arena w) (lo_up w) (lo_addr w) (sk w) (sock_used w) (socks w) (next_ptr w) (l2 w) (l2_cap w) (l2_cur w) (pending_be w) (pending_mask w) (rt w) (rt_used w) (arp w) (arp_used w) (rx_l2 w) (ping_out w) (ping_len w) (ping_id w) v (ping_seq w) (env w).
Definition set_ping_seq v w := Stack (arena w) (lo_up w) (lo_addr w) (sk w) (sock_used w) (socks w) (next_ptr w) (l2 w) (l2_cap w) (l2_cur w) (pending_be w) (pending_mask w) (rt w) (rt_used w) (arp w) (arp_used w) (rx_l2 w) (ping_out w) (ping_len w) (ping_id w) (eph w) v (env w).
Definition set_env v w := Stack (arena w) (lo_up w) (lo_addr w) (sk w) (sock_used w) (socks w) (next_ptr w) (l2 w) (l2_cap w) (l2_cur w) (pending_be w) (pending_mask w) (rt w) (rt_used w) (arp w) (arp_used w) (rx_l2 w) (ping_out w) (ping_len w) (ping_id w) (eph w) (ping_seq w) v.

Definition IpM := M stack.

(** ** Memory and host accesses *)

Local Open Scope metal_scope.

Definition hostly {A} (f : E -> E * A) : IpM A := fun w =>
  let '(e, a) := f (env w) in Done a (set_env e w).
Definition now_us : IpM Z := hostly h_mono.
Definition current_task : IpM Z := gets (fun w => h_current (env w)).
Definition post_task (t : Z) : IpM unit := modify (fun w => set_env (h_post t (env w)) w).

Definition get_sock (p : Z) : IpM sock := fun w =>
  match socks w !! p with Some s => Done s w | None => Fault end.
Definition put_sock (p : Z) (s : sock) : IpM unit := modify (fun w => set_socks (<[p := s]> (socks w)) w).
Definition upd_sock (p : Z) (f : sock -> sock) : IpM unit := s <- get_sock p ;; put_sock p (f s).
Definition upd_snd (p : Z) (f : snd -> snd) : IpM unit := upd_sock p (fun s => set_k_snd (f (k_snd s)) s).
Definition upd_rcv (p : Z) (f : rcv -> rcv) : IpM unit := upd_sock p (fun s => set_k_rcv (f (k_rcv s)) s).

Definition size_of (k : knob) (w : stack) : Z := if negb (h_soft k (env w) =? 0) then h_soft k (env w) else h_dflt k (env w).

(** ** Waking and parking *)

Definition pm_ip_sock_wake (p : Z) : IpM unit :=
  s <- get_sock p ;;
  if negb (k_waiter s =? 0) then post_task (k_waiter s) ;; upd_sock p (set_k_waiter 0) else ret tt.

Definition sock_consume_park (p : Z) : IpM unit :=
  cur <- current_task ;;
  s <- get_sock p ;;
  if negb (cur =? 0) && (k_waiter s =? cur) then upd_sock p (set_k_waiter 0) else ret tt.

(** [s->waiter = cur] wherever a call leaves a task parked. *)
Definition park (p : Z) : IpM unit :=
  cur <- current_task ;;
  if negb (cur =? 0) then upd_sock p (set_k_waiter cur) else ret tt.

(** ** The slot table *)

Definition pm_ip_sock_at (fd : Z) : IpM Z := gets (fun w => default 0 (rd (sk w) fd)).

Definition sock_get (fd : Z) (kind : option sk_kind) : IpM Z :=
  p <- pm_ip_sock_at fd ;;
  if p =? 0 then ret 0 else
  s <- get_sock p ;;
  if negb (k_used s) then ret 0 else
  match kind with
  | Some k => if is_kind (k_kind s) k then ret p else ret 0
  | None => ret p
  end.

(** [sizeof(struct pm_metal_sock)] where a pointer has eight bytes. *)
Definition SOCK_BYTES := 208.

Definition new_snd (kind : sk_kind) (rx_cap tx_cap : Z) : snd :=
  Snd 0 0 (if is_kind kind SK_TCP then rx_cap else 0) 0 (replicate (Z.to_nat tx_cap) 0) 0 0 0 0 0 0 0.

Definition new_sock (slot : Z) (kind : sk_kind) (rx_cap tx_cap : Z) : sock :=
  Sock true slot kind TCP_NONE false (-1) 0 0 0 0 [] 0 (new_snd kind rx_cap tx_cap)
    (Rcv 0 (replicate (Z.to_nat rx_cap) 0) 0 0 0 false) false false false 0 (-1) [] 0.

Definition sock_new (slot : Z) (kind : sk_kind) : IpM Z :=
  w <- gets id ;;
  if negb (h_room Limit_socket (sock_used w) (env w)) then ret 0 else
  let rx_cap := size_of Limit_receive w in
  let tx_cap := size_of Limit_resend w in
  ok <- hostly (h_alloc (SOCK_BYTES + rx_cap + tx_cap)) ;;
  if negb ok then ret 0 else
  p <- gets next_ptr ;;
  modify (set_next_ptr (p + 1)) ;;
  put_sock p (new_sock slot kind rx_cap tx_cap) ;;
  w <- gets id ;;
  sk' <- chk (wr (sk w) slot p) ;;
  modify (set_sk sk') ;;
  modify (set_sock_used (u32 (sock_used w + 1))) ;;
  ret p.

Definition pm_ip_sock_drop (fd : Z) : IpM unit :=
  p <- pm_ip_sock_at fd ;;
  if p =? 0 then ret tt else
  s <- get_sock p ;;
  w <- gets id ;;
  sk' <- chk (wr (sk w) fd 0) ;;
  modify (set_sk sk') ;;
  modify (set_socks (delete p (socks w))) ;;
  if negb (sock_used w =? 0) then modify (set_sock_used (sock_used w - 1)) else ret tt.

Definition sock_clear : IpM unit :=
  n <- gets (fun w => length (sk w)) ;;
  foldr (fun i k => pm_ip_sock_drop (Z.of_nat i) ;; k) (ret tt) (seq 0 n) ;;
  modify (set_sk []) ;; modify (set_sock_used 0).

(** The lowest free slot at or above [i]. *)
Fixpoint free_slot (l : list Z) (i : Z) : option Z :=
  match l with
  | [] => None
  | p :: t => if p =? 0 then Some i else free_slot t (i + 1)
  end.

(** [pm_ip_table_grow] on the slot table; [false] leaves it as it is. *)
Definition grow_sk : IpM bool :=
  w <- gets id ;;
  g <- hostly (h_grow Limit_socket (zlen (sk w))) ;;
  match g with
  | None => ret false
  | Some cap => modify (set_sk (sk w ++ replicate (Z.to_nat (cap - zlen (sk w))) 0)) ;; ret true
  end.

Definition pm_ip_sock_alloc (kind : sk_kind) : IpM Z :=
  w <- gets id ;;
  match free_slot (sk w) 0 with
  | Some i => p <- sock_new i kind ;; ret (if negb (p =? 0) then i else -1)
  | None =>
      let i := zlen (sk w) in
      g <- grow_sk ;;
      if negb g then ret (-1) else
      p <- sock_new i kind ;; ret (if negb (p =? 0) then i else -1)
  end.

Definition eph_port : IpM Z :=
  p <- gets eph ;;
  let n := u16 (p + 1) in
  modify (set_eph (if n <? 49152 then 49152 else n)) ;; ret p.
End state.
Arguments stack : clear implicits.
Arguments IpM : clear implicits.
End Ip.

(** * A small host for the IP stack

    A concrete [Host]: a clock that advances by one at every reading, tables
    that double, buffers of [buf] bytes, NICs that take every frame and keep
    them on [wire].  Theorems about the stack are proved for every host; this
    one runs it. *)

Module IpHost.
Import Ip.

Record host := MkHost { clk : Z; wire : list (Z * list Z); posts : list Z; buf : Z }.

#[export] Instance small_host : Host host := {|
  h_grow _ cap e := (e, Some (if cap <=? 0 then 4 else 2 * cap));
  h_alloc _ e := (e, true);
  h_room _ _ _ := true;
  h_soft _ e := u32 (buf e);
  h_dflt _ e := u32 (buf e);
  h_mono e := (MkHost (clk e + 1) (wire e) (posts e) (buf e), clk e);
  h_current _ := 0;
  h_post t e := MkHost (clk e) (wire e) (t :: posts e) (buf e);
  h_tx h f e := (MkHost (clk e) (wire e ++ [(h, f)]) (posts e) (buf e), TX_OK);
  h_mac h _ := [2; 0; 0; 0; 0; u8 h];
  h_frame_max _ _ := 1514;
  h_dt_id h _ := h;
  h_count_rx _ e := e;
  h_poll_frame _ e := (e, None) |}.

#[export] Instance small_laws : HostLaws host.
Proof.
  split.
  - intros k cap e e' cap' [= <- <-]. zcase; lia.
  - intros. apply u32_range.
  - intros. apply u32_range.
  - intros h e. split; [done|]. pose proof (u8_range h).
    repeat (apply Forall_cons; split); unfold is_byte; try lia. constructor.
Qed.

#[export] Instance small_wire : Wire host := {| frames := wire |}.
#[export] Instance small_wire_laws : WireLaws host.
Proof. split; try done. intros h f e e' r [= <- <-]. by right. Qed.

(** A stack before [pm_metal_net_ip_init], on a host with buffers of [n] bytes. *)
Definition cold (n : Z) : stack host :=
  Stack false false IP_LO_BE [] 0 ∅ 1 [] 0 (-1) 0 0 [] 0 [] 0 (-1) None 0 0 49152 0 (MkHost 0 [] [] n).

(** Time passes. *)
Definition sleep (us : Z) : IpM host unit := modify (fun w =>
  set_env (MkHost (clk (env w) + us) (wire (env w)) (posts (env w)) (buf (env w))) w).
End IpHost.
