(* ===== verification/IpWire.v ===== *)
(** * The IP stack's wire format: byte order and Internet checksums

    [csum_add], [csum_fold], [pm_ip_csum], [pm_ip_l4_csum], [pm_ip_l4_stamp],
    [l4_csum_ok] and the big-endian accessors of
    src/.../metal/net/ip/__wire__.c, on checked buffers ([None] is an access
    outside the packet).  The theorems read the checksums in ones' complement
    arithmetic, that is modulo 65535. *)
From S2P Require Import Prelude.

Module IpWire.

Definition PKT_MAX := 8232.

(** ** Byte order *)

Definition pm_ip_read_be16 (p : list Z) (i : Z) : option Z :=
  a ← rd p i; b ← rd p (i + 1); Some (u16 (Z.lor (Z.shiftl a 8) b)).

Definition pm_ip_read_be32 (p : list Z) (i : Z) : option Z :=
  a ← rd p i; b ← rd p (i + 1); c ← rd p (i + 2); d ← rd p (i + 3);
  Some (Z.lor (Z.lor (Z.lor (Z.shiftl a 24) (Z.shiftl b 16)) (Z.shiftl c 8)) d).

Definition be16 (v : Z) : list Z := [u8 (Z.shiftr v 8); u8 v].
Definition be32 (v : Z) : list Z := [u8 (Z.shiftr v 24); u8 (Z.shiftr v 16); u8 (Z.shiftr v 8); u8 v].
Definition pm_ip_write_be16 (p : list Z) (i v : Z) : option (list Z) := blit p i (be16 v).
Definition pm_ip_write_be32 (p : list Z) (i v : Z) : option (list Z) := blit p i (be32 v).

(** ** Checksums *)

Fixpoint csum_add (p : list Z) (s : Z) : Z :=
  match p with
  | a :: b :: t => csum_add t (u32 (s + Z.lor (Z.shiftl a 8) b))
  | [a] => u32 (s + Z.shiftl a 8)
  | [] => s
  end.

(** The folding loop of [csum_fold]; two rounds end it on a 32-bit sum
    ([fold_loop_oc]). *)
Fixpoint fold_loop (fuel : nat) (s : Z) : Z :=
  match fuel with
  | O => s
  | S f => if negb (Z.shiftr s 16 =? 0) then fold_loop f (Z.land s 65535 + Z.shiftr s 16) else s
  end.
Definition csum_fold (s : Z) : Z := u16 (Z.lnot (fold_loop 3 s)).

Definition pm_ip_csum (p : list Z) (n : Z) : option Z :=
  d ← slice p 0 n; Some (csum_fold (csum_add d 0)).

Definition ihl_of (b0 : Z) : Z := Z.land b0 15 * 4.

Definition pm_ip_l4_csum (pkt : list Z) (total : Z) : option Z :=
  b0 ← rd pkt 0;
  let ihl := ihl_of b0 in
  if total <? ihl + 8 then Some 0 else
  let l4len := total - ihl in
  ph ← slice pkt 12 8;
  proto ← rd pkt 9;
  let s := u32 (u32 (csum_add ph 0 + proto) + l4len) in
  l4 ← slice pkt ihl l4len;
  Some (csum_fold (csum_add l4 s)).

(** Where the transport checksum of protocol [proto] sits. *)
Definition csum_at (proto ihl : Z) : option Z :=
  if proto =? 6 then Some (ihl + 16) else if proto =? 17 then Some (ihl + 6) else None.

Definition pm_ip_l4_stamp (pkt : list Z) (total : Z) : option (list Z) :=
  b0 ← rd pkt 0;
  proto ← rd pkt 9;
  match csum_at proto (ihl_of b0) with
  | None => Some pkt
  | Some i =>
      if total <? i + 2 then Some pkt else
      pkt ← wr pkt i 0; pkt ← wr pkt (i + 1) 0;
      cs ← pm_ip_l4_csum pkt total;
      pm_ip_write_be16 pkt i (if (cs =? 0) && (proto =? 17) then 65535 else cs)
  end.

Definition l4_csum_ok (pkt : list Z) (total : Z) : option bool :=
  b0 ← rd pkt 0;
  proto ← rd pkt 9;
  match csum_at proto (ihl_of b0) with
  | None => Some true
  | Some i =>
      if total <? i + 2 then Some false else
      f ← pm_ip_read_be16 pkt i;
      if (proto =? 17) && (f =? 0) then Some true else
      cs ← pm_ip_l4_csum pkt total; Some (cs =? 0)
  end.

(** ** Ones' complement arithmetic *)

(** The words of a run of bytes, the last one padded, summed without wrap. *)
Fixpoint wsum (p : list Z) : Z :=
  match p with
  | a :: b :: t => 256 * a + b + wsum t
  | [a] => 256 * a
  | [] => 0
  end.

Lemma list_ind2 {A} (P : list A -> Prop) :
  P [] -> (forall a, P [a]) -> (forall a b t, P t -> P (a :: b :: t)) -> forall l, P l.
Proof.
  intros H0 H1 H2 l. enough (P l /\ forall a, P (a :: l)) by tauto.
  induction l as [|x l [IH1 IH2]]; split; auto.
Qed.

Lemma be_word a b : is_byte b -> Z.lor (Z.shiftl a 8) b = 256 * a + b.
Proof.
  unfold is_byte. intros Hb. rewrite Z.lor_comm. pose proof (lor_disjoint_add b a 8 ltac:(lia)) as H. change (2 ^ 8) with 256 in H.
  rewrite H; lia.
Qed.

Lemma wsum_bound p : bytes_ok p -> 0 <= 2 * wsum p <= 65535 * (zlen p + 1).
Proof.
  induction p as [|a|a b t IH] using list_ind2; intros Hp; cbn [wsum]; [cbn; lia|..].
  - apply Forall_cons in Hp as [Hp _]. unfold is_byte in Hp. cbn [length]. lia.
  - apply Forall_cons in Hp as [Ha Hp]. apply Forall_cons in Hp as [Hb Hp]. unfold is_byte in *. specialize (IH Hp).
    cbn [length]. lia.
Qed.

Lemma csum_add_wsum p s :
  bytes_ok p -> 0 <= s -> 2 * s + 65535 * (zlen p + 1) < 2 * 4294967296 -> csum_add p s = s + wsum p.
Proof.
  revert s. induction p as [|a|a b t IH] using list_ind2; intros s Hp Hs Hb; cbn [csum_add wsum]; [lia|..].
  - apply Forall_cons in Hp as [Hp _]. unfold is_byte in Hp. cbn [length] in Hb.
    rewrite Z.shiftl_mul_pow2 by lia. rewrite u32_small; lia.
  - apply Forall_cons in Hp as [Ha Hp]. apply Forall_cons in Hp as [Hb' Hp]. rewrite be_word by done.
    unfold is_byte in *. cbn [length] in Hb. rewrite u32_small by lia. rewrite IH by (done || lia). lia.
Qed.

(** The value of a 32-bit sum after folding: its residue modulo 65535, with
    65535 standing for a non-zero multiple. *)
Definition oc (s : Z) : Z := if s =? 0 then 0 else (s - 1) mod 65535 + 1.

Lemma oc_range s : 0 <= s -> 0 <= oc s <= 65535.
Proof. intros. unfold oc. zcase; mlia. Qed.

Lemma fold_step s : Z.land s 65535 + Z.shiftr s 16 = s mod 65536 + s / 65536.
Proof. change 65535 with (2 ^ 16 - 1). rewrite land_ones_mod, Z.shiftr_div_pow2 by lia. done. Qed.

Lemma oc_fold s : 0 <= s -> oc (s mod 65536 + s / 65536) = oc s.
Proof. intros. unfold oc. repeat case_match; breflect; mlia. Qed.

Lemma fold_loop_step f s : 0 <= s ->
  fold_loop (S f) s = if s <? 65536 then s else fold_loop f (s mod 65536 + s / 65536).
Proof.
  intros. cbn [fold_loop]. rewrite fold_step, Z.shiftr_div_pow2 by lia. change (2 ^ 16) with 65536.
  destruct (Z.ltb_spec s 65536), (Z.eqb_spec (s / 65536) 0); try done; mlia.
Qed.

Lemma fold_loop_small f s : 0 <= s < 65536 -> fold_loop f s = s.
Proof. destruct f; [done|]. intros. rewrite fold_loop_step by lia. destruct (Z.ltb_spec s 65536); [done|lia]. Qed.

Lemma oc_small s : 0 <= s < 65536 -> oc s = s.
Proof. intros. unfold oc. repeat case_match; breflect; mlia. Qed.

(** Two rounds end the loop, whatever fuel is left. *)
Lemma fold_loop_oc s f : 0 <= s < 4294967296 -> fold_loop (2 + f) s = oc s.
Proof.
  intros Hs. change (2 + f)%nat with (S (S f)).
  rewrite fold_loop_step by lia. destruct (Z.ltb_spec s 65536); [symmetry; apply oc_small; lia|].
  rewrite <- (oc_fold s) by lia. remember (s mod 65536 + s / 65536) as x eqn:Ex. assert (0 <= x < 131071) by (subst; mlia). clear Ex.
  rewrite fold_loop_step by lia. destruct (Z.ltb_spec x 65536); [symmetry; apply oc_small; lia|].
  rewrite <- (oc_fold x) by lia. rewrite fold_loop_small, oc_small by mlia. done.
Qed.

Lemma csum_fold_oc s : 0 <= s < 4294967296 -> csum_fold s = 65535 - oc s.
Proof.
  intros Hs. unfold csum_fold. change 3%nat with (2 + 1)%nat. rewrite fold_loop_oc by done. pose proof (oc_range s ltac:(lia)).
  unfold Z.lnot. unfold u16. mlia.
Qed.

Lemma oc_complement s x : 0 <= s -> x = 65535 - oc s \/ (x = 65535 /\ oc s = 65535) -> oc (s + x) = 65535.
Proof. unfold oc. intros Hs Hx. repeat case_match; breflect; mlia. Qed.

(** Changing one byte changes the word sum by its weight. *)
Definition weight (i : Z) : Z := if Z.even i then 256 else 1.

Lemma wsum_insert p i v x : p !! i = Some x -> wsum (<[i := v]> p) = wsum p + (v - x) * weight (Z.of_nat i).
Proof.
  revert i. induction p as [|a|a b t IH] using list_ind2; intros [|[|i]] H; try done.
  - injection H as ->. change (<[0%nat := v]> [x]) with [v]. change (weight (Z.of_nat 0)) with 256. cbn [wsum]. lia.
  - injection H as ->. change (<[0%nat := v]> (x :: b :: t)) with (v :: b :: t). change (weight (Z.of_nat 0)) with 256. cbn [wsum]. lia.
  - injection H as ->. change (<[1%nat := v]> (a :: x :: t)) with (a :: v :: t). change (weight (Z.of_nat 1)) with 1. cbn [wsum]. lia.
  - change (<[S (S i) := v]> (a :: b :: t)) with (a :: b :: <[i := v]> t). cbn [wsum]. rewrite (IH i) by done.
    unfold weight. rewrite !Nat2Z.inj_succ, Z.even_succ_succ. lia.
Qed.

Lemma weight_even i : Z.even i = true -> weight i = 256 /\ weight (i + 1) = 1.
Proof. intros E. unfold weight. rewrite Z.add_1_r, Z.even_succ, <- Z.negb_even, E. done. Qed.

(** ** The transport sum of a packet *)

Lemma rd_lookup (p : list Z) i x : 0 <= i -> p !! Z.to_nat i = Some x -> rd p i = Some x.
Proof. intros Hi Hx. unfold rd. by rewrite (proj2 (Z.ltb_ge _ _)). Qed.

(** Everything the transport checksum covers, summed without wrap. *)
Definition l4_sum (pkt : list Z) (ihl total : Z) : Z :=
  wsum (take 8 (drop 12 pkt)) + (pkt !!! 9%nat) + (total - ihl)
  + wsum (take (Z.to_nat (total - ihl)) (drop (Z.to_nat ihl) pkt)).

Section packet.
Context (pkt : list Z) (total b0 : Z).
Hypothesis Hbytes : bytes_ok pkt.
Hypothesis Hlen : total <= zlen pkt.
Hypothesis Hmax : total <= 65535.
Hypothesis Hb0 : pkt !! 0%nat = Some b0.
Hypothesis Hihl : 20 <= ihl_of b0.
Hypothesis Hroom : ihl_of b0 + 8 <= total.

Lemma packet_byte i : 0 <= i < total -> exists x, pkt !! Z.to_nat i = Some x /\ is_byte x.
Proof.
  intros Hi. destruct (lookup_lt_is_Some_2 pkt (Z.to_nat i)) as [x Hx]; [lia|]. exists x. split; [done|].
  by eapply Forall_lookup_1.
Qed.

Lemma l4_sum_range : 0 <= l4_sum pkt (ihl_of b0) total < 4294967296.
Proof.
  unfold l4_sum. destruct (packet_byte 9 ltac:(lia)) as (x & Hx & Hxb). change (Z.to_nat 9) with 9%nat in Hx.
  rewrite (list_lookup_total_correct _ _ _ Hx). unfold is_byte in Hxb.
  pose proof (wsum_bound (take 8 (drop 12 pkt)) ltac:(by apply Forall_take, Forall_drop)) as B1.
  pose proof (wsum_bound (take (Z.to_nat (total - ihl_of b0)) (drop (Z.to_nat (ihl_of b0)) pkt)) ltac:(by apply Forall_take, Forall_drop)) as B2.
  rewrite length_take, length_drop in B1, B2. lia.
Qed.

Lemma l4_csum_oc : pm_ip_l4_csum pkt total = Some (65535 - oc (l4_sum pkt (ihl_of b0) total)).
Proof.
  pose proof l4_sum_range as R. unfold l4_sum in *. destruct (packet_byte 9 ltac:(lia)) as (x & Hx & Hxb). change (Z.to_nat 9) with 9%nat in Hx.
  rewrite (list_lookup_total_correct _ _ _ Hx) in *. unfold is_byte in Hxb.
  unfold pm_ip_l4_csum. rewrite (rd_lookup pkt 0 b0) by (done || lia). simpl. rewrite (proj2 (Z.ltb_ge _ _)) by lia.
  rewrite slice_is_Some by lia. simpl. rewrite (rd_lookup pkt 9 x) by (done || lia). simpl. rewrite slice_is_Some by lia. simpl.
  change (Z.to_nat 8) with 8%nat. change (Z.to_nat 12) with 12%nat.
  set (ph := take 8 (drop 12 pkt)) in *. set (l4 := take _ (drop (Z.to_nat (ihl_of b0)) pkt)) in *.
  assert (Hph : bytes_ok ph) by (by apply Forall_take, Forall_drop). assert (Hl4 : bytes_ok l4) by (by apply Forall_take, Forall_drop).
  assert (Lph : zlen ph = 8) by (unfold ph; rewrite length_take, length_drop; lia).
  assert (Ll4 : zlen l4 = total - ihl_of b0) by (unfold l4; rewrite length_take, length_drop; lia).
  pose proof (wsum_bound ph Hph). pose proof (wsum_bound l4 Hl4).
  rewrite (csum_add_wsum ph) by (done || lia). rewrite (u32_small (0 + _ + _)), u32_small by lia.
  rewrite csum_add_wsum by (done || lia). rewrite csum_fold_oc by lia. do 3 f_equal.
Qed.

(** Writing one byte of the transport part. *)
Lemma l4_sum_insert i v x :
  ihl_of b0 <= i < total -> pkt !! Z.to_nat i = Some x ->
  l4_sum (<[Z.to_nat i := v]> pkt) (ihl_of b0) total = l4_sum pkt (ihl_of b0) total + (v - x) * weight (i - ihl_of b0).
Proof.
  intros Hi Hx. unfold l4_sum. rewrite list_lookup_total_insert_ne by lia.
  rewrite (drop_insert_ge pkt 12), take_insert_ge by lia. rewrite drop_insert_ge, take_insert_lt by lia.
  rewrite (wsum_insert _ _ _ x); [|rewrite lookup_take_lt, lookup_drop by lia; rewrite <- Hx; f_equal; lia].
  rewrite Nat2Z.inj_sub, !Z2Nat.id by lia. lia.
Qed.
End packet.

(** The bytes of a 16-bit field. *)
Lemma be16_val v : 0 <= v < 65536 -> 256 * u8 (Z.shiftr v 8) + u8 v = v.
Proof. intros. rewrite Z.shiftr_div_pow2 by lia. change (2 ^ 8) with 256. ulia. Qed.

Lemma write16_insert p i v : 0 <= i -> i + 2 <= zlen p ->
  pm_ip_write_be16 p i v = Some (<[Z.to_nat (i + 1) := u8 v]> (<[Z.to_nat i := u8 (Z.shiftr v 8)]> p)).
Proof.
  intros Hi Hl. unfold pm_ip_write_be16, be16. rewrite <- (blit_blit p [u8 (Z.shiftr v 8)] [u8 v]) by (cbn [length]; lia).
  rewrite <- wr_blit, wr_is_Some by lia. simpl. change (Z.of_nat 1) with 1.
  rewrite <- wr_blit, wr_is_Some by (rewrite length_insert; lia). done.
Qed.

(** A packet verifies exactly when its transport sum is a non-zero multiple
    of 65535. *)
Lemma l4_csum_ok_oc pkt total b0 proto i :
  bytes_ok pkt -> total <= zlen pkt -> total <= 65535 -> pkt !! 0%nat = Some b0 -> 20 <= ihl_of b0 ->
  pkt !! 9%nat = Some proto -> csum_at proto (ihl_of b0) = Some i -> ihl_of b0 + 8 <= total -> i + 2 <= total ->
  (proto = 17 -> forall f, pm_ip_read_be16 pkt i = Some f -> f <> 0) ->
  l4_csum_ok pkt total = Some (oc (l4_sum pkt (ihl_of b0) total) =? 65535).
Proof.
  intros Hb Hl Hm H0 Hi H9 Hat H8 H2 Hf.
  assert (0 <= i) by (unfold csum_at in Hat; repeat case_match; simplify_eq; lia).
  unfold l4_csum_ok. rewrite (rd_lookup pkt 0 b0), (rd_lookup pkt 9 proto) by (done || lia). simpl. rewrite Hat.
  rewrite (proj2 (Z.ltb_ge _ _)) by lia.
  destruct (rd_is_Some pkt i) as [x Hx]; [lia|]. destruct (rd_is_Some pkt (i + 1)) as [y Hy]; [lia|].
  unfold pm_ip_read_be16 in *. rewrite Hx, Hy in *. simpl in *.
  destruct (Z.eqb_spec proto 17) as [E|E]; simpl; [rewrite (proj2 (Z.eqb_neq _ _)) by (by apply Hf)|].
  all: rewrite (l4_csum_oc pkt total b0) by (done || lia); simpl; f_equal.
  all: pose proof (l4_sum_range pkt total b0 Hb Hl Hm Hi H8) as R; pose proof (oc_range _ (proj1 R)); zcase; done.
Qed.

Lemma read16_insert p i v : 0 <= i -> i + 2 <= zlen p -> 0 <= v < 65536 ->
  pm_ip_read_be16 (<[Z.to_nat (i + 1) := u8 v]> (<[Z.to_nat i := u8 (Z.shiftr v 8)]> p)) i = Some v.
Proof.
  intros Hi Hl Hv. unfold pm_ip_read_be16.
  rewrite (rd_lookup _ i (u8 (Z.shiftr v 8))); [|lia|rewrite list_lookup_insert_ne, list_lookup_insert_eq by lia; done].
  simpl. rewrite (rd_lookup _ (i + 1) (u8 v)); [|lia|rewrite list_lookup_insert_eq by (rewrite length_insert; lia); done].
  simpl. rewrite be_word, be16_val by auto with metal. by rewrite u16_small.
Qed.

(** A packet with a checksum field of 0 sums to its one's complement once the
    checksum is in place. *)
Lemma l4_sum_stamped q total b0 i cs (Hb : bytes_ok q) (Hl : total <= zlen q) (Hi : 20 <= ihl_of b0) (H8 : ihl_of b0 + 8 <= total) (Hr : ihl_of b0 <= i /\ i + 2 <= total)
  (Hev : Z.even (i - ihl_of b0) = true) (Hq0 : q !! Z.to_nat i = Some 0) (Hq1 : q !! Z.to_nat (i + 1) = Some 0) (Hcs : 0 <= cs < 65536) :
  l4_sum (<[Z.to_nat (i + 1) := u8 cs]> (<[Z.to_nat i := u8 (Z.shiftr cs 8)]> q)) (ihl_of b0) total = l4_sum q (ihl_of b0) total + cs.
Proof.
  destruct (weight_even _ Hev) as [W1 W2].
  assert (H1 : <[Z.to_nat i := u8 (Z.shiftr cs 8)]> q !! Z.to_nat (i + 1) = Some 0) by (rewrite list_lookup_insert_ne by lia; done).
  rewrite (l4_sum_insert _ total b0 Hi ltac:(lia) (i + 1) (u8 cs) 0 ltac:(lia) H1), (l4_sum_insert q total b0 Hi ltac:(lia) i (u8 (Z.shiftr cs 8)) 0 ltac:(lia) Hq0).
  replace (i + 1 - ihl_of b0) with (i - ihl_of b0 + 1) by lia. rewrite W1, W2. pose proof (be16_val cs Hcs). lia.
Qed.

(** Stamping the transport checksum of a TCP or UDP packet that holds its
    header succeeds, touches only the two checksum bytes, never spells a UDP
    checksum as 0 ("unchecked"), and the receiving side's check accepts the
    result; odd lengths included. *)
Theorem l4_stamp_verifies pkt total b0 proto i
  (Hb : bytes_ok pkt) (Hl : total <= zlen pkt) (Hm : total <= 65535)
  (H0 : pkt !! 0%nat = Some b0) (Hi : 20 <= ihl_of b0)
  (H9 : pkt !! 9%nat = Some proto) (Hat : csum_at proto (ihl_of b0) = Some i) (H2 : i + 2 <= total) :
  exists pkt' f, pm_ip_l4_stamp pkt total = Some pkt' /\ l4_csum_ok pkt' total = Some true /\
    pm_ip_read_be16 pkt' i = Some f /\ (proto = 17 -> f <> 0) /\ bytes_ok pkt' /\ length pkt' = length pkt /\
    forall j, j <> Z.to_nat i -> j <> Z.to_nat (i + 1) -> pkt' !! j = pkt !! j.
Proof.
  assert (Hr : ihl_of b0 + 8 <= total /\ ihl_of b0 <= i /\ Z.even (i - ihl_of b0) = true).
  { unfold csum_at in Hat. repeat case_match; simplify_eq.
    - replace (ihl_of b0 + 16 - ihl_of b0) with 16 by lia. split_and!; [lia..|done].
    - replace (ihl_of b0 + 6 - ihl_of b0) with 6 by lia. split_and!; [lia..|done]. }
  destruct Hr as (H8 & Hge & Hev).
  set (q := <[Z.to_nat (i + 1) := 0]> (<[Z.to_nat i := 0]> pkt)).
  assert (Lq : length q = length pkt) by (unfold q; by rewrite !length_insert).
  assert (Bq : bytes_ok q) by (unfold q; apply Forall_insert; [apply Forall_insert; [done|]|]; unfold is_byte; lia).
  assert (Kq : forall j, j <> Z.to_nat i -> j <> Z.to_nat (i + 1) -> q !! j = pkt !! j).
  { intros j Hj1 Hj2. unfold q. by rewrite !list_lookup_insert_ne by lia. }
  assert (Q0 : q !! 0%nat = Some b0) by (rewrite Kq by lia; done).
  assert (Q9 : q !! 9%nat = Some proto) by (rewrite Kq by lia; done).
  set (s := l4_sum q (ihl_of b0) total).
  pose proof (l4_sum_range q total b0 Bq ltac:(lia) Hm Hi H8) as R. fold s in R. pose proof (oc_range s ltac:(lia)) as Ro.
  set (cs := if (65535 - oc s =? 0) && (proto =? 17) then 65535 else 65535 - oc s).
  assert (Hcs : 0 <= cs < 65536) by (unfold cs; case_match; lia).
  exists (<[Z.to_nat (i + 1) := u8 cs]> (<[Z.to_nat i := u8 (Z.shiftr cs 8)]> q)), cs.
  assert (Lr : length (<[Z.to_nat (i + 1) := u8 cs]> (<[Z.to_nat i := u8 (Z.shiftr cs 8)]> q)) = length pkt) by (by rewrite !length_insert).
  assert (Br : bytes_ok (<[Z.to_nat (i + 1) := u8 cs]> (<[Z.to_nat i := u8 (Z.shiftr cs 8)]> q))).
  { apply Forall_insert; [apply Forall_insert; [done|]|]; auto with metal. }
  assert (Hrd : pm_ip_read_be16 (<[Z.to_nat (i + 1) := u8 cs]> (<[Z.to_nat i := u8 (Z.shiftr cs 8)]> q)) i = Some cs) by (apply read16_insert; lia).
  assert (Hnz : proto = 17 -> cs <> 0).
  { intros E. unfold cs. rewrite (proj2 (Z.eqb_eq _ _) E), andb_true_r. zcase. }
  split_and!; try done.
  - unfold pm_ip_l4_stamp. rewrite (rd_lookup pkt 0 b0), (rd_lookup pkt 9 proto) by (done || lia). simpl. rewrite Hat.
    rewrite (proj2 (Z.ltb_ge _ _)), wr_is_Some by lia. simpl. rewrite wr_is_Some by (rewrite length_insert; lia). simpl.
    fold q. rewrite (l4_csum_oc q total b0) by (done || lia). fold s. simpl. fold cs. apply write16_insert; lia.
  - rewrite (l4_csum_ok_oc _ _ b0 proto i); try done.
    + rewrite (l4_sum_stamped q total b0 i cs); try done; try lia; [fold s|unfold q; by rewrite list_lookup_insert_ne, list_lookup_insert_eq by lia|
        unfold q; by rewrite list_lookup_insert_eq by (rewrite length_insert; lia)]. f_equal. apply Z.eqb_eq.
      apply oc_complement; [lia|]. unfold cs. case_match eqn:E; [right|by left]. breflect. lia.
    + lia.
    + rewrite !list_lookup_insert_ne by lia. done.
    + rewrite !list_lookup_insert_ne by lia. done.
    + intros E f Hf. rewrite Hrd in Hf. simplify_eq. by apply Hnz.
  - intros j Hj1 Hj2. rewrite !list_lookup_insert_ne by lia. by apply Kq.
Qed.

(** An IPv4 header for 10.0.0.1 to 10.0.0.2 in front of a transport part of an
    odd length, its checksum fields 0. *)
Definition sample (proto : Z) (l4 : list Z) : list Z :=
  [69; 0; 0; 0; 0; 0; 0; 0; 64; proto; 0; 0; 10; 0; 0; 1; 10; 0; 0; 2] ++ l4.
Definition sample_tcp : list Z := sample 6 [0; 80; 200; 1; 0; 0; 7; 208; 0; 0; 3; 232; 80; 24; 1; 0; 0; 0; 0; 0; 97; 98; 99].
Definition sample_udp : list Z := sample 17 [0; 53; 200; 1; 0; 9; 0; 0; 97].

Lemma bytes_ok_dec p : forallb (fun x => (0 <=? x) && (x <? 256)) p = true -> bytes_ok p.
Proof. intros H%Is_true_eq_left%forallb_True. eapply Forall_impl; [exact H|]. intros x Hx%Is_true_eq_true. unfold is_byte. breflect. lia. Qed.

Lemma l4_stamp_verifies_witness : exists pkt' f, pm_ip_l4_stamp sample_udp 29 = Some pkt' /\ l4_csum_ok pkt' 29 = Some true /\
    pm_ip_read_be16 pkt' 26 = Some f /\ (17 = 17 -> f <> 0) /\ bytes_ok pkt' /\ length pkt' = length sample_udp /\
    forall j, j <> Z.to_nat 26 -> j <> Z.to_nat (26 + 1) -> pkt' !! j = sample_udp !! j.
Proof.
  apply (l4_stamp_verifies sample_udp 29 69 17 26); try (vm_compute; congruence); try reflexivity. by apply bytes_ok_dec.
Defined.

(** A TCP segment that verifies no longer verifies once any single byte
    of its transport part, the checksum field included, is changed. *)
Theorem l4_corruption_detected pkt total b0 j v x
  (Hb : bytes_ok pkt) (Hl : total <= zlen pkt) (Hm : total <= 65535)
  (H0 : pkt !! 0%nat = Some b0) (Hi : 20 <= ihl_of b0)
  (H9 : pkt !! 9%nat = Some 6) (H2 : ihl_of b0 + 20 <= total)
  (Hok : l4_csum_ok pkt total = Some true)
  (Hj : ihl_of b0 <= j < total) (Hx : pkt !! Z.to_nat j = Some x) (Hv : is_byte v) (Hne : v <> x) :
  l4_csum_ok (<[Z.to_nat j := v]> pkt) total = Some false.
Proof.
  assert (Hxb : is_byte x) by (by eapply Forall_lookup_1).
  rewrite (l4_csum_ok_oc _ _ b0 6 (ihl_of b0 + 16)) in Hok by (done || lia).
  injection Hok as Hok%Z.eqb_eq.
  rewrite (l4_csum_ok_oc _ _ b0 6 (ihl_of b0 + 16)); try done; try lia.
  - rewrite (l4_sum_insert pkt total b0 Hi ltac:(lia) j v x) by (done || lia). f_equal. apply Z.eqb_neq. intros E.
    pose proof (l4_sum_range pkt total b0 Hb Hl Hm Hi ltac:(lia)) as R. set (s := l4_sum _ _ _) in *.
    unfold is_byte in *. unfold weight, oc in *. repeat case_match; breflect; mlia.
  - apply Forall_insert; done.
  - rewrite length_insert. lia.
  - rewrite list_lookup_insert_ne by lia. done.
  - rewrite list_lookup_insert_ne by lia. done.
Qed.

Definition stamped_tcp : list Z := Eval vm_compute in default [] (pm_ip_l4_stamp sample_tcp 43).

Lemma l4_corruption_detected_witness : l4_csum_ok (<[Z.to_nat 42 := 100]> stamped_tcp) 43 = Some false.
Proof.
  apply (l4_corruption_detected stamped_tcp 43 69 42 100 99); try (vm_compute; (congruence || done)); try reflexivity; try done; try (by apply bytes_ok_dec).
Defined.
End IpWire.
