(* ===== verification/IpLink.v ===== *)
(** * The IP stack's link side: routes, interfaces, ARP

    src/.../metal/net/ip/__link__.c: which interface, which source address,
    which hardware address.  Table scans are functions on the table; the
    operations on the card's state are in the store monad. *)
From S2P Require Import Prelude Ip IpWire.

Module IpLink.
Import Ip IpWire.

(** ** Route table scans *)

Fixpoint mask_bits_loop (fuel : nat) (m n : Z) : Z :=
  match fuel with
  | O => n
  | S f => if negb (m =? 0) then mask_bits_loop f (Z.shiftr m 1) (n + Z.land m 1) else n
  end.
(** A 32-bit mask is zero after 32 shifts. *)
Definition mask_bits (m : Z) : Z := mask_bits_loop 32 m 0.

Definition rt_is (dst mask : Z) (r : route) : bool := rt_on r && (rt_dst r =? dst) && (rt_mask r =? mask).

Definition rt_forget (r : route) (used : Z) : route * Z :=
  (Route false (rt_dst r) (rt_mask r) (rt_gw r) (rt_h r), if negb (used =? 0) then used - 1 else used).

(** The loop of [pm_ip_rt_del] and [pm_ip_rt_del_h]: forget every row [P] picks. *)
Fixpoint rt_del_loop (P : route -> bool) (tbl : list route) (used : Z) : list route * Z :=
  match tbl with
  | [] => ([], used)
  | r :: t =>
      let '(r, used) := if P r then rt_forget r used else (r, used) in
      let '(t, used) := rt_del_loop P t used in (r :: t, used)
  end.

(** The scan of [pm_ip_rt_upsert]: the row of this destination ([inl]), or the
    first free row if there is one. *)
Fixpoint upsert_scan (dst mask : Z) (tbl : list route) (i : nat) (slot : option nat) : nat + option nat :=
  match tbl with
  | [] => inr slot
  | r :: t =>
      if rt_is dst mask r then inl i
      else upsert_scan dst mask t (S i) (match slot with None => if negb (rt_on r) then Some i else None | _ => slot end)
  end.

(** [rt_match]: the last of the longest matching prefixes, else the last
    default route. *)
Fixpoint rt_match_loop (dst : Z) (tbl : list route) (hit def : option route) (best : Z) : option route :=
  match tbl with
  | [] => match hit with Some r => Some r | None => def end
  | r :: t =>
      if negb (rt_on r) then rt_match_loop dst t hit def best
      else if rt_mask r =? 0 then rt_match_loop dst t hit (Some r) best
      else if negb (Z.land dst (rt_mask r) =? Z.land (rt_dst r) (rt_mask r)) then rt_match_loop dst t hit def best
      else
        let bits := mask_bits (rt_mask r) in
        if negb (bool_decide (is_Some hit)) || (best <=? bits) then rt_match_loop dst t (Some r) def bits
        else rt_match_loop dst t hit def best
  end.
Definition rt_match (tbl : list route) (dst : Z) : option route := rt_match_loop dst tbl None None 0.
Definition rt_lookup (tbl : list route) (dst : Z) : Z := match rt_match tbl dst with Some r => rt_h r | None => -1 end.

(** ** Interface table scans *)

Definition l2_find (P : l2row -> bool) (tbl : list l2row) : option l2row := List.find P tbl.
Definition addr_of (tbl : list l2row) (h : Z) : Z := match l2_find (fun r => l2_h r =? h) tbl with Some r => l2_addr r | None => 0 end.
Definition mask_of (tbl : list l2row) (h : Z) : Z := match l2_find (fun r => l2_h r =? h) tbl with Some r => l2_mask r | None => 0 end.
Definition has_l2 (tbl : list l2row) (h : Z) : bool := match l2_find (fun r => l2_h r =? h) tbl with Some _ => true | None => false end.
Definition h_for_addr (tbl : list l2row) (addr : Z) : Z :=
  if addr =? 0 then -1 else match l2_find (fun r => l2_addr r =? addr) tbl with Some r => l2_h r | None => -1 end.

(** The first row of [h] gets an address. *)
Fixpoint l2_set_addr (tbl : list l2row) (h addr mask : Z) : list l2row :=
  match tbl with
  | [] => []
  | r :: t => if l2_h r =? h then L2 h addr mask :: t else r :: l2_set_addr t h addr mask
  end.

(** ** Neighbour table scans *)

Fixpoint arp_find_from (h addr : Z) (tbl : list neigh) (i : nat) : option nat :=
  match tbl with
  | [] => None
  | e :: t => if (a_addr e =? addr) && (a_h e =? h) then Some i else arp_find_from h addr t (S i)
  end.
Definition arp_find (tbl : list neigh) (h addr : Z) : option nat := if addr =? 0 then None else arp_find_from h addr tbl 0.

(** The scan of [arp_slot]: the first unclaimed row ([inl]), or the row least
    recently touched of a table with none. *)
Fixpoint arp_scan (tbl : list neigh) (i : nat) (old : option (nat * Z)) : nat + option nat :=
  match tbl with
  | [] => inr (fst <$> old)
  | e :: t =>
      if a_addr e =? 0 then inl i
      else arp_scan t (S i) (match old with
                             | None => Some (i, a_at e)
                             | Some (j, at_) => if a_at e <? at_ then Some (i, a_at e) else old
                             end)
  end.

Section link.
Context {E : Type} `{!Host E}.
Local Open Scope metal_scope.
Local Abbreviation IpM := (IpM E).

(** ** Routes *)

Definition pm_ip_rt_clear : IpM unit := modify (set_rt []) ;; modify (set_rt_used 0).

Definition rt_del_if (P : route -> bool) : IpM unit :=
  w <- gets id ;;
  let '(tbl, used) := rt_del_loop P (rt w) (rt_used w) in modify (set_rt tbl) ;; modify (set_rt_used used).
Definition pm_ip_rt_del_h (h : Z) : IpM unit := rt_del_if (fun r => rt_on r && (rt_h r =? h)).
Definition pm_ip_rt_del (dst mask : Z) : IpM unit := rt_del_if (rt_is dst mask).

Definition rt_put (slot : nat) (dst mask gw h : Z) : IpM unit :=
  modify (fun w => set_rt_used (u32 (rt_used w + 1)) w) ;;
  modify (fun w => set_rt (<[slot := Route true dst mask gw h]> (rt w)) w).

Definition pm_ip_rt_upsert (dst mask gw h : Z) : IpM unit :=
  w <- gets id ;;
  match upsert_scan dst mask (rt w) 0 None with
  | inl i => modify (set_rt (alter (fun r => Route (rt_on r) (rt_dst r) (rt_mask r) gw h) i (rt w)))
  | inr (Some slot) => rt_put slot dst mask gw h
  | inr None =>
      g <- hostly (h_grow Limit_route (zlen (rt w))) ;;
      match g with
      | None => ret tt
      | Some cap => modify (set_rt (rt w ++ replicate (Z.to_nat (cap - zlen (rt w))) no_route)) ;; rt_put (length (rt w)) dst mask gw h
      end
  end.

(** ** Interfaces *)

Definition pm_ip_arp_clear : IpM unit := modify (set_arp []) ;; modify (set_arp_used 0).

Definition pm_ip_l2_clear : IpM unit :=
  modify (set_l2 []) ;; modify (set_l2_cap 0) ;; modify (set_l2_cur (-1)) ;;
  modify (set_pending_be 0) ;; modify (set_pending_mask 0) ;; pm_ip_rt_clear ;; pm_ip_arp_clear.

Definition pm_ip_l2_addr_of (h : Z) : IpM Z := gets (fun w => addr_of (l2 w) h).
Definition pm_ip_l2_mask_of (h : Z) : IpM Z := gets (fun w => mask_of (l2 w) h).
Definition pm_ip_l2_has (h : Z) : IpM bool := gets (fun w => has_l2 (l2 w) h).
Definition pm_ip_l2_h_for_addr (addr : Z) : IpM Z := gets (fun w => h_for_addr (l2 w) addr).

Definition addr_ours (w : stack E) (dst : Z) : bool :=
  if dst =? 0 then false
  else bool_decide (is_Some (l2_find (fun r => l2_addr r =? dst) (l2 w))) || (negb (pending_be w =? 0) && (dst =? pending_be w)).
Definition pm_ip_l2_addr_ours (dst : Z) : IpM bool := gets (fun w => addr_ours w dst).

(** ** Frames out *)

Definition pm_ip_eth_tx (h : Z) (dmac : list Z) (ethertype : Z) (body : list Z) : IpM Z :=
  let len := zlen body in
  if (h <? 0) || (len =? 0) || (IP_PKT_MAX <? len) then ret (-1) else
  smac <- gets (fun w => h_mac h (env w)) ;;
  let frame := dmac ++ smac ++ be16 ethertype ++ body in
  hostly (h_tx h (frame ++ replicate (60 - length frame) 0)).

Definition arp_bcast : list Z := replicate 6 255.

Definition arp_emit (h op : Z) (dmac : list Z) (tha : option (list Z)) (tpa : Z) : IpM unit :=
  spa <- pm_ip_l2_addr_of h ;;
  spa <- (if spa =? 0 then gets pending_be else ret spa) ;;
  mac <- gets (fun w => h_mac h (env w)) ;;
  let body := be16 1 ++ be16 2048 ++ [6; 4] ++ be16 op ++ mac ++ be32 spa ++ default (replicate 6 0) tha ++ be32 tpa in
  pm_ip_eth_tx h dmac 2054 body ;; ret tt.

(** ** The neighbour table *)

Definition upd_arp (i : nat) (f : neigh -> neigh) : IpM unit := modify (fun w => set_arp (alter f i (arp w)) w).
Definition arp_claim (i : nat) (h addr : Z) : IpM (option nat) :=
  upd_arp i (fun _ => Neigh ARP_FREE h addr (replicate 6 0) 0 0 []) ;;
  modify (fun w => set_arp_used (u32 (arp_used w + 1)) w) ;; ret (Some i).
Definition arp_unuse : IpM unit := modify (fun w => if negb (arp_used w =? 0) then set_arp_used (arp_used w - 1) w else w).

Definition arp_slot (h addr : Z) : IpM (option nat) :=
  w <- gets id ;;
  match arp_find (arp w) h addr with
  | Some i => ret (Some i)
  | None =>
      match arp_scan (arp w) 0 None with
      | inl i => arp_claim i h addr
      | inr old =>
          g <- hostly (h_grow Limit_neighbour (zlen (arp w))) ;;
          match g, old with
          | Some cap, _ => modify (set_arp (arp w ++ replicate (Z.to_nat (cap - zlen (arp w))) no_neigh)) ;; arp_claim (length (arp w)) h addr
          | None, Some i => arp_unuse ;; arp_claim i h addr
          | None, None => ret None
          end
      end
  end.

Definition pm_ip_arp_lookup (h addr : Z) : IpM (option (list Z)) :=
  w <- gets id ;;
  match arp_find (arp w) h addr ≫= fun i => (fun e => (i, e)) <$> arp w !! i with
  | None => ret None
  | Some (i, e) =>
      if negb (is_arp (a_state e) ARP_LIVE) then ret None else
      now <- now_us ;;
      if a_at e <=? now then upd_arp i (fun e => Neigh ARP_FREE (a_h e) (a_addr e) (a_mac e) (a_at e) (a_tries e) (a_pend e)) ;; ret None
      else ret (Some (a_mac e))
  end.

Definition pm_ip_arp_learn (h addr : Z) (mac : list Z) : IpM unit :=
  if (h <? 0) || (addr =? 0) || (addr =? BCAST) then ret tt else
  slot <- arp_slot h addr ;;
  match slot with
  | None => ret tt
  | Some i =>
      now <- now_us ;;
      w <- gets id ;;
      e <- chk (arp w !! i) ;;
      upd_arp i (fun e => Neigh ARP_LIVE (a_h e) (a_addr e) mac (u64 (now + IP_ARP_TTL_US)) 0 []) ;;
      if negb (zlen (a_pend e) =? 0) then pm_ip_eth_tx h mac 2048 (a_pend e) ;; ret tt else ret tt
  end.

Definition pm_ip_arp_ask (h addr : Z) : IpM unit :=
  if (h <? 0) || (addr =? 0) || (addr =? BCAST) then ret tt else
  slot <- arp_slot h addr ;;
  match slot with
  | None => ret tt
  | Some i =>
      w <- gets id ;;
      e <- chk (arp w !! i) ;;
      if is_arp (a_state e) ARP_LIVE then ret tt else
      now <- now_us ;;
      upd_arp i (fun e => Neigh ARP_ASKING (a_h e) (a_addr e) (a_mac e) (u64 (now + IP_ARP_RETRY_US)) (u32 (a_tries e + 1)) (a_pend e)) ;;
      arp_emit h 1 arp_bcast None addr
  end.

Definition pm_ip_arp_queue (h addr : Z) (pkt : list Z) : IpM unit :=
  if (h <? 0) || (zlen pkt =? 0) || (IP_ARP_PEND <? zlen pkt) then ret tt else
  slot <- arp_slot h addr ;;
  match slot with
  | None => ret tt
  | Some i => upd_arp i (fun e => Neigh (a_state e) (a_h e) (a_addr e) (a_mac e) (a_at e) (a_tries e) pkt)
  end.

Definition arp_tick_row (now : Z) (i : nat) : IpM unit :=
  w <- gets id ;;
  e <- chk (arp w !! i) ;;
  if is_arp (a_state e) ARP_FREE || (now <? a_at e) then ret tt else
  if is_arp (a_state e) ARP_LIVE then
    upd_arp i (fun e => Neigh ARP_FREE (a_h e) (a_addr e) (a_mac e) (a_at e) (a_tries e) (a_pend e))
  else if IP_ARP_TRIES <=? a_tries e then
    upd_arp i (fun _ => no_neigh) ;; arp_unuse
  else
    upd_arp i (fun e => Neigh (a_state e) (a_h e) (a_addr e) (a_mac e) (u64 (now + IP_ARP_RETRY_US)) (u32 (a_tries e + 1)) (a_pend e)) ;;
    arp_emit (a_h e) 1 arp_bcast None (a_addr e).

Definition pm_ip_arp_tick : IpM unit :=
  now <- now_us ;;
  n <- gets (fun w => length (arp w)) ;;
  foldr (fun i k => arp_tick_row now i ;; k) (ret tt) (seq 0 n).

Definition pm_ip_arp_input (h : Z) (frame : list Z) : IpM unit :=
  if (h <? 0) || (zlen frame <? 42) then ret tt else
  hw <- chk (pm_ip_read_be16 frame 14) ;;
  pr <- chk (pm_ip_read_be16 frame 16) ;;
  if negb (hw =? 1) || negb (pr =? 2048) then ret tt else
  hl <- chk (rd frame 18) ;;
  pl <- chk (rd frame 19) ;;
  if negb (hl =? 6) || negb (pl =? 4) then ret tt else
  op <- chk (pm_ip_read_be16 frame 20) ;;
  spa <- chk (pm_ip_read_be32 frame 28) ;;
  sha <- chk (slice frame 22 6) ;;
  pm_ip_arp_learn h spa sha ;;
  if negb (op =? 1) then ret tt else
  tpa <- chk (pm_ip_read_be32 frame 38) ;;
  ours <- pm_ip_l2_addr_of h ;;
  mine <- pm_ip_l2_addr_ours tpa ;;
  if ((ours =? 0) || negb (tpa =? ours)) && negb mine then ret tt else
  src <- chk (slice frame 6 6) ;;
  arp_emit h 2 src (Some sha) spa.

Definition pm_ip_arp_announce (h : Z) : IpM unit :=
  if h <? 0 then ret tt else
  ours <- pm_ip_l2_addr_of h ;;
  if ours =? 0 then ret tt else arp_emit h 1 arp_bcast None ours.

(** ** Bringing an interface up *)

Definition pm_ip_if_up_mask (h addr mask : Z) : IpM Z :=
  w <- gets id ;;
  if negb (arena w) || (addr =? 0) || (mask =? 0) || negb (has_l2 (l2 w) h) then ret (-1) else
  modify (set_l2 (l2_set_addr (l2 w) h addr mask)) ;;
  pm_ip_rt_upsert (Z.land addr mask) mask 0 h ;;
  cur <- gets l2_cur ;;
  (if (cur <? 0) || (cur =? h) then modify (set_l2_cur h) ;; pm_ip_rt_upsert 0 0 0 h else ret tt) ;;
  pm_ip_arp_announce h ;; ret 0.

Definition pm_ip_l2_apply_pending : IpM unit :=
  w <- gets id ;;
  if (pending_be w =? 0) || (l2_cur w <? 0) then ret tt else
  pm_ip_if_up_mask (l2_cur w) (pending_be w) (if negb (pending_mask w =? 0) then pending_mask w else IP_MASK24) ;;
  modify (set_pending_be 0) ;; modify (set_pending_mask 0).

(** ** Source address and egress *)

Definition ip_src_route (w : stack E) (dst : Z) : Z :=
  if (dst =? lo_addr w) || (dst =? IP_LO_BE) then lo_addr w else
  let addr := addr_of (l2 w) (rt_lookup (rt w) dst) in
  if negb (addr =? 0) then addr else
  match l2_find (fun r => negb (l2_addr r =? 0)) (l2 w) with Some r => l2_addr r | None => lo_addr w end.

(** [s] is the socket, if the caller has one. *)
Definition src_for (w : stack E) (s : option sock) (dst : Z) : Z :=
  match s with
  | Some s =>
      if negb (k_laddr s =? 0) && negb (k_laddr s =? BCAST) then k_laddr s else
      if 0 <=? k_l2 s then addr_of (l2 w) (k_l2 s) else ip_src_route w dst
  | None => ip_src_route w dst
  end.

(** Egress interface and next hop. *)
Definition route_out (w : stack E) (h_hint src dst : Z) : option (Z * Z) :=
  let m := rt_match (rt w) dst in
  let h := if (0 <=? h_hint) && has_l2 (l2 w) h_hint then h_hint else -1 in
  let h := if h <? 0 then h_for_addr (l2 w) src else h in
  let h := if h <? 0 then match m with Some r => rt_h r | None => -1 end else h in
  let h := if h <? 0 then match l2 w with r :: _ => l2_h r | [] => -1 end else h in
  if h <? 0 then None else
  let mask := mask_of (l2 w) h in
  if negb (mask =? 0) && (Z.land (addr_of (l2 w) h) mask =? Z.land dst mask) then Some (h, dst)
  else match m with
       | Some r => if negb (rt_gw r =? 0) then Some (h, rt_gw r) else Some (h, dst)
       | None => Some (h, dst)
       end.
End link.
End IpLink.
