(* ===== verification/IpTcp.v ===== *)
(** * The IP stack's TCP state machine

    src/.../metal/net/ip/__tcp__.c, and the way out of __wire__.c
    ([pm_ip_output_via]) that it emits through.  Loopback delivers inside the
    same call, so everything here is parametric in [deliver], the stack's own
    [ip_input]; [IpInput] ties the knot. *)
From S2P Require Import Prelude Ip IpWire IpLink.

Module IpTcp.
Import Ip IpWire IpLink.

Definition has_flag (flags bit : Z) : bool := negb (Z.land flags bit =? 0).
(** [flags & (TCP_SYN | TCP_FIN)] counted as one sequence number. *)
Definition ctl_of (flags : Z) : Z := b2z (negb (Z.land flags (Z.lor TCP_SYN TCP_FIN) =? 0)).

Definition is_mcast (dst : Z) : bool := Z.land dst 4026531840 =? 3758096384.

(** The IPv4 header every datagram of this stack starts with, its checksum
    still 0, and the header with it. *)
Definition ip_hdr0 (total proto src dst : Z) : list Z :=
  [69; 0] ++ be16 (u16 total) ++ [0; 0; 0; 0; 64; proto; 0; 0] ++ be32 src ++ be32 dst.
Definition ip_hdr (total proto src dst : Z) : list Z :=
  let cs := csum_fold (csum_add (ip_hdr0 total proto src dst) 0) in
  [69; 0] ++ be16 (u16 total) ++ [0; 0; 0; 0; 64; proto] ++ be16 cs ++ be32 src ++ be32 dst.

Section tcp.
Context {E : Type} `{!Host E}.
Local Open Scope metal_scope.
Local Abbreviation IpM := (IpM E).
Variable deliver : list Z -> IpM unit.

(** ** [pm_ip_output_via] *)

Definition is_lo (w : stack E) (dst : Z) : bool := lo_up w && ((dst =? lo_addr w) || (dst =? IP_LO_BE)).

Definition with_rx_l2 (h : Z) (m : IpM unit) : IpM unit :=
  prev <- gets rx_l2 ;; modify (set_rx_l2 h) ;; m ;; modify (set_rx_l2 prev).

Definition mcast_mac (dst : Z) : list Z :=
  let lo23 := Z.land dst 8388607 in [1; 0; 94; u8 (Z.shiftr lo23 16); u8 (Z.shiftr lo23 8); u8 lo23].

Definition pm_ip_output_via (h_hint : Z) (pkt : list Z) : IpM Z :=
  let len := zlen pkt in
  if (len <? 20) || (IP_PKT_MAX <? len) then ret (-1) else
  dst <- chk (pm_ip_read_be32 pkt 16) ;;
  w <- gets id ;;
  if is_lo w dst then with_rx_l2 (-1) (deliver pkt) ;; ret 0 else
  if lo_up w && is_mcast dst then with_rx_l2 (-1) (deliver pkt) ;; ret 0 else
  src <- chk (pm_ip_read_be32 pkt 12) ;;
  match route_out w h_hint src dst with
  | None => ret 0
  | Some (h, hop) =>
      let mask := mask_of (l2 w) h in
      if is_mcast dst then pm_ip_eth_tx h (mcast_mac dst) 2048 pkt else
      if (dst =? BCAST) || (negb (mask =? 0) && (Z.lor dst mask =? BCAST)) then pm_ip_eth_tx h (replicate 6 255) 2048 pkt else
      if addr_ours w dst then pm_ip_eth_tx h (h_mac h (env w)) 2048 pkt else
      m <- pm_ip_arp_lookup h hop ;;
      match m with
      | Some mac => pm_ip_eth_tx h mac 2048 pkt
      | None => pm_ip_arp_queue h hop pkt ;; pm_ip_arp_ask h hop ;; ret 0
      end
  end.

(** ** Segments out *)

Definition remote (w : stack E) (s : sock) : Z := if negb (k_raddr s =? 0) then k_raddr s else lo_addr w.

(** The TCP header of a segment, its checksum still 0. *)
Definition tcp_hdr (s : sock) (flags seq : Z) : list Z :=
  let wnd := u32 (rx_cap (k_rcv s) - rx_len (k_rcv s)) in
  be16 (k_lport s) ++ be16 (k_rport s) ++ be32 seq ++ be32 (rcv_nxt (k_rcv s)) ++
  [80; flags] ++ be16 (if 65535 <? wnd then 65535 else u16 wnd) ++ [0; 0; 0; 0].

Definition tcp_packet (w : stack E) (s : sock) (flags seq : Z) (data : list Z) : option (list Z) :=
  let total := 40 + zlen data in
  pm_ip_l4_stamp (ip_hdr total 6 (src_for w (Some s) (remote w s)) (remote w s) ++ tcp_hdr s flags seq ++ data) total.

Definition tcp_emit (p flags : Z) (data : list Z) (seq : Z) : IpM Z :=
  s <- get_sock p ;;
  if IP_PKT_MAX <? 40 + zlen data then ret (-1) else
  w <- gets id ;;
  pkt <- chk (tcp_packet w s flags seq data) ;;
  pm_ip_output_via (k_l2 s) pkt.

Definition pm_ip_tcp_payload_max (w : stack E) (s : sock) : Z :=
  let dst := remote w s in
  if is_lo w dst then IP_TCP_MSS else
  match route_out w (k_l2 s) (src_for w (Some s) dst) dst with
  | None => 0
  | Some (h, _) =>
      let frame_max := h_frame_max h (env w) in
      if frame_max <=? 54 then 0 else
      if frame_max - 54 <? IP_TCP_MSS then frame_max - 54 else IP_TCP_MSS
  end.

(** Claim [consumes] sequence numbers for a segment: its bytes go to the end
    of the resend buffer ([None] when they do not fit the buffer). *)
Definition reserve (flags : Z) (data : list Z) (consumes now : Z) (q : snd) : option snd :=
  let fresh := rexmit_len q =? 0 in
  buf ← (if negb (zlen data =? 0) then blit (rexmit q) (rexmit_len q) data else Some (rexmit q));
  let seq0 := if fresh then snd_nxt q else rexmit_seq q in
  let len := u32 (rexmit_len q + consumes) in
  Some (Snd (u32 (snd_nxt q + consumes)) (snd_una q) (snd_wnd q) (iss q) buf len seq0
    (if fresh then flags else rexmit_flags q) (if fresh then 0 else rexmit_tries q)
    (u32 (seq0 + len)) (if fresh then u64 (now + IP_RTO_US) else rexmit_at q) (wnd_stall_at q)).

(** Give the claim back after an emission that failed. *)
Definition unreserve (seq old_len : Z) (q : snd) : snd :=
  Snd seq (snd_una q) (snd_wnd q) (iss q) (rexmit q) old_len (rexmit_seq q) (rexmit_flags q) (rexmit_tries q)
    (if negb (old_len =? 0) then u32 (rexmit_seq q + old_len) else 0) (rexmit_at q) (wnd_stall_at q).

Definition pm_ip_tcp_xmit (p flags : Z) (data : list Z) : IpM Z :=
  if p =? 0 then ret TX_ERROR else
  s <- get_sock p ;;
  let q := k_snd s in
  let dlen := zlen data in
  let consumes := u32 (dlen + ctl_of flags) in
  if negb (consumes =? 0) && (rexmit_cap q <? u32 (rexmit_len q + consumes)) then ret TX_WAIT else
  let seq := snd_nxt q in
  let old := rexmit_len q in
  (if negb (consumes =? 0) then
     now <- (if old =? 0 then now_us else ret 0) ;;
     q' <- chk (reserve flags data consumes now q) ;;
     put_sock p (set_k_snd q' s)
   else ret tt) ;;
  tx <- tcp_emit p flags data seq ;;
  if negb (tx =? TX_OK) then
    if (tx =? TX_WAIT) && has_flag flags TCP_SYN && (dlen =? 0) && (old =? 0) then ret tx else
    upd_snd p (unreserve seq old) ;; ret tx
  else ret TX_OK.

(** ** Closing *)

Definition can_fin (st : tcp_state) : bool := is_st st TCP_ESTAB || is_st st TCP_CLOSE_WAIT || is_st st TCP_FIN_WAIT || is_st st TCP_LAST_ACK.

Definition pm_ip_tcp_close (p : Z) : IpM Z :=
  if p =? 0 then ret (-1) else
  s <- get_sock p ;;
  if negb (is_kind (k_kind s) SK_TCP) then ret (-1) else
  upd_sock p (fun s => set_k_app_closed true (set_k_waiter 0 s)) ;;
  if k_error s then pm_ip_sock_drop (k_fd s) ;; ret 1 else
  if negb (can_fin (k_st s)) then pm_ip_sock_drop (k_fd s) ;; ret 1 else
  if k_fin_sent s then ret 0 else
  w <- gets id ;;
  let fd := k_fd s in
  let pf := peer_fin (k_rcv s) in
  let loopback_passive := pf && lo_up w && ((k_raddr s =? lo_addr w) || (k_raddr s =? IP_LO_BE)) in
  if negb (snd_una (k_snd s) =? snd_nxt (k_snd s)) || negb (rexmit_len (k_snd s) =? 0) then ret 0 else
  upd_sock p (fun s => set_k_st (if pf then TCP_LAST_ACK else TCP_FIN_WAIT) (set_k_fin_sent true s)) ;;
  tx <- pm_ip_tcp_xmit p (Z.lor TCP_FIN TCP_ACK) [] ;;
  if tx =? TX_WAIT then upd_sock p (set_k_fin_sent false) ;; ret 0 else
  if negb (tx =? TX_OK) then s <- get_sock p ;; pm_ip_sock_drop (k_fd s) ;; ret (-1) else
  at_ <- pm_ip_sock_at fd ;;
  (if loopback_passive && (at_ =? p) then pm_ip_sock_drop fd else ret tt) ;; ret 0.

(** ** The timeout pass *)

Definition rexmit_data (q : snd) (mss : Z) : option (list Z) :=
  let dlen := u32 (rexmit_len q - ctl_of (rexmit_flags q)) in
  slice (rexmit q) 0 (if mss <? dlen then mss else dlen).

Definition check_sock (now p : Z) : IpM unit :=
  s <- get_sock p ;;
  let q := k_snd s in
  if negb (is_kind (k_kind s) SK_TCP) then ret tt else
  if k_app_closed s && negb (k_fin_sent s) && (snd_una q =? snd_nxt q) && (rexmit_len q =? 0) then
    pm_ip_tcp_close p ;; ret tt
  else if (rexmit_len q =? 0) || (now <? rexmit_at q) then
    if (rexmit_len q =? 0) && negb (k_waiter s =? 0) && (snd_wnd q <=? u32 (snd_nxt q - snd_una q))
       && (peer_fin (k_rcv s) || (negb (wnd_stall_at q =? 0) && (wnd_stall_at q <=? now))) then
      upd_sock p (fun s => set_k_error true (set_k_snd (set_wnd_stall_at 0 (k_snd s)) s)) ;; pm_ip_sock_wake p
    else ret tt
  else
    w <- gets id ;;
    data <- chk (rexmit_data q (pm_ip_tcp_payload_max w s)) ;;
    tx <- tcp_emit p (rexmit_flags q) data (rexmit_seq q) ;;
    (if tx =? TX_OK then upd_snd p (fun q => set_rexmit_tries (u8 (rexmit_tries q + 1)) q) else ret tt) ;;
    s <- get_sock p ;;
    if IP_REXMIT_TRIES <=? rexmit_tries (k_snd s) then
      if k_app_closed s then pm_ip_sock_drop (k_fd s) else
      if is_st (k_st s) TCP_SYN_RCVD then pm_ip_sock_drop (k_fd s) else
      upd_sock p (fun s =>
        let q := k_snd s in
        set_k_error true (set_k_snd (Snd (snd_nxt q) (snd_una q) (snd_wnd q) (iss q) (rexmit q) 0 (rexmit_seq q)
          (rexmit_flags q) (rexmit_tries q) 0 (rexmit_at q) (wnd_stall_at q)) s)) ;;
      pm_ip_sock_wake p
    else upd_snd p (set_rexmit_at (u64 (now + IP_RTO_US))).

(** [for (i = 0; i < pm_ip_sk_cap; i++)]: the bound is read every round. *)
Fixpoint check_loop (fuel : nat) (now i : Z) : IpM unit :=
  match fuel with
  | O => nofuel
  | S f =>
      cap <- gets (fun w => zlen (sk w)) ;;
      if i <? cap then
        p <- pm_ip_sock_at i ;;
        (if p =? 0 then ret tt else check_sock now p) ;; check_loop f now (i + 1)
      else ret tt
  end.
Definition pm_ip_tcp_check_timeouts (fuel : nat) : IpM unit := now <- now_us ;; check_loop fuel now 0.

(** ** Accepting *)

Definition tcp_queue_accept (ls child : Z) : IpM unit :=
  c <- pm_ip_sock_at child ;;
  if c =? 0 then ret tt else
  s <- get_sock ls ;;
  if k_an s <? zlen (k_aq s) then
    aq <- chk (wr (k_aq s) (k_an s) child) ;;
    put_sock ls (set_k_an (k_an s + 1) (set_k_aq aq s)) ;; pm_ip_sock_wake ls
  else
    pm_ip_tcp_xmit c (Z.lor TCP_RST TCP_ACK) [] ;; pm_ip_sock_drop child.

(** ** Demultiplexing *)

Definition l2_match (s : sock) (h : Z) : bool := (k_l2 s <? 0) || (h <? 0) || (k_l2 s =? h).

Fixpoint tcp_find_loop (tbl : list Z) (src sport dst dport listen : Z) : IpM Z :=
  match tbl with
  | [] => ret listen
  | p :: t =>
      if p =? 0 then tcp_find_loop t src sport dst dport listen else
      s <- get_sock p ;;
      h <- gets rx_l2 ;;
      if negb (is_kind (k_kind s) SK_TCP) then tcp_find_loop t src sport dst dport listen else
      if is_st (k_st s) TCP_LISTEN && (k_lport s =? dport) then
        tcp_find_loop t src sport dst dport
          (if ((k_laddr s =? 0) || (k_laddr s =? BCAST) || (k_laddr s =? dst)) && l2_match s h then p else listen)
      else if (k_lport s =? dport) && (k_rport s =? sport) && (k_raddr s =? src) && l2_match s h then ret p
      else tcp_find_loop t src sport dst dport listen
  end.
Definition tcp_find (src sport dst dport : Z) : IpM Z := tbl <- gets sk ;; tcp_find_loop tbl src sport dst dport 0.

(** ** Segments in *)

(** The resend buffer after the peer acknowledged everything below [ack]. *)
Definition ack_rexmit (ack now : Z) (q : snd) : option snd :=
  if negb (rexmit_len q =? 0) && (rexmit_seq q <? ack) then
    let acked := ack - rexmit_seq q in
    let at_ := u64 (now + IP_RTO_US) in
    if rexmit_len q <=? acked then
      Some (Snd (snd_nxt q) ack (snd_wnd q) (iss q) (rexmit q) 0 (rexmit_seq q) (rexmit_flags q) 0 0 at_ 0)
    else
      rest ← slice (rexmit q) acked (rexmit_len q - acked);
      buf ← blit (rexmit q) 0 rest;
      Some (Snd (snd_nxt q) ack (snd_wnd q) (iss q) buf (rexmit_len q - acked) (u32 (rexmit_seq q + acked)) (rexmit_flags q) 0
        (u32 (u32 (rexmit_seq q + acked) + (rexmit_len q - acked))) at_ 0)
  else Some (Snd (snd_nxt q) ack (snd_wnd q) (iss q) (rexmit q) (rexmit_len q) (rexmit_seq q) (rexmit_flags q) (rexmit_tries q)
         (rexmit_end q) (rexmit_at q) 0).

(** A valid acknowledgement; [true] when the segment is used up by it. *)
Definition tcp_ack (p flags ack : Z) : IpM bool :=
  s <- get_sock p ;;
  let q := k_snd s in
  if negb (has_flag flags TCP_ACK) || negb (snd_una q <? ack) || negb (ack <=? snd_nxt q) then ret false else
  now <- (if negb (rexmit_len q =? 0) && (rexmit_seq q <? ack) then now_us else ret 0) ;;
  q' <- chk (ack_rexmit ack now q) ;;
  put_sock p (set_k_snd q' s) ;;
  pm_ip_sock_wake p ;;
  s <- get_sock p ;;
  let all := snd_una (k_snd s) =? snd_nxt (k_snd s) in
  if k_fin_sent s && all && (is_st (k_st s) TCP_FIN_WAIT || is_st (k_st s) TCP_LAST_ACK) && negb (has_flag flags TCP_FIN) then
    pm_ip_sock_drop (k_fd s) ;; ret true
  else if k_app_closed s && all then pm_ip_tcp_close p ;; ret true
  else ret false.

Definition tcp_window (p flags w : Z) : IpM unit :=
  if negb (has_flag flags TCP_ACK) then ret tt else
  s <- get_sock p ;;
  if snd_wnd (k_snd s) <? w then upd_snd p (set_snd_wnd w) ;; pm_ip_sock_wake p
  else if w <? snd_wnd (k_snd s) then upd_snd p (set_snd_wnd w) else ret tt.

Definition tcp_reset (p : Z) : IpM unit :=
  s <- get_sock p ;;
  if is_st (k_st s) TCP_SYN_RCVD then pm_ip_sock_drop (k_fd s) else
  upd_sock p (fun s => set_k_st TCP_CLOSE_WAIT (set_k_rcv (set_peer_fin true (k_rcv s)) s)) ;;
  pm_ip_sock_wake p ;;
  s <- get_sock p ;;
  if k_app_closed s then pm_ip_sock_drop (k_fd s) else ret tt.

(** The child a listener answers a SYN with. *)
Definition tcp_listen_syn (p src sport seq : Z) : IpM unit :=
  s <- get_sock p ;;
  cfd <- pm_ip_sock_alloc SK_TCP ;;
  if cfd <? 0 then ret tt else
  c <- pm_ip_sock_at cfd ;;
  if c =? 0 then ret tt else
  k <- get_sock c ;;
  let q := k_snd k in
  let r := k_rcv k in
  put_sock c (Sock (k_used k) (k_fd k) (k_kind k) TCP_SYN_RCVD true (k_l2 s) (k_laddr s) (k_lport s) src sport
    (k_mcast k) (k_mcast_cap k)
    (Snd 1000 1000 (snd_wnd q) 1000 (rexmit q) (rexmit_len q) (rexmit_seq q) (rexmit_flags q) (rexmit_tries q) (rexmit_end q) (rexmit_at q) (wnd_stall_at q))
    (set_rcv_nxt (u32 (seq + 1)) r)
    (k_app_closed k) (k_fin_sent k) (k_error k) (k_waiter k) (k_fd s) (k_aq k) (k_an k)) ;;
  pm_ip_tcp_xmit c (Z.lor TCP_SYN TCP_ACK) [] ;; ret tt.

(** Payload in order is appended as far as it fits; the rest is dropped. *)
Definition take_data (data : list Z) (r : rcv) : option rcv :=
  let room := u32 (rx_cap r - rx_len r) in
  let n := if zlen data <? room then zlen data else room in
  bytes ← slice data 0 n;
  buf ← blit (rx r) (rx_len r) bytes;
  Some (Rcv (u32 (rcv_nxt r + n)) buf (u32 (rx_len r + n)) (rx_addr r) (rx_port r) (peer_fin r)).

(** Payload; [false] when it is not the next byte expected. *)
Definition tcp_data (p seq : Z) (data : list Z) : IpM bool :=
  if zlen data =? 0 then ret true else
  s <- get_sock p ;;
  if negb (seq =? rcv_nxt (k_rcv s)) then pm_ip_tcp_xmit p TCP_ACK [] ;; ret false else
  r <- chk (take_data data (k_rcv s)) ;;
  put_sock p (set_k_rcv r s) ;;
  pm_ip_tcp_xmit p TCP_ACK [] ;;
  pm_ip_sock_wake p ;; ret true.

Definition tcp_fin (p seq dlen : Z) : IpM unit :=
  s <- get_sock p ;;
  if negb (u32 (seq + dlen) =? rcv_nxt (k_rcv s)) then pm_ip_tcp_xmit p TCP_ACK [] ;; ret tt else
  upd_sock p (fun s =>
    let r := k_rcv s in
    set_k_st (if is_st (k_st s) TCP_ESTAB then TCP_CLOSE_WAIT else k_st s)
      (set_k_rcv (set_peer_fin true (set_rcv_nxt (u32 (rcv_nxt r + 1)) r)) s)) ;;
  pm_ip_tcp_xmit p TCP_ACK [] ;;
  pm_ip_sock_wake p ;;
  s <- get_sock p ;;
  if k_app_closed s && k_fin_sent s && (snd_una (k_snd s) =? snd_nxt (k_snd s)) then pm_ip_sock_drop (k_fd s) else
  if k_app_closed s && negb (k_fin_sent s) then pm_ip_tcp_close p ;; ret tt else ret tt.

(** A segment for socket [p], after the reset, acknowledgement and window
    handling that every state shares. *)
Definition tcp_by_state (p src sport seq flags : Z) (data : list Z) : IpM unit :=
  s <- get_sock p ;;
  let syn := has_flag flags TCP_SYN in
  let ack := has_flag flags TCP_ACK in
  if is_st (k_st s) TCP_SYN_RCVD && syn && negb ack then
    if negb (rexmit_len (k_snd s) =? 0) then
      data <- chk (slice (rexmit (k_snd s)) 0 (u32 (rexmit_len (k_snd s) - ctl_of (rexmit_flags (k_snd s))))) ;;
      tcp_emit p (rexmit_flags (k_snd s)) data (rexmit_seq (k_snd s)) ;; ret tt
    else ret tt
  else if is_st (k_st s) TCP_LISTEN && syn && negb ack then tcp_listen_syn p src sport seq
  else if is_st (k_st s) TCP_SYN_SENT && syn && ack then
    upd_sock p (fun s => set_k_snd (set_snd_una (snd_nxt (k_snd s)) (k_snd s))
      (set_k_st TCP_ESTAB (set_k_rcv (set_rcv_nxt (u32 (seq + 1)) (k_rcv s)) s))) ;;
    pm_ip_tcp_xmit p TCP_ACK [] ;; pm_ip_sock_wake p
  else if is_st (k_st s) TCP_SYN_RCVD && ack then
    upd_sock p (fun s => set_k_snd (set_snd_una (snd_nxt (k_snd s)) (k_snd s)) (set_k_st TCP_ESTAB s)) ;;
    if 0 <=? k_listen s then
      ls <- pm_ip_sock_at (k_listen s) ;;
      if negb (ls =? 0) then tcp_queue_accept ls (k_fd s) else ret tt
    else ret tt
  else if is_st (k_st s) TCP_ESTAB || is_st (k_st s) TCP_FIN_WAIT || is_st (k_st s) TCP_CLOSE_WAIT then
    ok <- tcp_data p seq data ;;
    if ok && has_flag flags TCP_FIN then tcp_fin p seq (zlen data) else ret tt
  else ret tt.

Definition pm_ip_tcp_input (src dst : Z) (th : list Z) : IpM unit :=
  if zlen th <? 20 then ret tt else
  sport <- chk (pm_ip_read_be16 th 0) ;;
  dport <- chk (pm_ip_read_be16 th 2) ;;
  seq <- chk (pm_ip_read_be32 th 4) ;;
  ack <- chk (pm_ip_read_be32 th 8) ;;
  b12 <- chk (rd th 12) ;;
  let off := Z.shiftr b12 4 * 4 in
  flags <- chk (rd th 13) ;;
  wnd <- chk (pm_ip_read_be16 th 14) ;;
  let data := drop (Z.to_nat off) th in
  p <- tcp_find src sport dst dport ;;
  if p =? 0 then ret tt else
  s <- get_sock p ;;
  if has_flag flags TCP_RST && negb (is_st (k_st s) TCP_LISTEN) then tcp_reset p else
  done_ <- tcp_ack p flags ack ;;
  if done_ : bool then ret tt else
  tcp_window p flags wnd ;;
  tcp_by_state p src sport seq flags data.
End tcp.
End IpTcp.
