(* ===== verification/IpInput.v ===== *)
(** * The IP stack: datagrams in, sockets, timers

    [ip_input] and [pm_metal_net_ip_rx_from] of src/.../metal/net/ip/__wire__.c,
    and the card's exported operations of __impl__.c.  Every exported call of
    the source takes the card's lock, runs the [_locked] body and releases the
    lock; the bodies are what is modelled, as the lock makes them atomic.
    [ip_input] re-enters itself through loopback: its fuel bounds that nesting. *)
From S2P Require Import Prelude Ip IpWire IpLink IpTcp.

Module IpInput.
Import Ip IpWire IpLink IpTcp.

Definition SOCK_STREAM := 1.
Definition SOCK_DGRAM := 2.

Section input.
Context {E : Type} `{!Host E}.
Local Open Scope metal_scope.
Local Abbreviation IpM := (IpM E).

(** ** Multicast membership *)

Definition list_has (x : Z) (l : list Z) : bool := existsb (Z.eqb x) l.

Fixpoint mcast_loop (tbl : list Z) (dst : Z) : IpM bool :=
  match tbl with
  | [] => ret false
  | p :: t =>
      if p =? 0 then mcast_loop t dst else
      s <- get_sock p ;;
      if is_kind (k_kind s) SK_UDP && list_has dst (k_mcast s) then ret true else mcast_loop t dst
  end.
Definition pm_ip_mcast_joined (dst : Z) : IpM bool := tbl <- gets sk ;; mcast_loop tbl dst.

(** ** UDP demultiplexing *)

(** Whether a bound UDP socket takes a datagram for [dst]:[dport]. *)
Definition udp_takes (s : sock) (h dst dport : Z) : bool :=
  if negb (is_kind (k_kind s) SK_UDP) || negb (k_bound s) then false else
  if negb (k_lport s =? dport) then false else
  if negb (l2_match s h) then false else
  if negb (k_laddr s =? 0) && negb (k_laddr s =? BCAST) && negb (k_laddr s =? dst) then false else
  let member := (k_laddr s =? 0) || (k_laddr s =? BCAST) || (k_laddr s =? dst) in
  member || (is_mcast dst && list_has dst (k_mcast s)).

Fixpoint udp_loop (tbl : list Z) (src sport dst dport : Z) (payload : list Z) : IpM unit :=
  match tbl with
  | [] => ret tt
  | p :: t =>
      if p =? 0 then udp_loop t src sport dst dport payload else
      s <- get_sock p ;;
      h <- gets rx_l2 ;;
      if udp_takes s h dst dport then
        let r := k_rcv s in
        let plen := if rx_cap r <? zlen payload then rx_cap r else zlen payload in
        bytes <- chk (slice payload 0 plen) ;;
        buf <- chk (blit (rx r) 0 bytes) ;;
        put_sock p (set_k_rcv (Rcv (rcv_nxt r) buf plen src sport (peer_fin r)) s) ;;
        pm_ip_sock_wake p
      else udp_loop t src sport dst dport payload
  end.

(** ** ICMP echo *)

Definition icmp_reply (pkt l4 : list Z) (ihl src dst : Z) : option (list Z) :=
  r ← pm_ip_write_be32 pkt 12 dst;
  r ← pm_ip_write_be32 r 16 src;
  r ← wr r 10 0; r ← wr r 11 0;
  cs ← pm_ip_csum r ihl;
  r ← pm_ip_write_be16 r 10 cs;
  r ← wr r ihl 0; r ← wr r (ihl + 2) 0; r ← wr r (ihl + 3) 0;
  icmp ← slice r ihl (zlen l4);
  pm_ip_write_be16 r (ihl + 2) (csum_fold (csum_add icmp 0)).

(** An echo reply, kept if it answers the outstanding ping. *)
Definition icmp_answer (l4 : list Z) : IpM unit :=
  id_ <- chk (pm_ip_read_be16 l4 4) ;;
  w <- gets id ;;
  match ping_out w with
  | Some buf =>
      if id_ =? ping_id w then
        let copy := if zlen buf <? zlen l4 then zlen buf else zlen l4 in
        bytes <- chk (slice l4 0 copy) ;;
        buf <- chk (blit buf 0 bytes) ;;
        modify (set_ping_out (Some buf)) ;; modify (set_ping_len copy)
      else ret tt
  | None => ret tt
  end.

(** ** [ip_input] *)

Definition for_us (dst : Z) : IpM bool :=
  w <- gets id ;;
  j <- (if is_mcast dst then pm_ip_mcast_joined dst else ret false) ;;
  ret (is_lo w dst || addr_ours w dst || (dst =? BCAST) || j).

Section body.
Variable deliver : list Z -> IpM unit.

Definition ip_input_body (pkt : list Z) : IpM unit :=
  if zlen pkt <? 20 then ret tt else
  b0 <- chk (rd pkt 0) ;;
  if negb (Z.shiftr b0 4 =? 4) then ret tt else
  let ihl := ihl_of b0 in
  if (ihl <? 20) || (zlen pkt <? ihl) then ret tt else
  total <- chk (pm_ip_read_be16 pkt 2) ;;
  let len := if (ihl <=? total) && (total <=? zlen pkt) then total else zlen pkt in
  hc <- chk (pm_ip_csum pkt ihl) ;;
  if negb (hc =? 0) then ret tt else
  ok <- chk (l4_csum_ok pkt len) ;;
  if negb ok then ret tt else
  dst <- chk (pm_ip_read_be32 pkt 16) ;;
  src <- chk (pm_ip_read_be32 pkt 12) ;;
  ours <- for_us dst ;;
  if negb ours then ret tt else
  proto <- chk (rd pkt 9) ;;
  let l4len := len - ihl in
  l4 <- chk (slice pkt ihl l4len) ;;
  let ty := default 255 (rd l4 0) in
  if (proto =? 1) && (8 <=? l4len) && (ty =? 0) then icmp_answer l4 else
  if (proto =? 1) && (8 <=? l4len) && (ty =? 8) then
    if (IP_PKT_MAX <? len) || (dst =? BCAST) then ret tt else
    body <- chk (slice pkt 0 len) ;;
    reply <- chk (icmp_reply body l4 ihl src dst) ;;
    pm_ip_output_via deliver (-1) reply ;; ret tt
  else if proto =? 6 then pm_ip_tcp_input deliver src dst l4
  else if (proto =? 17) && (8 <=? l4len) then
    dport <- chk (pm_ip_read_be16 l4 2) ;;
    sport <- chk (pm_ip_read_be16 l4 0) ;;
    tbl <- gets sk ;;
    udp_loop tbl src sport dst dport (drop 8 l4)
  else ret tt.
End body.

Fixpoint ip_input (fuel : nat) (pkt : list Z) : IpM unit :=
  match fuel with O => nofuel | S f => ip_input_body (ip_input f) pkt end.

Section ops.
Variable fuel : nat.
Local Abbreviation deliver := (ip_input fuel).

Definition pm_metal_net_ip_rx_from (h : Z) (frame : list Z) : IpM Z :=
  if zlen frame =? 0 then ret (-1) else
  prev <- gets rx_l2 ;;
  modify (set_rx_l2 h) ;;
  modify (fun w => set_env (h_count_rx h (env w)) w) ;;
  let et := match pm_ip_read_be16 frame 12 with Some t => if 14 <=? zlen frame then t else 0 | None => 0 end in
  if et =? 2054 then pm_ip_arp_input h frame ;; modify (set_rx_l2 prev) ;; ret 0 else
  deliver (if et =? 2048 then drop 14 frame else frame) ;; modify (set_rx_l2 prev) ;; ret 0.

(** ** Bringing the card up and down *)

Definition pm_metal_net_ip_init (given : bool) : IpM Z :=
  if negb given then ret (-1) else
  modify (set_arena true) ;; sock_clear ;; pm_ip_l2_clear ;;
  modify (set_lo_up false) ;; modify (set_rx_l2 (-1)) ;; modify (set_ping_len 0) ;; modify (set_ping_id 0) ;;
  modify (set_eph 49152) ;; modify (set_ping_seq 0) ;; ret 0.

Definition pm_metal_net_ip_deinit : IpM unit :=
  sock_clear ;; modify (set_lo_up false) ;; pm_ip_l2_clear ;;
  w <- gets id ;;
  (match ping_out w with Some _ => modify (set_ping_out None) ;; modify (set_ping_len 0) | None => ret tt end) ;;
  modify (set_rx_l2 (-1)) ;; modify (set_arena false).

Definition pm_metal_net_ip_lo_up : IpM Z := w <- gets id ;; if negb (arena w) then ret (-1) else modify (set_lo_up true) ;; ret 0.
Definition pm_metal_net_ip_lo_ready : IpM Z := w <- gets id ;; ret (b2z (arena w && lo_up w)).

Definition pm_ip_l2_attach_locked (h : Z) : IpM Z :=
  w <- gets id ;;
  if h_dt_id h (env w) <? 0 then ret (-1) else
  if has_l2 (l2 w) h then modify (set_l2_cur h) ;; pm_ip_l2_apply_pending ;; ret 0 else
  room <- (if zlen (l2 w) =? l2_cap w then
             g <- hostly (h_grow Limit_interface (l2_cap w)) ;;
             match g with Some cap => modify (set_l2_cap cap) ;; ret true | None => ret false end
           else ret true) ;;
  if negb room then ret (-1) else
  modify (fun w => set_l2 (l2 w ++ [L2 h 0 0]) w) ;; modify (set_l2_cur h) ;; pm_ip_l2_apply_pending ;; ret 0.

Definition pm_metal_net_ip_if_up_mask (h addr mask : Z) : IpM Z :=
  rc <- pm_ip_l2_attach_locked h ;;
  if rc =? 0 then pm_ip_if_up_mask h addr mask else ret (-1).
Definition pm_metal_net_ip_if_up_h (h addr : Z) : IpM Z := pm_metal_net_ip_if_up_mask h addr IP_MASK24.

Fixpoint first_netdev_loop (n : nat) (i : Z) (w : stack E) : Z :=
  match n with O => -1 | S n => if 0 <=? h_dt_id i (env w) then i else first_netdev_loop n (i + 1) w end.
Definition first_netdev (w : stack E) : Z := first_netdev_loop 32 0 w.

Definition pm_metal_net_ip_if_up (addr : Z) : IpM Z :=
  w <- gets id ;;
  if negb (arena w) || (addr =? 0) then ret (-1) else
  if 0 <=? l2_cur w then pm_ip_if_up_mask (l2_cur w) addr IP_MASK24 else
  match l2 w with
  | r :: _ => pm_ip_if_up_mask (l2_h r) addr IP_MASK24
  | [] =>
      let h := first_netdev w in
      if 0 <=? h then
        rc <- pm_ip_l2_attach_locked h ;;
        if rc =? 0 then pm_ip_if_up_mask h addr IP_MASK24 else ret rc
      else modify (set_pending_be addr) ;; modify (set_pending_mask IP_MASK24) ;; ret 0
  end.

(** ** Routes *)

Definition pm_ip_route_add_locked (dst mask gw h : Z) : IpM Z :=
  w <- gets id ;;
  if negb (arena w) || negb (has_l2 (l2 w) h) then ret (-1) else pm_ip_rt_upsert (Z.land dst mask) mask gw h ;; ret 0.
Definition pm_ip_route_del_locked (dst mask : Z) : IpM Z :=
  w <- gets id ;;
  if negb (arena w) then ret (-1) else pm_ip_rt_del (Z.land dst mask) mask ;; ret 0.
Definition pm_ip_gw_set_locked (gw : Z) : IpM Z :=
  w <- gets id ;;
  if negb (arena w) then ret (-1) else
  let h := if l2_cur w <? 0 then match l2 w with r :: _ => l2_h r | [] => -1 end else l2_cur w in
  if h <? 0 then ret (-1) else pm_ip_rt_upsert 0 0 gw h ;; ret 0.
Definition gw_of (w : stack E) : Z := match List.find (fun r => rt_on r && (rt_mask r =? 0)) (rt w) with Some r => rt_gw r | None => 0 end.
Definition pm_ip_gw_locked : IpM Z := gets gw_of.

Definition pm_ip_arp_resolve_locked (addr : Z) : IpM Z :=
  w <- gets id ;;
  if negb (arena w) || (addr =? 0) then ret (-1) else
  match route_out w (-1) 0 addr with
  | None => ret (-1)
  | Some (h, hop) => m <- pm_ip_arp_lookup h hop ;; match m with Some _ => ret 1 | None => pm_ip_arp_ask h hop ;; ret 0 end
  end.

Fixpoint l2_remove (tbl : list l2row) (h : Z) : list l2row :=
  match tbl with [] => [] | r :: t => if l2_h r =? h then t else r :: l2_remove t h end.

Definition pm_metal_net_ip_l2_detach (h : Z) : IpM Z :=
  gw <- pm_ip_gw_locked ;;
  w <- gets id ;;
  if negb (has_l2 (l2 w) h) then ret (-1) else
  modify (set_l2 (l2_remove (l2 w) h)) ;; pm_ip_rt_del_h h ;;
  w <- gets id ;;
  (if l2_cur w =? h then
     let cur := match last (l2 w) with Some r => l2_h r | None => -1 end in
     modify (set_l2_cur cur) ;; if 0 <=? cur then pm_ip_rt_upsert 0 0 gw cur else ret tt
   else ret tt) ;; ret 0.

(** ** Sockets *)

Definition pm_ip_socket_locked (type : Z) : IpM Z :=
  if type =? SOCK_STREAM then pm_ip_sock_alloc SK_TCP else
  if type =? SOCK_DGRAM then pm_ip_sock_alloc SK_UDP else ret (-1).

(** The highest free slot below [n]. *)
Fixpoint top_free (n : nat) (tbl : list Z) : option Z :=
  match n with
  | O => None
  | S i => if default 1 (tbl !! i) =? 0 then Some (Z.of_nat i) else top_free i tbl
  end.

Definition pm_ip_out_socket_locked (type : Z) : IpM Z :=
  let kind := if type =? SOCK_DGRAM then SK_UDP else SK_TCP in
  w <- gets id ;;
  match top_free (length (sk w)) (sk w) with
  | Some i => p <- sock_new i kind ;; if p =? 0 then ret (-1) else upd_snd p (set_snd_wnd 0) ;; ret i
  | None =>
      g <- grow_sk ;;
      if negb g then ret (-1) else
      cap <- gets (fun w => zlen (sk w)) ;;
      p <- sock_new (cap - 1) kind ;; if p =? 0 then ret (-1) else upd_snd p (set_snd_wnd 0) ;; ret (cap - 1)
  end.

(** Children of a closing listener are freed with it. *)
Definition close_child (fd p : Z) (i : nat) : IpM unit :=
  c <- pm_ip_sock_at (Z.of_nat i) ;;
  if (c =? 0) || (c =? p) then ret tt else
  k <- get_sock c ;;
  if is_kind (k_kind k) SK_TCP && (k_listen k =? fd) then pm_ip_sock_drop (Z.of_nat i) else ret tt.

Definition pm_ip_close_locked (fd : Z) : IpM Z :=
  p <- sock_get fd None ;;
  if p =? 0 then ret (-1) else
  s <- get_sock p ;;
  n <- gets (fun w => length (sk w)) ;;
  (if is_kind (k_kind s) SK_TCP && is_st (k_st s) TCP_LISTEN
   then foldr (fun i k => close_child fd p i ;; k) (ret tt) (seq 0 n) else ret tt) ;;
  if is_kind (k_kind s) SK_TCP && can_fin (k_st s) then
    rc <- pm_ip_tcp_close deliver p ;; ret (if rc <? 0 then -1 else 0)
  else pm_ip_sock_drop fd ;; ret 0.

Definition pm_ip_bind_locked (fd addr port : Z) : IpM Z :=
  p <- sock_get fd None ;;
  if p =? 0 then ret (-1) else
  h <- pm_ip_l2_h_for_addr addr ;;
  upd_sock p (fun s => set_k_l2 (if 0 <=? h then h else k_l2 s) (set_k_bound true (set_k_lport port (set_k_laddr addr s)))) ;; ret 0.

Definition pm_ip_bind_l2_locked (fd h : Z) : IpM Z :=
  p <- sock_get fd None ;;
  has <- pm_ip_l2_has h ;;
  if (p =? 0) || negb has then ret (-1) else upd_sock p (set_k_l2 h) ;; ret 0.

Definition pm_ip_listen_locked (fd backlog : Z) : IpM Z :=
  p <- sock_get fd (Some SK_TCP) ;;
  if p =? 0 then ret (-1) else
  s <- get_sock p ;;
  if negb (k_bound s) then ret (-1) else
  w <- gets id ;;
  let want := if 0 <? backlog then backlog else size_of Limit_backlog w in
  let ceiling := h_soft Limit_backlog (env w) in
  let want := if negb (ceiling =? 0) && (ceiling <? want) then ceiling else want in
  let want := if want =? 0 then 1 else want in
  ok <- hostly (h_alloc (want * 4)) ;;
  if negb ok then ret (-1) else
  upd_sock p (fun s => set_k_st TCP_LISTEN (set_k_an 0 (set_k_aq (replicate (Z.to_nat want) 0) s))) ;; ret 0.

Definition pm_ip_accept_locked (fd : Z) : IpM Z :=
  p <- sock_get fd (Some SK_TCP) ;;
  if p =? 0 then ret (-1) else
  s <- get_sock p ;;
  if negb (is_st (k_st s) TCP_LISTEN) then ret (-1) else
  sock_consume_park p ;;
  s <- get_sock p ;;
  if k_an s =? 0 then
    cur <- current_task ;;
    if negb (cur =? 0) then upd_sock p (set_k_waiter cur) ;; ret (-2) else ret (-1)
  else
    child <- chk (rd (k_aq s) 0) ;;
    rest <- chk (slice (k_aq s) 1 (k_an s - 1)) ;;
    aq <- chk (blit (k_aq s) 0 rest) ;;
    upd_sock p (fun s => set_k_an (k_an s - 1) (set_k_aq aq s)) ;; ret child.

Definition pm_ip_connect_locked (fd addr port : Z) : IpM Z :=
  p <- sock_get fd (Some SK_TCP) ;;
  if p =? 0 then ret (-1) else
  sock_consume_park p ;;
  s <- get_sock p ;;
  w <- gets id ;;
  (if negb (k_bound s) then
     lport <- eph_port ;; upd_sock p (fun k => set_k_bound true (set_k_lport lport (set_k_laddr (src_for w (Some s) addr) k)))
   else if (k_laddr s =? 0) || (k_laddr s =? BCAST) then upd_sock p (set_k_laddr (src_for w (Some s) addr))
   else ret tt) ;;
  upd_sock p (fun s => set_k_st TCP_SYN_SENT
    (set_k_snd (set_snd_una 2000 (set_snd_nxt 2000 (set_iss 2000 (k_snd s)))) (set_k_rport port (set_k_raddr addr s)))) ;;
  pm_ip_tcp_xmit deliver p TCP_SYN [] ;;
  s <- get_sock p ;;
  if is_st (k_st s) TCP_ESTAB then ret 1 else park p ;; ret 0.

Definition pm_metal_net_ip_established (fd : Z) : IpM Z :=
  p <- sock_get fd (Some SK_TCP) ;;
  if p =? 0 then ret (-1) else s <- get_sock p ;; ret (b2z (is_st (k_st s) TCP_ESTAB)).

(** The number of bytes one [send] call may take, and the wait it ends in
    otherwise. *)
Inductive send_plan := Refuse | Wait_window | Wait_resend | Take (len : Z).

Definition plan_send (w : stack E) (s : sock) (len : Z) : send_plan :=
  let q := k_snd s in
  if negb (is_st (k_st s) TCP_ESTAB) || k_error s then Refuse else
  let in_flight := u32 (snd_nxt q - snd_una q) in
  if snd_wnd q <=? in_flight then if peer_fin (k_rcv s) then Refuse else Wait_window else
  let room := snd_wnd q - in_flight in
  let len := if room <? len then room else len in
  let resend_room := u32 (rexmit_cap q - rexmit_len q) in
  if resend_room =? 0 then Wait_resend else
  let len := if resend_room <? len then resend_room else len in
  let payload_max := pm_ip_tcp_payload_max w s in
  if payload_max =? 0 then Refuse else
  Take (if payload_max <? len then payload_max else len).

Definition pm_ip_send_locked (fd : Z) (buf : list Z) : IpM Z :=
  p <- sock_get fd (Some SK_TCP) ;;
  if p =? 0 then ret (-1) else
  sock_consume_park p ;;
  s <- get_sock p ;;
  w <- gets id ;;
  match plan_send w s (zlen buf) with
  | Refuse => ret (-1)
  | Wait_window =>
      park p ;; now <- now_us ;; upd_snd p (set_wnd_stall_at (u64 (now + IP_WND_STALL_US))) ;; ret 0
  | Wait_resend => park p ;; ret 0
  | Take len =>
      if len =? 0 then ret 0 else
      data <- chk (slice buf 0 len) ;;
      tx <- pm_ip_tcp_xmit deliver p (Z.lor TCP_PSH TCP_ACK) data ;;
      if tx =? TX_WAIT then
        cur <- current_task ;; (if negb (cur =? 0) then post_task cur else ret tt) ;; ret 0
      else if negb (tx =? TX_OK) then ret (-1) else
      (if len <? zlen buf then park p else ret tt) ;; ret len
  end.

Definition pm_ip_recv_locked (fd len : Z) : IpM (Z * list Z) :=
  p <- sock_get fd (Some SK_TCP) ;;
  if p =? 0 then ret (-1, []) else
  sock_consume_park p ;;
  s <- get_sock p ;;
  let r := k_rcv s in
  if k_error s then ret (-1, []) else
  if rx_len r =? 0 then if peer_fin r then ret (-2, []) else park p ;; ret (0, []) else
  let n := if rx_len r <? len then rx_len r else len in
  out <- chk (slice (rx r) 0 n) ;;
  rest <- chk (slice (rx r) n (rx_len r - n)) ;;
  buf <- chk (blit (rx r) 0 rest) ;;
  put_sock p (set_k_rcv (Rcv (rcv_nxt r) buf (rx_len r - n) (rx_addr r) (rx_port r) (peer_fin r)) s) ;;
  (if negb (n =? 0) then pm_ip_tcp_xmit deliver p TCP_ACK [] ;; ret tt else ret tt) ;; ret (n, out).

Definition udp_packet (w : stack E) (s : sock) (buf : list Z) (addr port : Z) : option (list Z) :=
  let total := 28 + zlen buf in
  pm_ip_l4_stamp (ip_hdr total 17 (src_for w (Some s) addr) addr ++ be16 (k_lport s) ++ be16 port ++ be16 (u16 (8 + zlen buf)) ++ [0; 0] ++ buf) total.

Definition pm_ip_sendto_locked (fd : Z) (buf : list Z) (addr port : Z) : IpM Z :=
  p <- sock_get fd (Some SK_UDP) ;;
  if p =? 0 then ret (-1) else
  s <- get_sock p ;;
  if negb (k_bound s) || (rx_cap (k_rcv s) <? zlen buf) then ret (-1) else
  if IP_PKT_MAX <? 28 + zlen buf then ret (-1) else
  w <- gets id ;;
  pkt <- chk (udp_packet w s buf addr port) ;;
  pm_ip_output_via deliver (k_l2 s) pkt ;; ret (zlen buf).

(** The datagram, with its sender's address and port. *)
Definition pm_ip_recvfrom_locked (fd len : Z) : IpM (Z * list Z * Z * Z) :=
  p <- sock_get fd (Some SK_UDP) ;;
  if p =? 0 then ret (-1, [], 0, 0) else
  s <- get_sock p ;;
  let r := k_rcv s in
  if rx_len r =? 0 then park p ;; ret (0, [], 0, 0) else
  let n := if rx_len r <? len then rx_len r else len in
  out <- chk (slice (rx r) 0 n) ;;
  put_sock p (set_k_rcv (Rcv (rcv_nxt r) (rx r) 0 (rx_addr r) (rx_port r) (peer_fin r)) s) ;;
  ret (n, out, rx_addr r, rx_port r).

Definition pm_ip_join_group_locked (fd group : Z) : IpM Z :=
  if negb (is_mcast group) then ret (-1) else
  p <- sock_get fd (Some SK_UDP) ;;
  if p =? 0 then ret (-1) else
  s <- get_sock p ;;
  if list_has group (k_mcast s) then ret 0 else
  room <- (if zlen (k_mcast s) =? k_mcast_cap s then
             g <- hostly (h_grow Limit_group (k_mcast_cap s)) ;;
             match g with Some cap => upd_sock p (set_k_mcast_cap cap) ;; ret true | None => ret false end
           else ret true) ;;
  if negb room then ret (-1) else upd_sock p (fun s => set_k_mcast (k_mcast s ++ [group]) s) ;; ret 0.

(** The last membership takes the place of the one that goes. *)
Fixpoint swap_remove (x : Z) (l : list Z) : option (list Z) :=
  match l with
  | [] => None
  | y :: t => if x =? y then Some (match last t with Some z => z :: removelast t | None => [] end)
              else (cons y) <$> swap_remove x t
  end.
Definition pm_ip_leave_group_locked (fd group : Z) : IpM Z :=
  p <- sock_get fd (Some SK_UDP) ;;
  if p =? 0 then ret (-1) else
  s <- get_sock p ;;
  match swap_remove group (k_mcast s) with
  | Some l => upd_sock p (set_k_mcast l) ;; ret 0
  | None => ret (-1)
  end.

(** ** The pump *)

(** The receive loop of a polled driver, sixteen frames at most. *)
Fixpoint poll_frames (steps : nat) (h : Z) : IpM unit :=
  match steps with
  | O => ret tt
  | S n =>
      f <- hostly (h_poll_frame h) ;;
      match f with
      | None => ret tt
      | Some frame => pm_metal_net_ip_rx_from h frame ;; poll_frames n h
      end
  end.

Fixpoint poll_all (n : nat) (i : nat) : IpM unit :=
  match n with
  | O => ret tt
  | S n =>
      w <- gets id ;;
      match l2 w !! i with Some r => poll_frames 16 (l2_h r) ;; poll_all n (S i) | None => ret tt end
  end.

Definition pm_ip_pump_locked : IpM unit :=
  pm_ip_tcp_check_timeouts deliver fuel ;; pm_ip_arp_tick ;;
  n <- gets (fun w => length (l2 w)) ;; poll_all n 0.

(** ** Ping *)

Definition ping_packet (w : stack E) (addr id_ seq_ : Z) (payload : list Z) : list Z :=
  let icmp0 := [8; 0; 0; 0] ++ be16 id_ ++ be16 seq_ ++ payload in
  let cs := csum_fold (csum_add icmp0 0) in
  ip_hdr (28 + zlen payload) 1 (src_for w None addr) addr ++ [8; 0] ++ be16 cs ++ be16 id_ ++ be16 seq_ ++ payload.

Fixpoint ping_wait (spins : nat) (deadline : Z) : IpM unit :=
  match spins with
  | O => ret tt
  | S n =>
      pm_ip_pump_locked ;;
      got <- gets ping_len ;;
      now <- (if negb (got =? 0) then ret deadline else now_us) ;;
      if negb (got =? 0) || (deadline <=? now) then ret tt else ping_wait n deadline
  end.

Definition pm_metal_net_ip_ping4 (addr : Z) (payload : list Z) (room : Z) : IpM (Z * list Z) :=
  w <- gets id ;;
  if negb (lo_up w) then ret (-1, []) else
  if IP_PKT_MAX <? 28 + zlen payload then ret (-1, []) else
  let id_ := u16 (19781 + ping_seq w) in
  let seq_ := u16 (ping_seq w + 1) in
  modify (set_ping_id id_) ;; modify (set_ping_seq seq_) ;;
  let pkt := ping_packet w addr id_ seq_ payload in
  have <- (match ping_out w with
           | Some _ => ret true
           | None =>
               let cap := size_of Limit_receive w in
               ok <- hostly (h_alloc cap) ;;
               if negb ok then ret false else modify (set_ping_out (Some (replicate (Z.to_nat cap) 0))) ;; ret true
           end) ;;
  if negb have then ret (-1, []) else
  modify (set_ping_len 0) ;;
  pm_ip_output_via deliver (-1) pkt ;;
  got <- gets ping_len ;;
  (if got =? 0 then now <- now_us ;; ping_wait IP_PING_SPINS (u64 (now + IP_PING_WAIT_US)) else ret tt) ;;
  w <- gets id ;;
  if negb (ping_len w =? 0) then
    let n := if ping_len w <? room then ping_len w else room in
    out <- chk (slice (default [] (ping_out w)) 0 n) ;; ret (0, out)
  else ret (-2, []).
End ops.
End input.
End IpInput.
