(* ===== verification/IpRoutes.v ===== *)
(** * The route table: longest prefix match, and a finite map

    [rt_match] picks the longest prefix that covers the destination, and the
    table with its add, delete and delete-by-interface operations implements a
    finite map from (destination, mask) to (gateway, interface). *)
From S2P Require Import Prelude Ip IpLink.

Module IpRoutes.
Import Ip IpHost IpLink.

(** ** Longest prefix *)

(** [r] covers [dst]: a default route (mask 0) covers everything. *)
Definition covers (dst : Z) (r : route) : Prop := Z.land dst (rt_mask r) = Z.land (rt_dst r) (rt_mask r).
#[export] Instance covers_dec dst r : Decision (covers dst r).
Proof. unfold covers. apply _. Defined.

Definition live (tbl : list route) : list route := filter (fun r => rt_on r = true) tbl.

Lemma mask_bits_loop_ge f m n : n <= mask_bits_loop f m n.
Proof.
  revert m n. induction f as [|f IH]; intros m n; cbn [mask_bits_loop]; [lia|]. case_match; [|lia].
  etrans; [|apply IH]. assert (0 <= Z.land m 1) by (apply Z.land_nonneg; lia). lia.
Qed.
Lemma mask_bits_nonneg m : 0 <= mask_bits m.
Proof. apply mask_bits_loop_ge. Qed.

(** The number of one bits of a 32-bit mask. *)
Lemma mask_bits_loop_count f m n : 0 <= m ->
  mask_bits_loop f m n = n + foldr (fun i c => b2z (Z.testbit m (Z.of_nat i)) + c) 0 (seq 0 f).
Proof.
  revert m n. induction f as [|f IH]; intros m n Hm; [simpl; lia|].
  assert (Hsh : forall g a, foldr (fun i c => b2z (Z.testbit m (Z.of_nat i)) + c) 0 (seq (S a) g) =
                        foldr (fun i c => b2z (Z.testbit (Z.shiftr m 1) (Z.of_nat i)) + c) 0 (seq a g)).
  { induction g as [|g IHg]; intros a; cbn [seq foldr]; [done|]. rewrite IHg, Z.shiftr_spec by lia. do 3 f_equal. lia. }
  cbn [seq foldr mask_bits_loop]. rewrite Hsh. destruct (Z.eqb_spec m 0) as [->|Hne]; cbn [negb].
  - assert (Hz : forall g a, foldr (fun i c => b2z (Z.testbit (Z.shiftr 0 1) (Z.of_nat i)) + c) 0 (seq a g) = 0).
    { induction g as [|g IHg]; intros a; cbn [seq foldr]; [done|]. rewrite IHg, Z.shiftr_0_l, Z.bits_0. done. }
    rewrite Hz, Z.bits_0. cbn [b2z]. lia.
  - rewrite IH by (by apply Z.shiftr_nonneg). change (Z.land m 1) with (Z.land m (2 ^ 1 - 1)). rewrite land_ones_mod by lia.
    change (Z.of_nat 0) with 0. rewrite Z.bit0_odd, Zmod_odd. unfold b2z. change (2 ^ 1) with 2. destruct (Z.odd m); lia.
Qed.

Definition not_better (dst : Z) (tbl : list route) (r : route) : Prop :=
  forall r', r' ∈ live tbl -> covers dst r' -> mask_bits (rt_mask r') <= mask_bits (rt_mask r).

(** What the loop has established about the rows [seen] so far. *)
Record scanned (dst : Z) (seen : list route) (hit def : option route) (best : Z) : Prop := {
  sc_hit r : hit = Some r -> r ∈ live seen /\ covers dst r /\ rt_mask r <> 0 /\ best = mask_bits (rt_mask r);
  sc_def r : def = Some r -> r ∈ live seen /\ rt_mask r = 0;
  sc_best r : r ∈ live seen -> rt_mask r <> 0 -> covers dst r -> is_Some hit /\ mask_bits (rt_mask r) <= best;
  sc_none r : r ∈ live seen -> rt_mask r = 0 -> is_Some def }.

Lemma live_snoc seen r x : x ∈ live (seen ++ [r]) <-> x ∈ live seen \/ (x = r /\ rt_on r = true).
Proof.
  unfold live. rewrite filter_app, elem_of_app, !list_elem_of_filter, elem_of_cons.
  split; [|naive_solver]. intros [?|[? [->|[]%elem_of_nil]]]; naive_solver.
Qed.

Lemma rt_match_loop_scanned dst tbl seen hit def best :
  scanned dst seen hit def best ->
  match rt_match_loop dst tbl hit def best with
  | Some r => r ∈ live (seen ++ tbl) /\ covers dst r /\ not_better dst (seen ++ tbl) r
  | None => forall r', r' ∈ live (seen ++ tbl) -> ~ covers dst r'
  end.
Proof.
  revert seen hit def best. induction tbl as [|r t IH]; intros seen hit def best HS; cbn [rt_match_loop].
  - rewrite app_nil_r. destruct HS as [Hh Hd Hb Hn]. destruct hit as [r|]; [|destruct def as [r|]].
    + destruct (Hh r eq_refl) as (Hin & Hc & Hm & ->). split_and!; [done..|].
      intros r' Hin' Hc'. destruct (decide (rt_mask r' = 0)) as [E|E]; [|by apply Hb].
      rewrite E. change (mask_bits 0) with 0. apply mask_bits_nonneg.
    + destruct (Hd r eq_refl) as [Hin Hm]. split_and!; [done| |].
      * unfold covers. by rewrite Hm, !Z.land_0_r.
      * intros r' Hin' Hc'. destruct (decide (rt_mask r' = 0)) as [E|E]; [by rewrite E, Hm|].
        destruct (Hb r' Hin' E Hc') as [[? ?] _]. done.
    + intros r' Hin' Hc'. destruct (decide (rt_mask r' = 0)) as [E|E].
      * destruct (Hn r' Hin' E) as [? ?]. done.
      * destruct (Hb r' Hin' E Hc') as [[? ?] _]. done.
  - rewrite (cons_middle r), (assoc_L (++)). destruct HS as [Hh Hd Hb Hn].
    destruct (rt_on r) eqn:Hon; cbn [negb]; [destruct (Z.eqb_spec (rt_mask r) 0) as [E|E]; [|destruct (Z.eqb_spec (Z.land dst (rt_mask r)) (Z.land (rt_dst r) (rt_mask r))) as [Ec|Ec]; cbn [negb]]|].
    + apply IH. constructor.
      * intros x Hx. destruct (Hh x Hx) as (? & ? & ? & ?). rewrite live_snoc. naive_solver.
      * intros x [= <-]. rewrite live_snoc. naive_solver.
      * intros x Hx Hm Hc. apply live_snoc in Hx as [Hx|[-> _]]; [by apply Hb|done].
      * intros. by eexists.
    + destruct (negb (bool_decide (is_Some hit)) || (best <=? mask_bits (rt_mask r))) eqn:Et; apply IH; constructor.
      * intros x [= <-]. rewrite live_snoc. naive_solver.
      * intros x Hx. destruct (Hd x Hx). rewrite live_snoc. naive_solver.
      * intros x Hx Hm Hc. split; [by eexists|]. apply live_snoc in Hx as [Hx|[-> _]]; [|lia].
        destruct (Hb x Hx Hm Hc) as [Hs Hle]. apply orb_true_iff in Et as [Et|Et]; [|breflect; lia].
        rewrite bool_decide_eq_true_2 in Et by done. done.
      * intros x Hx Hm. apply live_snoc in Hx as [Hx|[-> _]]; [by eapply Hn|done].
      * intros x Hx. destruct (Hh x Hx) as (? & ? & ? & ?). rewrite live_snoc. naive_solver.
      * intros x Hx. destruct (Hd x Hx). rewrite live_snoc. naive_solver.
      * apply orb_false_iff in Et as [Et1 Et2]. apply negb_false_iff, bool_decide_eq_true in Et1. apply Z.leb_gt in Et2.
        intros x Hx Hm Hc. split; [done|]. apply live_snoc in Hx as [Hx|[-> _]]; [|lia]. by apply Hb.
      * intros x Hx Hm. apply live_snoc in Hx as [Hx|[-> _]]; [by eapply Hn|done].
    + apply IH. constructor.
      * intros x Hx. destruct (Hh x Hx) as (? & ? & ? & ?). rewrite live_snoc. naive_solver.
      * intros x Hx. destruct (Hd x Hx). rewrite live_snoc. naive_solver.
      * intros x Hx Hm Hc. apply live_snoc in Hx as [Hx|[-> _]]; [by apply Hb|done].
      * intros x Hx Hm. apply live_snoc in Hx as [Hx|[-> _]]; [by eapply Hn|done].
    + apply IH. constructor.
      * intros x Hx. destruct (Hh x Hx) as (? & ? & ? & ?). rewrite live_snoc. naive_solver.
      * intros x Hx. destruct (Hd x Hx). rewrite live_snoc. naive_solver.
      * intros x Hx Hm Hc. apply live_snoc in Hx as [Hx|[-> Hx]]; [by apply Hb|congruence].
      * intros x Hx Hm. apply live_snoc in Hx as [Hx|[-> Hx]]; [by eapply Hn|congruence].
Qed.

(** A route lookup answers with a row in use whose prefix covers the
    destination and than which no covering row has more mask bits (a default
    route, of mask 0, answers only when nothing longer does), and with nothing
    exactly when no row in use covers the destination. *)
Theorem rt_match_longest tbl dst :
  match rt_match tbl dst with
  | Some r => r ∈ tbl /\ rt_on r = true /\ covers dst r /\
      forall r', r' ∈ tbl -> rt_on r' = true -> covers dst r' -> mask_bits (rt_mask r') <= mask_bits (rt_mask r)
  | None => forall r', r' ∈ tbl -> rt_on r' = true -> ~ covers dst r'
  end.
Proof.
  pose proof (rt_match_loop_scanned dst tbl [] None None 0) as H. unfold rt_match. cbn [app] in H.
  assert (Hl : forall r, r ∈ live tbl <-> rt_on r = true /\ r ∈ tbl) by (intros; unfold live; by rewrite list_elem_of_filter).
  destruct (rt_match_loop dst tbl None None 0) as [r|].
  - destruct H as ([Hon Hin]%Hl & Hc & Hb); [by constructor; try done; intros ? []%elem_of_nil|].
    split_and!; [done..|]. intros r' Hin' Hon'. apply Hb, Hl. done.
  - intros r' Hin' Hon'. apply H; [by constructor; try done; intros ? []%elem_of_nil|]. by apply Hl.
Qed.

(** ** The table as a finite map *)

Definition key (r : route) : Z * Z := (rt_dst r, rt_mask r).
Definition entry (r : route) : (Z * Z) * (Z * Z) := (key r, (rt_gw r, rt_h r)).
Definition entries (tbl : list route) : list ((Z * Z) * (Z * Z)) := entry <$> live tbl.
Definition rt_abs (tbl : list route) : gmap (Z * Z) (Z * Z) := list_to_map (entries tbl).

(** One row per (destination, mask), and the counter counts the rows in use. *)
Definition rt_wf (tbl : list route) (used : Z) : Prop := NoDup (entries tbl).*1 /\ used = zlen (live tbl).

Lemma entries_app t1 t2 : entries (t1 ++ t2) = entries t1 ++ entries t2.
Proof. unfold entries, live. by rewrite filter_app, fmap_app. Qed.
Lemma entries_on r t : rt_on r = true -> entries (r :: t) = entry r :: entries t.
Proof. intros H. unfold entries, live. by rewrite filter_cons_True. Qed.
Lemma entries_off r t : rt_on r = false -> entries (r :: t) = entries t.
Proof. intros H. unfold entries, live. rewrite filter_cons_False; [done|]. by rewrite H. Qed.
Lemma live_length tbl : length (live tbl) = length (entries tbl).
Proof. unfold entries. by rewrite length_fmap. Qed.

Lemma key_fresh dst mask tbl : Forall (fun r => rt_is dst mask r = false) tbl -> (dst, mask) ∉ (entries tbl).*1.
Proof.
  intros HF (e & He & Hin)%list_elem_of_fmap. apply list_elem_of_fmap in Hin as (r & -> & Hin). unfold live in Hin.
  apply list_elem_of_filter in Hin as [Hon Hin]. rewrite Forall_forall in HF. specialize (HF r Hin).
  unfold rt_is in HF. rewrite Hon in HF. injection He as -> ->. rewrite !Z.eqb_refl in HF. done.
Qed.

Lemma upsert_scan_spec dst mask tbl i0 slot :
  match upsert_scan dst mask tbl i0 slot with
  | inl i => exists t1 r t2, tbl = t1 ++ r :: t2 /\ i = (i0 + length t1)%nat /\ rt_is dst mask r = true
  | inr (Some i) => Forall (fun r => rt_is dst mask r = false) tbl /\
      (slot = Some i \/ slot = None /\ exists t1 r t2, tbl = t1 ++ r :: t2 /\ i = (i0 + length t1)%nat /\ rt_on r = false)
  | inr None => Forall (fun r => rt_is dst mask r = false) tbl /\ Forall (fun r => rt_on r = true) tbl /\ slot = None
  end.
Proof.
  revert i0 slot. induction tbl as [|r t IH]; intros i0 slot; cbn [upsert_scan].
  - destruct slot; split_and!; try done. by left.
  - destruct (rt_is dst mask r) eqn:Er; [exists [], r, t; split_and!; [done|simpl; lia|done]|].
    specialize (IH (S i0) (match slot with None => if negb (rt_on r) then Some i0 else None | _ => slot end)).
    destruct (upsert_scan _ _ _ _ _) as [i|[i|]].
    + destruct IH as (t1 & r1 & t2 & -> & -> & H). exists (r :: t1), r1, t2. split_and!; [done|simpl; lia|done].
    + destruct IH as [HF HS]. split; [by constructor|]. destruct slot as [j|]; [destruct HS as [HS|[HS _]]; [by left|done]|right].
      split; [done|]. destruct (rt_on r) eqn:Hon; cbn [negb] in HS.
      * destruct HS as [HS|(_ & t1 & r1 & t2 & -> & -> & H)]; [done|]. exists (r :: t1), r1, t2. split_and!; [done|simpl; lia|done].
      * destruct HS as [[= <-]|[HS _]]; [|done]. exists [], r, t. split_and!; [done|simpl; lia|done].
    + destruct IH as (HF & HO & HS). destruct slot; [done|]. destruct (rt_on r) eqn:Hon; [|done]. split_and!; [by constructor..|done].
Qed.

Lemma list_to_map_mid {K A} `{Countable K} (l1 l2 : list (K * A)) k v :
  NoDup (l1 ++ (k, v) :: l2).*1 -> list_to_map (l1 ++ (k, v) :: l2) = <[k := v]> (list_to_map (l1 ++ l2) : gmap K A).
Proof.
  intros HN. rewrite <- list_to_map_cons. apply list_to_map_proper; [done|]. by rewrite Permutation_middle.
Qed.

(** A row [r'] put where an unused row, or the row of the same key, was. *)
Lemma put_row t1 r t2 dst mask gw h used :
  rt_wf (t1 ++ r :: t2) used -> (rt_on r = false -> (dst, mask) ∉ (entries (t1 ++ r :: t2)).*1) -> (rt_on r = true -> key r = (dst, mask)) ->
  let tbl' := t1 ++ Route true dst mask gw h :: t2 in
  rt_wf tbl' (if rt_on r then used else used + 1) /\ rt_abs tbl' = <[(dst, mask) := (gw, h)]> (rt_abs (t1 ++ r :: t2)).
Proof.
  intros [HN Hu] Hoff Hon tbl'. unfold rt_wf, rt_abs, tbl' in *. rewrite live_length in *.
  rewrite !entries_app in *. rewrite (entries_on (Route true dst mask gw h)) by done. unfold entry at 1 2 3, key. cbn [rt_dst rt_mask rt_gw rt_h].
  destruct (rt_on r) eqn:Er.
  - rewrite (entries_on r) in * by done. unfold entry in HN, Hu |- *. rewrite (Hon eq_refl) in *.
    assert (HN' : NoDup (entries t1 ++ (dst, mask, (gw, h)) :: entries t2).*1) by (by rewrite fmap_app, fmap_cons in *).
    split; [split; [done|]|].
    + rewrite length_app in *. done.
    + rewrite !list_to_map_mid by done. by rewrite insert_insert_eq.
  - rewrite (entries_off r) in * by done.
    assert (HN' : NoDup (entries t1 ++ (dst, mask, (gw, h)) :: entries t2).*1).
    { rewrite fmap_app, fmap_cons, <- Permutation_middle, <- fmap_app. apply NoDup_cons. split; [by apply Hoff|done]. }
    split; [split; [done|]|]; [rewrite !length_app in *; cbn [length]; lia|]. by rewrite list_to_map_mid.
Qed.

Lemma rt_is_key dst mask r : rt_is dst mask r = true -> rt_on r = true /\ key r = (dst, mask).
Proof. unfold rt_is, key. intros H. breflect. split; [done|]. by subst. Qed.

Lemma rt_del_loop_spec P tbl used k : (forall r, P r = true -> rt_on r = true) -> 0 <= k -> used = k + zlen (live tbl) ->
  let '(tbl', used') := rt_del_loop P tbl used in
  live tbl' = filter (fun r => P r = false) (live tbl) /\ used' = k + zlen (live tbl').
Proof.
  intros HP. revert used k. induction tbl as [|r t IH]; intros used k Hk Hu; cbn [rt_del_loop].
  { split; [done|exact Hu]. }
  unfold live in *. destruct (P r) eqn:EP.
  - pose proof (HP r EP) as Hon. rewrite filter_cons_True in * by done. cbn [length] in Hu.
    unfold rt_forget. rewrite (proj2 (Z.eqb_neq _ _)) by lia. cbn [negb].
    specialize (IH (used - 1) k Hk ltac:(lia)). destruct (rt_del_loop P t (used - 1)) as [t' u'].
    rewrite filter_cons_False by done. rewrite (filter_cons_False _ r) by (by rewrite EP). done.
  - destruct (rt_on r) eqn:Hon.
    + rewrite filter_cons_True in * by done. cbn [length] in Hu. specialize (IH used (k + 1) ltac:(lia) ltac:(lia)).
      destruct (rt_del_loop P t used) as [t' u']. destruct IH as [IH ->]. rewrite (filter_cons_True _ r t') by done. rewrite (filter_cons_True _ r) by done. rewrite IH. split; [done|]. cbn [length]. lia.
    + rewrite filter_cons_False in * by (by rewrite Hon). specialize (IH used k Hk Hu).
      destruct (rt_del_loop P t used) as [t' u']. by rewrite filter_cons_False by (by rewrite Hon).
Qed.

Lemma entries_lookup tbl k v : NoDup (entries tbl).*1 ->
  rt_abs tbl !! k = Some v <-> exists r, r ∈ live tbl /\ entry r = (k, v).
Proof.
  intros HN. unfold rt_abs. rewrite <- elem_of_list_to_map by done. unfold entries. rewrite list_elem_of_fmap. naive_solver.
Qed.

Lemma NoDup_fmap_filter {A B} (f : A -> B) (P : A -> bool) (l : list A) :
  NoDup (f <$> l) -> NoDup (f <$> filter (fun x => P x = false) l).
Proof.
  induction l as [|x l IH]; [done|]. rewrite fmap_cons, NoDup_cons. intros [Hx HN]. rewrite filter_cons. case_decide; [|by apply IH].
  rewrite fmap_cons, NoDup_cons. split; [|by apply IH]. intros (y & Ey & [_ Hy]%list_elem_of_filter)%list_elem_of_fmap.
  apply Hx, list_elem_of_fmap. by exists y.
Qed.

(** Forgetting the rows [P] picks, where [P] looks at the entry only. *)
Lemma rt_del_abs P (Q : (Z * Z) * (Z * Z) -> bool) tbl used :
  (forall r, P r = rt_on r && Q (entry r)) -> rt_wf tbl used ->
  let '(tbl', used') := rt_del_loop P tbl used in
  rt_wf tbl' used' /\ rt_abs tbl' = filter (fun kv => Q kv = false) (rt_abs tbl).
Proof.
  intros HP [HN Hu]. pose proof (rt_del_loop_spec P tbl used 0 ltac:(intros r; rewrite HP; by intros [? _]%andb_true_iff) ltac:(lia) ltac:(lia)) as H.
  destruct (rt_del_loop P tbl used) as [tbl' used']. destruct H as [Hl ->].
  assert (HN' : NoDup (entries tbl').*1).
  { unfold entries in *. rewrite Hl, <- list_fmap_compose in *. by apply NoDup_fmap_filter. }
  split; [by split|]. apply map_eq. intros k. apply option_eq. intros v.
  rewrite map_lookup_filter_Some, !entries_lookup by done. 
  assert (Hl' : forall r, r ∈ live tbl' <-> P r = false /\ r ∈ live tbl) by (intros r; by rewrite Hl, list_elem_of_filter).
  setoid_rewrite Hl'. setoid_rewrite HP.
  assert (Hon : forall r, r ∈ live tbl -> rt_on r = true) by (intros r [? _]%list_elem_of_filter; done).
  split.
  - intros (r & [HQ Hin] & He). rewrite (Hon r Hin), He in HQ. split; [by exists r|exact HQ].
  - intros [(r & Hin & He) HQ]. exists r. rewrite (Hon r Hin), He. done.
Qed.

Section ops.
Context {E : Type} `{!Host E, !HostLaws E}.
Implicit Types (w : stack E).

Definition routes_wf w : Prop := rt_wf (rt w) (rt_used w).

Lemma live_replicate n : live (replicate n no_route) = [].
Proof. induction n; [done|]. unfold live in *. simpl. by rewrite filter_cons_False. Qed.

Lemma alter_mid {A} (t1 : list A) r t2 f : alter f (length t1) (t1 ++ r :: t2) = t1 ++ f r :: t2.
Proof. induction t1 as [|x t1 IH]; [done|]. simpl. by rewrite <- IH. Qed.
Lemma insert_mid {A} (t1 : list A) r t2 x : <[length t1 := x]> (t1 ++ r :: t2) = t1 ++ x :: t2.
Proof. induction t1 as [|y t1 IH]; [done|]. simpl. by rewrite <- IH. Qed.

Lemma rt_upsert_wp dst mask gw h w :
  routes_wf w -> rt_used w + 1 < 4294967296 ->
  wp (pm_ip_rt_upsert dst mask gw h)
     (fun _ w' => routes_wf w' /\
        (rt_abs (rt w') = <[(dst, mask) := (gw, h)]> (rt_abs (rt w)) \/
         rt w' = rt w /\ rt_abs (rt w) !! (dst, mask) = None /\ Forall (fun r => rt_on r = true) (rt w))) w.
Proof.
  intros HW Hu. unfold pm_ip_rt_upsert. do 2 wstep. pose proof (upsert_scan_spec dst mask (rt w) 0 None) as HS.
  assert (Hul : 0 <= rt_used w) by (destruct HW as [_ ->]; lia). unfold id.
  destruct (upsert_scan dst mask (rt w) 0 None) as [i|[i|]].
  - destruct HS as (t1 & r & t2 & Et & -> & [Hon Hk]%rt_is_key). wstep. unfold routes_wf in *. cbn. rewrite Et in *.
    destruct (put_row t1 r t2 dst mask gw h (rt_used w) HW) as [W' A']; [congruence|done|]. rewrite Hon in W'.
    rewrite (alter_mid t1 r t2). cbn. injection Hk as Hd Hm. rewrite Hon, Hd, Hm. split; [done|by left].
  - destruct HS as [HF [[=]|(_ & t1 & r & t2 & Et & -> & Hoff)]]. repeat wstep. unfold routes_wf in *. cbn.
    apply key_fresh in HF. rewrite Et in *. rewrite insert_mid. cbn.
    destruct (put_row t1 r t2 dst mask gw h (rt_used w) HW) as [W' A']; [done|congruence|]. rewrite Hoff in W'.
    rewrite u32_small by lia. split; [done|by left].
  - destruct HS as (HF & HO & _). wstep. unfold wp, hostly. destruct (h_grow _ _ _) as [e [cap|]] eqn:Hg.
    + apply grow_more in Hg. repeat wstep. unfold routes_wf in *. cbn. apply key_fresh in HF.
      destruct (Z.to_nat (cap - zlen (rt w))) as [|n] eqn:En; [lia|]. cbn [replicate].
      destruct HW as [HN HU].
      assert (Ee : entries (rt w ++ no_route :: replicate n no_route) = entries (rt w)).
      { unfold entries, live. rewrite filter_app. change (no_route :: replicate n no_route) with (replicate (S n) no_route).
        fold (live (replicate (S n) no_route)). by rewrite live_replicate, app_nil_r. }
      assert (HW' : rt_wf (rt w ++ no_route :: replicate n no_route) (rt_used w)).
      { split; [by rewrite Ee|]. by rewrite live_length, Ee, <- live_length. }
      destruct (put_row (rt w) no_route (replicate n no_route) dst mask gw h (rt_used w) HW') as [W' A'].
      { intros _. by rewrite Ee. } { done. }
      rewrite insert_mid. change (rt_on no_route) with false in W'.
      rewrite u32_small by lia. split; [done|]. left. unfold rt_abs in *. etrans; [exact A'|]. by rewrite Ee.
    + cbn. split; [done|]. right. split_and!; [done| |done]. apply key_fresh in HF. by apply not_elem_of_list_to_map_1.
Qed.

(** C31: the route table implements a finite map from (destination, mask) to
    (gateway, interface): adding a route binds its key, growing the table when
    every row is taken, and does nothing only when the key is new, every row is
    taken and the table may not grow; deleting a route removes its key;
    dropping an interface removes exactly the keys bound to it.  All three
    keep one row per key and the usage counter exact. *)
Theorem rt_table_refines_map w dst mask gw h (HW : routes_wf w) (Hu : rt_used w + 1 < 4294967296) :
  wp (pm_ip_rt_upsert dst mask gw h)
     (fun _ w' => routes_wf w' /\
        (rt_abs (rt w') = <[(dst, mask) := (gw, h)]> (rt_abs (rt w)) \/
         rt w' = rt w /\ rt_abs (rt w) !! (dst, mask) = None /\ Forall (fun r => rt_on r = true) (rt w))) w /\
  wp (pm_ip_rt_del dst mask)
     (fun _ w' => routes_wf w' /\ rt_abs (rt w') = delete (dst, mask) (rt_abs (rt w))) w /\
  wp (pm_ip_rt_del_h h)
     (fun _ w' => routes_wf w' /\ rt_abs (rt w') = filter (fun kv => kv.2.2 <> h) (rt_abs (rt w))) w.
Proof.
  split; [by apply rt_upsert_wp|]. split.
  - pose proof (rt_del_abs (rt_is dst mask) (fun kv => (kv.1.1 =? dst) && (kv.1.2 =? mask)) (rt w) (rt_used w) ltac:(intros; apply andb_assoc_reverse || (unfold rt_is, entry, key; cbn; by rewrite andb_assoc)) HW) as H.
    unfold pm_ip_rt_del, rt_del_if. do 2 wstep. unfold id. destruct (rt_del_loop _ _ _) as [tbl' used']. repeat wstep. destruct H as [H1 H2].
    split; [exact H1|]. etrans; [exact H2|]. apply map_eq. intros [d m]. apply option_eq. intros v. rewrite map_lookup_filter_Some, lookup_delete_Some. cbn.
    destruct (Z.eqb_spec d dst), (Z.eqb_spec m mask); naive_solver.
  - pose proof (rt_del_abs (fun r => rt_on r && (rt_h r =? h)) (fun kv => kv.2.2 =? h) (rt w) (rt_used w) ltac:(done) HW) as H.
    unfold pm_ip_rt_del_h, rt_del_if. do 2 wstep. unfold id. destruct (rt_del_loop _ _ _) as [tbl' used']. repeat wstep. destruct H as [H1 H2].
    split; [exact H1|]. etrans; [exact H2|]. apply map_filter_ext. intros k [g h'] _. cbn. rewrite Z.eqb_neq. done.
Qed.
End ops.

Lemma rt_table_refines_map_witness :
  let w := set_rt [no_route; Route true 0 0 167772162 3] (set_rt_used 1 (IpHost.cold 64)) in
  wp (pm_ip_rt_upsert 167772160 4278190080 167772161 0)
     (fun _ w' => rt_abs (rt w') = {[ (167772160, 4278190080) := (167772161, 0); (0, 0) := (167772162, 3) ]}) w.
Proof.
  intros w. destruct (rt_table_refines_map w 167772160 4278190080 167772161 0) as [H _].
  - split; [apply NoDup_singleton|reflexivity].
  - reflexivity.
  - eapply wp_mono; [exact H|]. intros _ w' [_ [->|(_ & _ & Hall)]]; [reflexivity|].
    apply Forall_cons in Hall as [Hall _]. discriminate.
Defined.
End IpRoutes.
