(* ===== verification/IpLoop.v ===== *)
(** * The loopback path, run

    Loopback delivers synchronously: [pm_ip_output_via] re-enters [ip_input], so
    the far end's reply is handled before the call that sent the segment
    returns.  A handshake and a transfer over it, and the retransmission pass
    touching a socket that its own segment released. *)
From S2P Require Import Prelude Ip IpWire IpLink IpTcp IpInput.

Module IpLoop.
Import Ip IpHost IpWire IpLink IpTcp IpInput.
Local Open Scope metal_scope.

(** Loopback nesting in these runs is below twenty. *)
Definition LOOP_FUEL := 20%nat.

Definition start : IpM host unit := pm_metal_net_ip_init true ;; pm_metal_net_ip_lo_up ;; ret tt.

(** A listening socket, and a connection from a chosen local port. *)
Definition listen_on (port : Z) : IpM host Z :=
  l <- pm_ip_socket_locked SOCK_STREAM ;; pm_ip_bind_locked l 0 port ;; pm_ip_listen_locked l 4 ;; ret l.
Definition dial (lport port : Z) : IpM host Z :=
  c <- pm_ip_socket_locked SOCK_STREAM ;; pm_ip_bind_locked c IP_LO_BE lport ;; pm_ip_connect_locked LOOP_FUEL c IP_LO_BE port ;; ret c.

(** Connect, accept, send, receive. *)
Definition talk (data : list Z) : IpM host (Z * (Z * list Z)) :=
  start ;; l <- listen_on 80 ;; c <- dial 5000 80 ;; a <- pm_ip_accept_locked l ;;
  n <- pm_ip_send_locked LOOP_FUEL c data ;; r <- pm_ip_recv_locked LOOP_FUEL a 100 ;; ret (n, r).

Definition value {A} (o : outcome (stack host) A) : option A := match o with Done a _ => Some a | _ => None end.

Example talk_hello : value (talk [104; 101; 108; 108; 111] (cold 64)) = Some (5, (5, [104; 101; 108; 108; 111])).
Proof. vm_compute. reflexivity. Qed.

(** The listener closes while its child is connected: the child goes without a
    word, and the FIN of the client stays unanswered.  A second listener and a
    second client take the same ports. *)
Definition orphan_fin : IpM host unit :=
  start ;; l <- listen_on 80 ;; c <- dial 5000 80 ;; pm_ip_close_locked LOOP_FUEL l ;;
  pm_ip_close_locked LOOP_FUEL c ;; listen_on 80 ;; dial 5000 80 ;;
  sleep 60000 ;; pm_ip_pump_locked LOOP_FUEL ;; ret tt.

(** A client whose peer vanished can have its FIN resent into a new
    connection on the same ports; over loopback the answer releases the client's
    socket inside the emission, and [pm_ip_tcp_check_timeouts] then reads the
    released socket's retry counter. *)
Theorem loopback_retransmit_use_after_free :
  exists w, orphan_fin (cold 64) = Done tt w /\ (sleep 60000 ;; pm_ip_pump_locked LOOP_FUEL) w = Fault.
Proof. eexists. split; [vm_compute; reflexivity|vm_compute; reflexivity]. Qed.
End IpLoop.
