(* ===== verification/IpNet.v ===== *)
(** * What the IP stack puts on the wire

    A reasoning layer over [Ip] ... [IpInput]: the frames a host has been
    given ([Wire]), the invariant that every IP packet waiting for a neighbour
    or put on the wire satisfies a predicate ([netinv]), and the proof that the
    link layer keeps it and leaves the rest of the stack alone. *)
From S2P Require Import Prelude Ip IpWire IpLink IpTcp IpInput.

Module IpNet.
Import Ip IpWire IpLink IpTcp IpInput.

(** A frame that carries the IP packet [pkt], padded. *)
Definition carries (f pkt : list Z) : Prop :=
  exists mac pad, length mac = 12%nat /\ f = mac ++ be16 2048 ++ pkt ++ replicate pad 0.
Definition is_arp_frame (f : list Z) : Prop := exists mac body, length mac = 12%nat /\ f = mac ++ be16 2054 ++ body.

Section net.
Context {E : Type} `{!Host E, !HostLaws E, !Wire E, !WireLaws E}.
Local Open Scope metal_scope.
Local Abbreviation stack := (stack E).
Local Abbreviation IpM := (IpM E).
Implicit Types (w : stack).

Definition neigh_good (G : list Z -> Prop) (e : neigh) : Prop := length (a_mac e) = 6%nat /\ (a_pend e = [] \/ G (a_pend e)).
Definition frame_good (G : list Z -> Prop) (f : list Z) : Prop := is_arp_frame f \/ exists pkt, carries f pkt /\ G pkt.

Record netinv (G : list Z -> Prop) w : Prop := {
  ni_arp : Forall (neigh_good G) (arp w);
  ni_wire : Forall (fun hf => frame_good G hf.2) (frames (env w)) }.

(** Everything but the host and the neighbour table. *)
Record same_host w w' : Prop := {
  sh_arena : arena w' = arena w; sh_lo_up : lo_up w' = lo_up w; sh_lo : lo_addr w' = lo_addr w; sh_sk : sk w' = sk w;
  sh_used : sock_used w' = sock_used w; sh_socks : socks w' = socks w; sh_l2 : l2 w' = l2 w; sh_pend : pending_be w' = pending_be w;
  sh_rt : rt w' = rt w; sh_rx : rx_l2 w' = rx_l2 w }.

Lemma same_refl w : same_host w w.
Proof. by constructor. Qed.
Lemma same_trans w1 w2 w3 : same_host w1 w2 -> same_host w2 w3 -> same_host w1 w3.
Proof. intros [] []. constructor; congruence. Qed.

Lemma netinv_mono (G G' : list Z -> Prop) w : (forall p, G p -> G' p) -> netinv G w -> netinv G' w.
Proof.
  intros HG [Ha Hf]. constructor.
  - eapply Forall_impl; [exact Ha|]. intros e [He [Hp|Hp]]; split; auto.
  - eapply Forall_impl; [exact Hf|]. intros f [Hp|(p & Hc & Hp)]; [by left|right]. eauto.
Qed.

(** A step that touches nothing but the host, without sending. *)
Lemma netinv_env (G : list Z -> Prop) w e : frames e = frames (env w) -> netinv G w -> netinv G (set_env e w).
Proof. intros Hf [Ha Hw]. constructor; cbn; [done|]. by rewrite Hf. Qed.

Definition quietly {A} (m : IpM A) (G : list Z -> Prop) w : Prop :=
  wp m (fun _ w' => same_host w w' /\ netinv G w') w.

Lemma now_quiet (G : list Z -> Prop) w : netinv G w -> wp now_us (fun _ w' => same_host w w' /\ netinv G w' /\ arp w' = arp w) w.
Proof.
  intros Hw. unfold wp, now_us, hostly. destruct (h_mono (env w)) as [e a] eqn:He.
  split_and!; [by constructor| |done]. apply netinv_env; [|done]. by rewrite <- (mono_wire (env w)), He.
Qed.

(** ** Sending a frame *)

Lemma eth_tx_wp (G : list Z -> Prop) w h dmac et body :
  length dmac = 6%nat -> (et = 2054 \/ et = 2048) -> netinv G w ->
  wp (pm_ip_eth_tx h dmac et body)
     (fun tx w' => same_host w w' /\ arp w' = arp w /\ netinv (fun p => G p \/ (tx = TX_OK /\ et = 2048 /\ p = body)) w') w.
Proof.
  intros Hd Het Hw. unfold pm_ip_eth_tx. wstep; [wstep; split_and!; [apply same_refl|done|]; eapply netinv_mono; [|done]; by left|].
  repeat wstep. unfold wp, hostly. destruct (h_tx _ _ _) as [e r] eqn:Ht. split_and!; [by constructor|done|].
  destruct Hw as [Ha Hf]. destruct (mac_six h (env w)) as [Hm _].
  constructor; cbn.
  - eapply Forall_impl; [exact Ha|]. intros n [Hn [Hp|Hp]]; split; auto.
  - assert (Hold : Forall (fun hf : Z * list Z => frame_good (fun p => G p \/ r = TX_OK /\ et = 2048 /\ p = body) hf.2) (frames (env w))).
    { eapply Forall_impl; [exact Hf|]. intros f [Hp|(p & Hc & Hp)]; [by left|right]. eauto. }
    destruct (tx_wire _ _ _ _ _ Ht) as [->|[-> ->]]; [done|].
    apply Forall_app. split; [done|]. apply Forall_cons. split; [|done]. cbn.
    destruct Het as [-> | ->].
    + left. exists (dmac ++ h_mac h (env w)), (body ++ replicate (60 - length (dmac ++ h_mac h (env w) ++ be16 2054 ++ body)) 0).
      split; [by rewrite length_app, Hd, Hm|]. by rewrite <- !app_assoc.
    + right. exists body. split; [|by right].
      exists (dmac ++ h_mac h (env w)), (60 - length (dmac ++ h_mac h (env w) ++ be16 2048 ++ body))%nat.
      split; [by rewrite length_app, Hd, Hm|]. by rewrite <- !app_assoc.
Qed.

(** ** The neighbour table *)

Definition quiet (G : list Z -> Prop) w w' : Prop := same_host w w' /\ netinv G w'.

Lemma quiet_refl (G : list Z -> Prop) w : netinv G w -> quiet G w w.
Proof. split; [apply same_refl|done]. Qed.
Lemma quiet_trans (G : list Z -> Prop) w1 w2 w3 : quiet G w1 w2 -> quiet G w2 w3 -> quiet G w1 w3.
Proof. intros [H1 _] [H2 H3]. split; [by eapply same_trans|done]. Qed.

Lemma quiet_arp (G : list Z -> Prop) w (tbl : list neigh) : Forall (neigh_good G) tbl -> netinv G w -> quiet G w (set_arp tbl w).
Proof. intros Ht [Ha Hf]. split; [by constructor|]. by constructor. Qed.
Lemma quiet_arp_used (G : list Z -> Prop) w n : netinv G w -> quiet G w (set_arp_used n w).
Proof. intros [Ha Hf]. split; [by constructor|]. by constructor. Qed.

Lemma Forall_alter_mono {A} (P : A -> Prop) (f : A -> A) i l : Forall P l -> (forall x, P x -> P (f x)) -> Forall P (alter f i l).
Proof. intros Hl Hf. apply Forall_alter; [done|]. intros x Hx HP. by apply Hf. Qed.

Lemma upd_arp_wp (G : list Z -> Prop) w i f : netinv G w -> (forall e, neigh_good G e -> neigh_good G (f e)) ->
  wp (upd_arp i f) (fun _ w' => quiet G w w' /\ arp w' = alter f i (arp w) /\ env w' = env w) w.
Proof.
  intros Hw Hf. unfold upd_arp. wstep. split; [|done]. apply quiet_arp; [|done]. apply Forall_alter_mono; [apply Hw|done].
Qed.

Lemma good_fresh (G : list Z -> Prop) st h a at_ n : neigh_good G (Neigh st h a (replicate 6 0) at_ n []).
Proof. split; [done|by left]. Qed.

Lemma arp_claim_wp (G : list Z -> Prop) w i h a : netinv G w -> (i < length (arp w))%nat ->
  wp (arp_claim i h a) (fun r w' => quiet G w w' /\ r = Some i /\ (i < length (arp w'))%nat) w.
Proof.
  intros Hw Hi. unfold arp_claim. wstep. eapply wp_mono; [apply (upd_arp_wp G); [done|intros; apply good_fresh]|].
  intros _ w1 (Q1 & E1 & _). repeat wstep. split_and!; [|done|cbn; rewrite E1; by rewrite length_alter].
  eapply quiet_trans; [exact Q1|]. apply quiet_arp_used, Q1.
Qed.

Lemma grow_quiet (G : list Z -> Prop) k c w : netinv G w ->
  wp (hostly (h_grow k c)) (fun g w' => quiet G w w' /\ arp w' = arp w /\ forall cap, g = Some cap -> c < cap) w.
Proof.
  intros Hw. unfold wp, hostly. destruct (h_grow k c (env w)) as [e g] eqn:Eg. split_and!; [split; [by constructor|]|done|].
  - apply netinv_env; [|done]. by rewrite <- (grow_wire k c (env w)), Eg.
  - intros cap ->. by eapply grow_more.
Qed.

Lemma arp_find_from_lt h a tbl i j : arp_find_from h a tbl i = Some j -> (i <= j < i + length tbl)%nat.
Proof.
  revert i. induction tbl as [|e t IH]; intros i; cbn [arp_find_from length]; [done|]. case_match; [intros [= <-]; lia|].
  intros ?%IH. lia.
Qed.
Lemma arp_scan_lt tbl i old : match arp_scan tbl i old with
  | inl j => (i <= j < i + length tbl)%nat
  | inr (Some j) => (i <= j < i + length tbl)%nat \/ exists a, old = Some (j, a)
  | inr None => True end.
Proof.
  revert i old. induction tbl as [|e t IH]; intros i old; cbn [arp_scan length].
  - destruct old as [[j a]|]; cbn; eauto.
  - destruct (a_addr e =? 0); [lia|]. specialize (IH (S i) (match old with None => Some (i, a_at e) | Some (j, at_) => if a_at e <? at_ then Some (i, a_at e) else old end)).
    destruct (arp_scan _ _ _) as [j|[j|]]; [lia| |done]. destruct IH as [IH|[a Ha]]; [left; lia|].
    destruct old as [[j' a']|]; [|left; injection Ha as <- _; lia]. destruct (a_at e <? a'); [left; injection Ha as <- _; lia|eauto].
Qed.

Lemma arp_slot_wp (G : list Z -> Prop) w h a : netinv G w ->
  wp (arp_slot h a) (fun r w' => quiet G w w' /\ forall i, r = Some i -> (i < length (arp w'))%nat) w.
Proof.
  intros Hw. unfold arp_slot. repeat wstep. unfold id. destruct (arp_find (arp w) h a) as [i|] eqn:Ef.
  { wstep. split; [by apply quiet_refl|]. intros j [= <-]. unfold arp_find in Ef. case_match; [done|]. apply arp_find_from_lt in Ef. lia. }
  pose proof (arp_scan_lt (arp w) 0 None) as HS. destruct (arp_scan (arp w) 0 None) as [i|old].
  { eapply wp_mono; [apply (arp_claim_wp G); [done|lia]|]. intros r w' (HQ & -> & Hi). split; [done|]. by intros j [= <-]. }
  wstep. eapply wp_mono; [by apply (grow_quiet G)|]. intros g w1 (Q1 & E1 & Hc). destruct g as [cap|].
  - specialize (Hc cap eq_refl). wstep. wstep.
    assert (Q2 : quiet G w1 (set_arp (arp w ++ replicate (Z.to_nat (cap - zlen (arp w))) no_neigh) w1)).
    { apply quiet_arp; [|apply Q1]. apply Forall_app. split; [apply Hw|]. apply Forall_replicate. apply good_fresh. }
    eapply wp_mono; [apply (arp_claim_wp G); [apply Q2|cbn; rewrite length_app, length_replicate; lia]|].
    intros r w' (HQ & -> & Hi). split; [by eapply quiet_trans, quiet_trans|]. by intros j [= <-].
  - destruct old as [i|]; [|wstep; split; [done|intros ? [=]]]. destruct HS as [HS|[a' Ha]]; [|done]. wstep. unfold arp_unuse. wstep.
    assert (Q2 : quiet G w1 (if negb (arp_used w1 =? 0) then set_arp_used (arp_used w1 - 1) w1 else w1)).
    { case_match; [apply quiet_arp_used, Q1|apply quiet_refl, Q1]. }
    assert (E2 : arp (if negb (arp_used w1 =? 0) then set_arp_used (arp_used w1 - 1) w1 else w1) = arp w) by (by case_match).
    eapply wp_mono; [apply (arp_claim_wp G); [apply Q2|rewrite E2; lia]|].
    intros r w' (HQ & -> & Hi). split; [by eapply quiet_trans, quiet_trans|]. by intros j [= <-].
Qed.

Lemma arp_emit_wp (G : list Z -> Prop) w h op dmac tha tpa : length dmac = 6%nat -> netinv G w ->
  wp (arp_emit h op dmac tha tpa) (fun _ w' => quiet G w w' /\ arp w' = arp w) w.
Proof.
  intros Hd Hw. unfold arp_emit, pm_ip_l2_addr_of. do 2 wstep. wstep.
  assert (Hk : forall spa, wp (mac <- gets (fun w => h_mac h (env w)) ;;
    (let body := be16 1 ++ be16 2048 ++ [6; 4] ++ be16 op ++ mac ++ be32 spa ++ default (replicate 6 0) tha ++ be32 tpa in
     pm_ip_eth_tx h dmac 2054 body ;; ret tt)) (fun _ w' => quiet G w w' /\ arp w' = arp w) w).
  { intros spa. repeat wstep. eapply wp_mono; [apply (eth_tx_wp G); [done|by left|done]|]. intros tx w' (HS & Ha & HN). wstep.
    split; [|done]. split; [done|]. eapply netinv_mono; [|exact HN]. intros p [?|(_ & ? & _)]; [done|lia]. }
  destruct (addr_of (l2 w) h =? 0); wstep; apply Hk.
Qed.

Lemma neigh_good_at (G : list Z -> Prop) w i e : netinv G w -> arp w !! i = Some e -> neigh_good G e.
Proof. intros [Ha _] He. by eapply Forall_lookup_1. Qed.

(** Looking a neighbour up: the address found has six bytes. *)
Lemma arp_lookup_wp (G : list Z -> Prop) w h a : netinv G w ->
  wp (pm_ip_arp_lookup h a) (fun m w' => quiet G w w' /\ forall mac, m = Some mac -> length mac = 6%nat) w.
Proof.
  intros Hw. unfold pm_ip_arp_lookup. repeat wstep. unfold id.
  destruct (arp_find (arp w) h a) as [i|]; cbn; [|split; [by apply quiet_refl|done]].
  destruct (arp w !! i) as [e|] eqn:Ee; cbn; [|split; [by apply quiet_refl|done]].
  pose proof (neigh_good_at _ _ _ _ Hw Ee) as [Hm Hp]. wstep; [wstep; split; [by apply quiet_refl|done]|].
  wstep. eapply wp_mono; [by apply (now_quiet G)|]. intros now w1 (HS & HN & Ha). wstep.
  - wstep. eapply wp_mono; [apply (upd_arp_wp G); [done|intros e' [? ?]; by split]|]. intros _ w2 (Q2 & _). wstep.
    split; [|done]. eapply quiet_trans; [split; done|done].
  - wstep. split; [by split|]. by intros mac [= <-].
Qed.

Lemma arp_queue_wp (G : list Z -> Prop) w h a pkt : netinv G w ->
  wp (pm_ip_arp_queue h a pkt) (fun _ w' => quiet (fun p => G p \/ p = pkt) w w') w.
Proof.
  intros Hw. set (G' := fun p => G p \/ p = pkt). assert (Hw' : netinv G' w) by (eapply netinv_mono; [|exact Hw]; by left).
  unfold pm_ip_arp_queue. wstep; [wstep; by apply quiet_refl|]. wstep. eapply wp_mono; [by apply (arp_slot_wp G')|].
  intros [i|] w1 [Q1 _]; [|by wstep].
  eapply wp_mono; [apply (upd_arp_wp G'); [apply Q1|intros e [? ?]; split; [done|right; by right]]|].
  intros _ w2 (Q2 & _). by eapply quiet_trans.
Qed.

Lemma arp_ask_wp (G : list Z -> Prop) w h a : netinv G w -> wp (pm_ip_arp_ask h a) (fun _ w' => quiet G w w') w.
Proof.
  intros Hw. unfold pm_ip_arp_ask. wstep; [wstep; by apply quiet_refl|]. wstep. eapply wp_mono; [by apply (arp_slot_wp G)|].
  intros [i|] w1 [Q1 Hi]; [|by wstep]. do 2 wstep. unfold id. wstep. destruct (lookup_lt_is_Some_2 (arp w1) i) as [e He]; [by apply Hi|].
  eapply wp_chk; [exact He|]. wstep; [by wstep|]. wstep. eapply wp_mono; [apply (now_quiet G), Q1|]. intros now w2 (HS & HN & Ha). wstep.
  eapply wp_mono; [apply (upd_arp_wp G); [done|intros e' [? ?]; by split]|]. intros _ w3 (Q3 & _).
  eapply wp_mono; [apply (arp_emit_wp G); [done|apply Q3]|]. intros _ w4 [Q4 _].
  eapply quiet_trans; [exact Q1|]. eapply quiet_trans; [split; done|]. by eapply quiet_trans.
Qed.

Lemma arp_learn_wp (G : list Z -> Prop) w h a mac : length mac = 6%nat -> netinv G w ->
  wp (pm_ip_arp_learn h a mac) (fun _ w' => quiet G w w') w.
Proof.
  intros Hm Hw. unfold pm_ip_arp_learn. wstep; [wstep; by apply quiet_refl|]. wstep. eapply wp_mono; [by apply (arp_slot_wp G)|].
  intros [i|] w1 [Q1 Hi]; [|by wstep]. wstep. eapply wp_mono; [apply (now_quiet G), Q1|]. intros now w2 (HS & HN & Ha).
  assert (Q2 : quiet G w w2) by (eapply quiet_trans; [exact Q1|by split]).
  do 2 wstep. unfold id. wstep. destruct (lookup_lt_is_Some_2 (arp w2) i) as [e He]; [rewrite Ha; by apply Hi|].
  eapply wp_chk; [exact He|]. pose proof (neigh_good_at _ _ _ _ HN He) as [_ Hp]. wstep.
  eapply wp_mono; [apply (upd_arp_wp G); [done|intros e' [? ?]; split; [done|by left]]|]. intros _ w3 (Q3 & _).
  wstep; [|wstep; by eapply quiet_trans]. wstep. eapply wp_mono; [apply (eth_tx_wp G); [done|by right|apply Q3]|]. intros tx w4 (HS4 & _ & HN4). wstep.
  eapply quiet_trans; [exact Q2|]. eapply quiet_trans; [exact Q3|]. split; [done|]. eapply netinv_mono; [|exact HN4].
  intros p [?|(_ & _ & ->)]; [done|]. destruct Hp as [Hp|Hp]; [|done]. by rewrite Hp in *.
Qed.

Lemma arp_tick_wp (G : list Z -> Prop) w : netinv G w -> wp pm_ip_arp_tick (fun _ w' => quiet G w w') w.
Proof.
  intros Hw. unfold pm_ip_arp_tick. wstep. eapply wp_mono; [by apply (now_quiet G)|]. intros now w1 (HS & HN & Ha). do 2 wstep.
  set (n := length (arp w1)).
  eapply wp_mono; [apply (wp_foldr _ (fun w' => quiet G w w' /\ length (arp w') = n))|by intros ? w' [? _]].
  { split; [by split|done]. }
  intros i w2 Hi%elem_of_seq [Q2 L2]. unfold arp_tick_row. do 2 wstep. unfold id. wstep.
  destruct (lookup_lt_is_Some_2 (arp w2) i) as [e He]; [lia|]. eapply wp_chk; [exact He|].
  pose proof (neigh_good_at _ _ _ _ (proj2 Q2) He) as Hg.
  wstep; [by wstep|]. wstep; [|wstep].
  - eapply wp_mono; [apply (upd_arp_wp G); [apply Q2|intros e' [? ?]; by split]|]. intros _ w3 (Q3 & E3 & _).
    split; [by eapply quiet_trans|by rewrite E3, length_alter].
  - wstep. eapply wp_mono; [apply (upd_arp_wp G); [apply Q2|intros; apply good_fresh]|]. intros _ w3 (Q3 & E3 & _). unfold arp_unuse. wstep.
    assert (L3 : length (arp w3) = n) by (by rewrite E3, length_alter).
    case_match; split; try done; [|by eapply quiet_trans]. eapply quiet_trans; [exact Q2|]. eapply quiet_trans; [exact Q3|]. apply quiet_arp_used, Q3.
  - wstep. eapply wp_mono; [apply (upd_arp_wp G); [apply Q2|intros e' [? ?]; by split]|]. intros _ w3 (Q3 & E3 & _).
    eapply wp_mono; [apply (arp_emit_wp G); [done|apply Q3]|]. intros _ w4 [Q4 E4].
    split; [|by rewrite E4, E3, length_alter]. eapply quiet_trans; [exact Q2|]. by eapply quiet_trans.
Qed.

Lemma arp_input_wp (G : list Z -> Prop) w h f : netinv G w -> wp (pm_ip_arp_input h f) (fun _ w' => quiet G w w') w.
Proof.
  intros Hw. unfold pm_ip_arp_input. wstep; [wstep; by apply quiet_refl|].
  assert (Hl : 42 <= zlen f) by (breflect; lia).
  assert (R16 : forall i, 0 <= i < 40 -> exists v, pm_ip_read_be16 f i = Some v).
  { intros i Hi. destruct (rd_is_Some f i) as [a Ea]; [lia|]. destruct (rd_is_Some f (i + 1)) as [b Eb]; [lia|].
    unfold pm_ip_read_be16. rewrite Ea, Eb. by eexists. }
  assert (R32 : forall i, 0 <= i < 39 -> exists v, pm_ip_read_be32 f i = Some v).
  { intros i Hi. destruct (rd_is_Some f i) as [a Ea]; [lia|]. destruct (rd_is_Some f (i + 1)) as [b Eb]; [lia|].
    destruct (rd_is_Some f (i + 2)) as [c Ec]; [lia|]. destruct (rd_is_Some f (i + 3)) as [d Ed]; [lia|].
    unfold pm_ip_read_be32. rewrite Ea, Eb, Ec, Ed. by eexists. }
  destruct (R16 14) as [? E1]; [lia|]. wstep. eapply wp_chk; [exact E1|]. destruct (R16 16) as [? E2]; [lia|]. wstep. eapply wp_chk; [exact E2|].
  wstep; [wstep; by apply quiet_refl|].
  destruct (rd_is_Some f 18) as [? E3]; [lia|]. wstep. eapply wp_chk; [exact E3|]. destruct (rd_is_Some f 19) as [? E4]; [lia|]. wstep. eapply wp_chk; [exact E4|].
  wstep; [wstep; by apply quiet_refl|].
  destruct (R16 20) as [? E5]; [lia|]. wstep. eapply wp_chk; [exact E5|]. destruct (R32 28) as [? E6]; [lia|]. wstep. eapply wp_chk; [exact E6|].
  destruct (slice f 22 6) as [sha|] eqn:E7; [|by rewrite slice_is_Some in E7 by lia]. pose proof (slice_length _ _ _ _ E7) as L7.
  wstep. eapply wp_chk; [done|]. wstep. eapply wp_mono; [apply (arp_learn_wp G); [lia|done]|]. intros ? w1 Q1.
  wstep; [by wstep|]. destruct (R32 38) as [? E8]; [lia|]. wstep. eapply wp_chk; [exact E8|]. unfold pm_ip_l2_addr_of, pm_ip_l2_addr_ours. do 4 wstep.
  wstep; [by wstep|]. destruct (slice f 6 6) as [src|] eqn:E9; [|by rewrite slice_is_Some in E9 by lia]. pose proof (slice_length _ _ _ _ E9).
  wstep. eapply wp_chk; [done|]. eapply wp_mono; [apply (arp_emit_wp G); [lia|apply Q1]|]. intros _ w2 [Q2 _]. eapply quiet_trans; [exact Q1|exact Q2].
Qed.

(** ** Datagrams out *)

Definition sent_or (G : list Z -> Prop) (tx : Z) (pkt p : list Z) : Prop := G p \/ (tx = TX_OK /\ p = pkt).

Lemma output_via_wp deliver (G : list Z -> Prop) w h pkt src dst :
  netinv G w -> 20 <= zlen pkt <= IP_PKT_MAX -> pm_ip_read_be32 pkt 16 = Some dst -> pm_ip_read_be32 pkt 12 = Some src ->
  is_lo w dst = false -> is_mcast dst = false ->
  wp (pm_ip_output_via deliver h pkt) (fun tx w' => quiet (sent_or G tx pkt) w w') w.
Proof.
  intros Hw Hl Hd Hs Hlo Hm. unfold pm_ip_output_via. wstep; [exfalso; breflect; lia|]. wstep. eapply wp_chk; [exact Hd|]. do 2 wstep. unfold id.
  rewrite Hlo, Hm, andb_false_r. wstep. eapply wp_chk; [exact Hs|].
  assert (HG : forall tx w', netinv (fun p => G p \/ tx = TX_OK /\ 2048 = 2048 /\ p = pkt) w' -> netinv (sent_or G tx pkt) w').
  { intros tx w'. apply netinv_mono. unfold sent_or. tauto. }
  assert (Htx : forall w' dmac h', quiet G w w' -> length dmac = 6%nat -> wp (pm_ip_eth_tx h' dmac 2048 pkt) (fun tx w2 => quiet (sent_or G tx pkt) w w2) w').
  { intros w' dmac h' [Q1 Q2] Hdm. eapply wp_mono; [apply (eth_tx_wp G); [done|by right|done]|]. intros tx w2 (HS & _ & HN).
    split; [by eapply same_trans|by apply HG]. }
  pose proof (quiet_refl _ _ Hw) as Qr.
  destruct (route_out w h src dst) as [[h' hop]|]; [|wstep; eapply quiet_trans; [split; [apply same_refl|]; eapply netinv_mono; [|exact Hw]; intros; by left|apply quiet_refl; eapply netinv_mono; [|exact Hw]; intros; by left]].
  wstep; [by apply Htx|]. wstep; [apply Htx; [done|apply mac_six]|]. wstep.
  eapply wp_mono; [by apply (arp_lookup_wp G)|]. intros [mac|] w1 [Q1 Hmac]; [by apply Htx, Hmac|].
  wstep. eapply wp_mono; [apply (arp_queue_wp G), Q1|]. intros ? w2 Q2.
  wstep. eapply wp_mono; [apply (arp_ask_wp (fun p => G p \/ p = pkt)), Q2|]. intros ? w3 Q3. wstep.
  split; [eapply same_trans; [apply Q1|]; eapply same_trans; [apply Q2|apply Q3]|]. eapply netinv_mono; [|apply Q3]. unfold sent_or. naive_solver.
Qed.
End net.
End IpNet.
