(* ===== verification/TcpSeg.v ===== *)
(** * TCP segments as packets

    The bytes of a segment inside an IPv4 datagram, that [tcp_packet] builds
    exactly these, and that [ip_input] and [pm_ip_tcp_input] read them back,
    link padding included. *)
From S2P Require Import Prelude Ip IpWire IpLink IpTcp IpInput.

Module TcpSeg.
Import Ip IpWire IpLink IpTcp IpInput.

Record seg := Seg { g_seq : Z; g_ack : Z; g_flags : Z; g_wnd : Z; g_data : list Z }.

Record seg_range (g : seg) : Prop := {
  sg_seq : 0 <= g_seq g < 4294967296; sg_ack : 0 <= g_ack g < 4294967296; sg_flags : 0 <= g_flags g < 256;
  sg_wnd : 0 <= g_wnd g < 65536; sg_len : 40 + zlen (g_data g) <= IP_PKT_MAX; sg_bytes : bytes_ok (g_data g) }.

(** The two ends of a segment. *)
Record ends := Ends { e_src : Z; e_dst : Z; e_sport : Z; e_dport : Z }.
Definition swap_ends (e : ends) : ends := Ends (e_dst e) (e_src e) (e_dport e) (e_sport e).
Record ends_range (e : ends) : Prop := {
  en_src : 0 <= e_src e < 4294967296; en_dst : 0 <= e_dst e < 4294967296;
  en_sport : 0 <= e_sport e < 65536; en_dport : 0 <= e_dport e < 65536 }.

Definition ip_bytes (e : ends) (total : Z) (c : list Z) : list Z :=
  [69; 0] ++ be16 total ++ [0; 0; 0; 0; 64; 6] ++ c ++ be32 (e_src e) ++ be32 (e_dst e).
Definition tcp_bytes (e : ends) (g : seg) (c : list Z) : list Z :=
  be16 (e_sport e) ++ be16 (e_dport e) ++ be32 (g_seq g) ++ be32 (g_ack g) ++ [80; g_flags g] ++ be16 (g_wnd g) ++ c ++ [0; 0] ++ g_data g.

(** [pkt] is segment [g] between [e], whatever its two checksums hold. *)
Definition is_packet (e : ends) (g : seg) (pkt : list Z) : Prop :=
  exists ci ct, pkt = ip_bytes e (40 + zlen (g_data g)) (be16 ci) ++ tcp_bytes e g (be16 ct).

(** ** Fields read back *)

Lemma be16_read v : 0 <= v < 65536 -> u16 (Z.lor (Z.shiftl (u8 (Z.shiftr v 8)) 8) (u8 v)) = v.
Proof. intros. rewrite be_word, be16_val by auto with metal. by apply u16_small. Qed.

Lemma read16_at p i v : rd p i = Some (u8 (Z.shiftr v 8)) -> rd p (i + 1) = Some (u8 v) -> 0 <= v < 65536 ->
  pm_ip_read_be16 p i = Some v.
Proof. intros E1 E2 Hv. unfold pm_ip_read_be16. by rewrite E1, some_bind, E2, some_bind, be16_read. Qed.

Lemma read32_at p i v : rd p i = Some (u8 (Z.shiftr v 24)) -> rd p (i + 1) = Some (u8 (Z.shiftr v 16)) ->
  rd p (i + 2) = Some (u8 (Z.shiftr v 8)) -> rd p (i + 3) = Some (u8 v) -> 0 <= v < 4294967296 -> pm_ip_read_be32 p i = Some v.
Proof. intros E1 E2 E3 E4 Hv. unfold pm_ip_read_be32. by rewrite E1, some_bind, E2, some_bind, E3, some_bind, E4, some_bind, be32_read. Qed.

Lemma ip_bytes_length e total c : length c = 2%nat -> length (ip_bytes e total c) = 20%nat.
Proof. intros H. unfold ip_bytes. by rewrite !length_app, H. Qed.
Lemma tcp_bytes_length e g c : length c = 2%nat -> length (tcp_bytes e g c) = (20 + length (g_data g))%nat.
Proof. intros H. unfold tcp_bytes. rewrite !length_app, H. cbn. lia. Qed.

(** ** Building *)

Section build.
Context {E : Type} `{!Host E}.

Definition wnd_of (r : rcv) : Z := let wnd := u32 (rx_cap r - rx_len r) in if 65535 <? wnd then 65535 else u16 wnd.

Definition ends_of (w : stack E) (s : sock) : ends := Ends (src_for w (Some s) (remote w s)) (remote w s) (k_lport s) (k_rport s).

Lemma tcp_packet_is w s flags seq data :
  40 + zlen data <= IP_PKT_MAX ->
  exists pkt, tcp_packet w s flags seq data = Some pkt /\
    is_packet (ends_of w s) (Seg seq (rcv_nxt (k_rcv s)) flags (wnd_of (k_rcv s)) data) pkt.
Proof.
  intros Hl. assert (HP : IP_PKT_MAX = 8232) by done. unfold tcp_packet, ip_hdr. set (ci := csum_fold _).
  set (e := ends_of w s). set (g := Seg seq (rcv_nxt (k_rcv s)) flags (wnd_of (k_rcv s)) data).
  set (I := ip_bytes e (40 + zlen data) (be16 ci)).
  set (T := be16 (k_lport s) ++ be16 (k_rport s) ++ be32 seq ++ be32 (rcv_nxt (k_rcv s)) ++ [80; flags] ++ be16 (wnd_of (k_rcv s))).
  replace (_ ++ tcp_hdr s flags seq ++ data) with ((I ++ T) ++ [0; 0] ++ [0; 0] ++ data).
  2: { unfold I, T, tcp_hdr, ip_bytes, wnd_of, e, ends_of. cbn [e_src e_dst]. rewrite (u16_small (40 + zlen data)) by lia. by rewrite <- !app_assoc. }
  assert (LI : zlen I = 20) by (unfold I; by rewrite ip_bytes_length).
  assert (LT : zlen T = 16) by (unfold T; rewrite !length_app; done).
  assert (LIT : zlen (I ++ T) = 36) by (rewrite length_app; lia).
  unfold pm_ip_l4_stamp. change (rd ((I ++ T) ++ [0; 0] ++ [0; 0] ++ data) 0) with (Some 69). change (rd ((I ++ T) ++ [0; 0] ++ [0; 0] ++ data) 9) with (Some 6).
  rewrite !some_bind. change (csum_at 6 (ihl_of 69)) with (Some 36). cbv beta iota. rewrite (proj2 (Z.ltb_ge _ _)) by lia.
  assert (W1 : wr ((I ++ T) ++ [0; 0] ++ [0; 0] ++ data) 36 0 = Some ((I ++ T) ++ [0; 0] ++ [0; 0] ++ data)).
  { rewrite <- LIT. replace (zlen (I ++ T)) with (zlen (I ++ T) + zlen (@nil Z)) by (cbn; lia).
    by rewrite (wr_mid (I ++ T) [] ([0] ++ [0; 0] ++ data) 0 0). }
  assert (W2 : wr ((I ++ T) ++ [0; 0] ++ [0; 0] ++ data) (36 + 1) 0 = Some ((I ++ T) ++ [0; 0] ++ [0; 0] ++ data)).
  { replace (36 + 1) with (zlen (I ++ T) + zlen [0]) by (cbn [length]; lia). by rewrite (wr_mid (I ++ T) [0] ([0; 0] ++ data) 0 0). }
  rewrite W1. rewrite some_bind, W2, some_bind.
  assert (Hcs : exists cs, pm_ip_l4_csum ((I ++ T) ++ [0; 0] ++ [0; 0] ++ data) (40 + zlen data) = Some cs).
  { unfold pm_ip_l4_csum. change (rd ((I ++ T) ++ [0; 0] ++ [0; 0] ++ data) 0) with (Some 69). rewrite !some_bind.
    change (ihl_of 69) with 20. rewrite (proj2 (Z.ltb_ge _ _)) by lia.
    assert (LL : zlen ((I ++ T) ++ [0; 0] ++ [0; 0] ++ data) = 40 + zlen data) by (rewrite !length_app in *; cbn [length]; lia).
    rewrite (slice_is_Some _ 12 8), (slice_is_Some _ 20) by lia. rewrite !some_bind. change (rd ((I ++ T) ++ [0; 0] ++ [0; 0] ++ data) 9) with (Some 6). rewrite !some_bind. by eexists. }
  destruct Hcs as [cs ->]. rewrite !some_bind.
  set (ct := if (cs =? 0) && (6 =? 17) then 65535 else cs). unfold pm_ip_write_be16. rewrite <- LIT, blit_mid by done.
  eexists. split; [done|]. exists ci, ct. unfold g. cbn [g_data]. fold I. unfold tcp_bytes, T. cbn [e_sport e_dport g_seq g_ack g_flags g_wnd g_data].
  by rewrite <- !app_assoc.
Qed.
End build.

(** ** Reading *)

Section read.
Context {E : Type} `{!Host E}.
Local Open Scope metal_scope.
Variable deliver : list Z -> IpM E unit.
Implicit Types (w : stack E).

(** What [pm_ip_tcp_input] does with a segment it has read. *)
Definition tcp_segment (e : ends) (g : seg) : IpM E unit :=
  p <- tcp_find (e_src e) (e_sport e) (e_dst e) (e_dport e) ;;
  if p =? 0 then ret tt else
  s <- get_sock p ;;
  if has_flag (g_flags g) TCP_RST && negb (is_st (k_st s) TCP_LISTEN) then tcp_reset p else
  done_ <- tcp_ack deliver p (g_flags g) (g_ack g) ;;
  if done_ : bool then ret tt else
  tcp_window p (g_flags g) (g_wnd g) ;;
  tcp_by_state deliver p (e_src e) (e_sport e) (g_seq g) (g_flags g) (g_data g).

Lemma tcp_input_reads e g ct : ends_range e -> seg_range g ->
  pm_ip_tcp_input deliver (e_src e) (e_dst e) (tcp_bytes e g (be16 ct)) = tcp_segment e g.
Proof.
  intros [] []. unfold pm_ip_tcp_input. rewrite tcp_bytes_length by done. rewrite (proj2 (Z.ltb_ge _ _)) by lia.
  set (T := tcp_bytes e g (be16 ct)).
  assert (R0 : pm_ip_read_be16 T 0 = Some (e_sport e)) by (by apply read16_at).
  assert (R2 : pm_ip_read_be16 T 2 = Some (e_dport e)) by (by apply read16_at).
  assert (R4 : pm_ip_read_be32 T 4 = Some (g_seq g)) by (by apply read32_at).
  assert (R8 : pm_ip_read_be32 T 8 = Some (g_ack g)) by (by apply read32_at).
  assert (R14 : pm_ip_read_be16 T 14 = Some (g_wnd g)) by (by apply read16_at).
  assert (R12 : rd T 12 = Some 80) by reflexivity. assert (R13 : rd T 13 = Some (g_flags g)) by reflexivity.
  rewrite R0, R2, R4, R8, R12, R13, R14.
  assert (RD : drop (Z.to_nat (Z.shiftr 80 4 * 4)) T = g_data g) by reflexivity.
  unfold chk, bind at 1 2 3 4 5 6 7, ret at 1 2 3 4 5 6 7. rewrite RD. reflexivity.
Qed.

(** A packet, padded or not, either is ignored or reaches TCP as its segment. *)
Lemma ip_input_packet_wp e g pkt n (Q : unit -> stack E -> Prop) w :
  ends_range e -> seg_range g -> is_packet e g pkt -> is_mcast (e_dst e) = false ->
  Q tt w -> wp (tcp_segment e g) Q w -> wp (ip_input_body deliver (pkt ++ replicate n 0)) Q w.
Proof.
  intros He Hg (ci & ct & ->) Hm HQ Hseg. assert (HP : IP_PKT_MAX = 8232) by done. pose proof (sg_len g Hg) as Hlen.
  set (I := ip_bytes e (40 + zlen (g_data g)) (be16 ci)). set (T := tcp_bytes e g (be16 ct)).
  set (P := (I ++ T) ++ replicate n 0).
  assert (LI : zlen I = 20) by (unfold I; by rewrite ip_bytes_length).
  assert (LT : zlen T = 20 + zlen (g_data g)) by (unfold T; rewrite tcp_bytes_length by done; lia).
  assert (LP : zlen P = 40 + zlen (g_data g) + Z.of_nat n) by (unfold P; rewrite !length_app, length_replicate; lia).
  unfold ip_input_body. wstep; [by wstep|].
  wstep. eapply wp_chk; [instantiate (1 := 69); reflexivity|]. wstep; [by wstep|]. change (ihl_of 69) with 20.
  wstep; [by wstep|].
  assert (Rt : pm_ip_read_be16 P 2 = Some (40 + zlen (g_data g))) by (apply read16_at; [done|done|lia]).
  wstep. eapply wp_chk; [exact Rt|]. rewrite (proj2 (Z.leb_le 20 _)), (proj2 (Z.leb_le _ (zlen P))) by lia. cbn [andb].
  unfold pm_ip_csum. rewrite slice_is_Some by lia. rewrite !some_bind. wstep. eapply wp_chk; [done|].
  wstep; [by wstep|].
  assert (Hok : exists b, l4_csum_ok P (40 + zlen (g_data g)) = Some b).
  { unfold l4_csum_ok. change (rd P 0) with (Some 69). change (rd P 9) with (Some 6). rewrite !some_bind.
    change (csum_at 6 (ihl_of 69)) with (Some 36). cbv beta iota. case_match; [by eexists|].
    destruct (rd_is_Some P 36) as [x Hx]; [lia|]. destruct (rd_is_Some P (36 + 1)) as [y Hy]; [lia|].
    unfold pm_ip_read_be16. rewrite Hx, Hy. rewrite !some_bind. change ((6 =? 17)) with false. cbn [andb].
    unfold pm_ip_l4_csum. change (rd P 0) with (Some 69). rewrite !some_bind. change (ihl_of 69) with 20.
    case_match; [by eexists|]. rewrite (slice_is_Some _ 12 8), (slice_is_Some _ 20) by lia. rewrite !some_bind. change (rd P 9) with (Some 6).
    rewrite !some_bind. by eexists. }
  destruct Hok as [ok Hok]. wstep. eapply wp_chk; [exact Hok|]. wstep; [by wstep|].
  destruct He as [Hs Hd Hsp Hdp].
  assert (R16 : pm_ip_read_be32 P 16 = Some (e_dst e)) by (by apply read32_at).
  assert (R12 : pm_ip_read_be32 P 12 = Some (e_src e)) by (by apply read32_at).
  wstep. eapply wp_chk; [exact R16|]. wstep. eapply wp_chk; [exact R12|].
  unfold for_us. wstep. do 2 wstep. rewrite Hm. do 4 wstep; [by wstep|].
  wstep. eapply wp_chk; [instantiate (1 := 6); reflexivity|].
  assert (HT : slice P 20 (40 + zlen (g_data g) - 20) = Some T).
  { unfold P. rewrite <- app_assoc. rewrite <- LI at 1. apply slice_mid. lia. }
  wstep. eapply wp_chk; [exact HT|]. change (6 =? 1) with false. cbn [andb]. change (6 =? 6) with true. cbn iota.
  unfold T. by rewrite tcp_input_reads.
Qed.
End read.
End TcpSeg.
