(* ===== verification/TcpInv.v ===== *)
(** * One end of a TCP connection

    The invariant of a host that holds one established connection, beside any
    datagram sockets and listeners ([hok]): what it has put on the wire, or keeps for a neighbour, agrees
    with the stream its application has sent, and what its application has
    received, followed by what its receive buffer holds, is a prefix of the
    peer's stream.  This file holds it, and that emitting, closing and dropping keep it. *)
From S2P Require Import Prelude Ip IpWire IpLink IpTcp IpInput IpNet TcpSeg.

Module TcpInv.
Import Ip IpWire IpLink IpTcp IpInput IpNet TcpSeg.

(** The connection as one end sees it: its socket, its table, the address and
    the interface it is bound to, the addresses with the local end first, the sequence number of the first byte it sends
    and of the first byte it receives. *)
Record conn := Conn { c_ptr : Z; c_fd : Z; c_cap : nat; c_laddr : Z; c_l2 : Z; c_ends : ends; c_snd0 : Z; c_rcv0 : Z }.

(** The two streams and how much of the peer's was read: bytes sent, whether
    the application closed, bytes the peer sent, whether it closed, bytes read. *)
Record ghost := Ghost { out : list Z; out_fin : bool; inc : list Z; inc_fin : bool; got : list Z }.

(** ** Segments that agree with a stream *)

Record seg_good (base : Z) (S : list Z) (fin : bool) (g : seg) : Prop := {
  gd_range : seg_range g;
  gd_rst : has_flag (g_flags g) TCP_RST = false;
  gd_syn : has_flag (g_flags g) TCP_SYN = false;
  gd_data : g_data g <> [] -> exists pre post, S = pre ++ g_data g ++ post /\ g_seq g = base + zlen pre;
  gd_fin : has_flag (g_flags g) TCP_FIN = true -> fin = true /\ g_data g = [] /\ g_seq g = base + zlen S }.

Definition pkt_good (e : ends) (base : Z) (S : list Z) (fin : bool) (pkt : list Z) : Prop :=
  exists g, seg_good base S fin g /\ is_packet e g pkt.

(** The stream grows until it is closed. *)
Definition grows (S : list Z) (fin : bool) (S' : list Z) (fin' : bool) : Prop :=
  S `prefix_of` S' /\ (fin = true -> S' = S /\ fin' = true).

Lemma seg_good_grows base S fin S' fin' g : grows S fin S' fin' -> seg_good base S fin g -> seg_good base S' fin' g.
Proof.
  intros [[k ->] Hf] [Hr Hrst Hsyn Hd Hfin]. constructor; [done|done|done| |].
  - intros Hne. destruct (Hd Hne) as (pre & post & -> & ->). exists pre, (post ++ k). by rewrite <- !app_assoc.
  - intros HF. destruct (Hfin HF) as (-> & -> & ->). destruct (Hf eq_refl) as [-> ->]. done.
Qed.
Lemma pkt_good_grows e base S fin S' fin' pkt : grows S fin S' fin' -> pkt_good e base S fin pkt -> pkt_good e base S' fin' pkt.
Proof. intros Hg (g & Hs & Hp). exists g. split; [by eapply seg_good_grows|done]. Qed.

Lemma grows_refl S fin : grows S fin S fin.
Proof. split; [done|]. by intros ->. Qed.
Lemma grows_close S fin : grows S fin S true.
Proof. split; [done|]. done. Qed.
Lemma grows_app S x : grows S false (S ++ x) false.
Proof. split; [by apply prefix_app_r|done]. Qed.

(** ** The socket *)

(** The resend buffer holds the stream's end, or the FIN alone. *)
Definition resend_ok (base : Z) (S : list Z) (fin_sent : bool) (q : snd) : Prop :=
  rexmit_len q = 0 \/
  (fin_sent = false /\ 0 < rexmit_len q <= zlen (rexmit q) /\ rexmit_flags q = 24 /\
     exists pre, S = pre ++ take (Z.to_nat (rexmit_len q)) (rexmit q) /\ rexmit_seq q = base + zlen pre) \/
  (fin_sent = true /\ rexmit_len q = 1 /\ 1 <= zlen (rexmit q) /\ rexmit_flags q = 17 /\ rexmit_seq q = base + zlen S).

Record snd_ok (base : Z) (S : list Z) (fin_sent : bool) (q : snd) : Prop := {
  so_base : 0 <= base; so_wrap : base + zlen S + 1 < 4294967296;
  so_nxt : snd_nxt q = base + zlen S + b2z fin_sent;
  so_cap : 1 <= zlen (rexmit q) < 2147483648;
  so_resend : resend_ok base S fin_sent q }.

Record rcv_ok (base : Z) (T : list Z) (fin : bool) (R : list Z) (r : rcv) : Prop := {
  ro_base : 0 <= base; ro_wrap : base + zlen T + 1 < 4294967296;
  ro_len : 0 <= rx_len r <= rx_cap r; ro_cap : rx_cap r < 4294967296;
  ro_rest : exists rest, T = R ++ take (Z.to_nat (rx_len r)) (rx r) ++ rest /\ (peer_fin r = true -> fin = true /\ rest = []);
  ro_nxt : rcv_nxt r = base + zlen R + rx_len r + b2z (peer_fin r) }.

(** The states a connection whose handshake is over goes through. *)
Definition open_st (st : tcp_state) : Prop := st = TCP_ESTAB \/ st = TCP_FIN_WAIT \/ st = TCP_CLOSE_WAIT \/ st = TCP_LAST_ACK.

Record sock_ok (c : conn) (G : ghost) (s : sock) : Prop := {
  sk_fd : k_fd s = c_fd c; sk_tcp : k_kind s = SK_TCP; sk_st : open_st (k_st s);
  sk_laddr : k_laddr s = c_laddr c; sk_l2 : k_l2 s = c_l2 c; sk_lport : k_lport s = e_sport (c_ends c);
  sk_raddr : k_raddr s = e_dst (c_ends c); sk_rport : k_rport s = e_dport (c_ends c);
  sk_closed : k_app_closed s = true -> out_fin G = true;
  sk_fin : k_fin_sent s = true -> out_fin G = true;
  sk_snd : snd_ok (c_snd0 c) (out G) (k_fin_sent s) (k_snd s);
  sk_rcv : rcv_ok (c_rcv0 c) (inc G) (inc_fin G) (got G) (k_rcv s) }.

(** A socket that shares the host with the connection: a datagram socket, one
    not yet used, or a listener. *)
Record bystander (s : sock) : Prop := {
  by_st : k_st s = TCP_NONE \/ k_st s = TCP_LISTEN; by_open : k_app_closed s = false; by_idle : rexmit_len (k_snd s) = 0;
  by_una : snd_nxt (k_snd s) <= snd_una (k_snd s); by_stall : wnd_stall_at (k_snd s) = 0; by_fin : peer_fin (k_rcv s) = false }.

Record conn_ok (c : conn) : Prop := {
  co_ptr : c_ptr c <> 0; co_fd : 0 <= c_fd c < Z.of_nat (c_cap c); co_ends : ends_range (c_ends c);
  co_src : is_mcast (e_src (c_ends c)) = false;
  co_dst : e_dst (c_ends c) <> 0 /\ is_mcast (e_dst (c_ends c)) = false }.

Section host.
Context {E : Type} `{!Host E, !HostLaws E, !Wire E, !WireLaws E}.
Local Open Scope metal_scope.
Local Abbreviation stack := (stack E).
Local Abbreviation IpM := (IpM E).
Variable deliver : list Z -> IpM unit.
Variable c : conn.
Implicit Types (w : stack) (G : ghost).

Definition ours (G : ghost) : list Z -> Prop := pkt_good (c_ends c) (c_snd0 c) (out G) (out_fin G).

(** The other slots are empty or hold bystanders. *)
Record table (w : stack) (present : bool) : Prop := {
  tb_len : length (sk w) = c_cap c;
  tb_own : sk w !! Z.to_nat (c_fd c) = Some (if present then c_ptr c else 0);
  tb_rest : forall i p, sk w !! i = Some p -> i <> Z.to_nat (c_fd c) -> p = 0 \/ (p <> c_ptr c /\ exists s, socks w !! p = Some s /\ bystander s) }.

(** What does not depend on the streams. *)
Record hbase (w : stack) (present : bool) : Prop := {
  hb_lo : is_lo w (e_dst (c_ends c)) = false;
  hb_src : forall s, k_laddr s = c_laddr c -> k_l2 s = c_l2 c -> src_for w (Some s) (e_dst (c_ends c)) = e_src (c_ends c);
  hb_conn : conn_ok c;
  hb_table : table w present }.

(** The host invariant, with the connection's socket [s] open or gone. *)
Record hinv (G : ghost) (w : stack) (s : option sock) : Prop := {
  hi_base : hbase w (bool_decide (is_Some s));
  hi_net : netinv (ours G) w;
  hi_bytes : bytes_ok (out G);
  hi_sock : socks w !! c_ptr c = s;
  hi_ok : forall k, s = Some k -> sock_ok c G k;
  hi_got : got G `prefix_of` inc G }.

Lemma hi_conn G w s : hinv G w s -> conn_ok c.
Proof. intros H. apply (hb_conn _ _ (hi_base _ _ _ H)). Qed.

Lemma hbase_same w w' b : hbase w b -> same_host w w' -> hbase w' b.
Proof.
  intros [Hl Hsrc Hc Ht] []. constructor; [| |done|].
  - unfold is_lo in *. by rewrite sh_lo_up0, sh_lo0.
  - intros s H1 H2. rewrite <- (Hsrc s H1 H2). unfold src_for, ip_src_route. by rewrite sh_lo0, sh_l3, sh_rt0.
  - destruct Ht. constructor; rewrite ?sh_sk0, ?sh_socks0; done.
Qed.

(** Rewriting the connection's socket, or dropping it from the store. *)
Lemma hbase_socks w m b : hbase w b -> (forall p, p <> c_ptr c -> m !! p = socks w !! p) -> hbase (set_socks m w) b.
Proof.
  intros [Hl Hsrc Hc []] Hm. constructor; [done|done|done|]. constructor; try done. cbn. intros i p Hi Hne.
  destruct (tb_rest0 i p Hi Hne) as [?|(Hp & s & Hs & ?)]; [by left|right]. split; [done|]. exists s. by rewrite Hm.
Qed.
Lemma hbase_put w s b : hbase w b -> hbase (set_socks (<[c_ptr c := s]> (socks w)) w) b.
Proof. intros H. apply hbase_socks; [done|]. intros p Hp. by rewrite lookup_insert_ne. Qed.

Lemma hinv_intro G w s : hbase w true -> netinv (ours G) w -> bytes_ok (out G) -> socks w !! c_ptr c = Some s -> sock_ok c G s ->
  hinv G w (Some s).
Proof.
  intros. constructor; try done; [by intros k [= <-]|]. destruct (ro_rest _ _ _ _ _ (sk_rcv _ _ _ H3)) as (rest & -> & _). by apply prefix_app_r.
Qed.

Definition hok (G : ghost) (w : stack) : Prop := exists s, hinv G w s.
Definition alive (G : ghost) (w : stack) : Prop := exists s, hinv G w (Some s).

Lemma alive_hok G w : alive G w -> hok G w.
Proof. intros [s H]. by exists (Some s). Qed.

(** A quiet step keeps it. *)
Lemma hinv_quiet G w w' s : hinv G w s -> quiet (ours G) w w' -> hinv G w' s.
Proof.
  intros [Hb Hn HB Hs Hk Hgot] [HS HN]. constructor; try done; [by eapply hbase_same|]. by rewrite (sh_socks _ _ HS).
Qed.

Lemma get_at_wp w p s (Q : sock -> stack -> Prop) : socks w !! p = Some s -> Q s w -> wp (get_sock p) Q w.
Proof. intros H HQ. unfold wp, get_sock. by rewrite H. Qed.
Lemma get_wp w s (Q : sock -> stack -> Prop) : socks w !! c_ptr c = Some s -> Q s w -> wp (get_sock (c_ptr c)) Q w.
Proof. intros H HQ. unfold wp, get_sock. by rewrite H. Qed.
Lemma get_sock_wp G w s (Q : sock -> stack -> Prop) : hinv G w (Some s) -> Q s w -> wp (get_sock (c_ptr c)) Q w.
Proof. intros H. apply get_wp, H. Qed.

Lemma netinv_socks (F : list Z -> Prop) w m : netinv F w -> netinv F (set_socks m w).
Proof. intros []. by constructor. Qed.

Lemma put_sock_wp G w s s' : hinv G w (Some s) -> sock_ok c G s' ->
  wp (put_sock (c_ptr c) s') (fun _ w' => hinv G w' (Some s') /\ env w' = env w) w.
Proof.
  intros [Hb Hn HB Hs Hk _] Hs'. unfold put_sock. wstep. split; [|done].
  apply hinv_intro; [by apply hbase_put|by apply netinv_socks|done| |done]. cbn. by rewrite lookup_insert_eq.
Qed.

Lemma upd_sock_wp G w s f : hinv G w (Some s) -> sock_ok c G (f s) ->
  wp (upd_sock (c_ptr c) f) (fun _ w' => hinv G w' (Some (f s)) /\ env w' = env w) w.
Proof.
  intros H Hf. unfold upd_sock. wstep. eapply get_sock_wp; [exact H|]. by eapply put_sock_wp.
Qed.

(** Changes the invariant does not look at. *)
Lemma sock_ok_waiter G v s : sock_ok c G s -> sock_ok c G (set_k_waiter v s).
Proof. intros []. by constructor. Qed.
Lemma sock_ok_error G v s : sock_ok c G s -> sock_ok c G (set_k_error v s).
Proof. intros []. by constructor. Qed.
Lemma sock_ok_snd G q s : sock_ok c G s -> snd_ok (c_snd0 c) (out G) (k_fin_sent s) q -> sock_ok c G (set_k_snd q s).
Proof. intros [] ?. by constructor. Qed.
Lemma sock_ok_rcv G r s : sock_ok c G s -> rcv_ok (c_rcv0 c) (inc G) (inc_fin G) (got G) r -> sock_ok c G (set_k_rcv r s).
Proof. intros [] ?. by constructor. Qed.
Lemma snd_ok_wnd base S f v q : snd_ok base S f q -> snd_ok base S f (set_snd_wnd v q).
Proof. intros []. by constructor. Qed.
Lemma snd_ok_stall base S f v q : snd_ok base S f q -> snd_ok base S f (set_wnd_stall_at v q).
Proof. intros []. by constructor. Qed.
Lemma snd_ok_tries base S f v q : snd_ok base S f q -> snd_ok base S f (set_rexmit_tries v q).
Proof. intros []. by constructor. Qed.
Lemma snd_ok_at base S f v q : snd_ok base S f q -> snd_ok base S f (set_rexmit_at v q).
Proof. intros []. by constructor. Qed.

Lemma wake_wp G w s : hinv G w (Some s) -> wp (pm_ip_sock_wake (c_ptr c)) (fun _ w' => alive G w') w.
Proof.
  intros H. unfold pm_ip_sock_wake. wstep. eapply get_sock_wp; [exact H|]. wstep; [|wstep; by exists s].
  unfold post_task. do 2 wstep.
  assert (H' : hinv G (set_env (h_post (k_waiter s) (env w)) w) (Some s)).
  { eapply hinv_quiet; [exact H|]. split; [by constructor|]. apply netinv_env; [apply post_wire|apply H]. }
  eapply wp_mono; [eapply upd_sock_wp; [exact H'|by apply sock_ok_waiter, H]|]. intros _ w' [? _]. by eexists.
Qed.

Lemma table_at w b : table w b -> conn_ok c -> rd (sk w) (c_fd c) = Some (if b then c_ptr c else 0).
Proof. intros [_ H _] Hc. pose proof (co_fd _ Hc). by apply rd_lookup; [lia|]. Qed.

Lemma sock_at_raw w b (Q : Z -> stack -> Prop) : hbase w b -> Q (if b then c_ptr c else 0) w -> wp (pm_ip_sock_at (c_fd c)) Q w.
Proof. intros [_ _ Hc Ht] HQ. unfold pm_ip_sock_at. wstep. by rewrite (table_at w b). Qed.

(** Dropping the connection's slot. *)
Lemma drop_raw_wp (F : list Z -> Prop) w s : hbase w true -> netinv F w -> socks w !! c_ptr c = Some s ->
  wp (pm_ip_sock_drop (c_fd c)) (fun _ w' => hbase w' false /\ netinv F w' /\ socks w' !! c_ptr c = None) w.
Proof.
  intros Hb Hn Hs. pose proof (hb_conn _ _ Hb) as Hc. pose proof (co_fd _ Hc) as Hfd. pose proof (co_ptr _ Hc) as Hp.
  unfold pm_ip_sock_drop. wstep. eapply sock_at_raw; [exact Hb|]. cbv iota. rewrite (proj2 (Z.eqb_neq _ 0)) by done.
  wstep. eapply get_wp; [exact Hs|]. do 3 wstep. unfold id. destruct Hb as [Hl Hsrc _ [Ht1 Ht2 Ht3]]. rewrite wr_is_Some by lia. eapply wp_chk; [done|].
  do 4 wstep. set (w2 := set_socks _ _).
  assert (HI : hbase w2 false /\ netinv F w2 /\ socks w2 !! c_ptr c = None).
  { split_and!; [constructor; [done|done|done|]|destruct Hn; by constructor|apply lookup_delete_eq].
    constructor; cbn; [by rewrite length_insert|by rewrite list_lookup_insert_eq by lia|]. intros i p' Hi Hne. rewrite list_lookup_insert_ne in Hi by done.
    destruct (Ht3 i p' Hi Hne) as [?|(? & k & ? & ?)]; [by left|right]. split; [done|]. exists k. by rewrite lookup_delete_ne. }
  destruct HI as (H1 & H2 & H3). wstep; wstep; (split_and!; [destruct H1 as [? ? ? []]; constructor; [done|done|done|by constructor]|destruct H2; by constructor|done]).
Qed.

Lemma hinv_none G w : hbase w false -> netinv (ours G) w -> bytes_ok (out G) -> socks w !! c_ptr c = None -> got G `prefix_of` inc G -> hinv G w None.
Proof. by constructor. Qed.

Lemma drop_wp G w s : hinv G w s -> wp (pm_ip_sock_drop (c_fd c)) (fun _ w' => hinv G w' None) w.
Proof.
  intros H. destruct s as [s|].
  - eapply wp_mono; [eapply drop_raw_wp; apply H|]. intros ? w' (? & ? & ?). apply hinv_none; try done; apply H.
  - unfold pm_ip_sock_drop. wstep. eapply sock_at_raw; [apply H|]. by wstep.
Qed.

Lemma sock_at_wp G w s (Q : Z -> stack -> Prop) : hinv G w s -> Q (match s with Some _ => c_ptr c | None => 0 end) w ->
  wp (pm_ip_sock_at (c_fd c)) Q w.
Proof. intros H HQ. eapply sock_at_raw; [apply H|]. by destruct s. Qed.

(** ** Emission *)

Lemma ends_of_sock G w s b : hbase w b -> sock_ok c G s -> ends_of w s = c_ends c.
Proof.
  intros [_ Hsrc [_ _ _ _ (H3 & _)] _] []. unfold ends_of, remote. rewrite sk_raddr0, sk_lport0, sk_rport0.
  rewrite (proj2 (Z.eqb_neq _ 0)) by done. cbn [negb]. rewrite Hsrc by done. by destruct (c_ends c).
Qed.

(** [tcp_emit] of a segment puts at most that segment on the wire, and none
    when it reports failure. *)
Lemma emit_raw_wp (F : list Z -> Prop) w s flags data seq b : hbase w b -> socks w !! c_ptr c = Some s -> ends_of w s = c_ends c -> netinv F w ->
  40 + zlen data <= IP_PKT_MAX ->
  wp (tcp_emit deliver (c_ptr c) flags data seq)
     (fun tx w' => same_host w w' /\ netinv (fun p => F p \/ (tx = TX_OK /\
        is_packet (c_ends c) (Seg seq (rcv_nxt (k_rcv s)) flags (wnd_of (k_rcv s)) data) p)) w') w.
Proof.
  intros [Hlo _ Hc _] Hs He HN Hl.
  unfold tcp_emit. wstep. eapply get_wp; [exact Hs|]. wstep; [breflect; lia|]. do 2 wstep. unfold id.
  destruct (tcp_packet_is w s flags seq data Hl) as (pkt & Hpkt & Hp). rewrite He in Hp.
  set (g := Seg seq (rcv_nxt (k_rcv s)) flags (wnd_of (k_rcv s)) data) in *.
  wstep. eapply wp_chk; [exact Hpkt|]. destruct (co_ends _ Hc). destruct (co_dst _ Hc) as [_ Hm].
  assert (Hlen : zlen pkt = 40 + zlen data).
  { destruct Hp as (ci & ct & ->). rewrite length_app, ip_bytes_length, tcp_bytes_length by done. unfold g. cbn [g_data]. lia. }
  eapply wp_mono.
  - apply (output_via_wp _ F _ _ _ (e_src (c_ends c)) (e_dst (c_ends c))); [done|lia| | |done|done].
    + destruct Hp as (ci & ct & ->). by apply read32_at.
    + destruct Hp as (ci & ct & ->). by apply read32_at.
  - intros tx w' [HS HN']. split; [done|]. eapply netinv_mono; [|exact HN']. intros p [Ho|[-> ->]]; [by left|by right].
Qed.

Lemma wnd_of_range r : 0 <= wnd_of r < 65536.
Proof. unfold wnd_of. case_match; [lia|apply u16_range]. Qed.

Lemma rcv_nxt_range base T fin R r : rcv_ok base T fin R r -> 0 <= rcv_nxt r < 4294967296.
Proof.
  intros [Hb Hw [Hl1 Hl2] _ (rest & -> & Hf) ->]. unfold rx_cap in *. rewrite !length_app, length_take in Hw.
  destruct (peer_fin r); cbn [b2z]; [destruct (Hf eq_refl) as [_ ->]; cbn [length] in *|]; lia.
Qed.
Lemma snd_nxt_range base S f q : snd_ok base S f q -> 0 <= snd_nxt q < 4294967296.
Proof. intros [Hb Hw -> _ _]. destruct f; cbn [b2z]; lia. Qed.

(** A segment of this connection that agrees with its outgoing stream. *)
Lemma emit_good_wp G w s flags data seq : hinv G w (Some s) -> 0 <= seq < 4294967296 -> 0 <= flags < 256 ->
  40 + zlen data <= IP_PKT_MAX -> has_flag flags TCP_RST = false -> has_flag flags TCP_SYN = false ->
  (data <> [] -> exists pre post, out G = pre ++ data ++ post /\ seq = c_snd0 c + zlen pre) ->
  (has_flag flags TCP_FIN = true -> out_fin G = true /\ data = [] /\ seq = c_snd0 c + zlen (out G)) ->
  wp (tcp_emit deliver (c_ptr c) flags data seq) (fun tx w' => hinv G w' (Some s)) w.
Proof.
  intros H Hseq Hfl Hlen Hrst Hsyn Hd Hf. pose proof (hi_ok _ _ _ H s eq_refl) as Hs.
  eapply wp_mono; [eapply (emit_raw_wp (ours G)); [apply H|apply H|by eapply ends_of_sock; [apply H|]|apply H|done]|].
  intros tx w' [HS HN]. eapply hinv_quiet; [exact H|]. split; [done|].
  eapply netinv_mono; [|exact HN]. intros p [?|[_ Hp]]; [done|]. eexists. split; [|exact Hp].
  constructor; try done. constructor; cbn; try done; [by eapply rcv_nxt_range, Hs|apply wnd_of_range|].
  destruct (decide (data = [])) as [->|Hne]; [done|]. destruct (Hd Hne) as (pre & post & E' & _).
  pose proof (hi_bytes _ _ _ H) as HB. rewrite E' in HB. by apply Forall_app in HB as [_ [? _]%Forall_app].
Qed.

Lemma unreserve_same base S f q : snd_ok base S f q -> snd_ok base S f (unreserve (snd_nxt q) (rexmit_len q) q).
Proof. intros []. by constructor. Qed.

Lemma upd_snd_wp G w s f : hinv G w (Some s) -> snd_ok (c_snd0 c) (out G) (k_fin_sent s) (f (k_snd s)) ->
  wp (upd_snd (c_ptr c) f) (fun _ w' => hinv G w' (Some (set_k_snd (f (k_snd s)) s))) w.
Proof.
  intros H Hf. unfold upd_snd. eapply wp_mono; [eapply (upd_sock_wp G _ s); [exact H|]|].
  { apply sock_ok_snd; [by apply (hi_ok _ _ _ H)|exact Hf]. }
  intros a w' [H' _]. exact H'.
Qed.

(** A bare acknowledgement. *)
Lemma xmit_ack_wp G w s : hinv G w (Some s) -> wp (pm_ip_tcp_xmit deliver (c_ptr c) TCP_ACK []) (fun _ w' => alive G w') w.
Proof.
  intros H. pose proof (hi_ok _ _ _ H s eq_refl) as Hs. unfold pm_ip_tcp_xmit. rewrite (proj2 (Z.eqb_neq _ _)) by apply (co_ptr _ (hi_conn _ _ _ H)).
  wstep. eapply get_sock_wp; [exact H|]. change (u32 (zlen [] + ctl_of TCP_ACK)) with 0. cbn [Z.eqb negb andb].
  do 2 wstep. wstep. eapply wp_mono; [apply (emit_good_wp G); [exact H|by eapply snd_nxt_range, Hs|done|done|done|done|done|done]|].
  intros tx w1 H1. wstep; [|wstep; by exists s]. change (has_flag TCP_ACK TCP_SYN) with false. rewrite andb_false_r. cbn [andb].
  wstep. eapply wp_mono; [eapply (upd_snd_wp G); [exact H1|apply unreserve_same, Hs]|]. intros ? w2 H2. wstep. eexists. exact H2.
Qed.

(** ** Closing *)

Lemma reserve_fin base S q now : snd_ok base S false q -> rexmit_len q = 0 ->
  exists q', reserve 17 [] 1 now q = Some q' /\ snd_ok base S true q' /\ snd_nxt q' = snd_nxt q + 1 /\
    snd_ok base S false (unreserve (snd_nxt q) 0 q').
Proof.
  intros [Hb Hw Hn Hc Hr] H0. cbn [b2z] in Hn. unfold reserve. rewrite H0. cbn. eexists. split; [done|].
  assert (Hu : u32 (snd_nxt q + 1) = snd_nxt q + 1) by (apply u32_small; lia).
  split_and!; [|cbn; by rewrite Hu|].
  - constructor; try done; [cbn; rewrite Hu; lia|]. right; right. cbn. split_and!; try done; lia.
  - constructor; try done; cbn; lia || by left.
Qed.

(** A segment that claims sequence numbers: claimed and on the wire, or given
    back and not. *)
Lemma xmit_claim_wp (F : list Z -> Prop) w s flags data consumes :
  hbase w true -> socks w !! c_ptr c = Some s -> ends_of w s = c_ends c -> netinv F w ->
  consumes = zlen data + ctl_of flags -> 0 < consumes < 4294967296 -> u32 (rexmit_len (k_snd s) + consumes) <= rexmit_cap (k_snd s) ->
  (forall now, is_Some (reserve flags data consumes now (k_snd s))) -> 40 + zlen data <= IP_PKT_MAX -> has_flag flags TCP_SYN = false ->
  wp (pm_ip_tcp_xmit deliver (c_ptr c) flags data) (fun tx w' => hbase w' true /\
     exists now q', reserve flags data consumes now (k_snd s) = Some q' /\
       ((tx = TX_OK /\ socks w' !! c_ptr c = Some (set_k_snd q' s) /\
         netinv (fun p => F p \/ is_packet (c_ends c) (Seg (snd_nxt (k_snd s)) (rcv_nxt (k_rcv s)) flags (wnd_of (k_rcv s)) data) p) w') \/
        (tx <> TX_OK /\ socks w' !! c_ptr c = Some (set_k_snd (unreserve (snd_nxt (k_snd s)) (rexmit_len (k_snd s)) q') s) /\ netinv F w'))) w.
Proof.
  intros Hb Hs He HN Hc Hcr Hfit Hres Hlen Hsyn. unfold pm_ip_tcp_xmit. rewrite (proj2 (Z.eqb_neq _ _)) by apply (co_ptr _ (hb_conn _ _ Hb)).
  wstep. eapply get_wp; [exact Hs|]. rewrite <- Hc, (u32_small consumes) by lia. rewrite (proj2 (Z.eqb_neq consumes 0)) by lia. cbn [negb andb].
  rewrite (proj2 (Z.ltb_ge _ _)) by done. wstep.
  assert (Hk : forall w1 now, hbase w1 true -> socks w1 !! c_ptr c = Some s -> ends_of w1 s = c_ends c -> netinv F w1 ->
    wp (q' <- chk (reserve flags data consumes now (k_snd s)) ;; put_sock (c_ptr c) (set_k_snd q' s))
       (fun _ w2 => exists q', reserve flags data consumes now (k_snd s) = Some q' /\ hbase w2 true /\ socks w2 !! c_ptr c = Some (set_k_snd q' s) /\
          ends_of w2 (set_k_snd q' s) = c_ends c /\ netinv F w2) w1).
  { intros w1 now Hb1 Hs1 He1 HN1. destruct (Hres now) as [q' Hq']. wstep. eapply wp_chk; [exact Hq'|]. unfold put_sock. wstep. exists q'.
    split_and!; [done|by apply hbase_put|cbn; by rewrite lookup_insert_eq|done|by apply netinv_socks]. }
  assert (Hnow : wp (now <- (if rexmit_len (k_snd s) =? 0 then now_us else ret 0);; q' <- chk (reserve flags data consumes now (k_snd s)) ;; put_sock (c_ptr c) (set_k_snd q' s))
       (fun _ w2 => exists now q', reserve flags data consumes now (k_snd s) = Some q' /\ hbase w2 true /\ socks w2 !! c_ptr c = Some (set_k_snd q' s) /\
          ends_of w2 (set_k_snd q' s) = c_ends c /\ netinv F w2) w).
  { wstep. destruct (rexmit_len (k_snd s) =? 0).
    - eapply wp_mono; [by apply (now_quiet F)|]. intros now w1 (HS & HN1 & _). eapply wp_mono; [apply (Hk w1 now)|].
      + by eapply hbase_same.
      + by rewrite (sh_socks _ _ HS).
      + rewrite <- He. destruct HS. unfold ends_of, remote, src_for, ip_src_route. by rewrite sh_lo0, sh_l3, sh_rt0.
      + done.
      + intros ? w2 (q' & ?). by exists now, q'.
    - wstep. eapply wp_mono; [by apply (Hk w 0)|]. intros ? w2 (q' & ?). by exists 0, q'. }
  eapply wp_mono; [exact Hnow|]. intros ? w2 (now & q' & Hq' & Hb2 & Hs2 & He2 & HN2).
  wstep. eapply wp_mono; [by apply (emit_raw_wp F w2 (set_k_snd q' s) flags data (snd_nxt (k_snd s)) true)|]. intros tx w3 [HS3 HN3].
  assert (Hb3 : hbase w3 true) by (by eapply hbase_same).
  wstep.
  - rewrite Hsyn, andb_false_r. cbn [andb]. breflect. wstep. unfold upd_snd, upd_sock. wstep. eapply get_wp; [rewrite (sh_socks _ _ HS3); exact Hs2|].
    unfold put_sock. do 2 wstep. split; [by apply hbase_put|]. exists now, q'. split; [done|]. right. split_and!; [done|cbn; by rewrite lookup_insert_eq|].
    apply netinv_socks. eapply netinv_mono; [|exact HN3]. intros p [?|[? _]]; [done|congruence].
  - breflect. wstep. split; [done|]. exists now, q'. split; [done|]. left. split_and!; [done|by rewrite (sh_socks _ _ HS3)|].
    eapply netinv_mono; [|exact HN3]. intros p [?|[_ ?]]; [by left|by right].
Qed.

(** The FIN of a finished stream. *)
Lemma fin_good base S q r T fin R : snd_ok base S false q -> rcv_ok (c_rcv0 c) T fin R r ->
  seg_good base S true (Seg (snd_nxt q) (rcv_nxt r) 17 (wnd_of r) []).
Proof.
  intros Hq Hr. constructor; try done.
  - constructor; cbn; try done; [by eapply snd_nxt_range|by eapply rcv_nxt_range|apply wnd_of_range].
  - intros _. destruct Hq as [_ _ Hn _ _]. cbn in *. split_and!; [done|done|lia].
Qed.

Lemma xmit_fin_wp G w s : hbase w true -> netinv (ours G) w -> socks w !! c_ptr c = Some s -> ends_of w s = c_ends c ->
  snd_ok (c_snd0 c) (out G) false (k_snd s) -> rexmit_len (k_snd s) = 0 -> out_fin G = true ->
  rcv_ok (c_rcv0 c) (inc G) (inc_fin G) (got G) (k_rcv s) ->
  wp (pm_ip_tcp_xmit deliver (c_ptr c) 17 []) (fun tx w' => hbase w' true /\ netinv (ours G) w' /\
     exists q, socks w' !! c_ptr c = Some (set_k_snd q s) /\ snd_ok (c_snd0 c) (out G) (tx =? TX_OK) q) w.
Proof.
  intros Hb Hn Hs He Hq Hl Hf Hr. eapply wp_mono; [apply (xmit_claim_wp (ours G) w s 17 [] 1); try done|].
  - rewrite Hl. apply (so_cap _ _ _ _ Hq).
  - intros tx w' (Hb' & now & q' & Hq' & Hc). split; [done|].
    destruct (reserve_fin _ _ _ now Hq Hl) as (q2 & Hq2 & Hok & _ & Hun). cbn beta in Hq'. rewrite Hq2 in Hq'. injection Hq' as ->.
    destruct Hc as [(-> & Hs' & HN')|(Htx & Hs' & HN')].
    + split; [|by exists q']. eapply netinv_mono; [|exact HN']. intros p [?|Hp]; [done|]. eexists. split; [|exact Hp].
      rewrite Hf. by eapply fin_good.
    + split; [done|]. rewrite (proj2 (Z.eqb_neq _ _) Htx). rewrite Hl in Hs'. by eexists.
Qed.

Lemma close_wp G w s : hinv G w (Some s) -> out_fin G = true -> wp (pm_ip_tcp_close deliver (c_ptr c)) (fun _ w' => hok G w') w.
Proof.
  intros H Hfin. pose proof (hi_ok _ _ _ H s eq_refl) as Hs. pose proof (hi_conn _ _ _ H) as Hc.
  unfold pm_ip_tcp_close. rewrite (proj2 (Z.eqb_neq _ _)) by apply (co_ptr _ Hc).
  wstep. eapply get_sock_wp; [exact H|]. rewrite (sk_tcp _ _ _ Hs). change (is_kind SK_TCP SK_TCP) with true. cbn [negb].
  assert (Hs1 : sock_ok c G (set_k_app_closed true (set_k_waiter 0 s))) by (destruct Hs; by constructor).
  wstep. eapply wp_mono; [eapply (upd_sock_wp G); [exact H|exact Hs1]|]. intros ? w1 [H1 _].
  rewrite (sk_fd _ _ _ Hs).
  assert (Hdrop : forall w', hok G w' -> forall r : Z, wp (pm_ip_sock_drop (c_fd c) ;; ret r) (fun _ w' => hok G w') w').
  { intros w' [s' H'] r. wstep. eapply wp_mono; [eapply drop_wp; exact H'|]. intros ? w2 H2. wstep. by exists None. }
  assert (Hok1 : hok G w1) by (by eexists).
  wstep; [by apply Hdrop|]. wstep; [by apply Hdrop|]. wstep; [by wstep|]. do 2 wstep. unfold id. wstep; [by wstep|].
  apply orb_false_iff in Heqb2 as [_ Hrl]. apply negb_false_iff, Z.eqb_eq in Hrl.
  set (st := if peer_fin (k_rcv s) then TCP_LAST_ACK else TCP_FIN_WAIT).
  set (s2 := set_k_st st (set_k_fin_sent true (set_k_app_closed true (set_k_waiter 0 s)))).
  wstep. unfold upd_sock at 1. wstep. eapply get_sock_wp; [exact H1|]. unfold put_sock at 1. wstep. fold s2.
  set (w2 := set_socks (<[c_ptr c := s2]> (socks w1)) w1).
  pose proof (sk_snd _ _ _ Hs) as Hq. rewrite Heqb1 in Hq.
  assert (He : ends_of w2 s2 = c_ends c) by (rewrite <- (ends_of_sock G w1 s _ (hi_base _ _ _ H1)) by done; done).
  wstep. eapply wp_mono; [apply (xmit_fin_wp G w2 s2); try done; [|destruct (hi_net _ _ _ H1); by constructor|apply lookup_insert_eq|apply Hs]|].
  { apply hbase_put, (hi_base _ _ _ H1). }
  intros tx w3 (Hb3 & Hn3 & q & Hs3 & Hq3).
  assert (Hok3 : forall w', hbase w' true -> netinv (ours G) w' -> socks w' !! c_ptr c = Some (set_k_fin_sent (tx =? TX_OK) (set_k_snd q s2)) -> hinv G w' (Some (set_k_fin_sent (tx =? TX_OK) (set_k_snd q s2)))).
  { intros w' Hb' Hn' Hs'. apply hinv_intro; try done; [apply H|]. destruct Hs. constructor; try done. cbn. unfold st, open_st. case_match; tauto. }
  wstep.
  { breflect. subst tx. unfold upd_sock. do 2 wstep. eapply get_wp; [exact Hs3|]. unfold put_sock. do 2 wstep. eexists. apply Hok3; [by apply hbase_put|by apply netinv_socks|apply lookup_insert_eq]. }
  wstep.
  { wstep. eapply get_wp; [exact Hs3|]. wstep. cbn [k_fd set_k_snd]. change (k_fd s2) with (k_fd s). rewrite (sk_fd _ _ _ Hs).
    eapply wp_mono; [by eapply drop_raw_wp|]. intros ? w4 (? & ? & ?). wstep. exists None. apply hinv_none; try done; apply H. }
  breflect. subst tx. assert (H3 : hok G w3) by (eexists; by apply Hok3). destruct H3 as [s3 H3].
  wstep. eapply sock_at_wp; [exact H3|]. wstep. wstep.
  - eapply wp_mono; [eapply drop_wp; exact H3|]. intros ? w4 H4. wstep. exists None. exact H4.
  - do 2 wstep. exists s3. exact H3.
Qed.
End host.
End TcpInv.
