(* ===== verification/TcpStep.v ===== *)
(** * The segments of a connection, one step at a time

    What a host that holds one established connection ([TcpInv.hinv]) does with
    a segment of its peer's stream, with its timers and with the calls of its
    application: each keeps the invariant, its ghost state advanced. *)
From S2P Require Import Prelude Ip IpWire IpLink IpTcp IpInput IpNet TcpSeg TcpInv.

Module TcpStep.
Import Ip IpWire IpLink IpTcp IpInput IpNet TcpSeg TcpInv.

(** ** Acknowledgements *)

Lemma ack_rexmit_ok base S f q ack now : snd_ok base S f q -> snd_una q < ack <= snd_nxt q ->
  exists q', ack_rexmit ack now q = Some q' /\ snd_ok base S f q'.
Proof.
  intros Hq Ha. pose proof (snd_nxt_range _ _ _ _ Hq) as Hr. destruct Hq as [Hb Hw Hn Hc Hre]. unfold ack_rexmit.
  destruct (_ && _) eqn:E1; [|eexists; split; [done|by constructor]].
  destruct (rexmit_len q <=? ack - rexmit_seq q) eqn:E2; [eexists; split; [done|]; constructor; try done; by left|]. breflect.
  destruct Hre as [Hre|[(-> & Hl & Hf & pre & HS & Hs)|(-> & Hl & _)]]; [lia| |lia].
  set (k := ack - rexmit_seq q) in *. destruct (queue_shift (rexmit q) (rexmit_len q) k) as (b' & E & L & T); [lia|lia|].
  apply bind_Some in E as (r & -> & E). rewrite some_bind, E, some_bind. rewrite (u32_small (rexmit_seq q + k)) by lia.
  eexists. split; [done|]. constructor; cbn; try done; [by rewrite L|]. right; left. cbn. rewrite L. split_and!; try done; try lia.
  exists (pre ++ take (Z.to_nat k) (take (Z.to_nat (rexmit_len q)) (rexmit q))). rewrite T, <- (assoc_L (++)), take_drop. split; [done|].
  rewrite length_app, !length_take. lia.
Qed.

(** ** Bytes in *)

Lemma prefix_split {A} (a b x y : list A) : a ++ x = b ++ y -> length a = length b -> a = b /\ x = y.
Proof. intros E L. by apply app_inj_1 in E. Qed.

Lemma take_data_ok base T fin R r data pre post : rcv_ok base T fin R r -> T = pre ++ data ++ post -> data <> [] ->
  rcv_nxt r = base + zlen pre -> exists r', take_data data r = Some r' /\ rcv_ok base T fin R r'.
Proof.
  intros Hr HT Hd Hseq. assert (Hd' : 0 < zlen data) by (destruct data; [done|cbn; lia]).
  destruct Hr as [Hb Hw Hl Hc (rest & HT2 & Hf) Hn].
  set (q := take (Z.to_nat (rx_len r)) (rx r)) in *.
  assert (Lq : zlen q = rx_len r) by (unfold q, rx_cap in *; rewrite length_take; lia).
  assert (Hpf : peer_fin r = false).
  { destruct (peer_fin r); [|done]. destruct (Hf eq_refl) as [_ ->]. exfalso.
    assert (zlen T = zlen R + rx_len r) by (rewrite HT2, !length_app; cbn; lia). assert (zlen T = zlen pre + zlen data + zlen post) by (rewrite HT, !length_app; lia). cbn [b2z] in Hn. lia. }
  rewrite Hpf in *. cbn [b2z] in Hn. rewrite (assoc_L (++)) in HT2.
  destruct (prefix_split pre (R ++ q) (data ++ post) rest) as [-> <-]; [congruence|rewrite length_app; lia|].
  unfold take_data, rx_cap in *. rewrite (u32_small (zlen (rx r) - rx_len r)) by lia. set (n := if _ <? _ then _ else _).
  assert (Hnb : 0 <= n <= zlen data /\ n <= zlen (rx r) - rx_len r) by (unfold n; zcase; lia).
  rewrite slice_is_Some, some_bind by lia. change (drop (Z.to_nat 0) data) with data. set (x := take _ data).
  assert (Lx : zlen x = n) by (unfold x; rewrite length_take; lia).
  destruct (queue_append (rx r) x (rx_len r)) as (b' & -> & L & TK); [lia|lia|]. rewrite some_bind.
  assert (LT : zlen T = zlen R + rx_len r + zlen data + zlen post) by (rewrite HT, !length_app; lia).
  eexists. split; [done|]. rewrite !u32_small by lia. constructor; unfold rx_cap; cbn; rewrite ?L, ?Hpf; try done; try lia; [|cbn; lia].
  exists (drop (Z.to_nat n) data ++ post). split; [|done]. rewrite <- Lx, TK. fold q. rewrite HT, <- !(assoc_L (++)). do 2 f_equal.
  rewrite (assoc_L (++)). f_equal. rewrite Lx. unfold x. by rewrite take_drop.
Qed.

Lemma take_fin_ok base T R r : rcv_ok base T true R r -> rcv_nxt r = base + zlen T ->
  rcv_ok base T true R (set_peer_fin true (set_rcv_nxt (u32 (rcv_nxt r + 1)) r)).
Proof.
  intros [Hb Hw Hl Hc (rest & HT & Hf) Hn] Hseq. unfold rx_cap in *.
  assert (LT : zlen T = zlen R + rx_len r + zlen rest) by (rewrite HT, !length_app, length_take; lia).
  assert (Hpf : peer_fin r = false).
  { destruct (peer_fin r); [|done]. destruct (Hf eq_refl) as [_ ->]. cbn in *. lia. }
  rewrite Hpf in *. cbn [b2z] in Hn. assert (rest = []) as -> by (destruct rest; [done|cbn in *; lia]).
  rewrite u32_small by lia. constructor; unfold rx_cap; cbn; try done; [by exists []|]. cbn in *. lia.
Qed.

(** The state after a sub-computation, its postcondition reduced. *)
Ltac winto w H := intros ? w H; cbv beta in H.

Section host.
Context {E : Type} `{!Host E, !HostLaws E, !Wire E, !WireLaws E}.
Local Open Scope metal_scope.
Local Abbreviation stack := (stack E).
Local Abbreviation IpM := (IpM E).
Variable deliver : list Z -> IpM unit.
Variable c : conn.
Implicit Types (w : stack) (G : ghost).
Local Abbreviation hinv := (hinv c).
Local Abbreviation hok := (hok c).
Local Abbreviation alive := (alive c).

Lemma tcp_ack_wp G w s flags ack : hinv G w (Some s) ->
  wp (tcp_ack deliver (c_ptr c) flags ack) (fun d w' => hok G w' /\ (d = false -> alive G w')) w.
Proof.
  intros H. pose proof (hi_ok _ _ _ _ H s eq_refl) as Hs. unfold tcp_ack. wstep. eapply get_sock_wp; [exact H|]. cbv zeta.
  wstep; [wstep; split; [by eexists|intros _; by exists s]|].
  assert (Ha : snd_una (k_snd s) < ack <= snd_nxt (k_snd s)) by (breflect; lia).
  assert (Hnow : wp (if negb (rexmit_len (k_snd s) =? 0) && (rexmit_seq (k_snd s) <? ack) then now_us else ret 0) (fun _ w' => quiet (ours c G) w w') w).
  { wstep; [|wstep; apply quiet_refl, H]. eapply wp_mono; [apply (now_quiet (ours c G)), H|]. intros ? ? (? & ? & _). by split. }
  wstep. eapply wp_mono; [exact Hnow|]. intros now w1 Q1. apply (hinv_quiet c _ _ _ _ H) in Q1 as I1.
  destruct (ack_rexmit_ok _ _ _ _ ack now (sk_snd _ _ _ Hs)) as (q' & Hq & Hq'); [lia|]. wstep. eapply wp_chk; [exact Hq|].
  wstep. eapply wp_mono; [eapply (put_sock_wp c G _ s); [exact I1|by apply sock_ok_snd]|]. intros ? w2 [H2 _].
  wstep. eapply wp_mono; [eapply wake_wp; exact H2|]. intros ? w3 [s3 H3]. pose proof (hi_ok _ _ _ _ H3 s3 eq_refl) as Hs3.
  wstep. eapply get_sock_wp; [exact H3|]. wstep.
  { wstep. rewrite (sk_fd _ _ _ Hs3). eapply wp_mono; [eapply drop_wp; exact H3|]. intros ? w4 K4. wstep. split; [by exists None|done]. }
  wstep; [|wstep; split; [by eexists|intros _; by exists s3]]. breflect. wstep.
  eapply wp_mono; [eapply (close_wp deliver c G _ s3); [exact H3|by apply Hs3]|]. intros ? w4 K4. wstep. done.
Qed.

Lemma upd_alive G w s f : hinv G w (Some s) -> sock_ok c G (f s) -> wp (upd_sock (c_ptr c) f) (fun _ w' => alive G w') w.
Proof. intros H Hf. eapply wp_mono; [by eapply (upd_sock_wp c G _ s)|]. intros ? w1 [H1 _]. by eexists. Qed.

Lemma ack_alive G w : alive G w -> wp (pm_ip_tcp_xmit deliver (c_ptr c) TCP_ACK []) (fun _ w' => alive G w') w.
Proof. intros [s H]. by eapply xmit_ack_wp. Qed.
Lemma wake_alive G w : alive G w -> wp (pm_ip_sock_wake (c_ptr c)) (fun _ w' => alive G w') w.
Proof. intros [s H]. by eapply wake_wp. Qed.

Lemma tcp_window_wp G w flags v : alive G w -> wp (tcp_window (c_ptr c) flags v) (fun _ w' => alive G w') w.
Proof.
  intros [s H]. pose proof (hi_ok _ _ _ _ H s eq_refl) as Hs.
  assert (HU : wp (upd_snd (c_ptr c) (set_snd_wnd v)) (fun _ w' => alive G w') w).
  { unfold upd_snd. eapply upd_alive; [exact H|]. apply sock_ok_snd; [done|]. apply snd_ok_wnd, Hs. }
  unfold tcp_window. wstep; [wstep; by exists s|]. wstep. eapply get_sock_wp; [exact H|]. wstep; [|wstep; [exact HU|wstep; by exists s]].
  wstep. eapply wp_mono; [exact HU|]. intros ? w1. apply wake_alive.
Qed.

Lemma tcp_data_wp G w seq data : alive G w ->
  (data <> [] -> exists pre post, inc G = pre ++ data ++ post /\ seq = c_rcv0 c + zlen pre) ->
  wp (tcp_data deliver (c_ptr c) seq data) (fun _ w' => alive G w') w.
Proof.
  intros [s H] Hd. pose proof (hi_ok _ _ _ _ H s eq_refl) as Hs. unfold tcp_data. wstep; [wstep; by exists s|].
  assert (data <> []) as Hne by (destruct data; [breflect; done|done]). destruct (Hd Hne) as (pre & post & HT & ->).
  wstep. eapply get_sock_wp; [exact H|]. wstep.
  { wstep. eapply wp_mono; [apply (ack_alive G); by exists s|]. winto w1 I1. by wstep. }
  breflect. destruct (take_data_ok _ _ _ _ _ data pre post (sk_rcv _ _ _ Hs)) as (r' & Hr & Hr'); [done|done|lia|].
  wstep. eapply wp_chk; [exact Hr|]. wstep. eapply wp_mono; [eapply (put_sock_wp c G _ s); [exact H|by apply sock_ok_rcv]|].
  intros ? w1 [I1 _]. wstep. eapply wp_mono; [apply (ack_alive G); by eexists|]. winto w2 I2.
  wstep. eapply wp_mono; [by apply wake_alive|]. winto w3 I3. by wstep.
Qed.

Lemma drop_ok G w s : hinv G w s -> wp (pm_ip_sock_drop (c_fd c)) (fun _ w' => hok G w') w.
Proof. intros H. eapply wp_mono; [by eapply drop_wp|]. winto w1 I1. exists None. exact I1. Qed.

Lemma tcp_fin_wp G w seq : alive G w -> inc_fin G = true -> seq = c_rcv0 c + zlen (inc G) ->
  wp (tcp_fin deliver (c_ptr c) seq 0) (fun _ w' => hok G w') w.
Proof.
  intros [s H] Hf ->. pose proof (hi_ok _ _ _ _ H s eq_refl) as Hs. unfold tcp_fin. wstep. eapply get_sock_wp; [exact H|]. wstep.
  { wstep. eapply wp_mono; [apply (ack_alive G); by exists s|]. winto w1 I1. wstep. by apply alive_hok. }
  breflect. pose proof (sk_rcv _ _ _ Hs) as Hr. rewrite Z.add_0_r, u32_small in Heqb by (destruct Hr; lia). rewrite Hf in Hr.
  wstep. eapply wp_mono; [eapply upd_alive; [exact H|]|].
  { pose proof (take_fin_ok _ _ _ _ Hr (eq_sym Heqb)) as Hr'. destruct Hs. constructor; try done; cbn; [|by rewrite Hf].
    unfold open_st in *. case_match; [tauto|done]. }
  winto w1 I1. wstep. eapply wp_mono; [by apply (ack_alive G)|]. winto w2 I2. wstep. eapply wp_mono; [by apply wake_alive|]. winto w3 K. destruct K as [s3 I3].
  pose proof (hi_ok _ _ _ _ I3 s3 eq_refl) as Hs3. wstep. eapply get_sock_wp; [exact I3|]. wstep.
  { rewrite (sk_fd _ _ _ Hs3). by eapply drop_ok. }
  wstep; [|wstep; by eexists]. apply andb_true_iff in Heqb1 as [Hcl _]. wstep.
  eapply wp_mono; [eapply (close_wp deliver c G _ s3); [exact I3|by apply Hs3]|]. winto w4 I4. by wstep.
Qed.

Lemma not_st s st : open_st (k_st s) -> ~ open_st st -> is_st (k_st s) st = false.
Proof. intros H Hn. unfold is_st. apply bool_decide_eq_false_2. by intros <-. Qed.

Lemma tcp_by_state_wp G w g src sport : alive G w -> seg_good (c_rcv0 c) (inc G) (inc_fin G) g ->
  wp (tcp_by_state deliver (c_ptr c) src sport (g_seq g) (g_flags g) (g_data g)) (fun _ w' => hok G w') w.
Proof.
  intros H Hg. pose proof H as [s Hi]. pose proof (sk_st _ _ _ (hi_ok _ _ _ _ Hi s eq_refl)) as Hst. unfold tcp_by_state. wstep. eapply get_sock_wp; [exact Hi|].
  cbv zeta. rewrite !(not_st s TCP_SYN_RCVD), (not_st s TCP_LISTEN), (not_st s TCP_SYN_SENT) by (done || unfold open_st; naive_solver). cbn [andb].
  wstep; [|wstep; by apply alive_hok]. wstep.
  destruct (has_flag (g_flags g) TCP_FIN) eqn:EF.
  - destruct (gd_fin _ _ _ _ Hg EF) as (Hf & Hd & Hs). rewrite Hd. unfold tcp_data. cbn. by apply tcp_fin_wp.
  - eapply wp_mono; [apply (tcp_data_wp G); [done|apply (gd_data _ _ _ _ Hg)]|]. intros d w1 I1. rewrite andb_false_r. wstep. by apply alive_hok.
Qed.

(** ** Finding the socket *)

(** A slot is empty or holds the connection or a bystander. *)
Definition other w (p : Z) : Prop := p <> c_ptr c /\ exists k, socks w !! p = Some k /\ bystander k.
Definition found w (s : option sock) (p : Z) : Prop := p = 0 \/ (p = c_ptr c /\ is_Some s) \/ (p <> 0 /\ other w p).

Lemma slot_cases G w s p : hinv G w s -> p ∈ sk w -> found w s p.
Proof.
  intros H [i Hi]%list_elem_of_lookup. destruct (hb_table _ _ _ (hi_base _ _ _ _ H)) as [_ Hown Hrest]. unfold found.
  destruct (decide (i = Z.to_nat (c_fd c))) as [->|Hne].
  - rewrite Hi in Hown. injection Hown as ->. destruct s; cbn; [right; left; by eauto|by left].
  - destruct (Hrest _ _ Hi Hne) as [?|?]; [by left|]. destruct (decide (p = 0)); [by left|by right; right].
Qed.

Lemma slot_wp G w s i : hinv G w s -> wp (pm_ip_sock_at i) (fun p w' => w' = w /\ found w s p) w.
Proof.
  intros H. unfold pm_ip_sock_at. wstep. split; [done|]. destruct (rd (sk w) i) as [p|] eqn:E1; [|by left]. cbn. eapply slot_cases; [exact H|].
  unfold rd in E1. case_match; [done|]. by eapply list_elem_of_lookup_2.
Qed.

(** Rewriting a bystander leaves the connection alone. *)
Lemma put_other_wp G w s p k : hinv G w s -> p <> c_ptr c -> bystander k ->
  wp (put_sock p k) (fun _ w' => hinv G w' s /\ socks w' !! p = Some k) w.
Proof.
  intros [[Hl Hsrc Hc [T1 T2 T3]] Hn HB Hs Hk Hg] Hp Hby. unfold put_sock. wstep. split; [|apply lookup_insert_eq].
  constructor; try done; [|by apply netinv_socks|cbn; by rewrite lookup_insert_ne]. constructor; [done|done|done|]. constructor; try done.
  cbn. intros i p' Hi Hne. destruct (T3 _ _ Hi Hne) as [?|(Hp' & k' & Hk' & ?)]; [by left|right]. split; [done|].
  destruct (decide (p' = p)) as [->|Hpp]; [exists k; by rewrite lookup_insert_eq|exists k'; by rewrite lookup_insert_ne].
Qed.

Definition beside (G : ghost) (s : option sock) (p : Z) w : Prop := hinv G w s /\ exists k, socks w !! p = Some k /\ bystander k.

Lemma wake_other_wp G w s p : beside G s p w -> p <> c_ptr c -> wp (pm_ip_sock_wake p) (fun _ w' => beside G s p w') w.
Proof.
  intros (H & k & Hk & Hby) Hp. unfold pm_ip_sock_wake. wstep. eapply get_at_wp; [exact Hk|]. wstep; [|wstep; split; [done|by exists k]].
  unfold post_task. do 2 wstep.
  assert (H' : hinv G (set_env (h_post (k_waiter k) (env w)) w) s).
  { eapply hinv_quiet; [exact H|]. split; [by constructor|]. apply netinv_env; [apply post_wire|apply H]. }
  assert (Hby' : bystander (set_k_waiter 0 k)) by (destruct Hby; by constructor).
  unfold upd_sock. wstep. eapply get_at_wp; [exact Hk|]. eapply wp_mono; [eapply put_other_wp; [exact H'|done|exact Hby']|].
  winto w1 K. destruct K as [? ?]. split; [done|by eexists].
Qed.

Lemma tcp_find_wp G w s src sport dst dport : hinv G w s ->
  wp (tcp_find src sport dst dport) (fun p w' => w' = w /\ found w s p) w.
Proof.
  intros H. unfold tcp_find. do 2 wstep. assert (Hsub : forall p, p ∈ sk w -> found w s p) by (intros; by eapply slot_cases).
  assert (Hl : found w s 0) by (by left). revert Hl. generalize 0. induction (sk w) as [|p t IH]; intros l Hl; cbn [tcp_find_loop]; [by wstep|].
  assert (Ht : forall p, p ∈ t -> found w s p) by (intros; apply Hsub, elem_of_cons; by right). specialize (IH Ht).
  assert (Hp : found w s p) by (apply Hsub, elem_of_cons; by left).
  wstep; [by apply IH|]. breflect. assert (exists k, socks w !! p = Some k) as [k Hk].
  { destruct Hp as [?|[[-> [k ->]]|(_ & _ & k & ? & _)]]; [done| |by exists k]. exists k. apply H. }
  wstep. eapply get_at_wp; [exact Hk|]. do 2 wstep. wstep; [by apply IH|]. wstep; [apply IH; by case_match|]. wstep; [by wstep|by apply IH].
Qed.

(** ** A segment, a packet, a frame of the peer *)

Definition theirs G : list Z -> Prop := pkt_good (swap_ends (c_ends c)) (c_rcv0 c) (inc G) (inc_fin G).

(** A bystander takes at most the segment's window. *)
Lemma segment_other_wp G w s p k src sport g : hinv G w s -> p <> c_ptr c -> socks w !! p = Some k -> bystander k ->
  seg_good (c_rcv0 c) (inc G) (inc_fin G) g ->
  wp (done_ <- tcp_ack deliver p (g_flags g) (g_ack g) ;;
      if done_ : bool then ret tt else tcp_window p (g_flags g) (g_wnd g) ;; tcp_by_state deliver p src sport (g_seq g) (g_flags g) (g_data g))
     (fun _ w' => hok G w') w.
Proof.
  intros H Hp Hk Hby Hg. wstep. unfold tcp_ack at 1. wstep. eapply get_at_wp; [exact Hk|]. cbv zeta. rewrite (proj2 (orb_true_iff _ _)).
  2: { destruct Hby as [_ _ _ Hu _ _]. destruct (snd_una (k_snd k) <? g_ack g) eqn:E1; [right; apply negb_true_iff, Z.leb_gt; breflect; lia|left; apply orb_true_r]. }
  do 2 wstep. assert (HU : forall v, wp (upd_snd p (set_snd_wnd v)) (fun _ w' => beside G s p w') w).
  { intros v. unfold upd_snd, upd_sock. wstep. eapply get_at_wp; [exact Hk|]. assert (Hby' : bystander (set_k_snd (set_snd_wnd v (k_snd k)) k)) by (destruct Hby; by constructor).
    eapply wp_mono; [eapply put_other_wp; [exact H|done|exact Hby']|]. winto w1 K. destruct K as [? ?]. split; [done|]. by eexists. }
  assert (HS : forall w', beside G s p w' ->
     wp (tcp_by_state deliver p src sport (g_seq g) (g_flags g) (g_data g)) (fun _ w2 => hok G w2) w').
  { intros w' (Hw' & k' & Hk' & [Hst _ _ _ _ _]). unfold tcp_by_state. wstep. eapply get_at_wp; [exact Hk'|]. cbv zeta. rewrite (gd_syn _ _ _ _ Hg), !andb_false_r. cbn [andb].
    destruct Hst as [-> | ->]; cbn; exists s; exact Hw'. }
  assert (HW : wp (tcp_window p (g_flags g) (g_wnd g)) (fun _ w' => beside G s p w') w).
  { assert (H0 : beside G s p w) by (split; [done|by exists k]). unfold tcp_window. wstep; [by wstep|]. wstep. eapply get_at_wp; [exact Hk|].
    wstep; [|wstep; [apply HU|by wstep]]. wstep. eapply wp_mono; [apply HU|]. winto w1 I1. by apply wake_other_wp. }
  eapply wp_mono; [exact HW|]. winto w1 I1. by apply HS.
Qed.

Lemma tcp_segment_wp G w e g : hok G w -> seg_good (c_rcv0 c) (inc G) (inc_fin G) g ->
  wp (tcp_segment deliver e g) (fun _ w' => hok G w') w.
Proof.
  intros [s H] Hg. unfold tcp_segment. wstep. eapply wp_mono; [by eapply tcp_find_wp|]. intros p w1 K. cbv beta in K. destruct K as [-> [->|[[-> [k ->]]|(H0 & Hp & k & Hk & Hby)]]]; [change (0 =? 0) with true; cbv iota; wstep; by eexists| |].
  2: { rewrite (proj2 (Z.eqb_neq _ 0)) by done. wstep. eapply get_at_wp; [exact Hk|]. rewrite (gd_rst _ _ _ _ Hg). cbn [andb]. by eapply segment_other_wp. }
  rewrite (proj2 (Z.eqb_neq _ 0)) by (eapply co_ptr, hi_conn, H). wstep. eapply get_sock_wp; [exact H|]. rewrite (gd_rst _ _ _ _ Hg). cbn [andb].
  wstep. eapply wp_mono; [eapply tcp_ack_wp; exact H|]. intros d w1 K. cbv beta in K. destruct K as [Hok Hal]. destruct d; [by wstep|]. specialize (Hal eq_refl).
  wstep. eapply wp_mono; [eapply tcp_window_wp; exact Hal|]. winto w2 I2. by apply tcp_by_state_wp.
Qed.

Lemma ends_swap e : ends_range e -> ends_range (swap_ends e).
Proof. intros []. by constructor. Qed.

Lemma ip_input_wp G w pkt n : hok G w -> theirs G pkt -> wp (ip_input_body deliver (pkt ++ replicate n 0)) (fun _ w' => hok G w') w.
Proof.
  intros H (g & Hg & Hp). pose proof H as [s Hi]. pose proof (hi_conn _ _ _ _ Hi) as Hc.
  eapply ip_input_packet_wp; [apply ends_swap, Hc|apply (gd_range _ _ _ _ Hg)|exact Hp|apply Hc|exact H|]. by apply tcp_segment_wp.
Qed.

(** ** The timers *)

Lemma payload_max_range w s : 0 <= pm_ip_tcp_payload_max w s <= IP_TCP_MSS.
Proof.
  assert (IP_TCP_MSS = 8192) by done. unfold pm_ip_tcp_payload_max. case_match; [lia|]. destruct (route_out _ _ _ _) as [[h hop]|]; [|lia]. zcase; lia.
Qed.

(** What is resent agrees with the stream. *)
Lemma rexmit_data_ok base S f q mss : snd_ok base S f q -> rexmit_len q <> 0 -> 0 <= mss ->
  exists data, rexmit_data q mss = Some data /\ zlen data <= mss /\
    (f = false /\ rexmit_flags q = 24 /\ (exists pre post, S = pre ++ data ++ post /\ rexmit_seq q = base + zlen pre) \/
     f = true /\ rexmit_flags q = 17 /\ data = [] /\ rexmit_seq q = base + zlen S).
Proof.
  intros [Hb Hw Hn Hc Hr] Hl Hm. unfold rexmit_data. destruct Hr as [?|[(-> & Hlen & -> & pre & HS & Hseq)|(-> & Hlen & _ & -> & Hseq)]]; [done| |].
  - change (ctl_of 24) with 0. rewrite u32_small by lia. set (n := if _ <? _ then _ else _).
    assert (Hnb : 0 <= n <= rexmit_len q /\ n <= mss) by (unfold n; zcase; lia). rewrite slice_is_Some by lia. eexists. split; [done|].
    change (drop (Z.to_nat 0) (rexmit q)) with (rexmit q). split; [rewrite length_take; lia|]. left. split; [done|]. split; [done|].
    exists pre, (drop (Z.to_nat n) (take (Z.to_nat (rexmit_len q)) (rexmit q))). split; [|done]. rewrite HS. f_equal.
    rewrite <- (take_drop (Z.to_nat n) (take _ _)) at 1. f_equal. rewrite take_take. f_equal. lia.
  - rewrite Hlen. change (ctl_of 17) with 1. change (u32 (1 - 1)) with 0. rewrite (proj2 (Z.ltb_ge _ _)) by lia. rewrite slice_is_Some by lia.
    exists []. split; [done|]. split; [cbn; lia|]. by right.
Qed.

Lemma snd_alive G w s f : hinv G w (Some s) -> snd_ok (c_snd0 c) (out G) (k_fin_sent s) (f (k_snd s)) ->
  wp (upd_snd (c_ptr c) f) (fun _ w' => alive G w') w.
Proof. intros H Hf. unfold upd_snd. eapply upd_alive; [exact H|]. apply sock_ok_snd; [by apply (hi_ok _ _ _ _ H)|done]. Qed.

Lemma fail_alive G w s f : hinv G w (Some s) -> snd_ok (c_snd0 c) (out G) (k_fin_sent s) (f (k_snd s)) ->
  wp (upd_sock (c_ptr c) (fun s => set_k_error true (set_k_snd (f (k_snd s)) s)) ;; pm_ip_sock_wake (c_ptr c)) (fun _ w' => hok G w') w.
Proof.
  intros H Hf. wstep. eapply wp_mono; [eapply (upd_alive G _ s); [exact H|]|].
  { apply sock_ok_error, sock_ok_snd; [by apply (hi_ok _ _ _ _ H)|done]. }
  winto w1 I1. eapply wp_mono; [by apply wake_alive|]. winto w2 I2. by apply alive_hok.
Qed.

Lemma check_sock_wp G w s now : hinv G w (Some s) -> wp (check_sock deliver now (c_ptr c)) (fun _ w' => hok G w') w.
Proof.
  intros H. pose proof (hi_ok _ _ _ _ H s eq_refl) as Hs. pose proof (sk_snd _ _ _ Hs) as Hq.
  unfold check_sock. wstep. eapply get_sock_wp; [exact H|]. cbv zeta. wstep; [wstep; by eexists|]. wstep.
  { wstep. eapply wp_mono; [eapply (close_wp deliver c G _ s); [exact H|apply Hs]|]; [by breflect|]. winto w1 I1. by wstep. }
  wstep. { wstep; [|wstep; by eexists]. apply (fail_alive G w s (set_wnd_stall_at 0)); [done|by apply snd_ok_stall]. }
  do 2 wstep. unfold id. destruct (rexmit_data_ok _ _ _ _ (pm_ip_tcp_payload_max w s) Hq) as (data & Hd & Hdl & Hcase); [by breflect|apply payload_max_range|].
  wstep. eapply wp_chk; [exact Hd|]. pose proof (payload_max_range w s). assert (IP_TCP_MSS = 8192 /\ IP_PKT_MAX = 8232) by done.
  wstep. eapply wp_mono; [eapply (emit_good_wp deliver c G _ s); [exact H|..]|].
  { destruct Hq as [? ? ? ? _]. destruct Hcase as [(_ & _ & pre & post & HS & ->)|(_ & _ & _ & ->)]; [|lia]. rewrite HS, !length_app in *. lia. }
  { destruct Hcase as [(_ & -> & _)|(_ & -> & _)]; lia. }
  { lia. }
  { by destruct Hcase as [(_ & -> & _)|(_ & -> & _)]. }
  { by destruct Hcase as [(_ & -> & _)|(_ & -> & _)]. }
  { intros Hne. by destruct Hcase as [(_ & _ & ?)|(_ & _ & ? & _)]. }
  { destruct Hcase as [(_ & -> & _)|(Hf & -> & ? & ?)]; [done|]. intros _. split; [by apply (sk_fin _ _ _ Hs)|done]. }
  intros tx w1 I1. cbv beta in I1.
  assert (Hup : wp (if tx =? TX_OK then upd_snd (c_ptr c) (fun q => set_rexmit_tries (u8 (rexmit_tries q + 1)) q) else ret tt) (fun _ w' => alive G w') w1).
  { wstep; [eapply (snd_alive G _ s); [exact I1|by apply snd_ok_tries]|wstep; by exists s]. }
  wstep. eapply wp_mono; [exact Hup|]. winto w2 K. destruct K as [s2 I2]. pose proof (hi_ok _ _ _ _ I2 s2 eq_refl) as Hs2.
  wstep. eapply get_sock_wp; [exact I2|]. wstep.
  - wstep; [rewrite (sk_fd _ _ _ Hs2); by eapply drop_ok|]. wstep; [rewrite (sk_fd _ _ _ Hs2); by eapply drop_ok|].
    apply (fail_alive G w2 s2 (fun q => Snd (snd_nxt q) (snd_una q) (snd_wnd q) (iss q) (rexmit q) 0 (rexmit_seq q)
          (rexmit_flags q) (rexmit_tries q) 0 (rexmit_at q) (wnd_stall_at q))); [done|]. destruct (sk_snd _ _ _ Hs2). constructor; try done. by left.
  - eapply wp_mono; [eapply (snd_alive G _ s2); [exact I2|apply snd_ok_at, Hs2]|]. winto w3 I3. by apply alive_hok.
Qed.

Lemma check_loop_wp G fuel w now i : hok G w -> i <= Z.of_nat (c_cap c) < Z.of_nat fuel + i ->
  wp (check_loop deliver fuel now i) (fun _ w' => hok G w') w.
Proof.
  revert w i. induction fuel as [|f IH]; intros w i Hw Hf; cbn [check_loop]; [lia|]. destruct Hw as [s H].
  pose proof (tb_len _ _ _ (hb_table _ _ _ (hi_base _ _ _ _ H))) as Hl. do 2 wstep. rewrite Hl. wstep; [|wstep; by exists s]. breflect.
  wstep. eapply wp_mono; [eapply slot_wp; exact H|]. intros p w1 K. cbv beta in K. destruct K as [-> Hp].
  assert (Hb : wp (if p =? 0 then ret tt else check_sock deliver now p) (fun _ w' => hok G w') w).
  { wstep; [wstep; by exists s|]. breflect. destruct Hp as [?|[[-> [k ->]]|(_ & Hp & k & Hk & Hby)]]; [done|by eapply check_sock_wp|].
    unfold check_sock. wstep. eapply get_at_wp; [exact Hk|]. cbv zeta. destruct Hby as [_ Hcl Hr _ Hw Hpf]. rewrite Hcl, Hr, Hw, Hpf.
    wstep; [wstep; by exists s|]. cbn [andb orb negb]. change (0 =? 0) with true. cbn. rewrite andb_false_r. wstep. by exists s. }
  wstep. eapply wp_mono; [exact Hb|]. winto w1 I1. apply IH; [done|lia].
Qed.

Lemma check_timeouts_wp G fuel w : hok G w -> (c_cap c < fuel)%nat -> wp (pm_ip_tcp_check_timeouts deliver fuel) (fun _ w' => hok G w') w.
Proof.
  intros [s H] Hf. unfold pm_ip_tcp_check_timeouts. wstep. eapply wp_mono; [apply (now_quiet (ours c G)), H|].
  intros now w1 (HS & HN & _). apply check_loop_wp; [|lia]. exists s. eapply hinv_quiet; [exact H|by split].
Qed.

Lemma arp_tick_ok G w : hok G w -> wp pm_ip_arp_tick (fun _ w' => hok G w') w.
Proof. intros [s H]. eapply wp_mono; [apply (arp_tick_wp (ours c G)), H|]. winto w1 Q1. exists s. by eapply hinv_quiet. Qed.
End host.
End TcpStep.
