(* ===== verification/TcpCalls.v ===== *)
(** * The calls of an application on its connection

    [send], [recv] and [close] of the socket interface and the arrival of a
    frame, on a host that satisfies [TcpInv.hinv]: what each adds to the
    streams. *)
From S2P Require Import Prelude Ip IpWire IpLink IpTcp IpInput IpNet TcpSeg TcpInv TcpStep.

Module TcpCalls.
Import Ip IpWire IpLink IpTcp IpInput IpNet TcpSeg TcpInv TcpStep.

Definition with_out (o : list Z) (f : bool) (G : ghost) : ghost := Ghost o f (inc G) (inc_fin G) (got G).
Definition with_inc (i : list Z) (f : bool) (G : ghost) : ghost := Ghost (out G) (out_fin G) i f (got G).
Definition with_got (r : list Z) (G : ghost) : ghost := Ghost (out G) (out_fin G) (inc G) (inc_fin G) r.

(** ** Claiming sequence numbers for data *)

Lemma reserve_data base S q data now : snd_ok base S false q -> data <> [] -> rexmit_len q + zlen data <= zlen (rexmit q) ->
  base + zlen S + zlen data + 1 < 4294967296 ->
  exists q', reserve 24 data (zlen data) now q = Some q' /\ snd_ok base (S ++ data) false q' /\
    snd_ok base S false (unreserve (snd_nxt q) (rexmit_len q) q').
Proof.
  intros [Hb Hw Hn Hc Hr] Hd Hl Hroom. cbn [b2z] in Hn. assert (Hd' : 0 < zlen data) by (destruct data; [done|cbn; lia]).
  assert (Hlen : 0 <= rexmit_len q) by (destruct Hr as [?|[(_ & ? & _)|(? & _)]]; [lia|lia|done]).
  destruct (queue_append (rexmit q) data (rexmit_len q)) as (b' & HB & L & TK); [lia|lia|].
  unfold reserve. rewrite (proj2 (Z.eqb_neq (zlen data) 0)) by lia. cbn [negb]. rewrite HB, some_bind.
  eexists. split; [done|]. rewrite !(u32_small (rexmit_len q + _)), !(u32_small (snd_nxt q + _)) by lia. split.
  - constructor; cbn; rewrite ?length_app, ?L; try done; try lia. right; left. cbn. rewrite L, TK.
    destruct Hr as [Hr|[(_ & Hlen' & Hf & pre & HS & Hs)|(? & _)]]; [| |done].
    + rewrite Hr, Z.eqb_refl. split_and!; [done|lia|lia|done|]. exists S. split; [done|lia].
    + rewrite (proj2 (Z.eqb_neq (rexmit_len q) 0)) by lia. split_and!; [done|lia|lia|done|]. exists pre. split; [|done].
      rewrite HS at 1. by rewrite <- (assoc_L (++)).
  - constructor; cbn; rewrite ?L; try done; try lia. destruct Hr as [Hr|[(_ & Hlen' & Hf & pre & HS & Hs)|(? & _)]]; [by left| |done].
    right; left. cbn. rewrite L, (proj2 (Z.eqb_neq (rexmit_len q) 0)) by lia. split_and!; try done; try lia. exists pre. split; [|done].
    rewrite HS at 1. f_equal. apply (f_equal (take (Z.to_nat (rexmit_len q)))) in TK.
    rewrite take_take, take_app_length' in TK by (rewrite length_take; lia). rewrite <- TK. f_equal. lia.
Qed.

Section host.
Context {E : Type} `{!Host E, !HostLaws E, !Wire E, !WireLaws E}.
Local Open Scope metal_scope.
Local Abbreviation stack := (stack E).
Local Abbreviation IpM := (IpM E).
Variable c : conn.
Variable fuel : nat.
Implicit Types (w : stack) (G : ghost).
Local Abbreviation hinv := (hinv c).
Local Abbreviation hok := (hok c).
Local Abbreviation alive := (alive c).
Local Abbreviation deliver := (ip_input (E := E) fuel).

(** ** Frames *)

Lemma hinv_rx G w s h : hinv G w s -> hinv G (set_rx_l2 h w) s.
Proof. intros [[? ? ? []] [] ? ? ? ?]. constructor; try done; constructor; try done; by constructor. Qed.

Lemma count_quiet G w h : hok G w -> hok G (set_env (h_count_rx h (env w)) w).
Proof. intros [s H]. exists s. eapply hinv_quiet; [exact H|]. split; [by constructor|]. apply netinv_env; [apply count_wire|apply H]. Qed.

Lemma frame_head (mac rest : list Z) t : length mac = 12%nat -> 0 <= t < 65536 -> pm_ip_read_be16 (mac ++ be16 t ++ rest) 12 = Some t.
Proof.
  intros Hm Ht. assert (zlen mac = 12) as <- by lia. apply read16_at; [|..|done].
  - replace (zlen mac) with (zlen mac + 0) by lia. rewrite rd_mid by (cbn; lia). done.
  - rewrite rd_mid by (cbn; lia). done.
Qed.

Lemma rx_from_wp G w h f : (0 < fuel)%nat -> hok G w -> frame_good (theirs c G) f ->
  wp (pm_metal_net_ip_rx_from fuel h f) (fun _ w' => hok G w') w.
Proof.
  intros Hfuel [s H] Hf. assert (Hlen : 14 <= zlen f).
  { destruct Hf as [(mac & body & Hm & ->)|(pkt & (mac & pad & Hm & ->) & _)]; rewrite !length_app, Hm; cbn; lia. }
  unfold pm_metal_net_ip_rx_from. rewrite (proj2 (Z.eqb_neq _ 0)) by lia. do 6 wstep. rewrite (proj2 (Z.leb_le _ _)) by done.
  set (w1 := set_env _ _). assert (I1 : hok G w1) by (apply count_quiet; exists s; by apply hinv_rx).
  assert (Hback : forall w2, hok G w2 -> wp (modify (set_rx_l2 (rx_l2 w)) ;; ret 0) (fun _ w' => hok G w') w2).
  { intros w2 [s2 I2]. do 3 wstep. exists s2. by apply hinv_rx. }
  destruct Hf as [(mac & body & Hm & ->)|(pkt & (mac & pad & Hm & ->) & Hp)]; rewrite frame_head by (done || lia).
  - change (2054 =? 2054) with true. cbv iota. wstep. destruct I1 as [s1 I1].
    eapply wp_mono; [apply (arp_input_wp (ours c G)), I1|]. winto w2 Q2. apply Hback. exists s1. by eapply hinv_quiet.
  - change (2048 =? 2054) with false. change (2048 =? 2048) with true. cbv iota. destruct fuel as [|f']; [lia|]. cbn [ip_input].
    replace (drop 14 _) with (pkt ++ replicate pad 0) by (rewrite (assoc_L (++)); by rewrite drop_app_length' by (rewrite length_app, Hm; done)).
    wstep. eapply wp_mono; [by eapply ip_input_wp|]. winto w2 I2. by apply Hback.
Qed.

(** ** The socket of a call *)

Lemma sock_get_wp G w s k : hinv G w s -> wp (sock_get (c_fd c) k) (fun p w' => w' = w /\ (p = 0 \/ (p = c_ptr c /\ is_Some s))) w.
Proof.
  intros H. unfold sock_get. wstep. eapply sock_at_wp; [exact H|]. wstep; [wstep; by auto|].
  destruct s as [q|]; [|done]. wstep. eapply get_sock_wp; [exact H|].
  wstep; [wstep; by auto|]. destruct k; [wstep|]; wstep; split; eauto.
Qed.

Lemma waiter_alive G w v : alive G w -> wp (upd_sock (c_ptr c) (set_k_waiter v)) (fun _ w' => alive G w') w.
Proof. intros [s H]. eapply upd_alive; [exact H|]. by apply sock_ok_waiter, (hi_ok _ _ _ _ H). Qed.

Lemma consume_park_wp G w : alive G w -> wp (sock_consume_park (c_ptr c)) (fun _ w' => alive G w') w.
Proof.
  intros H. pose proof H as [s Hi]. unfold sock_consume_park, current_task. do 3 wstep. eapply get_sock_wp; [exact Hi|].
  wstep; [by apply waiter_alive|by wstep].
Qed.
Lemma park_wp G w : alive G w -> wp (park (c_ptr c)) (fun _ w' => alive G w') w.
Proof. intros H. unfold park, current_task. do 2 wstep. wstep; [by apply waiter_alive|by wstep]. Qed.

(** ** Receiving *)

Lemma with_got_nil G : with_got (got G ++ []) G = G.
Proof. unfold with_got. rewrite app_nil_r. by destruct G. Qed.

Lemma take_out_ok base T fin R r n : rcv_ok base T fin R r -> 0 <= n <= rx_len r ->
  exists o b', slice (rx r) 0 n = Some o /\ zlen o = n /\ (rest ← slice (rx r) n (rx_len r - n); blit (rx r) 0 rest) = Some b' /\
    rcv_ok base T fin (R ++ o) (Rcv (rcv_nxt r) b' (rx_len r - n) (rx_addr r) (rx_port r) (peer_fin r)).
Proof.
  intros [Hb Hw Hl Hc (rest & HT & Hf) Hn] Hr. unfold rx_cap in *.
  destruct (queue_shift (rx r) (rx_len r) n) as (b' & HB & L & TK); [lia|lia|]. rewrite slice_is_Some by lia.
  change (drop (Z.to_nat 0) (rx r)) with (rx r). eexists _, b'. split; [done|]. rewrite length_take. split; [lia|]. split; [exact HB|].
  constructor; unfold rx_cap; cbn; rewrite ?L; try done; [lia| |rewrite length_app, length_take; lia].
  exists rest. split; [|done]. rewrite TK, HT, <- (assoc_L (++)). f_equal. rewrite (assoc_L (++)). f_equal.
  rewrite <- (take_drop (Z.to_nat n) (take (Z.to_nat (rx_len r)) (rx r))) at 1. f_equal. rewrite take_take. f_equal. lia.
Qed.

Lemma recv_wp G w len : 0 <= len -> hok G w ->
  wp (pm_ip_recv_locked fuel (c_fd c) len)
     (fun r w' => hok (with_got (got G ++ r.2) G) w' /\ (r.1 = -2 -> got G = inc G /\ inc_fin G = true)) w.
Proof.
  intros Hlen [s0 H0]. unfold pm_ip_recv_locked. wstep. eapply wp_mono; [eapply sock_get_wp; exact H0|]. intros p w1 K. cbv beta in K. destruct K as [-> Hp].
  assert (Hnil : forall w' (r : Z), hok G w' -> r <> -2 -> hok (with_got (got G ++ []) G) w' /\ (r = -2 -> got G = inc G /\ inc_fin G = true)).
  { intros w' r Hw Hr. split; [by rewrite with_got_nil|done]. }
  wstep; [wstep; apply Hnil; [by exists s0|done]|]. destruct Hp as [->|[-> [k ->]]]; [done|].
  wstep. eapply wp_mono; [apply (consume_park_wp G); by exists k|]. winto w1 K. destruct K as [s H]. pose proof (hi_ok _ _ _ _ H s eq_refl) as Hs.
  wstep. eapply get_sock_wp; [exact H|]. cbv zeta. wstep; [wstep; apply Hnil; [by exists (Some s)|done]|].
  destruct (sk_rcv _ _ _ Hs) as [Hb Hw Hl Hc (rest & HT & Hf) Hn] eqn:E0. clear E0.
  wstep.
  { breflect. wstep.
    - wstep. cbn [fst Datatypes.snd]. rewrite with_got_nil. split; [by exists (Some s)|]. intros _. destruct (Hf eq_refl) as [Hfin ->]. split; [|done].
      rewrite HT, Heqb1. cbn. by rewrite app_nil_r.
    - wstep. eapply wp_mono; [apply (park_wp G); by exists s|]. winto w2 I2. wstep. apply Hnil; [by apply alive_hok|done]. }
  set (n := if _ <? _ then _ else _). assert (Hnb : 0 <= n <= rx_len (k_rcv s)) by (unfold n; breflect; zcase; lia).
  destruct (take_out_ok _ _ _ _ _ n (sk_rcv _ _ _ Hs) Hnb) as (o & b' & Ho & Lo & HB & Hr').
  wstep. eapply wp_chk; [exact Ho|]. apply bind_Some in HB as (x & Hx & HB). wstep. eapply wp_chk; [exact Hx|]. wstep. eapply wp_chk; [exact HB|].
  assert (HI : forall s', sock_ok c (with_got (got G ++ o) G) s' -> wp (put_sock (c_ptr c) s') (fun _ w' => hinv (with_got (got G ++ o) G) w' (Some s')) w1).
  { intros s' Hs'. unfold put_sock. wstep. apply hinv_intro; [apply hbase_put, (hi_base _ _ _ _ H)|apply netinv_socks, (hi_net _ _ _ _ H)|apply H|apply lookup_insert_eq|done]. }
  wstep. eapply wp_mono; [apply HI|]. { destruct Hs. constructor; try done; cbn; exact Hr'. }
  intros ? w2 I2. cbv beta in I2. wstep.
  assert (HA : wp (if negb (n =? 0) then pm_ip_tcp_xmit deliver (c_ptr c) TCP_ACK [] ;; ret tt else ret tt) (fun _ w' => alive (with_got (got G ++ o) G) w') w2).
  { wstep; [|wstep; by eexists]. wstep. eapply wp_mono; [apply ack_alive; by eexists|]. winto w3 I3. by wstep. }
  eapply wp_mono; [exact HA|]. winto w3 I3. wstep. cbn [fst Datatypes.snd]. split; [by apply alive_hok|]. lia.
Qed.

(** ** The streams grow *)

Lemma rcv_ok_grows base T fin R r T' fin' : rcv_ok base T fin R r -> grows T fin T' fin' -> T' = T \/ base + zlen T' + 1 < 4294967296 ->
  rcv_ok base T' fin' R r.
Proof.
  intros [Hb Hw Hl Hc (rest & -> & Hf) Hn] [[k ->] Hg] Hw'. constructor; try done; [by destruct Hw' as [-> | ?]|]. exists (rest ++ k). split; [by rewrite <- !(assoc_L (++))|].
  intros Hp. destruct (Hf Hp) as [Hfin ->]. destruct (Hg Hfin) as [E1 ->]. split; [done|]. cbn. apply (f_equal length) in E1. rewrite !length_app in E1.
  destruct k; [done|]. cbn in E1. lia.
Qed.

Lemma hinv_inc G w s i f : hinv G w s -> grows (inc G) (inc_fin G) i f -> i = inc G \/ c_rcv0 c + zlen i + 1 < 4294967296 -> hinv (with_inc i f G) w s.
Proof.
  intros [] Hg Hw. constructor; try done; [|cbn; etrans; [done|apply Hg]]. intros k Hk. destruct (hi_ok0 k Hk). constructor; try done.
  by eapply rcv_ok_grows.
Qed.

(** ** Closing *)

Lemma hinv_out G w s o f : hinv G w s -> grows (out G) (out_fin G) o f -> bytes_ok o ->
  (forall k, s = Some k -> sock_ok c (with_out o f G) k) -> hinv (with_out o f G) w s.
Proof. intros [] Hg HB Hk. constructor; try done. eapply netinv_mono; [|done]. intros p. by apply pkt_good_grows. Qed.

Lemma close_locked_wp G w : hok G w -> wp (pm_ip_close_locked fuel (c_fd c)) (fun _ w' => hok (with_out (out G) true G) w') w.
Proof.
  intros [s0 H0].
  assert (H : hinv (with_out (out G) true G) w s0).
  { apply hinv_out; [done|apply grows_close|apply H0|]. intros k ->. destruct (hi_ok _ _ _ _ H0 k eq_refl). by constructor. }
  unfold pm_ip_close_locked. wstep. eapply wp_mono; [eapply sock_get_wp; exact H|]. intros p w1 K. cbv beta in K. destruct K as [-> Hp].
  wstep; [wstep; by exists s0|]. destruct Hp as [->|[-> [s ->]]]; [done|]. wstep. eapply get_sock_wp; [exact H|]. pose proof (hi_ok _ _ _ _ H s eq_refl) as Hs.
  do 2 wstep. rewrite (sk_tcp _ _ _ Hs), (not_st s TCP_LISTEN) by (apply Hs || unfold open_st; naive_solver). change (is_kind SK_TCP SK_TCP) with true. cbn [andb].
  do 2 wstep. wstep.
  - wstep. eapply wp_mono; [eapply (close_wp deliver c _ _ s); [exact H|done]|]. winto w2 I2. by wstep.
  - wstep. eapply wp_mono; [eapply drop_ok; exact H|]. winto w2 I2. by wstep.
Qed.

(** ** Sending *)

Lemma with_out_nil G : out_fin G = false -> with_out (out G ++ []) false G = G.
Proof. intros H. unfold with_out. rewrite app_nil_r, <- H. by destruct G. Qed.

Lemma rexmit_len_range base S f q : snd_ok base S f q -> 0 <= rexmit_len q <= zlen (rexmit q).
Proof. intros [_ _ _ Hc [?|[(_ & ? & _)|(_ & ? & _)]]]; lia. Qed.

Lemma if_min a b : (if b <? a then b else a) = Z.min a b.
Proof. zcase; lia. Qed.

Lemma plan_send_take base S f w s len n : snd_ok base S f (k_snd s) -> plan_send w s len = Take n -> 0 <= len ->
  k_st s = TCP_ESTAB /\ 0 <= n <= len /\ 40 + n <= IP_PKT_MAX /\ rexmit_len (k_snd s) + n <= zlen (rexmit (k_snd s)).
Proof.
  intros Hq Hp Hlen. pose proof (rexmit_len_range _ _ _ _ Hq) as Hl. pose proof (so_cap _ _ _ _ Hq) as Hc. unfold plan_send, rexmit_cap in Hp. pose proof (payload_max_range w s) as Hm.
  assert (IP_TCP_MSS = 8192 /\ IP_PKT_MAX = 8232) as [? ?] by done.
  rewrite (u32_small (zlen (rexmit (k_snd s)) - rexmit_len (k_snd s))) in Hp by lia. revert Hp.
  destruct (is_st (k_st s) TCP_ESTAB) eqn:Est; [|done]. apply bool_decide_eq_true in Est. cbn [negb orb].
  destruct (k_error s); [done|]. destruct (snd_wnd _ <=? _) eqn:Ew; [by destruct (peer_fin _)|]. breflect. rewrite !if_min.
  destruct (_ =? 0) eqn:E1; [done|]. destruct (_ =? 0) eqn:E2 in |- *; [done|]. intros [= <-]. breflect. split_and!; try done; lia.
Qed.

Lemma send_wp G w buf : hok G w -> out_fin G = false -> bytes_ok buf -> c_snd0 c + zlen (out G) + zlen buf + 1 < 4294967296 ->
  wp (pm_ip_send_locked fuel (c_fd c) buf) (fun r w' => hok (with_out (out G ++ take (Z.to_nat r) buf) false G) w') w.
Proof.
  intros [s0 H0] Hfin Hbuf Hroom. unfold pm_ip_send_locked. wstep. eapply wp_mono; [eapply sock_get_wp; exact H0|]. intros p w1 K. cbv beta in K. destruct K as [-> Hp].
  assert (Hnil : forall w' r, hok G w' -> r <= 0 -> hok (with_out (out G ++ take (Z.to_nat r) buf) false G) w').
  { intros w' r Hw Hr. rewrite (Z2Nat.nonpos r) by lia. by rewrite with_out_nil. }
  wstep; [wstep; apply Hnil; [by exists s0|done]|]. destruct Hp as [->|[-> [k ->]]]; [done|].
  wstep. eapply wp_mono; [apply (consume_park_wp G); by exists k|]. winto w1 K. destruct K as [s H]. pose proof (hi_ok _ _ _ _ H s eq_refl) as Hs.
  wstep. eapply get_sock_wp; [exact H|]. do 2 wstep. unfold id. pose proof (sk_snd _ _ _ Hs) as Hq.
  destruct (plan_send w1 s (zlen buf)) as [| | |n] eqn:Epl.
  { wstep. apply Hnil; [by exists (Some s)|done]. }
  { wstep. eapply wp_mono; [apply (park_wp G); by exists s|]. winto w2 K. destruct K as [s2 I2]. wstep. eapply wp_mono; [apply (now_quiet (ours c G)), I2|].
    intros now w3 (HS & HN & _). assert (I3 : hinv G w3 (Some s2)) by (eapply hinv_quiet; [exact I2|by split]). wstep.
    eapply wp_mono; [eapply (snd_alive c G _ s2); [exact I3|apply snd_ok_stall, (hi_ok _ _ _ _ I3 s2 eq_refl)]|]. winto w4 I4. wstep. apply Hnil; [by apply alive_hok|done]. }
  { wstep. eapply wp_mono; [apply (park_wp G); by exists s|]. winto w2 I2. wstep. apply Hnil; [by apply alive_hok|done]. }
  destruct (plan_send_take _ _ _ _ _ _ _ Hq Epl) as (Hst & Hn & Hmax & Hfit); [lia|].
  wstep; [wstep; apply Hnil; [by exists (Some s)|done]|]. breflect. rewrite slice_is_Some by lia. wstep. eapply wp_chk; [done|].
  change (drop (Z.to_nat 0) buf) with buf. set (data := take (Z.to_nat n) buf). assert (Ld : zlen data = n) by (unfold data; rewrite length_take; lia).
  assert (Hfs : k_fin_sent s = false) by (destruct (k_fin_sent s) eqn:E1; [|done]; pose proof (sk_fin _ _ _ Hs E1); congruence). rewrite Hfs in Hq.
  set (G' := with_out (out G ++ data) false G).
  assert (HG : grows (out G) (out_fin G) (out G ++ data) false) by (rewrite Hfin; apply grows_app).
  assert (Hres : forall now, exists q', reserve 24 data n now (k_snd s) = Some q' /\ snd_ok (c_snd0 c) (out G ++ data) false q' /\
     snd_ok (c_snd0 c) (out G) false (unreserve (snd_nxt (k_snd s)) (rexmit_len (k_snd s)) q')).
  { intros now. rewrite <- Ld. apply reserve_data; [done|destruct data; [cbn in *; lia|done]|lia|lia]. }
  wstep. change (Z.lor TCP_PSH TCP_ACK) with 24. pose proof (snd_nxt_range _ _ _ _ Hq) as Hnx.
  eapply wp_mono; [apply (xmit_claim_wp deliver c (ours c G) w1 s 24 data n)|]; try done; try apply H; try (by eapply ends_of_sock; [apply H|]).
  { change (ctl_of 24) with 0. lia. }
  { assert (IP_PKT_MAX = 8232) by done. lia. }
  { unfold rexmit_cap. pose proof (rexmit_len_range _ _ _ _ Hq). pose proof (so_cap _ _ _ _ Hq). rewrite u32_small; lia. }
  { intros now. destruct (Hres now) as (q' & Hq' & _). by exists q'. }
  { rewrite Ld. lia. }
  intros tx w2 K. cbv beta in K. destruct K as (Hb2 & now & q' & Hq' & Hcase). destruct (Hres now) as (q2 & Hq2 & Hok & Hun). rewrite Hq2 in Hq'. injection Hq' as ->.
  destruct Hcase as [(-> & Hs2 & HN2)|(Htx & Hs2 & HN2)].
  - assert (I2 : alive G' w2).
    { exists (set_k_snd q' s). apply hinv_intro; [done| |apply Forall_app; split; [apply H|by apply Forall_take]|done|].
      - eapply netinv_mono; [|exact HN2]. intros p [Hp|Hp]; [by eapply pkt_good_grows|]. eexists. split; [|exact Hp]. constructor; try done.
        + constructor; cbn; try done; [by eapply rcv_nxt_range, Hs|apply wnd_of_range|rewrite Ld; lia|by apply Forall_take].
        + intros _. exists (out G), []. rewrite app_nil_r. split; [done|]. cbn. destruct Hq as [_ _ Hn' _ _]. cbn [b2z] in Hn'. lia.
      - destruct Hs. constructor; try done; cbn; [intros E1%sk_closed0; congruence|intros E1%sk_fin0; congruence|by rewrite Hfs]. }
    change (TX_OK =? TX_WAIT) with false. change (TX_OK =? TX_OK) with true. cbv iota. cbn [negb]. wstep.
    assert (HP : wp (if n <? zlen buf then park (c_ptr c) else ret tt) (fun _ w' => alive G' w') w2) by (wstep; [by apply park_wp|by wstep]).
    eapply wp_mono; [exact HP|]. winto w3 I3. wstep. by apply alive_hok.
  - assert (I2 : hinv G w2 (Some (set_k_snd (unreserve (snd_nxt (k_snd s)) (rexmit_len (k_snd s)) q') s))).
    { apply hinv_intro; try done; [apply H|]. apply sock_ok_snd; [done|]. by rewrite Hfs. }
    wstep; [|breflect; rewrite (proj2 (Z.eqb_neq _ _) Htx); cbn [negb]; wstep; apply Hnil; [by eexists|done]].
    unfold current_task, post_task. do 2 wstep. wstep; wstep; wstep.
    + apply Hnil; [|done]. eexists. eapply hinv_quiet; [exact I2|]. split; [by constructor|]. apply netinv_env; [apply post_wire|apply I2].
    + apply Hnil; [by eexists|done].
Qed.
End host.
End TcpCalls.
