(* ===== verification/TcpNet.v ===== *)
(** * Two hosts and the network between them

    Two stacks with one established connection between them, their
    applications, and a network that loses, delays, repeats and reorders
    frames: any frame a host has put on the wire since may reach the other at
    any time, any number of times, or never.  Whatever the schedule, no
    operation faults or runs out of fuel, and what an application has read is a
    prefix of what the other has written. *)
From S2P Require Import Prelude Ip IpWire IpLink IpTcp IpInput IpNet TcpSeg TcpInv TcpStep TcpCalls.

Module TcpNet.
Import Ip IpHost IpWire IpLink IpTcp IpInput IpNet TcpSeg TcpInv TcpStep TcpCalls.

Section net.
Context {E : Type} `{!Host E, !HostLaws E, !Wire E, !WireLaws E}.

(** A host with what its application has done: the bytes it has sent, whether
    it has closed, the bytes it has read, whether it has read the end. *)
Record seat := Seat { n_w : stack E; n_sent : list Z; n_closed : bool; n_read : list Z; n_eof : bool }.
Record net := Net { na : seat; nb : seat }.

(** What can happen at a host: calls of its application, the two halves of the
    pump's timer work, the arrival of a frame, and a change of the world around
    the stack that sends nothing. *)
Inductive event := Send (buf : list Z) | Recv (len : Z) | Close | Timeouts | Arp | Arrive (h : Z) (f : list Z) | World (e : E).

(** The application writes bytes, not after closing and fewer than the
    sequence space holds; a frame comes from the peer's wire. *)
Definition allowed (c : conn) (n peer : seat) (ev : event) : bool :=
  match ev with
  | Send buf => negb (n_closed n) && bool_decide (bytes_ok buf) && (c_snd0 c + zlen (n_sent n) + zlen buf + 1 <? 4294967296)
  | Recv len => 0 <=? len
  | Arrive _ f => bool_decide (f ∈ (frames (env (n_w peer))).*2)
  | World e => bool_decide (frames e = frames (env (n_w n)))
  | Close | Timeouts | Arp => true
  end.

Definition ending {A} (r : outcome (stack E) A) (k : A -> stack E -> seat) : option seat :=
  match r with Done a w => Some (k a w) | Fault | NoFuel => None end.

(** [None] when the stack faults or runs out of fuel. *)
Definition handle (fuel : nat) (fd : Z) (ev : event) (n : seat) : option seat :=
  let keep w := Seat w (n_sent n) (n_closed n) (n_read n) (n_eof n) in
  match ev with
  | Send buf => ending (pm_ip_send_locked fuel fd buf (n_w n)) (fun r w => Seat w (n_sent n ++ take (Z.to_nat r) buf) (n_closed n) (n_read n) (n_eof n))
  | Recv len => ending (pm_ip_recv_locked fuel fd len (n_w n)) (fun r w => Seat w (n_sent n) (n_closed n) (n_read n ++ r.2) (n_eof n || (r.1 =? -2)))
  | Close => ending (pm_ip_close_locked fuel fd (n_w n)) (fun _ w => Seat w (n_sent n) true (n_read n) (n_eof n))
  | Timeouts => ending (pm_ip_tcp_check_timeouts (ip_input fuel) fuel (n_w n)) (fun _ => keep)
  | Arp => ending (pm_ip_arp_tick (n_w n)) (fun _ => keep)
  | Arrive h f => ending (pm_metal_net_ip_rx_from fuel h f (n_w n)) (fun _ => keep)
  | World e => Some (keep (set_env e (n_w n)))
  end.

(** An event at the first host ([true]) or the second; one that is not
    allowed does not happen. *)
Definition happen (fuel : nat) (ca cb : conn) (x : bool * event) (n : net) : option net :=
  if x.1 then
    if allowed ca (na n) (nb n) x.2 then (fun m => Net m (nb n)) <$> handle fuel (c_fd ca) x.2 (na n) else Some n
  else
    if allowed cb (nb n) (na n) x.2 then (fun m => Net (na n) m) <$> handle fuel (c_fd cb) x.2 (nb n) else Some n.

Fixpoint history (fuel : nat) (ca cb : conn) (xs : list (bool * event)) (n : net) : option net :=
  match xs with
  | [] => Some n
  | x :: xs => n' ← happen fuel ca cb x n; history fuel ca cb xs n'
  end.

(** ** The invariant *)

Definition ghost_of (n peer : seat) : ghost := Ghost (n_sent n) (n_closed n) (n_sent peer) (n_closed peer) (n_read n).

Definition end_ok (c : conn) (n peer : seat) : Prop :=
  hok c (ghost_of n peer) (n_w n) /\ (n_eof n = true -> n_read n = n_sent peer /\ n_closed peer = true).

(** The two ends of one connection. *)
Definition linked (ca cb : conn) : Prop :=
  c_ends cb = swap_ends (c_ends ca) /\ c_rcv0 cb = c_snd0 ca /\ c_rcv0 ca = c_snd0 cb.

Definition net_ok (ca cb : conn) (n : net) : Prop := linked ca cb /\ end_ok ca (na n) (nb n) /\ end_ok cb (nb n) (na n).

Lemma linked_sym ca cb : linked ca cb -> linked cb ca.
Proof. intros (H1 & H2 & H3). split_and!; [|done|done]. rewrite H1. by destruct (c_ends ca). Qed.

Lemma hok_got c G w : hok c G w -> got G `prefix_of` inc G.
Proof. intros [s H]. apply H. Qed.

Lemma frame_from_peer ca cb (n peer : seat) f : linked ca cb -> end_ok cb peer n -> f ∈ (frames (env (n_w peer))).*2 ->
  frame_good (theirs ca (ghost_of n peer)) f.
Proof.
  intros (He & Hs & Hr) [[s Hp] _] Hf. apply list_elem_of_fmap in Hf as (hf & -> & Hf).
  pose proof (ni_wire _ _ (hi_net _ _ _ _ Hp)) as HW. rewrite Forall_forall in HW. specialize (HW _ Hf).
  unfold theirs, ours in *. cbn in *. by rewrite Hr, <- He.
Qed.

(** The peer's view after this host's application has written more. *)
Lemma end_ok_grows cb (peer n n' : seat) : end_ok cb peer n -> grows (n_sent n) (n_closed n) (n_sent n') (n_closed n') ->
  n_sent n' = n_sent n \/ c_rcv0 cb + zlen (n_sent n') + 1 < 4294967296 -> end_ok cb peer n'.
Proof.
  intros [[s Hp] He] Hg Hw. split.
  - exists s. by apply (hinv_inc cb _ _ _ (n_sent n') (n_closed n') Hp).
  - intros Ht. destruct (He Ht) as [-> Hc]. destruct Hg as [_ Hg]. by destruct (Hg Hc) as [-> ->].
Qed.

(** ** One event *)

Lemma ending_ok {A} (m : IpM E A) (k : A -> stack E -> seat) (P : seat -> Prop) w :
  wp m (fun a w' => P (k a w')) w -> exists n', ending (m w) k = Some n' /\ P n'.
Proof. unfold wp, ending. destruct (m w); [|done|done]. intros H. by eexists. Qed.

Lemma same_streams ca cb (n peer : seat) w' : linked ca cb -> end_ok ca n peer -> end_ok cb peer n -> hok ca (ghost_of n peer) w' ->
  end_ok ca (Seat w' (n_sent n) (n_closed n) (n_read n) (n_eof n)) peer /\ end_ok cb peer (Seat w' (n_sent n) (n_closed n) (n_read n) (n_eof n)).
Proof. intros _ [_ He] H Hw. by split. Qed.

Lemma handle_ok fuel ca cb (n peer : seat) ev : linked ca cb -> (c_cap ca < fuel)%nat -> end_ok ca n peer -> end_ok cb peer n ->
  allowed ca n peer ev = true -> exists n', handle fuel (c_fd ca) ev n = Some n' /\ end_ok ca n' peer /\ end_ok cb peer n'.
Proof.
  intros HL Hf Hn Hp Hal. pose proof Hn as [Hw He]. pose proof HL as (_ & Hsnd & _). destruct ev as [buf|len| | | |h f|e]; cbn [handle allowed] in *.
  - apply andb_true_iff in Hal as [[Hcl%negb_true_iff Hb%bool_decide_eq_true]%andb_true_iff Hroom%Z.ltb_lt]. apply ending_ok.
    eapply wp_mono; [apply (send_wp ca fuel (ghost_of n peer)); try done; cbn; lia|]. intros r w' Hw'. cbv beta in Hw'. split; [split; [|done]|].
    + unfold ghost_of. cbn. rewrite Hcl. exact Hw'.
    + eapply end_ok_grows; [exact Hp| |]; cbn; [rewrite Hcl; apply grows_app|]. right. rewrite length_app, length_take. lia.
  - apply Z.leb_le in Hal. apply ending_ok. eapply wp_mono; [by apply (recv_wp ca fuel (ghost_of n peer))|]. intros r w' [Hw' Hr]. cbv beta in Hr. split; [split; [exact Hw'|]|exact Hp].
    cbn. intros Ht. assert (Heof : n_read n = n_sent peer /\ n_closed peer = true).
    { destruct (n_eof n); [by apply He|]. cbn in Ht. apply Z.eqb_eq in Ht. by apply Hr. }
    destruct Heof as [Hrd Hc]. split; [|done]. pose proof (hok_got _ _ _ Hw') as Hpre. cbn in Hpre. rewrite Hrd in *.
    destruct Hpre as [k Hk]. apply (f_equal length) in Hk. rewrite !length_app in Hk. destruct r.2; [by rewrite app_nil_r|cbn in Hk; lia].
  - apply ending_ok. eapply wp_mono; [by apply (close_locked_wp ca fuel (ghost_of n peer))|]. intros r w' Hw'. split; [split; [exact Hw'|done]|].
    eapply end_ok_grows; [exact Hp|apply grows_close|by left].
  - apply ending_ok. eapply wp_mono; [by apply (check_timeouts_wp _ ca (ghost_of n peer))|]. intros ? w' Hw'. by apply (same_streams ca cb).
  - apply ending_ok. eapply wp_mono; [by apply (arp_tick_ok ca (ghost_of n peer))|]. intros ? w' Hw'. by apply (same_streams ca cb).
  - apply bool_decide_eq_true in Hal. apply ending_ok. eapply wp_mono; [apply (rx_from_wp ca fuel (ghost_of n peer)); [lia|done|]|].
    { by eapply frame_from_peer. }
    intros ? w' Hw'. by apply (same_streams ca cb).
  - apply bool_decide_eq_true in Hal. eexists. split; [done|]. apply (same_streams ca cb); try done. destruct Hw as [s H]. exists s.
    eapply hinv_quiet; [exact H|]. split; [by constructor|]. by apply netinv_env; [|apply H].
Qed.

Lemma happen_ok fuel ca cb x n : (c_cap ca < fuel)%nat -> (c_cap cb < fuel)%nat -> net_ok ca cb n ->
  exists n', happen fuel ca cb x n = Some n' /\ net_ok ca cb n'.
Proof.
  intros Ha Hb (HL & HA & HB). destruct x as [[] ev]; unfold happen; cbn [fst Datatypes.snd].
  - destruct (allowed _ _ _ _) eqn:E1; [|by eexists]. destruct (handle_ok fuel ca cb (na n) (nb n) ev) as (n' & -> & ? & ?); try done. by eexists.
  - destruct (allowed _ _ _ _) eqn:E1; [|by eexists]. destruct (handle_ok fuel cb ca (nb n) (na n) ev) as (n' & -> & ? & ?); try done; [by apply linked_sym|].
    eexists. split; [done|]. split; [done|]. by split.
Qed.

Lemma history_ok fuel ca cb xs n : (c_cap ca < fuel)%nat -> (c_cap cb < fuel)%nat -> net_ok ca cb n ->
  exists n', history fuel ca cb xs n = Some n' /\ net_ok ca cb n'.
Proof.
  intros Ha Hb. revert n. induction xs as [|x xs IH]; intros n Hn; cbn [history]; [by eexists|].
  destruct (happen_ok fuel ca cb x n Ha Hb Hn) as (n1 & -> & Hn1). rewrite some_bind. by apply IH.
Qed.

(** C1: whatever the network loses, repeats and reorders, and whatever order
    the applications call the stack in, no operation of either host faults or
    runs out of fuel, each application reads a prefix of the bytes the other
    wrote, and it is told of the end only after it has read every byte and the
    other has closed. *)
Theorem tcp_in_order fuel ca cb xs n (Ha : (c_cap ca < fuel)%nat) (Hb : (c_cap cb < fuel)%nat) (Hn : net_ok ca cb n) :
  exists n', history fuel ca cb xs n = Some n' /\
    n_read (nb n') `prefix_of` n_sent (na n') /\ n_read (na n') `prefix_of` n_sent (nb n') /\
    (n_eof (nb n') = true -> n_read (nb n') = n_sent (na n') /\ n_closed (na n') = true) /\
    (n_eof (na n') = true -> n_read (na n') = n_sent (nb n') /\ n_closed (nb n') = true).
Proof.
  destruct (history_ok fuel ca cb xs n Ha Hb Hn) as (n' & Hr & HL & [HA HAe] & HB & HBe). exists n'. split; [done|].
  split_and!; try done; [apply (hok_got _ _ _ HB)|apply (hok_got _ _ _ HA)].
Qed.
End net.

(** ** Two hosts after a handshake

    The first connects to a listener of the second, buffers of eight bytes;
    the frames of the handshake have died out. *)
Section example.
Local Open Scope metal_scope.
Let FUEL := 9%nat.
Let A := 167772161.
Let B := 167772162.

Definition boot (addr : Z) : IpM host unit :=
  pm_metal_net_ip_init true ;; pm_metal_net_ip_lo_up ;; pm_metal_net_ip_if_up_h 0 addr ;; ret tt.
Definition after {X} (m : IpM host X) (w : stack host) : stack host := match m w with Done _ w' => w' | _ => w end.
Definition hush (w : stack host) : stack host := set_env (MkHost (clk (env w)) [] (posts (env w)) (buf (env w))) w.
Definition hear (from w : stack host) : stack host := foldl (fun w f => after (pm_metal_net_ip_rx_from FUEL 0 f.2) w) w (wire (env from)).
(** The second host hears the first, then the first the second. *)
Definition exchange (ab : stack host * stack host) : stack host * stack host :=
  let b := hear ab.1 ab.2 in let a := hush ab.1 in (hear b a, hush b).

Definition caller : stack host := after (boot A ;; pm_ip_socket_locked SOCK_STREAM ;; pm_ip_connect_locked FUEL 0 B 80) (cold 8).
Definition callee : stack host := hush (after (boot B ;; pm_ip_socket_locked SOCK_STREAM ;; pm_ip_bind_locked 0 0 80 ;; pm_ip_listen_locked 0 1) (cold 8)).
Definition met : stack host * stack host := Eval vm_compute in exchange (exchange (exchange (caller, callee))).
Definition meeting : net := Net (Seat met.1 [] false [] false) (Seat (after (pm_ip_accept_locked 0) met.2) [] false [] false).

Definition conn_a : conn := Conn 1 0 4 A (-1) (Ends A B 49152 80) 2001 1001.
Definition conn_b : conn := Conn 2 1 4 0 (-1) (Ends B A 80 49152) 1001 2001.

(** A schedule written against the net it runs on. *)
Fixpoint plan (xs : list (net -> bool * event)) (n : net) : list (bool * event) :=
  match xs with
  | [] => []
  | x :: xs => x n :: match happen FUEL conn_a conn_b (x n) n with Some n' => plan xs n' | None => [] end
  end.
Definition newest (n : seat) : list Z := default [] (Datatypes.snd <$> last (frames (env (n_w n)))).
Definition oldest (n : seat) : list Z := default [] (Datatypes.snd <$> head (frames (env (n_w n)))).
Definition later (us : Z) (n : seat) : host := let e := env (n_w n) in MkHost (clk e + us) (wire e) (posts e) (buf e).
Definition text : list Z := [104; 101; 108; 108; 111; 32; 119; 111; 114; 108; 100].

(** Eleven bytes over buffers of eight: the first segment is lost, sent again
    and then arrives twice. *)
Definition schedule : list (bool * event) := Eval vm_compute in plan [
  fun _ => (true, Send text); fun _ => (false, Recv 99); fun n => (true, World (later 60000 (na n))); fun _ => (true, Timeouts);
  fun n => (false, Arrive 0 (newest (na n))); fun n => (false, Arrive 0 (oldest (na n))); fun _ => (false, Recv 5);
  fun n => (true, Arrive 0 (newest (nb n))); fun n => (true, Send (drop (length (n_sent (na n))) text)); fun _ => (true, Close);
  fun n => (false, Arrive 0 (newest (na n))); fun _ => (false, Recv 99); fun n => (true, Arrive 0 (newest (nb n)));
  fun n => (false, Arrive 0 (newest (na n))); fun n => (false, Arrive 0 (newest (na n))); fun _ => (false, Recv 99)] meeting.

Ltac concrete_end :=
  eexists; apply hinv_intro;
  [ constructor;
    [ done
    | intros s H1 H2; unfold src_for; rewrite H1, H2; vm_compute; reflexivity
    | constructor; try done; try (constructor; done); cbn; lia
    | constructor; [done|done|]; intros i p Hi Hne;
      do 4 (destruct i as [|i]; [vm_compute in Hi; simplify_eq; first [by left|by destruct Hne|right; split; [done|eexists; split; [reflexivity|by constructor; [by right|..]]]]|]); vm_compute in Hi; done ]
  | constructor; [apply Forall_forall; intros e He; vm_compute in He; set_unfold in He; destruct_or! He; subst e; (split; [done|by left]) | exact (List.Forall_nil _)]
  | exact (List.Forall_nil _)
  | vm_compute; reflexivity
  | constructor; try done; [by left|..]; constructor; try done; try (by left); try (by exists []); cbn; lia ].

Lemma meeting_ok : net_ok conn_a conn_b meeting.
Proof.
  split; [done|]. split; (split; [|done]).
  - concrete_end.
  - concrete_end.
Qed.

Lemma tcp_in_order_witness :
  (exists n', history FUEL conn_a conn_b schedule meeting = Some n' /\
     n_read (nb n') `prefix_of` n_sent (na n') /\ n_read (na n') `prefix_of` n_sent (nb n') /\
     (n_eof (nb n') = true -> n_read (nb n') = n_sent (na n') /\ n_closed (na n') = true) /\
     (n_eof (na n') = true -> n_read (na n') = n_sent (nb n') /\ n_closed (nb n') = true)) /\
  (fun n => (n_read (nb n), n_eof (nb n))) <$> history FUEL conn_a conn_b schedule meeting = Some (text, true).
Proof.
  split; [|vm_compute; reflexivity].
  apply (tcp_in_order FUEL conn_a conn_b schedule meeting); [vm_compute; repeat constructor|vm_compute; repeat constructor|exact meeting_ok].
Defined.
End example.
End TcpNet.
